(* ===== verification/_CoqProject ===== *)
-Q . S2P
Prelude.v
GoStrings.v
GoFloat.v
Order.v
Currency.v
BidAdjustment.v
Bids.v
Auction.v
MultiBid.v
PriceGranularity.v
Targeting.v
GdprConfig.v
Gdpr.v
FloorData.v
FloorRules.v
Floors.v
FloorEnforce.v
Heap.v
FloorFetcher.v
UserSync.v
SyncChooser.v
Privacy.v
ExtWrapper.v
RequestWrapper.v
OrtbConvert.v
GoNet.v
Scrubber.v
RequestParts.v
RequestSplit.v
SplitSpec.v
VideoTracking.v
VideoUrls.v
Vast.v
VastCheck.v
VideoDemand.v
VideoWaterfall.v
VideoStats.v
VideoEndpoints.v
ErrorTypes.v
BidderCall.v
BidderSpec.v
Category.v
CategorySpec.v
Collect.v
Response.v
ResponseSpec.v
Macros.v
Injector.v
Events.v
EventsSpec.v
Cache.v
HoldAuction.v
HoldSpec.v
Rules.v
RulesSpec.v
Hooks.v
HooksSpec.v
Validate.v
ValidateSpec.v
ValidateRequest.v
ValidateRequestSpec.v
StoredRequests.v
StoredSpec.v
StoredResponses.v
Topics.v
AuctionInput.v
DashStore.v
DashEntities.v
DashVideo.v
DashReports.v
DashAuth.v
DashSpec.v
DashStats.v
SyncEndpoints.v
Blocking.v
FirstPartyData.v
AdServerTargeting.v
VideoPods.v
Amp.v
BidderInfos.v
