(* ===== verification/Prelude.v ===== *)
(** * A verification library for the ad exchange in src/ (Go)

    The program is a real-time bidding server.  For one bid request it reads privacy signals and
    price floors, sends the request to bidders, and turns their bids into a response: prices are
    adjusted and converted, bids below the floor are taken out, the auction picks a winner per
    impression, and targeting keys with price buckets are attached.  Beside auctions it keeps the
    cookie of user ids and decides which bidders may sync one.  A second server in the same
    program, the video pipeline, takes requests of players for a placement, asks the placement's
    demand sources in parallel, answers with VAST or OpenRTB and counts the beacons that come back.
    This library models the parts that carry that logic as Rocq functions on the data the code
    has, and proves what makes each part correct.

    ** Files, and what of src/ they model

    - [Prelude]: shared notation, results with errors, 64-bit integers ([wrap64], [shl_one]),
      Go's map iteration as the interfaces [MapRange] and [MapVisit], string functions, tactics
      and the hint database [go].
    - [GoStrings]: Go's [strings] package on byte strings.
    - [GoFloat]: [float64] as IEEE binary64 ([SpecFloat]), with the order used for prices,
      rounding and [strconv.FormatFloat].
    - [Order]: strict weak orders given as [less] functions, the running maximum of a loop,
      [sort.SliceStable], and [sort.Slice] as the interface [GoSort].
    - [Currency]: currency/ - rate tables, aggregate and constant conversions, validation of
      request rates, the converter with its staleness rule.
    - [BidAdjustment]: bidadjustment/ - building, merging, validating, selecting and applying
      adjustments.
    - [Bids]: exchange/entities - bids and seats.  Bids are pointers: they live in a store.
    - [Auction]: exchange/auction.go [newAuction], [bidBeats]; cache times.
    - [MultiBid]: exchange/auction.go [validateAndUpdateMultiBid].
    - [PriceGranularity]: exchange/price_granularity.go, ortb/default.go, the checks of
      endpoints/openrtb2/auction.go.
    - [Targeting]: exchange/targeting.go, key names of openrtb_ext/bid.go.
    - [GdprConfig], [Gdpr]: gdpr/ with the settings of config/ - signals, both enforcement
      algorithms, the caching enforcer builder, permissions of auctions and cookie sync.
    - [FloorData], [FloorRules], [Floors], [FloorEnforce]: floors/ and openrtb_ext/floors.go -
      the floors extension, the search for the rule that applies, the choice and validation of
      floors and their signalling in the request, and their enforcement on bids.
    - [Heap], [FloorFetcher]: floors/fetcher.go - [container/heap] under the queue of fetches, and
      the fetcher's loop, workers, channel and cache as events over one state.  [fetcher_at]
      gives the interface [Floors] is written against.
    - [UserSync], [SyncChooser]: usersync/ - the cookie with its ejection loop, and the choice
      of syncs.
    - [Privacy]: privacy/ - activity controls, CCPA and limited tracking; util/iosutil.
    - [ExtWrapper], [RequestWrapper]: openrtb_ext/request_wrapper.go - the extension objects of a
      request with their dirty flags, and the wrapper that decodes and rebuilds them.
    - [OrtbConvert]: openrtb_ext/convert_up.go, convert_down.go - OpenRTB 2.6 and 2.5.
    - [GoNet], [Scrubber]: Go's IP addresses with util/iputil, and privacy/scrubber.go.
    - [RequestParts], [RequestSplit], [SplitSpec]: exchange/utils.go [cleanOpenRTBRequests] with
      schain/ and alternate bidder codes - the parts of a bidder's request, the loop over the
      bidders with the user they share, and the theorems on what reaches them.
    - [VideoTracking], [VideoUrls], [Vast], [VastCheck], [VideoDemand], [VideoWaterfall],
      [VideoStats], [VideoEndpoints]: endpoints/video_pipeline.go, demand_adapter.go and
      vast_helpers.go - the ring of events and the set of counted impressions; URLs, addresses and
      macros; editing and resolving VAST documents; their validation; configurations and the
      winning bid; adapters, waterfall and time limits; statistics with their file; and the
      handlers as steps of one state.
    - [ErrorTypes]: errortypes/ - errors with codes and severities.
    - [BidderCall], [BidderSpec]: exchange/bidder.go, bidder_validate_bids.go, tmax_adjustments.go - one
      call of a bidder, the validity of its bids and its time.
    - [Category], [CategorySpec]: exchange/exchange.go [applyCategoryMapping] - price, category and
      duration labels and the removal of duplicates.
    - [Collect]: exchange/exchange.go [getAllBids] - the bidders' goroutines with their recovery from
      panics, the channel and the loop that receives, stored auction responses, seat non-bids.
    - [Response], [ResponseSpec]: the OpenRTB response, dsa/, util/maputil.
    - [Macros], [Injector], [Events], [EventsSpec]: macros/, injector/, endpoints/events/ and
      exchange/events.go - event URLs, their endpoint, and trackers in VAST.
    - [Cache]: exchange/auction.go [doCache] and the debug log.
    - [HoldAuction], [HoldSpec]: the stages of [HoldAuction] after the bids are in, composed over one
      store of bids, and what a response can hold.
    - [Rules], [RulesSpec]: rules/ and modules/prebid/rulesengine - rule trees, their builder, the
      module's hook and its cache.
    - [Hooks], [HooksSpec]: hooks/ - plans, and the execution of groups of hooks with their privacy
      view of the request.
    - [Blocking]: modules/prebid/ortb2blocking - lists written into requests and enforced on bids.
    - [Validate], [ValidateSpec], [ValidateRequest], [ValidateRequestSpec]: ortb/request_validator*.go
      and [validateRequest] of endpoints/openrtb2/auction.go.
    - [StoredRequests], [StoredSpec], [StoredResponses]: stored_requests/, stored_responses/,
      account/ - caches, fetchers, the events that change caches, stored responses and accounts.
    - [Topics], [AuctionInput]: privacysandbox/topics.go, and the fields of a request that are filled from
      headers, defaults and the account.
    - [FirstPartyData]: firstpartydata/ - the publisher's data and who gets it.
    - [AdServerTargeting]: adservertargeting/ - the request's own targeting keys.
    - [VideoPods]: endpoints/openrtb2/video_auction.go - ad pods to impressions and back.
    - [Amp]: amp/ with the overrides and the answer of endpoints/openrtb2/amp_auction.go, and the
      writers of consent of privacy/.
    - [SyncEndpoints]: endpoints/cookie_sync.go and setuid.go.
    - [BidderInfos]: config/bidderinfo.go, usersync/syncersbuilder.go and
      adapters/infoawarebidder.go - the infos of bidders, their aliases and syncers, and the wrapper that
      keeps requests within a bidder's capabilities.
    - [DashStore], [DashEntities], [DashVideo], [DashReports], [DashAuth], [DashStats], [DashSpec]:
      endpoints/dashboard.go - the generic store of records with its saves, fifteen kinds of
      record, the ad units and campaigns that configure the video pipeline, with the goroutines of
      requests and re-synchronisations, reports, sessions and the statistics page.

    ** How code is modelled

    Functions keep their Go names.  A nil pointer is [None], Go's [(T, error)] is [result] or an
    option, and a panic the code can reach is [None] of an option (or a constructor), never left
    out.  State that is shared is explicit: bids in a store addressed by [loc], the priority
    groups an ejector shares with the configuration, request extensions whose parse error only
    the first reader sees.  Integers are [Z] with the wrap-around written where the code can
    reach it.  A loop over a map is written against [MapRange]: its theorems hold for every order
    the runtime may choose, and where the order matters a theorem shows two orders that differ.
    A loop that changes the map it ranges over uses [MapVisit].  Random draws, clocks, HTTP
    outcomes and JSON decoding are arguments.  Not under src/ and therefore parameters:
    [golang.org/x/text/currency.ParseISO], the TCF2 consent parser and vendor list, the shortest
    form of [strconv.FormatFloat], the longest slice [make] grants ([maxImps]), the cookie encoder, the fetcher's worker pool, cache and
    URL check ([FetchEnv], which also holds [encoding/json] on floor documents), the JSON library
    ([Json], with the laws [JsonLaws] and the instance [JsonTree]), the GPP parser and, as the
    splitter takes them, impression validation and the permissions builder.  For the exchange: bidder
    adapters with the HTTP client ([Adapter]), the JSON of bids ([BidJson]) and of the cache, formatting and
    parsing of prices, XML tokens, the arguments of rule functions, native types
    ([NativeTypes]), JSON schemas, URL templates and SHA-256; for stored data the cache library
    ([MapLike], with [MapLikeLaws]) and what databases, files and networks answer; and the JSON merge
    patches of first party data, targeting and AMP ([FpdJson], [TargetingJson], [AmpLib]).  For the video pipeline:
    demand partners, the exchange, XML and [url.Parse] ([World]), case mapping outside ASCII
    ([GoCase]), the stats file's JSON ([StatsCodec]) and [strconv.ParseFloat] ([FloatParser]), each
    with an instance.

    ** What the theorems show

    - Auction: the winner of an impression is maximal for deals, price, weight, latency and key,
      and the whole auction is independent of map order; the index of bids is exact; the bid
      limit keeps the best, but may clear the winner when prices tie.
    - Currency and adjustments: a rate is found exactly when the table relates two codes, with
      the documented priority; the converter refines "last table fetched unless found stale";
      the most specific adjustment applies, merging prefers the request and preserves validity,
      and an adjusted price stays in its bounds.
    - Price buckets and targeting: a validated granularity buckets every price, by the last range that
      contains it with the rounding asked for, or at the largest maximum; targeting is
      limited to the first bids and keys fit their length.
    - GDPR: the enforcer cache is transparent; more consent never revokes a permission; a user
      id passes exactly when a purpose has a legal basis.
    - Floors: the most specific matching rule is found (up to five fields; with six the weights
      overflow 64 bits); validation of rule keys has one outcome in every visiting order;
      signalling never panics and sets each impression's floor, where a rule or default has a value, to
      that value raised to the minimum, noting the rule found in its extension; enforcement, where a
      request is subject to it, removes exactly the bids below their floor that are not exempt and
      those of unknown impressions.
    - Floors fetcher, in every interleaving: a URL has at most one task; what is served was
      validated; a tick hands the due entries to a pool with room in order of time.  With the
      pool and the channel full and no worker fetching the loop spins until [Stop], and a URL given up
      stays in progress.
    - User sync: the cookie survives storage; ejection without priority groups terminates, ejects
      the oldest ids one by one only while the cookie is too big, and fails exactly for a single id
      that is too big; with groups it can loop forever; every chosen sync is permitted,
      except that CCPA is never consulted.
    - Requests: a [user.ext] that was changed reads back as it was set; converting a request down
      and up again restores it.
    - From bids to a response: a call returns only valid bids, in any interleaving of the bidders'
      goroutines every answer is received and nothing is lost; category mapping keeps one bid per key; the
      hooks on processed responses are given only bids that bidders offered, with their price and
      creative, above their floor when floors are enforced, and a bid of a response is one these
      hooks left, checked.
    - Hooks and modules: a stage refines a step relation, reports every hook up to the first
      rejection and ends there; a hook without the right sees no user data, but for what the raw
      [user.ext] holds; a rule tree decides as its list of rules, and does nothing without rules; blocking keeps no bid that
      breaks a list its request was sent with.
    - Requests on their way in: what validation accepts is well formed and panics are characterised; the
      cache of stored data is transparent and follows its backend but for keys last written by a fetch
      or an event that was overtaken; ad pods become impressions with exactly the expected ids, which
      lead back to their pod, or panic where a slice cannot hold them; the publisher's
      data reaches only the bidders it is for; AMP's consent reaches the request unless a
      warning drops it.
    - Bidders: aliases and syncers come out the same in every order, an alias never takes its parent's
      vendor id, and a bidder is called only with media types its info declares.
    - Sync endpoints: every sync that is answered and every id that is set was allowed.
    - Dashboard: stored records are valid, as long as no negative live figure is written over a
      partner, and a quiet restart restores them; the session guard accepts exactly live tokens while
      saves are orderly; a placement that no change overtook is configured as its ad unit and the
      campaigns say.
    - Request splitting: a bidder gets copies of exactly its impressions with its own parameters
      (other members of [imp.ext] are copied as they are), a request extension that names no other bidder, its supply chain, and only permitted external ids;
      at most one request; none past a denied activity or permission; and no ids of user or device
      when any privacy rule withholds them.  External ids in [user.eids] are the exception: they
      are removed where first party data is denied, no consent rule removes them, and what is removed
      for one bidder is gone for the next.
    - Privacy: an activity is decided by its first matching rule; CCPA applies exactly to an
      opt-out with valid no-sale lists, and not at all when two signals disagree; a scrubbed
      address keeps its prefix.
    - Video pipeline: the statistics refine a log of events and their counts are exact; the ring
      returns the last events; an impression is counted once within ten minutes and a billing notice
      sent once for it; a filled request and its first beacon pay the publisher the win price; the
      waterfall takes the highest price in any order of arrival, and waits forever when an adapter
      panics; the winning bid is maximal; wrapper chains keep their impression pixels; VAST
      validation agrees with a check on the document tree; beacon URLs read back as built; outbound
      addresses are public; and after any requests the state of the handlers is the one a journal of
      them describes, and the beacon endpoints still answer.  A
      price of NaN in a beacon stops the statistics from being saved.

    ** Bounds

    No fuel stands in for a result: loops are structural, except [PrepareCookieForWrite], whose
    number of turns is an argument because the loop may not end; one turn per id is proved
    enough without priority groups, and no number is enough in the example that diverges.  The
    sifting loops of [Heap] get the length of the queue, which their order theorems show to be
    enough.  The loop of a tick is one event per turn.  The scan for pixels in a VAST document gets
    the length of the document, which is enough because every turn drops a character.
    [findRule] is proved complete up to 62 fields (where [1 << n] still fits) and ordered up to
    5, the widest schema whose weights fit.

    ** Not modelled

    Case mapping and the user-agent patterns are on ASCII; trimming knows the Unicode spaces.  Floating point follows the Go
    specification without fused operations, as compiled on amd64.  Texts of error messages are
    kept where code compares or reports them, and as constructors elsewhere.  Left out because they
    hold no decisions of the program's own: the bidder adapters (each translates to the JSON of a
    third party), loading of the host's configuration (viper; the settings the code reads are records
    here), metrics and analytics (they observe), the router and server wiring, the dashboard's pages, its proxy and
    SQL against ClickHouse, and of the video pipeline the parsing of the player's request, the OpenRTB
    request posted to partners, the bid report and the fasthttp twins of the modelled handlers.  Of
    the AMP and video endpoints the HTTP handlers around the modelled steps are left out, and
    of the modules all but the rules engine and blocking. *)
From Stdlib Require Export ZArith Lia Bool Ascii String.
From stdpp Require Export base option list gmap strings sorting pretty.

(** Go's [string] is a byte sequence; [String.string] is used throughout and
    [""] is Go's zero value.  All list notations are stdpp's. *)
Declare Scope go_scope.
Delimit Scope go_scope with go.
Notation "x =s? y" := (String.eqb x y) (at level 70, no associativity) : go_scope.
Notation "x ≠s? y" := (negb (String.eqb x y)) (at level 70, no associativity) : go_scope.
#[global] Open Scope go_scope.
#[global] Open Scope Z_scope.

(** ** Results with an error value: Go's [(T, error)] *)
Inductive result (E A : Type) : Type :=
| Ok (a : A)
| Err (e : E).
Arguments Ok {E A} a.
Arguments Err {E A} e.

Definition is_ok {E A} (r : result E A) : bool :=
  match r with Ok _ => true | Err _ => false end.

Definition rbind {E A B} (r : result E A) (k : A → result E B) : result E B :=
  match r with Ok a => k a | Err e => Err e end.

Notation "'let?' x ':=' r 'in' k" := (rbind r (λ x, k))
  (at level 10, x pattern, r at level 100, k at level 200, only parsing) : go_scope.

(** ** Automation *)
Create HintDb go.

(** Case analysis on the scrutinee of the next [match] or [if] of the goal. *)
Ltac go_destruct :=
  match goal with
  | |- context [match ?x with _ => _ end] =>
      lazymatch x with
      | context [match _ with _ => _ end] => fail
      | _ => let E := fresh "E" in destruct x eqn:E
      end
  end.

(** The same in a hypothesis. *)
Ltac go_destruct_in H :=
  match type of H with
  | context [match ?x with _ => _ end] =>
      lazymatch x with
      | context [match _ with _ => _ end] => fail
      | _ => let E := fresh "E" in destruct x eqn:E
      end
  end.

(** Boolean hypotheses to propositions. *)
Ltac go_bool :=
  repeat match goal with
  | H : (_ && _)%bool = true |- _ => apply andb_true_iff in H as [? ?]
  | H : (_ || _)%bool = false |- _ => apply orb_false_iff in H as [? ?]
  | H : negb _ = true |- _ => apply negb_true_iff in H
  | H : negb _ = false |- _ => apply negb_false_iff in H
  | H : String.eqb _ _ = true |- _ => apply String.eqb_eq in H
  | H : String.eqb _ _ = false |- _ => apply String.eqb_neq in H
  | H : Z.eqb _ _ = true |- _ => apply Z.eqb_eq in H
  | H : Z.eqb _ _ = false |- _ => apply Z.eqb_neq in H
  | H : Z.ltb _ _ = true |- _ => apply Z.ltb_lt in H
  | H : Z.ltb _ _ = false |- _ => apply Z.ltb_ge in H
  | H : Z.leb _ _ = true |- _ => apply Z.leb_le in H
  | H : Z.leb _ _ = false |- _ => apply Z.leb_gt in H
  | H : bool_decide _ = true |- _ => apply bool_decide_eq_true in H
  | H : bool_decide _ = false |- _ => apply bool_decide_eq_false in H
  end.

Ltac go_crush :=
  repeat (go_destruct; simplify_eq/=); go_bool; try done; try lia.

(** ** Machine integers: [int] and [int64] are 64 bits wide *)
Definition two64 : Z := 18446744073709551616.
Definition two63 : Z := 9223372036854775808.
(** Two's-complement reading of the low 64 bits. *)
Definition wrap64 (z : Z) : Z := (z + two63) `mod` two64 - two63.
Definition int64_range (z : Z) : Prop := - two63 ≤ z < two63.

Lemma wrap64_range z : int64_range (wrap64 z).
Proof.
  unfold int64_range, wrap64.
  pose proof (Z.mod_pos_bound (z + two63) two64 ltac:(done)). unfold two63, two64 in *. lia.
Qed.

Lemma wrap64_id z : int64_range z → wrap64 z = z.
Proof.
  unfold int64_range, wrap64, two63, two64. intros H.
  rewrite Z.mod_small; lia.
Qed.

(** Go's [1 << s] on [int]: zero once the count reaches the width. *)
Definition shl_one (s : Z) : Z :=
  if s <? 64 then wrap64 (Z.shiftl 1 s) else 0.

#[export] Hint Resolve wrap64_range : go.

(** ** Iteration over Go maps
    [for k, v := range m] visits the entries of [m] in an order the runtime chooses.
    The order is an interface: code that ranges over a map is written against [map_range],
    and its theorems hold for every order a run may take. *)
Class MapRange := {
  map_range : ∀ {V : Type}, gmap string V → list (string * V);
  map_range_perm : ∀ {V : Type} (m : gmap string V), map_range m ≡ₚ map_to_list m
}.

(** One such runtime, used to evaluate examples. *)
Definition canonical_range : MapRange := {|
  map_range := λ V m, map_to_list m;
  map_range_perm := λ V m, reflexivity _
|}.
(** And one that visits the entries backwards. *)
Program Definition reversed_range : MapRange := {| map_range := λ V m, reverse (map_to_list m) |}.
Next Obligation. intros. apply reverse_Permutation. Qed.

Section map_range.
Context `{MapRange} {V : Type}.
Implicit Types m : gmap string V.

Lemma elem_of_map_range m k v : (k, v) ∈ map_range m ↔ m !! k = Some v.
Proof. rewrite map_range_perm. apply elem_of_map_to_list. Qed.

Lemma NoDup_map_range_fst m : NoDup (map_range m).*1.
Proof. rewrite map_range_perm. apply NoDup_fst_map_to_list. Qed.

Lemma map_range_empty : map_range (∅ : gmap string V) = [].
Proof. apply Permutation_nil. by rewrite map_range_perm, map_to_list_empty. Qed.
End map_range.
#[export] Hint Resolve NoDup_map_range_fst : go.

(** A loop that changes the map it ranges over: an entry removed before it is reached is not
    visited, and one added may be or not.  The keys such a loop asks for, in order, are any list
    with every key of the initial map in it. *)
Class MapVisit := {
  map_visit : ∀ {V : Type}, gmap string V → list string;
  map_visit_all : ∀ {V : Type} (m : gmap string V) k, is_Some (m !! k) → k ∈ map_visit m
}.
Program Definition canonical_visit : MapVisit := {| map_visit := λ V m, (map_to_list m).*1 |}.
Next Obligation.
  intros V m k [v Hv]. apply list_elem_of_fmap. exists (k, v). split; [done|]. by apply elem_of_map_to_list.
Qed.

(** ** Folds that insert into a map *)
Section fold_insert.
Context {V : Type} (f : string → string) `{!Inj (=) (=) f}.
Implicit Types (l : list (string * V)) (m : gmap string V).

Definition insert_all l m : gmap string V := foldl (λ acc '(k, v), <[f k := v]> acc) m l.

Lemma lookup_insert_all_ne l m x : (∀ k, k ∈ l.*1 → f k ≠ x) → insert_all l m !! x = m !! x.
Proof.
  unfold insert_all. revert m. induction l as [|[k v] l IH]; intros m Hx; [done|]. simpl.
  rewrite IH by set_solver. apply lookup_insert_ne. apply Hx. set_solver.
Qed.

Lemma lookup_insert_all l m k v : NoDup l.*1 → (k, v) ∈ l → insert_all l m !! f k = Some v.
Proof.
  revert m. induction l as [|[k' v'] l IH]; intros m Hnd Hin; [by apply elem_of_nil in Hin|].
  simpl in Hnd. apply NoDup_cons in Hnd as [Hk Hnd].
  apply elem_of_cons in Hin as [[= <- <-]|Hin]; [|by apply IH].
  change (insert_all ((k, v) :: l) m) with (insert_all l (<[f k := v]> m)).
  rewrite lookup_insert_all_ne; [apply lookup_insert_eq|].
  intros k' Hk' ->%(inj f). done.
Qed.
End fold_insert.

(** ** Lists *)
Lemma elem_of_insert_inv {A} (l : list A) i x y : y ∈ <[i := x]> l → y = x ∨ y ∈ l.
Proof.
  intros [k Hk]%list_elem_of_lookup_1. destruct (decide (i = k)) as [->|Hne].
  - left. apply list_lookup_insert_Some in Hk as [(_ & -> & _)|[? _]]; done.
  - right. rewrite list_lookup_insert_ne in Hk by done. by eapply list_elem_of_lookup_2.
Qed.

Lemma filter_map_comm {A B} (f : A → B) (P : B → Prop) `{!∀ y, Decision (P y)} (l : list A) :
  filter P (map f l) = map f (filter (λ x, P (f x)) l).
Proof.
  induction l as [|x l IH]; [done|]. simpl. rewrite !filter_cons, IH. by destruct (decide (P (f x))).
Qed.

(** In a sorted enumeration, whatever comes before the first hit is not a hit. *)
Lemma sorted_first {A} (R : A → A → Prop) (l1 l2 : list A) x y :
  StronglySorted R (l1 ++ x :: l2) → y ∈ l1 ++ x :: l2 → ¬ R x y → y ≠ x → y ∈ l1.
Proof.
  intros Hs [Hy|[Hy|Hy]%elem_of_cons]%elem_of_app HR Hne; [done|done|].
  destruct HR. clear Hne. induction l1 as [|z l1 IH]; simpl in Hs.
  - apply StronglySorted_inv in Hs as [_ Hs]. rewrite Forall_forall in Hs. auto.
  - apply StronglySorted_inv in Hs as [Hs _]. auto.
Qed.

(** ** Characters of a string *)
Fixpoint has_char (c : ascii) (s : string) : bool :=
  match s with
  | EmptyString => false
  | String a s' => Ascii.eqb a c || has_char c s'
  end.

(** A prefix without the separator is determined by the whole. *)
Lemma append_sep_inj c a a' b b' :
  has_char c a = false → has_char c a' = false →
  a +:+ String c b = a' +:+ String c b' → a = a' ∧ b = b'.
Proof.
  revert a'. induction a as [|x a IH]; intros [|x' a'] Ha Ha' Heq; simplify_eq/=; try done.
  - by rewrite Ascii.eqb_refl in Ha'.
  - by rewrite Ascii.eqb_refl in Ha.
  - apply orb_false_iff in Ha as [_ Ha], Ha' as [_ Ha'].
    edestruct IH as [-> ->]; done.
Qed.

(** ** Go's string functions
    Case mapping is on ASCII letters; other bytes are kept. *)
Definition is_upper (a : ascii) : bool := (65 <=? N_of_ascii a)%N && (N_of_ascii a <=? 90)%N.
Definition is_lower (a : ascii) : bool := (97 <=? N_of_ascii a)%N && (N_of_ascii a <=? 122)%N.
Definition lower_ascii (a : ascii) : ascii := if is_upper a then ascii_of_N (N_of_ascii a + 32) else a.
Definition upper_ascii (a : ascii) : ascii := if is_lower a then ascii_of_N (N_of_ascii a - 32) else a.

Fixpoint string_map (f : ascii → ascii) (s : string) : string :=
  match s with EmptyString => EmptyString | String a s' => String (f a) (string_map f s') end.

(** [strings.ToLower] and [strings.ToUpper] *)
Definition ToLower : string → string := string_map lower_ascii.
Definition ToUpper : string → string := string_map upper_ascii.

(** A string in which case mapping changes nothing, a delimiter for instance. *)
Definition caseless (s : string) : Prop := ToLower s = s ∧ ToUpper s = s.

Lemma lower_upper_ascii a : is_upper a = true → upper_ascii (lower_ascii a) = a ∧ lower_ascii a ≠ a.
Proof. by destruct a as [[] [] [] [] [] [] [] []]; vm_compute. Qed.

Lemma lower_ascii_idemp a : lower_ascii (lower_ascii a) = lower_ascii a.
Proof. by destruct a as [[] [] [] [] [] [] [] []]; vm_compute. Qed.

Lemma ToLower_idemp s : ToLower (ToLower s) = ToLower s.
Proof. induction s as [|a s IH]; [done|]. unfold ToLower in *. simpl. by rewrite lower_ascii_idemp, IH. Qed.

Lemma caseless_eqb a b : lower_ascii a = a → upper_ascii a = a → Ascii.eqb a (lower_ascii b) = Ascii.eqb a b.
Proof.
  intros Hl Hu. destruct (is_upper b) eqn:E; [|by unfold lower_ascii; rewrite E].
  destruct (lower_upper_ascii b E) as [H1 H2].
  destruct (Ascii.eqb_spec a (lower_ascii b)), (Ascii.eqb_spec a b); congruence.
Qed.

Lemma prefix_ToLower p s : caseless p → String.prefix p (ToLower s) = String.prefix p s.
Proof.
  unfold caseless, ToLower, ToUpper. revert s. induction p as [|a p IH]; intros [|b s] [Hl Hu]; try done.
  injection Hl as Hla Hlp. injection Hu as Hua Hup. simpl.
  assert (a = lower_ascii b ↔ a = b) as Hab.
  { pose proof (caseless_eqb a b Hla Hua) as H. rewrite <-!Ascii.eqb_eq, H. done. }
  destruct (ascii_dec a (lower_ascii b)), (ascii_dec a b); try tauto. by apply IH.
Qed.

(** [strings.Split] at a one-byte separator. *)
Fixpoint SplitChar (sep : ascii) (s : string) : list string :=
  match s with
  | EmptyString => [""]
  | String a s' =>
      if Ascii.eqb a sep then "" :: SplitChar sep s'
      else match SplitChar sep s' with
           | part :: rest => String a part :: rest
           | [] => [String a ""]
           end
  end.

(** [strconv.Atoi]: an optional sign and decimal digits within [int]. *)
Definition digit (a : ascii) : option Z :=
  let n := Z.of_N (N_of_ascii a) in
  if (48 <=? n) && (n <=? 57) then Some (n - 48) else None.

Fixpoint digits_value (acc : Z) (s : string) : option Z :=
  match s with
  | EmptyString => Some acc
  | String a s' => match digit a with Some d => digits_value (10 * acc + d) s' | None => None end
  end.

Definition Atoi (s : string) : option Z :=
  let signed '(neg, body) :=
    if body =s? "" then None
    else match digits_value 0 body with
         | None => None
         | Some n =>
             let v := if neg : bool then - n else n in
             if (- two63 <=? v) && (v <? two63) then Some v else None
         end in
  match s with
  | String a rest =>
      if Ascii.eqb a "-" then signed (true, rest)
      else if Ascii.eqb a "+" then signed (false, rest)
      else signed (false, s)
  | EmptyString => None
  end.
