(* ===== verification/GoStrings.v ===== *)
(** * Go's [strings] package
    Searching, trimming and slicing of strings, with the lemmas on positions the VAST code relies
    on.  Indices are byte offsets; a search that fails gives [None] where Go gives [-1].  White space
    is [unicode.IsSpace] on the UTF-8 encoding. *)
From S2P Require Import Prelude.

(** ** Slices [s[:n]] and [s[n:]], for [n] within the string *)
Fixpoint str_take (n : nat) (s : string) : string :=
  match n, s with
  | S n, String a s' => String a (str_take n s')
  | _, _ => ""
  end.
Fixpoint str_drop (n : nat) (s : string) : string :=
  match n, s with
  | S n, String _ s' => str_drop n s'
  | O, _ => s
  | S _, EmptyString => ""
  end.
(** The slice expressions themselves: [None] is the panic of an index out of range. *)
Definition slice_to (s : string) (n : nat) : option string :=
  if (n <=? String.length s)%nat then Some (str_take n s) else None.
Definition slice_from (s : string) (n : nat) : option string :=
  if (n <=? String.length s)%nat then Some (str_drop n s) else None.

(** ** Searching *)
Definition HasPrefix (s p : string) : bool := String.prefix p s.
(** [strings.Index]: the first position at which [p] occurs. *)
Fixpoint Index (s p : string) : option nat :=
  if HasPrefix s p then Some 0%nat
  else match s with
       | EmptyString => None
       | String _ s' => S <$> Index s' p
       end.
(** [strings.LastIndex] *)
Fixpoint LastIndex (s p : string) : option nat :=
  match match s with EmptyString => None | String _ s' => S <$> LastIndex s' p end with
  | Some i => Some i
  | None => if HasPrefix s p then Some 0%nat else None
  end.
(** [strings.Contains] *)
Definition strContains (s p : string) : bool := bool_decide (is_Some (Index s p)).

(** ** Trimming *)
(** [unicode.IsSpace], by the bytes of the encoding: the ASCII spaces, U+0085 and U+00A0 in two
    bytes, U+1680, U+2000 to U+200A, U+2028, U+2029, U+202F, U+205F and U+3000 in three. *)
Definition is_space (a : ascii) : bool :=
  let n := N_of_ascii a in (n =? 32)%N || ((9 <=? n)%N && (n <=? 13)%N).
Definition is_space2 (a b : ascii) : bool :=
  let n := N_of_ascii b in (N_of_ascii a =? 194)%N && ((n =? 133)%N || (n =? 160)%N).
Definition is_space3 (a b c : ascii) : bool :=
  let m := N_of_ascii b in
  let n := N_of_ascii c in
  ((N_of_ascii a =? 225)%N && (m =? 154)%N && (n =? 128)%N) ||
  ((N_of_ascii a =? 226)%N && (m =? 128)%N &&
     (((128 <=? n)%N && (n <=? 138)%N) || (n =? 168)%N || (n =? 169)%N || (n =? 175)%N)) ||
  ((N_of_ascii a =? 226)%N && (m =? 129)%N && (n =? 159)%N) ||
  ((N_of_ascii a =? 227)%N && (m =? 128)%N && (n =? 128)%N).
(** The number of bytes of the space a string starts with, 0 when it does not start with one. *)
Definition space_len (s : string) : nat :=
  match s with
  | EmptyString => 0
  | String a s1 =>
      if is_space a then 1
      else match s1 with
           | EmptyString => 0
           | String b s2 =>
               if is_space2 a b then 2
               else match s2 with
                    | EmptyString => 0
                    | String c _ => if is_space3 a b c then 3 else 0
                    end
           end
  end%nat.
(** [skip] bytes of a space that began before are still to be left out. *)
Fixpoint trim_left (skip : nat) (s : string) : string :=
  match s with
  | EmptyString => ""
  | String _ s' =>
      match skip with
      | S k => trim_left k s'
      | O => match space_len s with O => s | S k => trim_left k s' end
      end
  end.
Definition TrimLeftSpace (s : string) : string := trim_left 0 s.
Fixpoint TrimRightSpace (s : string) : string :=
  match s with
  | EmptyString => ""
  | String a s' =>
      let t := String a (TrimRightSpace s') in
      if (space_len t =? String.length t)%nat then "" else t
  end.
Definition TrimSpace (s : string) : string := TrimRightSpace (TrimLeftSpace s).
Definition HasSuffix (s p : string) : bool :=
  if (String.length p <=? String.length s)%nat
  then str_drop (String.length s - String.length p) s =s? p else false.
Definition TrimPrefix (s p : string) : string := if HasPrefix s p then str_drop (String.length p) s else s.
Definition TrimSuffix (s p : string) : string :=
  if HasSuffix s p then str_take (String.length s - String.length p) s else s.

(** [strings.EqualFold] *)
Definition EqualFold (a b : string) : bool := ToLower a =s? ToLower b.

Lemma EqualFold_spec a b : EqualFold a b = true ↔ ToLower a = ToLower b.
Proof. unfold EqualFold. apply String.eqb_eq. Qed.

(** ** Lemmas *)
Lemma str_app_cons a (s t : string) : String a s +:+ t = String a (s +:+ t).
Proof. done. Qed.
Lemma str_app_nil_l (t : string) : "" +:+ t = t.
Proof. done. Qed.
(** [+:+] does not reduce by itself. *)
Ltac str_simpl := repeat (progress (simpl; rewrite ?str_app_cons, ?str_app_nil_l)).
Lemma str_take_drop n s : str_take n s +:+ str_drop n s = s.
Proof. revert n. induction s as [|a s IH]; intros [|n]; str_simpl; try done. by rewrite IH. Qed.

Lemma str_take_app s t : str_take (String.length s) (s +:+ t) = s.
Proof. induction s as [|a s IH]; str_simpl; [by destruct t|]. by rewrite IH. Qed.
Lemma str_drop_app s t : str_drop (String.length s) (s +:+ t) = t.
Proof. induction s as [|a s IH]; str_simpl; [done|]. by rewrite IH. Qed.

Lemma str_length_app s t : String.length (s +:+ t) = (String.length s + String.length t)%nat.
Proof. induction s as [|a s IH]; str_simpl; [done|]. by rewrite IH. Qed.

Lemma str_app_assoc (s t u : string) : (s +:+ t) +:+ u = s +:+ (t +:+ u).
Proof. induction s as [|a s IH]; str_simpl; [done|]. by rewrite IH. Qed.
Lemma str_app_nil_r (s : string) : s +:+ "" = s.
Proof. induction s as [|a s IH]; str_simpl; [done|]. by rewrite IH. Qed.

Lemma str_take_length n s : (n ≤ String.length s)%nat → String.length (str_take n s) = n.
Proof. revert n. induction s as [|a s IH]; intros [|n]; simpl; try lia. intros. rewrite IH; lia. Qed.
Lemma str_drop_length n s : String.length (str_drop n s) = (String.length s - n)%nat.
Proof. revert n. induction s as [|a s IH]; intros [|n]; simpl; try lia. apply IH. Qed.

(** What is trimmed is a suffix, and a string that starts with a space keeps it when it grows. *)
Lemma space_len_app s t : space_len s ≠ 0%nat → space_len (s +:+ t) = space_len s.
Proof.
  destruct s as [|a [|b [|c s]]]; str_simpl; [done|by destruct (is_space a)| |done].
  by destruct (is_space a), (is_space2 a b).
Qed.
Lemma trim_left_space_free skip s : space_len (trim_left skip s) = 0%nat.
Proof.
  revert skip. induction s as [|a s IH]; intros skip; [done|]. cbn [trim_left].
  destruct skip as [|k]; [|apply IH]. destruct (space_len (String a s)) as [|k] eqn:E; [exact E|apply IH].
Qed.
Lemma trim_left_fixed s : space_len s = 0%nat → trim_left 0 s = s.
Proof. destruct s as [|a s]; [done|]. intros E. cbn [trim_left]. by rewrite E. Qed.
Lemma TrimRightSpace_prefix s : ∃ t, s = TrimRightSpace s +:+ t.
Proof.
  induction s as [|a s [t Ht]]; [by exists ""|]. cbn [TrimRightSpace]. cbv zeta. case_match; [by eexists|].
  exists t. rewrite str_app_cons. by rewrite <-Ht.
Qed.
Lemma TrimRightSpace_idemp s : TrimRightSpace (TrimRightSpace s) = TrimRightSpace s.
Proof.
  induction s as [|a s IH]; [done|]. cbn [TrimRightSpace]. cbv zeta.
  destruct (Nat.eqb _ _) eqn:E; [done|]. cbn [TrimRightSpace]. cbv zeta. by rewrite IH, E.
Qed.
Lemma TrimSpace_idemp s : TrimSpace (TrimSpace s) = TrimSpace s.
Proof.
  unfold TrimSpace, TrimLeftSpace. rewrite (trim_left_fixed (TrimRightSpace _)); [apply TrimRightSpace_idemp|].
  destruct (TrimRightSpace_prefix (trim_left 0 s)) as [t Ht].
  destruct (Nat.eq_dec (space_len (TrimRightSpace (trim_left 0 s))) 0%nat) as [|Hn]; [done|].
  rewrite <-(space_len_app _ t Hn), <-Ht. apply trim_left_space_free.
Qed.

Lemma HasPrefix_spec s p : HasPrefix s p = true ↔ ∃ t, s = p +:+ t.
Proof.
  unfold HasPrefix. revert s. induction p as [|a p IH]; intros s.
  - split; [by exists s|by destruct s].
  - destruct s as [|b s]; simpl; [split; [done|by intros [t ?]]|].
    destruct (ascii_dec a b) as [->|Hne].
    + rewrite IH. split; intros [t Ht]; exists t; [by subst|by injection Ht].
    + split; [done|]. intros [t [= Ha _]]. by destruct Hne.
Qed.

(** [strContains] is occurrence as a factor. *)
Lemma Index_Some s p i : Index s p = Some i → ∃ t, s = str_take i s +:+ p +:+ t ∧ (i ≤ String.length s)%nat.
Proof.
  assert (∀ s, HasPrefix s p = true → ∃ t, s = str_take 0 s +:+ p +:+ t ∧ (0 ≤ String.length s)%nat) as H0.
  { intros s' [t Ht]%HasPrefix_spec. exists t. split; [by destruct s'|lia]. }
  revert i. induction s as [|a s IH]; intros i; cbn [Index].
  - destruct (HasPrefix "" p) eqn:Hp; intros; simplify_eq. by apply H0.
  - destruct (HasPrefix (String a s) p) eqn:Hp; intros Hi; simplify_eq/=; [by apply H0|].
    apply fmap_Some in Hi as (j & Hj & ->). destruct (IH j Hj) as (t & Ht & Hle).
    exists t. str_simpl. split; [by rewrite <-Ht|lia].
Qed.
Lemma Index_app pre p post : is_Some (Index (pre +:+ p +:+ post) p).
Proof.
  induction pre as [|a pre IH]; rewrite ?str_app_cons, ?str_app_nil_l.
  - assert (HasPrefix (p +:+ post) p = true) as Hp by (apply HasPrefix_spec; by eexists).
    destruct (p +:+ post); cbn [Index]; rewrite Hp; eauto.
  - cbn [Index]. destruct (HasPrefix _ _); [eauto|]. by apply fmap_is_Some.
Qed.
Lemma strContains_spec s p : strContains s p = true ↔ ∃ pre post, s = pre +:+ p +:+ post.
Proof.
  unfold strContains. rewrite bool_decide_eq_true. split.
  - intros [i (t & Ht & _)%Index_Some]. eauto.
  - intros (pre & post & ->). apply Index_app.
Qed.
Lemma LastIndex_Some s p i : LastIndex s p = Some i → ∃ t, s = str_take i s +:+ p +:+ t ∧ (i ≤ String.length s)%nat.
Proof.
  assert (∀ s, HasPrefix s p = true → ∃ t, s = str_take 0 s +:+ p +:+ t ∧ (0 ≤ String.length s)%nat) as H0.
  { intros s' [t Ht]%HasPrefix_spec. exists t. split; [by destruct s'|lia]. }
  revert i. induction s as [|a s IH]; intros i; cbn [LastIndex].
  - destruct (HasPrefix "" p) eqn:Hp; intros; simplify_eq. by apply H0.
  - destruct (LastIndex s p) as [j|] eqn:Hj; cbn [fmap option_fmap option_map]; intros Hi; simplify_eq.
    + destruct (IH j eq_refl) as (t & Ht & Hle). exists t. str_simpl. split; [by rewrite <-Ht|lia].
    + destruct (HasPrefix (String a s) p) eqn:Hp; simplify_eq. by apply H0.
Qed.
Lemma LastIndex_app pre p post : is_Some (LastIndex (pre +:+ p +:+ post) p).
Proof.
  induction pre as [|a pre IH]; rewrite ?str_app_cons, ?str_app_nil_l.
  - assert (HasPrefix (p +:+ post) p = true) as Hp by (apply HasPrefix_spec; by eexists).
    destruct (p +:+ post) as [|b s]; cbn [LastIndex]; [rewrite Hp; eauto|].
    destruct (LastIndex s p); cbn [fmap option_fmap option_map]; [eauto|]. rewrite Hp. eauto.
  - cbn [LastIndex]. destruct IH as [i ->]. simpl. eauto.
Qed.

Lemma str_app_inj_l (a b c : string) : a +:+ b = a +:+ c → b = c.
Proof. induction a; str_simpl; intros; simplify_eq; auto. Qed.

(** Two splits of one string: one left part extends the other. *)
Lemma str_app_split (a b c d : string) :
  a +:+ b = c +:+ d → (∃ e, c = a +:+ e ∧ b = e +:+ d) ∨ (∃ e, a = c +:+ e ∧ d = e +:+ b).
Proof.
  revert c. induction a as [|x a IH]; intros c; str_simpl.
  - intros ->. left. by exists c.
  - destruct c as [|y c]; str_simpl.
    + intros <-. right. by exists (String x a).
    + intros [= -> H]. destruct (IH c H) as [(e & -> & ->)|(e & -> & ->)]; [left|right]; by exists e.
Qed.

Lemma has_char_app c s t : has_char c (s +:+ t) = has_char c s || has_char c t.
Proof. induction s as [|a s IH]; str_simpl; [done|]. by rewrite IH, orb_assoc. Qed.
