(* ===== verification/GoFloat.v ===== *)
(** * Go's [float64]

    Prices, floors and conversion rates are [float64] in the source.  They are modelled by
    [spec_float] of the Standard Library with the binary64 parameters, so that rounding,
    infinities, NaN and signed zeros behave as in Go, and every definition evaluates.
    The file also holds the [math] and [strconv] functions the program calls and the lemmas on
    the order of floats that the auction and the floors rely on. *)
From S2P Require Import Prelude.
From Stdlib Require Export SpecFloat.

Definition float64 := spec_float.
Definition prec64 : Z := 53.
Definition emax64 : Z := 1024.

Definition fadd : float64 → float64 → float64 := SFadd prec64 emax64.
Definition fsub : float64 → float64 → float64 := SFsub prec64 emax64.
Definition fmul : float64 → float64 → float64 := SFmul prec64 emax64.
Definition fdiv : float64 → float64 → float64 := SFdiv prec64 emax64.
Definition feqb : float64 → float64 → bool := SFeqb.
Definition fltb : float64 → float64 → bool := SFltb.
Definition fleb : float64 → float64 → bool := SFleb.

(** Conversion of an integer, rounding to nearest even. *)
Definition fofZ (z : Z) : float64 := binary_normalize prec64 emax64 z 0 false.
(** The literal [n/d]: the double nearest to the quotient (both are exact below 2^53). *)
Definition flit (n d : Z) : float64 := fdiv (fofZ n) (fofZ d).
Definition f0 : float64 := S754_zero false.
Definition f1 : float64 := fofZ 1.

Notation "x <f? y" := (fltb x y) (at level 70, no associativity) : go_scope.
Notation "x <=f? y" := (fleb x y) (at level 70, no associativity) : go_scope.
Notation "x =f? y" := (feqb x y) (at level 70, no associativity) : go_scope.

Definition is_nan (x : float64) : bool := match x with S754_nan => true | _ => false end.

(** [math.Floor], [math.Ceil] and [math.Round] (half away from zero).  An integral
    result of a binary64 is again a binary64, so normalising is exact; signed zeros are kept. *)
Definition fint_with (f : Z → Z → Z) (x : float64) : float64 :=
  match x with
  | S754_finite s m e =>
      if 0 <=? e then x
      else
        let d := Z.shiftl 1 (- e) in
        let n := cond_Zopp s (Zpos m) in
        binary_normalize prec64 emax64 (f n d) 0 s
  | _ => x
  end.
Definition ffloor : float64 → float64 := fint_with (λ n d, n / d).
Definition fceil : float64 → float64 := fint_with (λ n d, - ((- n) / d)).
Definition fround : float64 → float64 :=
  fint_with (λ n d, if n <? 0 then - ((2 * - n + d) / (2 * d)) else (2 * n + d) / (2 * d)).

(** ** [strconv.FormatFloat(x, 'f', prec, 64)] for [prec >= 0]
    The exact decimal expansion rounded half to even at [prec] fractional digits. *)
Definition round_half_even (n d : Z) : Z :=
  let q := n / d in
  let r := n - q * d in
  match 2 * r ?= d with
  | Lt => q
  | Gt => q + 1
  | Eq => if Z.even q then q else q + 1
  end.

Fixpoint zeros (n : nat) : string :=
  match n with O => "" | S n => String "0" (zeros n) end.

Definition pad_left (n : nat) (s : string) : string := zeros (n - String.length s) +:+ s.

(** [digits] holds the value times [10^prec]; the point goes before the last [prec] digits. *)
Definition fixed_point (digits : Z) (prec : nat) : string :=
  let s := pad_left (S prec) (pretty digits) in
  let k := (String.length s - prec)%nat in
  if (prec =? 0)%nat then s
  else String.substring 0 k s +:+ "." +:+ String.substring k prec s.

Definition FormatFloat_f (x : float64) (prec : nat) : string :=
  match x with
  | S754_nan => "NaN"
  | S754_infinity s => if s then "-Inf" else "+Inf"
  | S754_zero s => (if s then "-" else "") +:+ fixed_point 0 prec
  | S754_finite s m e =>
      let scaled := Zpos m * 10 ^ Z.of_nat prec in
      let q := if 0 <=? e then Z.shiftl scaled e
               else round_half_even scaled (Z.shiftl 1 (- e)) in
      (if s then "-" else "") +:+ fixed_point q prec
  end.

Example format_half_even : FormatFloat_f (flit 1 8) 2 = "0.12".
Proof. vm_compute. reflexivity. Qed.
Example format_neg : FormatFloat_f (flit (-1999) 100) 1 = "-20.0".
Proof. vm_compute. reflexivity. Qed.

(** ** The order of binary64
    [fkey] embeds the non-NaN floats into triples compared lexicographically: sign class,
    then exponent, then mantissa (both negated below zero).  The IEEE comparison is this order. *)
Definition fkey (x : float64) : Z * Z * Z :=
  match x with
  | S754_nan => (0, 0, 0)
  | S754_zero _ => (0, 0, 0)
  | S754_infinity s => (if s then -2 else 2, 0, 0)
  | S754_finite s m e => if s then (-1, - e, - Zpos m) else (1, e, Zpos m)
  end.

Definition lex3 (a b : Z * Z * Z) : Prop :=
  let '(a1, a2, a3) := a in
  let '(b1, b2, b3) := b in
  a1 < b1 ∨ (a1 = b1 ∧ (a2 < b2 ∨ (a2 = b2 ∧ a3 < b3))).

(** Strict IEEE order and IEEE equality, on values that are not NaN. *)
Definition flt (x y : float64) : Prop := is_nan x = false ∧ is_nan y = false ∧ lex3 (fkey x) (fkey y).
Definition feq (x y : float64) : Prop := is_nan x = false ∧ is_nan y = false ∧ fkey x = fkey y.

Lemma SFcompare_key x y :
  is_nan x = false → is_nan y = false →
  match SFcompare x y with
  | Some Lt => lex3 (fkey x) (fkey y)
  | Some Eq => fkey x = fkey y
  | Some Gt => lex3 (fkey y) (fkey x)
  | None => False
  end.
Proof.
  destruct x as [sx|sx| |sx mx ex], y as [sy|sy| |sy my ey]; intros Hx Hy; try done;
    try destruct sx; try destruct sy; simpl; try lia; try done.
  all: change (Pos.compare_cont Eq mx my) with (mx ?= my)%positive.
  all: destruct (Z.compare_spec ex ey) as [->|?|?]; try lia.
  all: destruct (Pos.compare_spec mx my) as [->|?|?]; simpl; try done; try lia.
Qed.

Lemma fltb_spec x y : fltb x y = true ↔ flt x y.
Proof.
  unfold fltb, SFltb, flt.
  destruct (is_nan x) eqn:Hx; [destruct x; naive_solver|].
  destruct (is_nan y) eqn:Hy; [destruct x, y; naive_solver|].
  pose proof (SFcompare_key x y Hx Hy) as Hc.
  destruct (fkey x) as [[a1 a2] a3], (fkey y) as [[b1 b2] b3].
  destruct (SFcompare x y) as [[]|]; simpl in *; simplify_eq;
    (split; [intros; repeat split; (done || lia) | intros (_ & _ & ?); (done || lia)]).
Qed.

Lemma feqb_spec x y : feqb x y = true ↔ feq x y.
Proof.
  unfold feqb, SFeqb, feq.
  destruct (is_nan x) eqn:Hx; [destruct x; naive_solver|].
  destruct (is_nan y) eqn:Hy; [destruct x, y; naive_solver|].
  pose proof (SFcompare_key x y Hx Hy) as Hc.
  destruct (fkey x) as [[a1 a2] a3], (fkey y) as [[b1 b2] b3].
  destruct (SFcompare x y) as [[]|]; simpl in *; simplify_eq;
    (split; [intros; repeat split; (done || lia) | intros (_ & _ & ?); simplify_eq; (done || lia)]).
Qed.

Lemma fleb_spec x y : fleb x y = (fltb x y || feqb x y)%bool.
Proof. unfold fleb, fltb, feqb, SFleb, SFltb, SFeqb. by destruct (SFcompare x y) as [[]|]. Qed.

Lemma flt_trans x y z : flt x y → flt y z → flt x z.
Proof.
  unfold flt, lex3. destruct (fkey x) as [[]?], (fkey y) as [[]?], (fkey z) as [[]?].
  intros (? & ? & ?) (? & ? & ?). repeat split; try done; lia.
Qed.

Lemma flt_irrefl x : ¬ flt x x.
Proof. unfold flt, lex3. destruct (fkey x) as [[]?]. intros (? & ? & ?). lia. Qed.

Lemma flt_asym x y : flt x y → ¬ flt y x.
Proof. intros H1 H2. exact (flt_irrefl x (flt_trans _ _ _ H1 H2)). Qed.

Lemma feq_refl x : is_nan x = false → feq x x.
Proof. done. Qed.
Lemma feq_sym x y : feq x y → feq y x.
Proof. unfold feq. naive_solver. Qed.
Lemma feq_trans x y z : feq x y → feq y z → feq x z.
Proof. unfold feq. naive_solver congruence. Qed.
Lemma flt_feq_l x y z : feq x y → flt y z → flt x z.
Proof. unfold feq, flt. intros (? & ? & ->). naive_solver. Qed.
Lemma flt_feq_r x y z : flt x y → feq y z → flt x z.
Proof. unfold feq, flt. intros (? & ? & ?) (? & ? & <-). naive_solver. Qed.

(** Two floats that are not NaN are comparable. *)
Lemma f_trichotomy x y :
  is_nan x = false → is_nan y = false → flt x y ∨ feq x y ∨ flt y x.
Proof.
  intros Hx Hy. pose proof (SFcompare_key x y Hx Hy) as Hc.
  unfold flt, feq. destruct (SFcompare x y) as [[]|]; naive_solver.
Qed.

Lemma fltb_asym x y : fltb x y = true → fltb y x = false.
Proof.
  rewrite fltb_spec. intros H. destruct (fltb y x) eqn:E; [|done].
  apply fltb_spec in E. by apply flt_asym in H.
Qed.

Lemma feqb_refl x : is_nan x = false → feqb x x = true.
Proof. intros. by apply feqb_spec. Qed.

(** Comparable floats: the negation of [<] is [>=]. *)
Lemma fltb_false_le x y :
  is_nan x = false → is_nan y = false → fltb x y = negb (fleb y x).
Proof.
  intros Hx Hy. rewrite fleb_spec.
  destruct (f_trichotomy x y Hx Hy) as [H|[H|H]].
  - rewrite (proj2 (fltb_spec x y) H), (fltb_asym x y (proj2 (fltb_spec x y) H)).
    destruct (feqb y x) eqn:E; [|done].
    apply feqb_spec in E. exfalso. exact (flt_irrefl _ (flt_feq_l _ _ _ E H)).
  - rewrite (proj2 (feqb_spec y x) (feq_sym _ _ H)), orb_true_r.
    destruct (fltb x y) eqn:E; [|done].
    apply fltb_spec in E. exfalso. exact (flt_irrefl _ (flt_feq_r _ _ _ E (feq_sym _ _ H))).
  - rewrite (proj2 (fltb_spec y x) H). simpl. by rewrite (fltb_asym y x (proj2 (fltb_spec y x) H)).
Qed.

#[export] Hint Resolve flt_trans feq_trans feq_sym flt_feq_l flt_feq_r : go.

(** NaN absorbs. *)
Lemma fadd_nan_l x : fadd S754_nan x = S754_nan.
Proof. by destruct x. Qed.
Lemma fadd_nan_r x : fadd x S754_nan = S754_nan.
Proof. by destruct x. Qed.
Lemma fdiv_nan_l x : fdiv S754_nan x = S754_nan.
Proof. by destruct x. Qed.

(** Arithmetic is reasoned about through lemmas and evaluated by [vm_compute] only. *)
#[global] Opaque fadd fsub fmul fdiv f1 fofZ flit ffloor fceil fround FormatFloat_f.
