(* ===== verification/Order.v ===== *)
(** * Orders given as Go [less] functions

    Strict weak orders as boolean functions, their lexicographic combination, the running
    maximum a loop computes with one, and Go's two sorts: [sort.SliceStable], whose result is
    determined, and [sort.Slice], which may return any sorted rearrangement. *)
From S2P Require Import Prelude GoFloat.

(** A strict weak order on the values satisfying [P]. *)
Class SWO {A} (P : A → Prop) (less : A → A → bool) : Prop := {
  swo_asym : ∀ x y, P x → P y → less x y = true → less y x = false;
  swo_cotrans : ∀ x y z, P x → P y → P z → less x z = true → less x y = true ∨ less y z = true
}.

Section Swo.
Context {A : Type} (P : A → Prop).

Lemma swo_irrefl less `{!SWO P less} x : P x → less x x = false.
Proof. intros Hx. destruct (less x x) eqn:E; [|done]. pose proof (swo_asym x x Hx Hx E). congruence. Qed.

Lemma swo_trans less `{!SWO P less} x y z :
  P x → P y → P z → less x y = true → less y z = true → less x z = true.
Proof.
  intros Hx Hy Hz H1 H2. destruct (swo_cotrans x z y Hx Hz Hy H1) as [?|H3]; [done|].
  pose proof (swo_asym y z Hy Hz H2). congruence.
Qed.

(** Not-less is transitive. *)
Lemma swo_nless_trans less `{!SWO P less} x y z :
  P x → P y → P z → less x y = false → less y z = false → less x z = false.
Proof.
  intros Hx Hy Hz H1 H2. destruct (less x z) eqn:E; [|done].
  destruct (swo_cotrans x y z Hx Hy Hz E); congruence.
Qed.

(** First by [l1], ties by [l2]. *)
Definition lex (l1 l2 : A → A → bool) (x y : A) : bool :=
  if l1 x y then true else if l1 y x then false else l2 x y.

#[export] Instance lex_SWO l1 l2 `{!SWO P l1} `{!SWO P l2} : SWO P (lex l1 l2).
Proof.
  split; unfold lex.
  - intros x y Hx Hy. destruct (l1 x y) eqn:E1.
    + intros _. by rewrite (swo_asym x y Hx Hy E1).
    + destruct (l1 y x); [done|]. by apply swo_asym.
  - intros x y z Hx Hy Hz. destruct (l1 x z) eqn:E1.
    + intros _. destruct (swo_cotrans x y z Hx Hy Hz E1) as [-> | ->]; auto.
    + destruct (l1 z x) eqn:E2; [done|]. intros H2.
      destruct (l1 x y) eqn:Exy; [auto|]. destruct (l1 y z) eqn:Eyz; [auto|].
      destruct (l1 y x) eqn:Eyx.
      { destruct (swo_cotrans y z x Hy Hz Hx Eyx); congruence. }
      destruct (l1 z y) eqn:Ezy.
      { destruct (swo_cotrans z x y Hz Hx Hy Ezy); congruence. }
      by apply swo_cotrans.
Qed.

(** The loop [if better x best { best = x }]. *)
Definition running_best (better : A → A → bool) (best : A) (l : list A) : A :=
  foldl (λ b x, if better x b then x else b) best l.

Lemma running_best_spec better `{!SWO P better} best l :
  P best → Forall P l →
  let w := running_best better best l in
  w ∈ best :: l ∧ P w ∧ ∀ x, x ∈ best :: l → better x w = false.
Proof.
  simpl. revert best. induction l as [|y l IH]; intros best Hb Hl.
  - simpl. split_and!; [set_solver|done|]. intros x ->%list_elem_of_singleton. by apply swo_irrefl.
  - apply Forall_cons in Hl as [Hy Hl]. simpl. destruct (better y best) eqn:E.
    + destruct (IH y Hy Hl) as (Hin & HP & Hmax). split_and!; [set_solver|done|].
      intros x [->|Hx]%elem_of_cons; [|by apply Hmax].
      apply (swo_nless_trans better best y); [done..| |apply Hmax; set_solver]. by apply swo_asym.
    + destruct (IH best Hb Hl) as (Hin & HP & Hmax). split_and!; [set_solver|done|].
      intros x [->|[->|Hx]%elem_of_cons]%elem_of_cons; [apply Hmax; set_solver| |apply Hmax; set_solver].
      apply (swo_nless_trans better y best); [done..|apply Hmax; set_solver].
Qed.

(** With no ties the maximum does not depend on the order of the loop. *)
Lemma best_unique (better : A → A → bool) (l : list A) w w' :
  (∀ x y, x ∈ l → y ∈ l → better x y = false → better y x = false → x = y) →
  w ∈ l → w' ∈ l → (∀ x, x ∈ l → better x w = false) → (∀ x, x ∈ l → better x w' = false) →
  w = w'.
Proof. intros Ht Hw Hw' H1 H2. apply Ht; auto. Qed.
End Swo.

(** An order pulled back along a projection. *)
Lemma SWO_pull {A B} (f : A → B) (P : B → Prop) less `{!SWO P less} :
  SWO (λ x, P (f x)) (λ x y, less (f x) (f y)).
Proof. split; intros; [by apply (swo_asym (P:=P))|by apply (swo_cotrans (P:=P))]. Qed.

Lemma SWO_weaken {A} (P Q : A → Prop) less `{!SWO P less} : (∀ x, Q x → P x) → SWO Q less.
Proof. intros HQ. split; intros; [apply (swo_asym (P:=P)); auto|apply (swo_cotrans (P:=P)); auto]. Qed.

(** ** Sorting *)
(** [sort.SliceStable]: insertion keeps equal elements in their order. *)
Fixpoint stable_insert {A} (less : A → A → bool) (x : A) (l : list A) : list A :=
  match l with
  | [] => [x]
  | y :: l' => if less y x then y :: stable_insert less x l' else x :: l
  end.
Definition stable_sort {A} (less : A → A → bool) (l : list A) : list A :=
  foldr (stable_insert less) [] l.

(** Sorted for a [less] function: no element is less than an earlier one. *)
Definition sorted_by {A} (less : A → A → bool) (l : list A) : Prop :=
  StronglySorted (λ x y, less y x = false) l.

Lemma stable_insert_perm {A} less (x : A) l : stable_insert less x l ≡ₚ x :: l.
Proof.
  induction l as [|y l IH]; simpl; [done|]. destruct (less y x); [|done]. rewrite IH. apply Permutation_swap.
Qed.

Lemma stable_sort_perm {A} less (l : list A) : stable_sort less l ≡ₚ l.
Proof. induction l as [|x l IH]; simpl; [done|]. by rewrite stable_insert_perm, IH. Qed.

Lemma stable_insert_sorted {A} (P : A → Prop) less `{!SWO P less} x l :
  P x → Forall P l → sorted_by less l → sorted_by less (stable_insert less x l).
Proof.
  intros Hx Hl Hs. induction Hs as [|y l Hs IH Hy]; simpl; [repeat constructor|].
  apply Forall_cons in Hl as [HPy Hl]. destruct (less y x) eqn:E.
  - constructor; [by apply IH|]. rewrite stable_insert_perm. constructor; [|done].
    by apply (swo_asym (P:=P)).
  - constructor; [by constructor|]. constructor; [done|].
    rewrite Forall_forall in Hy, Hl |- *. intros z Hz.
    apply (swo_nless_trans P less z y); auto.
Qed.

Lemma stable_sort_sorted {A} (P : A → Prop) less `{!SWO P less} l :
  Forall P l → sorted_by less (stable_sort less l).
Proof.
  induction l as [|x l IH]; intros Hl; simpl; [constructor|]. apply Forall_cons in Hl as [Hx Hl].
  apply (stable_insert_sorted P); [done|done| |auto]. by rewrite stable_sort_perm.
Qed.

(** [sort.Slice] as an interface: some rearrangement, sorted whenever [less] is a strict weak
    order on the elements; equal elements come in any order. *)
Class GoSort := {
  sort_Slice : ∀ {A}, (A → A → bool) → list A → list A;
  sort_Slice_perm : ∀ {A} (less : A → A → bool) l, sort_Slice less l ≡ₚ l;
  sort_Slice_sorted : ∀ {A} (P : A → Prop) (less : A → A → bool) l,
    SWO P less → Forall P l → sorted_by less (sort_Slice less l)
}.

(** A stable sort is one implementation; sorting the reversed slice is another. *)
Program Definition stable_go_sort : GoSort := {| sort_Slice := λ A less l, stable_sort less l |}.
Next Obligation. intros. apply stable_sort_perm. Qed.
Next Obligation. intros A P less l ? Hl. by apply (stable_sort_sorted P). Qed.
Program Definition reversing_go_sort : GoSort :=
  {| sort_Slice := λ A less l, stable_sort less (reverse l) |}.
Next Obligation. intros. rewrite stable_sort_perm. apply reverse_Permutation. Qed.
Next Obligation. intros A P less l ? Hl. apply (stable_sort_sorted P); [done|]. by apply Forall_reverse. Qed.

(** ** Orders of the base types *)
(** Go compares strings bytewise, as [String.ltb] does. *)
Lemma string_compare_cotrans x y z :
  String.compare x z = Lt → String.compare x y = Lt ∨ String.compare y z = Lt.
Proof.
  revert y z. induction x as [|a x IH]; intros [|b y] [|c z]; simpl; try done; auto.
  unfold Ascii.compare.
  destruct (N.compare_spec (N_of_ascii a) (N_of_ascii c));
    destruct (N.compare_spec (N_of_ascii a) (N_of_ascii b));
    destruct (N.compare_spec (N_of_ascii b) (N_of_ascii c)); auto; try lia; try done.
Qed.

#[export] Instance string_ltb_SWO : SWO (λ _ : string, True) String.ltb.
Proof.
  split; unfold String.ltb.
  - intros x y _ _. rewrite (String.compare_antisym x y). by destruct (String.compare y x).
  - intros x y z _ _ _. destruct (String.compare x z) eqn:E; try done.
    apply (string_compare_cotrans x y z) in E. destruct E as [-> | ->]; auto.
Qed.

Lemma string_ltb_total x y : String.ltb x y = false → String.ltb y x = false → x = y.
Proof.
  unfold String.ltb. rewrite (String.compare_antisym y x).
  destruct (String.compare x y) eqn:E; try done. by apply String.compare_eq_iff in E.
Qed.

#[export] Instance Z_ltb_SWO : SWO (λ _ : Z, True) Z.ltb.
Proof. split; intros; rewrite ?Z.ltb_lt, ?Z.ltb_ge in *; lia. Qed.

Lemma SWO_flip {A} (P : A → Prop) less `{!SWO P less} : SWO P (λ x y, less y x).
Proof.
  split; intros; [by apply (swo_asym (P:=P))|].
  destruct (swo_cotrans (P:=P) (less:=less) z y x); auto.
Qed.

#[export] Instance float_ltb_SWO : SWO (λ x, is_nan x = false) fltb.
Proof.
  split.
  - intros x y _ _. apply fltb_asym.
  - intros x y z Hx Hy Hz. rewrite !fltb_spec. intros Hxz.
    destruct (f_trichotomy x y Hx Hy) as [?|[He|Hyx]]; [by left|right|right].
    + eapply flt_feq_l; [by apply feq_sym|done].
    + by eapply flt_trans.
Qed.
