(* ===== verification/Currency.v ===== *)
(** * Currency conversion: src/currency

  The rates table ([rates.go]), the constant table ([constant_rates.go]), the pair of a
  request's own rates and the server's ([aggregate_conversions.go]), the choice between them
  ([currency.go]), the validation of request rates ([validation.go]) and the converter that
  refreshes the server's table ([rate_converter.go]) with its staleness rule.
  [golang.org/x/text/currency.ParseISO] is a parameter. *)
From S2P Require Import Prelude GoFloat.

(** ** Errors and the interface *)
(** [ParseError] is an error of [ParseISO]; [RatesNilError] is "rates are nil". *)
Inductive cur_error :=
| ParseError (code : string)
| ConversionNotFoundError (FromCur ToCur : string)
| RatesNilError.
#[export] Instance cur_error_eq_dec : EqDecision cur_error.
Proof. solve_decision. Defined.

Abbreviation conversion_map := (gmap string (gmap string float64)).

(** The Go interface [Conversions]; [GetRates] is [None] for a nil pointer. *)
Record Conversions := {
  GetRate : string → string → result cur_error float64;
  GetRates : option (option conversion_map)
}.

(** [currency.ParseISO(s)] followed by [Unit.String()]: the canonical code of [s]. *)
Class ISO := { ParseISO : string → option string }.

(** The documented behaviour the code relies on: a canonical code parses to itself. *)
Class ISOLaws `{ISO} := {
  ParseISO_canonical : ∀ s c, ParseISO s = Some c → ParseISO c = Some c
}.

Definition parse_iso `{ISO} (s : string) : result cur_error string :=
match ParseISO s with Some c => Ok c | None => Err (ParseError s) end.

(** ** rates.go *)
(** [Conversions] is [None] for a nil map; a nil inner map reads like an empty one. *)
Record Rates := NewRates { rates_Conversions : option conversion_map }.

Section Rates.
Context `{ISO} `{MapRange}.

(** The rate stored for [from] and [to], Go's [m[from][to]] on possibly missing entries. *)
Definition rate_entry (m : conversion_map) (from to : string) : option float64 :=
  m !! from ≫= λ inner, inner !! to.

Fixpoint find_intermediate (entries : list (string * gmap string float64)) (from to : string)
  : option float64 :=
  match entries with
  | [] => None
  | (_, conversions) :: rest =>
      match conversions !! to, conversions !! from with
      | Some toRate, Some fromRate => Some (fdiv toRate fromRate)
      | _, _ => find_intermediate rest from to
      end
  end.

Definition FindIntermediateConversionRate (m : conversion_map) (from to : string)
  : result cur_error float64 :=
  match find_intermediate (map_range m) from to with
  | Some r => Ok r
  | None => Err (ConversionNotFoundError from to)
  end.

Definition Rates_GetRate (r : Rates) (from to : string) : result cur_error float64 :=
  let? fromUnit := parse_iso from in
  let? toUnit := parse_iso to in
  if fromUnit =s? toUnit then Ok f1
  else match rates_Conversions r with
       | Some m =>
           match rate_entry m fromUnit toUnit with
           | Some conversion => Ok conversion
           | None =>
               match rate_entry m toUnit fromUnit with
               | Some conversion => Ok (fdiv f1 conversion)
               | None => FindIntermediateConversionRate m fromUnit toUnit
               end
           end
       | None => Err RatesNilError
       end.

Definition Rates_conversions (r : Rates) : Conversions :=
  {| GetRate := Rates_GetRate r; GetRates := Some (rates_Conversions r) |}.

(** ** constant_rates.go *)
Definition ConstantRates_GetRate (from to : string) : result cur_error float64 :=
  let? fromUnit := parse_iso from in
  let? toUnit := parse_iso to in
  if fromUnit ≠s? toUnit then Err (ConversionNotFoundError fromUnit toUnit) else Ok f1.

Definition ConstantRates : Conversions :=
  {| GetRate := ConstantRates_GetRate; GetRates := None |}.

(** ** aggregate_conversions.go *)
Definition Aggregate_GetRate (customRates serverRates : Conversions) (from to : string)
  : result cur_error float64 :=
  match GetRate customRates from to with
  | Ok rate => Ok rate
  | Err (ConversionNotFoundError _ _) => GetRate serverRates from to
  | Err e => Err e
  end.

Definition NewAggregateConversions (customRates serverRates : Conversions) : Conversions :=
  {| GetRate := Aggregate_GetRate customRates serverRates; GetRates := None |}.

(** ** adapters/bidder.go: [ExtraRequestInfo.ConvertCurrency] *)
Definition ConvertCurrency (c : Conversions) (value : float64) (from to : string)
  : result cur_error float64 :=
  let? rate := GetRate c from to in Ok (fmul value rate).

(** ** validation.go *)
(** [ExtRequestCurrency]: a nil rates map ranges like an empty one. *)
Record ExtRequestCurrency := {
  ConversionRates : option conversion_map;
  UsePBSRates : option bool
}.

Fixpoint first_bad_code (codes : list string) : option string :=
  match codes with
  | [] => None
  | c :: rest => match ParseISO c with Some _ => first_bad_code rest | None => Some c end
  end.

(** The codes in the order the two nested loops check them. *)
Definition checked_codes (m : conversion_map) : list string :=
  concat (map (λ '(from, rates), from :: (map_range rates).*1) (map_range m)).

(** [Some code] stands for the error naming that code, [None] for nil. *)
Definition ValidateCustomRates (bidReqCurrencyRates : option ExtRequestCurrency) : option string :=
  match bidReqCurrencyRates with
  | None => None
  | Some r =>
      match ConversionRates r with
      | None => None
      | Some m => first_bad_code (checked_codes m)
      end
  end.
End Rates.

(** ** rate_converter.go *)
(** What one HTTP attempt of [fetch] produced; the body is a read error or the bytes read. *)
Inductive http_outcome :=
| NewRequestFailed
| DoFailed
| Response (StatusCode : Z) (body : result unit string).

Inductive fetch_error :=
| RequestError
| ClientError
| BadServerResponse (StatusCode : Z)
| ReadError
| ParseJSONError.

(** The JSON decoder [jsonutil.UnmarshalValid] into [Rates] is the argument [unmarshal]. *)
Definition fetch (unmarshal : string → option Rates) (h : http_outcome) : result fetch_error Rates :=
  match h with
  | NewRequestFailed => Err RequestError
  | DoFailed => Err ClientError
  | Response code body =>
      if 400 <=? code then Err (BadServerResponse code)
      else match body with
           | Err _ => Err ReadError
           | Ok bytes =>
               match unmarshal bytes with
               | None => Err ParseJSONError
               | Some updatedRates => Ok updatedRates
               end
           end
  end.

(** Times are nanoseconds since the epoch.  [rc_rates] is [None] before the first store and
    [Some None] once [clearRates] has stored a nil [*Rates]. *)
Record RateConverter := {
  staleRatesThreshold : Z;
  rc_rates : option (option Rates);
  lastUpdated : option Z
}.

Definition NewRateConverter (threshold : Z) : RateConverter :=
  {| staleRatesThreshold := threshold; rc_rates := None; lastUpdated := None |}.

(** [time.Time.Sub] saturates at the ends of [int64]. *)
Definition time_Sub (t u : Z) : Z := Z.max (- two63) (Z.min (two63 - 1) (t - u)).

(** [time.Duration.Seconds]: whole seconds plus the fraction, in [float64]. *)
Definition Seconds (d : Z) : float64 :=
  fadd (fofZ (Z.quot d 1000000000)) (fdiv (fofZ (Z.rem d 1000000000)) (fofZ 1000000000)).

Definition checkStaleRates (rc : RateConverter) (now : Z) : bool :=
  if staleRatesThreshold rc <=? 0 then false
  else match lastUpdated rc with
       | Some t => Seconds (staleRatesThreshold rc) <f? Seconds (time_Sub now t)
       | None => false
       end.

Definition clearRates (rc : RateConverter) : RateConverter :=
  {| staleRatesThreshold := staleRatesThreshold rc; rc_rates := Some None; lastUpdated := lastUpdated rc |}.

(** [update] with the fetch's result and the clock's reading; the error is returned. *)
Definition update (rc : RateConverter) (now : Z) (fetched : result fetch_error Rates)
  : RateConverter * option fetch_error :=
  match fetched with
  | Ok rates =>
      ({| staleRatesThreshold := staleRatesThreshold rc; rc_rates := Some (Some rates);
          lastUpdated := Some now |}, None)
  | Err e => if checkStaleRates rc now then (clearRates rc, Some e) else (rc, Some e)
  end.

(** [Rates()]: the stored table, or [None] for the constant rates. *)
Definition current_table (rc : RateConverter) : option Rates :=
  match rc_rates rc with Some (Some r) => Some r | _ => None end.

Definition RateConverter_Rates `{ISO} `{MapRange} (rc : RateConverter) : Conversions :=
  match rc_rates rc with
  | Some (Some r) => Rates_conversions r
  | _ => ConstantRates
  end.

(** ** currency.go: [GetAuctionCurrencyRates] *)
Definition GetAuctionCurrencyRates `{ISO} `{MapRange} (currencyConverter : option RateConverter)
    (requestRates : option ExtRequestCurrency) : option Conversions :=
  match currencyConverter, requestRates with
  | None, None => None
  | Some rc, None => Some (RateConverter_Rates rc)
  | None, Some req => Some (Rates_conversions (NewRates (ConversionRates req)))
  | Some rc, Some req =>
      let usePbsRates := match UsePBSRates req with None => true | Some b => b end in
      if negb usePbsRates then Some (Rates_conversions (NewRates (ConversionRates req)))
      else if bool_decide (default ∅ (ConversionRates req) = ∅) then Some (RateConverter_Rates rc)
      else Some (NewAggregateConversions (Rates_conversions (NewRates (ConversionRates req)))
                   (RateConverter_Rates rc))
  end.

(** ** What a rates table promises *)
(** The rates a lookup between two canonical codes may answer, whatever the map order. *)
Inductive has_rate (m : conversion_map) (from to : string) : float64 → Prop :=
| rate_same : from = to → has_rate m from to f1
| rate_direct r : from ≠ to → rate_entry m from to = Some r → has_rate m from to r
| rate_reverse r : from ≠ to → rate_entry m from to = None → rate_entry m to from = Some r →
    has_rate m from to (fdiv f1 r)
| rate_pivot p row t f : from ≠ to → rate_entry m from to = None → rate_entry m to from = None →
    m !! p = Some row → row !! to = Some t → row !! from = Some f →
    has_rate m from to (fdiv t f).

(** Every history of attempts, newest first, as (clock, fetch result). *)
Definition history := list (Z * result fetch_error Rates).

Fixpoint run_updates (threshold : Z) (h : history) : RateConverter :=
  match h with
  | [] => NewRateConverter threshold
  | (now, fetched) :: rest => fst (update (run_updates threshold rest) now fetched)
  end.

(** The staleness test as a function of the threshold and the time of the last success. *)
Definition is_stale (threshold t now : Z) : bool :=
  negb (threshold <=? 0) && (Seconds threshold <f? Seconds (time_Sub now t)).

(** The last success of a history and the failures after it. *)
Fixpoint last_success (h : history) : option (Z * Rates * list Z) :=
  match h with
  | [] => None
  | (now, Ok r) :: _ => Some (now, r, [])
  | (now, Err _) :: rest =>
      match last_success rest with
      | Some (t, r, fails) => Some (t, r, now :: fails)
      | None => None
      end
  end.

(** The abstract converter: the last fetched table, until a failure finds it stale. *)
Definition table_spec (threshold : Z) (h : history) : option Rates :=
  match last_success h with
  | None => None
  | Some (t, r, fails) => if existsb (is_stale threshold t) fails then None else Some r
  end.

Section RatesLemmas.
Context `{ISO} `{MapRange}.

Lemma parse_iso_ok s c : ParseISO s = Some c → parse_iso s = Ok c.
Proof. unfold parse_iso. by intros ->. Qed.

Lemma find_intermediate_Some entries from to x :
  find_intermediate entries from to = Some x →
  ∃ p row t f, (p, row) ∈ entries ∧ row !! to = Some t ∧ row !! from = Some f ∧ x = fdiv t f.
Proof.
  induction entries as [|[p row] rest IH]; simpl; [done|]. intros Hx.
  destruct (row !! to) as [t|] eqn:Et; [destruct (row !! from) as [f|] eqn:Ef|];
    [simplify_eq; exists p, row, t, f; set_solver| |];
    destruct (IH Hx) as (p' & row' & t' & f' & ? & ?); exists p', row', t', f'; set_solver.
Qed.

Lemma find_intermediate_complete entries from to p row t f :
  (p, row) ∈ entries → row !! to = Some t → row !! from = Some f →
  is_Some (find_intermediate entries from to).
Proof.
  intros Hin Ht Hf. induction entries as [|[q row'] rest IH]; [by apply elem_of_nil in Hin|].
  simpl. apply elem_of_cons in Hin as [[= <- <-]|Hin].
  - by rewrite Ht, Hf.
  - destruct (row' !! to); [destruct (row' !! from)|]; eauto.
Qed.

(** The lookup, once both codes are canonical. *)
Definition table_lookup (m : conversion_map) (from to : string) : result cur_error float64 :=
  if from =s? to then Ok f1
  else match rate_entry m from to with
       | Some c => Ok c
       | None => match rate_entry m to from with
                 | Some c => Ok (fdiv f1 c)
                 | None => FindIntermediateConversionRate m from to
                 end
       end.

Lemma Rates_GetRate_lookup m s1 s2 from to :
  ParseISO s1 = Some from → ParseISO s2 = Some to →
  Rates_GetRate (NewRates (Some m)) s1 s2 = table_lookup m from to.
Proof. intros H1 H2. unfold Rates_GetRate. by rewrite (parse_iso_ok _ _ H1), (parse_iso_ok _ _ H2). Qed.

Lemma table_lookup_sound m from to x : table_lookup m from to = Ok x → has_rate m from to x.
Proof.
  unfold table_lookup, FindIntermediateConversionRate. intros Hx.
  repeat go_destruct_in Hx; simplify_eq; go_bool; eauto using has_rate.
  match goal with E : find_intermediate _ _ _ = Some _ |- _ =>
    apply find_intermediate_Some in E as (p & row & t & f & Hin & ? & ? & ->) end.
  apply elem_of_map_range in Hin. eauto using has_rate.
Qed.

Lemma table_lookup_complete m from to x :
  has_rate m from to x → ∃ y, table_lookup m from to = Ok y ∧ has_rate m from to y.
Proof.
  intros Hr. assert (∃ y, table_lookup m from to = Ok y) as [y Hy].
  { unfold table_lookup, FindIntermediateConversionRate.
    destruct (String.eqb_spec from to) as [Heq|Hne]; [eauto|].
    destruct Hr as [?|? ? Hd|? ? Hd Hrv|p row t f ? Hd Hrv Hp Ht Hf]; [done|..];
      rewrite Hd; [eauto|rewrite Hrv; eauto|rewrite Hrv].
    apply elem_of_map_range in Hp.
    destruct (find_intermediate_complete _ _ _ _ _ _ _ Hp Ht Hf) as [y ->]. eauto. }
  eauto using table_lookup_sound.
Qed.

Lemma table_lookup_err m from to e :
  table_lookup m from to = Err e → e = ConversionNotFoundError from to.
Proof.
  unfold table_lookup, FindIntermediateConversionRate. intros Hx.
  by repeat go_destruct_in Hx; simplify_eq.
Qed.

Lemma first_bad_code_None codes :
  first_bad_code codes = None ↔ ∀ c, c ∈ codes → is_Some (ParseISO c).
Proof.
  induction codes as [|c rest IH]; simpl; [set_solver|].
  destruct (ParseISO c) eqn:E.
  - rewrite IH. split; [|set_solver]. intros Hr c' [->|?]%elem_of_cons; eauto.
  - split; [done|]. intros Hall. destruct (Hall c); [set_solver|congruence].
Qed.

Lemma elem_of_checked_codes m c :
  c ∈ checked_codes m ↔
  ∃ from row, m !! from = Some row ∧ (c = from ∨ is_Some (row !! c)).
Proof.
  unfold checked_codes. rewrite list_elem_of_In, in_concat. split.
  - intros (l & Hl & Hc). apply list_elem_of_In, list_elem_of_fmap in Hl as ([from row] & -> & Hin).
    apply elem_of_map_range in Hin. exists from, row. split; [done|].
    apply list_elem_of_In, elem_of_cons in Hc as [->|Hc]; [by left|right].
    apply list_elem_of_fmap in Hc as ([? v] & -> & Hv%elem_of_map_range). eauto.
  - intros (from & row & Hm & Hc). exists (from :: (map_range row).*1).
    split; apply list_elem_of_In.
    + apply list_elem_of_fmap. exists (from, row). split; [done|]. by apply elem_of_map_range.
    + destruct Hc as [->|[v Hv]]; [set_solver|]. apply elem_of_cons. right.
      apply list_elem_of_fmap. exists (c, v). split; [done|]. by apply elem_of_map_range.
Qed.
End RatesLemmas.

(** *** The converter's state after a history *)
Lemma run_updates_threshold threshold h : staleRatesThreshold (run_updates threshold h) = threshold.
Proof.
  induction h as [|[now [r|e]] rest IH]; simpl; [done..|].
  by destruct (checkStaleRates _ _); simpl.
Qed.

Lemma run_updates_last threshold h :
  lastUpdated (run_updates threshold h) = (λ s, s.1.1) <$> last_success h.
Proof.
  induction h as [|[now [r|e]] rest IH]; simpl; [done..|].
  destruct (checkStaleRates _ _); simpl; rewrite IH;
    by destruct (last_success rest) as [[[]]|].
Qed.

Lemma checkStaleRates_history threshold h now :
  checkStaleRates (run_updates threshold h) now =
  match last_success h with Some (t, _, _) => is_stale threshold t now | None => false end.
Proof.
  unfold checkStaleRates, is_stale. rewrite run_updates_threshold, run_updates_last.
  destruct (last_success h) as [[[t r] fails]|]; simpl; by destruct (threshold <=? 0).
Qed.

(** ** Properties *)

(** C5: a lookup between two recognised codes succeeds exactly when the table relates them
    (same code, a direct entry, a reverse entry, or a common row), any answer is one of these
    rates with that priority, and the only error is the not-found one naming both codes.  This
    holds for every order in which the runtime may range over the table. *)
Theorem GetRate_sound_complete `{ISO} `{MapRange} (m : conversion_map) s1 s2 from to :
  ParseISO s1 = Some from → ParseISO s2 = Some to →
  match Rates_GetRate (NewRates (Some m)) s1 s2 with
  | Ok x => has_rate m from to x
  | Err e => e = ConversionNotFoundError from to ∧ ¬ ∃ x, has_rate m from to x
  end.
Proof.
  intros H1 H2. rewrite (Rates_GetRate_lookup _ _ _ _ _ H1 H2).
  destruct (table_lookup m from to) eqn:E; [by apply table_lookup_sound|].
  split; [by apply table_lookup_err in E|]. intros [x Hx].
  destruct (table_lookup_complete _ _ _ _ Hx) as (y & Hy & _). congruence.
Qed.

(** A recogniser of three codes, for examples. *)
Definition iso_usd_eur_jpy : ISO := {|
  ParseISO := λ s, if existsb (String.eqb s) ["USD"; "EUR"; "JPY"] then Some s
                   else if s =s? "usd" then Some "USD" else None |}.

Lemma GetRate_sound_complete_witness :
  let i := iso_usd_eur_jpy in
  let m : conversion_map := {["USD" := {["JPY" := fofZ 150; "EUR" := flit 9 10]}]} in
  match @Rates_GetRate i canonical_range (NewRates (Some m)) "EUR" "JPY" with
  | Ok x => has_rate m "EUR" "JPY" x
  | Err e => e = ConversionNotFoundError "EUR" "JPY" ∧ ¬ ∃ x, has_rate m "EUR" "JPY" x
  end.
Proof. intros i m. apply (@GetRate_sound_complete i canonical_range m "EUR" "JPY"); reflexivity. Defined.

(** Which common row answers a lookup depends on the runtime's map order: with two rows that
    disagree, two runs of the same lookup on the same table return different rates. *)
Theorem intermediate_rate_order_dependent :
  ∃ (m : conversion_map) x y,
    @Rates_GetRate iso_usd_eur_jpy canonical_range (NewRates (Some m)) "EUR" "JPY" = Ok x ∧
    @Rates_GetRate iso_usd_eur_jpy reversed_range (NewRates (Some m)) "EUR" "JPY" = Ok y ∧
    feqb x y = false.
Proof.
  exists {["USD" := {["JPY" := fofZ 150; "EUR" := f1]}; "GBP" := {["JPY" := fofZ 200; "EUR" := f1]}]}.
  do 2 eexists. repeat split; vm_compute; reflexivity.
Qed.

(** With request rates and server rates both in use, a lookup between recognised codes
    answers from the request's table whenever that table relates the codes, from the server's
    table otherwise, and fails with not-found only when neither does. *)
Theorem auction_rates_request_first `{ISO} `{MapRange} (rc : RateConverter) (req : ExtRequestCurrency)
    (m server : conversion_map) s1 s2 from to c :
  UsePBSRates req ≠ Some false →
  ConversionRates req = Some m → m ≠ ∅ →
  rc_rates rc = Some (Some (NewRates (Some server))) →
  GetAuctionCurrencyRates (Some rc) (Some req) = Some c →
  ParseISO s1 = Some from → ParseISO s2 = Some to →
  match GetRate c s1 s2 with
  | Ok x => has_rate m from to x ∨ (¬ (∃ y, has_rate m from to y) ∧ has_rate server from to x)
  | Err e => e = ConversionNotFoundError from to ∧
             ¬ (∃ y, has_rate m from to y) ∧ ¬ (∃ y, has_rate server from to y)
  end.
Proof.
  intros Hu Hm Hne Hrc Hc H1 H2. unfold GetAuctionCurrencyRates in Hc.
  rewrite Hm in Hc. simpl in Hc. rewrite bool_decide_eq_false_2 in Hc by done.
  destruct (UsePBSRates req) as [[]|]; simplify_eq/=; try done;
    unfold Aggregate_GetRate, RateConverter_Rates; rewrite Hrc; simpl;
    rewrite !(Rates_GetRate_lookup _ _ _ _ _ H1 H2).
  all: destruct (table_lookup m from to) as [x|e] eqn:E; [left; by apply table_lookup_sound|].
  all: assert (¬ ∃ y, has_rate m from to y) as Hno
    by (intros [y Hy]; destruct (table_lookup_complete _ _ _ _ Hy) as (? & ? & _); congruence).
  all: pose proof (table_lookup_err _ _ _ _ E) as ->.
  all: destruct (table_lookup server from to) as [x|e] eqn:E2;
    [right; split; [done|by apply table_lookup_sound]|].
  all: split_and!; [by apply table_lookup_err in E2|done|].
  all: intros [y Hy]; destruct (table_lookup_complete _ _ _ _ Hy) as (? & ? & _); congruence.
Qed.

Lemma auction_rates_request_first_witness :
  let i := iso_usd_eur_jpy in
  let m : conversion_map := {["USD" := {["EUR" := flit 1 2]}]} in
  let server : conversion_map := {["USD" := {["EUR" := flit 9 10]}]} in
  let rc := {| staleRatesThreshold := 0; rc_rates := Some (Some (NewRates (Some server)));
               lastUpdated := Some 5 |} in
  let c := @NewAggregateConversions (@Rates_conversions i canonical_range (NewRates (Some m)))
             (@Rates_conversions i canonical_range (NewRates (Some server))) in
  match GetRate c "usd" "EUR" with
  | Ok x => has_rate m "USD" "EUR" x ∨ (¬ (∃ y, has_rate m "USD" "EUR" y) ∧ has_rate server "USD" "EUR" x)
  | Err e => e = ConversionNotFoundError "USD" "EUR" ∧
             ¬ (∃ y, has_rate m "USD" "EUR" y) ∧ ¬ (∃ y, has_rate server "USD" "EUR" y)
  end.
Proof.
  intros i m server rc c.
  apply (@auction_rates_request_first i canonical_range rc
    {| ConversionRates := Some m; UsePBSRates := None |} m server "usd" "EUR" "USD" "EUR" c);
    try reflexivity; try discriminate.
Defined.

(** C8: the converter implements its abstract specification: after any history of attempts it
    serves the last table fetched successfully, unless a later failed attempt found that table
    older than the threshold, in which case it serves the constant rates until the next success. *)
Theorem converter_serves_last_fresh_table (threshold : Z) (h : history) :
  current_table (run_updates threshold h) = table_spec threshold h.
Proof.
  unfold current_table, table_spec.
  induction h as [|[now [r|e]] rest IH]; simpl; [done..|].
  rewrite checkStaleRates_history.
  destruct (last_success rest) as [[[t r] fails]|]; simpl in *; [|done].
  destruct (is_stale threshold t now); simpl; [done|]. exact IH.
Qed.

(** A request's rates are accepted exactly when every code in them is recognised,
    whichever order the two nested maps are checked in. *)
Theorem ValidateCustomRates_spec `{ISO} `{MapRange} (m : conversion_map) u :
  ValidateCustomRates (Some {| ConversionRates := Some m; UsePBSRates := u |}) = None ↔
  ∀ from row, m !! from = Some row →
    is_Some (ParseISO from) ∧ ∀ to, is_Some (row !! to) → is_Some (ParseISO to).
Proof.
  simpl. rewrite first_bad_code_None. split.
  - intros Hc from row Hm. split; [|intros to Hto]; apply Hc, elem_of_checked_codes; eauto.
  - intros Hm c (from & row & Hl & Hc)%elem_of_checked_codes.
    destruct (Hm _ _ Hl) as [? Hr]. destruct Hc as [->|?]; auto.
Qed.

(** An HTTP attempt yields a table only from a response below status 400 whose body was read
    and parsed; a failed attempt on a fresh or never-loaded table changes nothing. *)
Theorem failed_fetch_keeps_fresh_rates unmarshal (rc : RateConverter) now (http : http_outcome) :
  (∀ r, fetch unmarshal http = Ok r →
     ∃ code bytes, http = Response code (Ok bytes) ∧ code < 400 ∧ unmarshal bytes = Some r) ∧
  (∀ e, fetch unmarshal http = Err e → checkStaleRates rc now = false →
     update rc now (fetch unmarshal http) = (rc, Some e)).
Proof.
  split.
  - intros r Hf. unfold fetch in Hf. repeat go_destruct_in Hf; simplify_eq. go_bool. eauto.
  - intros e -> Hs. simpl. by rewrite Hs.
Qed.
