(* ===== verification/BidAdjustment.v ===== *)
(** * Bid adjustments: src/bidadjustment

    Rules keyed by media type, bidder and deal ([build_rules.go]), the merge of the request's
    rules over the account's, their validation ([validate.go]), and the choice and application
    of one rule's adjustments to a bid price ([apply.go]). *)
From S2P Require Import Prelude GoFloat Currency.

(** ** Data: openrtb_ext/request.go *)
Record Adjustment := { adj_Type : string; adj_Value : float64; adj_Currency : string }.

(** [None] is a nil map or a nil slice. *)
Abbreviation adj_slice := (option (list Adjustment)).
Abbreviation AdjustmentsByDealID := (option (gmap string adj_slice)).
Abbreviation adj_by_bidder := (option (gmap string AdjustmentsByDealID)).

Record MediaType := {
  mt_Banner : adj_by_bidder;
  mt_VideoInstream : adj_by_bidder;
  mt_VideoOutstream : adj_by_bidder;
  mt_Audio : adj_by_bidder;
  mt_Native : adj_by_bidder;
  mt_WildCard : adj_by_bidder
}.

Definition AdjustmentTypeCPM := "cpm".
Definition AdjustmentTypeMultiplier := "multiplier".
Definition AdjustmentTypeStatic := "static".
Definition WildCard := "*".
Definition Delimiter := "|".
Definition VideoInstream := "video-instream".
Definition VideoOutstream := "video-outstream".
Definition pricePrecision : float64 := fofZ 10000.
Definition minBid : float64 := flit 1 10.
Definition MaxFloat64 : float64 := SFmax_float prec64 emax64.

(** ** validate.go *)
Definition validateAdjustment (a : Adjustment) : bool :=
  if adj_Type a =s? AdjustmentTypeCPM then
    (adj_Currency a ≠s? "") && (f0 <=f? adj_Value a) && (adj_Value a <f? MaxFloat64)
  else if adj_Type a =s? AdjustmentTypeMultiplier then
    (f0 <=f? adj_Value a) && (adj_Value a <f? fofZ 100)
  else if adj_Type a =s? AdjustmentTypeStatic then
    (adj_Currency a ≠s? "") && (f0 <=f? adj_Value a) && (adj_Value a <f? MaxFloat64)
  else false.

Definition validate_slice (s : adj_slice) : bool :=
  match s with None => false | Some l => forallb validateAdjustment l end.

Definition validate_deals `{MapRange} (d : AdjustmentsByDealID) : bool :=
  match d with None => false | Some m => forallb (λ '(_, s), validate_slice s) (map_range m) end.

Definition validateForMediaType `{MapRange} (bidAdj : adj_by_bidder) : bool :=
  match bidAdj with None => true | Some m => forallb (λ '(_, d), validate_deals d) (map_range m) end.

Definition Validate `{MapRange} (bidAdjustments : option MediaType) : bool :=
  match bidAdjustments with
  | None => true
  | Some mt =>
      if negb (validateForMediaType (mt_Banner mt)) then false
      else if negb (validateForMediaType (mt_Audio mt)) then false
      else if negb (validateForMediaType (mt_VideoInstream mt)) then false
      else if negb (validateForMediaType (mt_VideoOutstream mt)) then false
      else if negb (validateForMediaType (mt_Native mt)) then false
      else if negb (validateForMediaType (mt_WildCard mt)) then false
      else true
  end.

(** ** build_rules.go *)
Definition rule_key (mediaType bidder deal : string) : string :=
  mediaType +:+ Delimiter +:+ bidder +:+ Delimiter +:+ deal.

Definition rules_for_bidder `{MapRange} (mediaType bidder : string) (d : AdjustmentsByDealID)
    (rules : gmap string adj_slice) : gmap string adj_slice :=
  match d with
  | None => rules
  | Some m => foldl (λ acc '(dealID, adjustments), <[rule_key mediaType bidder dealID := adjustments]> acc)
                rules (map_range m)
  end.

Definition buildRulesForMediaType `{MapRange} (mediaType : string) (rulesByBidder : adj_by_bidder)
    (rules : gmap string adj_slice) : gmap string adj_slice :=
  match rulesByBidder with
  | None => rules
  | Some m => foldl (λ acc '(bidder, d), rules_for_bidder mediaType bidder d acc) rules (map_range m)
  end.

(** [None] is the nil map returned when there are no adjustments. *)
Definition BuildRules `{MapRange} (bidAdjustments : option MediaType) : option (gmap string adj_slice) :=
  match bidAdjustments with
  | None => None
  | Some mt =>
      let rules := ∅ in
      let rules := buildRulesForMediaType "banner" (mt_Banner mt) rules in
      let rules := buildRulesForMediaType "audio" (mt_Audio mt) rules in
      let rules := buildRulesForMediaType "native" (mt_Native mt) rules in
      let rules := buildRulesForMediaType VideoInstream (mt_VideoInstream mt) rules in
      let rules := buildRulesForMediaType VideoOutstream (mt_VideoOutstream mt) rules in
      let rules := buildRulesForMediaType WildCard (mt_WildCard mt) rules in
      Some rules
  end.

(** Filling the deals a bidder lacks from the account's.  Storing into a nil map panics ([None]). *)
Definition merge_deal (acc : option AdjustmentsByDealID) (e : string * adj_slice)
  : option AdjustmentsByDealID :=
  match acc with
  | None => None
  | Some None => None
  | Some (Some reqDeals) =>
      match reqDeals !! e.1 with
      | Some _ => Some (Some reqDeals)
      | None => Some (Some (<[e.1 := e.2]> reqDeals))
      end
  end.

Definition merge_deals `{MapRange} (reqDeals acctDeals : AdjustmentsByDealID) : option AdjustmentsByDealID :=
  match acctDeals with
  | None => Some reqDeals
  | Some m => foldl merge_deal (Some reqDeals) (map_range m)
  end.

Definition merge_bidder `{MapRange} (acc : option (gmap string AdjustmentsByDealID))
    (e : string * AdjustmentsByDealID) : option (gmap string AdjustmentsByDealID) :=
  match acc with
  | None => None
  | Some reqAdj =>
      match reqAdj !! e.1 with
      | Some reqDeals =>
          match merge_deals reqDeals e.2 with
          | Some d => Some (<[e.1 := d]> reqAdj)
          | None => None
          end
      | None => Some (<[e.1 := e.2]> reqAdj)
      end
  end.

(** [None] is a panic.  The request's maps are updated in place and returned. *)
Definition mergeForMediaType `{MapRange} (reqAdj acctAdj : adj_by_bidder) : option adj_by_bidder :=
  match reqAdj, acctAdj with
  | Some r, None => Some (Some r)
  | None, Some a => Some (Some a)
  | None, None => Some None
  | Some r, Some a => Some <$> foldl merge_bidder (Some r) (map_range a)
  end.

(** [merge] once the request extension has been parsed; [reqAdj] is its [BidAdjustments]. *)
Definition merge_adjustments `{MapRange} (reqAdj acct : option MediaType) : option (option MediaType) :=
  match reqAdj, acct with
  | None, _ => Some acct
  | Some r, None => Some (Some r)
  | Some r, Some a =>
      banner ← mergeForMediaType (mt_Banner r) (mt_Banner a);
      native ← mergeForMediaType (mt_Native r) (mt_Native a);
      audio ← mergeForMediaType (mt_Audio r) (mt_Audio a);
      instream ← mergeForMediaType (mt_VideoInstream r) (mt_VideoInstream a);
      outstream ← mergeForMediaType (mt_VideoOutstream r) (mt_VideoOutstream a);
      wildcard ← mergeForMediaType (mt_WildCard r) (mt_WildCard a);
      Some (Some {| mt_Banner := banner; mt_VideoInstream := instream; mt_VideoOutstream := outstream;
                    mt_Audio := audio; mt_Native := native; mt_WildCard := wildcard |})
  end.

(** Errors of [Merge]: the request extension does not parse, or the warning. *)
Inductive merge_error := RequestExtError | BidAdjustmentWarning.

(** [reqExt] is the parsed request's [ext.prebid.bidadjustments], or the parse error.  The pair is
    Go's two results; the outer [None] is a panic. *)
Definition Merge `{MapRange} (reqExt : result unit (option MediaType)) (acct : option MediaType)
  : option (option MediaType * option merge_error) :=
  match reqExt with
  | Err _ => Some (None, Some RequestExtError)
  | Ok reqAdj =>
      merged ← merge_adjustments reqAdj acct;
      if Validate merged then Some (merged, None)
      else Some (None, Some BidAdjustmentWarning)
  end.

(** ** apply.go *)
(** The eight slots of [priorityRules]; without a deal the last four stay [""]. *)
Definition priorityRules (bidType bidder deal : string) : list string :=
  if deal ≠s? "" then
    [rule_key bidType bidder deal;
     rule_key bidType bidder WildCard;
     rule_key bidType WildCard deal;
     rule_key WildCard bidder deal;
     rule_key bidType WildCard WildCard;
     rule_key WildCard bidder WildCard;
     rule_key WildCard WildCard deal;
     rule_key WildCard WildCard WildCard]
  else
    [rule_key bidType bidder WildCard;
     rule_key bidType WildCard WildCard;
     rule_key WildCard bidder WildCard;
     rule_key WildCard WildCard WildCard;
     ""; ""; ""; ""].

Fixpoint first_rule (rules : gmap string adj_slice) (keys : list string) : adj_slice :=
  match keys with
  | [] => None
  | k :: rest => match rules !! k with Some a => a | None => first_rule rules rest end
  end.

Definition get (rules : gmap string adj_slice) (bidType bidder deal : string) : list Adjustment :=
  default [] (first_rule rules (priorityRules bidType bidder deal)).

(** The loop of [apply]; a failed conversion returns the original price with the loop's currency. *)
Fixpoint apply_loop (c : Conversions) (original : float64) (adjustments : list Adjustment)
    (bidPrice : float64) (currency : string) : float64 * string :=
  match adjustments with
  | [] => (fdiv (fround (fmul bidPrice pricePrecision)) pricePrecision, currency)
  | a :: rest =>
      if adj_Type a =s? AdjustmentTypeMultiplier then
        apply_loop c original rest (fmul bidPrice (adj_Value a)) currency
      else if adj_Type a =s? AdjustmentTypeCPM then
        match ConvertCurrency c (adj_Value a) (adj_Currency a) currency with
        | Err _ => (original, currency)
        | Ok convertedVal => apply_loop c original rest (fsub bidPrice convertedVal) currency
        end
      else if adj_Type a =s? AdjustmentTypeStatic then
        apply_loop c original rest (adj_Value a) (adj_Currency a)
      else apply_loop c original rest bidPrice currency
  end.

Definition apply (c : Conversions) (adjustments : list Adjustment) (bidPrice : float64)
    (currency : string) : float64 * string :=
  match adjustments with
  | [] => (bidPrice, currency)
  | _ => apply_loop c bidPrice adjustments bidPrice currency
  end.

Definition Apply (c : Conversions) (rules : option (gmap string adj_slice)) (price : float64)
    (deal bidder currency bidType : string) : float64 * string :=
  let rules := default ∅ rules in
  if bool_decide (rules = ∅) then (price, currency)
  else
    let '(adjustedPrice, adjustedCurrency) := apply c (get rules bidType bidder deal) price currency in
    if (deal ≠s? "") && (adjustedPrice <f? f0) then (f0, currency)
    else if (deal =s? "") && (adjustedPrice <=f? f0) then (minBid, currency)
    else (adjustedPrice, adjustedCurrency).

(** ** Reading adjustments out of the nested maps *)
Definition adj_at (m : adj_by_bidder) (bidder deal : string) : option adj_slice :=
  m ≫= λ bs, bs !! bidder ≫= λ d, d ≫= λ deals, deals !! deal.

Definition media_map (mt : MediaType) (mediaType : string) : adj_by_bidder :=
  if mediaType =s? "banner" then mt_Banner mt
  else if mediaType =s? "audio" then mt_Audio mt
  else if mediaType =s? "native" then mt_Native mt
  else if mediaType =s? VideoInstream then mt_VideoInstream mt
  else if mediaType =s? VideoOutstream then mt_VideoOutstream mt
  else if mediaType =s? WildCard then mt_WildCard mt
  else None.

Definition bid_types : list string := ["banner"; "audio"; "native"; VideoInstream; VideoOutstream].

(** Bidder names never contain the delimiter. *)
Definition no_delim (s : string) : Prop := has_char "|" s = false.
Definition delim_free (m : adj_by_bidder) : Prop :=
  ∀ bs b, m = Some bs → is_Some (bs !! b) → no_delim b.
Definition delim_free_all (mt : MediaType) : Prop :=
  Forall delim_free [mt_Banner mt; mt_Audio mt; mt_Native mt; mt_VideoInstream mt;
                     mt_VideoOutstream mt; mt_WildCard mt].

(** A rule pattern says which of media type, bidder and deal are matched exactly; [score] orders
    patterns by the number of exact fields, then from the left. *)
Abbreviation pattern := (bool * bool * bool)%type.
Definition score (p : pattern) : Z :=
  let '(a, b, c) := p in
  8 * (Z.b2z a + Z.b2z b + Z.b2z c) + 4 * Z.b2z a + 2 * Z.b2z b + Z.b2z c.
Definition all_patterns : list pattern :=
  [(true, true, true); (true, true, false); (true, false, true); (false, true, true);
   (true, false, false); (false, true, false); (false, false, true); (false, false, false)].
(** Without a deal id only the patterns that leave the deal open apply. *)
Definition patterns_for (deal : string) : list pattern :=
  filter (λ p : pattern, deal ≠ "" ∨ p.2 = false) all_patterns.
Definition pat (exact : bool) (s : string) : string := if exact then s else WildCard.
Definition entry (mt : MediaType) (bidType bidder deal : string) (p : pattern) : option adj_slice :=
  adj_at (media_map mt (pat p.1.1 bidType)) (pat p.1.2 bidder) (pat p.2 deal).

(** ** Lemmas *)
Lemma rule_key_shape m b d : rule_key m b d = m +:+ String "|" (b +:+ String "|" d).
Proof. unfold rule_key, Delimiter. done. Qed.

Lemma rule_key_inj m m' b b' d d' :
  no_delim m → no_delim m' → no_delim b → no_delim b' →
  rule_key m b d = rule_key m' b' d' → m = m' ∧ b = b' ∧ d = d'.
Proof.
  rewrite !rule_key_shape. intros Hm Hm' Hb Hb' Heq.
  destruct (append_sep_inj _ _ _ _ _ Hm Hm' Heq) as [-> Heq2].
  destruct (append_sep_inj _ _ _ _ _ Hb Hb' Heq2) as [-> ->]. done.
Qed.

#[export] Instance rule_key_deal_inj m b : Inj (=) (=) (rule_key m b).
Proof.
  intros d d'. unfold rule_key. intros Heq.
  repeat apply (inj (String.append _)) in Heq. done.
Qed.

Lemma rule_key_nonempty m b d : rule_key m b d ≠ "".
Proof. rewrite rule_key_shape. by destruct m. Qed.

Section Rules.
Context `{MapRange}.

(** A key that names no entry of the media type keeps its value. *)
Lemma buildRules_ne mt m rules x :
  (∀ b d, is_Some (adj_at m b d) → rule_key mt b d ≠ x) →
  buildRulesForMediaType mt m rules !! x = rules !! x.
Proof.
  unfold buildRulesForMediaType. destruct m as [m|]; [|done]. intros Hx.
  assert (∀ b dm, (b, dm) ∈ map_range m → ∀ d, is_Some (dm ≫= (.!! d)) → rule_key mt b d ≠ x) as Hx'.
  { intros b dm Hb%elem_of_map_range d Hd. apply Hx. unfold adj_at. simpl. by rewrite Hb. }
  clear Hx. revert rules. induction (map_range m) as [|[b dm] l IH]; intros rules; [done|]. simpl.
  rewrite IH by set_solver. unfold rules_for_bidder. destruct dm as [dm|]; [|done].
  apply (lookup_insert_all_ne (rule_key mt b)). intros d Hd.
  apply (Hx' b (Some dm)); [set_solver|]. simpl.
  apply list_elem_of_fmap in Hd as ([? s] & -> & Hs%elem_of_map_range). eauto.
Qed.

(** An entry of the media type is stored under its key. *)
Lemma buildRules_eq mt m rules b d s :
  no_delim mt → delim_free m → adj_at m b d = Some s →
  buildRulesForMediaType mt m rules !! rule_key mt b d = Some s.
Proof.
  intros Hmt Hdf. destruct m as [m|]; [|done]. unfold adj_at. simpl. intros Hs.
  destruct (m !! b) as [[dm|]|] eqn:Hb; try done. simpl in Hs.
  assert (∀ b', b' ∈ (map_range m).*1 → no_delim b') as Hnd.
  { intros b' ([? v] & -> & Hv%elem_of_map_range)%list_elem_of_fmap. eapply Hdf; eauto. }
  pose proof (NoDup_map_range_fst m) as Hu. apply elem_of_map_range in Hb. revert rules.
  induction (map_range m) as [|[b' dm'] l IH]; intros rules; [by apply elem_of_nil in Hb|].
  simpl. simpl in Hu. apply NoDup_cons in Hu as [Hb' Hu].
  apply elem_of_cons in Hb as [[= <- <-]|Hb]; [|apply IH; set_solver].
  assert (∀ l' acc, (∀ b', b' ∈ l'.*1 → b' ≠ b ∧ no_delim b') →
    foldl (λ acc '(bidder, d), rules_for_bidder mt bidder d acc) acc l' !! rule_key mt b d =
    acc !! rule_key mt b d) as Hrest.
  { clear -Hmt Hnd H. induction l' as [|[b1 d1] l' IHl]; intros acc Hl; [done|]. simpl.
    rewrite IHl by set_solver. unfold rules_for_bidder. destruct d1 as [d1|]; [|done].
    apply (lookup_insert_all_ne (rule_key mt b1)). intros k _ Hk.
    destruct (Hl b1) as [Hne Hn1]; [set_solver|].
    apply rule_key_inj in Hk as (_ & ? & _); try done. apply Hnd. set_solver. }
  rewrite Hrest; [|intros b1 Hb1; split; [set_solver|apply Hnd; set_solver]].
  apply (lookup_insert_all (rule_key mt b)); [apply NoDup_map_range_fst|].
  by apply elem_of_map_range.
Qed.
End Rules.

Section BuildRules.
Context `{MapRange}.

(** One step of [BuildRules]: entries of other media types are untouched, this one's are stored. *)
Lemma buildRules_step mt m rules t b d :
  no_delim mt → no_delim t → no_delim b → delim_free m →
  buildRulesForMediaType mt m rules !! rule_key t b d =
  if decide (t = mt) then match adj_at m b d with Some s => Some s | None => rules !! rule_key t b d end
  else rules !! rule_key t b d.
Proof.
  intros Hmt Ht Hb Hdf.
  assert (∀ b' d', is_Some (adj_at m b' d') → no_delim b') as Hb'.
  { intros b' d' [s Hs]. destruct m as [bs|]; [|done]. unfold adj_at in Hs. simpl in Hs.
    destruct (bs !! b') eqn:E; [|done]. eapply Hdf; eauto. }
  case_decide as Heq; [subst t; destruct (adj_at m b d) eqn:E; [by apply buildRules_eq|]|];
    apply buildRules_ne; intros b' d' Hs Hk; apply rule_key_inj in Hk as (? & ? & ?); eauto; subst.
  rewrite E in Hs. by destruct Hs.
Qed.

(** [BuildRules] stores exactly the nested entries, under their keys. *)
Lemma BuildRules_lookup mt rules t b d :
  BuildRules (Some mt) = Some rules → delim_free_all mt → no_delim b → t ∈ WildCard :: bid_types →
  rules !! rule_key t b d = adj_at (media_map mt t) b d.
Proof.
  intros [= <-] Hdf Hb Ht. unfold delim_free_all in Hdf.
  rewrite !Forall_cons in Hdf. destruct Hdf as (?&?&?&?&?&?&_).
  assert (no_delim t) by (unfold bid_types in Ht; set_unfold in Ht; naive_solver).
  rewrite !buildRules_step, lookup_empty by done.
  unfold bid_types in Ht. set_unfold in Ht. unfold WildCard, VideoInstream, VideoOutstream in *.
  destruct_or! Ht; subst t; unfold media_map; simpl;
    match goal with |- context [adj_at ?m b d] => by destruct (adj_at m b d) | _ => idtac end.
Qed.

Lemma BuildRules_no_empty_key mt rules : BuildRules (Some mt) = Some rules → rules !! "" = None.
Proof.
  intros [= <-]. rewrite !buildRules_ne by (intros; apply rule_key_nonempty). apply lookup_empty.
Qed.

Lemma BuildRules_entry mt rules bidType bidder deal p :
  BuildRules (Some mt) = Some rules → delim_free_all mt → no_delim bidder → bidType ∈ bid_types →
  rules !! rule_key (pat p.1.1 bidType) (pat p.1.2 bidder) (pat p.2 deal) =
  entry mt bidType bidder deal p.
Proof.
  intros Hr Hdf Hb Ht. apply (BuildRules_lookup mt); [done|done|by destruct p as [[? []] ?]|].
  destruct p as [[[] ?] ?]; simpl; set_solver.
Qed.
End BuildRules.

(** The first present pattern of a list sorted by score is the most specific present one. *)
Lemma first_rule_best rules (key : pattern → string) (e : pattern → option adj_slice) ps tail :
  (∀ p, rules !! key p = e p) → StronglySorted (λ p q, score q ≤ score p) ps →
  (∀ k, k ∈ tail → rules !! k = None) →
  (∃ p s, p ∈ ps ∧ e p = Some s ∧ first_rule rules (map key ps ++ tail) = s ∧
          ∀ q, q ∈ ps → is_Some (e q) → score q ≤ score p) ∨
  ((∀ p, p ∈ ps → e p = None) ∧ first_rule rules (map key ps ++ tail) = None).
Proof.
  intros Hk Hs Ht. induction ps as [|p ps IH]; simpl.
  - right. split; [set_solver|]. induction tail as [|k tail IHt]; [done|]. simpl.
    rewrite Ht by set_solver. apply IHt. set_solver.
  - apply StronglySorted_inv in Hs as [Hs Hall]. rewrite Forall_forall in Hall.
    rewrite Hk. destruct (e p) as [s|] eqn:Ep.
    + left. exists p, s. split_and!; [set_solver|done|done|].
      intros q [->|Hq]%elem_of_cons _; [lia|]. by apply Hall.
    + destruct (IH Hs) as [(q & s & Hq & Hes & Hf & Hmax)|[Hn Hf]].
      * left. exists q, s. split_and!; [set_solver|done|done|].
        intros r [->|Hr]%elem_of_cons Hsome; [by destruct Hsome; congruence|auto].
      * right. split; [|done]. intros q [->|?]%elem_of_cons; auto.
Qed.

Lemma priorityRules_patterns bidType bidder deal :
  priorityRules bidType bidder deal =
  map (λ p, rule_key (pat p.1.1 bidType) (pat p.1.2 bidder) (pat p.2 deal)) (patterns_for deal) ++
  (if decide (deal = "") then [""; ""; ""; ""] else []).
Proof.
  unfold priorityRules, patterns_for. destruct (String.eqb_spec deal "") as [->|Hne]; [done|].
  rewrite decide_False by done.
  assert (filter (λ p : pattern, deal ≠ "" ∨ p.2 = false) all_patterns = all_patterns) as ->; [|done].
  unfold all_patterns. rewrite !filter_cons_True by (by left). done.
Qed.

Lemma patterns_sorted deal : StronglySorted (λ p q, score q ≤ score p) (patterns_for deal).
Proof.
  unfold patterns_for. assert (StronglySorted (λ p q, score q ≤ score p) all_patterns) as Hs.
  { unfold all_patterns. repeat (constructor; [|repeat constructor; done]). constructor. }
  induction Hs as [|p ps Hs IH Hall]; [constructor|]. rewrite filter_cons.
  destruct (decide _); [|exact IH]. constructor; [exact IH|].
  rewrite Forall_forall in Hall |- *. intros q Hq. apply Hall.
  by apply list_elem_of_filter in Hq as [_ ?].
Qed.

(** ** Merging *)
Section Merge.
Context `{MapRange}.

Lemma foldl_merge_deal (l : list (string * adj_slice)) r :
  foldl merge_deal (Some (Some r)) l = Some (Some (r ∪ list_to_map l)).
Proof.
  revert r. induction l as [|[k v] l IH]; intros r; simpl; [by rewrite (right_id_L ∅ (∪))|].
  destruct (r !! k) eqn:E; simpl; rewrite IH; do 2 f_equal.
  - apply map_eq. intros i. rewrite !lookup_union, lookup_insert. case_decide; [subst i|done].
    rewrite E. by destruct (list_to_map l !! k).
  - by rewrite <-insert_union_l, insert_union_r.
Qed.

Lemma merge_deals_union r a : merge_deals (Some r) (Some a) = Some (Some (r ∪ a)).
Proof.
  unfold merge_deals. rewrite foldl_merge_deal. do 3 f_equal.
  rewrite (list_to_map_proper _ (map_to_list a)); [apply list_to_map_to_list| |apply map_range_perm].
  apply NoDup_map_range_fst.
Qed.

(** What a bidder's deals become. *)
Definition merged_deals (r a : option AdjustmentsByDealID) : option AdjustmentsByDealID :=
  match r, a with
  | Some (Some r), Some (Some a) => Some (Some (r ∪ a))
  | Some r, _ => Some r
  | None, a => a
  end.

Lemma foldl_merge_bidder l (r : gmap string AdjustmentsByDealID) :
  NoDup l.*1 → (∀ b d, r !! b = Some d → b ∈ l.*1 → d ≠ None) →
  ∃ m, foldl merge_bidder (Some r) l = Some m ∧
       ∀ b, m !! b = merged_deals (r !! b) ((list_to_map l : gmap string AdjustmentsByDealID) !! b).
Proof.
  revert r. induction l as [|[b a] l IH]; intros r Hnd Hr.
  - exists r. split; [done|]. intros b. simpl. rewrite lookup_empty. by destruct (r !! b) as [[]|].
  - simpl in Hnd. apply NoDup_cons in Hnd as [Hb Hnd].
    assert (∃ d', merge_bidder (Some r) (b, a) = Some (<[b := d']> r) ∧
                  merged_deals (r !! b) (Some a) = Some d') as (d' & Hstep & Hd').
    { simpl. destruct (r !! b) as [d|] eqn:E; [|eauto].
      destruct d as [d|]; [|exfalso; eapply Hr; [done|set_solver|done]].
      destruct a as [a|]; [rewrite merge_deals_union|]; eauto. }
    change (foldl merge_bidder (Some r) ((b, a) :: l))
      with (foldl merge_bidder (merge_bidder (Some r) (b, a)) l). rewrite Hstep.
    destruct (IH (<[b := d']> r) Hnd) as (m & Hm & Hl).
    { intros b' d Hd Hin. rewrite lookup_insert_ne in Hd by set_solver. eapply Hr; set_solver. }
    exists m. split; [done|]. intros b'. rewrite Hl. simpl.
    destruct (decide (b' = b)) as [->|Hne].
    + rewrite lookup_insert_eq, lookup_insert_eq, Hd'.
      rewrite not_elem_of_list_to_map_1 by done. by destruct d'.
    + by rewrite !lookup_insert_ne.
Qed.

Lemma mergeForMediaType_lookup (r a : gmap string AdjustmentsByDealID) :
  (∀ b d, r !! b = Some d → d ≠ None) →
  ∃ m, mergeForMediaType (Some r) (Some a) = Some (Some m) ∧
       ∀ b, m !! b = merged_deals (r !! b) (a !! b).
Proof.
  intros Hr. unfold mergeForMediaType.
  destruct (foldl_merge_bidder (map_range a) r) as (m & -> & Hm);
    [apply NoDup_map_range_fst|eauto|].
  exists m. split; [done|]. intros b. rewrite Hm. f_equal.
  rewrite (list_to_map_proper _ (map_to_list a)); [by rewrite list_to_map_to_list| |apply map_range_perm].
  apply NoDup_map_range_fst.
Qed.

Lemma validate_deals_true d :
  validate_deals d = true ↔ ∃ m, d = Some m ∧ ∀ k s, m !! k = Some s → validate_slice s = true.
Proof.
  unfold validate_deals. destruct d as [m|]; [|naive_solver]. rewrite forallb_forall. split.
  - intros Hm. exists m. split; [done|]. intros k s Hk.
    apply (Hm (k, s)), list_elem_of_In, elem_of_map_range, Hk.
  - intros (? & [= <-] & Hm) [k s] Hk%list_elem_of_In%elem_of_map_range. eauto.
Qed.

Lemma validateForMediaType_true m :
  validateForMediaType m = true ↔ ∀ bs b d, m = Some bs → bs !! b = Some d → validate_deals d = true.
Proof.
  unfold validateForMediaType. destruct m as [bs|]; [|naive_solver]. rewrite forallb_forall. split.
  - intros Hm ? b d [= <-] Hb. apply (Hm (b, d)), list_elem_of_In, elem_of_map_range, Hb.
  - intros Hm [b d] Hb%list_elem_of_In%elem_of_map_range. eauto.
Qed.

Lemma validate_not_nil m bs b d :
  validateForMediaType m = true → m = Some bs → bs !! b = Some d → d ≠ None.
Proof.
  intros Hv Hm Hb ->. rewrite validateForMediaType_true in Hv.
  apply (Hv _ _ _ Hm), validate_deals_true in Hb as (? & ? & _). done.
Qed.

(** Merging valid rules never panics and gives valid rules. *)
Lemma mergeForMediaType_valid r a :
  validateForMediaType r = true → validateForMediaType a = true →
  ∃ m, mergeForMediaType r a = Some m ∧ validateForMediaType m = true.
Proof.
  intros Hr Ha. destruct r as [r|], a as [a|]; [|simpl; eauto..].
  destruct (mergeForMediaType_lookup r a) as (m & -> & Hm); [eauto using validate_not_nil|].
  exists (Some m). split; [done|]. rewrite validateForMediaType_true in Hr, Ha |- *.
  intros ? b d [= <-]. rewrite Hm. unfold merged_deals.
  destruct (r !! b) as [[rd|]|] eqn:Er, (a !! b) as [[ad|]|] eqn:Ea; intros [= <-]; eauto.
  apply Hr, validate_deals_true in Er as (? & [= <-] & Hrd); [|done].
  apply Ha, validate_deals_true in Ea as (? & [= <-] & Had); [|done].
  apply validate_deals_true. eexists. split; [done|].
  intros k s [?|[_ ?]]%lookup_union_Some_raw; eauto.
Qed.

Lemma Validate_some mt :
  Validate (Some mt) = true ↔
  validateForMediaType (mt_Banner mt) = true ∧ validateForMediaType (mt_Audio mt) = true ∧
  validateForMediaType (mt_VideoInstream mt) = true ∧ validateForMediaType (mt_VideoOutstream mt) = true ∧
  validateForMediaType (mt_Native mt) = true ∧ validateForMediaType (mt_WildCard mt) = true.
Proof.
  unfold Validate. repeat match goal with |- context [negb ?b] => destruct b; simpl end; naive_solver.
Qed.
End Merge.

(** ** Properties *)

(** C4: the adjustments chosen for a bid are those of the most specific rule that matches it:
    among the rules of the request for the bid's media type (or any), bidder (or any) and deal
    (or any), the one with the most exact fields, ties broken from the left; a bid without a deal
    never takes a deal's rule; with no matching rule there is no adjustment. *)
Theorem adjustments_most_specific `{MapRange} (mt : MediaType) rules bidType bidder deal :
  BuildRules (Some mt) = Some rules → delim_free_all mt → no_delim bidder → bidType ∈ bid_types →
  (∃ p s, p ∈ patterns_for deal ∧ entry mt bidType bidder deal p = Some s ∧
          get rules bidType bidder deal = default [] s ∧
          ∀ q, q ∈ patterns_for deal → is_Some (entry mt bidType bidder deal q) → score q ≤ score p) ∨
  ((∀ p, p ∈ patterns_for deal → entry mt bidType bidder deal p = None) ∧
   get rules bidType bidder deal = []).
Proof.
  intros Hr Hdf Hb Ht. unfold get. rewrite priorityRules_patterns.
  destruct (first_rule_best rules
      (λ p, rule_key (pat p.1.1 bidType) (pat p.1.2 bidder) (pat p.2 deal))
      (entry mt bidType bidder deal) (patterns_for deal)
      (if decide (deal = "") then [""; ""; ""; ""] else []))
    as [(p & s & Hp & He & Hf & Hmax)|[Hn Hf]].
  - intros p. by apply (BuildRules_entry mt).
  - apply patterns_sorted.
  - intros k Hk. assert (k = "") as -> by (case_decide; set_solver).
    by apply (BuildRules_no_empty_key mt).
  - left. exists p, s. split_and!; [done|done|by rewrite Hf|done].
  - right. split; [done|]. by rewrite Hf.
Qed.

Definition sample_multiplier : Adjustment :=
  {| adj_Type := "multiplier"; adj_Value := flit 9 10; adj_Currency := "" |}.
Definition sample_media : MediaType :=
  {| mt_Banner := Some {["bidderA" := Some {["*" := Some [sample_multiplier]]}]};
     mt_VideoInstream := None; mt_VideoOutstream := None; mt_Audio := None; mt_Native := None;
     mt_WildCard := Some {["*" := Some {["*" := Some []]}]} |}.

Lemma adjustments_most_specific_witness :
  let H := canonical_range in
  ∃ rules, BuildRules (Some sample_media) = Some rules ∧
  ((∃ p s, p ∈ patterns_for "d1" ∧ entry sample_media "banner" "bidderA" "d1" p = Some s ∧
          get rules "banner" "bidderA" "d1" = default [] s ∧
          ∀ q, q ∈ patterns_for "d1" → is_Some (entry sample_media "banner" "bidderA" "d1" q) →
               score q ≤ score p) ∨
   ((∀ p, p ∈ patterns_for "d1" → entry sample_media "banner" "bidderA" "d1" p = None) ∧
    get rules "banner" "bidderA" "d1" = [])).
Proof.
  intros H. eexists. split; [reflexivity|].
  apply (@adjustments_most_specific H sample_media); [reflexivity| |reflexivity|].
  - unfold delim_free_all. rewrite !Forall_cons. unfold delim_free.
    split_and!; try done; intros bs b [= <-] Hb; simpl in Hb.
    + apply lookup_singleton_is_Some in Hb as <-. reflexivity.
    + apply lookup_singleton_is_Some in Hb as <-. reflexivity.
  - unfold bid_types. set_solver.
Defined.

(** Merging gives the request's adjustments precedence: for a valid request, every bidder and
    deal reads the request's entry when it has one and the account's otherwise, and no store into
    a nil map occurs. *)
Theorem merge_request_precedence `{MapRange} (r a : gmap string AdjustmentsByDealID) :
  validateForMediaType (Some r) = true →
  ∃ m, mergeForMediaType (Some r) (Some a) = Some (Some m) ∧
       ∀ b d, adj_at (Some m) b d =
              match adj_at (Some r) b d with Some s => Some s | None => adj_at (Some a) b d end.
Proof.
  intros Hv. destruct (mergeForMediaType_lookup r a) as (m & Hm & Hl); [eauto using validate_not_nil|].
  exists m. split; [done|]. intros b d. unfold adj_at. simpl. rewrite Hl. unfold merged_deals.
  destruct (r !! b) as [[rd|]|] eqn:Er, (a !! b) as [[ad|]|] eqn:Ea; simpl; try done.
  - rewrite lookup_union. by destruct (rd !! d), (ad !! d).
  - by destruct (rd !! d).
  - by destruct (rd !! d).
  - by apply (validate_not_nil _ _ _ _ Hv eq_refl) in Er.
Qed.

Lemma merge_request_precedence_witness :
  let H := canonical_range in
  let r : gmap string AdjustmentsByDealID := {["a" := Some {["d" := Some [sample_multiplier]]}]} in
  let a : gmap string AdjustmentsByDealID := {["a" := Some {["d" := Some []]}]} in
  ∃ m, mergeForMediaType (Some r) (Some a) = Some (Some m) ∧
       ∀ b d, adj_at (Some m) b d =
              match adj_at (Some r) b d with Some s => Some s | None => adj_at (Some a) b d end.
Proof. intros H r a. apply (@merge_request_precedence H r a). vm_compute. reflexivity. Defined.

(** Merging valid request and account adjustments always succeeds with valid adjustments and
    no warning; whatever [Merge] returns as adjustments is valid. *)
Theorem Merge_valid `{MapRange} (reqAdj acct : option MediaType) :
  (Validate reqAdj = true → Validate acct = true →
   ∃ m, Merge (Ok reqAdj) acct = Some (m, None) ∧ Validate m = true) ∧
  (∀ ext m e, Merge ext acct = Some (m, e) → Validate m = true).
Proof.
  split.
  - intros Hr Ha.
    assert (∃ m, merge_adjustments reqAdj acct = Some m ∧ Validate m = true) as (m & Hm & Hv).
    { destruct reqAdj as [r|], acct as [a|]; [|simpl; eauto..].
      apply Validate_some in Hr as (?&?&?&?&?&?), Ha as (?&?&?&?&?&?). simpl.
      destruct (mergeForMediaType_valid (mt_Banner r) (mt_Banner a)) as (? & -> & ?); try done.
      destruct (mergeForMediaType_valid (mt_Native r) (mt_Native a)) as (? & -> & ?); try done.
      destruct (mergeForMediaType_valid (mt_Audio r) (mt_Audio a)) as (? & -> & ?); try done.
      destruct (mergeForMediaType_valid (mt_VideoInstream r) (mt_VideoInstream a)) as (? & -> & ?); try done.
      destruct (mergeForMediaType_valid (mt_VideoOutstream r) (mt_VideoOutstream a)) as (? & -> & ?); try done.
      destruct (mergeForMediaType_valid (mt_WildCard r) (mt_WildCard a)) as (? & -> & ?); try done.
      eexists. split; [done|]. by apply Validate_some. }
    exists m. split; [|done]. unfold Merge. rewrite Hm. simpl. by rewrite Hv.
  - intros ext m e. unfold Merge. destruct ext as [ra|]; [|by intros [= <- <-]].
    destruct (merge_adjustments ra acct) as [m'|]; [|done]. simpl.
    destruct (Validate m') eqn:E; by intros [= <- <-].
Qed.

Lemma Merge_valid_witness :
  let H := canonical_range in
  ∃ m, Merge (Ok (Some sample_media)) (Some sample_media) = Some (m, None) ∧ Validate m = true.
Proof.
  intros H. apply (proj1 (@Merge_valid H (Some sample_media) (Some sample_media)));
    vm_compute; reflexivity.
Defined.

(** An adjusted price is never below its bound: with rules in force, a bid without a deal
    leaves with a price above zero and a bid with a deal with a price that is not negative
    (unless the arithmetic yields a NaN). *)
Theorem Apply_price_bounds c (rules : gmap string adj_slice) price deal bidder currency bidType p cur :
  rules ≠ ∅ → Apply c (Some rules) price deal bidder currency bidType = (p, cur) → is_nan p = false →
  if decide (deal = "") then flt f0 p else ¬ flt p f0.
Proof.
  intros Hne. unfold Apply. simpl. rewrite bool_decide_eq_false_2 by done.
  destruct (apply c _ price currency) as [ap ac]. intros Ha Hn.
  destruct (String.eqb_spec deal "") as [->|Hd]; simpl in Ha.
  - rewrite decide_True by done. destruct (ap <=f? f0) eqn:E; simplify_eq.
    + apply fltb_spec. by vm_compute.
    + apply fltb_spec. rewrite fltb_false_le by done. by rewrite E.
  - rewrite decide_False by done. destruct (ap <f? f0) eqn:E; simplify_eq; rewrite <-fltb_spec; [|congruence].
    by vm_compute.
Qed.

Lemma Apply_price_bounds_witness :
  let r : gmap string adj_slice :=
    {["banner|*|*" := Some [{| adj_Type := "multiplier"; adj_Value := f0; adj_Currency := "" |}]]} in
  if decide ("" = "") then flt f0 minBid else ¬ flt minBid f0.
Proof.
  intros r.
  apply (Apply_price_bounds {| GetRate := λ _ _, Err RatesNilError; GetRates := None |} r f1 ""
    "bidderA" "USD" "banner" minBid "USD"); [discriminate|vm_compute; reflexivity..].
Defined.

(** When a conversion fails after a static adjustment, the bid keeps its original price but
    is labelled with the static adjustment's currency, not the currency the price is in. *)
Theorem failed_cpm_after_static_keeps_static_currency :
  ∃ c adjustments price,
    forallb validateAdjustment adjustments = true ∧
    apply c adjustments price "USD" = (price, "JPY").
Proof.
  exists {| GetRate := λ _ _, Err RatesNilError; GetRates := None |},
    [{| adj_Type := "static"; adj_Value := fofZ 100; adj_Currency := "JPY" |};
     {| adj_Type := "cpm"; adj_Value := f1; adj_Currency := "EUR" |}], (fofZ 2).
  split; vm_compute; reflexivity.
Qed.
