(* ===== verification/Bids.v ===== *)
(** * Bids and seats: src/exchange/entities, openrtb2.Bid

    The exchange passes [*PbsOrtbBid] pointers between the seats, the auction and the response
    and clears or fills fields through them, so bids live in a store addressed by [loc]. *)
From S2P Require Import Prelude GoFloat.

(** The fields of [openrtb2.Bid] the exchange reads.  [bid_Ext] is the extension as received and
    [bid_ExtType] its [ext.prebid.type], when it parses and has one. *)
Record Bid := {
  bid_ID : string;
  bid_ImpID : string;
  bid_Price : float64;
  bid_AdM : string;
  bid_NURL : string;
  bid_DealID : string;
  bid_W : Z;
  bid_H : Z;
  bid_Exp : Z;
  bid_MType : Z;
  bid_ExtType : option string;
  bid_CrID : string;
  bid_ADomain : list string;
  bid_Cat : list string;
  bid_CatTax : Z;
  bid_Dur : Z;
  bid_Ext : string
}.

Record ExtBidPrebidFloors := {
  ebf_FloorRule : string;
  ebf_FloorRuleValue : float64;
  ebf_FloorValue : float64;
  ebf_FloorCurrency : string
}.

(** [ExtBidPrebidMeta] is handed on; only its adapter code is written. *)
Record ExtBidPrebidMeta := { meta_AdapterCode : string; meta_rest : string }.
Record ExtBidPrebidVideo := { bv_Duration : Z; bv_PrimaryCategory : string }.
Record ExtBidPrebidEvents := { be_Win : string; be_Imp : string }.

(** [pb_Bid] is [None] for a nil [Bid] pointer. *)
Record PbsOrtbBid := {
  pb_Bid : option Bid;
  pb_BidType : string;
  pb_BidTargets : gmap string string;
  pb_BidFloors : option ExtBidPrebidFloors;
  pb_TargetBidderCode : string;
  pb_BidMeta : option ExtBidPrebidMeta;
  pb_BidVideo : option ExtBidPrebidVideo;
  pb_BidEvents : option ExtBidPrebidEvents;
  pb_DealPriority : Z;
  pb_DealTierSatisfied : bool;
  pb_GeneratedBidID : string;
  pb_OriginalBidCPM : float64;
  pb_OriginalBidCur : string;
  pb_AdapterCode : string
}.

(** A [*PbsOrtbBid] pointer, and what the pointers reach. *)
Abbreviation loc := nat.
Abbreviation bid_store := (gmap nat PbsOrtbBid).

(** [openrtb_ext.FledgeAuctionConfig] and [ExtHttpCall] *)
Record FledgeAuctionConfig := { fa_ImpId : string; fa_Bidder : string; fa_Adapter : string; fa_Config : string }.
Record ExtHttpCall := { hc_Uri : string; hc_RequestBody : string; hc_RequestHeaders : list (string * string);
                        hc_ResponseBody : string; hc_Status : Z }.

Record PbsOrtbSeatBid := {
  seat_Bids : list loc;
  seat_Currency : string;
  seat_Seat : string;
  seat_FledgeAuctionConfigs : option (list FledgeAuctionConfig);
  seat_HttpCalls : list ExtHttpCall
}.

(** [bid.Bid] through a pointer; [None] when dereferencing would panic. *)
Definition bid_of (st : bid_store) (l : loc) : option Bid := st !! l ≫= pb_Bid.

Definition set_Bid (b : option Bid) (p : PbsOrtbBid) : PbsOrtbBid :=
  {| pb_Bid := b; pb_BidType := pb_BidType p; pb_BidTargets := pb_BidTargets p; pb_BidFloors := pb_BidFloors
     p; pb_TargetBidderCode := pb_TargetBidderCode p; pb_BidMeta := pb_BidMeta p; pb_BidVideo := pb_BidVideo
     p; pb_BidEvents := pb_BidEvents p; pb_DealPriority := pb_DealPriority p; pb_DealTierSatisfied :=
     pb_DealTierSatisfied p; pb_GeneratedBidID := pb_GeneratedBidID p; pb_OriginalBidCPM := pb_OriginalBidCPM
     p; pb_OriginalBidCur := pb_OriginalBidCur p; pb_AdapterCode := pb_AdapterCode p |}.
Definition set_BidTargets (t : gmap string string) (p : PbsOrtbBid) : PbsOrtbBid :=
  {| pb_Bid := pb_Bid p; pb_BidType := pb_BidType p; pb_BidTargets := t; pb_BidFloors := pb_BidFloors p;
     pb_TargetBidderCode := pb_TargetBidderCode p; pb_BidMeta := pb_BidMeta p; pb_BidVideo := pb_BidVideo p;
     pb_BidEvents := pb_BidEvents p; pb_DealPriority := pb_DealPriority p; pb_DealTierSatisfied :=
     pb_DealTierSatisfied p; pb_GeneratedBidID := pb_GeneratedBidID p; pb_OriginalBidCPM := pb_OriginalBidCPM
     p; pb_OriginalBidCur := pb_OriginalBidCur p; pb_AdapterCode := pb_AdapterCode p |}.
Definition set_BidFloors (f : option ExtBidPrebidFloors) (p : PbsOrtbBid) : PbsOrtbBid :=
  {| pb_Bid := pb_Bid p; pb_BidType := pb_BidType p; pb_BidTargets := pb_BidTargets p; pb_BidFloors := f;
     pb_TargetBidderCode := pb_TargetBidderCode p; pb_BidMeta := pb_BidMeta p; pb_BidVideo := pb_BidVideo p;
     pb_BidEvents := pb_BidEvents p; pb_DealPriority := pb_DealPriority p; pb_DealTierSatisfied :=
     pb_DealTierSatisfied p; pb_GeneratedBidID := pb_GeneratedBidID p; pb_OriginalBidCPM := pb_OriginalBidCPM
     p; pb_OriginalBidCur := pb_OriginalBidCur p; pb_AdapterCode := pb_AdapterCode p |}.
Definition set_TargetBidderCode (c : string) (p : PbsOrtbBid) : PbsOrtbBid :=
  {| pb_Bid := pb_Bid p; pb_BidType := pb_BidType p; pb_BidTargets := pb_BidTargets p; pb_BidFloors :=
     pb_BidFloors p; pb_TargetBidderCode := c; pb_BidMeta := pb_BidMeta p; pb_BidVideo := pb_BidVideo p;
     pb_BidEvents := pb_BidEvents p; pb_DealPriority := pb_DealPriority p; pb_DealTierSatisfied :=
     pb_DealTierSatisfied p; pb_GeneratedBidID := pb_GeneratedBidID p; pb_OriginalBidCPM := pb_OriginalBidCPM
     p; pb_OriginalBidCur := pb_OriginalBidCur p; pb_AdapterCode := pb_AdapterCode p |}.
Definition set_BidEvents (e : option ExtBidPrebidEvents) (p : PbsOrtbBid) : PbsOrtbBid :=
  {| pb_Bid := pb_Bid p; pb_BidType := pb_BidType p; pb_BidTargets := pb_BidTargets p; pb_BidFloors :=
     pb_BidFloors p; pb_TargetBidderCode := pb_TargetBidderCode p; pb_BidMeta := pb_BidMeta p; pb_BidVideo :=
     pb_BidVideo p; pb_BidEvents := e; pb_DealPriority := pb_DealPriority p; pb_DealTierSatisfied :=
     pb_DealTierSatisfied p; pb_GeneratedBidID := pb_GeneratedBidID p; pb_OriginalBidCPM := pb_OriginalBidCPM
     p; pb_OriginalBidCur := pb_OriginalBidCur p; pb_AdapterCode := pb_AdapterCode p |}.
Definition set_DealTierSatisfied (d : bool) (p : PbsOrtbBid) : PbsOrtbBid :=
  {| pb_Bid := pb_Bid p; pb_BidType := pb_BidType p; pb_BidTargets := pb_BidTargets p; pb_BidFloors :=
     pb_BidFloors p; pb_TargetBidderCode := pb_TargetBidderCode p; pb_BidMeta := pb_BidMeta p; pb_BidVideo :=
     pb_BidVideo p; pb_BidEvents := pb_BidEvents p; pb_DealPriority := pb_DealPriority p; pb_DealTierSatisfied
     := d; pb_GeneratedBidID := pb_GeneratedBidID p; pb_OriginalBidCPM := pb_OriginalBidCPM p;
     pb_OriginalBidCur := pb_OriginalBidCur p; pb_AdapterCode := pb_AdapterCode p |}.
Definition set_GeneratedBidID (g : string) (p : PbsOrtbBid) : PbsOrtbBid :=
  {| pb_Bid := pb_Bid p; pb_BidType := pb_BidType p; pb_BidTargets := pb_BidTargets p; pb_BidFloors :=
     pb_BidFloors p; pb_TargetBidderCode := pb_TargetBidderCode p; pb_BidMeta := pb_BidMeta p; pb_BidVideo :=
     pb_BidVideo p; pb_BidEvents := pb_BidEvents p; pb_DealPriority := pb_DealPriority p; pb_DealTierSatisfied
     := pb_DealTierSatisfied p; pb_GeneratedBidID := g; pb_OriginalBidCPM := pb_OriginalBidCPM p;
     pb_OriginalBidCur := pb_OriginalBidCur p; pb_AdapterCode := pb_AdapterCode p |}.

(** A bid with everything unset but the pointer and its type. *)
Definition plain_bid (b : option Bid) (bidType : string) : PbsOrtbBid :=
  {| pb_Bid := b; pb_BidType := bidType; pb_BidTargets := ∅; pb_BidFloors := None; pb_TargetBidderCode := "";
     pb_BidMeta := None; pb_BidVideo := None; pb_BidEvents := None; pb_DealPriority := 0;
     pb_DealTierSatisfied := false; pb_GeneratedBidID := ""; pb_OriginalBidCPM := f0; pb_OriginalBidCur := "";
     pb_AdapterCode := "" |}.

Definition set_seat_Bids (bs : list loc) (s : PbsOrtbSeatBid) : PbsOrtbSeatBid :=
  {| seat_Bids := bs; seat_Currency := seat_Currency s; seat_Seat := seat_Seat s;
     seat_FledgeAuctionConfigs := seat_FledgeAuctionConfigs s; seat_HttpCalls := seat_HttpCalls s |}.
Definition set_seat_Currency (c : string) (s : PbsOrtbSeatBid) : PbsOrtbSeatBid :=
  {| seat_Bids := seat_Bids s; seat_Currency := c; seat_Seat := seat_Seat s;
     seat_FledgeAuctionConfigs := seat_FledgeAuctionConfigs s; seat_HttpCalls := seat_HttpCalls s |}.
(** A seat with bids in a currency and nothing else. *)
Definition plain_seat (bs : list loc) (cur seat : string) : PbsOrtbSeatBid :=
  {| seat_Bids := bs; seat_Currency := cur; seat_Seat := seat; seat_FledgeAuctionConfigs := None; seat_HttpCalls := [] |}.

Definition BidTypeBanner := "banner".
Definition BidTypeVideo := "video".
Definition BidTypeAudio := "audio".
Definition BidTypeNative := "native".

(** openrtb_ext.ParseBidType *)
Definition ParseBidType (bidType : string) : option string :=
  if existsb (String.eqb bidType) [BidTypeBanner; BidTypeVideo; BidTypeAudio; BidTypeNative]
  then Some bidType else None.

(** exchange.getPrebidMediaTypeForBid: the type named by the extension. *)
Definition getPrebidMediaTypeForBid (bid : Bid) : option string := bid_ExtType bid ≫= ParseBidType.

(** exchange.getMediaTypeForBid: [mtype] first, the extension when it is unset. *)
Definition getMediaTypeForBid (bid : Bid) : option string :=
  if 0 <? bid_MType bid then
    if bid_MType bid =? 1 then Some BidTypeBanner
    else if bid_MType bid =? 2 then Some BidTypeVideo
    else if bid_MType bid =? 3 then Some BidTypeAudio
    else if bid_MType bid =? 4 then Some BidTypeNative
    else None
  else getPrebidMediaTypeForBid bid.
