(* ===== verification/Auction.v ===== *)
(** * The auction: src/exchange/auction.go

    Selection of the winning bid per impression with the four-level tie-break, the index of all
    bids by impression and bidder, the account's limit on bids per bidder, and the cache TTLs. *)
From S2P Require Import Prelude GoFloat Order Bids.

(** ** Comparison of bids *)
Definition seat_key (bidder : string) (bid : Bid) : string := bidder +:+ ":" +:+ bid_ID bid.

Definition bidBeats (newBid : Bid) (newBidder : string) (curBid : Bid) (curBidder : string)
    (preferDeals : bool) (seatWeights seatLatency : gmap string Z) : bool :=
  if preferDeals && (bid_DealID curBid ≠s? "") && (bid_DealID newBid =s? "") then false
  else if preferDeals && (bid_DealID curBid =s? "") && (bid_DealID newBid ≠s? "") then true
  else if negb (bid_Price newBid =f? bid_Price curBid) then bid_Price curBid <f? bid_Price newBid
  else
    let newW := default 0 (seatWeights !! newBidder) in
    let curW := default 0 (seatWeights !! curBidder) in
    if negb (newW =? curW) then curW <? newW
    else
      let newL := default 0 (seatLatency !! newBidder) in
      let curL := default 0 (seatLatency !! curBidder) in
      if negb (newL =? curL) then
        if newL =? 0 then false
        else if curL =? 0 then true
        else newL <? curL
      else String.ltb (seat_key newBidder newBid) (seat_key curBidder curBid).

Definition isNewWinningBid (bid wbid : Bid) (preferDeals : bool) : bool :=
  if preferDeals && (bid_DealID wbid ≠s? "") && (bid_DealID bid =s? "") then false
  else if preferDeals && (bid_DealID wbid =s? "") && (bid_DealID bid ≠s? "") then true
  else bid_Price wbid <f? bid_Price bid.

(** ** [newAuction] *)
Record auction := {
  winningBids : gmap string loc;
  allBidsByBidder : gmap string (gmap string (list loc));
  roundedPrices : gmap nat string;
  cacheIds : gmap nat string;
  vastCacheIds : gmap nat string;
  auc_seatWeights : gmap string Z;
  auc_seatLatency : gmap string Z
}.

(** The loop's three maps: winners, their bidders, and all bids. *)
Record auction_acc := {
  acc_bids : gmap string loc;
  acc_bidders : gmap string string;
  acc_all : gmap string (gmap string (list loc))
}.

Section Auction.
Context (st : bid_store) (preferDeals : bool) (seatWeights seatLatency : gmap string Z).

(** The body of the inner loop for one bid; [None] is a nil dereference. *)
Definition auction_bid (bidderName : string) (acc : auction_acc) (bid : loc) : option auction_acc :=
  b ← bid_of st bid;
  let imp := bid_ImpID b in
  wins ← match acc_bids acc !! imp with
         | None => Some true
         | Some wbid =>
             wb ← bid_of st wbid;
             Some (bidBeats b bidderName wb (default "" (acc_bidders acc !! imp))
                     preferDeals seatWeights seatLatency)
         end;
  let all := acc_all acc in
  let all' := match all !! imp with
              | Some bidMap => <[imp := <[bidderName := default [] (bidMap !! bidderName) ++ [bid]]> bidMap]> all
              | None => <[imp := {[bidderName := [bid]]}]> all
              end in
  Some (if wins : bool then
          {| acc_bids := <[imp := bid]> (acc_bids acc);
             acc_bidders := <[imp := bidderName]> (acc_bidders acc); acc_all := all' |}
        else {| acc_bids := acc_bids acc; acc_bidders := acc_bidders acc; acc_all := all' |}).

Fixpoint auction_bids (bidderName : string) (acc : auction_acc) (bids : list loc) : option auction_acc :=
  match bids with
  | [] => Some acc
  | b :: rest => acc' ← auction_bid bidderName acc b; auction_bids bidderName acc' rest
  end.

Fixpoint auction_seats (acc : auction_acc) (seats : list (string * option PbsOrtbSeatBid))
  : option auction_acc :=
  match seats with
  | [] => Some acc
  | (bidderName, None) :: rest => auction_seats acc rest
  | (bidderName, Some seatBid) :: rest =>
      acc' ← auction_bids bidderName acc (seat_Bids seatBid); auction_seats acc' rest
  end.

Definition newAuction `{MapRange} (seatBids : gmap string (option PbsOrtbSeatBid)) : option auction :=
  acc ← auction_seats {| acc_bids := ∅; acc_bidders := ∅; acc_all := ∅ |} (map_range seatBids);
  Some {| winningBids := acc_bids acc; allBidsByBidder := acc_all acc; roundedPrices := ∅;
          cacheIds := ∅; vastCacheIds := ∅;
          auc_seatWeights := seatWeights; auc_seatLatency := seatLatency |}.
End Auction.

(** ** Cache times *)
Definition addBuffer (base buffer : Z) : Z := if base <=? 0 then 0 else wrap64 (base + buffer).

Definition cacheTTL (impTTL bidTTL defTTL buffer : Z) : Z :=
  if (impTTL <=? 0) && (bidTTL <=? 0) then addBuffer defTTL buffer
  else if impTTL <=? 0 then addBuffer bidTTL buffer
  else if bidTTL <=? 0 then addBuffer impTTL buffer
  else if impTTL <? bidTTL then addBuffer impTTL buffer
  else addBuffer bidTTL buffer.

Record DefaultTTLs := { ttl_Banner : Z; ttl_Video : Z; ttl_Audio : Z; ttl_Native : Z }.

Definition defTTL (bidType : string) (d : DefaultTTLs) : Z :=
  if bidType =s? BidTypeBanner then ttl_Banner d
  else if bidType =s? BidTypeVideo then ttl_Video d
  else if bidType =s? BidTypeNative then ttl_Native d
  else if bidType =s? BidTypeAudio then ttl_Audio d
  else 0.

Definition valOrZero (useVal : bool) (val : Z) : Z := if useVal then val else 0.

Definition makeVAST (bid : Bid) : string :=
  if bid_AdM bid =s? "" then
    "<VAST version=" +:+ String (ascii_of_nat 34) "3.0" +:+ String (ascii_of_nat 34) "><Ad><Wrapper>" +:+
    "<AdSystem>prebid.org wrapper</AdSystem>" +:+
    "<VASTAdTagURI><![CDATA[" +:+ bid_NURL bid +:+ "]]></VASTAdTagURI>" +:+
    "<Impression></Impression><Creatives></Creatives>" +:+
    "</Wrapper></Ad></VAST>"
  else bid_AdM bid.

(** ** The order behind [bidBeats] *)
Abbreviation contender := (string * Bid)%type.
Definition priced (x : contender) : Prop := is_nan (bid_Price x.2) = false.

Section Beats.
Context (preferDeals : bool) (seatWeights seatLatency : gmap string Z).

Definition beats (x y : contender) : bool :=
  bidBeats x.2 x.1 y.2 y.1 preferDeals seatWeights seatLatency.

Definition tier_deal (x y : contender) : bool :=
  preferDeals && (bid_DealID x.2 ≠s? "") && (bid_DealID y.2 =s? "").
Definition tier_price (x y : contender) : bool := bid_Price y.2 <f? bid_Price x.2.
Definition tier_weight (x y : contender) : bool :=
  default 0 (seatWeights !! y.1) <? default 0 (seatWeights !! x.1).
(** An unknown latency (zero) counts as infinite. *)
Definition latency_ltb (a b : Z) : bool := negb (a =? 0) && ((b =? 0) || (a <? b)).
Definition tier_latency (x y : contender) : bool :=
  latency_ltb (default 0 (seatLatency !! x.1)) (default 0 (seatLatency !! y.1)).
Definition tier_key (x y : contender) : bool := String.ltb (seat_key x.1 x.2) (seat_key y.1 y.2).

Definition four_levels : contender → contender → bool :=
  lex tier_deal (lex tier_price (lex tier_weight (lex tier_latency tier_key))).

Lemma beats_four_levels x y : priced x → priced y → beats x y = four_levels x y.
Proof.
  intros Hx Hy. unfold beats, bidBeats, four_levels, lex, tier_deal, tier_price, tier_weight,
    tier_latency, tier_key, latency_ltb.
  destruct preferDeals; simpl;
    destruct (bid_DealID x.2 =s? "") eqn:Ex; destruct (bid_DealID y.2 =s? "") eqn:Ey; simpl; try done.
  all: destruct (f_trichotomy _ _ Hx Hy) as [H|[H|H]].
  all: try (rewrite (proj2 (feqb_spec _ _) H); simpl).
  all: try (apply fltb_spec in H as Hb; rewrite (fltb_asym _ _ Hb), ?Hb;
    destruct (_ =f? _) eqn:E; [apply feqb_spec in E; exfalso;
      first [exact (flt_irrefl _ (flt_feq_l _ _ _ (feq_sym _ _ E) H))
            |exact (flt_irrefl _ (flt_feq_l _ _ _ E H))]|simpl; by rewrite ?Hb]).
  all: repeat match goal with |- context [?a <f? ?b] =>
      let E := fresh in destruct (a <f? b) eqn:E; [apply fltb_spec in E; exfalso;
        first [exact (flt_irrefl _ (flt_feq_l _ _ _ H E))
              |exact (flt_irrefl _ (flt_feq_l _ _ _ (feq_sym _ _ H) E))]|clear E] end.
  all: generalize (default 0 (seatWeights !! x.1)), (default 0 (seatWeights !! y.1)),
         (default 0 (seatLatency !! x.1)), (default 0 (seatLatency !! y.1)).
  all: intros w w' l l'; repeat (go_destruct; simpl); go_bool; try done; try lia.
Qed.

#[export] Instance tier_deal_SWO : SWO priced tier_deal.
Proof.
  split; intros; unfold tier_deal in *;
    repeat match goal with |- context [?a =s? ?b] => destruct (a =s? b)
                         | H : context [?a =s? ?b] |- _ => destruct (a =s? b) end;
    destruct preferDeals; naive_solver.
Qed.
#[export] Instance tier_price_SWO : SWO priced tier_price.
Proof.
  exact (SWO_pull (λ x : contender, bid_Price x.2) (λ x, is_nan x = false) (λ x y, fltb y x)
           (SWO0 := SWO_flip _ _)).
Qed.
#[export] Instance tier_weight_SWO : SWO priced tier_weight.
Proof. unfold tier_weight. split; intros; rewrite ?Z.ltb_lt, ?Z.ltb_ge in *; lia. Qed.
#[export] Instance tier_latency_SWO : SWO priced tier_latency.
Proof.
  split; unfold tier_latency, latency_ltb; intros;
    repeat match goal with |- context [?a =? ?b] => destruct (Z.eqb_spec a b)
                         | H : context [?a =? ?b] |- _ => destruct (Z.eqb_spec a b) end;
    simpl in *; rewrite ?Z.ltb_lt, ?Z.ltb_ge in *; try done; try lia; auto.
Qed.
#[export] Instance tier_key_SWO : SWO priced tier_key.
Proof.
  apply (SWO_weaken _ _ _ (SWO0 := SWO_pull (λ x : contender, seat_key x.1 x.2) (λ _, True) String.ltb)).
  done.
Qed.

#[export] Instance four_levels_SWO : SWO priced four_levels.
Proof. unfold four_levels. apply _. Qed.

#[export] Instance beats_SWO : SWO priced beats.
Proof.
  split.
  - intros x y Hx Hy. rewrite !beats_four_levels by done. by apply (swo_asym (P:=priced)).
  - intros x y z Hx Hy Hz. rewrite !beats_four_levels by done. by apply (swo_cotrans (P:=priced)).
Qed.

(** Ties need equal stable keys. *)
Lemma beats_total x y :
  priced x → priced y → beats x y = false → beats y x = false → seat_key x.1 x.2 = seat_key y.1 y.2.
Proof.
  intros Hx Hy. rewrite !beats_four_levels by done. unfold four_levels, lex.
  intros H1 H2. repeat go_destruct_in H1; try done; repeat go_destruct_in H2; try done.
  by apply string_ltb_total.
Qed.
End Beats.

(** ** What the loops compute *)
(** The bids of one bidder's seat. *)
Definition seat_bids (seatBids : gmap string (option PbsOrtbSeatBid)) (bidder : string) : list loc :=
  match seatBids !! bidder with Some (Some s) => seat_Bids s | _ => [] end.

(** All (bidder, bid) pairs of a list of seats, in loop order. *)
Definition seat_entries (seats : list (string * option PbsOrtbSeatBid)) : list (string * loc) :=
  concat (map (λ '(bidder, os), match os with Some s => map (pair bidder) (seat_Bids s) | None => [] end) seats).

(** No bid is nil; no price is NaN; the stable keys tell an impression's bids apart. *)
Record auction_ok (st : bid_store) (seatBids : gmap string (option PbsOrtbSeatBid)) : Prop := {
  ok_present : ∀ bidder l, l ∈ seat_bids seatBids bidder → is_Some (bid_of st l);
  ok_priced : ∀ bidder l b, l ∈ seat_bids seatBids bidder → bid_of st l = Some b → is_nan (bid_Price b) = false;
  ok_keys : ∀ b1 l1 x1 b2 l2 x2,
    l1 ∈ seat_bids seatBids b1 → l2 ∈ seat_bids seatBids b2 →
    bid_of st l1 = Some x1 → bid_of st l2 = Some x2 → bid_ImpID x1 = bid_ImpID x2 →
    seat_key b1 x1 = seat_key b2 x2 → b1 = b2 ∧ l1 = l2
}.

Section Loops.
Context (st : bid_store) (preferDeals : bool) (weights latency : gmap string Z).

Definition auction_entries (acc : option auction_acc) (es : list (string * loc)) : option auction_acc :=
  foldl (λ oacc e, acc ← oacc; auction_bid st preferDeals weights latency e.1 acc e.2) acc es.

Lemma auction_entries_None es : auction_entries None es = None.
Proof. induction es; simpl; auto. Qed.

Lemma auction_bids_entries bidder bids acc :
  auction_bids st preferDeals weights latency bidder acc bids =
  auction_entries (Some acc) (map (pair bidder) bids).
Proof.
  revert acc. induction bids as [|l bids IH]; intros acc; [done|]. simpl.
  destruct (auction_bid _ _ _ _ bidder acc l) as [acc'|]; simpl; [apply IH|].
  symmetry. apply auction_entries_None.
Qed.

Lemma auction_seats_entries seats acc :
  auction_seats st preferDeals weights latency acc seats = auction_entries (Some acc) (seat_entries seats).
Proof.
  revert acc. induction seats as [|[bidder [s|]] seats IH]; intros acc; [done| |apply IH].
  unfold seat_entries. simpl. unfold auction_entries. rewrite foldl_app.
  rewrite auction_bids_entries. unfold auction_entries.
  destruct (foldl _ _ (map _ _)) as [acc'|]; simpl; [apply IH|]. symmetry. apply auction_entries_None.
Qed.

(** The contender of an entry. *)
Definition contender_of (e : string * loc) : option contender := (pair e.1) <$> bid_of st e.2.

Definition entry_imp (e : string * loc) : option string := bid_ImpID <$> bid_of st e.2.

Definition beats_entry (e f : string * loc) : bool :=
  match contender_of e, contender_of f with
  | Some x, Some y => beats preferDeals weights latency x y
  | _, _ => false
  end.

Definition imp_entries (imp : string) (es : list (string * loc)) : list (string * loc) :=
  filter (λ e, entry_imp e = Some imp) es.

(** The winner the loop keeps for an impression. *)
Definition best_entry (es : list (string * loc)) : option (string * loc) :=
  match es with [] => None | e :: rest => Some (running_best beats_entry e rest) end.

Lemma best_entry_snoc es e :
  best_entry (es ++ [e]) =
  Some (match best_entry es with None => e | Some w => if beats_entry e w then e else w end).
Proof. destruct es; simpl; [done|]. unfold running_best. by rewrite foldl_app. Qed.

Definition bidder_bids (bidder : string) (es : list (string * loc)) : list loc :=
  (filter (λ e : string * loc, e.1 = bidder) es).*2.

Lemma bidder_bids_snoc bidder es e :
  bidder_bids bidder (es ++ [e]) =
  if decide (e.1 = bidder) then bidder_bids bidder es ++ [e.2] else bidder_bids bidder es.
Proof.
  unfold bidder_bids. rewrite filter_app, fmap_app, filter_cons, filter_nil.
  destruct (decide (e.1 = bidder)); [done|]. by rewrite app_nil_r.
Qed.

Definition index_of (es : list (string * loc)) (bidder : string) : option (list loc) :=
  match bidder_bids bidder es with [] => None | l => Some l end.

Lemma best_entry_None es : best_entry es = None → es = [].
Proof. by destruct es. Qed.

(** The invariant of the loops after the entries [es]. *)
Record acc_spec (es : list (string * loc)) (acc : auction_acc) : Prop := {
  spec_bids : ∀ imp, acc_bids acc !! imp = snd <$> best_entry (imp_entries imp es);
  spec_bidders : ∀ imp, acc_bidders acc !! imp = fst <$> best_entry (imp_entries imp es);
  spec_all_dom : ∀ imp, acc_all acc !! imp = None ↔ imp_entries imp es = [];
  spec_all : ∀ imp m bidder, acc_all acc !! imp = Some m → m !! bidder = index_of (imp_entries imp es) bidder
}.

Lemma imp_entries_snoc imp es e :
  imp_entries imp (es ++ [e]) =
  if decide (entry_imp e = Some imp) then imp_entries imp es ++ [e] else imp_entries imp es.
Proof.
  unfold imp_entries. rewrite filter_app, filter_cons, filter_nil.
  destruct (decide _); [done|]. by rewrite app_nil_r.
Qed.

Lemma imp_entries_elem imp es e : e ∈ imp_entries imp es ↔ entry_imp e = Some imp ∧ e ∈ es.
Proof. unfold imp_entries. by rewrite list_elem_of_filter. Qed.

Lemma best_entry_elem es w : best_entry es = Some w → w ∈ es.
Proof.
  destruct es as [|e rest]; [done|]. intros [= <-]. unfold running_best.
  revert e. induction rest as [|x rest IH]; intros e; simpl; [set_solver|].
  destruct (beats_entry x e); [specialize (IH x)|specialize (IH e)]; set_solver.
Qed.

Lemma auction_bid_spec es acc e acc' :
  acc_spec es acc → auction_bid st preferDeals weights latency e.1 acc e.2 = Some acc' →
  acc_spec (es ++ [e]) acc'.
Proof.
  intros [Hb Hw Hd Ha] Hstep. unfold auction_bid in Hstep.
  destruct (bid_of st e.2) as [b|] eqn:Eb; [|done]. simpl in Hstep.
  set (imp := bid_ImpID b) in *.
  assert (entry_imp e = Some imp) as Himp by (unfold entry_imp; by rewrite Eb).
  assert (∃ wins : bool,
    wins = match best_entry (imp_entries imp es) with None => true | Some w => beats_entry e w end ∧
    acc_bids acc' = (if wins then <[imp := e.2]> (acc_bids acc) else acc_bids acc) ∧
    acc_bidders acc' = (if wins then <[imp := e.1]> (acc_bidders acc) else acc_bidders acc) ∧
    acc_all acc' = match acc_all acc !! imp with
              | Some m => <[imp := <[e.1 := default [] (m !! e.1) ++ [e.2]]> m]> (acc_all acc)
              | None => <[imp := {[e.1 := [e.2]]}]> (acc_all acc) end) as (wins & Hwins & H1 & H2 & H3).
  { rewrite Hb in Hstep. destruct (best_entry (imp_entries imp es)) as [w|] eqn:Ew; simpl in Hstep.
    - pose proof (best_entry_elem _ _ Ew) as Hin. apply imp_entries_elem in Hin as [Hwi _].
      unfold entry_imp in Hwi. destruct (bid_of st w.2) as [wb|] eqn:Ewb; [|done]. simpl in Hstep.
      rewrite Hw, Ew in Hstep. simpl in Hstep. simplify_eq.
      exists (beats_entry e w). unfold beats_entry, contender_of. rewrite Eb, Ewb. simpl.
      unfold beats. simpl. destruct (bidBeats _ _ _ _ _ _ _); done.
    - simplify_eq. exists true. done. }
  split; intros i; rewrite ?imp_entries_snoc, ?Himp.
  - rewrite H1. destruct (decide (Some imp = Some i)) as [[= <-]|Hne].
    + rewrite best_entry_snoc. destruct (best_entry _) as [w|] eqn:Ew; subst wins.
      * destruct (beats_entry e w); simpl; [apply lookup_insert_eq|]. by rewrite Hb, Ew.
      * apply lookup_insert_eq.
    + destruct wins; [rewrite lookup_insert_ne by congruence|]; apply Hb.
  - rewrite H2. destruct (decide (Some imp = Some i)) as [[= <-]|Hne].
    + rewrite best_entry_snoc. destruct (best_entry _) as [w|] eqn:Ew; subst wins.
      * destruct (beats_entry e w); simpl; [apply lookup_insert_eq|]. by rewrite Hw, Ew.
      * apply lookup_insert_eq.
    + destruct wins; [rewrite lookup_insert_ne by congruence|]; apply Hw.
  - rewrite H3. destruct (decide (Some imp = Some i)) as [[= <-]|Hne].
    + destruct (acc_all acc !! imp); rewrite lookup_insert_eq;
        (split; [done|intros Hn; by apply app_nil in Hn as [_ ?]]).
    + destruct (acc_all acc !! imp); rewrite lookup_insert_ne by congruence; apply Hd.
  - intros m bidder. rewrite H3. destruct (decide (Some imp = Some i)) as [[= <-]|Hne].
    + unfold index_of. rewrite bidder_bids_snoc.
      destruct (acc_all acc !! imp) as [m0|] eqn:Em; rewrite lookup_insert_eq; intros [= <-].
      * destruct (decide (e.1 = bidder)) as [<-|Hne].
        -- rewrite lookup_insert_eq, (Ha _ _ _ Em). unfold index_of.
           destruct (bidder_bids e.1 (imp_entries imp es)); done.
        -- rewrite lookup_insert_ne by done. by rewrite (Ha _ _ _ Em).
      * apply Hd in Em. rewrite Em. destruct (decide (e.1 = bidder)) as [<-|Hne].
        -- by rewrite lookup_singleton_eq.
        -- by rewrite lookup_singleton_ne.
    + destruct (acc_all acc !! imp); rewrite lookup_insert_ne by congruence; apply Ha.
Qed.

Lemma auction_entries_spec es acc :
  auction_entries (Some {| acc_bids := ∅; acc_bidders := ∅; acc_all := ∅ |}) es = Some acc →
  acc_spec es acc.
Proof.
  revert acc. induction es as [|e es IH] using rev_ind; intros acc.
  - intros [= <-]. split; intros; rewrite ?lookup_empty in *; done.
  - unfold auction_entries. rewrite foldl_app. simpl.
    destruct (foldl _ _ es) as [acc0|] eqn:E; [|done]. simpl. intros Hs.
    eapply auction_bid_spec; [|done]. by apply IH.
Qed.

(** With every bid present the loops do not panic. *)
Lemma auction_entries_total es :
  (∀ e, e ∈ es → is_Some (bid_of st e.2)) →
  is_Some (auction_entries (Some {| acc_bids := ∅; acc_bidders := ∅; acc_all := ∅ |}) es).
Proof.
  induction es as [|e es IH] using rev_ind; intros Hp; [simpl; eauto|].
  destruct IH as [acc Hacc]; [set_solver|]. pose proof (auction_entries_spec _ _ Hacc) as [Hb _ _ _].
  unfold auction_entries in *. rewrite foldl_app, Hacc. simpl. unfold auction_bid.
  destruct (Hp e) as [b ->]; [set_solver|]. simpl. rewrite Hb.
  destruct (best_entry _) as [w|] eqn:Ew; simpl; [|eauto].
  apply best_entry_elem, imp_entries_elem in Ew as [_ Hin].
  destruct (Hp w) as [wb ->]; [set_solver|]. simpl. eauto.
Qed.
End Loops.

Section Seats.
Context (st : bid_store).
Implicit Types sb : gmap string (option PbsOrtbSeatBid).

Lemma elem_of_seat_entries seats b l :
  (b, l) ∈ seat_entries seats ↔ ∃ s, (b, Some s) ∈ seats ∧ l ∈ seat_Bids s.
Proof.
  unfold seat_entries. rewrite list_elem_of_In, in_concat. split.
  - intros (x & Hx & Hin). apply in_map_iff in Hx as ([b' [s|]] & <- & Hs); [|done].
    apply in_map_iff in Hin as (l' & [= <- <-] & Hl). exists s. by rewrite !list_elem_of_In.
  - intros (s & Hs & Hl). exists (map (pair b) (seat_Bids s)). rewrite !list_elem_of_In in *. split.
    + apply in_map_iff. exists (b, Some s). done.
    + apply in_map_iff. eauto.
Qed.

Lemma elem_of_range_entries `{MapRange} sb b l :
  (b, l) ∈ seat_entries (map_range sb) ↔ l ∈ seat_bids sb b.
Proof.
  rewrite elem_of_seat_entries. unfold seat_bids. split.
  - intros (s & Hs%elem_of_map_range & Hl). by rewrite Hs.
  - intros Hl. destruct (sb !! b) as [[s|]|] eqn:E; [|by apply elem_of_nil in Hl..].
    exists s. by rewrite elem_of_map_range.
Qed.

(** The bids of an impression and bidder keep the order of the seat. *)
Lemma bidder_bids_seat `{MapRange} sb imp bidder :
  bidder_bids bidder (imp_entries st imp (seat_entries (map_range sb))) =
  filter (λ l, bid_ImpID <$> bid_of st l = Some imp) (seat_bids sb bidder).
Proof.
  assert (∀ b bids, bidder_bids bidder (imp_entries st imp (map (pair b) bids)) =
    if decide (b = bidder) then filter (λ l, bid_ImpID <$> bid_of st l = Some imp) bids else []) as Hseat.
  { intros b bids. unfold bidder_bids, imp_entries, entry_imp. induction bids as [|l bids IH]; simpl.
    - by destruct (decide _).
    - rewrite !filter_cons. simpl. destruct (decide (bid_ImpID <$> bid_of st l = Some imp)) as [Hi|Hi].
      + rewrite filter_cons. cbn [fst]. destruct (decide (b = bidder)); [|done].
        rewrite fmap_cons, IH. done.
      + rewrite IH. by destruct (decide (b = bidder)). }
  assert (∀ es es', bidder_bids bidder (imp_entries st imp (es ++ es')) =
    bidder_bids bidder (imp_entries st imp es) ++ bidder_bids bidder (imp_entries st imp es')) as Happ.
  { intros. unfold bidder_bids, imp_entries. by rewrite !filter_app, fmap_app. }
  assert (∀ seats, bidder ∉ seats.*1 → bidder_bids bidder (imp_entries st imp (seat_entries seats)) = []) as Hnone.
  { induction seats as [|[b [s|]] seats IH]; intros Hn; [done| |apply IH; set_solver].
    unfold seat_entries. simpl. rewrite Happ, Hseat, decide_False by set_solver. apply IH. set_solver. }
  unfold seat_bids. destruct (sb !! bidder) as [os|] eqn:E.
  - apply elem_of_map_range in E. pose proof (NoDup_map_range_fst sb) as Hnd.
    induction (map_range sb) as [|[b o] seats IH]; [by apply elem_of_nil in E|].
    simpl in Hnd. apply NoDup_cons in Hnd as [Hb Hnd].
    unfold seat_entries. simpl. rewrite Happ. apply elem_of_cons in E as [[= <- <-]|E].
    + fold (seat_entries seats). rewrite (Hnone seats) by done. rewrite app_nil_r.
      destruct os as [s|]; [|done]. by rewrite Hseat, decide_True.
    + fold (seat_entries seats). rewrite (IH E Hnd). destruct o as [s'|]; [|done].
      rewrite Hseat, decide_False; [done|]. intros ->. apply Hb.
      apply list_elem_of_fmap. by exists (bidder, os).
  - apply Hnone. intros ([? v] & -> & Hv%elem_of_map_range)%list_elem_of_fmap. simpl in E. congruence.
Qed.
End Seats.

Section NewAuction.
Context (st : bid_store) (preferDeals : bool) (weights latency : gmap string Z).
Context (sb : gmap string (option PbsOrtbSeatBid)).

Abbreviation auction_of H := (@newAuction st preferDeals weights latency H sb).
Abbreviation entries_of H := (seat_entries (@map_range H _ sb)).

Lemma newAuction_spec `{H : MapRange} a :
  auction_of H = Some a →
  ∃ acc, acc_spec st preferDeals weights latency (entries_of H) acc ∧
         winningBids a = acc_bids acc ∧ allBidsByBidder a = acc_all acc ∧
         auc_seatWeights a = weights ∧ auc_seatLatency a = latency ∧
         roundedPrices a = ∅ ∧ cacheIds a = ∅ ∧ vastCacheIds a = ∅.
Proof.
  unfold newAuction. rewrite auction_seats_entries.
  destruct (auction_entries _ _ _ _ _ _) as [acc|] eqn:E; [|done]. intros [= <-].
  exists acc. split; [|done]. by apply auction_entries_spec.
Qed.

Lemma newAuction_total `{H : MapRange} : auction_ok st sb → is_Some (auction_of H).
Proof.
  intros [Hp _ _]. unfold newAuction. rewrite auction_seats_entries.
  destruct (auction_entries_total st preferDeals weights latency (entries_of H)) as [acc ->]; simpl; [|eauto].
  intros [b l] Hl%elem_of_range_entries. eauto.
Qed.

(** The order on entries is a strict weak order on the entries of an auction. *)
Definition good_entry (e : string * loc) : Prop :=
  ∃ b, bid_of st e.2 = Some b ∧ is_nan (bid_Price b) = false ∧ e.2 ∈ seat_bids sb e.1.

Lemma beats_entry_good e f :
  good_entry e → good_entry f → ∃ x y, contender_of st e = Some x ∧ contender_of st f = Some y ∧
    priced x ∧ priced y ∧ beats_entry st preferDeals weights latency e f = beats preferDeals weights latency x y.
Proof.
  intros (b & Hb & Hn & _) (c & Hc & Hn' & _). exists (e.1, b), (f.1, c).
  unfold beats_entry, contender_of. rewrite Hb, Hc. done.
Qed.

#[export] Instance beats_entry_SWO : SWO good_entry (beats_entry st preferDeals weights latency).
Proof.
  split.
  - intros e f He Hf. destruct (beats_entry_good e f) as (x & y & Hx & Hy & Px & Py & ->); [done..|].
    unfold beats_entry. rewrite Hx, Hy. by apply (swo_asym (P:=priced)).
  - intros e f g (b & Hb & Pb & _) (c & Hc & Pc & _) (d & Hd & Pd & _).
    unfold beats_entry, contender_of. rewrite Hb, Hc, Hd. simpl.
    by apply (swo_cotrans (P:=priced) (less:=beats preferDeals weights latency)
                (e.1, b) (f.1, c) (g.1, d)).
Qed.

Lemma imp_entries_good `{H : MapRange} imp :
  auction_ok st sb → Forall good_entry (imp_entries st imp (entries_of H)).
Proof.
  intros [Hp Hn _]. apply Forall_forall. intros [b l] [_ Hl]%imp_entries_elem.
  apply elem_of_range_entries in Hl. destruct (Hp _ _ Hl) as [x Hx]. exists x. eauto.
Qed.

(** The winner of an impression is an entry no other entry beats. *)
Lemma best_entry_max `{H : MapRange} imp w :
  auction_ok st sb →
  best_entry st preferDeals weights latency (imp_entries st imp (entries_of H)) = Some w →
  w ∈ imp_entries st imp (entries_of H) ∧
  ∀ e, e ∈ imp_entries st imp (entries_of H) → beats_entry st preferDeals weights latency e w = false.
Proof.
  intros Hok Hw. pose proof (imp_entries_good imp Hok) as Hg. split; [by eapply best_entry_elem|].
  destruct (imp_entries st imp (entries_of H)) as [|e rest]; [done|]. simpl in Hw. injection Hw as <-.
  apply Forall_cons in Hg as [He Hr].
  by destruct (running_best_spec good_entry (beats_entry st preferDeals weights latency) e rest He Hr)
    as (_ & _ & Hmax).
Qed.

Lemma no_ties `{H : MapRange} imp e f :
  auction_ok st sb → e ∈ imp_entries st imp (entries_of H) → f ∈ imp_entries st imp (entries_of H) →
  beats_entry st preferDeals weights latency e f = false →
  beats_entry st preferDeals weights latency f e = false → e = f.
Proof.
  intros Hok He Hf H1 H2. pose proof (imp_entries_good imp Hok) as Hg. rewrite Forall_forall in Hg.
  destruct (Hg _ He) as (b & Hb & Pb & Hlb), (Hg _ Hf) as (c & Hc & Pc & Hlc).
  apply imp_entries_elem in He as [Hi _], Hf as [Hi' _].
  unfold entry_imp in Hi, Hi'. unfold beats_entry, contender_of in H1, H2.
  rewrite Hb in *. rewrite Hc in *. simpl in *. simplify_eq.
  pose proof (beats_total _ _ _ (e.1, b) (f.1, c) Pb Pc H1 H2) as Hk. simpl in Hk.
  destruct (ok_keys _ _ Hok _ _ _ _ _ _ Hlb Hlc Hb Hc) as [? ?]; [congruence|done|].
  destruct e, f; simpl in *; congruence.
Qed.
End NewAuction.

(** ** Properties of the auction *)

(** C1: the auction never panics on bids that are present, and picks for every impression that
    received a bid a winner of that impression which no bid for it beats under the four-level
    rule (deal preference, price, seat weight, latency, stable key); an impression without a bid
    has no winner. *)
Theorem newAuction_picks_maximal_winner `{MapRange} st preferDeals weights latency sb :
  auction_ok st sb →
  ∃ a, newAuction st preferDeals weights latency sb = Some a ∧
  ∀ imp,
    match winningBids a !! imp with
    | Some w =>
        ∃ bidder b, w ∈ seat_bids sb bidder ∧ bid_of st w = Some b ∧ bid_ImpID b = imp ∧
          ∀ bidder' l b', l ∈ seat_bids sb bidder' → bid_of st l = Some b' → bid_ImpID b' = imp →
            bidBeats b' bidder' b bidder preferDeals weights latency = false
    | None => ∀ bidder l b, l ∈ seat_bids sb bidder → bid_of st l = Some b → bid_ImpID b ≠ imp
    end.
Proof.
  intros Hok. destruct (newAuction_total st preferDeals weights latency sb Hok) as [a Ha].
  exists a. split; [done|]. intros imp.
  destruct (newAuction_spec _ _ _ _ _ _ Ha) as (acc & [Hb _ _ _] & -> & _). rewrite Hb.
  destruct (best_entry _ _ _ _ _) as [w|] eqn:Ew; simpl.
  - destruct (best_entry_max _ _ _ _ _ _ _ Hok Ew) as [Hw Hmax].
    apply imp_entries_elem in Hw as [Hi Hin]. destruct w as [bidder l]; simpl in *.
    apply elem_of_range_entries in Hin. unfold entry_imp in Hi. simpl in Hi.
    destruct (bid_of st l) as [b|] eqn:Eb; [|done]. simplify_eq/=. exists bidder, b.
    split_and!; [done..|]. intros bidder' l' b' Hl' Hb' Hi'.
    specialize (Hmax (bidder', l')). unfold beats_entry, contender_of in Hmax. simpl in Hmax.
    rewrite Hb', Eb in Hmax. apply Hmax, imp_entries_elem. unfold entry_imp. simpl. rewrite Hb'. simpl.
    split; [congruence|]. by apply elem_of_range_entries.
  - intros bidder l b Hl Hbl Hi.
    assert ((bidder, l) ∈ imp_entries st imp (seat_entries (map_range sb))) as Hin.
    { apply imp_entries_elem. unfold entry_imp. simpl. rewrite Hbl. simpl.
      split; [congruence|]. by apply elem_of_range_entries. }
    apply best_entry_None in Ew. rewrite Ew in Hin. by apply elem_of_nil in Hin.
Qed.

(** Two bids for one impression at the same price, told apart by the stable key. *)
Definition sample_bid (id : string) (price : float64) : Bid :=
  {| bid_ID := id; bid_ImpID := "imp1"; bid_Price := price; bid_AdM := ""; bid_NURL := "u"; bid_DealID := "";
     bid_W := 300; bid_H := 250; bid_Exp := 0; bid_MType := 1; bid_ExtType := None;
     bid_CrID := "cr"; bid_ADomain := []; bid_Cat := []; bid_CatTax := 0; bid_Dur := 0; bid_Ext := "" |}.
Definition sample_pbs (b : Bid) : PbsOrtbBid :=
  plain_bid (Some b) "banner".
Definition sample_store : bid_store :=
  {[0%nat := sample_pbs (sample_bid "x" f1); 1%nat := sample_pbs (sample_bid "y" f1)]}.
Definition sample_seats : gmap string (option PbsOrtbSeatBid) :=
  {["appnexus" := Some (plain_seat [0%nat] "USD" "appnexus");
    "rubicon" := Some (plain_seat [1%nat] "USD" "rubicon")]}.

Lemma sample_seat_bids b l :
  l ∈ seat_bids sample_seats b → (b = "appnexus" ∧ l = 0%nat) ∨ (b = "rubicon" ∧ l = 1%nat).
Proof.
  unfold seat_bids, sample_seats. destruct (decide (b = "appnexus")) as [->|H1].
  - rewrite lookup_insert_eq. simpl. set_solver.
  - rewrite lookup_insert_ne by done. destruct (decide (b = "rubicon")) as [->|H2].
    + rewrite lookup_singleton_eq. simpl. set_solver.
    + rewrite lookup_singleton_ne by done. set_solver.
Qed.

Lemma sample_auction_ok : auction_ok sample_store sample_seats.
Proof.
  split.
  - intros b l [[-> ->]|[-> ->]]%sample_seat_bids; vm_compute; eauto.
  - intros b l x [[-> ->]|[-> ->]]%sample_seat_bids [= <-]; vm_compute; reflexivity.
  - intros b1 l1 x1 b2 l2 x2 [[-> ->]|[-> ->]]%sample_seat_bids [[-> ->]|[-> ->]]%sample_seat_bids
      [= <-] [= <-]; vm_compute; try done.
Qed.

Lemma newAuction_picks_maximal_winner_witness :
  let H := canonical_range in
  ∃ a, newAuction sample_store false ∅ ∅ sample_seats = Some a ∧
  ∀ imp,
    match winningBids a !! imp with
    | Some w =>
        ∃ bidder b, w ∈ seat_bids sample_seats bidder ∧ bid_of sample_store w = Some b ∧ bid_ImpID b = imp ∧
          ∀ bidder' l b', l ∈ seat_bids sample_seats bidder' → bid_of sample_store l = Some b' →
            bid_ImpID b' = imp → bidBeats b' bidder' b bidder false ∅ ∅ = false
    | None => ∀ bidder l b, l ∈ seat_bids sample_seats bidder → bid_of sample_store l = Some b → bid_ImpID b ≠ imp
    end.
Proof.
  intros H. apply (@newAuction_picks_maximal_winner H sample_store false ∅ ∅ sample_seats).
  exact sample_auction_ok.
Defined.

(** C7: the outcome of an auction does not depend on the order in which the runtime ranges over
    the seats: any two orders give the same winners and the same index of bids. *)
Theorem newAuction_order_independent (H1 H2 : MapRange) st preferDeals weights latency sb :
  auction_ok st sb →
  @newAuction st preferDeals weights latency H1 sb = @newAuction st preferDeals weights latency H2 sb.
Proof.
  intros Hok.
  destruct (@newAuction_total st preferDeals weights latency sb H1 Hok) as [a1 E1].
  destruct (@newAuction_total st preferDeals weights latency sb H2 Hok) as [a2 E2]. rewrite E1, E2. f_equal.
  destruct (@newAuction_spec _ _ _ _ _ H1 _ E1) as (c1 & [Hb1 _ Hd1 Ha1] & Hw1 & Hi1 & ? & ? & ? & ? & ?).
  destruct (@newAuction_spec _ _ _ _ _ H2 _ E2) as (c2 & [Hb2 _ Hd2 Ha2] & Hw2 & Hi2 & ? & ? & ? & ? & ?).
  assert (∀ imp e, e ∈ imp_entries st imp (seat_entries (@map_range H1 _ sb)) ↔
                   e ∈ imp_entries st imp (seat_entries (@map_range H2 _ sb))) as Hsame.
  { intros imp [b l]. by rewrite !imp_entries_elem, !elem_of_range_entries. }
  assert (winningBids a1 = winningBids a2) as Hw.
  { rewrite Hw1, Hw2. apply map_eq. intros imp. rewrite Hb1, Hb2. f_equal.
    destruct (best_entry _ _ _ _ (imp_entries _ _ (seat_entries (@map_range H1 _ _)))) as [w1|] eqn:F1,
      (best_entry _ _ _ _ (imp_entries _ _ (seat_entries (@map_range H2 _ _)))) as [w2|] eqn:F2; try done.
    - apply (@best_entry_max _ _ _ _ _ H1) in F1 as [In1 M1]; [|done].
      apply (@best_entry_max _ _ _ _ _ H2) in F2 as [In2 M2]; [|done]. f_equal.
      apply (@no_ties st preferDeals weights latency sb H1 imp); [done|done|by apply Hsame| |].
      + by apply M2, Hsame.
      + by apply M1, Hsame.
    - apply best_entry_elem, Hsame in F1. apply best_entry_None in F2. rewrite F2 in F1. by apply elem_of_nil in F1.
    - apply best_entry_elem, Hsame in F2. apply best_entry_None in F1. rewrite F1 in F2. by apply elem_of_nil in F2. }
  assert (allBidsByBidder a1 = allBidsByBidder a2) as Hall.
  { rewrite Hi1, Hi2. apply map_eq. intros imp.
    assert (imp_entries st imp (seat_entries (@map_range H1 _ sb)) = [] ↔
            imp_entries st imp (seat_entries (@map_range H2 _ sb)) = []) as Hnil.
    { split; intros Hn; apply elem_of_nil_inv; intros e He;
        apply Hsame in He; rewrite Hn in He; by apply elem_of_nil in He. }
    destruct (acc_all c1 !! imp) as [m1|] eqn:M1, (acc_all c2 !! imp) as [m2|] eqn:M2; try done.
    - f_equal. apply map_eq. intros bidder. rewrite (Ha1 _ _ _ M1), (Ha2 _ _ _ M2).
      unfold index_of. by rewrite !bidder_bids_seat.
    - apply Hd2, Hnil, Hd1 in M2. congruence.
    - apply Hd1, Hnil, Hd2 in M1. congruence. }
  destruct a1, a2; simpl in *; congruence.
Qed.

Lemma newAuction_order_independent_witness :
  @newAuction sample_store false ∅ ∅ canonical_range sample_seats =
  @newAuction sample_store false ∅ ∅ reversed_range sample_seats.
Proof.
  apply (newAuction_order_independent canonical_range reversed_range sample_store false ∅ ∅ sample_seats).
  exact sample_auction_ok.
Defined.

(** The index of bids is complete and exact: for every impression and bidder it holds the
    bids of that bidder's seat for that impression, in the seat's order, and nothing else. *)
Theorem allBidsByBidder_exact `{MapRange} st preferDeals weights latency sb a imp bidder :
  newAuction st preferDeals weights latency sb = Some a →
  allBidsByBidder a !! imp ≫= (.!! bidder) =
  match filter (λ l, bid_ImpID <$> bid_of st l = Some imp) (seat_bids sb bidder) with
  | [] => None
  | l => Some l
  end.
Proof.
  intros Ha. destruct (newAuction_spec _ _ _ _ _ _ Ha) as (acc & [_ _ Hd Hs] & _ & -> & _).
  rewrite <-(bidder_bids_seat st sb). destruct (acc_all acc !! imp) as [m|] eqn:E; simpl.
  - by rewrite (Hs _ _ _ E).
  - apply Hd in E. by rewrite E.
Qed.

Lemma allBidsByBidder_exact_witness :
  let H := canonical_range in
  ∃ a, newAuction sample_store false ∅ ∅ sample_seats = Some a ∧
  allBidsByBidder a !! "imp1" ≫= (.!! "rubicon") =
  match filter (λ l, bid_ImpID <$> bid_of sample_store l = Some "imp1") (seat_bids sample_seats "rubicon") with
  | [] => None
  | l => Some l
  end.
Proof.
  intros H. eexists. split; [vm_compute; reflexivity|].
  apply (@allBidsByBidder_exact H sample_store false ∅ ∅ sample_seats). vm_compute. reflexivity.
Defined.
