(* ===== verification/MultiBid.v ===== *)
(** * The limit on bids per bidder: [auction.validateAndUpdateMultiBid] of src/exchange/auction.go

    Every bidder's bids for an impression are sorted (with [sort.Slice]) and cut to the account's
    limit; the bids cut off are cleared through their pointers and then dropped from the seats. *)
From S2P Require Import Prelude GoFloat Order Bids Auction.

Section MultiBid.
Context `{MapRange} `{GoSort} (preferDeals : bool) (accountDefaultBidLimit : Z).

Definition multibid_less (st : bid_store) (i j : loc) : bool :=
  match bid_of st i, bid_of st j with
  | Some bi, Some bj => isNewWinningBid bi bj preferDeals
  | _, _ => false
  end.

(** [topBids[i].Bid = nil] for every bid of the list. *)
Definition clear_bids (snipped : list loc) (st : bid_store) : bid_store :=
  foldl (λ st l, alter (set_Bid None) l st) st snipped.

(** One bidder's bids for one impression.  Comparing reads both bids, so sorting two or more bids
    needs all of them present; a negative limit would index out of range.  [None] is a panic. *)
Definition trim_bids (st : bid_store) (topBids : list loc) : option (bid_store * list loc * bool) :=
  if (1 <? Z.of_nat (length topBids)) && negb (forallb (λ l, bool_decide (is_Some (bid_of st l))) topBids)
  then None
  else
    let sorted := sort_Slice (multibid_less st) topBids in
    if negb (accountDefaultBidLimit =? 0) && (accountDefaultBidLimit <? Z.of_nat (length sorted)) then
      if accountDefaultBidLimit <? 0 then None
      else
        let n := Z.to_nat accountDefaultBidLimit in
        Some (clear_bids (drop n sorted) st, take n sorted, true)
    else Some (st, sorted, false).

Fixpoint trim_bidders (st : bid_store) (entries : list (string * list loc))
  : option (bid_store * list (string * list loc) * bool) :=
  match entries with
  | [] => Some (st, [], false)
  | (bidder, topBids) :: rest =>
      '(st, kept, snipped) ← trim_bids st topBids;
      '(st, rest', snipped') ← trim_bidders st rest;
      Some (st, (bidder, kept) :: rest', snipped || snipped')
  end.

Fixpoint trim_imps (st : bid_store) (entries : list (string * gmap string (list loc)))
  : option (bid_store * list (string * gmap string (list loc)) * bool) :=
  match entries with
  | [] => Some (st, [], false)
  | (imp, m) :: rest =>
      '(st, kept, snipped) ← trim_bidders st (map_range m);
      '(st, rest', snipped') ← trim_imps st rest;
      Some (st, (imp, list_to_map kept) :: rest', snipped || snipped')
  end.

(** The seats without the cleared bids. *)
Definition drop_cleared (st : bid_store) (os : option PbsOrtbSeatBid) : option PbsOrtbSeatBid :=
  match os with
  | None => None
  | Some s => Some (set_seat_Bids (filter (λ l, is_Some (bid_of st l)) (seat_Bids s)) s)
  end.

Definition validateAndUpdateMultiBid (a : auction) (st : bid_store)
    (adapterBids : gmap string (option PbsOrtbSeatBid))
  : option (auction * bid_store * gmap string (option PbsOrtbSeatBid)) :=
  '(st', imps, bidsSnipped) ← trim_imps st (map_range (allBidsByBidder a));
  let a' := {| winningBids := winningBids a; allBidsByBidder := list_to_map imps;
               roundedPrices := roundedPrices a; cacheIds := cacheIds a; vastCacheIds := vastCacheIds a;
               auc_seatWeights := auc_seatWeights a; auc_seatLatency := auc_seatLatency a |} in
  Some (a', st', if bidsSnipped : bool then drop_cleared st' <$> adapterBids else adapterBids).

(** ** Lemmas *)
Definition priced_loc (st : bid_store) (l : loc) : Prop :=
  ∃ b, bid_of st l = Some b ∧ is_nan (bid_Price b) = false.

#[export] Instance multibid_less_SWO st : SWO (priced_loc st) (multibid_less st).
Proof.
  assert (∀ x y, isNewWinningBid x y preferDeals =
    lex (λ a b, preferDeals && (bid_DealID a ≠s? "") && (bid_DealID b =s? ""))
        (λ a b, bid_Price b <f? bid_Price a) x y) as Heq.
  { intros x y. unfold isNewWinningBid, lex. destruct preferDeals; [|done]. simpl.
    by destruct (bid_DealID x =s? ""), (bid_DealID y =s? ""). }
  assert (SWO (λ b, is_nan (bid_Price b) = false) (λ x y, isNewWinningBid x y preferDeals)) as HS.
  { assert (SWO (λ b, is_nan (bid_Price b) = false)
      (λ a b, preferDeals && (bid_DealID a ≠s? "") && (bid_DealID b =s? ""))) as H1.
    { split; intros; repeat match goal with |- context [?a =s? ?b] => destruct (a =s? b)
                         | H : context [?a =s? ?b] |- _ => destruct (a =s? b) end;
        destruct preferDeals; naive_solver. }
    pose proof (SWO_pull bid_Price (λ x, is_nan x = false) (λ x y, fltb y x) (SWO0 := SWO_flip _ _)) as H2.
    pose proof (lex_SWO _ _ _ (SWO0 := H1) (SWO1 := H2)) as [Ha Hc].
    split; intros *; rewrite !Heq; [apply Ha|apply Hc]. }
  split.
  - intros x y (b & Hb & Pb) (c & Hc & Pc). unfold multibid_less. rewrite Hb, Hc.
    by apply (swo_asym (SWO := HS)).
  - intros x y z (b & Hb & Pb) (c & Hc & Pc) (d & Hd & Pd). unfold multibid_less. rewrite Hb, Hc, Hd.
    by apply (swo_cotrans (SWO := HS)).
Qed.

Lemma clear_bids_lookup snipped st l :
  bid_of (clear_bids snipped st) l = if decide (l ∈ snipped) then None else bid_of st l.
Proof.
  unfold clear_bids. revert st. induction snipped as [|x snipped IH]; intros st; cbn [foldl].
  - by rewrite decide_False by set_solver.
  - rewrite IH. destruct (decide (l ∈ snipped)) as [Hin|Hout].
    + by rewrite decide_True by set_solver.
    + unfold bid_of. rewrite lookup_alter. destruct (decide (x = l)) as [->|Hne].
      * rewrite (decide_True (P := l ∈ l :: snipped)) by set_solver. by destruct (st !! l).
      * by rewrite (decide_False (P := l ∈ x :: snipped)) by set_solver.
Qed.

Lemma sorted_by_app {A} (less : A → A → bool) l k x y :
  sorted_by less (l ++ k) → x ∈ l → y ∈ k → less y x = false.
Proof.
  induction l as [|z l IH]; intros Hs Hx Hy; [by apply elem_of_nil in Hx|].
  apply StronglySorted_inv in Hs as [Hs Hall].
  apply elem_of_cons in Hx as [->|Hx]; [|by apply IH].
  rewrite Forall_app, !Forall_forall in Hall. by apply Hall.
Qed.

Lemma sorted_by_prefix {A} (less : A → A → bool) l k : sorted_by less (l ++ k) → sorted_by less l.
Proof.
  induction l as [|z l IH]; intros Hs; [constructor|].
  apply StronglySorted_inv in Hs as [Hs Hall]. constructor; [by apply IH|].
  by apply Forall_app in Hall as [? _].
Qed.

(** Cutting one bidder's bids for an impression to the account's limit keeps at most that many
    bids, loses none of them silently (kept and cleared bids together are the original ones, the
    cleared ones become nil, the kept ones are untouched), keeps the best: no cleared bid is
    preferred over a kept one, and reports whether anything was cut. *)
Theorem trim_bids_keeps_best st topBids :
  0 ≤ accountDefaultBidLimit → NoDup topBids → Forall (priced_loc st) topBids →
  ∃ st' kept cut,
    trim_bids st topBids = Some (st', kept, bool_decide (cut ≠ [])) ∧
    kept ++ cut ≡ₚ topBids ∧
    (accountDefaultBidLimit ≠ 0 → Z.of_nat (length kept) ≤ accountDefaultBidLimit) ∧
    (accountDefaultBidLimit = 0 → cut = []) ∧
    (∀ l, l ∈ kept → bid_of st' l = bid_of st l) ∧ (∀ l, l ∈ cut → bid_of st' l = None) ∧
    (∀ l k, l ∈ kept → k ∈ cut → multibid_less st k l = false) ∧
    sorted_by (multibid_less st) kept.
Proof.
  intros Hlim Hnd Hp. unfold trim_bids.
  assert (forallb (λ l, bool_decide (is_Some (bid_of st l))) topBids = true) as ->.
  { apply forallb_forall. intros l Hl%list_elem_of_In. rewrite Forall_forall in Hp.
    destruct (Hp _ Hl) as (b & Hb & _). rewrite Hb. by apply bool_decide_eq_true_2. }
  rewrite andb_false_r. pose proof (sort_Slice_perm (multibid_less st) topBids) as Hperm.
  pose proof (sort_Slice_sorted (priced_loc st) (multibid_less st) topBids _ Hp) as Hs.
  set (sorted := sort_Slice (multibid_less st) topBids) in *. rewrite <-Hperm in Hnd.
  destruct (negb _ && _) eqn:E.
  - go_bool. rewrite (proj2 (Z.ltb_ge _ _)) by lia.
    set (n := Z.to_nat accountDefaultBidLimit).
    assert (take n sorted ++ drop n sorted = sorted) as Hsplit by apply take_drop.
    exists (clear_bids (drop n sorted) st), (take n sorted), (drop n sorted).
    rewrite <-Hsplit in Hs, Hnd. apply NoDup_app in Hnd as (_ & Hdis & _).
    split_and!.
    + rewrite bool_decide_eq_true_2; [done|]. intros Hnil. apply (f_equal length) in Hnil.
      rewrite length_drop in Hnil. simpl in Hnil. lia.
    + by rewrite Hsplit.
    + intros _. rewrite length_take. lia.
    + lia.
    + intros l Hl. rewrite clear_bids_lookup, decide_False; [done|]. by apply Hdis.
    + intros l Hl. by rewrite clear_bids_lookup, decide_True.
    + intros l k Hl Hk. by eapply sorted_by_app.
    + by eapply sorted_by_prefix.
  - exists st, sorted, []. rewrite bool_decide_eq_false_2 by auto. rewrite app_nil_r.
    split_and!; try done; [|set_solver..]. intros Hne. apply andb_false_iff in E. go_bool.
    destruct E; go_bool; lia.
Qed.
End MultiBid.

(** Three one-dollar bids of one bidder, the limit being two. *)
Definition tie_store : bid_store :=
  {[0%nat := sample_pbs (sample_bid "c" f1); 1%nat := sample_pbs (sample_bid "b" f1);
    2%nat := sample_pbs (sample_bid "a" f1)]}.
Definition tie_seats : gmap string (option PbsOrtbSeatBid) :=
  {["appnexus" := Some (plain_seat [0; 1; 2]%nat "USD" "appnexus")]}.

Lemma trim_bids_keeps_best_witness :
  let H := stable_go_sort in
  ∃ st' kept cut,
    trim_bids false 2 tie_store [0; 1; 2]%nat = Some (st', kept, bool_decide (cut ≠ [])) ∧
    kept ++ cut ≡ₚ [0; 1; 2]%nat ∧
    (2 ≠ 0 → Z.of_nat (length kept) ≤ 2) ∧ (2 = 0 → cut = []) ∧
    (∀ l, l ∈ kept → bid_of st' l = bid_of tie_store l) ∧ (∀ l, l ∈ cut → bid_of st' l = None) ∧
    (∀ l k, l ∈ kept → k ∈ cut → multibid_less false tie_store k l = false) ∧
    sorted_by (multibid_less false tie_store) kept.
Proof.
  intros H. apply (@trim_bids_keeps_best H false 2 tie_store [0; 1; 2]%nat); [lia| |].
  - repeat constructor; set_solver.
  - repeat constructor; eexists; (split; [vm_compute; reflexivity|vm_compute; reflexivity]).
Defined.

(** The auction's winner can be one of the bids cut off: with equal prices the winner is the
    bid with the smallest stable key, while the cut only compares prices, so the recorded winner
    of the impression may end up cleared although the bidder keeps other bids at that price. *)
Theorem multibid_may_clear_the_winner :
  let H := canonical_range in let S := stable_go_sort in
  ∃ a a' st' seats w,
    auction_ok tie_store tie_seats ∧
    newAuction tie_store false ∅ ∅ tie_seats = Some a ∧
    validateAndUpdateMultiBid false 2 a tie_store tie_seats = Some (a', st', seats) ∧
    winningBids a' !! "imp1" = Some w ∧ bid_of st' w = None ∧
    seat_bids seats "appnexus" = [0; 1]%nat.
Proof.
  intros H S. do 5 eexists. split_and!; try (vm_compute; reflexivity).
  assert (∀ b l, l ∈ seat_bids tie_seats b → b = "appnexus" ∧ l ∈ [0; 1; 2]%nat) as Hs.
  { intros b l. unfold seat_bids, tie_seats. destruct (decide (b = "appnexus")) as [->|?].
    - rewrite lookup_singleton_eq. done.
    - rewrite lookup_singleton_ne by done. by intros ?%elem_of_nil. }
  split.
  - intros b l [-> Hl]%Hs. set_unfold in Hl. destruct_or! Hl; subst; vm_compute; eauto.
  - intros b l x [-> Hl]%Hs. set_unfold in Hl. destruct_or! Hl; subst; intros [= <-]; vm_compute; done.
  - intros b1 l1 x1 b2 l2 x2 [-> H1]%Hs [-> H2]%Hs. set_unfold in H1. set_unfold in H2.
    destruct_or! H1; destruct_or! H2; subst; intros [= <-] [= <-]; vm_compute; done.
Qed.
