(* ===== verification/PriceGranularity.v ===== *)
(** * Price buckets: src/exchange/price_granularity.go

    The granularity a request asks for ([openrtb_ext/request.go]), its defaults
    ([ortb/default.go]) and validation ([endpoints/openrtb2/auction.go]), and the bucket a bid's
    price is rounded into. *)
From S2P Require Import Prelude GoFloat Order Bids.

(** ** Data *)
Record GranularityRange := { gr_Min : float64; gr_Max : float64; gr_Increment : float64 }.
Record PriceGranularity := { pg_Precision : option Z; pg_Ranges : list GranularityRange }.
Record MediaTypePriceGranularity := {
  mtpg_Banner : option PriceGranularity;
  mtpg_Video : option PriceGranularity;
  mtpg_Native : option PriceGranularity
}.

Definition mk_range (lo hi inc : float64) : GranularityRange :=
  {| gr_Min := lo; gr_Max := hi; gr_Increment := inc |}.

Definition NewPriceGranularityFromLegacyID (v : string) : option PriceGranularity :=
  let pg ranges := Some {| pg_Precision := Some 2; pg_Ranges := ranges |} in
  if v =s? "low" then pg [mk_range f0 (fofZ 5) (flit 5 10)]
  else if (v =s? "med") || (v =s? "medium") then pg [mk_range f0 (fofZ 20) (flit 1 10)]
  else if v =s? "high" then pg [mk_range f0 (fofZ 20) (flit 1 100)]
  else if v =s? "auto" then
    pg [mk_range f0 (fofZ 5) (flit 5 100); mk_range (fofZ 5) (fofZ 10) (flit 1 10);
        mk_range (fofZ 10) (fofZ 20) (flit 5 10)]
  else if v =s? "dense" then
    pg [mk_range f0 (fofZ 3) (flit 1 100); mk_range (fofZ 3) (fofZ 8) (flit 5 100);
        mk_range (fofZ 8) (fofZ 20) (flit 5 10)]
  else None.

Definition NewPriceGranularityDefault : PriceGranularity :=
  default {| pg_Precision := None; pg_Ranges := [] |} (NewPriceGranularityFromLegacyID "medium").

(** ** ortb/default.go *)
(** The loop sets each range's minimum to the maximum before it, and reports a change. *)
Fixpoint setDefaultsPriceGranularityRange_loop (prevMax : float64) (ranges : list GranularityRange)
  : list GranularityRange * bool :=
  match ranges with
  | [] => ([], false)
  | r :: rest =>
      let '(rest', modified) := setDefaultsPriceGranularityRange_loop (gr_Max r) rest in
      if negb (gr_Min r =f? prevMax)
      then ({| gr_Min := prevMax; gr_Max := gr_Max r; gr_Increment := gr_Increment r |} :: rest', true)
      else (r :: rest', modified)
  end.
Definition setDefaultsPriceGranularityRange (ranges : list GranularityRange) : list GranularityRange * bool :=
  setDefaultsPriceGranularityRange_loop f0 ranges.

Definition setDefaultsPriceGranularity (pg : option PriceGranularity) : PriceGranularity * bool :=
  match pg with
  | None => (NewPriceGranularityDefault, true)
  | Some pg =>
      match pg_Ranges pg with
      | [] => (NewPriceGranularityDefault, true)
      | ranges =>
          let '(precision, m1) := match pg_Precision pg with
                                  | None => (Some 2, true)
                                  | Some p => (Some p, false)
                                  end in
          let '(ranges', m2) := setDefaultsPriceGranularityRange ranges in
          ({| pg_Precision := precision; pg_Ranges := ranges' |}, m1 || m2)
      end
  end.

(** ** endpoints/openrtb2/auction.go *)
Definition MaxDecimalFigures : Z := 15.

Inductive granularity_error :=
| PrecisionRequired
| PrecisionNegative
| PrecisionTooLarge
| RangesNotIncreasing
| IncrementNotPositive.

Fixpoint validate_ranges (prevMax : float64) (ranges : list GranularityRange) : option granularity_error :=
  match ranges with
  | [] => None
  | gr :: rest =>
      if gr_Max gr <=f? prevMax then Some RangesNotIncreasing
      else if gr_Increment gr <=f? f0 then Some IncrementNotPositive
      else validate_ranges (gr_Max gr) rest
  end.

(** [None] is a nil error. *)
Definition validatePriceGranularity (pg : PriceGranularity) : option granularity_error :=
  match pg_Precision pg with
  | None => Some PrecisionRequired
  | Some p =>
      if p <? 0 then Some PrecisionNegative
      else if MaxDecimalFigures <? p then Some PrecisionTooLarge
      else validate_ranges f0 (pg_Ranges pg)
  end.

(** ** exchange/price_granularity.go *)
(** config.BidRoundingMode; any other string behaves like "down". *)
Inductive BidRoundingMode := RoundingModeDown | RoundingModeTrue | RoundingModeTimeSplit | RoundingModeUp.

(** [strconv.FormatFloat(x, 'f', precision, 64)]; a negative precision asks for the shortest
    representation, given by [shortest]. *)
Definition FormatFloat (shortest : float64 → string) (x : float64) (precision : Z) : string :=
  if precision <? 0 then shortest x else FormatFloat_f x (Z.to_nat precision).

Section Bucket.
Context (shortest : float64 → string).

(** [coin] is [rand.Intn(2)]. *)
Definition getCpmTarget (cpm bucketMin increment : float64) (precision : Z)
    (rounding : BidRoundingMode) (coin : Z) : string :=
  let increments := fdiv (fsub cpm bucketMin) increment in
  let incrementsRounded :=
    match rounding with
    | RoundingModeTrue => fround increments
    | RoundingModeTimeSplit => if coin =? 1 then ffloor increments else fceil increments
    | RoundingModeUp => fceil increments
    | RoundingModeDown => ffloor increments
    end in
  let roundedCPM := fadd (fmul incrementsRounded increment) bucketMin in
  FormatFloat shortest roundedCPM precision.

(** The loop over the ranges: the largest maximum, and the increment and minimum of the last
    range that contains the price. *)
Record bucket_acc := { bucketMax : float64; bucketMin : float64; increment : float64 }.

Definition bucket_step (cpm : float64) (acc : bucket_acc) (r : GranularityRange) : bucket_acc :=
  let mx := if bucketMax acc <f? gr_Max r then gr_Max r else bucketMax acc in
  if (gr_Min r <=f? cpm) && (cpm <=f? gr_Max r)
  then {| bucketMax := mx; bucketMin := gr_Min r; increment := gr_Increment r |}
  else {| bucketMax := mx; bucketMin := bucketMin acc; increment := increment acc |}.

Definition bucket_scan (cpm : float64) (ranges : list GranularityRange) : bucket_acc :=
  foldl (bucket_step cpm) {| bucketMax := f0; bucketMin := f0; increment := f0 |} ranges.

(** The granularity in force for a bid: the request's, unless its media type has its own. *)
Definition bucket_config (bid : Bid) (pg : PriceGranularity) (mt : MediaTypePriceGranularity) : PriceGranularity :=
  match getMediaTypeForBid bid with
  | None => pg
  | Some bidType =>
      match (bidType =s? BidTypeBanner), mtpg_Banner mt with
      | true, Some c => c
      | _, _ =>
          match (bidType =s? BidTypeVideo), mtpg_Video mt with
          | true, Some c => c
          | _, _ =>
              match (bidType =s? BidTypeNative), mtpg_Native mt with
              | true, Some c => c
              | _, _ => pg
              end
          end
      end
  end.

(** [None] is the nil dereference of a missing precision. *)
Definition GetPriceBucket (bid : Bid) (pg : PriceGranularity) (mt : MediaTypePriceGranularity)
    (rounding : BidRoundingMode) (coin : Z) : option string :=
  let config := bucket_config bid pg mt in
  precision ← pg_Precision config;
  let cpm := bid_Price bid in
  let acc := bucket_scan cpm (pg_Ranges config) in
  Some (if bucketMax acc <f? cpm then FormatFloat shortest (bucketMax acc) precision
        else if f0 <f? increment acc
             then getCpmTarget cpm (bucketMin acc) (increment acc) precision rounding coin
             else "").
End Bucket.

(** ** Lemmas *)
(** Contiguous ranges with increasing maxima and positive increments, starting at [lo]. *)
Inductive contiguous : float64 → list GranularityRange → Prop :=
| contiguous_nil lo : contiguous lo []
| contiguous_cons lo r rest :
    feqb (gr_Min r) lo = true → flt lo (gr_Max r) → fltb f0 (gr_Increment r) = true →
    contiguous (gr_Max r) rest → contiguous lo (r :: rest).

Definition no_nan_ranges (ranges : list GranularityRange) : Prop :=
  Forall (λ r, is_nan (gr_Max r) = false ∧ is_nan (gr_Increment r) = false) ranges.

Lemma setDefaults_contiguous lo ranges :
  is_nan lo = false → no_nan_ranges ranges → validate_ranges lo ranges = None →
  contiguous lo (setDefaultsPriceGranularityRange_loop lo ranges).1.
Proof.
  revert lo. induction ranges as [|r rest IH]; intros lo Hlo Hn Hv; simpl; [constructor|].
  apply Forall_cons in Hn as [[Hm Hi] Hn]. simpl in Hv.
  destruct (gr_Max r <=f? lo) eqn:E1; [done|]. destruct (gr_Increment r <=f? f0) eqn:E2; [done|].
  specialize (IH (gr_Max r) Hm Hn Hv).
  destruct (setDefaultsPriceGranularityRange_loop (gr_Max r) rest) as [rest' m]. simpl in IH.
  assert (flt lo (gr_Max r)) by (apply fltb_spec; rewrite fltb_false_le by done; by rewrite E1).
  assert (fltb f0 (gr_Increment r) = true) by (rewrite fltb_false_le by done; by rewrite E2).
  destruct (gr_Min r =f? lo) eqn:E3; simpl; constructor; try done. simpl. by apply feqb_refl.
Qed.

Definition contains (cpm : float64) (r : GranularityRange) : bool :=
  (gr_Min r <=f? cpm) && (cpm <=f? gr_Max r).

(** The scan ended on the last range of the list that contains the price. *)
Definition hit (cpm : float64) (ranges : list GranularityRange) (acc : bucket_acc) : Prop :=
  ∃ pre r post, ranges = pre ++ r :: post ∧ contains cpm r = true ∧ Forall (λ r', contains cpm r' = false) post ∧
    bucketMin acc = gr_Min r ∧ increment acc = gr_Increment r.

Lemma scan_keeps_or_hits cpm acc ranges :
  let acc' := foldl (bucket_step cpm) acc ranges in
  hit cpm ranges acc' ∨
  (Forall (λ r', contains cpm r' = false) ranges ∧ bucketMin acc' = bucketMin acc ∧ increment acc' = increment acc).
Proof.
  simpl. revert acc. induction ranges as [|r rest IH]; intros acc; simpl; [by right|].
  destruct (IH (bucket_step cpm acc r)) as [(pre & r' & post & -> & ?)|(Hno & H1 & H2)];
    [left; by exists (r :: pre), r', post|].
  unfold bucket_step in H1, H2 |- *. destruct ((gr_Min r <=f? cpm) && (cpm <=f? gr_Max r)) eqn:E.
  - left. by exists [], r, rest.
  - right. split; [by constructor|done].
Qed.

(** The maximum of the scan: no range has a larger one. *)
Lemma scan_max cpm acc ranges :
  is_nan (bucketMax acc) = false →
  let m := bucketMax (foldl (bucket_step cpm) acc ranges) in
  (m = bucketMax acc ∨ ∃ r, r ∈ ranges ∧ gr_Max r = m) ∧ ¬ flt m (bucketMax acc) ∧ ∀ r, r ∈ ranges → ¬ flt m (gr_Max r).
Proof.
  revert acc. induction ranges as [|r rest IH]; intros acc Hn; simpl.
  { split_and!; [by left|apply flt_irrefl|]. intros r Hr. by apply elem_of_nil in Hr. }
  assert (bucketMax (bucket_step cpm acc r) = if bucketMax acc <f? gr_Max r then gr_Max r else bucketMax acc) as Hs
    by (unfold bucket_step; by destruct (_ && _)).
  specialize (IH (bucket_step cpm acc r)). simpl in IH. rewrite Hs in IH.
  set (m := bucketMax (foldl _ _ rest)) in *. destruct (bucketMax acc <f? gr_Max r) eqn:E.
  - pose proof (proj1 (fltb_spec _ _) E) as Hlt. destruct IH as (Hm & Hnot & Hall); [by destruct Hlt as (_ & ? & _)|].
    split_and!.
    + right. destruct Hm as [->|(r' & ? & ?)]; [exists r; set_solver|exists r'; set_solver].
    + intros Hf. apply Hnot. by eapply flt_trans.
    + intros r' [->|?]%elem_of_cons; auto.
  - destruct IH as (Hm & Hnot & Hall); [done|]. split_and!; [|done|].
    + destruct Hm as [->|(r' & ? & ?)]; [by left|right; exists r'; set_solver].
    + intros r' [->|?]%elem_of_cons; [|by apply Hall]. intros Hf. pose proof Hf as (_ & Hn' & _). apply Hnot.
      destruct (f_trichotomy (bucketMax acc) (gr_Max r) Hn Hn') as [Hb|[Hb|Hb]].
      * apply fltb_spec in Hb. congruence.
      * eapply flt_feq_r; [exact Hf|by apply feq_sym].
      * by eapply flt_trans.
Qed.

Lemma scan_total cpm acc ranges lo :
  is_nan lo = false → is_nan cpm = false → contiguous lo ranges → feq (bucketMax acc) lo → ¬ flt cpm lo →
  let acc' := foldl (bucket_step cpm) acc ranges in
  flt (bucketMax acc') cpm ∨ hit cpm ranges acc' ∨ (ranges = [] ∧ feq cpm lo).
Proof.
  intros Hlo Hcpm Hc. revert acc Hlo. induction Hc as [lo|lo r rest Hmin Hlt Hinc Hc IH];
    intros acc Hlo Ha Hge; simpl.
  - destruct (f_trichotomy cpm lo Hcpm Hlo) as [?|[?|?]]; [done|by auto|].
    left. by eapply flt_feq_l.
  - pose proof Hlt as (_ & Hm & _).
    assert (feq (bucketMax (bucket_step cpm acc r)) (gr_Max r)) as Hstep.
    { assert (flt (bucketMax acc) (gr_Max r)) as Hb%fltb_spec by (by eapply flt_feq_l).
      unfold bucket_step. rewrite Hb. destruct (_ && _); simpl; by apply feq_refl. }
    destruct (fltb (gr_Max r) cpm) eqn:Ecmp.
    + apply fltb_spec in Ecmp.
      destruct (IH (bucket_step cpm acc r) Hm Hstep (flt_asym _ _ Ecmp)) as [?|[Hh|[-> He]]]; [by left| |].
      * right; left. destruct Hh as (pre & r' & post & -> & ?). by exists (r :: pre), r', post.
      * exfalso. by apply (flt_irrefl cpm), (flt_feq_l _ _ _ He).
    + right; left.
      assert (contains cpm r = true) as Hin.
      { unfold contains. apply andb_true_iff. split.
        - assert (is_nan (gr_Min r) = false) by (by apply feqb_spec in Hmin as (? & _)).
          rewrite (fltb_false_le (gr_Max r) cpm) in Ecmp by done.
          assert (fltb cpm (gr_Min r) = false) as Hf.
          { destruct (fltb cpm (gr_Min r)) eqn:E; [|done]. apply fltb_spec in E. exfalso. apply Hge.
            eapply flt_feq_r; [done|]. by apply feqb_spec. }
          rewrite fltb_false_le in Hf by done. by apply negb_false_iff in Hf.
        - rewrite fltb_false_le in Ecmp by done. by apply negb_false_iff in Ecmp. }
      destruct (scan_keeps_or_hits cpm (bucket_step cpm acc r) rest) as [(pre & r' & post & -> & ?)|(Hno & H1 & H2)];
        [by exists (r :: pre), r', post|].
      exists [], r, rest. split_and!; [done|done|done|rewrite H1|rewrite H2];
        unfold bucket_step; unfold contains in Hin; by rewrite Hin.
Qed.

(** ** Rounding, on the exact value of a double *)
(** The numerator and denominator of a finite double. *)
Definition fraction (x : float64) : option (Z * Z) :=
  match x with
  | S754_zero _ => Some (0, 1)
  | S754_finite s m e =>
      if 0 <=? e then Some (cond_Zopp s (Zpos m) * 2 ^ e, 1) else Some (cond_Zopp s (Zpos m), 2 ^ (- e))
  | _ => None
  end.
(** The integer [k] that [num/den] is rounded to: the next one below or above, or the nearest one, halves
    away from zero. *)
Definition rounds_down (num den k : Z) : Prop := k * den ≤ num < (k + 1) * den.
Definition rounds_up (num den k : Z) : Prop := (k - 1) * den < num ≤ k * den.
Definition rounds_near (num den k : Z) : Prop :=
  2 * Z.abs (num - k * den) ≤ den ∧ (2 * Z.abs (num - k * den) = den → Z.abs num < Z.abs k * den).
Definition rounds_to (mode : BidRoundingMode) (coin num den k : Z) : Prop :=
  match mode with
  | RoundingModeDown => rounds_down num den k
  | RoundingModeUp => rounds_up num den k
  | RoundingModeTrue => rounds_near num den k
  | RoundingModeTimeSplit => if coin =? 1 then rounds_down num den k else rounds_up num den k
  end.
(** [n] is the double of that integer; an infinite quotient stays. *)
Definition rounded (mode : BidRoundingMode) (coin : Z) (q n : float64) : Prop :=
  match fraction q with
  | Some (num, den) => ∃ k, rounds_to mode coin num den k ∧ (fraction n = Some (k, 1) ∨ ∃ s, n = binary_normalize prec64 emax64 k 0 s)
  | None => n = q
  end.
Lemma fint_with_rounds (f : Z → Z → Z) (P : Z → Z → Z → Prop) q :
  (∀ n, P n 1 n) → (∀ n d, 0 < d → P n d (f n d)) →
  match fraction q with
  | Some (num, den) => ∃ k, P num den k ∧ (fraction (fint_with f q) = Some (k, 1) ∨ ∃ s, fint_with f q = binary_normalize prec64 emax64 k 0 s)
  | None => fint_with f q = q
  end.
Proof.
  intros H1 Hd. destruct q as [s|s| |s m e]; simpl; [|done|done|].
  - exists 0. split; [apply H1|by left].
  - destruct (0 <=? e) eqn:E; go_bool.
    + eexists. split; [apply H1|]. left. simpl. by rewrite (proj2 (Z.leb_le _ _)).
    + rewrite Z.shiftl_1_l. eexists. split; [apply Hd; apply Z.pow_pos_nonneg; lia|]. right. by exists s.
Qed.
Lemma floor_rounds n d : 0 < d → rounds_down n d (n / d).
Proof. intros Hd. unfold rounds_down. pose proof (Z.div_mod n d ltac:(lia)). pose proof (Z.mod_pos_bound n d Hd). nia. Qed.
Lemma ceil_rounds n d : 0 < d → rounds_up n d (- ((- n) / d)).
Proof. intros Hd. unfold rounds_up. pose proof (Z.div_mod (- n) d ltac:(lia)). pose proof (Z.mod_pos_bound (- n) d Hd). nia. Qed.
Lemma half_rounds n d : 0 ≤ n → 0 < d → rounds_near n d ((2 * n + d) / (2 * d)) ∧ 0 ≤ (2 * n + d) / (2 * d).
Proof.
  intros Hn Hd. unfold rounds_near. pose proof (Z.div_mod (2 * n + d) (2 * d) ltac:(lia)) as E.
  pose proof (Z.mod_pos_bound (2 * n + d) (2 * d) ltac:(lia)). pose proof (Z.div_pos (2 * n + d) (2 * d) ltac:(lia) ltac:(lia)).
  set (k := (2 * n + d) / (2 * d)) in *. set (r := (2 * n + d) mod (2 * d)) in *. assert (2 * (n - k * d) = r - d) as Er by nia.
  split; [|done]. split; [lia|]. intros Ht. rewrite (Z.abs_eq n), (Z.abs_eq k) by lia. lia.
Qed.
Lemma round_rounds n d : 0 < d → rounds_near n d (if n <? 0 then - ((2 * - n + d) / (2 * d)) else (2 * n + d) / (2 * d)).
Proof.
  intros Hd. destruct (n <? 0) eqn:E; go_bool; [|by apply half_rounds].
  destruct (half_rounds (- n) d ltac:(lia) Hd) as [[H1 H2] _]. set (k := (2 * - n + d) / (2 * d)) in *. unfold rounds_near.
  replace (n - - k * d) with (- (- n - k * d)) by ring. rewrite Z.abs_opp. rewrite Z.abs_opp in H2. by rewrite Z.abs_opp.
Qed.
Lemma whole_rounds n : rounds_down n 1 n ∧ rounds_up n 1 n ∧ rounds_near n 1 n.
Proof. unfold rounds_down, rounds_up, rounds_near. rewrite Z.mul_1_r, Z.sub_diag. simpl. lia. Qed.

Lemma contiguous_increments lo ranges r : contiguous lo ranges → r ∈ ranges → fltb f0 (gr_Increment r) = true.
Proof. intros Hc. induction Hc; set_solver. Qed.

Lemma validate_ranges_defaults lo lo' ranges :
  validate_ranges lo (setDefaultsPriceGranularityRange_loop lo' ranges).1 = validate_ranges lo ranges.
Proof.
  revert lo lo'. induction ranges as [|r rest IH]; intros lo lo'; [done|]. simpl.
  specialize (IH (gr_Max r) (gr_Max r)).
  destruct (setDefaultsPriceGranularityRange_loop (gr_Max r) rest) as [rest' m]. simpl in IH.
  destruct (gr_Min r =f? lo'); simpl; rewrite IH; done.
Qed.

Lemma no_nan_defaults lo ranges :
  no_nan_ranges (setDefaultsPriceGranularityRange_loop lo ranges).1 → no_nan_ranges ranges.
Proof.
  revert lo. induction ranges as [|r rest IH]; intros lo; [done|]. simpl.
  specialize (IH (gr_Max r)).
  destruct (setDefaultsPriceGranularityRange_loop (gr_Max r) rest) as [rest' m]. simpl in IH.
  destruct (gr_Min r =f? lo); simpl; intros Hn; apply Forall_cons in Hn as [? ?];
    (apply Forall_cons; split; [done|by apply IH]).
Qed.

(** A granularity with its defaults that validates is contiguous from zero and not empty. *)
Lemma defaults_contiguous opg :
  let pg := (setDefaultsPriceGranularity opg).1 in
  validatePriceGranularity pg = None → no_nan_ranges (pg_Ranges pg) →
  contiguous f0 (pg_Ranges pg) ∧ pg_Ranges pg ≠ [] ∧ ∃ p, pg_Precision pg = Some p ∧ 0 ≤ p ≤ MaxDecimalFigures.
Proof.
  assert (contiguous f0 (pg_Ranges NewPriceGranularityDefault) ∧ pg_Ranges NewPriceGranularityDefault ≠ [] ∧
    ∃ p, pg_Precision NewPriceGranularityDefault = Some p ∧ 0 ≤ p ≤ MaxDecimalFigures) as Hdef.
  { split_and!; [|done|by exists 2]. simpl. constructor; [by vm_compute|apply fltb_spec; by vm_compute|
      by vm_compute|constructor]. }
  simpl. destruct opg as [pg|]; [|done]. simpl. destruct (pg_Ranges pg) as [|r rest] eqn:Er; [done|].
  rewrite <-Er. unfold setDefaultsPriceGranularityRange.
  destruct (setDefaultsPriceGranularityRange_loop f0 (pg_Ranges pg)) as [ranges' m] eqn:El.
  assert (ranges' = (setDefaultsPriceGranularityRange_loop f0 (pg_Ranges pg)).1) as Hr by (by rewrite El).
  assert (∀ p, validatePriceGranularity {| pg_Precision := Some p; pg_Ranges := ranges' |} = None →
    no_nan_ranges ranges' → contiguous f0 ranges' ∧ ranges' ≠ [] ∧
    ∃ q, Some p = Some q ∧ 0 ≤ q ≤ MaxDecimalFigures) as Hgen.
  { intros p Hv Hn. unfold validatePriceGranularity in Hv. simpl in Hv.
    destruct (p <? 0) eqn:E1; [done|]. destruct (MaxDecimalFigures <? p) eqn:E2; [done|]. go_bool.
    split_and!; [| |eauto].
    - rewrite Hr in Hv, Hn |- *. rewrite validate_ranges_defaults in Hv. apply no_nan_defaults in Hn.
      by apply setDefaults_contiguous.
    - rewrite Hr, Er. simpl. destruct (setDefaultsPriceGranularityRange_loop (gr_Max r) rest).
      by destruct (gr_Min r =f? f0). }
  destruct (pg_Precision pg) as [p|]; simpl; apply Hgen.
Qed.

(** ** Properties *)

(** C34: when the granularity in force for a bid, with its defaults set, is valid and its numbers and the price are
    numbers, every price from zero up gets a bucket.  With [mx] the largest maximum of the ranges, a price above [mx]
    is shown as [mx]; for any other the last range that contains it decides: the price is shown as its minimum plus [n]
    increments, [n] being the number of increments above the minimum rounded down, up or to the nearest
    integer as the rounding mode says.  The empty bucket never occurs. *)
Theorem valid_granularity_buckets_every_price shortest opg bid pg0 mt rounding coin :
  let pg := (setDefaultsPriceGranularity opg).1 in
  let price := bid_Price bid in
  bucket_config bid pg0 mt = pg → validatePriceGranularity pg = None → no_nan_ranges (pg_Ranges pg) →
  is_nan price = false → ¬ flt price f0 →
  ∃ precision mx, pg_Precision pg = Some precision ∧
    (∃ r, r ∈ pg_Ranges pg ∧ gr_Max r = mx) ∧ (∀ r, r ∈ pg_Ranges pg → ¬ flt mx (gr_Max r)) ∧
    ((flt mx price ∧ GetPriceBucket shortest bid pg0 mt rounding coin = Some (FormatFloat shortest mx precision)) ∨
     (¬ flt mx price ∧ ∃ pre r post n,
        pg_Ranges pg = pre ++ r :: post ∧ contains price r = true ∧ Forall (λ r', contains price r' = false) post ∧
        rounded rounding coin (fdiv (fsub price (gr_Min r)) (gr_Increment r)) n ∧
        GetPriceBucket shortest bid pg0 mt rounding coin =
          Some (FormatFloat shortest (fadd (fmul n (gr_Increment r)) (gr_Min r)) precision))).
Proof.
  intros pg price Hcfg Hv Hn Hp Hge. destruct (defaults_contiguous opg Hv Hn) as (Hc & Hne & p & Hprec & _).
  fold pg in Hc, Hne, Hprec. set (acc0 := {| bucketMax := f0; bucketMin := f0; increment := f0 |}).
  destruct (scan_max price acc0 (pg_Ranges pg) eq_refl) as (Hm & _ & Hmax). set (mx := bucketMax _) in *.
  exists p, mx. split; [done|]. split_and!; [|done|].
  { destruct Hm as [Hm|?]; [|done]. exfalso. destruct Hc as [|lo r rest _ Hlt _ _]; [done|]. apply (Hmax r); [left|].
    rewrite Hm. exact Hlt. }
  unfold GetPriceBucket. rewrite Hcfg, Hprec. cbn [mbind option_bind]. fold price. unfold bucket_scan. fold acc0. fold mx.
  destruct (mx <f? price) eqn:E; [left; split; [by apply fltb_spec|done]|]. right. split; [rewrite <-fltb_spec; by rewrite E|].
  destruct (scan_total price acc0 (pg_Ranges pg) f0) as [Hf|[(pre & r & post & Hr & Hin & Hlast & H1 & H2)|[? _]]]; try done.
  { apply fltb_spec in Hf. fold mx in Hf. congruence. }
  assert (r ∈ pg_Ranges pg) as Hrin by (rewrite Hr; set_solver).
  exists pre, r, post. rewrite H1, H2, (contiguous_increments _ _ _ Hc Hrin). unfold getCpmTarget.
  set (q := fdiv _ _). eexists. split_and!; [done..| |reflexivity]. unfold rounded, rounds_to.
  destruct rounding; [| |destruct (coin =? 1)|]; cbv beta iota; with_strategy transparent [ffloor fceil fround] unfold ffloor, fceil, fround.
  - apply (fint_with_rounds _ rounds_down); [intros; apply whole_rounds|apply floor_rounds].
  - apply (fint_with_rounds _ rounds_near); [intros; apply whole_rounds|apply round_rounds].
  - apply (fint_with_rounds _ rounds_down); [intros; apply whole_rounds|apply floor_rounds].
  - apply (fint_with_rounds _ rounds_up); [intros; apply whole_rounds|apply ceil_rounds].
  - apply (fint_with_rounds _ rounds_up); [intros; apply whole_rounds|apply ceil_rounds].
Qed.

Definition sample_priced (p : float64) : Bid :=
  {| bid_ID := "b"; bid_ImpID := "i"; bid_Price := p; bid_AdM := ""; bid_NURL := ""; bid_DealID := "";
     bid_W := 0; bid_H := 0; bid_Exp := 0; bid_MType := 1; bid_ExtType := None;
     bid_CrID := "cr"; bid_ADomain := []; bid_Cat := []; bid_CatTax := 0; bid_Dur := 0; bid_Ext := "" |}.
Definition no_media_granularity : MediaTypePriceGranularity :=
  {| mtpg_Banner := None; mtpg_Video := None; mtpg_Native := None |}.

Lemma valid_granularity_buckets_every_price_witness :
  let pg := (setDefaultsPriceGranularity None).1 in
  let bid := sample_priced (flit 187 100) in
  ∃ precision mx, pg_Precision pg = Some precision ∧ (∃ r, r ∈ pg_Ranges pg ∧ gr_Max r = mx) ∧
    ((flt mx (bid_Price bid) ∧ GetPriceBucket (λ _, "") bid pg no_media_granularity RoundingModeDown 0 = Some (FormatFloat (λ _, "") mx precision)) ∨
     ∃ r n, r ∈ pg_Ranges pg ∧ rounded RoundingModeDown 0 (fdiv (fsub (bid_Price bid) (gr_Min r)) (gr_Increment r)) n ∧
       GetPriceBucket (λ _, "") bid pg no_media_granularity RoundingModeDown 0 =
         Some (FormatFloat (λ _, "") (fadd (fmul n (gr_Increment r)) (gr_Min r)) precision)).
Proof.
  intros pg bid.
  destruct (valid_granularity_buckets_every_price (λ _, "") None bid pg no_media_granularity RoundingModeDown 0)
    as (precision & mx & Hp & Hm & _ & Hb).
  - vm_compute. reflexivity.
  - vm_compute. reflexivity.
  - repeat constructor; vm_compute; reflexivity.
  - vm_compute. reflexivity.
  - rewrite <-fltb_spec. vm_compute. discriminate.
  - exists precision, mx. split; [exact Hp|]. split; [exact Hm|].
    destruct Hb as [Hb|(_ & pre & r & post & n & Hr & _ & _ & Hn & Hg)]; [left; exact Hb|right]. exists r, n.
    split; [fold pg in Hr; rewrite Hr; apply elem_of_app; right; left|]. split; [exact Hn|exact Hg].
Defined.
Example default_bucket : GetPriceBucket (λ _, "") (sample_priced (flit 187 100)) NewPriceGranularityDefault no_media_granularity RoundingModeDown 0 = Some "1.80".
Proof. vm_compute. reflexivity. Qed.

(** Every predefined granularity passes validation and already has contiguous ranges, so
    applying the defaults changes nothing. *)
Theorem legacy_granularities_valid v pg :
  NewPriceGranularityFromLegacyID v = Some pg →
  validatePriceGranularity pg = None ∧ setDefaultsPriceGranularity (Some pg) = (pg, false).
Proof.
  unfold NewPriceGranularityFromLegacyID. intros Hv.
  repeat (go_destruct_in Hv); simplify_eq; split; vm_compute; reflexivity.
Qed.

Lemma legacy_granularities_valid_witness :
  validatePriceGranularity NewPriceGranularityDefault = None ∧
  setDefaultsPriceGranularity (Some NewPriceGranularityDefault) = (NewPriceGranularityDefault, false).
Proof. apply (legacy_granularities_valid "medium"). reflexivity. Defined.

(** Rounding down is computed on the float quotient: with the default granularity a price of
    exactly 0.30 lands in the bucket 0.20, and 0.70 in 0.60, although both are multiples of the
    increment 0.10. *)
Theorem boundary_price_falls_into_lower_bucket :
  GetPriceBucket (λ _, "") (sample_priced (flit 30 100)) NewPriceGranularityDefault no_media_granularity
    RoundingModeDown 0 = Some "0.20" ∧
  GetPriceBucket (λ _, "") (sample_priced (flit 70 100)) NewPriceGranularityDefault no_media_granularity
    RoundingModeDown 0 = Some "0.60".
Proof. split; vm_compute; reflexivity. Qed.
