(* ===== verification/Targeting.v ===== *)
(** * Targeting keys: src/exchange/targeting.go

    The keys written into every top bid for the ad server, their truncation
    ([openrtb_ext/bid.go]), and the multi-bid rules that decide which bids get them. *)
From S2P Require Import Prelude GoFloat Bids Auction.

Record targetData := {
  includeWinners : bool;
  includeBidderKeys : bool;
  includeCacheBids : bool;
  includeCacheVast : bool;
  includeFormat : bool;
  td_preferDeals : bool;
  alwaysIncludeDeals : bool;
  cacheHost : string;
  cachePath : string;
  td_prefix : string
}.

(** [ExtMultiBid]; [MaxBids] may be nil. *)
Record ExtMultiBid := { mb_MaxBids : option Z; mb_TargetBidderCodePrefix : string }.

Definition MaxKeyLength : Z := 20.
Definition DefaultBidLimit : Z := 1.

Definition PbKey := "_pb".
Definition EnvKey := "_env".
Definition CacheHostKey := "_cache_host".
Definition CachePathKey := "_cache_path".
Definition BidderKeyName := "_bidder".
Definition SizeKey := "_size".
Definition DealKey := "_deal".
Definition FormatKey := "_format".
Definition CacheKey := "_cache_id".
Definition VastCacheKey := "_uuid".
Definition CategoryDurationKey := "_pb_cat_dur".

(** [s[:min(len(s), n)]] *)
Definition truncate (s : string) (n : Z) : string := String.substring 0 (Z.to_nat n) s.

Definition BidderKey (key prefix bidder : string) (maxLength : Z) : string :=
  let s := prefix +:+ key +:+ "_" +:+ bidder in
  if negb (maxLength =? 0) then truncate s maxLength else s.

Definition TruncateKey (key prefix : string) (maxLength : Z) : string :=
  let result := prefix +:+ key in
  if 0 <? maxLength then truncate result maxLength else result.

Definition makeHbSize (bid : Bid) : string :=
  if negb (bid_W bid =? 0) && negb (bid_H bid =? 0) then pretty (bid_W bid) +:+ "x" +:+ pretty (bid_H bid)
  else "".

(** [None] is the nil dereference of [MaxBids]. *)
Definition getMultiBidMeta (multiBidMap : option (gmap string ExtMultiBid)) (bidder : string) : option (string * Z) :=
  match multiBidMap with
  | None => Some ("", DefaultBidLimit)
  | Some m =>
      match m !! bidder with
      | Some mb => (λ n, (mb_TargetBidderCodePrefix mb, n)) <$> mb_MaxBids mb
      | None => Some ("", DefaultBidLimit)
      end
  end.

Section Targeting.
Context (targData : targetData) (auc : auction) (env : string)
        (categoryMapping : gmap string string) (truncateTargetAttr : option Z).

Definition max_key_length : Z :=
  match truncateTargetAttr with Some n => if 0 <? n then n else MaxKeyLength | None => MaxKeyLength end.

Definition addKeys (keys : gmap string string) (key value bidderName : string)
    (overallWinner bidHasDeal : bool) : gmap string string :=
  let keys := if includeBidderKeys targData || (alwaysIncludeDeals targData && bidHasDeal)
              then <[BidderKey key (td_prefix targData) bidderName max_key_length := value]> keys else keys in
  if includeWinners targData && overallWinner
  then <[TruncateKey key (td_prefix targData) max_key_length := value]> keys else keys.

(** The targets of one bid: each key with its condition, in the order they are added. *)
Definition target_keys (topBid : loc) (bid : Bid) (bidType code : string) : list (string * string) :=
  let opt (b : bool) k v := if b then [(k, v)] else [] in
  (match roundedPrices auc !! topBid with Some cpm => [(PbKey, cpm)] | None => [] end) ++
  [(BidderKeyName, code)] ++
  opt (makeHbSize bid ≠s? "") SizeKey (makeHbSize bid) ++
  (match cacheIds auc !! topBid with Some id => [(CacheKey, id)] | None => [] end) ++
  (match vastCacheIds auc !! topBid with Some id => [(VastCacheKey, id)] | None => [] end) ++
  opt (includeFormat targData) FormatKey bidType ++
  opt (cacheHost targData ≠s? "") CacheHostKey (cacheHost targData) ++
  opt (cachePath targData ≠s? "") CachePathKey (cachePath targData) ++
  opt (bid_DealID bid ≠s? "") DealKey (bid_DealID bid) ++
  opt (env ≠s? "") EnvKey env ++
  opt (negb (bool_decide (categoryMapping = ∅))) CategoryDurationKey (default "" (categoryMapping !! bid_ID bid)).

Definition bid_targets (topBid : loc) (bid : Bid) (bidType code : string) (isOverallWinner : bool) : gmap string string :=
  foldl (λ acc '(k, v), addKeys acc k v code isOverallWinner (bid_DealID bid ≠s? "")) ∅
    (target_keys topBid bid bidType code).

(** The loop over one bidder's bids from index [i]; [None] is a nil dereference. *)
Fixpoint target_bids (overallWinner : option loc) (bidderCodePrefix : string) (maxBids : Z)
    (i : nat) (code : string) (bids : list loc) (st : bid_store) : option bid_store :=
  match bids with
  | [] => Some st
  | topBid :: rest =>
      if (Z.of_nat i =? maxBids) || ((i =? 1)%nat && (bidderCodePrefix =s? "")) then Some st
      else
        let code := if (0 <? i)%nat then bidderCodePrefix +:+ pretty (i + 1)%nat else code in
        p ← st !! topBid;
        bid ← pb_Bid p;
        let p := if DefaultBidLimit <? maxBids then set_TargetBidderCode code p else p in
        let isOverallWinner := bool_decide (overallWinner = Some topBid) in
        let p := set_BidTargets (bid_targets topBid bid (pb_BidType p) code isOverallWinner) p in
        target_bids overallWinner bidderCodePrefix maxBids (S i) code rest (<[topBid := p]> st)
  end.

Fixpoint target_bidders (multiBidMap : option (gmap string ExtMultiBid)) (overallWinner : option loc)
    (entries : list (string * list loc)) (st : bid_store) : option bid_store :=
  match entries with
  | [] => Some st
  | (originalBidderName, bids) :: rest =>
      '(bidderCodePrefix, maxBids) ← getMultiBidMeta multiBidMap originalBidderName;
      st ← target_bids overallWinner bidderCodePrefix maxBids 0 originalBidderName bids st;
      target_bidders multiBidMap overallWinner rest st
  end.

Fixpoint target_imps `{MapRange} (multiBidMap : option (gmap string ExtMultiBid))
    (entries : list (string * gmap string (list loc))) (st : bid_store) : option bid_store :=
  match entries with
  | [] => Some st
  | (impId, m) :: rest =>
      st ← target_bidders multiBidMap (winningBids auc !! impId) (map_range m) st;
      target_imps multiBidMap rest st
  end.

Definition setTargeting `{MapRange} (multiBidMap : option (gmap string ExtMultiBid)) (st : bid_store)
  : option bid_store :=
  target_imps multiBidMap (map_range (allBidsByBidder auc)) st.

(** ** Lemmas *)
Lemma substring_length n s : (String.length (String.substring 0 n s) ≤ n)%nat.
Proof. revert n. induction s as [|a s IH]; intros [|n]; simpl; try lia. specialize (IH n). lia. Qed.

Lemma max_key_length_pos : 0 < max_key_length.
Proof. unfold max_key_length. destruct truncateTargetAttr; [|done]. by destruct (Z.ltb_spec 0 z). Qed.

Definition keys_bounded (keys : gmap string string) : Prop :=
  ∀ k v, keys !! k = Some v → Z.of_nat (String.length k) ≤ max_key_length.

Lemma addKeys_bounded keys key value code w d : keys_bounded keys → keys_bounded (addKeys keys key value code w d).
Proof.
  pose proof max_key_length_pos as Hpos.
  assert (∀ s, Z.of_nat (String.length (truncate s max_key_length)) ≤ max_key_length) as Ht.
  { intros s. unfold truncate. pose proof (substring_length (Z.to_nat max_key_length) s). lia. }
  assert (∀ (m : gmap string string) k, keys_bounded m → Z.of_nat (String.length k) ≤ max_key_length →
    keys_bounded (<[k := value]> m)) as Hins.
  { intros m k Hm Hk k' v. rewrite lookup_insert. case_decide; [by intros; subst|apply Hm]. }
  intros Hk. unfold addKeys, BidderKey, TruncateKey.
  rewrite (proj2 (Z.eqb_neq max_key_length 0)), (proj2 (Z.ltb_lt 0 max_key_length)) by lia. simpl.
  repeat go_destruct; auto.
Qed.

Lemma bid_targets_bounded l bid bidType code w : keys_bounded (bid_targets l bid bidType code w).
Proof.
  unfold bid_targets. assert (keys_bounded ∅) as H by (intros k v; by rewrite lookup_empty).
  revert H. generalize (∅ : gmap string string).
  induction (target_keys l bid bidType code) as [|[k v] ks IH]; intros m Hm; simpl; [done|].
  apply IH. by apply addKeys_bounded.
Qed.

(** How many of a bidder's bids are targeted. *)
Definition target_limit (bidderCodePrefix : string) (maxBids : Z) : nat :=
  if bidderCodePrefix =s? "" then 1 else Z.to_nat maxBids.

Lemma target_bids_spec w pre maxBids i code bids st st' :
  1 ≤ maxBids → (i ≤ target_limit pre maxBids)%nat → NoDup bids →
  target_bids w pre maxBids i code bids st = Some st' →
  ∀ l, match st !! l with
       | Some p => if decide (l ∈ take (target_limit pre maxBids - i) bids)
                   then ∃ p', st' !! l = Some p' ∧ pb_Bid p' = pb_Bid p ∧ keys_bounded (pb_BidTargets p')
                   else st' !! l = Some p
       | None => st' !! l = None
       end.
Proof.
  intros Hmax. revert i code st. induction bids as [|b bids IH]; intros i code st Hi Hnd Hs l.
  - simpl in Hs. injection Hs as <-. rewrite take_nil. destruct (st !! l) eqn:E; [|done].
    by rewrite decide_False by set_solver.
  - apply NoDup_cons in Hnd as [Hb Hnd]. simpl in Hs.
    destruct (_ || _) eqn:Estop in Hs.
    + injection Hs as <-. assert (target_limit pre maxBids - i = 0)%nat as ->.
      { unfold target_limit in *. apply orb_true_iff in Estop as [E|E]; go_bool.
        - destruct (pre =s? "") in Hi |- *; lia.
        - apply Nat.eqb_eq in H. subst i pre. simpl. lia. }
      rewrite take_0. destruct (st !! l) eqn:E; [|done]. by rewrite decide_False by set_solver.
    + assert (∃ n, target_limit pre maxBids - i = S n ∧ target_limit pre maxBids - S i = n)%nat as (n & Hn0 & Hn).
      { apply orb_false_iff in Estop as [E1 E2]. go_bool. apply andb_false_iff in E2.
        unfold target_limit in *. destruct (pre =s? "") eqn:Ep in Hi, E2 |- *.
        - destruct E2 as [E2|?]; [|done]. apply Nat.eqb_neq in E2. exists 0%nat. lia.
        - exists (Z.to_nat maxBids - S i)%nat. lia. }
      destruct (st !! b) as [p|] eqn:Ep; [|done]. simpl in Hs.
      destruct (pb_Bid p) as [bid|] eqn:Ebid; [|done]. simpl in Hs.
      apply IH with (l := l) in Hs; [|lia|done]. rewrite Hn0. rewrite Hn in Hs. cbn [take].
      destruct (decide (l = b)) as [->|Hne].
      * rewrite lookup_insert_eq in Hs. rewrite Ep, decide_True by set_solver.
        rewrite decide_False in Hs by (intros Hin; by apply Hb; eapply subseteq_take, Hin).
        eexists. split; [exact Hs|]. simpl. split; [by destruct (_ <? _)|apply bid_targets_bounded].
      * rewrite lookup_insert_ne in Hs by done. destruct (st !! l) as [q|] eqn:Eq; [|done].
        destruct (decide (l ∈ b :: take n bids)) as [Hin|Hout].
        -- rewrite decide_True in Hs by set_solver. done.
        -- rewrite decide_False in Hs by set_solver. done.
Qed.
End Targeting.

(** ** Properties *)

(** Of a bidder's bids for an impression only the first ones are given targeting, at most the
    multi-bid limit of the bidder and a single one when it has no code prefix; those bids get a
    target map whose keys all fit the length limit, and every other bid is left as it was. *)
Theorem targeting_limited_to_first_bids targData auc env cats trunc winner prefix maxBids bidder bids st st' :
  1 ≤ maxBids → NoDup bids →
  target_bids targData auc env cats trunc winner prefix maxBids 0 bidder bids st = Some st' →
  ∀ l, match st !! l with
       | Some p => if decide (l ∈ take (target_limit prefix maxBids) bids)
                   then ∃ p', st' !! l = Some p' ∧ pb_Bid p' = pb_Bid p ∧ keys_bounded trunc (pb_BidTargets p')
                   else st' !! l = Some p
       | None => st' !! l = None
       end.
Proof.
  intros Hm Hnd Hs. rewrite <-(Nat.sub_0_r (target_limit prefix maxBids)).
  eapply target_bids_spec; [done|lia|done|done].
Qed.

Lemma targeting_limited_to_first_bids_witness :
  let td := {| includeWinners := true; includeBidderKeys := true; includeCacheBids := false;
               includeCacheVast := false; includeFormat := true; td_preferDeals := false;
               alwaysIncludeDeals := false; cacheHost := "host"; cachePath := ""; td_prefix := "hb" |} in
  let auc := {| winningBids := {["imp1" := 0%nat]}; allBidsByBidder := ∅; roundedPrices := {[0%nat := "1.00"]};
                cacheIds := ∅; vastCacheIds := ∅; auc_seatWeights := ∅; auc_seatLatency := ∅ |} in
  ∃ st', target_bids td auc "" ∅ None (Some 0%nat) "" 1 0 "appnexus" [0; 1]%nat sample_store = Some st' ∧
  ∀ l, match sample_store !! l with
       | Some p => if decide (l ∈ take (target_limit "" 1) [0; 1]%nat)
                   then ∃ p', st' !! l = Some p' ∧ pb_Bid p' = pb_Bid p ∧ keys_bounded None (pb_BidTargets p')
                   else st' !! l = Some p
       | None => st' !! l = None
       end.
Proof.
  intros td auc. eexists. split; [vm_compute; reflexivity|].
  apply (targeting_limited_to_first_bids td auc "" ∅ None (Some 0%nat) "" 1 "appnexus" [0; 1]%nat sample_store).
  - lia.
  - repeat constructor; set_solver.
  - vm_compute. reflexivity.
Defined.

(** The imp TTL and the bid TTL bound the cache time: when either is positive the default is
    not used and the shorter positive one counts, plus the buffer; with neither, the default
    counts; nothing positive means no TTL.  No overflow happens below the 64-bit range. *)
Theorem cacheTTL_spec impTTL bidTTL dflt buffer :
  int64_range (impTTL + buffer) → int64_range (bidTTL + buffer) → int64_range (dflt + buffer) →
  cacheTTL impTTL bidTTL dflt buffer =
  (let positive := filter (λ t, 0 < t) [impTTL; bidTTL] in
   match positive with
   | [] => if decide (0 < dflt) then dflt + buffer else 0
   | t :: rest => foldl Z.min t rest + buffer
   end).
Proof.
  intros H1 H2 H3. unfold cacheTTL, addBuffer. simpl.
  rewrite !filter_cons, filter_nil.
  repeat destruct (decide (0 < _)); repeat go_destruct; go_bool; simpl;
    rewrite ?wrap64_id by done; try lia; try (f_equal; lia);
    rewrite ?orb_true_iff, ?andb_false_iff in *; destruct_or?; go_bool; try lia.
Qed.

Lemma cacheTTL_spec_witness :
  cacheTTL 0 120 300 60 =
  (let positive := filter (λ t, 0 < t) [0; 120] in
   match positive with
   | [] => if decide (0 < 300) then 300 + 60 else 0
   | t :: rest => foldl Z.min t rest + 60
   end).
Proof. apply cacheTTL_spec; unfold int64_range, two63; lia. Defined.
