(* ===== verification/GdprConfig.v ===== *)
(** * GDPR configuration: src/gdpr/aggregated_config.go, src/config

    The host's TCF2 settings ([config/config.go]), an account's ([config/account.go]) and the
    reader that consults the account first ([aggregated_config.go]).  The reader is an interface
    ([TCF2ConfigReader]); the enforcement code is written against it. *)
From S2P Require Import Prelude.

(** Purposes are small integers, bidder names and vendor names strings. *)
Abbreviation Purpose := Z.
Abbreviation name_set := (gset string).

Inductive TCF2EnforcementAlgo := TCF2UndefinedEnforcement | TCF2BasicEnforcement | TCF2FullEnforcement.
#[export] Instance algo_eq_dec : EqDecision TCF2EnforcementAlgo.
Proof. solve_decision. Defined.

Inductive ChannelType := ChannelAMP | ChannelApp | ChannelVideo | ChannelWeb | ChannelDOOH.

(** ** Host configuration: config/config.go *)
Record TCF2Purpose := {
  hp_EnforceAlgoID : TCF2EnforcementAlgo;
  hp_EnforcePurpose : bool;
  hp_EnforceVendors : bool;
  hp_VendorExceptionMap : option name_set
}.
Record TCF2 := {
  host_Enabled : bool;
  host_PurposeConfigs : gmap Z TCF2Purpose;
  host_Feature1Enforce : bool;
  host_Feature1Exceptions : option name_set;
  host_P1TEnabled : bool;
  host_P1TAccessAllowed : bool
}.

Definition TCF2_PurposeEnforced (t : TCF2) (p : Purpose) : bool :=
  match host_PurposeConfigs t !! p with None => false | Some c => hp_EnforcePurpose c end.
Definition TCF2_PurposeEnforcementAlgo (t : TCF2) (p : Purpose) : TCF2EnforcementAlgo :=
  match host_PurposeConfigs t !! p with Some c => hp_EnforceAlgoID c | None => TCF2FullEnforcement end.
Definition TCF2_PurposeEnforcingVendors (t : TCF2) (p : Purpose) : bool :=
  match host_PurposeConfigs t !! p with None => false | Some c => hp_EnforceVendors c end.
Definition TCF2_PurposeVendorExceptions (t : TCF2) (p : Purpose) : name_set :=
  match host_PurposeConfigs t !! p with
  | Some c => match hp_VendorExceptionMap c with Some m => m | None => ∅ end
  | None => ∅
  end.
Definition TCF2_FeatureOneVendorException (t : TCF2) (bidder : string) : bool :=
  match host_Feature1Exceptions t with Some m => bool_decide (bidder ∈ m) | None => false end.

(** ** Account configuration: config/account.go *)
Record AccountChannel := {
  ch_AMP : option bool; ch_App : option bool; ch_Video : option bool; ch_Web : option bool; ch_DOOH : option bool
}.
Definition GetByChannelType (a : AccountChannel) (c : ChannelType) : option bool :=
  match c with
  | ChannelAMP => ch_AMP a
  | ChannelApp => ch_App a
  | ChannelVideo => ch_Video a
  | ChannelWeb => ch_Web a
  | ChannelDOOH => ch_DOOH a
  end.

Record AccountGDPRPurpose := {
  ap_EnforceAlgoID : TCF2EnforcementAlgo;
  ap_EnforcePurpose : option bool;
  ap_EnforceVendors : option bool;
  ap_VendorExceptionMap : option name_set
}.
Record AccountGDPR := {
  acct_Enabled : option bool;
  acct_ChannelEnabled : AccountChannel;
  acct_BasicEnforcementVendorsMap : option name_set;
  acct_PurposeConfigs : gmap Z AccountGDPRPurpose;
  acct_P1TEnabled : option bool;
  acct_P1TAccessAllowed : option bool;
  acct_Feature1Enforce : option bool;
  acct_Feature1Exceptions : option name_set
}.

(** Go's [(value, exists)] results as options. *)
Definition Account_EnabledForChannelType (a : AccountGDPR) (c : ChannelType) : option bool :=
  match GetByChannelType (acct_ChannelEnabled a) c with Some b => Some b | None => acct_Enabled a end.
Definition Account_FeatureOneVendorException (a : AccountGDPR) (bidder : string) : option bool :=
  (λ m, bool_decide (bidder ∈ m)) <$> acct_Feature1Exceptions a.
Definition Account_PurposeEnforced (a : AccountGDPR) (p : Purpose) : option bool :=
  acct_PurposeConfigs a !! p ≫= ap_EnforcePurpose.
Definition Account_PurposeEnforcementAlgo (a : AccountGDPR) (p : Purpose) : option TCF2EnforcementAlgo :=
  c ← acct_PurposeConfigs a !! p;
  match ap_EnforceAlgoID c with
  | TCF2BasicEnforcement => Some TCF2BasicEnforcement
  | TCF2FullEnforcement => Some TCF2FullEnforcement
  | TCF2UndefinedEnforcement => None
  end.
Definition Account_PurposeEnforcingVendors (a : AccountGDPR) (p : Purpose) : option bool :=
  acct_PurposeConfigs a !! p ≫= ap_EnforceVendors.
Definition Account_PurposeVendorExceptions (a : AccountGDPR) (p : Purpose) : option name_set :=
  acct_PurposeConfigs a !! p ≫= ap_VendorExceptionMap.

(** ** The reader *)
Record TCF2ConfigReader := {
  BasicEnforcementVendors : name_set;
  FeatureOneEnforced : bool;
  FeatureOneVendorException : string → bool;
  ChannelEnabled : ChannelType → bool;
  IsEnabled : bool;
  PurposeEnforced : Purpose → bool;
  PurposeEnforcementAlgo : Purpose → TCF2EnforcementAlgo;
  PurposeEnforcingVendors : Purpose → bool;
  PurposeVendorExceptions : Purpose → name_set;
  PurposeOneTreatmentEnabled : bool;
  PurposeOneTreatmentAccessAllowed : bool
}.

Definition NewTCF2Config (host : TCF2) (account : AccountGDPR) : TCF2ConfigReader := {|
  BasicEnforcementVendors := default ∅ (acct_BasicEnforcementVendorsMap account);
  FeatureOneEnforced := default (host_Feature1Enforce host) (acct_Feature1Enforce account);
  FeatureOneVendorException := λ b,
    default (TCF2_FeatureOneVendorException host b) (Account_FeatureOneVendorException account b);
  ChannelEnabled := λ c, default (host_Enabled host) (Account_EnabledForChannelType account c);
  IsEnabled := host_Enabled host;
  PurposeEnforced := λ p, default (TCF2_PurposeEnforced host p) (Account_PurposeEnforced account p);
  PurposeEnforcementAlgo := λ p,
    default (TCF2_PurposeEnforcementAlgo host p) (Account_PurposeEnforcementAlgo account p);
  PurposeEnforcingVendors := λ p,
    default (TCF2_PurposeEnforcingVendors host p) (Account_PurposeEnforcingVendors account p);
  PurposeVendorExceptions := λ p,
    default (TCF2_PurposeVendorExceptions host p) (Account_PurposeVendorExceptions account p);
  PurposeOneTreatmentEnabled := default (host_P1TEnabled host) (acct_P1TEnabled account);
  PurposeOneTreatmentAccessAllowed := default (host_P1TAccessAllowed host) (acct_P1TAccessAllowed account)
|}.
