(* ===== verification/Gdpr.v ===== *)
(** * GDPR enforcement: src/gdpr

    Signals and consent of a request ([signal.go], [utils.go]), the two enforcement algorithms
    ([full_enforcement.go], [basic_enforcement.go]), the builder that chooses and caches them
    ([purpose_enforcer.go]), and the permissions of the auction and of cookie sync ([impl.go],
    [gdpr.go]).  The TCF2 consent string, the vendor list and their libraries are parameters. *)
From S2P Require Import Prelude GdprConfig.

(** ** signal.go *)
Inductive Signal := SignalAmbiguous | SignalNo | SignalYes.
#[export] Instance signal_eq_dec : EqDecision Signal.
Proof. solve_decision. Defined.

(** [None] is the error "GDPR signal should be integer 0 or 1" with [SignalAmbiguous]. *)
Definition IntSignalParse (i : Z) : option Signal :=
  if i =? 0 then Some SignalNo else if i =? 1 then Some SignalYes else None.

Definition StrSignalParse (signal : string) : option Signal :=
  if signal =s? "" then Some SignalAmbiguous
  else match Atoi signal with None => None | Some i => IntSignalParse i end.

Definition SignalNormalize (signal : Signal) (gdprDefaultValue : string) : Signal :=
  match signal with
  | SignalAmbiguous => if gdprDefaultValue =s? "0" then SignalNo else SignalYes
  | s => s
  end.

(** ** utils.go *)
(** The parts of a request that carry GDPR information; a geo is its country. *)
Record gdpr_request := {
  req_GPPSID : option (list Z);
  req_RegsGDPR : option Z;
  req_UserConsent : option string;
  req_UserGeo : option string;
  req_DeviceGeo : option string
}.

(** The TCF EU v2 section of a GPP string. *)
Definition SectionTCFEU2 : Z := 2.

Definition IsSIDInList (gppSIDs : list Z) (sid : Z) : bool := existsb (Z.eqb sid) gppSIDs.

Definition GetGDPR (req : gdpr_request) : option Signal :=
  match req_GPPSID req with
  | Some (sid :: sids) =>
      if IsSIDInList (sid :: sids) SectionTCFEU2 then Some SignalYes else Some SignalNo
  | _ =>
      match req_RegsGDPR req with
      | Some g => IntSignalParse g
      | None => Some SignalAmbiguous
      end
  end.

Fixpoint IndexOfSID_from (i : nat) (sections : list Z) (sid : Z) : Z :=
  match sections with
  | [] => -1
  | id :: rest => if id =? sid then Z.of_nat i else IndexOfSID_from (S i) rest sid
  end.
Definition IndexOfSID (sections : list Z) (sid : Z) : Z := IndexOfSID_from 0 sections sid.

(** [gpp] is the container's section ids and values, which run in parallel. *)
Definition GetConsent (req : gdpr_request) (gpp : list (Z * string)) : string :=
  let i := IndexOfSID gpp.*1 SectionTCFEU2 in
  if 0 <=? i then default "" (gpp.*2 !! Z.to_nat i)
  else default "" (req_UserConsent req).

Definition EnforceGDPR (signal defaultValue : Signal) (channelEnabled : bool) : bool :=
  let gdprApplies := bool_decide (signal = SignalYes) ||
                     (bool_decide (signal = SignalAmbiguous) && bool_decide (defaultValue = SignalYes)) in
  gdprApplies && channelEnabled.

Definition SelectEEACountries (host : list string) (account : option (list string)) : list string :=
  match account with Some c => c | None => host end.

Definition isEEACountry (country : string) (eeaCountries : list string) : bool :=
  match eeaCountries with
  | [] => false
  | _ => existsb (λ c, ToUpper c =s? ToUpper country) eeaCountries
  end.

Definition ParseGDPRDefaultValue (r : gdpr_request) (cfgDefault : string) (eeaCountries : list string) : Signal :=
  let gdprDefaultValue := if cfgDefault =s? "0" then SignalNo else SignalYes in
  match (match req_UserGeo r with Some g => Some g | None => req_DeviceGeo r end) with
  | None => gdprDefaultValue
  | Some country =>
      if isEEACountry country eeaCountries then SignalYes
      else if (String.length country =? 3)%nat then SignalNo
      else gdprDefaultValue
  end.

(** ** The libraries' view of a consent string and of a vendor *)
Record ConsentMetadata := {
  PurposeAllowed : Purpose → bool;
  PurposeLITransparency : Purpose → bool;
  VendorConsent : Z → bool;
  VendorLegitInterest : Z → bool;
  CheckPubRestriction : Purpose → Z → Z → bool;
  SpecialFeatureOptIn : Z → bool;
  PurposeOneTreatment : bool
}.
Record Vendor := {
  vendor_Purpose : Purpose → bool;
  vendor_LegitimateInterest : Purpose → bool;
  vendor_SpecialFeature : Z → bool
}.
Record VendorInfo := { vendorID : Z; vendor : option Vendor }.

(** ** purpose_config.go, purpose_enforcer.go: configuration of one purpose *)
Record purposeConfig := {
  PurposeID : Purpose;
  EnforceAlgo : TCF2EnforcementAlgo;
  EnforcePurpose : bool;
  EnforceVendors : bool;
  VendorExceptionMap : name_set;
  BasicEnforcementVendorsMap : name_set
}.
Definition basicEnforcementVendor (pc : purposeConfig) (name : string) : bool :=
  bool_decide (name ∈ BasicEnforcementVendorsMap pc).
Definition vendorException (pc : purposeConfig) (name : string) : bool :=
  bool_decide (name ∈ VendorExceptionMap pc).

Record Overrides := {
  allowLITransparency : bool;
  blockVendorExceptions : bool;
  enforcePurpose : bool;
  enforceVendors : bool
}.
Definition no_overrides : Overrides :=
  {| allowLITransparency := false; blockVendorExceptions := false; enforcePurpose := false; enforceVendors := false |}.

(** The same method in both enforcers. *)
Definition applyEnforceOverrides (cfg : purposeConfig) (o : Overrides) : bool * bool :=
  (if enforcePurpose o then true else EnforcePurpose cfg,
   if enforceVendors o then true else EnforceVendors cfg).

(** ** full_enforcement.go *)
Definition pubRestrictNotAllowed : Z := 0.
Definition pubRestrictRequireConsent : Z := 1.
Definition pubRestrictRequireLegitInterest : Z := 2.

Definition consentEstablished (cfg : purposeConfig) (consent : ConsentMetadata) (vi : VendorInfo) (eP eV : bool) : bool :=
  match vendor vi with
  | None => false
  | Some v =>
      if negb (vendor_Purpose v (PurposeID cfg)) then false
      else if eP && negb (PurposeAllowed consent (PurposeID cfg)) then false
      else if eV && negb (VendorConsent consent (vendorID vi)) then false
      else true
  end.

Definition legitInterestEstablished (cfg : purposeConfig) (consent : ConsentMetadata) (vi : VendorInfo) (eP eV : bool) : bool :=
  match vendor vi with
  | None => false
  | Some v =>
      if negb (vendor_LegitimateInterest v (PurposeID cfg)) then false
      else if eP && negb (PurposeLITransparency consent (PurposeID cfg)) then false
      else if eV && negb (VendorLegitInterest consent (vendorID vi)) then false
      else true
  end.

Definition Full_LegalBasis (cfg : purposeConfig) (vi : VendorInfo) (name : string)
    (consent : ConsentMetadata) (o : Overrides) : bool :=
  let '(eP, eV) := applyEnforceOverrides cfg o in
  let restricted r := CheckPubRestriction consent (PurposeID cfg) r (vendorID vi) in
  if restricted pubRestrictNotAllowed then false
  else if negb eP && negb eV then true
  else if vendorException cfg name && negb (blockVendorExceptions o) then true
  else
    let purposeAllowed := consentEstablished cfg consent vi eP eV in
    let legitInterest := legitInterestEstablished cfg consent vi eP eV in
    if restricted pubRestrictRequireConsent then purposeAllowed
    else if restricted pubRestrictRequireLegitInterest then legitInterest
    else purposeAllowed || legitInterest.

(** ** basic_enforcement.go *)
Definition Basic_LegalBasis (cfg : purposeConfig) (vi : VendorInfo) (name : string)
    (consent : ConsentMetadata) (o : Overrides) : bool :=
  let '(eP, eV) := applyEnforceOverrides cfg o in
  if negb eP && negb eV then true
  else if vendorException cfg name && negb (blockVendorExceptions o) then true
  else if negb eP && basicEnforcementVendor cfg name then true
  else if eP && PurposeAllowed consent (PurposeID cfg) && basicEnforcementVendor cfg name then true
  else if eP && PurposeLITransparency consent (PurposeID cfg) && allowLITransparency o then true
  else if eP && negb (PurposeAllowed consent (PurposeID cfg)) then false
  else if negb eV then true
  else VendorConsent consent (vendorID vi).

(** ** purpose_enforcer.go: the interface, and the builder with its cache *)
Inductive PurposeEnforcer := FullEnforcement (cfg : purposeConfig) | BasicEnforcement (cfg : purposeConfig).

Definition LegalBasis (e : PurposeEnforcer) : VendorInfo → string → ConsentMetadata → Overrides → bool :=
  match e with FullEnforcement cfg => Full_LegalBasis cfg | BasicEnforcement cfg => Basic_LegalBasis cfg end.

Record PurposeEnforcers := { Full : option PurposeEnforcer; Basic : option PurposeEnforcer }.

Definition isDowngraded (enforceAlgo : TCF2EnforcementAlgo) (basicVendor : bool) : bool :=
  if bool_decide (enforceAlgo = TCF2FullEnforcement) && basicVendor then true else false.

(** The ten cache slots of one builder. *)
Abbreviation enforcer_cache := (list PurposeEnforcers).
Definition empty_cache : enforcer_cache := replicate 10 {| Full := None; Basic := None |}.

Section Builder.
Context (cfg : TCF2ConfigReader).

Definition purpose_cfg (purpose : Purpose) : purposeConfig :=
  {| PurposeID := purpose;
     EnforceAlgo := PurposeEnforcementAlgo cfg purpose;
     EnforcePurpose := PurposeEnforced cfg purpose;
     EnforceVendors := PurposeEnforcingVendors cfg purpose;
     VendorExceptionMap := PurposeVendorExceptions cfg purpose;
     BasicEnforcementVendorsMap := BasicEnforcementVendors cfg |}.

(** Whether the basic algorithm serves this purpose and vendor. *)
Definition uses_basic (purpose : Purpose) (name : string) : bool :=
  let basicVendor := if purpose =? 1 then false else bool_decide (name ∈ BasicEnforcementVendors cfg) in
  let enforceAlgo := PurposeEnforcementAlgo cfg purpose in
  bool_decide (enforceAlgo = TCF2BasicEnforcement) || isDowngraded enforceAlgo basicVendor.

(** One call of the closure [NewPurposeEnforcerBuilder] returns; [None] is an index out of range. *)
Definition cached_builder (cache : enforcer_cache) (purpose : Purpose) (name : string)
  : option (PurposeEnforcer * enforcer_cache) :=
  if purpose - 1 <? 0 then None else
  let index := Z.to_nat (purpose - 1) in
  slot ← cache !! index;
  if uses_basic purpose name then
    match Basic slot with
    | Some e => Some (e, cache)
    | None =>
        let enforcer := BasicEnforcement (purpose_cfg purpose) in
        Some (enforcer, <[index := {| Full := Full slot; Basic := Some enforcer |}]> cache)
    end
  else
    match Full slot with
    | Some e => Some (e, cache)
    | None =>
        let enforcer := FullEnforcement (purpose_cfg purpose) in
        Some (enforcer, <[index := {| Full := Some enforcer; Basic := Basic slot |}]> cache)
    end.

(** The builder without a cache. *)
Definition build_enforcer (purpose : Purpose) (name : string) : PurposeEnforcer :=
  if uses_basic purpose name then BasicEnforcement (purpose_cfg purpose)
  else FullEnforcement (purpose_cfg purpose).

(** A sequence of calls on one builder. *)
Fixpoint run_builder (cache : enforcer_cache) (calls : list (Purpose * string))
  : option (list PurposeEnforcer) :=
  match calls with
  | [] => Some []
  | (p, n) :: rest =>
      '(e, cache') ← cached_builder cache p n;
      es ← run_builder cache' rest;
      Some (e :: es)
  end.
End Builder.

(** ** consent_parser.go *)
(** What [vendorconsent.ParseString] returns; the metadata is present for a TCF2 string. *)
Record VendorConsents := {
  vc_Version : Z;
  vc_VendorListVersion : Z;
  vc_TCFPolicyVersion : Z;
  vc_meta : option ConsentMetadata
}.
Record parsedConsent := {
  encodingVersion : Z;
  listVersion : Z;
  specVersion : Z;
  consentMeta : ConsentMetadata
}.
Inductive consent_error := ErrorMalformedConsent (consent : string) | ErrorNotTCF2.

Definition validateVersions (pc : VendorConsents) : bool := vc_Version pc =? 2.
Definition getSpecVersion (policyVersion : Z) : Z := if 4 <=? policyVersion then 3 else 2.

(** ** gvl_vendor_ids.go: the live set of vendor ids *)
Definition LiveGVL_Contains (ids : gset Z) (id : Z) : bool :=
  if bool_decide (ids = ∅) then true else bool_decide (id ∈ ids).
Definition LiveGVL_Update (ids newIDs : gset Z) : gset Z :=
  if bool_decide (newIDs = ∅) then ids else newIDs.

(** ** permissions.go *)
Record AuctionPermissions := { AllowBidRequest : bool; PassGeo : bool; PassID : bool }.
Definition AllowAll : AuctionPermissions := {| AllowBidRequest := true; PassGeo := true; PassID := true |}.
Definition DenyAll : AuctionPermissions := {| AllowBidRequest := false; PassGeo := false; PassID := false |}.

(** ** impl.go *)
Record permissionsImpl := {
  fetchVendorList : Z → Z → option (Z → option Vendor);
  hostVendorID : Z;
  nonStandardPublishers : gset string;
  purposeEnforcerBuilder : Purpose → string → PurposeEnforcer;
  validGVLVendorIDs : option (gset Z);
  vendorIDs : gmap string Z;
  aliasGVLIDs : gmap string Z;
  p_cfg : TCF2ConfigReader;
  p_consent : string;
  gdprSignal : Signal;
  publisherID : string
}.

Section Permissions.
Context (ParseString : string → option VendorConsents).

Definition parseConsent (consent : string) : result consent_error parsedConsent :=
  match ParseString consent with
  | None => Err (ErrorMalformedConsent consent)
  | Some pc =>
      if negb (validateVersions pc) then Err (ErrorMalformedConsent consent)
      else match vc_meta pc with
           | None => Err ErrorNotTCF2
           | Some cm =>
               Ok {| encodingVersion := vc_Version pc; listVersion := vc_VendorListVersion pc;
                     specVersion := getSpecVersion (vc_TCFPolicyVersion pc); consentMeta := cm |}
           end
  end.

Context (p : permissionsImpl).

Definition isValidVendorID (id : Z) : bool :=
  match validGVLVendorIDs p with None => true | Some ids => LiveGVL_Contains ids id end.

Definition getVendor (vendorID : Z) (pc : parsedConsent) : option (option Vendor) :=
  match fetchVendorList p (specVersion pc) (listVersion pc) with
  | None => None
  | Some list => Some (list vendorID)
  end.

Definition defaultPermissions : AuctionPermissions :=
  {| AllowBidRequest := negb (PurposeEnforced (p_cfg p) 2);
     PassGeo := negb (FeatureOneEnforced (p_cfg p));
     PassID := false |}.

Definition resolveVendorID (bidderCoreName bidder : string) : Z * bool :=
  match aliasGVLIDs p !! bidder with
  | Some id => if negb (isValidVendorID id) then (0, false) else (id, true)
  | None =>
      match vendorIDs p !! bidderCoreName with
      | Some id => if negb (isValidVendorID id) then (0, false) else (id, true)
      | None => (0, false)
      end
  end.

(** The pair is Go's [(bool, error)]. *)
Definition allowSync (vendorID : Z) (bidder : string) (vendorException : bool) : bool * option consent_error :=
  if p_consent p =s? "" then (false, None)
  else match parseConsent (p_consent p) with
  | Err e => (false, Some e)
  | Ok pc =>
      match getVendor vendorID pc with
      | None => (false, None)
      | Some vendor =>
          if negb (PurposeEnforced (p_cfg p) 1) then (true, None)
          else if PurposeOneTreatmentEnabled (p_cfg p) && PurposeOneTreatment (consentMeta pc)
          then (PurposeOneTreatmentAccessAllowed (p_cfg p), None)
          else
            let enforcer := purposeEnforcerBuilder p 1 bidder in
            (LegalBasis enforcer {| vendorID := vendorID; vendor := vendor |} bidder (consentMeta pc)
               {| allowLITransparency := false; blockVendorExceptions := negb vendorException;
                  enforcePurpose := false; enforceVendors := false |}, None)
      end
  end.

Definition is_basic (e : PurposeEnforcer) : bool :=
  match e with BasicEnforcement _ => true | FullEnforcement _ => false end.

Definition allowBidRequest (bidder : string) (consent : ConsentMetadata) (vi : VendorInfo) : bool :=
  let enforcer := purposeEnforcerBuilder p 2 bidder in
  LegalBasis enforcer vi bidder consent
    {| allowLITransparency := is_basic enforcer; blockVendorExceptions := false;
       enforcePurpose := false; enforceVendors := false |}.

Definition allowGeo (bidder : string) (consent : ConsentMetadata) (vendor : option Vendor) : bool :=
  if negb (FeatureOneEnforced (p_cfg p)) then true
  else if FeatureOneVendorException (p_cfg p) bidder then true
  else
    let weakVendorEnforcement := bool_decide (bidder ∈ BasicEnforcementVendors (p_cfg p)) in
    SpecialFeatureOptIn consent 1 &&
    (match vendor with Some v => vendor_SpecialFeature v 1 | None => false end || weakVendorEnforcement).

(** The overrides of the user-id activity for one purpose. *)
Definition id_overrides (purpose : Purpose) (enforcer : PurposeEnforcer) : Overrides :=
  {| allowLITransparency := is_basic enforcer && (purpose =? 2); blockVendorExceptions := false;
     enforcePurpose := true; enforceVendors := true |}.

(** The loop [for i := 2; i <= 10; i++] with its early return. *)
Fixpoint allowID_loop (purposes : list Purpose) (bidder : string) (consent : ConsentMetadata) (vi : VendorInfo) : bool :=
  match purposes with
  | [] => false
  | purpose :: rest =>
      let enforcer := purposeEnforcerBuilder p purpose bidder in
      if LegalBasis enforcer vi bidder consent (id_overrides purpose enforcer) then true
      else allowID_loop rest bidder consent vi
  end.
Definition allowID (bidder : string) (consent : ConsentMetadata) (vi : VendorInfo) : bool :=
  allowID_loop [2; 3; 4; 5; 6; 7; 8; 9; 10] bidder consent vi.

Definition uint16 (z : Z) : Z := z `mod` 65536.

Definition HostCookiesAllowed : bool * option consent_error :=
  if bool_decide (gdprSignal p ≠ SignalYes) then (true, None)
  else allowSync (uint16 (hostVendorID p)) "" false.

Definition BidderSyncAllowed (bidder : string) : bool * option consent_error :=
  if bool_decide (gdprSignal p ≠ SignalYes) then (true, None)
  else match vendorIDs p !! bidder with
       | Some id =>
           if isValidVendorID id
           then allowSync id bidder (bool_decide (bidder ∈ PurposeVendorExceptions (p_cfg p) 1))
           else (false, None)
       | None => (false, None)
       end.

Definition AuctionActivitiesAllowed (bidderCoreName bidder : string) : AuctionPermissions :=
  if bool_decide (publisherID p ∈ nonStandardPublishers p) then AllowAll
  else if bool_decide (gdprSignal p ≠ SignalYes) then AllowAll
  else if p_consent p =s? "" then defaultPermissions
  else match parseConsent (p_consent p) with
  | Err _ => defaultPermissions
  | Ok pc =>
      let vid := (resolveVendorID bidderCoreName bidder).1 in
      match getVendor vid pc with
      | None => defaultPermissions
      | Some vendor =>
          let vi := {| vendorID := vid; vendor := vendor |} in
          {| AllowBidRequest := allowBidRequest bidderCoreName (consentMeta pc) vi;
             PassGeo := allowGeo bidderCoreName (consentMeta pc) vendor;
             PassID := allowID bidderCoreName (consentMeta pc) vi |}
      end
  end.
End Permissions.

(** ** gdpr.go: the three implementations of [Permissions] *)
Inductive Permissions :=
| AlwaysAllow
| AllowHostCookies (impl : permissionsImpl)
| PermissionsImpl (impl : permissionsImpl).

Record RequestInfo := { ri_AliasGVLIDs : gmap string Z; ri_Consent : string; ri_GDPRSignal : Signal; ri_PublisherID : string }.

Definition NewPermissions (enabled : bool) (defaultValue : string) (hostVendorID : Z) (nonStandard : gset string)
    (tcf2Config : TCF2ConfigReader) (vendorIDs : gmap string Z) (validIDs : option (gset Z))
    (fetcher : Z → Z → option (Z → option Vendor)) (builder : Purpose → string → PurposeEnforcer)
    (ri : RequestInfo) : Permissions :=
  if negb enabled then AlwaysAllow
  else
    let impl := {| fetchVendorList := fetcher; hostVendorID := hostVendorID; nonStandardPublishers := nonStandard;
                   purposeEnforcerBuilder := builder; validGVLVendorIDs := validIDs; vendorIDs := vendorIDs;
                   aliasGVLIDs := ri_AliasGVLIDs ri; p_cfg := tcf2Config; p_consent := ri_Consent ri;
                   gdprSignal := SignalNormalize (ri_GDPRSignal ri) defaultValue;
                   publisherID := ri_PublisherID ri |} in
    if hostVendorID =? 0 then AllowHostCookies impl else PermissionsImpl impl.

(** ** Lemmas *)
(** Cache entries are always what the builder would build afresh. *)
Definition cache_ok (cfg : TCF2ConfigReader) (cache : enforcer_cache) : Prop :=
  length cache = 10%nat ∧
  ∀ i slot, cache !! i = Some slot →
    (∀ e, Basic slot = Some e → e = BasicEnforcement (purpose_cfg cfg (Z.of_nat i + 1))) ∧
    (∀ e, Full slot = Some e → e = FullEnforcement (purpose_cfg cfg (Z.of_nat i + 1))).

Lemma empty_cache_ok cfg : cache_ok cfg empty_cache.
Proof.
  split; [done|]. intros i slot Hs. unfold empty_cache in Hs.
  apply lookup_replicate in Hs as [-> _]. done.
Qed.

Lemma cached_builder_step cfg cache purpose name :
  cache_ok cfg cache → 1 ≤ purpose ≤ 10 →
  ∃ cache', cached_builder cfg cache purpose name = Some (build_enforcer cfg purpose name, cache') ∧ cache_ok cfg cache'.
Proof.
  intros [Hlen Hc] Hp. unfold cached_builder, build_enforcer.
  destruct (purpose - 1 <? 0) eqn:E; go_bool; [lia|]. clear E.
  set (i := Z.to_nat (purpose - 1)). assert (Z.of_nat i + 1 = purpose) as Hi by lia.
  destruct (lookup_lt_is_Some_2 cache i) as [slot Hs]; [lia|]. rewrite Hs. simpl.
  destruct (Hc _ _ Hs) as [HB HF]. rewrite Hi in HB, HF.
  assert (∀ slot', (∀ e, Basic slot' = Some e → e = BasicEnforcement (purpose_cfg cfg purpose)) →
    (∀ e, Full slot' = Some e → e = FullEnforcement (purpose_cfg cfg purpose)) →
    cache_ok cfg (<[i := slot']> cache)) as Hins.
  { intros slot' H1 H2. split; [by rewrite length_insert|]. intros j s.
    destruct (decide (i = j)) as [<-|Hne].
    - rewrite list_lookup_insert_eq by lia. intros [= <-]. by rewrite Hi.
    - rewrite list_lookup_insert_ne by done. apply Hc. }
  destruct (uses_basic cfg purpose name).
  - destruct (Basic slot) as [e|] eqn:EB.
    + rewrite (HB e) by done. eexists. split; [done|]. by split.
    + eexists. split; [done|]. apply Hins; simpl; [by intros e [= <-]|done].
  - destruct (Full slot) as [e|] eqn:EF.
    + rewrite (HF e) by done. eexists. split; [done|]. by split.
    + eexists. split; [done|]. apply Hins; simpl; [done|by intros e [= <-]].
Qed.

(** [c'] records at least the consents of [c], under the same publisher restrictions. *)
Record more_consent (c c' : ConsentMetadata) : Prop := {
  mc_purpose : ∀ p, PurposeAllowed c p = true → PurposeAllowed c' p = true;
  mc_li : ∀ p, PurposeLITransparency c p = true → PurposeLITransparency c' p = true;
  mc_vendor : ∀ v, VendorConsent c v = true → VendorConsent c' v = true;
  mc_vendor_li : ∀ v, VendorLegitInterest c v = true → VendorLegitInterest c' v = true;
  mc_restrictions : ∀ p r v, CheckPubRestriction c p r v = CheckPubRestriction c' p r v
}.

Lemma established_mono c c' cfg vi eP eV :
  more_consent c c' →
  (consentEstablished cfg c vi eP eV = true → consentEstablished cfg c' vi eP eV = true) ∧
  (legitInterestEstablished cfg c vi eP eV = true → legitInterestEstablished cfg c' vi eP eV = true).
Proof.
  intros [Hp Hl Hv Hvl _]. unfold consentEstablished, legitInterestEstablished.
  destruct (vendor vi) as [v|]; [|done].
  specialize (Hp (PurposeID cfg)). specialize (Hl (PurposeID cfg)).
  specialize (Hv (vendorID vi)). specialize (Hvl (vendorID vi)).
  destruct eP, eV, (PurposeAllowed c _), (PurposeLITransparency c _), (VendorConsent c _),
    (VendorLegitInterest c _); simpl; rewrite ?Hp, ?Hl, ?Hv, ?Hvl by done; split;
    repeat go_destruct; done.
Qed.

Lemma LegalBasis_mono e vi name c c' o :
  more_consent c c' → LegalBasis e vi name c o = true → LegalBasis e vi name c' o = true.
Proof.
  intros Hm. pose proof Hm as [Hp Hl Hv Hvl Hr].
  destruct e as [cfg|cfg]; simpl; unfold Full_LegalBasis, Basic_LegalBasis;
    destruct (applyEnforceOverrides cfg o) as [eP eV].
  - destruct (established_mono c c' cfg vi eP eV Hm) as [H1 H2]. rewrite <-!Hr.
    repeat (go_destruct; try done). rewrite !orb_true_iff. naive_solver.
  - specialize (Hp (PurposeID cfg)). specialize (Hl (PurposeID cfg)). specialize (Hv (vendorID vi)).
    destruct (PurposeAllowed c _), (PurposeLITransparency c _); rewrite ?Hp, ?Hl by done.
    all: destruct eP, eV, (vendorException cfg name), (blockVendorExceptions o),
      (basicEnforcementVendor cfg name), (allowLITransparency o); simpl; try done; auto.
    all: repeat (go_destruct; simpl; try done); auto.
Qed.

Lemma allowID_loop_true p bidder consent vi purposes :
  allowID_loop p purposes bidder consent vi = true ↔
  ∃ purpose, purpose ∈ purposes ∧
    LegalBasis (purposeEnforcerBuilder p purpose bidder) vi bidder consent
      (id_overrides purpose (purposeEnforcerBuilder p purpose bidder)) = true.
Proof.
  induction purposes as [|q rest IH]; simpl; [set_solver|].
  destruct (LegalBasis _ _ _ _ _) eqn:E.
  - split; [|done]. intros _. exists q. set_solver.
  - rewrite IH. split.
    + intros (r & Hr & Hl). exists r. set_solver.
    + intros (r & [->|Hr]%elem_of_cons & Hl); [congruence|eauto].
Qed.

(** ** Properties *)

(** The builder's cache is transparent: any sequence of calls for purposes 1 to 10 on a fresh
    builder returns, call by call, the enforcer built afresh from the configuration. *)
Theorem enforcer_cache_transparent cfg calls :
  Forall (λ c : Purpose * string, 1 ≤ c.1 ≤ 10) calls →
  run_builder cfg empty_cache calls = Some (map (λ c, build_enforcer cfg c.1 c.2) calls).
Proof.
  intros Hall. pose proof (empty_cache_ok cfg) as Hok. revert Hok. generalize empty_cache.
  induction calls as [|[q n] calls IH]; intros cache Hok; [done|]. simpl.
  apply Forall_cons in Hall as [Hq Hall]. simpl in Hq.
  destruct (cached_builder_step cfg cache q n Hok Hq) as (cache' & -> & Hok'). simpl.
  by rewrite (IH Hall cache' Hok').
Qed.

Definition no_host : TCF2 :=
  {| host_Enabled := true; host_PurposeConfigs := ∅; host_Feature1Enforce := true; host_Feature1Exceptions := None;
     host_P1TEnabled := false; host_P1TAccessAllowed := false |}.
Definition no_account : AccountGDPR :=
  {| acct_Enabled := None; acct_ChannelEnabled := {| ch_AMP := None; ch_App := None; ch_Video := None; ch_Web := None; ch_DOOH := None |};
     acct_BasicEnforcementVendorsMap := Some {["weak"]}; acct_PurposeConfigs := ∅; acct_P1TEnabled := None;
     acct_P1TAccessAllowed := None; acct_Feature1Enforce := None; acct_Feature1Exceptions := None |}.

Lemma enforcer_cache_transparent_witness :
  let cfg := NewTCF2Config no_host no_account in
  let calls := [(2, "appnexus"); (2, "weak"); (2, "appnexus"); (10, "weak")] in
  run_builder cfg empty_cache calls = Some (map (λ c, build_enforcer cfg c.1 c.2) calls).
Proof.
  intros cfg calls. apply (enforcer_cache_transparent cfg calls).
  repeat constructor; simpl; lia.
Defined.

(** Consent is monotone: if a user's consent string records at least as many purpose, vendor
    and legitimate-interest signals as another under the same publisher restrictions, then no
    algorithm denies what it granted for the other, and the user-id activity stays allowed. *)
Theorem more_consent_never_revokes p e vi name c c' o :
  more_consent c c' →
  (LegalBasis e vi name c o = true → LegalBasis e vi name c' o = true) ∧
  (allowID p name c vi = true → allowID p name c' vi = true).
Proof.
  intros Hm. split; [by apply LegalBasis_mono|]. unfold allowID. rewrite !allowID_loop_true.
  intros (purpose & Hin & Hl). exists purpose. split; [done|]. by eapply LegalBasis_mono.
Qed.

Definition consent_flags (b : bool) : ConsentMetadata :=
  {| PurposeAllowed := λ _, b; PurposeLITransparency := λ _, b; VendorConsent := λ _, b;
     VendorLegitInterest := λ _, b; CheckPubRestriction := λ _ _ _, false; SpecialFeatureOptIn := λ _, b;
     PurposeOneTreatment := false |}.
Definition sample_impl : permissionsImpl :=
  let cfg := NewTCF2Config no_host no_account in
  {| fetchVendorList := λ _ _, Some (λ _, Some {| vendor_Purpose := λ _, true; vendor_LegitimateInterest := λ _, true;
                                                  vendor_SpecialFeature := λ _, true |});
     hostVendorID := 52; nonStandardPublishers := ∅; purposeEnforcerBuilder := build_enforcer cfg;
     validGVLVendorIDs := None; vendorIDs := {["appnexus" := 32]}; aliasGVLIDs := ∅; p_cfg := cfg;
     p_consent := "CO"; gdprSignal := SignalYes; publisherID := "pub" |}.
Definition sample_parse (s : string) : option VendorConsents :=
  Some {| vc_Version := 2; vc_VendorListVersion := 15; vc_TCFPolicyVersion := 4; vc_meta := Some (consent_flags true) |}.

Lemma more_consent_never_revokes_witness :
  let cfg := NewTCF2Config no_host no_account in
  let e := build_enforcer cfg 3 "appnexus" in
  let vi := {| vendorID := 32; vendor := None |} in
  (LegalBasis e vi "appnexus" (consent_flags false) no_overrides = true →
   LegalBasis e vi "appnexus" (consent_flags true) no_overrides = true) ∧
  (allowID sample_impl "appnexus" (consent_flags false) vi = true →
   allowID sample_impl "appnexus" (consent_flags true) vi = true).
Proof. intros cfg e vi. apply (more_consent_never_revokes sample_impl e vi). split; done. Defined.

(** C6: where GDPR applies, a user id is passed exactly when the consent string is there and
    parses, the vendor list is available, and one of the purposes 2 to 10 has a legal basis with
    purpose and vendors enforced whatever the configuration says. *)
Theorem PassID_iff ParseString p core bidder :
  gdprSignal p = SignalYes → publisherID p ∉ nonStandardPublishers p →
  PassID (AuctionActivitiesAllowed ParseString p core bidder) = true ↔
  ∃ pc vendor purpose,
    p_consent p ≠ "" ∧ parseConsent ParseString (p_consent p) = Ok pc ∧
    getVendor p (resolveVendorID p core bidder).1 pc = Some vendor ∧
    purpose ∈ [2; 3; 4; 5; 6; 7; 8; 9; 10] ∧
    let e := purposeEnforcerBuilder p purpose core in
    LegalBasis e {| vendorID := (resolveVendorID p core bidder).1; vendor := vendor |} core (consentMeta pc)
      (id_overrides purpose e) = true.
Proof.
  intros Hs Hpub. unfold AuctionActivitiesAllowed.
  rewrite (bool_decide_eq_false_2 _ Hpub), (bool_decide_eq_false_2 (gdprSignal p ≠ SignalYes)) by (by intros []).
  destruct (String.eqb_spec (p_consent p) "") as [He|Hne].
  { simpl. split; [done|]. intros (? & ? & ? & ? & _). congruence. }
  destruct (parseConsent ParseString (p_consent p)) as [pc|e].
  2: { simpl. split; [done|]. intros (? & ? & ? & ? & ? & _). congruence. }
  destruct (getVendor p (resolveVendorID p core bidder).1 pc) as [v|] eqn:Ev; simpl.
  - unfold allowID. rewrite allowID_loop_true. split.
    + intros (q & Hq & Hl). exists pc, v, q. done.
    + intros (pc' & v' & q & _ & [= <-] & Hv & Hq & Hl). rewrite Ev in Hv. injection Hv as <-. eauto.
  - split; [done|]. intros (pc' & v' & q & _ & [= <-] & Hv & _). congruence.
Qed.

Lemma PassID_iff_witness :
  PassID (AuctionActivitiesAllowed sample_parse sample_impl "appnexus" "appnexus") = true ↔
  ∃ pc vendor purpose,
    p_consent sample_impl ≠ "" ∧ parseConsent sample_parse (p_consent sample_impl) = Ok pc ∧
    getVendor sample_impl (resolveVendorID sample_impl "appnexus" "appnexus").1 pc = Some vendor ∧
    purpose ∈ [2; 3; 4; 5; 6; 7; 8; 9; 10] ∧
    let e := purposeEnforcerBuilder sample_impl purpose "appnexus" in
    LegalBasis e {| vendorID := (resolveVendorID sample_impl "appnexus" "appnexus").1; vendor := vendor |}
      "appnexus" (consentMeta pc) (id_overrides purpose e) = true.
Proof.
  apply (PassID_iff sample_parse sample_impl "appnexus" "appnexus"); [reflexivity|].
  simpl. set_solver.
Defined.
