(* ===== verification/FloorData.v ===== *)
(** * Price floors, data: src/openrtb_ext/floors.go and the request fields floors read

    The floors extension with its accessors, the account's floors configuration, and the parts
    of a request and of an impression [src/floors] reads or writes.  An extension is parsed on
    first use: [GetRequestExt] and [GetImpExt] keep what they parsed and report a parse error
    only to the first caller. *)
From S2P Require Import Prelude GoFloat.

(** ** openrtb_ext/floors.go *)
Record PriceFloorSchema := { ps_Fields : list string; ps_Delimiter : string }.

Record PriceFloorModelGroup := {
  mg_Currency : string;
  mg_ModelWeight : option Z;
  mg_ModelVersion : string;
  mg_SkipRate : Z;
  mg_Schema : PriceFloorSchema;
  mg_Values : gmap string float64;
  mg_Default : float64
}.

Record PriceFloorData := {
  pd_Currency : string;
  pd_SkipRate : Z;
  pd_FloorsSchemaVersion : Z;
  pd_ModelTimestamp : Z;
  pd_ModelGroups : list PriceFloorModelGroup;
  pd_FloorProvider : string;
  pd_UseFetchDataRate : option Z
}.

Record PriceFloorEnforcement := {
  pe_EnforceJS : option bool;
  pe_EnforcePBS : option bool;
  pe_FloorDeals : option bool;
  pe_BidAdjustment : option bool;
  pe_EnforceRate : Z
}.

(** [pf_Location] is the endpoint's URL. *)
Record PriceFloorRules := {
  pf_FloorMin : float64;
  pf_FloorMinCur : string;
  pf_SkipRate : Z;
  pf_Location : option string;
  pf_Data : option PriceFloorData;
  pf_Enforcement : option PriceFloorEnforcement;
  pf_Enabled : option bool;
  pf_Skipped : option bool;
  pf_FloorProvider : string;
  pf_FetchStatus : string;
  pf_PriceFloorLocation : string
}.

Definition FetchSuccess := "success".
Definition FetchTimeout := "timeout".
Definition FetchError := "error".
Definition FetchInprogress := "inprogress".
Definition FetchNone := "none".
Definition NoDataLocation := "noData".
Definition RequestLocation := "request".
Definition FetchLocation := "fetch".

(** The accessors are methods of a pointer that may be nil. *)
Definition GetEnforcePBS (f : option PriceFloorRules) : bool :=
  default true ((f ≫= pf_Enforcement) ≫= pe_EnforcePBS).
Definition GetFloorsSkippedFlag (f : option PriceFloorRules) : bool := default false (f ≫= pf_Skipped).
Definition GetEnforceRate (f : option PriceFloorRules) : Z :=
  match f ≫= pf_Enforcement with Some e => pe_EnforceRate e | None => 0 end.
Definition GetEnforceDealsFlag (f : option PriceFloorRules) : bool :=
  default false ((f ≫= pf_Enforcement) ≫= pe_FloorDeals).
Definition GetEnabled (f : option PriceFloorRules) : bool := default true (f ≫= pf_Enabled).

(** Field updates. *)
Definition set_mg_ModelWeight (w : option Z) (g : PriceFloorModelGroup) : PriceFloorModelGroup :=
  {| mg_Currency := mg_Currency g; mg_ModelWeight := w; mg_ModelVersion := mg_ModelVersion g;
     mg_SkipRate := mg_SkipRate g; mg_Schema := mg_Schema g; mg_Values := mg_Values g; mg_Default := mg_Default g |}.
Definition set_mg_Values (v : gmap string float64) (g : PriceFloorModelGroup) : PriceFloorModelGroup :=
  {| mg_Currency := mg_Currency g; mg_ModelWeight := mg_ModelWeight g; mg_ModelVersion := mg_ModelVersion g;
     mg_SkipRate := mg_SkipRate g; mg_Schema := mg_Schema g; mg_Values := v; mg_Default := mg_Default g |}.
Definition set_pd_ModelGroups (gs : list PriceFloorModelGroup) (d : PriceFloorData) : PriceFloorData :=
  {| pd_Currency := pd_Currency d; pd_SkipRate := pd_SkipRate d; pd_FloorsSchemaVersion := pd_FloorsSchemaVersion d;
     pd_ModelTimestamp := pd_ModelTimestamp d; pd_ModelGroups := gs; pd_FloorProvider := pd_FloorProvider d;
     pd_UseFetchDataRate := pd_UseFetchDataRate d |}.
Definition set_pf_Skipped (b : option bool) (f : PriceFloorRules) : PriceFloorRules :=
  {| pf_FloorMin := pf_FloorMin f; pf_FloorMinCur := pf_FloorMinCur f; pf_SkipRate := pf_SkipRate f;
     pf_Location := pf_Location f; pf_Data := pf_Data f; pf_Enforcement := pf_Enforcement f;
     pf_Enabled := pf_Enabled f; pf_Skipped := b; pf_FloorProvider := pf_FloorProvider f;
     pf_FetchStatus := pf_FetchStatus f; pf_PriceFloorLocation := pf_PriceFloorLocation f |}.
Definition set_pf_Enforcement (e : option PriceFloorEnforcement) (f : PriceFloorRules) : PriceFloorRules :=
  {| pf_FloorMin := pf_FloorMin f; pf_FloorMinCur := pf_FloorMinCur f; pf_SkipRate := pf_SkipRate f;
     pf_Location := pf_Location f; pf_Data := pf_Data f; pf_Enforcement := e;
     pf_Enabled := pf_Enabled f; pf_Skipped := pf_Skipped f; pf_FloorProvider := pf_FloorProvider f;
     pf_FetchStatus := pf_FetchStatus f; pf_PriceFloorLocation := pf_PriceFloorLocation f |}.
Definition set_pf_Data (d : option PriceFloorData) (f : PriceFloorRules) : PriceFloorRules :=
  {| pf_FloorMin := pf_FloorMin f; pf_FloorMinCur := pf_FloorMinCur f; pf_SkipRate := pf_SkipRate f;
     pf_Location := pf_Location f; pf_Data := d; pf_Enforcement := pf_Enforcement f;
     pf_Enabled := pf_Enabled f; pf_Skipped := pf_Skipped f; pf_FloorProvider := pf_FloorProvider f;
     pf_FetchStatus := pf_FetchStatus f; pf_PriceFloorLocation := pf_PriceFloorLocation f |}.

(** The zero value of the struct. *)
Definition empty_floors : PriceFloorRules :=
  {| pf_FloorMin := f0; pf_FloorMinCur := ""; pf_SkipRate := 0; pf_Location := None; pf_Data := None;
     pf_Enforcement := None; pf_Enabled := None; pf_Skipped := None; pf_FloorProvider := "";
     pf_FetchStatus := ""; pf_PriceFloorLocation := "" |}.
Definition empty_enforcement : PriceFloorEnforcement :=
  {| pe_EnforceJS := None; pe_EnforcePBS := None; pe_FloorDeals := None; pe_BidAdjustment := None; pe_EnforceRate := 0 |}.

(** ** config/account.go *)
Record AccountFloorFetch := {
  aff_Enabled : bool;
  aff_URL : string;
  aff_Timeout : Z;
  aff_MaxFileSizeKB : Z;
  aff_MaxRules : Z;
  aff_MaxAge : Z;
  aff_Period : Z;
  aff_MaxSchemaDims : Z;
  aff_AccountID : string
}.
Record AccountPriceFloors := {
  apf_Enabled : bool;
  apf_EnforceFloorsRate : Z;
  apf_AdjustForBidAdjustment : bool;
  apf_EnforceDealFloors : bool;
  apf_UseDynamicData : bool;
  apf_MaxRule : Z;
  apf_MaxSchemaDims : Z;
  apf_Fetcher : AccountFloorFetch
}.

(** ** The request *)
Record Publisher := { pub_Domain : string }.
Record Site := { site_Domain : string; site_Publisher : option Publisher }.
Record App := { app_Domain : string; app_Bundle : string; app_Publisher : option Publisher }.
(** [dev_Geo] is the country of the geo object. *)
Record Device := { dev_UA : string; dev_Geo : option string }.
Record Banner := { banner_Format : list (Z * Z); banner_W : option Z; banner_H : option Z }.
Record Video := { video_Placement : Z; video_W : option Z; video_H : option Z }.

(** [imp.ext.prebid.floors] *)
Record ExtImpPrebidFloors := {
  eif_FloorRule : string;
  eif_FloorRuleValue : float64;
  eif_FloorValue : float64;
  eif_FloorMin : float64;
  eif_FloorMinCur : string
}.
(** [imp.ext.prebid]; [eip_StoredRequest] is its id. *)
Record ExtImpPrebid := { eip_StoredRequest : option string; eip_Floors : option ExtImpPrebidFloors }.
Record ExtImpData := { eid_PbAdslot : string; eid_AdServer : option (string * string) }.
Record ImpExt := { ie_Prebid : option ExtImpPrebid; ie_Data : option ExtImpData; ie_GpId : string }.

(** [imp_ExtErr] is the parse error nobody has been told of yet. *)
Record ImpWrapper := {
  imp_ID : string;
  imp_TagID : string;
  imp_BidFloor : float64;
  imp_BidFloorCur : string;
  imp_Banner : option Banner;
  imp_Video : option Video;
  imp_Audio : bool;
  imp_Native : bool;
  imp_Ext : ImpExt;
  imp_ExtErr : option string
}.

Definition set_imp_ExtErr (e : option string) (w : ImpWrapper) : ImpWrapper :=
  {| imp_ID := imp_ID w; imp_TagID := imp_TagID w; imp_BidFloor := imp_BidFloor w; imp_BidFloorCur := imp_BidFloorCur w;
     imp_Banner := imp_Banner w; imp_Video := imp_Video w; imp_Audio := imp_Audio w; imp_Native := imp_Native w;
     imp_Ext := imp_Ext w; imp_ExtErr := e |}.
Definition set_imp_Ext (x : ImpExt) (w : ImpWrapper) : ImpWrapper :=
  {| imp_ID := imp_ID w; imp_TagID := imp_TagID w; imp_BidFloor := imp_BidFloor w; imp_BidFloorCur := imp_BidFloorCur w;
     imp_Banner := imp_Banner w; imp_Video := imp_Video w; imp_Audio := imp_Audio w; imp_Native := imp_Native w;
     imp_Ext := x; imp_ExtErr := imp_ExtErr w |}.
Definition set_imp_floor (v : float64) (cur : string) (w : ImpWrapper) : ImpWrapper :=
  {| imp_ID := imp_ID w; imp_TagID := imp_TagID w; imp_BidFloor := v; imp_BidFloorCur := cur;
     imp_Banner := imp_Banner w; imp_Video := imp_Video w; imp_Audio := imp_Audio w; imp_Native := imp_Native w;
     imp_Ext := imp_Ext w; imp_ExtErr := imp_ExtErr w |}.

Definition GetImpExt (w : ImpWrapper) : ImpExt * option string * ImpWrapper :=
  (imp_Ext w, imp_ExtErr w, set_imp_ExtErr None w).

(** [request.ext.prebid]; [erp_Channel] is the channel's name. *)
Record ExtRequestPrebid := { erp_Channel : option string; erp_Floors : option PriceFloorRules }.

Record RequestWrapper := {
  rw_Site : option Site;
  rw_App : option App;
  rw_Device : option Device;
  rw_Prebid : option ExtRequestPrebid;
  rw_ExtErr : option string;
  rw_Imp : list ImpWrapper
}.

Definition set_rw_Prebid (x : option ExtRequestPrebid) (r : RequestWrapper) : RequestWrapper :=
  {| rw_Site := rw_Site r; rw_App := rw_App r; rw_Device := rw_Device r; rw_Prebid := x;
     rw_ExtErr := rw_ExtErr r; rw_Imp := rw_Imp r |}.
Definition set_rw_ExtErr (e : option string) (r : RequestWrapper) : RequestWrapper :=
  {| rw_Site := rw_Site r; rw_App := rw_App r; rw_Device := rw_Device r; rw_Prebid := rw_Prebid r;
     rw_ExtErr := e; rw_Imp := rw_Imp r |}.
Definition set_rw_Imp (imps : list ImpWrapper) (r : RequestWrapper) : RequestWrapper :=
  {| rw_Site := rw_Site r; rw_App := rw_App r; rw_Device := rw_Device r; rw_Prebid := rw_Prebid r;
     rw_ExtErr := rw_ExtErr r; rw_Imp := imps |}.

Definition GetRequestExt (r : RequestWrapper) : option ExtRequestPrebid * option string * RequestWrapper :=
  (rw_Prebid r, rw_ExtErr r, set_rw_ExtErr None r).
