(* ===== verification/FloorRules.v ===== *)
(** * Price floors, rules: src/floors/rule.go

    From the schema and the request to the rule that applies: the value of each schema field
    ([createRuleKey]), the rule keys with wildcards in order of specificity
    ([prepareRuleCombinations]) and the search ([findRule]); the choice of a model group and
    the skip rate, both from one random draw; the minimum floor. *)
From S2P Require Import Prelude GoFloat Order Currency FloorData.

Definition SiteDomain := "siteDomain".
Definition PubDomain := "pubDomain".
Definition Domain := "domain".
Definition Bundle := "bundle".
Definition Channel := "channel".
Definition MediaType := "mediaType".
Definition Size := "size".
Definition GptSlot := "gptSlot".
Definition AdUnitCode := "adUnitCode".
Definition Country := "country".
Definition DeviceType := "deviceType".
Definition Tablet := "tablet".
Definition Desktop := "desktop".
Definition Phone := "phone".
Definition BannerMedia := "banner".
Definition VideoMedia := "video".
Definition VideoOutstreamMedia := "video-outstream".
Definition AudioMedia := "audio".
Definition NativeMedia := "native".
Definition defaultCurrency := "USD".
Definition defaultDelimiter := "|".
Definition catchAll := "*".
Definition skipRateMax : Z := 100.

(** ** Rule keys *)
(** The key of a list of field values: [rawKey[0]] and then a delimiter before each of the rest.
    [None] is the panic on an empty list. *)
Definition join_key (delimiter : string) (rawKey : list string) : option string :=
  match rawKey with
  | [] => None
  | k :: rest => Some (foldl (λ key f, key +:+ delimiter +:+ f) k rest)
  end.

(** [appendRuleKey]: a key already present is not appended again; the map [keyMap] holds
    exactly the keys of the slice. *)
Record ruleKeys := { keyMap : gset string; keys : list string; delimiter : string }.
Definition newFloorRuleKeys (delimiter : string) : ruleKeys :=
  {| keyMap := ∅; keys := []; delimiter := delimiter |}.
Definition appendRuleKey (r : ruleKeys) (rawKey : list string) : option ruleKeys :=
  key ← join_key (delimiter r) rawKey;
  Some (if bool_decide (key ∈ keyMap r) then r
        else {| keyMap := {[key]} ∪ keyMap r; keys := keys r ++ [key]; delimiter := delimiter r |}).

(** [bits.OnesCount] of a 64-bit word. *)
Definition OnesCount (z : Z) : nat := length (filter (λ i : nat, Z.testbit z (Z.of_nat i) = true) (seq 0 64)).

(** The positions of the set bits among the first [n]. *)
Definition subset_of (n : nat) (subsetBits : Z) : list nat :=
  filter (λ i : nat, Z.land (Z.shiftr subsetBits (Z.of_nat i)) 1 = 1) (seq 0 n).

Definition generateCombinations (numSchemaFields numWildCard : nat) : list (list nat) :=
  let total := shl_one (Z.of_nat numSchemaFields) in
  map (subset_of numSchemaFields)
    (filter (λ b, OnesCount b = numWildCard) (seqZ 1 (total - 1))).

(** The weight of a set of wildcard positions, in [int] arithmetic. *)
Definition comb_weight (totalComb : Z) (comb : list nat) : Z :=
  foldl (λ wt k, wrap64 (wt + shl_one (totalComb - Z.of_nat k))) 0 comb.

Definition sortCombinations (comb : list (list nat)) (numSchemaFields : nat) : list (list nat) :=
  let totalComb := shl_one (Z.of_nat numSchemaFields) in
  stable_sort (λ c1 c2, comb_weight totalComb c1 <? comb_weight totalComb c2) comb.

(** [eachSet]: the fields with the positions of one combination replaced by the wildcard. *)
Definition wildcard_set (schemaFields : list string) (comb : list nat) : list string :=
  foldl (λ eachSet j, <[j := catchAll]> eachSet) schemaFields comb.

(** The combinations in the order the loops visit them, the exact key first. *)
Definition combination_order (n : nat) : list (list nat) :=
  [] :: concat (map (λ numWildCard, sortCombinations (generateCombinations n numWildCard) n) (seq 1 n)).

Fixpoint append_all (r : ruleKeys) (sets : list (list string)) : option ruleKeys :=
  match sets with
  | [] => Some r
  | s :: rest => r' ← appendRuleKey r s; append_all r' rest
  end.

Definition prepareRuleCombinations (keys0 : list string) (delim : string) : option (list string) :=
  let schemaFields := map ToLower keys0 in
  r ← append_all (newFloorRuleKeys delim)
        (map (wildcard_set schemaFields) (combination_order (length keys0)));
  Some (keys r).

Fixpoint find_key (ruleValues : gmap string float64) (ks : list string) : option string :=
  match ks with
  | [] => None
  | k :: rest => match ruleValues !! k with Some _ => Some k | None => find_key ruleValues rest end
  end.

(** [findRule]: the outer [None] is a panic, the inner one Go's [("", false)]. *)
Definition findRule (ruleValues : gmap string float64) (delim : string) (desiredRuleKey : list string)
  : option (option string) :=
  ks ← prepareRuleCombinations desiredRuleKey delim; Some (find_key ruleValues ks).

(** ** Values of the schema fields *)
(** The case-insensitive patterns of [isMobileDevice] and [isTabletDevice]: an occurrence of a
    word, and a word followed by another on the same line ([.] does not match a newline). *)
Fixpoint prefix_ci (p s : string) : bool :=
  match p, s with
  | EmptyString, _ => true
  | String a p', String b s' => Ascii.eqb (lower_ascii a) (lower_ascii b) && prefix_ci p' s'
  | _, _ => false
  end.
Fixpoint contains_ci (p s : string) : bool :=
  prefix_ci p s || match s with EmptyString => false | String _ s' => contains_ci p s' end.
Fixpoint contains_in_line (p s : string) : bool :=
  prefix_ci p s ||
  match s with
  | EmptyString => false
  | String a s' => if Ascii.eqb a "010" then false else contains_in_line p s'
  end.
Fixpoint contains_then (p q s : string) : bool :=
  (prefix_ci p s && contains_in_line q (String.substring (String.length p) (String.length s) s)) ||
  match s with EmptyString => false | String _ s' => contains_then p q s' end.

Definition isMobileDevice (userAgent : string) : bool :=
  contains_ci "Phone" userAgent || contains_ci "iPhone" userAgent ||
  contains_then "Android" "Mobile" userAgent || contains_then "Mobile" "Android" userAgent.
Definition isTabletDevice (userAgent : string) : bool :=
  contains_ci "tablet" userAgent || contains_ci "iPad" userAgent ||
  contains_then "touch" "Windows NT" userAgent || contains_then "Windows NT" "touch" userAgent ||
  contains_ci "Android" userAgent.

Definition getDeviceType (request : RequestWrapper) : string :=
  match rw_Device request with
  | None => catchAll
  | Some d =>
      if (String.length (dev_UA d) =? 0)%nat then catchAll
      else if isMobileDevice (dev_UA d) then Phone
      else if isTabletDevice (dev_UA d) then Tablet
      else Desktop
  end.

Definition getDeviceCountry (request : RequestWrapper) : string :=
  match rw_Device request ≫= dev_Geo with Some country => country | None => catchAll end.

(** The state of the five tests is [(formatCount, value)]. *)
Definition getMediaType (imp : ImpWrapper) : string :=
  let step (hit : bool) (name : string) (s : Z * string) : Z * string := if hit then (s.1 + 1, name) else s in
  let placement1 := match imp_Video imp with Some v => video_Placement v =? 1 | None => false end in
  let has_video := match imp_Video imp with Some _ => true | None => false end in
  let has_banner := match imp_Banner imp with Some _ => true | None => false end in
  let s := step has_banner BannerMedia (0, catchAll) in
  let s := step (has_video && negb placement1) VideoOutstreamMedia s in
  let s := step (has_video && placement1) VideoMedia s in
  let s := step (imp_Audio imp) AudioMedia s in
  let s := step (imp_Native imp) NativeMedia s in
  if 1 <? s.1 then catchAll else s.2.

Definition getBannerSize (b : Banner) : Z * Z :=
  match banner_Format b with
  | [fmt] => fmt
  | _ :: _ :: _ => (0, 0)
  | [] => match banner_W b, banner_H b with Some w, Some h => (w, h) | _, _ => (0, 0) end
  end.

Definition getSizeValue (imp : ImpWrapper) : string :=
  let '(width, height) :=
    match imp_Banner imp with
    | Some b => getBannerSize b
    | None => match imp_Video imp with
              | Some v => (default 0 (video_W v), default 0 (video_H v))
              | None => (0, 0)
              end
    end in
  if negb (width =? 0) && negb (height =? 0) then pretty width +:+ "x" +:+ pretty height else catchAll.

Definition nonempty (s : string) : bool := negb (String.length s =? 0)%nat.

Definition publisher_domain (p : option Publisher) : option string :=
  match p with Some p => if nonempty (pub_Domain p) then Some (pub_Domain p) else None | None => None end.

Definition getDomain (request : RequestWrapper) : string :=
  match rw_Site request with
  | Some s => if nonempty (site_Domain s) then site_Domain s
              else default catchAll (publisher_domain (site_Publisher s))
  | None =>
      match rw_App request with
      | Some a => if nonempty (app_Domain a) then app_Domain a
                  else default catchAll (publisher_domain (app_Publisher a))
      | None => catchAll
      end
  end.

Definition site_domain (r : RequestWrapper) : option string :=
  match rw_Site r with Some s => if nonempty (site_Domain s) then Some (site_Domain s) else None | None => None end.
Definition app_domain (r : RequestWrapper) : option string :=
  match rw_App r with Some a => if nonempty (app_Domain a) then Some (app_Domain a) else None | None => None end.

Definition getSiteDomain (request : RequestWrapper) : string :=
  match site_domain request with
  | Some d => d
  | None => match app_domain request with Some d => d | None => catchAll end
  end.

Definition getPublisherDomain (request : RequestWrapper) : string :=
  match rw_Site request ≫= λ s, publisher_domain (site_Publisher s) with
  | Some d => d
  | None => match rw_App request ≫= λ a, publisher_domain (app_Publisher a) with
            | Some d => d | None => catchAll end
  end.

Definition getBundle (request : RequestWrapper) : string :=
  match rw_App request with
  | Some a => if nonempty (app_Bundle a) then app_Bundle a else catchAll
  | None => catchAll
  end.

Definition getGptSlot (imp : ImpWrapper) : string * ImpWrapper :=
  let '(impExt, err, imp) := GetImpExt imp in
  (match err, ie_Data impExt with
   | None, Some extData =>
       match eid_AdServer extData with
       | Some (name, adSlot) =>
           if name =s? "gam" then (if adSlot ≠s? "" then adSlot else catchAll)
           else if eid_PbAdslot extData ≠s? "" then eid_PbAdslot extData else catchAll
       | None => if eid_PbAdslot extData ≠s? "" then eid_PbAdslot extData else catchAll
       end
   | _, _ => catchAll
   end, imp).

Definition getChannelName (request : RequestWrapper) : string * RequestWrapper :=
  let '(prebidExt, err, request) := GetRequestExt request in
  (match err, prebidExt ≫= erp_Channel with
   | None, Some name => name
   | _, _ => catchAll
   end, request).

Definition getAdUnitCode (imp : ImpWrapper) : string * ImpWrapper :=
  let '(impExt, err, imp) := GetImpExt imp in
  (if bool_decide (err = None) && (ie_GpId impExt ≠s? "") then ie_GpId impExt
   else if imp_TagID imp ≠s? "" then imp_TagID imp
   else
     let adslot := match ie_Data impExt with Some d => eid_PbAdslot d | None => "" end in
     if adslot ≠s? "" then adslot
     else
       match ie_Prebid impExt ≫= eip_StoredRequest with
       | Some id => if id ≠s? "" then id else catchAll
       | None => catchAll
       end, imp).

(** The wrappers are threaded: reading an extension takes its parse error. *)
Definition field_value (field : string) (request : RequestWrapper) (imp : ImpWrapper)
  : string * (RequestWrapper * ImpWrapper) :=
  if field =s? MediaType then (getMediaType imp, (request, imp))
  else if field =s? Size then (getSizeValue imp, (request, imp))
  else if field =s? Domain then (getDomain request, (request, imp))
  else if field =s? SiteDomain then (getSiteDomain request, (request, imp))
  else if field =s? Bundle then (getBundle request, (request, imp))
  else if field =s? PubDomain then (getPublisherDomain request, (request, imp))
  else if field =s? Country then (getDeviceCountry request, (request, imp))
  else if field =s? DeviceType then (getDeviceType request, (request, imp))
  else if field =s? Channel then let '(v, request) := getChannelName request in (v, (request, imp))
  else if field =s? GptSlot then let '(v, imp) := getGptSlot imp in (v, (request, imp))
  else if field =s? AdUnitCode then let '(v, imp) := getAdUnitCode imp in (v, (request, imp))
  else (catchAll, (request, imp)).

Fixpoint createRuleKey (fields : list string) (request : RequestWrapper) (imp : ImpWrapper)
  : list string * (RequestWrapper * ImpWrapper) :=
  match fields with
  | [] => ([], (request, imp))
  | field :: rest =>
      let '(value, (request, imp)) := field_value field request imp in
      let '(ruleKeys, s) := createRuleKey rest request imp in
      (value :: ruleKeys, s)
  end.

(** ** Rules as the documentation describes them
    A rule gives each field a value or the wildcard; it matches when every field agrees. *)
Definition rule_matches (rule fields : list string) : Prop :=
  Forall2 (λ r f, r = f ∨ r = catchAll) rule fields.

(** Which fields are wildcards. *)
Definition stars (rule : list string) : list bool := map (λ r, r =s? catchAll) rule.

Definition count_true (m : list bool) : nat := length (filter (λ b : bool, b = true) m).

(** At the leftmost difference the first rule is exact. *)
Fixpoint leftmost_exact (m1 m2 : list bool) : bool :=
  match m1, m2 with
  | false :: _, true :: _ => true
  | true :: m1, true :: m2 | false :: m1, false :: m2 => leftmost_exact m1 m2
  | _, _ => false
  end.

(** Fewer wildcards; with equally many, more exact on the left. *)
Definition spec_lt (m1 m2 : list bool) : bool :=
  (count_true m1 <? count_true m2)%nat ||
  ((count_true m1 =? count_true m2)%nat && leftmost_exact m1 m2).
Definition more_specific (r1 r2 : list string) : Prop := spec_lt (stars r1) (stars r2) = true.

(** ** Lemmas *)
Definition mask (n : nat) (c : list nat) : list bool := map (λ i, bool_decide (i ∈ c)) (seq 0 n).
Definition apply_mask (m : list bool) (fields : list string) : list string :=
  zip_with (λ (b : bool) f, if b then catchAll else f) m fields.

Lemma length_mask n c : length (mask n c) = n.
Proof. unfold mask. by rewrite length_map, length_seq. Qed.

Lemma lookup_mask n c i : (i < n)%nat → mask n c !! i = Some (bool_decide (i ∈ c)).
Proof.
  intros Hi. unfold mask. rewrite list_lookup_fmap, lookup_seq_lt by done. done.
Qed.

Lemma lookup_wildcard_set fields c i :
  wildcard_set fields c !! i =
  (λ f, if bool_decide (i ∈ c) then catchAll else f) <$> fields !! i.
Proof.
  unfold wildcard_set. revert fields. induction c as [|j c IH]; intros fields; simpl.
  - by destruct (fields !! i).
  - rewrite IH. destruct (decide (i = j)) as [->|Hne].
    + destruct (fields !! j) eqn:E.
      * rewrite list_lookup_insert_eq by (by eapply lookup_lt_Some). simpl.
        rewrite (bool_decide_eq_true_2 (j ∈ j :: c)) by set_solver. by destruct (bool_decide _).
      * rewrite lookup_ge_None_2; [done|]. rewrite length_insert. by apply lookup_ge_None.
    + rewrite list_lookup_insert_ne by done. destruct (fields !! i); [|done]. simpl. f_equal.
      rewrite (bool_decide_ext (i ∈ j :: c) (i ∈ c)); [done|]. set_solver.
Qed.

Lemma wildcard_set_mask fields c :
  wildcard_set fields c = apply_mask (mask (length fields) c) fields.
Proof.
  apply list_eq. intros i. rewrite lookup_wildcard_set. unfold apply_mask. rewrite lookup_zip_with.
  destruct (fields !! i) as [f|] eqn:E.
  - by rewrite lookup_mask by (by eapply lookup_lt_Some).
  - simpl. by destruct (mask _ _ !! i).
Qed.

(** *** The generated combinations are all of them *)
Fixpoint bits_of (m : list bool) : Z :=
  match m with [] => 0 | b :: m => Z.b2z b + 2 * bits_of m end.

Lemma bits_of_bounds m : 0 ≤ bits_of m < 2 ^ Z.of_nat (length m).
Proof.
  induction m as [|b m IH]; [simpl; lia|]. cbn [bits_of length].
  rewrite Nat2Z.inj_succ, Z.pow_succ_r by lia. destruct b; simpl; lia.
Qed.

Lemma testbit_bits_of m i : Z.testbit (bits_of m) (Z.of_nat i) = default false (m !! i).
Proof.
  revert i. induction m as [|b m IH]; intros i; [simpl; by rewrite Z.bits_0|].
  cbn [bits_of]. destruct i as [|i].
  - rewrite Z.add_comm. apply Z.testbit_0_r.
  - rewrite Nat2Z.inj_succ, Z.add_comm, Z.testbit_succ_r by lia. apply IH.
Qed.

Lemma land_shiftr_1 b i : 0 ≤ i → Z.land (Z.shiftr b i) 1 = 1 ↔ Z.testbit b i = true.
Proof.
  intros Hi. change 1 with (Z.ones 1) at 1. rewrite Z.land_ones by lia.
  change (2 ^ 1) with 2. rewrite Z.testbit_odd, (Zmod_odd (Z.shiftr b i)).
  by destruct (Z.odd (Z.shiftr b i)).
Qed.

Lemma mask_subset_bits m : mask (length m) (subset_of (length m) (bits_of m)) = m.
Proof.
  apply list_eq. intros i. destruct (m !! i) as [b|] eqn:E.
  - assert (i < length m)%nat by (by eapply lookup_lt_Some).
    rewrite lookup_mask by done. f_equal. unfold subset_of.
    rewrite (bool_decide_ext _ (b = true)).
    + by destruct b.
    + rewrite list_elem_of_filter, elem_of_seq, land_shiftr_1, testbit_bits_of, E by lia. simpl. intuition lia.
  - apply lookup_ge_None in E. apply lookup_ge_None. by rewrite length_mask.
Qed.

Lemma count_bits m k : (length m ≤ k)%nat →
  length (filter (λ i : nat, default false (m !! i) = true) (seq 0 k)) = count_true m.
Proof.
  revert k. induction m as [|b m IH]; intros k Hk.
  - induction (seq 0 k) as [|x l IHl]; [done|]. rewrite filter_cons_False; [done|]. by simpl.
  - destruct k as [|k]; [simpl in Hk; lia|]. simpl in Hk.
    change (seq 0 (S k)) with (0%nat :: seq 1 k). rewrite <-(fmap_S_seq 0 k).
    change (S <$> seq 0 k) with (map S (seq 0 k)). unfold count_true.
    rewrite !filter_cons, filter_map_comm. simpl.
    destruct b; simpl; rewrite length_map, IH by lia; done.
Qed.

Lemma OnesCount_bits m : (length m ≤ 62)%nat → OnesCount (bits_of m) = count_true m.
Proof.
  intros Hm. unfold OnesCount. rewrite <-(count_bits m 64) by lia. f_equal.
  apply list_filter_iff. intros i. by rewrite testbit_bits_of.
Qed.

Lemma count_true_le m : (count_true m ≤ length m)%nat.
Proof. apply length_filter. Qed.

Lemma count_true_0 m : count_true m = 0%nat → m = replicate (length m) false.
Proof.
  induction m as [|[] m IH]; [done|done|]. unfold count_true in *. simpl. intros H. f_equal. by apply IH.
Qed.

Lemma shl_one_small n : (n ≤ 62)%nat → shl_one (Z.of_nat n) = 2 ^ Z.of_nat n.
Proof.
  intros Hn. unfold shl_one. replace (Z.of_nat n <? 64) with true by (symmetry; apply Z.ltb_lt; lia).
  rewrite Z.shiftl_1_l. apply wrap64_id. unfold int64_range, two63.
  split; [apply Z.le_trans with 0; [lia|apply Z.pow_nonneg; lia]|].
  apply Z.le_lt_trans with (2 ^ 62); [apply Z.pow_le_mono_r; lia|done].
Qed.

Lemma combination_order_complete m :
  (length m ≤ 62)%nat → ∃ c, c ∈ combination_order (length m) ∧ mask (length m) c = m.
Proof.
  intros Hm. destruct (decide (count_true m = 0%nat)) as [H0|H0].
  - exists []. split; [unfold combination_order; set_solver|]. rewrite (count_true_0 m H0) at 2.
    unfold mask. generalize (length m). intros n. rewrite <-(length_seq n 0) at 2.
    induction (seq 0 n); [done|]. simpl. by f_equal.
  - exists (subset_of (length m) (bits_of m)). split; [|apply mask_subset_bits].
    unfold combination_order. apply elem_of_cons. right. apply list_elem_of_In, in_concat.
    exists (sortCombinations (generateCombinations (length m) (count_true m)) (length m)).
    pose proof (count_true_le m) as Hle. rewrite <-!list_elem_of_In. split.
    + apply list_elem_of_In, in_map_iff. eexists. split; [done|]. apply in_seq. lia.
    + unfold sortCombinations, generateCombinations. rewrite stable_sort_perm.
      apply list_elem_of_In, in_map, list_elem_of_In, list_elem_of_filter. split; [by apply OnesCount_bits|].
      rewrite shl_one_small by done. apply elem_of_seqZ. pose proof (bits_of_bounds m) as Hb.
      assert (bits_of m ≠ 0); [|lia]. intros Hz. apply H0. rewrite <-(OnesCount_bits m), Hz by done. done.
Qed.

(** *** The order of the combinations, up to five fields *)
(** Every combination is at least as specific as the later ones.  The order does not depend on
    the field values, so it is evaluated. *)
Definition order_sortedb (n : nat) : bool :=
  (fix go (l : list (list bool)) : bool :=
     match l with [] => true | m :: l => forallb (λ m', negb (spec_lt m' m)) l && go l end)
  (map (mask n) (combination_order n)).

Lemma combination_order_sorted n : (n ≤ 5)%nat →
  StronglySorted (λ c1 c2, spec_lt (mask n c2) (mask n c1) = false) (combination_order n).
Proof.
  intros Hn. assert (order_sortedb n = true) as H.
  { do 6 (destruct n as [|n]; [by vm_compute|]). lia. }
  unfold order_sortedb in H. revert H. generalize (combination_order n). intros l.
  induction l as [|c l IH]; simpl; [constructor|]. intros [Hc Hl]%andb_true_iff.
  constructor; [by apply IH|]. rewrite forallb_forall in Hc. apply Forall_forall. intros c' Hc'.
  apply negb_true_iff, Hc, in_map, list_elem_of_In. done.
Qed.

(** *** Masks and rules *)
(** The wildcards a rule has beyond the fields that are wildcards already. *)
Definition extra_stars (rule fields : list string) : list bool :=
  zip_with (λ r f, (r =s? catchAll) && negb (f =s? catchAll)) rule fields.

Lemma extra_stars_apply rule fields :
  rule_matches rule fields → apply_mask (extra_stars rule fields) fields = rule.
Proof.
  induction 1 as [|r f rule fields Hr _ IH]; [done|]. simpl. rewrite IH. f_equal.
  destruct (String.eqb_spec r catchAll), (String.eqb_spec f catchAll); simpl; naive_solver.
Qed.

Lemma apply_mask_matches m fields : length m = length fields → rule_matches (apply_mask m fields) fields.
Proof.
  intros Hl. apply Forall2_same_length_lookup_2 in Hl || idtac.
  revert fields Hl. induction m as [|b m IH]; intros [|f fields] Hl; simplify_eq/=; constructor; [|by apply IH].
  destruct b; auto.
Qed.

(** A rule's wildcards are its extra ones and the request's, which every rule shares. *)
Lemma spec_lt_extra r1 r2 fields :
  rule_matches r1 fields → rule_matches r2 fields →
  spec_lt (stars r1) (stars r2) = spec_lt (extra_stars r1 fields) (extra_stars r2 fields).
Proof.
  intros H1 H2.
  assert (∀ r, rule_matches r fields →
    count_true (stars r) = (count_true (extra_stars r fields) + count_true (stars fields))%nat) as Hcount.
  { clear. induction 1 as [|x f r fs Hx _ IH]; [done|]. unfold count_true, stars in *. simpl.
    destruct (String.eqb_spec x catchAll), (String.eqb_spec f catchAll); simpl; rewrite ?IH;
      first [done | lia | by destruct Hx; congruence]. }
  assert (leftmost_exact (stars r1) (stars r2) =
          leftmost_exact (extra_stars r1 fields) (extra_stars r2 fields)) as Hlex.
  { clear Hcount. revert r2 H2. induction H1 as [|x f r1 fs Hx H1 IH]; intros r2 H2;
      inversion H2 as [|y ? r2' ? Hy H2']; subst; [done|].
    simpl. destruct (String.eqb_spec x catchAll), (String.eqb_spec y catchAll), (String.eqb_spec f catchAll); simpl;
      first [by apply IH | by destruct Hx; congruence | by destruct Hy; congruence | done]. }
  unfold spec_lt. rewrite (Hcount r1 H1), (Hcount r2 H2), Hlex. f_equal.
  - apply eq_iff_eq_true. rewrite !Nat.ltb_lt. lia.
  - f_equal. apply eq_iff_eq_true. rewrite !Nat.eqb_eq. lia.
Qed.

(** Adding wildcards to a mask never makes it more specific. *)
Definition covers (m0 m1 : list bool) : Prop := Forall2 (λ b0 b1 : bool, b0 = true → b1 = true) m0 m1.

Lemma covers_count m0 m1 : covers m0 m1 → (count_true m0 < count_true m1)%nat ∨ m0 = m1.
Proof.
  unfold count_true. induction 1 as [|b0 b1 m0 m1 Hb _ IH]; [by right|]. rewrite !filter_cons.
  destruct b0, b1; simpl; try (specialize (Hb eq_refl); done); destruct IH as [?| ->]; auto; left; simpl; lia.
Qed.

Lemma spec_lt_weaken m m0 m1 : spec_lt m m0 = true → covers m0 m1 → spec_lt m m1 = true.
Proof.
  intros Hs [Hc| ->]%covers_count; [|done]. unfold spec_lt in *.
  apply orb_true_iff in Hs as [Hs|[Hs _]%andb_true_iff]; apply orb_true_iff; left.
  - apply Nat.ltb_lt in Hs. apply Nat.ltb_lt. lia.
  - apply Nat.eqb_eq in Hs. apply Nat.ltb_lt. lia.
Qed.

Lemma extra_stars_apply_mask m fields :
  length m = length fields → covers (extra_stars (apply_mask m fields) fields) m.
Proof.
  revert fields. induction m as [|b m IH]; intros [|f fields] Hl; simplify_eq/=; constructor; [|by apply IH].
  destruct b; [done|]. by destruct (String.eqb_spec f catchAll).
Qed.

(** *** The search *)
(** A key's first occurrence decides; repeated keys do not matter. *)
Lemma append_all_spec r sets ks :
  mapM (join_key (delimiter r)) sets = Some ks → keyMap r = list_to_set (keys r) →
  ∃ r', append_all r sets = Some r' ∧
    ∀ values, find_key values (keys r') = find_key values (keys r ++ ks).
Proof.
  revert r ks. induction sets as [|s sets IH]; intros r ks Hk Hr; simpl in Hk.
  - injection Hk as <-. exists r. split; [done|]. intros. by rewrite app_nil_r.
  - destruct (join_key (delimiter r) s) as [k|] eqn:Ek; [|done]. simpl in Hk.
    destruct (mapM _ sets) as [ks'|] eqn:Em; [|done]. simpl in Hk. injection Hk as <-.
    simpl. unfold appendRuleKey. rewrite Ek. simpl. destruct (bool_decide_reflect (k ∈ keyMap r)) as [Hin|Hin]; simpl.
    + destruct (IH r ks' Em Hr) as (r' & -> & Hf). exists r'. split; [done|]. intros values. rewrite Hf.
      rewrite Hr in Hin. apply elem_of_list_to_set in Hin. clear -Hin.
      induction (keys r) as [|x l IHl]; [by apply elem_of_nil in Hin|]. simpl. destruct (values !! x) eqn:Ex; [done|].
      apply elem_of_cons in Hin as [->|Hin]; [|by apply IHl].
      clear IHl. induction l as [|y l IHl]; simpl; [by rewrite Ex|]. by destruct (values !! y).
    + edestruct (IH {| keyMap := {[k]} ∪ keyMap r; keys := keys r ++ [k]; delimiter := delimiter r |})
        as (r' & -> & Hf); [exact Em| |].
      { simpl. rewrite Hr. set_solver. }
      exists r'. split; [done|]. intros values. rewrite Hf. simpl. by rewrite <-app_assoc.
Qed.

(** The joined key of a non-empty rule. *)
Definition rule_key (delim : string) (rule : list string) : string := default "" (join_key delim rule).

Lemma find_key_Some values ks k :
  find_key values ks = Some k →
  ∃ l1 l2, ks = l1 ++ k :: l2 ∧ is_Some (values !! k) ∧ ∀ k', k' ∈ l1 → values !! k' = None.
Proof.
  induction ks as [|x ks IH]; [done|]. simpl. destruct (values !! x) eqn:E.
  - intros [= <-]. exists [], ks. split_and!; [done|by eexists|]. set_solver.
  - intros (l1 & l2 & -> & Hk & Hl)%IH. exists (x :: l1), l2. split_and!; [done|done|].
    intros k' [->|?]%elem_of_cons; auto.
Qed.

Lemma find_key_None values ks : find_key values ks = None ↔ ∀ k, k ∈ ks → values !! k = None.
Proof.
  induction ks as [|x ks IH]; simpl; [set_solver|]. destruct (values !! x) eqn:E.
  - split; [done|]. intros H. rewrite (H x) in E by set_solver. done.
  - rewrite IH. set_solver.
Qed.

(** [findRule] searches the joined keys of the combinations in their order. *)
Lemma findRule_search values delim desired :
  desired ≠ [] →
  findRule values delim desired =
  Some (find_key values
    (map (λ c, rule_key delim (wildcard_set (map ToLower desired) c)) (combination_order (length desired)))).
Proof.
  intros Hne. unfold findRule, prepareRuleCombinations. set (fields := map ToLower desired).
  set (sets := map (wildcard_set fields) _).
  assert (mapM (join_key delim) sets = Some (map (rule_key delim) sets)) as Hm.
  { subst sets. generalize (combination_order (length desired)). intros l. induction l as [|c l IH]; [done|].
    cbn [map mapM]. rewrite IH. assert (wildcard_set fields c ≠ []) as Hw.
    { rewrite wildcard_set_mask. subst fields. by destruct desired. }
    unfold rule_key at 2. by destruct (wildcard_set fields c). }
  destruct (append_all_spec (newFloorRuleKeys delim) sets _ Hm) as (r' & -> & Hf); [done|].
  simpl. rewrite Hf. simpl. subst sets. by rewrite map_map.
Qed.

(** Every matching rule is the key of a combination. *)
Lemma matching_rule_combination delim fields rule :
  (length fields ≤ 62)%nat → rule_matches rule fields →
  ∃ c, c ∈ combination_order (length fields) ∧ mask (length fields) c = extra_stars rule fields ∧
    rule_key delim (wildcard_set fields c) = rule_key delim rule.
Proof.
  intros Hn Hr. pose proof (Forall2_length _ _ _ Hr) as Hlr.
  destruct (combination_order_complete (extra_stars rule fields)) as (c & Hc & Hm).
  { unfold extra_stars. rewrite length_zip_with. lia. }
  unfold extra_stars in Hc, Hm. rewrite length_zip_with, Hlr, Nat.min_id in Hc, Hm.
  exists c. split_and!; [done|done|]. rewrite wildcard_set_mask, Hm.
  by setoid_rewrite (extra_stars_apply rule fields Hr).
Qed.

Lemma wildcard_set_matches fields c : rule_matches (wildcard_set fields c) fields.
Proof. rewrite wildcard_set_mask. apply apply_mask_matches, length_mask. Qed.

Lemma spec_lt_irrefl m : spec_lt m m = false.
Proof.
  unfold spec_lt. rewrite Nat.ltb_irrefl, Nat.eqb_refl. simpl. by induction m as [|[] m IH].
Qed.

(** ** Properties *)

(** C3: with up to five schema fields, the rule found is the most specific one: it is a rule of
    the table that matches the request, and no rule of the table that matches has fewer
    wildcards, or as many and more exact fields on the left.  No rule is found only when none
    of the table matches. *)
Theorem findRule_most_specific values delim desired :
  (1 ≤ length desired ≤ 5)%nat →
  let fields := map ToLower desired in
  ∃ found, findRule values delim desired = Some found ∧
  match found with
  | Some k =>
      ∃ rule, k = rule_key delim rule ∧ rule_matches rule fields ∧ is_Some (values !! k) ∧
      ∀ rule', rule_matches rule' fields → is_Some (values !! rule_key delim rule') → ¬ more_specific rule' rule
  | None => ∀ rule, rule_matches rule fields → values !! rule_key delim rule = None
  end.
Proof.
  intros Hn fields. rewrite findRule_search by (by destruct desired; [simpl in Hn; lia|]).
  eexists. split; [done|]. fold fields. assert (length fields = length desired) as Hlen by apply length_map.
  rewrite <-Hlen in Hn |- *. set (key c := rule_key delim (wildcard_set fields c)).
  assert (∀ c l, c ∈ l → key c ∈ map key l) as Hin_map.
  { intros c l Hc. by apply list_elem_of_In, in_map, list_elem_of_In. }
  destruct (find_key values (map key _)) as [k|] eqn:E.
  - apply find_key_Some in E as (l1 & l2 & Heq & Hk & Hl1).
    apply map_eq_app in Heq as (c1 & c2' & Hord & <- & Heq).
    apply map_eq_cons in Heq as (c & c2 & -> & Hkey & <-).
    pose proof (wildcard_set_matches fields c) as Hmatch.
    exists (wildcard_set fields c). split_and!; [done..|]. intros rule' Hr' Hin Hmore.
    destruct (matching_rule_combination delim fields rule') as (c' & Hc' & Hm' & Hk'); [lia|done|].
    unfold more_specific in Hmore. rewrite (spec_lt_extra _ _ fields), wildcard_set_mask, <-Hm' in Hmore by done.
    apply (spec_lt_weaken _ _ (mask (length fields) c)) in Hmore; [|apply extra_stars_apply_mask, length_mask].
    assert (c' ∈ c1) as Hc1.
    { pose proof (combination_order_sorted (length fields) ltac:(lia)) as Hs. rewrite Hord in Hs, Hc'.
      apply (sorted_first _ c1 c2 c c' Hs Hc'); [congruence|]. intros ->. by rewrite spec_lt_irrefl in Hmore. }
    rewrite <-Hk' in Hin. destruct Hin as [v Hv]. pose proof (Hl1 (key c') (Hin_map _ _ Hc1)) as Hnone. unfold key in Hnone. congruence.
  - rewrite find_key_None in E. intros rule Hr.
    destruct (matching_rule_combination delim fields rule) as (c & Hc & _ & <-); [lia|done|]. apply E, (Hin_map c _ Hc).
Qed.

Definition site_table : gmap string float64 :=
  {["banner|*|us" := f1; "*|300x250|us" := fofZ 2; "*|*|*" := fofZ 3]}.

Lemma findRule_most_specific_witness :
  (1 ≤ length ["banner"; "300x250"; "US"] ≤ 5)%nat ∧
  findRule site_table "|" ["banner"; "300x250"; "US"] = Some (Some "banner|*|us") ∧
  ∃ found, findRule site_table "|" ["banner"; "300x250"; "US"] = Some found ∧
  match found with
  | Some k =>
      ∃ rule, k = rule_key "|" rule ∧ rule_matches rule ["banner"; "300x250"; "us"] ∧ is_Some (site_table !! k) ∧
      ∀ rule', rule_matches rule' ["banner"; "300x250"; "us"] → is_Some (site_table !! rule_key "|" rule') →
        ¬ more_specific rule' rule
  | None => ∀ rule, rule_matches rule ["banner"; "300x250"; "us"] → site_table !! rule_key "|" rule = None
  end.
Proof.
  split; [simpl; lia|]. split; [by vm_compute|].
  apply (findRule_most_specific site_table "|" ["banner"; "300x250"; "US"]). simpl. lia.
Defined.

(** Up to 62 fields the search never panics and finds a rule exactly when some rule of the
    table matches the request. *)
Theorem findRule_finds_iff_some_matches values delim desired :
  (1 ≤ length desired ≤ 62)%nat →
  ∃ found, findRule values delim desired = Some found ∧
  (is_Some found ↔
   ∃ rule, rule_matches rule (map ToLower desired) ∧ is_Some (values !! rule_key delim rule)).
Proof.
  intros Hn. rewrite findRule_search by (by destruct desired; [simpl in Hn; lia|]).
  eexists. split; [done|]. set (fields := map ToLower desired).
  assert (length fields = length desired) as Hlen by apply length_map. split.
  - intros [k Hk]. apply find_key_Some in Hk as (l1 & l2 & Heq & Hk & _).
    assert (k ∈ l1 ++ k :: l2) as Hin by set_solver. rewrite <-Heq in Hin.
    apply list_elem_of_In, in_map_iff in Hin as (c & <- & _).
    exists (wildcard_set fields c). split; [apply wildcard_set_matches|done].
  - intros (rule & Hr & [v Hv]).
    destruct (matching_rule_combination delim fields rule) as (c & Hc & _ & Hk); [lia|done|].
    apply not_eq_None_Some. rewrite find_key_None. intros Hnone.
    rewrite <-Hk, Hnone in Hv; [done|]. apply list_elem_of_In, in_map_iff.
    exists c. rewrite <-list_elem_of_In, <-Hlen. done.
Qed.

Lemma findRule_finds_iff_some_matches_witness :
  ∃ found, findRule site_table "|" ["video"; "640x480"; "DE"] = Some found ∧
  (is_Some found ↔
   ∃ rule, rule_matches rule (map ToLower ["video"; "640x480"; "DE"]) ∧ is_Some (site_table !! rule_key "|" rule)).
Proof. apply (findRule_finds_iff_some_matches site_table "|" ["video"; "640x480"; "DE"]). simpl. lia. Defined.

(** With six fields the weights of [sortCombinations] leave the 64-bit range (the shift
    counts are [64 - k]), and the search prefers a rule with a wildcard in the second field to a
    matching rule of the same table that is exact there. *)
Theorem six_fields_break_specificity :
  let values : gmap string float64 := {["a|*|c|d|e|f" := f1; "a|b|c|d|e|*" := fofZ 2]} in
  let fields := ["a"; "b"; "c"; "d"; "e"; "f"] in
  findRule values "|" fields = Some (Some (rule_key "|" ["a"; "*"; "c"; "d"; "e"; "f"])) ∧
  is_Some (values !! rule_key "|" ["a"; "b"; "c"; "d"; "e"; "*"]) ∧
  rule_matches ["a"; "b"; "c"; "d"; "e"; "*"] fields ∧
  more_specific ["a"; "b"; "c"; "d"; "e"; "*"] ["a"; "*"; "c"; "d"; "e"; "f"] ∧
  map (comb_weight (shl_one 6)) [[0]; [1]; [5]]%nat = [0; - two63; 2 ^ 59].
Proof.
  split_and!; [by vm_compute|vm_compute; by eexists| |by vm_compute|by vm_compute].
  repeat (apply Forall2_cons_2; [first [by left|by right]|]). constructor.
Qed.
