(* ===== verification/Floors.v ===== *)
(** * Price floors, selection and signalling: src/floors/floors.go, validate.go, rule.go

    Where the floors of a request come from (the request, a fetched document, or both merged),
    their validation, the choice of one model group, and the update of every impression's
    [bidfloor] with the rule that applies.  The random draws of [rand.Intn] are arguments; the
    fetcher is an interface. *)
From S2P Require Import Prelude GoFloat Order Currency FloorData FloorRules.

Definition skipRateMin : Z := 0.
Definition modelWeightMax : Z := 100.
Definition modelWeightMin : Z := 1.
Definition dataRateMin : Z := 0.
Definition dataRateMax : Z := 100.

(** The errors of the package; [E_conversion] and [E_ext] wrap those of other code. *)
Inductive floor_error :=
| E_emptyRequest
| E_disabled
| E_schemaDimension (field : string)
| E_noModelGroup
| E_schemaDims (version : string) (dims : Z)
| E_maxRules (version : string) (rules : Z)
| E_groupSkipRate (version : string) (rate : Z)
| E_modelWeight (version : string) (weight : Z)
| E_default (version : string)
| E_schemaVersion (version : Z)
| E_dataSkipRate (rate : Z)
| E_rootSkipRate (rate : Z)
| E_floorMin
| E_invalidRule (key : string)
| E_conversion (e : cur_error)
| E_ext (e : string).

(** [math.Round(in*10000) / 10000] *)
Definition roundToFourDecimals (x : float64) : float64 := fdiv (fround (fmul x (fofZ 10000))) (fofZ 10000).

(** ** validate.go *)
Definition validSchemaDimensions : list string :=
  [SiteDomain; PubDomain; Domain; Bundle; Channel; MediaType; Size; GptSlot; AdUnitCode; Country; DeviceType].

Fixpoint validateSchemaDimensions (fields : list string) : option floor_error :=
  match fields with
  | [] => None
  | f :: rest => if existsb (String.eqb f) validSchemaDimensions then validateSchemaDimensions rest
                 else Some (E_schemaDimension f)
  end.

(** [strings.Split] for a separator that is not empty. *)
Fixpoint split_from (sep s cur : string) (skip : nat) : list string :=
  match s with
  | EmptyString => [cur]
  | String a rest =>
      match skip with
      | S k => split_from sep rest cur k
      | O => if String.prefix sep s then cur :: split_from sep rest "" (pred (String.length sep))
             else split_from sep rest (cur +:+ String a "") 0
      end
  end.
Definition Split (s sep : string) : list string := split_from sep s "" 0.

(** One visit of the loop: the state is the map, changed in place, and the errors. *)
Definition validate_rule (nfields : nat) (delim : string) (s : gmap string float64 * list floor_error)
    (key : string) : gmap string float64 * list floor_error :=
  let '(ruleValues, errs) := s in
  match ruleValues !! key with
  | None => s
  | Some val =>
      if negb (length (Split key delim) =? nfields)%nat
      then (delete key ruleValues, errs ++ [E_invalidRule key])
      else
        let lowerKey := ToLower key in
        if key =s? lowerKey then s else (<[lowerKey := val]> (delete key ruleValues), errs)
  end.

Definition validateFloorRulesAndLowerValidRuleKey `{MapVisit} (schema : PriceFloorSchema) (delim : string)
    (ruleValues : gmap string float64) : gmap string float64 * list floor_error :=
  foldl (validate_rule (length (ps_Fields schema)) delim) (ruleValues, []) (map_visit ruleValues).

Definition out_of_range (lo hi z : Z) : bool := (z <? lo) || (hi <? z).

Definition validateFloorParams (ext : PriceFloorRules) : option floor_error :=
  let data_error :=
    match pf_Data ext with
    | None => None
    | Some d =>
        if negb (pd_FloorsSchemaVersion d =? 0) && negb (pd_FloorsSchemaVersion d =? 2)
        then Some (E_schemaVersion (pd_FloorsSchemaVersion d))
        else if out_of_range skipRateMin skipRateMax (pd_SkipRate d) then Some (E_dataSkipRate (pd_SkipRate d))
        else None
    end in
  match data_error with
  | Some e => Some e
  | None =>
      if out_of_range skipRateMin skipRateMax (pf_SkipRate ext) then Some (E_rootSkipRate (pf_SkipRate ext))
      else if fltb (pf_FloorMin ext) f0 then Some E_floorMin
      else None
  end.

(** The checks of one model group, in order. *)
Definition group_error (account : AccountPriceFloors) (g : PriceFloorModelGroup) : option floor_error :=
  let dims := Z.of_nat (length (ps_Fields (mg_Schema g))) in
  let rules := Z.of_nat (size (mg_Values g)) in
  match validateSchemaDimensions (ps_Fields (mg_Schema g)) with
  | Some e => Some e
  | None =>
      if (0 <? apf_MaxSchemaDims account) && (apf_MaxSchemaDims account <? dims)
      then Some (E_schemaDims (mg_ModelVersion g) dims)
      else if (0 <? apf_MaxRule account) && (apf_MaxRule account <? rules)
      then Some (E_maxRules (mg_ModelVersion g) rules)
      else if out_of_range skipRateMin skipRateMax (mg_SkipRate g)
      then Some (E_groupSkipRate (mg_ModelVersion g) (mg_SkipRate g))
      else match mg_ModelWeight g with
           | Some w => if out_of_range modelWeightMin modelWeightMax w
                       then Some (E_modelWeight (mg_ModelVersion g) w)
                       else if fltb (mg_Default g) f0 then Some (E_default (mg_ModelVersion g)) else None
           | None => if fltb (mg_Default g) f0 then Some (E_default (mg_ModelVersion g)) else None
           end
  end.

Fixpoint valid_groups (account : AccountPriceFloors) (groups : list PriceFloorModelGroup)
  : list PriceFloorModelGroup * list floor_error :=
  match groups with
  | [] => ([], [])
  | g :: rest =>
      let '(valid, errs) := valid_groups account rest in
      match group_error account g with
      | Some e => (valid, e :: errs)
      | None => (g :: valid, errs)
      end
  end.

Definition selectValidFloorModelGroups (modelGroups : list PriceFloorModelGroup) (account : AccountPriceFloors)
  : list PriceFloorModelGroup * list floor_error :=
  match modelGroups with
  | [] => ([], [E_noModelGroup])
  | _ => valid_groups account modelGroups
  end.

(** ** rule.go: model group, skip rate, minimum floor *)
Definition with_weight (g : PriceFloorModelGroup) : PriceFloorModelGroup :=
  match mg_ModelWeight g with None => set_mg_ModelWeight (Some 1) g | Some _ => g end.
Definition weight (g : PriceFloorModelGroup) : Z := default 0 (mg_ModelWeight g).

Fixpoint pick_group (winWeight : Z) (groups : list PriceFloorModelGroup) : option PriceFloorModelGroup :=
  match groups with
  | [] => None
  | g :: rest =>
      let winWeight := winWeight - weight g in
      if winWeight <=? 0 then Some g else pick_group winWeight rest
  end.

(** The one element of the slice returned; [None] is the slice expression's panic on an empty
    slice.  The final return is the first group. *)
Definition selectFloorModelGroup (modelGroups : list PriceFloorModelGroup) (f : Z → Z)
  : option PriceFloorModelGroup :=
  let modelGroups := map with_weight modelGroups in
  let totalModelWeight := foldl (λ t g, t + weight g) 0 modelGroups in
  let modelGroups := stable_sort (λ g1 g2, weight g1 <? weight g2) modelGroups in
  match pick_group (f (totalModelWeight + 1)) modelGroups with
  | Some g => Some g
  | None => head modelGroups
  end.

Definition shouldSkipFloors (ModelGroupsSkipRate DataSkipRate RootSkipRate : Z) (f : Z → Z) : bool :=
  let skipRate :=
    if 0 <? ModelGroupsSkipRate then ModelGroupsSkipRate
    else if 0 <? DataSkipRate then DataSkipRate
    else RootSkipRate in
  if skipRate =? 0 then false else f (skipRateMax + 1) <=? skipRate.

Definition getFloorCurrency (floorExt : option PriceFloorRules) : string :=
  match floorExt ≫= pf_Data with
  | None => defaultCurrency
  | Some d =>
      let floorCur := if pd_Currency d ≠s? "" then pd_Currency d else defaultCurrency in
      match pd_ModelGroups d with
      | g :: _ => if mg_Currency g ≠s? "" then mg_Currency g else floorCur
      | [] => floorCur
      end
  end.

Definition getFloorMinAndCurFromImp (imp : ImpWrapper) : float64 * string * option string * ImpWrapper :=
  let '(impExt, err, imp) := GetImpExt imp in
  match ie_Prebid impExt ≫= eip_Floors with
  | Some fl => (if fltb f0 (eif_FloorMin fl) then eif_FloorMin fl else f0, eif_FloorMinCur fl, err, imp)
  | None => (f0, "", err, imp)
  end.

Definition getMinFloorValue (floorExt : PriceFloorRules) (imp : ImpWrapper) (conversions : Conversions)
  : result floor_error (float64 * string) * ImpWrapper :=
  let floorMin := roundToFourDecimals (pf_FloorMin floorExt) in
  let '(impFloorMin, impFloorCur, err, imp) := getFloorMinAndCurFromImp imp in
  match err with
  | Some e => (Err (E_ext e), imp)
  | None =>
      let floorMin := if fltb f0 impFloorMin then impFloorMin else floorMin in
      let floorMinCur := if impFloorCur ≠s? "" then impFloorCur else pf_FloorMinCur floorExt in
      let floorCur := getFloorCurrency (Some floorExt) in
      let converted :=
        if fltb f0 floorMin && (floorMinCur ≠s? "") && (floorCur ≠s? "") && (floorMinCur ≠s? floorCur) then
          match GetRate conversions floorMinCur floorCur with
          | Ok rate => Ok (fmul rate floorMin)
          | Err e => Err (E_conversion e)
          end
        else Ok floorMin in
      (let? v := converted in Ok (roundToFourDecimals v, floorCur), imp)
  end.

Definition updateImpExtWithFloorDetails (imp : ImpWrapper) (matchedRule : string) (floorRuleVal floorVal : float64)
  : option floor_error * ImpWrapper :=
  let '(impExt, err, imp) := GetImpExt imp in
  match err with
  | Some e => (Some (E_ext e), imp)
  | None =>
      let prebid := {| eip_StoredRequest := ie_Prebid impExt ≫= eip_StoredRequest;
                       eip_Floors := Some {| eif_FloorRule := matchedRule; eif_FloorRuleValue := floorRuleVal;
                                             eif_FloorValue := floorVal; eif_FloorMin := f0; eif_FloorMinCur := "" |} |} in
      (None, set_imp_Ext {| ie_Prebid := Some prebid; ie_Data := ie_Data impExt; ie_GpId := ie_GpId impExt |} imp)
  end.

(** ** floors.go *)
(** [getMinFloorValue] and the update of one impression: the body of the loop. *)
Definition floor_imp (ext : PriceFloorRules) (modelGroup : PriceFloorModelGroup) (delim : string)
    (conversions : Conversions) (request : RequestWrapper) (imp : ImpWrapper)
  : option (list floor_error * RequestWrapper * ImpWrapper) :=
  let '(desiredRuleKey, (request, imp)) := createRuleKey (ps_Fields (mg_Schema modelGroup)) request imp in
  matched ← findRule (mg_Values modelGroup) delim desiredRuleKey;
  let floorVal := match matched with
                  | Some k => default f0 (mg_Values modelGroup !! k)
                  | None => mg_Default modelGroup
                  end in
  if feqb floorVal f0 then Some ([], request, imp)
  else
    match getMinFloorValue ext imp conversions with
    | (Err e, imp) => Some ([e], request, imp)
    | (Ok (floorMinVal, floorCur), imp) =>
        let floorVal := roundToFourDecimals floorVal in
        let bidFloor := if fltb f0 floorMinVal && fltb floorVal floorMinVal then floorMinVal else floorVal in
        let imp := set_imp_floor bidFloor floorCur imp in
        match matched with
        | None => Some ([], request, imp)
        | Some k =>
            let '(err, imp) := updateImpExtWithFloorDetails imp k floorVal bidFloor in
            Some (match err with Some e => [e] | None => [] end, request, imp)
        end
    end.

(** The loop over the impressions; [None] is a panic. *)
Fixpoint floor_imps (ext : PriceFloorRules) (modelGroup : PriceFloorModelGroup) (delim : string)
    (conversions : Conversions) (request : RequestWrapper) (imps : list ImpWrapper)
  : option (list floor_error * RequestWrapper * list ImpWrapper) :=
  match imps with
  | [] => Some ([], request, [])
  | imp :: rest =>
      '(errs, request, imp) ← floor_imp ext modelGroup delim conversions request imp;
      '(errs', request, imps) ← floor_imps ext modelGroup delim conversions request rest;
      Some (errs ++ errs', request, imp :: imps)
  end.

(** The delimiter in use, ["|"] when the schema names none. *)
Definition group_delimiter (g : PriceFloorModelGroup) : string :=
  if ps_Delimiter (mg_Schema g) =s? "" then defaultDelimiter else ps_Delimiter (mg_Schema g).

(** [updateBidRequestWithFloors] returns its errors, the request, and the floors object, whose
    [Skipped] and whose first group's values it changes in place. *)
Definition updateBidRequestWithFloors `{MapVisit} (extFloorRules : PriceFloorRules) (request : RequestWrapper)
    (conversions : Conversions) (intn : Z → Z)
  : option (list floor_error * RequestWrapper * PriceFloorRules) :=
  match pf_Data extFloorRules with
  | None => Some ([], request, extFloorRules)
  | Some data =>
      match pd_ModelGroups data with
      | [] => Some ([], request, extFloorRules)
      | modelGroup :: groups =>
          let delim := group_delimiter modelGroup in
          if shouldSkipFloors (mg_SkipRate modelGroup) (pd_SkipRate data) (pf_SkipRate extFloorRules) intn
          then Some ([], request, set_pf_Skipped (Some true) extFloorRules)
          else
            let '(values, errs) :=
              validateFloorRulesAndLowerValidRuleKey (mg_Schema modelGroup) delim (mg_Values modelGroup) in
            let modelGroup := set_mg_Values values modelGroup in
            let ext := set_pf_Skipped (Some false)
              (set_pf_Data (Some (set_pd_ModelGroups (modelGroup :: groups) data)) extFloorRules) in
            if (size values =? 0)%nat then Some (errs, request, ext)
            else
              '(errs', request, imps) ← floor_imps ext modelGroup delim conversions request (rw_Imp request);
              Some (errs ++ errs', set_rw_Imp imps request, ext)
      end
  end.

Definition isPriceFloorsEnabledForRequest (r : RequestWrapper) : bool * RequestWrapper :=
  let '(prebidExt, err, r) := GetRequestExt r in
  (match err, prebidExt ≫= erp_Floors with
   | None, Some fl => GetEnabled (Some fl)
   | _, _ => true
   end, r).

(** The conjunction is lazy: a disabled account never reads the request. *)
Definition isPriceFloorsEnabled (account : AccountPriceFloors) (r : RequestWrapper) : bool * RequestWrapper :=
  if apf_Enabled account then isPriceFloorsEnabledForRequest r else (false, r).

Definition useFetchedData (rate : option Z) (intn : Z → Z) : bool :=
  match rate with None => true | Some r => intn dataRateMax <? r end.

(** [createFloorsFrom]: the errors of invalid groups are returned only when no group is valid. *)
Definition createFloorsFrom (floors : option PriceFloorRules) (account : AccountPriceFloors)
    (fetchStatus floorLocation : string) (intn : Z → Z) : PriceFloorRules * list floor_error :=
  let finalFloors enforcement :=
    {| pf_FloorMin := f0; pf_FloorMinCur := ""; pf_SkipRate := 0; pf_Location := None; pf_Data := None;
       pf_Enforcement := enforcement; pf_Enabled := None; pf_Skipped := None; pf_FloorProvider := "";
       pf_FetchStatus := fetchStatus; pf_PriceFloorLocation := floorLocation |} in
  match floors with
  | None => (finalFloors None, [])
  | Some fl =>
      match validateFloorParams fl with
      | Some e => (finalFloors None, [e])
      | None =>
          match pf_Data fl with
          | None => (finalFloors (pf_Enforcement fl), [])
          | Some d =>
              let '(valid, errs) := selectValidFloorModelGroups (pd_ModelGroups d) account in
              let chosen := match valid with
                            | [] => None
                            | [g] => Some g
                            | _ => selectFloorModelGroup valid intn
                            end in
              match chosen with
              | None => (finalFloors (pf_Enforcement fl), errs)
              | Some g =>
                  ({| pf_FloorMin := pf_FloorMin fl; pf_FloorMinCur := pf_FloorMinCur fl; pf_SkipRate := pf_SkipRate fl;
                      pf_Location := pf_Location fl; pf_Data := Some (set_pd_ModelGroups [g] d);
                      pf_Enforcement := pf_Enforcement fl; pf_Enabled := pf_Enabled fl; pf_Skipped := pf_Skipped fl;
                      pf_FloorProvider := pf_FloorProvider fl; pf_FetchStatus := fetchStatus;
                      pf_PriceFloorLocation := floorLocation |}, [])
              end
          end
      end
  end.

Definition extractFloorsFromRequest (r : RequestWrapper) : option PriceFloorRules * RequestWrapper :=
  let '(prebidExt, err, r) := GetRequestExt r in
  (match err with None => prebidExt ≫= erp_Floors | Some _ => None end, r).

Definition updateFloorsInRequest (r : RequestWrapper) (priceFloors : PriceFloorRules) : RequestWrapper :=
  let '(prebidExt, err, r) := GetRequestExt r in
  match err with
  | None => set_rw_Prebid (Some {| erp_Channel := prebidExt ≫= erp_Channel; erp_Floors := Some priceFloors |}) r
  | Some _ => r
  end.

Record Price := { price_FloorMin : float64; price_FloorMinCur : string }.

(** The minimum and its currency as one side states them. *)
Definition own_floor_min (f : option PriceFloorRules) : float64 * string :=
  match f with
  | None => (f0, "")
  | Some fl =>
      (pf_FloorMin fl,
       if (String.length (pf_FloorMinCur fl) =? 0)%nat
       then match pf_Data fl with Some d => pd_Currency d | None => pf_FloorMinCur fl end
       else pf_FloorMinCur fl)
  end.

Definition resolveFloorMin (reqFloors fetchFloors : option PriceFloorRules) (conversions : Conversions) : Price :=
  let '(requestFloorMin, requestFloorMinCur) := own_floor_min reqFloors in
  let '(providerFloorMin, providerFloorMinCur) := own_floor_min fetchFloors in
  let provider_side :=
    if nonempty providerFloorMinCur && fltb f0 providerFloorMin
    then {| price_FloorMin := providerFloorMin; price_FloorMinCur := providerFloorMinCur |}
    else if nonempty providerFloorMinCur && fltb f0 requestFloorMin
    then {| price_FloorMin := requestFloorMin; price_FloorMinCur := providerFloorMinCur |}
    else {| price_FloorMin := requestFloorMin; price_FloorMinCur := requestFloorMinCur |} in
  if nonempty requestFloorMinCur then
    if fltb f0 requestFloorMin then {| price_FloorMin := requestFloorMin; price_FloorMinCur := requestFloorMinCur |}
    else if fltb f0 providerFloorMin then
      if (providerFloorMinCur =s? requestFloorMinCur) || negb (nonempty providerFloorMinCur)
      then {| price_FloorMin := providerFloorMin; price_FloorMinCur := requestFloorMinCur |}
      else match GetRate conversions providerFloorMinCur requestFloorMinCur with
           | Err _ => {| price_FloorMin := f0; price_FloorMinCur := requestFloorMinCur |}
           | Ok rate => {| price_FloorMin := roundToFourDecimals (fmul rate providerFloorMin);
                           price_FloorMinCur := requestFloorMinCur |}
           end
    else provider_side
  else provider_side.

(** Merging works on a deep copy of the fetched floors, so neither argument changes. *)
Definition mergeFloors (reqFloors : option PriceFloorRules) (fetchFloors : PriceFloorRules)
    (conversions : Conversions) : PriceFloorRules :=
  let enabled := Some (GetEnabled (Some fetchFloors) && GetEnabled reqFloors) in
  let merged enforcement floorMin floorMinCur location :=
    {| pf_FloorMin := floorMin; pf_FloorMinCur := floorMinCur; pf_SkipRate := pf_SkipRate fetchFloors;
       pf_Location := location; pf_Data := pf_Data fetchFloors; pf_Enforcement := enforcement; pf_Enabled := enabled;
       pf_Skipped := pf_Skipped fetchFloors; pf_FloorProvider := pf_FloorProvider fetchFloors;
       pf_FetchStatus := pf_FetchStatus fetchFloors; pf_PriceFloorLocation := pf_PriceFloorLocation fetchFloors |} in
  match reqFloors with
  | None => merged (pf_Enforcement fetchFloors) (pf_FloorMin fetchFloors) (pf_FloorMinCur fetchFloors) (pf_Location fetchFloors)
  | Some req =>
      let enforcement := match pf_Enforcement req with Some e => Some e | None => pf_Enforcement fetchFloors end in
      let price := resolveFloorMin reqFloors (Some fetchFloors) conversions in
      let '(floorMin, floorMinCur) :=
        if fltb f0 (price_FloorMin price) then (price_FloorMin price, price_FloorMinCur price)
        else (pf_FloorMin fetchFloors, pf_FloorMinCur fetchFloors) in
      let location := match pf_Location req with
                      | Some url => if url ≠s? "" then Some url else pf_Location fetchFloors
                      | None => pf_Location fetchFloors
                      end in
      merged enforcement floorMin floorMinCur location
  end.

(** What the floors package needs of the fetcher ([Fetch] of [floors/fetcher.go]): a success
    comes with data. *)
Class FloorFetcher := {
  Fetch : AccountPriceFloors → option PriceFloorRules * string;
  Fetch_success : ∀ cfg r, Fetch cfg = (Some r, FetchSuccess) → is_Some (pf_Data r)
}.

(** [account.PriceFloors.Fetcher] with the request's URL and the account's id. *)
Definition set_Fetcher (url accountID : string) (a : AccountPriceFloors) : AccountPriceFloors :=
  let f := apf_Fetcher a in
  {| apf_Enabled := apf_Enabled a; apf_EnforceFloorsRate := apf_EnforceFloorsRate a;
     apf_AdjustForBidAdjustment := apf_AdjustForBidAdjustment a; apf_EnforceDealFloors := apf_EnforceDealFloors a;
     apf_UseDynamicData := apf_UseDynamicData a; apf_MaxRule := apf_MaxRule a;
     apf_MaxSchemaDims := apf_MaxSchemaDims a;
     apf_Fetcher := {| aff_Enabled := aff_Enabled f; aff_URL := url; aff_Timeout := aff_Timeout f;
                       aff_MaxFileSizeKB := aff_MaxFileSizeKB f; aff_MaxRules := aff_MaxRules f;
                       aff_MaxAge := aff_MaxAge f; aff_Period := aff_Period f;
                       aff_MaxSchemaDims := aff_MaxSchemaDims f; aff_AccountID := accountID |} |}.

(** The draws of one call: whether to use fetched data, which group, whether to skip. *)
Record draws := { draw_fetch : Z → Z; draw_model : Z → Z; draw_skip : Z → Z }.

(** [fetcher] is [None] for a nil fetcher.  The status is [FetchSuccess] only with a document. *)
Definition resolveFloors (accountID : string) (account : AccountPriceFloors) (r : RequestWrapper) (conversions : Conversions)
    (fetcher : option FloorFetcher) (d : draws) : PriceFloorRules * list floor_error * RequestWrapper :=
  let '(reqFloor, r) := extractFloorsFromRequest r in
  let url := match reqFloor ≫= pf_Location with
             | Some url => if nonempty url then url else aff_URL (apf_Fetcher account)
             | None => aff_URL (apf_Fetcher account)
             end in
  let account := set_Fetcher url accountID account in
  let '(fetchResult, fetchStatus) :=
    match fetcher with
    | Some ff => if apf_UseDynamicData account then Fetch (FloorFetcher:=ff) account else (None, "")
    | None => (None, "")
    end in
  let from_request :=
    match reqFloor with
    | Some _ => createFloorsFrom reqFloor account FetchNone RequestLocation (draw_model d)
    | None => createFloorsFrom None account FetchNone NoDataLocation (draw_model d)
    end in
  match fetchResult with
  | Some fl =>
      if (fetchStatus =s? FetchSuccess) && useFetchedData (pf_Data fl ≫= pd_UseFetchDataRate) (draw_fetch d)
      then (createFloorsFrom (Some (mergeFloors reqFloor fl conversions)) account fetchStatus FetchLocation (draw_model d), r)
      else (from_request, r)
  | None => (from_request, r)
  end.

Definition EnrichWithPriceFloors `{MapVisit} (request : option RequestWrapper) (accountID : string) (account : AccountPriceFloors)
    (conversions : Conversions) (fetcher : option FloorFetcher) (d : draws)
  : option (list floor_error * option RequestWrapper) :=
  match request with
  | None => Some ([E_emptyRequest], None)
  | Some r =>
      let '(enabled, r) := isPriceFloorsEnabled account r in
      if negb enabled then Some ([E_disabled], Some r)
      else
        let '(floors, errs, r) := resolveFloors accountID account r conversions fetcher d in
        '(updateErrs, r, floors) ← updateBidRequestWithFloors floors r conversions (draw_skip d);
        Some (errs ++ updateErrs, Some (updateFloorsInRequest r floors))
  end.

(** ** Lemmas *)
(** *** Rule keys *)
Lemma split_from_ToLower sep s cur cur' skip :
  caseless sep → length (split_from sep (ToLower s) cur skip) = length (split_from sep s cur' skip).
Proof.
  intros Hc. revert cur cur' skip. induction s as [|a s IH]; intros cur cur' skip; [done|].
  pose proof (prefix_ToLower sep (String a s) Hc) as Hp. unfold ToLower in *.
  cbn [string_map split_from] in *. destruct skip as [|k]; [|by apply IH].
  rewrite Hp. destruct (String.prefix sep (String a s)); cbn [length]; [f_equal|]; apply IH.
Qed.

Lemma length_Split_ToLower s sep : caseless sep → length (Split (ToLower s) sep) = length (Split s sep).
Proof. apply split_from_ToLower. Qed.

Lemma length_Split_pos s sep : (0 < length (Split s sep))%nat.
Proof.
  unfold Split. assert (∀ cur skip, (0 < length (split_from sep s cur skip))%nat) as H; [|apply H].
  induction s as [|a s IH]; intros cur skip; cbn [split_from length]; [lia|]. destruct skip; [|apply IH].
  destruct (String.prefix sep _); cbn [length]; [lia|apply IH].
Qed.

Section ValidateRules.
Context (nfields : nat) (delim : string) (values : gmap string float64).
Hypothesis Hdelim : caseless delim.
Hypothesis Hdistinct : ∀ k k', is_Some (values !! k) → is_Some (values !! k') → ToLower k = ToLower k' → k = k'.

Definition valid_rule (k : string) : Prop := length (Split k delim) = nfields.
#[local] Instance valid_rule_dec k : Decision (valid_rule k).
Proof. unfold valid_rule. apply _. Defined.

(** Where the value of an initial key is after the keys of [seen] were visited. *)
Definition image (seen : list string) (k0 : string) : option string :=
  if decide (k0 ∈ seen) then if decide (valid_rule k0) then Some (ToLower k0) else None else Some k0.

Definition map_inv (seen : list string) (m : gmap string float64) : Prop :=
  ∀ k v, m !! k = Some v ↔ ∃ k0, values !! k0 = Some v ∧ image seen k0 = Some k.
Definition errs_inv (seen : list string) (errs : list floor_error) : Prop :=
  ∀ e, e ∈ errs ↔ ∃ k, e = E_invalidRule k ∧ is_Some (values !! k) ∧ k ∈ seen ∧ ¬ valid_rule k.

Lemma image_lower seen k0 k : image seen k0 = Some k → ToLower k0 = ToLower k.
Proof. unfold image. repeat case_decide; intros [= <-]; [by rewrite ToLower_idemp|done]. Qed.

Lemma image_unseen seen x : x ∉ seen → image seen x = Some x.
Proof. intros. unfold image. by rewrite decide_False. Qed.

Lemma image_cons_ne seen x k0 : k0 ≠ x → image (x :: seen) k0 = image seen k0.
Proof. intros. unfold image. destruct (decide (k0 ∈ seen)), (decide (k0 ∈ x :: seen)); set_solver. Qed.

Lemma image_cons_eq seen x :
  image (x :: seen) x = if decide (valid_rule x) then Some (ToLower x) else None.
Proof. unfold image. by rewrite decide_True by set_solver. Qed.

(** Visiting a key that is not an unvisited initial key changes nothing. *)
Lemma inv_skip seen m errs x :
  map_inv seen m → errs_inv seen errs → (is_Some (values !! x) → x ∈ seen) →
  map_inv (x :: seen) m ∧ errs_inv (x :: seen) errs.
Proof.
  intros Hm He Hx. assert (∀ k0, is_Some (values !! k0) → (k0 ∈ x :: seen ↔ k0 ∈ seen)) as Hs by set_solver.
  split.
  - intros k v. rewrite (Hm k v). unfold image. split; intros (k0 & Hk0 & Hi); exists k0; split; try done;
      specialize (Hs k0 ltac:(by eexists)); destruct (decide (k0 ∈ seen)), (decide (k0 ∈ x :: seen)); tauto.
  - intros e. rewrite (He e). split; intros (k & -> & Hk & Hin & Hv); exists k; split_and!; try done; by apply Hs.
Qed.

(** Before [x] is visited its entry is the only one with its lower-case form. *)
Lemma map_inv_unseen seen m x val k v :
  map_inv seen m → values !! x = Some val → x ∉ seen → m !! k = Some v → ToLower k = ToLower x → k = x.
Proof.
  intros Hm Hx Hseen (k0 & Hk0 & Hi)%Hm Hl. pose proof (image_lower _ _ _ Hi) as Hl0.
  assert (k0 = x) as -> by (apply Hdistinct; [by eexists..|congruence]).
  rewrite image_unseen in Hi by done. congruence.
Qed.

(** Visiting [x] moves its value to its new place and touches no other entry. *)
Lemma map_inv_visit seen m m' x val :
  map_inv seen m → values !! x = Some val → x ∉ seen →
  (∀ k v, m' !! k = Some v ↔
    (ToLower k ≠ ToLower x ∧ m !! k = Some v) ∨ (image (x :: seen) x = Some k ∧ v = val)) →
  map_inv (x :: seen) m'.
Proof.
  intros Hm Hx Hseen Hm' k v. rewrite Hm'. split.
  - intros [[Hl (k0 & Hk0 & Hi)%Hm]|[Hi ->]]; [|by exists x]. exists k0. split; [done|].
    rewrite image_cons_ne; [done|]. intros ->. by apply image_lower in Hi.
  - intros (k1 & Hk1 & Hi). destruct (decide (k1 = x)) as [->|Hne]; [right; split; congruence|left].
    rewrite image_cons_ne in Hi by done. split; [|apply Hm; by exists k1].
    rewrite <-(image_lower _ _ _ Hi). intros Hl. apply Hne, Hdistinct; [by eexists..|done].
Qed.

Lemma map_inv_lower seen m x val :
  map_inv seen m → values !! x = Some val → x ∉ seen → valid_rule x →
  map_inv (x :: seen) (<[ToLower x := val]> (delete x m)).
Proof.
  intros Hm Hx Hseen Hv. apply (map_inv_visit seen m _ x val); [done..|]. intros k v.
  rewrite image_cons_eq, decide_True by done. destruct (decide (k = ToLower x)) as [->|Hkl].
  { rewrite lookup_insert_eq, ToLower_idemp. naive_solver. }
  rewrite lookup_insert_ne by done. destruct (decide (k = x)) as [->|Hkx].
  { rewrite lookup_delete_eq. naive_solver. }
  rewrite lookup_delete_ne by done. split; [|naive_solver]. intros Hk. left. split; [|done].
  intros Hl. by apply Hkx, (map_inv_unseen seen m x val k v).
Qed.

Lemma map_inv_delete seen m x val :
  map_inv seen m → values !! x = Some val → x ∉ seen → ¬ valid_rule x → map_inv (x :: seen) (delete x m).
Proof.
  intros Hm Hx Hseen Hv. apply (map_inv_visit seen m _ x val); [done..|]. intros k v.
  rewrite image_cons_eq, decide_False by done. rewrite lookup_delete_Some. split.
  - intros [Hkx Hk]. left. split; [|done]. intros Hl. by apply Hkx; symmetry; apply (map_inv_unseen seen m x val k v).
  - intros [[Hl Hk]|[? ?]]; [|done]. split; [congruence|done].
Qed.

Lemma errs_inv_valid seen errs x : errs_inv seen errs → valid_rule x → errs_inv (x :: seen) errs.
Proof.
  intros He Hv e. rewrite (He e). split; intros (k & -> & Hk & Hin & Hn); exists k; split_and!; try done; [set_solver|].
  by apply elem_of_cons in Hin as [->|].
Qed.

Lemma errs_inv_invalid seen errs x :
  errs_inv seen errs → is_Some (values !! x) → ¬ valid_rule x → errs_inv (x :: seen) (errs ++ [E_invalidRule x]).
Proof.
  intros He Hx Hv e. rewrite elem_of_app, list_elem_of_singleton, (He e). split.
  - intros [(k & -> & ? & ? & ?)| ->]; [exists k|exists x]; split_and!; try done; set_solver.
  - intros (k & -> & Hk & [->|Hin]%elem_of_cons & ?); [by right|left; by exists k].
Qed.

Lemma validate_rule_inv seen m errs x :
  map_inv seen m → errs_inv seen errs →
  let s := validate_rule nfields delim (m, errs) x in map_inv (x :: seen) s.1 ∧ errs_inv (x :: seen) s.2.
Proof.
  intros Hm He. unfold validate_rule. destruct (m !! x) as [val|] eqn:Ex; simpl.
  2: { apply inv_skip; [done..|]. intros [v Hv]. destruct (decide (x ∈ seen)) as [|Hn]; [done|].
       assert (m !! x = Some v); [|congruence]. apply Hm. exists x. by rewrite image_unseen. }
  pose proof Ex as Hx. apply Hm in Hx as (k0 & Hk0 & Hi). unfold image in Hi.
  destruct (decide (k0 ∈ seen)) as [Hseen|Hseen].
  - destruct (decide (valid_rule k0)) as [Hv|]; [|done]. injection Hi as <-.
    rewrite length_Split_ToLower, Hv, Nat.eqb_refl, ToLower_idemp, String.eqb_refl by done.
    apply inv_skip; [done..|]. intros Hsome.
    rewrite (Hdistinct (ToLower k0) k0 Hsome ltac:(by eexists)); [done|by rewrite ToLower_idemp].
  - injection Hi as ->. destruct (Nat.eqb_spec (length (Split x delim)) nfields) as [Hv|Hv]; simpl.
    + pose proof (map_inv_lower seen m x val Hm Hk0 Hseen Hv) as Hl.
      destruct (String.eqb_spec x (ToLower x)) as [Heq|_]; simpl; (split; [|by apply errs_inv_valid]); [|done].
      by rewrite <-Heq, insert_delete_id in Hl.
    + split; [by apply (map_inv_delete seen m x val)|]. apply errs_inv_invalid; [done|by eexists|done].
Qed.

Lemma validate_rules_inv visits seen m errs :
  map_inv seen m → errs_inv seen errs →
  let s := foldl (validate_rule nfields delim) (m, errs) visits in
  map_inv (reverse visits ++ seen) s.1 ∧ errs_inv (reverse visits ++ seen) s.2.
Proof.
  revert seen m errs. induction visits as [|x visits IH]; intros seen m errs Hm He; [done|].
  cbn [foldl]. destruct (validate_rule_inv seen m errs x Hm He) as [Hm' He'].
  destruct (validate_rule nfields delim (m, errs) x) as [m' errs']. rewrite reverse_cons, <-app_assoc. by apply IH.
Qed.
End ValidateRules.

(** *** Weights *)
Definition total_weight (gs : list PriceFloorModelGroup) : Z := foldr (λ g t, weight g + t) 0 gs.

Lemma foldl_weight gs t : foldl (λ t g, t + weight g) t gs = t + total_weight gs.
Proof. revert t. induction gs as [|g gs IH]; intros t; simpl; [lia|]. rewrite IH. lia. Qed.

#[export] Instance total_weight_perm : Proper ((≡ₚ) ==> (=)) total_weight.
Proof. intros l l' Hp. induction Hp; simpl; lia. Qed.

Lemma pick_group_spec d gs :
  d ≤ total_weight gs → gs ≠ [] →
  ∃ l1 g l2, gs = l1 ++ g :: l2 ∧ pick_group d gs = Some g ∧
    (l1 = [] ∨ total_weight l1 < d) ∧ d ≤ total_weight l1 + weight g.
Proof.
  revert d. induction gs as [|g gs IH]; intros d Hd Hne; [done|]. simpl in Hd |- *.
  destruct (Z.leb_spec (d - weight g) 0).
  - exists [], g, gs. split_and!; [done..|by left|simpl; lia].
  - destruct (IH (d - weight g)) as (l1 & g' & l2 & -> & Hp & Hl & Hu); [lia|by intros ->; simpl in *; lia|].
    exists (g :: l1), g', l2. split_and!; [done|done|right; destruct Hl as [->|]; simpl; lia|simpl; lia].
Qed.

(** *** Groups *)
Lemma valid_groups_spec account gs g :
  g ∈ (valid_groups account gs).1 ↔ g ∈ gs ∧ group_error account g = None.
Proof.
  induction gs as [|h gs IH]; simpl; [set_solver|]. destruct (valid_groups account gs) as [valid errs]. simpl in IH.
  destruct (group_error account h) eqn:E; simpl; rewrite ?elem_of_cons, IH; naive_solver.
Qed.

Lemma select_valid_groups account gs g :
  g ∈ (selectValidFloorModelGroups gs account).1 ↔ g ∈ gs ∧ group_error account g = None.
Proof. unfold selectValidFloorModelGroups. destruct gs; [simpl; set_solver|apply valid_groups_spec]. Qed.

Lemma select_group_elem gs f : gs ≠ [] → ∃ g, g ∈ gs ∧ selectFloorModelGroup gs f = Some (with_weight g).
Proof.
  intros Hne. unfold selectFloorModelGroup. set (sorted := stable_sort _ _).
  assert (∀ g, g ∈ sorted → ∃ g', g' ∈ gs ∧ g = with_weight g') as Hin.
  { intros g Hg. subst sorted. rewrite stable_sort_perm in Hg.
    apply list_elem_of_In, in_map_iff in Hg as (g' & <- & Hg'). exists g'. by rewrite list_elem_of_In. }
  assert (∀ d l g, pick_group d l = Some g → g ∈ l) as Hpick.
  { intros d l. revert d. induction l as [|x l IH]; intros d g; simpl; [done|].
    destruct (_ <=? 0); [intros [= <-]; set_solver|]. intros ?%IH. set_solver. }
  destruct (pick_group _ sorted) as [g|] eqn:E.
  - destruct (Hin g) as (g' & Hg' & ->); [by eapply Hpick|]. by exists g'.
  - destruct sorted as [|g sorted'] eqn:Es.
    + exfalso. apply Hne. assert (map with_weight gs = []) as Hm.
      { apply Permutation_nil. rewrite <-(stable_sort_perm (λ g1 g2, weight g1 <? weight g2) (map with_weight gs)).
        by fold sorted; rewrite Es. }
      by apply map_eq_nil in Hm.
    + destruct (Hin g) as (g' & Hg' & ->); [set_solver|]. by exists g'.
Qed.

(** A group without a weight passes the checks exactly as with the weight it is given. *)
Lemma group_error_with_weight account g : group_error account (with_weight g) = group_error account g.
Proof. unfold group_error, with_weight. destruct g as [? [w|] ? ? ? ? ?]; done. Qed.

(** *** Impressions *)
(** Everything but the floor, its currency and the extension. *)
Definition same_imp (i i' : ImpWrapper) : Prop :=
  imp_ID i' = imp_ID i ∧ imp_TagID i' = imp_TagID i ∧ imp_Banner i' = imp_Banner i ∧ imp_Video i' = imp_Video i ∧
  imp_Audio i' = imp_Audio i ∧ imp_Native i' = imp_Native i.
Definition same_floor (i i' : ImpWrapper) : Prop :=
  imp_BidFloor i' = imp_BidFloor i ∧ imp_BidFloorCur i' = imp_BidFloorCur i.

Lemma field_value_same field r imp v r' imp' :
  field_value field r imp = (v, (r', imp')) → same_imp imp imp' ∧ same_floor imp imp' ∧ imp_Ext imp' = imp_Ext imp ∧
  rw_Imp r' = rw_Imp r.
Proof.
  unfold field_value, getChannelName, getGptSlot, getAdUnitCode, GetImpExt, GetRequestExt, same_imp, same_floor.
  repeat (destruct (_ =s? _)); intros [= <- <- <-]; done.
Qed.

Lemma createRuleKey_same fields r imp ks r' imp' :
  createRuleKey fields r imp = (ks, (r', imp')) →
  length ks = length fields ∧ same_imp imp imp' ∧ same_floor imp imp' ∧ imp_Ext imp' = imp_Ext imp ∧ rw_Imp r' = rw_Imp r.
Proof.
  revert r imp ks. induction fields as [|f fields IH]; intros r imp ks; simpl; [by intros [= <- <- <-]|].
  destruct (field_value f r imp) as [v [r1 imp1]] eqn:Ef.
  destruct (createRuleKey fields r1 imp1) as [ks1 [r2 imp2]] eqn:Ec. intros [= <- <- <-].
  apply field_value_same in Ef as ((?&?&?&?&?&?) & (?&?) & ? & ?). apply IH in Ec as (? & (?&?&?&?&?&?) & (?&?) & ? & ?).
  unfold same_imp, same_floor. simpl. split_and!; congruence.
Qed.

Lemma fltb_irrefl x : fltb x x = false.
Proof. destruct (fltb x x) eqn:E; [|done]. pose proof (fltb_asym x x E). congruence. Qed.

(** The extension of an impression after the rule [k] of value [v] set its floor to [b]. *)
Definition noted_ext (k : string) (v b : float64) (e e' : ImpExt) : Prop :=
  ie_Data e' = ie_Data e ∧ ie_GpId e' = ie_GpId e ∧
  ∃ p fl, ie_Prebid e' = Some p ∧ eip_StoredRequest p = ie_Prebid e ≫= eip_StoredRequest ∧
    eip_Floors p = Some fl ∧ eif_FloorRule fl = k ∧ eif_FloorRuleValue fl = v ∧ eif_FloorValue fl = b.

(** What signalling makes of an impression: with [v] the value of the rule found for it, or the
    default of the group, the floor is set exactly when [v] is not zero and the minimum that
    applies is known; it is then the larger of the rounded [v] and a positive minimum, in the currency of the
    floors, and a rule that was found is noted in the extension. *)
Definition floor_outcome (ext : PriceFloorRules) (g : PriceFloorModelGroup) (delim : string)
    (conversions : Conversions) (r : RequestWrapper) (imp imp' : ImpWrapper) : Prop :=
  let '(key, (_, imp1)) := createRuleKey (ps_Fields (mg_Schema g)) r imp in
  ∃ found, findRule (mg_Values g) delim key = Some found ∧
  let v := match found with Some k => default f0 (mg_Values g !! k) | None => mg_Default g end in
  match feqb v f0, (getMinFloorValue ext imp1 conversions).1 with
  | false, Ok (m, cur) =>
      imp_BidFloorCur imp' = cur ∧
      imp_BidFloor imp' ∈ [roundToFourDecimals v; m] ∧
      fltb (imp_BidFloor imp') (roundToFourDecimals v) = false ∧
      (fltb f0 m = true → fltb (imp_BidFloor imp') m = false) ∧
      (fltb f0 m = false → imp_BidFloor imp' = roundToFourDecimals v) ∧
      match found with
      | Some k => noted_ext k (roundToFourDecimals v) (imp_BidFloor imp') (imp_Ext imp) (imp_Ext imp')
      | None => imp_Ext imp' = imp_Ext imp
      end
  | _, _ => same_floor imp imp' ∧ imp_Ext imp' = imp_Ext imp
  end.

Lemma field_value_request field r imp :
  rw_ExtErr r = None → (field_value field r imp).2.1 = r.
Proof.
  intros Hr. unfold field_value, getChannelName, getGptSlot, getAdUnitCode, GetImpExt, GetRequestExt.
  repeat (destruct (_ =s? _)); simpl; try done. unfold set_rw_ExtErr. rewrite <-Hr. by destruct r.
Qed.

Lemma createRuleKey_request fields r imp :
  rw_ExtErr r = None → (createRuleKey fields r imp).2.1 = r.
Proof.
  intros Hr. revert imp. induction fields as [|f fields IH]; intros imp; simpl; [done|].
  pose proof (field_value_request f r imp Hr) as Hf.
  destruct (field_value f r imp) as [v [r1 imp1]]. simpl in Hf. subst r1.
  specialize (IH imp1). by destruct (createRuleKey fields r imp1) as [ks s].
Qed.

(** Reading the minimum reads the extension of the impression and changes nothing else. *)
Lemma getMinFloorValue_imp ext imp conv : (getMinFloorValue ext imp conv).2 = set_imp_ExtErr None imp.
Proof.
  unfold getMinFloorValue, getFloorMinAndCurFromImp, GetImpExt. simpl. by repeat go_destruct.
Qed.

(** Raising the floor to the minimum takes the larger of the two. *)
Lemma raised_floor v m :
  let b := if fltb f0 m && fltb v m then m else v in
  b ∈ [v; m] ∧ fltb b v = false ∧ (fltb f0 m = true → fltb b m = false) ∧ (fltb f0 m = false → b = v).
Proof.
  simpl. destruct (fltb f0 m) eqn:E0, (fltb v m) eqn:E1; simpl; split_and!;
    rewrite ?fltb_irrefl; try done; try set_solver. by apply fltb_asym.
Qed.

Lemma floor_imp_spec ext g delim conv r imp errs r' imp' :
  rw_ExtErr r = None → floor_imp ext g delim conv r imp = Some (errs, r', imp') →
  r' = r ∧ same_imp imp imp' ∧ floor_outcome ext g delim conv r imp imp'.
Proof.
  intros Hr. unfold floor_imp, floor_outcome. pose proof (createRuleKey_request (ps_Fields (mg_Schema g)) r imp Hr) as Hreq.
  destruct (createRuleKey _ r imp) as [key [r1 imp1]] eqn:Ek. simpl in Hreq. subst r1.
  apply createRuleKey_same in Ek as (_ & Hsame & Hfloor & Hext & _).
  destruct (findRule _ delim key) as [found|] eqn:Ef; [|done]. cbn [mbind option_bind].
  pose proof (getMinFloorValue_imp ext imp1 conv) as Himp.
  assert (same_imp imp imp1 ∧ ∃ found', Some found = Some found' ∧ same_floor imp imp1 ∧ imp_Ext imp1 = imp_Ext imp) as (? & ? & [= <-] & ? & ?)
    by eauto.
  set (v := match found with Some _ => _ | None => _ end). destruct (feqb v f0) eqn:Ev.
  { intros [= <- <- <-]. split_and!; [done..|]. exists found. split; [done|]. fold v. by rewrite Ev. }
  destruct (getMinFloorValue ext imp1 conv) as [[[m cur]|e] imp2] eqn:Em; simpl in Himp; subst imp2.
  2: { intros [= <- <- <-]. split_and!; [done..|]. exists found. split; [done|]. fold v. by rewrite Ev. }
  pose proof (raised_floor (roundToFourDecimals v) m) as Hb. simpl in Hb.
  set (b := if _ && _ then m else _) in *. intros Hres.
  assert (r' = r ∧ same_imp imp imp' ∧ imp_BidFloor imp' = b ∧ imp_BidFloorCur imp' = cur ∧
    match found with
    | Some k => noted_ext k (roundToFourDecimals v) b (imp_Ext imp) (imp_Ext imp')
    | None => imp_Ext imp' = imp_Ext imp
    end) as (-> & Hs & Hbf & Hcur & He).
  { destruct found as [k|]; simpl in Hres; injection Hres as _ <- <-; [|done]. split_and!; [done..|].
    unfold noted_ext. simpl. rewrite Hext. split_and!; [done..|]. by eexists _, _. }
  split; [done|]. split; [done|]. exists found. split; [done|]. fold v. rewrite Ev. simpl. rewrite Hbf, Hcur.
  by destruct Hb as (? & ? & ? & ?).
Qed.

Lemma floor_imps_spec ext g delim conv r imps errs r' imps' :
  rw_ExtErr r = None → floor_imps ext g delim conv r imps = Some (errs, r', imps') →
  r' = r ∧ Forall2 (λ imp imp', same_imp imp imp' ∧ floor_outcome ext g delim conv r imp imp') imps imps'.
Proof.
  intros Hr. revert errs r' imps'. induction imps as [|imp imps IH]; intros errs r' imps'; cbn [floor_imps].
  { intros [= <- <- <-]. done. }
  destruct (floor_imp ext g delim conv r imp) as [[[e1 r1] i1]|] eqn:E1; [|done]. simpl.
  apply floor_imp_spec in E1 as (-> & Hs & Hf); [|done].
  destruct (floor_imps ext g delim conv r imps) as [[[e2 r2] i2]|]; [|done]. simpl.
  intros [= <- <- <-]. destruct (IH _ _ _ eq_refl) as [-> Hall]. split; [done|]. by constructor.
Qed.

(** The group whose rules are signalled, with the valid rules under their lower-case keys: there
    is none when there are no groups, when the draw skips the floors or when no rule is valid. *)
Definition group_in_use `{MapVisit} (ext : PriceFloorRules) (intn : Z → Z) : option PriceFloorModelGroup :=
  d ← pf_Data ext;
  g ← head (pd_ModelGroups d);
  if shouldSkipFloors (mg_SkipRate g) (pd_SkipRate d) (pf_SkipRate ext) intn then None
  else
    let values := (validateFloorRulesAndLowerValidRuleKey (mg_Schema g) (group_delimiter g) (mg_Values g)).1 in
    if (size values =? 0)%nat then None else Some (set_mg_Values values g).

Lemma floor_imp_total ext g delim conv r imp :
  ps_Fields (mg_Schema g) ≠ [] → is_Some (floor_imp ext g delim conv r imp).
Proof.
  intros Hne. unfold floor_imp. destruct (createRuleKey _ r imp) as [key [r1 imp1]] eqn:Ek.
  apply createRuleKey_same in Ek as [Hl _].
  rewrite findRule_search by (intros ->; apply Hne; by apply nil_length_inv).
  simpl. repeat go_destruct; simpl; by eexists.
Qed.

Lemma floor_imps_total ext g delim conv r imps :
  ps_Fields (mg_Schema g) ≠ [] → is_Some (floor_imps ext g delim conv r imps).
Proof.
  intros Hne. revert r. induction imps as [|imp imps IH]; intros r; cbn [floor_imps]; [by eexists|].
  destruct (floor_imp_total ext g delim conv r imp Hne) as [[[e1 r1] i1] ->]. simpl.
  destruct (IH r1) as [[[e2 r2] i2] ->]. by eexists.
Qed.

(** With no schema fields every rule is invalid, so the search is never reached. *)
Lemma no_fields_no_rules delim m errs visits :
  (∀ k, is_Some (m !! k) → k ∈ visits) → (foldl (validate_rule 0 delim) (m, errs) visits).1 = ∅.
Proof.
  revert m errs. induction visits as [|x visits IH]; intros m errs Hall; cbn [foldl].
  - apply map_empty. intros k. apply eq_None_not_Some. intros Hk%Hall. by apply elem_of_nil in Hk.
  - simpl. destruct (m !! x) as [v|] eqn:Ex.
    + pose proof (length_Split_pos x delim). destruct (Nat.eqb_spec (length (Split x delim)) 0); [lia|]. simpl.
      apply IH. intros k [v' Hk]. apply lookup_delete_Some in Hk as [Hne Hk].
      specialize (Hall k ltac:(by eexists)). set_solver.
    + apply IH. intros k Hk. specialize (Hall k Hk). destruct Hk as [v Hk].
      apply elem_of_cons in Hall as [->|]; [congruence|done].
Qed.

Lemma update_total `{MapVisit} ext r conv intn : is_Some (updateBidRequestWithFloors ext r conv intn).
Proof.
  unfold updateBidRequestWithFloors. destruct (pf_Data ext) as [d|]; [|by eexists].
  destruct (pd_ModelGroups d) as [|g gs]; [by eexists|]. set (delim := group_delimiter g).
  destruct (shouldSkipFloors _ _ _ _); [by eexists|].
  destruct (validateFloorRulesAndLowerValidRuleKey _ _ _) as [values errs] eqn:Ev.
  destruct (Nat.eqb_spec (size values) 0) as [|Hsize]; [by eexists|].
  edestruct (floor_imps_total (set_pf_Skipped (Some false) (set_pf_Data (Some (set_pd_ModelGroups
    (set_mg_Values values g :: gs) d)) ext)) (set_mg_Values values g) delim conv r (rw_Imp r)) as [[[e2 r2] i2] Hi].
  - simpl. intros Hnil. apply Hsize, map_size_empty_iff.
    unfold validateFloorRulesAndLowerValidRuleKey in Ev. rewrite Hnil in Ev. simpl in Ev.
    rewrite <-(no_fields_no_rules delim (mg_Values g) [] (map_visit (mg_Values g))), Ev; [done|].
    intros k Hk. by apply map_visit_all.
  - rewrite Hi. by eexists.
Qed.

(** ** Properties *)

(** C10: signalling floors on a request whose extension parses, impression by impression.  When
    there is no group of rules, the draw skips the floors or no rule is valid, the impressions
    stay as they are.  Otherwise every impression keeps its id, tag and media, and with [v] the
    value of the rule found for it (or the default of the group) its floor is set exactly when
    [v] is not zero and the minimum that applies to it is known: to [v] rounded to four decimals, or to
    the minimum where that is positive and larger, in the currency of the floors; its extension
    changes exactly when a rule was found and the floor set, and then notes the rule, the rounded value and the
    floor. *)
Theorem floors_signal_rule_and_minimum `{MapVisit} ext r conv intn :
  rw_ExtErr r = None →
  ∃ errs r' ext', updateBidRequestWithFloors ext r conv intn = Some (errs, r', ext') ∧
    match group_in_use ext intn with
    | None => rw_Imp r' = rw_Imp r
    | Some g => Forall2 (λ imp imp', same_imp imp imp' ∧ floor_outcome ext' g (group_delimiter g) conv r imp imp')
                  (rw_Imp r) (rw_Imp r')
    end.
Proof.
  intros Hr. destruct (update_total ext r conv intn) as [[[errs r'] ext'] Hu].
  exists errs, r', ext'. split; [exact Hu|]. unfold updateBidRequestWithFloors in Hu. unfold group_in_use.
  destruct (pf_Data ext) as [d|]; [|by simplify_eq]. cbn [mbind option_bind].
  destruct (pd_ModelGroups d) as [|g gs]; [by simplify_eq|]. cbn [head mbind option_bind].
  destruct (shouldSkipFloors _ _ _ _); [by simplify_eq|].
  destruct (validateFloorRulesAndLowerValidRuleKey _ _ _) as [values errs1]. cbn [fst].
  destruct (size values =? 0)%nat; [by simplify_eq|].
  destruct (floor_imps _ _ _ _ _ _) as [[[e2 r2] i2]|] eqn:Ei; [|done]. simpl in Hu.
  apply floor_imps_spec in Ei as [-> Hall]; [|done]. injection Hu as _ <- <-. exact Hall.
Qed.

(** Enriching a request with floors never panics, whatever the floors document, the account
    and the runtime's map order: in particular the rule search is never started for a schema
    without fields. *)
Theorem EnrichWithPriceFloors_total `{MapVisit} request accountID account conv fetcher d :
  is_Some (EnrichWithPriceFloors request accountID account conv fetcher d).
Proof.
  unfold EnrichWithPriceFloors. destruct request as [r|]; [|by eexists].
  destruct (isPriceFloorsEnabled account r) as [[] r1]; simpl; [|by eexists].
  destruct (resolveFloors accountID account r1 conv fetcher d) as [[fl e1] r2].
  destruct (update_total fl r2 conv (draw_skip d)) as [[[e2 r3] fl'] ->]. by eexists.
Qed.

(** For keys that differ in more than case and a delimiter without letters, the loop that
    deletes and renames entries of the map it ranges over has one outcome in every visiting
    order: the rules with as many fields as the schema, under their lower-case keys, and one
    error kind for each of the others. *)
Theorem validate_rules_outcome `{MapVisit} schema delim values :
  caseless delim →
  (∀ k k', is_Some (values !! k) → is_Some (values !! k') → ToLower k = ToLower k' → k = k') →
  let n := length (ps_Fields schema) in
  let '(values', errs) := validateFloorRulesAndLowerValidRuleKey schema delim values in
  (∀ k v, values' !! k = Some v ↔
    ∃ k0, values !! k0 = Some v ∧ k = ToLower k0 ∧ length (Split k0 delim) = n) ∧
  (∀ e, e ∈ errs ↔ ∃ k, e = E_invalidRule k ∧ is_Some (values !! k) ∧ length (Split k delim) ≠ n).
Proof.
  intros Hd Hk n. unfold validateFloorRulesAndLowerValidRuleKey. fold n.
  destruct (validate_rules_inv n delim values Hd Hk (map_visit values) [] values []) as [Hm He].
  { intros k v. unfold image. split; [intros; exists k; by rewrite decide_False by set_solver|].
    intros (k0 & ? & Hi). rewrite decide_False in Hi by set_solver. congruence. }
  { intros e. set_solver. }
  assert (∀ k, is_Some (values !! k) → k ∈ reverse (map_visit values) ++ []) as Hseen.
  { intros k Hs. rewrite app_nil_r. apply elem_of_reverse, map_visit_all, Hs. }
  destruct (foldl _ _ _) as [values' errs]. split.
  - intros k v. rewrite (Hm k v). unfold image. split; intros (k0 & H0 & Hi); exists k0; split; try done;
      rewrite decide_True in * by (apply Hseen; by eexists); unfold valid_rule in *;
      destruct (decide (length (Split k0 delim) = n)); naive_solver.
  - intros e. rewrite (He e). unfold valid_rule. naive_solver.
Qed.

Definition sample_group : PriceFloorModelGroup :=
  {| mg_Currency := "USD"; mg_ModelWeight := None; mg_ModelVersion := "v1"; mg_SkipRate := 0;
     mg_Schema := {| ps_Fields := [MediaType; Domain]; ps_Delimiter := "|" |};
     mg_Values := {["banner|Example.com" := fofZ 2; "video" := fofZ 9; "*|*" := f1]}; mg_Default := f0 |}.
Definition sample_floors : PriceFloorRules :=
  {| pf_FloorMin := fofZ 3; pf_FloorMinCur := "USD"; pf_SkipRate := 0; pf_Location := None;
     pf_Data := Some {| pd_Currency := "USD"; pd_SkipRate := 0; pd_FloorsSchemaVersion := 2; pd_ModelTimestamp := 0;
                        pd_ModelGroups := [sample_group]; pd_FloorProvider := ""; pd_UseFetchDataRate := None |};
     pf_Enforcement := None; pf_Enabled := None; pf_Skipped := None; pf_FloorProvider := "";
     pf_FetchStatus := ""; pf_PriceFloorLocation := "" |}.
Definition sample_imp : ImpWrapper :=
  {| imp_ID := "i1"; imp_TagID := ""; imp_BidFloor := f0; imp_BidFloorCur := "";
     imp_Banner := Some {| banner_Format := [(300, 250)]; banner_W := None; banner_H := None |}; imp_Video := None;
     imp_Audio := false; imp_Native := false; imp_Ext := {| ie_Prebid := None; ie_Data := None; ie_GpId := "" |};
     imp_ExtErr := None |}.
Definition sample_request : RequestWrapper :=
  {| rw_Site := Some {| site_Domain := "example.com"; site_Publisher := None |}; rw_App := None; rw_Device := None;
     rw_Prebid := None; rw_ExtErr := None; rw_Imp := [sample_imp] |}.
Definition sample_fetch : AccountFloorFetch :=
  {| aff_Enabled := true; aff_URL := "https://floors.example.com"; aff_Timeout := 3000; aff_MaxFileSizeKB := 100;
     aff_MaxRules := 100; aff_MaxAge := 86400; aff_Period := 3600; aff_MaxSchemaDims := 5; aff_AccountID := "acct" |}.
Definition no_rates : Conversions := {| GetRate := λ from to, Err (ConversionNotFoundError from to); GetRates := None |}.

Lemma floors_signal_rule_and_minimum_witness :
  let H := canonical_visit in
  is_Some (group_in_use sample_floors (λ _, 0)) ∧
  ∃ errs r' ext', updateBidRequestWithFloors sample_floors sample_request no_rates (λ _, 0) = Some (errs, r', ext') ∧
    match group_in_use sample_floors (λ _, 0) with
    | None => rw_Imp r' = rw_Imp sample_request
    | Some g => Forall2 (λ imp imp', same_imp imp imp' ∧
                  floor_outcome ext' g (group_delimiter g) no_rates sample_request imp imp')
                  (rw_Imp sample_request) (rw_Imp r')
    end.
Proof.
  intros H. split; [by eexists|].
  apply (floors_signal_rule_and_minimum sample_floors sample_request no_rates (λ _, 0) eq_refl).
Defined.
(** The rule found is worth 2, the minimum is 3. *)
Example floor_raised_to_minimum :
  let H := canonical_visit in
  (λ x, map imp_BidFloor (rw_Imp x.1.2)) <$> updateBidRequestWithFloors sample_floors sample_request no_rates (λ _, 0)
  = Some [fofZ 3].
Proof. by vm_compute. Qed.

Lemma validate_rules_outcome_witness :
  let H := canonical_visit in
  let schema := mg_Schema sample_group in
  let '(values', errs) := validateFloorRulesAndLowerValidRuleKey schema "|" (mg_Values sample_group) in
  (∀ k v, values' !! k = Some v ↔
    ∃ k0, mg_Values sample_group !! k0 = Some v ∧ k = ToLower k0 ∧ length (Split k0 "|") = 2%nat) ∧
  (∀ e, e ∈ errs ↔ ∃ k, e = E_invalidRule k ∧ is_Some (mg_Values sample_group !! k) ∧ length (Split k "|") ≠ 2%nat).
Proof.
  intros H schema. apply (validate_rules_outcome schema "|" (mg_Values sample_group)); [by split|].
  intros k k' Hk Hk'. unfold sample_group in Hk, Hk'. simpl in Hk, Hk'.
  rewrite !lookup_insert_is_Some, lookup_singleton_is_Some in Hk, Hk'.
  assert (k ∈ ["banner|Example.com"; "video"; "*|*"]) as Hin by set_solver.
  assert (k' ∈ ["banner|Example.com"; "video"; "*|*"]) as Hin' by set_solver.
  clear Hk Hk'. rewrite !elem_of_cons in Hin, Hin'.
  destruct Hin as [->|[->|[->|?%elem_of_nil]]], Hin' as [->|[->|[->|?%elem_of_nil]]]; done.
Defined.

(** The model group is drawn by weight: with the groups in increasing order of weight, the
    draw [d] of [0..total] selects the group whose span of the running total contains it, so a
    group of weight [w] is selected by exactly [w] of the draws [1..total]. *)
Theorem model_group_drawn_by_weight gs intn :
  gs ≠ [] → Forall (λ g, 0 ≤ weight (with_weight g)) gs →
  let total := total_weight (map with_weight gs) in
  0 ≤ intn (total + 1) ≤ total →
  ∃ sorted l1 g l2,
    sorted ≡ₚ map with_weight gs ∧ sorted_by (λ g1 g2, weight g1 <? weight g2) sorted ∧
    sorted = l1 ++ g :: l2 ∧ selectFloorModelGroup gs intn = Some g ∧
    (l1 = [] ∨ total_weight l1 < intn (total + 1)) ∧ intn (total + 1) ≤ total_weight l1 + weight g.
Proof.
  intros Hne Hw total Hd. unfold selectFloorModelGroup. rewrite foldl_weight, Z.add_0_l. fold total.
  set (less := λ g1 g2, weight g1 <? weight g2). pose proof (stable_sort_perm less (map with_weight gs)) as Hp.
  assert (sorted_by less (stable_sort less (map with_weight gs))) as Hs.
  { apply (stable_sort_sorted (λ _, True)); [|by apply Forall_true].
    apply (SWO_pull weight (λ _, True) Z.ltb). }
  destruct (pick_group_spec (intn (total + 1)) (stable_sort less (map with_weight gs)))
    as (l1 & g & l2 & Heq & Hpick & Hl & Hu).
  { rewrite Hp. fold total. lia. }
  { intros Hnil. rewrite Hnil in Hp. apply Permutation_nil_l in Hp. symmetry in Hp. by apply map_eq_nil in Hp. }
  rewrite Hpick. exists (stable_sort less (map with_weight gs)), l1, g, l2. split_and!; done || lia.
Qed.

Lemma model_group_drawn_by_weight_witness :
  ∃ sorted l1 g l2,
    sorted ≡ₚ map with_weight [sample_group; sample_group] ∧
    sorted_by (λ g1 g2, weight g1 <? weight g2) sorted ∧
    sorted = l1 ++ g :: l2 ∧ selectFloorModelGroup [sample_group; sample_group] (λ _, 2) = Some g ∧
    (l1 = [] ∨ total_weight l1 < 2) ∧ 2 ≤ total_weight l1 + weight g.
Proof.
  apply (model_group_drawn_by_weight [sample_group; sample_group] (λ _, 2)); [done| |simpl; unfold weight; simpl; lia].
  repeat constructor; vm_compute; congruence.
Defined.

(** The draw ranges over one value more than the total weight, and the extra one goes to the
    first group: of two groups without weights, which count 1 each, the first is selected by two
    of the three draws. *)
Theorem equal_weights_unequal_shares :
  let g1 := sample_group in
  let g2 := set_mg_Values {["*|*" := fofZ 5]} sample_group in
  let chosen d := default g1 (selectFloorModelGroup [g1; g2] (λ _, d)) in
  map (λ d, mg_Values (chosen d) !! "*|*") [0; 1; 2] = [Some f1; Some f1; Some (fofZ 5)].
Proof. by vm_compute. Qed.

(** The floors a request ends up with are valid: they have no data, or the data carries
    exactly one model group, one of those given, that passes every check of the account; and
    data is there whenever the parameters are in range and some group passes. *)
Theorem createFloorsFrom_valid fl account status location intn :
  let final := (createFloorsFrom (Some fl) account status location intn).1 in
  match pf_Data final with
  | None =>
      is_Some (validateFloorParams fl) ∨
      ∀ d, pf_Data fl = Some d → ∀ g, g ∈ pd_ModelGroups d → is_Some (group_error account g)
  | Some d' =>
      ∃ d g g0, pf_Data fl = Some d ∧ validateFloorParams fl = None ∧ pd_ModelGroups d' = [g] ∧
        g0 ∈ pd_ModelGroups d ∧ (g = g0 ∨ g = with_weight g0) ∧ group_error account g = None
  end.
Proof.
  simpl. unfold createFloorsFrom. destruct (validateFloorParams fl) as [e|] eqn:Ev; simpl; [left; by eexists|].
  destruct (pf_Data fl) as [d|] eqn:Ed; simpl; [|by right].
  pose proof (select_valid_groups account (pd_ModelGroups d)) as Hsel.
  destruct (selectValidFloorModelGroups (pd_ModelGroups d) account) as [[|g [|g' valid]] errs]; simpl in Hsel.
  - simpl. right. intros ? [= <-] g Hg. apply not_eq_None_Some. intros Hn.
    assert (g ∈ @nil PriceFloorModelGroup) as Hin by (by apply Hsel). by apply elem_of_nil in Hin.
  - destruct (Hsel g) as [[Hin Hn] _]; [set_solver|]. simpl. exists d, g, g. split_and!; auto.
  - destruct (select_group_elem (g :: g' :: valid) intn) as (h & Hh & ->); [done|].
    apply Hsel in Hh as [Hin Hn]. simpl. exists d, (with_weight h), h. rewrite group_error_with_weight. split_and!; auto.
Qed.

(** When some model group is valid, the errors of the invalid ones are lost: they are
    collected in a variable that shadows the one returned. *)
Theorem invalid_group_errors_lost :
  let bad := set_mg_ModelWeight (Some 1000) sample_group in
  let fl := set_pf_Data (Some (set_pd_ModelGroups [bad; sample_group]
              (default {| pd_Currency := ""; pd_SkipRate := 0; pd_FloorsSchemaVersion := 0; pd_ModelTimestamp := 0;
                          pd_ModelGroups := []; pd_FloorProvider := ""; pd_UseFetchDataRate := None |}
                 (pf_Data sample_floors)))) sample_floors in
  let account := {| apf_Enabled := true; apf_EnforceFloorsRate := 100; apf_AdjustForBidAdjustment := true;
                    apf_EnforceDealFloors := false; apf_UseDynamicData := false; apf_MaxRule := 100;
                    apf_MaxSchemaDims := 3; apf_Fetcher := sample_fetch |} in
  (selectValidFloorModelGroups [bad; sample_group] account).2 = [E_modelWeight "v1" 1000] ∧
  (createFloorsFrom (Some fl) account FetchNone RequestLocation (λ _, 0)).2 = [].
Proof. by vm_compute. Qed.

(** The skip rate that applies is the group's, else the data's, else the root's; a rate of 0
    never skips, and a rate [r] of 1 to 100 skips for the [r + 1] draws [0..r] of the 101. *)
Theorem skip_rate_draws group data root :
  0 ≤ group ≤ 100 → 0 ≤ data ≤ 100 → 0 ≤ root ≤ 100 →
  let r := if 0 <? group then group else if 0 <? data then data else root in
  ∀ d, 0 ≤ d ≤ 100 → shouldSkipFloors group data root (λ _, d) = true ↔ (0 < r ∧ d ≤ r).
Proof.
  intros Hg Hd Hr r d Hdr. unfold shouldSkipFloors. fold r.
  assert (0 ≤ r) by (unfold r; repeat case_match; go_bool; lia).
  destruct (Z.eqb_spec r 0); [split; [done|lia]|]. rewrite Z.leb_le. lia.
Qed.

Lemma skip_rate_draws_witness :
  shouldSkipFloors 0 20 50 (λ _, 20) = true ↔ (0 < 20 ∧ 20 ≤ 20).
Proof. apply (skip_rate_draws 0 20 50); lia. Defined.
