(* ===== verification/FloorEnforce.v ===== *)
(** * Price floors, enforcement: src/floors/enforce.go

    After the bidders answered, [Enforce] decides by the enforcement rates whether floors are
    enforced for this request, notes the floor on every bid, and takes out the bids below the
    floor of their impression.  Bids are shared pointers, so the floors are written to the bid
    store; the seats' slices are replaced.  [None] is a panic (a nil [Bid]). *)
From S2P Require Import Prelude GoFloat Currency Bids FloorData FloorRules Floors.

Definition enforceRateMax : Z := 100.
Definition floorPrecision : float64 := flit 1 100.

Inductive enforce_error :=
| E_requestExt
| E_rebuild (e : string)
| E_rate (from to bidder impID bidID : string) (e : cur_error).

(** [req.ext.prebid.floors] *)
Definition getFloorsExt (x : option ExtRequestPrebid) : option PriceFloorRules := x ≫= erp_Floors.
Definition isEnforcementEnabled (x : option ExtRequestPrebid) : bool :=
  match getFloorsExt x with Some f => GetEnforcePBS (Some f) | None => true end.
Definition isSignalingSkipped (x : option ExtRequestPrebid) : bool :=
  match getFloorsExt x with Some f => GetFloorsSkippedFlag (Some f) | None => false end.
Definition getEnforceRateRequest (x : option ExtRequestPrebid) : Z :=
  match getFloorsExt x with Some f => GetEnforceRate (Some f) | None => 0 end.
Definition getEnforceDealsFlag (x : option ExtRequestPrebid) : bool :=
  match getFloorsExt x with Some f => GetEnforceDealsFlag (Some f) | None => false end.

Definition isValidImpBidFloorPresent (imps : list ImpWrapper) : bool :=
  existsb (λ i, fltb f0 (imp_BidFloor i)) imps.

Definition isSatisfiedByEnforceRate (x : option ExtRequestPrebid) (configEnforceRate : Z) (f : Z → Z) : bool :=
  let requestEnforceRate := getEnforceRateRequest x in
  let enforceRate := f enforceRateMax in
  let satisfiedByRequest := (requestEnforceRate =? 0) || (enforceRate <? requestEnforceRate) in
  let satisfiedByAccount := (configEnforceRate =? 0) || (enforceRate <? configEnforceRate) in
  satisfiedByRequest && satisfiedByAccount.

Definition hasDealID (bid : Bid) : bool := bid_DealID bid ≠s? "".

Definition getCurrencyConversionRate (seatBidCur reqImpCur : string) (conversions : Conversions)
  : result cur_error float64 :=
  if seatBidCur ≠s? reqImpCur then GetRate conversions seatBidCur reqImpCur else Ok f1.

(** The new [req.ext.prebid] and whether it changed. *)
Definition updateEnforcePBS (enforceFloors : bool) (x : option ExtRequestPrebid) : bool * option ExtRequestPrebid :=
  let floorExt := default empty_floors (getFloorsExt x) in
  let enforcement := default empty_enforcement (pf_Enforcement floorExt) in
  let '(updateReqExt, enforcePBS) :=
    match pe_EnforcePBS enforcement with
    | None => (true, enforceFloors)
    | Some old => (negb (Bool.eqb old (enforceFloors && old)), enforceFloors && old)
    end in
  let enforcement := {| pe_EnforceJS := pe_EnforceJS enforcement; pe_EnforcePBS := Some enforcePBS;
                        pe_FloorDeals := pe_FloorDeals enforcement; pe_BidAdjustment := pe_BidAdjustment enforcement;
                        pe_EnforceRate := pe_EnforceRate enforcement |} in
  (updateReqExt,
   if updateReqExt
   then Some {| erp_Channel := x ≫= erp_Channel; erp_Floors := Some (set_pf_Enforcement (Some enforcement) floorExt) |}
   else x).

(** ** Noting the floor on the bids *)
Abbreviation imp_map := (gmap string ImpWrapper).
(** [impMap[imp.ID] = imp] for each impression: the last one of an id stays. *)
Definition make_imp_map (imps : list ImpWrapper) : imp_map := foldl (λ m imp, <[imp_ID imp := imp]> m) ∅ imps.

(** The floors to note, [None] when the bid is left as it is. *)
Definition updateBidExtWithFloors (reqImp : ImpWrapper) (floorCurrency : string)
  : option ExtBidPrebidFloors * ImpWrapper :=
  let '(impExt, err, reqImp) := GetImpExt reqImp in
  (match err with
   | Some _ => None
   | None =>
       match ie_Prebid impExt ≫= eip_Floors with
       | None =>
           if fltb f0 (imp_BidFloor reqImp)
           then Some {| ebf_FloorRule := ""; ebf_FloorRuleValue := f0; ebf_FloorValue := imp_BidFloor reqImp;
                        ebf_FloorCurrency := imp_BidFloorCur reqImp |}
           else None
       | Some fl =>
           Some {| ebf_FloorRule := eif_FloorRule fl; ebf_FloorRuleValue := eif_FloorRuleValue fl;
                   ebf_FloorValue := eif_FloorValue fl; ebf_FloorCurrency := floorCurrency |}
       end
   end, reqImp).

Definition note_bid (s : bid_store * imp_map) (l : loc) : option (bid_store * imp_map) :=
  let '(st, imps) := s in
  p ← st !! l;
  bid ← pb_Bid p;
  match imps !! bid_ImpID bid with
  | None => Some (st, imps)
  | Some reqImp =>
      let '(floors, reqImp') := updateBidExtWithFloors reqImp (imp_BidFloorCur reqImp) in
      Some (match floors with
            | Some fl => <[l := set_BidFloors (Some fl) p]> st
            | None => st
            end, <[bid_ImpID bid := reqImp']> imps)
  end.

Fixpoint note_bids (s : bid_store * imp_map) (ls : list loc) : option (bid_store * imp_map) :=
  match ls with [] => Some s | l :: rest => s ← note_bid s l; note_bids s rest end.

Definition updateBidExt `{MapRange} (st : bid_store) (imps : list ImpWrapper) (seatBids : gmap string PbsOrtbSeatBid)
  : option (bid_store * imp_map) :=
  note_bids (st, make_imp_map imps) (concat (map (λ x, seat_Bids x.2) (map_range seatBids))).

(** ** Taking out bids below the floor *)
Inductive verdict := Eligible | Rejected | Dropped | Failed (e : enforce_error).

(** The body of the inner loop for one bid, the request extension [x] being readable. *)
Definition judge_bid (x : option ExtRequestPrebid) (imps : imp_map) (conversions : Conversions)
    (enforceDealFloors : bool) (bidderName seatCurrency : string) (bid : Bid) : verdict :=
  match imps !! bid_ImpID bid with
  | None => Dropped
  | Some reqImp =>
      if isEnforcementEnabled x then
        if hasDealID bid && negb enforceDealFloors then Eligible
        else match getCurrencyConversionRate seatCurrency (imp_BidFloorCur reqImp) conversions with
             | Err e => Failed (E_rate seatCurrency (imp_BidFloorCur reqImp) bidderName (bid_ImpID bid) (bid_ID bid) e)
             | Ok rate =>
                 if fltb (fadd (fmul rate (bid_Price bid)) floorPrecision) (imp_BidFloor reqImp)
                 then Rejected else Eligible
             end
      else Eligible
  end.

(** What the loops collect: the eligible bids of the seat, errors, rejected bids. *)
Record collected := { c_eligible : list loc; c_errs : list enforce_error; c_rejected : list PbsOrtbSeatBid }.

Section EnforceBids.
Context (st : bid_store) (x : option ExtRequestPrebid) (imps : imp_map) (conversions : Conversions)
  (enforceDealFloors : bool).

Fixpoint enforce_seat (bidderName : string) (seat : PbsOrtbSeatBid) (ls : list loc) : option collected :=
  match ls with
  | [] => Some {| c_eligible := []; c_errs := []; c_rejected := [] |}
  | l :: rest =>
      bid ← bid_of st l;
      c ← enforce_seat bidderName seat rest;
      Some match judge_bid x imps conversions enforceDealFloors bidderName (seat_Currency seat) bid with
           | Eligible => {| c_eligible := l :: c_eligible c; c_errs := c_errs c; c_rejected := c_rejected c |}
           | Rejected =>
               {| c_eligible := c_eligible c; c_errs := c_errs c;
                  c_rejected := plain_seat [l] (seat_Currency seat) (seat_Seat seat)
                                :: c_rejected c |}
           | Dropped => c
           | Failed e => {| c_eligible := c_eligible c; c_errs := e :: c_errs c; c_rejected := c_rejected c |}
           end
  end.

Fixpoint enforce_seats (seats : gmap string PbsOrtbSeatBid) (visit : list (string * PbsOrtbSeatBid))
  : option (gmap string PbsOrtbSeatBid * list enforce_error * list PbsOrtbSeatBid) :=
  match visit with
  | [] => Some (seats, [], [])
  | (bidderName, seatBid) :: rest =>
      c ← enforce_seat bidderName seatBid (seat_Bids seatBid);
      '(seats, errs, rejected) ← enforce_seats (<[bidderName := set_seat_Bids (c_eligible c) seatBid]> seats) rest;
      Some (seats, c_errs c ++ errs, c_rejected c ++ rejected)
  end.
End EnforceBids.

(** The parse error of the request extension was taken by the caller, so [x] is read without one. *)
Definition enforceFloorToBids `{MapRange} (st : bid_store) (x : option ExtRequestPrebid) (imps : list ImpWrapper)
    (seatBids : gmap string PbsOrtbSeatBid) (conversions : Conversions) (enforceDealFloors : bool) :=
  enforce_seats st x (make_imp_map imps) conversions enforceDealFloors seatBids (map_range seatBids).

(** ** The handler *)
Record enforced := {
  e_seats : gmap string PbsOrtbSeatBid;
  e_errs : list enforce_error;
  e_rejected : list PbsOrtbSeatBid;
  e_store : bid_store;
  e_request : RequestWrapper
}.

(** [rebuild] is the error of [RebuildRequest], which encodes the extensions as JSON. *)
Definition Enforce `{MapRange} (st : bid_store) (r : RequestWrapper) (seatBids : gmap string PbsOrtbSeatBid)
    (account : AccountPriceFloors) (conversions : Conversions) (intn : Z → Z) (rebuild : option string)
  : option enforced :=
  let unchanged errs st r := Some {| e_seats := seatBids; e_errs := errs; e_rejected := []; e_store := st; e_request := r |} in
  let '(requestExt, err, r) := GetRequestExt r in
  match err with
  | Some _ => unchanged [E_requestExt] st r
  | None =>
      let '(enabled, r) := isPriceFloorsEnabled account r in
      if negb enabled then unchanged [] st r
      else if isSignalingSkipped requestExt || negb (isValidImpBidFloorPresent (rw_Imp r)) then unchanged [] st r
      else
        let enforceFloors := isSatisfiedByEnforceRate requestExt (apf_EnforceFloorsRate account) intn in
        let '(updated, requestExt) := updateEnforcePBS enforceFloors requestExt in
        let r := set_rw_Prebid requestExt r in
        match (if updated then rebuild else None) with
        | Some e => unchanged [E_rebuild e] st r
        | None =>
            '(st, imps) ← updateBidExt st (rw_Imp r) seatBids;
            if enforceFloors then
              let enforceDealFloors := apf_EnforceDealFloors account && getEnforceDealsFlag requestExt in
              '(seats, errs, rejected) ←
                enforceFloorToBids st requestExt (rw_Imp r) seatBids conversions enforceDealFloors;
              Some {| e_seats := seats; e_errs := errs; e_rejected := rejected; e_store := st; e_request := r |}
            else unchanged [] st r
        end
  end.

(** ** Lemmas *)
(** What a bid must offer: its price in the floor's currency, with a cent of tolerance. *)
Definition below_floor (conversions : Conversions) (seatCurrency : string) (imp : ImpWrapper) (bid : Bid) : Prop :=
  ∃ rate, getCurrencyConversionRate seatCurrency (imp_BidFloorCur imp) conversions = Ok rate ∧
    fltb (fadd (fmul rate (bid_Price bid)) floorPrecision) (imp_BidFloor imp) = true.

(** When floors are not enforced on a bid. *)
Definition exempt (x : option ExtRequestPrebid) (enforceDealFloors : bool) (bid : Bid) : Prop :=
  isEnforcementEnabled x = false ∨ (bid_DealID bid ≠ "" ∧ enforceDealFloors = false).

Lemma exempt_iff x deals bid :
  exempt x deals bid ↔ negb (isEnforcementEnabled x) || (hasDealID bid && negb deals) = true.
Proof.
  unfold exempt, hasDealID. destruct (isEnforcementEnabled x), deals, (String.eqb_spec (bid_DealID bid) "");
    simpl; naive_solver.
Qed.

Lemma judge_bid_spec x imps conv deals name cur bid :
  match judge_bid x imps conv deals name cur bid with
  | Dropped => imps !! bid_ImpID bid = None
  | Rejected => ∃ imp, imps !! bid_ImpID bid = Some imp ∧ ¬ exempt x deals bid ∧ below_floor conv cur imp bid
  | Eligible => ∃ imp, imps !! bid_ImpID bid = Some imp ∧
      (exempt x deals bid ∨
       (is_ok (getCurrencyConversionRate cur (imp_BidFloorCur imp) conv) = true ∧ ¬ below_floor conv cur imp bid))
  | Failed _ => ∃ imp, imps !! bid_ImpID bid = Some imp ∧ ¬ exempt x deals bid ∧
      is_ok (getCurrencyConversionRate cur (imp_BidFloorCur imp) conv) = false
  end.
Proof.
  unfold judge_bid. pose proof (exempt_iff x deals bid) as Hx.
  destruct (imps !! bid_ImpID bid) as [imp|]; [|done].
  destruct (isEnforcementEnabled x); simpl in Hx; [|exists imp; tauto].
  destruct (hasDealID bid && negb deals); [exists imp; tauto|].
  destruct (getCurrencyConversionRate _ _ conv) as [rate|e] eqn:Er;
    [|exists imp; rewrite Er; split_and!; [done|intros ?%Hx; done|done]].
  destruct (fltb _ (imp_BidFloor imp)) eqn:E; exists imp; split_and!; try done; [by intros ?%Hx|by exists rate|].
  right. rewrite Er. split; [done|]. intros (rate' & Hr & Hlt). congruence.
Qed.

Section EnforceLemmas.
Context (st : bid_store) (x : option ExtRequestPrebid) (imps : imp_map) (conv : Conversions) (deals : bool).

(** The bids of a seat with a given verdict. *)
Definition judged (v : verdict) (name : string) (seat : PbsOrtbSeatBid) (l : loc) : Prop :=
  ∃ bid, bid_of st l = Some bid ∧ judge_bid x imps conv deals name (seat_Currency seat) bid = v.
Definition rejection (seat : PbsOrtbSeatBid) (l : loc) : PbsOrtbSeatBid :=
  plain_seat [l] (seat_Currency seat) (seat_Seat seat).

Lemma enforce_seat_spec name seat ls c :
  enforce_seat st x imps conv deals name seat ls = Some c →
  c_eligible c `sublist_of` ls ∧
  (∀ l, l ∈ c_eligible c ↔ l ∈ ls ∧ judged Eligible name seat l) ∧
  (∀ rb, rb ∈ c_rejected c ↔ ∃ l, l ∈ ls ∧ judged Rejected name seat l ∧ rb = rejection seat l).
Proof.
  revert c. induction ls as [|l ls IH]; intros c; simpl.
  { intros [= <-]. simpl. split_and!; [done|set_solver..]. }
  destruct (bid_of st l) as [bid|] eqn:Eb; [|done]. simpl.
  destruct (enforce_seat _ _ _ _ _ name seat ls) as [c'|]; [|done]. simpl. intros [= <-].
  destruct (IH c' eq_refl) as (Hsub & Hel & Hrej).
  assert (∀ v, judged v name seat l ↔ judge_bid x imps conv deals name (seat_Currency seat) bid = v) as Hj.
  { intros v. unfold judged. rewrite Eb. naive_solver. }
  pose proof (Hj Eligible) as HjE. pose proof (Hj Rejected) as HjR. clear Hj.
  destruct (judge_bid _ _ _ _ _ _ bid) eqn:Ej; simpl.
  - split_and!; [by constructor| |].
    + intros l'. rewrite !elem_of_cons, Hel. naive_solver.
    + intros rb. rewrite Hrej. setoid_rewrite elem_of_cons. naive_solver.
  - split_and!; [by constructor| |].
    + intros l'. rewrite Hel, elem_of_cons. naive_solver.
    + intros rb. rewrite elem_of_cons, Hrej. setoid_rewrite elem_of_cons. naive_solver.
  - split_and!; [by constructor| |].
    + intros l'. rewrite Hel, elem_of_cons. naive_solver.
    + intros rb. rewrite Hrej. setoid_rewrite elem_of_cons. naive_solver.
  - split_and!; [by constructor| |].
    + intros l'. rewrite Hel, elem_of_cons. naive_solver.
    + intros rb. rewrite Hrej. setoid_rewrite elem_of_cons. naive_solver.
Qed.

(** The seat as enforcement leaves it. *)
Definition enforced_seat (name : string) (seat seat' : PbsOrtbSeatBid) : Prop :=
  seat_Currency seat' = seat_Currency seat ∧ seat_Seat seat' = seat_Seat seat ∧
  seat_Bids seat' `sublist_of` seat_Bids seat ∧
  ∀ l, l ∈ seat_Bids seat' ↔ l ∈ seat_Bids seat ∧ judged Eligible name seat l.

Lemma enforce_seats_spec seats visit seats' errs rejected :
  NoDup visit.*1 → enforce_seats st x imps conv deals seats visit = Some (seats', errs, rejected) →
  (∀ name, name ∉ visit.*1 → seats' !! name = seats !! name) ∧
  (∀ name seat, (name, seat) ∈ visit → ∃ seat', seats' !! name = Some seat' ∧ enforced_seat name seat seat') ∧
  (∀ rb, rb ∈ rejected ↔ ∃ name seat l, (name, seat) ∈ visit ∧ l ∈ seat_Bids seat ∧
     judged Rejected name seat l ∧ rb = rejection seat l).
Proof.
  revert seats errs rejected. induction visit as [|[name seat] visit IH]; intros seats errs rejected Hnd; simpl.
  { intros [= <- <- <-]. split_and!; [done|set_solver..]. }
  apply NoDup_cons in Hnd as [Hn Hnd].
  destruct (enforce_seat _ _ _ _ _ name seat _) as [c|] eqn:Ec; [|done]. simpl.
  destruct (enforce_seats _ _ _ _ _ _ visit) as [[[s1 e1] r1]|] eqn:Es; [|done]. simpl. intros [= <- <- <-].
  apply enforce_seat_spec in Ec as (Hsub & Hel & Hrej). apply IH in Es as (Hother & Hin & Hr); [|done].
  split_and!.
  - intros n Hn'. rewrite Hother by set_solver. apply lookup_insert_ne. set_solver.
  - intros n s [[= -> ->]|Hv]%elem_of_cons; [|by apply Hin]. exists (set_seat_Bids (c_eligible c) seat).
    split; [rewrite Hother by done; apply lookup_insert_eq|]. by unfold enforced_seat.
  - intros rb. rewrite elem_of_app, Hrej, Hr. setoid_rewrite elem_of_cons. naive_solver.
Qed.
End EnforceLemmas.

(** Noting floors leaves what a bid offers alone. *)
Lemma note_bids_bid_of s ls s' l : note_bids s ls = Some s' → bid_of s'.1 l = bid_of s.1 l.
Proof.
  revert s. induction ls as [|l' ls IH]; intros s; simpl; [by intros [= <-]|].
  destruct (note_bid s l') as [s1|] eqn:E; [|done]. simpl. intros Hs. rewrite (IH _ Hs). clear IH Hs.
  destruct s as [st imps]. unfold note_bid in E. destruct (st !! l') as [p|] eqn:Ep; [|done]. cbn [mbind option_bind] in E.
  destruct (pb_Bid p) as [bid|] eqn:Eb; [|done]. cbn [mbind option_bind] in E.
  destruct (imps !! _) as [imp|]; [|by simplify_eq].
  destruct (updateBidExtWithFloors imp (imp_BidFloorCur imp)) as [[fl|] imp']; injection E as <-; [|done].
  simpl. unfold bid_of.
  destruct (decide (l = l')) as [->|Hne]; [|by rewrite lookup_insert_ne].
  rewrite lookup_insert_eq, Ep. simpl. done.
Qed.

Lemma updateEnforcePBS_enabled enforceFloors x :
  isEnforcementEnabled (updateEnforcePBS enforceFloors x).2 = enforceFloors && isEnforcementEnabled x.
Proof.
  unfold updateEnforcePBS, isEnforcementEnabled, getFloorsExt, GetEnforcePBS.
  destruct x as [[ch [fl|]]|]; simpl; [|by destruct enforceFloors..].
  destruct (pf_Enforcement fl) as [[? [old|] ? ? ?]|] eqn:E; simpl; [|by destruct enforceFloors..].
  destruct enforceFloors, old; simpl; rewrite ?E; done.
Qed.

Lemma updateEnforcePBS_deals enforceFloors x :
  getEnforceDealsFlag (updateEnforcePBS enforceFloors x).2 = getEnforceDealsFlag x.
Proof.
  unfold updateEnforcePBS, getEnforceDealsFlag, getFloorsExt, GetEnforceDealsFlag.
  destruct x as [[ch [fl|]]|]; simpl; try done.
  destruct (pf_Enforcement fl) as [[? [old|] ? ? ?]|] eqn:E; simpl; try done.
  destruct enforceFloors, old; simpl; rewrite ?E; done.
Qed.

(** Whether a request is subject to enforcement: floors are on for the account and the request,
    signalling was not skipped, some impression has a floor, and the draw is below both rates. *)
Definition enforcing (r : RequestWrapper) (account : AccountPriceFloors) (intn : Z → Z) : bool :=
  apf_Enabled account && GetEnabled (getFloorsExt (rw_Prebid r)) &&
  negb (isSignalingSkipped (rw_Prebid r)) && isValidImpBidFloorPresent (rw_Imp r) &&
  isSatisfiedByEnforceRate (rw_Prebid r) (apf_EnforceFloorsRate account) intn.

(** When enforcement goes through the bids: the extension is readable, the request is subject to
    enforcement and an extension that changed can be encoded. *)
Definition floors_applied (r : RequestWrapper) (account : AccountPriceFloors) (intn : Z → Z) (rebuild : option string) : Prop :=
  rw_ExtErr r = None ∧ enforcing r account intn = true ∧
  ((updateEnforcePBS true (rw_Prebid r)).1 = true → rebuild = None).

(** The handler, for a request whose extension does not parse. *)
Lemma Enforce_unreadable `{MapRange} st r seats account conv intn rebuild out e :
  rw_ExtErr r = Some e → Enforce st r seats account conv intn rebuild = Some out →
  e_seats out = seats ∧ e_rejected out = [].
Proof. intros Hr. unfold Enforce, GetRequestExt. rewrite Hr. by intros [= <-]. Qed.

(** The handler, for a request whose extension parses. *)
Lemma Enforce_readable `{MapRange} st r seats account conv intn rebuild out :
  rw_ExtErr r = None → Enforce st r seats account conv intn rebuild = Some out →
  (e_seats out = seats ∧ e_rejected out = [] ∧ (enforcing r account intn = true →
     (updateEnforcePBS true (rw_Prebid r)).1 = true ∧ is_Some rebuild)) ∨
  (enforcing r account intn = true ∧ ((updateEnforcePBS true (rw_Prebid r)).1 = true → rebuild = None) ∧ ∃ st' imps,
    let x := (updateEnforcePBS true (rw_Prebid r)).2 in
    updateBidExt st (rw_Imp r) seats = Some (st', imps) ∧
    enforceFloorToBids st' x (rw_Imp r) seats conv (apf_EnforceDealFloors account && getEnforceDealsFlag x) =
      Some (e_seats out, e_errs out, e_rejected out)).
Proof.
  intros Hr. unfold Enforce, GetRequestExt. rewrite Hr. unfold enforcing.
  assert (isPriceFloorsEnabled account (set_rw_ExtErr None r) =
    (apf_Enabled account && GetEnabled (getFloorsExt (rw_Prebid r)), set_rw_ExtErr None r)) as ->.
  { unfold isPriceFloorsEnabled, isPriceFloorsEnabledForRequest, GetRequestExt, getFloorsExt. simpl.
    destruct (apf_Enabled account); [|done]. by destruct (rw_Prebid r ≫= erp_Floors). }
  destruct (apf_Enabled account && GetEnabled _); cbn [negb andb]; [|intros [= <-]; by left].
  change (rw_Imp (set_rw_ExtErr None r)) with (rw_Imp r).
  destruct (isSignalingSkipped (rw_Prebid r)); cbn [negb andb orb]; [intros [= <-]; by left|].
  destruct (isValidImpBidFloorPresent (rw_Imp r)); cbn [negb andb orb]; [|intros [= <-]; by left].
  destruct (isSatisfiedByEnforceRate _ _ _).
  - destruct (updateEnforcePBS true (rw_Prebid r)) as [u x]. destruct (if u then rebuild else None) as [e|] eqn:Eu.
    { intros [= <-]. left. split_and!; [done..|]. intros _. destruct u; [by split; [|eexists]|done]. }
    change (rw_Imp (set_rw_Prebid x (set_rw_ExtErr None r))) with (rw_Imp r).
    destruct (updateBidExt st (rw_Imp r) seats) as [[st' imps]|] eqn:Eb;
      cbn [mbind option_bind snd]; [|done]. destruct (enforceFloorToBids _ _ _ _ _ _) as [[[s1 e1] r1]|] eqn:Ee;
      cbn [mbind option_bind]; [|done]. intros [= <-]. right. split; [done|].
    split; [intros Hu; cbn in Hu; by subst u|]. by exists st', imps.
  - destruct (updateEnforcePBS false (rw_Prebid r)) as [u x]. destruct (if u then rebuild else None).
    { intros [= <-]. left. by split_and!. }
    change (rw_Imp (set_rw_Prebid x (set_rw_ExtErr None r))) with (rw_Imp r).
    destruct (updateBidExt st (rw_Imp r) seats) as [[st' imps]|];
      cbn [mbind option_bind]; [|done]. intros [= <-]. left. by split_and!.
Qed.

(** A bid that enforcement leaves in a seat. *)
Lemma enforced_bid_reaches_floor `{MapRange} st r seats account conv intn out name seat l bid :
  rw_ExtErr r = None → Enforce st r seats account conv intn None = Some out → enforcing r account intn = true →
  isEnforcementEnabled (rw_Prebid r) = true → e_seats out !! name = Some seat → l ∈ seat_Bids seat → bid_of st l = Some bid →
  ∃ imp, make_imp_map (rw_Imp r) !! bid_ImpID bid = Some imp ∧
    ((bid_DealID bid ≠ "" ∧ apf_EnforceDealFloors account && getEnforceDealsFlag (rw_Prebid r) = false) ∨
     ¬ below_floor conv (seat_Currency seat) imp bid).
Proof.
  intros Hr He Hen Hpbs Hs Hl Hb.
  apply Enforce_readable in He as [(_ & _ & Hreb)|(_ & _ & st' & imps & Hn & He)]; [by destruct (Hreb Hen) as [_ [??]]| |done].
  apply enforce_seats_spec in He as (Hother & Hin & _); [|auto with go].
  assert (∃ seat0, (name, seat0) ∈ map_range seats) as [seat0 Hv].
  { destruct (decide (name ∈ (map_range seats).*1)) as [([n s] & -> & Hv)%list_elem_of_fmap|Hn']; [by exists s|].
    exists seat. apply elem_of_map_range. by rewrite <-(Hother name Hn'). }
  destruct (Hin name seat0 Hv) as (seat' & Hs' & Hc & _ & _ & Hel). rewrite Hs in Hs'. injection Hs' as <-.
  apply Hel in Hl as (_ & bid' & Hb' & Hj).
  rewrite (note_bids_bid_of _ _ _ l Hn : bid_of st' l = bid_of st l), Hb in Hb'. injection Hb' as <-.
  pose proof (judge_bid_spec (updateEnforcePBS true (rw_Prebid r)).2 (make_imp_map (rw_Imp r)) conv
    (apf_EnforceDealFloors account && getEnforceDealsFlag (updateEnforcePBS true (rw_Prebid r)).2)
    name (seat_Currency seat0) bid) as Hspec. rewrite Hj in Hspec. destruct Hspec as (imp & Hi & Hx).
  exists imp. rewrite Hc. split; [done|]. destruct Hx as [[Hoff|Hdeal]|[_ ?]]; [|left|by right].
  - by rewrite updateEnforcePBS_enabled, Hpbs in Hoff.
  - by rewrite updateEnforcePBS_deals in Hdeal.
Qed.

(** What remains of the seats and what is reported as rejected. *)
Lemma enforceFloorToBids_spec `{MapRange} st x imps seats conv deals seats' errs rejected :
  enforceFloorToBids st x imps seats conv deals = Some (seats', errs, rejected) →
  (∀ name, seats !! name = None → seats' !! name = None) ∧
  (∀ name seat, seats !! name = Some seat → ∃ seat', seats' !! name = Some seat' ∧
     seat_Currency seat' = seat_Currency seat ∧ seat_Bids seat' `sublist_of` seat_Bids seat ∧
     ∀ l, l ∈ seat_Bids seat' ↔ l ∈ seat_Bids seat ∧ ∃ bid imp, bid_of st l = Some bid ∧
       make_imp_map imps !! bid_ImpID bid = Some imp ∧
       (exempt x deals bid ∨
        (is_ok (getCurrencyConversionRate (seat_Currency seat) (imp_BidFloorCur imp) conv) = true ∧
         ¬ below_floor conv (seat_Currency seat) imp bid))) ∧
  (∀ rb, rb ∈ rejected ↔ ∃ name seat l bid imp,
     seats !! name = Some seat ∧ l ∈ seat_Bids seat ∧ bid_of st l = Some bid ∧
     make_imp_map imps !! bid_ImpID bid = Some imp ∧ ¬ exempt x deals bid ∧
     below_floor conv (seat_Currency seat) imp bid ∧ rb = rejection seat l).
Proof.
  intros He. apply enforce_seats_spec in He as (Hother & Hin & Hrej); [|auto with go].
  assert (∀ v name seat l, judged st x (make_imp_map imps) conv deals v name seat l ↔ ∃ bid, bid_of st l = Some bid ∧
    judge_bid x (make_imp_map imps) conv deals name (seat_Currency seat) bid = v) as Hj by done.
  split_and!.
  - intros name Hn. rewrite Hother; [done|]. intros ([n s] & -> & Hv)%list_elem_of_fmap.
    apply elem_of_map_range in Hv. simpl in Hn. congruence.
  - intros name seat Hs. destruct (Hin name seat) as (seat' & Hs' & Hc & _ & Hsub & Hel); [by apply elem_of_map_range|].
    exists seat'. split_and!; [done..|]. intros l. rewrite Hel, Hj. apply and_iff_compat_l.
    pose proof (judge_bid_spec x (make_imp_map imps) conv deals name (seat_Currency seat)) as Hspec.
    split; [intros (bid & Hb & Hv)|intros (bid & imp & Hb & Hi & Hv)]; exists bid; specialize (Hspec bid).
    + rewrite Hv in Hspec. destruct Hspec as (imp & ? & ?). by exists imp.
    + split; [done|]. destruct (judge_bid _ _ _ _ _ _ bid); naive_solver congruence.
  - intros rb. rewrite Hrej. split.
    + intros (name & seat & l & Hv & Hl & (bid & Hb & Hjv) & ->). apply elem_of_map_range in Hv.
      pose proof (judge_bid_spec x (make_imp_map imps) conv deals name (seat_Currency seat) bid) as Hspec.
      rewrite Hjv in Hspec. destruct Hspec as (imp & ? & ? & ?). by exists name, seat, l, bid, imp.
    + intros (name & seat & l & bid & imp & Hs & Hl & Hb & Hi & Hx & Hbelow & ->). exists name, seat, l.
      split_and!; [by apply elem_of_map_range|done| |done]. exists bid. split; [done|].
      pose proof (judge_bid_spec x (make_imp_map imps) conv deals name (seat_Currency seat) bid) as Hspec.
      destruct (judge_bid _ _ _ _ _ _ bid) as [| | |e]; [|done|congruence|].
      * destruct Hspec as (imp' & Hi' & [?|[_ Hn]]); [done|]. destruct Hn. congruence.
      * destruct Hspec as (imp' & Hi' & _ & Hok). destruct Hbelow as (rate & Hr & _).
        rewrite Hi in Hi'. injection Hi' as <-. by rewrite Hr in Hok.
Qed.

(** ** Properties *)

(** C2: enforcement takes out exactly the bids below their floor: in every seat, in its order,
    the bids that remain are those for a known impression that are exempt (a deal when deal
    floors are not enforced) or whose price reaches the floor in its currency, and the rejected
    ones are those whose price does not, each reported alone with its seat, whatever the order the seats
    are visited in. *)
Theorem enforceFloorToBids_exact `{MapRange} st x imps seats conv deals seats' errs rejected :
  enforceFloorToBids st x imps seats conv deals = Some (seats', errs, rejected) →
  (∀ name, seats !! name = None → seats' !! name = None) ∧
  (∀ name seat, seats !! name = Some seat → ∃ seat', seats' !! name = Some seat' ∧
     seat_Currency seat' = seat_Currency seat ∧ seat_Bids seat' `sublist_of` seat_Bids seat ∧
     ∀ l, l ∈ seat_Bids seat' ↔ l ∈ seat_Bids seat ∧ ∃ bid imp, bid_of st l = Some bid ∧
       make_imp_map imps !! bid_ImpID bid = Some imp ∧
       (exempt x deals bid ∨
        (is_ok (getCurrencyConversionRate (seat_Currency seat) (imp_BidFloorCur imp) conv) = true ∧
         ¬ below_floor conv (seat_Currency seat) imp bid))) ∧
  (∀ rb, rb ∈ rejected ↔ ∃ name seat l bid imp,
     seats !! name = Some seat ∧ l ∈ seat_Bids seat ∧ bid_of st l = Some bid ∧
     make_imp_map imps !! bid_ImpID bid = Some imp ∧ ¬ exempt x deals bid ∧
     below_floor conv (seat_Currency seat) imp bid ∧ rb = rejection seat l).
Proof. apply enforceFloorToBids_spec. Qed.

Definition sample_bid (price : float64) (deal : string) : PbsOrtbBid :=
  plain_bid (Some {| bid_ID := "b"; bid_ImpID := "i1"; bid_Price := price; bid_AdM := ""; bid_NURL := "";
                       bid_DealID := deal; bid_W := 0; bid_H := 0; bid_Exp := 0; bid_MType := 0; bid_ExtType := None;
     bid_CrID := "cr"; bid_ADomain := []; bid_Cat := []; bid_CatTax := 0; bid_Dur := 0; bid_Ext := "" |}) BidTypeBanner.
Definition sample_store : bid_store :=
  {[0%nat := sample_bid (fofZ 2) ""; 1%nat := sample_bid (fofZ 4) ""; 2%nat := sample_bid f1 "deal"]}.
Definition sample_seats : gmap string PbsOrtbSeatBid :=
  {["appnexus" := plain_seat [0; 1; 2]%nat "USD" "appnexus"]}.
Definition floored_imp : ImpWrapper := set_imp_floor (fofZ 3) "USD" sample_imp.

Lemma enforceFloorToBids_exact_witness :
  let H := canonical_range in
  let imps := [floored_imp] in
  match enforceFloorToBids sample_store None imps sample_seats no_rates false with
  | None => False
  | Some (seats', errs, rejected) =>
      map seat_Bids rejected = [[0%nat]] ∧
      (∀ name, sample_seats !! name = None → seats' !! name = None) ∧
      (∀ name seat, sample_seats !! name = Some seat → ∃ seat', seats' !! name = Some seat' ∧
         seat_Currency seat' = seat_Currency seat ∧ seat_Bids seat' `sublist_of` seat_Bids seat ∧
         ∀ l, l ∈ seat_Bids seat' ↔ l ∈ seat_Bids seat ∧ ∃ bid imp, bid_of sample_store l = Some bid ∧
           make_imp_map imps !! bid_ImpID bid = Some imp ∧
           (exempt None false bid ∨
            (is_ok (getCurrencyConversionRate (seat_Currency seat) (imp_BidFloorCur imp) no_rates) = true ∧
             ¬ below_floor no_rates (seat_Currency seat) imp bid))) ∧
      (∀ rb, rb ∈ rejected ↔ ∃ name seat l bid imp,
         sample_seats !! name = Some seat ∧ l ∈ seat_Bids seat ∧ bid_of sample_store l = Some bid ∧
         make_imp_map imps !! bid_ImpID bid = Some imp ∧ ¬ exempt None false bid ∧
         below_floor no_rates (seat_Currency seat) imp bid ∧ rb = rejection seat l)
  end.
Proof.
  intros H imps. destruct (enforceFloorToBids _ _ _ _ _ _) as [[[seats' errs] rejected]|] eqn:E.
  - split.
    + vm_compute in E. by injection E as _ _ <-.
    + apply (enforceFloorToBids_exact sample_store None imps sample_seats no_rates false seats' errs rejected E).
  - vm_compute in E. done.
Defined.

(** C9: what [Enforce] does to the bids, in every case.  When the request extension cannot be
    read, when the request is not subject to enforcement, or when the extension changed and
    cannot be encoded, the seats are left as they are and nothing is reported as rejected.
    Otherwise no seat is added or removed, and each seat keeps, in its order, exactly the bids
    for an impression of the request for which the request opts out of enforcement
    ([enforcePBS] false), or which are deals whose floors are not enforced, or whose price
    reaches the floor in its currency; the bids reported as rejected are exactly the ones not
    exempt that are below the floor.  So with [enforcePBS] false only bids for unknown impressions go. *)
Theorem Enforce_exact `{MapRange} st r seats account conv intn rebuild out :
  Enforce st r seats account conv intn rebuild = Some out →
  (¬ floors_applied r account intn rebuild → e_seats out = seats ∧ e_rejected out = []) ∧
  (floors_applied r account intn rebuild →
   let deals := apf_EnforceDealFloors account && getEnforceDealsFlag (rw_Prebid r) in
   (∀ name, seats !! name = None → e_seats out !! name = None) ∧
   (∀ name seat, seats !! name = Some seat → ∃ seat', e_seats out !! name = Some seat' ∧
      seat_Currency seat' = seat_Currency seat ∧ seat_Bids seat' `sublist_of` seat_Bids seat ∧
      ∀ l, l ∈ seat_Bids seat' ↔ l ∈ seat_Bids seat ∧ ∃ bid imp, bid_of st l = Some bid ∧
        make_imp_map (rw_Imp r) !! bid_ImpID bid = Some imp ∧
        (isEnforcementEnabled (rw_Prebid r) = false ∨ (bid_DealID bid ≠ "" ∧ deals = false) ∨
         (is_ok (getCurrencyConversionRate (seat_Currency seat) (imp_BidFloorCur imp) conv) = true ∧
          ¬ below_floor conv (seat_Currency seat) imp bid))) ∧
   (∀ rb, rb ∈ e_rejected out ↔ ∃ name seat l bid imp,
      seats !! name = Some seat ∧ l ∈ seat_Bids seat ∧ bid_of st l = Some bid ∧
      make_imp_map (rw_Imp r) !! bid_ImpID bid = Some imp ∧ isEnforcementEnabled (rw_Prebid r) = true ∧
      ¬ (bid_DealID bid ≠ "" ∧ deals = false) ∧
      below_floor conv (seat_Currency seat) imp bid ∧ rb = rejection seat l)).
Proof.
  intros He. split.
  - intros Hno. destruct (rw_ExtErr r) as [e|] eqn:Hr; [by apply Enforce_unreadable with (1 := Hr) in He|].
    apply Enforce_readable in He as [(? & ? & _)|(Hen & Hreb & _)]; [done| |done]. by destruct Hno.
  - intros (Hr & Hen & Hreb) deals.
    apply Enforce_readable in He as [(_ & _ & Hfail)|(_ & _ & st' & imps & Hn & He)]; [| |done].
    { destruct (Hfail Hen) as [Hu [e ->]]. by specialize (Hreb Hu). }
    assert (∀ l, bid_of st' l = bid_of st l) as Hst by (intros l; exact (note_bids_bid_of _ _ _ l Hn)).
    apply enforceFloorToBids_spec in He. rewrite updateEnforcePBS_deals in He. fold deals in He.
    setoid_rewrite Hst in He. unfold exempt in He. rewrite updateEnforcePBS_enabled in He. cbn [andb] in He.
    destruct He as (Hno & Hin & Hrej). split_and!; [exact Hno| |].
    + intros name seat Hs. destruct (Hin name seat Hs) as (seat' & ? & ? & ? & Hl). exists seat'.
      split_and!; [done..|]. intros l. rewrite Hl. naive_solver.
    + intros rb. rewrite Hrej. destruct (isEnforcementEnabled (rw_Prebid r)); naive_solver.
Qed.

Definition enforcing_account : AccountPriceFloors :=
  {| apf_Enabled := true; apf_EnforceFloorsRate := 100; apf_AdjustForBidAdjustment := true;
     apf_EnforceDealFloors := false; apf_UseDynamicData := false; apf_MaxRule := 100;
     apf_MaxSchemaDims := 3; apf_Fetcher := sample_fetch |}.

(** Of the bids of 2, 4 and a deal of 1 for a floor of 3 the first goes; with [enforcePBS] false all stay. *)
Lemma Enforce_exact_witness :
  let H := canonical_range in
  let r := set_rw_Imp [floored_imp] sample_request in
  floors_applied r enforcing_account (λ _, 50) None ∧
  match Enforce sample_store r sample_seats enforcing_account no_rates (λ _, 50) None with
  | None => False
  | Some out =>
      e_rejected out = [rejection (plain_seat [0; 1; 2]%nat "USD" "appnexus") 0%nat] ∧
      ∀ name seat, sample_seats !! name = Some seat → ∃ seat', e_seats out !! name = Some seat' ∧
        ∀ l, l ∈ seat_Bids seat' ↔ l ∈ seat_Bids seat ∧ ∃ bid imp, bid_of sample_store l = Some bid ∧
          make_imp_map (rw_Imp r) !! bid_ImpID bid = Some imp ∧
          (isEnforcementEnabled (rw_Prebid r) = false ∨ (bid_DealID bid ≠ "" ∧
             apf_EnforceDealFloors enforcing_account && getEnforceDealsFlag (rw_Prebid r) = false) ∨
           (is_ok (getCurrencyConversionRate (seat_Currency seat) (imp_BidFloorCur imp) no_rates) = true ∧
            ¬ below_floor no_rates (seat_Currency seat) imp bid))
  end.
Proof.
  intros H r. assert (floors_applied r enforcing_account (λ _, 50) None) as Ha.
  { split; [reflexivity|]. split; [vm_compute; reflexivity|intros _; reflexivity]. }
  split; [exact Ha|]. destruct (Enforce _ _ _ _ _ _ _) as [out|] eqn:E; [|vm_compute in E; discriminate E]. split.
  - vm_compute in E. injection E as <-. reflexivity.
  - intros name seat Hs.
    destruct (Enforce_exact sample_store r sample_seats enforcing_account no_rates (λ _, 50) None out E) as [_ Hap].
    destruct (Hap Ha) as (_ & Hin & _). destruct (Hin name seat Hs) as (seat' & Hs' & _ & _ & Hl).
    exists seat'. split; [exact Hs'|exact Hl].
Defined.
