(* ===== verification/Heap.v ===== *)
(** * Priority queues: [container/heap] over a slice

    The binary heap of Go's standard library on a slice ordered by an integer key, the way
    [floors.FetchQueue] implements [heap.Interface]: [Less] compares keys, [Swap] exchanges two
    elements, [Push] appends and [Pop] cuts the last element.  [heap.Push] and [heap.Pop] keep
    the elements and the heap order, and the root has a least key. *)
From S2P Require Import Prelude.

#[local] Open Scope nat_scope.

Section heap.
  Context {A : Type} (key : A → Z).
  Implicit Types (l : list A) (i j n : nat).

(** [Less(i, j)] and [Swap(i, j)] of the interface. *)
Definition Less l i j : bool :=
  match l !! i, l !! j with Some a, Some b => (key a <? key b)%Z | _, _ => false end.
Definition Swap l i j : list A :=
  match l !! i, l !! j with Some a, Some b => <[i := b]> (<[j := a]> l) | _, _ => l end.

(** [heap.up]: the index at least halves on every turn. *)
Fixpoint up (fuel : nat) l j : list A :=
  match fuel with
  | 0 => l
  | S fuel =>
      let i := (j - 1) / 2 in
      if (i =? j) || negb (Less l j i) then l else up fuel (Swap l i j) i
  end.

(** The lesser child of [i] within the first [n] elements, the left one when they are equal. *)
Definition lesser_child l i n : nat :=
  let j1 := 2 * i + 1 in if (j1 + 1 <? n) && Less l (j1 + 1) j1 then j1 + 1 else j1.

(** [heap.down] on the first [n] elements. *)
Fixpoint down (fuel : nat) l i n : list A :=
  match fuel with
  | 0 => l
  | S fuel =>
      if n <=? 2 * i + 1 then l
      else
        let j := lesser_child l i n in
        if negb (Less l j i) then l else down fuel (Swap l i j) j n
  end.

(** [heap.Push] *)
Definition heap_push l (x : A) : list A :=
  let l := l ++ [x] in up (length l) l (length l - 1).

(** [heap.Pop]; on an empty queue Go would panic. *)
Definition heap_pop l : option (A * list A) :=
  let n := length l - 1 in
  let l' := down n (Swap l 0 n) 0 n in
  x ← l' !! n; Some (x, take n l').

(** ** The heap order *)
Definition K l i : Z := from_option key 0%Z (l !! i).

(** Every parent within the first [n] elements has a key no greater than its children's. *)
Definition heap_upto l n : Prop :=
  ∀ p k, (k = 2 * p + 1 ∨ k = 2 * p + 2) → k < n → (K l p ≤ K l k)%Z.
Definition is_heap l : Prop := heap_upto l (length l).

Lemma Less_K l i j : i < length l → j < length l → Less l i j = (K l i <? K l j)%Z.
Proof. intros [a Ha]%lookup_lt_is_Some_2 [b Hb]%lookup_lt_is_Some_2. unfold Less, K. by rewrite Ha, Hb. Qed.

Lemma Swap_length l i j : length (Swap l i j) = length l.
Proof. unfold Swap. repeat case_match; by rewrite ?length_insert. Qed.

Lemma lookup_Swap l i j k : i < length l → j < length l →
  Swap l i j !! k = if decide (k = i) then l !! j else if decide (k = j) then l !! i else l !! k.
Proof.
  intros Hi Hj. pose proof Hi as [a Ha]%lookup_lt_is_Some_2. pose proof Hj as [b Hb]%lookup_lt_is_Some_2.
  unfold Swap. rewrite Ha, Hb. repeat case_decide; subst.
  - by rewrite list_lookup_insert_eq by (by rewrite length_insert).
  - by rewrite list_lookup_insert_ne, list_lookup_insert_eq.
  - by rewrite !list_lookup_insert_ne.
Qed.

Lemma K_Swap l i j k : i < length l → j < length l →
  K (Swap l i j) k = if decide (k = i) then K l j else if decide (k = j) then K l i else K l k.
Proof. intros. unfold K. rewrite lookup_Swap by done. by repeat case_decide. Qed.

Lemma Swap_perm l i j : Swap l i j ≡ₚ l.
Proof. unfold Swap. repeat case_match; [|done..]. by apply Permutation_insert_swap. Qed.

(** ** [up] restores the order above a new last element *)
Lemma up_perm fuel l j : up fuel l j ≡ₚ l.
Proof. revert l j. induction fuel as [|fuel IH]; intros l j; simpl; [done|]. case_match; [done|]. by rewrite IH, Swap_perm. Qed.

(** The order holds but between [j] and its parent, and [j]'s children are not below its parent. *)
Definition up_inv l j : Prop :=
  (∀ p k, (k = 2 * p + 1 ∨ k = 2 * p + 2) → k < length l → k ≠ j → (K l p ≤ K l k)%Z) ∧
  (∀ p k, (j = 2 * p + 1 ∨ j = 2 * p + 2) → (k = 2 * j + 1 ∨ k = 2 * j + 2) → k < length l → (K l p ≤ K l k)%Z).

Lemma parent_cases j : (j - 1) / 2 = j ∧ j = 0 ∨ (j = 2 * ((j - 1) / 2) + 1 ∨ j = 2 * ((j - 1) / 2) + 2).
Proof.
  pose proof (Nat.div_mod_eq (j - 1) 2). pose proof (Nat.mod_upper_bound (j - 1) 2). destruct j; [by left|]. right. lia.
Qed.

Lemma up_inv_Swap l i j :
  j < length l → (j = 2 * i + 1 ∨ j = 2 * i + 2) → (K l j < K l i)%Z → up_inv l j → up_inv (Swap l i j) i.
Proof.
  intros Hj Hij Hlt [Hother Habove]. split.
  - intros p k Hk Hkl Hki. rewrite Swap_length in Hkl. rewrite !K_Swap by lia.
    pose proof (Hother p k Hk Hkl). repeat case_decide; subst; try lia.
    all: first [ assert (p = i) by lia; lia | pose proof (Habove i k Hij Hk Hkl); lia
               | pose proof (Hother i k Hk Hkl); lia | idtac ].
  - intros p k Hp Hk Hkl. rewrite Swap_length in Hkl. rewrite !K_Swap by lia.
    assert (K l p ≤ K l i)%Z by (apply Hother; lia).
    repeat case_decide; subst; try lia. pose proof (Hother i k Hk Hkl). lia.
Qed.

Lemma up_heap fuel l j : j < length l → j < fuel → up_inv l j → is_heap (up fuel l j).
Proof.
  revert l j. induction fuel as [|fuel IH]; intros l j Hj Hf Hinv; [lia|]. cbn [up].
  set (i := (j - 1) / 2). pose proof (parent_cases j) as Hp. fold i in Hp.
  assert (i < length l) by lia. rewrite Less_K by done.
  destruct (i =? j) eqn:Eij; simpl; [apply Nat.eqb_eq in Eij|apply Nat.eqb_neq in Eij].
  { intros p k Hk Hkl. apply (proj1 Hinv); [done..|lia]. }
  destruct (K l j <? K l i)%Z eqn:El; simpl; go_bool.
  - apply IH; [rewrite Swap_length; lia|lia|]. apply up_inv_Swap; [done|lia..|done].
  - intros p k Hk Hkl. destruct (decide (k = j)) as [->|]; [assert (p = i) as -> by lia; lia|]. by apply (proj1 Hinv).
Qed.

Lemma heap_push_perm l x : heap_push l x ≡ₚ x :: l.
Proof. unfold heap_push. rewrite up_perm. by rewrite Permutation_app_comm. Qed.

Lemma K_app_l l x k : k < length l → K (l ++ [x]) k = K l k.
Proof. intros. unfold K. by rewrite lookup_app_l. Qed.

Lemma heap_push_heap l x : is_heap l → is_heap (heap_push l x).
Proof.
  intros Hl. unfold heap_push. apply up_heap; rewrite ?length_app; simpl; [lia..|].
  split; intros p k; rewrite length_app; simpl; intros Hk Hkl.
  - intros. rewrite !K_app_l by lia. apply Hl; lia.
  - lia.
Qed.

(** ** [down] restores the order below the element moved to the root *)
Lemma down_perm fuel l i n : down fuel l i n ≡ₚ l.
Proof.
  revert l i. induction fuel as [|fuel IH]; intros l i; simpl; [done|].
  repeat case_match; try done. all: by rewrite IH, Swap_perm.
Qed.

Lemma lesser_child_spec l i n : n ≤ length l → 2 * i + 1 < n →
  let j := lesser_child l i n in
  (j = 2 * i + 1 ∨ j = 2 * i + 2) ∧ j < n ∧ ∀ k, (k = 2 * i + 1 ∨ k = 2 * i + 2) → k < n → (K l j ≤ K l k)%Z.
Proof.
  intros Hn Hi j. subst j. unfold lesser_child. replace (2 * i + 1 + 1) with (2 * i + 2) by lia.
  destruct (_ <? n) eqn:E2; cbn [andb]; [apply Nat.ltb_lt in E2|apply Nat.ltb_ge in E2].
  - rewrite Less_K by lia. destruct (_ <? _)%Z eqn:E3; go_bool; (split; [lia|split; [lia|]]); intros k [-> | ->] ?; lia.
  - split; [lia|]. split; [lia|]. intros k [-> | ->] ?; lia.
Qed.

(** [down] does not touch the elements from [n] on. *)
Lemma down_above fuel l i n k : n ≤ length l → i < n → n ≤ k → down fuel l i n !! k = l !! k.
Proof.
  intros Hn Hi Hk. revert l i Hn Hi. induction fuel as [|fuel IH]; intros l i Hn Hi; cbn [down]; [done|].
  destruct (n <=? _) eqn:E1; [done|]. apply Nat.leb_gt in E1.
  pose proof (lesser_child_spec l i n Hn E1) as (Hij & Hj & _). set (j := lesser_child l i n) in *.
  destruct (Less l j i); cbn [negb]; [|done].
  rewrite IH, lookup_Swap by (rewrite ?Swap_length; lia). repeat case_decide; [lia..|done].
Qed.

Definition down_inv l i n : Prop :=
  (∀ p k, (k = 2 * p + 1 ∨ k = 2 * p + 2) → k < n → p ≠ i → (K l p ≤ K l k)%Z) ∧
  (∀ p k, (i = 2 * p + 1 ∨ i = 2 * p + 2) → (k = 2 * i + 1 ∨ k = 2 * i + 2) → k < n → (K l p ≤ K l k)%Z).

Lemma down_inv_Swap l i j n :
  n ≤ length l → j < n → (j = 2 * i + 1 ∨ j = 2 * i + 2) → (K l j < K l i)%Z →
  (∀ k, (k = 2 * i + 1 ∨ k = 2 * i + 2) → k < n → (K l j ≤ K l k)%Z) →
  down_inv l i n → down_inv (Swap l i j) j n.
Proof.
  intros Hn Hj Hij Hlt Hmin [Hother Habove]. split.
  - intros p k Hk Hkn Hpj. rewrite !K_Swap by lia. repeat case_decide; subst; try lia.
    + apply Hmin; lia.
    + apply (Habove p j); lia.
    + apply Hother; lia.
  - intros p k Hp Hk Hkn. rewrite !K_Swap by lia. assert (p = i) as -> by lia.
    repeat case_decide; subst; try lia. apply Hother; lia.
Qed.

Lemma down_heap fuel l i n :
  n ≤ length l → n ≤ i + fuel → down_inv l i n → heap_upto (down fuel l i n) n.
Proof.
  revert l i. induction fuel as [|fuel IH]; intros l i Hn Hf Hinv; cbn [down].
  { intros p k Hk Hkn. apply (proj1 Hinv); lia. }
  destruct (n <=? _) eqn:E1; [apply Nat.leb_le in E1|apply Nat.leb_gt in E1].
  { intros p k Hk Hkn. apply (proj1 Hinv); lia. }
  pose proof (lesser_child_spec l i n Hn E1) as (Hij & Hjn & Hmin). set (j := lesser_child l i n) in *.
  rewrite Less_K by lia. destruct (K l j <? K l i)%Z eqn:El; cbn [negb]; go_bool.
  - apply IH; [rewrite Swap_length; lia|lia|]. by apply down_inv_Swap.
  - intros p k Hk Hkn. destruct (decide (p = i)) as [->|]; [|by apply (proj1 Hinv)].
    specialize (Hmin k Hk Hkn). lia.
Qed.

(** ** The queue *)
Lemma root_least l : is_heap l → ∀ k, k < length l → (K l 0 ≤ K l k)%Z.
Proof.
  intros Hl k. induction (lt_wf k) as [k _ IH]. intros Hk. destruct (parent_cases k) as [[_ ->]|Hp]; [done|].
  etrans; [apply (IH ((k - 1) / 2)); lia|]. apply Hl; lia.
Qed.

(** [Top], the root of a non-empty queue, has a least key. *)
Lemma top_least l x y : is_heap l → l !! 0 = Some x → y ∈ l → (key x ≤ key y)%Z.
Proof.
  intros Hl Hx [k Hk]%list_elem_of_lookup_1. pose proof (root_least l Hl k (lookup_lt_Some _ _ _ Hk)) as H.
  unfold K in H. by rewrite Hx, Hk in H.
Qed.

Lemma heap_pop_spec l x : is_heap l → l !! 0 = Some x →
  ∃ l', heap_pop l = Some (x, l') ∧ l ≡ₚ x :: l' ∧ is_heap l'.
Proof.
  intros Hl Hx. assert (0 < length l) as Hlen by (by eapply lookup_lt_Some).
  set (n := length l - 1). unfold heap_pop. fold n.
  set (l2 := down n (Swap l 0 n) 0 n). exists (take n l2).
  assert (l2 ≡ₚ l) as Hperm by (unfold l2; by rewrite down_perm, Swap_perm).
  assert (length l2 = S n) as Hlen2 by (rewrite Hperm; lia).
  assert (l2 !! n = Some x) as Hlast.
  { destruct (decide (n = 0)) as [E|].
    - subst l2. rewrite E. simpl. rewrite lookup_Swap by lia. by case_decide.
    - subst l2. rewrite down_above, lookup_Swap by (rewrite ?Swap_length; lia). by repeat case_decide. }
  rewrite Hlast. simpl. split; [done|]. split.
  - rewrite <-Hperm at 1. rewrite <-(take_drop n l2) at 1.
    rewrite (drop_S l2 x n Hlast), (drop_ge l2 (S n)) by lia. by rewrite Permutation_app_comm.
  - assert (heap_upto l2 n) as Hh.
    { apply down_heap; [rewrite Swap_length; lia|lia|]. split; [|lia].
      intros p k Hk Hkn Hp0. rewrite !K_Swap by lia. repeat case_decide; try lia. apply Hl; lia. }
    intros p k Hk Hkl. rewrite length_take in Hkl. unfold K. rewrite !lookup_take_lt by lia. apply Hh; lia.
Qed.

Lemma heap_pop_empty : heap_pop [] = None.
Proof. done. Qed.

Lemma is_heap_nil : is_heap [].
Proof. intros p k _. simpl. lia. Qed.
End heap.

#[export] Hint Resolve heap_push_heap is_heap_nil : go.
