(* ===== verification/FloorFetcher.v ===== *)
(** * Price floors, fetcher: src/floors/fetcher.go

    Floor documents are fetched in the background.  A request that misses the cache posts its
    fetch configuration to a channel; one loop receives the posts, hands each new URL to a pool
    of workers and keeps the URLs to fetch again in a priority queue it looks at on every tick; a
    worker fetches and validates a document, caches it and posts its configuration again.

    The goroutines interact through the channel, the pool and the cache only, so the model is a
    state with one [event] per interaction: [exec] runs an event, and is [None] where the event
    cannot happen (a send to a full channel blocks).  The pool, the cache, URL validation, JSON
    and the HTTP exchange are not code of the repository: they are the fields of [FetchEnv] and
    the outcomes the events carry. *)
From S2P Require Import Prelude GoFloat FloorData FloorRules Floors Heap.

Module PriceFloorFetcher.

(** ** Documents *)
Inductive floor_response :=
| H_badRequest
| H_failed
| H_response (status : Z) (maxAge : string) (body : option string).

Inductive floor_fetch_error := E_request | E_response | E_status | E_read.

(** [strconv.Atoi] also returns a value with its error: 0 for a syntax error, the nearest [int]
    when the value is out of range.  The scan stops where the digits leave 64 bits. *)
Fixpoint uint64_value (acc : Z) (s : string) : option Z :=
  match s with
  | EmptyString => Some acc
  | String a s' =>
      match digit a with
      | Some d => if two64 <=? 10 * acc + d then Some (two64 - 1) else uint64_value (10 * acc + d) s'
      | None => None
      end
  end.
Definition Atoi_value (s : string) : Z :=
  let clamp (neg : bool) (body : string) :=
    if body =s? "" then 0
    else match uint64_value 0 body with
         | None => 0
         | Some n => if neg then Z.max (- two63) (- n) else Z.min (two63 - 1) n
         end in
  match s with
  | String a rest =>
      if Ascii.eqb a "-" then clamp true rest else if Ascii.eqb a "+" then clamp false rest else clamp false s
  | EmptyString => 0
  end.

(** A malformed or out-of-range [max-age] is logged; its value is returned all the same. *)
Definition fetchFloorRulesFromURL (config : AccountFloorFetch) (o : floor_response) : result floor_fetch_error (string * Z) :=
  match o with
  | H_badRequest => Err E_request
  | H_failed => Err E_response
  | H_response status maxAge body =>
      if negb (status =? 200) then Err E_status
      else
        let maxAge := if nonempty maxAge then Atoi_value maxAge else 0 in
        match body with None => Err E_read | Some respBody => Ok (respBody, maxAge) end
  end.

Inductive rule_error :=
| V_noData | V_noGroups | V_skipRate | V_useFetchDataRate
| V_numRules | V_modelWeight | V_groupSkipRate | V_default.

(** The loop over the model groups returns the first error. *)
Fixpoint validateGroups (config : AccountFloorFetch) (gs : list PriceFloorModelGroup) : option rule_error :=
  match gs with
  | [] => None
  | g :: gs =>
      let n := Z.of_nat (size (mg_Values g)) in
      if (n =? 0) || (aff_MaxRules config <? n) then Some V_numRules
      else if match mg_ModelWeight g with Some w => (w <? 1) || (100 <? w) | None => false end then Some V_modelWeight
      else if (mg_SkipRate g <? 0) || (100 <? mg_SkipRate g) then Some V_groupSkipRate
      else if mg_Default g <f? f0 then Some V_default
      else validateGroups config gs
  end.

Definition validateRules (config : AccountFloorFetch) (priceFloors : PriceFloorRules) : option rule_error :=
  match pf_Data priceFloors with
  | None => Some V_noData
  | Some data =>
      if bool_decide (pd_ModelGroups data = []) then Some V_noGroups
      else if (pd_SkipRate data <? 0) || (100 <? pd_SkipRate data) then Some V_skipRate
      else if match pd_UseFetchDataRate data with Some r => (r <? dataRateMin) || (dataRateMax <? r) | None => false end
      then Some V_useFetchDataRate
      else validateGroups config (pd_ModelGroups data)
  end.

(** ** State *)
Record fetchInfo := {
  fi_AccountFloorFetch : AccountFloorFetch;
  fi_fetchTime : Z;
  fi_refetchRequest : bool;
  fi_retryCount : Z
}.
Definition URL (fi : fetchInfo) : string := aff_URL (fi_AccountFloorFetch fi).

(** A task of the pool: not started, in its worker, or in the worker's last statement, the send. *)
Inductive job := Waiting (fi : fetchInfo) | Running (fi : fetchInfo) | Sending (fi : fetchInfo).
(** The loop is in its [select], in the loop over the queue of a tick, or has returned. *)
Inductive loop_state := Selecting | Ticking (currentTime : Z) | Exited.
(** [Stop] has not been called, has closed [done], has stopped the pool, has closed the channel. *)
Inductive stop_phase := Up | DoneClosed | PoolStopped | ChanClosed.
#[export] Instance stop_phase_eq_dec : EqDecision stop_phase.
Proof. solve_decision. Defined.

(** [f_clients] are the posts of requests that have not been sent yet. *)
Record fetcher_state := {
  f_clients : list fetchInfo;
  f_configReceiver : list fetchInfo;
  f_pool : list job;
  f_fetchQueue : list fetchInfo;
  f_fetchInProgress : gset string;
  f_cache : gmap string string;
  f_loop : loop_state;
  f_stop : stop_phase
}.
(** ** The parts outside the repository *)
Class FetchEnv := {
  (** [govalidator.IsURL] *)
  IsURL : string → bool;
  (** [json.Unmarshal] into [*PriceFloorData], where [null] leaves nil, and into
      [PriceFloorRules]; [json.Marshal] of the rules. *)
  unmarshal_data : string → option (option PriceFloorData);
  unmarshal_rules : string → option PriceFloorRules;
  marshal_rules : PriceFloorRules → option string;
  (** What was parsed from a document and printed parses to the same value. *)
  marshal_unmarshal : ∀ body d text,
    unmarshal_data body = Some (Some d) → marshal_rules (set_pf_Data (Some d) empty_floors) = Some text →
    unmarshal_rules text = Some (set_pf_Data (Some d) empty_floors);
  (** [freecache]'s [Set] with an expiry in seconds may refuse an entry and may evict others, but
      only adds the entry given. *)
  cache_set : gmap string string → string → string → Z → gmap string string;
  cache_set_adds : ∀ c k v e k' v', cache_set c k v e !! k' = Some v' → k' = k ∧ v' = v ∨ c !! k' = Some v';
  (** [pond]'s [TrySubmit], by whether the pool was stopped and the number of tasks it holds, and
      whether it starts a waiting task, by the number of those executing. *)
  pool_accepts : bool → nat → bool;
  pool_starts : nat → bool;
  (** The capacity of the channel and the fetcher's [maxRetries]. *)
  chan_cap : nat;
  maxRetries : Z
}.

Section fetcher.
  Context {env : FetchEnv}.

Definition fetchAndValidate (config : AccountFloorFetch) (o : floor_response) : option PriceFloorRules * Z :=
  match fetchFloorRulesFromURL config o with
  | Err _ => (None, 0)
  | Ok (floorResp, maxAge) =>
      if wrap64 (aff_MaxFileSizeKB config * 1024) <? Z.of_nat (String.length floorResp) then (None, 0)
      else match unmarshal_data floorResp with
           | None => (None, 0)
           | Some data =>
               let priceFloors := set_pf_Data data empty_floors in
               match validateRules config priceFloors with
               | Some _ => (None, 0)
               | None => (Some priceFloors, maxAge)
               end
           end
  end.

(** ** Cache *)
Definition SetWithExpiry (key value : string) (cacheExpiry : Z) (cache : gmap string string) : gmap string string :=
  cache_set cache key value cacheExpiry.
Definition Get (key : string) (cache : gmap string string) : option string := cache !! key.

(** [time.Time] in nanoseconds since the epoch, and its [Unix]. *)
Definition second : Z := 1000000000.
Definition Unix (now : Z) : Z := now `div` second.

(** ** Operations *)

(** [Fetch] on a non-nil fetcher: what it returns and what it posts. *)
Definition Fetch (cache : gmap string string) (now : Z) (config : AccountPriceFloors)
  : option PriceFloorRules * string * option fetchInfo :=
  let fetcher := apf_Fetcher config in
  if negb (apf_UseDynamicData config) || negb (nonempty (aff_URL fetcher)) || negb (IsURL (aff_URL fetcher))
  then (None, FetchNone, None)
  else match Get (aff_URL fetcher) cache with
       | Some text =>
           match unmarshal_rules text with
           | None => (None, FetchError, None)
           | Some fetchedFloorData =>
               match pf_Data fetchedFloorData with
               | None => (None, FetchError, None)
               | Some _ => (Some fetchedFloorData, FetchSuccess, None)
               end
           end
       | None =>
           (None, FetchInprogress,
            if apf_Enabled config && aff_Enabled fetcher && (0 <? aff_Timeout fetcher)
            then Some {| fi_AccountFloorFetch := fetcher; fi_fetchTime := Unix now;
                         fi_refetchRequest := false; fi_retryCount := 0 |}
            else None)
       end.

(** [worker] up to its send: the cache after it and the message it sends, if any. *)
Definition worker (fetchConfig : fetchInfo) (o : floor_response) (now : Z) (cache : gmap string string)
  : gmap string string * option fetchInfo :=
  let fetcher := fi_AccountFloorFetch fetchConfig in
  let '(floorData, fetchedMaxAge) := fetchAndValidate fetcher o in
  let '(retryCount, cache) :=
    match floorData with
    | Some floorData =>
        let cacheExpiry := if negb (fetchedMaxAge =? 0) then fetchedMaxAge else aff_MaxAge fetcher in
        (0, match marshal_rules floorData with
            | None => cache
            | Some text => SetWithExpiry (aff_URL fetcher) text cacheExpiry cache
            end)
    | None => (wrap64 (fi_retryCount fetchConfig + 1), cache)
    end in
  (cache,
   if retryCount <? maxRetries
   then Some {| fi_AccountFloorFetch := fetcher;
                fi_fetchTime := Unix (now + wrap64 (aff_Period fetcher * second));
                fi_refetchRequest := true; fi_retryCount := retryCount |}
   else None).

Definition set_clients l s := {| f_clients := l; f_configReceiver := f_configReceiver s; f_pool := f_pool s;
  f_fetchQueue := f_fetchQueue s; f_fetchInProgress := f_fetchInProgress s; f_cache := f_cache s; f_loop := f_loop s; f_stop := f_stop s |}.
Definition set_configReceiver l s := {| f_clients := f_clients s; f_configReceiver := l; f_pool := f_pool s;
  f_fetchQueue := f_fetchQueue s; f_fetchInProgress := f_fetchInProgress s; f_cache := f_cache s; f_loop := f_loop s; f_stop := f_stop s |}.
Definition set_pool l s := {| f_clients := f_clients s; f_configReceiver := f_configReceiver s; f_pool := l;
  f_fetchQueue := f_fetchQueue s; f_fetchInProgress := f_fetchInProgress s; f_cache := f_cache s; f_loop := f_loop s; f_stop := f_stop s |}.
Definition set_fetchQueue l s := {| f_clients := f_clients s; f_configReceiver := f_configReceiver s; f_pool := f_pool s;
  f_fetchQueue := l; f_fetchInProgress := f_fetchInProgress s; f_cache := f_cache s; f_loop := f_loop s; f_stop := f_stop s |}.
Definition set_fetchInProgress u s := {| f_clients := f_clients s; f_configReceiver := f_configReceiver s; f_pool := f_pool s;
  f_fetchQueue := f_fetchQueue s; f_fetchInProgress := u; f_cache := f_cache s; f_loop := f_loop s; f_stop := f_stop s |}.
Definition set_cache c s := {| f_clients := f_clients s; f_configReceiver := f_configReceiver s; f_pool := f_pool s;
  f_fetchQueue := f_fetchQueue s; f_fetchInProgress := f_fetchInProgress s; f_cache := c; f_loop := f_loop s; f_stop := f_stop s |}.
Definition set_loop l s := {| f_clients := f_clients s; f_configReceiver := f_configReceiver s; f_pool := f_pool s;
  f_fetchQueue := f_fetchQueue s; f_fetchInProgress := f_fetchInProgress s; f_cache := f_cache s; f_loop := l; f_stop := f_stop s |}.
Definition set_stop p s := {| f_clients := f_clients s; f_configReceiver := f_configReceiver s; f_pool := f_pool s;
  f_fetchQueue := f_fetchQueue s; f_fetchInProgress := f_fetchInProgress s; f_cache := f_cache s; f_loop := f_loop s; f_stop := p |}.

Definition Push (q : list fetchInfo) (fi : fetchInfo) : list fetchInfo := heap_push fi_fetchTime q fi.
Definition Pop (q : list fetchInfo) : option (fetchInfo * list fetchInfo) := heap_pop fi_fetchTime q.
Definition Top (q : list fetchInfo) : option fetchInfo := q !! 0%nat.

Definition stopped (s : fetcher_state) : bool :=
  match f_stop s with Up | DoneClosed => false | PoolStopped | ChanClosed => true end.

Definition submit (fetchConfig : fetchInfo) (s : fetcher_state) : fetcher_state :=
  if pool_accepts (stopped s) (length (f_pool s))
  then set_pool (f_pool s ++ [Waiting fetchConfig]) s
  else set_fetchQueue (Push (f_fetchQueue s) fetchConfig) s.

(** The first case of [Fetcher]'s [select]. *)
Definition receive (fetchConfig : fetchInfo) (s : fetcher_state) : fetcher_state :=
  if fi_refetchRequest fetchConfig then set_fetchQueue (Push (f_fetchQueue s) fetchConfig) s
  else if bool_decide (URL fetchConfig ∈ f_fetchInProgress s) then s
  else submit fetchConfig (set_fetchInProgress ({[URL fetchConfig]} ∪ f_fetchInProgress s) s).

(** One turn of the loop of its second case; the outer option is [None] on a panic. *)
Definition tick_turn (currentTime : Z) (s : fetcher_state) : option fetcher_state :=
  match Top (f_fetchQueue s) with
  | Some top =>
      if fi_fetchTime top <=? currentTime
      then '(nextFetch, q) ← Pop (f_fetchQueue s); Some (submit nextFetch (set_fetchQueue q s))
      else Some (set_loop Selecting s)
  | None => Some (set_loop Selecting s)
  end.
(** ** The running fetcher *)
Inductive event :=
| E_fetch (now : Z) (config : AccountPriceFloors)  (* a request calls [Fetch] *)
| E_client_send (i : nat)                          (* its send to the channel *)
| E_receive                                        (* [select]: the channel *)
| E_tick (now : Z)                                 (* [select]: the ticker *)
| E_turn                                           (* one turn of the loop over the queue *)
| E_exit                                           (* [select]: [done] *)
| E_start (i : nat)                                (* the pool starts a task *)
| E_work (i : nat) (o : floor_response) (now : Z)    (* a worker up to its send *)
| E_send (i : nat)                                 (* a worker's send to the channel *)
| E_evict (url : string)                           (* an entry expires or is evicted *)
| E_stop.                                          (* the next statement of [Stop] *)

Definition started (j : job) : bool := match j with Waiting _ => false | Running _ | Sending _ => true end.
Definition executing (pool : list job) : nat := length (filter (λ j, started j = true) pool).

(** The value received from a closed and empty channel. *)
Definition zero_fetchInfo : fetchInfo :=
  {| fi_AccountFloorFetch := {| aff_Enabled := false; aff_URL := ""; aff_Timeout := 0; aff_MaxFileSizeKB := 0;
                                aff_MaxRules := 0; aff_MaxAge := 0; aff_Period := 0; aff_MaxSchemaDims := 0;
                                aff_AccountID := "" |};
     fi_fetchTime := 0; fi_refetchRequest := false; fi_retryCount := 0 |}.

(** A send blocks while the channel is full, and panics once it is closed. *)
Definition send (fi : fetchInfo) (s : fetcher_state) : option fetcher_state :=
  if bool_decide (f_stop s = ChanClosed) then Some s
  else if (length (f_configReceiver s) <? chan_cap)%nat
  then Some (set_configReceiver (f_configReceiver s ++ [fi]) s) else None.

Definition exec (e : event) (s : fetcher_state) : option fetcher_state :=
  match e with
  | E_fetch now config =>
      match snd (Fetch (f_cache s) now config) with
      | Some fi => Some (set_clients (f_clients s ++ [fi]) s)
      | None => Some s
      end
  | E_client_send i => fi ← f_clients s !! i; send fi (set_clients (delete i (f_clients s)) s)
  | E_receive =>
      match f_loop s, f_configReceiver s with
      | Selecting, fi :: c => Some (receive fi (set_configReceiver c s))
      | Selecting, [] => if bool_decide (f_stop s = ChanClosed) then Some (receive zero_fetchInfo s) else None
      | _, _ => None
      end
  | E_tick now => match f_loop s with Selecting => Some (set_loop (Ticking (Unix now)) s) | _ => None end
  | E_turn => match f_loop s with Ticking t => tick_turn t s | _ => None end
  | E_exit =>
      match f_loop s with
      | Selecting => if bool_decide (f_stop s = Up) then None else Some (set_loop Exited s)
      | _ => None
      end
  | E_start i =>
      match f_pool s !! i with
      | Some (Waiting fi) =>
          if pool_starts (executing (f_pool s)) then Some (set_pool (<[i := Running fi]> (f_pool s)) s) else None
      | _ => None
      end
  | E_work i o now =>
      match f_pool s !! i with
      | Some (Running fi) =>
          let '(cache, msg) := worker fi o now (f_cache s) in
          let pool := match msg with Some fi' => <[i := Sending fi']> (f_pool s) | None => delete i (f_pool s) end in
          Some (set_cache cache (set_pool pool s))
      | _ => None
      end
  | E_send i =>
      match f_pool s !! i with
      | Some (Sending fi) => send fi (set_pool (delete i (f_pool s)) s)
      | _ => None
      end
  | E_evict url => Some (set_cache (delete url (f_cache s)) s)
  | E_stop =>
      match f_stop s with
      | Up => Some (set_stop DoneClosed s)
      | DoneClosed => Some (set_stop PoolStopped s)
      | PoolStopped => Some (set_stop ChanClosed s)
      | ChanClosed => None
      end
  end.

(** [NewPriceFloorFetcher] *)
Definition init_fetcher : fetcher_state :=
  {| f_clients := []; f_configReceiver := []; f_pool := []; f_fetchQueue := []; f_fetchInProgress := ∅;
     f_cache := ∅; f_loop := Selecting; f_stop := Up |}.

Fixpoint run (es : list event) (s : fetcher_state) : option fetcher_state :=
  match es with
  | [] => Some s
  | e :: es => s' ← exec e s; run es s'
  end.

Inductive reachable : fetcher_state → Prop :=
| reach_init : reachable init_fetcher
| reach_step e s s' : reachable s → exec e s = Some s' → reachable s'.

Lemma reachable_run es s s' : reachable s → run es s = Some s' → reachable s'.
Proof.
  revert s. induction es as [|e es IH]; simpl; intros s Hr Hs; [by simplify_eq|].
  destruct (exec e s) as [s1|] eqn:E; [|done]. eapply IH; [by eapply reach_step|done].
Qed.

(** ** The URLs with a pending task *)
Definition job_info (j : job) : fetchInfo := match j with Waiting fi | Running fi | Sending fi => fi end.
Definition refetches (l : list fetchInfo) : list fetchInfo := filter (λ fi, fi_refetchRequest fi = true) l.

(** In the pool, in the queue, or on the way from the pool to the queue. *)
Definition pending (s : fetcher_state) : list string :=
  (URL ∘ job_info <$> f_pool s) ++ (URL <$> f_fetchQueue s) ++ (URL <$> refetches (f_configReceiver s)).

Lemma pending_submit fi s : pending (submit fi s) ≡ₚ URL fi :: pending s.
Proof.
  unfold submit, pending. case_match; simpl.
  - rewrite fmap_app, <-app_assoc. symmetry. apply Permutation_middle.
  - unfold Push. rewrite heap_push_perm. symmetry. apply Permutation_middle.
Qed.

Lemma submit_rest fi s : f_fetchInProgress (submit fi s) = f_fetchInProgress s ∧ f_cache (submit fi s) = f_cache s ∧
  f_clients (submit fi s) = f_clients s.
Proof. unfold submit. by case_match. Qed.

(** What an event does to the pending URLs: nothing, one abandoned, or a new one. *)
Inductive pending_change (s s' : fetcher_state) : Prop :=
| PC_same : pending s' ≡ₚ pending s → f_fetchInProgress s' = f_fetchInProgress s → pending_change s s'
| PC_drop u : u :: pending s' ≡ₚ pending s → f_fetchInProgress s' = f_fetchInProgress s → pending_change s s'
| PC_new u : u ∉ f_fetchInProgress s → pending s' ≡ₚ u :: pending s →
    f_fetchInProgress s' = {[u]} ∪ f_fetchInProgress s → pending_change s s'.

(** The facts about posts and the queue that hold beside it. *)
Record posts_ok (s : fetcher_state) : Prop := {
  po_heap : is_heap fi_fetchTime (f_fetchQueue s);
  po_sending : ∀ fi, Sending fi ∈ f_pool s → fi_refetchRequest fi = true;
  po_clients : ∀ fi, fi ∈ f_clients s → fi_refetchRequest fi = false
}.

Lemma worker_posts_refetch fi o now c c' fi' : worker fi o now c = (c', Some fi') →
  URL fi' = URL fi ∧ fi_refetchRequest fi' = true.
Proof. unfold worker. intros H. repeat (case_match; simplify_eq/=); by split. Qed.

Lemma Fetch_posts_first c now config r fi : Fetch c now config = (r, Some fi) → fi_refetchRequest fi = false.
Proof. unfold Fetch. intros H. by repeat (case_match; simplify_eq/=). Qed.

Lemma refetches_cons l fi : refetches (fi :: l) = (if fi_refetchRequest fi then [fi] else []) ++ refetches l.
Proof. unfold refetches. rewrite filter_cons. by destruct (fi_refetchRequest fi). Qed.

Lemma refetches_snoc l fi : refetches (l ++ [fi]) = refetches l ++ (if fi_refetchRequest fi then [fi] else []).
Proof. unfold refetches at 1. rewrite filter_app. f_equal. fold (refetches [fi]). rewrite refetches_cons. apply app_nil_r. Qed.

Lemma pending_pool_insert i j j' s : f_pool s !! i = Some j → URL (job_info j') = URL (job_info j) →
  pending (set_pool (<[i := j']> (f_pool s)) s) = pending s.
Proof.
  intros Hi HU. unfold pending. simpl. f_equal. rewrite list_fmap_insert. apply list_insert_id.
  by rewrite list_lookup_fmap, Hi; simpl; rewrite HU.
Qed.

Lemma pending_pool_delete i j s : f_pool s !! i = Some j →
  URL (job_info j) :: pending (set_pool (delete i (f_pool s)) s) ≡ₚ pending s.
Proof. intros Hi. unfold pending. simpl. rewrite (delete_Permutation (f_pool s) i j Hi) at 2. done. Qed.

Lemma pending_receive fi s c : f_configReceiver s = fi :: c → pending_change s (receive fi (set_configReceiver c s)).
Proof.
  intros Hc. unfold receive. destruct (fi_refetchRequest fi) eqn:Er.
  - apply PC_same; [|done]. unfold pending. simpl. unfold Push. rewrite heap_push_perm, Hc, refetches_cons, Er. simpl.
    apply Permutation_app_head. by rewrite Permutation_middle.
  - case_bool_decide as Hin; simpl in *.
    + apply PC_same; [|done]. unfold pending. simpl. by rewrite Hc, refetches_cons, Er.
    + apply (PC_new _ _ (URL fi)); [done| |by rewrite (proj1 (submit_rest _ _))].
      rewrite pending_submit. f_equiv. unfold pending. simpl. by rewrite Hc, refetches_cons, Er.
Qed.

Lemma pending_send fi s s' : send fi s = Some s' →
  f_fetchInProgress s' = f_fetchInProgress s ∧
  (pending s' = pending s ∧ (fi_refetchRequest fi = false ∨ f_stop s = ChanClosed) ∨
   pending s' ≡ₚ URL fi :: pending s ∧ fi_refetchRequest fi = true).
Proof.
  unfold send. intros H. case_bool_decide; simplify_eq; [by eauto|]. case_match; simplify_eq/=. split; [done|].
  unfold pending. simpl. rewrite refetches_snoc. destruct (fi_refetchRequest fi) eqn:E.
  - right. split; [|done]. rewrite fmap_app, !app_assoc. simpl. by rewrite <-Permutation_cons_append.
  - left. rewrite app_nil_r. eauto.
Qed.

Lemma tick_turn_pop t s s' : tick_turn t s = Some s' → is_heap fi_fetchTime (f_fetchQueue s) →
  (s' = set_loop Selecting s ∧ ∀ fi, fi ∈ f_fetchQueue s → t < fi_fetchTime fi) ∨
  (∃ top q, Top (f_fetchQueue s) = Some top ∧ fi_fetchTime top ≤ t ∧ f_fetchQueue s ≡ₚ top :: q ∧
     is_heap fi_fetchTime q ∧ s' = submit top (set_fetchQueue q s)).
Proof.
  unfold tick_turn. intros H Hh. destruct (Top _) as [top|] eqn:Et.
  - destruct (_ <=? t) eqn:El; go_bool.
    + destruct (heap_pop_spec _ _ _ Hh Et) as (q & Hpop & Hperm & Hq). unfold Pop in H.
      rewrite Hpop in H. simpl in H. simplify_eq. right. by exists top, q.
    + simplify_eq. left. split; [done|]. intros fi Hfi. pose proof (top_least _ _ _ fi Hh Et Hfi). lia.
  - simplify_eq. left. split; [done|]. intros fi Hfi. unfold Top in Et. destruct (f_fetchQueue s); [by apply not_elem_of_nil in Hfi|done].
Qed.

Lemma pending_queue_pop top q s : f_fetchQueue s ≡ₚ top :: q →
  URL top :: pending (set_fetchQueue q s) ≡ₚ pending s.
Proof. intros Hq. unfold pending. simpl. rewrite Hq. apply Permutation_middle. Qed.

Lemma exec_pending e s s' : posts_ok s → exec e s = Some s' → pending_change s s'.
Proof.
  intros [Hheap Hsend Hcl] H. destruct e; simpl in H.
  - case_match; simplify_eq; by apply PC_same.
  - destruct (f_clients s !! i) as [fi|] eqn:Hi; [|done]. simpl in H.
    destruct (pending_send _ _ _ H) as [HI [[Hp _]|[_ Hr]]]; [by apply PC_same; [rewrite Hp|]|].
    rewrite (Hcl fi) in Hr; [done|by eapply list_elem_of_lookup_2].
  - destruct (f_loop s); [|done..]. destruct (f_configReceiver s) as [|fi c] eqn:Hc.
    + case_bool_decide; simplify_eq. unfold receive. simpl. case_bool_decide; [by apply PC_same|].
      eapply (PC_new _ _ ""); [done|by rewrite pending_submit|by rewrite (proj1 (submit_rest _ _))].
    + simplify_eq. by apply pending_receive.
  - case_match; simplify_eq; by apply PC_same.
  - destruct (f_loop s) as [|t|]; try done. destruct (tick_turn_pop _ _ _ H Hheap) as [[-> _]|(top & q & _ & _ & Hq & _ & ->)].
    + by apply PC_same.
    + apply PC_same; [by rewrite pending_submit, pending_queue_pop|by rewrite (proj1 (submit_rest _ _))].
  - repeat (go_destruct_in H; simplify_eq); by apply PC_same.
  - repeat (go_destruct_in H; simplify_eq). apply PC_same; [|done]. by erewrite pending_pool_insert.
  - destruct (f_pool s !! i) as [[|fi|]|] eqn:Hi; try done. destruct (worker _ _ _ _) as [c [fi'|]] eqn:Hw; simplify_eq.
    + apply PC_same; [|done]. apply worker_posts_refetch in Hw as [HU _].
      change (pending (set_pool (<[i:=Sending fi']> (f_pool s)) s) ≡ₚ pending s). by erewrite pending_pool_insert.
    + apply (PC_drop _ _ (URL fi)); [|done]. apply (pending_pool_delete _ _ _ Hi).
  - destruct (f_pool s !! i) as [[| |fi]|] eqn:Hi; try done.
    pose proof (Hsend fi (list_elem_of_lookup_2 _ _ _ Hi)) as Hr. pose proof (pending_pool_delete _ _ _ Hi) as Hd. simpl in Hd.
    destruct (pending_send _ _ _ H) as [HI [[Hp _]|[Hp _]]].
    + apply (PC_drop _ _ (URL fi)); [by rewrite Hp|done].
    + apply PC_same; [by rewrite Hp|done].
  - simplify_eq. by apply PC_same.
  - repeat (go_destruct_in H; simplify_eq); by apply PC_same.
Qed.

Lemma submit_posts_ok fi s : posts_ok s → posts_ok (submit fi s).
Proof.
  intros [Hh Hs Hc]. unfold submit. case_match; split; simpl; try done.
  - intros fi' [?|?%list_elem_of_singleton]%elem_of_app; [by apply Hs|done].
  - by apply heap_push_heap.
Qed.

Lemma receive_posts_ok fi s : posts_ok s → posts_ok (receive fi s).
Proof.
  intros Hok. unfold receive. repeat case_match; [|done|].
  - destruct Hok. split; try done. by apply heap_push_heap.
  - apply submit_posts_ok. by destruct Hok.
Qed.

Lemma send_posts_ok fi s s' : posts_ok s → send fi s = Some s' → posts_ok s'.
Proof. unfold send. intros [] H. repeat case_match; simplify_eq; done. Qed.

Lemma exec_posts_ok e s s' : posts_ok s → exec e s = Some s' → posts_ok s'.
Proof.
  intros Hok H. pose proof Hok as [Hh Hs Hc]. destruct e; simpl in H.
  - destruct (Fetch _ _ _) as [r [fi|]] eqn:HF; simplify_eq/=; [|done]. split; simpl; [done..|].
    intros fi' [?|Heq%list_elem_of_singleton]%elem_of_app; [by apply Hc|]. subst. by eapply Fetch_posts_first.
  - destruct (f_clients s !! i) eqn:Hi; [|done]. simpl in H. eapply send_posts_ok, H. split; simpl; [done..|].
    intros fi Hfi. by eapply Hc, list_elem_of_delete_inv.
  - repeat (case_match; simplify_eq); apply receive_posts_ok; done.
  - repeat (case_match; simplify_eq); done.
  - destruct (f_loop s) as [|t|]; try done. destruct (tick_turn_pop _ _ _ H Hh) as [[-> _]|(top & q & _ & _ & _ & Hq & ->)]; [done|].
    by apply submit_posts_ok.
  - repeat (case_match; simplify_eq); done.
  - repeat (case_match; simplify_eq). split; simpl; try done. intros fi' [?|?]%elem_of_insert_inv; [done|by apply Hs].
  - destruct (f_pool s !! i) as [[|fi|]|] eqn:Hi; try done. destruct (worker _ _ _ _) as [c m] eqn:Hw. simplify_eq.
    destruct m as [fi'|]; split; simpl; try done.
    + intros fi'' [?|?]%elem_of_insert_inv; [|by apply Hs]. simplify_eq. by apply worker_posts_refetch in Hw as [_ ?].
    + intros fi'' ?%list_elem_of_delete_inv. by apply Hs.
  - destruct (f_pool s !! i) as [[| |fi]|] eqn:Hi; try done. eapply send_posts_ok, H. split; simpl; try done.
    intros fi'' ?%list_elem_of_delete_inv. by apply Hs.
  - simplify_eq. done.
  - repeat (case_match; simplify_eq); done.
Qed.

(** ** What the cache holds *)
Definition rules_of (d : PriceFloorData) : PriceFloorRules := set_pf_Data (Some d) empty_floors.

(** What a fetched document has to satisfy under a fetch configuration. *)
Definition valid_group (config : AccountFloorFetch) (g : PriceFloorModelGroup) : Prop :=
  0 < Z.of_nat (size (mg_Values g)) ≤ aff_MaxRules config ∧
  (∀ w, mg_ModelWeight g = Some w → 1 ≤ w ≤ 100) ∧ 0 ≤ mg_SkipRate g ≤ 100 ∧ (mg_Default g <f? f0) = false.
Definition valid_fetched (config : AccountFloorFetch) (d : PriceFloorData) : Prop :=
  pd_ModelGroups d ≠ [] ∧ 0 ≤ pd_SkipRate d ≤ 100 ∧ (∀ r, pd_UseFetchDataRate d = Some r → 0 ≤ r ≤ 100) ∧
  ∀ g, g ∈ pd_ModelGroups d → valid_group config g.

Lemma in_bounds lo hi n : lo ≤ n ≤ hi → (n <? lo) || (hi <? n) = false.
Proof. lia. Qed.

Lemma validateGroups_spec config gs : validateGroups config gs = None ↔ ∀ g, g ∈ gs → valid_group config g.
Proof.
  induction gs as [|g gs IH]; simpl; [split; [by intros _ g ?%not_elem_of_nil|done]|].
  setoid_rewrite elem_of_cons. split.
  - intros H g' Hg'. repeat (case_match; try done); go_bool; destruct Hg' as [->|?]; try (by apply IH).
    all: unfold valid_group; split_and!; try lia; try done; intros; simplify_eq; try lia; go_bool; lia.
  - intros H. destruct (H g) as (Hn & Hw & Hs & Hd); [by left|]. rewrite Hd.
    replace (_ || _) with false by lia. rewrite (in_bounds 0 100 (mg_SkipRate g)) by done.
    destruct (mg_ModelWeight g) as [w|]; [rewrite (in_bounds 1 100 w) by auto|]; apply IH; eauto.
Qed.

Lemma validateRules_spec config r : validateRules config r = None ↔ ∃ d, pf_Data r = Some d ∧ valid_fetched config d.
Proof.
  unfold validateRules, valid_fetched, dataRateMin, dataRateMax. destruct (pf_Data r) as [d|]; [|split; [done|by intros (? & ? & _)]].
  split.
  - intros H. exists d. split; [done|]. repeat (case_match; try done); go_bool; rewrite validateGroups_spec in H.
    all: split_and!; try lia; try done; intros; simplify_eq; lia.
  - intros (d' & Hd & Hg & Hs & Hr & Hgs). simplify_eq. rewrite bool_decide_false by done.
    rewrite (in_bounds 0 100 (pd_SkipRate d')) by done.
    destruct (pd_UseFetchDataRate d') as [w|]; [rewrite (in_bounds 0 100 w) by auto|]; by apply validateGroups_spec.
Qed.

(** A document served for [config]'s URL, no longer than [config] allows, that is valid for it. *)
Definition fetched_document (config : AccountFloorFetch) (body : string) (d : PriceFloorData) : Prop :=
  unmarshal_data body = Some (Some d) ∧ Z.of_nat (String.length body) ≤ wrap64 (aff_MaxFileSizeKB config * 1024) ∧
  valid_fetched config d.

Lemma fetchAndValidate_spec config o r age : fetchAndValidate config o = (Some r, age) →
  ∃ hdr body d, o = H_response 200 hdr (Some body) ∧ fetched_document config body d ∧ r = rules_of d.
Proof.
  unfold fetchAndValidate, fetchFloorRulesFromURL. intros H. destruct o as [| |status hdr [body|]]; try done.
  all: destruct (status =? 200) eqn:Es; simpl in H; try done.
  repeat (case_match; simplify_eq/=). go_bool. subst.
  match goal with Hv : validateRules _ _ = None |- _ => apply validateRules_spec in Hv as (d & Hd & Hv) end.
  simpl in Hd. subst. by exists hdr, body, d.
Qed.

Definition floor_cache_ok (s : fetcher_state) : Prop := ∀ u text, f_cache s !! u = Some text →
  ∃ config body d, aff_URL config = u ∧ fetched_document config body d ∧ unmarshal_rules text = Some (rules_of d).

Lemma worker_cache fi o now c c' m u text : worker fi o now c = (c', m) → c' !! u = Some text →
  c !! u = Some text ∨ u = URL fi ∧ ∃ body d, fetched_document (fi_AccountFloorFetch fi) body d ∧ unmarshal_rules text = Some (rules_of d).
Proof.
  unfold worker. intros H Hu. destruct (fetchAndValidate _ o) as [[r|] age] eqn:HF; simplify_eq; [|by left].
  destruct (marshal_rules r) as [text'|] eqn:Hm; simplify_eq; [|by left].
  apply cache_set_adds in Hu as [[-> ->]|?]; [right|by left].
  apply fetchAndValidate_spec in HF as (hdr & body & d & -> & Hdoc & ->). split; [done|].
  exists body, d. split; [done|]. by eapply marshal_unmarshal; [apply Hdoc|].
Qed.

Lemma exec_cache e s s' u text : exec e s = Some s' → f_cache s' !! u = Some text →
  f_cache s !! u = Some text ∨ u ∈ pending s ∧
    ∃ config body d, aff_URL config = u ∧ fetched_document config body d ∧ unmarshal_rules text = Some (rules_of d).
Proof.
  intros H Hu. destruct e; simpl in H; unfold receive, send, tick_turn, submit in H.
  8: { destruct (f_pool s !! i) as [[|fi|]|] eqn:Hi; try done. destruct (worker _ _ _ _) as [c m] eqn:Hw. simplify_eq/=.
       destruct (worker_cache _ _ _ _ _ _ _ _ Hw Hu) as [?|[-> (body & d & Hd & Ht)]]; [by left|right]. split; [|by eauto 6].
       apply elem_of_app. left. apply (list_elem_of_fmap_2' _ _ (Running fi)); [by eapply list_elem_of_lookup_2|done]. }
  9: { simplify_eq/=. left. by apply lookup_delete_Some in Hu as [_ ?]. }
  all: left; repeat (case_match; simplify_eq/=); try done.
  all: match goal with H : ?x ≫= _ = Some _ |- _ => destruct x as [z|]; simplify_eq/=; try destruct z end.
  all: by repeat (case_match; simplify_eq/=).
Qed.

(** ** The invariant *)
Record fetcher_inv (s : fetcher_state) : Prop := {
  fv_posts : posts_ok s;
  fv_nodup : NoDup (pending s);
  fv_known : ∀ u, u ∈ pending s → u ∈ f_fetchInProgress s;
  fv_cache : floor_cache_ok s
}.

Lemma exec_inv e s s' : fetcher_inv s → exec e s = Some s' → fetcher_inv s'.
Proof.
  intros [Hp Hn Hk Hc] H. pose proof (exec_pending _ _ _ Hp H) as HC. split.
  - by eapply exec_posts_ok.
  - destruct HC as [Hperm _|u Hperm _|u Hu Hperm _]; [by rewrite Hperm|..].
    + rewrite <-Hperm in Hn. by apply NoDup_cons in Hn as [_ ?].
    + rewrite Hperm. apply NoDup_cons. auto.
  - intros u'. destruct HC as [Hperm HI|u Hperm HI|u Hu Hperm HI]; rewrite HI.
    + rewrite Hperm. apply Hk.
    + intros Hu'. apply Hk. rewrite <-Hperm. by right.
    + rewrite Hperm, elem_of_cons. set_solver.
  - intros u text Hu. destruct (exec_cache _ _ _ _ _ H Hu) as [?|[_ ?]]; [by apply Hc|done].
Qed.

Lemma init_inv : fetcher_inv init_fetcher.
Proof.
  split; try done.
  - split; simpl; [apply is_heap_nil|by intros fi ?%not_elem_of_nil|by intros fi ?%not_elem_of_nil].
  - apply NoDup_nil_2.
  - by intros u ?%not_elem_of_nil.
Qed.

Lemma reachable_inv s : reachable s → fetcher_inv s.
Proof. induction 1; [apply init_inv|by eapply exec_inv]. Qed.

(** C32: At every moment each URL has at most one pending task: it waits or runs in the pool, or
    is on its way back to the queue, or is in the queue, and then its fetch is recorded as in
    progress; however often requests ask for it, and in every interleaving. *)
Theorem one_task_per_url s : reachable s → NoDup (pending s) ∧ ∀ u, u ∈ pending s → u ∈ f_fetchInProgress s.
Proof. by intros [_ ? ? _]%reachable_inv. Qed.

(** ** What requests are served *)
Lemma Fetch_result c now config r st m : Fetch c now config = (Some r, st, m) →
  st = FetchSuccess ∧ is_Some (pf_Data r) ∧
  ∃ text, c !! aff_URL (apf_Fetcher config) = Some text ∧ unmarshal_rules text = Some r.
Proof. unfold Fetch, Get. intros H. repeat (case_match; simplify_eq/=). split_and!; eauto. Qed.

(** The running fetcher is what [resolveFloors] relies on. *)
Definition fetcher_at (s : fetcher_state) (now : Z) : FloorFetcher.
Proof.
  refine {| Floors.Fetch config := fst (Fetch (f_cache s) now config) |}.
  intros config r H. destruct (Fetch _ _ _) as [[r' st] m] eqn:E. simpl in H. simplify_eq. by apply Fetch_result in E as (_ & ? & _).
Defined.

(** Whatever floors the fetcher serves for a URL were parsed from a document of that URL,
    fetched with status 200, within the size limit, that passed validation under a fetch
    configuration with that URL, and come back from the cache unchanged. *)
Theorem served_floors_validated s now config r st m :
  reachable s → Fetch (f_cache s) now config = (Some r, st, m) →
  st = FetchSuccess ∧ ∃ fetched body d, aff_URL fetched = aff_URL (apf_Fetcher config) ∧
    fetched_document fetched body d ∧ r = rules_of d.
Proof.
  intros Hr HF. apply Fetch_result in HF as (-> & _ & text & Ht & Hu). split; [done|].
  destruct (fv_cache _ (reachable_inv _ Hr) _ _ Ht) as (fetched & body & d & HU & Hd & Hm). simplify_eq. eauto 6.
Qed.

(** ** Retries *)

(** Without a pending task a URL that was ever posted gets none again, and nothing enters the
    cache for it. *)
Lemma abandoned_step e s s' u : fetcher_inv s → exec e s = Some s' →
  u ∈ f_fetchInProgress s → u ∉ pending s → f_cache s !! u = None →
  u ∈ f_fetchInProgress s' ∧ u ∉ pending s' ∧ f_cache s' !! u = None.
Proof.
  intros Hinv H Hu Hp Hc.
  assert (f_cache s' !! u = None) as Hc'.
  { destruct (f_cache s' !! u) as [text|] eqn:E; [|done]. destruct (exec_cache _ _ _ _ _ H E) as [?|[? _]]; congruence. }
  destruct (exec_pending _ _ _ (fv_posts _ Hinv) H) as [Hperm HI|u' Hperm HI|u' Hu' Hperm HI]; rewrite HI; split_and!; try done.
  - by rewrite Hperm.
  - intros Hin. apply Hp. rewrite <-Hperm. by right.
  - set_solver.
  - rewrite Hperm, elem_of_cons. intros [->|?]; done.
Qed.

(** Once a worker gives up on a URL after [maxRetries] failures, the URL stays recorded as in
    progress with no task: if its document is not or no longer cached, then in every later state
    the URL still has no task and requests for it are answered without floors, with the status
    "inprogress" where the configuration is in use. *)
Theorem abandoned_url_stays_in_progress s u :
  reachable s → u ∈ f_fetchInProgress s → u ∉ pending s → f_cache s !! u = None →
  ∀ es s', run es s = Some s' →
    u ∉ pending s' ∧
    ∀ now config, aff_URL (apf_Fetcher config) = u →
      let usable := apf_UseDynamicData config && nonempty u && IsURL u in
      fst (Fetch (f_cache s') now config) = (None, if usable then FetchInprogress else FetchNone).
Proof.
  intros Hr%reachable_inv Hu Hp Hc es. revert s Hr Hu Hp Hc.
  induction es as [|e es IH]; intros s Hinv Hu Hp Hc s' Hrun; simpl in Hrun.
  - simplify_eq. split; [done|]. intros now config HU usable. subst usable. unfold Fetch, Get. rewrite HU, Hc.
    by destruct (apf_UseDynamicData config), (nonempty u), (IsURL u).
  - destruct (exec e s) as [s1|] eqn:He; [|done]. simpl in Hrun.
    destruct (abandoned_step _ _ _ _ Hinv He Hu Hp Hc) as (? & ? & ?). by eapply (IH s1); [eapply exec_inv|..].
Qed.

(** ** Ticks *)
Definition due (t : Z) (q : list fetchInfo) : list fetchInfo := filter (λ fi, fi_fetchTime fi ≤ t) q.
Definition not_due (t : Z) (q : list fetchInfo) : list fetchInfo := filter (λ fi, t < fi_fetchTime fi) q.
Definition time_le (a b : fetchInfo) : Prop := fi_fetchTime a ≤ fi_fetchTime b.

Lemma due_nil t q : (∀ fi, fi ∈ q → t < fi_fetchTime fi) → due t q = [] ∧ not_due t q = q.
Proof.
  unfold due, not_due. induction q as [|x q IH]; intros H; [done|].
  destruct IH as [Hd Hn]; [intros fi ?; apply H; by right|]. specialize (H x (list_elem_of_here _ _)).
  rewrite filter_cons_False, filter_cons_True, Hn by lia. done.
Qed.

Lemma drain_queue t n s :
  length (f_fetchQueue s) = n → f_loop s = Ticking t → is_heap fi_fetchTime (f_fetchQueue s) →
  (∀ k, (k < length (f_pool s) + length (due t (f_fetchQueue s)))%nat → pool_accepts (stopped s) k = true) →
  ∃ l q, run (replicate (S (length l)) E_turn) s =
           Some (set_loop Selecting (set_pool (f_pool s ++ (Waiting <$> l)) (set_fetchQueue q s))) ∧
    l ≡ₚ due t (f_fetchQueue s) ∧ StronglySorted time_le l ∧ q ≡ₚ not_due t (f_fetchQueue s).
Proof.
  revert s. induction n as [n IH] using lt_wf_ind. intros s Hn Hl Hh Ha.
  destruct (tick_turn t s) as [s1|] eqn:Ht; cycle 1.
  { unfold tick_turn in Ht. destruct (Top _) as [top|] eqn:Et; [|done]. destruct (_ <=? t); [|done].
    destruct (heap_pop_spec _ _ _ Hh Et) as (q & Hpop & _). unfold Pop in Ht. by rewrite Hpop in Ht. }
  assert (exec E_turn s = Some s1) as He by (simpl; by rewrite Hl).
  destruct (tick_turn_pop _ _ _ Ht Hh) as [[-> Hnone]|(top & q & Et & Hle & Hperm & Hq & ->)].
  - destruct (due_nil _ _ Hnone) as [Hd Hnd]. exists [], (f_fetchQueue s). rewrite Hd, Hnd. split_and!; try done.
    + cbn [replicate length run]. rewrite He. cbn [mbind option_bind]. rewrite app_nil_r. by destruct s.
    + constructor.
  - assert (due t (f_fetchQueue s) ≡ₚ top :: due t q) as Hdue.
    { unfold due. by rewrite Hperm, filter_cons_True. }
    assert (submit top (set_fetchQueue q s) = set_pool (f_pool s ++ [Waiting top]) (set_fetchQueue q s)) as Hsub.
    { unfold submit. simpl. change (stopped (set_fetchQueue q s)) with (stopped s). rewrite Ha; [done|]. rewrite Hdue. simpl. lia. }
    rewrite Hsub in He.
    destruct (IH (length q)) with (s := set_pool (f_pool s ++ [Waiting top]) (set_fetchQueue q s)) as (l & q' & Hrun & Hl' & Hs & Hq').
    { rewrite <-Hn, Hperm. simpl. lia. }
    1-3: done.
    { intros k Hk. apply Ha. rewrite Hdue. simpl in *. rewrite length_app in Hk. simpl in *. lia. }
    exists (top :: l), q'. split_and!.
    + cbn [replicate length run] in Hrun |- *. rewrite He. cbn [mbind option_bind]. rewrite Hrun. simpl. by rewrite <-app_assoc.
    + by rewrite Hl', Hdue.
    + constructor; [done|]. apply Forall_forall. intros fi Hfi. rewrite Hl' in Hfi. unfold due in Hfi.
      apply list_elem_of_filter in Hfi as [_ Hfi]. apply (top_least _ _ _ fi Hh Et). rewrite Hperm. by right.
    + rewrite Hq'. unfold not_due. rewrite Hperm, filter_cons_False by lia. done.
Qed.

(** A tick over a pool with room for the due fetches ends: in one turn more than there are
    due entries the loop is back in its [select], has handed exactly the due entries to the pool,
    earliest first, and has left exactly the others in the queue, still a heap. *)
Theorem tick_submits_due_fetches s t :
  reachable s → f_loop s = Ticking t →
  (∀ k, (k < length (f_pool s) + length (due t (f_fetchQueue s)))%nat → pool_accepts (stopped s) k = true) →
  ∃ l q, run (replicate (S (length l)) E_turn) s =
           Some (set_loop Selecting (set_pool (f_pool s ++ (Waiting <$> l)) (set_fetchQueue q s))) ∧
    l ≡ₚ due t (f_fetchQueue s) ∧ StronglySorted time_le l ∧ q ≡ₚ not_due t (f_fetchQueue s).
Proof. intros Hr%reachable_inv Hl Ha. eapply drain_queue; [done..| |done]. by destruct Hr as [[]]. Qed.

(** ** A full pool *)

(** The loop is in a tick with a due entry, the pool refuses tasks, its workers wait to send and
    the channel is full. *)
Record jammed (t : Z) (s : fetcher_state) : Prop := {
  jam_loop : f_loop s = Ticking t;
  jam_up : f_stop s = Up;
  jam_chan : (chan_cap ≤ length (f_configReceiver s))%nat;
  jam_pool : pool_accepts false (length (f_pool s)) = false;
  jam_due : ∃ fi, fi ∈ f_fetchQueue s ∧ fi_fetchTime fi ≤ t;
  jam_jobs : ∀ j, j ∈ f_pool s →
    match j with Running _ => False | Waiting _ => pool_starts (executing (f_pool s)) = false | Sending _ => True end
}.

Lemma jammed_step t e s s' : posts_ok s → jammed t s → exec e s = Some s' → f_stop s' = Up →
  jammed t s' ∧ f_pool s' = f_pool s ∧ f_configReceiver s' = f_configReceiver s.
Proof.
  intros [Hh _ _] [Hl Hup Hc Hp (fi & Hfi & Hle) Hj] H Hup'.
  assert (∀ fi, send fi s = None) as Hsend.
  { intros fi'. unfold send. rewrite bool_decide_false by congruence. by replace (_ <? _)%nat with false by (symmetry; apply Nat.ltb_ge; lia). }
  destruct e; simpl in H; rewrite ?Hl in H; try done.
  - case_match; simplify_eq; (split; [|done]); split; simpl; eauto.
  - destruct (f_clients s !! i); [|done]. simpl in H. unfold send in *. simpl in *. specialize (Hsend f). case_match; [|by case_match].
    done.
  - destruct (tick_turn_pop _ _ _ H Hh) as [[-> Hnone]|(top & q & Et & Ht & Hperm & Hq & ->)].
    + specialize (Hnone _ Hfi). lia.
    + assert (stopped (set_fetchQueue q s) = false) as Hst by (unfold stopped; simpl; by rewrite Hup).
      unfold submit in *. rewrite Hst in *. simpl in *. rewrite Hp in *. split; [|done]. split; simpl; try done.
      exists top. split; [|done]. unfold Push. rewrite heap_push_perm. left.
  - destruct (f_pool s !! i) as [[fi'| |]|] eqn:Hi; try done. specialize (Hj _ (list_elem_of_lookup_2 _ _ _ Hi)). simpl in Hj. by rewrite Hj in H.
  - destruct (f_pool s !! i) as [[|fi'|]|] eqn:Hi; try done. by specialize (Hj _ (list_elem_of_lookup_2 _ _ _ Hi)).
  - destruct (f_pool s !! i) as [[| |fi']|] eqn:Hi; try done. specialize (Hsend fi'). unfold send in *. simpl in *.
    case_match; [done|]. by case_match.
  - simplify_eq. split; [|done]. split; simpl; eauto.
  - rewrite Hup in H. simplify_eq.
Qed.

Lemma submit_stop fi s : f_stop (submit fi s) = f_stop s.
Proof. unfold submit. by case_match. Qed.

Lemma receive_stop fi s : f_stop (receive fi s) = f_stop s.
Proof. unfold receive. by repeat case_match; rewrite ?submit_stop. Qed.

Lemma send_stop fi s s' : send fi s = Some s' → f_stop s' = f_stop s.
Proof. unfold send. intros H. by repeat (case_match; simplify_eq/=). Qed.

Lemma exec_stop_monotone e s s' : exec e s = Some s' → f_stop s ≠ Up → f_stop s' ≠ Up.
Proof.
  intros H Hs. destruct e; simpl in H.
  2: { destruct (f_clients s !! i); [|done]. simpl in H. by rewrite (send_stop _ _ _ H). }
  4: { destruct (f_loop s) as [|t|]; try done. unfold tick_turn in H. destruct (Pop _) as [[fi q]|]; simpl in H.
       all: repeat (case_match; simplify_eq/=); by rewrite ?submit_stop. }
  all: simplify_eq/=; repeat (case_match; simplify_eq/=); rewrite ?receive_stop; try done; try congruence.
  by rewrite (send_stop _ _ _ H).
Qed.

(** C33: Suppose that the loop of a tick has a due entry, the pool refuses more tasks, the channel is
    full, no task of the pool is fetching (each waits for a free worker or to send on the channel) and the fetcher was
    not stopped ([jammed]).  Then after any events, as long as [Stop] is not called, this is still so: no event
    starts, ends or unblocks a worker, nothing is received, and the loop is still in the same tick and can only go
    on putting a due entry back into the queue and taking it out again. *)
Theorem jammed_forever t s : reachable s → jammed t s →
  ∀ es s', run es s = Some s' → f_stop s' = Up →
    jammed t s' ∧ f_pool s' = f_pool s ∧ f_configReceiver s' = f_configReceiver s.
Proof.
  intros Hr%reachable_inv Hj es. revert s Hr Hj. induction es as [|e es IH]; intros s Hr Hj s' Hrun Hup; simpl in Hrun; [by simplify_eq|].
  destruct (exec e s) as [s1|] eqn:He; [|done]. simpl in Hrun.
  destruct (decide (f_stop s1 = Up)) as [Hup1|Hup1].
  - destruct (jammed_step t e s s1) as (Hj1 & Hp1 & Hc1); [by destruct Hr|done..|]. rewrite <-Hp1, <-Hc1.
    eapply IH; [by eapply exec_inv|done..].
  - exfalso. clear -Hup1 Hrun Hup. revert s1 Hup1 Hrun. induction es as [|e' es IH']; intros s1 Hup1 Hrun; simpl in Hrun; [by simplify_eq|].
    destruct (exec e' s1) as [s2|] eqn:He'; [|done]. eapply IH'; [by eapply exec_stop_monotone|done].
Qed.
End fetcher.

(** ** Runs with a concrete environment

    One worker, room for one more task, a channel of one element and one document. *)
Definition sample_document : PriceFloorData :=
  {| pd_Currency := "USD"; pd_SkipRate := 0; pd_FloorsSchemaVersion := 2; pd_ModelTimestamp := 0;
     pd_ModelGroups := [sample_group]; pd_FloorProvider := "provider"; pd_UseFetchDataRate := Some 50 |}.

Definition sample_env : FetchEnv.
Proof.
  refine {| IsURL := λ _, true;
            unmarshal_data := λ body, if body =s? "document" then Some (Some sample_document) else None;
            unmarshal_rules := λ text, if text =s? "rules" then Some (rules_of sample_document) else None;
            marshal_rules := λ _, Some "rules";
            cache_set := λ c k v _, <[k := v]> c;
            pool_accepts := λ stop n, negb stop && (n <? 2)%nat;
            pool_starts := λ n, (n <? 1)%nat;
            chan_cap := 1; maxRetries := 2 |}.
  - intros body d text. case_match; [|done]. intros [= <-] [= <-]. done.
  - intros c k v _ k' v' H. apply lookup_insert_Some in H as [[-> ->]|[_ ?]]; auto.
Defined.

Definition sample_source (url : string) : AccountFloorFetch :=
  {| aff_Enabled := true; aff_URL := url; aff_Timeout := 100; aff_MaxFileSizeKB := 10; aff_MaxRules := 10;
     aff_MaxAge := 600; aff_Period := 300; aff_MaxSchemaDims := 5; aff_AccountID := "account" |}.
Definition sample_account (url : string) : AccountPriceFloors :=
  {| apf_Enabled := true; apf_EnforceFloorsRate := 100; apf_AdjustForBidAdjustment := false; apf_EnforceDealFloors := false;
     apf_UseDynamicData := true; apf_MaxRule := 10; apf_MaxSchemaDims := 5; apf_Fetcher := sample_source url |}.

(** A request posts [url], the loop receives it and hands it to the pool. *)
Definition post (now : Z) (url : string) : list event := [E_fetch now (sample_account url); E_client_send 0; E_receive].
Definition served : floor_response := H_response 200 "" (Some "document").

(** [a] is fetched and queued for a second fetch, which is due in the tick. *)
Definition run_one : list event :=
  post 0 "a" ++ [E_start 0; E_work 0 served 0; E_send 0; E_receive].
(** [b] waits to send, [c] waits in the pool, [d] fills the channel when the tick comes. *)
Definition run_jam : list event :=
  run_one ++ post 0 "b" ++ [E_start 0; E_work 0 served 0] ++ post 0 "c" ++
  [E_fetch 0 (sample_account "d"); E_tick (400 * second); E_client_send 0].

Definition state_after (es : list event) : fetcher_state :=
  default init_fetcher (run (env:=sample_env) es init_fetcher).

Lemma sample_reachable es : run (env:=sample_env) es init_fetcher ≠ None → reachable (env:=sample_env) (state_after es).
Proof.
  intros [s Hs]%not_eq_None_Some. unfold state_after. rewrite Hs. eapply (reachable_run (env:=sample_env)); [apply reach_init|done].
Qed.

Lemma one_task_per_url_witness : NoDup (pending (state_after run_jam)) ∧ pending (state_after run_jam) = ["b"; "c"; "a"].
Proof.
  split; [|by vm_compute].
  apply (one_task_per_url (env:=sample_env)), sample_reachable. by vm_compute.
Defined.

Lemma served_floors_validated_witness :
  ∃ fetched body d, aff_URL fetched = "a" ∧ fetched_document (env:=sample_env) fetched body d ∧ rules_of sample_document = rules_of d.
Proof.
  apply (served_floors_validated (env:=sample_env) (state_after run_one) 0 (sample_account "a") (rules_of sample_document) FetchSuccess None).
  - apply sample_reachable. by vm_compute.
  - by vm_compute.
Defined.

(** Two failures of [a], with a wait between them. *)
Definition run_abandon : list event :=
  post 0 "a" ++ [E_start 0; E_work 0 H_failed 0; E_send 0; E_receive; E_tick (400 * second); E_turn; E_turn;
                 E_start 0; E_work 0 H_failed 0].

Lemma abandoned_url_stays_in_progress_witness :
  let s := state_after run_abandon in
  pending s = [] ∧
  ∃ s', run (env:=sample_env) (post (1000000 * second) "a") s = Some s' ∧ "a" ∉ pending s' ∧
    fst (Fetch (env:=sample_env) (f_cache s') 0 (sample_account "a")) = (None, FetchInprogress).
Proof.
  intros s. split; [by vm_compute|]. eexists. split; [by vm_compute|].
  destruct (abandoned_url_stays_in_progress (env:=sample_env) s "a") with
    (es := post (1000000 * second) "a") (s' := default s (run (env:=sample_env) (post (1000000 * second) "a") s)) as [Hp HF].
  - apply sample_reachable. by vm_compute.
  - apply (bool_decide_unpack _). by vm_compute.
  - apply (bool_decide_unpack _). by vm_compute.
  - by vm_compute.
  - by vm_compute.
  - split; [exact Hp|]. exact (HF 0 (sample_account "a") eq_refl).
Defined.

Lemma tick_submits_due_fetches_witness :
  let s := state_after (run_one ++ [E_tick (400 * second)]) in
  ∃ l q, length (due 400 (f_fetchQueue s)) = 1%nat ∧
    run (env:=sample_env) (replicate (S (length l)) E_turn) s =
      Some (set_loop Selecting (set_pool (f_pool s ++ (Waiting <$> l)) (set_fetchQueue q s))).
Proof.
  intros s. destruct (tick_submits_due_fetches (env:=sample_env) s 400) as (l & q & Hrun & _).
  - apply sample_reachable. by vm_compute.
  - by vm_compute.
  - intros [|[|k]] Hk; [by vm_compute..|]. vm_compute in Hk. lia.
  - exists l, q. split; [by vm_compute|exact Hrun].
Defined.

Lemma jammed_forever_witness :
  let s := state_after run_jam in
  reachable (env:=sample_env) s ∧ jammed (env:=sample_env) 400 s ∧
  ∃ s', run (env:=sample_env) [E_turn; E_turn; E_fetch 0 (sample_account "e"); E_turn] s = Some s' ∧ jammed (env:=sample_env) 400 s'.
Proof.
  intros s. assert (reachable (env:=sample_env) s) as Hr by (apply sample_reachable; by vm_compute).
  assert (jammed (env:=sample_env) 400 s) as Hj.
  { split; [by vm_compute..| |].
    - eexists. split; [vm_compute; left|by vm_compute].
    - intros j [i Hi]%list_elem_of_lookup_1. destruct i as [|[|i]]; vm_compute in Hi; simplify_eq; by vm_compute. }
  split; [done|]. split; [done|]. eexists. split; [by vm_compute|].
  refine (proj1 (jammed_forever (env:=sample_env) 400 s Hr Hj
    [E_turn; E_turn; E_fetch 0 (sample_account "e"); E_turn] _ _ _)); by vm_compute.
Defined.
End PriceFloorFetcher.
