(* ===== verification/UserSync.v ===== *)
(** * User sync cookie: src/usersync/cookie.go, ejector.go

    The cookie that maps syncer keys to user ids, its operations and its JSON contract, and the
    loop that ejects ids until the cookie fits ([PrepareCookieForWrite]) with the two ejectors.
    The priority ejector works on the groups of the server's configuration in place, so the
    groups are a shared array and the ejector keeps a length into it.  The clock, the encoder
    and the size of an HTTP cookie are arguments. *)
From S2P Require Import Prelude.

(** ** cookie.go *)
(** [Expires] in nanoseconds since the epoch. *)
Record UIDEntry := { UID : string; Expires : Z }.
#[export] Instance uid_entry_eq_dec : EqDecision UIDEntry.
Proof. solve_decision. Defined.

Record Cookie := { uids : gmap string UIDEntry; optOut : bool }.

(** 14 days. *)
Definition uidTTL : Z := 14 * 24 * 3600 * 1000000000.
Definition BidderAudienceNetwork := "audienceNetwork".

Definition NewCookie : Cookie := {| uids := ∅; optOut := false |}.

Definition checkAudienceNetwork (key uid : string) : bool := (key =s? BidderAudienceNetwork) && (uid =s? "0").

(** The methods accept a nil cookie where the code does. *)
Definition AllowSyncs (cookie : option Cookie) : bool :=
  match cookie with Some c => negb (optOut c) | None => false end.

Inductive sync_error := ErrOptedOut | ErrAudienceNetwork.

Definition Sync (now : Z) (c : Cookie) (key uid : string) : result sync_error Cookie :=
  if negb (AllowSyncs (Some c)) then Err ErrOptedOut
  else if checkAudienceNetwork key uid then Err ErrAudienceNetwork
  else Ok {| uids := <[key := {| UID := uid; Expires := now + uidTTL |}]> (uids c); optOut := optOut c |}.

Definition SetOptOut (c : Cookie) (b : bool) : Cookie :=
  {| uids := if b then ∅ else uids c; optOut := b |}.

(** Go's [(uid, isUIDFound, isUIDActive)]. *)
Definition GetUID (now : Z) (cookie : option Cookie) (key : string) : string * bool * bool :=
  match cookie ≫= λ c, uids c !! key with
  | Some e => (UID e, true, now <? Expires e)
  | None => ("", false, false)
  end.

Definition GetUIDs (cookie : option Cookie) : gmap string string :=
  match cookie with Some c => UID <$> uids c | None => ∅ end.

Definition Unsync (c : Cookie) (key : string) : Cookie := {| uids := delete key (uids c); optOut := optOut c |}.

Definition HasLiveSync (now : Z) (cookie : option Cookie) (key : string) : bool := (GetUID now cookie key).2.

Definition HasAnyLiveSyncs `{MapRange} (now : Z) (cookie : option Cookie) : bool :=
  match cookie with
  | Some c => existsb (λ kv, now <? Expires kv.2) (map_range (uids c))
  | None => false
  end.

(** The host's settings for cookies; the opt-out cookie is its name and value. *)
Record HostCookie := {
  hc_Family : string;
  hc_CookieName : string;
  hc_OptOutName : string;
  hc_OptOutValue : string;
  hc_MaxCookieSizeBytes : Z
}.

(** The cookies of an HTTP request: [Some value] when there is one of that name. *)
Abbreviation request_cookies := (string → option string).

Definition uidCookieName := "uids".

Definition checkHostCookieOptOut (r : request_cookies) (host : HostCookie) : option Cookie :=
  if hc_OptOutName host ≠s? "" then
    match r (hc_OptOutName host) with
    | Some v => if v =s? hc_OptOutValue host then Some (SetOptOut NewCookie true) else None
    | None => None
    end
  else None.

Definition ReadCookie (r : request_cookies) (decode : string → Cookie) (host : HostCookie) : Cookie :=
  match checkHostCookieOptOut r host with
  | Some c => c
  | None => match r uidCookieName with Some v => decode v | None => NewCookie end
  end.

(** The error of [Sync] is ignored. *)
Definition SyncHostCookie (now : Z) (r : request_cookies) (c : Cookie) (host : HostCookie) : Cookie :=
  let '(uid, _, _) := GetUID now (Some c) (hc_Family host) in
  if (uid =s? "") && (hc_CookieName host ≠s? "") then
    match r (hc_CookieName host) with
    | Some v => match Sync now c (hc_Family host) v with Ok c' => c' | Err _ => c end
    | None => c
    end
  else c.

(** The JSON contract; [cj_UIDs] is [None] for a missing or null map. *)
Record cookieJson := { cj_UIDs : option (gmap string UIDEntry); cj_OptOut : bool }.

(** [omitempty] leaves an empty map out. *)
Definition MarshalJSON (c : Cookie) : cookieJson :=
  {| cj_UIDs := if bool_decide (uids c = ∅) then None else Some (uids c); cj_OptOut := optOut c |}.

Definition UnmarshalJSON (j : cookieJson) : Cookie :=
  let m := if cj_OptOut j then ∅ else default ∅ (cj_UIDs j) in
  {| uids := match m !! BidderAudienceNetwork with
             | Some e => if UID e =s? "0" then delete BidderAudienceNetwork m else m
             | None => m
             end;
     optOut := cj_OptOut j |}.

(** ** ejector.go *)
(** [time.Unix(1<<63-62135596801, 999999999)] *)
Definition max_time : Z := (two63 - 62135596801) * 1000000000 + 999999999.

(** The state of the loop is [(oldestElement, oldestDate)]. *)
Definition oldest_step (s : string * Z) (kv : string * UIDEntry) : string * Z :=
  if Expires kv.2 <? s.2 then (kv.1, Expires kv.2) else s.
Definition OldestEjector_Choose `{MapRange} (m : gmap string UIDEntry) : string :=
  (foldl oldest_step ("", max_time) (map_range m)).1.

(** [pe_shared] is the array behind [cfg.UserSync.PriorityGroups]; the ejector's slice is its first
    [pe_len] groups.  [pe_SyncersByBidder] gives the key of a bidder's syncer. *)
Record PriorityBidderEjector := {
  pe_shared : list (list string);
  pe_len : nat;
  pe_SyncersByBidder : gmap string string;
  pe_IsSyncerPriority : bool
}.
Definition PriorityGroups (p : PriorityBidderEjector) : list (list string) := take (pe_len p) (pe_shared p).

Definition set_groups (shared : list (list string)) (n : nat) (p : PriorityBidderEjector) : PriorityBidderEjector :=
  {| pe_shared := shared; pe_len := n; pe_SyncersByBidder := pe_SyncersByBidder p;
     pe_IsSyncerPriority := pe_IsSyncerPriority p |}.

Definition priority_keys (p : PriorityBidderEjector) : list string :=
  omap (λ bidder, pe_SyncersByBidder p !! bidder) (concat (PriorityGroups p)).

Definition getNonPriorityUids (m : gmap string UIDEntry) (p : PriorityBidderEjector) : gmap string UIDEntry :=
  match PriorityGroups p with
  | [] => m
  | _ => filter (λ kv : string * UIDEntry, kv.1 ∉ priority_keys p) m
  end.

Definition getPriorityUids (lowest : list string) (m : gmap string UIDEntry) (p : PriorityBidderEjector)
  : gmap string UIDEntry :=
  foldl (λ acc bidder,
    match pe_SyncersByBidder p !! bidder with
    | Some key => match m !! key with Some e => <[key := e]> acc | None => acc end
    | None => acc
    end) ∅ lowest.

(** The first occurrence is taken out: [append(g[:i], g[i+1:]...)]. *)
Fixpoint remove_first (x : string) (l : list string) : list string :=
  match l with [] => [] | y :: l' => if y =s? x then l' else y :: remove_first x l' end.

(** [None] is the panic of indexing an empty slice.  A group of more than one bidder is changed in
    the shared array; a group of one is dropped from the ejector's slice only. *)
Definition removeElementFromPriorityGroup (p : PriorityBidderEjector) (oldestElement : string)
  : option PriorityBidderEjector :=
  lowest ← last (PriorityGroups p);
  Some (if (length lowest <=? 1)%nat then set_groups (pe_shared p) (pred (pe_len p)) p
        else if existsb (λ e, e =s? oldestElement) lowest
        then set_groups (<[pred (pe_len p) := remove_first oldestElement lowest]> (pe_shared p)) (pe_len p) p
        else p).

(** The error is "syncer key is not a priority, and there are only priority elements left". *)
Definition checkSyncerPriority (p : PriorityBidderEjector) (nonPriorityUids : gmap string UIDEntry) : bool :=
  (size nonPriorityUids =? 1)%nat && negb (pe_IsSyncerPriority p) && negb (length (PriorityGroups p) =? 0)%nat.

Inductive choose_result := Chosen (key : string) (p : PriorityBidderEjector) | NotPriority | Panic.

Definition PriorityBidderEjector_Choose `{MapRange} (p : PriorityBidderEjector) (m : gmap string UIDEntry)
  : choose_result :=
  let nonPriorityUids := getNonPriorityUids m p in
  if checkSyncerPriority p nonPriorityUids then NotPriority
  else if negb (size nonPriorityUids =? 0)%nat then Chosen (OldestEjector_Choose nonPriorityUids) p
  else
    match last (PriorityGroups p) with
    | None => Panic
    | Some lowest =>
        let uidToDelete := match lowest with
                           | [b] => b
                           | _ => OldestEjector_Choose (getPriorityUids lowest m p)
                           end in
        match removeElementFromPriorityGroup p uidToDelete with
        | Some p' => Chosen uidToDelete p'
        | None => Panic
        end
    end.

(** ** PrepareCookieForWrite *)
Inductive prepare_result :=
| Prepared (encoded : string)
| ErrTooBig
| ErrNotPriority (encoded : string)
| PreparePanic.

Section Prepare.
Context `{MapRange}.
(** [encode] fails with [None]; [http_size] is the length of the HTTP cookie with this value. *)
Context (encode : Cookie → option string) (http_size : string → Z) (cfg : HostCookie).

Definition isCookieTooBig (encoded : string) : bool :=
  (hc_MaxCookieSizeBytes cfg <? http_size encoded) && (0 <? hc_MaxCookieSizeBytes cfg).

(** One turn of the loop: a result, or the state of the next turn. *)
Definition prepare_step (c : Cookie) (p : PriorityBidderEjector)
  : prepare_result * (Cookie * PriorityBidderEjector) + Cookie * PriorityBidderEjector :=
  if (size (uids c) =? 0)%nat then inl (Prepared "", (c, p))
  else match encode c with
  | None => inl (Prepared "", (c, p))
  | Some encoded =>
      if negb (isCookieTooBig encoded) then inl (Prepared encoded, (c, p))
      else if (size (uids c) =? 1)%nat then inl (ErrTooBig, (c, p))
      else match PriorityBidderEjector_Choose p (uids c) with
           | NotPriority => inl (ErrNotPriority encoded, (c, p))
           | Panic => inl (PreparePanic, (c, p))
           | Chosen uidToDelete p' => inr (Unsync c uidToDelete, p')
           end
  end.

(** The loop with a bound on its turns; [None] when the bound is reached. *)
Fixpoint PrepareCookieForWrite (turns : nat) (c : Cookie) (p : PriorityBidderEjector)
  : option (prepare_result * (Cookie * PriorityBidderEjector)) :=
  match turns with
  | O => None
  | S n => match prepare_step c p with
           | inl r => Some r
           | inr (c', p') => PrepareCookieForWrite n c' p'
           end
  end.
End Prepare.

(** ** Lemmas *)
(** What the cookie operations can build. *)
Inductive reachable_cookie : Cookie → Prop :=
| reach_new : reachable_cookie NewCookie
| reach_sync now c key uid c' : reachable_cookie c → Sync now c key uid = Ok c' → reachable_cookie c'
| reach_unsync c key : reachable_cookie c → reachable_cookie (Unsync c key)
| reach_opt_out c b : reachable_cookie c → reachable_cookie (SetOptOut c b)
| reach_decoded j : reachable_cookie (UnmarshalJSON j).

Record cookie_ok (c : Cookie) : Prop := {
  ok_optout : optOut c = true → uids c = ∅;
  ok_audience : ∀ e, uids c !! BidderAudienceNetwork = Some e → UID e ≠ "0"
}.

Lemma reachable_cookie_ok c : reachable_cookie c → cookie_ok c.
Proof.
  induction 1 as [|now c key uid c' _ [Ho Ha] Hs|c key _ [Ho Ha]|c b _ [Ho Ha]|j].
  - split; [done|]. simpl. intros e. by rewrite lookup_empty.
  - unfold Sync, AllowSyncs in Hs. destruct (optOut c) eqn:Eo; [done|]. simpl in Hs.
    destruct (checkAudienceNetwork key uid) eqn:Ea; [done|]. injection Hs as <-. split; simpl; [congruence|].
    intros e. destruct (decide (key = BidderAudienceNetwork)) as [->|Hne].
    + rewrite lookup_insert_eq. intros [= <-] Hz. simpl in Hz. subst uid. done.
    + rewrite lookup_insert_ne by done. apply Ha.
  - split; simpl.
    + intros ->%Ho. apply delete_empty.
    + intros e [_ He]%lookup_delete_Some. eauto.
  - split; simpl; [by intros ->|]. intros e. destruct b; [by rewrite lookup_empty|]. apply Ha.
  - unfold UnmarshalJSON. split; simpl.
    + intros ->. by rewrite lookup_empty.
    + intros e. set (m := if cj_OptOut j then _ else _). destruct (m !! BidderAudienceNetwork) as [e'|] eqn:E.
      * destruct (String.eqb_spec (UID e') "0"); [by rewrite lookup_delete_eq|]. rewrite E. by intros [= <-].
      * by rewrite E.
Qed.

Lemma oldest_fold l s0 :
  let s := foldl oldest_step s0 l in
  s.2 ≤ s0.2 ∧ (∀ k e, (k, e) ∈ l → s.2 ≤ Expires e) ∧ (s = s0 ∨ ∃ e, (s.1, e) ∈ l ∧ Expires e = s.2).
Proof.
  simpl. revert s0. induction l as [|[k e] l IH]; intros s0; simpl; [split_and!; [lia|set_solver|by left]|].
  destruct (IH (oldest_step s0 (k, e))) as (H1 & H2 & H3).
  assert ((oldest_step s0 (k, e)).2 = Z.min (Expires e) s0.2) as Hmin.
  { unfold oldest_step. simpl. destruct (Z.ltb_spec (Expires e) s0.2); simpl; lia. }
  split_and!; [lia| |].
  - intros k' e' [[= -> ->]|?]%elem_of_cons; [lia|by eapply H2].
  - destruct H3 as [->|(e' & ? & ?)]; [|right; exists e'; set_solver].
    unfold oldest_step. simpl. destruct (Expires e <? s0.2); [right|by left]. exists e. set_solver.
Qed.

Section Oldest.
Context `{MapRange}.

(** An entry that expires first. *)
Lemma OldestEjector_spec m :
  m ≠ ∅ → (∀ k e, m !! k = Some e → Expires e < max_time) →
  ∃ e, m !! OldestEjector_Choose m = Some e ∧ ∀ k' e', m !! k' = Some e' → Expires e ≤ Expires e'.
Proof.
  intros Hne Hmax. unfold OldestEjector_Choose. setoid_rewrite <-elem_of_map_range.
  assert (∀ k e, (k, e) ∈ map_range m → Expires e < max_time) as Hlt by (intros; by eapply Hmax, elem_of_map_range).
  assert (map_range m ≠ []) as Hnil.
  { intros Hn. apply Hne, map_to_list_empty_iff, Permutation_nil. by rewrite <-map_range_perm, Hn. }
  clear Hne Hmax. revert Hlt Hnil. generalize (map_range m). intros l Hlt Hnil.
  destruct (oldest_fold l ("", max_time)) as (_ & H2 & H3). destruct l as [|[k e] l]; [done|].
  destruct H3 as [Heq|(e' & He' & Hexp)].
  - rewrite Heq in H2. simpl in H2. specialize (H2 k e ltac:(set_solver)). specialize (Hlt k e ltac:(set_solver)). lia.
  - exists e'. split; [done|]. intros k1 e1 Hin. rewrite Hexp. by eapply H2.
Qed.
End Oldest.

(** ** Properties *)

(** A cookie built by the operations, decoding included, survives being written and read:
    decoding what was encoded gives it back; and a cookie that opted out holds no ids. *)
Theorem cookie_survives_storage c :
  reachable_cookie c → UnmarshalJSON (MarshalJSON c) = c ∧ (optOut c = true → uids c = ∅).
Proof.
  intros [Ho Ha]%reachable_cookie_ok. split; [|done]. destruct c as [m o]. unfold MarshalJSON, UnmarshalJSON. simpl in *.
  f_equal. assert ((if o then ∅ else default ∅ (if bool_decide (m = ∅) then None else Some m)) = m) as ->.
  { destruct o; [by rewrite Ho|]. destruct (bool_decide_reflect (m = ∅)) as [->|]; done. }
  destruct (m !! BidderAudienceNetwork) as [e|] eqn:E; [|done].
  destruct (String.eqb_spec (UID e) "0") as [Hz|]; [|done]. by destruct (Ha e eq_refl).
Qed.

Definition two_ids : Cookie := {| uids := {["a" := {| UID := "1"; Expires := 10 |}; "b" := {| UID := "2"; Expires := 20 |}]}; optOut := false |}.

Lemma cookie_survives_storage_witness :
  let c := UnmarshalJSON (MarshalJSON two_ids) in
  UnmarshalJSON (MarshalJSON c) = c ∧ (optOut c = true → uids c = ∅).
Proof. intros c. apply (cookie_survives_storage c). apply reach_decoded. Defined.

Section Ejection.
Context (encode : Cookie → option string) (http_size : string → Z) (cfg : HostCookie).
(** From [c] to [c'] the oldest ids are ejected one by one, each from a cookie of several ids that
    is too big. *)
Inductive ejected : Cookie → Cookie → Prop :=
| ejected_none c : ejected c c
| ejected_oldest c k e s c' :
    (2 ≤ size (uids c))%nat → encode c = Some s → isCookieTooBig http_size cfg s = true →
    uids c !! k = Some e → (∀ k' e', uids c !! k' = Some e' → Expires e ≤ Expires e') →
    ejected (Unsync c k) c' → ejected c c'.

(** What the loop leaves of a cookie and returns: an empty cookie is not written; of any other at
    least one id is left, the ids left expire no earlier than those ejected, and the cookie is returned as
    soon as it cannot be encoded or fits; a single id that is too big is an error. *)
Record newest_part (c : Cookie) (r : prepare_result) (c' : Cookie) : Prop := {
  np_ejected : ejected c c';
  np_subset : uids c' ⊆ uids c;
  np_newest : ∀ k e k' e', uids c' !! k = Some e → uids c !! k' = Some e' → uids c' !! k' = None → Expires e' ≤ Expires e;
  np_kept : uids c ≠ ∅ → uids c' ≠ ∅;
  np_result : r =
    if decide (uids c = ∅) then Prepared ""
    else match encode c' with
         | None => Prepared ""
         | Some s => if isCookieTooBig http_size cfg s then ErrTooBig else Prepared s
         end;
  np_failed : r = ErrTooBig → size (uids c') = 1%nat
}.

Lemma newest_part_stop c r :
  r = (if decide (uids c = ∅) then Prepared ""
       else match encode c with
            | None => Prepared ""
            | Some s => if isCookieTooBig http_size cfg s then ErrTooBig else Prepared s
            end) → (r = ErrTooBig → size (uids c) = 1%nat) → newest_part c r c.
Proof. intros Hr Hf. split; [constructor|done|congruence|done|done|done]. Qed.
Lemma newest_part_unsync c k0 e0 s r c' :
  (2 ≤ size (uids c))%nat → encode c = Some s → isCookieTooBig http_size cfg s = true →
  uids c !! k0 = Some e0 → (∀ k e, uids c !! k = Some e → Expires e0 ≤ Expires e) →
  newest_part (Unsync c k0) r c' → newest_part c r c'.
Proof.
  intros Hsize Hs Hbig He0 Hold [Hej Hsub Hexp Hkept Hr Hf]. simpl in Hsub, Hexp, Hkept, Hr.
  assert (uids c' ⊆ uids c) as Hsub' by (etrans; [exact Hsub|apply delete_subseteq]).
  assert (delete k0 (uids c) ≠ ∅) as Hne.
  { intros E. apply (f_equal size) in E. rewrite map_size_delete_Some, map_size_empty in E by (by eexists). lia. }
  split; [by eapply ejected_oldest|done| |auto| |done].
  - intros k e k' e' Hk Hk' Hnone. destruct (decide (k' = k0)) as [->|Hne'].
    + rewrite He0 in Hk'. injection Hk' as <-. apply (Hold k). by eapply lookup_weaken.
    + eapply (Hexp k e k' e'); [done| |done]. by rewrite lookup_delete_ne.
  - rewrite decide_False in Hr by done. rewrite decide_False; [done|]. intros E. rewrite E in He0. by rewrite lookup_empty in He0.
Qed.
End Ejection.

Lemma PrepareCookieForWrite_S `{MapRange} encode http_size cfg turns c p :
  PrepareCookieForWrite encode http_size cfg (S turns) c p =
  match prepare_step encode http_size cfg c p with
  | inl r => Some r
  | inr (c', p') => PrepareCookieForWrite encode http_size cfg turns c' p'
  end.
Proof. done. Qed.

(** C30: without priority groups, for ids with an expiry Go can represent, the ejection loop ends after at most one
    turn per id.  It ejects the oldest id of a cookie of several ids that is too big, one by one, and nothing else;
    so the ids left are the newest, at least one where there was one, and every larger cookie met on the
    way was too big.  The result is the encoded cookie of the ids left as soon as that fits, nothing
    for an empty cookie or one that cannot be encoded, and an error exactly when the one id left is too big
    on its own. *)
Theorem ejection_without_groups_terminates `{MapRange} encode http_size cfg c p :
  PriorityGroups p = [] → (∀ k e, uids c !! k = Some e → Expires e < max_time) →
  ∃ r c', PrepareCookieForWrite encode http_size cfg (S (size (uids c))) c p = Some (r, (c', p)) ∧
    newest_part encode http_size cfg c r c'.
Proof.
  intros Hg. remember (size (uids c)) as n eqn:Hn. revert c Hn. induction n as [|n IH]; intros c Hn Hmax.
  all: rewrite PrepareCookieForWrite_S; unfold prepare_step; rewrite <-Hn; cbn [Nat.eqb].
  - exists (Prepared ""), c. symmetry in Hn. apply map_size_empty_inv in Hn.
    split; [done|]. apply newest_part_stop; [by rewrite decide_True|done].
  - assert (uids c ≠ ∅) as Hne by (intros He; by rewrite He in Hn).
    destruct (encode c) as [s|] eqn:Ee; [|exists (Prepared ""), c; split; [done|]; apply newest_part_stop; [by rewrite decide_False, Ee|done]].
    destruct (isCookieTooBig http_size cfg s) eqn:Eb; cbn [negb];
      [|exists (Prepared s), c; split; [done|]; apply newest_part_stop; [by rewrite decide_False, Ee, Eb|done]].
    destruct (Nat.eqb_spec n 0) as [->|Hn0].
    { exists ErrTooBig, c. split; [done|]. apply newest_part_stop; [by rewrite decide_False, Ee, Eb|done]. }
    unfold PriorityBidderEjector_Choose, checkSyncerPriority, getNonPriorityUids. rewrite Hg. cbn [length Nat.eqb negb].
    rewrite andb_false_r, <-Hn. cbn [Nat.eqb negb].
    destruct (OldestEjector_spec (uids c)) as (e0 & He0 & Hold); [done..|].
    destruct (IH (Unsync c (OldestEjector_Choose (uids c)))) as (r & c' & -> & Hnp).
    { simpl. rewrite map_size_delete_Some by (by eexists). lia. }
    { simpl. intros k e [_ Hk]%lookup_delete_Some. by eapply Hmax. }
    exists r, c'. split; [done|]. eapply newest_part_unsync; [|done..]. lia.
Qed.

(** An encoder whose output grows by two bytes per id, and a host that allows three bytes. *)
Definition sample_encode (c : Cookie) : option string :=
  Some (String.concat "" (replicate (size (uids c)) "xx")).
Definition sample_host : HostCookie :=
  {| hc_Family := "host"; hc_CookieName := ""; hc_OptOutName := ""; hc_OptOutValue := ""; hc_MaxCookieSizeBytes := 3 |}.
Definition no_groups : PriorityBidderEjector :=
  {| pe_shared := []; pe_len := 0; pe_SyncersByBidder := ∅; pe_IsSyncerPriority := false |}.
Definition byte_length (s : string) : Z := Z.of_nat (String.length s).

Lemma ejection_without_groups_terminates_witness :
  let H := canonical_range in
  ∃ r c', PrepareCookieForWrite sample_encode byte_length sample_host 3 two_ids no_groups = Some (r, (c', no_groups)) ∧
    newest_part sample_encode byte_length sample_host two_ids r c'.
Proof.
  intros H. apply (ejection_without_groups_terminates sample_encode byte_length sample_host two_ids no_groups); [done|].
  intros k e. unfold two_ids. simpl. rewrite lookup_insert_Some, lookup_singleton_Some.
  intros [[_ <-]|(_ & _ & <-)]; vm_compute; done.
Defined.

(** With priority groups the loop can run forever: when every id belongs to a higher group
    and the lowest group has several bidders without an id, the ejector chooses the empty key,
    nothing is deleted and no group shrinks, so each turn repeats the last. *)
Theorem ejection_can_loop_forever :
  let H := canonical_range in
  let p := {| pe_shared := [["a"; "b"]; ["c"; "d"]]; pe_len := 2;
              pe_SyncersByBidder := {["a" := "a"; "b" := "b"; "c" := "c"; "d" := "d"]};
              pe_IsSyncerPriority := true |} in
  prepare_step sample_encode byte_length sample_host two_ids p = inr (two_ids, p) ∧
  ∀ turns, PrepareCookieForWrite sample_encode byte_length sample_host turns two_ids p = None.
Proof.
  intros H p. assert (prepare_step sample_encode byte_length sample_host two_ids p = inr (two_ids, p)) as Hs.
  { by vm_compute. }
  split; [done|]. intros turns. induction turns as [|n IH]; [done|]. cbn [PrepareCookieForWrite]. by rewrite Hs.
Qed.

(** Ejecting an id takes its bidder out of the configured priority groups for good: the
    ejector edits the group in the array it shares with the configuration, so after one request
    the configuration has lost the bidder. *)
Theorem ejection_edits_the_configuration :
  let H := canonical_range in
  let configured := [["a"; "b"]] in
  let p := {| pe_shared := configured; pe_len := length configured;
              pe_SyncersByBidder := {["a" := "a"; "b" := "b"]}; pe_IsSyncerPriority := true |} in
  ∃ s c' p', PrepareCookieForWrite sample_encode byte_length sample_host 3 two_ids p = Some (Prepared s, (c', p')) ∧
    uids c' !! "a" = None ∧ pe_shared p' = [["b"]].
Proof. intros H configured p. do 3 eexists. split; [vm_compute; reflexivity|]. by vm_compute. Qed.
