(* ===== verification/SyncChooser.v ===== *)
(** * Choosing user syncs: src/usersync/chooser.go, bidderchooser.go, bidderfilter.go, synctype.go, syncer.go

    Which bidders may set an id for a user: the order of the candidates, the checks of each in
    turn, and the limit.  [rand.Shuffle] is an interface: any rearrangement, per call. *)
From S2P Require Import Prelude UserSync.

(** ** bidderfilter.go, synctype.go *)
(** [mode] other than the two constants allows nobody. *)
Inductive BidderFilterMode := BidderFilterModeInclude | BidderFilterModeExclude | BidderFilterModeInvalid.
Inductive BidderFilter :=
| SpecificBidderFilter (biddersLookup : gset string) (mode : BidderFilterMode)
| UniformBidderFilter (mode : BidderFilterMode).

Definition NewSpecificBidderFilter (bidders : list string) (mode : BidderFilterMode) : BidderFilter :=
  SpecificBidderFilter (list_to_set (map ToLower bidders)) mode.

Definition Allowed (f : BidderFilter) (bidder : string) : bool :=
  match f with
  | SpecificBidderFilter lookup BidderFilterModeInclude => bool_decide (bidder ∈ lookup)
  | SpecificBidderFilter lookup BidderFilterModeExclude => negb (bool_decide (bidder ∈ lookup))
  | UniformBidderFilter BidderFilterModeInclude => true
  | _ => false
  end.

Inductive SyncType := SyncTypeUnknown | SyncTypeIFrame | SyncTypeRedirect.
#[export] Instance sync_type_eq_dec : EqDecision SyncType.
Proof. solve_decision. Defined.

Record SyncTypeFilter := { IFrame : BidderFilter; Redirect : BidderFilter }.
Definition ForBidder (t : SyncTypeFilter) (bidder : string) : list SyncType :=
  (if Allowed (IFrame t) bidder then [SyncTypeIFrame] else []) ++
  (if Allowed (Redirect t) bidder then [SyncTypeRedirect] else []).

(** ** syncer.go *)
(** A template is there or not; its text is not needed to choose. *)
Record standardSyncer := {
  s_key : string;
  s_defaultSyncType : SyncType;
  s_iframe : bool;
  s_redirect : bool;
  s_formatOverride : string
}.

(** [config.Syncer] as [NewSyncer] reads it, the two endpoints being there or not. *)
Inductive syncer_error := ErrSyncerKeyRequired | ErrSyncerEndpointRequired | ErrTemplate (which : SyncType).
Definition resolveDefaultSyncType (iframe : bool) : SyncType := if iframe then SyncTypeIFrame else SyncTypeRedirect.

(** [template_ok] says whether the endpoint's template builds and yields a valid URL. *)
Definition NewSyncer (key : string) (iframe redirect : bool) (formatOverride : string)
    (template_ok : SyncType → bool) : result syncer_error standardSyncer :=
  if key =s? "" then Err ErrSyncerKeyRequired
  else if negb iframe && negb redirect then Err ErrSyncerEndpointRequired
  else if iframe && negb (template_ok SyncTypeIFrame) then Err (ErrTemplate SyncTypeIFrame)
  else if redirect && negb (template_ok SyncTypeRedirect) then Err (ErrTemplate SyncTypeRedirect)
  else Ok {| s_key := key; s_defaultSyncType := resolveDefaultSyncType iframe; s_iframe := iframe;
             s_redirect := redirect; s_formatOverride := formatOverride |}.

Definition DefaultResponseFormat (s : standardSyncer) : SyncType :=
  if s_formatOverride s =s? "b" then SyncTypeIFrame
  else if s_formatOverride s =s? "i" then SyncTypeRedirect
  else s_defaultSyncType s.

Definition supports (s : standardSyncer) (t : SyncType) : bool :=
  match t with SyncTypeIFrame => s_iframe s | SyncTypeRedirect => s_redirect s | SyncTypeUnknown => false end.
Definition filterSupportedSyncTypes (s : standardSyncer) (ts : list SyncType) : list SyncType :=
  filter (λ t, supports s t = true) ts.
Definition SupportsType (s : standardSyncer) (ts : list SyncType) : bool :=
  negb (length (filterSupportedSyncTypes s ts) =? 0)%nat.

Inductive type_error := errNoSyncTypesProvided | errNoSyncTypesSupported.
Definition chooseSyncType (s : standardSyncer) (syncTypes : list SyncType) : result type_error SyncType :=
  match syncTypes with
  | [] => Err errNoSyncTypesProvided
  | first :: _ =>
      match filterSupportedSyncTypes s syncTypes with
      | [] => Err errNoSyncTypesSupported
      | supported => if bool_decide (s_defaultSyncType s ∈ supported) then Ok (s_defaultSyncType s) else Ok first
      end
  end.

(** Whether the chosen type has a template; [GetSync] resolves it without a check. *)
Definition chooseTemplate (s : standardSyncer) (t : SyncType) : bool := supports s t.

(** ** bidderchooser.go *)
Class Shuffler := {
  shuffle : nat → list string → list string;
  shuffle_perm : ∀ i l, shuffle i l ≡ₚ l
}.
Definition no_shuffle : Shuffler := {| shuffle := λ _ l, l; shuffle_perm := λ _ l, reflexivity l |}.

Record Cooperative := { coop_Enabled : bool; coop_PriorityGroups : list (list string) }.

(** The calls of the shuffler are numbered in the order they are made. *)
Fixpoint shuffled_groups `{Shuffler} (i : nat) (groups : list (list string)) : list string :=
  match groups with [] => [] | g :: rest => shuffle i g ++ shuffled_groups (S i) rest end.

Definition chooseCooperative `{Shuffler} (requested available : list string) (priorityGroups : list (list string))
  : list string :=
  shuffled_groups 0 (requested :: priorityGroups ++ [available]).

Definition choose `{Shuffler} (requested available : list string) (cooperative : Cooperative) : list string :=
  if coop_Enabled cooperative then chooseCooperative requested available (coop_PriorityGroups cooperative)
  else if (length requested =? 0)%nat then shuffle 0 available
  else shuffle 0 requested.

(** ** chooser.go *)
Inductive Status :=
| StatusOK | StatusBlockedByUserOptOut | StatusAlreadySynced | StatusUnknownBidder | StatusRejectedByFilter
| StatusDuplicate | StatusBlockedByPrivacy | StatusBlockedByRegulationScope | StatusUnconfiguredBidder
| StatusBlockedByDisabledUsersync.
#[export] Instance status_eq_dec : EqDecision Status.
Proof. solve_decision. Defined.

Record Privacy := {
  GDPRAllowsHostCookie : bool;
  GDPRInScope : bool;
  GDPRAllowsBidderSync : string → bool;
  CCPAAllowsBidderSync : string → bool;
  ActivityAllowsUserSync : string → bool
}.

(** [bidderInfo[bidder].Syncer]: whether it is enabled and when it is skipped. *)
Record SyncerConfig := { sc_Enabled : option bool; sc_SkipWhen : option (bool * list string) }.

Record standardChooser := {
  bidderSyncerLookup : gmap string standardSyncer;
  biddersAvailable : list string;
  normalizeValidBidderName : string → option string;
  biddersKnown : gset string;
  bidderInfo : gmap string SyncerConfig
}.

Record BidderEvaluation := { ev_Bidder : string; ev_SyncerKey : string; ev_Status : Status }.
Record SyncRequest := {
  r_Bidders : list string;
  r_Cooperative : Cooperative;
  r_Limit : Z;
  r_Privacy : Privacy;
  r_SyncTypeFilter : SyncTypeFilter;
  r_GPPSID : string
}.

Section Chooser.
Context (c : standardChooser) (now : Z).

(** The evaluation and the syncer when the status is OK, with the keys seen so far. *)
Definition evaluate (bidder : string) (syncersSeen : gset string) (syncTypeFilter : SyncTypeFilter)
    (privacy : Privacy) (cookie : option Cookie) (GPPSID : string)
  : option standardSyncer * BidderEvaluation * gset string :=
  let no key status seen := (None, {| ev_Bidder := bidder; ev_SyncerKey := key; ev_Status := status |}, seen) in
  match normalizeValidBidderName c bidder with
  | None => no "" StatusUnknownBidder syncersSeen
  | Some bidderNormalized =>
      match bidderSyncerLookup c !! bidderNormalized with
      | None =>
          no "" (if bool_decide (bidder ∈ biddersKnown c) then StatusUnconfiguredBidder else StatusUnknownBidder) syncersSeen
      | Some syncer =>
          let key := s_key syncer in
          if bool_decide (key ∈ syncersSeen) then no key StatusDuplicate syncersSeen
          else
            let seen := {[key]} ∪ syncersSeen in
            let info := bidderInfo c !! bidder in
            let skip := info ≫= sc_SkipWhen in
            if negb (SupportsType syncer (ForBidder syncTypeFilter (ToLower bidder))) then no key StatusRejectedByFilter seen
            else if HasLiveSync now cookie key then no key StatusAlreadySynced seen
            else if negb (ActivityAllowsUserSync privacy bidder) then no key StatusBlockedByPrivacy seen
            else if negb (GDPRAllowsBidderSync privacy bidderNormalized) then no key StatusBlockedByPrivacy seen
            else if bool_decide (info ≫= sc_Enabled = Some false) then no key StatusBlockedByDisabledUsersync seen
            else if GDPRInScope privacy && match skip with Some (gdpr, _) => gdpr | None => false end
            then no key StatusBlockedByRegulationScope seen
            else if match skip with Some (_, sids) => existsb (String.eqb GPPSID) sids | None => false end
            then no key StatusBlockedByRegulationScope seen
            else (Some syncer, {| ev_Bidder := bidder; ev_SyncerKey := key; ev_Status := StatusOK |}, seen)
      end
  end.

Record choice := {
  ch_syncersSeen : gset string;
  ch_biddersSeen : gset string;
  ch_evaluated : list BidderEvaluation;
  ch_chosen : list (string * standardSyncer)
}.

(** The loop over the candidates, ended by the limit. *)
Fixpoint choose_loop (request : SyncRequest) (cookie : option Cookie) (bidders : list string) (s : choice) : choice :=
  match bidders with
  | [] => s
  | bidder :: rest =>
      if (r_Limit request <=? 0) || (Z.of_nat (length (ch_chosen s)) <? r_Limit request) then
        if bool_decide (bidder ∈ ch_biddersSeen s) then choose_loop request cookie rest s
        else
          let '(syncer, evaluation, seen) :=
            evaluate bidder (ch_syncersSeen s) (r_SyncTypeFilter request) (r_Privacy request) cookie (r_GPPSID request) in
          choose_loop request cookie rest
            {| ch_syncersSeen := seen; ch_biddersSeen := {[bidder]} ∪ ch_biddersSeen s;
               ch_evaluated := ch_evaluated s ++ [evaluation];
               ch_chosen := match syncer with Some y => ch_chosen s ++ [(bidder, y)] | None => ch_chosen s end |}
      else s
  end.

Record sync_result := {
  res_Status : Status;
  res_BiddersEvaluated : list BidderEvaluation;
  res_SyncersChosen : list (string * standardSyncer)
}.

Definition start_choice : choice :=
  {| ch_syncersSeen := ∅; ch_biddersSeen := ∅; ch_evaluated := []; ch_chosen := [] |}.

Definition Choose `{Shuffler} (request : SyncRequest) (cookie : option Cookie) : sync_result :=
  let blocked status := {| res_Status := status; res_BiddersEvaluated := []; res_SyncersChosen := [] |} in
  if negb (AllowSyncs cookie) then blocked StatusBlockedByUserOptOut
  else if negb (GDPRAllowsHostCookie (r_Privacy request)) then blocked StatusBlockedByPrivacy
  else
    let bidders := choose (r_Bidders request) (biddersAvailable c) (r_Cooperative request) in
    let s := choose_loop request cookie bidders start_choice in
    {| res_Status := StatusOK; res_BiddersEvaluated := ch_evaluated s; res_SyncersChosen := ch_chosen s |}.
End Chooser.

(** ** Lemmas *)
(** Everything a sync must satisfy: nothing of the user, the host or the law forbids it. *)
Definition sync_permitted (c : standardChooser) (now : Z) (request : SyncRequest) (cookie : option Cookie)
    (bidder : string) (syncer : standardSyncer) : Prop :=
  ∃ name, normalizeValidBidderName c bidder = Some name ∧ bidderSyncerLookup c !! name = Some syncer ∧
    (∃ t, t ∈ ForBidder (r_SyncTypeFilter request) (ToLower bidder) ∧ supports syncer t = true) ∧
    HasLiveSync now cookie (s_key syncer) = false ∧
    ActivityAllowsUserSync (r_Privacy request) bidder = true ∧
    GDPRAllowsBidderSync (r_Privacy request) name = true ∧
    bidderInfo c !! bidder ≫= sc_Enabled ≠ Some false ∧
    ∀ gdpr sids, bidderInfo c !! bidder ≫= sc_SkipWhen = Some (gdpr, sids) →
      (GDPRInScope (r_Privacy request) = true → gdpr = false) ∧ r_GPPSID request ∉ sids.

Lemma SupportsType_true s ts : SupportsType s ts = true ↔ ∃ t, t ∈ ts ∧ supports s t = true.
Proof.
  unfold SupportsType, filterSupportedSyncTypes. rewrite negb_true_iff, Nat.eqb_neq. split.
  - intros Hn. destruct (filter _ ts) as [|t l] eqn:E; [done|].
    assert (t ∈ filter (λ t, supports s t = true) ts) as [? ?]%list_elem_of_filter by (rewrite E; set_solver). eauto.
  - intros (t & Hin & Hs) Hn%nil_length_inv.
    assert (t ∈ filter (λ t, supports s t = true) ts) as Ht by by apply list_elem_of_filter.
    rewrite Hn in Ht. by apply elem_of_nil in Ht.
Qed.

(** A check of [evaluate] that ends it without a syncer. *)
Ltac rejected := simpl; split_and!; [done|apply union_subseteq_r|done].

(** One evaluation: a syncer comes with a new key and a permitted sync. *)
Lemma evaluate_spec c now request cookie bidder seen :
  let '(syncer, ev, seen') :=
    evaluate c now bidder seen (r_SyncTypeFilter request) (r_Privacy request) cookie (r_GPPSID request) in
  ev_Bidder ev = bidder ∧ seen ⊆ seen' ∧
  match syncer with
  | Some y => ev_Status ev = StatusOK ∧ ev_SyncerKey ev = s_key y ∧ s_key y ∉ seen ∧ s_key y ∈ seen' ∧
              sync_permitted c now request cookie bidder y
  | None => ev_Status ev ≠ StatusOK
  end.
Proof.
  unfold evaluate, sync_permitted. destruct (normalizeValidBidderName c bidder) as [name|]; [|done].
  destruct (bidderSyncerLookup c !! name) as [y|] eqn:El; [|by repeat case_bool_decide].
  case_bool_decide as Hs; [done|].
  destruct (SupportsType y _) eqn:E1; [|rejected]. apply SupportsType_true in E1.
  destruct (HasLiveSync now cookie (s_key y)) eqn:E2; [rejected|].
  destruct (ActivityAllowsUserSync _ _) eqn:E3; [|rejected].
  destruct (GDPRAllowsBidderSync _ _) eqn:E4; [|rejected].
  case_bool_decide as E5; [rejected|]. cbn [negb].
  destruct (GDPRInScope _ && _) eqn:E6; [rejected|].
  match goal with |- context [if ?b then _ else _] => destruct b eqn:E7 end; [rejected|].
  simpl. split_and!; [done|apply union_subseteq_r|done|done|done|by apply elem_of_union_l, elem_of_singleton|]. exists name. split_and!; try done.
  intros gdpr sids Hskip. rewrite Hskip in E6, E7. split.
  - intros Hg. by rewrite Hg in E6.
  - intros Hin. rewrite <-not_true_iff_false, existsb_exists in E7. apply E7. exists (r_GPPSID request).
    rewrite String.eqb_refl, <-list_elem_of_In. done.
Qed.

(** What holds of the loop's state after any prefix of the candidates. *)
Record choice_ok (c : standardChooser) (now : Z) (request : SyncRequest) (cookie : option Cookie)
    (candidates : list string) (s : choice) : Prop := {
  co_permitted : ∀ b y, (b, y) ∈ ch_chosen s → b ∈ candidates ∧ sync_permitted c now request cookie b y;
  co_keys : NoDup (map (λ x, s_key x.2) (ch_chosen s));
  co_keys_seen : ∀ x, x ∈ ch_chosen s → s_key x.2 ∈ ch_syncersSeen s;
  co_limit : 0 < r_Limit request → Z.of_nat (length (ch_chosen s)) ≤ r_Limit request;
  co_bidders : NoDup (map ev_Bidder (ch_evaluated s));
  co_bidders_seen : ∀ b, b ∈ ch_biddersSeen s ↔ b ∈ map ev_Bidder (ch_evaluated s);
  co_evaluated : ∀ b, b ∈ map ev_Bidder (ch_evaluated s) → b ∈ candidates;
  co_statuses : ∀ b, (∃ y, (b, y) ∈ ch_chosen s) ↔ ∃ ev, ev ∈ ch_evaluated s ∧ ev_Bidder ev = b ∧ ev_Status ev = StatusOK
}.

Lemma choice_step c now request cookie candidates s bidder :
  choice_ok c now request cookie candidates s → bidder ∈ candidates → bidder ∉ ch_biddersSeen s →
  (r_Limit request <=? 0) || (Z.of_nat (length (ch_chosen s)) <? r_Limit request) = true →
  let '(syncer, evaluation, seen) :=
    evaluate c now bidder (ch_syncersSeen s) (r_SyncTypeFilter request) (r_Privacy request) cookie (r_GPPSID request) in
  choice_ok c now request cookie candidates
    {| ch_syncersSeen := seen; ch_biddersSeen := {[bidder]} ∪ ch_biddersSeen s;
       ch_evaluated := ch_evaluated s ++ [evaluation];
       ch_chosen := match syncer with Some y => ch_chosen s ++ [(bidder, y)] | None => ch_chosen s end |}.
Proof.
  intros [Hp Hk Hks Hl Hb Hbs He Hst] Hin Hnew Hlim. pose proof (evaluate_spec c now request cookie bidder (ch_syncersSeen s)) as Hev.
  destruct (evaluate _ _ _ _ _ _ _ _) as [[syncer ev] seen]. destruct Hev as (Hevb & Hsub & Hy).
  assert (NoDup (map ev_Bidder (ch_evaluated s ++ [ev]))) as Hb'.
  { rewrite map_app. apply NoDup_app. split_and!; [done| |apply NoDup_singleton].
    intros b Hbi. simpl. rewrite Hevb, list_elem_of_singleton. intros ->. by apply Hnew, Hbs. }
  assert (∀ b, b ∈ {[bidder]} ∪ ch_biddersSeen s ↔ b ∈ map ev_Bidder (ch_evaluated s ++ [ev])) as Hbs'.
  { intros b. rewrite map_app, elem_of_app. simpl. rewrite elem_of_union, elem_of_singleton, list_elem_of_singleton, Hevb, Hbs.
    tauto. }
  assert (∀ b, b ∈ map ev_Bidder (ch_evaluated s ++ [ev]) → b ∈ candidates) as He'.
  { intros b. rewrite map_app, elem_of_app. simpl. rewrite list_elem_of_singleton, Hevb. intros [?| ->]; auto. }
  destruct syncer as [y|].
  - destruct Hy as (Hok & Hkey & Hfresh & Hseen & Hperm). split; simpl; try done.
    + intros b y' [Hc|[= -> ->]%list_elem_of_singleton]%elem_of_app; auto.
    + rewrite map_app. apply NoDup_app. split_and!; [done| |apply NoDup_singleton].
      intros k Hk0. simpl. rewrite list_elem_of_singleton. intros ->.
      apply list_elem_of_In, in_map_iff in Hk0 as (x & Hxk & Hx%list_elem_of_In). apply Hfresh. rewrite <-Hxk. by apply Hks.
    + intros x [Hx|Hx%list_elem_of_singleton]%elem_of_app; [by apply Hsub, Hks|by rewrite Hx].
    + intros Hpos. rewrite length_app. simpl. apply orb_true_iff in Hlim. destruct Hlim; go_bool; lia.
    + intros b. setoid_rewrite elem_of_app. setoid_rewrite list_elem_of_singleton. split.
      * intros (y' & [Hc|[= -> ->]]); [|exists ev; auto]. destruct (proj1 (Hst b)) as (ev' & ? & ?); eauto.
      * intros (ev' & [Hev'| ->] & Hb1 & Hs1); [|exists y; right; congruence].
        destruct (proj2 (Hst b)) as [y' ?]; [by exists ev'|]. exists y'. by left.
  - split; simpl; try done.
    + intros x Hx. by apply Hsub, Hks.
    + intros b. rewrite Hst. setoid_rewrite elem_of_app. setoid_rewrite list_elem_of_singleton. split.
      * intros (ev' & ? & ?). eauto.
      * intros (ev' & [?| ->] & ? & ?); [eauto|done].
Qed.

Lemma choose_loop_ok c now request cookie candidates bidders s :
  choice_ok c now request cookie candidates s → (∀ b, b ∈ bidders → b ∈ candidates) →
  choice_ok c now request cookie candidates (choose_loop c now request cookie bidders s).
Proof.
  revert s. induction bidders as [|b bidders IH]; intros s Hok Hin; cbn [choose_loop]; [done|].
  destruct ((r_Limit request <=? 0) || _) eqn:El; [|done]. case_bool_decide as Hb; [apply IH; set_solver|].
  pose proof (choice_step c now request cookie candidates s b Hok ltac:(set_solver) Hb El) as Hs.
  destruct (evaluate _ _ _ _ _ _ _ _) as [[syncer ev] seen]. apply IH; [done|set_solver].
Qed.

(** Without a limit every candidate is evaluated. *)
Lemma choose_loop_all c now request cookie bidders s b :
  r_Limit request ≤ 0 → (∀ b, b ∈ ch_biddersSeen s → b ∈ map ev_Bidder (ch_evaluated s)) →
  b ∈ bidders ∨ b ∈ map ev_Bidder (ch_evaluated s) →
  b ∈ map ev_Bidder (ch_evaluated (choose_loop c now request cookie bidders s)).
Proof.
  intros Hl. revert s. induction bidders as [|x bidders IH]; intros s Hs Hb; cbn [choose_loop].
  { destruct Hb as [Hb|]; [by apply elem_of_nil in Hb|done]. }
  replace (r_Limit request <=? 0) with true by (symmetry; by apply Z.leb_le). cbn [orb].
  case_bool_decide as Hx.
  { apply IH; [done|]. destruct Hb as [[->|Hb]%elem_of_cons|Hb]; auto. }
  pose proof (evaluate_spec c now request cookie x (ch_syncersSeen s)) as Hev.
  destruct (evaluate _ _ _ _ _ _ _ _) as [[syncer ev] seen]. destruct Hev as [Hevb _]. apply IH; simpl.
  - intros b'. rewrite map_app, elem_of_union, elem_of_singleton, elem_of_app. simpl. rewrite list_elem_of_singleton, Hevb. naive_solver.
  - rewrite map_app, elem_of_app. simpl. rewrite list_elem_of_singleton, Hevb. rewrite elem_of_cons in Hb. tauto.
Qed.

Lemma start_choice_ok c now request cookie candidates : choice_ok c now request cookie candidates start_choice.
Proof. split; simpl; try (by constructor); try set_solver; try lia. Qed.

(** ** Properties *)

(** Every sync chosen is permitted: the candidate's syncer exists, supports an allowed type,
    has no live id in the cookie, and neither the activity controls, GDPR, the configuration nor
    the regulation scope forbid it; no two chosen syncs share a key, the limit is kept, each
    bidder is evaluated once, and exactly the evaluations with status OK are chosen.  A user who
    opted out, or a host cookie GDPR does not allow, means no sync at all. *)
Theorem chosen_syncs_permitted `{Shuffler} c now request cookie :
  let res := Choose c now request cookie in
  (AllowSyncs cookie && GDPRAllowsHostCookie (r_Privacy request) = false → res_SyncersChosen res = []) ∧
  (∀ b y, (b, y) ∈ res_SyncersChosen res →
     b ∈ choose (r_Bidders request) (biddersAvailable c) (r_Cooperative request) ∧
     sync_permitted c now request cookie b y) ∧
  NoDup (map (λ x, s_key x.2) (res_SyncersChosen res)) ∧
  (0 < r_Limit request → Z.of_nat (length (res_SyncersChosen res)) ≤ r_Limit request) ∧
  NoDup (map ev_Bidder (res_BiddersEvaluated res)) ∧
  ∀ b, (∃ y, (b, y) ∈ res_SyncersChosen res) ↔
       ∃ ev, ev ∈ res_BiddersEvaluated res ∧ ev_Bidder ev = b ∧ ev_Status ev = StatusOK.
Proof.
  simpl. unfold Choose. destruct (AllowSyncs cookie), (GDPRAllowsHostCookie (r_Privacy request)); simpl.
  2-4: split_and!; [done|set_solver|constructor|lia|constructor|set_solver].
  set (candidates := choose _ _ _).
  destruct (choose_loop_ok c now request cookie candidates candidates start_choice) as [Hp Hk _ Hl Hb _ _ Hs];
    [apply start_choice_ok|done|]. split_and!; done.
Qed.

Definition sample_syncer (key : string) : standardSyncer :=
  {| s_key := key; s_defaultSyncType := SyncTypeIFrame; s_iframe := true; s_redirect := false; s_formatOverride := "" |}.
Definition sample_chooser : standardChooser :=
  {| bidderSyncerLookup := {["a" := sample_syncer "k1"; "b" := sample_syncer "k1"; "c" := sample_syncer "k2"]};
     biddersAvailable := ["a"; "b"; "c"]; normalizeValidBidderName := λ n, Some n; biddersKnown := ∅; bidderInfo := ∅ |}.
Definition sample_sync_request : SyncRequest :=
  {| r_Bidders := []; r_Cooperative := {| coop_Enabled := false; coop_PriorityGroups := [] |}; r_Limit := 0;
     r_Privacy := {| GDPRAllowsHostCookie := true; GDPRInScope := false; GDPRAllowsBidderSync := λ _, true;
                     CCPAAllowsBidderSync := λ _, true; ActivityAllowsUserSync := λ _, true |};
     r_SyncTypeFilter := {| IFrame := UniformBidderFilter BidderFilterModeInclude;
                            Redirect := UniformBidderFilter BidderFilterModeInclude |}; r_GPPSID := "" |}.

Lemma chosen_syncs_permitted_witness :
  let H := no_shuffle in
  let request := sample_sync_request in
  let res := Choose sample_chooser 0 request (Some NewCookie) in
  map fst (res_SyncersChosen res) = ["a"; "c"] ∧
  (∀ b y, (b, y) ∈ res_SyncersChosen res →
     b ∈ ["a"; "b"; "c"] ∧ sync_permitted sample_chooser 0 request (Some NewCookie) b y).
Proof.
  intros H request res. split; [by vm_compute|].
  exact (proj1 (proj2 (chosen_syncs_permitted sample_chooser 0 request (Some NewCookie)))).
Defined.

(** Without a limit nobody is forgotten: for a user and a host that allow syncs, the bidders
    evaluated are exactly the candidates, which are the requested bidders, the priority groups
    and the available ones in that order for cooperative requests, and the requested ones, or the
    available ones when none is requested, otherwise. *)
Theorem every_candidate_evaluated `{Shuffler} c now request cookie :
  AllowSyncs cookie = true → GDPRAllowsHostCookie (r_Privacy request) = true → r_Limit request ≤ 0 →
  ∀ b, b ∈ map ev_Bidder (res_BiddersEvaluated (Choose c now request cookie)) ↔
    if coop_Enabled (r_Cooperative request)
    then b ∈ r_Bidders request ∨ b ∈ concat (coop_PriorityGroups (r_Cooperative request)) ∨ b ∈ biddersAvailable c
    else b ∈ (if decide (r_Bidders request = []) then biddersAvailable c else r_Bidders request).
Proof.
  intros Ha Hh Hl b. unfold Choose. rewrite Ha, Hh. simpl. set (candidates := choose _ _ _).
  transitivity (b ∈ candidates).
  - destruct (choose_loop_ok c now request cookie candidates candidates start_choice) as [_ _ _ _ _ _ He _];
      [apply start_choice_ok|done|]. split; [apply He|]. intros Hb. apply choose_loop_all; [done|simpl; set_solver|by left].
  - assert (∀ gs i, b ∈ shuffled_groups i gs ↔ b ∈ concat gs) as Hsg.
    { intros gs. induction gs as [|g gs IH]; intros i; simpl; [done|]. by rewrite !elem_of_app, IH, shuffle_perm. }
    unfold candidates, choose, chooseCooperative. destruct (coop_Enabled _).
    + rewrite Hsg. simpl. rewrite concat_app. simpl. rewrite app_nil_r, !elem_of_app. tauto.
    + destruct (r_Bidders request) as [|x l]; simpl; by rewrite shuffle_perm.
Qed.

Lemma every_candidate_evaluated_witness :
  let H := no_shuffle in
  "b" ∈ map ev_Bidder (res_BiddersEvaluated (Choose sample_chooser 0 sample_sync_request (Some NewCookie))) ↔
  "b" ∈ ["a"; "b"; "c"].
Proof.
  intros H. apply (every_candidate_evaluated sample_chooser 0 sample_sync_request (Some NewCookie));
    [done|done|simpl; lia].
Defined.

(** The same request with another answer to the CCPA question. *)
Definition set_ccpa (f : string → bool) (r : SyncRequest) : SyncRequest :=
  let p := r_Privacy r in
  {| r_Bidders := r_Bidders r; r_Cooperative := r_Cooperative r; r_Limit := r_Limit r;
     r_Privacy := {| GDPRAllowsHostCookie := GDPRAllowsHostCookie p; GDPRInScope := GDPRInScope p;
                     GDPRAllowsBidderSync := GDPRAllowsBidderSync p; CCPAAllowsBidderSync := f;
                     ActivityAllowsUserSync := ActivityAllowsUserSync p |};
     r_SyncTypeFilter := r_SyncTypeFilter r; r_GPPSID := r_GPPSID r |}.

Lemma choose_loop_ccpa c now f request cookie bidders s :
  choose_loop c now (set_ccpa f request) cookie bidders s = choose_loop c now request cookie bidders s.
Proof.
  revert s. induction bidders as [|b bidders IH]; intros s; [done|]. cbn [choose_loop].
  change (r_Limit (set_ccpa f request)) with (r_Limit request).
  change (evaluate c now b (ch_syncersSeen s) (r_SyncTypeFilter (set_ccpa f request)) (r_Privacy (set_ccpa f request))
    cookie (r_GPPSID (set_ccpa f request))) with
    (evaluate c now b (ch_syncersSeen s) (r_SyncTypeFilter request) (r_Privacy request) cookie (r_GPPSID request)).
  destruct ((r_Limit request <=? 0) || _); [|done]. destruct (bool_decide _); [done|].
  destruct (evaluate _ _ _ _ _ _ _ _) as [[y ev] seen]. apply IH.
Qed.

(** The choice never asks whether CCPA allows a bidder's sync: requests that differ in that
    answer only have the same result, so a bidder CCPA forbids is chosen all the same. *)
Theorem ccpa_never_consulted `{Shuffler} c now request cookie f :
  Choose c now (set_ccpa f request) cookie = Choose c now request cookie ∧
  map fst (res_SyncersChosen (@Choose sample_chooser 0 no_shuffle (set_ccpa (λ _, false) sample_sync_request) (Some NewCookie)))
    = ["a"; "c"].
Proof.
  split; [|by vm_compute]. unfold Choose.
  by rewrite choose_loop_ccpa.
Qed.

(** A syncer built from its configuration always resolves an allowed type to one it has a
    template for: the fallback to the first requested type is reached only when both endpoints
    exist. *)
Theorem chosen_sync_type_has_template key iframe redirect override ok s ts t :
  NewSyncer key iframe redirect override ok = Ok s → SyncTypeUnknown ∉ ts →
  chooseSyncType s ts = Ok t → chooseTemplate s t = true.
Proof.
  unfold NewSyncer, chooseSyncType, chooseTemplate, filterSupportedSyncTypes. intros Hs Hu Hc.
  destruct ts as [|first ts]; [done|]. destruct (filter _ (first :: ts)) as [|t0 sup] eqn:Ef; [done|].
  case_bool_decide as Hd; injection Hc as <-.
  - rewrite <-Ef in Hd. by apply list_elem_of_filter in Hd as [? _].
  - assert (t0 ∈ filter (λ t, supports s t = true) (first :: ts)) as [Ht0 Hin]%list_elem_of_filter by (rewrite Ef; set_solver).
    destruct (key =s? ""), iframe, redirect; simpl in Hs; repeat go_destruct_in Hs; simplify_eq; simpl in *;
      destruct t0; simpl in *; try done; try (destruct first; simpl; try done; set_solver); set_solver.
Qed.

Lemma chosen_sync_type_has_template_witness :
  let s := {| s_key := "k"; s_defaultSyncType := SyncTypeIFrame; s_iframe := true; s_redirect := true; s_formatOverride := "" |} in
  chooseSyncType s [SyncTypeRedirect] = Ok SyncTypeRedirect ∧ chooseTemplate s SyncTypeRedirect = true.
Proof.
  intros s. split; [done|].
  apply (chosen_sync_type_has_template "k" true true "" (λ _, true) s [SyncTypeRedirect] SyncTypeRedirect);
    [done|by vm_compute; set_solver|done].
Defined.
