(* ===== verification/Privacy.v ===== *)
(** * Privacy: activity controls, CCPA and LMT - src/privacy

    Activity controls are lists of rules per activity, of which the first that matches decides.
    CCPA and LMT are policies read from the request: [policy_enforcer] is the interface
    [PolicyEnforcer] with its two decorators.  [extractCCPA] and [extractLMT] of the exchange
    build the enforcers an auction uses. *)
From S2P Require Import Prelude GoStrings GdprConfig Gdpr.


(** ** Activities *)
Inductive Activity :=
| ActivitySyncUser | ActivityFetchBids | ActivityEnrichUserFPD | ActivityReportAnalytics
| ActivityTransmitUserFPD | ActivityTransmitPreciseGeo | ActivityTransmitUniqueRequestIDs | ActivityTransmitTIDs.

Inductive ActivityResult := ActivityAbstain | ActivityAllow | ActivityDeny.

Record Component := { comp_Type : string; comp_Name : string }.
Definition MatchesName (c : Component) (v : string) : bool := EqualFold (comp_Name c) v.
Definition MatchesType (c : Component) (v : string) : bool := EqualFold (comp_Type c) v.

(** The sections of the policies of a request that is not OpenRTB, and of [regs] of one that is. *)
Record ActivityRequest := { ar_policies : option (list Z); ar_bidRequest : option (option (list Z)) }.
Definition NewRequestFromPolicies (gppSID : list Z) : ActivityRequest :=
  {| ar_policies := Some gppSID; ar_bidRequest := None |}.
Definition NewRequestFromBidRequest (regsGPPSID : option (list Z)) : ActivityRequest :=
  {| ar_policies := None; ar_bidRequest := Some regsGPPSID |}.

Definition getGPPSID (r : ActivityRequest) : list Z :=
  match ar_policies r with
  | Some sids => sids
  | None => match ar_bidRequest r with Some (Some sids) => sids | _ => [] end
  end.

Record ConditionRule := {
  cr_result : ActivityResult;
  cr_componentName : list string;
  cr_componentType : list string;
  cr_gppSID : list Z
}.

Definition evaluateComponentName (target : Component) (names : list string) : bool :=
  match names with [] => true | _ => existsb (MatchesName target) names end.
Definition evaluateComponentType (target : Component) (types : list string) : bool :=
  match types with [] => true | _ => existsb (MatchesType target) types end.
Definition evaluateGPPSID (sid : list Z) (r : ActivityRequest) : bool :=
  match sid with [] => true | _ => existsb (λ x, existsb (Z.eqb x) sid) (getGPPSID r) end.

Definition Rule_Evaluate (rule : ConditionRule) (target : Component) (r : ActivityRequest) : ActivityResult :=
  if negb (evaluateComponentName target (cr_componentName rule)) then ActivityAbstain
  else if negb (evaluateComponentType target (cr_componentType rule)) then ActivityAbstain
  else if negb (evaluateGPPSID (cr_gppSID rule) r) then ActivityAbstain
  else cr_result rule.

Record ActivityPlan := { plan_defaultResult : bool; plan_rules : list ConditionRule }.

Fixpoint evaluate_rules (rules : list ConditionRule) (dflt : bool) (target : Component) (r : ActivityRequest) : bool :=
  match rules with
  | [] => dflt
  | rule :: rest =>
      match Rule_Evaluate rule target r with
      | ActivityDeny => false
      | ActivityAllow => true
      | ActivityAbstain => evaluate_rules rest dflt target r
      end
  end.
Definition Plan_Evaluate (p : ActivityPlan) (target : Component) (r : ActivityRequest) : bool :=
  evaluate_rules (plan_rules p) (plan_defaultResult p) target r.

(** ** Their configuration (config/activity.go) *)
Record ActivityCondition := { ac_ComponentName : list string; ac_ComponentType : list string }.
Record ActivityRule := { rule_Condition : ActivityCondition; rule_Allow : bool }.
Record ActivityConfig := { act_Default : option bool; act_Rules : list ActivityRule }.
Record AllowActivities := {
  aa_SyncUser : ActivityConfig;
  aa_FetchBids : ActivityConfig;
  aa_EnrichUserFPD : ActivityConfig;
  aa_ReportAnalytics : ActivityConfig;
  aa_TransmitUserFPD : ActivityConfig;
  aa_TransmitPreciseGeo : ActivityConfig;
  aa_TransmitUniqueRequestIds : ActivityConfig;
  aa_TransmitTids : ActivityConfig
}.
(** [ap_IPv4Config] and [ap_IPv6Config] are the numbers of address bits to keep. *)
Record AccountPrivacy := { ap_AllowActivities : option AllowActivities; ap_IPv6Config : Z; ap_IPv4Config : Z }.

Definition defaultActivityResult : bool := true.
Definition cfgToRules (rules : list ActivityRule) : list ConditionRule :=
  (λ r, {| cr_result := if rule_Allow r then ActivityAllow else ActivityDeny;
           cr_componentName := ac_ComponentName (rule_Condition r);
           cr_componentType := ac_ComponentType (rule_Condition r);
           cr_gppSID := [] |}) <$> rules.
Definition cfgToDefaultResult (d : option bool) : bool := default defaultActivityResult d.
Definition buildPlan (a : ActivityConfig) : ActivityPlan :=
  {| plan_rules := cfgToRules (act_Rules a); plan_defaultResult := cfgToDefaultResult (act_Default a) |}.

(** Without a plan for any activity the control is empty. *)
Record ActivityControl := { ctl_plans : Activity → option ActivityPlan; ctl_IPv6Config : Z; ctl_IPv4Config : Z }.
Definition activity_config (a : AllowActivities) (x : Activity) : ActivityConfig :=
  match x with
  | ActivitySyncUser => aa_SyncUser a
  | ActivityFetchBids => aa_FetchBids a
  | ActivityEnrichUserFPD => aa_EnrichUserFPD a
  | ActivityReportAnalytics => aa_ReportAnalytics a
  | ActivityTransmitUserFPD => aa_TransmitUserFPD a
  | ActivityTransmitPreciseGeo => aa_TransmitPreciseGeo a
  | ActivityTransmitUniqueRequestIDs => aa_TransmitUniqueRequestIds a
  | ActivityTransmitTIDs => aa_TransmitTids a
  end.
Definition NewActivityControl (cfg : option AccountPrivacy) : ActivityControl :=
  match cfg with
  | Some c =>
      match ap_AllowActivities c with
      | Some a => {| ctl_plans := λ x, Some (buildPlan (activity_config a x));
                     ctl_IPv4Config := ap_IPv4Config c; ctl_IPv6Config := ap_IPv6Config c |}
      | None => {| ctl_plans := λ _, None; ctl_IPv4Config := 0; ctl_IPv6Config := 0 |}
      end
  | None => {| ctl_plans := λ _, None; ctl_IPv4Config := 0; ctl_IPv6Config := 0 |}
  end.
Definition Allow (e : ActivityControl) (x : Activity) (target : Component) (r : ActivityRequest) : bool :=
  match ctl_plans e x with None => defaultActivityResult | Some plan => Plan_Evaluate plan target r end.

(** ** Enforcers (policyenforcer.go) *)
Record policy_enforcer := { CanEnforce : bool; ShouldEnforce : string → bool }.
Definition NilPolicyEnforcer : policy_enforcer := {| CanEnforce := false; ShouldEnforce := λ _, false |}.
Definition EnabledPolicyEnforcer (enabled : bool) (p : policy_enforcer) : policy_enforcer :=
  {| CanEnforce := CanEnforce p; ShouldEnforce := λ bidder, if enabled then ShouldEnforce p bidder else false |}.

(** ** CCPA (privacy/ccpa) *)
Record ccpa_Policy := { pol_Consent : string; pol_NoSaleBidders : list string }.
Record ParsedPolicy := {
  pp_consentSpecified : bool;
  pp_consentOptOutSale : bool;
  pp_noSaleForAllBidders : bool;
  pp_noSaleSpecificBidders : gset string
}.

(** The errors and warnings of the package. *)
Inductive ccpa_error :=
| C_length | C_version | C_notice | C_optOut | C_lspa
| C_noSaleAll | C_noSaleUnknown (bidder : string)
| C_mismatch            (* the warning: regs.us_privacy differs from uspv1 in GPP *)
| C_requestExt.
#[export] Instance ccpa_error_eq_dec : EqDecision ccpa_error.
Proof. solve_decision. Defined.

Definition ccpa_flag (c : ascii) : bool := Ascii.eqb c "N" || Ascii.eqb c "Y" || Ascii.eqb c "-".

Definition ccpa_parseConsent (consent : string) : result ccpa_error bool :=
  match consent with
  | EmptyString => Ok false
  | String version (String notice (String optOut (String lspa EmptyString))) =>
      if negb (Ascii.eqb version "1") then Err C_version
      else if negb (ccpa_flag notice) then Err C_notice
      else if negb (ccpa_flag optOut) then Err C_optOut
      else if negb (ccpa_flag lspa) then Err C_lspa
      else Ok (Ascii.eqb optOut "Y")
  | _ => Err C_length
  end.
Definition ccpa_ValidateConsent (consent : string) : bool := is_ok (ccpa_parseConsent consent).

Definition allBiddersMarker : string := "*".
Fixpoint noSale_loop (bidders : list string) (validBidders acc : gset string) : result ccpa_error (bool * gset string) :=
  match bidders with
  | [] => Ok (false, acc)
  | b :: rest =>
      if b =s? allBiddersMarker then Err C_noSaleAll
      else if bool_decide (b ∈ validBidders) then noSale_loop rest validBidders ({[b]} ∪ acc)
      else Err (C_noSaleUnknown b)
  end.
Definition parseNoSaleBidders (noSaleBidders : list string) (validBidders : gset string)
  : result ccpa_error (bool * gset string) :=
  if bool_decide (noSaleBidders = [allBiddersMarker]) then Ok (true, ∅)
  else noSale_loop noSaleBidders validBidders ∅.

Definition ccpa_Parse (p : ccpa_Policy) (validBidders : gset string) : result ccpa_error ParsedPolicy :=
  let? consentOptOut := ccpa_parseConsent (pol_Consent p) in
  let? (all, specific) := parseNoSaleBidders (pol_NoSaleBidders p) validBidders in
  Ok {| pp_consentSpecified := pol_Consent p ≠s? ""; pp_consentOptOutSale := consentOptOut;
        pp_noSaleForAllBidders := all; pp_noSaleSpecificBidders := specific |}.

Definition isNoSaleForBidder (p : ParsedPolicy) (bidder : string) : bool :=
  if pp_noSaleForAllBidders p then true else bool_decide (bidder ∈ pp_noSaleSpecificBidders p).
Definition ParsedPolicy_enforcer (p : ParsedPolicy) : policy_enforcer :=
  {| CanEnforce := pp_consentSpecified p;
     ShouldEnforce := λ bidder, negb (isNoSaleForBidder p bidder) && pp_consentOptOutSale p |}.

Definition SectionUSPV1 : Z := 6.
(** The consent and whether the two places disagree. *)
Definition SelectCCPAConsent (requestUSPrivacy : string) (gpp : list (Z * string)) (gppSIDs : list Z) : string * bool :=
  let consent :=
    if (0 <? Z.of_nat (length gpp)) && IsSIDInList gppSIDs SectionUSPV1
    then let i := IndexOfSID gpp.*1 SectionUSPV1 in if 0 <=? i then default "" (gpp.*2 !! Z.to_nat i) else ""
    else "" in
  if requestUSPrivacy ≠s? "" then
    if consent =s? "" then (requestUSPrivacy, false) else (consent, consent ≠s? requestUSPrivacy)
  else (consent, false).

(** The part of a request CCPA reads: [regs.us_privacy], [regs.gpp_sid] and what parsing
    [request.ext] gives, an error or the [nosale] of its [prebid], if any. *)
Record ccpa_request := {
  cq_Regs : option (string * list Z);
  cq_NoSale : option (option (list string))
}.
(** The policy together with the error it is returned with. *)
Definition ccpa_ReadFromRequestWrapper (req : ccpa_request) (gpp : list (Z * string))
  : ccpa_Policy * option ccpa_error :=
  let '(usPrivacy, sids) := default ("", []) (cq_Regs req) in
  let '(consent, mismatch) := SelectCCPAConsent usPrivacy gpp sids in
  let consent := if consent =s? "" then usPrivacy else consent in
  match cq_NoSale req with
  | None => ({| pol_Consent := ""; pol_NoSaleBidders := [] |}, Some C_requestExt)
  | Some noSale =>
      ({| pol_Consent := consent; pol_NoSaleBidders := default [] noSale |},
       if mismatch : bool then Some C_mismatch else None)
  end.

(** exchange/utils.go; [accountEnabled] is the account's setting for the channel. *)
Definition ccpaEnabled (accountEnabled : option bool) (hostEnforce : bool) : bool := default hostEnforce accountEnabled.
Definition extractCCPA (req : ccpa_request) (accountEnabled : option bool) (hostEnforce : bool)
    (validBidders : gset string) (gpp : list (Z * string)) : policy_enforcer * option ccpa_error :=
  match ccpa_ReadFromRequestWrapper req gpp with
  | (_, Some err) => (NilPolicyEnforcer, Some err)
  | (policy, None) =>
      match ccpa_Parse policy validBidders with
      | Err err => (NilPolicyEnforcer, Some err)
      | Ok parsed => (EnabledPolicyEnforcer (ccpaEnabled accountEnabled hostEnforce) (ParsedPolicy_enforcer parsed), None)
      end
  end.

(** ** LMT (privacy/lmt); the policy is the device's [lmt]. *)
Definition trackingRestricted : Z := 1.
Definition lmt_enforcer (lmt : option Z) : policy_enforcer :=
  {| CanEnforce := bool_decide (is_Some lmt);
     ShouldEnforce := λ _, match lmt with Some s => s =? trackingRestricted | None => false end |}.
Definition extractLMT (lmt : option Z) (hostEnforce : bool) : policy_enforcer :=
  EnabledPolicyEnforcer hostEnforce (lmt_enforcer lmt).

(** util/iosutil *)
Definition ParseVersion (v : string) : option (Z * Z) :=
  match SplitChar "." v with
  | [major; minor] | [major; minor; _] => a ← Atoi major; b ← Atoi minor; Some (a, b)
  | _ => None
  end.
Definition Version_Equal (v : Z * Z) (major minor : Z) : bool :=
  if v.1 =? major then v.2 =? minor else false.
Definition Version_EqualOrGreater (v : Z * Z) (major minor : Z) : bool :=
  if v.1 =? major then minor <=? v.2 else major <? v.1.
Inductive VersionClassification := VersionUnknown | Version140 | Version141 | Version142OrGreater.
Definition DetectVersionClassification (v : string) : VersionClassification :=
  match ParseVersion v with
  | Some ver =>
      if Version_Equal ver 14 0 then Version140
      else if Version_Equal ver 14 1 then Version141
      else if Version_EqualOrGreater ver 14 2 then Version142OrGreater
      else VersionUnknown
  | None => VersionUnknown
  end.

(** The device of a request from an app; [ios_atts] is what [ParseDeviceExtATTS] finds, where an
    error and an absent member are both [None]. *)
Record ios_device := { ios_OS : string; ios_OSV : string; ios_IFA : string; ios_atts : option Z; ios_Lmt : option Z }.
Definition set_ios_Lmt (v : Z) (d : ios_device) : ios_device :=
  {| ios_OS := ios_OS d; ios_OSV := ios_OSV d; ios_IFA := ios_IFA d; ios_atts := ios_atts d; ios_Lmt := Some v |}.
Definition IsKnownIOSAppTrackingStatus (v : Z) : bool := (0 <=? v) && (v <=? 3).
Definition modifyForIOS14X (d : ios_device) : ios_device :=
  if (ios_IFA d =s? "") || (ios_IFA d =s? "00000000-0000-0000-0000-000000000000") then set_ios_Lmt 1 d else set_ios_Lmt 0 d.
Definition modifyForIOS142OrGreater (d : ios_device) : ios_device :=
  match ios_atts d with
  | Some a => if negb (IsKnownIOSAppTrackingStatus a) then d else if a =? 3 then set_ios_Lmt 0 d else set_ios_Lmt 1 d
  | None => d
  end.
Definition ModifyForIOS (isApp : bool) (d : option ios_device) : option ios_device :=
  match d with
  | Some dev =>
      if isApp && EqualFold (ios_OS dev) "ios" then
        Some match DetectVersionClassification (ios_OSV dev) with
             | Version140 | Version141 => modifyForIOS14X dev
             | Version142OrGreater => modifyForIOS142OrGreater dev
             | VersionUnknown => dev
             end
      else Some dev
  | None => None
  end.

(** ** Activity controls decide by the first rule that applies *)
Definition rule_applies (target : Component) (rule : ActivityRule) : Prop :=
  let names := ac_ComponentName (rule_Condition rule) in
  let types := ac_ComponentType (rule_Condition rule) in
  (names = [] ∨ ∃ n, n ∈ names ∧ ToLower (comp_Name target) = ToLower n) ∧
  (types = [] ∨ ∃ t, t ∈ types ∧ ToLower (comp_Type target) = ToLower t).

Lemma evaluate_clause (x : string) (f : string → bool) l :
  (∀ y, f y = true ↔ ToLower x = ToLower y) →
  match l with [] => true | _ => existsb f l end = true ↔ l = [] ∨ ∃ y, y ∈ l ∧ ToLower x = ToLower y.
Proof.
  intros Hf. destruct l as [|y l]; [split; [by left|done]|]. rewrite existsb_exists. split.
  - intros (z & Hz & Hm). right. exists z. rewrite list_elem_of_In, <-Hf. done.
  - intros [?|(z & Hz & Hm)]; [done|]. exists z. by rewrite <-list_elem_of_In, Hf.
Qed.

Lemma Rule_Evaluate_cfg target r rule :
  Rule_Evaluate {| cr_result := if rule_Allow rule then ActivityAllow else ActivityDeny;
                   cr_componentName := ac_ComponentName (rule_Condition rule);
                   cr_componentType := ac_ComponentType (rule_Condition rule); cr_gppSID := [] |} target r =
  if evaluateComponentName target (ac_ComponentName (rule_Condition rule)) &&
     evaluateComponentType target (ac_ComponentType (rule_Condition rule))
  then if rule_Allow rule then ActivityAllow else ActivityDeny else ActivityAbstain.
Proof. unfold Rule_Evaluate. simpl. by destruct (evaluateComponentName _ _), (evaluateComponentType _ _). Qed.

Lemma rule_applies_spec target rule :
  evaluateComponentName target (ac_ComponentName (rule_Condition rule)) &&
  evaluateComponentType target (ac_ComponentType (rule_Condition rule)) = true ↔ rule_applies target rule.
Proof.
  unfold evaluateComponentName, evaluateComponentType, rule_applies. rewrite andb_true_iff.
  rewrite (evaluate_clause (comp_Name target)) by (intros; apply EqualFold_spec).
  by rewrite (evaluate_clause (comp_Type target)) by (intros; apply EqualFold_spec).
Qed.

(** [rules] decide [b]: the first that applies says so, or none applies and it is the default. *)
Definition first_rule_decides (rules : list ActivityRule) (dflt : bool) (target : Component) (b : bool) : Prop :=
  (∃ pre rule post, rules = pre ++ rule :: post ∧ (∀ r', r' ∈ pre → ¬ rule_applies target r') ∧
     rule_applies target rule ∧ rule_Allow rule = b) ∨
  ((∀ r', r' ∈ rules → ¬ rule_applies target r') ∧ dflt = b).

Lemma first_rule_decides_cons rule rules dflt target b :
  first_rule_decides (rule :: rules) dflt target b ↔
  rule_applies target rule ∧ rule_Allow rule = b ∨ ¬ rule_applies target rule ∧ first_rule_decides rules dflt target b.
Proof.
  unfold first_rule_decides. split.
  - intros [([|r0 pre] & r1 & post & [= -> ->] & Hpre & Happ & Hb)|[Hno Hb]].
    + by left.
    + right. split; [apply Hpre; left|]. left. exists pre, r1, post. split_and!; try done. intros. apply Hpre. by right.
    + right. split; [apply Hno; left|]. right. split; [|done]. intros. apply Hno. by right.
  - intros [[Happ Hb]|[Hn [(pre & r1 & post & -> & Hpre & Happ & Hb)|[Hno Hb]]]].
    + left. exists [], rule, rules. split_and!; try done. by intros r' ?%not_elem_of_nil.
    + left. exists (rule :: pre), r1, post. split_and!; try done. intros r' [->|?]%elem_of_cons; eauto.
    + right. split; [|done]. intros r' [->|?]%elem_of_cons; eauto.
Qed.

Lemma evaluate_rules_spec rules dflt target r b :
  evaluate_rules (cfgToRules rules) dflt target r = b ↔ first_rule_decides rules dflt target b.
Proof.
  induction rules as [|rule rules IH].
  - split; [intros <-; right; split; [by intros r' ?%not_elem_of_nil|done]|].
    intros [(pre & ? & ? & H & _)|[_ <-]]; [by destruct pre|done].
  - rewrite first_rule_decides_cons, <-IH. cbn [cfgToRules fmap list_fmap evaluate_rules].
    rewrite Rule_Evaluate_cfg, <-(rule_applies_spec target rule). fold (cfgToRules rules).
    destruct (_ && _), (rule_Allow rule); naive_solver.
Qed.

(** An activity of a component is decided by the first rule configured for it whose names
    and types match the component without regard to case, by the default of the activity when no
    rule matches, and is allowed where nothing is configured; the request plays no part. *)
Theorem activity_decided_by_first_rule cfg x target r b :
  Allow (NewActivityControl cfg) x target r = b ↔
  match cfg ≫= ap_AllowActivities with
  | None => b = true
  | Some a => first_rule_decides (act_Rules (activity_config a x)) (default true (act_Default (activity_config a x))) target b
  end.
Proof.
  unfold Allow, NewActivityControl. destruct cfg as [c|]; simpl; [|by unfold defaultActivityResult; split].
  destruct (ap_AllowActivities c) as [a|]; simpl; [|by unfold defaultActivityResult; split].
  apply evaluate_rules_spec.
Qed.

(** ** CCPA *)
Definition opted_out (consent : string) : Prop :=
  ∃ notice lspa, ccpa_flag notice = true ∧ ccpa_flag lspa = true ∧
    consent = String "1" (String notice (String "Y" (String lspa EmptyString))).

Lemma ccpa_parseConsent_opted_out consent : ccpa_parseConsent consent = Ok true ↔ opted_out consent.
Proof.
  unfold opted_out. split.
  - intros H. destruct consent as [|v [|n [|o [|l [|? ?]]]]]; try done. simpl in H.
    destruct (Ascii.eqb_spec v "1"); simpl in H; [|done]. destruct (ccpa_flag n) eqn:En; simpl in H; [|done].
    destruct (ccpa_flag o); simpl in H; [|done]. destruct (ccpa_flag l) eqn:El; simpl in H; [|done].
    injection H as Ho%Ascii.eqb_eq. subst. by exists n, l.
  - intros (n & l & Hn & Hl & ->). simpl. by rewrite Hn, Hl.
Qed.

(** A list of bidders exempt from the opt-out, other than the one that exempts all. *)
Definition valid_noSale (l : list string) (validBidders : gset string) : Prop :=
  ∀ b, b ∈ l → b ≠ allBiddersMarker ∧ b ∈ validBidders.

Lemma noSale_loop_spec l valid acc x :
  noSale_loop l valid acc = Ok x ↔ valid_noSale l valid ∧ x = (false, list_to_set l ∪ acc).
Proof.
  unfold valid_noSale. revert acc. induction l as [|b l IH]; intros acc; simpl.
  - split; [intros [= <-]|intros [_ ->]].
    + split; [by intros b ?%not_elem_of_nil|]. f_equal. set_solver.
    + do 2 f_equal. set_solver.
  - destruct (b =s? allBiddersMarker) eqn:Eb; go_bool.
    { split; [done|]. intros [H _]. destruct (H b); [left|done]. }
    case_bool_decide as Hv.
    + rewrite IH. split; intros [H ->]; (split; [set_solver|]); f_equal; set_solver.
    + split; [done|]. intros [H _]. destruct (H b); [left|done].
Qed.

(** The consent CCPA goes by: the US privacy section of a GPP string that is in force, which has
    to agree with [regs.us_privacy] when both are present, or else [regs.us_privacy]. *)
Definition gpp_usp (gpp : list (Z * string)) (sids : list Z) : string :=
  if (0 <? Z.of_nat (length gpp)) && IsSIDInList sids SectionUSPV1
  then let i := IndexOfSID gpp.*1 SectionUSPV1 in if 0 <=? i then default "" (gpp.*2 !! Z.to_nat i) else "" else "".
Definition ccpa_consent (req : ccpa_request) (gpp : list (Z * string)) : option string :=
  let '(usp, sids) := default ("", []) (cq_Regs req) in
  let g := gpp_usp gpp sids in
  if g =s? "" then Some usp else if usp =s? "" then Some g else if g =s? usp then Some g else None.

Lemma ccpa_Read_spec req gpp :
  ccpa_ReadFromRequestWrapper req gpp =
  match cq_NoSale req with
  | None => ({| pol_Consent := ""; pol_NoSaleBidders := [] |}, Some C_requestExt)
  | Some noSale =>
      match ccpa_consent req gpp with
      | Some c => ({| pol_Consent := c; pol_NoSaleBidders := default [] noSale |}, None)
      | None => ({| pol_Consent := gpp_usp gpp (snd (default ("", []) (cq_Regs req)));
                    pol_NoSaleBidders := default [] noSale |}, Some C_mismatch)
      end
  end.
Proof.
  unfold ccpa_ReadFromRequestWrapper, ccpa_consent, SelectCCPAConsent. destruct (default ("", []) (cq_Regs req)) as [usp sids].
  fold (gpp_usp gpp sids). simpl. generalize (gpp_usp gpp sids). intros g.
  destruct (String.eqb_spec usp "") as [->|Hu], (String.eqb_spec g "") as [->|Hg]; simpl;
    rewrite ?(proj2 (String.eqb_neq g "")), ?(proj2 (String.eqb_neq usp "")) by done; try done.
  by destruct (cq_NoSale req), (String.eqb_spec g usp).
Qed.

Lemma noSale_enforced l valid all specific bidder :
  parseNoSaleBidders l valid = Ok (all, specific) →
  (all || bool_decide (bidder ∈ specific)) = false ↔ l ≠ [allBiddersMarker] ∧ bidder ∉ l.
Proof.
  unfold parseNoSaleBidders. case_bool_decide as Hl; [intros [= <- <-]; by split; [|intros []]|].
  intros [Hv [= -> ->]]%noSale_loop_spec. simpl. rewrite bool_decide_eq_false. set_solver.
Qed.

(** CCPA is enforced on a bidder exactly when it is in force for the account or host, the
    request's extension parses, the two places of the consent do not disagree, the consent is a
    well-formed opt-out, and the list of exempt bidders is valid and exempts neither all bidders
    nor this one. *)
Theorem ccpa_enforced_iff req acct host valid gpp bidder :
  ShouldEnforce (fst (extractCCPA req acct host valid gpp)) bidder = true ↔
  default host acct = true ∧
  ∃ noSale consent, cq_NoSale req = Some noSale ∧ ccpa_consent req gpp = Some consent ∧ opted_out consent ∧
    default [] noSale ≠ [allBiddersMarker] ∧ valid_noSale (default [] noSale) valid ∧ bidder ∉ default [] noSale.
Proof.
  unfold extractCCPA. rewrite ccpa_Read_spec. destruct (cq_NoSale req) as [noSale|]; [|split; [done|naive_solver]].
  destruct (ccpa_consent req gpp) as [c|]; [|split; [done|naive_solver]].
  unfold ccpa_Parse. simpl pol_Consent. simpl pol_NoSaleBidders. set (l := default [] noSale).
  destruct (ccpa_parseConsent c) as [o|e] eqn:Hc; simpl; cycle 1.
  { split; [done|]. intros (_ & ? & ? & [= <-] & [= <-] & Ho%ccpa_parseConsent_opted_out & _). congruence. }
  destruct (parseNoSaleBidders l valid) as [[all specific]|e] eqn:Hn; simpl; cycle 1.
  { split; [done|]. intros (_ & ? & ? & [= <-] & [= <-] & _ & Hl & Hv & _). unfold parseNoSaleBidders in Hn.
    rewrite bool_decide_false in Hn by done. pose proof (proj2 (noSale_loop_spec l valid ∅ _) (conj Hv eq_refl)). congruence. }
  unfold ccpaEnabled. destruct (default host acct); [|split; [done|by intros [? _]]].
  unfold isNoSaleForBidder. simpl. rewrite andb_true_iff, negb_true_iff.
  replace (if all then true else bool_decide (bidder ∈ specific)) with (all || bool_decide (bidder ∈ specific)) by done.
  rewrite (noSale_enforced _ _ _ _ _ Hn). split.
  - intros [[Hl Hb] ->]. split; [done|]. exists noSale, c. split_and!; try done; [by apply ccpa_parseConsent_opted_out|].
    unfold parseNoSaleBidders in Hn. rewrite bool_decide_false in Hn by done. by apply noSale_loop_spec in Hn as [? _].
  - intros (_ & ? & ? & [= <-] & [= <-] & Ho%ccpa_parseConsent_opted_out & Hl & _ & Hb). split; [done|]. congruence.
Qed.

(** Where [regs.us_privacy] and the US privacy section in force differ, CCPA is not enforced
    on any bidder, even when both are opt-outs. *)
Theorem ccpa_mismatch_disables_enforcement req usp sids acct host valid gpp bidder :
  cq_Regs req = Some (usp, sids) → usp ≠ "" → gpp_usp gpp sids ≠ "" → gpp_usp gpp sids ≠ usp →
  ShouldEnforce (fst (extractCCPA req acct host valid gpp)) bidder = false.
Proof.
  intros Hr Hu Hg Hne. unfold extractCCPA. rewrite ccpa_Read_spec. unfold ccpa_consent. rewrite Hr. simpl.
  destruct (cq_NoSale req); [|done]. by rewrite !(proj2 (String.eqb_neq _ _)) by done.
Qed.

Lemma ccpa_mismatch_disables_enforcement_witness :
  opted_out "1YYN" ∧ opted_out "1YYY" ∧
  ShouldEnforce (fst (extractCCPA {| cq_Regs := Some ("1YYN", [6]); cq_NoSale := Some None |} None true ∅ [(6, "1YYY")])) "bidder" = false.
Proof.
  split; [by exists "Y"%char, "N"%char|]. split; [by exists "Y"%char, "Y"%char|].
  apply (ccpa_mismatch_disables_enforcement _ "1YYN" [6]); by vm_compute.
Defined.

(** LMT follows the app tracking status from iOS 14.2 on: restricted unless authorised. *)
Lemma ios_status_sets_lmt d a :
  EqualFold (ios_OS d) "ios" = true → DetectVersionClassification (ios_OSV d) = Version142OrGreater →
  ios_atts d = Some a → 0 ≤ a ≤ 3 →
  ModifyForIOS true (Some d) = Some (set_ios_Lmt (if a =? 3 then 0 else 1) d).
Proof.
  intros Hos Hv Ha Hr. unfold ModifyForIOS. rewrite Hos, Hv. simpl. unfold modifyForIOS142OrGreater, IsKnownIOSAppTrackingStatus.
  rewrite Ha. replace ((0 <=? a) && (a <=? 3)) with true by lia. simpl. by case_match.
Qed.
