(* ===== verification/ExtWrapper.v ===== *)
(** * Extension objects: src/openrtb_ext/request_wrapper.go

    Every [ext] of a request is kept as a map of raw JSON members beside the members the code
    reads and writes, which are decoded once.  A setter marks its member dirty; [marshal] writes
    the dirty members back into the map and prints it.  The [ext] map is nil when the document
    was the JSON value null, and writing a member into it then panics: [marshal] is [None].

    JSON text is not modelled: [Json] gives raw values, the decoders and encoders the wrapper
    uses, and the round trips they are relied on for.  A decoding error ends the request, so what
    an extension object holds after one is left out. *)
From S2P Require Import Prelude GoFloat.

(** ** Raw JSON *)
Record codec (raw T : Type) := { dec : raw → option T; enc : T → raw }.
Arguments dec {raw T}.
Arguments enc {raw T}.

(** An external id; the other members of its [uids] are not looked at. *)
Record EID := { eid_Source : string; eid_UIDs : list string; eid_Inserter : string; eid_Matcher : string; eid_MM : Z }.
#[export] Instance EID_eq_dec : EqDecision EID.
Proof. solve_decision. Defined.
Record SupplyChainNode := { scn_ASI : string; scn_SID : string }.
Record SupplyChain := { sc_Ver : string; sc_Complete : Z; sc_Nodes : list SupplyChainNode }.

(** Members that are read and written as a whole only. *)
Record ExtUserPrebid := { up_BuyerUIDs : gmap string string }.
Record ExtDevicePrebid := { dp_Interstitial : option (Z * Z) }.
Record ExtAppPrebid := { apb_Source : string; apb_Version : string }.
Record ExtRegsDSA := { dsa_Required : option Z; dsa_PubRender : option Z; dsa_DataToPub : option Z;
                        dsa_Transparency : list (string * list Z) }.

(** [request.ext.prebid]: the members the exchange reads one by one; [pb_rest] stands for the others. *)
Record ExtAdapterAlternateBidderCodes := { aabc_Enabled : bool; aabc_AllowedBidderCodes : option (list string) }.
Record ExtAlternateBidderCodes := { abc_Enabled : bool; abc_Bidders : gmap string ExtAdapterAlternateBidderCodes }.
Record ExtMultiBid := { mb_Bidder : string; mb_Bidders : list string; mb_MaxBids : option Z;
                         mb_TargetBidderCodePrefix : string }.
Record EidPermission := { ep_Source : string; ep_Bidders : list string }.
Record ExtRequestPrebidSChain := { psc_Bidders : list string; psc_SChain : SupplyChain }.
Record ExtRequestTargeting := { tg_IncludeBrandCategory : option string; tg_rest : string }.
Record ExtRequestPrebid := mkExtRequestPrebid {
  pb_Aliases : option (gmap string string);
  pb_AliasGVLIDs : option (gmap string Z);
  pb_BidAdjustmentFactors : option (gmap string float64);
  pb_BidderParams : option string;
  pb_Channel : option string;
  pb_CurrencyConversions : option string;
  pb_EidPermissions : option (list EidPermission);
  pb_Debug : bool;
  pb_Integration : string;
  pb_MultiBid : list ExtMultiBid;
  pb_SChains : option (list ExtRequestPrebidSChain);
  pb_Sdk : option string;
  pb_Server : option string;
  pb_Targeting : option ExtRequestTargeting;
  pb_AlternateBidderCodes : option ExtAlternateBidderCodes;
  pb_NoSale : list string;
  pb_rest : string
}.
Definition set_pb_NoSale v (x : ExtRequestPrebid) : ExtRequestPrebid :=
  mkExtRequestPrebid (pb_Aliases x) (pb_AliasGVLIDs x) (pb_BidAdjustmentFactors x) (pb_BidderParams x)
    (pb_Channel x) (pb_CurrencyConversions x) (pb_EidPermissions x) (pb_Debug x) (pb_Integration x)
    (pb_MultiBid x) (pb_SChains x) (pb_Sdk x) (pb_Server x) (pb_Targeting x) (pb_AlternateBidderCodes x) v
    (pb_rest x).
Definition set_pb_SChains v (x : ExtRequestPrebid) : ExtRequestPrebid :=
  mkExtRequestPrebid (pb_Aliases x) (pb_AliasGVLIDs x) (pb_BidAdjustmentFactors x) (pb_BidderParams x)
    (pb_Channel x) (pb_CurrencyConversions x) (pb_EidPermissions x) (pb_Debug x) (pb_Integration x)
    (pb_MultiBid x) v (pb_Sdk x) (pb_Server x) (pb_Targeting x) (pb_AlternateBidderCodes x) (pb_NoSale x)
    (pb_rest x).
Definition empty_prebid : ExtRequestPrebid :=
  mkExtRequestPrebid None None None None None None None false "" [] None None None None None [] "".
(** [imp.ext.prebid] *)
Record ExtImpPrebid := mkExtImpPrebid {
  ip_IsRewardedInventory : option Z;
  ip_rest : string
}.
Definition set_ip_IsRewardedInventory v (x : ExtImpPrebid) : ExtImpPrebid :=
  mkExtImpPrebid v (ip_rest x).
Definition empty_imp_prebid : ExtImpPrebid := {| ip_IsRewardedInventory := None; ip_rest := "" |}.
Record ExtImpData := { id_PbAdslot : string; id_AdServer : option (string * string) }.

Class Json := {
  raw : Type;
  (** Decoding into [map[string]json.RawMessage]: null gives the nil map. *)
  parse_map : raw → option (option (gmap string raw));
  print_map : gmap string raw → raw;
  is_null : raw → bool;
  (** At most two bytes long, as [{}] is. *)
  short : raw → bool;
  c_string : codec raw string;
  c_int8 : codec raw Z;
  c_userPrebid : codec raw ExtUserPrebid;
  c_eids : codec raw (list EID);
  c_cpIn : codec raw string;
  c_cpOut : codec raw (list Z);
  c_prebid : codec raw ExtRequestPrebid;
  c_schain : codec raw SupplyChain;
  c_devicePrebid : codec raw ExtDevicePrebid;
  c_appPrebid : codec raw ExtAppPrebid;
  c_dsa : codec raw ExtRegsDSA;
  c_impPrebid : codec raw ExtImpPrebid;
  c_impData : codec raw ExtImpData;
  (** [jsonutil.ParseIntoString]: a string or the text of another value; null is nil. *)
  parse_into_string : raw → option (option string)
}.

(** What encoding and decoding are relied on for. *)
Definition codec_ok `{!Json} {T} (c : codec raw T) : Prop :=
  ∀ x, dec c (enc c x) = Some x ∧ is_null (enc c x) = false.
Class JsonLaws (J : Json) : Prop := {
  parse_print : ∀ m, parse_map (print_map m) = Some (Some m);
  string_ok : codec_ok c_string;
  int8_ok : codec_ok c_int8;
  userPrebid_ok : codec_ok c_userPrebid;
  eids_ok : codec_ok c_eids;
  cpIn_ok : codec_ok c_cpIn;
  cpOut_ok : codec_ok c_cpOut;
  prebid_ok : codec_ok c_prebid;
  schain_ok : codec_ok c_schain;
  devicePrebid_ok : codec_ok c_devicePrebid;
  appPrebid_ok : codec_ok c_appPrebid;
  dsa_ok : codec_ok c_dsa;
  impPrebid_ok : codec_ok c_impPrebid;
  into_string_ok : ∀ s, parse_into_string (enc c_string s) = Some (Some s)
}.

(** A decoded member with its dirty flag. *)
Record member (T : Type) := mkmember { val : T; dirty : bool }.
Arguments mkmember {T} _ _.
Arguments val {T} _.
Arguments dirty {T} _.
Definition clean {T} (v : T) : member T := mkmember v false.
Definition touch {T} (v : T) : member T := mkmember v true.

Section exts.
  Context {J : Json}.

Definition ext_map := option (gmap string raw).
Definition ext_get (k : string) (m : ext_map) : option raw := m ≫= (λ m, m !! k).
Definition ext_len (m : ext_map) : nat := match m with Some m => size m | None => 0%nat end.

(** [jsonutil.Unmarshal(extJson, &ext)] into a made map; an empty [extJson] leaves it empty. *)
Definition load_map (extJson : option raw) : option ext_map :=
  match extJson with None => Some (Some ∅) | Some r => parse_map r end.

(** A member decoded through a pointer: absent or null is nil. *)
Definition read_ptr {T} (c : codec raw T) (r : option raw) : option (option T) :=
  match r with
  | None => Some None
  | Some r => if is_null r then Some None else Some <$> dec c r
  end.
(** A member decoded into a struct that is allocated when the member is present. *)
Definition read_struct {T} (c : codec raw T) (zero : T) (r : option raw) : option (option T) :=
  match r with
  | None => Some None
  | Some r => if is_null r then Some (Some zero) else Some <$> dec c r
  end.
(** A member decoded into a string: null leaves it empty. *)
Definition read_str (r : option raw) : option string :=
  match r with
  | None => Some ""
  | Some r => if is_null r then Some "" else dec c_string r
  end.

(** Writing a member of a dirty field: [Some] sets it and panics on a nil map, [None] deletes it. *)
Definition put (dirty : bool) (k : string) (v : option raw) (m : ext_map) : option ext_map :=
  if dirty then
    match v, m with
    | Some r, Some m => Some (Some (<[k := r]> m))
    | Some _, None => None
    | None, _ => Some (delete k <$> m)
    end
  else Some m.
(** The writes of [marshal], one after the other. *)
Fixpoint puts (ws : list (string * bool * option raw)) (m : ext_map) : option ext_map :=
  match ws with
  | [] => Some m
  | (k, dirty, v) :: ws => m ← put dirty k v m; puts ws m
  end.
(** The encoding of a pointer, left out when nil; [nonempty_obj] also leaves out [{}]. *)
Definition enc_ptr {T} (c : codec raw T) (x : option T) : option raw := enc c <$> x.
Definition nonempty_obj (r : option raw) : option raw :=
  match r with Some r => if short r then None else Some r | None => None end.
Definition enc_eids (l : option (list EID)) : option raw :=
  match l with Some (e :: l) => Some (enc c_eids (e :: l)) | _ => None end.
Definition enc_str (s : string) : option raw := if s =s? "" then None else Some (enc c_string s).
(** [len(ext) == 0] prints nothing. *)
Definition print_ext (m : ext_map) : option raw :=
  match m with Some m => if decide (m = ∅) then None else Some (print_map m) | None => None end.

(** ** [user.ext] *)
Record UserExt := mkUserExt {
  ue_ext : ext_map;
  ue_extDirty : bool;
  ue_consent : member (option string);
  ue_prebid : member (option ExtUserPrebid);
  ue_eids : member (option (list EID));
  ue_consentedProvidersSettingsIn : member (option string);
  ue_consentedProvidersSettingsOut : member (option (list Z))
}.
Definition UserExt_unmarshal (extJson : option raw) : option UserExt :=
  ext ← load_map extJson;
  consent ← read_ptr c_string (ext_get "consent" ext);
  prebid ← read_struct c_userPrebid {| up_BuyerUIDs := ∅ |} (ext_get "prebid" ext);
  eids ← read_struct c_eids [] (ext_get "eids" ext);
  consentedProvidersSettingsIn ← read_struct c_cpIn "" (ext_get "ConsentedProvidersSettings" ext);
  consentedProvidersSettingsOut ← read_struct c_cpOut [] (ext_get "consented_providers_settings" ext);
  Some (mkUserExt ext false (clean consent) (clean prebid) (clean eids) (clean consentedProvidersSettingsIn)
        (clean consentedProvidersSettingsOut)).
Definition UserExt_Dirty (x : UserExt) : bool :=
  ue_extDirty x || dirty (ue_consent x) || dirty (ue_prebid x) || dirty (ue_eids x) ||
    dirty (ue_consentedProvidersSettingsIn x) || dirty (ue_consentedProvidersSettingsOut x).
Definition UserExt_marshal (x : UserExt) : option (option raw * UserExt) :=
  ext ← puts [
    ("consent", dirty (ue_consent x), val (ue_consent x) ≫= enc_str);
    ("prebid", dirty (ue_prebid x), nonempty_obj (enc_ptr c_userPrebid (val (ue_prebid x))));
    ("ConsentedProvidersSettings", dirty (ue_consentedProvidersSettingsIn x),
      nonempty_obj (enc_ptr c_cpIn (val (ue_consentedProvidersSettingsIn x))));
    ("consented_providers_settings", dirty (ue_consentedProvidersSettingsOut x),
      nonempty_obj (enc_ptr c_cpOut (val (ue_consentedProvidersSettingsOut x))));
    ("eids", dirty (ue_eids x), enc_eids (val (ue_eids x)))] (ue_ext x);
  Some (print_ext ext, mkUserExt ext false (clean (val (ue_consent x))) (clean (val (ue_prebid x)))
        (clean (val (ue_eids x))) (clean (val (ue_consentedProvidersSettingsIn x)))
        (clean (val (ue_consentedProvidersSettingsOut x)))).
Definition UserExt_SetExt (ext : gmap string raw) (x : UserExt) : UserExt :=
  mkUserExt (Some ext) true (ue_consent x) (ue_prebid x) (ue_eids x) (ue_consentedProvidersSettingsIn x)
    (ue_consentedProvidersSettingsOut x).
Definition UserExt_GetExt (x : UserExt) : gmap string raw := default ∅ (ue_ext x).
Definition UserExt_SetConsent (v : option string) (x : UserExt) : UserExt :=
  mkUserExt (ue_ext x) (ue_extDirty x) (touch v) (ue_prebid x) (ue_eids x) (ue_consentedProvidersSettingsIn x)
    (ue_consentedProvidersSettingsOut x).
Definition UserExt_SetPrebid (v : option ExtUserPrebid) (x : UserExt) : UserExt :=
  mkUserExt (ue_ext x) (ue_extDirty x) (ue_consent x) (touch v) (ue_eids x) (ue_consentedProvidersSettingsIn x)
    (ue_consentedProvidersSettingsOut x).
Definition UserExt_SetEid (v : option (list EID)) (x : UserExt) : UserExt :=
  mkUserExt (ue_ext x) (ue_extDirty x) (ue_consent x) (ue_prebid x) (touch v) (ue_consentedProvidersSettingsIn x)
    (ue_consentedProvidersSettingsOut x).
Definition UserExt_SetConsentedProvidersSettingsIn (v : option string) (x : UserExt) : UserExt :=
  mkUserExt (ue_ext x) (ue_extDirty x) (ue_consent x) (ue_prebid x) (ue_eids x) (touch v)
    (ue_consentedProvidersSettingsOut x).
Definition UserExt_SetConsentedProvidersSettingsOut (v : option (list Z)) (x : UserExt) : UserExt :=
  match v with
  | None => x   (* setting nil is a no-op for this member *)
  | Some _ =>
      mkUserExt (ue_ext x) (ue_extDirty x) (ue_consent x) (ue_prebid x) (ue_eids x)
        (ue_consentedProvidersSettingsIn x) (touch v)
  end.

(** ** [request.ext] *)
Record RequestExt := mkRequestExt {
  re_ext : ext_map;
  re_extDirty : bool;
  re_prebid : member (option ExtRequestPrebid);
  re_schain : member (option SupplyChain)
}.
Definition RequestExt_unmarshal (extJson : option raw) : option RequestExt :=
  ext ← load_map extJson;
  prebid ← read_struct c_prebid empty_prebid (ext_get "prebid" ext);
  schain ← read_struct c_schain {| sc_Ver := ""; sc_Complete := 0; sc_Nodes := [] |} (ext_get "schain" ext);
  Some (mkRequestExt ext false (clean prebid) (clean schain)).
Definition RequestExt_Dirty (x : RequestExt) : bool :=
  re_extDirty x || dirty (re_prebid x) || dirty (re_schain x).
Definition RequestExt_marshal (x : RequestExt) : option (option raw * RequestExt) :=
  ext ← puts [
    ("prebid", dirty (re_prebid x), nonempty_obj (enc_ptr c_prebid (val (re_prebid x))));
    ("schain", dirty (re_schain x), nonempty_obj (enc_ptr c_schain (val (re_schain x))))] (re_ext x);
  Some (print_ext ext, mkRequestExt ext false (clean (val (re_prebid x))) (clean (val (re_schain x)))).
Definition RequestExt_SetExt (ext : gmap string raw) (x : RequestExt) : RequestExt :=
  mkRequestExt (Some ext) true (re_prebid x) (re_schain x).
Definition RequestExt_GetExt (x : RequestExt) : gmap string raw := default ∅ (re_ext x).
Definition RequestExt_SetPrebid (v : option ExtRequestPrebid) (x : RequestExt) : RequestExt :=
  mkRequestExt (re_ext x) (re_extDirty x) (touch v) (re_schain x).
Definition RequestExt_SetSChain (v : option SupplyChain) (x : RequestExt) : RequestExt :=
  mkRequestExt (re_ext x) (re_extDirty x) (re_prebid x) (touch v).

(** ** [device.ext] *)
Record DeviceExt := mkDeviceExt {
  de_ext : ext_map;
  de_extDirty : bool;
  de_prebid : member (option ExtDevicePrebid);
  de_cdep : member string
}.
Definition DeviceExt_unmarshal (extJson : option raw) : option DeviceExt :=
  ext ← load_map extJson;
  prebid ← read_struct c_devicePrebid {| dp_Interstitial := None |} (ext_get "prebid" ext);
  cdep ← read_str (ext_get "cdep" ext);
  Some (mkDeviceExt ext false (clean prebid) (clean cdep)).
Definition DeviceExt_Dirty (x : DeviceExt) : bool :=
  de_extDirty x || dirty (de_prebid x) || dirty (de_cdep x).
Definition DeviceExt_marshal (x : DeviceExt) : option (option raw * DeviceExt) :=
  ext ← puts [
    ("prebid", dirty (de_prebid x), nonempty_obj (enc_ptr c_devicePrebid (val (de_prebid x))));
    ("cdep", dirty (de_cdep x), enc_str (val (de_cdep x)))] (de_ext x);
  Some (print_ext ext, mkDeviceExt ext false (clean (val (de_prebid x))) (clean (val (de_cdep x)))).
Definition DeviceExt_SetExt (ext : gmap string raw) (x : DeviceExt) : DeviceExt :=
  mkDeviceExt (Some ext) true (de_prebid x) (de_cdep x).
Definition DeviceExt_GetExt (x : DeviceExt) : gmap string raw := default ∅ (de_ext x).
Definition DeviceExt_SetPrebid (v : option ExtDevicePrebid) (x : DeviceExt) : DeviceExt :=
  mkDeviceExt (de_ext x) (de_extDirty x) (touch v) (de_cdep x).
Definition DeviceExt_SetCDep (v : string) (x : DeviceExt) : DeviceExt :=
  mkDeviceExt (de_ext x) (de_extDirty x) (de_prebid x) (touch v).

(** ** [app.ext] *)
Record AppExt := mkAppExt {
  ae_ext : ext_map;
  ae_extDirty : bool;
  ae_prebid : member (option ExtAppPrebid)
}.
Definition AppExt_unmarshal (extJson : option raw) : option AppExt :=
  ext ← load_map extJson;
  prebid ← read_struct c_appPrebid {| apb_Source := ""; apb_Version := "" |} (ext_get "prebid" ext);
  Some (mkAppExt ext false (clean prebid)).
Definition AppExt_Dirty (x : AppExt) : bool :=
  ae_extDirty x || dirty (ae_prebid x).
Definition AppExt_marshal (x : AppExt) : option (option raw * AppExt) :=
  ext ← puts [
    ("prebid", dirty (ae_prebid x), nonempty_obj (enc_ptr c_appPrebid (val (ae_prebid x))))] (ae_ext x);
  Some (print_ext ext, mkAppExt ext false (clean (val (ae_prebid x)))).
Definition AppExt_SetExt (ext : gmap string raw) (x : AppExt) : AppExt :=
  mkAppExt (Some ext) true (ae_prebid x).
Definition AppExt_GetExt (x : AppExt) : gmap string raw := default ∅ (ae_ext x).
Definition AppExt_SetPrebid (v : option ExtAppPrebid) (x : AppExt) : AppExt :=
  mkAppExt (ae_ext x) (ae_extDirty x) (touch v).

(** ** [dooh.ext] *)
Record DOOHExt := mkDOOHExt {
  doe_ext : ext_map;
  doe_extDirty : bool
}.
Definition DOOHExt_unmarshal (extJson : option raw) : option DOOHExt :=
  ext ← load_map extJson;
  Some (mkDOOHExt ext false ).
Definition DOOHExt_Dirty (x : DOOHExt) : bool :=
  doe_extDirty x.
Definition DOOHExt_marshal (x : DOOHExt) : option (option raw * DOOHExt) :=
  let ext := doe_ext x in
  Some (print_ext ext, mkDOOHExt ext false ).
Definition DOOHExt_SetExt (ext : gmap string raw) (x : DOOHExt) : DOOHExt :=
  mkDOOHExt (Some ext) true.
Definition DOOHExt_GetExt (x : DOOHExt) : gmap string raw := default ∅ (doe_ext x).

(** ** [regs.ext] *)
Definition empty_dsa : ExtRegsDSA :=
  {| dsa_Required := None; dsa_PubRender := None; dsa_DataToPub := None; dsa_Transparency := [] |}.
Definition read_gpc (r : option raw) : option (option string) :=
  match r with None => Some None | Some r => parse_into_string r end.
Record RegExt := mkRegExt {
  rge_ext : ext_map;
  rge_extDirty : bool;
  rge_dsa : member (option ExtRegsDSA);
  rge_gdpr : member (option Z);
  rge_usPrivacy : member string;
  rge_gpc : member (option string)
}.
Definition RegExt_unmarshal (extJson : option raw) : option RegExt :=
  ext ← load_map extJson;
  dsa ← read_struct c_dsa empty_dsa (ext_get "dsa" ext);
  gdpr ← read_ptr c_int8 (ext_get "gdpr" ext);
  usPrivacy ← read_str (ext_get "us_privacy" ext);
  gpc ← read_gpc (ext_get "gpc" ext);
  Some (mkRegExt ext false (clean dsa) (clean gdpr) (clean usPrivacy) (clean gpc)).
Definition RegExt_Dirty (x : RegExt) : bool :=
  rge_extDirty x || dirty (rge_dsa x) || dirty (rge_gdpr x) || dirty (rge_usPrivacy x) || dirty (rge_gpc x).
Definition RegExt_marshal (x : RegExt) : option (option raw * RegExt) :=
  ext ← puts [
    ("dsa", dirty (rge_dsa x), enc_ptr c_dsa (val (rge_dsa x)));
    ("gdpr", dirty (rge_gdpr x), enc_ptr c_int8 (val (rge_gdpr x)));
    ("us_privacy", dirty (rge_usPrivacy x), enc_str (val (rge_usPrivacy x)));
    ("gpc", dirty (rge_gpc x), enc_ptr c_string (val (rge_gpc x)))] (rge_ext x);
  Some (print_ext ext, mkRegExt ext false (clean (val (rge_dsa x))) (clean (val (rge_gdpr x)))
        (clean (val (rge_usPrivacy x))) (clean (val (rge_gpc x)))).
Definition RegExt_SetExt (ext : gmap string raw) (x : RegExt) : RegExt :=
  mkRegExt (Some ext) true (rge_dsa x) (rge_gdpr x) (rge_usPrivacy x) (rge_gpc x).
Definition RegExt_GetExt (x : RegExt) : gmap string raw := default ∅ (rge_ext x).
Definition RegExt_SetDSA (v : option ExtRegsDSA) (x : RegExt) : RegExt :=
  mkRegExt (rge_ext x) (rge_extDirty x) (touch v) (rge_gdpr x) (rge_usPrivacy x) (rge_gpc x).
Definition RegExt_SetGDPR (v : option Z) (x : RegExt) : RegExt :=
  mkRegExt (rge_ext x) (rge_extDirty x) (rge_dsa x) (touch v) (rge_usPrivacy x) (rge_gpc x).
Definition RegExt_SetUSPrivacy (v : string) (x : RegExt) : RegExt :=
  mkRegExt (rge_ext x) (rge_extDirty x) (rge_dsa x) (rge_gdpr x) (touch v) (rge_gpc x).
Definition RegExt_SetGPC (v : option string) (x : RegExt) : RegExt :=
  mkRegExt (rge_ext x) (rge_extDirty x) (rge_dsa x) (rge_gdpr x) (rge_usPrivacy x) (touch v).

(** ** [site.ext] *)
Record SiteExt := mkSiteExt {
  se_ext : ext_map;
  se_extDirty : bool;
  se_amp : member (option Z)
}.
Definition SiteExt_unmarshal (extJson : option raw) : option SiteExt :=
  ext ← load_map extJson;
  amp ← read_ptr c_int8 (ext_get "amp" ext);
  Some (mkSiteExt ext false (clean amp)).
Definition SiteExt_Dirty (x : SiteExt) : bool :=
  se_extDirty x || dirty (se_amp x).
Definition SiteExt_marshal (x : SiteExt) : option (option raw * SiteExt) :=
  ext ← puts [
    ("amp", dirty (se_amp x), enc_ptr c_int8 (val (se_amp x)))] (se_ext x);
  Some (print_ext ext, mkSiteExt ext false (clean (val (se_amp x)))).
Definition SiteExt_SetExt (ext : gmap string raw) (x : SiteExt) : SiteExt :=
  mkSiteExt (Some ext) true (se_amp x).
Definition SiteExt_GetExt (x : SiteExt) : gmap string raw := default ∅ (se_ext x).
Definition SiteExt_SetAmp (v : option Z) (x : SiteExt) : SiteExt :=
  mkSiteExt (se_ext x) (se_extDirty x) (touch v).

(** ** [source.ext] *)
Record SourceExt := mkSourceExt {
  sre_ext : ext_map;
  sre_extDirty : bool;
  sre_schain : member (option SupplyChain)
}.
Definition SourceExt_unmarshal (extJson : option raw) : option SourceExt :=
  ext ← load_map extJson;
  schain ← read_ptr c_schain (ext_get "schain" ext);
  Some (mkSourceExt ext false (clean schain)).
Definition SourceExt_Dirty (x : SourceExt) : bool :=
  sre_extDirty x || dirty (sre_schain x).
Definition SourceExt_marshal (x : SourceExt) : option (option raw * SourceExt) :=
  ext ← puts [
    ("schain", dirty (sre_schain x), nonempty_obj (enc_ptr c_schain (val (sre_schain x))))] (sre_ext x);
  Some (print_ext ext, mkSourceExt ext false (clean (val (sre_schain x)))).
Definition SourceExt_SetExt (ext : gmap string raw) (x : SourceExt) : SourceExt :=
  mkSourceExt (Some ext) true (sre_schain x).
Definition SourceExt_GetExt (x : SourceExt) : gmap string raw := default ∅ (sre_ext x).
Definition SourceExt_SetSChain (v : option SupplyChain) (x : SourceExt) : SourceExt :=
  mkSourceExt (sre_ext x) (sre_extDirty x) (touch v).

(** ** [imp.ext] *)
Record ImpExt := mkImpExt {
  ie_ext : ext_map;
  ie_extDirty : bool;
  ie_prebid : member (option ExtImpPrebid);
  ie_data : option ExtImpData;
  ie_tid : member string;
  ie_gpId : string
}.
Definition ImpExt_unmarshal (extJson : option raw) : option ImpExt :=
  ext ← load_map extJson;
  prebid ← read_struct c_impPrebid empty_imp_prebid (ext_get "prebid" ext);
  data ← read_struct c_impData {| id_PbAdslot := ""; id_AdServer := None |} (ext_get "data" ext);
  tid ← read_str (ext_get "tid" ext);
  gpId ← read_str (ext_get "gpid" ext);
  Some (mkImpExt ext false (clean prebid) data (clean tid) gpId).
Definition ImpExt_Dirty (x : ImpExt) : bool :=
  ie_extDirty x || dirty (ie_prebid x) || dirty (ie_tid x).
Definition ImpExt_marshal (x : ImpExt) : option (option raw * ImpExt) :=
  ext ← puts [
    ("prebid", dirty (ie_prebid x), nonempty_obj (enc_ptr c_impPrebid (val (ie_prebid x))));
    ("tid", dirty (ie_tid x), enc_str (val (ie_tid x)))] (ie_ext x);
  Some (print_ext ext, mkImpExt ext false (clean (val (ie_prebid x))) (ie_data x) (clean (val (ie_tid x)))
        (ie_gpId x)).
Definition ImpExt_SetExt (ext : gmap string raw) (x : ImpExt) : ImpExt :=
  mkImpExt (Some ext) true (ie_prebid x) (ie_data x) (ie_tid x) (ie_gpId x).
Definition ImpExt_GetExt (x : ImpExt) : gmap string raw := default ∅ (ie_ext x).
Definition ImpExt_SetPrebid (v : option ExtImpPrebid) (x : ImpExt) : ImpExt :=
  mkImpExt (ie_ext x) (ie_extDirty x) (touch v) (ie_data x) (ie_tid x) (ie_gpId x).
Definition ImpExt_SetTid (v : string) (x : ImpExt) : ImpExt :=
  mkImpExt (ie_ext x) (ie_extDirty x) (ie_prebid x) (ie_data x) (touch v) (ie_gpId x).

(** [GetOrCreatePrebid] also stores the object it creates. *)
Definition ImpExt_GetOrCreatePrebid (x : ImpExt) : ExtImpPrebid := default empty_imp_prebid (val (ie_prebid x)).

(** ** What is written is read back *)
Lemma put_get d k v m m' : put d k v m = Some m' →
  ext_get k m' = (if d then v else ext_get k m) ∧ ∀ k', k' ≠ k → ext_get k' m' = ext_get k' m.
Proof.
  unfold put, ext_get. destruct d; [|intros [= <-]; done]. destruct v as [r|], m as [m|]; intros [= <-]; simpl.
  - split; [by rewrite lookup_insert_eq|]. intros. by rewrite lookup_insert_ne.
  - split; [by rewrite lookup_delete_eq|]. intros. by rewrite lookup_delete_ne.
  - done.
Qed.


Lemma puts_get ws m m' : puts ws m = Some m' → NoDup ws.*1.*1 →
  (∀ k d v, (k, d, v) ∈ ws → ext_get k m' = if d : bool then v else ext_get k m) ∧
  (∀ k, k ∉ ws.*1.*1 → ext_get k m' = ext_get k m).
Proof.
  revert m. induction ws as [|[[k d] v] ws IH]; intros m H Hnd; simpl in *.
  { simplify_eq. split; [by intros k d v ?%not_elem_of_nil|done]. }
  destruct (put d k v m) as [m1|] eqn:Hp; [|done]. simpl in H. apply put_get in Hp as [Hk Hother].
  apply NoDup_cons in Hnd as [Hnk Hnd]. destruct (IH _ H Hnd) as [Hin Hout]. split.
  - intros k' d' v' [[= -> -> ->]|Hin']%elem_of_cons; [by rewrite Hout|].
    rewrite (Hin _ _ _ Hin'). destruct d'; [done|]. apply Hother. intros ->. apply Hnk.
    apply list_elem_of_fmap. exists (k, false). split; [done|]. apply list_elem_of_fmap. by exists (k, false, v').
  - intros k' Hk'. apply not_elem_of_cons in Hk' as [? ?]. rewrite Hout by done. by apply Hother.
Qed.
End exts.

Section laws.
  Context {J : Json} {JL : JsonLaws J}.

Lemma load_print (m : ext_map) : ∃ m', load_map (print_ext m) = Some m' ∧ ∀ k, ext_get k m' = ext_get k m.
Proof.
  destruct m as [m|]; simpl; [|by exists (Some ∅)]. case_decide as Hm; simpl.
  - exists (Some ∅). by rewrite Hm.
  - rewrite parse_print. by exists (Some m).
Qed.

Lemma read_ptr_enc {T} (c : codec raw T) (x : option T) : codec_ok c → read_ptr c (enc_ptr c x) = Some x.
Proof. intros Hc. destruct x as [x|]; [|done]. simpl. destruct (Hc x) as [Hd ->]. by rewrite Hd. Qed.

Lemma read_struct_enc {T} (c : codec raw T) zero (x : option T) : codec_ok c → read_struct c zero (enc_ptr c x) = Some x.
Proof. intros Hc. destruct x as [x|]; [|done]. simpl. destruct (Hc x) as [Hd ->]. by rewrite Hd. Qed.

(** What a written member is read back as: an empty string, list or object is left out. *)
Definition kept_str (s : option string) : option string := x ← s; if x =s? "" then None else Some x.
Definition kept_obj {T} (c : codec raw T) (x : option T) : option T := y ← x; if short (enc c y) then None else Some y.
Definition kept_eids (l : option (list EID)) : option (list EID) := match l with Some (e :: l) => Some (e :: l) | _ => None end.
Definition written {T} (kept : T → T) (m : member T) : T := if dirty m then kept (val m) else val m.

Lemma read_ptr_str s : read_ptr c_string (s ≫= enc_str) = Some (kept_str s).
Proof.
  destruct s as [s|]; [|done]. unfold kept_str. simpl. unfold enc_str. destruct (s =s? ""); [done|].
  apply (read_ptr_enc c_string (Some s) string_ok).
Qed.

Lemma read_struct_obj {T} (c : codec raw T) zero x : codec_ok c → read_struct c zero (nonempty_obj (enc_ptr c x)) = Some (kept_obj c x).
Proof.
  intros Hc. destruct x as [x|]; [|done]. unfold kept_obj. simpl. destruct (short (enc c x)); [done|].
  apply (read_struct_enc c zero (Some x) Hc).
Qed.

Lemma read_struct_eids l : read_struct c_eids [] (enc_eids l) = Some (kept_eids l).
Proof. destruct l as [[|e l]|]; [done| |done]. apply (read_struct_enc c_eids [] (Some (e :: l)) eids_ok). Qed.

(** A member that is not dirty agrees with the map. *)
Definition agrees {T} (m : member T) (read : option T) : Prop := dirty m = false → read = Some (val m).

Record UserExt_coherent (x : UserExt) : Prop := {
  coh_consent : agrees (ue_consent x) (read_ptr c_string (ext_get "consent" (ue_ext x)));
  coh_prebid : agrees (ue_prebid x) (read_struct c_userPrebid {| up_BuyerUIDs := ∅ |} (ext_get "prebid" (ue_ext x)));
  coh_eids : agrees (ue_eids x) (read_struct c_eids [] (ext_get "eids" (ue_ext x)));
  coh_cpIn : agrees (ue_consentedProvidersSettingsIn x) (read_struct c_cpIn "" (ext_get "ConsentedProvidersSettings" (ue_ext x)));
  coh_cpOut : agrees (ue_consentedProvidersSettingsOut x) (read_struct c_cpOut [] (ext_get "consented_providers_settings" (ue_ext x)))
}.

Definition user_ext_keys : list string :=
  ["consent"; "prebid"; "ConsentedProvidersSettings"; "consented_providers_settings"; "eids"].

(** The setters of [user.ext], in any order. *)
Inductive user_ext_op :=
| U_consent (v : option string) | U_prebid (v : option ExtUserPrebid) | U_eid (v : option (list EID))
| U_cpIn (v : option string) | U_cpOut (v : option (list Z)).
Definition user_ext_apply (x : UserExt) (op : user_ext_op) : UserExt :=
  match op with
  | U_consent v => UserExt_SetConsent v x
  | U_prebid v => UserExt_SetPrebid v x
  | U_eid v => UserExt_SetEid v x
  | U_cpIn v => UserExt_SetConsentedProvidersSettingsIn v x
  | U_cpOut v => UserExt_SetConsentedProvidersSettingsOut v x
  end.

Lemma user_ext_apply_coherent x op : UserExt_coherent x → UserExt_coherent (user_ext_apply x op).
Proof. intros []. destruct op as [| | | |[v|]]; split; done. Qed.

Lemma UserExt_unmarshal_coherent extJson x : UserExt_unmarshal extJson = Some x → UserExt_coherent x ∧ load_map extJson = Some (ue_ext x).
Proof.
  unfold UserExt_unmarshal. intros H. destruct (load_map extJson) as [m|]; [|done]. simpl in H.
  repeat match type of H with (?y ≫= _ = Some _) => destruct y eqn:?; [|done]; simpl in H end.
  injection H as <-. split; [|done]. split; by intros _.
Qed.

(** Reading a member after [marshal] and a fresh [unmarshal]. *)
Lemma read_written {T} (read : option raw → option T) (kept : T → T) (m : member T) ws ext ext' k v :
  puts ws ext = Some ext' → NoDup ws.*1.*1 → (k, dirty m, v) ∈ ws →
  read v = Some (kept (val m)) → agrees m (read (ext_get k ext)) → read (ext_get k ext') = Some (written kept m).
Proof.
  intros Hp Hnd Hin Hread Ha. rewrite (proj1 (puts_get _ _ _ Hp Hnd) _ _ _ Hin). unfold written.
  destruct (dirty m) eqn:Hd; [done|]. by apply Ha.
Qed.

Ltac pick := repeat first [apply list_elem_of_here | apply list_elem_of_further].

(** A [user.ext] decoded from any document and then changed by any of its setters in any
    order, printed and decoded again, has every member as it was set, an empty one left out, and
    every member the wrapper does not know as it was. *)
Theorem user_ext_round_trip extJson x ops out x' :
  UserExt_unmarshal extJson = Some x → UserExt_marshal (foldl user_ext_apply x ops) = Some (out, x') →
  let y := foldl user_ext_apply x ops in
  ∃ z, UserExt_unmarshal out = Some z ∧
    val (ue_consent z) = written kept_str (ue_consent y) ∧
    val (ue_prebid z) = written (kept_obj c_userPrebid) (ue_prebid y) ∧
    val (ue_eids z) = written kept_eids (ue_eids y) ∧
    val (ue_consentedProvidersSettingsIn z) = written (kept_obj c_cpIn) (ue_consentedProvidersSettingsIn y) ∧
    val (ue_consentedProvidersSettingsOut z) = written (kept_obj c_cpOut) (ue_consentedProvidersSettingsOut y) ∧
    ∀ k, k ∉ user_ext_keys → ext_get k (ue_ext z) = ext_get k (ue_ext x).
Proof.
  intros [Hx _]%UserExt_unmarshal_coherent Hm y.
  assert (UserExt_coherent y ∧ ue_ext y = ue_ext x) as [[Hc Hp He Hi Ho] Hext].
  { subst y. clear Hm. revert x Hx. induction ops as [|op ops IH]; intros x Hx; [done|]. simpl.
    destruct (IH _ (user_ext_apply_coherent x op Hx)) as [? ->]. split; [done|]. by destruct op as [| | | |[v|]]. }
  fold y in Hm. unfold UserExt_marshal in Hm.
  destruct (puts _ _) as [ext'|] eqn:Hputs; [|done]. cbn [mbind option_bind] in Hm.
  injection Hm as <- _. destruct (load_print ext') as (m & Hload & Hget).
  assert (NoDup user_ext_keys) as Hnd by (apply (bool_decide_unpack _); by vm_compute).
  unfold UserExt_unmarshal. rewrite Hload. cbn [mbind option_bind]. rewrite !Hget.
  rewrite (read_written (read_ptr c_string) kept_str (ue_consent y) _ _ _ "consent" _ Hputs Hnd ltac:(pick) (read_ptr_str _) Hc).
  rewrite (read_written (read_struct c_userPrebid _) (kept_obj c_userPrebid) (ue_prebid y) _ _ _ "prebid" _ Hputs Hnd
             ltac:(pick) (read_struct_obj _ _ _ userPrebid_ok) Hp).
  rewrite (read_written (read_struct c_eids []) kept_eids (ue_eids y) _ _ _ "eids" _ Hputs Hnd ltac:(pick) (read_struct_eids _) He).
  rewrite (read_written (read_struct c_cpIn "") (kept_obj c_cpIn) (ue_consentedProvidersSettingsIn y) _ _ _
             "ConsentedProvidersSettings" _ Hputs Hnd ltac:(pick) (read_struct_obj _ _ _ cpIn_ok) Hi).
  rewrite (read_written (read_struct c_cpOut []) (kept_obj c_cpOut) (ue_consentedProvidersSettingsOut y) _ _ _
             "consented_providers_settings" _ Hputs Hnd ltac:(pick) (read_struct_obj _ _ _ cpOut_ok) Ho).
  eexists. split; [done|]. split_and!; try done. intros k Hk. simpl. rewrite Hget, <-Hext.
  by apply (proj2 (puts_get _ _ _ Hputs Hnd)).
Qed.
End laws.

(** ** A JSON implementation

    Values that are printed as trees, with the objects the code reads as a whole as leaves: an
    instance of [Json] that has the laws, for concrete runs. *)
Module JsonTree.
Inductive tree :=
| T_null | T_obj (l : list (string * tree)) | T_str (s : string) | T_int (z : Z) | T_userPrebid (x : ExtUserPrebid)
| T_eids (l : list EID) | T_cpIn (s : string) | T_cpOut (l : list Z) | T_prebid (x : ExtRequestPrebid) | T_schain (x : SupplyChain)
| T_devicePrebid (x : ExtDevicePrebid) | T_appPrebid (x : ExtAppPrebid) | T_dsa (x : ExtRegsDSA) | T_impPrebid (x : ExtImpPrebid)
| T_impData (x : ExtImpData).
Definition leaf {T} (enc : T → tree) (dec : tree → option T) : codec tree T := {| dec := dec; enc := enc |}.

#[export] Instance Json_tree : Json := {
  raw := tree;
  parse_map t := match t with T_obj l => Some (Some (list_to_map l)) | T_null => Some None | _ => None end;
  print_map m := T_obj (map_to_list m);
  is_null t := match t with T_null => true | _ => false end;
  short t := match t with T_obj [] => true | T_userPrebid x => bool_decide (up_BuyerUIDs x = ∅) | _ => false end;
  c_string := leaf T_str (λ t, match t with T_str s => Some s | _ => None end);
  c_int8 := leaf T_int (λ t, match t with T_int z => Some z | _ => None end);
  c_userPrebid := leaf T_userPrebid (λ t, match t with T_userPrebid x => Some x | _ => None end);
  c_eids := leaf T_eids (λ t, match t with T_eids x => Some x | _ => None end);
  c_cpIn := leaf T_cpIn (λ t, match t with T_cpIn x => Some x | _ => None end);
  c_cpOut := leaf T_cpOut (λ t, match t with T_cpOut x => Some x | _ => None end);
  c_prebid := leaf T_prebid (λ t, match t with T_prebid x => Some x | _ => None end);
  c_schain := leaf T_schain (λ t, match t with T_schain x => Some x | _ => None end);
  c_devicePrebid := leaf T_devicePrebid (λ t, match t with T_devicePrebid x => Some x | _ => None end);
  c_appPrebid := leaf T_appPrebid (λ t, match t with T_appPrebid x => Some x | _ => None end);
  c_dsa := leaf T_dsa (λ t, match t with T_dsa x => Some x | _ => None end);
  c_impPrebid := leaf T_impPrebid (λ t, match t with T_impPrebid x => Some x | _ => None end);
  c_impData := leaf T_impData (λ t, match t with T_impData x => Some x | _ => None end);
  parse_into_string t := match t with T_str s => Some (Some s) | T_null => Some None | _ => None end
}.
#[export] Instance Json_tree_laws : JsonLaws Json_tree.
Proof. split; try done. intros m. simpl. by rewrite list_to_map_to_list. Qed.
End JsonTree.
Import JsonTree.

Definition rt_doc : option raw := Some (T_obj [("consent", T_str "old"); ("other", T_int 7)]).
Definition rt_ops : list user_ext_op :=
  [U_eid (Some [{| eid_Source := "pubcid"; eid_UIDs := ["u"]; eid_Inserter := ""; eid_Matcher := ""; eid_MM := 0 |}]); U_consent None].
Definition rt_start : UserExt := default (mkUserExt None false (clean None) (clean None) (clean None) (clean None) (clean None)) (UserExt_unmarshal rt_doc).

Lemma user_ext_round_trip_witness :
  ∃ z, (UserExt_marshal (foldl user_ext_apply rt_start rt_ops) ≫= λ p, UserExt_unmarshal p.1) = Some z ∧
    val (ue_consent z) = None ∧ eid_Source <$> default [] (val (ue_eids z)) = ["pubcid"] ∧ ext_get "other" (ue_ext z) = Some (T_int 7).
Proof.
  assert (is_Some (UserExt_marshal (foldl user_ext_apply rt_start rt_ops))) as [[out x'] Hm] by (apply (bool_decide_unpack _); by vm_compute).
  rewrite Hm. cbn [mbind option_bind fst].
  assert (UserExt_unmarshal rt_doc = Some rt_start) as Hx.
  { assert (is_Some (UserExt_unmarshal rt_doc)) as [x Hx] by (apply (bool_decide_unpack _); by vm_compute).
    unfold rt_start. by rewrite Hx. }
  destruct (user_ext_round_trip rt_doc rt_start rt_ops out x') as (z & Hz & Hc & _ & He & _ & _ & Ho);
    [exact Hx|exact Hm|].
  exists z. split; [exact Hz|]. rewrite Hc, He, Ho by (apply (bool_decide_unpack _); by vm_compute). split_and!; by vm_compute.
Defined.
