(* ===== verification/RequestWrapper.v ===== *)
(** * OpenRTB requests and their wrapper: src/openrtb_ext/request_wrapper.go, src/ortb/clone.go

    The request objects hold the fields the modelled code reads or writes one by one; the field
    ending in [rest] stands for the others, which are only copied.  The wrapper adds the decoded
    extension objects: [Get] decodes one on first use and [RebuildRequest] prints the dirty ones
    back.  An outer [None] is a panic, an [Err] an error.

    The type of users is a parameter of the request: it is [User], or a location where code
    shares a user between requests. *)
From S2P Require Import Prelude GoFloat ExtWrapper.

Record Geo := mkGeo { geo_Lat : option float64; geo_Lon : option float64; geo_rest : string }.
Definition empty_geo : Geo := {| geo_Lat := None; geo_Lon := None; geo_rest := "" |}.

Section request.
  Context {J : Json}.

Record User := mkUser {
  us_ID : string;
  us_BuyerUID : string;
  us_Yob : Z;
  us_Gender : string;
  us_Keywords : string;
  us_KwArray : option (list string);
  us_Data : option (list string);
  us_EIDs : option (list EID);
  us_Geo : option Geo;
  us_Consent : string;
  us_Ext : option raw;
  us_rest : string
}.
Definition set_us_ID v (x : User) : User :=
  mkUser v (us_BuyerUID x) (us_Yob x) (us_Gender x) (us_Keywords x) (us_KwArray x) (us_Data x) (us_EIDs x)
    (us_Geo x) (us_Consent x) (us_Ext x) (us_rest x).
Definition set_us_BuyerUID v (x : User) : User :=
  mkUser (us_ID x) v (us_Yob x) (us_Gender x) (us_Keywords x) (us_KwArray x) (us_Data x) (us_EIDs x) (us_Geo x)
    (us_Consent x) (us_Ext x) (us_rest x).
Definition set_us_Yob v (x : User) : User :=
  mkUser (us_ID x) (us_BuyerUID x) v (us_Gender x) (us_Keywords x) (us_KwArray x) (us_Data x) (us_EIDs x)
    (us_Geo x) (us_Consent x) (us_Ext x) (us_rest x).
Definition set_us_Gender v (x : User) : User :=
  mkUser (us_ID x) (us_BuyerUID x) (us_Yob x) v (us_Keywords x) (us_KwArray x) (us_Data x) (us_EIDs x) (us_Geo x)
    (us_Consent x) (us_Ext x) (us_rest x).
Definition set_us_Keywords v (x : User) : User :=
  mkUser (us_ID x) (us_BuyerUID x) (us_Yob x) (us_Gender x) v (us_KwArray x) (us_Data x) (us_EIDs x) (us_Geo x)
    (us_Consent x) (us_Ext x) (us_rest x).
Definition set_us_KwArray v (x : User) : User :=
  mkUser (us_ID x) (us_BuyerUID x) (us_Yob x) (us_Gender x) (us_Keywords x) v (us_Data x) (us_EIDs x) (us_Geo x)
    (us_Consent x) (us_Ext x) (us_rest x).
Definition set_us_Data v (x : User) : User :=
  mkUser (us_ID x) (us_BuyerUID x) (us_Yob x) (us_Gender x) (us_Keywords x) (us_KwArray x) v (us_EIDs x)
    (us_Geo x) (us_Consent x) (us_Ext x) (us_rest x).
Definition set_us_EIDs v (x : User) : User :=
  mkUser (us_ID x) (us_BuyerUID x) (us_Yob x) (us_Gender x) (us_Keywords x) (us_KwArray x) (us_Data x) v
    (us_Geo x) (us_Consent x) (us_Ext x) (us_rest x).
Definition set_us_Geo v (x : User) : User :=
  mkUser (us_ID x) (us_BuyerUID x) (us_Yob x) (us_Gender x) (us_Keywords x) (us_KwArray x) (us_Data x) (us_EIDs x)
    v (us_Consent x) (us_Ext x) (us_rest x).
Definition set_us_Consent v (x : User) : User :=
  mkUser (us_ID x) (us_BuyerUID x) (us_Yob x) (us_Gender x) (us_Keywords x) (us_KwArray x) (us_Data x) (us_EIDs x)
    (us_Geo x) v (us_Ext x) (us_rest x).
Definition set_us_Ext v (x : User) : User :=
  mkUser (us_ID x) (us_BuyerUID x) (us_Yob x) (us_Gender x) (us_Keywords x) (us_KwArray x) (us_Data x) (us_EIDs x)
    (us_Geo x) (us_Consent x) v (us_rest x).
Definition empty_user : User := mkUser "" "" 0 "" "" None None None None "" None "".
Record Device := mkDevice {
  dv_IP : string;
  dv_IPv6 : string;
  dv_Geo : option Geo;
  dv_Lmt : option Z;
  dv_DIDMD5 : string;
  dv_DIDSHA1 : string;
  dv_DPIDMD5 : string;
  dv_DPIDSHA1 : string;
  dv_IFA : string;
  dv_MACMD5 : string;
  dv_MACSHA1 : string;
  dv_Ext : option raw;
  dv_rest : string
}.
Definition set_dv_IP v (x : Device) : Device :=
  mkDevice v (dv_IPv6 x) (dv_Geo x) (dv_Lmt x) (dv_DIDMD5 x) (dv_DIDSHA1 x) (dv_DPIDMD5 x) (dv_DPIDSHA1 x)
    (dv_IFA x) (dv_MACMD5 x) (dv_MACSHA1 x) (dv_Ext x) (dv_rest x).
Definition set_dv_IPv6 v (x : Device) : Device :=
  mkDevice (dv_IP x) v (dv_Geo x) (dv_Lmt x) (dv_DIDMD5 x) (dv_DIDSHA1 x) (dv_DPIDMD5 x) (dv_DPIDSHA1 x)
    (dv_IFA x) (dv_MACMD5 x) (dv_MACSHA1 x) (dv_Ext x) (dv_rest x).
Definition set_dv_Geo v (x : Device) : Device :=
  mkDevice (dv_IP x) (dv_IPv6 x) v (dv_Lmt x) (dv_DIDMD5 x) (dv_DIDSHA1 x) (dv_DPIDMD5 x) (dv_DPIDSHA1 x)
    (dv_IFA x) (dv_MACMD5 x) (dv_MACSHA1 x) (dv_Ext x) (dv_rest x).
Definition set_dv_DIDMD5 v (x : Device) : Device :=
  mkDevice (dv_IP x) (dv_IPv6 x) (dv_Geo x) (dv_Lmt x) v (dv_DIDSHA1 x) (dv_DPIDMD5 x) (dv_DPIDSHA1 x) (dv_IFA x)
    (dv_MACMD5 x) (dv_MACSHA1 x) (dv_Ext x) (dv_rest x).
Definition set_dv_DIDSHA1 v (x : Device) : Device :=
  mkDevice (dv_IP x) (dv_IPv6 x) (dv_Geo x) (dv_Lmt x) (dv_DIDMD5 x) v (dv_DPIDMD5 x) (dv_DPIDSHA1 x) (dv_IFA x)
    (dv_MACMD5 x) (dv_MACSHA1 x) (dv_Ext x) (dv_rest x).
Definition set_dv_DPIDMD5 v (x : Device) : Device :=
  mkDevice (dv_IP x) (dv_IPv6 x) (dv_Geo x) (dv_Lmt x) (dv_DIDMD5 x) (dv_DIDSHA1 x) v (dv_DPIDSHA1 x) (dv_IFA x)
    (dv_MACMD5 x) (dv_MACSHA1 x) (dv_Ext x) (dv_rest x).
Definition set_dv_DPIDSHA1 v (x : Device) : Device :=
  mkDevice (dv_IP x) (dv_IPv6 x) (dv_Geo x) (dv_Lmt x) (dv_DIDMD5 x) (dv_DIDSHA1 x) (dv_DPIDMD5 x) v (dv_IFA x)
    (dv_MACMD5 x) (dv_MACSHA1 x) (dv_Ext x) (dv_rest x).
Definition set_dv_IFA v (x : Device) : Device :=
  mkDevice (dv_IP x) (dv_IPv6 x) (dv_Geo x) (dv_Lmt x) (dv_DIDMD5 x) (dv_DIDSHA1 x) (dv_DPIDMD5 x) (dv_DPIDSHA1 x)
    v (dv_MACMD5 x) (dv_MACSHA1 x) (dv_Ext x) (dv_rest x).
Definition set_dv_MACMD5 v (x : Device) : Device :=
  mkDevice (dv_IP x) (dv_IPv6 x) (dv_Geo x) (dv_Lmt x) (dv_DIDMD5 x) (dv_DIDSHA1 x) (dv_DPIDMD5 x) (dv_DPIDSHA1 x)
    (dv_IFA x) v (dv_MACSHA1 x) (dv_Ext x) (dv_rest x).
Definition set_dv_MACSHA1 v (x : Device) : Device :=
  mkDevice (dv_IP x) (dv_IPv6 x) (dv_Geo x) (dv_Lmt x) (dv_DIDMD5 x) (dv_DIDSHA1 x) (dv_DPIDMD5 x) (dv_DPIDSHA1 x)
    (dv_IFA x) (dv_MACMD5 x) v (dv_Ext x) (dv_rest x).
Definition set_dv_Ext v (x : Device) : Device :=
  mkDevice (dv_IP x) (dv_IPv6 x) (dv_Geo x) (dv_Lmt x) (dv_DIDMD5 x) (dv_DIDSHA1 x) (dv_DPIDMD5 x) (dv_DPIDSHA1 x)
    (dv_IFA x) (dv_MACMD5 x) (dv_MACSHA1 x) v (dv_rest x).
Definition empty_device : Device := mkDevice "" "" None None "" "" "" "" "" "" "" None "".
Record Regs := mkRegs {
  rg_COPPA : Z;
  rg_GDPR : option Z;
  rg_USPrivacy : string;
  rg_GPP : string;
  rg_GPPSID : option (list Z);
  rg_Ext : option raw;
  rg_rest : string
}.
Definition set_rg_GDPR v (x : Regs) : Regs :=
  mkRegs (rg_COPPA x) v (rg_USPrivacy x) (rg_GPP x) (rg_GPPSID x) (rg_Ext x) (rg_rest x).
Definition set_rg_USPrivacy v (x : Regs) : Regs :=
  mkRegs (rg_COPPA x) (rg_GDPR x) v (rg_GPP x) (rg_GPPSID x) (rg_Ext x) (rg_rest x).
Definition set_rg_Ext v (x : Regs) : Regs :=
  mkRegs (rg_COPPA x) (rg_GDPR x) (rg_USPrivacy x) (rg_GPP x) (rg_GPPSID x) v (rg_rest x).
Definition empty_regs : Regs := mkRegs 0 None "" "" None None "".
Record Source := mkSource {
  sr_TID : string;
  sr_SChain : option SupplyChain;
  sr_Ext : option raw;
  sr_rest : string
}.
Definition set_sr_TID v (x : Source) : Source :=
  mkSource v (sr_SChain x) (sr_Ext x) (sr_rest x).
Definition set_sr_SChain v (x : Source) : Source :=
  mkSource (sr_TID x) v (sr_Ext x) (sr_rest x).
Definition set_sr_Ext v (x : Source) : Source :=
  mkSource (sr_TID x) (sr_SChain x) v (sr_rest x).
Definition empty_source : Source := mkSource "" None None "".
(** A site, an app or a digital out-of-home screen: its extension and the rest. *)
Record Inventory := mkInventory {
  inv_Ext : option raw;
  inv_rest : string
}.
Definition set_inv_Ext v (x : Inventory) : Inventory :=
  mkInventory v (inv_rest x).
Definition empty_inventory : Inventory := mkInventory None "".
Record Imp := mkImp {
  imp_ID : string;
  imp_BidFloor : float64;
  imp_Rwdd : Z;
  imp_Ext : option raw;
  imp_rest : string
}.
Definition set_imp_BidFloor v (x : Imp) : Imp :=
  mkImp (imp_ID x) v (imp_Rwdd x) (imp_Ext x) (imp_rest x).
Definition set_imp_Rwdd v (x : Imp) : Imp :=
  mkImp (imp_ID x) (imp_BidFloor x) v (imp_Ext x) (imp_rest x).
Definition set_imp_Ext v (x : Imp) : Imp :=
  mkImp (imp_ID x) (imp_BidFloor x) (imp_Rwdd x) v (imp_rest x).

Record BidRequest (U : Type) := mkBidRequest {
  br_Imp : list Imp;
  br_User : option U;
  br_Device : option Device;
  br_Regs : option Regs;
  br_Source : option Source;
  br_Site : option Inventory;
  br_App : option Inventory;
  br_DOOH : option Inventory;
  br_Ext : option raw;
  br_rest : string
}.
Arguments br_Imp {U} _.
Arguments br_User {U} _.
Arguments br_Device {U} _.
Arguments br_Regs {U} _.
Arguments br_Source {U} _.
Arguments br_Site {U} _.
Arguments br_App {U} _.
Arguments br_DOOH {U} _.
Arguments br_Ext {U} _.
Arguments br_rest {U} _.
Definition set_br_Imp v {U} (x : BidRequest U) : BidRequest U :=
  mkBidRequest _ v (br_User x) (br_Device x) (br_Regs x) (br_Source x) (br_Site x) (br_App x) (br_DOOH x) (br_Ext x)
    (br_rest x).
Definition set_br_Device v {U} (x : BidRequest U) : BidRequest U :=
  mkBidRequest _ (br_Imp x) (br_User x) v (br_Regs x) (br_Source x) (br_Site x) (br_App x) (br_DOOH x) (br_Ext x)
    (br_rest x).
Definition set_br_Regs v {U} (x : BidRequest U) : BidRequest U :=
  mkBidRequest _ (br_Imp x) (br_User x) (br_Device x) v (br_Source x) (br_Site x) (br_App x) (br_DOOH x) (br_Ext x)
    (br_rest x).
Definition set_br_Source v {U} (x : BidRequest U) : BidRequest U :=
  mkBidRequest _ (br_Imp x) (br_User x) (br_Device x) (br_Regs x) v (br_Site x) (br_App x) (br_DOOH x) (br_Ext x)
    (br_rest x).
Definition set_br_Site v {U} (x : BidRequest U) : BidRequest U :=
  mkBidRequest _ (br_Imp x) (br_User x) (br_Device x) (br_Regs x) (br_Source x) v (br_App x) (br_DOOH x) (br_Ext x)
    (br_rest x).
Definition set_br_App v {U} (x : BidRequest U) : BidRequest U :=
  mkBidRequest _ (br_Imp x) (br_User x) (br_Device x) (br_Regs x) (br_Source x) (br_Site x) v (br_DOOH x) (br_Ext x)
    (br_rest x).
Definition set_br_DOOH v {U} (x : BidRequest U) : BidRequest U :=
  mkBidRequest _ (br_Imp x) (br_User x) (br_Device x) (br_Regs x) (br_Source x) (br_Site x) (br_App x) v (br_Ext x)
    (br_rest x).
Definition set_br_Ext v {U} (x : BidRequest U) : BidRequest U :=
  mkBidRequest _ (br_Imp x) (br_User x) (br_Device x) (br_Regs x) (br_Source x) (br_Site x) (br_App x) (br_DOOH x) v
    (br_rest x).
Definition set_br_User {U V} (v : option V) (x : BidRequest U) : BidRequest V :=
  mkBidRequest _ (br_Imp x) v (br_Device x) (br_Regs x) (br_Source x) (br_Site x) (br_App x) (br_DOOH x)
    (br_Ext x) (br_rest x).

(** An impression with its decoded extension. *)
Record ImpWrapper := mkImpWrapper { iw_Imp : Imp; iw_impExt : option ImpExt }.

(** [rw_impWrappers] is [None] while the wrappers of the impressions have not been accessed. *)
Record RequestWrapper := mkRequestWrapper {
  rw_BidRequest : BidRequest User;
  rw_impWrappers : option (list ImpWrapper);
  rw_userExt : option UserExt;
  rw_deviceExt : option DeviceExt;
  rw_requestExt : option RequestExt;
  rw_appExt : option AppExt;
  rw_regExt : option RegExt;
  rw_siteExt : option SiteExt;
  rw_doohExt : option DOOHExt;
  rw_sourceExt : option SourceExt
}.
Definition set_rw_BidRequest v (x : RequestWrapper) : RequestWrapper :=
  mkRequestWrapper v (rw_impWrappers x) (rw_userExt x) (rw_deviceExt x) (rw_requestExt x) (rw_appExt x)
    (rw_regExt x) (rw_siteExt x) (rw_doohExt x) (rw_sourceExt x).
Definition set_rw_impWrappers v (x : RequestWrapper) : RequestWrapper :=
  mkRequestWrapper (rw_BidRequest x) v (rw_userExt x) (rw_deviceExt x) (rw_requestExt x) (rw_appExt x)
    (rw_regExt x) (rw_siteExt x) (rw_doohExt x) (rw_sourceExt x).
Definition set_rw_userExt v (x : RequestWrapper) : RequestWrapper :=
  mkRequestWrapper (rw_BidRequest x) (rw_impWrappers x) v (rw_deviceExt x) (rw_requestExt x) (rw_appExt x)
    (rw_regExt x) (rw_siteExt x) (rw_doohExt x) (rw_sourceExt x).
Definition set_rw_deviceExt v (x : RequestWrapper) : RequestWrapper :=
  mkRequestWrapper (rw_BidRequest x) (rw_impWrappers x) (rw_userExt x) v (rw_requestExt x) (rw_appExt x)
    (rw_regExt x) (rw_siteExt x) (rw_doohExt x) (rw_sourceExt x).
Definition set_rw_requestExt v (x : RequestWrapper) : RequestWrapper :=
  mkRequestWrapper (rw_BidRequest x) (rw_impWrappers x) (rw_userExt x) (rw_deviceExt x) v (rw_appExt x)
    (rw_regExt x) (rw_siteExt x) (rw_doohExt x) (rw_sourceExt x).
Definition set_rw_appExt v (x : RequestWrapper) : RequestWrapper :=
  mkRequestWrapper (rw_BidRequest x) (rw_impWrappers x) (rw_userExt x) (rw_deviceExt x) (rw_requestExt x) v
    (rw_regExt x) (rw_siteExt x) (rw_doohExt x) (rw_sourceExt x).
Definition set_rw_regExt v (x : RequestWrapper) : RequestWrapper :=
  mkRequestWrapper (rw_BidRequest x) (rw_impWrappers x) (rw_userExt x) (rw_deviceExt x) (rw_requestExt x)
    (rw_appExt x) v (rw_siteExt x) (rw_doohExt x) (rw_sourceExt x).
Definition set_rw_siteExt v (x : RequestWrapper) : RequestWrapper :=
  mkRequestWrapper (rw_BidRequest x) (rw_impWrappers x) (rw_userExt x) (rw_deviceExt x) (rw_requestExt x)
    (rw_appExt x) (rw_regExt x) v (rw_doohExt x) (rw_sourceExt x).
Definition set_rw_doohExt v (x : RequestWrapper) : RequestWrapper :=
  mkRequestWrapper (rw_BidRequest x) (rw_impWrappers x) (rw_userExt x) (rw_deviceExt x) (rw_requestExt x)
    (rw_appExt x) (rw_regExt x) (rw_siteExt x) v (rw_sourceExt x).
Definition set_rw_sourceExt v (x : RequestWrapper) : RequestWrapper :=
  mkRequestWrapper (rw_BidRequest x) (rw_impWrappers x) (rw_userExt x) (rw_deviceExt x) (rw_requestExt x)
    (rw_appExt x) (rw_regExt x) (rw_siteExt x) (rw_doohExt x) v.

(** ** Getters *)
Definition GetUserExt (rw : RequestWrapper) : result unit (UserExt * RequestWrapper) :=
  match rw_userExt rw with
  | Some e => Ok (e, rw)
  | None =>
      match UserExt_unmarshal (br_User (rw_BidRequest rw) ≫= us_Ext) with
      | Some e => Ok (e, set_rw_userExt (Some e) rw)
      | None => Err tt
      end
  end.
Definition GetDeviceExt (rw : RequestWrapper) : result unit (DeviceExt * RequestWrapper) :=
  match rw_deviceExt rw with
  | Some e => Ok (e, rw)
  | None =>
      match DeviceExt_unmarshal (br_Device (rw_BidRequest rw) ≫= dv_Ext) with
      | Some e => Ok (e, set_rw_deviceExt (Some e) rw)
      | None => Err tt
      end
  end.
Definition GetRequestExt (rw : RequestWrapper) : result unit (RequestExt * RequestWrapper) :=
  match rw_requestExt rw with
  | Some e => Ok (e, rw)
  | None =>
      match RequestExt_unmarshal (br_Ext (rw_BidRequest rw)) with
      | Some e => Ok (e, set_rw_requestExt (Some e) rw)
      | None => Err tt
      end
  end.
Definition GetAppExt (rw : RequestWrapper) : result unit (AppExt * RequestWrapper) :=
  match rw_appExt rw with
  | Some e => Ok (e, rw)
  | None =>
      match AppExt_unmarshal (br_App (rw_BidRequest rw) ≫= inv_Ext) with
      | Some e => Ok (e, set_rw_appExt (Some e) rw)
      | None => Err tt
      end
  end.
Definition GetRegExt (rw : RequestWrapper) : result unit (RegExt * RequestWrapper) :=
  match rw_regExt rw with
  | Some e => Ok (e, rw)
  | None =>
      match RegExt_unmarshal (br_Regs (rw_BidRequest rw) ≫= rg_Ext) with
      | Some e => Ok (e, set_rw_regExt (Some e) rw)
      | None => Err tt
      end
  end.
Definition GetSiteExt (rw : RequestWrapper) : result unit (SiteExt * RequestWrapper) :=
  match rw_siteExt rw with
  | Some e => Ok (e, rw)
  | None =>
      match SiteExt_unmarshal (br_Site (rw_BidRequest rw) ≫= inv_Ext) with
      | Some e => Ok (e, set_rw_siteExt (Some e) rw)
      | None => Err tt
      end
  end.
Definition GetDOOHExt (rw : RequestWrapper) : result unit (DOOHExt * RequestWrapper) :=
  match rw_doohExt rw with
  | Some e => Ok (e, rw)
  | None =>
      match DOOHExt_unmarshal (br_DOOH (rw_BidRequest rw) ≫= inv_Ext) with
      | Some e => Ok (e, set_rw_doohExt (Some e) rw)
      | None => Err tt
      end
  end.
Definition GetSourceExt (rw : RequestWrapper) : result unit (SourceExt * RequestWrapper) :=
  match rw_sourceExt rw with
  | Some e => Ok (e, rw)
  | None =>
      match SourceExt_unmarshal (br_Source (rw_BidRequest rw) ≫= sr_Ext) with
      | Some e => Ok (e, set_rw_sourceExt (Some e) rw)
      | None => Err tt
      end
  end.
Definition GetImpExt (w : ImpWrapper) : result unit (ImpExt * ImpWrapper) :=
  match iw_impExt w with
  | Some e => Ok (e, w)
  | None =>
      match ImpExt_unmarshal (imp_Ext (iw_Imp w)) with
      | Some e => Ok (e, mkImpWrapper (iw_Imp w) (Some e))
      | None => Err tt
      end
  end.
Definition GetImp (rw : RequestWrapper) : list ImpWrapper * RequestWrapper :=
  match rw_impWrappers rw with
  | Some l => (l, rw)
  | None => let l := (λ i, mkImpWrapper i None) <$> br_Imp (rw_BidRequest rw) in (l, set_rw_impWrappers (Some l) rw)
  end.
Definition SetImp (imps : list ImpWrapper) (rw : RequestWrapper) : RequestWrapper :=
  set_rw_impWrappers (Some imps) (set_rw_BidRequest (set_br_Imp (iw_Imp <$> imps) (rw_BidRequest rw)) rw).

(** ** Rebuilding *)
Definition RebuildImp (w : ImpWrapper) : option ImpWrapper :=
  match iw_impExt w with
  | Some e =>
      if ImpExt_Dirty e then '(out, e) ← ImpExt_marshal e; Some (mkImpWrapper (set_imp_Ext out (iw_Imp w)) (Some e))
      else Some w
  | None => Some w
  end.
Definition rebuildImp (rw : RequestWrapper) : option RequestWrapper :=
  match rw_impWrappers rw with
  | None => Some rw
  | Some l => l ← mapM RebuildImp l; Some (SetImp l rw)
  end.
(** The printed extension goes into the object, which is created for it when it is nil. *)
Definition store_ext {O} (set : option raw → O → O) (empty : O) (out : option raw) (o : option O) : option O :=
  match o, out with
  | Some x, _ => Some (set out x)
  | None, Some _ => Some (set out empty)
  | None, None => None
  end.
Definition rebuildUserExt (rw : RequestWrapper) : option RequestWrapper :=
  match rw_userExt rw with
  | Some e =>
      if UserExt_Dirty e then
        '(out, e) ← UserExt_marshal e;
        let obj := store_ext set_us_Ext empty_user out (br_User (rw_BidRequest rw)) in
        let br := set_br_User obj (rw_BidRequest rw) in
        Some (set_rw_userExt (Some e) (set_rw_BidRequest br rw))
      else Some rw
  | None => Some rw
  end.
Definition rebuildDeviceExt (rw : RequestWrapper) : option RequestWrapper :=
  match rw_deviceExt rw with
  | Some e =>
      if DeviceExt_Dirty e then
        '(out, e) ← DeviceExt_marshal e;
        let device := store_ext set_dv_Ext empty_device out (br_Device (rw_BidRequest rw)) in
        let br := set_br_Device device (rw_BidRequest rw) in
        Some (set_rw_deviceExt (Some e) (set_rw_BidRequest br rw))
      else Some rw
  | None => Some rw
  end.
Definition rebuildRequestExt (rw : RequestWrapper) : option RequestWrapper :=
  match rw_requestExt rw with
  | Some e =>
      if RequestExt_Dirty e then
        '(out, e) ← RequestExt_marshal e;
        let br := set_br_Ext out (rw_BidRequest rw) in
        Some (set_rw_requestExt (Some e) (set_rw_BidRequest br rw))
      else Some rw
  | None => Some rw
  end.
Definition rebuildAppExt (rw : RequestWrapper) : option RequestWrapper :=
  match rw_appExt rw with
  | Some e =>
      if AppExt_Dirty e then
        '(out, e) ← AppExt_marshal e;
        let obj := store_ext set_inv_Ext empty_inventory out (br_App (rw_BidRequest rw)) in
        let br := set_br_App obj (rw_BidRequest rw) in
        Some (set_rw_appExt (Some e) (set_rw_BidRequest br rw))
      else Some rw
  | None => Some rw
  end.
Definition rebuildRegExt (rw : RequestWrapper) : option RequestWrapper :=
  match rw_regExt rw with
  | Some e =>
      if RegExt_Dirty e then
        '(out, e) ← RegExt_marshal e;
        let obj := store_ext set_rg_Ext empty_regs out (br_Regs (rw_BidRequest rw)) in
        let br := set_br_Regs obj (rw_BidRequest rw) in
        Some (set_rw_regExt (Some e) (set_rw_BidRequest br rw))
      else Some rw
  | None => Some rw
  end.
Definition rebuildSiteExt (rw : RequestWrapper) : option RequestWrapper :=
  match rw_siteExt rw with
  | Some e =>
      if SiteExt_Dirty e then
        '(out, e) ← SiteExt_marshal e;
        let obj := store_ext set_inv_Ext empty_inventory out (br_Site (rw_BidRequest rw)) in
        let br := set_br_Site obj (rw_BidRequest rw) in
        Some (set_rw_siteExt (Some e) (set_rw_BidRequest br rw))
      else Some rw
  | None => Some rw
  end.
Definition rebuildDOOHExt (rw : RequestWrapper) : option RequestWrapper :=
  match rw_doohExt rw with
  | Some e =>
      if DOOHExt_Dirty e then
        '(out, e) ← DOOHExt_marshal e;
        let obj := store_ext set_inv_Ext empty_inventory out (br_DOOH (rw_BidRequest rw)) in
        let br := set_br_DOOH obj (rw_BidRequest rw) in
        Some (set_rw_doohExt (Some e) (set_rw_BidRequest br rw))
      else Some rw
  | None => Some rw
  end.
Definition rebuildSourceExt (rw : RequestWrapper) : option RequestWrapper :=
  match rw_sourceExt rw with
  | Some e =>
      if SourceExt_Dirty e then
        '(out, e) ← SourceExt_marshal e;
        let obj := store_ext set_sr_Ext empty_source out (br_Source (rw_BidRequest rw)) in
        let br := set_br_Source obj (rw_BidRequest rw) in
        Some (set_rw_sourceExt (Some e) (set_rw_BidRequest br rw))
      else Some rw
  | None => Some rw
  end.
Definition RebuildRequest (rw : RequestWrapper) : option RequestWrapper :=
  rw ← rebuildImp rw; rw ← rebuildUserExt rw; rw ← rebuildDeviceExt rw; rw ← rebuildRequestExt rw;
  rw ← rebuildAppExt rw;
  rw ← rebuildRegExt rw; rw ← rebuildSiteExt rw; rw ← rebuildDOOHExt rw; rebuildSourceExt rw.

(** A copy whose impressions have no wrappers yet.  Extension objects are copied, and values here
    are copies by nature. *)
Definition CloneAndClearImpWrappers (rw : RequestWrapper) : RequestWrapper := set_rw_impWrappers None rw.

(** A wrapper around a request. *)
Definition wrap_request (br : BidRequest User) : RequestWrapper :=
  mkRequestWrapper br None None None None None None None None None.
End request.
Arguments BidRequest {J} U.
Arguments mkBidRequest {J U}.
Arguments br_Imp {J U} _.
Arguments br_User {J U} _.
Arguments br_Device {J U} _.
Arguments br_Regs {J U} _.
Arguments br_Source {J U} _.
Arguments br_Site {J U} _.
Arguments br_App {J U} _.
Arguments br_DOOH {J U} _.
Arguments br_Ext {J U} _.
Arguments br_rest {J U} _.
