(* ===== verification/OrtbConvert.v ===== *)
(** * OpenRTB versions: src/openrtb_ext/convert_up.go and convert_down.go

    Requests are normalised to OpenRTB 2.6 when they arrive and converted down to 2.5 for the
    bidders that do not take 2.6: six signals move between fields of the request and members of
    its extensions.  [ConvertUpTo26] panics ([None]) where it would write into an object that is
    nil although its extension has the member. *)
From S2P Require Import Prelude GoFloat ExtWrapper RequestWrapper.

Section convert.
  Context {J : Json}.
  Implicit Types rw : RequestWrapper.

(** Updates of the request inside the wrapper. *)
Definition upd_User (f : User → User) rw : RequestWrapper :=
  set_rw_BidRequest (set_br_User (f <$> br_User (rw_BidRequest rw)) (rw_BidRequest rw)) rw.
Definition upd_Regs (f : Regs → Regs) rw : RequestWrapper :=
  set_rw_BidRequest (set_br_Regs (f <$> br_Regs (rw_BidRequest rw)) (rw_BidRequest rw)) rw.
Definition upd_Source (f : Source → Source) rw : RequestWrapper :=
  set_rw_BidRequest (set_br_Source (f <$> br_Source (rw_BidRequest rw)) (rw_BidRequest rw)) rw.
Definition the_User rw : option User := br_User (rw_BidRequest rw).
Definition the_Regs rw : option Regs := br_Regs (rw_BidRequest rw).
Definition the_Source rw : option Source := br_Source (rw_BidRequest rw).

(** ** Down *)
Definition moveSupplyChainFrom26To25 rw : result unit RequestWrapper :=
  match the_Source rw ≫= sr_SChain with
  | None => Ok rw
  | Some schain26 =>
      let? (e, rw) := GetSourceExt (upd_Source (set_sr_SChain None) rw) in
      Ok (set_rw_sourceExt (Some (SourceExt_SetSChain (Some schain26) e)) rw)
  end.
Definition moveGDPRFrom26To25 rw : result unit RequestWrapper :=
  match the_Regs rw ≫= rg_GDPR with
  | None => Ok rw
  | Some gdpr26 =>
      let? (e, rw) := GetRegExt (upd_Regs (set_rg_GDPR None) rw) in
      Ok (set_rw_regExt (Some (RegExt_SetGDPR (Some gdpr26) e)) rw)
  end.
Definition moveConsentFrom26To25 rw : result unit RequestWrapper :=
  match us_Consent <$> the_User rw with
  | None | Some "" => Ok rw
  | Some consent26 =>
      let? (e, rw) := GetUserExt (upd_User (set_us_Consent "") rw) in
      Ok (set_rw_userExt (Some (UserExt_SetConsent (Some consent26) e)) rw)
  end.
Definition moveUSPrivacyFrom26To25 rw : result unit RequestWrapper :=
  match rg_USPrivacy <$> the_Regs rw with
  | None | Some "" => Ok rw
  | Some usprivacy26 =>
      let? (e, rw) := GetRegExt (upd_Regs (set_rg_USPrivacy "") rw) in
      Ok (set_rw_regExt (Some (RegExt_SetUSPrivacy usprivacy26 e)) rw)
  end.
Definition moveEIDFrom26To25 rw : result unit RequestWrapper :=
  match the_User rw ≫= us_EIDs with
  | None => Ok rw
  | Some eid26 =>
      let? (e, rw) := GetUserExt (upd_User (set_us_EIDs None) rw) in
      Ok (set_rw_userExt (Some (UserExt_SetEid (Some eid26) e)) rw)
  end.
Definition moveRewardedFrom26ToPrebidExt (w : ImpWrapper) : result unit ImpWrapper :=
  let rwdd26 := imp_Rwdd (iw_Imp w) in
  if rwdd26 =? 0 then Ok w
  else
    let? (e, w) := GetImpExt (mkImpWrapper (set_imp_Rwdd 0 (iw_Imp w)) (iw_impExt w)) in
    let prebid := set_ip_IsRewardedInventory (Some rwdd26) (ImpExt_GetOrCreatePrebid e) in
    Ok (mkImpWrapper (iw_Imp w) (Some (ImpExt_SetPrebid (Some prebid) e))).

Fixpoint map_result {A B} (f : A → result unit B) (l : list A) : result unit (list B) :=
  match l with
  | [] => Ok []
  | x :: l => let? y := f x in let? l := map_result f l in Ok (y :: l)
  end.
(** The wrappers of the impressions are changed in place, the impressions behind them too. *)
Definition put_imps (l : list ImpWrapper) rw : RequestWrapper := SetImp l rw.

Definition ConvertDownTo25 rw : result unit RequestWrapper :=
  let? rw := moveSupplyChainFrom26To25 rw in
  let? rw := moveGDPRFrom26To25 rw in
  let? rw := moveConsentFrom26To25 rw in
  let? rw := moveUSPrivacyFrom26To25 rw in
  let? rw := moveEIDFrom26To25 rw in
  let '(imps, rw) := GetImp rw in
  let? imps := map_result moveRewardedFrom26ToPrebidExt imps in
  Ok (put_imps imps rw).

(** ** Up *)
Inductive convert_error := CV_request | CV_source | CV_regs | CV_user | CV_imp (i : nat).

Definition with_error {E F A} (e : F) (r : result E A) : result F A := match r with Ok a => Ok a | Err _ => Err e end.
Fixpoint ensure_imps (i : nat) (l : list ImpWrapper) : result convert_error (list ImpWrapper) :=
  match l with
  | [] => Ok []
  | w :: l =>
      let? (_, w) := with_error (CV_imp i) (GetImpExt w) in
      let? l := ensure_imps (S i) l in
      Ok (w :: l)
  end.
Definition convertUpEnsureExt rw : result convert_error RequestWrapper :=
  let? (_, rw) := with_error CV_request (GetRequestExt rw) in
  let? (_, rw) := with_error CV_source (GetSourceExt rw) in
  let? (_, rw) := with_error CV_regs (GetRegExt rw) in
  let? (_, rw) := with_error CV_user (GetUserExt rw) in
  let '(imps, rw) := GetImp rw in
  let? imps := ensure_imps 0 imps in
  Ok (put_imps imps rw).

(** The moves run with every extension decoded. *)
Definition moveSupplyChainFrom24To25 rw : RequestWrapper :=
  match rw_requestExt rw, rw_sourceExt rw with
  | Some reqExt, Some sourceExt =>
      let schain24 := val (re_schain reqExt) in
      let rw := set_rw_requestExt (Some (RequestExt_SetSChain None reqExt)) rw in
      match val (sre_schain sourceExt) with
      | None => set_rw_sourceExt (Some (SourceExt_SetSChain schain24 sourceExt)) rw
      | Some _ => rw
      end
  | _, _ => rw
  end.
Definition moveSupplyChainFrom25To26 rw : RequestWrapper :=
  match rw_sourceExt rw with
  | Some sourceExt =>
      let schain25 := val (sre_schain sourceExt) in
      let rw := set_rw_sourceExt (Some (SourceExt_SetSChain None sourceExt)) rw in
      match schain25 with
      | Some c =>
          let s := default empty_source (the_Source rw) in
          let s := match sr_SChain s with None => set_sr_SChain (Some c) s | Some _ => s end in
          set_rw_BidRequest (set_br_Source (Some s) (rw_BidRequest rw)) rw
      | None => rw
      end
  | None => rw
  end.
Definition moveGDPRFrom25To26 rw : option RequestWrapper :=
  match rw_regExt rw with
  | Some regsExt =>
      let gdpr25 := val (rge_gdpr regsExt) in
      let rw := set_rw_regExt (Some (RegExt_SetGDPR None regsExt)) rw in
      match gdpr25 with
      | Some g =>
          regs ← the_Regs rw;
          Some match rg_GDPR regs with None => upd_Regs (set_rg_GDPR (Some g)) rw | Some _ => rw end
      | None => Some rw
      end
  | None => Some rw
  end.
Definition moveConsentFrom25To26 rw : option RequestWrapper :=
  match rw_userExt rw with
  | Some userExt =>
      let consent25 := val (ue_consent userExt) in
      let rw := set_rw_userExt (Some (UserExt_SetConsent None userExt)) rw in
      match consent25 with
      | Some c =>
          user ← the_User rw;
          Some (if us_Consent user =s? "" then upd_User (set_us_Consent c) rw else rw)
      | None => Some rw
      end
  | None => Some rw
  end.
Definition moveUSPrivacyFrom25To26 rw : option RequestWrapper :=
  match rw_regExt rw with
  | Some regsExt =>
      let usp25 := val (rge_usPrivacy regsExt) in
      let rw := set_rw_regExt (Some (RegExt_SetUSPrivacy "" regsExt)) rw in
      if usp25 =s? "" then Some rw
      else regs ← the_Regs rw;
           Some (if rg_USPrivacy regs =s? "" then upd_Regs (set_rg_USPrivacy usp25) rw else rw)
  | None => Some rw
  end.
Definition moveEIDFrom25To26 rw : option RequestWrapper :=
  match rw_userExt rw with
  | Some userExt =>
      let eid25 := val (ue_eids userExt) in
      let rw := set_rw_userExt (Some (UserExt_SetEid None userExt)) rw in
      match eid25 with
      | Some l =>
          user ← the_User rw;
          Some match us_EIDs user with None => upd_User (set_us_EIDs (Some l)) rw | Some _ => rw end
      | None => Some rw
      end
  | None => Some rw
  end.
Definition moveRewardedFromPrebidExtTo26 (w : ImpWrapper) : ImpWrapper :=
  match iw_impExt w with
  | Some impExt =>
      match val (ie_prebid impExt) ≫= ip_IsRewardedInventory with
      | Some r =>
          let impExt := ImpExt_SetPrebid (set_ip_IsRewardedInventory None <$> val (ie_prebid impExt)) impExt in
          mkImpWrapper (if imp_Rwdd (iw_Imp w) =? 0 then set_imp_Rwdd r (iw_Imp w) else iw_Imp w) (Some impExt)
      | None => w
      end
  | None => w
  end.

Definition ConvertUpTo26 rw : option (result convert_error RequestWrapper) :=
  match convertUpEnsureExt rw with
  | Err e => Some (Err e)
  | Ok rw =>
      let rw := moveSupplyChainFrom25To26 (moveSupplyChainFrom24To25 rw) in
      rw ← moveGDPRFrom25To26 rw; rw ← moveConsentFrom25To26 rw;
      rw ← moveUSPrivacyFrom25To26 rw; rw ← moveEIDFrom25To26 rw;
      let '(imps, rw) := GetImp rw in
      Some (Ok (put_imps (moveRewardedFromPrebidExtTo26 <$> imps) rw))
  end.

(** ** Requests in 2.6 form *)

(** Every extension is decoded and the older places are empty. *)
Definition normal_imp (w : ImpWrapper) : Prop :=
  ∃ e, iw_impExt w = Some e ∧ val (ie_prebid e) ≫= ip_IsRewardedInventory = None.
Record normal26 rw : Prop := {
  n_user : ∃ e, rw_userExt rw = Some e ∧ val (ue_consent e) = None ∧ val (ue_eids e) = None;
  n_regs : ∃ e, rw_regExt rw = Some e ∧ val (rge_gdpr e) = None ∧ val (rge_usPrivacy e) = "";
  n_source : ∃ e, rw_sourceExt rw = Some e ∧ val (sre_schain e) = None;
  n_request : ∃ e, rw_requestExt rw = Some e ∧ val (re_schain e) = None;
  n_imps : ∃ l, rw_impWrappers rw = Some l ∧ Forall normal_imp l ∧ br_Imp (rw_BidRequest rw) = iw_Imp <$> l
}.

Lemma GetImpExt_loaded w e w' : GetImpExt w = Ok (e, w') → iw_impExt w' = Some e ∧ iw_Imp w' = iw_Imp w.
Proof. unfold GetImpExt. intros H. repeat (case_match; simplify_eq/=); done. Qed.

Lemma ensure_imps_loaded i l l' : ensure_imps i l = Ok l' → Forall (λ w, is_Some (iw_impExt w)) l'.
Proof.
  revert i l'. induction l as [|w l IH]; intros i l' H; simpl in H; [by simplify_eq|].
  destruct (GetImpExt w) as [[e w1]|] eqn:E; simpl in H; [|done]. destruct (ensure_imps (S i) l) as [l1|] eqn:El; simpl in H; [|done].
  injection H as <-. apply GetImpExt_loaded in E as [E _]. constructor; [by exists e|by eapply IH].
Qed.

Lemma ensure_imps_id i l : Forall (λ w, is_Some (iw_impExt w)) l → ensure_imps i l = Ok l.
Proof.
  revert i. induction l as [|w l IH]; intros i Hl; [done|]. apply Forall_cons in Hl as [[e He] Hl]. simpl.
  unfold GetImpExt. rewrite He. simpl. by rewrite IH.
Qed.

Lemma moveRewarded_normal w : is_Some (iw_impExt w) → normal_imp (moveRewardedFromPrebidExtTo26 w).
Proof.
  intros [e He]. unfold moveRewardedFromPrebidExtTo26, normal_imp. rewrite He.
  destruct (val (ie_prebid e)) as [p|] eqn:Ep; simpl; [|exists e; rewrite Ep; done].
  destruct (ip_IsRewardedInventory p) eqn:Er; [by eexists|]. exists e. rewrite Ep. by simpl.
Qed.

(** [GetX] decodes what was not decoded yet and changes nothing else. *)
Lemma GetRequestExt_ok rw e rw' : GetRequestExt rw = Ok (e, rw') → rw' = set_rw_requestExt (Some e) rw.
Proof. unfold GetRequestExt. intros H. destruct rw, rw_requestExt; repeat (case_match; simplify_eq/=); done. Qed.
Lemma GetSourceExt_ok rw e rw' : GetSourceExt rw = Ok (e, rw') → rw' = set_rw_sourceExt (Some e) rw.
Proof. unfold GetSourceExt. intros H. destruct rw, rw_sourceExt; repeat (case_match; simplify_eq/=); done. Qed.
Lemma GetRegExt_ok rw e rw' : GetRegExt rw = Ok (e, rw') → rw' = set_rw_regExt (Some e) rw.
Proof. unfold GetRegExt. intros H. destruct rw, rw_regExt; repeat (case_match; simplify_eq/=); done. Qed.
Lemma GetUserExt_ok rw e rw' : GetUserExt rw = Ok (e, rw') → rw' = set_rw_userExt (Some e) rw.
Proof. unfold GetUserExt. intros H. destruct rw, rw_userExt; repeat (case_match; simplify_eq/=); done. Qed.

Lemma convertUpEnsureExt_loaded rw rw' : convertUpEnsureExt rw = Ok rw' →
  is_Some (rw_requestExt rw') ∧ is_Some (rw_sourceExt rw') ∧ is_Some (rw_regExt rw') ∧ is_Some (rw_userExt rw') ∧
  ∃ l, rw_impWrappers rw' = Some l ∧ Forall (λ w, is_Some (iw_impExt w)) l.
Proof.
  unfold convertUpEnsureExt. intros H.
  destruct (GetRequestExt rw) as [[e1 rw1]|] eqn:E1; simpl in H; [|done]. apply GetRequestExt_ok in E1.
  destruct (GetSourceExt rw1) as [[e2 rw2]|] eqn:E2; simpl in H; [|done]. apply GetSourceExt_ok in E2.
  destruct (GetRegExt rw2) as [[e3 rw3]|] eqn:E3; simpl in H; [|done]. apply GetRegExt_ok in E3.
  destruct (GetUserExt rw3) as [[e4 rw4]|] eqn:E4; simpl in H; [|done]. apply GetUserExt_ok in E4.
  destruct (GetImp rw4) as [l rw5] eqn:E5. destruct (ensure_imps 0 l) as [l'|] eqn:E6; simpl in H; [|done].
  assert (∃ v, rw5 = set_rw_impWrappers v rw4) as [v Hv].
  { unfold GetImp in E5. destruct rw4, rw_impWrappers; simplify_eq/=; by eexists. }
  subst. injection H as <-. simpl. split_and!; [done..|]. exists l'. split; [done|]. by eapply ensure_imps_loaded.
Qed.

(** What a move leaves alone. *)
Definition same_imps rw rw' : Prop :=
  rw_impWrappers rw' = rw_impWrappers rw ∧ br_Imp (rw_BidRequest rw') = br_Imp (rw_BidRequest rw).

Lemma schain24_spec rw re sre : rw_requestExt rw = Some re → rw_sourceExt rw = Some sre →
  let rw' := moveSupplyChainFrom24To25 rw in
  rw_requestExt rw' = Some (RequestExt_SetSChain None re) ∧ is_Some (rw_sourceExt rw') ∧ rw_regExt rw' = rw_regExt rw ∧
  rw_userExt rw' = rw_userExt rw ∧ same_imps rw rw'.
Proof.
  unfold moveSupplyChainFrom24To25. intros Hre Hsre. rewrite Hre, Hsre. destruct (val (sre_schain sre)); simpl; [|done].
  split_and!; done.
Qed.

Lemma schain25_spec rw sre : rw_sourceExt rw = Some sre →
  let rw' := moveSupplyChainFrom25To26 rw in
  rw_sourceExt rw' = Some (SourceExt_SetSChain None sre) ∧ rw_requestExt rw' = rw_requestExt rw ∧
  rw_regExt rw' = rw_regExt rw ∧ rw_userExt rw' = rw_userExt rw ∧ same_imps rw rw'.
Proof. unfold moveSupplyChainFrom25To26. intros Hsre. rewrite Hsre. by destruct (val (sre_schain sre)). Qed.

Lemma gdpr25_spec rw rge rw' : rw_regExt rw = Some rge → moveGDPRFrom25To26 rw = Some rw' →
  rw_regExt rw' = Some (RegExt_SetGDPR None rge) ∧ rw_requestExt rw' = rw_requestExt rw ∧
  rw_sourceExt rw' = rw_sourceExt rw ∧ rw_userExt rw' = rw_userExt rw ∧ same_imps rw rw'.
Proof.
  unfold moveGDPRFrom25To26. intros -> H. destruct (val _); [|by simplify_eq]. simpl in H.
  destruct (the_Regs _) as [r|]; [|done]. simpl in H. destruct (rg_GDPR r); by simplify_eq.
Qed.

Lemma usp25_spec rw rge rw' : rw_regExt rw = Some rge → moveUSPrivacyFrom25To26 rw = Some rw' →
  rw_regExt rw' = Some (RegExt_SetUSPrivacy "" rge) ∧ rw_requestExt rw' = rw_requestExt rw ∧
  rw_sourceExt rw' = rw_sourceExt rw ∧ rw_userExt rw' = rw_userExt rw ∧ same_imps rw rw'.
Proof.
  unfold moveUSPrivacyFrom25To26. intros -> H. destruct (_ =s? ""); [by simplify_eq|]. simpl in H.
  destruct (the_Regs _) as [r|]; [|done]. simpl in H. destruct (rg_USPrivacy r =s? ""); by simplify_eq.
Qed.

Lemma consent25_spec rw ue rw' : rw_userExt rw = Some ue → moveConsentFrom25To26 rw = Some rw' →
  rw_userExt rw' = Some (UserExt_SetConsent None ue) ∧ rw_requestExt rw' = rw_requestExt rw ∧
  rw_sourceExt rw' = rw_sourceExt rw ∧ rw_regExt rw' = rw_regExt rw ∧ same_imps rw rw'.
Proof.
  unfold moveConsentFrom25To26. intros -> H. destruct (val _); [|by simplify_eq]. simpl in H.
  destruct (the_User _) as [r|]; [|done]. simpl in H. destruct (us_Consent r =s? ""); by simplify_eq.
Qed.

Lemma eid25_spec rw ue rw' : rw_userExt rw = Some ue → moveEIDFrom25To26 rw = Some rw' →
  rw_userExt rw' = Some (UserExt_SetEid None ue) ∧ rw_requestExt rw' = rw_requestExt rw ∧
  rw_sourceExt rw' = rw_sourceExt rw ∧ rw_regExt rw' = rw_regExt rw ∧ same_imps rw rw'.
Proof.
  unfold moveEIDFrom25To26. intros -> H. destruct (val _); [|by simplify_eq]. simpl in H.
  destruct (the_User _) as [r|]; [|done]. simpl in H. destruct (us_EIDs r); by simplify_eq.
Qed.

Lemma ConvertUpTo26_normal rw rw' : ConvertUpTo26 rw = Some (Ok rw') → normal26 rw'.
Proof.
  unfold ConvertUpTo26. destruct (convertUpEnsureExt rw) as [rw1|] eqn:E; [|done].
  apply convertUpEnsureExt_loaded in E as ([re Hre] & [sre Hsre] & [rge Hrge] & [ue Hue] & l & Hl & Hload). intros H.
  destruct (schain24_spec _ _ _ Hre Hsre) as (A1 & [sre' A2] & A3 & A4 & A5 & _).
  destruct (schain25_spec _ _ A2) as (B1 & B2 & B3 & B4 & B5 & _).
  set (rw2 := moveSupplyChainFrom25To26 _) in *.
  destruct (moveGDPRFrom25To26 rw2) as [rw3|] eqn:E3; [|done]. cbn [mbind option_bind] in H.
  destruct (gdpr25_spec rw2 rge rw3 ltac:(congruence) E3) as (C1 & C2 & C3 & C4 & C5 & _).
  destruct (moveConsentFrom25To26 rw3) as [rw4|] eqn:E4; [|done]. cbn [mbind option_bind] in H.
  destruct (consent25_spec rw3 ue rw4 ltac:(congruence) E4) as (D1 & D2 & D3 & D4 & D5 & _).
  destruct (moveUSPrivacyFrom25To26 rw4) as [rw5|] eqn:E5; [|done]. cbn [mbind option_bind] in H.
  destruct (usp25_spec rw4 _ rw5 ltac:(etrans; [exact D4|exact C1]) E5) as (F1 & F2 & F3 & F4 & F5 & _).
  destruct (moveEIDFrom25To26 rw5) as [rw6|] eqn:E6; [|done]. cbn [mbind option_bind] in H.
  destruct (eid25_spec rw5 _ rw6 ltac:(etrans; [exact F4|exact D1]) E6) as (G1 & G2 & G3 & G4 & G5 & _).
  assert (rw_impWrappers rw6 = Some l) as Hl6 by congruence. unfold GetImp in H. rewrite Hl6 in H. simplify_eq.
  split; simpl.
  - eexists. split; [exact G1|done].
  - eexists. split; [by rewrite G4|done].
  - eexists. split; [rewrite G3, F3, D3, C3; exact B1|done].
  - eexists. split; [rewrite G2, F2, D2, C2, B2; exact A1|done].
  - eexists. split; [done|]. split; [|done]. apply Forall_fmap. eapply Forall_impl; [exact Hload|]. intros w Hw. by apply moveRewarded_normal.
Qed.

(** ** Down and up again *)
Lemma imp_round_trip w : normal_imp w → ∃ w',
  moveRewardedFrom26ToPrebidExt w = Ok w' ∧ is_Some (iw_impExt w') ∧ imp_Rwdd (iw_Imp w') = 0 ∧
  iw_Imp (moveRewardedFromPrebidExtTo26 w') = iw_Imp w.
Proof.
  intros (e & He & Hn). unfold moveRewardedFrom26ToPrebidExt. destruct (imp_Rwdd (iw_Imp w) =? 0) eqn:Er; go_bool.
  - exists w. split_and!; try done. unfold moveRewardedFromPrebidExtTo26. by rewrite He, Hn.
  - unfold GetImpExt. simpl. rewrite He. simpl. eexists. split; [done|]. split_and!; try done. by destruct w as [[] ?].
Qed.

Lemma imps_round_trip l : Forall normal_imp l → ∃ l',
  map_result moveRewardedFrom26ToPrebidExt l = Ok l' ∧ Forall (λ w, is_Some (iw_impExt w)) l' ∧
  Forall (λ w, imp_Rwdd (iw_Imp w) = 0) l' ∧ iw_Imp <$> (moveRewardedFromPrebidExtTo26 <$> l') = iw_Imp <$> l.
Proof.
  induction 1 as [|w l (w' & Hw & Hload1 & Hz1 & Hb1)%imp_round_trip Hl (l' & Hm & Hload & Hz & Hback)]; [by exists []|].
  exists (w' :: l'). split_and!; [simpl; by rewrite Hw, Hm|by constructor..|]. rewrite !fmap_cons, Hb1. by f_equal.
Qed.

(** The 2.6 places of a request are empty. *)
Record empty26 (br : BidRequest User) : Prop := {
  e_schain : br_Source br ≫= sr_SChain = None;
  e_gdpr : br_Regs br ≫= rg_GDPR = None;
  e_usp : default "" (rg_USPrivacy <$> br_Regs br) = "";
  e_consent : default "" (us_Consent <$> br_User br) = "";
  e_eids : br_User br ≫= us_EIDs = None;
  e_rwdd : Forall (λ i, imp_Rwdd i = 0) (br_Imp br)
}.

Lemma ensure_loaded rw l : is_Some (rw_requestExt rw) → is_Some (rw_sourceExt rw) → is_Some (rw_regExt rw) → is_Some (rw_userExt rw) →
  rw_impWrappers rw = Some l → Forall (λ w, is_Some (iw_impExt w)) l → convertUpEnsureExt rw = Ok (put_imps l rw).
Proof.
  intros [e1 H1] [e2 H2] [e3 H3] [e4 H4] Hl Hload. unfold convertUpEnsureExt, GetRequestExt. rewrite H1. cbn. unfold GetSourceExt. rewrite H2. cbn.
  unfold GetRegExt. rewrite H3. cbn. unfold GetUserExt. rewrite H4. cbn. unfold GetImp. rewrite Hl. by rewrite ensure_imps_id.
Qed.

(** Reduces the field updates. *)
Ltac open_setters := cbv [upd_Source upd_Regs upd_User set_rw_BidRequest set_rw_userExt set_rw_requestExt set_rw_regExt set_rw_sourceExt
  set_rw_impWrappers set_br_Imp set_br_User set_br_Regs set_br_Source RegExt_SetGDPR RegExt_SetUSPrivacy UserExt_SetConsent UserExt_SetEid
  set_rg_GDPR set_rg_USPrivacy set_us_Consent set_us_EIDs]; cbn.

(** One group of moves at a time: the objects and extensions it changes, whatever the others are. *)
Section trips.
  Context (dev : option Device) (site app dooh : option Inventory) (ext : option raw) (rest : string).
  Context (dex : option DeviceExt) (apx : option AppExt) (six : option SiteExt) (dox : option DOOHExt).
  Notation W imps iws u ue r rge s sre re :=
    (mkRequestWrapper (mkBidRequest imps u dev r s site app dooh ext rest) iws (Some ue) dex (Some re) apx (Some rge) six dox (Some sre)).

Ltac run_move := intros; cbn; open_setters;
  repeat first [reflexivity | progress (match goal with H : val _ = _ |- _ => rewrite H end); open_setters].
Ltac run_moves := split_and!; [run_move..].

Lemma schain_trip s sre : val (sre_schain sre) = None → ∃ s1 sre1 sre2,
  (∀ imps iws u ue r rge re, moveSupplyChainFrom26To25 (W imps iws u ue r rge s sre re) = Ok (W imps iws u ue r rge s1 sre1 re)) ∧
  s1 ≫= sr_SChain = None ∧
  (∀ imps iws u ue r rge re, val (re_schain re) = None →
     moveSupplyChainFrom25To26 (moveSupplyChainFrom24To25 (W imps iws u ue r rge s1 sre1 re)) =
       W imps iws u ue r rge s sre2 (RequestExt_SetSChain None re)).
Proof.
  intros Hs. unfold moveSupplyChainFrom26To25, moveSupplyChainFrom25To26, moveSupplyChainFrom24To25, the_Source, GetSourceExt.
  destruct s as [[tid [c|] e r]|]; do 3 eexists; run_moves.
Qed.

Lemma regs_trip r rge : val (rge_gdpr rge) = None → val (rge_usPrivacy rge) = "" → ∃ r1 rge1 r2 rge2 r3 rge3 rge4,
  (∀ imps iws u ue s sre re, moveGDPRFrom26To25 (W imps iws u ue r rge s sre re) = Ok (W imps iws u ue r1 rge1 s sre re)) ∧
  (∀ imps iws u ue s sre re, moveUSPrivacyFrom26To25 (W imps iws u ue r1 rge1 s sre re) = Ok (W imps iws u ue r2 rge2 s sre re)) ∧
  (r2 ≫= rg_GDPR = None ∧ default "" (rg_USPrivacy <$> r2) = "") ∧
  (∀ imps iws u ue s sre re, moveGDPRFrom25To26 (W imps iws u ue r2 rge2 s sre re) = Some (W imps iws u ue r3 rge3 s sre re)) ∧
  (∀ imps iws u ue s sre re, moveUSPrivacyFrom25To26 (W imps iws u ue r3 rge3 s sre re) = Some (W imps iws u ue r rge4 s sre re)).
Proof.
  intros Hg Hu. unfold moveGDPRFrom26To25, moveUSPrivacyFrom26To25, moveGDPRFrom25To26, moveUSPrivacyFrom25To26, the_Regs, GetRegExt.
  destruct r as [[coppa [g|] [|a usp] gpp sids e rr]|]; do 7 eexists; run_moves.
Qed.

Lemma user_trip u ue : val (ue_consent ue) = None → val (ue_eids ue) = None → ∃ u1 ue1 u2 ue2 u3 ue3 ue4,
  (∀ imps iws r rge s sre re, moveConsentFrom26To25 (W imps iws u ue r rge s sre re) = Ok (W imps iws u1 ue1 r rge s sre re)) ∧
  (∀ imps iws r rge s sre re, moveEIDFrom26To25 (W imps iws u1 ue1 r rge s sre re) = Ok (W imps iws u2 ue2 r rge s sre re)) ∧
  (default "" (us_Consent <$> u2) = "" ∧ u2 ≫= us_EIDs = None) ∧
  (∀ imps iws r rge s sre re, moveConsentFrom25To26 (W imps iws u2 ue2 r rge s sre re) = Some (W imps iws u3 ue3 r rge s sre re)) ∧
  (∀ imps iws r rge s sre re, moveEIDFrom25To26 (W imps iws u3 ue3 r rge s sre re) = Some (W imps iws u ue4 r rge s sre re)).
Proof.
  intros Hc He. unfold moveConsentFrom26To25, moveEIDFrom26To25, moveConsentFrom25To26, moveEIDFrom25To26, the_User, GetUserExt.
  destruct u as [[uid buid yob gen kw kwa dat [eids|] geo [|a cons] e ur]|]; do 7 eexists; run_moves.
Qed.
End trips.

(** C29: Converting an arriving request up to 2.6 leaves none of the signals in its older places;
    converting the result down succeeds and leaves none in the newer places; and converting up
    again gives the same request. *)
Theorem down_then_up_restores rw0 rw :
  ConvertUpTo26 rw0 = Some (Ok rw) →
  normal26 rw ∧ ∃ rw1, ConvertDownTo25 rw = Ok rw1 ∧ empty26 (rw_BidRequest rw1) ∧
  ∃ rw2, ConvertUpTo26 rw1 = Some (Ok rw2) ∧ rw_BidRequest rw2 = rw_BidRequest rw.
Proof.
  intros Hn%ConvertUpTo26_normal. split; [done|].
  destruct Hn as [(ue & Hue & Hc & He) (rge & Hrge & Hg & Hu) (sre & Hsre & Hs) (re & Hre & Hrs) (l & Hl & Hnl & Hbl)].
  destruct (imps_round_trip l Hnl) as (l' & Hdown & Hload & Hz & Hup).
  destruct rw as [[imps u dev r src site app dooh ext rest] iws uex dex rqx apx rgx six dox srx]. simpl in *. subst.
  destruct (schain_trip dev site app dooh ext rest dex apx six dox src sre Hs) as (s1 & sre1 & sre2 & S1 & S2 & S3).
  destruct (regs_trip dev site app dooh ext rest dex apx six dox r rge Hg Hu) as (r1 & rge1 & r2 & rge2 & r3 & rge3 & rge4 & R1 & R2 & [R3 R4] & R5 & R6).
  destruct (user_trip dev site app dooh ext rest dex apx six dox u ue Hc He) as (u1 & ue1 & u2 & ue2 & u3 & ue3 & ue4 & U1 & U2 & [U3 U4] & U5 & U6).
  unfold ConvertDownTo25. rewrite S1. cbn. rewrite R1. cbn. rewrite U1. cbn. rewrite R2. cbn. rewrite U2. cbn.
  rewrite Hdown. cbn. eexists. split; [done|]. split; [split; cbn; try done; by apply Forall_fmap|].
  unfold ConvertUpTo26. erewrite ensure_loaded by done. unfold put_imps, SetImp.
  cbv [set_rw_impWrappers set_rw_BidRequest set_br_Imp rw_BidRequest br_User br_Device br_Regs br_Source br_Site br_App br_DOOH br_Ext br_rest
    rw_userExt rw_deviceExt rw_requestExt rw_appExt rw_regExt rw_siteExt rw_doohExt rw_sourceExt].
  rewrite S3 by done. rewrite R5. cbn [mbind option_bind]. rewrite U5. cbn [mbind option_bind]. rewrite R6. cbn [mbind option_bind].
  rewrite U6. cbn. eexists. split; [done|]. cbn. by rewrite Hup.
Qed.
End convert.
Import JsonTree.

(** A request with every signal in its oldest place. *)
Definition sample_eid : EID := {| eid_Source := "pubcid"; eid_UIDs := ["u"]; eid_Inserter := ""; eid_Matcher := ""; eid_MM := 0 |}.
Definition sample_chain : SupplyChain := {| sc_Ver := "1.0"; sc_Complete := 1; sc_Nodes := [{| scn_ASI := "x.com"; scn_SID := "1" |}] |}.
Definition sample_25 : RequestWrapper := wrap_request {|
  br_Imp := [mkImp "i" f0 0 (Some (T_obj [("prebid", T_impPrebid {| ip_IsRewardedInventory := Some 1; ip_rest := "" |})])) ""];
  br_User := Some (set_us_Ext (Some (T_obj [("consent", T_str "tc"); ("eids", T_eids [sample_eid])])) empty_user);
  br_Device := None;
  br_Regs := Some (set_rg_Ext (Some (T_obj [("gdpr", T_int 1); ("us_privacy", T_str "1YYN")])) empty_regs);
  br_Source := None; br_Site := None; br_App := None; br_DOOH := None;
  br_Ext := Some (T_obj [("schain", T_schain sample_chain)]); br_rest := "" |}.

(** What a converted request has in the 2.6 places. *)
Definition signals26 (br : BidRequest User) : option SupplyChain * option Z * string * string * option (list EID) * list Z :=
  (br_Source br ≫= sr_SChain, br_Regs br ≫= rg_GDPR, default "" (rg_USPrivacy <$> br_Regs br), default "" (us_Consent <$> br_User br),
   br_User br ≫= us_EIDs, imp_Rwdd <$> br_Imp br).

Lemma down_then_up_restores_witness : ∃ rw rw1 rw2, ConvertUpTo26 sample_25 = Some (Ok rw) ∧
  signals26 (rw_BidRequest rw) = (Some sample_chain, Some 1, "1YYN", "tc", Some [sample_eid], [1]) ∧
  ConvertDownTo25 rw = Ok rw1 ∧ ConvertUpTo26 rw1 = Some (Ok rw2) ∧ rw_BidRequest rw2 = rw_BidRequest rw.
Proof.
  destruct (ConvertUpTo26 sample_25) as [[rw|]|] eqn:E.
  - assert (match ConvertUpTo26 sample_25 with Some (Ok rw) => signals26 (rw_BidRequest rw) | _ => signals26 (rw_BidRequest sample_25) end =
              (Some sample_chain, Some 1, "1YYN", "tc", Some [sample_eid], [1])) as Hs by (vm_compute; reflexivity).
    rewrite E in Hs. destruct (down_then_up_restores sample_25 rw E) as (_ & rw1 & H1 & _ & rw2 & H2 & H3).
    exists rw, rw1, rw2. split_and!; first [exact Hs|exact H1|exact H2|exact H3|reflexivity].
  - assert (match ConvertUpTo26 sample_25 with Some (Ok _) => true | _ => false end = true) as Hs by (vm_compute; reflexivity).
    rewrite E in Hs. discriminate Hs.
  - assert (match ConvertUpTo26 sample_25 with Some (Ok _) => true | _ => false end = true) as Hs by (vm_compute; reflexivity).
    rewrite E in Hs. discriminate Hs.
Defined.
