(* ===== verification/GoNet.v ===== *)
(** * IP addresses: Go's [net.IP] and src/util/iputil

    An address is the list of its bytes, four or sixteen of them; the nil address is the empty
    list.  [net.ParseIP], [IP.String], [net.CIDRMask], [IP.Mask] and [IPNet.Contains] are the
    standard library's, written out as the code calls them. *)
From S2P Require Import Prelude.

Definition IP := list Z.
Definition is_byte (b : Z) : Prop := 0 ≤ b < 256.
Definition IPv4BitSize : Z := 32.
Definition IPv6BitSize : Z := 128.

(** ** Text *)

(** A decimal field of a dotted address read so far: its value and its number of digits. *)
Definition octet_step (st : Z * nat) (c : ascii) : option (Z * nat) :=
  let '(v, digLen) := st in
  d ← digit c;
  if (digLen =? 1)%nat && (v =? 0) then None   (* a leading zero *)
  else if 255 <? v * 10 + d then None
  else Some (v * 10 + d, S digLen).

(** [parseIPv4Fields]: the fields already complete are in [fs]. *)
Fixpoint parse_fields (s : string) (st : Z * nat) (fs : list Z) : option (list Z) :=
  match s with
  | EmptyString => if (length fs =? 3)%nat then Some (fs ++ [st.1]) else None
  | String c s =>
      if Ascii.eqb c "." then
        (* an empty field, a final point or a fifth field *)
        if (st.2 =? 0)%nat || (s =s? "") || (length fs =? 3)%nat then None
        else parse_fields s (0, 0%nat) (fs ++ [st.1])
      else st ← octet_step st c; parse_fields s st fs
  end.
Definition parseIPv4 (s : string) : option (list Z) := parse_fields s (0, 0%nat) [].

Definition hex_digit (c : ascii) : option Z :=
  let n := Z.of_N (N_of_ascii c) in
  if (48 <=? n) && (n <=? 57) then Some (n - 48)
  else if (97 <=? n) && (n <=? 102) then Some (n - 87)
  else if (65 <=? n) && (n <=? 70) then Some (n - 55)
  else None.
(** The hexadecimal digits at the front, at most four: the value, how many and the rest. *)
Fixpoint hex_group (s : string) (acc : Z) (n : nat) : option (Z * nat * string) :=
  match s with
  | String c s' =>
      match hex_digit c with
      | Some d => if (3 <? n)%nat then None else hex_group s' (acc * 16 + d) (S n)
      | None => Some (acc, n, s)
      end
  | EmptyString => Some (acc, n, "")
  end.

(** The groups of an IPv6 address.  [bs] holds the bytes so far and [ell] where [::] stood. *)
Fixpoint parse_groups (fuel : nat) (s : string) (bs : list Z) (ell : option nat) : option (list Z * option nat * string) :=
  match fuel with
  | O => Some (bs, ell, s)
  | S fuel =>
      '(acc, n, r) ← hex_group s 0 0;
      if (n =? 0)%nat then None
      else match r with
      | String "." _ =>
          if bool_decide (ell = None) && negb (length bs =? 12)%nat then None
          else if (12 <? length bs)%nat then None
          else v4 ← parseIPv4 s; Some (bs ++ v4, ell, "")
      | "" => Some (bs ++ [acc / 256; acc `mod` 256], ell, "")
      | String ":" r =>
          let bs := bs ++ [acc / 256; acc `mod` 256] in
          match r with
          | "" => None
          | String ":" r =>
              if bool_decide (is_Some ell) then None
              else if r =s? "" then Some (bs, Some (length bs), "") else parse_groups fuel r bs (Some (length bs))
          | _ => parse_groups fuel r bs ell
          end
      | _ => None
      end
  end.
(** The zeros [::] stands for. *)
Definition expand_ellipsis (bs : list Z) (ell : option nat) : option (list Z) :=
  if (length bs <? 16)%nat then e ← ell; Some (take e bs ++ replicate (16 - length bs) 0 ++ drop e bs)
  else match ell with Some _ => None | None => Some bs end.
Definition parseIPv6 (s : string) : option (list Z) :=
  match s with
  | String ":" (String ":" "") => Some (replicate 16 0)
  | _ =>
      let '(s, ell) := match s with String ":" (String ":" r) => (r, Some 0%nat) | _ => (s, None) end in
      '(bs, ell, rest) ← parse_groups 8 s [] ell;
      if rest =s? "" then expand_ellipsis bs ell else None
  end.

Definition v4InV6Prefix : list Z := [0; 0; 0; 0; 0; 0; 0; 0; 0; 0; 255; 255].
(** The first of [.], [:] and [%] decides; an address with a zone is refused. *)
Fixpoint addr_kind (s : string) : option bool :=
  match s with
  | EmptyString => None
  | String c s => if Ascii.eqb c "." then Some true else if Ascii.eqb c ":" then Some false else if Ascii.eqb c "%" then None else addr_kind s
  end.
Definition net_ParseIP (s : string) : IP :=
  match addr_kind s with
  | Some true => match parseIPv4 s with Some l => v4InV6Prefix ++ l | None => [] end
  | Some false => if has_char "%" s then [] else default [] (parseIPv6 s)
  | None => []
  end.

Definition dotted (l : list Z) : string := String.concat "." (pretty <$> l).
Definition hex_char (d : Z) : string := String.substring (Z.to_nat d) 1 "0123456789abcdef".
Definition hex16 (n : Z) : string :=
  (if 4096 <=? n then hex_char (n / 4096) else "") +:+ (if 256 <=? n then hex_char ((n / 256) `mod` 16) else "") +:+
  (if 16 <=? n then hex_char ((n / 16) `mod` 16) else "") +:+ hex_char (n `mod` 16).
Fixpoint words16 (l : list Z) : list Z :=
  match l with a :: b :: l => a * 256 + b :: words16 l | _ => [] end.
Fixpoint zero_run (l : list Z) : nat := match l with 0 :: l => S (zero_run l) | _ => 0%nat end.
(** The first of the longest runs of at least two zero words: where it starts and how long it is. *)
Fixpoint longest_zeros (i : nat) (l : list Z) (best : nat * nat) : nat * nat :=
  match l with
  | [] => best
  | _ :: l' =>
      let n := zero_run l in
      longest_zeros (S i) l' (if (2 <=? n)%nat && (best.2 <? n)%nat then (i, n) else best)
  end.
Definition string6 (ws : list Z) : string :=
  let '(start, n) := longest_zeros 0 ws (0%nat, 0%nat) in
  let show ws := String.concat ":" (hex16 <$> ws) in
  if (n =? 0)%nat then show ws else show (take start ws) +:+ "::" +:+ show (drop (start + n) ws).
(** [IP.To4] *)
Definition To4 (ip : IP) : option (list Z) :=
  if (length ip =? 4)%nat then Some ip
  else if (length ip =? 16)%nat && bool_decide (take 12 ip = v4InV6Prefix) then Some (drop 12 ip)
  else None.
Definition IP_String (ip : IP) : string :=
  match ip with
  | [] => "<nil>"
  | _ => match To4 ip with Some l => dotted l | None => string6 (words16 ip) end
  end.

(** ** Masks *)
Fixpoint mask_bytes (len : nat) (n : Z) : list Z :=
  match len with
  | O => []
  | S len => if 8 <=? n then 255 :: mask_bytes len (n - 8) else 255 - Z.shiftr 255 n :: mask_bytes len 0
  end.
Definition CIDRMask (ones bits : Z) : list Z :=
  if negb ((bits =? 32) || (bits =? 128)) then []
  else if (ones <? 0) || (bits <? ones) then []
  else mask_bytes (Z.to_nat (bits / 8)) ones.
Definition IP_Mask (ip : IP) (mask : list Z) : IP :=
  let mask := if (length mask =? 16)%nat && (length ip =? 4)%nat && bool_decide (take 12 mask = replicate 12 255) then drop 12 mask else mask in
  let ip := if (length mask =? 4)%nat && (length ip =? 16)%nat && bool_decide (take 12 ip = v4InV6Prefix) then drop 12 ip else ip in
  if (length ip =? length mask)%nat then zip_with Z.land ip mask else [].

(** ** src/util/iputil *)
Inductive IPVersion := IPvUnknown | IPv4 | IPv6.
#[export] Instance IPVersion_eq_dec : EqDecision IPVersion.
Proof. solve_decision. Defined.
Definition ParseIP (v : string) : IP * IPVersion :=
  match net_ParseIP v with
  | [] => ([], IPvUnknown)
  | ip => (ip, if has_char ":" v then IPv6 else IPv4)
  end.
Record IPNet := mkIPNet { net_IP : IP; net_Mask : list Z }.
(** [networkNumberAndMask] and [IPNet.Contains]. *)
Definition network_number (n : IPNet) : option (list Z * list Z) :=
  let ip := match To4 (net_IP n) with Some l => Some l | None => if (length (net_IP n) =? 16)%nat then Some (net_IP n) else None end in
  ip ← ip;
  match length (net_Mask n), length ip with
  | 4%nat, 4%nat | 16%nat, 16%nat => Some (ip, net_Mask n)
  | 16%nat, 4%nat => Some (ip, drop 12 (net_Mask n))
  | _, _ => None
  end.
Definition Contains (n : IPNet) (ip : IP) : bool :=
  match network_number n with
  | Some (nn, m) =>
      let x := default ip (To4 ip) in
      (length x =? length nn)%nat && bool_decide (zip_with Z.land nn m = zip_with Z.land x m)
  | None => let x := default ip (To4 ip) in (length x =? 0)%nat
  end.
Record PublicNetworkIPValidator := { IPv4PrivateNetworks : list IPNet; IPv6PrivateNetworks : list IPNet }.
Definition Public_IsValid (v : PublicNetworkIPValidator) (ip : IP) (ver : IPVersion) : bool :=
  match ver with
  | IPv4 => forallb (λ n, negb (Contains n ip)) (IPv4PrivateNetworks v)
  | IPv6 => forallb (λ n, negb (Contains n ip)) (IPv6PrivateNetworks v)
  | IPvUnknown => false
  end.
Definition Version_IsValid (version : IPVersion) (ip : IP) (ver : IPVersion) : bool := bool_decide (ver = version).

(** ** Lemmas *)

(** The number an address stands for. *)
Definition be_value (l : list Z) : Z := foldl (λ acc b, acc * 256 + b) 0 l.

Lemma be_value_foldl l acc : foldl (λ acc b, acc * 256 + b) acc l = acc * 2 ^ (8 * Z.of_nat (length l)) + be_value l.
Proof.
  unfold be_value. revert acc. induction l as [|b l IH]; intros acc; simpl; [lia|].
  rewrite IH, (IH (0 * 256 + b)). replace (8 * Z.of_nat (S (length l))) with (8 + 8 * Z.of_nat (length l)) by lia. rewrite Z.pow_add_r by lia. lia.
Qed.

Lemma be_value_cons b l : be_value (b :: l) = b * 2 ^ (8 * Z.of_nat (length l)) + be_value l.
Proof. unfold be_value at 1. simpl. by rewrite be_value_foldl. Qed.

Lemma be_value_range l : Forall is_byte l → 0 ≤ be_value l < 2 ^ (8 * Z.of_nat (length l)).
Proof.
  induction 1 as [|b l Hb Hl IH]; [done|]. rewrite be_value_cons. unfold is_byte in Hb. simpl length.
  replace (8 * Z.of_nat (S (length l))) with (8 + 8 * Z.of_nat (length l)) by lia. rewrite Z.pow_add_r by lia. nia.
Qed.

Lemma mask_bytes_length len n : length (mask_bytes len n) = len.
Proof. revert n. induction len as [|len IH]; intros n; simpl; [done|]. by destruct (8 <=? n); simpl; rewrite IH. Qed.

(** A byte under a partial mask. *)
Lemma land_partial b n : is_byte b → 0 ≤ n < 8 → Z.land b (255 - Z.shiftr 255 n) = b / 2 ^ (8 - n) * 2 ^ (8 - n).
Proof.
  intros Hb Hn.
  assert (Forall (λ n, Forall (λ b, Z.land b (255 - Z.shiftr 255 n) = b / 2 ^ (8 - n) * 2 ^ (8 - n)) (Z.of_nat <$> seq 0 256))
            (Z.of_nat <$> seq 0 8)) as Hall by (apply (bool_decide_unpack _); by vm_compute).
  rewrite Forall_forall in Hall. specialize (Hall n). rewrite Forall_forall in Hall. apply Hall.
  - apply list_elem_of_fmap. exists (Z.to_nat n). split; [lia|]. apply elem_of_seq. lia.
  - apply list_elem_of_fmap. exists (Z.to_nat b). split; [unfold is_byte in Hb; lia|]. apply elem_of_seq. unfold is_byte in Hb. lia.
Qed.

Lemma mask_value l k : Forall is_byte l → 0 ≤ k ≤ 8 * Z.of_nat (length l) →
  be_value (zip_with Z.land l (mask_bytes (length l) k)) =
    be_value l / 2 ^ (8 * Z.of_nat (length l) - k) * 2 ^ (8 * Z.of_nat (length l) - k).
Proof.
  intros Hl. revert k. induction Hl as [|b l Hb Hl IH]; intros k Hk; [simpl in *; replace k with 0 by lia; done|].
  pose proof (be_value_range l Hl) as Hr. set (w := 8 * Z.of_nat (length l)) in *.
  replace (8 * Z.of_nat (length (b :: l))) with (8 + w) in * by (subst w; simpl; lia). simpl mask_bytes.
  assert (∀ n, length (zip_with Z.land l (mask_bytes (length l) n)) = length l) as Hlen.
  { intros n. rewrite length_zip_with, mask_bytes_length. lia. }
  destruct (8 <=? k) eqn:H8; go_bool; simpl zip_with; rewrite !be_value_cons, Hlen; fold w.
  - rewrite IH by lia. replace (8 + w - k) with (w - (k - 8)) by lia.
    replace (Z.land b 255) with b by (change 255 with (Z.ones 8); rewrite Z.land_ones by lia; unfold is_byte in Hb; rewrite Z.mod_small; lia).
    assert (2 ^ w = 2 ^ (k - 8) * 2 ^ (w - (k - 8))) as -> by (rewrite <-Z.pow_add_r by lia; f_equal; lia).
    rewrite Z.mul_assoc, Z.div_add_l by lia. lia.
  - rewrite IH by lia. rewrite land_partial by (done || lia). rewrite Z.sub_0_r, (Z.div_small (be_value l)) by done.
    replace (8 + w - k) with (w + (8 - k)) by lia. rewrite (Z.pow_add_r 2 w (8 - k)) by lia.
    rewrite <-(Z.div_div (b * 2 ^ w + be_value l)) by lia. rewrite Z.div_add_l, (Z.div_small (be_value l)) by lia.
    rewrite !Z.add_0_r. ring.
Qed.

Fixpoint octet_run (s : string) (st : Z * nat) : option (Z * nat) :=
  match s with EmptyString => Some st | String c s => st ← octet_step st c; octet_run s st end.

(** Every byte printed in decimal is read back. *)
Lemma octet_pretty b : is_byte b → ∃ n, octet_run (pretty b) (0, 0%nat) = Some (b, S n) ∧ has_char "." (pretty b) = false.
Proof.
  intros Hb.
  assert (Forall (λ b, (octet_run (pretty b) (0, 0%nat) ≫= λ st, match st.2 with S _ => Some st.1 | O => None end) = Some b ∧
            has_char "." (pretty b) = false) (Z.of_nat <$> seq 0 256)) as Hall by (apply (bool_decide_unpack _); by vm_compute).
  rewrite Forall_forall in Hall. destruct (Hall b) as [Hr Hd].
  - apply list_elem_of_fmap. exists (Z.to_nat b). unfold is_byte in Hb. split; [lia|]. apply elem_of_seq. lia.
  - destruct (octet_run _ _) as [[v [|n]]|]; simplify_eq/=. by exists n.
Qed.

Lemma parse_fields_digits s t st st' fs : has_char "." s = false → octet_run s st = Some st' →
  parse_fields (s +:+ t) st fs = parse_fields t st' fs.
Proof.
  revert st. induction s as [|c s IH]; intros st Hc Hr; [by simplify_eq/=|]. cbn [has_char octet_run] in Hc, Hr. apply orb_false_iff in Hc as [Hc Hs].
  change (String c s +:+ t) with (String c (s +:+ t)). cbn [parse_fields]. rewrite Hc. destruct (octet_step st c) as [st1|]; [|done]. simpl in *. by apply IH.
Qed.

Lemma parse_fields_octet b t fs : is_byte b → ∃ n, parse_fields (pretty b +:+ t) (0, 0%nat) fs = parse_fields t (b, S n) fs.
Proof. intros Hb. destruct (octet_pretty b Hb) as (n & Hr & Hd). exists n. by apply parse_fields_digits. Qed.

Lemma pretty_nonempty b : is_byte b → pretty b ≠ "".
Proof. intros Hb He. destruct (octet_pretty b Hb) as (n & Hr & _). by rewrite He in Hr. Qed.

Lemma string_app_nil_r s : s +:+ "" = s.
Proof. induction s as [|c s IH]; [done|]. change (String c (s +:+ "") = String c s). by rewrite IH. Qed.

(** A point after a field that is followed by another. *)
Lemma parse_fields_point b n t fs : t ≠ "" → (length fs < 3)%nat →
  parse_fields (String "." t) (b, S n) fs = parse_fields t (0, 0%nat) (fs ++ [b]).
Proof.
  intros Ht Hfs. cbn [parse_fields snd fst Nat.eqb orb]. rewrite (proj2 (String.eqb_neq t "") Ht).
  by rewrite (proj2 (Nat.eqb_neq (length fs) 3)) by lia.
Qed.

Lemma app_nonempty s t : s ≠ "" → s +:+ t ≠ "".
Proof. by destruct s. Qed.

Lemma parseIPv4_dotted a b c d : Forall is_byte [a; b; c; d] → parseIPv4 (dotted [a; b; c; d]) = Some [a; b; c; d].
Proof.
  rewrite !Forall_cons. intros (Ha & Hb & Hc & Hd & _). unfold parseIPv4.
  change (dotted [a; b; c; d]) with (pretty a +:+ String "." (pretty b +:+ String "." (pretty c +:+ String "." (pretty d)))).
  destruct (parse_fields_octet a (String "." (pretty b +:+ String "." (pretty c +:+ String "." (pretty d)))) [] Ha) as [n1 ->].
  rewrite parse_fields_point; [|by apply app_nonempty, pretty_nonempty|simpl; lia]. cbn [app].
  destruct (parse_fields_octet b (String "." (pretty c +:+ String "." (pretty d))) [a] Hb) as [n2 ->].
  rewrite parse_fields_point; [|by apply app_nonempty, pretty_nonempty|simpl; lia]. cbn [app].
  destruct (parse_fields_octet c (String "." (pretty d)) [a; b] Hc) as [n3 ->].
  rewrite parse_fields_point; [|by apply pretty_nonempty|simpl; lia]. cbn [app].
  destruct (octet_pretty d Hd) as (n & Hr & Hp).
  by rewrite <-(string_app_nil_r (pretty d)), (parse_fields_digits _ "" _ _ _ Hp Hr).
Qed.

Lemma octet_no_special b : is_byte b → has_char "." (pretty b) = false ∧ has_char ":" (pretty b) = false ∧ has_char "%" (pretty b) = false.
Proof.
  intros Hb.
  assert (Forall (λ b, has_char "." (pretty b) = false ∧ has_char ":" (pretty b) = false ∧ has_char "%" (pretty b) = false)
            (Z.of_nat <$> seq 0 256)) as Hall by (apply (bool_decide_unpack _); by vm_compute).
  rewrite Forall_forall in Hall. apply Hall, list_elem_of_fmap. exists (Z.to_nat b). unfold is_byte in Hb. split; [lia|]. apply elem_of_seq. lia.
Qed.

Lemma addr_kind_skip s t : has_char "." s = false → has_char ":" s = false → has_char "%" s = false → addr_kind (s +:+ t) = addr_kind t.
Proof.
  induction s as [|c s IH]; intros H1 H2 H3; [done|]. change (String c s +:+ t) with (String c (s +:+ t)). cbn [has_char addr_kind] in *.
  apply orb_false_iff in H1 as [-> H1], H2 as [-> H2], H3 as [-> H3]. by apply IH.
Qed.

Lemma ParseIP_dotted l : length l = 4%nat → Forall is_byte l → net_ParseIP (dotted l) = v4InV6Prefix ++ l.
Proof.
  intros Hlen Hl. destruct l as [|a [|b [|c [|d [|? ?]]]]]; simplify_eq/=. unfold net_ParseIP. rewrite parseIPv4_dotted by done.
  assert (addr_kind (dotted [a; b; c; d]) = Some true) as ->; [|done].
  apply Forall_cons in Hl as [Ha _]. destruct (octet_no_special a Ha) as (H1 & H2 & H3).
  change (dotted [a; b; c; d]) with (pretty a +:+ String "." (pretty b +:+ String "." (pretty c +:+ String "." (pretty d)))).
  by rewrite addr_kind_skip.
Qed.

Lemma IP_String_v4 l : length l = 4%nat → IP_String l = dotted l.
Proof. by destruct l as [|a [|b [|c [|d [|? ?]]]]]. Qed.

Lemma land_byte b m : is_byte b → 0 ≤ m → is_byte (Z.land b m).
Proof.
  unfold is_byte. intros Hb Hm. split; [apply Z.land_nonneg; lia|].
  enough (Z.land b m ≤ b) by lia. apply Z.ldiff_le; [lia|]. apply Z.bits_inj'. intros n Hn.
  rewrite Z.ldiff_spec, Z.land_spec, Z.bits_0. by destruct (Z.testbit b n), (Z.testbit m n).
Qed.

Lemma mask_bytes_nonneg len n : 0 ≤ n → Forall (λ m, 0 ≤ m) (mask_bytes len n).
Proof.
  revert n. induction len as [|len IH]; intros n Hn; simpl; [done|].
  destruct (8 <=? n) eqn:E; go_bool; (constructor; [|apply IH; lia]); [done|].
  assert (Forall (λ n, 0 ≤ 255 - Z.shiftr 255 n) (Z.of_nat <$> seq 0 8)) as Hall by (apply (bool_decide_unpack _); by vm_compute).
  rewrite Forall_forall in Hall. apply Hall, list_elem_of_fmap. exists (Z.to_nat n). split; [lia|]. apply elem_of_seq. lia.
Qed.

Lemma masked_bytes l m : Forall is_byte l → Forall (λ m, 0 ≤ m) m → Forall is_byte (zip_with Z.land l m).
Proof.
  intros Hl. revert m. induction Hl as [|b l Hb Hl IH]; intros m Hm; [done|]. destruct Hm as [|x m Hx Hm]; simpl; constructor.
  - by apply land_byte.
  - by apply IH.
Qed.
