(* ===== verification/Scrubber.v ===== *)
(** * Scrubbing of personal data: src/privacy/scrubber.go

    The scrubbers change the request of a wrapper in place.  Where the code ignores the error of
    [scrubUserExt] nothing is changed by it.  [ScrubUserFPD] writes [User.EIDs] without testing
    [User], so it panics ([None]) on a request without a user. *)
From S2P Require Import Prelude GoFloat GoNet ExtWrapper RequestWrapper.

Record IPConf := { IPV6_AnonKeepBits : Z; IPV4_AnonKeepBits : Z }.

Definition scrubIP (ip : string) (ones bits : Z) : string :=
  if ip =s? "" then ""
  else
    let ipMask := CIDRMask ones bits in
    let ipMasked := IP_Mask (net_ParseIP ip) ipMask in
    IP_String ipMasked.

(** [int(x)] of a finite float truncates toward zero. *)
Definition ftrunc (x : float64) : Z :=
  match x with
  | S754_finite s m e => cond_Zopp s (if 0 <=? e then Z.shiftl (Zpos m) e else Z.shiftr (Zpos m) (- e))
  | _ => 0
  end.
Definition two_decimals (x : float64) : float64 := fdiv (fofZ (ftrunc (fadd (fmul x (fofZ 100)) (flit 1 2)))) (fofZ 100).
Definition scrubGeoPrecision (geo : Geo) : Geo :=
  {| geo_Lat := two_decimals <$> geo_Lat geo; geo_Lon := two_decimals <$> geo_Lon geo; geo_rest := geo_rest geo |}.

Section scrubber.
  Context {J : Json}.
  Implicit Types reqWrapper : RequestWrapper.

Definition on_Device (f : Device → Device) reqWrapper : RequestWrapper :=
  set_rw_BidRequest (set_br_Device (f <$> br_Device (rw_BidRequest reqWrapper)) (rw_BidRequest reqWrapper)) reqWrapper.
Definition on_User (f : User → User) reqWrapper : RequestWrapper :=
  set_rw_BidRequest (set_br_User (f <$> br_User (rw_BidRequest reqWrapper)) (rw_BidRequest reqWrapper)) reqWrapper.
Definition on_Source (f : Source → Source) reqWrapper : RequestWrapper :=
  set_rw_BidRequest (set_br_Source (f <$> br_Source (rw_BidRequest reqWrapper)) (rw_BidRequest reqWrapper)) reqWrapper.

Definition scrubDeviceIDs reqWrapper : RequestWrapper :=
  on_Device (λ d, set_dv_MACSHA1 "" (set_dv_MACMD5 "" (set_dv_IFA "" (set_dv_DPIDSHA1 "" (set_dv_DPIDMD5 ""
    (set_dv_DIDSHA1 "" (set_dv_DIDMD5 "" d))))))) reqWrapper.
Definition scrubUserIDs reqWrapper : RequestWrapper :=
  on_User (λ u, set_us_KwArray None (set_us_Keywords "" (set_us_Gender "" (set_us_Yob 0 (set_us_BuyerUID ""
    (set_us_ID "" (set_us_Data None u))))))) reqWrapper.
Definition scrubUserDemographics reqWrapper : RequestWrapper :=
  on_User (λ u, set_us_Gender "" (set_us_Yob 0 (set_us_ID "" (set_us_BuyerUID "" u)))) reqWrapper.

Definition scrubUserExt reqWrapper (fieldName : string) : result unit RequestWrapper :=
  match br_User (rw_BidRequest reqWrapper) with
  | None => Ok reqWrapper
  | Some _ =>
      let? (userExt, reqWrapper) := GetUserExt reqWrapper in
      let ext := UserExt_GetExt userExt in
      match ext !! fieldName with
      | Some _ => Ok (set_rw_userExt (Some (UserExt_SetExt (delete fieldName ext) userExt)) reqWrapper)
      | None => Ok reqWrapper
      end
  end.
Definition scrubUserExt_ignored reqWrapper (fieldName : string) : RequestWrapper :=
  match scrubUserExt reqWrapper fieldName with Ok reqWrapper => reqWrapper | Err _ => reqWrapper end.
Definition ScrubEIDs reqWrapper : result unit RequestWrapper :=
  scrubUserExt (on_User (set_us_EIDs None) reqWrapper) "eids".

Definition scrubExtIDs (ext : option raw) (fieldName : string) : option raw :=
  match ext with
  | None => None
  | Some r =>
      match parse_map r with
      | Some (Some m) => match m !! fieldName with Some _ => Some (print_map (delete fieldName m)) | None => ext end
      | _ => ext
      end
  end.
Definition ScrubTID reqWrapper : RequestWrapper :=
  let reqWrapper := on_Source (set_sr_TID "") reqWrapper in
  let '(impWrapper, reqWrapper) := GetImp reqWrapper in
  SetImp ((λ w, mkImpWrapper (set_imp_Ext (scrubExtIDs (imp_Ext (iw_Imp w)) "tid") (iw_Imp w)) (iw_impExt w)) <$> impWrapper) reqWrapper.

Definition scrubGEO reqWrapper : RequestWrapper :=
  on_Device (λ d, set_dv_Geo (scrubGeoPrecision <$> dv_Geo d) d) (on_User (λ u, set_us_Geo (scrubGeoPrecision <$> us_Geo u) u) reqWrapper).
Definition scrubGeoFull reqWrapper : RequestWrapper :=
  on_Device (λ d, set_dv_Geo ((λ _, empty_geo) <$> dv_Geo d) d) (on_User (λ u, set_us_Geo ((λ _, empty_geo) <$> us_Geo u) u) reqWrapper).
Definition scrubDeviceIP reqWrapper (ipConf : IPConf) : RequestWrapper :=
  on_Device (λ d, set_dv_IPv6 (scrubIP (dv_IPv6 d) (IPV6_AnonKeepBits ipConf) IPv6BitSize)
                    (set_dv_IP (scrubIP (dv_IP d) (IPV4_AnonKeepBits ipConf) IPv4BitSize) d)) reqWrapper.

Definition ScrubDeviceIDsIPsUserDemoExt reqWrapper (ipConf : IPConf) (fieldName : string) (scrubFullGeo : bool) : RequestWrapper :=
  let reqWrapper := scrubDeviceIDs reqWrapper in
  let reqWrapper := scrubDeviceIP reqWrapper ipConf in
  let reqWrapper := scrubUserDemographics reqWrapper in
  let reqWrapper := scrubUserExt_ignored reqWrapper fieldName in
  if scrubFullGeo then scrubGeoFull reqWrapper else scrubGEO reqWrapper.
Definition ScrubUserFPD reqWrapper : option RequestWrapper :=
  let reqWrapper := scrubDeviceIDs reqWrapper in
  let reqWrapper := scrubUserIDs reqWrapper in
  let reqWrapper := scrubUserExt_ignored reqWrapper "data" in
  match br_User (rw_BidRequest reqWrapper) with
  | None => None
  | Some _ => Some (on_User (set_us_EIDs None) reqWrapper)
  end.
Definition ScrubGdprID reqWrapper : RequestWrapper :=
  let reqWrapper := scrubDeviceIDs reqWrapper in
  let reqWrapper := scrubUserDemographics reqWrapper in
  scrubUserExt_ignored reqWrapper "eids".
Definition ScrubGeoAndDeviceIP reqWrapper (ipConf : IPConf) : RequestWrapper := scrubGEO (scrubDeviceIP reqWrapper ipConf).
End scrubber.

(** ** Addresses *)

Lemma dotted_nonempty l : length l = 4%nat → Forall is_byte l → dotted l ≠ "".
Proof.
  intros Hlen Hl. destruct l as [|a [|b [|c [|d [|? ?]]]]]; simplify_eq/=. apply Forall_cons in Hl as [Ha _].
  change (dotted [a; b; c; d]) with (pretty a +:+ String "." (dotted [b; c; d])). by apply app_nonempty, pretty_nonempty.
Qed.

Lemma scrubIP_dotted l k : length l = 4%nat → Forall is_byte l → 0 ≤ k ≤ 32 →
  scrubIP (dotted l) k IPv4BitSize = dotted (zip_with Z.land l (mask_bytes 4 k)).
Proof.
  intros Hlen Hl Hk. unfold scrubIP. rewrite (proj2 (String.eqb_neq _ _) (dotted_nonempty l Hlen Hl)), ParseIP_dotted by done.
  unfold CIDRMask, IPv4BitSize. change (Z.to_nat (32 / 8)) with 4%nat. simpl negb. cbn iota.
  destruct (k <? 0) eqn:E1; go_bool; [lia|]. destruct (32 <? k) eqn:E2; go_bool; [lia|]. cbn [orb].
  unfold IP_Mask. rewrite mask_bytes_length, length_app, Hlen. cbn [Nat.eqb andb length v4InV6Prefix Nat.add].
  rewrite take_app_length', drop_app_length' by done. rewrite bool_decide_true by done. rewrite mask_bytes_length. cbn [Nat.eqb andb]. rewrite Hlen.
  cbn [Nat.eqb].
  apply IP_String_v4. rewrite length_zip_with, mask_bytes_length. lia.
Qed.

Lemma land_mask_twice l m : zip_with Z.land (zip_with Z.land l m) m = zip_with Z.land l m.
Proof. revert m. induction l as [|b l IH]; intros [|x m]; simpl; [done..|]. by rewrite IH, <-Z.land_assoc, Z.land_diag. Qed.

(** A dotted address is cut to its first [k] bits: what [scrubIP] returns is again a dotted
    address, whose number is the original with the last [32 - k] bits zero, and scrubbing it once
    more changes nothing. *)
Theorem scrubbed_address_keeps_prefix l k : length l = 4%nat → Forall is_byte l → 0 ≤ k ≤ 32 →
  ∃ l', scrubIP (dotted l) k IPv4BitSize = dotted l' ∧ length l' = 4%nat ∧ Forall is_byte l' ∧
    net_ParseIP (dotted l') = v4InV6Prefix ++ l' ∧ be_value l' = be_value l / 2 ^ (32 - k) * 2 ^ (32 - k) ∧
    scrubIP (dotted l') k IPv4BitSize = dotted l'.
Proof.
  intros Hlen Hl Hk. exists (zip_with Z.land l (mask_bytes 4 k)).
  assert (length (zip_with Z.land l (mask_bytes 4 k)) = 4%nat) as Hlen' by (rewrite length_zip_with, mask_bytes_length; lia).
  assert (Forall is_byte (zip_with Z.land l (mask_bytes 4 k))) as Hl' by (apply masked_bytes, mask_bytes_nonneg; [done|lia]).
  split_and!; try done.
  - by apply scrubIP_dotted.
  - by apply ParseIP_dotted.
  - pose proof (mask_value l k Hl) as Hv. rewrite Hlen in Hv. apply Hv. lia.
  - rewrite scrubIP_dotted by done. by rewrite land_mask_twice.
Qed.

Lemma scrubbed_address_keeps_prefix_witness : ∃ l', scrubIP "192.168.7.77" 21 IPv4BitSize = dotted l' ∧
  be_value l' = be_value [192; 168; 7; 77] / 2 ^ 11 * 2 ^ 11.
Proof.
  destruct (scrubbed_address_keeps_prefix [192; 168; 7; 77] 21) as (l' & H & _ & _ & _ & Hv & _);
    [done|by apply (bool_decide_unpack _); vm_compute|lia|]. exists l'. split; [exact H|exact Hv].
Defined.
