(* ===== verification/RequestParts.v ===== *)
(** * The parts of a bidder's request: src/exchange/utils.go, src/schain, src/openrtb_ext/alternatebiddercodes.go

    What the exchange computes per bidder before privacy rules run: the impressions with only the
    bidder's own parameters, the supply chain, the external ids the bidder may see, the [prebid]
    extension without the other bidders, the adjusted floors and the buyer id.

    JSON merging of first party data into an impression and the validation of the outcome are
    arguments: an interface of the splitter and JSON text respectively. *)
From S2P Require Import Prelude GoStrings GoFloat GdprConfig Gdpr Privacy ExtWrapper RequestWrapper.

(** ** Alternate bidder codes *)
Section alternate.
  Context {MR : MapRange}.

Definition IsBidderInAlternateBidderCodes (bidderCodes : option ExtAlternateBidderCodes) (bidder : string)
    : option ExtAdapterAlternateBidderCodes :=
  match bidderCodes with
  | Some codes =>
      if bidder =s? "" then None
      else match abc_Bidders codes !! bidder with
      | Some adapterCfg => Some adapterCfg
      | None => snd <$> head (filter (λ '(bidderName, _), EqualFold bidder bidderName = true) (map_range (abc_Bidders codes)))
      end
  | None => None
  end.

Inductive code_error := AlternateDisabled (bidder code : string) | AlternateNotDefined (bidder code : string) | InvalidBidderCode (bidder code : string).
Definition IsValidBidderCode (bidderCodes : ExtAlternateBidderCodes) (bidder alternateBidder : string) : result code_error unit :=
  if (alternateBidder =s? "") || EqualFold bidder alternateBidder then Ok tt
  else if negb (abc_Enabled bidderCodes) then Err (AlternateDisabled bidder alternateBidder)
  else match IsBidderInAlternateBidderCodes (Some bidderCodes) bidder with
  | None => Err (AlternateNotDefined bidder alternateBidder)
  | Some adapterCfg =>
      if negb (aabc_Enabled adapterCfg) then Err (AlternateDisabled bidder alternateBidder)
      else match aabc_AllowedBidderCodes adapterCfg with
      | None | Some ["*"] => Ok tt
      | Some codes =>
          if existsb (String.eqb alternateBidder) codes then Ok tt else Err (InvalidBidderCode bidder alternateBidder)
      end
  end.

Definition copyExtAlternateBidderCodes (bidder : string) (altBidderCodes : option ExtAlternateBidderCodes) : option ExtAlternateBidderCodes :=
  match altBidderCodes with
  | Some codes =>
      Some {| abc_Enabled := abc_Enabled codes;
              abc_Bidders := match IsBidderInAlternateBidderCodes altBidderCodes bidder with Some c => {[bidder := c]} | None => ∅ end |}
  | None => None
  end.
Definition buildRequestExtAlternateBidderCodes (bidder : string) (accABC reqABC : option ExtAlternateBidderCodes) : option ExtAlternateBidderCodes :=
  match copyExtAlternateBidderCodes bidder reqABC with
  | Some c => Some c
  | None => copyExtAlternateBidderCodes bidder accABC
  end.
Definition isBidderInExtAlternateBidderCodes (adapter currentMultiBidBidder : string) (adapterABC : option ExtAlternateBidderCodes) : bool :=
  match adapterABC with
  | Some abc =>
      match abc_Bidders abc !! adapter with
      | Some a => existsb (λ bidder, (bidder =s? "*") || (bidder =s? currentMultiBidBidder)) (default [] (aabc_AllowedBidderCodes a))
      | None => false
      end
  | None => false
  end.

Definition buildRequestExtMultiBid (adapter : string) (reqMultiBid : list ExtMultiBid) (adapterABC : option ExtAlternateBidderCodes)
    : list ExtMultiBid :=
  let relevant bidder := (ToLower bidder =s? adapter) || isBidderInExtAlternateBidderCodes adapter (ToLower bidder) adapterABC in
  reqMultiBid ≫= λ multiBid,
    if negb (mb_Bidder multiBid =s? "") then if relevant (mb_Bidder multiBid) then [multiBid] else []
    else (λ bidder, {| mb_Bidder := ""; mb_Bidders := [bidder]; mb_MaxBids := mb_MaxBids multiBid; mb_TargetBidderCodePrefix := "" |}) <$>
           filter (λ bidder, relevant bidder = true) (mb_Bidders multiBid).
Definition buildRequestExtTargeting (t : option ExtRequestTargeting) : option ExtRequestTargeting :=
  match t with
  | Some t => match tg_IncludeBrandCategory t with Some c => Some {| tg_IncludeBrandCategory := Some c; tg_rest := "" |} | None => None end
  | None => None
  end.

Definition prebid_for_bidder (bidder : string) (prebid : option ExtRequestPrebid) (params : gmap string string)
    (cfgABC : option ExtAlternateBidderCodes) : ExtRequestPrebid :=
  let alternateBidderCodes := buildRequestExtAlternateBidderCodes bidder cfgABC (prebid ≫= pb_AlternateBidderCodes) in
  let alias : option string := aliases ← prebid ≫= pb_Aliases; aliases !! bidder in
  {| pb_Aliases := (λ v, {[bidder := v]}) <$> alias;
     pb_AliasGVLIDs := None;
     pb_BidAdjustmentFactors := None;
     pb_BidderParams := params !! bidder;
     pb_Channel := prebid ≫= pb_Channel;
     pb_CurrencyConversions := prebid ≫= pb_CurrencyConversions;
     pb_EidPermissions := None;
     pb_Debug := default false (pb_Debug <$> prebid);
     pb_Integration := default "" (pb_Integration <$> prebid);
     pb_MultiBid := buildRequestExtMultiBid bidder (default [] (pb_MultiBid <$> prebid)) alternateBidderCodes;
     pb_SChains := None;
     pb_Sdk := prebid ≫= pb_Sdk;
     pb_Server := prebid ≫= pb_Server;
     pb_Targeting := buildRequestExtTargeting (prebid ≫= pb_Targeting);
     pb_AlternateBidderCodes := alternateBidderCodes;
     pb_NoSale := [];
     pb_rest := "" |}.
Definition buildRequestExtForBidder {J : Json} (bidder : string) (req : RequestWrapper) (reqExtBidderParams : gmap string string)
    (cfgABC : option ExtAlternateBidderCodes) : result unit RequestWrapper :=
  let? (reqExt, req) := GetRequestExt req in
  Ok (set_rw_requestExt (Some (RequestExt_SetPrebid
        (Some (prebid_for_bidder bidder (val (re_prebid reqExt)) reqExtBidderParams cfgABC)) reqExt)) req).
End alternate.

(** ** Supply chains *)
Record SChainWriter := { scw_sChainsByBidder : gmap string SupplyChain; scw_hostSChainNode : option SupplyChainNode }.
Inductive schain_error := MultipleSChains (bidder : string).
Fixpoint schains_of_bidders (bidders : list string) (c : SupplyChain) (m : gmap string SupplyChain) : result schain_error (gmap string SupplyChain) :=
  match bidders with
  | [] => Ok m
  | bidder :: bidders =>
      match m !! bidder with
      | Some _ => Err (MultipleSChains bidder)
      | None => schains_of_bidders bidders c (<[bidder := c]> m)
      end
  end.
Fixpoint BidderToPrebidSChains_from (sChains : list ExtRequestPrebidSChain) (m : gmap string SupplyChain)
    : result schain_error (gmap string SupplyChain) :=
  match sChains with
  | [] => Ok m
  | w :: sChains => let? m := schains_of_bidders (psc_Bidders w) (psc_SChain w) m in BidderToPrebidSChains_from sChains m
  end.
Definition BidderToPrebidSChains (sChains : list ExtRequestPrebidSChain) : result schain_error (gmap string SupplyChain) :=
  BidderToPrebidSChains_from sChains ∅.
Definition NewSChainWriter (reqExt : option ExtRequestPrebid) (hostSChainNode : option SupplyChainNode) : result schain_error SChainWriter :=
  match reqExt ≫= pb_SChains with
  | None => Ok {| scw_sChainsByBidder := ∅; scw_hostSChainNode := hostSChainNode |}
  | Some sChains =>
      let? m := BidderToPrebidSChains sChains in
      Ok {| scw_sChainsByBidder := m; scw_hostSChainNode := hostSChainNode |}
  end.
Definition selected_schain (w : SChainWriter) (bidder : string) : option SupplyChain :=
  match scw_sChainsByBidder w !! bidder with Some c => Some c | None => scw_sChainsByBidder w !! "*" end.
Definition SChainWriter_Write {J : Json} (w : SChainWriter) (reqWrapper : RequestWrapper) (bidder : string) : RequestWrapper :=
  match selected_schain w bidder, scw_hostSChainNode w with
  | None, None => reqWrapper
  | selected, host =>
      let selectedSChain := default {| sc_Ver := "1.0"; sc_Complete := 0; sc_Nodes := [] |} selected in
      let source := default empty_source (br_Source (rw_BidRequest reqWrapper)) in
      let chain := match host with
                   | Some node => {| sc_Ver := sc_Ver selectedSChain; sc_Complete := sc_Complete selectedSChain;
                                     sc_Nodes := sc_Nodes selectedSChain ++ [node] |}
                   | None => selectedSChain
                   end in
      set_rw_BidRequest (set_br_Source (Some (set_sr_SChain (Some chain) source)) (rw_BidRequest reqWrapper)) reqWrapper
  end.

(** ** Impressions per bidder *)
Inductive split_error :=
| InvalidImpJson (i : nat) | InvalidImpFPD (i : nat) | InvalidMergedImp (id : string).

Section imps.
  Context {J : Json} {MR : MapRange}.
  (** [jsonutil.MergeClone] of first party data into an impression, and [ValidateImp]. *)
  Context (merge : Imp → raw → option Imp) (valid : Imp → bool).

(** A member decoded into a map whose error is dropped: nil unless it is an object. *)
Definition sub_map (k : string) (m : gmap string raw) : gmap string raw :=
  match m !! k with Some r => default ∅ (default None (parse_map r)) | None => ∅ end.

Definition allowedImpExtPrebidFields : gset string := {["is_rewarded_inventory"; "options"]}.
Definition createSanitizedImpExt (impExt impExtPrebid : gmap string raw) : gmap string raw :=
  let sanitizedImpPrebidExt := filter (λ '(k, _), k ∈ allowedImpExtPrebidFields) impExtPrebid in
  let sanitizedImpExt : gmap string raw :=
    if decide (sanitizedImpPrebidExt = ∅) then ∅ else {["prebid" := print_map sanitizedImpPrebidExt]} in
  delete "prebid" impExt ∪ sanitizedImpExt.

Definition mergeImpFPD (imp : Imp) (fpd : raw) (index : nat) : result split_error Imp :=
  match merge imp fpd with Some imp => Ok imp | None => Err (InvalidImpFPD index) end.
(** The copy of an impression for one bidder. *)
Definition imp_for_bidder (index : nat) (imp : Imp) (sanitizedImpExt impExtPrebidImp : gmap string raw) (bidder : string) (bidderExt : raw)
    : result split_error Imp :=
  let? impCopy :=
    match impExtPrebidImp !! bidder with
    | Some impBidderFPD =>
        let? impCopy := mergeImpFPD imp impBidderFPD index in
        if valid impCopy then Ok impCopy else Err (InvalidMergedImp (imp_ID imp))
    | None => Ok imp
    end in
  Ok (set_imp_Ext (Some (print_map (<["bidder" := bidderExt]> sanitizedImpExt))) impCopy).
Definition add_imp (bidder : string) (imp : Imp) (m : gmap string (list Imp)) : gmap string (list Imp) :=
  <[bidder := default [] (m !! bidder) ++ [imp]]> m.
Fixpoint split_bidders (index : nat) (imp : Imp) (sanitizedImpExt impExtPrebidImp : gmap string raw) (bidders : list (string * raw))
    (bidderImps : gmap string (list Imp)) : result split_error (gmap string (list Imp)) :=
  match bidders with
  | [] => Ok bidderImps
  | (bidder, bidderExt) :: bidders =>
      let? impCopy := imp_for_bidder index imp sanitizedImpExt impExtPrebidImp bidder bidderExt in
      split_bidders index imp sanitizedImpExt impExtPrebidImp bidders (add_imp bidder impCopy bidderImps)
  end.
Definition decode_imp_ext (imp : Imp) : option (gmap string raw) := r ← imp_Ext imp; default ∅ <$> parse_map r.
Fixpoint splitImps_from (index : nat) (imps : list Imp) (bidderImps : gmap string (list Imp)) : result split_error (gmap string (list Imp)) :=
  match imps with
  | [] => Ok bidderImps
  | imp :: imps =>
      match decode_imp_ext imp with
      | None => Err (InvalidImpJson index)
      | Some impExt =>
          let impExtPrebid := sub_map "prebid" impExt in
          let impExtPrebidBidder := sub_map "bidder" impExtPrebid in
          let impExtPrebidImp := sub_map "imp" impExtPrebid in
          let sanitizedImpExt := createSanitizedImpExt impExt impExtPrebid in
          let? bidderImps := split_bidders index imp sanitizedImpExt impExtPrebidImp (map_range impExtPrebidBidder) bidderImps in
          splitImps_from (S index) imps bidderImps
      end
  end.
Definition splitImps (imps : list Imp) : result split_error (gmap string (list Imp)) := splitImps_from 0 imps ∅.
End imps.

(** [strings.ToLower] on the keys of the bid adjustment factors of the request. *)
Definition getExtBidAdjustmentFactors {MR : MapRange} (prebid : option ExtRequestPrebid) : gmap string float64 :=
  match prebid ≫= pb_BidAdjustmentFactors with
  | Some m => foldl (λ acc '(bidder, factor), <[ToLower bidder := factor]> acc) ∅ (map_range m)
  | None => ∅
  end.

(** [InitStoredBidResponses]: per bidder, the impressions that already have a response. *)
Definition InitStoredBidResponses {MR : MapRange} (storedBidResponses : gmap string (gmap string string)) : gmap string (gmap string string) :=
  foldl (λ acc '(impID, storedData),
    foldl (λ acc '(bidderName, storedResp), <[bidderName := <[impID := storedResp]> (default ∅ (acc !! bidderName))]> acc) acc (map_range storedData))
    ∅ (map_range storedBidResponses).

Section parts.
  Context {J : Json} {MR : MapRange}.
  Implicit Types req : RequestWrapper.

Definition set_Imp (imps : list Imp) req : RequestWrapper := set_rw_BidRequest (set_br_Imp imps (rw_BidRequest req)) req.
Definition set_User (u : option User) req : RequestWrapper := set_rw_BidRequest (set_br_User u (rw_BidRequest req)) req.
Definition set_Regs (r : option Regs) req : RequestWrapper := set_rw_BidRequest (set_br_Regs r (rw_BidRequest req)) req.

Definition removeImpsWithStoredResponses req (impBidResponses : gmap string string) : RequestWrapper :=
  if decide (impBidResponses = ∅) then req
  else set_Imp (filter (λ imp, impBidResponses !! imp_ID imp = None) (br_Imp (rw_BidRequest req))) req.

Definition applyBidAdjustmentToFloor req (bidder : string) (adjustmentFactors : gmap string float64) : RequestWrapper :=
  if decide (adjustmentFactors = ∅) then req
  else
    let bidAdjustment := match adjustmentFactors !! bidder with Some v => if v =f? f0 then f1 else v | None => f1 end in
    if bidAdjustment =f? f1 then req
    else set_Imp ((λ imp, set_imp_BidFloor (fdiv (imp_BidFloor imp) bidAdjustment) imp) <$> br_Imp (rw_BidRequest req)) req.

Definition extractAndCleanBuyerUIDs req : result unit (gmap string string * RequestWrapper) :=
  match br_User (rw_BidRequest req) with
  | None => Ok (∅, req)
  | Some _ =>
      let? (userExt, req) := GetUserExt req in
      match val (ue_prebid userExt) with
      | None => Ok (∅, req)
      | Some prebid =>
          Ok (up_BuyerUIDs prebid, set_rw_userExt (Some (UserExt_SetPrebid (Some {| up_BuyerUIDs := ∅ |}) userExt)) req)
      end
  end.
Definition lowerCaseExplicitBuyerUIDs (m : gmap string string) : gmap string string :=
  foldl (λ acc '(bidder, uid), <[ToLower bidder := uid]> acc) ∅ (map_range m).

Definition copyWithBuyerUID (user : option User) (buyerUID : string) : User :=
  match user with
  | None => set_us_BuyerUID buyerUID empty_user
  | Some user => if us_BuyerUID user =s? "" then set_us_BuyerUID buyerUID user else user
  end.
(** The id fetcher gives an id and whether there is one for a syncer key. *)
Definition prepareUser req (givenBidder syncerKey : string) (explicitBuyerUIDs : gmap string string) (usersyncs : string → string * bool)
    : RequestWrapper * bool :=
  let '(cookieId, hadCookie) := usersyncs syncerKey in
  let user := br_User (rw_BidRequest req) in
  (match explicitBuyerUIDs !! ToLower givenBidder with
   | Some id => set_User (Some (copyWithBuyerUID user id)) req
   | None => if hadCookie then set_User (Some (copyWithBuyerUID user cookieId)) req else req
   end, hadCookie).

(** The rules by source, a later one replacing an earlier. *)
Definition eid_rules (l : list EidPermission) : gmap string (list string) := foldl (λ acc p, <[ep_Source p := ep_Bidders p]> acc) ∅ l.
Definition eid_allowed (rules : gmap string (list string)) (bidder : string) (e : EID) : bool :=
  match rules !! eid_Source e with
  | Some rule => existsb (λ ruleBidder, (ruleBidder =s? "*") || EqualFold ruleBidder bidder) rule
  | None => true
  end.
(** The ids after the filter, [None] when nothing is to be removed.  The request and its shared
    user are written together: the caller sees the same user. *)
Definition unpermissioned (permissions : list EidPermission) (bidder : string) (eids : list EID) : option (list EID) :=
  let eidsAllowed := filter (λ e, eid_allowed (eid_rules permissions) bidder e = true) eids in
  if (length eids =? length eidsAllowed)%nat then None else Some eidsAllowed.
Definition removeUnpermissionedEids req (bidder : string) : result unit RequestWrapper :=
  match br_User (rw_BidRequest req) with
  | Some user =>
      match us_EIDs user with
      | None | Some [] => Ok req
      | Some eids =>
          let? (reqExt, req) := GetRequestExt req in
          match val (re_prebid reqExt) ≫= pb_EidPermissions with
          | None | Some [] => Ok req
          | Some permissions =>
              match unpermissioned permissions bidder eids with
              | None => Ok req
              | Some eidsAllowed =>
                  let eids' := match eidsAllowed with [] => None | _ => Some eidsAllowed end in
                  Ok (set_User (Some (set_us_EIDs eids' user)) req)
              end
          end
      end
  | None => Ok req
  end.

(** Core bidders by their lower-case names. *)
Definition NormalizeBidderName (coreBidders : list string) (name : string) : option string :=
  find (λ b, ToLower b =s? ToLower name) coreBidders.
Definition resolveBidder (coreBidders : list string) (bidder : string) (requestAliases : gmap string string) : string * bool :=
  match requestAliases !! bidder with
  | Some coreBidder => (coreBidder, true)
  | None => (default "" (NormalizeBidderName coreBidders bidder), false)
  end.
Definition getRequestAliases req : result unit (gmap string string * gmap string Z * RequestWrapper) :=
  let? (reqExt, req) := GetRequestExt req in
  let prebid := val (re_prebid reqExt) in
  Ok (default ∅ (prebid ≫= pb_Aliases), default ∅ (prebid ≫= pb_AliasGVLIDs), req).
Definition GetValidBidders (coreBidders : list string) (requestAliases : gmap string string) : gset string :=
  list_to_set coreBidders ∪ dom requestAliases.

(** ** Legacy privacy fields from GPP *)
Definition setLegacyGDPRFromGPP req (sections : list (Z * string)) : RequestWrapper :=
  let req :=
    match br_Regs (rw_BidRequest req) with
    | Some regs =>
        match rg_GDPR regs, rg_GPPSID regs with
        | None, Some sids => set_Regs (Some (set_rg_GDPR (Some (if existsb (Z.eqb SectionTCFEU2) sids then 1 else 0)) regs)) req
        | _, _ => req
        end
    | None => req
    end in
  match br_User (rw_BidRequest req) with
  | Some user =>
      if us_Consent user =s? "" then
        foldl (λ req '(id, v),
          if id =? SectionTCFEU2 then
            let user := default empty_user (br_User (rw_BidRequest req)) in set_User (Some (set_us_Consent v user)) req
          else req) req sections
      else req
  | None =>
      foldl (λ req '(id, v),
        if id =? SectionTCFEU2 then
          let user := default empty_user (br_User (rw_BidRequest req)) in set_User (Some (set_us_Consent v user)) req
        else req) req sections
  end.
Definition setLegacyUSPFromGPP req (sections : list (Z * string)) : RequestWrapper :=
  match br_Regs (rw_BidRequest req) with
  | None => req
  | Some regs =>
      match rg_GPPSID regs with
      | None => req
      | Some sids =>
          if negb (rg_USPrivacy regs =s? "") then req
          else foldl (λ req sid,
            if sid =? SectionUSPV1 then
              foldl (λ req '(id, v),
                if id =? SectionUSPV1 then
                  match br_Regs (rw_BidRequest req) with Some regs => set_Regs (Some (set_rg_USPrivacy v regs)) req | None => req end
                else req) req sections
            else req) req sids
      end
  end.
End parts.

(** ** Impressions: what each bidder gets *)
Section split_spec.
  Context {J : Json} {MR : MapRange} (merge : Imp → raw → option Imp) (valid : Imp → bool).
  Notation splitImps := (splitImps merge valid).
  Notation imp_for_bidder := (imp_for_bidder merge valid).

(** The parameters an impression has for a bidder, and the copy of it the bidder gets. *)
Definition imp_prebid (imp : Imp) : gmap string raw := sub_map "prebid" (default ∅ (decode_imp_ext imp)).
Definition bidder_params (imp : Imp) (bidder : string) : option raw := sub_map "bidder" (imp_prebid imp) !! bidder.
Definition imp_copy (i : nat) (imp : Imp) (bidder : string) (params : raw) : result split_error Imp :=
  imp_for_bidder i imp (createSanitizedImpExt (default ∅ (decode_imp_ext imp)) (imp_prebid imp)) (sub_map "imp" (imp_prebid imp)) bidder params.
Definition bidder_imp (imp : Imp) (bidder : string) : option Imp :=
  params ← bidder_params imp bidder; match imp_copy 0 imp bidder params with Ok c => Some c | Err _ => None end.

Lemma imp_for_bidder_index i j imp s pi b e c : imp_for_bidder i imp s pi b e = Ok c → imp_for_bidder j imp s pi b e = Ok c.
Proof.
  unfold RequestParts.imp_for_bidder, mergeImpFPD. destruct (pi !! b) as [fpd|]; [|done]. destruct (merge imp fpd) as [imp'|]; [|done].
  simpl. by destruct (valid imp').
Qed.

Lemma split_bidders_spec i imp s pi bidders m m' : NoDup bidders.*1 → split_bidders merge valid i imp s pi bidders m = Ok m' →
  ∀ b, (b ∉ bidders.*1 → m' !! b = m !! b) ∧
       (∀ e, (b, e) ∈ bidders → ∃ c, imp_for_bidder i imp s pi b e = Ok c ∧ m' !! b = Some (default [] (m !! b) ++ [c])).
Proof.
  revert m. induction bidders as [|[b0 e0] l IH]; intros m Hnd Hs b; cbn [split_bidders] in Hs.
  { simplify_eq. split; [done|]. intros e He. by apply elem_of_nil in He. }
  apply NoDup_cons in Hnd as [Hb0 Hnd]. destruct (imp_for_bidder _ _ _ _ b0 e0) as [c0|] eqn:E; [|done]. cbn [rbind] in Hs.
  destruct (IH _ Hnd Hs b) as [Hout Hin]. split.
  - intros Hb. apply not_elem_of_cons in Hb as [Hb1 Hb2]. rewrite Hout by done. unfold add_imp. by rewrite lookup_insert_ne.
  - intros e [[= -> ->]|He]%elem_of_cons.
    + exists c0. split; [done|]. rewrite Hout by done. unfold add_imp. by rewrite lookup_insert_eq.
    + destruct (Hin e He) as (c & Hc & ->). exists c. split; [done|]. unfold add_imp. rewrite lookup_insert_ne; [done|].
      intros ->. apply Hb0, list_elem_of_fmap. by exists (b, e).
Qed.

Lemma splitImps_from_spec i imps m m' b : splitImps_from merge valid i imps m = Ok m' →
  m' !! b = match omap (λ imp, bidder_imp imp b) imps with [] => m !! b | l => Some (default [] (m !! b) ++ l) end.
Proof.
  revert i m. induction imps as [|imp imps IH]; intros i m Hs; cbn [splitImps_from] in Hs; [by simplify_eq|].
  destruct (decode_imp_ext imp) as [impExt|] eqn:Hd; [|done].
  destruct (split_bidders _ _ _ _ _ _ _ m) as [m1|] eqn:Hb; [|done]. cbn [rbind] in Hs.
  apply IH in Hs. destruct (split_bidders_spec _ _ _ _ _ _ _ (NoDup_map_range_fst _) Hb b) as [Hout Hin].
  assert (imp_prebid imp = sub_map "prebid" impExt) as Hp by (unfold imp_prebid; by rewrite Hd).
  cbn [omap list_omap]. destruct (bidder_params imp b) as [e|] eqn:Hparams.
  - destruct (Hin e) as (c & Hc & Hm1); [unfold bidder_params in Hparams; rewrite Hp in Hparams; by apply elem_of_map_range|].
    assert (bidder_imp imp b = Some c) as ->.
    { unfold bidder_imp. rewrite Hparams. simpl. unfold imp_copy. rewrite Hd, Hp. simpl. by rewrite (imp_for_bidder_index _ 0 _ _ _ _ _ _ Hc). }
    rewrite Hs, Hm1. simpl. destruct (omap _ imps); [done|]. by rewrite <-app_assoc.
  - assert (bidder_imp imp b = None) as -> by (unfold bidder_imp; by rewrite Hparams).
    rewrite Hs, Hout; [done|]. intros ([b' e] & -> & He%elem_of_map_range)%list_elem_of_fmap.
    unfold bidder_params in Hparams. rewrite Hp in Hparams. simpl in *. congruence.
Qed.

Lemma splitImps_lookup imps m b : splitImps imps = Ok m →
  m !! b = match omap (λ imp, bidder_imp imp b) imps with [] => None | l => Some l end.
Proof. intros H. rewrite (splitImps_from_spec _ _ _ _ b H), lookup_empty. by destruct (omap _ imps). Qed.

Context {JL : JsonLaws J}.

(** What the printed extension of a copy holds. *)
Record only_own_params (imp copy : Imp) (bidder : string) (params : raw) : Prop := {
  oo_ext : ∃ out ext, imp_Ext copy = Some out ∧ parse_map out = Some (Some ext) ∧ ext !! "bidder" = Some params ∧
    (∀ k, k ≠ "bidder" → k ≠ "prebid" → ext !! k = default ∅ (decode_imp_ext imp) !! k) ∧
    ∀ k, sub_map "prebid" ext !! k = if decide (k ∈ allowedImpExtPrebidFields) then imp_prebid imp !! k else None
}.

Lemma sub_map_sanitized impExt p k : (sub_map "prebid" (createSanitizedImpExt impExt p) : gmap string raw) !! k =
  if decide (k ∈ allowedImpExtPrebidFields) then p !! k else None.
Proof.
  unfold sub_map, createSanitizedImpExt. rewrite lookup_union_r by apply lookup_delete_eq. case_decide as He.
  - rewrite lookup_empty, lookup_empty. case_decide as Hk; [|done]. symmetry.
    apply eq_None_not_Some. intros [v Hv]. apply (map_filter_empty_not_lookup _ _ k v He); done.
  - rewrite lookup_singleton_eq, parse_print. simpl. case_decide as Hk.
    + destruct (p !! k) as [v|] eqn:Hv; [by apply map_lookup_filter_Some_2|]. apply map_lookup_filter_None. by left.
    + apply map_lookup_filter_None. right. intros v _. done.
Qed.

Lemma bidder_imp_own imp bidder copy : bidder_imp imp bidder = Some copy →
  ∃ params, bidder_params imp bidder = Some params ∧ only_own_params imp copy bidder params.
Proof.
  unfold bidder_imp. destruct (bidder_params imp bidder) as [params|] eqn:Hp; [|done]. simpl.
  destruct (imp_copy 0 imp bidder params) as [c|] eqn:Hc; [|done]. intros [= ->]. exists params. split; [done|]. split.
  unfold imp_copy, RequestParts.imp_for_bidder in Hc. destruct (match _ with Some _ => _ | None => _ end) as [c|]; [|done]. simpl in Hc.
  injection Hc as <-. eexists _, _. split; [done|]. split; [apply parse_print|]. split; [apply lookup_insert_eq|]. split.
  - intros k Hk1 Hk2. rewrite lookup_insert_ne by done. unfold createSanitizedImpExt. rewrite lookup_union.
    rewrite lookup_delete_ne by done. case_decide; [by rewrite lookup_empty, (right_id_L None _)|].
    by rewrite lookup_singleton_ne, (right_id_L None _).
  - intros k. rewrite <-sub_map_sanitized with (impExt := default ∅ (decode_imp_ext imp)). unfold sub_map. by rewrite lookup_insert_ne.
Qed.

(** C28: Splitting the impressions gives every bidder, in order, a copy of exactly the impressions
    that have parameters for it in [imp.ext.prebid.bidder], and no entry when there is none.  The extension of a
    copy holds the bidder's own parameters as [bidder], of [prebid] exactly the members bidders may see, so nothing of
    the parameters of other bidders there, and every other member of [imp.ext] as it was: a member under
    the name of another bidder, where parameters used to be written, is sent too (see
    [other_bidder_member_is_sent]). *)
Theorem imps_split_by_bidder imps m :
  splitImps imps = Ok m → ∀ bidder,
  m !! bidder = match omap (λ imp, bidder_imp imp bidder) imps with [] => None | l => Some l end ∧
  ∀ imp copy, bidder_imp imp bidder = Some copy → ∃ params, bidder_params imp bidder = Some params ∧ only_own_params imp copy bidder params.
Proof. intros H bidder. split; [by apply splitImps_lookup|]. intros imp copy. apply bidder_imp_own. Qed.
End split_spec.

(** ** The [prebid] extension *)

Lemma copy_dom {MR : MapRange} bidder c : dom (default ∅ (abc_Bidders <$> copyExtAlternateBidderCodes bidder c)) ⊆ ({[bidder]} : gset string).
Proof.
  destruct c as [c|]; [|simpl; set_solver]. unfold copyExtAlternateBidderCodes.
  destruct (IsBidderInAlternateBidderCodes _ _); cbn [fmap option_fmap option_map default abc_Bidders id]; [by rewrite dom_singleton_L|].
  by rewrite dom_empty_L.
Qed.

(** The [prebid] extension a bidder gets names no other bidder: its aliases and alternate
    codes have the bidder's own entry at most, its multibid entries are for the bidder or for a
    code it may use, and the schains, id permissions, adjustments and no-sale lists of the
    auction are gone. *)
Theorem bidder_ext_names_no_other_bidder {J : Json} {MR : MapRange} bidder rw params cfgABC rw' :
  buildRequestExtForBidder bidder rw params cfgABC = Ok rw' →
  rw_BidRequest rw' = rw_BidRequest rw ∧ ∃ e p, rw_requestExt rw' = Some e ∧ RequestExt_Dirty e = true ∧ val (re_prebid e) = Some p ∧
    dom (default ∅ (pb_Aliases p)) ⊆ ({[bidder]} : gset string) ∧
    dom (default ∅ (abc_Bidders <$> pb_AlternateBidderCodes p)) ⊆ ({[bidder]} : gset string) ∧
    Forall (λ mb, ∀ b, b ∈ (if mb_Bidder mb =s? "" then mb_Bidders mb else [mb_Bidder mb]) →
              ToLower b = bidder ∨ isBidderInExtAlternateBidderCodes bidder (ToLower b) (pb_AlternateBidderCodes p) = true) (pb_MultiBid p) ∧
    pb_BidderParams p = params !! bidder ∧
    pb_SChains p = None ∧ pb_EidPermissions p = None ∧ pb_BidAdjustmentFactors p = None ∧ pb_AliasGVLIDs p = None ∧ pb_NoSale p = [].
Proof.
  unfold buildRequestExtForBidder. intros H. destruct (GetRequestExt rw) as [[e rw1]|] eqn:E; [|done]. simpl in H. injection H as <-.
  split. { unfold GetRequestExt in E. repeat case_match; by simplify_eq/=. }
  eexists _, _. split; [done|]. split; [apply orb_true_iff; left; apply orb_true_r|]. split; [done|].
  set (prebid := val (re_prebid e)). split_and!; try done; simpl.
  - destruct (_ ≫= _) as [v|]; simpl; rewrite ?dom_singleton_L, ?dom_empty_L; set_solver.
  - unfold buildRequestExtAlternateBidderCodes. destruct (copyExtAlternateBidderCodes bidder (prebid ≫= _)) eqn:Ec; [rewrite <-Ec|]; apply copy_dom.
  - apply Forall_forall. intros mb Hmb. unfold buildRequestExtMultiBid in Hmb. apply list_elem_of_bind in Hmb as (mb0 & Hmb & _).
    destruct (mb_Bidder mb0 =s? "") eqn:E0; simpl in Hmb.
    + apply list_elem_of_fmap in Hmb as (b & -> & [Hb _]%list_elem_of_filter). simpl. intros b' ->%list_elem_of_singleton.
      apply orb_true_iff in Hb as [Hb|Hb]; go_bool; auto.
    + destruct (_ || _) eqn:Hr; [|by apply elem_of_nil in Hmb]. apply list_elem_of_singleton in Hmb as ->. rewrite E0.
      intros b' ->%list_elem_of_singleton. apply orb_true_iff in Hr as [Hb|Hb]; go_bool; auto.
Qed.

(** ** Supply chains *)
Definition schain_pairs (l : list ExtRequestPrebidSChain) : list (string * SupplyChain) :=
  l ≫= λ w, (λ b, (b, psc_SChain w)) <$> psc_Bidders w.

Lemma schains_of_bidders_spec bidders c m :
  match schains_of_bidders bidders c m with
  | Ok m' => NoDup bidders ∧ (∀ b, b ∈ bidders → m !! b = None) ∧ ∀ b, m' !! b = if decide (b ∈ bidders) then Some c else m !! b
  | Err (MultipleSChains b) => b ∈ bidders ∧ ¬ (NoDup bidders ∧ ∀ b, b ∈ bidders → m !! b = None)
  end.
Proof.
  revert m. induction bidders as [|b bidders IH]; intros m; simpl.
  { split; [constructor|]. split; [by intros b ?%elem_of_nil|]. done. }
  destruct (m !! b) as [c'|] eqn:Hb.
  { split; [left|]. intros [_ H]. specialize (H b). rewrite Hb in H. by discriminate H; left. }
  specialize (IH (<[b := c]> m)). destruct (schains_of_bidders bidders c (<[b := c]> m)) as [m'|[b']].
  - destruct IH as (Hnd & Hfresh & Hl). split_and!.
    + constructor; [|done]. intros Hin. specialize (Hfresh b Hin). by rewrite lookup_insert_eq in Hfresh.
    + intros b' [->|Hin]%elem_of_cons; [done|]. specialize (Hfresh b' Hin). by apply lookup_insert_None in Hfresh as [? _].
    + intros b'. rewrite Hl. destruct (decide (b' = b)) as [->|Hne].
      * rewrite (decide_True (P := b ∈ b :: bidders)) by left. case_decide; [done|]. by rewrite lookup_insert_eq.
      * rewrite lookup_insert_ne by done. by repeat case_decide; try set_solver.
  - destruct IH as [Hin Hno]. split; [by right|]. intros [Hnd Hfresh]. apply NoDup_cons in Hnd as [Hb' Hnd]. apply Hno. split; [done|].
    intros b1 Hb1. rewrite lookup_insert_ne by (intros ->; done). apply Hfresh. by right.
Qed.

Lemma BidderToPrebidSChains_from_spec l m :
  match BidderToPrebidSChains_from l m with
  | Ok m' => NoDup (schain_pairs l).*1 ∧ (∀ b, b ∈ (schain_pairs l).*1 → m !! b = None) ∧
             m' = list_to_map (schain_pairs l) ∪ m
  | Err (MultipleSChains b) => b ∈ (schain_pairs l).*1 ∧ ¬ (NoDup (schain_pairs l).*1 ∧ ∀ b, b ∈ (schain_pairs l).*1 → m !! b = None)
  end.
Proof.
  revert m. induction l as [|w l IH]; intros m; cbn [BidderToPrebidSChains_from].
  { split; [constructor|]. split; [by intros b ?%elem_of_nil|]. simpl. by rewrite map_empty_union. }
  set (own := (λ b, (b, psc_SChain w)) <$> psc_Bidders w).
  assert (own.*1 = psc_Bidders w) as Hown by (unfold own; rewrite <-list_fmap_compose; apply list_fmap_id).
  change (schain_pairs (w :: l)) with (own ++ schain_pairs l). rewrite fmap_app, Hown.
  assert (∀ b, list_to_map (M := gmap string SupplyChain) own !! b = if decide (b ∈ psc_Bidders w) then Some (psc_SChain w) else None) as Hlook.
  { intros b. unfold own. clear. induction (psc_Bidders w) as [|b0 bs IH]; [done|]. rewrite fmap_cons, list_to_map_cons.
    destruct (decide (b = b0)) as [->|Hne].
    - rewrite lookup_insert_eq. by rewrite decide_True by left.
    - rewrite lookup_insert_ne, IH by done. repeat case_decide; set_solver. }
  pose proof (schains_of_bidders_spec (psc_Bidders w) (psc_SChain w) m) as H1.
  destruct (schains_of_bidders _ _ m) as [m1|[b1]]; cbn [rbind].
  - destruct H1 as (Hnd & Hfresh & Hm1). specialize (IH m1). destruct (BidderToPrebidSChains_from l m1) as [m2|[b2]].
    + destruct IH as (Hnd2 & Hfresh2 & ->). assert (∀ b, b ∈ (schain_pairs l).*1 → b ∉ psc_Bidders w ∧ m !! b = None) as Hdisj.
      { intros b Hb. specialize (Hfresh2 b Hb). rewrite Hm1 in Hfresh2. by case_decide. }
      split_and!.
      * apply NoDup_app. split_and!; [done| |done]. intros b Hb Hb'. by apply Hdisj in Hb' as [? _].
      * intros b [Hb|Hb]%elem_of_app; [by apply Hfresh|by apply Hdisj].
      * apply map_eq. intros b. rewrite list_to_map_app, !lookup_union, Hm1, Hlook.
        case_decide as Hb; [|by rewrite (left_id_L None _)].
        rewrite (not_elem_of_list_to_map_1 (schain_pairs l)) by (intros Hb'; by apply Hdisj in Hb' as [? _]).
        by rewrite (Hfresh b Hb).
    + destruct IH as [Hin Hno]. split; [by apply elem_of_app; right|]. intros [(_ & Hd & Hnd2)%NoDup_app Hf]. apply Hno. split; [done|].
      intros b Hb. rewrite Hm1, decide_False by (intros Hb'; by apply (Hd b)). apply Hf, elem_of_app. by right.
  - destruct H1 as [Hin Hno]. split; [by apply elem_of_app; left|]. intros [(Hnd & _ & _)%NoDup_app Hf]. apply Hno. split; [done|].
    intros b Hb. apply Hf, elem_of_app. by left.
Qed.

(** The supply chains of the request are read as a map exactly when no bidder is listed
    twice, and the bidder is then sent the chain listed for it, else the one listed for all.
    The chain of the host's own node is appended; and when only the host has a node, the
    bidder is sent that node alone, whatever chain the request itself carried. *)
Theorem schain_of_bidder {J : Json} l host :
  match NewSChainWriter (Some (set_pb_SChains (Some l) empty_prebid)) host with
  | Ok w =>
      NoDup (schain_pairs l).*1 ∧ ∀ rw bidder,
      let listed b := list_to_map (M := gmap string SupplyChain) (schain_pairs l) !! b in
      br_Source (rw_BidRequest (SChainWriter_Write w rw bidder)) ≫= sr_SChain =
        match (match listed bidder with Some c => Some c | None => listed "*" end), host with
        | Some c, None => Some c
        | Some c, Some n => Some {| sc_Ver := sc_Ver c; sc_Complete := sc_Complete c; sc_Nodes := sc_Nodes c ++ [n] |}
        | None, Some n => Some {| sc_Ver := "1.0"; sc_Complete := 0; sc_Nodes := [n] |}
        | None, None => br_Source (rw_BidRequest rw) ≫= sr_SChain
        end
  | Err (MultipleSChains b) => b ∈ (schain_pairs l).*1 ∧ ¬ NoDup (schain_pairs l).*1
  end.
Proof.
  unfold NewSChainWriter, BidderToPrebidSChains. cbn [mbind option_bind pb_SChains set_pb_SChains].
  pose proof (BidderToPrebidSChains_from_spec l ∅) as H. destruct (BidderToPrebidSChains_from l ∅) as [m|[b]]; cbn [rbind].
  - destruct H as (Hnd & _ & ->). rewrite map_union_empty. split; [done|]. intros rw bidder.
    unfold SChainWriter_Write, selected_schain. cbn [scw_sChainsByBidder scw_hostSChainNode].
    set (listed := list_to_map (schain_pairs l) : gmap string SupplyChain). by destruct (listed !! bidder), (listed !! "*"), host.
  - destruct H as [Hin Hno]. split; [done|]. intros Hnd. apply Hno. split; [done|]. intros. apply lookup_empty.
Qed.

(** ** Concrete runs *)
Import JsonTree.

Definition sample_imp : Imp :=
  mkImp "i1" f0 0 (Some (T_obj [("tid", T_str "t");
    ("prebid", T_obj [("bidder", T_obj [("appnexus", T_int 1); ("rubicon", T_int 2)]); ("options", T_int 7); ("imp", T_obj [])])])) "".

Lemma imps_split_by_bidder_witness : ∃ m,
  splitImps (MR := canonical_range) (λ i _, Some i) (λ _, true) [sample_imp] = Ok m ∧
  ∃ copy, m !! "rubicon" = Some [copy] ∧ only_own_params sample_imp copy "rubicon" (T_int 2).
Proof.
  destruct (splitImps (MR := canonical_range) (λ i _, Some i) (λ _, true) [sample_imp]) as [m|e] eqn:E.
  2:{ assert (is_ok (splitImps (MR := canonical_range) (λ i _, Some i) (λ _, true) [sample_imp]) = true) as H by (vm_compute; reflexivity).
      rewrite E in H. discriminate H. }
  exists m. split; [reflexivity|].
  destruct (imps_split_by_bidder (MR := canonical_range) (λ i _, Some i) (λ _, true) [sample_imp] m E "rubicon") as [Hm Hown].
  assert (is_Some (bidder_imp (λ i _, Some i) (λ _, true) sample_imp "rubicon")) as [copy Hc] by (apply (bool_decide_unpack _); by vm_compute).
  exists copy. split; [rewrite Hm; cbn [omap list_omap]; rewrite Hc; reflexivity|].
  destruct (Hown sample_imp copy Hc) as (params & Hp & Ho).
  assert (bidder_params sample_imp "rubicon" = Some (T_int 2)) as Hp' by (vm_compute; reflexivity). rewrite Hp' in Hp. injection Hp as <-. exact Ho.
Defined.

(** Parameters in the old place, under the name of a bidder, go to every bidder of the impression. *)
Example other_bidder_member_is_sent :
  let imp := mkImp "i1" f0 0 (Some (T_obj [("rubicon", T_int 2); ("prebid", T_obj [("bidder", T_obj [("appnexus", T_int 1)])])])) "" in
  (λ c, imp_Ext c ≫= λ e, parse_map e ≫= λ m, m ≫= λ m, m !! "rubicon") <$> bidder_imp (λ i _, Some i) (λ _, true) imp "appnexus" = Some (Some (T_int 2)).
Proof. vm_compute. reflexivity. Qed.

Definition sample_prebid : ExtRequestPrebid :=
  {| pb_Aliases := Some {["a1" := "appnexus"; "a2" := "rubicon"]}; pb_AliasGVLIDs := None; pb_BidAdjustmentFactors := None; pb_BidderParams := None;
     pb_Channel := None; pb_CurrencyConversions := None; pb_EidPermissions := None; pb_Debug := true; pb_Integration := ""; pb_MultiBid := [];
     pb_SChains := None; pb_Sdk := None; pb_Server := None; pb_Targeting := None; pb_AlternateBidderCodes := None; pb_NoSale := ["a2"]; pb_rest := "x" |}.
Definition empty_request : BidRequest User :=
  {| br_Imp := []; br_User := None; br_Device := None; br_Regs := None; br_Source := None; br_Site := None; br_App := None; br_DOOH := None;
     br_Ext := None; br_rest := "" |}.
Definition with_prebid (p : ExtRequestPrebid) : RequestWrapper :=
  set_rw_requestExt (Some (mkRequestExt (Some ∅) false (clean (Some p)) (clean None))) (wrap_request empty_request).

Lemma bidder_ext_names_no_other_bidder_witness : ∃ rw e p,
  buildRequestExtForBidder (MR := canonical_range) "a1" (with_prebid sample_prebid) ∅ None = Ok rw ∧ rw_requestExt rw = Some e ∧
  val (re_prebid e) = Some p ∧ pb_Aliases p = Some {["a1" := "appnexus"]} ∧ pb_NoSale p = [].
Proof.
  destruct (bidder_ext_names_no_other_bidder (MR := canonical_range) "a1" (with_prebid sample_prebid) ∅ None _ eq_refl)
    as (_ & e & p & He & _ & Hp & _ & _ & _ & _ & _ & _ & _ & _ & Hn).
  eexists _, e, p. split; [reflexivity|]. split; [exact He|]. split; [exact Hp|]. split; [|exact Hn].
  cbn in He. injection He as <-. cbn in Hp. injection Hp as <-. reflexivity.
Defined.
