(* ===== verification/RequestSplit.v ===== *)
(** * One request per bidder: src/exchange/utils.go [cleanOpenRTBRequests]

    The splitter builds every bidder's request from the auction's: impressions, supply chain, ids,
    extension, floors and user; then first party data, the privacy rules, the GPP downgrade and the
    conversion to OpenRTB 2.5.  An outer [None] is a panic.

    Two things are shared between the turns of the loop.  Every copy of the request points to the
    user of the original until the user is replaced, so [removeUnpermissionedEids] changes the user
    all later bidders see; and [applyFPD] changes the first party data of the bidder.  Both are in
    the [loop_state].  [fpdUserEIDExists] compares the addresses of ids, so the state also names
    the array behind the ids. *)
From S2P Require Import Prelude GoFloat GdprConfig Gdpr Privacy GoNet ExtWrapper RequestWrapper OrtbConvert Scrubber RequestParts.

(** The version and the GPP support a bidder declares, if it declares any. *)
Record BidderInfo := { bi_OpenRTB : option (string * bool) }.
Record LegacyLabels := { lab_Source : string; lab_RType : string; lab_PubID : string; lab_CookieFlag : string }.
Record AdapterLabels := { al_Adapter : string; al_CookieFlag : string; al_Source : string; al_RType : string; al_PubID : string; al_BidPresent : bool }.
Record PrivacyLabels := {
  pl_CCPAProvided : bool; pl_CCPAEnforced : bool; pl_COPPAEnforced : bool; pl_GDPREnforced : bool; pl_GDPRTCFVersion : option Z; pl_LMTEnforced : bool
}.
Definition no_labels : PrivacyLabels :=
  {| pl_CCPAProvided := false; pl_CCPAEnforced := false; pl_COPPAEnforced := false; pl_GDPREnforced := false; pl_GDPRTCFVersion := None;
     pl_LMTEnforced := false |}.

Inductive clean_error :=
| E_aliases | E_split (e : split_error) | E_buyeruids | E_bidderParams | E_schain (e : schain_error) | E_gpp | E_ccpa (e : ccpa_error)
| E_eidPermissions | E_requestExt | E_blocked (coreBidder : string) | E_convert.

Section splitter.
  Context {J : Json} {MR : MapRange}.

(** First party data resolved for a bidder; [fpd_eids_array] names the array of its user's ids. *)
Record ResolvedFirstPartyData := mkFPD {
  fpd_Site : option Inventory; fpd_App : option Inventory; fpd_Device : option Device; fpd_User : option User; fpd_eids_array : nat
}.

(** [requestSplitter] with the libraries it calls: JSON merging and validation of impressions,
    the GPP parser, the version of a consent string, the permissions builder, and the decoding of
    [request.ext.prebid.bidderparams]. *)
Record requestSplitter := {
  rs_bidderToSyncerKey : gmap string string;
  rs_bidderInfo : gmap string BidderInfo;
  rs_hostSChainNode : option SupplyChainNode;
  rs_ccpaEnforce : bool;
  rs_lmtEnforce : bool;
  rs_coreBidders : list string;
  rs_merge : Imp → raw → option Imp;
  rs_validImp : Imp → bool;
  rs_gppParse : string → list (Z * string) * bool;
  rs_tcfVersion : string → option Z;
  rs_permissions : RequestInfo → string → string → AuctionPermissions;
  rs_paramsMap : string → option (gmap string string)
}.
Record AuctionRequest := {
  aq_Req : RequestWrapper;
  aq_StoredBidResponses : gmap string (gmap string string);
  aq_AlternateBidderCodes : option ExtAlternateBidderCodes;
  aq_AdjustForBidAdjustment : bool;
  aq_ccpaForChannel : option bool;
  aq_IPConf : IPConf;
  aq_Activities : ActivityControl;
  aq_GDPREnforced : bool;
  aq_GDPRSignal : Signal;
  aq_UserSyncs : string → string * bool;
  aq_FirstPartyData : gmap string ResolvedFirstPartyData;
  aq_eids_array : nat;
  aq_BidderImpReplaceImpID : gmap string (gmap string bool);
  aq_LegacyLabels : LegacyLabels
}.
Record BidderRequest := {
  bq_BidderName : string;
  bq_BidderCoreName : string;
  bq_BidRequest : BidRequest User;
  bq_IsRequestAlias : bool;
  bq_BidderStoredResponses : gmap string string;
  bq_ImpReplaceImpId : gmap string bool;
  bq_BidderLabels : AdapterLabels
}.

Definition PreloadExts (req : RequestWrapper) : result unit RequestWrapper :=
  let? (_, req) := GetRequestExt req in
  let? (_, req) := GetUserExt req in
  let? (_, req) := GetDeviceExt req in
  let? (_, req) := GetRegExt req in
  let? (_, req) := GetSiteExt req in
  let? (_, req) := GetDOOHExt req in
  let? (_, req) := GetSourceExt req in
  Ok req.

(** ** Shared state of the loop *)
Record loop_state := mkState {
  ls_req : RequestWrapper;
  ls_eids_array : nat;
  ls_next : nat;
  ls_fpd : gmap string ResolvedFirstPartyData
}.

Definition fpdUserEIDExists (st : loop_state) (bidder : string) : bool :=
  match ls_fpd st !! bidder with
  | Some fpd =>
      match fpd_User fpd with
      | Some user =>
          let fpdUserEIDs := default [] (us_EIDs user) in
          match fpdUserEIDs, br_User (rw_BidRequest (ls_req st)) with
          | [], _ => false
          | _, None => true
          | _, Some reqUser =>
              let reqUserEIDs := default [] (us_EIDs reqUser) in
              negb (length reqUserEIDs =? length fpdUserEIDs)%nat || negb (ls_eids_array st =? fpd_eids_array fpd)%nat
          end
      | None => false
      end
  | None => false
  end.

(** The copy and the original point to one user: what was written to the copy's is in both.
    Removed ids leave a new array behind. *)
Definition share_user (reqCopy : RequestWrapper) (st : loop_state) : loop_state :=
  let eids rw := default [] (br_User (rw_BidRequest rw) ≫= us_EIDs) in
  let req' := set_User (br_User (rw_BidRequest reqCopy)) (ls_req st) in
  if (length (eids reqCopy) =? length (eids (ls_req st)))%nat then mkState req' (ls_eids_array st) (ls_next st) (ls_fpd st)
  else mkState req' (ls_next st) (S (ls_next st)) (ls_fpd st).

Definition or_else {A} (a b : option A) : option A := match a with Some _ => a | None => b end.
Definition applyFPD (st : loop_state) (coreBidderName bidderName : string) (isRequestAlias : bool) (rw : RequestWrapper)
    (fpdUserEIDsPresent : bool) : RequestWrapper * loop_state :=
  let bidder := if isRequestAlias then bidderName else coreBidderName in
  match ls_fpd st !! bidder with
  | None => (rw, st)
  | Some fpd =>
      let br := rw_BidRequest rw in
      let br := set_br_Device (or_else (fpd_Device fpd) (br_Device br)) (set_br_App (or_else (fpd_App fpd) (br_App br))
                  (set_br_Site (or_else (fpd_Site fpd) (br_Site br)) br)) in
      match fpd_User fpd with
      | None => (set_rw_BidRequest br rw, st)
      | Some fpdUser =>
          let '(fpdUser, arr) :=
            match br_User br with
            | Some user =>
                let fpdUser := if us_BuyerUID user =s? "" then fpdUser else set_us_BuyerUID (us_BuyerUID user) fpdUser in
                if fpdUserEIDsPresent then (fpdUser, fpd_eids_array fpd) else (set_us_EIDs (us_EIDs user) fpdUser, ls_eids_array st)
            | None => (fpdUser, fpd_eids_array fpd)
            end in
          let fpd := mkFPD (fpd_Site fpd) (fpd_App fpd) (fpd_Device fpd) (Some fpdUser) arr in
          (set_rw_BidRequest (set_br_User (Some fpdUser) br) rw,
           mkState (ls_req st) (ls_eids_array st) (ls_next st) (<[bidder := fpd]> (ls_fpd st)))
      end
  end.

(** ** Privacy *)
Definition bidder_scope (bidder : string) : Component := {| comp_Type := "bidder"; comp_Name := bidder |}.
Definition activity_request (rw : RequestWrapper) : ActivityRequest :=
  NewRequestFromBidRequest (br_Regs (rw_BidRequest rw) ≫= rg_GPPSID).
Definition isBidderBlockedByPrivacy (rw : RequestWrapper) (activities : ActivityControl) (auctionPermissions : AuctionPermissions)
    (bidderName : string) : bool :=
  if negb (Allow activities ActivityFetchBids (bidder_scope bidderName) (activity_request rw)) then true
  else negb (AllowBidRequest auctionPermissions).

(** [bidRequest] is cloned first; values here are copies by nature. *)
Definition applyPrivacy (aq : AuctionRequest) (rw : RequestWrapper) (bidderName : string) (auctionPermissions : AuctionPermissions)
    (ccpaEnforcer : policy_enforcer) (lmt coppa : bool) : option RequestWrapper :=
  let scope := bidder_scope bidderName in
  let ipConf := aq_IPConf aq in
  rw ← (if negb (Allow (aq_Activities aq) ActivityTransmitUserFPD scope (activity_request rw)) then ScrubUserFPD rw
        else
          let rw := if negb (PassID auctionPermissions) then ScrubGdprID rw else rw in
          Some (if ShouldEnforce ccpaEnforcer bidderName then ScrubDeviceIDsIPsUserDemoExt rw ipConf "eids" false else rw));
  let rw :=
    if negb (Allow (aq_Activities aq) ActivityTransmitPreciseGeo scope (activity_request rw)) then ScrubGeoAndDeviceIP rw ipConf
    else
      let rw := if negb (PassGeo auctionPermissions) then ScrubGeoAndDeviceIP rw ipConf else rw in
      if ShouldEnforce ccpaEnforcer bidderName then ScrubDeviceIDsIPsUserDemoExt rw ipConf "eids" false else rw in
  let rw := if lmt || coppa then ScrubDeviceIDsIPsUserDemoExt rw ipConf "eids" coppa else rw in
  let rw := if negb (Allow (aq_Activities aq) ActivityTransmitTIDs scope (activity_request rw)) then ScrubTID rw else rw in
  RebuildRequest rw.

Definition shouldSetLegacyPrivacy (bidderInfo : gmap string BidderInfo) (bidder : string) : bool :=
  match bidderInfo !! bidder ≫= bi_OpenRTB with
  | None => true
  | Some (_, GPPSupported) => negb GPPSupported
  end.
Definition takes26 (bidderInfo : gmap string BidderInfo) (bidder : string) : bool :=
  match bidderInfo !! bidder ≫= bi_OpenRTB with Some (version, _) => version =s? "2.6" | None => false end.

(** ** One bidder *)

(** What the loop uses of the request as a whole. *)
Record split_context := {
  sc_aliases : gmap string string;
  sc_stored : gmap string (gmap string string);
  sc_buyerUIDs : gmap string string;
  sc_params : gmap string string;
  sc_writer : SChainWriter;
  sc_gpp : list (Z * string);
  sc_ccpa : policy_enforcer;
  sc_lmt : bool;
  sc_coppa : bool;
  sc_perms : string → string → AuctionPermissions;
  sc_factors : gmap string float64
}.

(** Up to the decision whether the bidder is asked at all. *)
Definition prepare_bidder (rs : requestSplitter) (aq : AuctionRequest) (cx : split_context) (st : loop_state) (bidder : string) (imps : list Imp)
    : loop_state * result clean_error (RequestWrapper * bool) :=
  let rw := set_Imp imps (CloneAndClearImpWrappers (ls_req st)) in
  let '(coreBidder, _) := resolveBidder (rs_coreBidders rs) bidder (sc_aliases cx) in
  let rw := SChainWriter_Write (sc_writer cx) rw bidder in
  match removeUnpermissionedEids rw bidder with
  | Err _ => (st, Err E_eidPermissions)
  | Ok rw =>
      let st := share_user rw st in
      match buildRequestExtForBidder bidder rw (sc_params cx) (aq_AlternateBidderCodes aq) with
      | Err _ => (st, Err E_requestExt)
      | Ok rw =>
          let rw := if aq_AdjustForBidAdjustment aq then applyBidAdjustmentToFloor rw bidder (sc_factors cx) else rw in
          let syncerKey := default "" (rs_bidderToSyncerKey rs !! coreBidder) in
          (st, Ok (prepareUser rw bidder syncerKey (sc_buyerUIDs cx) (aq_UserSyncs aq)))
      end
  end.
(** From the privacy rules to the request that is sent. *)
Definition finish_bidder (rs : requestSplitter) (aq : AuctionRequest) (cx : split_context) (coreBidder bidder : string) (rw : RequestWrapper)
    : option (result clean_error RequestWrapper) :=
  rw ← applyPrivacy aq rw bidder (sc_perms cx coreBidder bidder) (sc_ccpa cx) (sc_lmt cx) (sc_coppa cx);
  let rw := if shouldSetLegacyPrivacy (rs_bidderInfo rs) coreBidder
            then setLegacyUSPFromGPP (setLegacyGDPRFromGPP rw (sc_gpp cx)) (sc_gpp cx) else rw in
  let rw := match sc_stored cx !! bidder with Some impResponses => removeImpsWithStoredResponses rw impResponses | None => rw end in
  match (if takes26 (rs_bidderInfo rs) bidder then Ok rw else ConvertDownTo25 rw) with
  | Err _ => Some (Err E_convert)
  | Ok rw => Ok <$> RebuildRequest rw
  end.
Definition split_bidder (rs : requestSplitter) (aq : AuctionRequest) (cx : split_context) (st : loop_state) (entry : string * list Imp)
    : option (loop_state * result clean_error BidderRequest) :=
  let '(bidder, imps) := entry in
  let fpdUserEIDsPresent := fpdUserEIDExists st bidder in
  let '(coreBidder, isRequestAlias) := resolveBidder (rs_coreBidders rs) bidder (sc_aliases cx) in
  match prepare_bidder rs aq cx st bidder imps with
  | (st, Err e) => Some (st, Err e)
  | (st, Ok (rw, hadSync)) =>
      if isBidderBlockedByPrivacy rw (aq_Activities aq) (sc_perms cx coreBidder bidder) bidder then Some (st, Err (E_blocked coreBidder))
      else
        let '(rw, st) := applyFPD st coreBidder bidder isRequestAlias rw fpdUserEIDsPresent in
        r ← finish_bidder rs aq cx coreBidder bidder rw;
        Some (st, let? rw := r in
          let lab := aq_LegacyLabels aq in
          let present := negb (bool_decide (br_Imp (rw_BidRequest rw) = [] )) in
          let flag := if negb hadSync && bool_decide (br_App (rw_BidRequest (ls_req st)) = None) then "no" else "yes" in
          Ok {| bq_BidderName := bidder; bq_BidderCoreName := coreBidder; bq_BidRequest := rw_BidRequest rw; bq_IsRequestAlias := isRequestAlias;
                bq_BidderStoredResponses := default ∅ (sc_stored cx !! bidder);
                bq_ImpReplaceImpId := default ∅ (aq_BidderImpReplaceImpID aq !! bidder);
                bq_BidderLabels :=
                  if present then {| al_Adapter := coreBidder; al_CookieFlag := lab_CookieFlag lab; al_Source := lab_Source lab; al_RType := lab_RType lab;
                                     al_PubID := lab_PubID lab; al_BidPresent := true |}
                  else {| al_Adapter := coreBidder; al_CookieFlag := flag; al_Source := ""; al_RType := ""; al_PubID := ""; al_BidPresent := false |} |})
  end.
Fixpoint split_loop (rs : requestSplitter) (aq : AuctionRequest) (cx : split_context) (st : loop_state) (entries : list (string * list Imp))
    : option (list BidderRequest * list clean_error) :=
  match entries with
  | [] => Some ([], [])
  | entry :: entries =>
      '(st, r) ← split_bidder rs aq cx st entry;
      '(reqs, errs) ← split_loop rs aq cx st entries;
      Some match r with Ok q => (q :: reqs, errs) | Err e => (reqs, e :: errs) end
  end.

(** ** The whole request *)
Definition ExtractReqExtBidderParamsMap (rs : requestSplitter) (ext : option raw) : option (gmap string string) :=
  e ← RequestExt_unmarshal ext;
  match val (re_prebid e) ≫= pb_BidderParams with
  | None => Some ∅
  | Some params => rs_paramsMap rs params
  end.
(** What the CCPA and GDPR code reads of a request. *)
Definition ccpa_view (br : BidRequest User) : ccpa_request :=
  {| cq_Regs := (λ r, (rg_USPrivacy r, default [] (rg_GPPSID r))) <$> br_Regs br;
     cq_NoSale := (λ e, pb_NoSale <$> val (re_prebid e)) <$> RequestExt_unmarshal (br_Ext br) |}.
Definition gdpr_view (br : BidRequest User) : gdpr_request :=
  {| req_GPPSID := br_Regs br ≫= rg_GPPSID; req_RegsGDPR := br_Regs br ≫= rg_GDPR; req_UserConsent := us_Consent <$> br_User br;
     req_UserGeo := None; req_DeviceGeo := None |}.

(** The context of the loop with the errors that do not stop it. *)
Definition make_context (rs : requestSplitter) (aq : AuctionRequest) (req : RequestWrapper) (aliases : gmap string string) (gvlids : gmap string Z)
    (buyerUIDs params : gmap string string) (writer : SChainWriter) (factors : gmap string float64)
    : split_context * PrivacyLabels * list clean_error :=
  let br := rw_BidRequest req in
  let '(gpp, gppErr) := match br_Regs br with Some regs => if rg_GPP regs =s? "" then ([], false) else rs_gppParse rs (rg_GPP regs) | None => ([], false) end in
  let consent := GetConsent (gdpr_view br) gpp in
  let '(ccpa, ccpaErr) := extractCCPA (ccpa_view br) (aq_ccpaForChannel aq) (rs_ccpaEnforce rs) (GetValidBidders (rs_coreBidders rs) aliases) gpp in
  let lmtEnforcer := extractLMT (br_Device br ≫= dv_Lmt) (rs_lmtEnforce rs) in
  let coppa := match br_Regs br with Some regs => rg_COPPA regs =? 1 | None => false end in
  let lmt := ShouldEnforce lmtEnforcer "" in
  let labels := {| pl_CCPAProvided := CanEnforce ccpa; pl_CCPAEnforced := ShouldEnforce ccpa ""; pl_COPPAEnforced := coppa;
                   pl_GDPREnforced := aq_GDPREnforced aq; pl_GDPRTCFVersion := if aq_GDPREnforced aq then rs_tcfVersion rs consent else None;
                   pl_LMTEnforced := lmt |} in
  let perms core bidder :=
    if aq_GDPREnforced aq then
      rs_permissions rs {| ri_AliasGVLIDs := gvlids; ri_Consent := consent; ri_GDPRSignal := aq_GDPRSignal aq; ri_PublisherID := lab_PubID (aq_LegacyLabels aq) |}
        core bidder
    else AllowAll in
  ({| sc_aliases := aliases; sc_stored := InitStoredBidResponses (aq_StoredBidResponses aq); sc_buyerUIDs := lowerCaseExplicitBuyerUIDs buyerUIDs;
      sc_params := params; sc_writer := writer; sc_gpp := gpp; sc_ccpa := ccpa; sc_lmt := lmt; sc_coppa := coppa; sc_perms := perms;
      sc_factors := factors |},
   labels, (if gppErr : bool then [E_gpp] else []) ++ match ccpaErr with Some e => [E_ccpa e] | None => [] end).

(** An array none of the ids is in yet. *)
Definition fresh_array (aq : AuctionRequest) : nat :=
  S (map_fold (λ _ fpd n, Nat.max (fpd_eids_array fpd) n) (aq_eids_array aq) (aq_FirstPartyData aq)).

Definition cleanOpenRTBRequests (rs : requestSplitter) (aq : AuctionRequest) (requestExt : option ExtRequestPrebid) (bidAdjustmentFactors : gmap string float64)
    : option (list BidderRequest * PrivacyLabels * list clean_error) :=
  match PreloadExts (aq_Req aq) with
  | Err _ => Some ([], no_labels, [])   (* the error is not returned *)
  | Ok req =>
      match getRequestAliases req with
      | Err _ => Some ([], no_labels, [E_aliases])
      | Ok (requestAliases, requestAliasesGVLIDs, req) =>
          match splitImps (rs_merge rs) (rs_validImp rs) (br_Imp (rw_BidRequest req)) with
          | Err e => Some ([], no_labels, [E_split e])
          | Ok impsByBidder =>
              match extractAndCleanBuyerUIDs req with
              | Err _ => Some ([], no_labels, [E_buyeruids])
              | Ok (explicitBuyerUIDs, req) =>
                  match ExtractReqExtBidderParamsMap rs (br_Ext (rw_BidRequest req)) with
                  | None => Some ([], no_labels, [E_bidderParams])
                  | Some bidderParamsInReqExt =>
                      match NewSChainWriter requestExt (rs_hostSChainNode rs) with
                      | Err e => Some ([], no_labels, [E_schain e])
                      | Ok sChainWriter =>
                          let '(cx, labels, errs) := make_context rs aq req requestAliases requestAliasesGVLIDs explicitBuyerUIDs
                                                       bidderParamsInReqExt sChainWriter bidAdjustmentFactors in
                          let st := mkState req (aq_eids_array aq) (fresh_array aq) (aq_FirstPartyData aq) in
                          '(reqs, loopErrs) ← split_loop rs aq cx st (map_range impsByBidder);
                          Some (reqs, labels, errs ++ loopErrs)
                      end
                  end
              end
          end
      end
  end.
End splitter.
