(* ===== verification/SplitSpec.v ===== *)
(** * What reaches the bidders: theorems on src/exchange/utils.go and src/privacy/scrubber.go

    The requests [RequestSplit.cleanOpenRTBRequests] builds: which bidders get one, which ids they
    hold, and what the privacy rules take out. *)
From S2P Require Import Prelude GoFloat GdprConfig Gdpr Privacy GoNet ExtWrapper RequestWrapper OrtbConvert Scrubber RequestParts RequestSplit.

Section spec.
  Context {J : Json} {MR : MapRange}.
  Implicit Types (rw : RequestWrapper) (br : BidRequest User).

(** ** What a request says about the person; an object that is missing says what an empty one does. *)
Definition user_of br : User := default empty_user (br_User br).
Definition device_of br : Device := default empty_device (br_Device br).
Definition user_ids br : string * string * Z * string :=
  let u := user_of br in (us_ID u, us_BuyerUID u, us_Yob u, us_Gender u).
Definition device_ids br : list string :=
  let d := device_of br in [dv_DIDMD5 d; dv_DIDSHA1 d; dv_DPIDMD5 d; dv_DPIDSHA1 d; dv_IFA d; dv_MACMD5 d; dv_MACSHA1 d].
Definition geos br : option Geo * option Geo := (us_Geo (user_of br), dv_Geo (device_of br)).
Definition addresses br : string * string := (dv_IP (device_of br), dv_IPv6 (device_of br)).
Definition eids_of br : option (list EID) := br_User br ≫= us_EIDs.

Record same_person rw rw' : Prop := {
  sp_user : user_ids (rw_BidRequest rw') = user_ids (rw_BidRequest rw);
  sp_device : device_ids (rw_BidRequest rw') = device_ids (rw_BidRequest rw);
  sp_geos : geos (rw_BidRequest rw') = geos (rw_BidRequest rw);
  sp_addresses : addresses (rw_BidRequest rw') = addresses (rw_BidRequest rw);
  sp_eids : eids_of (rw_BidRequest rw') = eids_of (rw_BidRequest rw)
}.
#[local] Instance same_person_preorder : PreOrder same_person.
Proof.
  split; [by intros rw; split|]. intros rw1 rw2 rw3 [] []. split; by etrans.
Qed.

Lemma same_person_fields rw rw' : br_User (rw_BidRequest rw') = br_User (rw_BidRequest rw) →
  br_Device (rw_BidRequest rw') = br_Device (rw_BidRequest rw) → same_person rw rw'.
Proof.
  intros Hu Hd. split; unfold user_ids, device_ids, geos, addresses, eids_of, user_of, device_of; by rewrite ?Hu, ?Hd.
Qed.

(** Printing the extensions says nothing new. *)
Ltac rebuild_tac tac :=
  intros H; repeat (case_match; simplify_eq/=); try done;
  try match type of H with (?x ≫= _) = Some _ => destruct x as [[? ?]|]; [|done] end; simplify_eq/=; tac.

Lemma rebuildImp_same rw rw' : rebuildImp rw = Some rw' → same_person rw rw'.
Proof.
  unfold rebuildImp. destruct (rw_impWrappers rw); [|by intros [= ->]]. destruct (mapM _ _); [|done]. simpl. intros [= <-].
  by apply same_person_fields.
Qed.
Lemma rebuildUserExt_same rw rw' : rebuildUserExt rw = Some rw' → same_person rw rw'.
Proof.
  unfold rebuildUserExt. rebuild_tac ltac:(destruct (br_User (rw_BidRequest rw)) eqn:Hu; [|destruct o]);
    split; unfold user_ids, geos, eids_of, user_of; simpl; by rewrite ?Hu.
Qed.
Lemma rebuildDeviceExt_same rw rw' : rebuildDeviceExt rw = Some rw' → same_person rw rw'.
Proof.
  unfold rebuildDeviceExt. rebuild_tac ltac:(destruct (br_Device (rw_BidRequest rw)) eqn:Hd; [|destruct o]);
    split; unfold device_ids, geos, addresses, device_of; simpl; by rewrite ?Hd.
Qed.
Lemma rebuildRequestExt_same rw rw' : rebuildRequestExt rw = Some rw' → same_person rw rw'.
Proof. unfold rebuildRequestExt. rebuild_tac ltac:(by apply same_person_fields). Qed.
Lemma rebuildAppExt_same rw rw' : rebuildAppExt rw = Some rw' → same_person rw rw'.
Proof. unfold rebuildAppExt. rebuild_tac ltac:(by apply same_person_fields). Qed.
Lemma rebuildRegExt_same rw rw' : rebuildRegExt rw = Some rw' → same_person rw rw'.
Proof. unfold rebuildRegExt. rebuild_tac ltac:(by apply same_person_fields). Qed.
Lemma rebuildSiteExt_same rw rw' : rebuildSiteExt rw = Some rw' → same_person rw rw'.
Proof. unfold rebuildSiteExt. rebuild_tac ltac:(by apply same_person_fields). Qed.
Lemma rebuildDOOHExt_same rw rw' : rebuildDOOHExt rw = Some rw' → same_person rw rw'.
Proof. unfold rebuildDOOHExt. rebuild_tac ltac:(by apply same_person_fields). Qed.
Lemma rebuildSourceExt_same rw rw' : rebuildSourceExt rw = Some rw' → same_person rw rw'.
Proof. unfold rebuildSourceExt. rebuild_tac ltac:(by apply same_person_fields). Qed.

Lemma RebuildRequest_same rw rw' : RebuildRequest rw = Some rw' → same_person rw rw'.
Proof.
  unfold RebuildRequest. intros H.
  destruct (rebuildImp rw) as [rw1|] eqn:E1; [|done]. cbn [mbind option_bind] in H.
  destruct (rebuildUserExt rw1) as [rw2|] eqn:E2; [|done]. cbn [mbind option_bind] in H.
  destruct (rebuildDeviceExt rw2) as [rw3|] eqn:E3; [|done]. cbn [mbind option_bind] in H.
  destruct (rebuildRequestExt rw3) as [rw4|] eqn:E4; [|done]. cbn [mbind option_bind] in H.
  destruct (rebuildAppExt rw4) as [rw5|] eqn:E5; [|done]. cbn [mbind option_bind] in H.
  destruct (rebuildRegExt rw5) as [rw6|] eqn:E6; [|done]. cbn [mbind option_bind] in H.
  destruct (rebuildSiteExt rw6) as [rw7|] eqn:E7; [|done]. cbn [mbind option_bind] in H.
  destruct (rebuildDOOHExt rw7) as [rw8|] eqn:E8; [|done]. cbn [mbind option_bind] in H.
  etrans; [by eapply rebuildImp_same|]. etrans; [by eapply rebuildUserExt_same|]. etrans; [by eapply rebuildDeviceExt_same|].
  etrans; [by eapply rebuildRequestExt_same|]. etrans; [by eapply rebuildAppExt_same|]. etrans; [by eapply rebuildRegExt_same|].
  etrans; [by eapply rebuildSiteExt_same|]. etrans; [by eapply rebuildDOOHExt_same|]. by eapply rebuildSourceExt_same.
Qed.

(** The same but for the ids, which a conversion moves. *)
Record same_body rw rw' : Prop := {
  sb_user : user_ids (rw_BidRequest rw') = user_ids (rw_BidRequest rw);
  sb_device : device_ids (rw_BidRequest rw') = device_ids (rw_BidRequest rw);
  sb_geos : geos (rw_BidRequest rw') = geos (rw_BidRequest rw);
  sb_addresses : addresses (rw_BidRequest rw') = addresses (rw_BidRequest rw)
}.
#[local] Instance same_body_preorder : PreOrder same_body.
Proof. split; [by intros rw; split|]. intros rw1 rw2 rw3 [] []. split; by etrans. Qed.
Lemma same_person_body rw rw' : same_person rw rw' → same_body rw rw'.
Proof. by intros []; split. Qed.

Lemma upd_User_body f rw :
  (∀ u, us_ID (f u) = us_ID u ∧ us_BuyerUID (f u) = us_BuyerUID u ∧ us_Yob (f u) = us_Yob u ∧ us_Gender (f u) = us_Gender u ∧ us_Geo (f u) = us_Geo u) →
  same_body rw (upd_User f rw).
Proof.
  intros Hf. split; unfold user_ids, device_ids, geos, addresses, user_of, device_of; simpl; try done;
    destruct (br_User (rw_BidRequest rw)) as [u|]; simpl; try done; 
    destruct (Hf u) as (H1 & H2 & H3 & H4 & H5); by rewrite ?H1, ?H2, ?H3, ?H4, ?H5.
Qed.

Lemma ConvertDownTo25_body rw rw' : ConvertDownTo25 rw = Ok rw' → same_body rw rw'.
Proof.
  unfold ConvertDownTo25. intros H.
  destruct (moveSupplyChainFrom26To25 rw) as [rw1|] eqn:E1; [|done]. cbn [rbind] in H.
  destruct (moveGDPRFrom26To25 rw1) as [rw2|] eqn:E2; [|done]. cbn [rbind] in H.
  destruct (moveConsentFrom26To25 rw2) as [rw3|] eqn:E3; [|done]. cbn [rbind] in H.
  destruct (moveUSPrivacyFrom26To25 rw3) as [rw4|] eqn:E4; [|done]. cbn [rbind] in H.
  destruct (moveEIDFrom26To25 rw4) as [rw5|] eqn:E5; [|done]. cbn [rbind] in H.
  destruct (GetImp rw5) as [imps rw6] eqn:E6. destruct (map_result _ imps) as [imps'|]; [|done]. cbn [rbind] in H. injection H as <-.
  etrans; [|apply same_person_body, (same_person_fields rw6); done].
  etrans; [|apply same_person_body, (same_person_fields rw5); unfold GetImp in E6; by case_match; simplify_eq/=].
  transitivity rw4; [transitivity rw3; [transitivity rw2; [transitivity rw1|]|]|].
  - unfold moveSupplyChainFrom26To25 in E1. case_match; [|by simplify_eq]. destruct (GetSourceExt _) as [[e x]|] eqn:E; [|done].
    apply GetSourceExt_ok in E. simplify_eq/=. apply same_person_body. by apply same_person_fields.
  - unfold moveGDPRFrom26To25 in E2. case_match; [|by simplify_eq]. destruct (GetRegExt _) as [[e x]|] eqn:E; [|done].
    apply GetRegExt_ok in E. simplify_eq/=. apply same_person_body. by apply same_person_fields.
  - unfold moveConsentFrom26To25 in E3. destruct (us_Consent <$> the_User rw2) as [[|a c]|]; [by simplify_eq| |by simplify_eq].
    destruct (GetUserExt _) as [[e x]|] eqn:E; [|done]. apply GetUserExt_ok in E. simplify_eq/=. 
    etrans; [by apply (upd_User_body (set_us_Consent ""))|]. by apply same_person_body, same_person_fields.
  - unfold moveUSPrivacyFrom26To25 in E4. destruct (rg_USPrivacy <$> the_Regs rw3) as [[|a c]|]; [by simplify_eq| |by simplify_eq].
    destruct (GetRegExt _) as [[e x]|] eqn:E; [|done]. apply GetRegExt_ok in E. simplify_eq/=. apply same_person_body. by apply same_person_fields.
  - unfold moveEIDFrom26To25 in E5. case_match; [|by simplify_eq]. destruct (GetUserExt _) as [[e x]|] eqn:E; [|done].
    apply GetUserExt_ok in E. simplify_eq/=. 
    etrans; [by apply (upd_User_body (set_us_EIDs None))|]. by apply same_person_body, same_person_fields.
Qed.

(** ** The GPP downgrade and stored responses *)
Lemma set_consent_same rw v : same_person rw (set_User (Some (set_us_Consent v (user_of (rw_BidRequest rw)))) rw).
Proof. split; try done; unfold user_ids, geos, eids_of, user_of; simpl; by destruct (br_User (rw_BidRequest rw)). Qed.

Lemma legacy_consent_same rw l :
  same_person rw (foldl (λ req '(id, v), if id =? SectionTCFEU2 then
    let user := default empty_user (br_User (rw_BidRequest req)) in set_User (Some (set_us_Consent v user)) req else req) rw l).
Proof.
  revert rw. induction l as [|[id v] l IH]; intros rw; [done|]. cbn [foldl]. destruct (id =? SectionTCFEU2); [|apply IH].
  etrans; [apply (set_consent_same rw v)|apply IH].
Qed.

Lemma setLegacyGDPRFromGPP_same rw l : same_person rw (setLegacyGDPRFromGPP rw l).
Proof.
  unfold setLegacyGDPRFromGPP. set (rw1 := match br_Regs _ with Some _ => _ | None => _ end).
  transitivity rw1; [subst rw1; repeat case_match; try done; by apply same_person_fields|].
  destruct (br_User (rw_BidRequest rw1)) as [u|]; [destruct (us_Consent u =s? ""); [|done]|]; apply legacy_consent_same.
Qed.

Lemma legacy_usp_same rw l :
  same_person rw (foldl (λ req '(id, v), if id =? SectionUSPV1 then
    match br_Regs (rw_BidRequest req) with Some regs => set_Regs (Some (set_rg_USPrivacy v regs)) req | None => req end else req) rw l).
Proof.
  revert rw. induction l as [|[id v] l IH]; intros rw; [done|]. cbn [foldl]. etrans; [|apply IH].
  destruct (id =? SectionUSPV1); [|done]. case_match; [|done]. by apply same_person_fields.
Qed.

Lemma setLegacyUSPFromGPP_same rw l : same_person rw (setLegacyUSPFromGPP rw l).
Proof.
  unfold setLegacyUSPFromGPP. destruct (br_Regs _) as [r|]; [|done]. destruct (rg_GPPSID r) as [sids|]; [|done]. case_match; [done|].
  clear. revert rw. induction sids as [|sid sids IH]; intros rw; [done|]. cbn [foldl]. etrans; [|apply IH].
  destruct (sid =? SectionUSPV1); [|done]. apply legacy_usp_same.
Qed.

Lemma removeImps_same rw m : same_person rw (removeImpsWithStoredResponses rw m).
Proof. unfold removeImpsWithStoredResponses. case_decide; [done|]. by apply same_person_fields. Qed.

(** ** Scrubbing *)
Definition ids_removed br : Prop := user_ids br = ("", "", 0, "") ∧ device_ids br = replicate 7 "".
Definition same_ids rw rw' : Prop :=
  user_ids (rw_BidRequest rw') = user_ids (rw_BidRequest rw) ∧ device_ids (rw_BidRequest rw') = device_ids (rw_BidRequest rw).
Definition same_eids rw rw' : Prop := eids_of (rw_BidRequest rw') = eids_of (rw_BidRequest rw).

Lemma scrubUserExt_same rw k : same_person rw (scrubUserExt_ignored rw k).
Proof.
  unfold scrubUserExt_ignored, scrubUserExt. destruct (br_User (rw_BidRequest rw)); [|done].
  destruct (GetUserExt rw) as [[e rw']|] eqn:E; [|done]. apply GetUserExt_ok in E as ->. cbn [rbind]. destruct (UserExt_GetExt e !! k); by apply same_person_fields.
Qed.

(** Reduces a scrubber on the objects the request has. *)
Ltac scrub_tac := unfold ids_removed, same_ids, same_eids, user_ids, device_ids, geos, addresses, eids_of, user_of, device_of; simpl;
  repeat match goal with |- context [br_User (rw_BidRequest ?r)] => destruct (br_User (rw_BidRequest r)); simpl end;
  repeat match goal with |- context [br_Device (rw_BidRequest ?r)] => destruct (br_Device (rw_BidRequest r)); simpl end; done.

Lemma ids_removed_same rw rw' : same_person rw rw' → ids_removed (rw_BidRequest rw) → ids_removed (rw_BidRequest rw').
Proof. intros [] []. split; by etrans. Qed.
Lemma ids_removed_ids rw rw' : same_ids rw rw' → ids_removed (rw_BidRequest rw) → ids_removed (rw_BidRequest rw').
Proof. intros [] []. split; by etrans. Qed.

Lemma ScrubGdprID_spec rw : ids_removed (rw_BidRequest (ScrubGdprID rw)) ∧ same_eids rw (ScrubGdprID rw).
Proof.
  unfold ScrubGdprID. set (rw1 := scrubUserDemographics (scrubDeviceIDs rw)). pose proof (scrubUserExt_same rw1 "eids") as Hs.
  split; [apply (ids_removed_same _ _ Hs)|unfold same_eids; rewrite (sp_eids _ _ Hs)]; subst rw1; unfold scrubUserDemographics, scrubDeviceIDs; scrub_tac.
Qed.

Lemma ScrubGeoAndDeviceIP_spec rw c : same_ids rw (ScrubGeoAndDeviceIP rw c) ∧ same_eids rw (ScrubGeoAndDeviceIP rw c).
Proof. split; unfold ScrubGeoAndDeviceIP, scrubGEO, scrubDeviceIP; scrub_tac. Qed.

Definition geo_emptied (g : option Geo) : Prop := g = None ∨ g = Some empty_geo.
Lemma ScrubDeviceIDsIPsUserDemoExt_spec rw c full :
  let rw' := ScrubDeviceIDsIPsUserDemoExt rw c "eids" full in
  ids_removed (rw_BidRequest rw') ∧ same_eids rw rw' ∧
  (full = true → geo_emptied (geos (rw_BidRequest rw')).1 ∧ geo_emptied (geos (rw_BidRequest rw')).2).
Proof.
  unfold ScrubDeviceIDsIPsUserDemoExt. set (rw1 := scrubUserDemographics (scrubDeviceIP (scrubDeviceIDs rw) c)).
  set (rw2 := scrubUserExt_ignored rw1 "eids"). cbn zeta. pose proof (scrubUserExt_same rw1 "eids") as Hs. fold rw2 in Hs.
  assert (ids_removed (rw_BidRequest rw1) ∧ same_eids rw rw1) as [Hi He].
  { subst rw1. clear Hs rw2. split; unfold scrubUserDemographics, scrubDeviceIDs, scrubDeviceIP; scrub_tac. }
  assert (same_ids rw2 (if full then scrubGeoFull rw2 else scrubGEO rw2) ∧ same_eids rw2 (if full then scrubGeoFull rw2 else scrubGEO rw2)) as [H1 H2].
  { clearbody rw2. destruct full; split; unfold scrubGeoFull, scrubGEO; scrub_tac. }
  split; [by apply (ids_removed_ids _ _ H1), (ids_removed_same _ _ Hs)|].
  split; [unfold same_eids in *; rewrite H2, (sp_eids _ _ Hs); done|].
  intros ->. clearbody rw2. unfold scrubGeoFull, geos, geo_emptied, user_of, device_of. simpl.
  split; [destruct (br_User (rw_BidRequest rw2)) as [u|]; simpl; [destruct (us_Geo u)|]|
          destruct (br_Device (rw_BidRequest rw2)) as [d|]; simpl; [destruct (dv_Geo d)|]]; auto.
Qed.

Lemma ScrubUserFPD_spec rw rw' : ScrubUserFPD rw = Some rw' → ids_removed (rw_BidRequest rw') ∧ eids_of (rw_BidRequest rw') = None.
Proof.
  unfold ScrubUserFPD. set (rw1 := scrubUserIDs (scrubDeviceIDs rw)). pose proof (scrubUserExt_same rw1 "data") as Hs.
  set (rw2 := scrubUserExt_ignored rw1 "data") in *. cbn zeta. destruct (br_User (rw_BidRequest rw2)) as [u|] eqn:Eu; [|done]. intros [= <-].
  assert (ids_removed (rw_BidRequest rw2)) as Hi.
  { apply (ids_removed_same _ _ Hs). subst rw1. clear. unfold scrubUserIDs, scrubDeviceIDs; scrub_tac. }
  split; [|unfold eids_of; simpl; by rewrite Eu]. refine (ids_removed_ids rw2 _ _ Hi). clearbody rw2. scrub_tac.
Qed.

Lemma ScrubTID_same rw : same_person rw (ScrubTID rw).
Proof.
  unfold ScrubTID. destruct (GetImp _) as [l rw1] eqn:E.
  assert (br_User (rw_BidRequest rw1) = br_User (rw_BidRequest rw) ∧ br_Device (rw_BidRequest rw1) = br_Device (rw_BidRequest rw)) as [Hu Hd].
  { unfold GetImp in E. by case_match; simplify_eq/=. }
  by apply same_person_fields.
Qed.

(** ** The privacy rules on one request *)
Definition ufpd_allowed (aq : AuctionRequest) rw (bidder : string) : bool :=
  Allow (aq_Activities aq) ActivityTransmitUserFPD (bidder_scope bidder) (activity_request rw).
(** Any rule that withholds the ids of the user. *)
Definition ids_withheld (aq : AuctionRequest) (cx : split_context) rw (coreBidder bidder : string) : bool :=
  negb (ufpd_allowed aq rw bidder) || negb (PassID (sc_perms cx coreBidder bidder)) || ShouldEnforce (sc_ccpa cx) bidder || sc_lmt cx || sc_coppa cx.

Record privacy_outcome (ufpd withheld coppa : bool) rw rw' : Prop := {
  po_removed : withheld = true → ids_removed (rw_BidRequest rw');
  po_kept : withheld = false → same_ids rw rw';
  po_geo : coppa = true → geo_emptied (geos (rw_BidRequest rw')).1 ∧ geo_emptied (geos (rw_BidRequest rw')).2;
  po_eids : eids_of (rw_BidRequest rw') = if ufpd then eids_of (rw_BidRequest rw) else None
}.

(** What the steps after the first decision leave of the ids. *)
Record later_step (strong : bool) rw rw' : Prop := {
  lt_removed : ids_removed (rw_BidRequest rw) → ids_removed (rw_BidRequest rw');
  lt_strong : strong = true → ids_removed (rw_BidRequest rw');
  lt_same : strong = false → same_ids rw rw';
  lt_eids : same_eids rw rw'
}.
Lemma later_refl rw : later_step false rw rw.
Proof. by split. Qed.
Lemma later_trans b1 b2 rw1 rw2 rw3 : later_step b1 rw1 rw2 → later_step b2 rw2 rw3 → later_step (b1 || b2) rw1 rw3.
Proof.
  intros [R1 S1 K1 E1] [R2 S2 K2 E2]. split.
  - auto.
  - destruct b1; simpl; auto.
  - intros [-> ->]%orb_false_iff. destruct (K1 eq_refl), (K2 eq_refl). split; by etrans.
  - by etrans.
Qed.
Lemma later_same rw rw' : same_person rw rw' → later_step false rw rw'.
Proof. intros Hs. split; [by apply ids_removed_same|done| |by destruct Hs]. intros _. by destruct Hs. Qed.
Lemma later_scrub rw c full (b : bool) : later_step b rw (if b then ScrubDeviceIDsIPsUserDemoExt rw c "eids" full else rw).
Proof.
  destruct b; [|apply later_refl]. destruct (ScrubDeviceIDsIPsUserDemoExt_spec rw c full) as (Hi & He & _). by split.
Qed.
Lemma later_geo rw c (b : bool) : later_step false rw (if b then ScrubGeoAndDeviceIP rw c else rw).
Proof.
  destruct b; [|apply later_refl]. destruct (ScrubGeoAndDeviceIP_spec rw c) as [Hi He]. split; try done. by apply ids_removed_ids.
Qed.
Lemma later_gdpr rw (b : bool) : later_step b rw (if b then ScrubGdprID rw else rw).
Proof. destruct b; [|apply later_refl]. destruct (ScrubGdprID_spec rw) as [Hi He]. by split. Qed.

(** The steps after the decision on first party data. *)
Lemma privacy_tail aq cx rw core bidder rw' :
  let rw2 :=
    if negb (Allow (aq_Activities aq) ActivityTransmitPreciseGeo (bidder_scope bidder) (activity_request rw)) then ScrubGeoAndDeviceIP rw (aq_IPConf aq)
    else
      let rw := if negb (PassGeo (sc_perms cx core bidder)) then ScrubGeoAndDeviceIP rw (aq_IPConf aq) else rw in
      if ShouldEnforce (sc_ccpa cx) bidder then ScrubDeviceIDsIPsUserDemoExt rw (aq_IPConf aq) "eids" false else rw in
  let rw3 := if sc_lmt cx || sc_coppa cx then ScrubDeviceIDsIPsUserDemoExt rw2 (aq_IPConf aq) "eids" (sc_coppa cx) else rw2 in
  let rw4 := if negb (Allow (aq_Activities aq) ActivityTransmitTIDs (bidder_scope bidder) (activity_request rw3)) then ScrubTID rw3 else rw3 in
  RebuildRequest rw4 = Some rw' →
  ∃ b, (b = true → ShouldEnforce (sc_ccpa cx) bidder = true) ∧ later_step (b || (sc_lmt cx || sc_coppa cx)) rw rw' ∧
  (sc_coppa cx = true → geo_emptied (geos (rw_BidRequest rw')).1 ∧ geo_emptied (geos (rw_BidRequest rw')).2).
Proof.
  intros rw2 rw3 rw4 Hr.
  assert (∃ b, (b = true → ShouldEnforce (sc_ccpa cx) bidder = true) ∧ later_step b rw rw2) as (b & Hb & L2).
  { subst rw2. clear. destruct (negb (Allow _ _ _ _)).
    - exists false. split; [done|]. apply (later_geo rw _ true).
    - exists (ShouldEnforce (sc_ccpa cx) bidder). split; [done|]. exact (later_trans false _ _ _ _ (later_geo rw _ _) (later_scrub _ _ _ _)). }
  pose proof (later_scrub rw2 (aq_IPConf aq) (sc_coppa cx) (sc_lmt cx || sc_coppa cx)) as L3. fold rw3 in L3.
  assert (same_person rw3 rw') as Hs.
  { etrans; [|by eapply RebuildRequest_same]. subst rw4. clearbody rw3. clear. destruct (negb _); [apply ScrubTID_same|done]. }
  exists b. split; [done|]. split.
  - rewrite <-(orb_false_r (b || _)). apply (later_trans _ _ _ rw3); [by apply (later_trans _ _ _ rw2)|by apply later_same].
  - intros Hc. rewrite (sp_geos _ _ Hs). subst rw3. rewrite Hc, orb_true_r. clear.
    destruct (ScrubDeviceIDsIPsUserDemoExt_spec rw2 (aq_IPConf aq) true) as (_ & _ & Hg). by apply Hg.
Qed.

Lemma applyPrivacy_outcome aq cx rw core bidder rw' :
  applyPrivacy aq rw bidder (sc_perms cx core bidder) (sc_ccpa cx) (sc_lmt cx) (sc_coppa cx) = Some rw' →
  privacy_outcome (ufpd_allowed aq rw bidder) (ids_withheld aq cx rw core bidder) (sc_coppa cx) rw rw'.
Proof.
  unfold applyPrivacy, ids_withheld. fold (ufpd_allowed aq rw bidder). intros H. destruct (ufpd_allowed aq rw bidder); cbn [negb] in H.
  - cbn [mbind option_bind] in H. set (rw1 := if ShouldEnforce _ _ then _ else _) in H.
    assert (later_step (negb (PassID (sc_perms cx core bidder)) || ShouldEnforce (sc_ccpa cx) bidder) rw rw1) as L1.
    { subst rw1. exact (later_trans _ _ _ _ _ (later_gdpr rw _) (later_scrub _ _ _ _)). }
    apply privacy_tail in H as (b & Hb & L & Hgeo). pose proof (later_trans _ _ _ _ _ L1 L) as [_ Hstrong Hsame He]. simpl.
    split; [| |done|done].
    + intros Hw. apply Hstrong. destruct (negb _), (ShouldEnforce _ _), (sc_lmt cx), (sc_coppa cx), b; done.
    + intros Hw. apply Hsame. destruct b; [by rewrite Hb in Hw by done; destruct (negb _)|].
      destruct (negb _), (ShouldEnforce _ _), (sc_lmt cx), (sc_coppa cx); done.
  - destruct (ScrubUserFPD rw) as [rw1|] eqn:E; [|done]. cbn [mbind option_bind] in H. apply ScrubUserFPD_spec in E as [Hi He].
    apply privacy_tail in H as (b & Hb & [Hr _ _ Hee] & Hgeo). split; [by intros _; apply Hr|done|done|]. by etrans.
Qed.

Lemma finish_bidder_outcome rs aq cx rw core bidder rw' : finish_bidder rs aq cx core bidder rw = Some (Ok rw') →
  ∃ rw1, privacy_outcome (ufpd_allowed aq rw bidder) (ids_withheld aq cx rw core bidder) (sc_coppa cx) rw rw1 ∧ same_body rw1 rw' ∧
    (takes26 (rs_bidderInfo rs) bidder = true → same_person rw1 rw').
Proof.
  unfold finish_bidder. destruct (applyPrivacy _ _ _ _ _ _ _) as [rw1|] eqn:E; [|done]. cbn [mbind option_bind].
  set (rw2 := if shouldSetLegacyPrivacy _ _ then _ else _). set (rw3 := match sc_stored cx !! bidder with Some _ => _ | None => _ end).
  assert (same_person rw1 rw3) as H13.
  { etrans; [|subst rw3; case_match; [apply removeImps_same|done]]. subst rw2. case_match; [|done].
    etrans; [apply setLegacyGDPRFromGPP_same|apply setLegacyUSPFromGPP_same]. }
  intros H. exists rw1. split; [by apply applyPrivacy_outcome|]. destruct (takes26 _ _).
  - cbn iota in H. destruct (RebuildRequest rw3) as [rw5|] eqn:Er; [|done]. simplify_eq/=.
    assert (same_person rw1 rw') as Hs by (etrans; [exact H13|by apply RebuildRequest_same]). split; [by apply same_person_body|done].
  - destruct (ConvertDownTo25 rw3) as [rw4|] eqn:Ec; [|done]. destruct (RebuildRequest rw4) as [rw5|] eqn:Er; [|done]. simplify_eq/=.
    split; [|done]. etrans; [by apply same_person_body|]. etrans; [by apply ConvertDownTo25_body|]. by apply same_person_body, RebuildRequest_same.
Qed.

(** ** The loop *)
Section loop.
  Context (rs : requestSplitter) (aq : AuctionRequest) (cx : split_context).
  Notation core_of bidder := (resolveBidder (rs_coreBidders rs) bidder (sc_aliases cx)).1.

(** The stages a request that is sent has passed. *)
Record built (st : loop_state) (bidder : string) (imps : list Imp) (st' : loop_state) (q : BidderRequest) : Prop := {
  b_name : bq_BidderName q = bidder;
  b_core : bq_BidderCoreName q = core_of bidder;
  b_stages : ∃ st1 rw hadSync rw1 rw2,
    prepare_bidder rs aq cx st bidder imps = (st1, Ok (rw, hadSync)) ∧
    isBidderBlockedByPrivacy rw (aq_Activities aq) (sc_perms cx (core_of bidder) bidder) bidder = false ∧
    applyFPD st1 (core_of bidder) bidder (resolveBidder (rs_coreBidders rs) bidder (sc_aliases cx)).2 rw (fpdUserEIDExists st bidder) = (rw1, st') ∧
    finish_bidder rs aq cx (core_of bidder) bidder rw1 = Some (Ok rw2) ∧ bq_BidRequest q = rw_BidRequest rw2
}.

Lemma split_bidder_built st bidder imps st' q : split_bidder rs aq cx st (bidder, imps) = Some (st', Ok q) → built st bidder imps st' q.
Proof.
  unfold split_bidder. destruct (resolveBidder _ _ _) as [core alias] eqn:Er.
  destruct (prepare_bidder _ _ _ _ _ _) as [st1 [[rw hadSync]|e]] eqn:Ep; [|done].
  destruct (isBidderBlockedByPrivacy _ _ _ _) eqn:Eb; [done|]. destruct (applyFPD _ _ _ _ _ _) as [rw1 st2] eqn:Ef.
  destruct (finish_bidder _ _ _ _ _ _) as [[rw2|]|] eqn:Efin; cbn [mbind option_bind rbind]; intros H; simplify_eq.
  split; [done|by rewrite Er|]. rewrite Er. cbn [fst snd]. by exists st1, rw, hadSync, rw1, rw2.
Qed.

Lemma split_loop_built (I : loop_state → Prop) st entries reqs errs :
  (∀ st e st' r, I st → split_bidder rs aq cx st e = Some (st', r) → I st') → I st →
  split_loop rs aq cx st entries = Some (reqs, errs) →
  ∀ q, q ∈ reqs → ∃ st0 st1 bidder imps, I st0 ∧ (bidder, imps) ∈ entries ∧ built st0 bidder imps st1 q.
Proof.
  intros Hstep. revert st reqs errs. induction entries as [|[bidder imps] entries IH]; intros st reqs errs HI H q Hq; cbn [split_loop] in H.
  { simplify_eq. by apply elem_of_nil in Hq. }
  destruct (split_bidder _ _ _ _ _) as [[st1 r]|] eqn:E; [|done]. cbn [mbind option_bind] in H.
  destruct (split_loop _ _ _ st1 entries) as [[reqs1 errs1]|] eqn:El; [|done]. cbn [mbind option_bind] in H.
  assert (q ∈ reqs1 → ∃ st0 st1 b i, I st0 ∧ (b, i) ∈ (bidder, imps) :: entries ∧ built st0 b i st1 q) as Hrest.
  { intros Hq1. destruct (IH _ _ _ (Hstep _ _ _ _ HI E) El q Hq1) as (s0 & s1 & b & i & ? & ? & ?). exists s0, s1, b, i. split_and!; [done|by right|done]. }
  destruct r as [q0|e]; simplify_eq; [|by apply Hrest]. apply elem_of_cons in Hq as [->|Hq]; [|by apply Hrest].
  exists st, st1, bidder, imps. split_and!; [done|by left|]. by apply split_bidder_built.
Qed.

Lemma split_loop_names st entries reqs errs : split_loop rs aq cx st entries = Some (reqs, errs) →
  bq_BidderName <$> reqs `sublist_of` entries.*1 ∧ (length reqs + length errs)%nat = length entries.
Proof.
  revert st reqs errs. induction entries as [|[bidder imps] entries IH]; intros st reqs errs H; cbn [split_loop] in H; [by simplify_eq|].
  destruct (split_bidder _ _ _ _ _) as [[st1 r]|] eqn:E; [|done]. cbn [mbind option_bind] in H.
  destruct (split_loop _ _ _ st1 entries) as [[reqs1 errs1]|] eqn:El; [|done]. cbn [mbind option_bind] in H.
  destruct (IH _ _ _ El) as [Hs Hl]. destruct r as [q0|e]; simplify_eq; simpl.
  - apply split_bidder_built in E as [Hn _ _]. rewrite Hn. split; [by constructor|lia].
  - split; [by constructor|]. lia.
Qed.

(** ** The request a bidder's copy is made from *)
Lemma Write_keeps w rw bidder : let rw' := SChainWriter_Write w rw bidder in
  br_Regs (rw_BidRequest rw') = br_Regs (rw_BidRequest rw) ∧ br_User (rw_BidRequest rw') = br_User (rw_BidRequest rw) ∧
  rw_requestExt rw' = rw_requestExt rw.
Proof. unfold SChainWriter_Write. by destruct (selected_schain w bidder), (scw_hostSChainNode w). Qed.

(** The ids a bidder may see. *)
Definition permitted (e : RequestExt) (bidder : string) (eid : EID) : Prop :=
  eid_allowed (eid_rules (default [] (val (re_prebid e) ≫= pb_EidPermissions))) bidder eid = true.
Definition all_permitted (e : RequestExt) (bidder : string) (l : option (list EID)) : Prop := Forall (permitted e bidder) (default [] l).

Lemma unpermissioned_none l bidder eids : unpermissioned l bidder eids = None → Forall (λ x, eid_allowed (eid_rules l) bidder x = true) eids.
Proof.
  unfold unpermissioned. case_match eqn:E; [|done]. intros _. apply Nat.eqb_eq in E.
  apply Forall_forall. intros x Hx. destruct (eid_allowed (eid_rules l) bidder x) eqn:Ex; [done|].
  pose proof (length_filter_lt (λ e, eid_allowed (eid_rules l) bidder e = true) eids x Hx ltac:(cbn; congruence)). lia.
Qed.

Lemma removeUnpermissioned_spec rw bidder e rw' : rw_requestExt rw = Some e → removeUnpermissionedEids rw bidder = Ok rw' →
  br_Regs (rw_BidRequest rw') = br_Regs (rw_BidRequest rw) ∧ rw_requestExt rw' = Some e ∧ all_permitted e bidder (eids_of (rw_BidRequest rw')).
Proof.
  unfold removeUnpermissionedEids, all_permitted, permitted. intros He.
  destruct (br_User (rw_BidRequest rw)) as [u|] eqn:Eu; [|intros [= <-]; unfold eids_of; rewrite Eu; by split_and!].
  destruct (us_EIDs u) as [[|x eids]|] eqn:Ee; try (intros [= <-]; unfold eids_of; rewrite Eu; simpl; rewrite Ee; by split_and!).
  unfold GetRequestExt. rewrite He. cbn [rbind].
  destruct (val (re_prebid e) ≫= pb_EidPermissions) as [[|p ps]|] eqn:Ep.
  1,3: intros [= <-]; unfold eids_of; rewrite Eu; simpl; rewrite Ee; split_and!; try done; apply Forall_forall; intros y _; reflexivity.
  destruct (unpermissioned (p :: ps) bidder (x :: eids)) as [allowed|] eqn:Eun; intros [= <-].
  - split_and!; try done. unfold unpermissioned in Eun. case_match; [done|]. simplify_eq. unfold eids_of. simpl.
    set (l := filter _ _). assert (Forall (λ x, eid_allowed (eid_rules (p :: ps)) bidder x = true) l) as Hl.
    { apply Forall_forall. intros y Hy. by apply list_elem_of_filter in Hy as [? _]. }
    by destruct l.
  - split_and!; try done. unfold eids_of. rewrite Eu. simpl. rewrite Ee. by apply unpermissioned_none.
Qed.

Lemma prepare_spec st bidder imps st1 rw hadSync e : rw_requestExt (ls_req st) = Some e →
  prepare_bidder rs aq cx st bidder imps = (st1, Ok (rw, hadSync)) →
  br_Regs (rw_BidRequest rw) = br_Regs (rw_BidRequest (ls_req st)) ∧ all_permitted e bidder (eids_of (rw_BidRequest rw)).
Proof.
  unfold prepare_bidder. intros He. destruct (resolveBidder _ _ _) as [core alias]. set (rw0 := set_Imp _ _).
  destruct (Write_keeps (sc_writer cx) rw0 bidder) as (W1 & W2 & W3). set (rw1 := SChainWriter_Write _ _ _) in *.
  destruct (removeUnpermissionedEids rw1 bidder) as [rw2|] eqn:E2; [|done].
  destruct (removeUnpermissioned_spec rw1 bidder e rw2 ltac:(by rewrite W3) E2) as (R1 & R2 & R3).
  destruct (buildRequestExtForBidder _ _ _ _) as [rw3|] eqn:E3; [|done]. intros H. apply (f_equal snd) in H. simpl in H. injection H as H.
  assert (rw_BidRequest rw3 = rw_BidRequest rw2) as B3.
  { unfold buildRequestExtForBidder, GetRequestExt in E3. rewrite R2 in E3. by simplify_eq/=. }
  set (rw4 := if aq_AdjustForBidAdjustment aq then _ else rw3) in H.
  assert (br_Regs (rw_BidRequest rw4) = br_Regs (rw_BidRequest rw2) ∧ br_User (rw_BidRequest rw4) = br_User (rw_BidRequest rw2)) as [B4 U4].
  { subst rw4. rewrite <-B3. destruct (aq_AdjustForBidAdjustment aq); [|done]. unfold applyBidAdjustmentToFloor. by repeat case_match. }
  assert (br_Regs (rw_BidRequest rw) = br_Regs (rw_BidRequest rw4) ∧ eids_of (rw_BidRequest rw) = eids_of (rw_BidRequest rw4)) as [B5 U5].
  { clear -H. clearbody rw4. unfold prepareUser, copyWithBuyerUID, eids_of in *.
    destruct (aq_UserSyncs aq _) as [id had], (_ !! _), had, (br_User (rw_BidRequest rw4)) as [u|] eqn:Eu; simplify_eq/=; rewrite ?Eu; simpl;
      try (destruct (us_BuyerUID u =s? "")); done. }
  split; [by rewrite B5, B4, R1, W1|]. rewrite U5. unfold eids_of in *. by rewrite U4.
Qed.

Lemma share_user_keeps reqCopy st :
  br_Regs (rw_BidRequest (ls_req (share_user reqCopy st))) = br_Regs (rw_BidRequest (ls_req st)) ∧
  rw_requestExt (ls_req (share_user reqCopy st)) = rw_requestExt (ls_req st) ∧ ls_fpd (share_user reqCopy st) = ls_fpd st.
Proof. unfold share_user. by case_match. Qed.

Lemma prepare_state st bidder imps : let st1 := (prepare_bidder rs aq cx st bidder imps).1 in
  br_Regs (rw_BidRequest (ls_req st1)) = br_Regs (rw_BidRequest (ls_req st)) ∧ rw_requestExt (ls_req st1) = rw_requestExt (ls_req st) ∧ ls_fpd st1 = ls_fpd st.
Proof.
  unfold prepare_bidder. destruct (resolveBidder _ _ _) as [core alias]. destruct (removeUnpermissionedEids _ _); [|done].
  destruct (buildRequestExtForBidder _ _ _ _); apply share_user_keeps.
Qed.

Lemma applyFPD_state st core bidder alias rw b : let st1 := (applyFPD st core bidder alias rw b).2 in
  ls_req st1 = ls_req st ∧ (ls_fpd st = ∅ → applyFPD st core bidder alias rw b = (rw, st)) ∧
  br_Regs (rw_BidRequest (applyFPD st core bidder alias rw b).1) = br_Regs (rw_BidRequest rw).
Proof.
  unfold applyFPD. destruct (ls_fpd st !! _) as [fpd|] eqn:Ef; [|done]. split_and!.
  - destruct (fpd_User fpd); [|done]. by destruct (match br_User _ with Some _ => _ | None => _ end).
  - intros Hfpd. rewrite Hfpd, lookup_empty in Ef. done.
  - destruct (fpd_User fpd); [|done]. by destruct (match br_User _ with Some _ => _ | None => _ end).
Qed.

(** The regulations, the extension and, without first party data, the absence of it do not change. *)
Definition steady (regs : option Regs) (e : RequestExt) (nofpd : bool) (st : loop_state) : Prop :=
  br_Regs (rw_BidRequest (ls_req st)) = regs ∧ rw_requestExt (ls_req st) = Some e ∧ (nofpd = true → ls_fpd st = ∅).
Lemma split_bidder_steady regs e nofpd st entry st' r : steady regs e nofpd st → split_bidder rs aq cx st entry = Some (st', r) → steady regs e nofpd st'.
Proof.
  destruct entry as [bidder imps]. unfold split_bidder. intros (H1 & H2 & H3).
  destruct (resolveBidder _ _ _) as [core alias]. pose proof (prepare_state st bidder imps) as (P1 & P2 & P3).
  destruct (prepare_bidder _ _ _ _ _ _) as [st1 [[rw had]|err]]; cbn [fst] in *.
  2:{ intros [= <- <-]. unfold steady. rewrite P1, P2, P3. done. }
  case_match. { intros [= <- <-]. unfold steady. rewrite P1, P2, P3. done. }
  pose proof (applyFPD_state st1 core bidder alias rw (fpdUserEIDExists st bidder)) as (F1 & F2 & _).
  destruct (applyFPD _ _ _ _ _ _) as [rw1 st2]. cbn [snd] in *. destruct (finish_bidder _ _ _ _ _ _); [|done]. cbn [mbind option_bind].
  intros [= <- <-]. unfold steady. rewrite F1, P1, P2. split_and!; [done|done|]. intros Hn. rewrite P3 in F2. specialize (F2 (H3 Hn)).
  simplify_eq. rewrite P3. by apply H3.
Qed.

Lemma ConvertDownTo25_eids rw rw' : ConvertDownTo25 rw = Ok rw' → eids_of (rw_BidRequest rw') = None.
Proof.
  unfold ConvertDownTo25. intros H.
  destruct (moveSupplyChainFrom26To25 rw) as [rw1|]; [|done]. cbn [rbind] in H.
  destruct (moveGDPRFrom26To25 rw1) as [rw2|]; [|done]. cbn [rbind] in H.
  destruct (moveConsentFrom26To25 rw2) as [rw3|]; [|done]. cbn [rbind] in H.
  destruct (moveUSPrivacyFrom26To25 rw3) as [rw4|]; [|done]. cbn [rbind] in H.
  destruct (moveEIDFrom26To25 rw4) as [rw5|] eqn:E5; [|done]. cbn [rbind] in H.
  assert (eids_of (rw_BidRequest rw5) = None) as H5.
  { unfold moveEIDFrom26To25, the_User in E5. destruct (br_User (rw_BidRequest rw4) ≫= us_EIDs) eqn:Eu; [|by simplify_eq].
    destruct (GetUserExt _) as [[e x]|] eqn:E; [|done]. apply GetUserExt_ok in E. simplify_eq/=. unfold eids_of. simpl. by destruct (br_User (rw_BidRequest rw4)). }
  destruct (GetImp rw5) as [imps rw6] eqn:E6. destruct (map_result _ imps) as [imps'|]; [|done]. cbn [rbind] in H. injection H as <-.
  unfold GetImp in E6. by case_match; simplify_eq/=.
Qed.

Lemma finish_eids core bidder rw rw' : finish_bidder rs aq cx core bidder rw = Some (Ok rw') →
  eids_of (rw_BidRequest rw') = if takes26 (rs_bidderInfo rs) bidder && ufpd_allowed aq rw bidder then eids_of (rw_BidRequest rw) else None.
Proof.
  intros H. pose proof (finish_bidder_outcome _ _ _ _ _ _ _ H) as (rw1 & [_ _ _ He] & _ & H26). destruct (takes26 _ _) eqn:E26; cbn [andb].
  - rewrite (sp_eids _ _ (H26 eq_refl)). exact He.
  - unfold finish_bidder in H. destruct (applyPrivacy _ _ _ _ _ _ _); [|done]. cbn [mbind option_bind] in H. rewrite E26 in H.
    destruct (ConvertDownTo25 _) as [rw4|] eqn:Ec; [|done]. destruct (RebuildRequest rw4) as [rw5|] eqn:Er; [|done]. simplify_eq/=.
    rewrite (sp_eids _ _ (RebuildRequest_same _ _ Er)). by eapply ConvertDownTo25_eids.
Qed.

(** The decision an activity rule takes for a bidder on the request of the auction. *)
Definition allows (x : Activity) (regs : option Regs) (bidder : string) : bool :=
  Allow (aq_Activities aq) x (bidder_scope bidder) (NewRequestFromBidRequest (regs ≫= rg_GPPSID)).
Definition withheld_from (regs : option Regs) (core bidder : string) : bool :=
  negb (allows ActivityTransmitUserFPD regs bidder) || negb (PassID (sc_perms cx core bidder)) || ShouldEnforce (sc_ccpa cx) bidder ||
  sc_lmt cx || sc_coppa cx.

(** C27: Whatever the order of the bidders, a request is built for a bidder only when the
    [fetchBids] activity and the GDPR permissions allow it.  When any rule withholds the ids of the
    user - first party data denied, no legal basis to pass ids, a CCPA opt-out, limited tracking
    or COPPA - the request that is sent, after conversion and printing, has no user id, buyer id,
    year of birth or gender and none of the seven device ids.  The external ids [user.eids] are taken out
    where first party data is denied; the other four rules leave them (see [consent_rules_leave_eids]).
    Under COPPA the request has no location either. *)
Theorem no_request_past_privacy st entries e reqs errs :
  rw_requestExt (ls_req st) = Some e → split_loop rs aq cx st entries = Some (reqs, errs) → ∀ q, q ∈ reqs →
  let regs := br_Regs (rw_BidRequest (ls_req st)) in
  allows ActivityFetchBids regs (bq_BidderName q) = true ∧ AllowBidRequest (sc_perms cx (bq_BidderCoreName q) (bq_BidderName q)) = true ∧
  (withheld_from regs (bq_BidderCoreName q) (bq_BidderName q) = true → ids_removed (bq_BidRequest q)) ∧
  (allows ActivityTransmitUserFPD regs (bq_BidderName q) = false → eids_of (bq_BidRequest q) = None) ∧
  (sc_coppa cx = true → geo_emptied (geos (bq_BidRequest q)).1 ∧ geo_emptied (geos (bq_BidRequest q)).2).
Proof.
  intros He H q Hq regs.
  destruct (split_loop_built (steady regs e false) st entries reqs errs (split_bidder_steady regs e false) ltac:(done) H q Hq)
    as (st0 & st1 & bidder & imps & (S1 & S2 & _) & _ & [-> -> (st2 & rw & had & rw1 & rw2 & P & B & F & Fin & ->)]).
  destruct (prepare_spec _ _ _ _ _ _ e S2 P) as [Hregs _]. set (core := (resolveBidder _ _ _).1) in *.
  pose proof (applyFPD_state st2 core bidder (resolveBidder (rs_coreBidders rs) bidder (sc_aliases cx)).2 rw (fpdUserEIDExists st0 bidder)) as (_ & _ & F3).
  rewrite F in F3. cbn [fst] in F3. destruct (finish_bidder_outcome _ _ _ _ _ _ _ Fin) as (rw3 & [Hr _ Hg _] & Hb & _).
  assert (activity_request rw = NewRequestFromBidRequest (regs ≫= rg_GPPSID)) as Ha by (unfold activity_request; by rewrite Hregs, S1).
  assert (activity_request rw1 = NewRequestFromBidRequest (regs ≫= rg_GPPSID)) as Ha1 by (unfold activity_request; by rewrite F3, Hregs, S1).
  unfold isBidderBlockedByPrivacy in B. rewrite Ha in B. fold (allows ActivityFetchBids regs bidder) in B.
  destruct (allows ActivityFetchBids regs bidder); [|done]. cbn [negb] in B. apply negb_false_iff in B.
  unfold ids_withheld, ufpd_allowed in Hr. rewrite Ha1 in Hr. split_and!; [done|done| | |].
  - intros Hw. destruct (Hr Hw) as [Hu Hd]. split; [rewrite (sb_user _ _ Hb)|rewrite (sb_device _ _ Hb)]; done.
  - intros Hd. cbn [bq_BidRequest]. rewrite (finish_eids _ _ _ _ Fin). unfold ufpd_allowed. rewrite Ha1. fold (allows ActivityTransmitUserFPD regs bidder).
    cbn [bq_BidderName] in Hd. by rewrite Hd, andb_false_r.
  - intros Hc. rewrite (sb_geos _ _ Hb). by apply Hg.
Qed.

(** Without first party data, and whatever the order of the bidders, a bidder's request holds
    only external ids whose source has no permission rule or a rule that names the bidder. *)
Theorem bidder_sees_only_permitted_eids st entries e reqs errs :
  rw_requestExt (ls_req st) = Some e → ls_fpd st = ∅ → split_loop rs aq cx st entries = Some (reqs, errs) →
  ∀ q, q ∈ reqs → all_permitted e (bq_BidderName q) (eids_of (bq_BidRequest q)).
Proof.
  intros He Hf H q Hq. set (regs := br_Regs (rw_BidRequest (ls_req st))).
  destruct (split_loop_built (steady regs e true) st entries reqs errs (split_bidder_steady regs e true) ltac:(done) H q Hq)
    as (st0 & st1 & bidder & imps & (S1 & S2 & S3) & _ & [-> _ (st2 & rw & had & rw1 & rw2 & P & B & F & Fin & ->)]).
  destruct (prepare_spec _ _ _ _ _ _ e S2 P) as [_ Hp]. pose proof (prepare_state st0 bidder imps) as (_ & _ & P3). rewrite P in P3. cbn [fst] in P3.
  set (core := (resolveBidder _ _ _).1) in *. set (alias := (resolveBidder _ _ _).2) in *.
  destruct (applyFPD_state st2 core bidder alias rw (fpdUserEIDExists st0 bidder)) as (_ & F2 & _). rewrite F2 in F by (rewrite P3; by apply S3).
  simplify_eq. rewrite (finish_eids _ _ _ _ Fin). case_match; [done|constructor].
Qed.

(** Consent, CCPA, limited tracking and COPPA never take out the external ids of a request:
    as long as first party data may be sent, a bidder that takes OpenRTB 2.6 gets [user.eids]
    unchanged, although the same rules remove [user.ext.eids]. *)
Theorem consent_rules_leave_eids core bidder rw rw' :
  finish_bidder rs aq cx core bidder rw = Some (Ok rw') → takes26 (rs_bidderInfo rs) bidder = true → ufpd_allowed aq rw bidder = true →
  eids_of (rw_BidRequest rw') = eids_of (rw_BidRequest rw).
Proof. intros H E1 E2. by rewrite (finish_eids _ _ _ _ H), E1, E2. Qed.

(** Denying first party data on a request without a user panics. *)
Theorem denied_fpd_without_user_panics rw core bidder :
  br_User (rw_BidRequest rw) = None → ufpd_allowed aq rw bidder = false → finish_bidder rs aq cx core bidder rw = None.
Proof.
  intros Hu Ha. unfold finish_bidder, applyPrivacy. fold (ufpd_allowed aq rw bidder). rewrite Ha. cbn [negb]. unfold ScrubUserFPD, scrubUserExt_ignored, scrubUserExt.
  cbn. rewrite Hu. cbn. by rewrite Hu.
Qed.

End loop.

Lemma GetDeviceExt_ok rw e rw' : GetDeviceExt rw = Ok (e, rw') → rw_BidRequest rw' = rw_BidRequest rw.
Proof. unfold GetDeviceExt. intros H. repeat (case_match; simplify_eq/=); done. Qed.
Lemma GetSiteExt_ok rw e rw' : GetSiteExt rw = Ok (e, rw') → rw_BidRequest rw' = rw_BidRequest rw.
Proof. unfold GetSiteExt. intros H. repeat (case_match; simplify_eq/=); done. Qed.
Lemma GetDOOHExt_ok rw e rw' : GetDOOHExt rw = Ok (e, rw') → rw_BidRequest rw' = rw_BidRequest rw.
Proof. unfold GetDOOHExt. intros H. repeat (case_match; simplify_eq/=); done. Qed.

Lemma PreloadExts_keeps rw rw' : PreloadExts rw = Ok rw' → rw_BidRequest rw' = rw_BidRequest rw.
Proof.
  unfold PreloadExts. intros H.
  destruct (GetRequestExt rw) as [[e1 rw1]|] eqn:E1; [|done]. cbn [rbind] in H. apply GetRequestExt_ok in E1.
  destruct (GetUserExt rw1) as [[e2 rw2]|] eqn:E2; [|done]. cbn [rbind] in H. apply GetUserExt_ok in E2.
  destruct (GetDeviceExt rw2) as [[e3 rw3]|] eqn:E3; [|done]. cbn [rbind] in H. apply GetDeviceExt_ok in E3.
  destruct (GetRegExt rw3) as [[e4 rw4]|] eqn:E4; [|done]. cbn [rbind] in H. apply GetRegExt_ok in E4.
  destruct (GetSiteExt rw4) as [[e5 rw5]|] eqn:E5; [|done]. cbn [rbind] in H. apply GetSiteExt_ok in E5.
  destruct (GetDOOHExt rw5) as [[e6 rw6]|] eqn:E6; [|done]. cbn [rbind] in H. apply GetDOOHExt_ok in E6.
  destruct (GetSourceExt rw6) as [[e7 rw7]|] eqn:E7; [|done]. cbn [rbind] in H. apply GetSourceExt_ok in E7.
  injection H as <-. rewrite E7. simpl. rewrite E6, E5, E4. simpl. rewrite E3, E2. simpl. by rewrite E1.
Qed.

(** A bidder gets at most one request of an auction, and only when an impression of the
    auction has parameters for it. *)
Theorem one_request_per_bidder rs aq requestExt factors reqs labels errs :
  cleanOpenRTBRequests rs aq requestExt factors = Some (reqs, labels, errs) →
  NoDup (bq_BidderName <$> reqs) ∧
  ∀ q, q ∈ reqs → ∃ imp, imp ∈ br_Imp (rw_BidRequest (aq_Req aq)) ∧ is_Some (bidder_params imp (bq_BidderName q)).
Proof.
  assert (∀ e, Some ([], no_labels, e) = Some (reqs, labels, errs) → NoDup (bq_BidderName <$> reqs) ∧
    ∀ q, q ∈ reqs → ∃ imp, imp ∈ br_Imp (rw_BidRequest (aq_Req aq)) ∧ is_Some (bidder_params imp (bq_BidderName q))) as Hnone.
  { intros e [= <- _ _]. split; [constructor|]. by intros q ?%elem_of_nil. }
  unfold cleanOpenRTBRequests. destruct (PreloadExts (aq_Req aq)) as [req|] eqn:E1; [|apply Hnone].
  apply PreloadExts_keeps in E1. destruct (getRequestAliases req) as [[[al gv] req1]|] eqn:E2; [|apply Hnone].
  assert (rw_BidRequest req1 = rw_BidRequest req) as H2.
  { unfold getRequestAliases in E2. destruct (GetRequestExt req) as [[e x]|] eqn:E; [|done]. apply GetRequestExt_ok in E. by simplify_eq/=. }
  destruct (splitImps _ _ _) as [m|e] eqn:Es; [|apply Hnone].
  destruct (extractAndCleanBuyerUIDs req1) as [[uids req2]|]; [|apply Hnone].
  destruct (ExtractReqExtBidderParamsMap _ _) as [params|]; [|apply Hnone].
  destruct (NewSChainWriter _ _) as [w|]; [|apply Hnone].
  destruct (make_context _ _ _ _ _ _ _ _ _) as [[cx labels0] errs0]. destruct (split_loop _ _ _ _ _) as [[reqs0 errs1]|] eqn:El; [|done].
  cbn [mbind option_bind]. intros [= <- _ _]. apply split_loop_names in El as [Hs _].
  split; [eapply sublist_NoDup; [apply (NoDup_map_range_fst m)|exact Hs]|].
  intros q Hq. assert (bq_BidderName q ∈ (map_range m).*1) as ([b imps] & Hb & Hin%elem_of_map_range)%list_elem_of_fmap.
  { eapply elem_of_sublist; [|exact Hs]. by apply list_elem_of_fmap_2. }
  rewrite Hb. simpl. rewrite (splitImps_lookup _ _ _ _ b Es) in Hin. destruct (omap _ _) as [|c l] eqn:Eo; [done|].
  assert (c ∈ omap (λ imp, bidder_imp (rs_merge rs) (rs_validImp rs) imp b) (br_Imp (rw_BidRequest req1))) as Hc by (rewrite Eo; left).
  apply list_elem_of_omap in Hc as (imp & Himp & Hc). exists imp. rewrite <-E1, <-H2. split; [done|].
  unfold bidder_imp in Hc. destruct (bidder_params imp b); [by eexists|done].
Qed.
End spec.

(** ** A run: two bidders, and an id only one of them may see *)
Import JsonTree.

Definition pubcid : EID := {| eid_Source := "pubcid"; eid_UIDs := ["u"]; eid_Inserter := ""; eid_Matcher := ""; eid_MM := 0 |}.
Definition demo_prebid : ExtRequestPrebid :=
  mkExtRequestPrebid None None None None None None (Some [{| ep_Source := "pubcid"; ep_Bidders := ["b"] |}]) false "" [] None None None None None [] "".
Definition demo_request : BidRequest User :=
  {| br_Imp := [mkImp "i" f0 0 (Some (T_obj [("prebid", T_obj [("bidder", T_obj [("a", T_int 1); ("b", T_int 2)])])])) ""];
     br_User := Some (set_us_ID "person" (set_us_EIDs (Some [pubcid]) empty_user)); br_Device := None; br_Regs := None; br_Source := None;
     br_Site := None; br_App := None; br_DOOH := None; br_Ext := Some (T_obj [("prebid", T_prebid demo_prebid)]); br_rest := "" |}.
Definition demo_perms (passID : bool) : RequestInfo → string → string → AuctionPermissions :=
  λ _ _ _, {| AllowBidRequest := true; PassGeo := true; PassID := passID |}.
Definition demo_splitter (passID : bool) : requestSplitter :=
  {| rs_bidderToSyncerKey := ∅; rs_bidderInfo := {["a" := {| bi_OpenRTB := Some ("2.6", true) |}; "b" := {| bi_OpenRTB := Some ("2.6", true) |}]};
     rs_hostSChainNode := None; rs_ccpaEnforce := false; rs_lmtEnforce := false; rs_coreBidders := ["a"; "b"]; rs_merge := λ i _, Some i;
     rs_validImp := λ _, true; rs_gppParse := λ _, ([], false); rs_tcfVersion := λ _, None; rs_permissions := demo_perms passID;
     rs_paramsMap := λ _, None |}.
Definition demo_auction : AuctionRequest :=
  {| aq_Req := wrap_request demo_request; aq_StoredBidResponses := ∅; aq_AlternateBidderCodes := None; aq_AdjustForBidAdjustment := false;
     aq_ccpaForChannel := None; aq_IPConf := {| IPV6_AnonKeepBits := 56; IPV4_AnonKeepBits := 24 |}; aq_Activities := NewActivityControl None;
     aq_GDPREnforced := true; aq_GDPRSignal := SignalYes; aq_UserSyncs := λ _, ("", false); aq_FirstPartyData := ∅; aq_eids_array := 0;
     aq_BidderImpReplaceImpID := ∅; aq_LegacyLabels := {| lab_Source := ""; lab_RType := ""; lab_PubID := ""; lab_CookieFlag := "" |} |}.
(** The bidders that get a request and the sources of the ids it holds. *)
Definition demo_run (MR : MapRange) (passID : bool) : option (list (string * list string)) :=
  match cleanOpenRTBRequests (demo_splitter passID) demo_auction None ∅ with
  | Some (reqs, _, _) => Some ((λ q, (bq_BidderName q, eid_Source <$> default [] (eids_of (bq_BidRequest q)))) <$> reqs)
  | None => None
  end.

(** Which external ids a bidder gets depends on the order in which the runtime visits the
    bidders: ids removed for one bidder are gone from the user all share, so a bidder that may see
    an id gets it when it is visited first and not when a bidder that may not comes before it. *)
Theorem eid_permissions_leak_between_bidders :
  demo_run reversed_range true = Some [("b", ["pubcid"]); ("a", [])] ∧ demo_run canonical_range true = Some [("a", []); ("b", [])].
Proof. split; vm_compute; reflexivity. Qed.

(** The loop of that run, with ids that may not be passed. *)
Definition demo_start (aq : AuctionRequest) : RequestWrapper := match PreloadExts (aq_Req aq) with Ok r => r | Err _ => aq_Req aq end.
Definition demo_cx : split_context :=
  {| sc_aliases := ∅; sc_stored := ∅; sc_buyerUIDs := ∅; sc_params := ∅; sc_writer := {| scw_sChainsByBidder := ∅; scw_hostSChainNode := None |};
     sc_gpp := []; sc_ccpa := NilPolicyEnforcer; sc_lmt := false; sc_coppa := false; sc_perms := λ _ _, demo_perms false {| ri_AliasGVLIDs := ∅;
       ri_Consent := ""; ri_GDPRSignal := SignalYes; ri_PublisherID := "" |} "" ""; sc_factors := ∅ |}.
Definition demo_state : loop_state := mkState (demo_start demo_auction) 0 1 ∅.
Definition demo_entries : list (string * list Imp) := [("b", br_Imp demo_request)].
Definition demo_loop : option (list BidderRequest * list clean_error) :=
  split_loop (MR := canonical_range) (demo_splitter false) demo_auction demo_cx demo_state demo_entries.

Lemma demo_loop_one : ∃ q errs, demo_loop = Some ([q], errs).
Proof.
  destruct demo_loop as [[reqs errs]|] eqn:E.
  - assert (match demo_loop with Some (reqs, _) => length reqs | None => 0%nat end = 1%nat) as H by (vm_compute; reflexivity).
    rewrite E in H. destruct reqs as [|q [|? ?]]; [discriminate H| |discriminate H]. exists q, errs. reflexivity.
  - assert (is_Some demo_loop) as [? H] by (apply (bool_decide_unpack _); vm_compute; reflexivity). rewrite E in H. discriminate H.
Defined.

Lemma demo_ext : is_Some (rw_requestExt (ls_req demo_state)).
Proof. apply (bool_decide_unpack _). vm_compute. reflexivity. Defined.

Lemma no_request_past_privacy_witness : ∃ q errs, demo_loop = Some ([q], errs) ∧ bq_BidderName q = "b" ∧ ids_removed (bq_BidRequest q).
Proof.
  destruct demo_loop_one as (q & errs & H). destruct demo_ext as [e He]. exists q, errs. split; [exact H|].
  destruct (no_request_past_privacy (MR := canonical_range) (demo_splitter false) demo_auction demo_cx demo_state demo_entries e [q] errs He H q
              ltac:(left)) as (_ & _ & Hr & _).
  assert (bq_BidderName q = "b") as Hn.
  { assert (match demo_loop with Some (reqs, _) => bq_BidderName <$> reqs | None => [] end = ["b"]) as Hn by (vm_compute; reflexivity).
    rewrite H in Hn. injection Hn as Hn. exact Hn. }
  split; [exact Hn|]. apply Hr. rewrite Hn. reflexivity.
Defined.

Lemma bidder_sees_only_permitted_eids_witness : ∃ q errs e, demo_loop = Some ([q], errs) ∧ rw_requestExt (ls_req demo_state) = Some e ∧
  all_permitted e (bq_BidderName q) (eids_of (bq_BidRequest q)).
Proof.
  destruct demo_loop_one as (q & errs & H). destruct demo_ext as [e He]. exists q, errs, e. split; [exact H|]. split; [exact He|].
  apply (bidder_sees_only_permitted_eids (MR := canonical_range) (demo_splitter false) demo_auction demo_cx demo_state demo_entries e [q] errs He eq_refl H q).
  left.
Defined.

(** The user of the run, after the rules on a request with no legal basis to pass ids. *)
Definition demo_finish : option (result clean_error RequestWrapper) :=
  finish_bidder (demo_splitter false) demo_auction demo_cx "b" "b" (demo_start demo_auction).
Lemma consent_rules_leave_eids_witness : ∃ rw, demo_finish = Some (Ok rw) ∧ eids_of (rw_BidRequest rw) = Some [pubcid].
Proof.
  destruct demo_finish as [[rw|e]|] eqn:E.
  - exists rw. split; [reflexivity|].
    rewrite (consent_rules_leave_eids (demo_splitter false) demo_auction demo_cx "b" "b" (demo_start demo_auction) rw E);
      vm_compute; reflexivity.
  - assert (match demo_finish with Some (Ok _) => true | _ => false end = true) as H by (vm_compute; reflexivity). rewrite E in H. discriminate H.
  - assert (match demo_finish with Some (Ok _) => true | _ => false end = true) as H by (vm_compute; reflexivity). rewrite E in H. discriminate H.
Defined.

(** An account that denies first party data to every bidder. *)
Definition deny_ufpd : ActivityControl :=
  {| ctl_plans := λ x, match x with ActivityTransmitUserFPD => Some {| plan_defaultResult := false; plan_rules := [] |} | _ => None end;
     ctl_IPv6Config := 56; ctl_IPv4Config := 24 |}.
Definition denying_auction : AuctionRequest :=
  {| aq_Req := wrap_request empty_request; aq_StoredBidResponses := ∅; aq_AlternateBidderCodes := None; aq_AdjustForBidAdjustment := false;
     aq_ccpaForChannel := None; aq_IPConf := aq_IPConf demo_auction; aq_Activities := deny_ufpd; aq_GDPREnforced := false; aq_GDPRSignal := SignalNo;
     aq_UserSyncs := λ _, ("", false); aq_FirstPartyData := ∅; aq_eids_array := 0; aq_BidderImpReplaceImpID := ∅;
     aq_LegacyLabels := aq_LegacyLabels demo_auction |}.
Lemma denied_fpd_without_user_panics_witness :
  finish_bidder (demo_splitter true) denying_auction demo_cx "b" "b" (wrap_request empty_request) = None.
Proof.
  apply (denied_fpd_without_user_panics (demo_splitter true) denying_auction demo_cx (wrap_request empty_request) "b" "b"); reflexivity.
Defined.

Lemma one_request_per_bidder_witness : ∃ reqs labels errs,
  cleanOpenRTBRequests (MR := canonical_range) (demo_splitter true) demo_auction None ∅ = Some (reqs, labels, errs) ∧
  bq_BidderName <$> reqs = ["a"; "b"] ∧ NoDup (bq_BidderName <$> reqs).
Proof.
  destruct (cleanOpenRTBRequests (MR := canonical_range) (demo_splitter true) demo_auction None ∅) as [[[reqs labels] errs]|] eqn:E.
  - exists reqs, labels, errs. split; [reflexivity|]. split.
    + assert (match cleanOpenRTBRequests (MR := canonical_range) (demo_splitter true) demo_auction None ∅ with
              | Some (reqs, _, _) => bq_BidderName <$> reqs | None => [] end = ["a"; "b"]) as H by (vm_compute; reflexivity).
      rewrite E in H. exact H.
    + exact (proj1 (one_request_per_bidder (MR := canonical_range) (demo_splitter true) demo_auction None ∅ reqs labels errs E)).
  - assert (bool_decide (is_Some (cleanOpenRTBRequests (MR := canonical_range) (demo_splitter true) demo_auction None ∅)) = true) as H
      by (vm_compute; reflexivity). rewrite E in H. discriminate H.
Defined.
