(* ===== verification/VideoTracking.v ===== *)
(** * Player events: the ring of tracking events and the impression deduper
    (endpoints/video_pipeline.go)

    [trackingStore] keeps the last events a player reported in a ring of fixed size, with the
    rarely used fields of an event in a side map.  It refines the list of the last events: what
    [all] returns is exactly that list.  [impressionDeduper] spreads the keys it has seen over 64
    locked shards by an FNV hash.  It refines one plain map, and with the cleanup of the handler's
    ticker a key is not counted twice within ten minutes. *)
From S2P Require Import Prelude GoFloat.

(** ** Events *)
Definition EventType := string.
Definition EventImpression : EventType := "impression".
Definition EventStart : EventType := "start".
Definition EventFirstQuartile : EventType := "firstQuartile".
Definition EventMidpoint : EventType := "midpoint".
Definition EventThirdQuartile : EventType := "thirdQuartile".
Definition EventComplete : EventType := "complete".
Definition EventClick : EventType := "click".

(** Times are nanoseconds since the epoch: a [time.Time] is stored as [UnixNano] and read back by
    [time.Unix(0, n)]. *)
Record TrackingEvent := {
  ev_AuctionID : string;
  ev_BidID : string;
  ev_Bidder : string;
  ev_PlacementID : string;
  ev_Event : EventType;
  ev_CrID : string;
  ev_Price : float64;
  ev_ADomain : string;
  ev_ReceivedAt : Z
}.

Inductive trackingEventCode :=
| trackingEventCustom
| trackingEventImpression
| trackingEventStart
| trackingEventFirstQuartile
| trackingEventMidpoint
| trackingEventThirdQuartile
| trackingEventComplete
| trackingEventClick.

Definition trackingEventCodeFromEventType (event : EventType) : trackingEventCode * EventType :=
  if event =s? EventImpression then (trackingEventImpression, "")
  else if event =s? EventStart then (trackingEventStart, "")
  else if event =s? EventFirstQuartile then (trackingEventFirstQuartile, "")
  else if event =s? EventMidpoint then (trackingEventMidpoint, "")
  else if event =s? EventThirdQuartile then (trackingEventThirdQuartile, "")
  else if event =s? EventComplete then (trackingEventComplete, "")
  else if event =s? EventClick then (trackingEventClick, "")
  else (trackingEventCustom, event).

Definition trackingEventType (code : trackingEventCode) : EventType :=
  match code with
  | trackingEventImpression => EventImpression
  | trackingEventStart => EventStart
  | trackingEventFirstQuartile => EventFirstQuartile
  | trackingEventMidpoint => EventMidpoint
  | trackingEventThirdQuartile => EventThirdQuartile
  | trackingEventComplete => EventComplete
  | trackingEventClick => EventClick
  | trackingEventCustom => ""
  end.

Record trackingEventRecord := {
  rec_seq : Z;
  rec_AuctionID : string;
  rec_BidID : string;
  rec_Bidder : string;
  rec_PlacementID : string;
  rec_Event : trackingEventCode;
  rec_Price : float64;
  rec_ReceivedAtUnixNs : Z
}.

Record trackingEventExtras := {
  ex_CrID : string;
  ex_ADomain : string;
  ex_CustomEvent : EventType
}.

(** ** The ring
    [ring] and [extras] are [None] while they are nil. *)
Record trackingStore := {
  ring : option (list trackingEventRecord);
  extras : option (gmap Z trackingEventExtras);
  pos : nat;
  full : bool;
  count : Z
}.
Definition zeroStore : trackingStore :=
  {| ring := None; extras := None; pos := 0; full := false; count := 0 |}.

Definition zeroRecord : trackingEventRecord :=
  {| rec_seq := 0; rec_AuctionID := ""; rec_BidID := ""; rec_Bidder := ""; rec_PlacementID := "";
     rec_Event := trackingEventCustom; rec_Price := f0; rec_ReceivedAtUnixNs := 0 |}.

Definition trackingStoreMaxEvents : nat := Z.to_nat 100000.

Section ring.
(** The capacity is a constant of the code, [trackingStoreMaxEvents]. *)
Context (max : nat).

(** What [record] writes to the ring, and to the side map when there is anything for it. *)
Definition recordOf (seq : Z) (ev : TrackingEvent) : trackingEventRecord :=
  {| rec_seq := seq; rec_AuctionID := ev_AuctionID ev; rec_BidID := ev_BidID ev;
     rec_Bidder := ev_Bidder ev; rec_PlacementID := ev_PlacementID ev;
     rec_Event := (trackingEventCodeFromEventType (ev_Event ev)).1;
     rec_Price := ev_Price ev; rec_ReceivedAtUnixNs := ev_ReceivedAt ev |}.

Definition extrasOf (ev : TrackingEvent) : option trackingEventExtras :=
  let customEvent := (trackingEventCodeFromEventType (ev_Event ev)).2 in
  if (ev_CrID ev ≠s? "") || (ev_ADomain ev ≠s? "") || (customEvent ≠s? "")
  then Some {| ex_CrID := ev_CrID ev; ex_ADomain := ev_ADomain ev; ex_CustomEvent := customEvent |}
  else None.

(** [None] is a panic: an index outside of the ring. *)
Definition record (t : trackingStore) (ev : TrackingEvent) : option trackingStore :=
  let r := default (replicate max zeroRecord) (ring t) in
  let seq := wrap64 (count t + 1) in
  old ← r !! pos t;
  let oldSeq := rec_seq old in
  let ex := match extras t with
            | Some m => if negb (oldSeq =? 0) then Some (delete oldSeq m) else Some m
            | None => None
            end in
  let r' := <[pos t := recordOf seq ev]> r in
  let ex' := match extrasOf ev with
             | Some x => Some (<[seq := x]> (default ∅ ex))
             | None => ex
             end in
  let pos' := S (pos t) in
  Some (if (max <=? pos')%nat
        then {| ring := Some r'; extras := ex'; pos := 0; full := true; count := seq |}
        else {| ring := Some r'; extras := ex'; pos := pos'; full := full t; count := seq |}).

Definition expand (t : trackingStore) (rec : trackingEventRecord) : TrackingEvent :=
  let ev := {| ev_AuctionID := rec_AuctionID rec; ev_BidID := rec_BidID rec;
               ev_Bidder := rec_Bidder rec; ev_PlacementID := rec_PlacementID rec;
               ev_Event := trackingEventType (rec_Event rec); ev_CrID := ""; ev_Price := rec_Price rec;
               ev_ADomain := ""; ev_ReceivedAt := rec_ReceivedAtUnixNs rec |} in
  match (if rec_seq rec =? 0 then None else extras t) with
  | None => ev
  | Some m =>
      match m !! rec_seq rec with
      | None => ev
      | Some extra =>
          {| ev_AuctionID := ev_AuctionID ev; ev_BidID := ev_BidID ev; ev_Bidder := ev_Bidder ev;
             ev_PlacementID := ev_PlacementID ev;
             ev_Event := if ex_CustomEvent extra ≠s? "" then ex_CustomEvent extra else ev_Event ev;
             ev_CrID := ex_CrID extra; ev_Price := ev_Price ev; ev_ADomain := ex_ADomain extra;
             ev_ReceivedAt := ev_ReceivedAt ev |}
      end
  end.

(** [for i := 0; i < n; i++ { cp[..] = t.expand(t.ring[from+i]) }] *)
Definition expandFrom (t : trackingStore) (r : list trackingEventRecord) (from n : nat) :
    option (list TrackingEvent) :=
  mapM (λ i, expand t <$> r !! (from + i)%nat) (seq 0 n).

Definition all (t : trackingStore) : option (list TrackingEvent) :=
  match ring t with
  | None => Some []
  | Some r =>
      let n := if full t then max else pos t in
      if (n =? 0)%nat then Some []
      else if full t then
        older ← expandFrom t r (pos t) (max - pos t);
        newer ← expandFrom t r 0 (pos t);
        Some (older ++ newer)
      else expandFrom t r 0 (pos t)
  end.

(** ** The abstract store: the list of all events, of which the last [max] are kept. *)
Definition record_all (evs : list TrackingEvent) : option trackingStore :=
  foldl (λ o ev, t ← o; record t ev) (Some zeroStore) evs.
Definition last_events (evs : list TrackingEvent) : list TrackingEvent :=
  drop (length evs - max) evs.

Lemma event_code_round_trip event :
  let '(code, custom) := trackingEventCodeFromEventType event in
  (if custom ≠s? "" then custom else trackingEventType code) = event.
Proof.
  unfold trackingEventCodeFromEventType. repeat go_destruct; go_bool; by subst.
Qed.

(** Reading back one event gives the event. *)
Lemma expand_recordOf t seq ev :
  seq ≠ 0 → (default ∅ (extras t) : gmap Z trackingEventExtras) !! seq = extrasOf ev →
  expand t (recordOf seq ev) = ev.
Proof.
  intros Hseq Hex. pose proof (event_code_round_trip (ev_Event ev)) as Hcode.
  assert (match extras t with None => None | Some m => m !! seq end = extrasOf ev) as Hex'.
  { destruct (extras t); [done|]. simpl in Hex. by rewrite lookup_empty in Hex. }
  unfold expand, recordOf, extrasOf in *. simpl.
  destruct (trackingEventCodeFromEventType (ev_Event ev)) as [code custom]. simpl in *.
  rewrite (proj2 (Z.eqb_neq seq 0) Hseq).
  destruct (extras t) as [m|]; [rewrite Hex'|].
  all: destruct ev as [a b c d e cr p ad rt]; simpl in *.
  all: destruct (String.eqb_spec cr ""), (String.eqb_spec ad ""), (String.eqb_spec custom "");
    simplify_eq/=; try done; by destruct e.
Qed.

(** ** The invariant of the ring after the events [evs]
    Slot [j mod max] holds event [j] for the last [max] events, later slots are still zero, and
    the side map has an entry for exactly those kept events that need one. *)
Record ring_inv (evs : list TrackingEvent) (t : trackingStore) (r : list trackingEventRecord) : Prop := {
  inv_len : length r = max;
  inv_pos : pos t = (length evs `mod` max)%nat;
  inv_full : full t = (max <=? length evs)%nat;
  inv_count : count t = Z.of_nat (length evs);
  inv_slot j ev : evs !! j = Some ev → (length evs ≤ j + max)%nat →
    r !! (j `mod` max)%nat = Some (recordOf (Z.of_nat (S j)) ev);
  inv_zero i : (length evs ≤ i < max)%nat → r !! i = Some zeroRecord;
  inv_extras j ev : evs !! j = Some ev → (length evs ≤ j + max)%nat →
    (default ∅ (extras t) : gmap Z trackingEventExtras) !! Z.of_nat (S j) = extrasOf ev;
  inv_extras_dom k : is_Some ((default ∅ (extras t) : gmap Z trackingEventExtras) !! k) →
    ∃ j, k = Z.of_nat (S j) ∧ (j < length evs ≤ j + max)%nat
}.
Definition store_inv (evs : list TrackingEvent) (t : trackingStore) : Prop :=
  ring_inv evs t (default (replicate max zeroRecord) (ring t)) ∧ (ring t = None → t = zeroStore ∧ evs = []).

Context (Hmax : (0 < max)%nat).

Lemma mod_window_ne j n : (j < n < j + max)%nat → (j `mod` max ≠ n `mod` max)%nat.
Proof.
  intros Hj Heq.
  pose proof (Nat.div_mod_eq j max) as Hdj. pose proof (Nat.div_mod_eq n max) as Hdn.
  assert (n - j = max * (n / max - j / max))%nat as Hd by nia.
  destruct (n / max - j / max)%nat; nia.
Qed.

Lemma mod_back n : (max ≤ n)%nat → ((n - max) `mod` max = n `mod` max)%nat.
Proof.
  intros Hn. replace n with ((n - max) + 1 * max)%nat at 2 by lia. by rewrite Nat.Div0.mod_add.
Qed.

Lemma store_inv_zero : store_inv [] zeroStore.
Proof.
  split; [|done]. simpl. split; simpl; try done.
  - apply length_replicate.
  - by rewrite Nat.Div0.mod_0_l.
  - symmetry. apply Nat.leb_gt. lia.
  - intros i Hi. apply lookup_replicate_2. lia.
  - intros k [x Hx]. by rewrite lookup_empty in Hx.
Qed.

(** The slot that is overwritten: zero, or the event that falls out of the window. *)
Lemma ring_inv_old evs t r : ring_inv evs t r →
  ∃ old, r !! pos t = Some old ∧
    rec_seq old = (if (max <=? length evs)%nat then Z.of_nat (S (length evs - max)) else 0).
Proof.
  intros Hinv. destruct (Nat.leb_spec max (length evs)) as [Hfull|Hfull].
  - destruct (lookup_lt_is_Some_2 evs (length evs - max)) as [ev Hev]; [lia|].
    exists (recordOf (Z.of_nat (S (length evs - max))) ev). split; [|done].
    rewrite (inv_pos _ _ _ Hinv), <-mod_back by done. by apply (inv_slot _ _ _ Hinv); [|lia].
  - exists zeroRecord. split; [|done]. rewrite (inv_pos _ _ _ Hinv), Nat.mod_small by lia.
    eapply inv_zero; [done|lia].
Qed.

(** What the side map holds once the entry of the overwritten event is gone. *)
Lemma extras_after evs t r (seq oldSeq : Z) ev (ex ex' : option (gmap Z trackingEventExtras)) :
  ring_inv evs t r → seq = Z.of_nat (S (length evs)) →
  oldSeq = (if (max <=? length evs)%nat then Z.of_nat (S (length evs - max)) else 0) →
  ex = match extras t with
       | Some m => if negb (oldSeq =? 0) then Some (delete oldSeq m) else Some m
       | None => None
       end →
  ex' = match extrasOf ev with Some x => Some (<[seq := x]> (default ∅ ex)) | None => ex end →
  (default ∅ ex' : gmap Z trackingEventExtras) =
    match extrasOf ev with
    | Some x => <[seq := x]> (delete oldSeq (default ∅ (extras t)))
    | None => delete oldSeq (default ∅ (extras t))
    end.
Proof.
  intros Hinv Hseq Hold -> ->.
  assert ((default ∅ match extras t with
       | Some m => if negb (oldSeq =? 0) then Some (delete oldSeq m) else Some m
       | None => None end : gmap Z trackingEventExtras) = delete oldSeq (default ∅ (extras t))) as Hd.
  { pose proof (inv_extras_dom _ _ _ Hinv) as Hdom.
    destruct (extras t) as [m|]; simpl in *; [|by rewrite delete_empty].
    destruct (Z.eqb_spec oldSeq 0) as [->|]; simpl; [|done].
    symmetry. apply delete_id. apply eq_None_not_Some. intros (j & ? & ?)%Hdom. lia. }
  destruct (extrasOf ev); simpl; by rewrite Hd.
Qed.

Lemma next_position n : (S n `mod` max)%nat =
  (if (max <=? S (n `mod` max))%nat then 0 else S (n `mod` max))%nat.
Proof.
  pose proof (Nat.mod_upper_bound n max ltac:(lia)). pose proof (Nat.div_mod_eq n max) as Hdm.
  replace (S n) with (S (n `mod` max) + (n / max) * max)%nat by lia.
  rewrite Nat.Div0.mod_add. destruct (Nat.leb_spec max (S (n `mod` max))).
  - replace (S (n `mod` max)) with (1 * max)%nat by lia. apply Nat.Div0.mod_mul.
  - apply Nat.mod_small. lia.
Qed.

Lemma next_full n :
  (max <=? S n)%nat = (if (max <=? S (n `mod` max))%nat then true else (max <=? n)%nat).
Proof.
  destruct (Nat.leb_spec max (S (n `mod` max))) as [H|H].
  - apply Nat.leb_le. pose proof (Nat.Div0.mod_le n max). lia.
  - destruct (Nat.leb_spec max n), (Nat.leb_spec max (S n)); try lia; try done.
    rewrite Nat.mod_small in H by lia. lia.
Qed.

(** The last event of the extended list, or one that was kept before. *)
Lemma lookup_window (evs : list TrackingEvent) ev j x :
  (evs ++ [ev]) !! j = Some x → (S (length evs) ≤ j + max)%nat →
  (j = length evs ∧ x = ev) ∨ (evs !! j = Some x ∧ (j < length evs < j + max)%nat).
Proof.
  intros [Hj|[Hge Hj]]%lookup_app_Some Hw.
  - right. split; [done|]. apply lookup_lt_Some in Hj. lia.
  - left. apply list_lookup_singleton_Some in Hj as [? <-]. split; [lia|done].
Qed.

Lemma ring_inv_step evs t r ev ex' :
  ring_inv evs t r →
  (default ∅ ex' : gmap Z trackingEventExtras) =
    match extrasOf ev with
    | Some x => <[Z.of_nat (S (length evs)) := x]>
    | None => id
    end (delete (if (max <=? length evs)%nat then Z.of_nat (S (length evs - max)) else 0)
          (default ∅ (extras t))) →
  let r' := <[pos t := recordOf (Z.of_nat (S (length evs))) ev]> r in
  ring_inv (evs ++ [ev])
    {| ring := Some r'; extras := ex'; pos := (S (length evs) `mod` max)%nat;
       full := (max <=? S (length evs))%nat; count := Z.of_nat (S (length evs)) |} r'.
Proof.
  intros Hinv Hex r'.
  assert (length (evs ++ [ev]) = S (length evs)) as Hlen by (rewrite length_app; simpl; lia).
  assert (∀ k, k ≠ Z.of_nat (S (length evs)) → (default ∅ ex' : gmap Z trackingEventExtras) !! k =
    (delete (if (max <=? length evs)%nat then Z.of_nat (S (length evs - max)) else 0)
          (default ∅ (extras t) : gmap Z trackingEventExtras)) !! k) as Hother.
  { intros k Hk. rewrite Hex. destruct (extrasOf ev); [by rewrite lookup_insert_ne by done|done]. }
  assert (pos t < max)%nat as Hpos.
  { rewrite (inv_pos _ _ _ Hinv). apply Nat.mod_upper_bound. lia. }
  split; simpl; rewrite ?Hlen; try done.
  - unfold r'. rewrite length_insert. apply Hinv.
  - intros j x Hj Hw'. apply lookup_window in Hj as [[-> ->]|[Hj Hw]]; [| |done].
    + unfold r'. rewrite <-(inv_pos _ _ _ Hinv). apply list_lookup_insert_eq. rewrite (inv_len _ _ _ Hinv). done.
    + unfold r'. rewrite list_lookup_insert_ne.
      * eapply inv_slot; [done|done|lia].
      * rewrite (inv_pos _ _ _ Hinv). intros ?. by eapply (mod_window_ne j (length evs)).
  - intros i Hi. unfold r'. rewrite list_lookup_insert_ne; [eapply inv_zero; [done|lia]|].
    rewrite (inv_pos _ _ _ Hinv), Nat.mod_small by lia. lia.
  - intros j x Hj Hw'. apply lookup_window in Hj as [[-> ->]|[Hj Hw]]; [| |done].
    + rewrite Hex. destruct (extrasOf ev); [by rewrite lookup_insert_eq|].
      unfold id. rewrite lookup_delete_ne by (destruct (Nat.leb_spec max (length evs)); lia).
      apply eq_None_not_Some. intros (i & ? & ?)%(inv_extras_dom _ _ _ Hinv). lia.
    + rewrite Hother by lia. rewrite lookup_delete_ne; [eapply inv_extras; [done|done|lia]|].
      destruct (Nat.leb_spec max (length evs)); lia.
  - intros k Hk. destruct (decide (k = Z.of_nat (S (length evs)))) as [->|Hne].
    { exists (length evs). split; [done|lia]. }
    rewrite Hother in Hk by done. apply lookup_delete_is_Some in Hk as [Hne' Hk].
    apply (inv_extras_dom _ _ _ Hinv) in Hk as (j & -> & Hj). exists j. split; [done|].
    destruct (Nat.leb_spec max (length evs)); lia.
Qed.

Lemma record_inv evs t ev :
  store_inv evs t → Z.of_nat (length evs) < two63 - 1 →
  ∃ t', record t ev = Some t' ∧ store_inv (evs ++ [ev]) t'.
Proof.
  intros [Hinv _] Hlen. unfold record.
  destruct (ring_inv_old _ _ _ Hinv) as (old & Hold & Holdseq).
  set (r := default (replicate max zeroRecord) (ring t)) in *.
  rewrite Hold. cbn [mbind option_bind].
  assert (wrap64 (count t + 1) = Z.of_nat (S (length evs))) as ->.
  { rewrite (inv_count _ _ _ Hinv), wrap64_id; [lia|]. unfold int64_range, two63 in *. lia. }
  match goal with |- context [Build_trackingStore _ ?e _ _ _] => set (ex' := e) end.
  assert (default ∅ ex' = match extrasOf ev with
    | Some x => <[Z.of_nat (S (length evs)) := x]> | None => id
    end (delete (rec_seq old) (default ∅ (extras t)))) as Hex.
  { rewrite (extras_after evs t r _ (rec_seq old) ev _ ex' Hinv eq_refl Holdseq eq_refl eq_refl).
    by destruct (extrasOf ev). }
  rewrite Holdseq in Hex. pose proof (ring_inv_step _ _ _ _ _ Hinv Hex) as Hstep.
  eexists. split; [done|]. split; [|by destruct (max <=? S (pos t))%nat; intros [=]].
  rewrite (inv_pos _ _ _ Hinv), (next_full (length evs)), (next_position (length evs)) in Hstep.
  rewrite (inv_pos _ _ _ Hinv), (inv_full _ _ _ Hinv).
  revert Hstep. by destruct (max <=? S _)%nat.
Qed.

Lemma record_all_inv evs :
  Z.of_nat (length evs) < two63 → ∃ t, record_all evs = Some t ∧ store_inv evs t.
Proof.
  induction evs as [|ev evs IH] using rev_ind; intros Hlen; [eexists; split; [done|apply store_inv_zero]|].
  rewrite length_app in Hlen. simpl in Hlen.
  destruct IH as (t & Ht & Hinv); [lia|].
  destruct (record_inv evs t ev Hinv) as (t' & Ht' & Hinv'); [lia|].
  exists t'. split; [|done]. unfold record_all. rewrite foldl_snoc. fold (record_all evs). by rewrite Ht.
Qed.

(** A stretch of the ring, read back. *)
Lemma expandFrom_window evs t r from n start :
  ring_inv evs t r → (start + n ≤ length evs ≤ start + max)%nat →
  (∀ i, i < n → (start + i) `mod` max = from + i)%nat →
  expandFrom t r from n = Some (take n (drop start evs)).
Proof.
  intros Hinv Hn Hmod. unfold expandFrom. apply mapM_Some. apply Forall2_same_length_lookup_2.
  { rewrite length_seq, length_take, length_drop. lia. }
  intros i x y [-> Hi]%lookup_seq Hy. simpl.
  apply lookup_take_Some in Hy as [Hy _]. rewrite lookup_drop in Hy.
  rewrite <-Hmod by done. erewrite inv_slot by (done || lia). simpl. f_equal.
  apply expand_recordOf; [lia|]. eapply inv_extras; [done|done|lia].
Qed.

Lemma store_inv_all evs t : store_inv evs t → all t = Some (last_events evs).
Proof.
  intros [Hinv Hnone]. unfold all, last_events. destruct (ring t) as [r|]; simpl in Hinv.
  2:{ by destruct (Hnone eq_refl) as [_ ->]. }
  pose proof (Nat.mod_upper_bound (length evs) max ltac:(lia)) as Hub.
  pose proof (Nat.div_mod_eq (length evs) max) as Hdm.
  rewrite (inv_full _ _ _ Hinv), (inv_pos _ _ _ Hinv).
  destruct (Nat.leb_spec max (length evs)) as [Hf|Hf].
  - destruct (Nat.eqb_spec max 0); [lia|].
    rewrite (expandFrom_window evs _ _ (length evs `mod` max) (max - length evs `mod` max)
      (length evs - max) Hinv).
    + cbn [mbind option_bind].
      rewrite (expandFrom_window evs _ _ 0 _ (length evs - length evs `mod` max) Hinv).
      * cbn [mbind option_bind]. f_equal.
        rewrite (take_ge (drop (length evs - length evs `mod` max) evs)) by (rewrite length_drop; lia).
        replace (length evs - length evs `mod` max)%nat
          with (length evs - max + (max - length evs `mod` max))%nat by lia.
        rewrite <-drop_drop. apply take_drop.
      * lia.
      * intros i Hi. replace (length evs - length evs `mod` max + i)%nat
          with (i + (length evs / max) * max)%nat by lia.
        rewrite Nat.Div0.mod_add. by apply Nat.mod_small; lia.
    + lia.
    + intros i Hi. assert (1 ≤ length evs / max)%nat by nia.
      replace (length evs - max + i)%nat
        with (length evs `mod` max + i + (length evs / max - 1) * max)%nat by nia.
      rewrite Nat.Div0.mod_add. by apply Nat.mod_small; lia.
  - rewrite Nat.mod_small by done. replace (length evs - max)%nat with 0%nat by lia. rewrite drop_0.
    destruct (Nat.eqb_spec (length evs) 0) as [->%nil_length_inv|]; [done|].
    rewrite (expandFrom_window evs _ _ 0 _ 0 Hinv); [by rewrite drop_0, firstn_all|lia|].
    intros i Hi. apply Nat.mod_small. lia.
Qed.

Lemma store_inv_extras_size evs t :
  store_inv evs t → (size (default ∅ (extras t) : gmap Z trackingEventExtras) ≤ max)%nat.
Proof.
  intros [Hinv _].
  set (w := map (λ j, Z.of_nat (S j)) (seq (length evs - max) max)).
  assert (dom (default ∅ (extras t) : gmap Z trackingEventExtras) ⊆@{gset Z} list_to_set w) as Hsub.
  { intros k [x Hk]%elem_of_dom. apply elem_of_list_to_set, list_elem_of_fmap.
    destruct (inv_extras_dom _ _ _ Hinv k) as (j & -> & Hj); [by eexists|].
    exists j. split; [done|]. apply elem_of_seq. lia. }
  rewrite <-size_dom. etrans; [by apply subseteq_size|].
  rewrite size_list_to_set; [unfold w; by rewrite length_map, length_seq|].
  apply (NoDup_fmap_2 (λ j, Z.of_nat (S j))), NoDup_seq.
Qed.
End ring.

(** The ring of tracking events refines the list of all events: recording never panics, and
    [all] returns exactly the last [max] recorded events, oldest first, with every field as it was
    recorded, although an event is split over the ring and the side map.  The side map never has
    more entries than the ring.  ([trackingStoreMaxEvents] is the code's [max]; the counter wraps
    after 2^63 events.) *)
Theorem tracking_ring_refines_last_events max evs :
  (0 < max)%nat → Z.of_nat (length evs) < two63 →
  ∃ t, record_all max evs = Some t ∧ all max t = Some (last_events max evs) ∧
       (size (default ∅ (extras t) : gmap Z trackingEventExtras) ≤ max)%nat.
Proof.
  intros Hmax Hlen. destruct (record_all_inv max Hmax evs Hlen) as (t & Ht & Hinv).
  exists t. split; [done|]. split; [by apply store_inv_all|by eapply store_inv_extras_size].
Qed.

Definition sampleEvent (id event crid : string) : TrackingEvent :=
  {| ev_AuctionID := id; ev_BidID := "b"; ev_Bidder := "x"; ev_PlacementID := "p"; ev_Event := event;
     ev_CrID := crid; ev_Price := f1; ev_ADomain := ""; ev_ReceivedAt := 7 |}.
(** Four events in a ring of three: the first is gone, with its entry of the side map. *)
Lemma tracking_ring_witness :
  let evs := [sampleEvent "1" "pause" "c1"; sampleEvent "2" "start" ""; sampleEvent "3" "mute" "";
              sampleEvent "4" "complete" "c4"] in
  ∃ t, record_all 3 evs = Some t ∧ all 3 t = Some (drop 1 evs) ∧ (0 < 3)%nat.
Proof.
  intros evs. destruct (tracking_ring_refines_last_events 3 evs) as (t & Ht & Hall & _).
  - lia.
  - vm_compute. reflexivity.
  - exists t. split; [exact Ht|]. split; [exact Hall|lia].
Defined.

(** ** The page of events a client asks for
    [TrackingEventsEndpoint] reads [offset] and [limit] and slices.  [None] is the panic of a slice
    expression out of range. *)
Record eventsPage := { page_Total : Z; page_Offset : Z; page_Limit : Z; page_Events : list TrackingEvent }.

Definition slice {A} (l : list A) (from to : Z) : option (list A) :=
  if (0 <=? from) && (from <=? to) && (to <=? Z.of_nat (length l))
  then Some (take (Z.to_nat (to - from)) (drop (Z.to_nat from) l)) else None.

Definition pageParam (v : string) (ok : Z → bool) (dflt : Z) : Z :=
  if v =s? "" then dflt
  else match Atoi v with Some n => if ok n then n else dflt | None => dflt end.

Definition TrackingEventsEndpoint (events : list TrackingEvent) (offsetParam limitParam : string) :
    option eventsPage :=
  let offset := pageParam offsetParam (λ n, 0 <=? n) 0 in
  let limit := pageParam limitParam (λ n, 0 <? n) 1000 in
  let total := Z.of_nat (length events) in
  let offset := if total <? offset then total else offset in
  let end_ := wrap64 (offset + limit) in
  let end_ := if total <? end_ then total else end_ in
  page ← slice events offset end_;
  Some {| page_Total := total; page_Offset := offset; page_Limit := limit; page_Events := page |}.

Lemma Atoi_range s n : Atoi s = Some n → int64_range n.
Proof.
  unfold Atoi, int64_range. intros H. repeat (go_destruct_in H; simplify_eq/=; try done); go_bool; lia.
Qed.

Lemma pageParam_range v ok dflt :
  int64_range dflt → (ok dflt = true) → int64_range (pageParam v ok dflt) ∧ ok (pageParam v ok dflt) = true.
Proof.
  intros Hd Hok. unfold pageParam. repeat (go_destruct; try done). split; [by eapply Atoi_range|done].
Qed.

(** A page holds the events from [offset] on, [limit] at most, whenever their sum fits an [int];
    the parameters fall back to 0 and 1000 when they do not parse.  With a sum beyond [int] (an
    [offset] above zero and the largest [limit]) the slice expression panics. *)
Theorem events_page_or_panic events o l :
  let offset := Z.min (pageParam o (λ n, 0 <=? n) 0) (Z.of_nat (length events)) in
  let limit := pageParam l (λ n, 0 <? n) 1000 in
  Z.of_nat (length events) < two63 →
  TrackingEventsEndpoint events o l =
    if offset + limit <? two63 then
      Some {| page_Total := Z.of_nat (length events); page_Offset := offset; page_Limit := limit;
              page_Events := take (Z.to_nat limit) (drop (Z.to_nat offset) events) |}
    else None.
Proof.
  intros offset limit Hlen.
  destruct (pageParam_range o (λ n, 0 <=? n) 0) as [Ho1 Ho2]; [done|done|].
  destruct (pageParam_range l (λ n, 0 <? n) 1000) as [Hl1 Hl2]; [done|done|].
  unfold TrackingEventsEndpoint. fold limit.
  set (o' := pageParam o _ 0) in *.
  assert ((if Z.of_nat (length events) <? o' then Z.of_nat (length events) else o') = offset) as ->.
  { unfold offset. destruct (Z.ltb_spec (Z.of_nat (length events)) o'); lia. }
  unfold int64_range in *. go_bool. simpl in *. go_bool.
  assert (0 ≤ offset ≤ Z.of_nat (length events)) as Hoff by (unfold offset; lia).
  fold limit in Hl1, Hl2.
  destruct (Z.ltb_spec (offset + limit) two63) as [Hs|Hs].
  - rewrite wrap64_id by (unfold int64_range, two63 in *; lia).
    destruct (Z.ltb_spec (Z.of_nat (length events)) (offset + limit)) as [Hc|Hc]; unfold slice.
    + rewrite (proj2 (Z.leb_le _ _)) by lia. rewrite (proj2 (Z.leb_le _ _)) by lia.
      rewrite (proj2 (Z.leb_le _ _)) by lia. cbn. do 2 f_equal.
      rewrite !take_ge by (rewrite length_drop; lia). done.
    + rewrite !(proj2 (Z.leb_le _ _)) by lia. cbn. do 4 f_equal. lia.
  - assert (wrap64 (offset + limit) = offset + limit - two64) as ->.
    { unfold wrap64, two63, two64 in *. rewrite <-(Z.mod_unique (offset + limit + 9223372036854775808)
        18446744073709551616 1 (offset + limit + 9223372036854775808 - 18446744073709551616)); lia. }
    unfold slice. destruct (Z.ltb_spec (Z.of_nat (length events)) (offset + limit - two64));
      [unfold two63, two64 in *; lia|].
    rewrite (proj2 (Z.leb_gt offset (offset + limit - two64))) by (unfold two63, two64 in *; lia).
    by rewrite andb_false_r.
Qed.

Lemma events_page_witness :
  TrackingEventsEndpoint [sampleEvent "1" "start" ""; sampleEvent "2" "start" ""] "1" "9223372036854775807" = None
  ∧ Z.of_nat 2 < two63.
Proof.
  split; [|done].
  exact (events_page_or_panic [sampleEvent "1" "start" ""; sampleEvent "2" "start" ""]
    "1" "9223372036854775807" eq_refl).
Defined.

(** ** The impression deduper *)
Record impressionKey := { ik_AuctionID : string; ik_BidID : string }.
#[export] Instance impressionKey_eq_dec : EqDecision impressionKey.
Proof. solve_decision. Defined.
#[export] Instance impressionKey_countable : Countable impressionKey :=
  inj_countable' (λ k, (ik_AuctionID k, ik_BidID k))
    (λ p, {| ik_AuctionID := p.1; ik_BidID := p.2 |}) ltac:(by intros []).

Definition impressionDeduperShardCount : nat := 64.
Notation shardMap := (gmap impressionKey Z).
(** Each shard has its lock; an operation on a key is atomic in the key's shard. *)
Notation impressionDeduper := (list shardMap).
Definition newImpressionDeduper : impressionDeduper := replicate impressionDeduperShardCount ∅.

(** [uint64] arithmetic wraps modulo 2^64. *)
Definition fnvStep (h c : Z) : Z := (Z.lxor h c * 1099511628211) `mod` two64.
Fixpoint fnvString (h : Z) (s : string) : Z :=
  match s with
  | EmptyString => h
  | String a s' => fnvString (fnvStep h (Z.of_N (N_of_ascii a))) s'
  end.
Definition hashImpressionKey (key : impressionKey) : Z :=
  let h := fnvString 1469598103934665603 (ik_AuctionID key) in
  let h := fnvStep h 58 in
  fnvString h (ik_BidID key).

Definition shard (key : impressionKey) : nat :=
  Z.to_nat (Z.land (hashImpressionKey key) (Z.of_nat impressionDeduperShardCount - 1)).

(** [None] is an index out of range. *)
Definition SeenOrAdd (d : impressionDeduper) (key : impressionKey) (seenAtUnix : Z) :
    option (bool * impressionDeduper) :=
  sh ← d !! shard key;
  match sh !! key with
  | Some _ => Some (true, d)
  | None => Some (false, <[shard key := <[key := seenAtUnix]> sh]> d)
  end.

Definition cleanupShard (cutoffUnix : Z) (sh : shardMap) : shardMap :=
  filter (λ '(_, seenAt), ¬ seenAt < cutoffUnix) sh.
Definition CleanupBefore (d : impressionDeduper) (cutoffUnix : Z) : impressionDeduper :=
  map (cleanupShard cutoffUnix) d.

(** *** One map instead of shards *)
Record deduper_inv (d : impressionDeduper) (m : shardMap) : Prop := {
  dd_len : length d = impressionDeduperShardCount;
  dd_lookup key : (d !! shard key) ≫= (λ sh, sh !! key) = m !! key;
  (** A key lives in no shard but its own. *)
  dd_home i sh key : d !! i = Some sh → is_Some (sh !! key) → i = shard key
}.

Lemma shard_bound key : (shard key < impressionDeduperShardCount)%nat.
Proof.
  unfold shard, impressionDeduperShardCount. change (Z.of_nat 64 - 1) with (Z.ones 6).
  rewrite Z.land_ones by lia. pose proof (Z.mod_pos_bound (hashImpressionKey key) (2 ^ 6)). lia.
Qed.

Lemma deduper_inv_new : deduper_inv newImpressionDeduper ∅.
Proof.
  split.
  - apply length_replicate.
  - intros key. unfold newImpressionDeduper. rewrite lookup_replicate_2 by apply shard_bound. done.
  - intros i sh key [-> _]%lookup_replicate [x Hx]. by rewrite lookup_empty in Hx.
Qed.

Lemma SeenOrAdd_refines d m key t :
  deduper_inv d m →
  ∃ d', SeenOrAdd d key t = Some (bool_decide (is_Some (m !! key)), d') ∧
        deduper_inv d' (if decide (is_Some (m !! key)) then m else <[key := t]> m).
Proof.
  intros Hinv. unfold SeenOrAdd.
  destruct (lookup_lt_is_Some_2 d (shard key)) as [sh Hsh].
  { rewrite (dd_len _ _ Hinv). apply shard_bound. }
  pose proof (dd_lookup _ _ Hinv key) as Hk. rewrite Hsh in *. cbn [mbind option_bind] in *.
  rewrite <-Hk. destruct (sh !! key) as [x|] eqn:Hx.
  { exists d. split; [by rewrite bool_decide_true by eauto|].
    rewrite decide_True by eauto. done. }
  eexists. rewrite bool_decide_false, decide_False by (by intros [? ?]). split; [done|]. split.
  - rewrite length_insert. apply Hinv.
  - intros key'. destruct (decide (key' = key)) as [->|Hne].
    + rewrite list_lookup_insert_eq by (by eapply lookup_lt_Some). cbn. by rewrite !lookup_insert_eq.
    + rewrite lookup_insert_ne, <-(dd_lookup _ _ Hinv key') by done.
      destruct (decide (shard key' = shard key)) as [He|Hne'].
      * rewrite He, list_lookup_insert_eq by (by eapply lookup_lt_Some). rewrite Hsh. cbn.
        by rewrite lookup_insert_ne.
      * by rewrite list_lookup_insert_ne by done.
  - intros i sh' key' Hi Hk'. destruct (decide (i = shard key)) as [->|Hne].
    + rewrite list_lookup_insert_eq in Hi by (by eapply lookup_lt_Some). simplify_eq.
      destruct (decide (key' = key)) as [->|Hne]; [done|].
      rewrite lookup_insert_ne in Hk' by done. eapply (dd_home _ _ Hinv); done.
    + rewrite list_lookup_insert_ne in Hi by done. by eapply (dd_home _ _ Hinv).
Qed.

Lemma CleanupBefore_refines d m c :
  deduper_inv d m → deduper_inv (CleanupBefore d c) (cleanupShard c m).
Proof.
  intros Hinv. unfold CleanupBefore, cleanupShard. split.
  - rewrite length_map. apply Hinv.
  - intros key. rewrite list_lookup_fmap.
    pose proof (dd_lookup _ _ Hinv key) as Hk. destruct (d !! shard key) as [sh|]; cbn in *.
    + rewrite !map_lookup_filter, Hk. done.
    + by rewrite map_lookup_filter, <-Hk.
  - intros i sh key Hi [x Hx]. rewrite list_lookup_fmap in Hi.
    destruct (d !! i) as [sh0|] eqn:Hd; simplify_eq/=.
    apply map_lookup_filter_Some in Hx as [Hx _]. eapply (dd_home _ _ Hinv); [done|by eexists].
Qed.

(** *** Runs: beacons and ticks of the handler's cleanup
    [Beacon key now] is one impression beacon, [Tick now] the cleanup of entries older than ten
    minutes.  A run gives, per beacon, whether it was counted. *)
Inductive dedupEvent :=
| Beacon (key : impressionKey) (now : Z)
| Tick (now : Z).
Definition eventTime (e : dedupEvent) : Z := match e with Beacon _ t => t | Tick t => t end.

Definition dedupStep (d : impressionDeduper) (e : dedupEvent) : option (bool * impressionDeduper) :=
  match e with
  | Beacon key now => '(seen, d') ← SeenOrAdd d key now; Some (negb seen, d')
  | Tick now => Some (false, CleanupBefore d (now - 10 * 60))
  end.

Fixpoint dedupRun (d : impressionDeduper) (es : list dedupEvent) : option (list bool * impressionDeduper) :=
  match es with
  | [] => Some ([], d)
  | e :: es' =>
      '(c, d1) ← dedupStep d e;
      '(cs, d2) ← dedupRun d1 es';
      Some (c :: cs, d2)
  end.

(** The same on one map. *)
Definition specStep (m : shardMap) (e : dedupEvent) : bool * shardMap :=
  match e with
  | Beacon key now => if decide (is_Some (m !! key)) then (false, m) else (true, <[key := now]> m)
  | Tick now => (false, cleanupShard (now - 10 * 60) m)
  end.
Fixpoint specRun (m : shardMap) (es : list dedupEvent) : list bool * shardMap :=
  match es with
  | [] => ([], m)
  | e :: es' => let '(c, m1) := specStep m e in let '(cs, m2) := specRun m1 es' in (c :: cs, m2)
  end.

Lemma dedupStep_refines d m e :
  deduper_inv d m → ∃ d', dedupStep d e = Some ((specStep m e).1, d') ∧ deduper_inv d' (specStep m e).2.
Proof.
  intros Hinv. destruct e as [key now|now]; simpl.
  - destruct (SeenOrAdd_refines d m key now Hinv) as (d' & -> & Hinv'). cbn.
    exists d'. case_decide as Hk; simpl.
    + by rewrite bool_decide_true by done.
    + by rewrite bool_decide_false by done.
  - eexists. split; [done|]. by apply CleanupBefore_refines.
Qed.

Lemma dedupRun_refines d m es :
  deduper_inv d m → ∃ d', dedupRun d es = Some ((specRun m es).1, d') ∧ deduper_inv d' (specRun m es).2.
Proof.
  revert d m. induction es as [|e es IH]; intros d m Hinv; simpl; [by eexists|].
  destruct (dedupStep_refines d m e Hinv) as (d1 & -> & Hinv1). cbn.
  destruct (specStep m e) as [c m1]. simpl in *.
  destruct (IH d1 m1 Hinv1) as (d2 & -> & Hinv2). cbn.
  destruct (specRun m1 es) as [cs m2]. simpl in *. by eexists.
Qed.

(** Clocks do not run backwards. *)
Definition clocked (es : list dedupEvent) : Prop := StronglySorted Z.le (map eventTime es).

(** While an entry is younger than ten minutes, its key is not counted. *)
Lemma specRun_fresh m es key t0 j now :
  clocked es → m !! key = Some t0 → es !! j = Some (Beacon key now) → now ≤ t0 + 10 * 60 →
  (specRun m es).1 !! j = Some false.
Proof.
  revert m j. induction es as [|e es IH]; intros m j Hc Hm Hj Hnow; [done|].
  apply StronglySorted_inv in Hc as [Hc Hle]. rewrite Forall_forall in Hle. simpl.
  destruct (specStep m e) as [c m1] eqn:Hstep. destruct (specRun m1 es) as [cs m2] eqn:Hrun. simpl.
  destruct j as [|j]; simplify_eq/=.
  { rewrite decide_True in Hstep by eauto. by simplify_eq. }
  assert (m1 !! key = Some t0) as Hm1.
  { destruct e as [key' now'|now']; simpl in Hstep.
    - case_decide as Hk; simplify_eq; [done|]. rewrite lookup_insert_ne; [done|].
      intros ->. apply Hk. eauto.
    - simplify_eq. apply map_lookup_filter_Some. split; [done|].
      assert (now' ≤ now); [|lia]. apply Hle, list_elem_of_fmap. exists (Beacon key now).
      split; [done|by eapply list_elem_of_lookup_2]. }
  specialize (IH m1 j Hc Hm1 Hj Hnow). by rewrite Hrun in IH.
Qed.

Lemma specRun_counted_once m es key i j t0 now :
  clocked es → (i < j)%nat → es !! i = Some (Beacon key t0) → es !! j = Some (Beacon key now) →
  (specRun m es).1 !! i = Some true → now ≤ t0 + 10 * 60 → (specRun m es).1 !! j = Some false.
Proof.
  revert m i j. induction es as [|e es IH]; intros m i j Hc Hij Hi Hj Hcnt Hnow; [done|].
  apply StronglySorted_inv in Hc as [Hc Hle]. simpl in *.
  destruct (specStep m e) as [c m1] eqn:Hstep. destruct (specRun m1 es) as [cs m2] eqn:Hrun. simpl in *.
  destruct j as [|j]; [lia|]. destruct i as [|i]; simplify_eq/=.
  - case_decide; simplify_eq.
    pose proof (specRun_fresh (<[key:=t0]> m) es key t0 j now Hc) as Hf. rewrite Hrun in Hf.
    apply Hf; [apply lookup_insert_eq|done|done].
  - specialize (IH m1 i j Hc). rewrite Hrun in IH. apply IH; done || lia.
Qed.

(** An impression is counted once: in every run of beacons and cleanup ticks on the sharded deduper,
    starting with no entries, a beacon whose key was counted at most ten minutes before is not
    counted again.  (The run never indexes outside of the shards.) *)
Theorem impression_counted_once es key i j t0 now :
  clocked es → (i < j)%nat → es !! i = Some (Beacon key t0) → es !! j = Some (Beacon key now) →
  now ≤ t0 + 10 * 60 →
  ∃ counted d, dedupRun newImpressionDeduper es = Some (counted, d) ∧
    (counted !! i = Some true → counted !! j = Some false).
Proof.
  intros Hc Hij Hi Hj Hnow.
  destruct (dedupRun_refines newImpressionDeduper ∅ es deduper_inv_new) as (d & Hrun & _).
  exists (specRun ∅ es).1, d. split; [done|]. intros Hcnt. by eapply specRun_counted_once.
Qed.

Definition beaconKey : impressionKey := {| ik_AuctionID := "auction"; ik_BidID := "bid" |}.
Lemma impression_counted_once_witness :
  let es := [Beacon beaconKey 1000; Tick 1500; Beacon beaconKey 1600] in
  clocked es ∧ ∃ counted d, dedupRun newImpressionDeduper es = Some (counted, d) ∧
    (counted !! 0%nat = Some true → counted !! 2%nat = Some false).
Proof.
  intros es. assert (clocked es) as Hc.
  { unfold clocked. simpl. repeat constructor; done. }
  split; [exact Hc|].
  apply (impression_counted_once es beaconKey 0 2 1000 1600 Hc); [lia|reflexivity|reflexivity|lia].
Defined.

(** A player that retries later than ten minutes after the beacon, past a cleanup tick, is counted
    again, although the comment on [firedImpressions] says a pair is only counted once. *)
Theorem impression_recounted_after_cleanup :
  fst <$> dedupRun newImpressionDeduper [Beacon beaconKey 1000; Tick 1630; Beacon beaconKey 1631] =
  Some [true; false; true].
Proof. vm_compute. reflexivity. Qed.
