(* ===== verification/VideoUrls.v ===== *)
(** * URLs of the video pipeline (endpoints/video_pipeline.go)

    The beacons a player calls back are URLs with an encoded query.  [url.Values.Encode] and
    [url.ParseQuery] are modelled on bytes, and a beacon read by its endpoint gives back what was put
    in.  Also here: the check that keeps outbound calls on public hosts, the macros of notice URLs
    and the small tables the pipeline maps codes with. *)
From S2P Require Import Prelude GoStrings GoFloat Order GoNet.

(** ** [net/url]: escaping in queries *)
Definition upperhex (n : Z) : ascii := match String.get (Z.to_nat n) "0123456789ABCDEF" with Some c => c | None => "0"%char end.

(** The bytes [QueryEscape] keeps. *)
Definition unreserved (a : ascii) : bool :=
  is_upper a || is_lower a || bool_decide (is_Some (digit a)) ||
  Ascii.eqb a "-" || Ascii.eqb a "_" || Ascii.eqb a "." || Ascii.eqb a "~".
Definition escapeByte (a : ascii) : string :=
  if unreserved a then String a ""
  else if Ascii.eqb a " " then "+"
  else let n := Z.of_N (N_of_ascii a) in String "%" (String (upperhex (n / 16)) (String (upperhex (n `mod` 16)) "")).
Fixpoint QueryEscape (s : string) : string :=
  match s with EmptyString => "" | String a s' => escapeByte a +:+ QueryEscape s' end.

(** [None] is an [EscapeError]. *)
Fixpoint QueryUnescape (s : string) : option string :=
  match s with
  | EmptyString => Some ""
  | String "%" (String x (String y s')) =>
      h ← hex_digit x; l ← hex_digit y; t ← QueryUnescape s'; Some (String (ascii_of_N (Z.to_N (16 * h + l))) t)
  | String "%" _ => None
  | String "+" s' => t ← QueryUnescape s'; Some (String " " t)
  | String a s' => t ← QueryUnescape s'; Some (String a t)
  end.

(** ** Query strings
    [url.Values] with one value per key, as [Set] leaves it. *)
Definition Values := gmap string string.
Definition sortedKeys (v : Values) : list string := stable_sort String.ltb (map_to_list v).*1.
Definition encodePair (v : Values) (k : string) : string :=
  QueryEscape k +:+ "=" +:+ QueryEscape (default "" (v !! k)).
Definition Encode (v : Values) : string := String.concat "&" (map (encodePair v) (sortedKeys v)).

(** [strings.Cut] at a byte. *)
Fixpoint Cut (sep : ascii) (s : string) : string * string :=
  match s with
  | EmptyString => ("", "")
  | String a s' => if Ascii.eqb a sep then ("", s') else let '(b, t) := Cut sep s' in (String a b, t)
  end.
(** One setting of [url.ParseQuery]: a setting with a semicolon, without a key or with a wrong escape
    is dropped. *)
Definition parseSetting (setting : string) : list (string * string) :=
  if has_char ";" setting then []
  else if setting =s? "" then []
  else let '(key, value) := Cut "=" setting in
       match QueryUnescape key, QueryUnescape value with
       | Some k, Some v => [(k, v)]
       | _, _ => []
       end.
Definition ParseQuery (query : string) : list (string * string) := concat (map parseSetting (SplitChar "&" query)).
(** [Values.Get]: the first value of the key. *)
Fixpoint Get (q : list (string * string)) (key : string) : string :=
  match q with
  | [] => ""
  | (k, v) :: q' => if k =s? key then v else Get q' key
  end.

(** ** Beacon URLs *)
Section beacons.
Context (shortest : float64 → string).

Definition beaconValues (auctionID bidID bidder placementID crid : string) (price : float64) (adom : list string) : Values :=
  let q := <["placement_id" := placementID]> (<["bidder" := bidder]> (<["bid_id" := bidID]>
             (<["auction_id" := auctionID]> ∅))) in
  let q := if crid ≠s? "" then <["crid" := crid]> q else q in
  let q := if f0 <f? price then <["price" := shortest price]> q else q in
  match adom with [] => q | _ => <["adom" := String.concat "," adom]> q end.

Definition beaconBase (externalURL reqBaseURL : string) : string :=
  if reqBaseURL =s? "" then externalURL else reqBaseURL.
Definition buildImpressionURL (externalURL reqBaseURL auctionID bidID bidder placementID crid : string)
    (price : float64) (adom : list string) : string :=
  beaconBase externalURL reqBaseURL +:+ "/video/impression?" +:+
    Encode (beaconValues auctionID bidID bidder placementID crid price adom).
Definition buildTrackingURL (externalURL reqBaseURL auctionID bidID bidder placementID event crid : string)
    (price : float64) (adom : list string) : string :=
  beaconBase externalURL reqBaseURL +:+ "/video/tracking?" +:+
    Encode (<["event" := event]> (beaconValues auctionID bidID bidder placementID crid price adom)).
End beacons.

(** ** Auction macros
    [strings.NewReplacer] tries the pairs at each position in their order; [skip] counts the bytes
    of a replaced macro still to pass. *)
Fixpoint replaceAll (pairs : list (string * string)) (skip : nat) (s : string) : string :=
  match s with
  | EmptyString => ""
  | String a s' =>
      match skip with
      | S skip => replaceAll pairs skip s'
      | O => match list_find (λ p, HasPrefix s p.1 = true) pairs with
             | Some (_, (old, new)) => new +:+ replaceAll pairs (String.length old - 1) s'
             | None => String a (replaceAll pairs 0 s')
             end
      end
  end.

Definition auctionMacros (priceStr bidID crid auctionID bidder : string) : list (string * string) :=
  [("${AUCTION_ID}", QueryEscape auctionID); ("${AUCTION_BID_ID}", QueryEscape bidID);
   ("${AUCTION_IMP_ID}", "1"); ("${AUCTION_SEAT_ID}", QueryEscape bidder);
   ("${AUCTION_AD_ID}", QueryEscape crid); ("${AUCTION_PRICE}", QueryEscape priceStr);
   ("${AUCTION_CURRENCY}", "USD"); ("${AUCTION_LOSS}", "")].
Definition resolveAuctionMacros (shortest : float64 → string) (rawURL bidID crid : string) (price : float64)
    (auctionID bidder : string) : string :=
  if (rawURL =s? "") || negb (strContains rawURL "${") then rawURL
  else replaceAll (auctionMacros (shortest price) bidID crid auctionID bidder) 0 rawURL.

(** ** Outbound hosts *)
Inductive outboundError := EmptyURL | ParseFailed | BadScheme | EmptyHost | NotPublic.

(** Classes of [net.IP], on the 4 bytes of an IPv4 address (also one mapped into IPv6) or 16 bytes. *)
Definition IsLoopback (ip : IP) : bool :=
  match To4 ip with Some (b0 :: _) => b0 =? 127 | _ => bool_decide (ip = [0;0;0;0;0;0;0;0;0;0;0;0;0;0;0;1]) end.
Definition IsPrivate (ip : IP) : bool :=
  match To4 ip with
  | Some (b0 :: b1 :: _) => (b0 =? 10) || ((b0 =? 172) && (Z.land b1 240 =? 16)) || ((b0 =? 192) && (b1 =? 168))
  | _ => match ip with b0 :: _ => (length ip =? 16)%nat && (Z.land b0 254 =? 252) | [] => false end
  end.
Definition IsMulticast (ip : IP) : bool :=
  match To4 ip with
  | Some (b0 :: _) => Z.land b0 240 =? 224
  | _ => match ip with b0 :: _ => (length ip =? 16)%nat && (b0 =? 255) | [] => false end
  end.
Definition IsLinkLocalMulticast (ip : IP) : bool :=
  match To4 ip with
  | Some (b0 :: b1 :: b2 :: _) => (b0 =? 224) && (b1 =? 0) && (b2 =? 0)
  | _ => match ip with b0 :: b1 :: _ => (length ip =? 16)%nat && (b0 =? 255) && (Z.land b1 15 =? 2) | _ => false end
  end.
Definition IsLinkLocalUnicast (ip : IP) : bool :=
  match To4 ip with
  | Some (b0 :: b1 :: _) => (b0 =? 169) && (b1 =? 254)
  | _ => match ip with b0 :: b1 :: _ => (length ip =? 16)%nat && (b0 =? 254) && (Z.land b1 192 =? 128) | _ => false end
  end.
Definition IsUnspecified (ip : IP) : bool :=
  bool_decide (To4 ip = Some [0;0;0;0]) || bool_decide (ip = replicate 16 0).

Definition isPublicOutboundIP (ip : IP) : bool :=
  if bool_decide (ip = []) then false
  else if IsLoopback ip || IsPrivate ip || IsLinkLocalMulticast ip || IsLinkLocalUnicast ip || IsMulticast ip || IsUnspecified ip
  then false
  else match To4 ip with
       | Some (b0 :: b1 :: _) => negb ((b0 =? 100) && (64 <=? b1) && (b1 <=? 127))
       | _ => true
       end.

(** [parse] is [url.Parse]: the scheme and [Hostname()] of a URL. *)
Definition validateOutboundPublicURL (parse : string → option (string * string)) (rawURL : string) : result outboundError () :=
  let trimmed := TrimSpace rawURL in
  if trimmed =s? "" then Err EmptyURL
  else match parse trimmed with
  | None => Err ParseFailed
  | Some (scheme, hostname) =>
      if (scheme ≠s? "http") && (scheme ≠s? "https") then Err BadScheme
      else
        let host := TrimSpace hostname in
        if host =s? "" then Err EmptyHost
        else
          let lowerHost := ToLower host in
          if (lowerHost =s? "localhost") || HasSuffix lowerHost ".localhost" || HasSuffix lowerHost ".local" then Err NotPublic
          else
            let ip := net_ParseIP host in
            if negb (bool_decide (ip = [])) then (if isPublicOutboundIP ip then Ok () else Err NotPublic)
            else if negb (strContains lowerHost ".") then Err NotPublic
            else Ok ()
  end.

(** ** Tables and small functions *)
Definition iso_mapping : string :=
  "AD:AND,AE:ARE,AF:AFG,AG:ATG,AI:AIA,AL:ALB,AM:ARM,AO:AGO,AQ:ATA,AR:ARG," +:+
  "AS:ASM,AT:AUT,AU:AUS,AW:ABW,AX:ALA,AZ:AZE," +:+
  "BA:BIH,BB:BRB,BD:BGD,BE:BEL,BF:BFA,BG:BGR,BH:BHR,BI:BDI,BJ:BEN,BL:BLM," +:+
  "BM:BMU,BN:BRN,BO:BOL,BQ:BES,BR:BRA,BS:BHS,BT:BTN,BV:BVT,BW:BWA,BY:BLR,BZ:BLZ," +:+
  "CA:CAN,CC:CCK,CD:COD,CF:CAF,CG:COG,CH:CHE,CI:CIV,CK:COK,CL:CHL,CM:CMR," +:+
  "CN:CHN,CO:COL,CR:CRI,CU:CUB,CV:CPV,CW:CUW,CX:CXR,CY:CYP,CZ:CZE," +:+
  "DE:DEU,DJ:DJI,DK:DNK,DM:DMA,DO:DOM,DZ:DZA," +:+
  "EC:ECU,EE:EST,EG:EGY,EH:ESH,ER:ERI,ES:ESP,ET:ETH," +:+
  "FI:FIN,FJ:FJI,FK:FLK,FM:FSM,FO:FRO,FR:FRA," +:+
  "GA:GAB,GB:GBR,GD:GRD,GE:GEO,GF:GUF,GG:GGY,GH:GHA,GI:GIB,GL:GRL,GM:GMB," +:+
  "GN:GIN,GP:GLP,GQ:GNQ,GR:GRC,GS:SGS,GT:GTM,GU:GUM,GW:GNB,GY:GUY," +:+
  "HK:HKG,HM:HMD,HN:HND,HR:HRV,HT:HTI,HU:HUN," +:+
  "ID:IDN,IE:IRL,IL:ISR,IM:IMN,IN:IND,IO:IOT,IQ:IRQ,IR:IRN,IS:ISL,IT:ITA," +:+
  "JE:JEY,JM:JAM,JO:JOR,JP:JPN," +:+
  "KE:KEN,KG:KGZ,KH:KHM,KI:KIR,KM:COM,KN:KNA,KP:PRK,KR:KOR,KW:KWT,KY:CYM,KZ:KAZ," +:+
  "LA:LAO,LB:LBN,LC:LCA,LI:LIE,LK:LKA,LR:LBR,LS:LSO,LT:LTU,LU:LUX,LV:LVA,LY:LBY," +:+
  "MA:MAR,MC:MCO,MD:MDA,ME:MNE,MF:MAF,MG:MDG,MH:MHL,MK:MKD,ML:MLI,MM:MMR," +:+
  "MN:MNG,MO:MAC,MP:MNP,MQ:MTQ,MR:MRT,MS:MSR,MT:MLT,MU:MUS,MV:MDV,MW:MWI," +:+
  "MX:MEX,MY:MYS,MZ:MOZ," +:+
  "NA:NAM,NC:NCL,NE:NER,NF:NFK,NG:NGA,NI:NIC,NL:NLD,NO:NOR,NP:NPL,NR:NRU,NU:NIU,NZ:NZL," +:+
  "OM:OMN," +:+
  "PA:PAN,PE:PER,PF:PYF,PG:PNG,PH:PHL,PK:PAK,PL:POL,PM:SPM,PN:PCN,PR:PRI," +:+
  "PS:PSE,PT:PRT,PW:PLW,PY:PRY," +:+
  "QA:QAT," +:+
  "RE:REU,RO:ROU,RS:SRB,RU:RUS,RW:RWA," +:+
  "SA:SAU,SB:SLB,SC:SYC,SD:SDN,SE:SWE,SG:SGP,SH:SHN,SI:SVN,SJ:SJM,SK:SVK," +:+
  "SL:SLE,SM:SMR,SN:SEN,SO:SOM,SR:SUR,SS:SSD,ST:STP,SV:SLV,SX:SXM,SY:SYR,SZ:SWZ," +:+
  "TC:TCA,TD:TCD,TF:ATF,TG:TGO,TH:THA,TJ:TJK,TK:TKL,TL:TLS,TM:TKM,TN:TUN,TO:TON," +:+
  "TR:TUR,TT:TTO,TV:TUV,TW:TWN,TZ:TZA," +:+
  "UA:UKR,UG:UGA,UM:UMI,US:USA,UY:URY,UZ:UZB," +:+
  "VA:VAT,VC:VCT,VE:VEN,VG:VGB,VI:VIR,VN:VNM,VU:VUT," +:+
  "WF:WLF,WS:WSM," +:+
  "YE:YEM,YT:MYT," +:+
  "ZA:ZAF,ZM:ZMB,ZW:ZWE".
(** [None] is a slice out of range. *)
Definition iso2ToISO3 (alpha2 : string) : option string :=
  if (String.length alpha2 =? 3)%nat then Some alpha2
  else match Index iso_mapping (ToUpper alpha2 +:+ ":") with
       | Some idx =>
           head ← slice_to iso_mapping (idx + 6);
           slice_from head (idx + 3)
       | None => Some alpha2
       end.

Definition twoDigits (n : Z) : string :=
  if (n <? 0) then pretty n else if n <? 10 then "0" +:+ pretty n else pretty n.
(** [fmt.Sprintf("%02d:%02d:%02d", ...)], with Go's division truncating towards zero.  A negative
    number keeps its sign and is padded with it: [%02d] of -5 is [-5]. *)
Definition formatDuration (seconds : Z) : string :=
  twoDigits (Z.quot seconds 3600) +:+ ":" +:+ twoDigits (Z.quot (Z.rem seconds 3600) 60) +:+ ":" +:+
  twoDigits (Z.rem seconds 60).

(** adcom1: positions, placement subtypes and production quality as their numbers. *)
Definition prodQPtr (v : Z) : Z := if 0 <? v then v else 1.
Definition videoAdPosition (placementType : string) : Z := if placementType =s? "outstream" then 1 else 7.
Definition videoPlacementSubtype (placementType : string) : Z :=
  if placementType =s? "outstream" then 4
  else if (placementType =s? "interstitial") || (placementType =s? "rewarded") then 5 else 1.
Definition videoPlcmt (placementType : string) : Z :=
  if (placementType =s? "outstream") || (placementType =s? "interstitial") || (placementType =s? "rewarded") then 3 else 1.

Definition maskIP (ip : string) : string :=
  match LastIndex ip "." with
  | Some i => str_take i ip +:+ ".xxx"
  | None => match LastIndex ip ":" with Some i => str_take i ip +:+ ":xxxx" | None => "redacted" end
  end.

Definition splitCSVTrim (s : string) : list string :=
  if s =s? "" then [] else filter (λ p, p ≠ "") (map TrimSpace (SplitChar "," s)).
Definition resolveMimeTypes (configured : list string) : list string :=
  match configured with [] => ["video/mp4"] | _ => configured end.
Definition isCTVDeviceType (dt : Z) : bool := (dt =? 3) || (dt =? 6) || (dt =? 7).

Definition requestBaseURL (tls : bool) (forwardedProto host urlHost : string) : string :=
  let scheme := if tls then "https" else if forwardedProto ≠s? "" then forwardedProto else "http" in
  scheme +:+ "://" +:+ (if host =s? "" then urlHost else host).

(** ** Round trip of a query *)
Lemma unescape_escapeByte a t : QueryUnescape (escapeByte a +:+ t) = String a <$> QueryUnescape t.
Proof.
  destruct (QueryUnescape t) eqn:E; destruct a as [[] [] [] [] [] [] [] []];
    match goal with |- context [escapeByte ?x] => let y := eval vm_compute in (escapeByte x) in change (escapeByte x) with y end;
    rewrite !str_app_cons, str_app_nil_l; cbn [QueryUnescape]; rewrite E; reflexivity.
Qed.

Lemma unescape_escape s : QueryUnescape (QueryEscape s) = Some s.
Proof. induction s as [|a s IH]; [done|]. cbn [QueryEscape]. by rewrite unescape_escapeByte, IH. Qed.

Lemma escape_no_special s :
  has_char "&" (QueryEscape s) = false ∧ has_char "=" (QueryEscape s) = false ∧ has_char ";" (QueryEscape s) = false.
Proof.
  induction s as [|a s (H1 & H2 & H3)]; [done|]. cbn [QueryEscape]. rewrite !has_char_app, H1, H2, H3, !orb_false_r.
  by destruct a as [[] [] [] [] [] [] [] []].
Qed.

Lemma Cut_app sep s t : has_char sep s = false → Cut sep (s +:+ String sep t) = (s, t).
Proof.
  induction s as [|a s IH]; str_simpl; [by rewrite Ascii.eqb_refl|].
  intros [-> Hs]%orb_false_iff. by rewrite (IH Hs).
Qed.

Lemma parseSetting_encoded k v :
  parseSetting (QueryEscape k +:+ "=" +:+ QueryEscape v) = [(k, v)].
Proof.
  unfold parseSetting. destruct (escape_no_special k) as (_ & Hk & Hk'), (escape_no_special v) as (_ & _ & Hv').
  rewrite !has_char_app, Hk', Hv'. cbn [has_char orb Ascii.eqb].
  rewrite str_app_cons, str_app_nil_l, Cut_app by done. rewrite !unescape_escape.
  destruct (String.eqb_spec (QueryEscape k +:+ String "=" (QueryEscape v)) ""); [|done].
  by destruct (QueryEscape k).
Qed.

Lemma SplitChar_none sep s : has_char sep s = false → SplitChar sep s = [s].
Proof.
  induction s as [|a s IH]; simpl; [done|]. intros [-> Hs]%orb_false_iff. by rewrite IH.
Qed.
Lemma SplitChar_app sep s t : has_char sep s = false → SplitChar sep (s +:+ String sep t) = s :: SplitChar sep t.
Proof.
  induction s as [|a s IH]; str_simpl; [by rewrite Ascii.eqb_refl|].
  intros [-> Hs]%orb_false_iff. by rewrite (IH Hs).
Qed.
Lemma SplitChar_concat sep l :
  l ≠ [] → Forall (λ s, has_char sep s = false) l → SplitChar sep (String.concat (String sep "") l) = l.
Proof.
  intros Hne Hl. induction Hl as [|s l Hs Hl IH]; [done|]. destruct l as [|s' l]; simpl.
  - by apply SplitChar_none.
  - rewrite str_app_cons, str_app_nil_l, SplitChar_app by done. f_equal. by apply IH.
Qed.

Lemma ParseQuery_Encode v : ParseQuery (Encode v) = map (λ k, (k, default "" (v !! k))) (sortedKeys v).
Proof.
  unfold ParseQuery, Encode. destruct (sortedKeys v) as [|k ks] eqn:Hs; [done|]. rewrite <-Hs.
  rewrite (SplitChar_concat "&"); [|by rewrite Hs|].
  - rewrite map_map. clear Hs. induction (sortedKeys v) as [|k' ks' IH]; [done|]. cbn [map concat].
    unfold encodePair at 1. by rewrite parseSetting_encoded, IH.
  - apply Forall_map, Forall_forall. intros k' _. unfold encodePair.
    destruct (escape_no_special k') as (H1 & _), (escape_no_special (default "" (v !! k'))) as (H2 & _).
    by rewrite !has_char_app, H1, H2.
Qed.

Lemma sortedKeys_elem v k : k ∈ sortedKeys v ↔ is_Some (v !! k).
Proof.
  unfold sortedKeys. rewrite stable_sort_perm. split.
  - intros [[k' x] [-> Hin]]%list_elem_of_fmap. apply elem_of_map_to_list in Hin. eauto.
  - intros [x Hx]. apply list_elem_of_fmap. exists (k, x). split; [done|]. by apply elem_of_map_to_list.
Qed.

Lemma Get_map v ks k : Get (map (λ k, (k, default "" (v !! k))) ks) k = if decide (k ∈ ks) then default "" ((v : Values) !! k) else "".
Proof.
  induction ks as [|k' ks IH]; [done|]. cbn [map Get]. rewrite IH.
  destruct (String.eqb_spec k' k) as [->|Hne]; [by rewrite decide_True by set_solver|].
  repeat case_decide; set_solver.
Qed.

(** A query that was encoded reads back as it was. *)
Lemma query_round_trip v k : Get (ParseQuery (Encode v)) k = default "" (v !! k).
Proof.
  rewrite ParseQuery_Encode, Get_map. destruct (decide (k ∈ sortedKeys v)) as [|Hn]; [done|].
  rewrite sortedKeys_elem in Hn. apply eq_None_not_Some in Hn. by rewrite Hn.
Qed.

(** ** Properties *)

(** A beacon URL carries its parameters whatever bytes they have: the query the endpoints parse
    gives back the auction, the bid, the bidder, the placement, the creative and (for tracking) the
    event that the URL was built with. *)
Theorem beacon_query_round_trip shortest ext base auctionID bidID bidder placementID event crid price adom :
  ∃ iq tq,
    buildImpressionURL shortest ext base auctionID bidID bidder placementID crid price adom =
      beaconBase ext base +:+ "/video/impression?" +:+ iq ∧
    buildTrackingURL shortest ext base auctionID bidID bidder placementID event crid price adom =
      beaconBase ext base +:+ "/video/tracking?" +:+ tq ∧
    (∀ q, q = iq ∨ q = tq →
      Get (ParseQuery q) "auction_id" = auctionID ∧ Get (ParseQuery q) "bid_id" = bidID ∧
      Get (ParseQuery q) "bidder" = bidder ∧ Get (ParseQuery q) "placement_id" = placementID ∧
      Get (ParseQuery q) "crid" = crid ∧ Get (ParseQuery q) "adom" = String.concat "," adom ∧
      Get (ParseQuery q) "price" = if f0 <f? price then shortest price else "") ∧
    Get (ParseQuery iq) "event" = "" ∧ Get (ParseQuery tq) "event" = event.
Proof.
  eexists _, _. split; [reflexivity|]. split; [reflexivity|].
  rewrite !query_round_trip. unfold beaconValues. split.
  - intros q [->| ->]; rewrite !query_round_trip; destruct (String.eqb_spec crid "") as [->|]; destruct (f0 <f? price);
      destruct adom; simpl negb; simplify_map_eq; done.
  - destruct (crid ≠s? ""), (f0 <f? price), adom; by simplify_map_eq.
Qed.

(** What the classes of [net.IP] say of the bytes of a public address. *)
Lemma public_v4_ranges ip a b c d :
  isPublicOutboundIP ip = true → Forall is_byte [a; b; c; d] → To4 ip = Some [a; b; c; d] →
  a ≠ 127 ∧ a ≠ 10 ∧ ¬ (a = 172 ∧ 16 ≤ b < 32) ∧ ¬ (a = 192 ∧ b = 168) ∧ ¬ (a = 100 ∧ 64 ≤ b < 128) ∧
  ¬ (a = 169 ∧ b = 254) ∧ ¬ (224 ≤ a < 240) ∧ [a; b; c; d] ≠ [0; 0; 0; 0].
Proof.
  intros Hpub Hb H4. rewrite !Forall_cons in Hb. destruct Hb as (Ha & Hb & _).
  unfold isPublicOutboundIP in Hpub. destruct (bool_decide (ip = [])); [done|].
  destruct (_ || IsUnspecified ip) eqn:Hall; [done|]. repeat (apply orb_false_iff in Hall as [Hall ?]).
  unfold IsLoopback, IsPrivate, IsLinkLocalMulticast, IsLinkLocalUnicast, IsMulticast, IsUnspecified in *.
  rewrite H4 in *.
  pose proof (land_partial b 4 Hb ltac:(lia)) as Lb. pose proof (land_partial a 4 Ha ltac:(lia)) as La.
  change (255 - Z.shiftr 255 4) with 240 in *. change (2 ^ (8 - 4)) with 16 in *. rewrite La, Lb in *.
  unfold is_byte in *. apply orb_false_iff in H as [H _]. apply bool_decide_eq_false in H.
  repeat split; try (Z.to_euclidean_division_equations; lia). intros Heq. by rewrite Heq in H.
Qed.
Lemma public_v6_ranges a b rest :
  isPublicOutboundIP (a :: b :: rest) = true → length rest = 14%nat → is_byte a → is_byte b →
  To4 (a :: b :: rest) = None →
  ¬ (252 ≤ a < 254) ∧ ¬ (a = 254 ∧ 128 ≤ b < 192) ∧ a ≠ 255 ∧
  a :: b :: rest ≠ [0;0;0;0;0;0;0;0;0;0;0;0;0;0;0;1] ∧ a :: b :: rest ≠ replicate 16 0.
Proof.
  intros Hpub Hlen Ha Hb H4. unfold isPublicOutboundIP in Hpub. rewrite bool_decide_false in Hpub by done.
  destruct (_ || IsUnspecified _) eqn:Hall; [done|]. repeat (apply orb_false_iff in Hall as [Hall ?]).
  unfold IsLoopback, IsPrivate, IsLinkLocalMulticast, IsLinkLocalUnicast, IsMulticast, IsUnspecified in *.
  rewrite H4 in *. simpl length in *. rewrite Hlen in *. simpl Nat.eqb in *. simpl andb in *.
  pose proof (land_partial b 2 Hb ltac:(lia)) as Lb. pose proof (land_partial a 7 Ha ltac:(lia)) as La.
  change (255 - Z.shiftr 255 2) with 192 in *. change (2 ^ (8 - 2)) with 64 in *.
  change (255 - Z.shiftr 255 7) with 254 in *. change (2 ^ (8 - 7)) with 2 in *. rewrite La, Lb in *.
  unfold is_byte in *. apply orb_false_iff in H as [_ H]. apply bool_decide_eq_false in H, Hall.
  repeat split; try (Z.to_euclidean_division_equations; lia); done.
Qed.

(** Every address literal that passes the outbound check is public: an accepted URL never names a
    loopback, private, shared (100.64/10), link-local, multicast or unspecified IPv4 address,
    nor the corresponding IPv6 ones, and never a host [localhost] or under [.local]. *)
Theorem outbound_address_public parse rawURL scheme host :
  parse (TrimSpace rawURL) = Some (scheme, host) → validateOutboundPublicURL parse rawURL = Ok () →
  (scheme = "http" ∨ scheme = "https") ∧
  ToLower (TrimSpace host) ≠ "localhost" ∧ HasSuffix (ToLower (TrimSpace host)) ".local" = false ∧
  (∀ a b c d, Forall is_byte [a; b; c; d] → To4 (net_ParseIP (TrimSpace host)) = Some [a; b; c; d] →
     a ≠ 127 ∧ a ≠ 10 ∧ ¬ (a = 172 ∧ 16 ≤ b < 32) ∧ ¬ (a = 192 ∧ b = 168) ∧ ¬ (a = 100 ∧ 64 ≤ b < 128) ∧
     ¬ (a = 169 ∧ b = 254) ∧ ¬ (224 ≤ a < 240) ∧ [a; b; c; d] ≠ [0; 0; 0; 0]) ∧
  (∀ a b rest, net_ParseIP (TrimSpace host) = a :: b :: rest → length rest = 14%nat → is_byte a → is_byte b →
     To4 (a :: b :: rest) = None →
     ¬ (252 ≤ a < 254) ∧ ¬ (a = 254 ∧ 128 ≤ b < 192) ∧ a ≠ 255 ∧
     a :: b :: rest ≠ [0;0;0;0;0;0;0;0;0;0;0;0;0;0;0;1] ∧ a :: b :: rest ≠ replicate 16 0).
Proof.
  intros Hp Hv. unfold validateOutboundPublicURL in Hv. rewrite Hp in Hv. cbv zeta in Hv.
  destruct (TrimSpace rawURL =s? ""); [done|].
  destruct ((scheme ≠s? "http") && (scheme ≠s? "https")) eqn:Hs; [done|].
  destruct (TrimSpace host =s? ""); [done|].
  destruct ((ToLower (TrimSpace host) =s? "localhost") || _ || _) eqn:Hl; [done|].
  apply orb_false_iff in Hl as [[Hl1 Hl2]%orb_false_iff Hl3]. apply String.eqb_neq in Hl1.
  split; [|split; [done|split; [done|]]].
  { apply andb_false_iff in Hs as [Hs|Hs]; go_bool; auto. }
  assert (∀ ip, net_ParseIP (TrimSpace host) = ip → ip ≠ [] → isPublicOutboundIP ip = true) as Hpub.
  { intros ip Hip Hne. rewrite Hip, bool_decide_false in Hv by done. simpl in Hv. by destruct (isPublicOutboundIP ip). }
  split.
  - intros a b c d Hb H4. eapply public_v4_ranges; [|done|done]. apply Hpub; [done|].
    intros He. by rewrite He in H4.
  - intros a b rest Hip Hlen Ha Hb H4. apply public_v6_ranges; try done. by apply Hpub.
Qed.

Definition sampleParse (u : string) : option (string * string) :=
  if u =s? "https://8.8.8.8/tag" then Some ("https", "8.8.8.8")
  else if u =s? "http://localhost./" then Some ("http", "localhost.") else None.
Lemma outbound_address_witness :
  validateOutboundPublicURL sampleParse " https://8.8.8.8/tag" = Ok () ∧
  ToLower (TrimSpace "8.8.8.8") ≠ "localhost".
Proof.
  assert (validateOutboundPublicURL sampleParse " https://8.8.8.8/tag" = Ok ()) as Hv by (vm_compute; reflexivity).
  split; [exact Hv|].
  destruct (outbound_address_public sampleParse " https://8.8.8.8/tag" "https" "8.8.8.8") as (_ & H & _);
    [reflexivity|exact Hv|exact H].
Defined.

(** The check on names is on the text: a host with a final dot, [localhost.], names the same host as
    [localhost] and passes. *)
Theorem localhost_with_dot_accepted parse :
  parse "http://localhost./" = Some ("http", "localhost.") →
  validateOutboundPublicURL parse "http://localhost./" = Ok ().
Proof. intros Hp. unfold validateOutboundPublicURL. change (TrimSpace "http://localhost./") with "http://localhost./". by rewrite Hp. Qed.

(** Every entry of the country table is found, in either case of letters; a code of three letters is
    kept. *)
Theorem iso_table_complete :
  forallb (λ e, bool_decide (iso2ToISO3 (str_take 2 e) = Some (str_drop 3 e)) &&
                bool_decide (iso2ToISO3 (ToLower (str_take 2 e)) = Some (str_drop 3 e)) &&
                bool_decide (iso2ToISO3 (str_drop 3 e) = Some (str_drop 3 e)))
    (SplitChar "," iso_mapping) = true ∧ length (SplitChar "," iso_mapping) = 249%nat.
Proof. split; vm_compute; reflexivity. Qed.

(** The search is for text, not for an entry: an empty or one-letter code is not passed through
    unchanged, as the comment says, but cut out of the table. *)
Theorem iso_short_code_garbled : iso2ToISO3 "" = Some "D,A" ∧ iso2ToISO3 "U" = Some "US,".
Proof. split; vm_compute; reflexivity. Qed.

(** [maskIP] drops the last group of an IPv6 address only, 16 of its 128 bits. *)
Theorem maskIP_keeps_interface_id :
  maskIP "2001:db8:1:2:3:4:5:6" = "2001:db8:1:2:3:4:5:xxxx" ∧ maskIP "192.0.2.7" = "192.0.2.xxx".
Proof. split; vm_compute; reflexivity. Qed.
