(* ===== verification/Vast.v ===== *)
(** * VAST documents as text (endpoints/video_pipeline.go, demand_adapter.go)

    The pipeline edits VAST documents as strings: it looks for a closing tag in a lower-cased copy
    and inserts its own pixels at the offset it found, and it follows wrappers by cutting the tag
    URI out of the text.  A slice expression out of range is a panic ([None]).  On ASCII documents
    the edits never panic, keep the document and are idempotent, and a resolved chain of wrappers
    carries every impression pixel on the way.  On other documents the offset of the copy need not
    be one of the document. *)
From S2P Require Import Prelude GoStrings.

Fixpoint is_ascii (s : string) : bool :=
  match s with
  | EmptyString => true
  | String a s' => (N_of_ascii a <? 128)%N && is_ascii s'
  end.

(** ** Case mapping
    [strings.ToLower] and [strings.ToUpper] map ASCII text letter by letter.  On other text they
    follow Unicode, where the lower case of a letter may take more bytes or fewer. *)
Class GoCase := {
  go_lower : string → string;
  go_upper : string → string;
  go_lower_ascii : ∀ s, is_ascii s = true → go_lower s = ToLower s;
  go_upper_ascii : ∀ s, is_ascii s = true → go_upper s = ToUpper s
}.

Record vastTracking := { vt_Event : string; vt_Text : string }.

Definition insertAt (vast : string) (at_ : nat) (tag : string) : option string :=
  pre ← slice_to vast at_;
  post ← slice_from vast at_;
  Some (pre +:+ tag +:+ post).

Section vast.
Context `{GoCase}.

Definition indexCaseFold (haystack needle : string) : option nat :=
  Index (go_lower haystack) (go_lower needle).
Definition lastIndexCaseFold (haystack needle : string) : option nat :=
  LastIndex (go_lower haystack) (go_lower needle).

(** ** Inserting pixels *)
Definition impressionTag (trackURL id : string) : string :=
  if id ≠s? "" then "<Impression id=" +:+ String "034" id +:+ String "034" "><![CDATA[" +:+ trackURL +:+ "]]></Impression>"
  else "<Impression><![CDATA[" +:+ trackURL +:+ "]]></Impression>".

Definition injectVASTImpressionWithID (vast trackURL id : string) : option string :=
  if trackURL =s? "" then Some vast
  else if strContains vast trackURL then Some vast
  else
    let tag := impressionTag trackURL id in
    match lastIndexCaseFold vast "</impression>" with
    | Some idx => insertAt vast (idx + String.length "</impression>") tag
    | None =>
        match indexCaseFold vast "</inline>" with
        | Some idx => insertAt vast idx tag
        | None =>
            match indexCaseFold vast "</wrapper>" with
            | Some idx => insertAt vast idx tag
            | None => Some vast
            end
        end
    end.
Definition injectVASTImpression (vast trackURL : string) : option string :=
  injectVASTImpressionWithID vast trackURL "".

Definition trackingTag (ev : vastTracking) : string :=
  "<Tracking event=" +:+ String "034" (vt_Event ev) +:+ String "034" "><![CDATA[" +:+ vt_Text ev +:+ "]]></Tracking>".
Definition trackingBlock (evs : list vastTracking) : string :=
  foldr (λ ev acc, trackingTag ev +:+ acc) "" evs.
Definition newTrackings (vast : string) (events : list vastTracking) : list vastTracking :=
  filter (λ ev, vt_Text ev ≠ "" ∧ strContains vast (vt_Text ev) = false) events.

Definition injectVASTTracking (vast : string) (events : list vastTracking) : option string :=
  match newTrackings vast events with
  | [] => Some vast
  | filtered =>
      let block := trackingBlock filtered in
      match lastIndexCaseFold vast "</tracking>" with
      | Some idx => insertAt vast (idx + String.length "</tracking>") block
      | None =>
          let wrapped := "<TrackingEvents>" +:+ block +:+ "</TrackingEvents>" in
          match indexCaseFold vast "</linear>" with
          | Some idx => insertAt vast idx wrapped
          | None =>
              match indexCaseFold vast "</wrapper>" with
              | Some idx => insertAt vast idx wrapped
              | None => Some vast
              end
          end
      end
  end.

(** ** Reading a wrapper *)
Definition stripCDATA (raw : string) : string :=
  if HasPrefix raw "<![CDATA[" then TrimSuffix (TrimPrefix raw "<![CDATA[") "]]>" else raw.

Definition extractVASTAdTagURI (vast : string) : option string :=
  let upper := go_upper vast in
  if negb (strContains upper "<WRAPPER") && negb (strContains upper "<WRAPPER>") then Some ""
  else match indexCaseFold vast "<vastadtaguri" with
  | None => Some ""
  | Some tagStart =>
      rest ← slice_from vast tagStart;
      match Index rest ">" with
      | None => Some ""
      | Some gtIdx =>
          let contentStart := (tagStart + gtIdx + 1)%nat in
          body ← slice_from vast contentStart;
          match indexCaseFold body "</vastadtaguri" with
          | None => Some ""
          | Some tagEnd =>
              raw ← slice_to body tagEnd;
              Some (TrimSpace (stripCDATA (TrimSpace raw)))
          end
      end
  end.

(** The loops of [extractImpressionURLs] and [extractTrackingURLs] differ in the tag only.  The
    position advances in every turn; the turns are bounded by [fuel]. *)
Inductive scanError := Panicked | OutOfFuel.
Definition or_panic {A} (o : option A) : result scanError A :=
  match o with Some a => Ok a | None => Err Panicked end.

Definition pixelURL (raw : string) : string :=
  let raw := TrimSpace raw in
  if HasPrefix raw "<![CDATA[" then TrimSpace (TrimSuffix (TrimPrefix raw "<![CDATA[") "]]>") else raw.

Fixpoint scanURLs (fuel : nat) (openTag closeTag vast lower : string) (search : nat) (urls : list string) :
    result scanError (list string) :=
  match fuel with
  | O => Err OutOfFuel
  | S fuel =>
      let? rest := or_panic (slice_from lower search) in
      match Index rest openTag with
      | None => Ok urls
      | Some start =>
          let start := (start + search)%nat in
          let? tail := or_panic (slice_from vast start) in
          match Index tail ">" with
          | None => Ok urls
          | Some gt =>
              let contentStart := (start + gt + 1)%nat in
              let? lowerBody := or_panic (slice_from lower contentStart) in
              match Index lowerBody closeTag with
              | None => Ok urls
              | Some end_ =>
                  let? body := or_panic (slice_from vast contentStart) in
                  let? content := or_panic (slice_to body end_) in
                  let raw := pixelURL content in
                  let urls := if HasPrefix raw "http" then urls ++ [raw] else urls in
                  scanURLs fuel openTag closeTag vast lower (contentStart + end_) urls
              end
          end
      end
  end.
Definition scanFuel (vast : string) : nat := S (String.length (go_lower vast)).
Definition extractImpressionURLs (vast : string) : result scanError (list string) :=
  scanURLs (scanFuel vast) "<impression" "</impression" vast (go_lower vast) 0 [].
Definition extractTrackingURLs (vast : string) : result scanError (list string) :=
  scanURLs (scanFuel vast) "<tracking" "</tracking" vast (go_lower vast) 0 [].

(** ** Following wrappers
    [fetch depth uri] is the outcome of [fetchVAST] at that turn, [None] an error. *)
Definition followResult : Type := string * list string * list string.

Fixpoint followWrappers (fetch : nat → string → option string) (hops depth : nat)
    (current : string) (imps trks : list string) : result scanError followResult :=
  match hops with
  | O => Ok (current, imps, trks)
  | S hops =>
      let? tagURI := or_panic (extractVASTAdTagURI current) in
      if tagURI =s? "" then Ok (current, imps, trks)
      else
        let? iu := extractImpressionURLs current in
        let? tu := extractTrackingURLs current in
        let imps := imps ++ iu in
        let trks := trks ++ tu in
        match fetch depth tagURI with
        | None => Ok (current, imps, trks)
        | Some next =>
            if TrimSpace next =s? "" then Ok (current, imps, trks)
            else followWrappers fetch hops (S depth) next imps trks
        end
  end.

Definition mergeImpressions (doc : string) (urls : list string) : result scanError string :=
  foldl (λ r u, let? d := r in or_panic (injectVASTImpression d u)) (Ok doc) urls.
Definition mergeTrackings (doc : string) (urls : list string) : result scanError string :=
  foldl (λ r u, let? d := r in or_panic (injectVASTTracking d [{| vt_Event := "start"; vt_Text := u |}]))
    (Ok doc) urls.

Definition resolveVASTWrapperChain (fetch : nat → string → option string) (vastXML : string) (maxDepth : nat) :
    result scanError string :=
  let? (current, imps, trks) := followWrappers fetch maxDepth 0 vastXML [] [] in
  let? d := mergeImpressions current imps in
  mergeTrackings d trks.
End vast.

(** A runtime with Unicode's mapping of [U+023A], whose two bytes have a lower case of three. *)
Definition stroke_upper : string := String "200" (String "186" "").
Definition stroke_lower : string := String "226" (String "177" (String "165" "")).
Fixpoint lower_023A (s : string) : string :=
  match s with
  | String "200" (String "186" s') => stroke_lower +:+ lower_023A s'
  | String a s' => String (lower_ascii a) (lower_023A s')
  | EmptyString => ""
  end.

(** ** Letter-wise mapping keeps positions *)
Lemma string_map_app f s t : string_map f (s +:+ t) = string_map f s +:+ string_map f t.
Proof. induction s as [|a s IH]; str_simpl; [done|]. by rewrite IH. Qed.
Lemma string_map_length f s : String.length (string_map f s) = String.length s.
Proof. induction s as [|a s IH]; simpl; [done|]. by rewrite IH. Qed.

Lemma string_map_app_inv f s a b :
  string_map f s = a +:+ b →
  ∃ s1 s2, s = s1 +:+ s2 ∧ string_map f s1 = a ∧ string_map f s2 = b ∧ String.length s1 = String.length a.
Proof.
  revert a. induction s as [|x s IH]; intros [|y a]; str_simpl; intros Heq; simplify_eq.
  - by exists "", "".
  - by exists "", (String x s).
  - destruct (IH a) as (s1 & s2 & -> & <- & <- & Hl); [done|].
    exists (String x s1), s2. simpl. by rewrite Hl.
Qed.

Lemma lower_ascii_markup a : (lower_ascii a = "<"%char → a = "<"%char) ∧ (lower_ascii a = ">"%char → a = ">"%char).
Proof. by destruct a as [[] [] [] [] [] [] [] []]; vm_compute; split; intros. Qed.

Lemma str_take_app_le s1 s2 n : n = String.length s1 → str_take n (s1 +:+ s2) = s1 ∧ str_drop n (s1 +:+ s2) = s2.
Proof. intros ->. split; [apply str_take_app|apply str_drop_app]. Qed.

Lemma insertAt_app pre post tag : insertAt (pre +:+ post) (String.length pre) tag = Some (pre +:+ tag +:+ post).
Proof.
  unfold insertAt, slice_to, slice_from. rewrite str_length_app.
  rewrite (proj2 (Nat.leb_le _ _)) by lia. cbn. by rewrite str_take_app, str_drop_app.
Qed.

(** A split of a document between tags: after [>] or before [<]. *)
Definition at_tag (pre post : string) : Prop :=
  (∃ pre', pre = pre' +:+ ">") ∨ (∃ post', post = String "<" post').
Definition no_markup (s : string) : Prop := has_char "<" s = false ∧ has_char ">" s = false.

(** What is inserted at such a place breaks no text without markup. *)
Lemma insert_keeps pre post tag x :
  at_tag pre post → no_markup x → strContains (pre +:+ post) x = true →
  strContains (pre +:+ tag +:+ post) x = true.
Proof.
  intros Htag [Hlt Hgt] (a & b & Hab)%strContains_spec. apply strContains_spec.
  destruct (str_app_split pre post a (x +:+ b) Hab) as [(e & -> & ->)|(e & -> & He)].
  { exists (pre +:+ tag +:+ e), b. by rewrite !str_app_assoc. }
  destruct (str_app_split x b e post He) as [(f & -> & ->)|(f & -> & Hf)].
  { exists a, (f +:+ tag +:+ post). by rewrite !str_app_assoc. }
  rewrite !has_char_app in *. go_bool. destruct Htag as [[pre' Hpre]|[post' ->]].
  - assert (e = "") as ->.
    { destruct e as [|c e]; [done|]. exfalso.
      destruct (str_app_split a (String c e) pre' ">" Hpre) as [(g & -> & Hg)|(g & -> & Hg)].
      + rewrite Hg, has_char_app in *. by rewrite orb_true_r in *.
      + destruct g as [|d g]; [by injection Hg as <- <-|]. injection Hg as _ Hg. by destruct g. }
    rewrite str_app_nil_r in *. subst post. rewrite str_app_nil_l.
    exists (a +:+ tag), b. by rewrite !str_app_assoc.
  - destruct f as [|c f]; rewrite ?str_app_nil_l in Hf.
    + exists a, (tag +:+ String "<" post'). rewrite str_app_nil_r. by rewrite str_app_assoc.
    + by injection Hf as <- _.
Qed.

(** ** Places found in the lower-cased copy of an ASCII document *)
Section ascii.
Context `{GoCase}.

Lemma go_lower_needle needle : is_ascii needle = true → ToLower needle = needle → go_lower needle = needle.
Proof. intros Ha Hn. by rewrite go_lower_ascii. Qed.

(** A found closing tag splits the document before its [<] and after its [>]. *)
Lemma lower_place vast needle mid i :
  ToLower vast = str_take i (ToLower vast) +:+ needle +:+ mid → (i ≤ String.length (ToLower vast))%nat →
  ∃ pre tag post, vast = pre +:+ tag +:+ post ∧ String.length pre = i ∧ ToLower tag = needle ∧
    String.length tag = String.length needle.
Proof.
  intros Heq Hi. apply string_map_app_inv in Heq as (pre & s2 & -> & _ & Heq & Hl).
  apply string_map_app_inv in Heq as (tag & post & -> & Ht & _ & Hl').
  exists pre, tag, post. rewrite Hl, str_take_length by done. done.
Qed.

Lemma place_before vast needle i :
  is_ascii vast = true → is_ascii needle = true → ToLower needle = needle → (∃ n, needle = String "<" n) →
  indexCaseFold vast needle = Some i →
  ∃ pre post, vast = pre +:+ post ∧ String.length pre = i ∧ at_tag pre post.
Proof.
  intros Ha Hna Hn [n Hlt] Hi. unfold indexCaseFold in Hi.
  rewrite (go_lower_needle _ Hna Hn), (go_lower_ascii _ Ha) in Hi.
  destruct (Index_Some _ _ _ Hi) as (mid & Heq & Hle).
  destruct (lower_place _ _ _ _ Heq Hle) as (pre & tag & post & -> & Hl & Ht & _).
  exists pre, (tag +:+ post). split; [done|]. split; [done|]. right.
  destruct tag as [|c tag]; [by subst|]. rewrite <-Ht in Hlt. injection Hlt as Hc _.
  apply lower_ascii_markup in Hc as ->. by eexists.
Qed.

Lemma place_after vast needle i :
  is_ascii vast = true → is_ascii needle = true → ToLower needle = needle → (∃ n, needle = n +:+ ">") →
  lastIndexCaseFold vast needle = Some i →
  ∃ pre post, vast = pre +:+ post ∧ String.length pre = (i + String.length needle)%nat ∧ at_tag pre post.
Proof.
  intros Ha Hna Hn [n Hgt] Hi. unfold lastIndexCaseFold in Hi.
  rewrite (go_lower_needle _ Hna Hn), (go_lower_ascii _ Ha) in Hi.
  destruct (LastIndex_Some _ _ _ Hi) as (mid & Heq & Hle).
  destruct (lower_place _ _ _ _ Heq Hle) as (pre & tag & post & -> & Hl & Ht & Hl').
  exists (pre +:+ tag), post. rewrite str_app_assoc, str_length_app, Hl, Hl'. split; [done|]. split; [done|].
  left. rewrite Hgt in Ht. apply string_map_app_inv in Ht as (t1 & t2 & -> & _ & Ht2 & Hl2).
  destruct t2 as [|c [|d t2]]; try done. injection Ht2 as Hc. apply lower_ascii_markup in Hc as ->.
  exists (pre +:+ t1). by rewrite str_app_assoc.
Qed.

(** ** The edits *)
(** An edit leaves the document as it is, or inserts one text at a tag. *)
Definition edited (vast tag v' : string) : Prop :=
  ∃ pre post, vast = pre +:+ post ∧ at_tag pre post ∧ v' = pre +:+ tag +:+ post.

Lemma insert_before vast needle i tag :
  is_ascii vast = true → is_ascii needle = true → ToLower needle = needle → (∃ n, needle = String "<" n) →
  indexCaseFold vast needle = Some i → ∃ v', insertAt vast i tag = Some v' ∧ edited vast tag v'.
Proof.
  intros Ha Hna Hn Hlt Hi. destruct (place_before _ _ _ Ha Hna Hn Hlt Hi) as (pre & post & -> & <- & Htag).
  rewrite insertAt_app. eexists. split; [done|]. by exists pre, post.
Qed.
Lemma insert_after vast needle i tag :
  is_ascii vast = true → is_ascii needle = true → ToLower needle = needle → (∃ n, needle = n +:+ ">") →
  lastIndexCaseFold vast needle = Some i →
  ∃ v', insertAt vast (i + String.length needle) tag = Some v' ∧ edited vast tag v'.
Proof.
  intros Ha Hna Hn Hgt Hi. destruct (place_after _ _ _ Ha Hna Hn Hgt Hi) as (pre & post & -> & <- & Htag).
  rewrite insertAt_app. eexists. split; [done|]. by exists pre, post.
Qed.

(** The document has a place for an impression pixel. *)
Definition has_impression_place (vast : string) : bool :=
  bool_decide (is_Some (lastIndexCaseFold vast "</impression>")) ||
  bool_decide (is_Some (indexCaseFold vast "</inline>")) || bool_decide (is_Some (indexCaseFold vast "</wrapper>")).

Lemma injectVASTImpression_cases vast url id :
  is_ascii vast = true →
  ∃ v', injectVASTImpressionWithID vast url id = Some v' ∧
    (v' = vast ∧ (url = "" ∨ strContains vast url = true ∨ has_impression_place vast = false) ∨
     url ≠ "" ∧ strContains vast url = false ∧ has_impression_place vast = true ∧
     edited vast (impressionTag url id) v').
Proof.
  intros Ha. unfold injectVASTImpressionWithID, has_impression_place.
  destruct (String.eqb_spec url "") as [->|Hurl]; [exists vast; auto 6|].
  destruct (strContains vast url) eqn:Hc; [exists vast; auto 6|].
  destruct (lastIndexCaseFold vast "</impression>") as [i|] eqn:Hi.
  { destruct (insert_after vast "</impression>" i (impressionTag url id)) as (v' & Hv' & He);
      [done|done|done|by exists "</impression"|done|]. exists v'. split; [done|]. right. done. }
  destruct (indexCaseFold vast "</inline>") as [i'|] eqn:Hi'.
  { destruct (insert_before vast "</inline>" i' (impressionTag url id)) as (v' & Hv' & He);
      [done|done|done|by eexists|done|]. exists v'. split; [done|]. right. done. }
  destruct (indexCaseFold vast "</wrapper>") as [i''|] eqn:Hi''.
  { destruct (insert_before vast "</wrapper>" i'' (impressionTag url id)) as (v' & Hv' & He);
      [done|done|done|by eexists|done|]. exists v'. split; [done|]. right. done. }
  exists vast. split; [done|]. left. auto.
Qed.

Definition has_tracking_place (vast : string) : bool :=
  bool_decide (is_Some (lastIndexCaseFold vast "</tracking>")) ||
  bool_decide (is_Some (indexCaseFold vast "</linear>")) || bool_decide (is_Some (indexCaseFold vast "</wrapper>")).

Lemma injectVASTTracking_cases vast events :
  is_ascii vast = true →
  ∃ v', injectVASTTracking vast events = Some v' ∧
    (v' = vast ∧ (newTrackings vast events = [] ∨ has_tracking_place vast = false) ∨
     has_tracking_place vast = true ∧ newTrackings vast events ≠ [] ∧
     ∃ tag pre post, tag = pre +:+ trackingBlock (newTrackings vast events) +:+ post ∧
       is_ascii pre = true ∧ is_ascii post = true ∧ edited vast tag v').
Proof.
  intros Ha. unfold injectVASTTracking, has_tracking_place.
  destruct (newTrackings vast events) as [|ev evs] eqn:Hn; [exists vast; auto|].
  set (block := trackingBlock _).
  destruct (lastIndexCaseFold vast "</tracking>") as [i|] eqn:Hi.
  { destruct (insert_after vast "</tracking>" i block) as (v' & Hv' & He);
      [done|done|done|by exists "</tracking"|done|]. exists v'. split; [done|]. right.
    split; [done|]. split; [done|]. exists block, "", "". by rewrite str_app_nil_l, str_app_nil_r. }
  set (wrapped := "<TrackingEvents>" +:+ _).
  destruct (indexCaseFold vast "</linear>") as [i'|] eqn:Hi'.
  { destruct (insert_before vast "</linear>" i' wrapped) as (v' & Hv' & He);
      [done|done|done|by eexists|done|]. exists v'. split; [done|]. right.
    split; [done|]. split; [done|]. by exists wrapped, "<TrackingEvents>", "</TrackingEvents>". }
  destruct (indexCaseFold vast "</wrapper>") as [i''|] eqn:Hi''.
  { destruct (insert_before vast "</wrapper>" i'' wrapped) as (v' & Hv' & He);
      [done|done|done|by eexists|done|]. exists v'. split; [done|]. right.
    split; [done|]. split; [done|]. by exists wrapped, "<TrackingEvents>", "</TrackingEvents>". }
  exists vast. auto.
Qed.

Lemma is_ascii_app s t : is_ascii (s +:+ t) = is_ascii s && is_ascii t.
Proof. induction s as [|a s IH]; str_simpl; [done|]. by rewrite IH, andb_assoc. Qed.

Lemma edited_ascii vast tag v' :
  edited vast tag v' → is_ascii vast = true → is_ascii tag = true → is_ascii v' = true.
Proof.
  intros (pre & post & -> & _ & ->) Ha Ht. rewrite !is_ascii_app in *. go_bool. by rewrite H0, Ht, H1.
Qed.
Lemma impressionTag_ascii url id : is_ascii url = true → is_ascii id = true → is_ascii (impressionTag url id) = true.
Proof.
  intros Hu Hi. unfold impressionTag. destruct (id ≠s? "");
    repeat first [rewrite is_ascii_app | rewrite str_app_cons | progress simpl]; by rewrite ?Hi, Hu.
Qed.

Lemma strContains_app s p : strContains s p = true → ∀ pre post, strContains (pre +:+ s +:+ post) p = true.
Proof.
  intros (a & b & ->)%strContains_spec pre post. apply strContains_spec.
  exists (pre +:+ a), (b +:+ post). by rewrite !str_app_assoc.
Qed.
Lemma edited_contains vast tag v' x : edited vast tag v' → strContains tag x = true → strContains v' x = true.
Proof. intros (pre & post & -> & _ & ->) Hx. by apply strContains_app. Qed.
Lemma edited_keeps vast tag v' x :
  edited vast tag v' → no_markup x → strContains vast x = true → strContains v' x = true.
Proof. intros (pre & post & -> & Htag & ->) Hx Hc. by apply insert_keeps. Qed.

Lemma impressionTag_contains url id : strContains (impressionTag url id) url = true.
Proof.
  apply strContains_spec. unfold impressionTag. destruct (id ≠s? "").
  - exists ("<Impression id=" +:+ String "034" id +:+ String "034" "><![CDATA["), "]]></Impression>".
    by rewrite ?str_app_assoc, ?str_app_cons, ?str_app_assoc.
  - by exists "<Impression><![CDATA[", "]]></Impression>".
Qed.

Lemma trackingBlock_contains evs ev : ev ∈ evs → strContains (trackingBlock evs) (vt_Text ev) = true.
Proof.
  induction evs as [|e evs IH]; intros Hin; [by apply elem_of_nil in Hin|]. simpl.
  apply elem_of_cons in Hin as [->|Hin].
  - apply strContains_spec. unfold trackingTag.
    exists ("<Tracking event=" +:+ String "034" (vt_Event e) +:+ String "034" "><![CDATA["),
      ("]]></Tracking>" +:+ trackingBlock evs).
    by rewrite ?str_app_assoc, ?str_app_cons, ?str_app_assoc.
  - specialize (IH Hin). rewrite <-(str_app_nil_r (trackingBlock evs)). by apply strContains_app.
Qed.

(** ** Idempotence *)
Lemma injectVASTImpression_idempotent vast url id id' :
  is_ascii vast = true →
  ∃ v', injectVASTImpressionWithID vast url id = Some v' ∧ injectVASTImpressionWithID v' url id' = Some v'.
Proof.
  intros Ha. destruct (injectVASTImpression_cases vast url id Ha) as (v' & Hv' & Hcase).
  exists v'. split; [done|].
  destruct Hcase as [(-> & Hcase)|(Hurl & Hc & Hp & He)].
  - destruct (injectVASTImpression_cases vast url id' Ha) as (w & Hw & [(-> & _)|(Hu & Hcu & Hp & _)]); [done|].
    destruct Hcase as [|[|]]; congruence.
  - unfold injectVASTImpressionWithID. rewrite (proj2 (String.eqb_neq url "")) by done.
    by rewrite (edited_contains _ _ _ _ He (impressionTag_contains url id)).
Qed.

Lemma newTrackings_none vast events :
  (∀ ev, ev ∈ events → vt_Text ev ≠ "" → strContains vast (vt_Text ev) = true) → newTrackings vast events = [].
Proof.
  intros Hc. unfold newTrackings. apply elem_of_nil_inv. intros ev [[Hne Hf] Hin]%list_elem_of_filter.
  rewrite Hc in Hf; done.
Qed.

Lemma injectVASTTracking_idempotent vast events :
  is_ascii vast = true → Forall (λ ev, no_markup (vt_Text ev)) events →
  ∃ v', injectVASTTracking vast events = Some v' ∧ injectVASTTracking v' events = Some v'.
Proof.
  intros Ha Hm. destruct (injectVASTTracking_cases vast events Ha) as (v' & Hv' & Hcase).
  exists v'. split; [done|].
  destruct Hcase as [(-> & Hcase)|(Hp & Hne & tag & pre & post & -> & _ & _ & He)].
  - destruct (injectVASTTracking_cases vast events Ha) as (w & Hw & [(-> & _)|(Hp & Hn & _)]); [done|].
    destruct Hcase; congruence.
  - unfold injectVASTTracking. rewrite newTrackings_none; [done|].
    intros ev Hin Hne'. rewrite Forall_forall in Hm.
    destruct (strContains vast (vt_Text ev)) eqn:Hc; [by eapply edited_keeps; eauto|].
    eapply edited_contains; [done|]. apply strContains_app, trackingBlock_contains.
    by apply list_elem_of_filter.
Qed.

(** ** Reading an ASCII document never panics *)
Lemma is_ascii_take n s : is_ascii s = true → is_ascii (str_take n s) = true.
Proof. intros Hs. rewrite <-(str_take_drop n s), is_ascii_app in Hs. by go_bool. Qed.
Lemma is_ascii_drop n s : is_ascii s = true → is_ascii (str_drop n s) = true.
Proof. intros Hs. rewrite <-(str_take_drop n s), is_ascii_app in Hs. by go_bool. Qed.
Lemma is_ascii_TrimSpace s : is_ascii s = true → is_ascii (TrimSpace s) = true.
Proof.
  intros Hs. unfold TrimSpace, TrimLeftSpace.
  assert (is_ascii (trim_left 0 s) = true) as Hl.
  { generalize 0%nat. induction s as [|a s IH]; intros k; [done|]. cbn [trim_left is_ascii] in *.
    apply andb_true_iff in Hs as [Ha Hs]. destruct k as [|k]; [|by apply IH].
    destruct (space_len _) as [|k]; [cbn [is_ascii]; by rewrite Ha|by apply IH]. }
  destruct (TrimRightSpace_prefix (trim_left 0 s)) as [t Ht]. rewrite Ht, is_ascii_app in Hl. by go_bool.
Qed.
Lemma is_ascii_pixelURL s : is_ascii s = true → is_ascii (pixelURL s) = true.
Proof.
  intros Hs. unfold pixelURL, TrimPrefix, TrimSuffix.
  repeat go_destruct; auto 10 using is_ascii_TrimSpace, is_ascii_take, is_ascii_drop.
Qed.

Lemma slice_from_ok s n : (n ≤ String.length s)%nat → slice_from s n = Some (str_drop n s).
Proof. intros Hn. unfold slice_from. by rewrite (proj2 (Nat.leb_le _ _)). Qed.
Lemma slice_to_ok s n : (n ≤ String.length s)%nat → slice_to s n = Some (str_take n s).
Proof. intros Hn. unfold slice_to. by rewrite (proj2 (Nat.leb_le _ _)). Qed.

(** Where a search ends: within the text, and strictly for a pattern of one byte or more. *)
Lemma Index_bound s p i : Index s p = Some i → (i + String.length p ≤ String.length s)%nat.
Proof.
  intros Hi. destruct (Index_Some s p i Hi) as (t & Ht & Hle).
  apply (f_equal String.length) in Ht. rewrite !str_length_app, str_take_length in Ht by done. lia.
Qed.

Lemma lower_length vast : is_ascii vast = true → String.length (go_lower vast) = String.length vast.
Proof. intros Ha. rewrite go_lower_ascii by done. apply string_map_length. Qed.

Lemma extractVASTAdTagURI_total vast : is_ascii vast = true → is_Some (extractVASTAdTagURI vast).
Proof.
  intros Ha. unfold extractVASTAdTagURI. destruct (_ && _); [eauto|].
  destruct (indexCaseFold vast "<vastadtaguri") as [i|] eqn:Hi; [|eauto].
  apply Index_bound in Hi. rewrite (lower_length vast Ha) in Hi.
  rewrite slice_from_ok by lia. cbn [mbind option_bind].
  destruct (Index (str_drop i vast) ">") as [g|] eqn:Hg; [|eauto].
  apply Index_bound in Hg. rewrite str_drop_length in Hg. simpl in Hg.
  rewrite slice_from_ok by lia. cbn [mbind option_bind].
  destruct (indexCaseFold _ "</vastadtaguri") as [e|] eqn:He; [|eauto].
  apply Index_bound in He. rewrite (lower_length (str_drop _ _)) in He by (by apply is_ascii_drop).
  rewrite slice_to_ok by lia. cbn [mbind option_bind]. eauto.
Qed.

Lemma scanURLs_total fuel o c vast search urls :
  is_ascii vast = true → (search ≤ String.length vast)%nat → (String.length vast - search < fuel)%nat →
  Forall (λ u, is_ascii u = true) urls →
  ∃ us, scanURLs fuel o c vast (go_lower vast) search urls = Ok us ∧ Forall (λ u, is_ascii u = true) us.
Proof.
  intros Ha. revert search urls. induction fuel as [|fuel IH]; intros search urls Hs Hf Hu; [lia|].
  cbn [scanURLs]. rewrite (slice_from_ok (go_lower vast)) by (rewrite lower_length; done). cbn [or_panic rbind].
  destruct (Index _ o) as [i|] eqn:Hi; [|eauto].
  apply Index_bound in Hi. rewrite str_drop_length, lower_length in Hi by done.
  rewrite slice_from_ok by lia. cbn [or_panic rbind].
  destruct (Index _ ">") as [g|] eqn:Hg; [|eauto].
  apply Index_bound in Hg. rewrite str_drop_length in Hg. simpl in Hg.
  rewrite slice_from_ok by (rewrite lower_length by done; lia). cbn [or_panic rbind].
  destruct (Index _ c) as [e|] eqn:He; [|eauto].
  apply Index_bound in He. rewrite str_drop_length, lower_length in He by done.
  rewrite slice_from_ok by lia. cbn [or_panic rbind].
  rewrite slice_to_ok by (rewrite str_drop_length; lia). cbn [or_panic rbind].
  apply IH; [lia|lia|]. destruct (HasPrefix _ "http"); [|done].
  apply Forall_app. split; [done|]. apply Forall_singleton.
  auto using is_ascii_pixelURL, is_ascii_take, is_ascii_drop.
Qed.

Lemma extractURLs_total o c vast :
  is_ascii vast = true →
  ∃ us, scanURLs (scanFuel vast) o c vast (go_lower vast) 0 [] = Ok us ∧ Forall (λ u, is_ascii u = true) us.
Proof. intros Ha. apply scanURLs_total; [done|lia| |done]. unfold scanFuel. rewrite lower_length by done. lia. Qed.

(** ** The documents of a chain
    [reaches fetch d doc d' doc']: following wrappers from [doc] at turn [d] leads to [doc'] at turn
    [d']. *)
Inductive reaches (fetch : nat → string → option string) : nat → string → nat → string → Prop :=
| reaches_here d doc : reaches fetch d doc d doc
| reaches_next d doc uri next d' doc' :
    extractVASTAdTagURI doc = Some uri → uri ≠ "" → fetch d uri = Some next → TrimSpace next ≠ "" →
    reaches fetch (S d) next d' doc' → reaches fetch d doc d' doc'.

Section chain.
Context (fetch : nat → string → option string).
Context (fetch_ascii : ∀ d u v, fetch d u = Some v → is_ascii v = true).

Lemma reaches_turn d doc d' doc' : reaches fetch d doc d' doc' → (d ≤ d')%nat.
Proof. induction 1; lia. Qed.

Lemma reaches_inv d doc d' doc' uri :
  extractVASTAdTagURI doc = Some uri → reaches fetch d doc d' doc' →
  d' = d ∧ doc' = doc ∨
  ∃ next, uri ≠ "" ∧ fetch d uri = Some next ∧ TrimSpace next ≠ "" ∧ reaches fetch (S d) next d' doc'.
Proof. intros Huri Hr. destruct Hr; simplify_eq; [by left|right; eauto 10]. Qed.

(** The pixels a run over the wrappers has collected when it stops. *)
Definition collected (d : nat) (doc : string) (bound : nat) (imps : list string) : Prop :=
  ∀ d' doc' uri us, reaches fetch d doc d' doc' → (d' < bound)%nat →
    extractVASTAdTagURI doc' = Some uri → uri ≠ "" → extractImpressionURLs doc' = Ok us → us ⊆ imps.

Lemma collected_last d doc uri bound us imps :
  extractVASTAdTagURI doc = Some uri → extractImpressionURLs doc = Ok us → us ⊆ imps →
  (∀ next, fetch d uri = Some next → TrimSpace next = "") → collected d doc bound imps.
Proof.
  intros Huri Hus Hsub Hno d' doc' uri' us' Hr _ _ _ Hus'.
  destruct (reaches_inv _ _ _ _ _ Huri Hr) as [[_ ->]|(next & _ & Hf & He & _)]; [|by destruct (He (Hno _ Hf))].
  rewrite Hus in Hus'. by injection Hus' as <-.
Qed.

Definition allAscii (l : list string) : Prop := Forall (λ u, is_ascii u = true) l.

Lemma followWrappers_spec hops d doc imps trks :
  is_ascii doc = true → allAscii imps → allAscii trks →
  ∃ cur imps' trks', followWrappers fetch hops d doc imps trks = Ok (cur, imps', trks') ∧
    is_ascii cur = true ∧ allAscii imps' ∧ allAscii trks' ∧ imps ⊆ imps' ∧ collected d doc (d + hops) imps'.
Proof.
  revert d doc imps trks. induction hops as [|hops IH]; intros d doc imps trks Ha Hi Ht; cbn [followWrappers].
  { exists doc, imps, trks. do 5 (split; [done|]). intros d' ??? Hr Hd. apply reaches_turn in Hr. lia. }
  destruct (extractVASTAdTagURI_total doc Ha) as [uri Huri]. rewrite Huri. cbn [or_panic rbind].
  destruct (String.eqb_spec uri "") as [->|Hne].
  { exists doc, imps, trks. do 5 (split; [done|]). intros d' doc' uri us Hr _ Huri' Hne _.
    destruct (reaches_inv _ _ _ _ _ Huri Hr) as [[_ ->]|(? & ? & _)]; congruence. }
  destruct (extractURLs_total "<impression" "</impression" doc Ha) as (us & Hus & Husa).
  destruct (extractURLs_total "<tracking" "</tracking" doc Ha) as (ts & Hts & Htsa).
  unfold extractTrackingURLs. fold (extractImpressionURLs doc) in Hus. rewrite Hus, Hts. cbn [rbind].
  assert (allAscii (imps ++ us)) as Hi' by (by apply Forall_app).
  assert (allAscii (trks ++ ts)) as Ht' by (by apply Forall_app).
  destruct (fetch d uri) as [next|] eqn:Hf; [destruct (String.eqb_spec (TrimSpace next) "") as [He|He]|].
  - exists doc, (imps ++ us), (trks ++ ts). do 4 (split; [done|]). split; [set_solver|].
    eapply collected_last; [done|done|set_solver|]. intros n Hn. congruence.
  - destruct (IH (S d) next (imps ++ us) (trks ++ ts)) as (cur & imps' & trks' & Hfo & Hca & Hia & Hta & Hsub & Hall);
      [by eapply fetch_ascii|done|done|].
    exists cur, imps', trks'. do 4 (split; [done|]). split; [set_solver|].
    intros d' doc' uri' us' Hr Hd Hu' Hne' Hu.
    destruct (reaches_inv _ _ _ _ _ Huri Hr) as [[_ ->]|(n & _ & Hfn & _ & Hr')].
    + rewrite Hus in Hu. injection Hu as <-. intros x Hx. apply Hsub, elem_of_app. by right.
    + rewrite Hf in Hfn. injection Hfn as <-. eapply Hall; [done|lia|done|done|done].
  - exists doc, (imps ++ us), (trks ++ ts). do 4 (split; [done|]). split; [set_solver|].
    eapply collected_last; [done|done|set_solver|]. intros; congruence.
Qed.

(** ** Merging the pixels *)
Lemma impression_place_after vast url id v' :
  is_ascii v' = true → edited vast (impressionTag url id) v' → has_impression_place v' = true.
Proof.
  intros Ha (pre & post & -> & _ & ->). unfold has_impression_place, lastIndexCaseFold.
  rewrite (go_lower_ascii _ Ha), go_lower_ascii by done.
  assert (∃ t, impressionTag url id = t +:+ "</Impression>") as [t ->].
  { unfold impressionTag. destruct (id ≠s? "").
    - exists ("<Impression id=" +:+ String "034" id +:+ String "034" "><![CDATA[" +:+ url +:+ "]]>").
      by rewrite ?str_app_assoc, ?str_app_cons, ?str_app_assoc.
    - exists ("<Impression><![CDATA[" +:+ url +:+ "]]>"). by rewrite ?str_app_assoc. }
  unfold ToLower. rewrite !string_map_app, str_app_assoc.
  change (string_map lower_ascii "</impression>") with (string_map lower_ascii "</Impression>").
  rewrite <-str_app_assoc. by rewrite bool_decide_true by apply LastIndex_app.
Qed.

Lemma mergeImpressions_spec doc urls :
  is_ascii doc = true → allAscii urls →
  ∃ v, mergeImpressions doc urls = Ok v ∧ is_ascii v = true ∧
    (has_impression_place doc = true → has_impression_place v = true) ∧
    (∀ x, no_markup x → strContains doc x = true → strContains v x = true) ∧
    (has_impression_place doc = true → ∀ u, u ∈ urls → no_markup u → strContains v u = true).
Proof.
  intros Ha. induction urls as [|u urls IH] using rev_ind; intros Hu.
  { exists doc. do 4 (split; [done|]). intros _ u Hin. by apply elem_of_nil in Hin. }
  apply Forall_app in Hu as [Hus Hu]. apply Forall_inv in Hu.
  destruct (IH Hus) as (v & Hv & Hva & Hp & Hk & Hall).
  unfold mergeImpressions in *. rewrite foldl_snoc, Hv. cbn [rbind].
  destruct (injectVASTImpression_cases v u "" Hva) as (v' & Hv' & Hcase).
  unfold injectVASTImpression. rewrite Hv'. cbn [or_panic]. exists v'. split; [done|].
  destruct Hcase as [(-> & Hcase)|(Hne & Hc & Hpv & He)].
  - do 3 (split; [done|]). intros Hpd x [Hin|Hin%list_elem_of_singleton]%elem_of_app Hx; [by apply Hall|subst x].
    destruct Hcase as [->|[Hc|Hno]]; [|done|by rewrite Hp in Hno].
    apply strContains_spec. by exists "", v.
  - assert (is_ascii v' = true) as Ha'.
    { eapply edited_ascii; [exact He|exact Hva|]. apply impressionTag_ascii; [exact Hu|reflexivity]. }
    split; [done|]. split; [intros _; by eapply impression_place_after|].
    split; [intros x Hx Hcx; eapply edited_keeps; eauto|].
    intros Hpd x [Hin|Hin%list_elem_of_singleton]%elem_of_app Hx; [eapply edited_keeps; eauto|subst x].
    eapply edited_contains; [done|apply impressionTag_contains].
Qed.

Lemma trackingBlock_ascii evs :
  Forall (λ ev, is_ascii (vt_Event ev) = true ∧ is_ascii (vt_Text ev) = true) evs → is_ascii (trackingBlock evs) = true.
Proof.
  induction 1 as [|ev evs [He Ht] _ IH]; [done|]. unfold trackingBlock, trackingTag in *. simpl.
  repeat first [rewrite is_ascii_app | rewrite str_app_cons | progress simpl]. by rewrite He, Ht, IH.
Qed.

Lemma mergeTrackings_spec doc urls :
  is_ascii doc = true → allAscii urls →
  ∃ v, mergeTrackings doc urls = Ok v ∧ is_ascii v = true ∧
    (∀ x, no_markup x → strContains doc x = true → strContains v x = true).
Proof.
  intros Ha. induction urls as [|u urls IH] using rev_ind; intros Hu; [by exists doc|].
  apply Forall_app in Hu as [Hus Hu]. apply Forall_inv in Hu.
  destruct (IH Hus) as (v & Hv & Hva & Hk).
  unfold mergeTrackings in *. rewrite foldl_snoc, Hv. cbn [rbind].
  destruct (injectVASTTracking_cases v [{| vt_Event := "start"; vt_Text := u |}] Hva) as (v' & Hv' & Hcase).
  rewrite Hv'. cbn [or_panic]. exists v'. split; [done|].
  destruct Hcase as [(-> & _)|(_ & _ & tag & pre & post & -> & Hpre & Hpost & He)]; [done|]. split.
  - eapply edited_ascii; [done|done|]. rewrite !is_ascii_app, Hpre, Hpost, trackingBlock_ascii; [done|].
    apply Forall_forall. intros ev [_ Hev%list_elem_of_singleton]%list_elem_of_filter. by subst ev.
  - intros x Hx Hc. eapply edited_keeps; eauto.
Qed.
End chain.
End ascii.

(** ** Properties *)

(** Inserting pixels is idempotent: on an ASCII document both edits succeed, and the same edit on the
    result changes nothing, so a beacon is not fired twice.  The document itself is kept: an edit
    changes nothing or inserts one text at a tag. *)
Theorem vast_edits_idempotent `{GoCase} vast url id events :
  is_ascii vast = true → Forall (λ ev, no_markup (vt_Text ev)) events →
  (∃ v, injectVASTImpressionWithID vast url id = Some v ∧ injectVASTImpressionWithID v url id = Some v ∧
     (v = vast ∨ edited vast (impressionTag url id) v)) ∧
  (∃ v, injectVASTTracking vast events = Some v ∧ injectVASTTracking v events = Some v ∧
     (v = vast ∨ ∃ tag, edited vast tag v)).
Proof.
  intros Ha Hm. split.
  - destruct (injectVASTImpression_idempotent vast url id id Ha) as (v & Hv & Hv').
    exists v. split; [done|]. split; [done|].
    destruct (injectVASTImpression_cases vast url id Ha) as (w & Hw & Hcase). simplify_eq. naive_solver.
  - destruct (injectVASTTracking_idempotent vast events Ha Hm) as (v & Hv & Hv').
    exists v. split; [done|]. split; [done|].
    destruct (injectVASTTracking_cases vast events Ha) as (w & Hw & Hcase). simplify_eq. naive_solver.
Qed.

(** A chain of VAST wrappers is resolved without losing an impression pixel: on ASCII documents the
    resolution returns a document, and when that is one with a place for impressions, it contains
    every impression URL of every wrapper met within the allowed hops. *)
Theorem wrapper_chain_keeps_impressions `{GoCase} fetch vast maxDepth :
  is_ascii vast = true → (∀ d u v, fetch d u = Some v → is_ascii v = true) →
  ∃ last imps trks v, followWrappers fetch maxDepth 0 vast [] [] = Ok (last, imps, trks) ∧
    resolveVASTWrapperChain fetch vast maxDepth = Ok v ∧
    (has_impression_place last = true →
     ∀ d doc uri us u, reaches fetch 0 vast d doc → (d < maxDepth)%nat →
       extractVASTAdTagURI doc = Some uri → uri ≠ "" → extractImpressionURLs doc = Ok us →
       u ∈ us → no_markup u → strContains v u = true).
Proof.
  intros Ha Hfa.
  destruct (followWrappers_spec fetch Hfa maxDepth 0 vast [] []) as
    (last & imps & trks & Hfo & Hla & Hia & Hta & _ & Hcol); [done|by constructor|by constructor|].
  destruct (mergeImpressions_spec last imps Hla Hia) as (v1 & Hv1 & Hv1a & _ & _ & Hall).
  destruct (mergeTrackings_spec v1 trks Hv1a Hta) as (v & Hv & _ & Hk).
  exists last, imps, trks, v. split; [done|]. split.
  { unfold resolveVASTWrapperChain. rewrite Hfo. cbn [rbind]. rewrite Hv1. cbn [rbind]. done. }
  intros Hp d doc uri us u Hr Hd Huri Hne Hus Hu Hm. apply Hk; [done|]. apply Hall; [done| |done].
  by apply (Hcol d doc uri us Hr Hd Huri Hne Hus).
Qed.

(** *** Runtimes *)
#[refine] Definition ascii_case : GoCase := {| go_lower := ToLower; go_upper := ToUpper |}.
Proof. all: done. Defined.

Lemma lower_023A_ascii s : is_ascii s = true → lower_023A s = ToLower s.
Proof.
  unfold ToLower. induction s as [|a s IH]; [done|]. intros [Ha Hs]%andb_true_iff. specialize (IH Hs).
  destruct a as [[] [] [] [] [] [] [] []]; try (by vm_compute in Ha); cbn [lower_023A string_map]; by rewrite IH.
Qed.
#[refine] Definition unicode_case : GoCase := {| go_lower := lower_023A; go_upper := ToUpper |}.
Proof. all: [> apply lower_023A_ascii | done]. Defined.

Definition quote (s : string) : string := String "034" s +:+ String "034" "".
Definition wrapperDoc : string :=
  "<VAST><Ad><Wrapper><VASTAdTagURI><![CDATA[http://next]]></VASTAdTagURI><Impression>http://imp</Impression>" +:+
  "<Creatives><Creative><Linear><TrackingEvents><Tracking event=" +:+ quote "start" +:+ ">http://first</Tracking>" +:+
  "<Tracking event=" +:+ quote "complete" +:+ ">http://second</Tracking></TrackingEvents></Linear></Creative></Creatives>" +:+
  "</Wrapper></Ad></VAST>".
Definition inlineDoc : string :=
  "<VAST><Ad><InLine><Impression>http://own</Impression><Creatives><Linear></Linear></Creatives></InLine></Ad></VAST>".
Definition sampleFetch (d : nat) (u : string) : option string := if u =s? "http://next" then Some inlineDoc else None.

Lemma vast_edits_witness :
  let events := [{| vt_Event := "start"; vt_Text := "http://t" |}] in
  is_ascii inlineDoc = true ∧ Forall (λ ev, no_markup (vt_Text ev)) events ∧
  ∃ v, injectVASTTracking (H := ascii_case) inlineDoc events = Some v ∧
    injectVASTTracking (H := ascii_case) v events = Some v.
Proof.
  intros events. assert (Forall (λ ev, no_markup (vt_Text ev)) events) as Hm by (repeat constructor).
  split; [reflexivity|]. split; [exact Hm|].
  destruct (@vast_edits_idempotent ascii_case inlineDoc "http://u" "" events eq_refl Hm) as [_ (v & H1 & H2 & _)].
  exists v. split; [exact H1|exact H2].
Defined.

Lemma wrapper_chain_witness :
  ∃ v, resolveVASTWrapperChain (H := ascii_case) sampleFetch wrapperDoc 5 = Ok v ∧ strContains v "http://imp" = true.
Proof.
  destruct (@wrapper_chain_keeps_impressions ascii_case sampleFetch wrapperDoc 5) as (last & imps & trks & v & Hf & Hv & Hall).
  - reflexivity.
  - intros d u w. unfold sampleFetch. destruct (u =s? "http://next"); intros Hw; [injection Hw as <-; reflexivity|discriminate].
  - assert (last = inlineDoc) as ->.
    { assert (followWrappers (H := ascii_case) sampleFetch 5 0 wrapperDoc [] [] = Ok (inlineDoc, ["http://imp"], ["http://second"])) as Hf'
        by (vm_compute; reflexivity).
      rewrite Hf in Hf'. by injection Hf'. }
    exists v. split; [exact Hv|].
    apply (Hall eq_refl 0%nat wrapperDoc "http://next" ["http://imp"] "http://imp").
    + apply reaches_here.
    + lia.
    + vm_compute. reflexivity.
    + discriminate.
    + vm_compute. reflexivity.
    + by left.
    + vm_compute. by split_and?.
Defined.

(** The pixels of a wrapper's tracking events are not merged as they are: the search for [<tracking]
    stops at [<TrackingEvents>] first, so the first pixel of each list is lost, and the others are
    all inserted for the event [start], whatever event they were for. *)
Theorem wrapper_tracking_lost_and_renamed :
  extractTrackingURLs (H := ascii_case) wrapperDoc = Ok ["http://second"] ∧
  ∃ v, resolveVASTWrapperChain (H := ascii_case) sampleFetch wrapperDoc 5 = Ok v ∧
    strContains v "http://first" = false ∧ strContains v (quote "complete") = false ∧
    strContains v ("<Tracking event=" +:+ quote "start" +:+ "><![CDATA[http://second]]></Tracking>") = true.
Proof.
  split; [vm_compute; reflexivity|].
  destruct (resolveVASTWrapperChain (H := ascii_case) sampleFetch wrapperDoc 5) as [v|e] eqn:Hv;
    [|exfalso; vm_compute in Hv; discriminate].
  exists v. split; [done|]. vm_compute in Hv. injection Hv as <-. vm_compute. done.
Qed.

(** Offsets found in the lower-cased copy are used on the document itself.  A letter whose lower case
    has more bytes (U+023A, 22 times here) makes the offset point past the document, and the slice
    expression panics; once, it shifts the place into the closing tag. *)
Fixpoint strokes (n : nat) : string := match n with O => "" | S n => stroke_upper +:+ strokes n end.
Theorem unicode_document_panics :
  injectVASTImpression (H := unicode_case)
    ("<VAST><Ad><InLine>" +:+ strokes 22 +:+ "</InLine></Ad></VAST>") "http://u" = None ∧
  injectVASTImpression (H := unicode_case)
    ("<VAST><Ad><InLine>" +:+ strokes 1 +:+ "</InLine></Ad></VAST>") "http://u" =
    Some ("<VAST><Ad><InLine>" +:+ strokes 1 +:+ "<" +:+
      "<Impression><![CDATA[http://u]]></Impression>" +:+ "/InLine></Ad></VAST>").
Proof. split; vm_compute; reflexivity. Qed.
