(* ===== verification/VastCheck.v ===== *)
(** * The structural check of a VAST document (endpoints/video_pipeline.go [validateVASTAdM])

    The check reads the tokens of [encoding/xml] one by one.  It is modelled on the token stream
    and proved equivalent to a reading of the document as a tree. *)
From S2P Require Import Prelude GoStrings.

(** ** Tokens
    The stream ends with an error: the end of input, or malformed XML. *)
Inductive xmlToken :=
| StartElement (local : string)
| EndElement
| OtherToken.

Inductive vastError :=
| Malformed
| WrongRoot (name : string)
| NoAd
| MalformedIn (name : string)
| AdIncomplete
| AdWithoutCreative
| AdChildMalformed (name : string).

(** [Decoder.Skip]: past the end of the element that was opened; [None] when the stream ends first. *)
Fixpoint skipElement (depth : nat) (toks : list xmlToken) : option (list xmlToken) :=
  match toks with
  | [] => None
  | StartElement _ :: rest => skipElement (S depth) rest
  | EndElement :: rest => match depth with O => Some rest | S d => skipElement d rest end
  | OtherToken :: rest => skipElement depth rest
  end.

(** The three loops; a turn of a loop consumes a token, which the [fuel] counts. *)
Fixpoint findRoot (toks : list xmlToken) : result vastError (list xmlToken) :=
  match toks with
  | [] => Err Malformed
  | StartElement name :: rest => if EqualFold name "VAST" then Ok rest else Err (WrongRoot name)
  | _ :: rest => findRoot rest
  end.

Fixpoint scanAd (fuel : nat) (toks : list xmlToken) : result vastError () :=
  match fuel with
  | O => Err AdIncomplete
  | S fuel =>
      match toks with
      | [] => Err AdIncomplete
      | StartElement name :: rest =>
          if ToLower name =s? "wrapper" then Ok ()
          else if ToLower name =s? "inline" then Ok ()
          else match skipElement 0 rest with
               | None => Err (AdChildMalformed name)
               | Some rest' => scanAd fuel rest'
               end
      | EndElement :: _ => Err AdWithoutCreative
      | OtherToken :: rest => scanAd fuel rest
      end
  end.

Fixpoint findAd (fuel : nat) (toks : list xmlToken) : result vastError () :=
  match fuel with
  | O => Err NoAd
  | S fuel =>
      match toks with
      | [] => Err NoAd
      | StartElement name :: rest =>
          if EqualFold name "Ad" then scanAd (S (length rest)) rest
          else match skipElement 0 rest with
               | None => Err (MalformedIn name)
               | Some rest' => findAd fuel rest'
               end
      | _ :: rest => findAd fuel rest
      end
  end.

Definition validateVASTAdM (toks : list xmlToken) : result vastError () :=
  let? rest := findRoot toks in findAd (S (length rest)) rest.

(** ** Documents as trees *)
Inductive xmlNode :=
| Element (name : string) (children : list xmlNode)
| Text.

Fixpoint tokens (n : xmlNode) : list xmlToken :=
  match n with
  | Text => [OtherToken]
  | Element name children => StartElement name :: (concat (map tokens children) ++ [EndElement])
  end.

Definition isElement (name : string) (n : xmlNode) : bool :=
  match n with Element m _ => EqualFold m name | Text => false end.
(** The first child element of that name, and whether a list of children has a creative. *)
Definition firstAd (children : list xmlNode) : option (list xmlNode) :=
  match list_find (λ n, isElement "Ad" n = true) children with
  | Some (_, Element _ cs) => Some cs
  | _ => None
  end.
Definition hasCreative (children : list xmlNode) : bool :=
  existsb (λ n, isElement "Wrapper" n || isElement "InLine" n) children.

(** Nodes are nested in lists. *)
Section node_ind.
Context (P : xmlNode → Prop).
Context (HE : ∀ name children, Forall P children → P (Element name children)).
Context (HT : P Text).
Fixpoint xmlNode_nested_ind (n : xmlNode) : P n :=
  match n with
  | Text => HT
  | Element name children =>
      HE name children ((fix go (l : list xmlNode) : Forall P l :=
        match l with
        | [] => Forall_nil_2 P
        | x :: l' => Forall_cons_2 P x l' (xmlNode_nested_ind x) (go l')
        end) children)
  end.
End node_ind.

Lemma skipElement_tokens n depth rest :
  skipElement depth (tokens n ++ rest) = skipElement depth rest.
Proof.
  revert depth rest. induction n as [name children IH|] using xmlNode_nested_ind; intros depth rest; [|done].
  simpl. assert (∀ d r, skipElement d (concat (map tokens children) ++ r) = skipElement d r) as Hc.
  { clear -IH. induction IH as [|c cs Hc _ IHcs]; intros d r; [done|]. simpl. by rewrite <-app_assoc, Hc, IHcs. }
  by rewrite <-app_assoc, Hc.
Qed.
Lemma skipElement_children children rest :
  skipElement 0 (concat (map tokens children) ++ EndElement :: rest) = Some rest.
Proof.
  induction children as [|c cs IH]; [done|]. simpl. by rewrite <-app_assoc, skipElement_tokens.
Qed.

Lemma EqualFold_lower name s : EqualFold name s = (ToLower name =s? ToLower s).
Proof. done. Qed.

(** Bounds on the number of tokens left. *)
Ltac len_lia := repeat first [rewrite !length_app in * | progress cbn [length app tokens] in *]; lia.

(** Inside [<Ad>]. *)
Lemma scanAd_tokens children fuel rest :
  (length (concat (map tokens children) ++ EndElement :: rest) < fuel)%nat →
  scanAd fuel (concat (map tokens children) ++ EndElement :: rest) =
    if hasCreative children then Ok () else Err AdWithoutCreative.
Proof.
  revert fuel. induction children as [|c cs IH]; intros [|fuel] Hf; [lia|done|lia|].
  cbn [map concat] in *. rewrite <-app_assoc in *. destruct c as [name children|]; cbn [tokens app scanAd hasCreative existsb].
  - unfold isElement at 1 2. rewrite !EqualFold_lower.
    change (ToLower "Wrapper") with "wrapper". change (ToLower "InLine") with "inline".
    destruct (ToLower name =s? "wrapper"); [done|]. destruct (ToLower name =s? "inline"); [done|].
    rewrite <-app_assoc. cbn [app]. rewrite skipElement_children. apply IH. len_lia.
  - apply IH. len_lia.
Qed.

Lemma findAd_tokens children fuel rest :
  (length (concat (map tokens children) ++ EndElement :: rest) < fuel)%nat → Forall (λ t, t = OtherToken) rest →
  findAd fuel (concat (map tokens children) ++ EndElement :: rest) =
    match firstAd children with
    | Some cs => if hasCreative cs then Ok () else Err AdWithoutCreative
    | None => Err NoAd
    end.
Proof.
  revert fuel. induction children as [|c cs IH]; intros [|fuel] Hf Hr; [lia| |lia|].
  { simpl in *. assert (∀ f, findAd f rest = Err NoAd) as Hn; [|by rewrite Hn].
    clear Hf fuel. induction Hr as [|t rest -> _ IH]; intros [|f]; try done. simpl. apply IH. }
  unfold firstAd in *. cbn [map concat] in *. rewrite <-app_assoc in *.
  destruct c as [name children|]; cbn [tokens app findAd] in *.
  - destruct (EqualFold name "Ad") eqn:Ha.
    + simpl list_find. rewrite decide_True by done. rewrite <-app_assoc. apply scanAd_tokens. len_lia.
    + rewrite <-app_assoc. cbn [app]. rewrite skipElement_children.
      rewrite IH; [|len_lia|done].
      simpl list_find. rewrite decide_False by (by rewrite Ha).
      by destruct (list_find _ cs) as [[i [|]]|].
  - rewrite IH; [|len_lia|done]. simpl list_find.
    by destruct (list_find _ cs) as [[i [|]]|].
Qed.

(** The check of a VAST document is a check of its tree: with anything but elements before the root
    (a prolog, comments) and after it, a document is accepted exactly when its root is [VAST] and
    the first [Ad] among the root's children has a child [InLine] or [Wrapper], letters in either
    case; otherwise the error says which of these fails. *)
Theorem vast_check_is_tree_check before after name children :
  Forall (λ t, t = OtherToken) before → Forall (λ t, t = OtherToken) after →
  validateVASTAdM (before ++ tokens (Element name children) ++ after) =
    if EqualFold name "VAST" then
      match firstAd children with
      | Some cs => if hasCreative cs then Ok () else Err AdWithoutCreative
      | None => Err NoAd
      end
    else Err (WrongRoot name).
Proof.
  intros Hb Ha. unfold validateVASTAdM.
  assert (findRoot (before ++ tokens (Element name children) ++ after) =
    findRoot (tokens (Element name children) ++ after)) as ->.
  { induction Hb as [|t before -> _ IH]; [done|]. apply IH. }
  cbn [tokens app findRoot]. destruct (EqualFold name "VAST"); [|done]. cbn [rbind].
  rewrite <-app_assoc. cbn [app]. by apply findAd_tokens; [lia|].
Qed.

Lemma vast_check_witness :
  let doc := [Text; Element "Error" [Text]; Element "ad" [Element "X" [Element "InLine" []]; Element "inline" []]] in
  validateVASTAdM ([OtherToken] ++ tokens (Element "VAST" doc) ++ []) = Ok ().
Proof.
  intros doc. rewrite (vast_check_is_tree_check [OtherToken] [] "VAST" doc); [reflexivity| |].
  - repeat constructor.
  - constructor.
Defined.
