(* ===== verification/VideoDemand.v ===== *)
(** * Demand of the video pipeline (endpoints/video_pipeline.go, demand_adapter.go)

    A placement's configuration names demand sources: a VAST tag, an OpenRTB endpoint, or the
    exchange itself, with further sources in [ExtraDemand].  An adapter per source turns its answer
    into a [DemandResponse]; [extractWinningBid] picks the bid of an OpenRTB answer;
    [runDemandWaterfall] asks all sources at once and takes the highest price.  Panics and a receive
    that never returns are outcomes of their own. *)
From S2P Require Import Prelude GoStrings GoFloat Order.

(** ** Configuration of a placement *)
Record ExtraDemandCfg := {
  ed_VASTTagURL : string;
  ed_OrtbURL : string;
  ed_FloorCPM : float64;
  ed_BCat : list string;
  ed_BAdv : list string
}.

(** [TargetingExt], free JSON that is only copied into requests, is left out. *)
Record AdServerConfig := {
  cfg_PlacementID : string;
  cfg_PublisherID : string;
  cfg_ContentURL : string;
  cfg_DomainOrApp : string;
  cfg_MinDuration : Z;
  cfg_MaxDuration : Z;
  cfg_Protocols : list Z;
  cfg_APIs : list Z;
  cfg_AllowedBidders : list string;
  cfg_FloorCPM : float64;
  cfg_DemandFloorCPM : float64;
  cfg_DemandVASTURL : string;
  cfg_DemandOrtbURL : string;
  cfg_BAdv : list string;
  cfg_BCat : list string;
  cfg_ExtraDemand : list ExtraDemandCfg;
  cfg_SeatWeights : option (gmap string float64);
  cfg_MimeTypes : list string;
  cfg_Active : bool;
  cfg_TimeoutMS : Z;
  cfg_RequestBaseURL : string;
  cfg_OrtbVersion : string;
  cfg_VideoPlacementType : string;
  cfg_CampaignID : string;
  cfg_AdvertiserID : string;
  cfg_SellerDomain : string;
  cfg_PodSequence : Z;
  cfg_PodDuration : Z;
  cfg_MaxSeq : Z;
  cfg_CompanionType : list Z;
  cfg_CatTax : Z
}.

(** The zero value, with a placement id. *)
Definition zeroConfig (placementID : string) : AdServerConfig :=
  {| cfg_PlacementID := placementID; cfg_PublisherID := ""; cfg_ContentURL := ""; cfg_DomainOrApp := "";
     cfg_MinDuration := 0; cfg_MaxDuration := 0; cfg_Protocols := []; cfg_APIs := []; cfg_AllowedBidders := [];
     cfg_FloorCPM := f0; cfg_DemandFloorCPM := f0; cfg_DemandVASTURL := ""; cfg_DemandOrtbURL := "";
     cfg_BAdv := []; cfg_BCat := []; cfg_ExtraDemand := []; cfg_SeatWeights := None; cfg_MimeTypes := [];
     cfg_Active := false; cfg_TimeoutMS := 0; cfg_RequestBaseURL := ""; cfg_OrtbVersion := "";
     cfg_VideoPlacementType := ""; cfg_CampaignID := ""; cfg_AdvertiserID := ""; cfg_SellerDomain := "";
     cfg_PodSequence := 0; cfg_PodDuration := 0; cfg_MaxSeq := 0; cfg_CompanionType := []; cfg_CatTax := 0 |}.

(** The floor that applies to the active demand path; [None] is a nil pointer. *)
Definition outboundBidFloorCPM (cfg : option AdServerConfig) : float64 :=
  match cfg with
  | None => f0
  | Some cfg =>
      if (f0 <f? cfg_DemandFloorCPM cfg) && ((cfg_DemandOrtbURL cfg ≠s? "") || (cfg_DemandVASTURL cfg ≠s? ""))
      then cfg_DemandFloorCPM cfg else cfg_FloorCPM cfg
  end.
Definition winnerMinPriceCPM (cfg : option AdServerConfig) : float64 :=
  match cfg with
  | None => f0
  | Some cfg =>
      if (f0 <f? cfg_DemandFloorCPM cfg) && ((cfg_DemandOrtbURL cfg ≠s? "") || (cfg_DemandVASTURL cfg ≠s? ""))
      then cfg_DemandFloorCPM cfg else cfg_FloorCPM cfg
  end.

(** *** The store of configurations *)
Notation configStore := (gmap string AdServerConfig).
Definition store_set (s : configStore) (c : AdServerConfig) : configStore := <[cfg_PlacementID c := c]> s.
Definition store_get (s : configStore) (placementID : string) : option AdServerConfig := s !! placementID.
Definition store_remove (s : configStore) (placementID : string) : configStore := delete placementID s.

(** [resolveAdServerConfig] never fails: a placement it does not know gets a permissive default. *)
Definition defaultConfig (placementID : string) : AdServerConfig :=
  {| cfg_PlacementID := placementID; cfg_PublisherID := ""; cfg_ContentURL := ""; cfg_DomainOrApp := "";
     cfg_MinDuration := 5; cfg_MaxDuration := 30; cfg_Protocols := [2; 3; 5; 6; 7; 8]; cfg_APIs := [1; 2; 7];
     cfg_AllowedBidders := []; cfg_FloorCPM := f0; cfg_DemandFloorCPM := f0; cfg_DemandVASTURL := "";
     cfg_DemandOrtbURL := ""; cfg_BAdv := []; cfg_BCat := []; cfg_ExtraDemand := []; cfg_SeatWeights := None;
     cfg_MimeTypes := []; cfg_Active := true; cfg_TimeoutMS := 0; cfg_RequestBaseURL := ""; cfg_OrtbVersion := "";
     cfg_VideoPlacementType := ""; cfg_CampaignID := ""; cfg_AdvertiserID := ""; cfg_SellerDomain := "";
     cfg_PodSequence := 0; cfg_PodDuration := 0; cfg_MaxSeq := 0; cfg_CompanionType := []; cfg_CatTax := 0 |}.
Definition resolveAdServerConfig (s : configStore) (placementID : string) : AdServerConfig :=
  match store_get s placementID with Some cfg => cfg | None => defaultConfig placementID end.

(** ** Bids *)
Record vBid := {
  vb_ID : string;
  vb_ImpID : string;
  vb_Price : float64;
  vb_AdM : string;
  vb_NURL : string;
  vb_BURL : string;
  vb_W : Z;
  vb_H : Z;
  vb_CrID : string;
  vb_DealID : string;
  vb_ADomain : list string
}.
Record vSeatBid := { vs_Seat : string; vs_Bid : list vBid }.
Record BidResponse := { br_ID : string; br_SeatBid : list vSeatBid }.

Record WinningBid := {
  win_BidID : string;
  win_AdM : string;
  win_NURL : string;
  win_BURL : string;
  win_Price : float64;
  win_Width : Z;
  win_Height : Z;
  win_CrID : string;
  win_DealID : string;
  win_ADomain : list string
}.

Definition isEmptyAdM (adm : string) : bool :=
  let trim := TrimSpace adm in
  if trim =s? "" then true
  else (trim =s? "0") || EqualFold trim "null" || EqualFold trim "none" || EqualFold trim "empty" ||
       EqualFold trim "n/a" || EqualFold trim "na".
Definition normalizeAdM (adm : string) : string := if isEmptyAdM adm then "" else adm.

Inductive vastCreativeType := adMIsVAST | adMIsURI | adMIsMedia | adMEmpty.
Definition classifyAdM (adm : string) : vastCreativeType :=
  if isEmptyAdM adm then adMEmpty
  else
    let probe := if (512 <? String.length adm)%nat then str_take 512 adm else adm in
    if strContains (ToUpper probe) "<VAST" then adMIsVAST
    else if HasPrefix (TrimSpace adm) "http" then adMIsURI
    else adMIsMedia.

Definition bidBetter (price weight : float64) (pos : Z) (bestPrice bestWeight : float64) (bestPos : Z) : bool :=
  if negb (price =f? bestPrice) then bestPrice <f? price
  else if negb (weight =f? bestWeight) then bestWeight <f? weight
  else pos <? bestPos.

(** The variables of the loop: the best bid so far with its creative, seat, weight and position, the
    position, and the counters of the log line. *)
Record candidate := { ca_bid : vBid; ca_adm : string; ca_seat : string; ca_weight : float64; ca_pos : Z }.
Record winState := { ws_best : option candidate; ws_pos : Z; ws_total : Z; ws_empty : Z; ws_below : Z }.

Definition seatWeightOf (cfg : option AdServerConfig) (seat : string) : float64 :=
  match cfg with
  | Some cfg => match cfg_SeatWeights cfg with Some w => default f1 (w !! seat) | None => f1 end
  | None => f1
  end.

Definition winStep (cfg : option AdServerConfig) (seat : string) (seatWeight : float64) (st : winState) (bid : vBid) : winState :=
  let adm := normalizeAdM (vb_AdM bid) in
  let pos := ws_pos st + 1 in
  let total := ws_total st + 1 in
  if (adm =s? "") && (vb_NURL bid =s? "") then
    {| ws_best := ws_best st; ws_pos := pos; ws_total := total; ws_empty := ws_empty st + 1; ws_below := ws_below st |}
  else
    let minPrice := winnerMinPriceCPM cfg in
    if (f0 <f? minPrice) && (vb_Price bid <f? minPrice) then
      {| ws_best := ws_best st; ws_pos := pos; ws_total := total; ws_empty := ws_empty st; ws_below := ws_below st + 1 |}
    else
      let c := {| ca_bid := bid; ca_adm := adm; ca_seat := seat; ca_weight := seatWeight; ca_pos := pos |} in
      let best :=
        match ws_best st with
        | None => Some c
        | Some b => if bidBetter (vb_Price bid) seatWeight pos (vb_Price (ca_bid b)) (ca_weight b) (ca_pos b)
                    then Some c else Some b
        end in
      {| ws_best := best; ws_pos := pos; ws_total := total; ws_empty := ws_empty st; ws_below := ws_below st |}.
Definition winSeat (cfg : option AdServerConfig) (st : winState) (sb : vSeatBid) : winState :=
  foldl (winStep cfg (vs_Seat sb) (seatWeightOf cfg (vs_Seat sb))) st (vs_Bid sb).
Definition winLoop (cfg : option AdServerConfig) (seats : list vSeatBid) : winState :=
  foldl (winSeat cfg) {| ws_best := None; ws_pos := 0; ws_total := 0; ws_empty := 0; ws_below := 0 |} seats.

Inductive winError := NilResponse | NoFillError (total empty below : Z).
Definition winningOf (c : candidate) : WinningBid :=
  let b := ca_bid c in
  {| win_BidID := vb_ID b; win_AdM := ca_adm c; win_NURL := vb_NURL b; win_BURL := vb_BURL b;
     win_Price := vb_Price b; win_Width := vb_W b; win_Height := vb_H b; win_CrID := vb_CrID b;
     win_DealID := vb_DealID b; win_ADomain := vb_ADomain b |}.

(** The log lines read fields of the configuration: without one they panic ([None]). *)
Definition extractWinningBid (resp : option BidResponse) (adsCfg : option AdServerConfig) :
    option (result winError (WinningBid * string)) :=
  match resp with
  | None => Some (Err NilResponse)
  | Some resp =>
      let st := winLoop adsCfg (br_SeatBid resp) in
      match adsCfg with
      | None => None
      | Some _ =>
          Some (match ws_best st with
                | Some c => Ok (winningOf c, ca_seat c)
                | None => Err (NoFillError (ws_total st) (ws_empty st) (ws_below st))
                end)
      end
  end.

(** ** What the loop computes
    The bids in the order of the response, numbered from one, with the weight of their seat; those
    with a creative or a win notice and a price at the floor are the candidates. *)
Definition flatBids (cfg : option AdServerConfig) (seats : list vSeatBid) : list (string * float64 * vBid) :=
  concat (map (λ sb, map (λ b, (vs_Seat sb, seatWeightOf cfg (vs_Seat sb), b)) (vs_Bid sb)) seats).
Definition eligible (cfg : option AdServerConfig) (b : vBid) : bool :=
  negb ((normalizeAdM (vb_AdM b) =s? "") && (vb_NURL b =s? "")) &&
  negb ((f0 <f? winnerMinPriceCPM cfg) && (vb_Price b <f? winnerMinPriceCPM cfg)).
Definition candidateOf (pos : Z) (x : string * float64 * vBid) : candidate :=
  let '(seat, w, b) := x in
  {| ca_bid := b; ca_adm := normalizeAdM (vb_AdM b); ca_seat := seat; ca_weight := w; ca_pos := pos |}.
Fixpoint candidatesFrom (cfg : option AdServerConfig) (pos : Z) (l : list (string * float64 * vBid)) : list candidate :=
  match l with
  | [] => []
  | x :: l' => (if eligible cfg x.2 then [candidateOf pos x] else []) ++ candidatesFrom cfg (pos + 1) l'
  end.
Definition candidates (cfg : option AdServerConfig) (seats : list vSeatBid) : list candidate :=
  candidatesFrom cfg 1 (flatBids cfg seats).

Definition candBetter (x y : candidate) : bool :=
  bidBetter (vb_Price (ca_bid x)) (ca_weight x) (ca_pos x) (vb_Price (ca_bid y)) (ca_weight y) (ca_pos y).
Definition bestOf (l : list candidate) : option candidate :=
  match l with [] => None | c :: l' => Some (running_best candBetter c l') end.

Lemma bestOf_snoc l c :
  bestOf (l ++ [c]) = Some (match bestOf l with None => c | Some b => if candBetter c b then c else b end).
Proof. destruct l as [|x l]; [done|]. simpl. unfold running_best. by rewrite foldl_snoc. Qed.

Lemma candidatesFrom_snoc cfg pos l x :
  candidatesFrom cfg pos (l ++ [x]) =
  candidatesFrom cfg pos l ++ (if eligible cfg x.2 then [candidateOf (pos + Z.of_nat (length l)) x] else []).
Proof.
  revert pos. induction l as [|y l IH]; intros pos; simpl.
  - rewrite app_nil_r, Z.add_0_r. done.
  - rewrite IH, app_assoc. by replace (pos + 1 + Z.of_nat (length l)) with (pos + Z.of_nat (S (length l))) by lia.
Qed.

Definition flatStep (cfg : option AdServerConfig) (st : winState) (x : string * float64 * vBid) : winState :=
  winStep cfg x.1.1 x.1.2 st x.2.
Lemma winLoop_flat cfg seats st :
  foldl (winSeat cfg) st seats = foldl (flatStep cfg) st (flatBids cfg seats).
Proof.
  revert st. induction seats as [|sb seats IH]; intros st; [done|]. unfold flatBids in *. simpl.
  rewrite foldl_app, IH. f_equal. unfold winSeat. generalize (vs_Bid sb) as bids. intros bids. revert st.
  induction bids as [|b bids IHb]; intros st; [done|]. simpl. by rewrite IHb.
Qed.

Lemma winStep_spec cfg seat w st b :
  let st' := winStep cfg seat w st b in
  ws_pos st' = ws_pos st + 1 ∧
  ws_best st' = if eligible cfg b
    then Some (let c := candidateOf (ws_pos st + 1) (seat, w, b) in
               match ws_best st with None => c | Some d => if candBetter c d then c else d end)
    else ws_best st.
Proof.
  unfold winStep, eligible. destruct (_ && (vb_NURL b =s? "")); [done|].
  destruct ((f0 <f? _) && _); [done|]. cbn -[bidBetter]. split; [done|].
  destruct (ws_best st); [|done]. unfold candBetter. cbn [candidateOf ca_bid ca_weight ca_pos].
  by destruct (bidBetter _ _ _ _ _ _).
Qed.

Lemma winLoop_spec cfg seats : ws_best (winLoop cfg seats) = bestOf (candidates cfg seats).
Proof.
  unfold winLoop, candidates. rewrite winLoop_flat. generalize (flatBids cfg seats) as l. intros l.
  set (st0 := {| ws_best := None |}).
  assert (ws_pos (foldl (flatStep cfg) st0 l) = Z.of_nat (length l) ∧
          ws_best (foldl (flatStep cfg) st0 l) = bestOf (candidatesFrom cfg 1 l)) as [_ H]; [|done].
  induction l as [|[[seat w] b] l [IHp IHb]] using rev_ind; [done|].
  rewrite foldl_snoc, length_app, candidatesFrom_snoc. unfold flatStep at 1 3. simpl fst. simpl snd.
  destruct (winStep_spec cfg seat w (foldl (flatStep cfg) st0 l) b) as [Hp Hb]. rewrite Hp, Hb, IHp, IHb.
  split; [simpl; lia|]. destruct (eligible cfg b); [|by rewrite app_nil_r].
  rewrite bestOf_snoc. by replace (1 + Z.of_nat (length l)) with (Z.of_nat (length l) + 1) by lia.
Qed.

(** *** The order of candidates *)
Definition pricedCand (c : candidate) : Prop := is_nan (vb_Price (ca_bid c)) = false ∧ is_nan (ca_weight c) = false.

Lemma feqb_fltb a b :
  is_nan a = false → is_nan b = false → feqb a b = negb (fltb b a) && negb (fltb a b).
Proof.
  intros Ha Hb. destruct (f_trichotomy a b Ha Hb) as [H|[H|H]].
  - rewrite (proj2 (fltb_spec a b) H), andb_false_r. destruct (feqb a b) eqn:E; [|done].
    apply feqb_spec in E. by destruct (flt_irrefl b (flt_feq_l _ _ _ (feq_sym _ _ E) H)).
  - rewrite (proj2 (feqb_spec a b) H). symmetry. apply andb_true_iff. rewrite !negb_true_iff.
    split; apply not_true_is_false; intros L%fltb_spec.
    + exact (flt_irrefl b (flt_feq_r _ _ _ L H)).
    + exact (flt_irrefl a (flt_feq_r _ _ _ L (feq_sym _ _ H))).
  - rewrite (proj2 (fltb_spec b a) H). destruct (feqb a b) eqn:E; [|done].
    apply feqb_spec in E. by destruct (flt_irrefl a (flt_feq_l _ _ _ E H)).
Qed.

Lemma bidBetter_lex x y :
  pricedCand x → pricedCand y →
  candBetter x y = lex (λ x y, fltb (vb_Price (ca_bid y)) (vb_Price (ca_bid x)))
    (lex (λ x y, fltb (ca_weight y) (ca_weight x)) (λ x y, ca_pos x <? ca_pos y)) x y.
Proof.
  intros [Hx Hx'] [Hy Hy']. unfold candBetter, bidBetter, lex.
  rewrite !feqb_fltb by done.
  destruct (fltb (vb_Price (ca_bid y)) (vb_Price (ca_bid x))), (fltb (vb_Price (ca_bid x)) (vb_Price (ca_bid y)));
    try done; cbn.
  by destruct (fltb (ca_weight y) (ca_weight x)), (fltb (ca_weight x) (ca_weight y)).
Qed.

#[export] Instance candBetter_SWO : SWO pricedCand candBetter.
Proof.
  assert (SWO pricedCand (lex (λ x y, fltb (vb_Price (ca_bid y)) (vb_Price (ca_bid x)))
    (lex (λ x y, fltb (ca_weight y) (ca_weight x)) (λ x y, ca_pos x <? ca_pos y)))) as [Ha Hc].
  { apply lex_SWO; [|apply lex_SWO].
    - apply (SWO_weaken (λ c, is_nan (vb_Price (ca_bid c)) = false)); [|by intros c []].
      exact (SWO_pull (λ c : candidate, vb_Price (ca_bid c)) (λ x, is_nan x = false) (λ x y, fltb y x)
        (SWO0 := SWO_flip _ _)).
    - apply (SWO_weaken (λ c, is_nan (ca_weight c) = false)); [|by intros c []].
      exact (SWO_pull (λ c : candidate, ca_weight c) (λ x, is_nan x = false) (λ x y, fltb y x)
        (SWO0 := SWO_flip _ _)).
    - split; intros; go_bool; [apply Z.ltb_ge; lia|]. rewrite !Z.ltb_lt. lia. }
  split.
  - intros x y Hx Hy. rewrite !bidBetter_lex by done. by apply Ha.
  - intros x y z Hx Hy Hz. rewrite !bidBetter_lex by done. by apply Hc.
Qed.

Lemma candidatesFrom_in cfg pos l c :
  c ∈ candidatesFrom cfg pos l →
  eligible cfg (ca_bid c) = true ∧ pos ≤ ca_pos c ∧ ca_adm c = normalizeAdM (vb_AdM (ca_bid c)) ∧
  (ca_seat c, ca_weight c, ca_bid c) ∈ l.
Proof.
  revert pos. induction l as [|[[seat w] b] l IH]; intros pos; simpl; [by intros ?%elem_of_nil|].
  intros [Hc|Hc]%elem_of_app.
  - destruct (eligible cfg b) eqn:E; [|by apply elem_of_nil in Hc].
    apply list_elem_of_singleton in Hc as ->. simpl. split_and!; [done|lia|done|set_solver].
  - destruct (IH _ Hc) as (? & ? & ? & ?). split_and!; [done|lia|done|set_solver].
Qed.

(** Positions tell candidates apart. *)
Lemma candidatesFrom_pos_inj cfg pos l c c' :
  c ∈ candidatesFrom cfg pos l → c' ∈ candidatesFrom cfg pos l → ca_pos c = ca_pos c' → c = c'.
Proof.
  revert pos. induction l as [|x l IH]; intros pos; simpl; [by intros ?%elem_of_nil|].
  assert (∀ d, d ∈ (if eligible cfg x.2 then [candidateOf pos x] else []) → d = candidateOf pos x ∧ ca_pos d = pos) as Hhd.
  { intros d Hd. destruct (eligible cfg x.2); [|by apply elem_of_nil in Hd].
    apply list_elem_of_singleton in Hd as ->. by destruct x as [[? ?] ?]. }
  assert (∀ d, d ∈ candidatesFrom cfg (pos + 1) l → pos < ca_pos d) as Htl.
  { intros d (_ & ? & _)%candidatesFrom_in. lia. }
  intros [Hc|Hc]%elem_of_app [Hc'|Hc']%elem_of_app Heq; [| | |by eapply IH].
  - destruct (Hhd _ Hc) as [-> _], (Hhd _ Hc') as [-> _]. done.
  - apply Hhd in Hc as [_ Hc]. apply Htl in Hc'. lia.
  - apply Hhd in Hc' as [_ Hc']. apply Htl in Hc. lia.
Qed.

Lemma bestOf_max l :
  Forall pricedCand l →
  match bestOf l with
  | None => l = []
  | Some c => c ∈ l ∧ pricedCand c ∧ ∀ d, d ∈ l → candBetter d c = false
  end.
Proof.
  intros Hp. destruct l as [|x l]; [done|]. simpl. apply Forall_cons in Hp as [Hx Hl].
  exact (running_best_spec pricedCand candBetter x l Hx Hl).
Qed.

(** The bid that wins an OpenRTB answer: without a candidate the call reports no fill with the
    counts; otherwise the winner has a creative or a win notice, is not below the floor, and every
    other candidate has a lower price, or the same price and a lower seat weight, or the same weight
    and a later position.  Positions differ, so the fourth level of the comment, a stable key, is
    never needed. *)
Theorem winning_bid_is_best resp cfg :
  Forall pricedCand (candidates (Some cfg) (br_SeatBid resp)) →
  (∃ n e b, extractWinningBid (Some resp) (Some cfg) = Some (Err (NoFillError n e b)) ∧
     candidates (Some cfg) (br_SeatBid resp) = []) ∨
  (∃ c, extractWinningBid (Some resp) (Some cfg) = Some (Ok (winningOf c, ca_seat c)) ∧
     c ∈ candidates (Some cfg) (br_SeatBid resp) ∧
     (win_AdM (winningOf c) ≠ "" ∨ win_NURL (winningOf c) ≠ "") ∧
     (f0 <f? winnerMinPriceCPM (Some cfg) = true → win_Price (winningOf c) <f? winnerMinPriceCPM (Some cfg) = false) ∧
     ∀ d, d ∈ candidates (Some cfg) (br_SeatBid resp) → d ≠ c →
       flt (vb_Price (ca_bid d)) (vb_Price (ca_bid c)) ∨
       feq (vb_Price (ca_bid d)) (vb_Price (ca_bid c)) ∧
         (flt (ca_weight d) (ca_weight c) ∨ feq (ca_weight d) (ca_weight c) ∧ ca_pos c < ca_pos d)).
Proof.
  intros Hp. unfold extractWinningBid. rewrite winLoop_spec.
  pose proof (bestOf_max _ Hp) as Hmax. destruct (bestOf _) as [c|]; [right|left; eauto 6].
  destruct Hmax as (Hin & Hcp & Hmax). exists c. split; [done|]. split; [done|].
  destruct (candidatesFrom_in _ _ _ _ Hin) as (Hel & _ & Hadm & _). unfold eligible in Hel.
  apply andb_true_iff in Hel as [He Hf]. rewrite negb_true_iff in He, Hf. rewrite <-Hadm in He.
  split; [|split].
  - apply andb_false_iff in He as [He|He]; go_bool; auto.
  - intros Hpos. by rewrite Hpos in Hf.
  - intros d Hd Hne. specialize (Hmax d Hd). rewrite Forall_forall in Hp. destruct (Hp d Hd) as [Hdp Hdw], Hcp as [Hcp Hcw].
    unfold candBetter, bidBetter in Hmax.
    destruct (f_trichotomy _ _ Hdp Hcp) as [H|[H|H]]; [by left| |].
    + right. split; [done|]. rewrite (proj2 (feqb_spec _ _) H) in Hmax. simpl in Hmax.
      destruct (f_trichotomy _ _ Hdw Hcw) as [Hw|[Hw|Hw]]; [by left| |].
      * right. split; [done|]. rewrite (proj2 (feqb_spec _ _) Hw) in Hmax. simpl in Hmax. go_bool.
        assert (ca_pos d ≠ ca_pos c) as Hpne by (intros Heq; apply Hne; by eapply candidatesFrom_pos_inj). lia.
      * exfalso. rewrite feqb_fltb, (proj2 (fltb_spec _ _) Hw) in Hmax by done. simpl in Hmax. congruence.
    + exfalso. rewrite feqb_fltb, (proj2 (fltb_spec _ _) H) in Hmax by done. simpl in Hmax. congruence.
Qed.

Definition sampleBid (id : string) (price : float64) (adm : string) : vBid :=
  {| vb_ID := id; vb_ImpID := "1"; vb_Price := price; vb_AdM := adm; vb_NURL := ""; vb_BURL := "";
     vb_W := 0; vb_H := 0; vb_CrID := ""; vb_DealID := ""; vb_ADomain := [] |}.
Definition sampleResponse : BidResponse :=
  {| br_ID := "auction"; br_SeatBid := [{| vs_Seat := "a"; vs_Bid := [sampleBid "1" f1 "<VAST/>"; sampleBid "2" (flit 3 1) "null"] |};
                                         {| vs_Seat := "b"; vs_Bid := [sampleBid "3" f1 "<VAST/>"] |}] |}.
Lemma winning_bid_witness :
  ∃ c, extractWinningBid (Some sampleResponse) (Some (zeroConfig "p")) = Some (Ok (winningOf c, ca_seat c)) ∧
    win_BidID (winningOf c) = "1".
Proof.
  destruct (winning_bid_is_best sampleResponse (zeroConfig "p")) as [(n & e & b & H & _)|(c & H & _)].
  - vm_compute. repeat constructor.
  - exfalso. vm_compute in H. discriminate.
  - exists c. split; [exact H|]. assert (win_BidID <$> (match extractWinningBid (Some sampleResponse) (Some (zeroConfig "p")) with
      Some (Ok (w, _)) => Some w | _ => None end) = Some "1") as H1 by (vm_compute; reflexivity).
    rewrite H in H1. simpl in H1. by injection H1.
Defined.
