(* ===== verification/VideoWaterfall.v ===== *)
(** * Sources, adapters and the choice among them (endpoints/demand_adapter.go, video_pipeline.go)

    The adapters of the pipeline, one per pair of inbound protocol and demand type, and
    [runDemandWaterfall], which runs the sources of a placement side by side.  What they get from
    outside is the interface [World]: HTTP answers, the XML library, random ids, the exchange.  An
    adapter's win notices are part of its result. *)
From S2P Require Import Prelude GoStrings GoFloat Order GoNet VideoUrls Vast VastCheck VideoDemand.

(** ** The player's request *)
Record PlayerRequest := {
  pr_PlacementID : string;
  pr_PublisherID : string;
  pr_AppBundle : string;
  pr_Domain : string;
  pr_PageURL : string;
  pr_GDPR : string;
  pr_Consent : string;
  pr_CCPA : string;
  pr_COPPA : Z;
  pr_GPP : string;
  pr_GPPSID : string;
  pr_Width : Z;
  pr_Height : Z;
  pr_MinDuration : Z;
  pr_MaxDuration : Z;
  pr_IP : string;
  pr_IPv6 : string;
  pr_UA : string;
  pr_AppName : string;
  pr_AppStoreURL : string;
  pr_DeviceMake : string;
  pr_DeviceModel : string;
  pr_DeviceType : Z;
  pr_DeviceOS : string;
  pr_OSVersion : string;
  pr_IFA : string;
  pr_IFAType : string;
  pr_LMT : Z;
  pr_Language : string;
  pr_CountryCode : string;
  pr_DNT : Z;
  pr_ContentGenre : string;
  pr_ContentLang : string;
  pr_ContentRating : string;
  pr_LiveStream : Z;
  pr_ContentLen : Z;
  pr_ContentTitle : string;
  pr_ContentSeries : string;
  pr_ContentSeason : string;
  pr_ContentURL : string;
  pr_ContentCat : string;
  pr_ContentProdQ : Z;
  pr_SiteName : string;
  pr_SiteCat : string;
  pr_SiteKeywords : string;
  pr_PageRef : string;
  pr_AppVer : string;
  pr_AppID : string;
  pr_Skip : Z;
  pr_StartDelay : Z;
  pr_Secure : Z;
  pr_TMax : Z;
  pr_BCat : string;
  pr_BAdv : string;
  pr_UserID : string
}.
Definition zeroPlayerRequest : PlayerRequest :=   {| pr_PlacementID := ""; pr_PublisherID := ""; pr_AppBundle
     := ""; pr_Domain := ""; pr_PageURL := ""; pr_GDPR := ""; pr_Consent := ""; pr_CCPA := ""; pr_COPPA := 0;
     pr_GPP := ""; pr_GPPSID := ""; pr_Width := 0; pr_Height := 0; pr_MinDuration := 0; pr_MaxDuration := 0;
     pr_IP := ""; pr_IPv6 := ""; pr_UA := ""; pr_AppName := ""; pr_AppStoreURL := ""; pr_DeviceMake := "";
     pr_DeviceModel := ""; pr_DeviceType := 0; pr_DeviceOS := ""; pr_OSVersion := ""; pr_IFA := ""; pr_IFAType
     := ""; pr_LMT := 0; pr_Language := ""; pr_CountryCode := ""; pr_DNT := 0; pr_ContentGenre := "";
     pr_ContentLang := ""; pr_ContentRating := ""; pr_LiveStream := 0; pr_ContentLen := 0; pr_ContentTitle :=
     ""; pr_ContentSeries := ""; pr_ContentSeason := ""; pr_ContentURL := ""; pr_ContentCat := "";
     pr_ContentProdQ := 0; pr_SiteName := ""; pr_SiteCat := ""; pr_SiteKeywords := ""; pr_PageRef := "";
     pr_AppVer := ""; pr_AppID := ""; pr_Skip := 0; pr_StartDelay := 0; pr_Secure := 0; pr_TMax := 0; pr_BCat
     := ""; pr_BAdv := ""; pr_UserID := "" |}.

Inductive InboundProtocol := InboundVAST | InboundORTB.
Inductive DemandType := DemandTypePrebid | DemandTypeVAST | DemandTypeORTB.
Record RouterKey := { rk_Inbound : InboundProtocol; rk_Demand : DemandType }.

Definition resolveDemandType (cfg : AdServerConfig) : DemandType :=
  if cfg_DemandVASTURL cfg ≠s? "" then DemandTypeVAST
  else if cfg_DemandOrtbURL cfg ≠s? "" then DemandTypeORTB
  else DemandTypePrebid.

Record DemandResponse := {
  dr_VASTXml : string;
  dr_BidResp : option BidResponse;
  dr_WinPrice : float64;
  dr_NoFill : bool;
  dr_Bidder : string;
  dr_CrID : string;
  dr_ADomain : list string;
  dr_AuctionID : string;
  dr_BURL : string;
  dr_DealID : string
}.

(** [<?xml version="1.0" encoding="UTF-8"?><VAST version="3.0"></VAST>] *)
Definition emptyVAST : string :=
  "<?xml version=" +:+ quote "1.0" +:+ " encoding=" +:+ quote "UTF-8" +:+ "?><VAST version=" +:+ quote "3.0" +:+ "></VAST>".

(** ** Macros of a demand tag *)
Definition demandMacros (cb : Z) (pr : PlayerRequest) (adsCfg : AdServerConfig) : list (string * string) :=
  let minDur := if 0 <? pr_MinDuration pr then pr_MinDuration pr else cfg_MinDuration adsCfg in
  let maxDur := if 0 <? pr_MaxDuration pr then pr_MaxDuration pr else cfg_MaxDuration adsCfg in
  let wStr := pretty (pr_Width pr) in
  let hStr := pretty (pr_Height pr) in
  let minStr := pretty minDur in
  let maxStr := pretty maxDur in
  let cbStr := pretty cb in
  [("{cb}", cbStr);
   ("{uip}", pr_IP pr);
   ("{ua}", QueryEscape (pr_UA pr));
   ("{app_bundle}", pr_AppBundle pr);
   ("{app_name}", QueryEscape (pr_AppName pr));
   ("{app_store_url}", QueryEscape (pr_AppStoreURL pr));
   ("{device_make}", QueryEscape (pr_DeviceMake pr));
   ("{device_model}", QueryEscape (pr_DeviceModel pr));
   ("{device_type}", pretty (pr_DeviceType pr));
   ("{idfa}", pr_IFA pr);
   ("{ifa}", pr_IFA pr);
   ("{ifa_type}", pr_IFAType pr);
   ("{device_os}", QueryEscape (pr_DeviceOS pr));
   ("{os}", QueryEscape (pr_DeviceOS pr));
   ("{device_osv}", QueryEscape (pr_OSVersion pr));
   ("{osv}", QueryEscape (pr_OSVersion pr));
   ("{version_os}", QueryEscape (pr_OSVersion pr));
   ("{lang}", pr_Language pr);
   ("{language}", pr_Language pr);
   ("{country_code}", pr_CountryCode pr);
   ("{dnt}", pretty (pr_DNT pr));
   ("{lmt}", pretty (pr_LMT pr));
   ("{skip}", pretty (pr_Skip pr));
   ("{coppa}", pretty (pr_COPPA pr));
   ("{us_privacy}", pr_CCPA pr);
   ("{gdpr}", pr_GDPR pr);
   ("{gdpr_consent}", pr_Consent pr);
   ("{content_rating}", QueryEscape (pr_ContentRating pr));
   ("{content_length}", pretty (pr_ContentLen pr));
   ("{w}", wStr);
   ("{h}", hStr);
   ("{width}", wStr);
   ("{height}", hStr);
   ("{min_dur}", minStr);
   ("{max_dur}", maxStr);
   ("{min_duration}", minStr);
   ("{max_duration}", maxStr)].
Definition substituteMacros (cb : Z) (demandURL : string) (pr : PlayerRequest) (adsCfg : AdServerConfig) : string :=
  replaceAll (demandMacros cb pr adsCfg) 0 demandURL.

(** ** VAST documents that are built *)
Record vastImpression := { vi_ID : string; vi_Text : string }.
Record vastMediaFile := { mf_Delivery : string; mf_Type : string; mf_Width : Z; mf_Height : Z; mf_Text : string }.
Record vastLinear := { li_Duration : string; li_TrackingEvents : option (list vastTracking); li_MediaFiles : list vastMediaFile }.
Record vastCreative := { cr_ID : string; cr_Linear : option vastLinear }.
Record vastInline := { in_AdSystem : string; in_AdTitle : string; in_Impression : list vastImpression; in_Creatives : list vastCreative }.
Record vastWrapper := { wr_AdSystem : string; wr_VASTAdTagURI : string; wr_Impression : list vastImpression;
                        wr_TrackingEvents : option (list vastTracking) }.
Record vastAd := { ad_ID : string; ad_Inline : option vastInline; ad_Wrapper : option vastWrapper }.
Record vastRoot := { vr_Version : string; vr_Ad : list vastAd }.

(** ** The world outside *)
Inductive httpAnswer :=
| TransportError
| Answer (status : Z) (body : option string).  (** [None]: the body cannot be read or unzipped *)

Class World := {
  (** [http.Client.Do] for a VAST tag; the first argument numbers the requests of an adapter. *)
  w_get : nat → string → string → httpAnswer;
  (** The OpenRTB request of a placement, posted to its endpoint. *)
  w_post : AdServerConfig → httpAnswer;
  (** [sanitizeBidResponse] and [json.Unmarshal] *)
  w_decode : string → option BidResponse;
  (** [exchange.HoldAuction] on the same request: an error, or a response that may be nil. *)
  w_auction : AdServerConfig → option (option BidResponse);
  (** [xml.Decoder] and [xml.MarshalIndent] *)
  w_tokens : string → list xmlToken;
  w_marshal : vastRoot → option string;
  (** [url.Parse] (scheme and host) and [filepath.Ext] of the path of a media URL *)
  w_parse : string → option (string * string);
  w_ext : string → string;
  (** [strconv.FormatFloat] with precision -1, [fastGenerateID] and the cache buster *)
  w_shortest : float64 → string;
  w_id : nat → string;
  w_cb : Z;
  w_externalURL : string
}.

Inductive demandError :=
| ErrOutbound (e : outboundError)
| ErrHTTP
| ErrNoContent
| ErrStatus (status : Z)
| ErrBody
| ErrDecode
| ErrNotXML
| ErrNotVAST
| ErrTooLarge
| ErrAuction
| ErrEmptyDemandURL
| ErrVAST (e : vastError)
| ErrMarshal
| ErrNoCreative
| ErrNoFill (sources noFill : Z).

(** A call returns a value or an error, or it panics. *)
Inductive outcome (A : Type) : Type :=
| Returns (r : result demandError A)
| Panics.
Arguments Returns {A} r.
Arguments Panics {A}.
Definition obind {A B} (o : outcome A) (k : A → outcome B) : outcome B :=
  match o with Returns (Ok a) => k a | Returns (Err e) => Returns (Err e) | Panics => Panics end.
Notation "'let!' x ':=' r 'in' k" := (obind r (λ x, k))
  (at level 10, x pattern, r at level 100, k at level 200, only parsing) : go_scope.
Definition of_option {A} (o : option A) : outcome A := match o with Some a => Returns (Ok a) | None => Panics end.
Definition of_scan {A} (r : result scanError A) : outcome A := match r with Ok a => Returns (Ok a) | Err _ => Panics end.
Definition ok {A} (a : A) : outcome A := Returns (Ok a).
Definition errs {A} (e : demandError) : outcome A := Returns (Err e).

Section adapters.
Context `{GoCase} `{World}.

Definition maxBody : Z := 1048576.

(** ** Fetching a VAST tag *)
Definition fetchVAST (turn : nat) (vastURL ua : string) : result demandError string :=
  match validateOutboundPublicURL w_parse vastURL with
  | Err e => Err (ErrOutbound e)
  | Ok _ =>
      match w_get turn vastURL ua with
      | TransportError => Err ErrHTTP
      | Answer status body =>
          if negb (status =? 200) then Err (ErrStatus status)
          else match body with
          | None => Err ErrBody
          | Some data =>
              if maxBody <? Z.of_nat (String.length data) then Err ErrTooLarge
              else if TrimSpace data =s? "" then Err ErrBody
              else match w_tokens data with
              | [] => Err ErrNotXML
              | _ =>
                  let probe := if (512 <? String.length data)%nat then str_take 512 data else data in
                  match indexCaseFold probe "<VAST" with
                  | None => Err ErrNotVAST
                  | Some _ => Ok data
                  end
              end
          end
      end
  end.
Definition fetchOption (ua : string) (turn : nat) (uri : string) : option string :=
  match fetchVAST turn uri ua with Ok s => Some s | Err _ => None end.

(** ** The OpenRTB endpoint *)
Definition postToDemandORTB (cfg : AdServerConfig) : result demandError BidResponse :=
  match validateOutboundPublicURL w_parse (cfg_DemandOrtbURL cfg) with
  | Err e => Err (ErrOutbound e)
  | Ok _ =>
      match w_post cfg with
      | TransportError => Err ErrHTTP
      | Answer status body =>
          if status =? 204 then Err ErrNoContent
          else if (status <? 200) || (300 <=? status) then Err (ErrStatus status)
          else match body with
          | None => Err ErrBody
          | Some data =>
              let raw := if maxBody <? Z.of_nat (String.length data) then str_take (Z.to_nat maxBody) data else data in
              if raw =s? "" then Err ErrBody
              else match w_decode raw with None => Err ErrDecode | Some r => Ok r end
          end
      end
  end.
Definition forwardToExchange (cfg : AdServerConfig) : result demandError (option BidResponse) :=
  match w_auction cfg with None => Err ErrAuction | Some r => Ok r end.

(** ** Beacons of a bid *)
Definition buildTrackingEventList (reqBaseURL auctionID bidID bidder placementID crid : string) (price : float64) (adom : list string) :
    list vastTracking :=
  map (λ ev, {| vt_Event := ev;
                vt_Text := buildTrackingURL w_shortest w_externalURL reqBaseURL auctionID bidID bidder placementID ev crid price adom |})
    ["start"; "firstQuartile"; "midpoint"; "thirdQuartile"; "complete"].

(** [fetchTrackedVASTDemand]: the document, the auction id and whether there was no fill. *)
Definition fetchTrackedVASTDemand (pr : PlayerRequest) (cfg : AdServerConfig) : outcome (string * string * bool) :=
  if cfg_DemandVASTURL cfg =s? "" then errs ErrEmptyDemandURL
  else
    let resolvedDemandURL := substituteMacros w_cb (cfg_DemandVASTURL cfg) pr cfg in
    match fetchVAST 0 resolvedDemandURL (pr_UA pr) with
    | Err _ => ok (emptyVAST, "", true)
    | Ok vastXML =>
        if TrimSpace vastXML =s? "" then ok (emptyVAST, "", true)
        else
          let! resolved := of_scan (resolveVASTWrapperChain (λ d, fetchOption (pr_UA pr) (S d)) vastXML 5) in
          if TrimSpace resolved =s? "" then ok (emptyVAST, "", true)
          else
            let auctionID := w_id 0 in
            let bidID := w_id 1 in
            let salePriceCPM := outboundBidFloorCPM (Some cfg) in
            let imp := buildImpressionURL w_shortest w_externalURL (cfg_RequestBaseURL cfg) auctionID bidID "direct-vast" (pr_PlacementID pr) "" salePriceCPM [] in
            let evs := buildTrackingEventList (cfg_RequestBaseURL cfg) auctionID bidID "direct-vast" (pr_PlacementID pr) "" salePriceCPM [] in
            let! v := of_option (injectVASTImpression resolved imp) in
            let! v := of_option (injectVASTTracking v evs) in
            ok (v, auctionID, false)
    end.

(** ** From a winning bid to a document *)
Definition mediaTypeForURL (rawURL : string) : string * string :=
  let ext := ToLower (w_ext rawURL) in
  if ext =s? ".m3u8" then ("application/x-mpegURL", "streaming")
  else if ext =s? ".mpd" then ("application/dash+xml", "streaming")
  else if ext =s? ".webm" then ("video/webm", "progressive")
  else if ext =s? ".mov" then ("video/quicktime", "progressive")
  else if ext =s? ".ts" then ("video/mp2t", "progressive")
  else ("video/mp4", "progressive").

Definition impressionsOf (pbsImpURL resolvedBURL : string) : list vastImpression :=
  {| vi_ID := ""; vi_Text := pbsImpURL |} ::
  (if resolvedBURL ≠s? "" then [{| vi_ID := "burl"; vi_Text := resolvedBURL |}] else []).
(** [xml.Header] *)
Definition xmlHeader : string := "<?xml version=" +:+ quote "1.0" +:+ " encoding=" +:+ quote "UTF-8" +:+ "?>" +:+ String "010" "".
Definition marshalDoc (doc : vastRoot) : outcome string :=
  match w_marshal doc with None => errs ErrMarshal | Some s => ok (xmlHeader +:+ s) end.

Definition buildVASTWrapperDoc (win : WinningBid) (pbsImpURL tagURI resolvedBURL : string) (trackingEvents : list vastTracking) : outcome string :=
  marshalDoc {| vr_Version := "3.0";
    vr_Ad := [{| ad_ID := win_BidID win; ad_Inline := None;
      ad_Wrapper := Some {| wr_AdSystem := "Viadsmedia"; wr_VASTAdTagURI := tagURI;
        wr_Impression := impressionsOf pbsImpURL resolvedBURL;
        wr_TrackingEvents := match trackingEvents with [] => None | _ => Some trackingEvents end |} |}] |}.

Definition buildVASTInlineDoc (pr : PlayerRequest) (win : WinningBid) (bidder reqBaseURL pbsImpURL mediaURL resolvedBURL auctionID : string)
    (adsCfg : AdServerConfig) : outcome string :=
  let events := buildTrackingEventList reqBaseURL auctionID (win_BidID win) bidder (pr_PlacementID pr) (win_CrID win) (win_Price win) (win_ADomain win) in
  let '(mimeType, deliveryMode) := mediaTypeForURL mediaURL in
  marshalDoc {| vr_Version := "3.0";
    vr_Ad := [{| ad_ID := win_BidID win; ad_Wrapper := None;
      ad_Inline := Some {| in_AdSystem := "Viadsmedia"; in_AdTitle := "Video Ad"; in_Impression := impressionsOf pbsImpURL resolvedBURL;
        in_Creatives := [{| cr_ID := win_CrID win;
          cr_Linear := Some {| li_Duration := formatDuration (cfg_MaxDuration adsCfg); li_TrackingEvents := Some events;
            li_MediaFiles := [{| mf_Delivery := deliveryMode; mf_Type := mimeType; mf_Width := win_Width win;
                                 mf_Height := win_Height win; mf_Text := mediaURL |}] |} |}] |} |}] |}.

(** Pixels in a document of demand: the impression, the billing notice and the tracking events. *)
Definition injectPixels (doc pbsImpURL resolvedBURL : string) (trackingEvents : list vastTracking) : outcome string :=
  let! v := of_option (injectVASTImpression doc pbsImpURL) in
  let! v := (if resolvedBURL ≠s? "" then of_option (injectVASTImpressionWithID v resolvedBURL "burl") else ok v) in
  of_option (injectVASTTracking v trackingEvents).

Definition macrosOf (win : WinningBid) (auctionID bidder url : string) : string :=
  resolveAuctionMacros w_shortest url (win_BidID win) (win_CrID win) (win_Price win) auctionID bidder.

(** The result, with the URLs handed to [fireWinNotice]. *)
Definition buildVASTResponse (pr : PlayerRequest) (adsCfg : AdServerConfig) (win : WinningBid) (bidder auctionID : string) :
    list string * outcome string :=
  let resolvedNURL := macrosOf win auctionID bidder (win_NURL win) in
  let fired := if (win_NURL win ≠s? "") && (win_AdM win ≠s? "") then [resolvedNURL] else [] in
  let nurlForWrap := if (win_NURL win ≠s? "") && (win_AdM win =s? "") then resolvedNURL else "" in
  let resolvedBURL := macrosOf win auctionID bidder (win_BURL win) in
  let reqBaseURL := cfg_RequestBaseURL adsCfg in
  let pbsImpURL := buildImpressionURL w_shortest w_externalURL reqBaseURL auctionID (win_BidID win) bidder (pr_PlacementID pr)
                     (win_CrID win) (win_Price win) (win_ADomain win) in
  let trackingEvents := buildTrackingEventList reqBaseURL auctionID (win_BidID win) bidder (pr_PlacementID pr)
                          (win_CrID win) (win_Price win) (win_ADomain win) in
  (fired,
   match classifyAdM (win_AdM win) with
   | adMIsVAST =>
       match validateVASTAdM (w_tokens (win_AdM win)) with
       | Err e => errs (ErrVAST e)
       | Ok _ =>
           let! uri := of_option (extractVASTAdTagURI (win_AdM win)) in
           let! adm := (if uri ≠s? "" then
                          let! resolved := of_scan (resolveVASTWrapperChain (fetchOption (pr_UA pr)) (win_AdM win) 5) in
                          ok (if TrimSpace resolved ≠s? "" then resolved else win_AdM win)
                        else ok (win_AdM win)) in
           injectPixels adm pbsImpURL resolvedBURL trackingEvents
       end
   | adMIsURI =>
       match fetchVAST 0 (win_AdM win) (pr_UA pr) with
       | Ok fetched =>
           if TrimSpace fetched =s? "" then buildVASTWrapperDoc win pbsImpURL (win_AdM win) resolvedBURL trackingEvents
           else
             let! resolved := of_scan (resolveVASTWrapperChain (λ d, fetchOption (pr_UA pr) (S d)) fetched 5) in
             if TrimSpace resolved =s? "" then buildVASTWrapperDoc win pbsImpURL (win_AdM win) resolvedBURL trackingEvents
             else injectPixels resolved pbsImpURL resolvedBURL trackingEvents
       | Err _ => buildVASTWrapperDoc win pbsImpURL (win_AdM win) resolvedBURL trackingEvents
       end
   | adMIsMedia => buildVASTInlineDoc pr win bidder reqBaseURL pbsImpURL (win_AdM win) resolvedBURL auctionID adsCfg
   | adMEmpty =>
       if nurlForWrap ≠s? "" then buildVASTWrapperDoc win pbsImpURL nurlForWrap resolvedBURL trackingEvents
       else errs ErrNoCreative
   end).

(** ** The adapters *)
Definition adapterResult : Type := list string * outcome DemandResponse.
Definition quiet (o : outcome DemandResponse) : adapterResult := ([], o).

Definition noFillResponse (vast auctionID : string) : DemandResponse :=
  {| dr_VASTXml := vast; dr_BidResp := None; dr_WinPrice := f0; dr_NoFill := true; dr_Bidder := ""; dr_CrID := "";
     dr_ADomain := []; dr_AuctionID := auctionID; dr_BURL := ""; dr_DealID := "" |}.
Definition filledVAST (vast : string) (win : WinningBid) (bidder auctionID : string) : DemandResponse :=
  {| dr_VASTXml := vast; dr_BidResp := None; dr_WinPrice := win_Price win; dr_NoFill := false; dr_Bidder := bidder;
     dr_CrID := win_CrID win; dr_ADomain := win_ADomain win; dr_AuctionID := auctionID; dr_BURL := win_BURL win;
     dr_DealID := win_DealID win |}.
(** A proxied response, with the details of the winner if there is one. *)
Definition proxied (bidResp : option BidResponse) (win : option WinningBid) (bidder auctionID : string) (noFill : bool) : DemandResponse :=
  {| dr_VASTXml := ""; dr_BidResp := bidResp;
     dr_WinPrice := match win with Some w => win_Price w | None => f0 end; dr_NoFill := noFill; dr_Bidder := bidder;
     dr_CrID := match win with Some w => win_CrID w | None => "" end;
     dr_ADomain := match win with Some w => win_ADomain w | None => [] end; dr_AuctionID := auctionID;
     dr_BURL := match win with Some w => win_BURL w | None => "" end;
     dr_DealID := match win with Some w => win_DealID w | None => "" end |}.
Definition winPair (r : result winError (WinningBid * string)) : option WinningBid * string :=
  match r with Ok (w, bidder) => (Some w, bidder) | Err _ => (None, "") end.

Definition vastToVASTAdapter (pr : PlayerRequest) (cfg : AdServerConfig) : adapterResult :=
  quiet (let! (vastXML, auctionID, noFill) := fetchTrackedVASTDemand pr cfg in
         ok {| dr_VASTXml := vastXML; dr_BidResp := None;
               dr_WinPrice := if noFill : bool then f0 else outboundBidFloorCPM (Some cfg); dr_NoFill := noFill;
               dr_Bidder := ""; dr_CrID := ""; dr_ADomain := []; dr_AuctionID := auctionID; dr_BURL := ""; dr_DealID := "" |}).

Definition buildFilled (pr : PlayerRequest) (cfg : AdServerConfig) (win : WinningBid) (bidder auctionID : string) : adapterResult :=
  let '(fired, o) := buildVASTResponse pr cfg win bidder auctionID in
  (fired, let! vastXML := o in ok (filledVAST vastXML win bidder auctionID)).

Definition vastToORTBAdapter (pr : PlayerRequest) (cfg : AdServerConfig) : adapterResult :=
  match postToDemandORTB cfg with
  | Err e => quiet (errs e)
  | Ok bidResp =>
      match extractWinningBid (Some bidResp) (Some cfg) with
      | None => quiet Panics
      | Some (Err _) => quiet (ok (noFillResponse emptyVAST (br_ID bidResp)))
      | Some (Ok (win, bidder)) => buildFilled pr cfg win bidder (br_ID bidResp)
      end
  end.

Definition ortbToORTBAdapter (pr : PlayerRequest) (cfg : AdServerConfig) : adapterResult :=
  match postToDemandORTB cfg with
  | Err e => quiet (errs e)
  | Ok bidResp =>
      match extractWinningBid (Some bidResp) (Some cfg) with
      | None => quiet Panics
      | Some r => let '(win, bidder) := winPair r in
                  quiet (ok (proxied (Some bidResp) win bidder (br_ID bidResp) (match win with None => true | Some _ => false end)))
      end
  end.

Definition vastXMLToBidResponseWithPrice (vastXML : string) (price : float64) : BidResponse :=
  let price := if price <f? f0 then f0 else price in
  let '(vastXML, price) := match validateVASTAdM (w_tokens vastXML) with
                           | Err _ => (emptyVAST, f0)
                           | Ok _ => (vastXML, price)
                           end in
  {| br_ID := w_id 2;
     br_SeatBid := [{| vs_Seat := "direct-vast";
       vs_Bid := [{| vb_ID := w_id 3; vb_ImpID := "1"; vb_Price := price; vb_AdM := vastXML; vb_NURL := ""; vb_BURL := "";
                     vb_W := 0; vb_H := 0; vb_CrID := ""; vb_DealID := ""; vb_ADomain := [] |}] |}] |}.

Definition ortbToVASTAdapter (pr : PlayerRequest) (cfg : AdServerConfig) : adapterResult :=
  quiet (let! (vastXML, auctionID, noFill) := fetchTrackedVASTDemand pr cfg in
         let winPrice := if noFill : bool then f0 else outboundBidFloorCPM (Some cfg) in
         ok {| dr_VASTXml := ""; dr_BidResp := Some (vastXMLToBidResponseWithPrice vastXML winPrice);
               dr_WinPrice := winPrice; dr_NoFill := noFill; dr_Bidder := ""; dr_CrID := ""; dr_ADomain := [];
               dr_AuctionID := auctionID; dr_BURL := ""; dr_DealID := "" |}).

Definition vastPrebidAdapter (pr : PlayerRequest) (cfg : AdServerConfig) : adapterResult :=
  match forwardToExchange cfg with
  | Err e => quiet (errs e)
  | Ok bidResp =>
      match extractWinningBid bidResp (Some cfg) with
      | None => quiet Panics
      | Some (Err _) => quiet (ok (noFillResponse emptyVAST (match bidResp with Some r => br_ID r | None => "" end)))
      | Some (Ok (win, bidder)) =>
          match bidResp with
          | Some r => buildFilled pr cfg win bidder (br_ID r)
          | None => quiet Panics
          end
      end
  end.

(** Unlike the adapter for an OpenRTB endpoint, this one never sets [NoFill]; a nil response is
    dereferenced. *)
Definition ortbPrebidAdapter (pr : PlayerRequest) (cfg : AdServerConfig) : adapterResult :=
  match forwardToExchange cfg with
  | Err e => quiet (errs e)
  | Ok bidResp =>
      match extractWinningBid bidResp (Some cfg), bidResp with
      | None, _ => quiet Panics
      | Some _, None => quiet Panics
      | Some r, Some resp => let '(win, bidder) := winPair r in quiet (ok (proxied bidResp win bidder (br_ID resp) false))
      end
  end.

Definition adapterRouter (key : RouterKey) : PlayerRequest → AdServerConfig → adapterResult :=
  match rk_Inbound key, rk_Demand key with
  | InboundVAST, DemandTypeVAST => vastToVASTAdapter
  | InboundVAST, DemandTypeORTB => vastToORTBAdapter
  | InboundVAST, DemandTypePrebid => vastPrebidAdapter
  | InboundORTB, DemandTypeORTB => ortbToORTBAdapter
  | InboundORTB, DemandTypeVAST => ortbToVASTAdapter
  | InboundORTB, DemandTypePrebid => ortbPrebidAdapter
  end.

(** ** The sources of a placement *)
Record demandSource := { ds_cfg : AdServerConfig; ds_key : RouterKey; ds_label : string }.

Definition extraConfig (adsCfg : AdServerConfig) (extra : ExtraDemandCfg) : AdServerConfig :=
  {| cfg_PlacementID := cfg_PlacementID adsCfg; cfg_PublisherID := cfg_PublisherID adsCfg; cfg_ContentURL := cfg_ContentURL adsCfg;
     cfg_DomainOrApp := cfg_DomainOrApp adsCfg; cfg_MinDuration := cfg_MinDuration adsCfg; cfg_MaxDuration := cfg_MaxDuration adsCfg;
     cfg_Protocols := cfg_Protocols adsCfg; cfg_APIs := cfg_APIs adsCfg; cfg_AllowedBidders := cfg_AllowedBidders adsCfg;
     cfg_FloorCPM := cfg_FloorCPM adsCfg;
     cfg_DemandFloorCPM := if f0 <f? ed_FloorCPM extra then ed_FloorCPM extra else cfg_DemandFloorCPM adsCfg;
     cfg_DemandVASTURL := ed_VASTTagURL extra; cfg_DemandOrtbURL := ed_OrtbURL extra;
     cfg_BAdv := match ed_BAdv extra with [] => cfg_BAdv adsCfg | l => l end;
     cfg_BCat := match ed_BCat extra with [] => cfg_BCat adsCfg | l => l end;
     cfg_ExtraDemand := []; cfg_SeatWeights := cfg_SeatWeights adsCfg; cfg_MimeTypes := cfg_MimeTypes adsCfg;
     cfg_Active := cfg_Active adsCfg; cfg_TimeoutMS := cfg_TimeoutMS adsCfg; cfg_RequestBaseURL := cfg_RequestBaseURL adsCfg;
     cfg_OrtbVersion := cfg_OrtbVersion adsCfg; cfg_VideoPlacementType := cfg_VideoPlacementType adsCfg;
     cfg_CampaignID := cfg_CampaignID adsCfg; cfg_AdvertiserID := cfg_AdvertiserID adsCfg; cfg_SellerDomain := cfg_SellerDomain adsCfg;
     cfg_PodSequence := cfg_PodSequence adsCfg; cfg_PodDuration := cfg_PodDuration adsCfg; cfg_MaxSeq := cfg_MaxSeq adsCfg;
     cfg_CompanionType := cfg_CompanionType adsCfg; cfg_CatTax := cfg_CatTax adsCfg |}.

Definition keyFor (inbound : InboundProtocol) (cfg : AdServerConfig) : RouterKey :=
  {| rk_Inbound := inbound; rk_Demand := resolveDemandType cfg |}.
Definition buildDemandSources (adsCfg : AdServerConfig) (inbound : InboundProtocol) : list demandSource :=
  {| ds_cfg := adsCfg; ds_key := keyFor inbound adsCfg; ds_label := "primary" |} ::
  imap (λ i extra, let c := extraConfig adsCfg extra in
          {| ds_cfg := c; ds_key := keyFor inbound c; ds_label := "extra-" +:+ pretty (Z.of_nat i) |}) (cfg_ExtraDemand adsCfg).

(** ** The receive loop *)
Record collected := { co_best : option DemandResponse; co_lastErr : option demandError; co_noFill : Z }.
Definition collectStep (st : collected) (r : result demandError DemandResponse) : collected :=
  match r with
  | Err e => {| co_best := co_best st; co_lastErr := Some e; co_noFill := co_noFill st |}
  | Ok resp =>
      if dr_NoFill resp then {| co_best := co_best st; co_lastErr := co_lastErr st; co_noFill := co_noFill st + 1 |}
      else
        match co_best st with
        | None => {| co_best := Some resp; co_lastErr := co_lastErr st; co_noFill := co_noFill st |}
        | Some b => {| co_best := Some (if dr_WinPrice b <f? dr_WinPrice resp then resp else b);
                       co_lastErr := co_lastErr st; co_noFill := co_noFill st |}
        end
  end.
Definition collectAll (arrivals : list (result demandError DemandResponse)) : collected :=
  foldl collectStep {| co_best := None; co_lastErr := None; co_noFill := 0 |} arrivals.

(** What the call does: it ends as an adapter does, or it waits for a result that is never sent. *)
Inductive waterfall :=
| Ended (o : outcome DemandResponse)
| WaitsForever.

(** A goroutine sends its result unless the adapter panics: [safeGo] recovers, and nothing is sent. *)
Definition sent (o : outcome DemandResponse) : option (result demandError DemandResponse) :=
  match o with Returns r => Some r | Panics => None end.

Definition receiveLoop (sources : nat) (arrivals : list (result demandError DemandResponse)) : waterfall :=
  if (length arrivals <? sources)%nat then WaitsForever
  else
    let st := collectAll arrivals in
    Ended (match co_best st with
           | Some best => ok best
           | None => errs (match co_lastErr st with
                           | Some e => e
                           | None => ErrNoFill (Z.of_nat sources) (co_noFill st)
                           end)
           end).

(** [order] is the order in which the results arrive. *)
Definition runSources (pr : PlayerRequest) (sources : list demandSource) : list (list string * outcome DemandResponse) :=
  map (λ s, adapterRouter (ds_key s) pr (ds_cfg s)) sources.
Definition runDemandWaterfall (order : list (result demandError DemandResponse) → list (result demandError DemandResponse))
    (pr : PlayerRequest) (adsCfg : AdServerConfig) (inbound : InboundProtocol) : list string * waterfall :=
  match cfg_ExtraDemand adsCfg with
  | [] => let '(fired, o) := adapterRouter (keyFor inbound adsCfg) pr adsCfg in (fired, Ended o)
  | _ =>
      let rs := runSources pr (buildDemandSources adsCfg inbound) in
      (concat rs.*1, receiveLoop (length rs) (order (omap sent rs.*2)))
  end.
End adapters.

(** ** Time limits, in nanoseconds *)
Definition millisecond : Z := 1000000.
Definition second : Z := 1000000000.
Definition resolveEndpointTimeout (adsCfg : option AdServerConfig) (pr : option PlayerRequest) : Z :=
  let cfgMS := match adsCfg with Some c => cfg_TimeoutMS c | None => 0 end in
  let prMS := match pr with Some p => pr_TMax p | None => 0 end in
  let tmax := if 0 <? cfgMS then Some (wrap64 (cfgMS * millisecond))
              else if 0 <? prMS then Some (wrap64 (prMS * millisecond)) else None in
  match tmax with
  | None => 5 * second
  | Some tmax =>
      let total := wrap64 (tmax + 2 * second) in
      if total <? 3 * second then 3 * second else total
  end.

(** A context is its deadline, if it has one; [context.WithTimeout] never moves a deadline back. *)
Definition WithTimeout (now : Z) (parent : option Z) (timeout : Z) : option Z :=
  match parent with
  | Some d => Some (if d <? now + timeout then d else now + timeout)
  | None => Some (now + timeout)
  end.
Definition withResolvedTimeout (now : Z) (parent : option Z) (timeout : Z) : option Z :=
  if timeout <=? 0 then parent
  else match parent with
       | Some deadline =>
           let remaining := deadline - now in
           if (0 <? remaining) && (remaining <=? timeout) then parent else WithTimeout now parent timeout
       | None => WithTimeout now parent timeout
       end.

(** ** The choice *)
Definition fills (rs : list (result demandError DemandResponse)) : list DemandResponse :=
  omap (λ r, match r with Ok d => if dr_NoFill d then None else Some d | Err _ => None end) rs.
Definition pays (x b : DemandResponse) : bool := dr_WinPrice b <f? dr_WinPrice x.
Definition pricedResponse (d : DemandResponse) : Prop := is_nan (dr_WinPrice d) = false.

#[export] Instance pays_SWO : SWO pricedResponse pays.
Proof.
  exact (SWO_pull dr_WinPrice (λ x, is_nan x = false) (λ x y, fltb y x) (SWO0 := SWO_flip _ _)).
Qed.

Lemma collectAll_best rs :
  co_best (collectAll rs) = match fills rs with [] => None | d :: ds => Some (running_best pays d ds) end.
Proof.
  unfold collectAll. induction rs as [|r rs IH] using rev_ind; [done|].
  rewrite foldl_snoc. unfold fills in *. rewrite omap_app. unfold collectStep at 1. simpl.
  destruct r as [d|e]; [|by rewrite app_nil_r]. destruct (dr_NoFill d); [by rewrite app_nil_r|].
  rewrite IH. destruct (omap _ rs) as [|x l]; [done|]. simpl. unfold running_best. by rewrite foldl_snoc.
Qed.

Lemma fills_perm rs rs' : rs ≡ₚ rs' → fills rs ≡ₚ fills rs'.
Proof.
  unfold fills. induction 1 as [|x l l' _ IH|x y l|l1 l2 l3 _ IH1 _ IH2]; simpl; try done.
  - destruct x as [d|]; [destruct (dr_NoFill d)|]; by rewrite IH.
  - destruct x as [d|], y as [d'|]; repeat (destruct (dr_NoFill _)); try done. apply Permutation_swap.
  - by rewrite IH1.
Qed.

(** For every order of arrival: with at least one fill the loop returns a fill of the highest price;
    without one it returns an error. *)
Lemma receiveLoop_spec rs arrivals n :
  arrivals ≡ₚ rs → length rs = n → Forall pricedResponse (fills rs) →
  (∃ d, receiveLoop n arrivals = Ended (ok d) ∧ d ∈ fills rs ∧ ∀ x, x ∈ fills rs → pays x d = false) ∨
  (∃ e, receiveLoop n arrivals = Ended (errs e) ∧ fills rs = []).
Proof.
  intros Hp Hn Hpr. unfold receiveLoop. rewrite (Permutation_length Hp), Hn, Nat.ltb_irrefl, collectAll_best.
  pose proof (fills_perm _ _ Hp) as Hf.
  assert (Forall pricedResponse (fills arrivals)) as Hpa by (by rewrite Hf).
  destruct (fills arrivals) as [|d ds] eqn:E.
  - right. eexists. split; [done|]. apply Permutation_nil. by symmetry.
  - left. apply Forall_cons in Hpa as [Hd Hds].
    destruct (running_best_spec pricedResponse pays d ds Hd Hds) as (Hin & _ & Hmax).
    exists (running_best pays d ds). split; [done|]. rewrite <-Hf. split; [done|].
    intros x Hx. apply Hmax. by rewrite Hf.
Qed.

Section properties.
Context `{GoCase} `{World}.

Definition outcomes (pr : PlayerRequest) (cfg : AdServerConfig) (inbound : InboundProtocol) : list (outcome DemandResponse) :=
  (runSources pr (buildDemandSources cfg inbound)).*2.

Lemma omap_sent_cons o os :
  omap sent (o :: os) = match sent o with Some y => y :: omap sent os | None => omap sent os end.
Proof. done. Qed.
Lemma omap_sent_le (os : list (outcome DemandResponse)) : (length (omap sent os) ≤ length os)%nat.
Proof. induction os as [|[r|] os IH]; [done| |]; rewrite omap_sent_cons; cbn [sent length]; lia. Qed.
Lemma omap_sent_length (os : list (outcome DemandResponse)) :
  length (omap sent os) = length os ↔ Panics ∉ os.
Proof.
  induction os as [|o os IH]; [split; [intros _; apply not_elem_of_nil|done]|].
  rewrite omap_sent_cons, not_elem_of_cons, <-IH. destruct o as [r|]; cbn [sent length].
  - split; [intros; split; [done|lia]|intros [_ Hl]; lia].
  - pose proof (omap_sent_le os). split; [lia|by intros [? _]].
Qed.

(** Demand sources are asked side by side; in whatever order their answers arrive, the response is
    one of the highest price among the fills, and there is an error exactly when no source fills.
    (No adapter panics, and prices are numbers.) *)
Theorem waterfall_takes_highest order pr cfg inbound :
  cfg_ExtraDemand cfg ≠ [] → (∀ l, order l ≡ₚ l) → Panics ∉ outcomes pr cfg inbound →
  Forall pricedResponse (fills (omap sent (outcomes pr cfg inbound))) →
  (∃ d, (runDemandWaterfall order pr cfg inbound).2 = Ended (ok d) ∧
     d ∈ fills (omap sent (outcomes pr cfg inbound)) ∧
     ∀ x, x ∈ fills (omap sent (outcomes pr cfg inbound)) → dr_WinPrice d <f? dr_WinPrice x = false) ∨
  (∃ e, (runDemandWaterfall order pr cfg inbound).2 = Ended (errs e) ∧ fills (omap sent (outcomes pr cfg inbound)) = []).
Proof.
  intros Hex Hord Hp Hpr. unfold runDemandWaterfall. destruct (cfg_ExtraDemand cfg) eqn:E; [done|]. simpl snd.
  apply (receiveLoop_spec (omap sent (outcomes pr cfg inbound))); [apply Hord| |done].
  apply omap_sent_length in Hp. rewrite Hp. unfold outcomes. by rewrite length_fmap.
Qed.

(** A panic in one adapter is recovered in its goroutine and nothing is sent for it: the loop, which
    waits for as many results as there are sources, then never returns, whatever the others
    answer. *)
Theorem waterfall_blocks_on_panic order pr cfg inbound :
  cfg_ExtraDemand cfg ≠ [] → (∀ l, order l ≡ₚ l) → Panics ∈ outcomes pr cfg inbound →
  (runDemandWaterfall order pr cfg inbound).2 = WaitsForever.
Proof.
  intros Hex Hord Hp. unfold runDemandWaterfall. destruct (cfg_ExtraDemand cfg) eqn:E; [done|]. simpl snd.
  unfold receiveLoop. fold (outcomes pr cfg inbound). rewrite (Permutation_length (Hord _)).
  assert (length (omap sent (outcomes pr cfg inbound)) < length (outcomes pr cfg inbound))%nat as Hl.
  { pose proof (omap_sent_le (outcomes pr cfg inbound)).
    assert (length (omap sent (outcomes pr cfg inbound)) ≠ length (outcomes pr cfg inbound)); [|lia].
    rewrite omap_sent_length. auto. }
  unfold outcomes in Hl at 2. rewrite length_fmap in Hl. by rewrite (proj2 (Nat.ltb_lt _ _)).
Qed.

(** When the exchange has no bid to offer, the adapter for VAST players reports no fill, and so does
    the one that asks an OpenRTB endpoint; the adapter of the exchange for OpenRTB players reports a
    fill of price zero, which is then counted as an opportunity. *)
Theorem exchange_no_bid_counted_as_fill pr cfg resp :
  w_auction cfg = Some (Some resp) → candidates (Some cfg) (br_SeatBid resp) = [] →
  (∃ d, vastPrebidAdapter pr cfg = ([], ok d) ∧ dr_NoFill d = true) ∧
  (∃ d, ortbPrebidAdapter pr cfg = ([], ok d) ∧ dr_NoFill d = false ∧ dr_WinPrice d = f0 ∧ dr_Bidder d = "").
Proof.
  intros Ha Hc.
  assert (∃ e, extractWinningBid (Some resp) (Some cfg) = Some (Err e)) as [e He].
  { unfold extractWinningBid. rewrite winLoop_spec, Hc. simpl. eauto. }
  unfold vastPrebidAdapter, ortbPrebidAdapter, forwardToExchange. rewrite Ha, He. cbn. split; eauto 6.
Qed.
End properties.

(** ** A world with two OpenRTB endpoints and an exchange without bids *)
Definition demoBid (seat : string) (price : float64) : BidResponse :=
  {| br_ID := "auction-" +:+ seat;
     br_SeatBid := [{| vs_Seat := seat;
       vs_Bid := [{| vb_ID := "bid-" +:+ seat; vb_ImpID := "1"; vb_Price := price; vb_AdM := "movie.mp4";
                     vb_NURL := "https://" +:+ seat +:+ ".example/win?p=${AUCTION_PRICE}"; vb_BURL := "";
                     vb_W := 640; vb_H := 360; vb_CrID := ""; vb_DealID := ""; vb_ADomain := [] |}] |}] |}.
Definition demoWorld (second : float64) (auction : option BidResponse) : World :=
  {| w_get := λ _ _ _, TransportError;
     w_post := λ cfg, Answer 200 (Some (cfg_DemandOrtbURL cfg));
     w_decode := λ url, if url =s? "https://a.example/bid" then Some (demoBid "a" (flit 2 1)) else Some (demoBid "b" second);
     w_auction := λ _, Some auction;
     w_tokens := λ _, [OtherToken];
     w_marshal := λ _, Some "<VAST/>";
     w_parse := λ _, Some ("https", "demand.example");
     w_ext := λ _, ".mp4";
     w_shortest := λ x, FormatFloat_f x 2;
     w_id := λ n, pretty (Z.of_nat n);
     w_cb := 7;
     w_externalURL := "https://exchange.example" |}.
Definition demoExtra (url : string) : ExtraDemandCfg :=
  {| ed_VASTTagURL := ""; ed_OrtbURL := url; ed_FloorCPM := f0; ed_BCat := []; ed_BAdv := [] |}.
(** A placement with one primary endpoint (or none) and one more source. *)
Definition demoConfig (primary extra : string) : AdServerConfig :=
  let z := defaultConfig "placement" in
  {| cfg_PlacementID := "placement"; cfg_PublisherID := "pub"; cfg_ContentURL := ""; cfg_DomainOrApp := "";
     cfg_MinDuration := 5; cfg_MaxDuration := 30; cfg_Protocols := cfg_Protocols z; cfg_APIs := cfg_APIs z;
     cfg_AllowedBidders := []; cfg_FloorCPM := f0; cfg_DemandFloorCPM := f0; cfg_DemandVASTURL := "";
     cfg_DemandOrtbURL := primary; cfg_BAdv := []; cfg_BCat := []; cfg_ExtraDemand := [demoExtra extra];
     cfg_SeatWeights := None; cfg_MimeTypes := []; cfg_Active := true; cfg_TimeoutMS := 0; cfg_RequestBaseURL := "";
     cfg_OrtbVersion := ""; cfg_VideoPlacementType := "instream"; cfg_CampaignID := ""; cfg_AdvertiserID := "adv";
     cfg_SellerDomain := ""; cfg_PodSequence := 0; cfg_PodDuration := 0; cfg_MaxSeq := 0; cfg_CompanionType := []; cfg_CatTax := 0 |}.
Definition twoEndpoints : AdServerConfig := demoConfig "https://a.example/bid" "https://b.example/bid".

Definition endedBidder (w : waterfall) : option string :=
  match w with Ended (Returns (Ok d)) => Some (dr_Bidder d) | _ => None end.

Lemma waterfall_highest_witness :
  endedBidder (runDemandWaterfall (H := ascii_case) (H0 := demoWorld f1 None) reverse zeroPlayerRequest twoEndpoints InboundVAST).2 = Some "a".
Proof.
  destruct (@waterfall_takes_highest ascii_case (demoWorld f1 None) reverse zeroPlayerRequest twoEndpoints InboundVAST)
    as [(d & Hd & Hin & Hmax)|(e & He & Hn)].
  - discriminate.
  - intros l. apply reverse_Permutation.
  - apply omap_sent_length. vm_compute. reflexivity.
  - vm_compute. repeat constructor.
  - rewrite Hd. cbn [endedBidder]. vm_compute in Hd. injection Hd as <-. reflexivity.
  - exfalso. vm_compute in Hn. discriminate.
Defined.

Lemma waterfall_blocks_witness :
  (runDemandWaterfall (H := ascii_case) (H0 := demoWorld f1 None) id zeroPlayerRequest
     (demoConfig "" "https://b.example/bid") InboundORTB).2 = WaitsForever.
Proof.
  apply (@waterfall_blocks_on_panic ascii_case (demoWorld f1 None)).
  - discriminate.
  - intros l. reflexivity.
  - vm_compute. left.
Defined.

Lemma exchange_no_bid_witness :
  let resp := {| br_ID := "auction"; br_SeatBid := [] |} in
  ∃ d, ortbPrebidAdapter (H0 := demoWorld f1 (Some resp)) zeroPlayerRequest (defaultConfig "p") = ([], ok d) ∧ dr_NoFill d = false.
Proof.
  intros resp.
  destruct (@exchange_no_bid_counted_as_fill ascii_case (demoWorld f1 (Some resp)) zeroPlayerRequest (defaultConfig "p") resp)
    as [_ (d & Hd & Hn & _)]; [reflexivity|reflexivity|].
  exists d. split; [exact Hd|exact Hn].
Defined.

(** Two endpoints bid two and one: the response is the first one's, yet both are told that they won,
    because each adapter fires the win notice of its own bid before the prices are compared. *)
Theorem losing_source_gets_win_notice :
  ∃ d, runDemandWaterfall (H := ascii_case) (H0 := demoWorld f1 None) id zeroPlayerRequest twoEndpoints InboundVAST =
    (["https://a.example/win?p=2.00"; "https://b.example/win?p=1.00"], Ended (ok d)) ∧ dr_Bidder d = "a".
Proof. eexists. split; [vm_compute; reflexivity|reflexivity]. Qed.

(** With equal prices the answer that arrives first wins, so the winner depends on the order of
    arrival. *)
Theorem waterfall_tie_by_arrival :
  let run order := endedBidder (runDemandWaterfall (H := ascii_case) (H0 := demoWorld (flit 2 1) None) order
                                  zeroPlayerRequest twoEndpoints InboundVAST).2 in
  run id = Some "a" ∧ run reverse = Some "b".
Proof. split; vm_compute; reflexivity. Qed.

(** ** Time limits *)

(** The time limit of a request: the placement's, else the player's, with two seconds added and three
    at least; five seconds without either.  Multiplication and addition may overflow, and the limit
    stays at three seconds or more even then. *)
Theorem endpoint_timeout_bounds adsCfg pr :
  3 * second ≤ resolveEndpointTimeout adsCfg pr < two63 ∧
  (∀ c, adsCfg = Some c → 0 < cfg_TimeoutMS c → cfg_TimeoutMS c * millisecond + 2 * second < two63 →
     resolveEndpointTimeout adsCfg pr = Z.max (3 * second) (cfg_TimeoutMS c * millisecond + 2 * second)).
Proof.
  unfold resolveEndpointTimeout. split.
  - set (tmax := if 0 <? _ then _ else _). destruct tmax as [t|]; [|unfold second, two63; lia].
    pose proof (wrap64_range (t + 2 * second)) as Hr. unfold int64_range in Hr.
    destruct (Z.ltb_spec (wrap64 (t + 2 * second)) (3 * second)); [unfold second, two63; lia|lia].
  - intros c -> Hpos Hfit. rewrite (proj2 (Z.ltb_lt _ _)) by done.
    rewrite (wrap64_id (cfg_TimeoutMS c * millisecond)) by (unfold int64_range, millisecond, second, two63 in *; lia).
    rewrite wrap64_id by (unfold int64_range, millisecond, second, two63 in *; lia).
    destruct (Z.ltb_spec (cfg_TimeoutMS c * millisecond + 2 * second) (3 * second)); lia.
Qed.

(** The context an endpoint passes on ends at the parent's deadline or after the time limit, whichever
    is first. *)
Theorem resolved_timeout_is_min now parent timeout :
  withResolvedTimeout now parent timeout =
    if timeout <=? 0 then parent
    else Some (match parent with Some d => Z.min d (now + timeout) | None => now + timeout end).
Proof.
  unfold withResolvedTimeout, WithTimeout. destruct (timeout <=? 0); [done|]. destruct parent as [d|]; [|done].
  destruct ((0 <? d - now) && (d - now <=? timeout)) eqn:E.
  - go_bool. f_equal. lia.
  - f_equal. destruct (Z.ltb_spec d (now + timeout)); lia.
Qed.
