(* ===== verification/VideoStats.v ===== *)
(** * Statistics of the video pipeline (endpoints/video_pipeline.go [videoStatsStore],
    video_analytics_clickhouse.go [overviewSummaryFromVideoStats])

    Counters per publisher, per advertiser and per label of seven dimensions, under one lock, with a
    cache of the labels of recent auctions: a beacon that names an auction is credited to the labels
    of its fill.  The store refines a log of events: each bucket is the replay of the events that
    concern its label.  The counters are [int64] and wrap; revenue is [float64]. *)
From S2P Require Import Prelude GoStrings GoFloat Order GoNet VideoUrls Vast VastCheck VideoDemand VideoWaterfall.

Record VideoStats := {
  vs_AdRequests : Z;
  vs_Opportunities : Z;
  vs_Impressions : Z;
  vs_Completes : Z;
  vs_VCR : float64;
  vs_Revenue : float64;
  vs_PublisherRevenue : float64
}.
Definition zeroStats : VideoStats :=
  {| vs_AdRequests := 0; vs_Opportunities := 0; vs_Impressions := 0; vs_Completes := 0; vs_VCR := f0;
     vs_Revenue := f0; vs_PublisherRevenue := f0 |}.
Notation statsMap := (gmap string VideoStats).

Record auctionDimKey := {
  dk_Bidder : string;
  dk_App : string;
  dk_Placement : string;
  dk_Country : string;
  dk_Device : string;
  dk_Format : string;
  dk_DemandCh : string;
  dk_PriceCPM : float64;
  dk_PublisherPriceCPM : float64;
  dk_PublisherID : string;
  dk_AdvertiserID : string;
  dk_born : Z
}.

(** The maps hold pointers that never leave the store: what is handed out are copies, so the maps
    are modelled with values. *)
Record videoStatsStore := {
  byPub : statsMap;
  byAdvertiser : statsMap;
  byBidder : statsMap;
  byApp : statsMap;
  byPlacement : statsMap;
  byCountry : statsMap;
  byDevice : statsMap;
  byFormat : statsMap;
  byDemandChannel : statsMap;
  auctionDims : gmap string auctionDimKey;
  filePath : string;
  startedAt : Z
}.
Definition emptyStore (path : string) (started : Z) : videoStatsStore :=
  {| byPub := ∅; byAdvertiser := ∅; byBidder := ∅; byApp := ∅; byPlacement := ∅; byCountry := ∅; byDevice := ∅;
     byFormat := ∅; byDemandChannel := ∅; auctionDims := ∅; filePath := path; startedAt := started |}.

(** ** Counting *)
Definition countRequest (v : VideoStats) : VideoStats :=
  {| vs_AdRequests := wrap64 (vs_AdRequests v + 1); vs_Opportunities := vs_Opportunities v; vs_Impressions := vs_Impressions v;
     vs_Completes := vs_Completes v; vs_VCR := vs_VCR v; vs_Revenue := vs_Revenue v; vs_PublisherRevenue := vs_PublisherRevenue v |}.
Definition countFill (v : VideoStats) : VideoStats :=
  {| vs_AdRequests := vs_AdRequests v; vs_Opportunities := wrap64 (vs_Opportunities v + 1); vs_Impressions := vs_Impressions v;
     vs_Completes := vs_Completes v; vs_VCR := vs_VCR v; vs_Revenue := vs_Revenue v; vs_PublisherRevenue := vs_PublisherRevenue v |}.
Definition countComplete (v : VideoStats) : VideoStats :=
  {| vs_AdRequests := vs_AdRequests v; vs_Opportunities := vs_Opportunities v; vs_Impressions := vs_Impressions v;
     vs_Completes := wrap64 (vs_Completes v + 1); vs_VCR := vs_VCR v; vs_Revenue := vs_Revenue v; vs_PublisherRevenue := vs_PublisherRevenue v |}.
(** An impression with the advertiser's and the publisher's share; the older entry points add no
    publisher share at all ([None]). *)
Definition countImpression (revenueUSD : float64) (publisherRevenueUSD : option float64) (v : VideoStats) : VideoStats :=
  {| vs_AdRequests := vs_AdRequests v; vs_Opportunities := vs_Opportunities v; vs_Impressions := wrap64 (vs_Impressions v + 1);
     vs_Completes := vs_Completes v; vs_VCR := vs_VCR v; vs_Revenue := fadd (vs_Revenue v) revenueUSD;
     vs_PublisherRevenue := match publisherRevenueUSD with Some p => fadd (vs_PublisherRevenue v) p | None => vs_PublisherRevenue v end |}.
Definition perMille (cpm : float64) : float64 := fdiv cpm (fofZ 1000).

(** [getOrCreate], [getOrCreateAdv] and [getOrCreateDim], followed by a change of the entry. *)
Definition onEntry (f : VideoStats → VideoStats) (m : statsMap) (key : string) : statsMap :=
  <[key := f (default zeroStats (m !! key))]> m.
(** [if v := m[key]; v != nil { ... }] *)
Definition onExisting (f : VideoStats → VideoStats) (m : statsMap) (key : string) : statsMap :=
  match m !! key with Some v => <[key := f v]> m | None => m end.

Definition set_pubs (s : videoStatsStore) (pubs advs : statsMap) : videoStatsStore :=
  {| byPub := pubs; byAdvertiser := advs; byBidder := byBidder s; byApp := byApp s; byPlacement := byPlacement s;
     byCountry := byCountry s; byDevice := byDevice s; byFormat := byFormat s; byDemandChannel := byDemandChannel s;
     auctionDims := auctionDims s; filePath := filePath s; startedAt := startedAt s |}.
(** The seven dimensions changed alike, each at its own label. *)
Definition on_dims (f : statsMap → string → statsMap) (dk : auctionDimKey) (dims : gmap string auctionDimKey) (s : videoStatsStore) : videoStatsStore :=
  {| byPub := byPub s; byAdvertiser := byAdvertiser s; byBidder := f (byBidder s) (dk_Bidder dk); byApp := f (byApp s) (dk_App dk);
     byPlacement := f (byPlacement s) (dk_Placement dk); byCountry := f (byCountry s) (dk_Country dk);
     byDevice := f (byDevice s) (dk_Device dk); byFormat := f (byFormat s) (dk_Format dk);
     byDemandChannel := f (byDemandChannel s) (dk_DemandCh dk); auctionDims := dims; filePath := filePath s; startedAt := startedAt s |}.

(** ** Labels *)
Definition deviceTypeLabel (dt : Z) : string :=
  if dt =? 1 then "Mobile/Tablet" else if dt =? 2 then "Desktop" else if dt =? 3 then "CTV" else if dt =? 4 then "Phone"
  else if dt =? 5 then "Tablet" else if dt =? 6 then "Connected Device" else if dt =? 7 then "Set-Top Box" else "Unknown".
Definition demandChannelLabel (dt : DemandType) : string :=
  match dt with DemandTypeVAST => "VAST Tag" | DemandTypeORTB => "OpenRTB" | DemandTypePrebid => "Prebid" end.
Definition orElse (s d : string) : string := if s =s? "" then d else s.
Definition fillKey (cfg : AdServerConfig) (pr : PlayerRequest) (resp : DemandResponse) (dt : DemandType) (now : Z) : auctionDimKey :=
  {| dk_Bidder := orElse (dr_Bidder resp) "Unknown";
     dk_App := orElse (orElse (pr_AppBundle pr) (pr_Domain pr)) "(unknown)";
     dk_Placement := orElse (cfg_PlacementID cfg) "(unknown)";
     dk_Country := orElse (pr_CountryCode pr) "(unknown)";
     dk_Device := deviceTypeLabel (pr_DeviceType pr);
     dk_Format := orElse (cfg_VideoPlacementType cfg) "(unknown)";
     dk_DemandCh := demandChannelLabel dt;
     dk_PriceCPM := dr_WinPrice resp;
     dk_PublisherPriceCPM := cfg_FloorCPM cfg;
     dk_PublisherID := cfg_PublisherID cfg;
     dk_AdvertiserID := cfg_AdvertiserID cfg;
     dk_born := now |}.

(** ** Operations *)
Definition incDimFill (s : videoStatsStore) (cfg : AdServerConfig) (pr : PlayerRequest) (resp : option DemandResponse) (dt : DemandType) (now : Z) : videoStatsStore :=
  match resp with
  | None => s
  | Some resp =>
      if dr_AuctionID resp =s? "" then s
      else let dk := fillKey cfg pr resp dt now in
           on_dims (onEntry countFill) dk (<[dr_AuctionID resp := dk]> (auctionDims s)) s
  end.
Definition incDimImpression (s : videoStatsStore) (auctionID : string) : videoStatsStore * option auctionDimKey :=
  if auctionID =s? "" then (s, None)
  else match auctionDims s !! auctionID with
       | None => (s, None)
       | Some dk =>
           (on_dims (onExisting (countImpression (perMille (dk_PriceCPM dk)) (Some (perMille (dk_PublisherPriceCPM dk))))) dk (auctionDims s) s, Some dk)
       end.
Definition incDimComplete (s : videoStatsStore) (auctionID : string) : videoStatsStore :=
  if auctionID =s? "" then s
  else match auctionDims s !! auctionID with
       | None => s
       | Some dk => on_dims (onExisting countComplete) dk (auctionDims s) s
       end.

Definition onPub (f : VideoStats → VideoStats) (pubID : string) (s : videoStatsStore) : videoStatsStore :=
  set_pubs s (onEntry f (byPub s) (orElse pubID "unknown")) (byAdvertiser s).
Definition onAdv (f : VideoStats → VideoStats) (advID : string) (s : videoStatsStore) : videoStatsStore :=
  if advID =s? "" then s else set_pubs s (byPub s) (onEntry f (byAdvertiser s) advID).

Definition incRequestBatch (s : videoStatsStore) (pubID advID : string) : videoStatsStore := onAdv countRequest advID (onPub countRequest pubID s).
Definition incFillBatch (s : videoStatsStore) (pubID advID : string) : videoStatsStore := onAdv countFill advID (onPub countFill pubID s).
Definition incRequest (s : videoStatsStore) (pubID : string) : videoStatsStore := onPub countRequest pubID s.
Definition incFill (s : videoStatsStore) (pubID : string) : videoStatsStore := onPub countFill pubID s.
Definition incAdvertiserRequest (s : videoStatsStore) (advID : string) : videoStatsStore := onAdv countRequest advID s.
Definition incAdvertiserFill (s : videoStatsStore) (advID : string) : videoStatsStore := onAdv countFill advID s.
Definition incImpressionBatch (s : videoStatsStore) (pubID advID : string) (advertiserPriceCPM publisherPriceCPM : float64) : videoStatsStore :=
  let f := countImpression (perMille advertiserPriceCPM) (Some (perMille publisherPriceCPM)) in
  onAdv f advID (onPub f pubID s).
Definition incImpression (s : videoStatsStore) (pubID : string) (price : float64) : videoStatsStore :=
  onPub (countImpression (perMille price) None) pubID s.
Definition incAdvertiserImpression (s : videoStatsStore) (advID : string) (price : float64) : videoStatsStore :=
  onAdv (countImpression (perMille price) None) advID s.
Definition incComplete (s : videoStatsStore) (pubID : string) : videoStatsStore := onPub countComplete pubID s.
Definition incAdvertiserComplete (s : videoStatsStore) (advID : string) : videoStatsStore := onAdv countComplete advID s.

(** The eviction of [save]: entries of auctions older than 30 minutes. *)
Definition evictDims (s : videoStatsStore) (now : Z) : videoStatsStore :=
  {| byPub := byPub s; byAdvertiser := byAdvertiser s; byBidder := byBidder s; byApp := byApp s; byPlacement := byPlacement s;
     byCountry := byCountry s; byDevice := byDevice s; byFormat := byFormat s; byDemandChannel := byDemandChannel s;
     auctionDims := filter (λ '(_, dk), ¬ dk_born dk < now - 30 * 60) (auctionDims s);
     filePath := filePath s; startedAt := startedAt s |}.
Definition resetMaps (s : videoStatsStore) : videoStatsStore := emptyStore (filePath s) (startedAt s).

(** ** Snapshots *)
Record VideoStatsPayload := {
  vp_ByPublisher : statsMap;
  vp_ByAdvertiser : statsMap;
  vp_ByBidder : statsMap;
  vp_ByApp : statsMap;
  vp_ByPlacement : statsMap;
  vp_ByCountry : statsMap;
  vp_ByDevice : statsMap;
  vp_ByFormat : statsMap;
  vp_ByDemandChannel : statsMap;
  vp_Total : VideoStats;
  vp_StartedAt : Z
}.
Definition withVCR (v : VideoStats) : VideoStats :=
  {| vs_AdRequests := vs_AdRequests v; vs_Opportunities := vs_Opportunities v; vs_Impressions := vs_Impressions v;
     vs_Completes := vs_Completes v;
     vs_VCR := if 0 <? vs_Impressions v then fmul (fdiv (fofZ (vs_Completes v)) (fofZ (vs_Impressions v))) (fofZ 100) else vs_VCR v;
     vs_Revenue := vs_Revenue v; vs_PublisherRevenue := vs_PublisherRevenue v |}.
(** What the loop over the publishers adds to the total. *)
Definition addTotal (t : VideoStats) (e : string * VideoStats) : VideoStats :=
  let cp := e.2 in
  {| vs_AdRequests := wrap64 (vs_AdRequests t + vs_AdRequests cp); vs_Opportunities := wrap64 (vs_Opportunities t + vs_Opportunities cp);
     vs_Impressions := wrap64 (vs_Impressions t + vs_Impressions cp); vs_Completes := wrap64 (vs_Completes t + vs_Completes cp);
     vs_VCR := vs_VCR t; vs_Revenue := fadd (vs_Revenue t) (vs_Revenue cp); vs_PublisherRevenue := vs_PublisherRevenue t |}.
Definition snapshot `{MapRange} (s : videoStatsStore) : VideoStatsPayload :=
  {| vp_ByPublisher := withVCR <$> byPub s; vp_ByAdvertiser := withVCR <$> byAdvertiser s; vp_ByBidder := withVCR <$> byBidder s;
     vp_ByApp := withVCR <$> byApp s; vp_ByPlacement := withVCR <$> byPlacement s; vp_ByCountry := withVCR <$> byCountry s;
     vp_ByDevice := withVCR <$> byDevice s; vp_ByFormat := withVCR <$> byFormat s; vp_ByDemandChannel := withVCR <$> byDemandChannel s;
     vp_Total := withVCR (foldl addTotal zeroStats (map_range (byPub s)));
     vp_StartedAt := startedAt s |}.

Record VideoOverviewSummary := {
  ov_AdRequests : Z; ov_Opportunities : Z; ov_Impressions : Z; ov_Completes : Z;
  ov_Revenue : float64; ov_PublisherRevenue : float64; ov_Margin : float64; ov_ECPM : float64;
  ov_FillRate : float64; ov_ResponseRate : float64; ov_VCR : float64; ov_Viewability : float64
}.
Definition overviewSummaryFromVideoStats (st : VideoStats) : VideoOverviewSummary :=
  let viewability := fmul (vs_VCR st) (flit 115 100) in
  {| ov_AdRequests := vs_AdRequests st; ov_Opportunities := vs_Opportunities st; ov_Impressions := vs_Impressions st;
     ov_Completes := vs_Completes st; ov_Revenue := vs_Revenue st; ov_PublisherRevenue := vs_PublisherRevenue st;
     ov_Margin := fsub (vs_Revenue st) (vs_PublisherRevenue st);
     ov_ECPM := if 0 <? vs_Impressions st then fmul (fdiv (vs_Revenue st) (fofZ (vs_Impressions st))) (fofZ 1000) else f0;
     ov_FillRate := if 0 <? vs_AdRequests st then fmul (fdiv (fofZ (vs_Opportunities st)) (fofZ (vs_AdRequests st))) (fofZ 100) else f0;
     ov_ResponseRate := if 0 <? vs_Opportunities st then fmul (fdiv (fofZ (vs_Impressions st)) (fofZ (vs_Opportunities st))) (fofZ 100) else f0;
     ov_VCR := vs_VCR st;
     ov_Viewability := if fofZ 100 <f? viewability then fofZ 100 else viewability |}.

(** ** The log behind the store
    A fill, an impression and a completion are credited to the labels of an auction. *)
Inductive dimension := DBidder | DApp | DPlacement | DCountry | DDevice | DFormat | DDemandChannel.
Definition dimMap (s : videoStatsStore) (d : dimension) : statsMap :=
  match d with
  | DBidder => byBidder s | DApp => byApp s | DPlacement => byPlacement s | DCountry => byCountry s
  | DDevice => byDevice s | DFormat => byFormat s | DDemandChannel => byDemandChannel s
  end.
Definition labelOf (dk : auctionDimKey) (d : dimension) : string :=
  match d with
  | DBidder => dk_Bidder dk | DApp => dk_App dk | DPlacement => dk_Placement dk | DCountry => dk_Country dk
  | DDevice => dk_Device dk | DFormat => dk_Format dk | DDemandChannel => dk_DemandCh dk
  end.

Inductive creditKind := CFill | CImpression | CComplete.
Definition credit := (creditKind * auctionDimKey)%type.
(** The effect of one credit on the bucket of its label: only a fill makes a bucket. *)
Definition applyCredit (b : option VideoStats) (c : credit) : option VideoStats :=
  match c.1 with
  | CFill => Some (countFill (default zeroStats b))
  | CImpression => countImpression (perMille (dk_PriceCPM c.2)) (Some (perMille (dk_PublisherPriceCPM c.2))) <$> b
  | CComplete => countComplete <$> b
  end.
Definition replay (l : list credit) : option VideoStats := foldl applyCredit None l.
Definition creditsFor (d : dimension) (label : string) (l : list credit) : list credit :=
  filter (λ c, labelOf c.2 d = label) l.

(** The events of publishers and advertisers; each makes its bucket. *)
Inductive partyEvent := PRequest | PFill | PImpression (revenueUSD : float64) (publisherUSD : option float64) | PComplete.
Definition partyCount (e : partyEvent) : VideoStats → VideoStats :=
  match e with
  | PRequest => countRequest
  | PFill => countFill
  | PImpression r p => countImpression r p
  | PComplete => countComplete
  end.
Definition applyParty (b : option VideoStats) (e : partyEvent) : option VideoStats :=
  Some (partyCount e (default zeroStats b)).
Definition replayParty (l : list partyEvent) : option VideoStats := foldl applyParty None l.
Definition eventsOf (key : string) (l : list (string * partyEvent)) : list partyEvent := (filter (λ e, e.1 = key) l).*2.

(** ** Runs *)
Inductive statsOp :=
| OpFill (cfg : AdServerConfig) (pr : PlayerRequest) (resp : option DemandResponse) (dt : DemandType) (now : Z)
| OpImpression (auctionID : string)
| OpComplete (auctionID : string)
| OpPub (pubID : string) (e : partyEvent)
| OpAdv (advID : string) (e : partyEvent)
| OpEvict (now : Z)
| OpReset.

Definition stepStats (s : videoStatsStore) (o : statsOp) : videoStatsStore :=
  match o with
  | OpFill cfg pr resp dt now => incDimFill s cfg pr resp dt now
  | OpImpression a => (incDimImpression s a).1
  | OpComplete a => incDimComplete s a
  | OpPub p e => onPub (partyCount e) p s
  | OpAdv a e => onAdv (partyCount e) a s
  | OpEvict now => evictDims s now
  | OpReset => resetMaps s
  end.

(** The abstract store: which auctions are known, and the log since the last reset. *)
Record statsLog := {
  lg_cache : gmap string auctionDimKey;
  lg_credits : list credit;
  lg_pubs : list (string * partyEvent);
  lg_advs : list (string * partyEvent)
}.
Definition emptyLog : statsLog := {| lg_cache := ∅; lg_credits := []; lg_pubs := []; lg_advs := [] |}.
Definition addCredit (l : statsLog) (k : creditKind) (auctionID : string) : statsLog :=
  match (if auctionID =s? "" then None else lg_cache l !! auctionID) with
  | Some dk => {| lg_cache := lg_cache l; lg_credits := lg_credits l ++ [(k, dk)]; lg_pubs := lg_pubs l; lg_advs := lg_advs l |}
  | None => l
  end.
Definition stepLog (l : statsLog) (o : statsOp) : statsLog :=
  match o with
  | OpFill cfg pr (Some resp) dt now =>
      if dr_AuctionID resp =s? "" then l
      else addCredit {| lg_cache := <[dr_AuctionID resp := fillKey cfg pr resp dt now]> (lg_cache l);
                        lg_credits := lg_credits l; lg_pubs := lg_pubs l; lg_advs := lg_advs l |} CFill (dr_AuctionID resp)
  | OpFill _ _ None _ _ => l
  | OpImpression a => addCredit l CImpression a
  | OpComplete a => addCredit l CComplete a
  | OpPub p e => {| lg_cache := lg_cache l; lg_credits := lg_credits l; lg_pubs := lg_pubs l ++ [(orElse p "unknown", e)]; lg_advs := lg_advs l |}
  | OpAdv a e => if a =s? "" then l
                 else {| lg_cache := lg_cache l; lg_credits := lg_credits l; lg_pubs := lg_pubs l; lg_advs := lg_advs l ++ [(a, e)] |}
  | OpEvict now => {| lg_cache := filter (λ '(_, dk), ¬ dk_born dk < now - 30 * 60) (lg_cache l);
                      lg_credits := lg_credits l; lg_pubs := lg_pubs l; lg_advs := lg_advs l |}
  | OpReset => emptyLog
  end.

Record refines (s : videoStatsStore) (l : statsLog) : Prop := {
  rf_cache : auctionDims s = lg_cache l;
  rf_dims d label : dimMap s d !! label = replay (creditsFor d label (lg_credits l));
  rf_pubs key : byPub s !! key = replayParty (eventsOf key (lg_pubs l));
  rf_advs key : byAdvertiser s !! key = replayParty (eventsOf key (lg_advs l))
}.

(** *** One step *)
Lemma onEntry_lookup f m key k :
  onEntry f m key !! k = if decide (key = k) then Some (f (default zeroStats (m !! k))) else m !! k.
Proof.
  unfold onEntry. case_decide; [subst; apply lookup_insert_eq|by apply lookup_insert_ne].
Qed.
Lemma onExisting_lookup f m key k : onExisting f m key !! k = if decide (key = k) then f <$> m !! k else m !! k.
Proof.
  unfold onExisting. case_decide; subst.
  - destruct (m !! k) as [v|] eqn:E; simpl; [apply lookup_insert_eq|done].
  - destruct (m !! key); [by apply lookup_insert_ne|done].
Qed.

Lemma dimMap_on_dims f dk dims s d : dimMap (on_dims f dk dims s) d = f (dimMap s d) (labelOf dk d).
Proof. by destruct d. Qed.
Lemma dimMap_set_pubs s p a d : dimMap (set_pubs s p a) d = dimMap s d.
Proof. by destruct d. Qed.

Lemma creditsFor_snoc d label l c :
  creditsFor d label (l ++ [c]) = creditsFor d label l ++ (if decide (labelOf c.2 d = label) then [c] else []).
Proof. unfold creditsFor. rewrite filter_app, filter_cons, filter_nil. done. Qed.
Lemma eventsOf_snoc key l k e :
  eventsOf key (l ++ [(k, e)]) = eventsOf key l ++ (if decide (k = key) then [e] else []).
Proof. unfold eventsOf. rewrite filter_app, filter_cons, filter_nil, fmap_app. simpl. by case_decide. Qed.

(** A credit changes each dimension at its label as the replay does. *)
Lemma credit_refines (f : statsMap → string → statsMap) k dk dims s l :
  (∀ m key x, f m key !! x = if decide (key = x) then applyCredit (m !! x) (k, dk) else m !! x) →
  (∀ d label, dimMap s d !! label = replay (creditsFor d label l)) →
  ∀ d label, dimMap (on_dims f dk dims s) d !! label = replay (creditsFor d label (l ++ [(k, dk)])).
Proof.
  intros Hf Hs d label. rewrite dimMap_on_dims, Hf, creditsFor_snoc. simpl.
  case_decide; [|by rewrite app_nil_r]. unfold replay. rewrite foldl_snoc. by rewrite (Hs d label).
Qed.

Lemma fill_effect k dk m key x : k = CFill →
  onEntry countFill m key !! x = if decide (key = x) then applyCredit (m !! x) (k, dk) else m !! x.
Proof. intros ->. apply onEntry_lookup. Qed.
Lemma impression_effect dk m key x :
  onExisting (countImpression (perMille (dk_PriceCPM dk)) (Some (perMille (dk_PublisherPriceCPM dk)))) m key !! x =
  if decide (key = x) then applyCredit (m !! x) (CImpression, dk) else m !! x.
Proof. apply onExisting_lookup. Qed.
Lemma complete_effect dk m key x :
  onExisting countComplete m key !! x = if decide (key = x) then applyCredit (m !! x) (CComplete, dk) else m !! x.
Proof. apply onExisting_lookup. Qed.

Lemma party_refines m (l : list (string * partyEvent)) e k key :
  m !! key = replayParty (eventsOf key l) →
  onEntry (partyCount e) m k !! key = replayParty (eventsOf key (l ++ [(k, e)])).
Proof.
  intros Hm. rewrite onEntry_lookup, eventsOf_snoc. case_decide; [|by rewrite app_nil_r].
  unfold replayParty. rewrite foldl_snoc, Hm. done.
Qed.

Lemma step_refines s l o : refines s l → refines (stepStats s o) (stepLog l o).
Proof.
  intros [Hc Hd Hp Ha]. destruct o as [cfg pr [resp|] dt now|a|a|p e|a e|now|]; simpl; try (by split).
  - destruct (dr_AuctionID resp =s? "") eqn:E; [by split|]. unfold addCredit. rewrite E. cbn [lg_cache].
    rewrite lookup_insert_eq. split; cbn [lg_cache lg_credits lg_pubs lg_advs]; try done.
    + simpl. by rewrite Hc.
    + apply credit_refines; [|done]. intros. by apply fill_effect.
  - unfold incDimImpression, addCredit. rewrite <-Hc.
    destruct (a =s? ""); [by split|]. destruct (auctionDims s !! a) as [dk|]; [|by split].
    split; simpl; try done. apply credit_refines; [|done]. intros. apply impression_effect.
  - unfold incDimComplete, addCredit. rewrite <-Hc.
    destruct (a =s? ""); [by split|]. destruct (auctionDims s !! a) as [dk|]; [|by split].
    split; simpl; try done. apply credit_refines; [|done]. intros. apply complete_effect.
  - split; simpl; try done. intros key. by apply party_refines.
  - unfold onAdv. destruct (a =s? ""); [by split|]. split; simpl; try done. intros key. by apply party_refines.
  - split; simpl; try done. by rewrite Hc.
  - split; simpl; try done. by destruct d.
Qed.

Lemma run_refines path t ops :
  refines (foldl stepStats (emptyStore path t) ops) (foldl stepLog emptyLog ops).
Proof.
  induction ops as [|o ops IH] using rev_ind; [split; try done; by destruct d|].
  rewrite !foldl_snoc. by apply step_refines.
Qed.

(** *** The log is in order: an impression or a completion comes after the fill of its auction. *)
Definition ordered (l : list credit) : Prop :=
  ∀ i k dk, l !! i = Some (k, dk) → ∃ j, (j ≤ i)%nat ∧ l !! j = Some (CFill, dk).
Definition log_inv (l : statsLog) : Prop :=
  ordered (lg_credits l) ∧ ∀ a dk, lg_cache l !! a = Some dk → (CFill, dk) ∈ lg_credits l.

Lemma ordered_snoc l k dk : ordered l → k = CFill ∨ (CFill, dk) ∈ l → ordered (l ++ [(k, dk)]).
Proof.
  intros Ho Hk i k' dk' [Hi|[Hge Hi]]%lookup_app_Some.
  - destruct (Ho i k' dk' Hi) as (j & Hj & Hlj). exists j. split; [done|]. by apply lookup_app_l_Some.
  - apply list_lookup_singleton_Some in Hi as [Hlen [= <- <-]]. destruct Hk as [->|[j Hj]%list_elem_of_lookup_1].
    + exists i. split; [done|]. by rewrite lookup_app_r, Hlen by lia.
    + exists j. split; [apply lookup_lt_Some in Hj; lia|]. by apply lookup_app_l_Some.
Qed.

Lemma addCredit_inv l k a : log_inv l → log_inv (addCredit l k a).
Proof.
  intros [Ho Hc]. unfold addCredit. destruct (a =s? ""); [by split|].
  destruct (lg_cache l !! a) as [dk|] eqn:E; [|by split]. split; simpl.
  - apply ordered_snoc; [done|]. right. by eapply Hc.
  - intros a' dk' Ha'. apply elem_of_app. left. by eapply Hc.
Qed.

Lemma stepLog_inv l o : log_inv l → log_inv (stepLog l o).
Proof.
  intros [Ho Hc]. destruct o as [cfg pr [resp|] dt now|a|a|p e|a e|now|]; simpl; try (by split).
  - destruct (dr_AuctionID resp =s? "") eqn:E; [by split|]. unfold addCredit. rewrite E. cbn [lg_cache].
    rewrite lookup_insert_eq. split; simpl.
    + apply ordered_snoc; [done|by left].
    + intros a dk Ha. apply lookup_insert_Some in Ha as [[_ <-]|[_ Ha]]; apply elem_of_app;
        [right; by apply list_elem_of_singleton|left; by eapply Hc].
  - by apply addCredit_inv.
  - by apply addCredit_inv.
  - by destruct (a =s? "").
  - split; [done|]. intros a dk [Ha _]%map_lookup_filter_Some. by eapply Hc.
Qed.
Lemma runLog_inv ops : log_inv (foldl stepLog emptyLog ops).
Proof.
  induction ops as [|o ops IH] using rev_ind; [split; [by intros [] ? ?|]|].
  { intros a dk Ha. simpl in Ha. by rewrite lookup_empty in Ha. }
  rewrite foldl_snoc. by apply stepLog_inv.
Qed.

(** *** Exact counts *)
Definition isKind (k : creditKind) (c : credit) : bool :=
  match k, c.1 with CFill, CFill | CImpression, CImpression | CComplete, CComplete => true | _, _ => false end.
Definition countOf (k : creditKind) (l : list credit) : Z := Z.of_nat (length (filter (λ c, isKind k c = true) l)).

Lemma countOf_snoc k l c : countOf k (l ++ [c]) = countOf k l + (if isKind k c then 1 else 0).
Proof.
  unfold countOf. rewrite filter_app, filter_cons, filter_nil, length_app. destruct (isKind k c); simpl; lia.
Qed.
Lemma wrap64_succ z : wrap64 (wrap64 z + 1) = wrap64 (z + 1).
Proof.
  unfold wrap64. f_equal. replace ((z + two63) `mod` two64 - two63 + 1 + two63) with ((z + two63) `mod` two64 + 1) by lia.
  rewrite Zplus_mod_idemp_l. f_equal. lia.
Qed.

(** A bucket that is there counts the credits of its label; it is there once a fill had the label. *)
Definition exact (l : list credit) (b : option VideoStats) : Prop :=
  match b with
  | None => l = []
  | Some v => vs_Opportunities v = wrap64 (countOf CFill l) ∧ vs_Impressions v = wrap64 (countOf CImpression l) ∧
              vs_Completes v = wrap64 (countOf CComplete l) ∧ vs_AdRequests v = 0
  end.

Lemma ordered_prefix l c : ordered (l ++ [c]) → ordered l.
Proof.
  intros Ho i k dk Hi. destruct (Ho i k dk) as (j & Hj & Hlj); [by apply lookup_app_l_Some|].
  exists j. split; [done|]. rewrite lookup_app_l in Hlj; [done|]. apply lookup_lt_Some in Hi. lia.
Qed.
(** The first credit of a label is a fill. *)
Lemma ordered_first d label l c :
  ordered (l ++ [c]) → labelOf c.2 d = label → creditsFor d label l = [] → c.1 = CFill.
Proof.
  intros Ho Hl Hn. destruct c as [k dk]. simpl in *.
  destruct (Ho (length l) k dk) as (j & Hj & Hlj); [by rewrite list_lookup_middle|].
  apply lookup_app_Some in Hlj as [Hlj|[_ Hlj]].
  - exfalso. assert ((CFill, dk) ∈ creditsFor d label l) as Hin.
    { apply list_elem_of_filter. split; [done|by eapply list_elem_of_lookup_2]. }
    rewrite Hn in Hin. by apply elem_of_nil in Hin.
  - apply list_lookup_singleton_Some in Hlj as [_ Hlj]. by simplify_eq.
Qed.

Lemma applyCredit_exact l b c :
  exact l b → (l = [] → c.1 = CFill) → exact (l ++ [c]) (applyCredit b c).
Proof.
  intros Hb Hc. destruct b as [v|]; simpl in Hb.
  - destruct Hb as (H1 & H2 & H3 & H4). destruct c as [[] dk]; simpl; rewrite !countOf_snoc; simpl;
      rewrite ?H1, ?H2, ?H3, ?wrap64_succ, ?Z.add_0_r; done.
  - subst l. specialize (Hc eq_refl). destruct c as [k dk]. simpl in *. subst k. done.
Qed.

Lemma replay_exact d label l : ordered l → exact (creditsFor d label l) (replay (creditsFor d label l)).
Proof.
  induction l as [|c l IH] using rev_ind; intros Ho; [done|].
  specialize (IH (ordered_prefix _ _ Ho)). rewrite creditsFor_snoc. case_decide as Hl; [|by rewrite app_nil_r].
  unfold replay in *. rewrite foldl_snoc. apply applyCredit_exact; [done|]. by eapply ordered_first.
Qed.

(** ** Properties *)

(** C36: The statistics refine a log of events.  After any sequence of operations on a new store (fills,
    beacons, completions, requests, evictions, resets), each bucket of each dimension is the replay
    of the credits of its label, each publisher's and advertiser's entry the replay of its events,
    and the cache of auctions is that of the log. *)
Theorem stats_refine_log path t ops :
  let s := foldl stepStats (emptyStore path t) ops in
  let l := foldl stepLog emptyLog ops in
  auctionDims s = lg_cache l ∧
  (∀ d label, dimMap s d !! label = replay (creditsFor d label (lg_credits l))) ∧
  (∀ key, byPub s !! key = replayParty (eventsOf key (lg_pubs l))) ∧
  (∀ key, byAdvertiser s !! key = replayParty (eventsOf key (lg_advs l))).
Proof. intros s l. destruct (run_refines path t ops) as [H1 H2 H3 H4]. done. Qed.

(** The counters are exact in every dimension: a bucket exists exactly when an auction with its label
    was filled since the last reset, and it counts (modulo 2^64) the fills, the impressions and the
    completions of the auctions with that label.  No impression is lost or made up. *)
Theorem dimension_counts_exact path t ops d label :
  let s := foldl stepStats (emptyStore path t) ops in
  let l := creditsFor d label (lg_credits (foldl stepLog emptyLog ops)) in
  match dimMap s d !! label with
  | None => l = []
  | Some v => vs_Opportunities v = wrap64 (countOf CFill l) ∧ vs_Impressions v = wrap64 (countOf CImpression l) ∧
              vs_Completes v = wrap64 (countOf CComplete l) ∧ vs_AdRequests v = 0
  end.
Proof.
  intros s l. destruct (run_refines path t ops) as [_ H _ _]. unfold s. rewrite H.
  apply (replay_exact d label). apply runLog_inv.
Qed.

(** *** Totals *)
Lemma wrap64_add a b : wrap64 (wrap64 a + b) = wrap64 (a + b).
Proof.
  unfold wrap64. f_equal. replace ((a + two63) `mod` two64 - two63 + b + two63) with ((a + two63) `mod` two64 + b) by lia.
  rewrite Zplus_mod_idemp_l. f_equal. lia.
Qed.
Definition sumOf (f : VideoStats → Z) (l : list (string * VideoStats)) : Z := foldr (λ e acc, f e.2 + acc) 0 l.
Lemma sumOf_perm f l l' : l ≡ₚ l' → sumOf f l = sumOf f l'.
Proof. unfold sumOf. induction 1; simpl; lia. Qed.
Lemma sumOf_snoc f l e : sumOf f (l ++ [e]) = sumOf f l + f e.2.
Proof. unfold sumOf. induction l; simpl; lia. Qed.

Lemma addTotal_counters l :
  let t := foldl addTotal zeroStats l in
  vs_AdRequests t = wrap64 (sumOf vs_AdRequests l) ∧ vs_Opportunities t = wrap64 (sumOf vs_Opportunities l) ∧
  vs_Impressions t = wrap64 (sumOf vs_Impressions l) ∧ vs_Completes t = wrap64 (sumOf vs_Completes l) ∧
  vs_PublisherRevenue t = f0.
Proof.
  induction l as [|e l IH] using rev_ind; [done|]. rewrite !sumOf_snoc, foldl_snoc.
  destruct IH as (H1 & H2 & H3 & H4 & H5). set (u := foldl addTotal zeroStats l) in *. simpl.
  rewrite H1, H2, H3, H4, H5, !wrap64_add. done.
Qed.

(** The totals of a snapshot are the sums over the publishers, whatever the order of the map; the
    publishers' own revenue is not summed, it is zero in the total.  So the margin of the overview
    made from it is the whole revenue. *)
Theorem snapshot_totals `{MapRange} s :
  let t := vp_Total (snapshot s) in
  vs_AdRequests t = wrap64 (sumOf vs_AdRequests (map_to_list (byPub s))) ∧
  vs_Opportunities t = wrap64 (sumOf vs_Opportunities (map_to_list (byPub s))) ∧
  vs_Impressions t = wrap64 (sumOf vs_Impressions (map_to_list (byPub s))) ∧
  vs_Completes t = wrap64 (sumOf vs_Completes (map_to_list (byPub s))) ∧
  vs_PublisherRevenue t = f0 ∧
  ov_PublisherRevenue (overviewSummaryFromVideoStats t) = f0 ∧
  ov_Margin (overviewSummaryFromVideoStats t) = fsub (vs_Revenue t) f0.
Proof.
  intros t. destruct (addTotal_counters (map_range (byPub s))) as (H1 & H2 & H3 & H4 & H5).
  rewrite !(sumOf_perm _ _ _ (map_range_perm (byPub s))) in *.
  assert (vs_PublisherRevenue t = f0) as Hp by exact H5.
  unfold overviewSummaryFromVideoStats. cbn [ov_PublisherRevenue ov_Margin]. rewrite Hp. done.
Qed.

(** ** Persistence
    The stats file as the JSON library reads and writes it.  [omitempty] leaves out an empty map, and
    a zero [PublisherRevenue] with its sign; numbers that are not finite cannot be written. *)
Record videoStatsDisk := {
  dd_ByPub : option statsMap;
  dd_ByAdv : option statsMap;
  dd_ByBidder : option statsMap;
  dd_ByApp : option statsMap;
  dd_ByPlacement : option statsMap;
  dd_ByCountry : option statsMap;
  dd_ByDevice : option statsMap;
  dd_ByFormat : option statsMap;
  dd_ByDemandCh : option statsMap
}.
Definition is_finite (x : float64) : bool := match x with S754_nan | S754_infinity _ => false | _ => true end.
Definition finiteStats (v : VideoStats) : bool := is_finite (vs_VCR v) && is_finite (vs_Revenue v) && is_finite (vs_PublisherRevenue v).
Definition wireStats (v : VideoStats) : VideoStats :=
  {| vs_AdRequests := vs_AdRequests v; vs_Opportunities := vs_Opportunities v; vs_Impressions := vs_Impressions v;
     vs_Completes := vs_Completes v; vs_VCR := vs_VCR v; vs_Revenue := vs_Revenue v;
     vs_PublisherRevenue := if vs_PublisherRevenue v =f? f0 then f0 else vs_PublisherRevenue v |}.
Definition omitEmpty (m : option statsMap) : option statsMap :=
  match m with Some m => if decide (size m = 0%nat) then None else Some m | None => None end.
Definition wireMap (m : option statsMap) : option statsMap := match m with Some m => Some (wireStats <$> m) | None => None end.
Definition mapsOf (d : videoStatsDisk) : list statsMap :=
  default ∅ <$> [dd_ByPub d; dd_ByAdv d; dd_ByBidder d; dd_ByApp d; dd_ByPlacement d; dd_ByCountry d; dd_ByDevice d; dd_ByFormat d; dd_ByDemandCh d].
Definition wireDisk (d : videoStatsDisk) : videoStatsDisk :=
  {| dd_ByPub := wireMap (dd_ByPub d); dd_ByAdv := wireMap (dd_ByAdv d); dd_ByBidder := omitEmpty (wireMap (dd_ByBidder d));
     dd_ByApp := omitEmpty (wireMap (dd_ByApp d)); dd_ByPlacement := omitEmpty (wireMap (dd_ByPlacement d));
     dd_ByCountry := omitEmpty (wireMap (dd_ByCountry d)); dd_ByDevice := omitEmpty (wireMap (dd_ByDevice d));
     dd_ByFormat := omitEmpty (wireMap (dd_ByFormat d)); dd_ByDemandCh := omitEmpty (wireMap (dd_ByDemandCh d)) |}.
Definition diskFinite (d : videoStatsDisk) : Prop := Forall (λ m : statsMap, ∀ k v, m !! k = Some v → finiteStats v = true) (mapsOf d).
Definition diskAscii (d : videoStatsDisk) : Prop := Forall (λ m : statsMap, ∀ k, is_Some (m !! k) → is_ascii k = true) (mapsOf d).

Class StatsCodec := {
  statsDoc : Type;
  marshalDisk : videoStatsDisk → option statsDoc;
  unmarshalDisk : statsDoc → option videoStatsDisk;
  unmarshalLegacy : statsDoc → option statsMap;
  marshal_finite d : is_Some (marshalDisk d) ↔ diskFinite d;
  marshal_round d b : marshalDisk d = Some b → diskAscii d → unmarshalDisk b = Some (wireDisk d)
}.

Section persistence.
Context `{StatsCodec}.
Notation files := (gmap string statsDoc).

(** The maps of a store loaded over [s]; [loadMap] overwrites entry by entry. *)
Definition loadMap (dst : statsMap) (src : option statsMap) : statsMap := default ∅ src ∪ dst.
Definition load (s : videoStatsStore) (fs : files) : videoStatsStore :=
  if filePath s =s? "" then s
  else match fs !! filePath s with
  | None => s
  | Some data =>
      match (match unmarshalDisk data with Some d => match dd_ByPub d with Some _ => Some d | None => None end | None => None end) with
      | Some d =>
          {| byPub := loadMap (byPub s) (dd_ByPub d); byAdvertiser := loadMap (byAdvertiser s) (dd_ByAdv d);
             byBidder := loadMap (byBidder s) (dd_ByBidder d); byApp := loadMap (byApp s) (dd_ByApp d);
             byPlacement := loadMap (byPlacement s) (dd_ByPlacement d); byCountry := loadMap (byCountry s) (dd_ByCountry d);
             byDevice := loadMap (byDevice s) (dd_ByDevice d); byFormat := loadMap (byFormat s) (dd_ByFormat d);
             byDemandChannel := loadMap (byDemandChannel s) (dd_ByDemandCh d); auctionDims := auctionDims s;
             filePath := filePath s; startedAt := startedAt s |}
      | None =>
          match unmarshalLegacy data with
          | None => s
          | Some legacy => set_pubs s (loadMap (byPub s) (Some legacy)) (byAdvertiser s)
          end
      end
  end.
Definition newVideoStatsStore (path : string) (now : Z) (fs : files) : videoStatsStore := load (emptyStore path now) fs.

(** Whether [MkdirAll], [WriteFile] and [Rename] succeed. *)
Record ioOutcome := { io_mkdir : bool; io_write : bool; io_rename : bool }.
Definition diskOf (s : videoStatsStore) : videoStatsDisk :=
  {| dd_ByPub := Some (byPub s); dd_ByAdv := Some (byAdvertiser s); dd_ByBidder := Some (byBidder s); dd_ByApp := Some (byApp s);
     dd_ByPlacement := Some (byPlacement s); dd_ByCountry := Some (byCountry s); dd_ByDevice := Some (byDevice s);
     dd_ByFormat := Some (byFormat s); dd_ByDemandCh := Some (byDemandChannel s) |}.
Definition save (io : ioOutcome) (s : videoStatsStore) (fs : files) (now : Z) : videoStatsStore * files :=
  if filePath s =s? "" then (s, fs)
  else
    let s' := evictDims s now in
    if negb (io_mkdir io) then (s', fs)
    else match marshalDisk (diskOf s) with
    | None => (s', fs)
    | Some data =>
        let tmp := filePath s +:+ ".tmp" in
        if negb (io_write io) then (s', fs)
        else if negb (io_rename io) then (s', <[tmp := data]> fs)
        else (s', <[filePath s := data]> (delete tmp fs))
    end.
Definition reset (s : videoStatsStore) (fs : files) : videoStatsStore * files :=
  (resetMaps s, if filePath s ≠s? "" then delete (filePath s +:+ ".tmp") (delete (filePath s) fs) else fs).

(** Entries that JSON can hold: finite, and no negative zero where zero is left out. *)
Definition storable (m : statsMap) : Prop :=
  (∀ k v, m !! k = Some v → finiteStats v = true ∧ wireStats v = v) ∧ (∀ k, is_Some (m !! k) → is_ascii k = true).
Definition storeMaps (s : videoStatsStore) : list statsMap :=
  [byPub s; byAdvertiser s; byBidder s; byApp s; byPlacement s; byCountry s; byDevice s; byFormat s; byDemandChannel s].

Lemma loadMap_wire m : (∀ k v, m !! k = Some v → wireStats v = v) → loadMap ∅ (Some (wireStats <$> m)) = m.
Proof.
  intros Hm. unfold loadMap. simpl. rewrite (right_id_L ∅ (∪)). apply map_eq. intros k.
  rewrite lookup_fmap. destruct (m !! k) as [v|] eqn:E; simpl; [|done]. by rewrite (Hm k v E).
Qed.
Lemma loadMap_omit m : loadMap ∅ (omitEmpty (Some m)) = loadMap ∅ (Some m).
Proof. unfold loadMap, omitEmpty. case_decide as Hs; [|done]. apply map_size_empty_iff in Hs. by subst. Qed.

(** Statistics survive a restart: after a save that succeeds, a new store on the same path has all
    nine maps as they were, provided every number is finite and names are ASCII. *)
Theorem stats_survive_restart s fs now started :
  filePath s ≠ "" → Forall storable (storeMaps s) →
  let fs' := (save {| io_mkdir := true; io_write := true; io_rename := true |} s fs now).2 in
  storeMaps (newVideoStatsStore (filePath s) started fs') = storeMaps s.
Proof.
  intros Hp Hst fs'. unfold fs', save, newVideoStatsStore, load. cbn [filePath emptyStore].
  rewrite (proj2 (String.eqb_neq _ _) Hp). cbn [io_mkdir io_write io_rename negb].
  assert (mapsOf (diskOf s) = storeMaps s) as Hmaps by done.
  destruct (proj2 (marshal_finite (diskOf s))) as [data Hdata].
  { unfold diskFinite. rewrite Hmaps. eapply Forall_impl; [exact Hst|]. intros m [Hm _] k v Hk. by apply (Hm k v). }
  assert (unmarshalDisk data = Some (wireDisk (diskOf s))) as Hun.
  { eapply marshal_round; [done|]. unfold diskAscii. rewrite Hmaps. eapply Forall_impl; [exact Hst|]. by intros m []. }
  rewrite Hdata. simpl snd. rewrite lookup_insert_eq, Hun. cbn [wireDisk diskOf dd_ByPub wireMap].
  unfold storeMaps in *. cbn [byPub byAdvertiser byBidder byApp byPlacement byCountry byDevice byFormat byDemandChannel emptyStore
    dd_ByPub dd_ByAdv dd_ByBidder dd_ByApp dd_ByPlacement dd_ByCountry dd_ByDevice dd_ByFormat dd_ByDemandCh wireMap wireDisk diskOf].
  rewrite !loadMap_omit. rewrite !Forall_cons in Hst. destruct_and! Hst.
  rewrite !loadMap_wire; [done|..]; intros k v Hk; match goal with H : storable ?m, Hk : ?m !! _ = _ |- _ => by apply (proj1 H k v) end.
Qed.

(** A revenue that is not a number stays so, and as long as it is there nothing is saved. *)
Lemma applyParty_nan b e :
  (∃ v, b = Some v ∧ vs_Revenue v = S754_nan) → ∃ v, applyParty b e = Some v ∧ vs_Revenue v = S754_nan.
Proof.
  intros (v & -> & Hv). unfold applyParty. eexists. split; [done|]. simpl.
  destruct e; simpl; rewrite ?Hv; [done..| |done]. apply fadd_nan_l.
Qed.
Lemma step_nan s o pub :
  o ≠ OpReset → (∃ v, byPub s !! pub = Some v ∧ vs_Revenue v = S754_nan) →
  ∃ v, byPub (stepStats s o) !! pub = Some v ∧ vs_Revenue v = S754_nan.
Proof.
  intros Ho Hv. destruct o as [cfg pr [resp|] dt now|a|a|p e|a e|now|]; simpl; try done.
  - by destruct (dr_AuctionID resp =s? "").
  - unfold incDimImpression. destruct (a =s? ""); [done|]. by destruct (auctionDims s !! a).
  - unfold incDimComplete. destruct (a =s? ""); [done|]. by destruct (auctionDims s !! a).
  - rewrite onEntry_lookup. case_decide; [|done]. exact (applyParty_nan _ e Hv).
  - unfold onAdv. by destruct (a =s? "").
Qed.
Lemma run_nan s ops pub :
  OpReset ∉ ops → (∃ v, byPub s !! pub = Some v ∧ vs_Revenue v = S754_nan) →
  ∃ v, byPub (foldl stepStats s ops) !! pub = Some v ∧ vs_Revenue v = S754_nan.
Proof.
  revert s. induction ops as [|o ops IH]; intros s Hno Hv; [done|]. apply not_elem_of_cons in Hno as [Ho Hno].
  simpl. apply IH; [done|]. by apply step_nan.
Qed.
Lemma save_nan io s fs now pub v :
  byPub s !! pub = Some v → vs_Revenue v = S754_nan → (save io s fs now).2 = fs.
Proof.
  intros Hv Hn. unfold save. destruct (filePath s =s? ""); [done|]. destruct (negb (io_mkdir io)); [done|].
  destruct (marshalDisk (diskOf s)) as [data|] eqn:E; [|done]. exfalso.
  assert (diskFinite (diskOf s)) as Hf by (apply marshal_finite; eauto).
  unfold diskFinite, mapsOf in Hf. simpl in Hf. apply Forall_inv in Hf. specialize (Hf pub v Hv).
  unfold finiteStats in Hf. rewrite Hn in Hf. by rewrite andb_false_r in Hf.
Qed.
End persistence.

(** *** A codec
    The document is the value itself as it would be read back. *)
Definition diskFiniteb (d : videoStatsDisk) : bool :=
  forallb (λ m, forallb (λ kv, finiteStats kv.2) (map_to_list (m : statsMap))) (mapsOf d).
Lemma diskFiniteb_spec d : diskFiniteb d = true ↔ diskFinite d.
Proof.
  unfold diskFiniteb, diskFinite. rewrite forallb_forall, Forall_forall.
  assert (∀ m : statsMap, forallb (λ kv, finiteStats kv.2) (map_to_list m) = true ↔ ∀ k v, m !! k = Some v → finiteStats v = true) as Hm.
  { intros m. rewrite forallb_forall. split.
    - intros H k v Hk. apply (H (k, v)). apply list_elem_of_In. by apply elem_of_map_to_list.
    - intros H [k v] Hin. apply list_elem_of_In, elem_of_map_to_list in Hin. by apply (H k v). }
  split; intros H m Hin; apply Hm, H; by apply list_elem_of_In.
Qed.
#[refine] Definition value_codec : StatsCodec :=
  {| statsDoc := videoStatsDisk;
     marshalDisk := λ d, if diskFiniteb d then Some (wireDisk d) else None;
     unmarshalDisk := λ b, Some b;
     unmarshalLegacy := λ _, None |}.
Proof.
  - intros d. rewrite <-diskFiniteb_spec. by destruct (diskFiniteb d); split.
  - intros d b Hb _. destruct (diskFiniteb d); by simplify_eq.
Defined.

Lemma stats_survive_witness :
  let s := onPub countRequest "pub" (emptyStore "stats.json" 5) in
  filePath s ≠ "" ∧
  storeMaps (newVideoStatsStore (H := value_codec) "stats.json" 9
    (save (H := value_codec) {| io_mkdir := true; io_write := true; io_rename := true |} s ∅ 7).2) = storeMaps s.
Proof.
  intros s. split; [discriminate|].
  apply (@stats_survive_restart value_codec s ∅ 7 9); [discriminate|].
  repeat (apply Forall_cons_2 || apply Forall_nil_2).
  all: split; [intros k v Hk|intros k [v Hk]].
  all: try (vm_compute in Hk; discriminate Hk).
  all: unfold s, onPub in Hk; cbn [set_pubs byPub] in Hk; unfold onEntry in Hk.
  - apply lookup_insert_Some in Hk as [[<- <-]|[_ Hk]]; [split; reflexivity|vm_compute in Hk; discriminate Hk].
  - apply lookup_insert_Some in Hk as [[<- <-]|[_ Hk]]; [reflexivity|vm_compute in Hk; discriminate Hk].
Defined.
