(* ===== verification/VideoEndpoints.v ===== *)
(** * The handlers of the video pipeline (endpoints/video_pipeline.go)

    One state for what the handlers share: configurations, the ring of events, the statistics, the
    deduper of impressions, billing notices that wait for an impression, and win notices that were
    fired.  A handler maps a request and the state to a response and a state; [Crash] is a panic,
    which the HTTP server recovers, and [Hangs] a handler that never answers; both keep the state
    that was reached.  Requests to notice URLs are collected in [h_notices].  Metrics sent to
    ClickHouse and the bid report are left out, and [dashDB] is off, so that configurations are in a
    file.  What the handlers keep is compared with a journal of the requests they served. *)
From S2P Require Import Prelude GoStrings GoFloat Order GoNet VideoUrls Vast VastCheck VideoDemand VideoWaterfall VideoTracking VideoStats.

Record pendingBURL := { pb_URL : string; pb_ExpiresAt : Z }.
Record handler := {
  h_configs : configStore;
  h_tracking : trackingStore;
  h_stats : videoStatsStore;
  h_firedImpressions : list (gmap impressionKey Z);
  h_pendingBURLs : gmap impressionKey pendingBURL;
  h_firedNURLs : gmap string Z;
  h_notices : list string
}.
(** [NewVideoPipelineHandler]: the configurations and statistics of the data directory. *)
Definition newHandler `{StatsCodec} (configs : configStore) (statsFile : string) (now : Z) (fs : gmap string statsDoc) : handler :=
  {| h_configs := configs; h_tracking := zeroStore; h_stats := newVideoStatsStore statsFile now fs;
     h_firedImpressions := newImpressionDeduper; h_pendingBURLs := ∅; h_firedNURLs := ∅; h_notices := [] |}.

Definition with_tracking (t : trackingStore) (h : handler) : handler :=
  {| h_configs := h_configs h; h_tracking := t; h_stats := h_stats h; h_firedImpressions := h_firedImpressions h;
     h_pendingBURLs := h_pendingBURLs h; h_firedNURLs := h_firedNURLs h; h_notices := h_notices h |}.
Definition with_stats (s : videoStatsStore) (h : handler) : handler :=
  {| h_configs := h_configs h; h_tracking := h_tracking h; h_stats := s; h_firedImpressions := h_firedImpressions h;
     h_pendingBURLs := h_pendingBURLs h; h_firedNURLs := h_firedNURLs h; h_notices := h_notices h |}.
Definition with_fired (d : list (gmap impressionKey Z)) (h : handler) : handler :=
  {| h_configs := h_configs h; h_tracking := h_tracking h; h_stats := h_stats h; h_firedImpressions := d;
     h_pendingBURLs := h_pendingBURLs h; h_firedNURLs := h_firedNURLs h; h_notices := h_notices h |}.
Definition with_pending (p : gmap impressionKey pendingBURL) (h : handler) : handler :=
  {| h_configs := h_configs h; h_tracking := h_tracking h; h_stats := h_stats h; h_firedImpressions := h_firedImpressions h;
     h_pendingBURLs := p; h_firedNURLs := h_firedNURLs h; h_notices := h_notices h |}.
Definition with_notices (n : gmap string Z) (l : list string) (h : handler) : handler :=
  {| h_configs := h_configs h; h_tracking := h_tracking h; h_stats := h_stats h; h_firedImpressions := h_firedImpressions h;
     h_pendingBURLs := h_pendingBURLs h; h_firedNURLs := n; h_notices := l |}.
Definition with_configs (c : configStore) (h : handler) : handler :=
  {| h_configs := c; h_tracking := h_tracking h; h_stats := h_stats h; h_firedImpressions := h_firedImpressions h;
     h_pendingBURLs := h_pendingBURLs h; h_firedNURLs := h_firedNURLs h; h_notices := h_notices h |}.

(** [strconv.ParseFloat] (its value; errors are ignored by the callers).  It reads NaN. *)
Class FloatParser := { ParseFloat : string → float64; ParseFloat_NaN : ParseFloat "NaN" = S754_nan }.

Inductive response :=
| BadRequest
| Pixel
| VASTDoc (xml : string)
| NoContent
| BidJSON (resp : option BidResponse)
| Configs (l : list AdServerConfig)
| Created (c : AdServerConfig)
| NotFound
| ResetDone
| MethodNotAllowed.
(** How a call of a handler ends. *)
Inductive handled :=
| Responds (r : response) (h : handler)
| Crash (h : handler)
| Hangs (h : handler).
Definition stateOf (r : handled) : handler := match r with Responds _ h | Crash h | Hangs h => h end.
Definition answers (r : handled) : bool := match r with Responds _ _ => true | _ => false end.

Definition nsPerSecond : Z := 1000000000.
Definition unixSeconds (now : Z) : Z := now / nsPerSecond.

Section handlers.
Context `{GoCase} `{World} `{FloatParser}.

(** ** Notices *)
Definition fireWinNotice (now : Z) (h : handler) (nurl : string) : handler :=
  if nurl =s? "" then h
  else match validateOutboundPublicURL w_parse nurl with
  | Err _ => h
  | Ok _ =>
      match h_firedNURLs h !! nurl with
      | Some _ => h
      | None => with_notices (<[nurl := now]> (h_firedNURLs h)) (h_notices h ++ [nurl]) h
      end
  end.
Definition fireBillingNotice (h : handler) (burl : string) : handler :=
  if burl =s? "" then h
  else match validateOutboundPublicURL w_parse burl with
  | Err _ => h
  | Ok _ => with_notices (h_firedNURLs h) (h_notices h ++ [burl]) h
  end.

(** ** Beacons *)
Definition paramPrice (q : list (string * string)) : float64 :=
  if Get q "price" ≠s? "" then ParseFloat (Get q "price") else f0.

Definition beaconEvent (q : list (string * string)) (now : Z) : TrackingEvent :=
  {| ev_AuctionID := Get q "auction_id"; ev_BidID := Get q "bid_id"; ev_Bidder := Get q "bidder";
     ev_PlacementID := Get q "placement_id"; ev_Event := Get q "event"; ev_CrID := Get q "crid"; ev_Price := paramPrice q;
     ev_ADomain := Get q "adom"; ev_ReceivedAt := now |}.

Definition TrackingEndpoint (now : Z) (h : handler) (q : list (string * string)) : handled :=
  let ev := beaconEvent q now in
  if (ev_AuctionID ev =s? "") || (ev_BidID ev =s? "") || (ev_Event ev =s? "") then Responds BadRequest h
  else match record trackingStoreMaxEvents (h_tracking h) ev with
  | None => Crash h
  | Some t =>
      let h := with_tracking t h in
      let cfg := resolveAdServerConfig (h_configs h) (ev_PlacementID ev) in
      let h := if ev_Event ev =s? EventComplete then
                 let s := incComplete (h_stats h) (cfg_PublisherID cfg) in
                 let s := incAdvertiserComplete s (cfg_AdvertiserID cfg) in
                 with_stats (incDimComplete s (ev_AuctionID ev)) h
               else h in
      Responds Pixel h
  end.

(** The part of [ImpressionEndpoint] that credits the statistics: the store, and the cached labels. *)
Definition creditImpression (s : videoStatsStore) (configs : configStore) (auctionID placementID : string) (urlPrice : float64) :
    videoStatsStore * option auctionDimKey :=
  let '(s, dk) := incDimImpression s auctionID in
  match dk with
  | Some k => (incImpressionBatch s (dk_PublisherID k) (dk_AdvertiserID k) (dk_PriceCPM k) (dk_PublisherPriceCPM k), dk)
  | None =>
      let cfg := resolveAdServerConfig configs placementID in
      (incImpressionBatch s (cfg_PublisherID cfg) (cfg_AdvertiserID cfg) urlPrice (cfg_FloorCPM cfg), dk)
  end.

Definition impressionEvent (q : list (string * string)) (dk : option auctionDimKey) (now : Z) : TrackingEvent :=
  {| ev_AuctionID := Get q "auction_id"; ev_BidID := Get q "bid_id";
     ev_Bidder := match dk with Some k => orElse (dk_Bidder k) (Get q "bidder") | None => Get q "bidder" end;
     ev_PlacementID := match dk with Some k => orElse (dk_Placement k) (Get q "placement_id") | None => Get q "placement_id" end;
     ev_Event := EventImpression; ev_CrID := Get q "crid";
     ev_Price := match dk with Some k => dk_PriceCPM k | None => paramPrice q end;
     ev_ADomain := Get q "adom"; ev_ReceivedAt := now |}.

(** The billing notice that waits for this impression, when there is one. *)
Definition billPending (now : Z) (h : handler) (key : impressionKey) : handler :=
  match h_pendingBURLs h !! key with
  | Some pb =>
      let h := with_pending (delete key (h_pendingBURLs h)) h in
      if now <? pb_ExpiresAt pb then fireBillingNotice h (pb_URL pb) else h
  | None => h
  end.

Definition ImpressionEndpoint (now : Z) (h : handler) (q : list (string * string)) : handled :=
  let auctionID := Get q "auction_id" in
  let bidID := Get q "bid_id" in
  if (auctionID =s? "") || (bidID =s? "") then Responds BadRequest h
  else
    let key := {| ik_AuctionID := auctionID; ik_BidID := bidID |} in
    match SeenOrAdd (h_firedImpressions h) key (unixSeconds now) with
    | None => Crash h
    | Some (true, d) => Responds Pixel (with_fired d h)
    | Some (false, d) =>
        let h := with_fired d h in
        let '(s, dk) := creditImpression (h_stats h) (h_configs h) auctionID (Get q "placement_id") (paramPrice q) in
        match record trackingStoreMaxEvents (h_tracking h) (impressionEvent q dk now) with
        | None => Crash (with_stats (incDimImpression (h_stats h) auctionID).1 h)
        | Some t =>
            let h := with_tracking t (with_stats s h) in
            let h := billPending now h key in
            Responds Pixel h
        end
    end.

(** ** Ad requests
    [pr] is the parsed request and [base] the scheme and host it came to. *)
Definition withBaseURL (cfg : AdServerConfig) (base : string) : AdServerConfig :=
  {| cfg_PlacementID := cfg_PlacementID cfg; cfg_PublisherID := cfg_PublisherID cfg; cfg_ContentURL := cfg_ContentURL cfg;
     cfg_DomainOrApp := cfg_DomainOrApp cfg; cfg_MinDuration := cfg_MinDuration cfg; cfg_MaxDuration := cfg_MaxDuration cfg;
     cfg_Protocols := cfg_Protocols cfg; cfg_APIs := cfg_APIs cfg; cfg_AllowedBidders := cfg_AllowedBidders cfg;
     cfg_FloorCPM := cfg_FloorCPM cfg; cfg_DemandFloorCPM := cfg_DemandFloorCPM cfg; cfg_DemandVASTURL := cfg_DemandVASTURL cfg;
     cfg_DemandOrtbURL := cfg_DemandOrtbURL cfg; cfg_BAdv := cfg_BAdv cfg; cfg_BCat := cfg_BCat cfg; cfg_ExtraDemand := cfg_ExtraDemand cfg;
     cfg_SeatWeights := cfg_SeatWeights cfg; cfg_MimeTypes := cfg_MimeTypes cfg; cfg_Active := cfg_Active cfg;
     cfg_TimeoutMS := cfg_TimeoutMS cfg; cfg_RequestBaseURL := base; cfg_OrtbVersion := cfg_OrtbVersion cfg;
     cfg_VideoPlacementType := cfg_VideoPlacementType cfg; cfg_CampaignID := cfg_CampaignID cfg; cfg_AdvertiserID := cfg_AdvertiserID cfg;
     cfg_SellerDomain := cfg_SellerDomain cfg; cfg_PodSequence := cfg_PodSequence cfg; cfg_PodDuration := cfg_PodDuration cfg;
     cfg_MaxSeq := cfg_MaxSeq cfg; cfg_CompanionType := cfg_CompanionType cfg; cfg_CatTax := cfg_CatTax cfg |}.

(** What a response that is a fill does to the statistics. *)
Definition countFilled (now : Z) (h : handler) (adsCfg : AdServerConfig) (pr : PlayerRequest) (resp : DemandResponse) : handler :=
  if dr_NoFill resp then h
  else
    let s := incFillBatch (h_stats h) (cfg_PublisherID adsCfg) (cfg_AdvertiserID adsCfg) in
    with_stats (incDimFill s adsCfg pr (Some resp) (resolveDemandType adsCfg) (unixSeconds now)) h.

(** The common start of both endpoints: the configuration in force, the counted request and the
    waterfall with its win notices. *)
Definition runDemand order (now : Z) (h : handler) (pr : PlayerRequest) (adsCfg : AdServerConfig) (inbound : InboundProtocol) : handler * waterfall :=
  let h := with_stats (incRequestBatch (h_stats h) (cfg_PublisherID adsCfg) (cfg_AdvertiserID adsCfg)) h in
  let '(fired, w) := runDemandWaterfall order pr adsCfg inbound in
  (foldl (fireWinNotice now) h fired, w).

Definition VASTEndpoint order (now : Z) (h : handler) (pr : PlayerRequest) (base : string) : handled :=
  let cfg := resolveAdServerConfig (h_configs h) (pr_PlacementID pr) in
  if negb (cfg_Active cfg) then Responds (VASTDoc emptyVAST) h
  else
    let adsCfg := withBaseURL cfg base in
    let '(h, w) := runDemand order now h pr adsCfg InboundVAST in
    match w with
    | WaitsForever => Hangs h
    | Ended Panics => Crash h
    | Ended (Returns (Err _)) => Responds (VASTDoc emptyVAST) h
    | Ended (Returns (Ok resp)) => Responds (VASTDoc (dr_VASTXml resp)) (countFilled now h adsCfg pr resp)
    end.

(** The response an OpenRTB player sees: placeholders are blanked, and of the winning bid the
    billing URL and, when it has a creative, the win notice. *)
Definition blankBid (win : WinningBid) (bidder : string) (hasAdM : bool) (seat : string) (b : vBid) : vBid :=
  let hit := (vb_ID b =s? win_BidID win) && ((bidder =s? "") || (seat =s? bidder)) in
  {| vb_ID := vb_ID b; vb_ImpID := vb_ImpID b; vb_Price := vb_Price b;
     vb_AdM := if isEmptyAdM (vb_AdM b) then "" else vb_AdM b;
     vb_NURL := if hit && hasAdM then "" else vb_NURL b; vb_BURL := if hit then "" else vb_BURL b;
     vb_W := vb_W b; vb_H := vb_H b; vb_CrID := vb_CrID b; vb_DealID := vb_DealID b; vb_ADomain := vb_ADomain b |}.
Definition blankResponse (win : WinningBid) (bidder : string) (hasAdM : bool) (r : BidResponse) : BidResponse :=
  {| br_ID := br_ID r;
     br_SeatBid := map (λ sb, {| vs_Seat := vs_Seat sb; vs_Bid := map (blankBid win bidder hasAdM (vs_Seat sb)) (vs_Bid sb) |}) (br_SeatBid r) |}.

(** Notices of the winner; the winner is looked for again, under the primary configuration. *)
Definition settleWinner (now : Z) (h : handler) (adsCfg : AdServerConfig) (resp : DemandResponse) : option (handler * option BidResponse) :=
  match dr_BidResp resp with
  | None => Some (h, None)
  | Some br =>
      if dr_NoFill resp then Some (h, Some br)
      else match extractWinningBid (Some br) (Some adsCfg) with
      | None => None
      | Some (Err _) => Some (h, Some br)
      | Some (Ok (win, bidder)) =>
          let auctionID := if dr_AuctionID resp =s? "" then br_ID br else dr_AuctionID resp in
          let resolvedNURL := macrosOf win auctionID bidder (win_NURL win) in
          let resolvedBURL := macrosOf win auctionID bidder (win_BURL win) in
          let hasAdM := win_AdM win ≠s? "" in
          let h := if (resolvedNURL ≠s? "") && hasAdM then fireWinNotice now h resolvedNURL else h in
          let h := if resolvedBURL ≠s? "" then
                     with_pending (<[{| ik_AuctionID := auctionID; ik_BidID := win_BidID win |} :=
                                       {| pb_URL := resolvedBURL; pb_ExpiresAt := now + 5 * 60 * nsPerSecond |}]> (h_pendingBURLs h)) h
                   else h in
          Some (h, Some (blankResponse win bidder hasAdM br))
      end
  end.

Definition ORTBEndpoint order (now : Z) (h : handler) (pr : PlayerRequest) (base : string) : handled :=
  let cfg := resolveAdServerConfig (h_configs h) (pr_PlacementID pr) in
  if negb (cfg_Active cfg) then Responds NoContent h
  else
    let adsCfg := withBaseURL cfg base in
    let '(h, w) := runDemand order now h pr adsCfg InboundORTB in
    match w with
    | WaitsForever => Hangs h
    | Ended Panics => Crash h
    | Ended (Returns (Err _)) => Responds NoContent h
    | Ended (Returns (Ok resp)) =>
        match settleWinner now h adsCfg resp with
        | None => Crash h
        | Some (h, br) => Responds (BidJSON br) (countFilled now h adsCfg pr resp)
        end
    end.

(** ** The ticker: every 30 seconds the statistics are saved and what has expired is dropped. *)
Definition tick `{StatsCodec} (io : ioOutcome) (now : Z) (h : handler) (fs : gmap string statsDoc) : handler * gmap string statsDoc :=
  let '(s, fs) := save io (h_stats h) fs (unixSeconds now) in
  let h := with_stats s h in
  let h := with_pending (filter (λ '(_, pb), ¬ pb_ExpiresAt pb < now) (h_pendingBURLs h)) h in
  let h := with_fired (CleanupBefore (h_firedImpressions h) (unixSeconds (now - 10 * 60 * nsPerSecond))) h in
  (with_notices (filter (λ '(_, t), ¬ 10 * 60 * nsPerSecond < now - t) (h_firedNURLs h)) (h_notices h) h, fs).

(** ** Configurations at run time *)
Definition RegisterAdServerConfig (h : handler) (c : AdServerConfig) : handler := with_configs (store_set (h_configs h) c) h.
Definition UnregisterAdServerConfig (h : handler) (placementID : string) : handler := with_configs (store_remove (h_configs h) placementID) h.

(** A request to the endpoint: a body that does not decode is [None]. *)
Inductive configRequest :=
| GetConfigs
| PostConfig (body : option AdServerConfig)
| DeleteConfig (placementID : string)
| OtherMethod.

Definition outboundOK (url : string) : bool :=
  (url =s? "") || match validateOutboundPublicURL w_parse url with Ok _ => true | Err _ => false end.
Definition extraOK (e : ExtraDemandCfg) : bool := outboundOK (ed_VASTTagURL e) && outboundOK (ed_OrtbURL e).

Definition AdServerConfigEndpoint `{MapRange} (h : handler) (r : configRequest) : handled :=
  match r with
  | GetConfigs => Responds (Configs (map_range (h_configs h)).*2) h
  | PostConfig None => Responds BadRequest h
  | PostConfig (Some cfg) =>
      if cfg_PlacementID cfg =s? "" then Responds BadRequest h
      else if negb (outboundOK (cfg_DemandVASTURL cfg)) then Responds BadRequest h
      else if negb (outboundOK (cfg_DemandOrtbURL cfg)) then Responds BadRequest h
      else if negb (forallb extraOK (cfg_ExtraDemand cfg)) then Responds BadRequest h
      else Responds (Created cfg) (with_configs (store_set (h_configs h) cfg) h)
  | DeleteConfig placementID =>
      if placementID =s? "" then Responds BadRequest h
      else match store_get (h_configs h) placementID with
           | None => Responds NotFound h
           | Some _ => Responds NoContent (with_configs (store_remove (h_configs h) placementID) h)
           end
  | OtherMethod => Responds MethodNotAllowed h
  end.

(** [ResetStatsEndpoint] without ClickHouse. *)
Definition ResetStatsEndpoint `{StatsCodec} (h : handler) (fs : gmap string statsDoc) (post : bool) : handled * gmap string statsDoc :=
  if negb post then (Responds MethodNotAllowed h, fs)
  else let '(s, fs) := reset (h_stats h) fs in (Responds ResetDone (with_stats s h), fs).
End handlers.

(** ** Runs
    The requests that reach the handler, the ticker (which runs when there is a stats file) and the
    dashboard's calls, in any order. *)
Section runs.
Context `{GoCase} `{World} `{FloatParser} `{StatsCodec} `{MapRange}.
Notation files := (gmap string statsDoc).

Inductive hstep : handler * files → handler * files → Prop :=
| StepTracking now h fs q : hstep (h, fs) (stateOf (TrackingEndpoint now h q), fs)
| StepImpression now h fs q : hstep (h, fs) (stateOf (ImpressionEndpoint now h q), fs)
| StepVAST order now h fs pr base : hstep (h, fs) (stateOf (VASTEndpoint order now h pr base), fs)
| StepORTB order now h fs pr base : hstep (h, fs) (stateOf (ORTBEndpoint order now h pr base), fs)
| StepConfig h fs r : hstep (h, fs) (stateOf (AdServerConfigEndpoint h r), fs)
| StepRegister h fs c : hstep (h, fs) (RegisterAdServerConfig h c, fs)
| StepUnregister h fs p : hstep (h, fs) (UnregisterAdServerConfig h p, fs)
| StepTick io now h fs : filePath (h_stats h) ≠ "" → hstep (h, fs) (tick io now h fs).

(** *** What a step does to the statistics: a run of their operations, without a reset. *)
Definition statsRun (s s' : videoStatsStore) : Prop := ∃ ops, OpReset ∉ ops ∧ s' = foldl stepStats s ops.

Lemma statsRun_ops s ops : OpReset ∉ ops → statsRun s (foldl stepStats s ops).
Proof. by exists ops. Qed.
Lemma statsRun_refl s : statsRun s s.
Proof. apply (statsRun_ops s []). apply not_elem_of_nil. Qed.
Lemma statsRun_trans s1 s2 s3 : statsRun s1 s2 → statsRun s2 s3 → statsRun s1 s3.
Proof.
  intros (o1 & Ho1 & ->) (o2 & Ho2 & ->). exists (o1 ++ o2). rewrite foldl_app. split; [|done].
  rewrite elem_of_app. tauto.
Qed.
Ltac no_reset := rewrite ?not_elem_of_cons; repeat split; try discriminate; apply not_elem_of_nil.

Lemma request_run s p a : statsRun s (incRequestBatch s p a).
Proof. apply (statsRun_ops s [OpPub p PRequest; OpAdv a PRequest]). no_reset. Qed.
Lemma countFilled_run now h cfg pr resp : statsRun (h_stats h) (h_stats (countFilled now h cfg pr resp)).
Proof.
  unfold countFilled. destruct (dr_NoFill resp); [apply statsRun_refl|].
  apply (statsRun_ops _ [OpPub (cfg_PublisherID cfg) PFill; OpAdv (cfg_AdvertiserID cfg) PFill;
                         OpFill cfg pr (Some resp) (resolveDemandType cfg) (unixSeconds now)]). no_reset.
Qed.
Lemma creditImpression_run s cs a p price : statsRun s (creditImpression s cs a p price).1.
Proof.
  unfold creditImpression. destruct (incDimImpression s a) as [s' dk] eqn:E.
  assert (s' = stepStats s (OpImpression a)) as -> by (simpl; by rewrite E).
  destruct dk as [k|]; simpl fst.
  - apply (statsRun_ops s [OpImpression a; OpPub (dk_PublisherID k) (PImpression _ _); OpAdv (dk_AdvertiserID k) (PImpression _ _)]). no_reset.
  - apply (statsRun_ops s [OpImpression a; OpPub _ (PImpression _ _); OpAdv _ (PImpression _ _)]). no_reset.
Qed.

Lemma fireWinNotice_frame now h u :
  h_stats (fireWinNotice now h u) = h_stats h ∧ h_tracking (fireWinNotice now h u) = h_tracking h ∧
  h_firedImpressions (fireWinNotice now h u) = h_firedImpressions h ∧ h_configs (fireWinNotice now h u) = h_configs h ∧
  h_pendingBURLs (fireWinNotice now h u) = h_pendingBURLs h.
Proof.
  unfold fireWinNotice. destruct (u =s? ""); [done|]. destruct (validateOutboundPublicURL _ _); [|done].
  by destruct (h_firedNURLs h !! u).
Qed.
Lemma fireWinNotices_frame now us h :
  let h' := foldl (fireWinNotice now) h us in
  h_stats h' = h_stats h ∧ h_tracking h' = h_tracking h ∧ h_firedImpressions h' = h_firedImpressions h ∧
  h_configs h' = h_configs h ∧ h_pendingBURLs h' = h_pendingBURLs h.
Proof.
  revert h. induction us as [|u us IH]; intros h; [done|]. simpl.
  destruct (IH (fireWinNotice now h u)) as (-> & -> & -> & -> & ->). apply fireWinNotice_frame.
Qed.
Lemma fireBillingNotice_frame h u :
  h_stats (fireBillingNotice h u) = h_stats h ∧ h_tracking (fireBillingNotice h u) = h_tracking h ∧
  h_firedImpressions (fireBillingNotice h u) = h_firedImpressions h ∧ h_configs (fireBillingNotice h u) = h_configs h ∧
  h_pendingBURLs (fireBillingNotice h u) = h_pendingBURLs h.
Proof. unfold fireBillingNotice. destruct (u =s? ""); [done|]. by destruct (validateOutboundPublicURL _ _). Qed.

(** An ad request changes statistics, notices and waiting billing URLs, nothing else. *)
Record adStep (h h' : handler) : Prop := {
  as_stats : statsRun (h_stats h) (h_stats h');
  as_tracking : h_tracking h' = h_tracking h;
  as_fired : h_firedImpressions h' = h_firedImpressions h;
  as_configs : h_configs h' = h_configs h
}.
Lemma adStep_refl h : adStep h h.
Proof. split; [apply statsRun_refl|done..]. Qed.
Lemma adStep_trans h1 h2 h3 : adStep h1 h2 → adStep h2 h3 → adStep h1 h3.
Proof.
  intros [A1 A2 A3 A4] [B1 B2 B3 B4]. split; [by eapply statsRun_trans|congruence..].
Qed.
Lemma countFilled_step now h cfg pr resp : adStep h (countFilled now h cfg pr resp).
Proof. split; [apply countFilled_run|unfold countFilled; by destruct (dr_NoFill resp)..]. Qed.
Lemma runDemand_step order now h pr cfg inbound h' w :
  runDemand order now h pr cfg inbound = (h', w) → adStep h h'.
Proof.
  unfold runDemand. destruct (runDemandWaterfall order pr cfg inbound) as [fired w0]. intros [= <- _].
  match goal with |- adStep _ (foldl _ ?h0 _) => destruct (fireWinNotices_frame now fired h0) as (E1 & E2 & E3 & E4 & _) end.
  split; [rewrite E1; apply request_run|done..].
Qed.
Lemma fireWinNotice_step now h u : adStep h (fireWinNotice now h u).
Proof. destruct (fireWinNotice_frame now h u) as (E1 & E2 & E3 & E4 & _). split; [rewrite E1; apply statsRun_refl|done..]. Qed.
Lemma settleWinner_step now h cfg resp h' br : settleWinner now h cfg resp = Some (h', br) → adStep h h'.
Proof.
  unfold settleWinner. destruct (dr_BidResp resp) as [b|]; [|intros [= <- _]; apply adStep_refl].
  destruct (dr_NoFill resp); [intros [= <- _]; apply adStep_refl|].
  destruct (extractWinningBid _ _) as [[[win bidder]|e]|]; [|intros [= <- _]; apply adStep_refl|done].
  cbv zeta. intros [= <- _]. match goal with |- adStep _ (if ?c then with_pending ?m ?h1 else _) => 
    assert (adStep h h1) as Hs; [|destruct c; [|exact Hs]] end.
  - destruct (_ && _); [apply fireWinNotice_step|apply adStep_refl].
  - eapply adStep_trans; [exact Hs|]. split; [apply statsRun_refl|done..].
Qed.
Lemma VASTEndpoint_step order now h pr base : adStep h (stateOf (VASTEndpoint order now h pr base)).
Proof.
  unfold VASTEndpoint. destruct (negb _); [apply adStep_refl|].
  destruct (runDemand _ _ _ _ _ _) as [h1 w] eqn:E. apply runDemand_step in E.
  destruct w as [[[resp|e]|]|]; simpl; try done. eapply adStep_trans; [exact E|apply countFilled_step].
Qed.
Lemma ORTBEndpoint_step order now h pr base : adStep h (stateOf (ORTBEndpoint order now h pr base)).
Proof.
  unfold ORTBEndpoint. destruct (negb _); [apply adStep_refl|].
  destruct (runDemand _ _ _ _ _ _) as [h1 w] eqn:E. apply runDemand_step in E.
  destruct w as [[[resp|e]|]|]; simpl; try done.
  destruct (settleWinner _ _ _ _) as [[h2 br]|] eqn:Es; [|done]. apply settleWinner_step in Es. simpl.
  do 2 (eapply adStep_trans; [eassumption|]). apply countFilled_step.
Qed.

(** *** Beacons on a handler in order
    The ring holds the events so far and the shards one map of keys. *)
Definition handler_inv (n : nat) (h : handler) : Prop :=
  ∃ evs m, (length evs ≤ n)%nat ∧ store_inv trackingStoreMaxEvents evs (h_tracking h) ∧ deduper_inv (h_firedImpressions h) m.

Lemma handler_inv_frame n h h' :
  h_tracking h' = h_tracking h → h_firedImpressions h' = h_firedImpressions h → handler_inv n h → handler_inv (S n) h'.
Proof. intros Ht Hf (evs & m & Hn & Hs & Hd). exists evs, m. rewrite Ht, Hf. split; [lia|done]. Qed.

Lemma billPending_frame now h key :
  h_stats (billPending now h key) = h_stats h ∧ h_tracking (billPending now h key) = h_tracking h ∧
  h_firedImpressions (billPending now h key) = h_firedImpressions h ∧ h_configs (billPending now h key) = h_configs h ∧
  h_pendingBURLs (billPending now h key) = delete key (h_pendingBURLs h).
Proof.
  unfold billPending. destruct (h_pendingBURLs h !! key) as [pb|] eqn:E; [|by rewrite delete_id].
  cbv zeta. destruct (now <? pb_ExpiresAt pb); [|done].
  exact (fireBillingNotice_frame (with_pending (delete key (h_pendingBURLs h)) h) (pb_URL pb)).
Qed.

(** The key of a beacon that was not seen. *)
Definition unseen (d : list (gmap impressionKey Z)) (key : impressionKey) : bool :=
  match SeenOrAdd d key 0 with Some (seen, _) => negb seen | None => false end.
Lemma SeenOrAdd_seen d m key now : deduper_inv d m → is_Some (m !! key) → SeenOrAdd d key now = Some (true, d).
Proof.
  intros Hd [x Hx]. unfold SeenOrAdd. rewrite <-(dd_lookup _ _ Hd key) in Hx.
  destruct (d !! shard key) as [sh|]; [|done]. cbn in *. by rewrite Hx.
Qed.

(** What an impression beacon does: a key that was seen changes nothing; a new one is credited once,
    recorded, and settles the billing notice that waits for it. *)
Lemma ImpressionEndpoint_spec n now h q evs m :
  let key := {| ik_AuctionID := Get q "auction_id"; ik_BidID := Get q "bid_id" |} in
  Get q "auction_id" ≠ "" → Get q "bid_id" ≠ "" →
  (length evs ≤ n)%nat → store_inv trackingStoreMaxEvents evs (h_tracking h) → deduper_inv (h_firedImpressions h) m →
  Z.of_nat n < two63 - 1 →
  if decide (is_Some (m !! key)) then ImpressionEndpoint now h q = Responds Pixel h
  else ∃ d t,
    let c := creditImpression (h_stats h) (h_configs h) (Get q "auction_id") (Get q "placement_id") (paramPrice q) in
    ImpressionEndpoint now h q = Responds Pixel (billPending now (with_tracking t (with_stats c.1 (with_fired d h))) key) ∧
    deduper_inv d (<[key := unixSeconds now]> m) ∧
    store_inv trackingStoreMaxEvents (evs ++ [impressionEvent q c.2 now]) t.
Proof.
  intros key Ha Hb Hn Hs Hd Hroom. unfold ImpressionEndpoint.
  rewrite (proj2 (String.eqb_neq _ _) Ha), (proj2 (String.eqb_neq _ _) Hb). cbn [orb]. cbv zeta. fold key.
  pose proof (SeenOrAdd_refines _ _ key (unixSeconds now) Hd) as (d & Hseen & Hd'). 
  case_decide as Hk.
  - rewrite (SeenOrAdd_seen _ m _ _ Hd Hk). by destruct h.
  - rewrite Hseen, bool_decide_false by done. cbn [with_fired h_stats h_configs h_tracking].
    destruct (creditImpression _ _ _ _ _) as [s dk].
    destruct (record_inv trackingStoreMaxEvents ltac:(unfold trackingStoreMaxEvents; lia) evs (h_tracking h) (impressionEvent q dk now) Hs)
      as (t & -> & Ht); [lia|].
    exists d, t. done.
Qed.

Lemma tick_frame io now h fs :
  statsRun (h_stats h) (h_stats (tick io now h fs).1) ∧ h_tracking (tick io now h fs).1 = h_tracking h ∧
  h_firedImpressions (tick io now h fs).1 = CleanupBefore (h_firedImpressions h) (unixSeconds (now - 10 * 60 * nsPerSecond)) ∧
  h_configs (tick io now h fs).1 = h_configs h ∧ (tick io now h fs).2 = (save io (h_stats h) fs (unixSeconds now)).2.
Proof.
  unfold tick. destruct (save io (h_stats h) fs (unixSeconds now)) as [s fs'] eqn:E. simpl.
  assert (statsRun (h_stats h) s); [|done].
  replace s with (save io (h_stats h) fs (unixSeconds now)).1 by (by rewrite E). unfold save.
  destruct (filePath _ =s? ""); [apply statsRun_refl|].
  assert (statsRun (h_stats h) (evictDims (h_stats h) (unixSeconds now))) as Hev.
  { apply (statsRun_ops _ [OpEvict (unixSeconds now)]). no_reset. }
  destruct (negb (io_mkdir io)); [done|]. destruct (marshalDisk _); [|done].
  destruct (negb (io_write io)); [done|]. by destruct (negb (io_rename io)).
Qed.

Lemma AdServerConfigEndpoint_frame h r :
  let h' := stateOf (AdServerConfigEndpoint h r) in
  h_stats h' = h_stats h ∧ h_tracking h' = h_tracking h ∧ h_firedImpressions h' = h_firedImpressions h.
Proof. destruct r as [|[c|]|p|]; simpl; try done; repeat case_match; done. Qed.

Lemma TrackingEndpoint_run now h q : statsRun (h_stats h) (h_stats (stateOf (TrackingEndpoint now h q))).
Proof.
  unfold TrackingEndpoint. destruct (_ || _ || _); [apply statsRun_refl|].
  destruct (record _ _ _) as [t|]; [|apply statsRun_refl]. cbn [stateOf].
  destruct (_ =s? EventComplete); [|apply statsRun_refl].
  apply (statsRun_ops _ [OpPub _ PComplete; OpAdv _ PComplete; OpComplete _]). no_reset.
Qed.
Lemma ImpressionEndpoint_run now h q : statsRun (h_stats h) (h_stats (stateOf (ImpressionEndpoint now h q))).
Proof.
  unfold ImpressionEndpoint. destruct (_ || _); [apply statsRun_refl|]. cbv zeta.
  destruct (SeenOrAdd _ _ _) as [[[] d]|]; [apply statsRun_refl| |apply statsRun_refl].
  cbn [with_fired h_stats h_configs h_tracking].
  destruct (creditImpression _ _ _ _ _) as [s dk] eqn:E.
  destruct (record _ _ _) as [t|]; cbn [stateOf].
  - match goal with |- context [billPending now ?h0 ?k] => destruct (billPending_frame now h0 k) as (-> & _) end.
    replace s with (creditImpression (h_stats h) (h_configs h) (Get q "auction_id") (Get q "placement_id") (paramPrice q)).1
      by (by rewrite E). apply creditImpression_run.
  - apply (statsRun_ops _ [OpImpression _]). no_reset.
Qed.

Lemma hstep_run x y : hstep x y → statsRun (h_stats x.1) (h_stats y.1).
Proof.
  destruct 1; simpl.
  - apply TrackingEndpoint_run.
  - apply ImpressionEndpoint_run.
  - apply VASTEndpoint_step.
  - apply ORTBEndpoint_step.
  - destruct (AdServerConfigEndpoint_frame h r) as (-> & _). apply statsRun_refl.
  - apply statsRun_refl.
  - apply statsRun_refl.
  - apply tick_frame.
Qed.
Lemma handler_inv_new cs path t fs : handler_inv 0 (newHandler cs path t fs).
Proof.
  exists [], ∅. split; [done|split; [|apply deduper_inv_new]].
  apply store_inv_zero. unfold trackingStoreMaxEvents. lia.
Qed.
Lemma rtc_run x y : rtc hstep x y → statsRun (h_stats x.1) (h_stats y.1).
Proof.
  induction 1 as [|x y z Hxy _ IH]; [apply statsRun_refl|]. eapply statsRun_trans; [by apply hstep_run|done].
Qed.

Lemma ImpressionEndpoint_seen n now h q evs m :
  Get q "auction_id" ≠ "" → Get q "bid_id" ≠ "" →
  store_inv trackingStoreMaxEvents evs (h_tracking h) → (length evs ≤ n)%nat → deduper_inv (h_firedImpressions h) m →
  is_Some (m !! {| ik_AuctionID := Get q "auction_id"; ik_BidID := Get q "bid_id" |}) → Z.of_nat n < two63 - 1 →
  ImpressionEndpoint now h q = Responds Pixel h.
Proof.
  intros Ha Hb Hs Hn Hd Hk Hroom. pose proof (ImpressionEndpoint_spec n now h q evs m Ha Hb Hn Hs Hd Hroom) as Hspec.
  cbv zeta in Hspec. by rewrite decide_True in Hspec.
Qed.

Lemma byPub_onAdv f adv s : byPub (onAdv f adv s) = byPub s.
Proof. unfold onAdv. by destruct (adv =s? ""). Qed.
Lemma creditImpression_cached s cs a p price dk :
  a ≠ "" → auctionDims s !! a = Some dk →
  let s' := (creditImpression s cs a p price).1 in
  let pub := orElse (dk_PublisherID dk) "unknown" in
  byPub s' !! pub = Some (countImpression (perMille (dk_PriceCPM dk)) (Some (perMille (dk_PublisherPriceCPM dk)))
                            (default zeroStats (byPub s !! pub))) ∧
  (∀ pub', pub' ≠ pub → byPub s' !! pub' = byPub s !! pub').
Proof.
  intros Ha Hdk s' pub. unfold s', creditImpression, incDimImpression. rewrite (proj2 (String.eqb_neq _ _) Ha), Hdk.
  cbn [fst]. unfold incImpressionBatch. rewrite byPub_onAdv. cbn [onPub set_pubs byPub on_dims]. fold pub.
  split; [|intros pub' Hne]; rewrite onEntry_lookup; [by rewrite decide_True|by rewrite decide_False].
Qed.
Lemma creditImpression_unknown s cs a p price :
  auctionDims s !! a = None →
  let cfg := resolveAdServerConfig cs p in
  creditImpression s cs a p price = (incImpressionBatch s (cfg_PublisherID cfg) (cfg_AdvertiserID cfg) price (cfg_FloorCPM cfg), None).
Proof. intros Hn. unfold creditImpression, incDimImpression. destruct (a =s? ""); by rewrite ?Hn. Qed.

Lemma beacon_credits_fill n now now' h q dk :
  let key := {| ik_AuctionID := Get q "auction_id"; ik_BidID := Get q "bid_id" |} in
  handler_inv n h → Z.of_nat n < two63 - 2 → Get q "auction_id" ≠ "" → Get q "bid_id" ≠ "" →
  auctionDims (h_stats h) !! Get q "auction_id" = Some dk → unseen (h_firedImpressions h) key = true →
  ∃ h', ImpressionEndpoint now h q = Responds Pixel h' ∧
    byPub (h_stats h') !! orElse (dk_PublisherID dk) "unknown" =
      Some (countImpression (perMille (dk_PriceCPM dk)) (Some (perMille (dk_PublisherPriceCPM dk)))
              (default zeroStats (byPub (h_stats h) !! orElse (dk_PublisherID dk) "unknown"))) ∧
    (∀ pub, pub ≠ orElse (dk_PublisherID dk) "unknown" → byPub (h_stats h') !! pub = byPub (h_stats h) !! pub) ∧
    ImpressionEndpoint now' h' q = Responds Pixel h'.
Proof.
  intros key (evs & m & Hn & Hs & Hd) Hroom Ha Hb Hdk Hnew.
  pose proof (ImpressionEndpoint_spec n now h q evs m Ha Hb Hn Hs Hd ltac:(lia)) as Hspec. cbv zeta in Hspec. fold key in Hspec.
  case_decide as Hk; [unfold unseen in Hnew; by rewrite (SeenOrAdd_seen _ m _ _ Hd Hk) in Hnew|].
  destruct Hspec as (d & t & Hresp & Hd' & Ht). eexists. split; [exact Hresp|].
  match goal with |- context [billPending now ?h0 ?k] => destruct (billPending_frame now h0 k) as (Es & Et & Ef & _) end.
  rewrite Es. destruct (creditImpression_cached (h_stats h) (h_configs h) _ (Get q "placement_id") (paramPrice q) dk Ha Hdk) as [Hin Hout].
  split; [exact Hin|split; [exact Hout|]].
  eapply (ImpressionEndpoint_seen (S n)); try done.
  - rewrite Et. exact Ht.
  - rewrite length_app. simpl. lia.
  - rewrite Ef. exact Hd'.
  - fold key. rewrite lookup_insert_eq. eauto.
  - lia.
Qed.

Lemma countFilled_cached now h cfg pr resp :
  dr_NoFill resp = false → dr_AuctionID resp ≠ "" →
  let s := h_stats (countFilled now h cfg pr resp) in
  let pub := orElse (cfg_PublisherID cfg) "unknown" in
  auctionDims s !! dr_AuctionID resp = Some (fillKey cfg pr resp (resolveDemandType cfg) (unixSeconds now)) ∧
  byPub s !! pub = Some (countFill (default zeroStats (byPub (h_stats h) !! pub))).
Proof.
  intros Hf Ha s pub. unfold s, countFilled. rewrite Hf. cbn [with_stats h_stats]. unfold incDimFill.
  rewrite (proj2 (String.eqb_neq _ _) Ha). cbn [on_dims auctionDims byPub]. split; [apply lookup_insert_eq|].
  unfold incFillBatch. rewrite byPub_onAdv. cbn [onPub set_pubs byPub]. fold pub. by rewrite onEntry_lookup, decide_True.
Qed.
Lemma runDemand_counts order now h pr cfg inbound :
  let pub := orElse (cfg_PublisherID cfg) "unknown" in
  byPub (h_stats (runDemand order now h pr cfg inbound).1) !! pub =
  Some (countRequest (default zeroStats (byPub (h_stats h) !! pub))).
Proof.
  intros pub. unfold runDemand. destruct (runDemandWaterfall order pr cfg inbound) as [fired w]. cbn [fst].
  match goal with |- context [foldl _ ?h0 _] => destruct (fireWinNotices_frame now fired h0) as (-> & _) end.
  cbn [with_stats h_stats]. unfold incRequestBatch. rewrite byPub_onAdv. cbn [onPub set_pubs byPub]. fold pub.
  by rewrite onEntry_lookup, decide_True.
Qed.

(** ** The journal
    What a run should leave behind, said without rings, shards and stores: the requests are read one
    after the other, with the configurations in force and the operations counted so far. *)
Inductive hrequest :=
| ReqTracking (now : Z) (q : list (string * string))
| ReqImpression (now : Z) (q : list (string * string))
| ReqVAST (order : list (result demandError DemandResponse) → list (result demandError DemandResponse)) (now : Z) (pr : PlayerRequest) (base : string)
| ReqORTB (order : list (result demandError DemandResponse) → list (result demandError DemandResponse)) (now : Z) (pr : PlayerRequest) (base : string)
| ReqConfig (r : configRequest)
| ReqReset (post : bool)
| ReqRegister (c : AdServerConfig)
| ReqUnregister (placementID : string)
| ReqTick (io : ioOutcome) (now : Z).

(** The handler serves a request; the ticker was only started with a stats file. *)
Definition h_serve (x : handler * files) (r : hrequest) : handler * files :=
  let '(h, fs) := x in
  match r with
  | ReqTracking now q => (stateOf (TrackingEndpoint now h q), fs)
  | ReqImpression now q => (stateOf (ImpressionEndpoint now h q), fs)
  | ReqVAST order now pr base => (stateOf (VASTEndpoint order now h pr base), fs)
  | ReqORTB order now pr base => (stateOf (ORTBEndpoint order now h pr base), fs)
  | ReqConfig r => (stateOf (AdServerConfigEndpoint h r), fs)
  | ReqReset post => let '(r, fs) := ResetStatsEndpoint h fs post in (stateOf r, fs)
  | ReqRegister c => (RegisterAdServerConfig h c, fs)
  | ReqUnregister p => (UnregisterAdServerConfig h p, fs)
  | ReqTick io now => if filePath (h_stats h) =s? "" then (h, fs) else tick io now h fs
  end.

Record journal := {
  j_configs : configStore;
  j_events : list TrackingEvent;
  j_seen : gmap impressionKey Z;
  j_ops : list statsOp
}.
Definition startJournal (cs : configStore) : journal := {| j_configs := cs; j_events := []; j_seen := ∅; j_ops := [] |}.
Definition counted (ops : list statsOp) (j : journal) : journal :=
  {| j_configs := j_configs j; j_events := j_events j; j_seen := j_seen j; j_ops := j_ops j ++ ops |}.
Definition happened (ev : TrackingEvent) (j : journal) : journal :=
  {| j_configs := j_configs j; j_events := j_events j ++ [ev]; j_seen := j_seen j; j_ops := j_ops j |}.
Definition saw (m : gmap impressionKey Z) (j : journal) : journal :=
  {| j_configs := j_configs j; j_events := j_events j; j_seen := m; j_ops := j_ops j |}.
Definition configured (cs : configStore) (j : journal) : journal :=
  {| j_configs := cs; j_events := j_events j; j_seen := j_seen j; j_ops := j_ops j |}.

(** The parameters a beacon needs. *)
Definition creditable (q : list (string * string)) : bool := (Get q "auction_id" ≠s? "") && (Get q "bid_id" ≠s? "").
Definition trackable (q : list (string * string)) : bool := creditable q && (Get q "event" ≠s? "").
Definition beaconKey (q : list (string * string)) : impressionKey :=
  {| ik_AuctionID := Get q "auction_id"; ik_BidID := Get q "bid_id" |}.

(** Each party of a placement is counted once. *)
Definition parties (pub adv : string) (e : partyEvent) : list statsOp := [OpPub pub e; OpAdv adv e].
Definition completeOps (cs : configStore) (q : list (string * string)) : list statsOp :=
  let cfg := resolveAdServerConfig cs (Get q "placement_id") in
  if Get q "event" =s? EventComplete
  then parties (cfg_PublisherID cfg) (cfg_AdvertiserID cfg) PComplete ++ [OpComplete (Get q "auction_id")] else [].
(** An impression is paid at the prices of its cached fill, else at the beacon's price and at the
    floor of the placement the beacon names. *)
Definition impressionOps (cs : configStore) (dk : option auctionDimKey) (q : list (string * string)) : list statsOp :=
  let cfg := resolveAdServerConfig cs (Get q "placement_id") in
  OpImpression (Get q "auction_id") ::
  match dk with
  | Some k => parties (dk_PublisherID k) (dk_AdvertiserID k) (PImpression (perMille (dk_PriceCPM k)) (Some (perMille (dk_PublisherPriceCPM k))))
  | None => parties (cfg_PublisherID cfg) (cfg_AdvertiserID cfg) (PImpression (perMille (paramPrice q)) (Some (perMille (cfg_FloorCPM cfg))))
  end.
(** The fill a player is given: none when the waterfall fails, panics or never ends, and none over
    OpenRTB when reading the winner again panics. *)
Definition fillOf order (pr : PlayerRequest) (cfg : AdServerConfig) (inbound : InboundProtocol) : option DemandResponse :=
  match (runDemandWaterfall order pr cfg inbound).2 with
  | Ended (Returns (Ok resp)) =>
      if dr_NoFill resp then None
      else match inbound, dr_BidResp resp with
           | InboundORTB, Some br => if extractWinningBid (Some br) (Some cfg) is Some _ then Some resp else None
           | _, _ => Some resp
           end
  | _ => None
  end.
Definition adOps order (now : Z) (cs : configStore) (pr : PlayerRequest) (base : string) (inbound : InboundProtocol) : list statsOp :=
  let cfg := withBaseURL (resolveAdServerConfig cs (pr_PlacementID pr)) base in
  if cfg_Active cfg then
    parties (cfg_PublisherID cfg) (cfg_AdvertiserID cfg) PRequest ++
    match fillOf order pr cfg inbound with
    | Some resp => parties (cfg_PublisherID cfg) (cfg_AdvertiserID cfg) PFill ++
                   [OpFill cfg pr (Some resp) (resolveDemandType cfg) (unixSeconds now)]
    | None => []
    end
  else [].
(** A configuration the endpoint takes: named, and with public addresses only. *)
Definition postable (c : AdServerConfig) : bool :=
  (cfg_PlacementID c ≠s? "") && forallb outboundOK [cfg_DemandVASTURL c; cfg_DemandOrtbURL c] && forallb extraOK (cfg_ExtraDemand c).
Definition configsAfter (cs : configStore) (r : configRequest) : configStore :=
  match r with
  | PostConfig (Some c) => if postable c then <[cfg_PlacementID c := c]> cs else cs
  | DeleteConfig p => if p =s? "" then cs else delete p cs
  | _ => cs
  end.

Definition journalise (s0 : videoStatsStore) (j : journal) (r : hrequest) : journal :=
  match r with
  | ReqTracking now q =>
      if trackable q then counted (completeOps (j_configs j) q) (happened (beaconEvent q now) j) else j
  | ReqImpression now q =>
      if creditable q && bool_decide (j_seen j !! beaconKey q = None) then
        let dk := auctionDims (foldl stepStats s0 (j_ops j)) !! Get q "auction_id" in
        counted (impressionOps (j_configs j) dk q)
          (happened (impressionEvent q dk now) (saw (<[beaconKey q := unixSeconds now]> (j_seen j)) j))
      else j
  | ReqVAST order now pr base => counted (adOps order now (j_configs j) pr base InboundVAST) j
  | ReqORTB order now pr base => counted (adOps order now (j_configs j) pr base InboundORTB) j
  | ReqConfig r => configured (configsAfter (j_configs j) r) j
  | ReqReset post => if post then counted [OpReset] j else j
  | ReqRegister c => configured (<[cfg_PlacementID c := c]> (j_configs j)) j
  | ReqUnregister p => configured (delete p (j_configs j)) j
  | ReqTick _ now =>
      if filePath s0 =s? "" then j
      else counted [OpEvict (unixSeconds now)] (saw (filter (λ '(_, seenAt), ¬ seenAt < unixSeconds (now - 10 * 60 * nsPerSecond)) (j_seen j)) j)
  end.

(** *** The handler agrees with its journal after [n] requests. *)
Record agrees (s0 : videoStatsStore) (n : nat) (h : handler) (j : journal) : Prop := {
  ag_len : (length (j_events j) ≤ n)%nat;
  ag_events : store_inv trackingStoreMaxEvents (j_events j) (h_tracking h);
  ag_seen : deduper_inv (h_firedImpressions h) (j_seen j);
  ag_stats : h_stats h = foldl stepStats s0 (j_ops j);
  ag_configs : h_configs h = j_configs j
}.

Lemma filePath_stepStats s o : filePath (stepStats s o) = filePath s.
Proof.
  destruct o as [cfg pr [resp|] dt now|a|a|p e|a e|now|]; simpl; try done.
  - unfold incDimFill. by destruct (_ =s? "").
  - unfold incDimImpression. destruct (a =s? ""); [done|]. by destruct (auctionDims s !! a).
  - unfold incDimComplete. destruct (a =s? ""); [done|]. by destruct (auctionDims s !! a).
  - unfold onAdv. by destruct (a =s? "").
Qed.
Lemma filePath_foldl ops s : filePath (foldl stepStats s ops) = filePath s.
Proof. revert s. induction ops as [|o ops IH]; intros s; [done|]. simpl. by rewrite IH, filePath_stepStats. Qed.

Lemma unseen_journal d m : deduper_inv d m → ∀ key, unseen d key = bool_decide (m !! key = None).
Proof.
  intros Hd key. unfold unseen. destruct (SeenOrAdd_refines _ _ key 0 Hd) as (d' & -> & _).
  destruct (m !! key) as [x|] eqn:E; [rewrite bool_decide_true by eauto|rewrite bool_decide_false by (by intros [? ?])]; done.
Qed.
Lemma trackable_guard q now :
  (ev_AuctionID (beaconEvent q now) =s? "") || (ev_BidID (beaconEvent q now) =s? "") || (ev_Event (beaconEvent q now) =s? "") = negb (trackable q).
Proof.
  unfold trackable, creditable. cbn [beaconEvent ev_AuctionID ev_BidID ev_Event].
  by destruct (Get q "auction_id" =s? ""), (Get q "bid_id" =s? ""), (Get q "event" =s? "").
Qed.
Lemma creditable_guard q : (Get q "auction_id" =s? "") || (Get q "bid_id" =s? "") = negb (creditable q).
Proof. unfold creditable. by destruct (Get q "auction_id" =s? ""), (Get q "bid_id" =s? ""). Qed.
Lemma creditable_ids q : creditable q = true → Get q "auction_id" ≠ "" ∧ Get q "bid_id" ≠ "".
Proof. unfold creditable. intros [E1 E2]%andb_true_iff. rewrite !negb_true_iff, !String.eqb_neq in *. done. Qed.

Lemma recorded evs t ev n :
  store_inv trackingStoreMaxEvents evs t → (length evs ≤ n)%nat → Z.of_nat n < two63 - 1 →
  ∃ t', record trackingStoreMaxEvents t ev = Some t' ∧ store_inv trackingStoreMaxEvents (evs ++ [ev]) t'.
Proof. intros Hs Hn Hroom. apply record_inv; [unfold trackingStoreMaxEvents; lia|done|lia]. Qed.
Lemma creditImpression_ops s cs q :
  creditable q = true →
  let dk := auctionDims s !! Get q "auction_id" in
  creditImpression s cs (Get q "auction_id") (Get q "placement_id") (paramPrice q) = (foldl stepStats s (impressionOps cs dk q), dk).
Proof.
  intros [Ha _]%creditable_ids dk. unfold creditImpression, impressionOps. cbn [foldl stepStats].
  unfold incDimImpression. rewrite (proj2 (String.eqb_neq _ _) Ha). fold dk. by destruct dk as [k|].
Qed.

Lemma TrackingEndpoint_answer n now h q evs :
  store_inv trackingStoreMaxEvents evs (h_tracking h) → (length evs ≤ n)%nat → Z.of_nat n < two63 - 1 →
  ∃ h', TrackingEndpoint now h q = Responds (if trackable q then Pixel else BadRequest) h'.
Proof.
  intros Hs Hn Hroom. unfold TrackingEndpoint. cbv zeta. rewrite trackable_guard. destruct (trackable q); [|by eexists].
  destruct (recorded _ _ (beaconEvent q now) n Hs Hn Hroom) as (t & -> & _). by eexists.
Qed.
Lemma ImpressionEndpoint_answer n now h q evs m :
  store_inv trackingStoreMaxEvents evs (h_tracking h) → deduper_inv (h_firedImpressions h) m → (length evs ≤ n)%nat →
  Z.of_nat n < two63 - 1 →
  ∃ h', ImpressionEndpoint now h q = Responds (if creditable q then Pixel else BadRequest) h'.
Proof.
  intros Hs Hd Hn Hroom. destruct (creditable q) eqn:Hc.
  - destruct (creditable_ids q Hc) as [Ha Hb]. pose proof (ImpressionEndpoint_spec n now h q evs m Ha Hb Hn Hs Hd Hroom) as Hspec.
    cbv zeta in Hspec. case_decide; [by eexists|]. destruct Hspec as (d & t & -> & _). by eexists.
  - unfold ImpressionEndpoint. rewrite creditable_guard, Hc. by eexists.
Qed.

Lemma TrackingEndpoint_agrees s0 n now h j q :
  agrees s0 n h j → Z.of_nat n < two63 - 1 →
  agrees s0 (S n) (stateOf (TrackingEndpoint now h q)) (journalise s0 j (ReqTracking now q)).
Proof.
  intros [Hn Hs Hd Hst Hcs] Hroom. unfold TrackingEndpoint. cbv zeta. rewrite trackable_guard. cbn [journalise].
  destruct (trackable q); [|split; simpl; auto with lia]. cbn [negb].
  destruct (recorded _ _ (beaconEvent q now) n Hs Hn Hroom) as (t & -> & Ht). cbn [stateOf].
  split; cbn [counted happened j_events j_seen j_ops j_configs]; try (destruct (_ =s? EventComplete); done).
  - rewrite length_app. simpl. lia.
  - unfold completeOps. rewrite foldl_app, <-Hst, <-Hcs. cbn [beaconEvent ev_Event ev_PlacementID ev_AuctionID].
    by destruct (_ =s? EventComplete).
Qed.
Lemma ImpressionEndpoint_agrees s0 n now h j q :
  agrees s0 n h j → Z.of_nat n < two63 - 1 →
  agrees s0 (S n) (stateOf (ImpressionEndpoint now h q)) (journalise s0 j (ReqImpression now q)).
Proof.
  intros [Hn Hs Hd Hst Hcs] Hroom. cbn [journalise]. destruct (creditable q) eqn:Hc; cbn [andb].
  2:{ unfold ImpressionEndpoint. rewrite creditable_guard, Hc. split; simpl; auto with lia. }
  destruct (creditable_ids q Hc) as [Ha Hb]. pose proof (ImpressionEndpoint_spec n now h q _ _ Ha Hb Hn Hs Hd Hroom) as Hspec.
  cbv zeta in Hspec. fold (beaconKey q) in Hspec. case_decide as Hk.
  - rewrite Hspec, bool_decide_false by (by destruct Hk as [x ->]). split; simpl; auto with lia.
  - rewrite bool_decide_true by (by apply eq_None_not_Some). destruct Hspec as (d & t & -> & Hd' & Ht). cbn [stateOf].
    rewrite creditImpression_ops in Ht |- * by done. cbn [fst snd] in *. rewrite <-Hst, <-Hcs.
    match goal with |- context [billPending now ?h0 ?k] => destruct (billPending_frame now h0 k) as (E1 & E2 & E3 & E4 & _) end.
    split; rewrite ?E1, ?E2, ?E3, ?E4; try done.
    + cbn [counted happened saw j_events]. rewrite length_app. simpl. lia.
    + cbn [counted happened saw j_ops]. by rewrite foldl_app, <-Hst.
Qed.

Lemma runDemand_ops order now h pr cfg inbound :
  h_stats (runDemand order now h pr cfg inbound).1 = foldl stepStats (h_stats h) (parties (cfg_PublisherID cfg) (cfg_AdvertiserID cfg) PRequest) ∧
  (runDemand order now h pr cfg inbound).2 = (runDemandWaterfall order pr cfg inbound).2.
Proof.
  unfold runDemand. destruct (runDemandWaterfall order pr cfg inbound) as [fired w]. cbn [fst snd].
  match goal with |- context [foldl _ ?h0 fired] => destruct (fireWinNotices_frame now fired h0) as (-> & _) end. done.
Qed.
Lemma settleWinner_stats now h cfg resp h' br : settleWinner now h cfg resp = Some (h', br) → h_stats h' = h_stats h.
Proof.
  unfold settleWinner. destruct (dr_BidResp resp) as [b|]; [|by intros [= <- _]]. destruct (dr_NoFill resp); [by intros [= <- _]|].
  destruct (extractWinningBid _ _) as [[[win bidder]|e]|]; [|by intros [= <- _]|done]. cbv zeta. intros [= <- _].
  assert (∀ h u, h_stats (fireWinNotice now h u) = h_stats h) as Hw by (intros; apply fireWinNotice_frame).
  destruct (macrosOf win _ bidder (win_BURL win) ≠s? ""); cbn [with_pending h_stats]; destruct (_ && _); by rewrite ?Hw.
Qed.
Lemma VASTEndpoint_ops order now h pr base :
  h_stats (stateOf (VASTEndpoint order now h pr base)) = foldl stepStats (h_stats h) (adOps order now (h_configs h) pr base InboundVAST).
Proof.
  unfold VASTEndpoint, adOps, fillOf. cbn [withBaseURL cfg_Active]. destruct (cfg_Active _); [|done]. cbn [negb]. cbv zeta.
  set (cfg := withBaseURL _ base). destruct (runDemand_ops order now h pr cfg InboundVAST) as [E1 E2].
  destruct (runDemand order now h pr cfg InboundVAST) as [h1 w]. cbn [fst snd] in E1, E2. rewrite <-E2, foldl_app, <-E1.
  destruct w as [[[resp|e]|]|]; try done. unfold countFilled. cbn [stateOf]. by destruct (dr_NoFill resp).
Qed.
Lemma ORTBEndpoint_ops order now h pr base :
  h_stats (stateOf (ORTBEndpoint order now h pr base)) = foldl stepStats (h_stats h) (adOps order now (h_configs h) pr base InboundORTB).
Proof.
  unfold ORTBEndpoint, adOps, fillOf. cbn [withBaseURL cfg_Active]. destruct (cfg_Active _); [|done]. cbn [negb]. cbv zeta.
  set (cfg := withBaseURL _ base). destruct (runDemand_ops order now h pr cfg InboundORTB) as [E1 E2].
  destruct (runDemand order now h pr cfg InboundORTB) as [h1 w]. cbn [fst snd] in E1, E2. rewrite <-E2, foldl_app, <-E1.
  destruct w as [[[resp|e]|]|]; try done.
  destruct (settleWinner now h1 cfg resp) as [[h2 br]|] eqn:Es; cbn [stateOf].
  - unfold countFilled. rewrite <-(settleWinner_stats _ _ _ _ _ _ Es). unfold settleWinner in Es.
    destruct (dr_NoFill resp); [done|]. destruct (dr_BidResp resp); [|done]. by destruct (extractWinningBid _ _).
  - unfold settleWinner in Es. destruct (dr_NoFill resp); [done|]. destruct (dr_BidResp resp); [|done].
    by destruct (extractWinningBid _ _) as [[[]|]|].
Qed.
Lemma adStep_agrees s0 n h h' j ops :
  agrees s0 n h j → adStep h h' → h_stats h' = foldl stepStats (h_stats h) ops → agrees s0 (S n) h' (counted ops j).
Proof.
  intros [Hn Hs Hd Hst Hcs] [_ Ht Hf Hc] Ho. split; cbn [counted j_events j_seen j_ops j_configs]; [lia|congruence..| |congruence].
  by rewrite foldl_app, <-Hst.
Qed.

Lemma AdServerConfigEndpoint_configs h r : h_configs (stateOf (AdServerConfigEndpoint h r)) = configsAfter (h_configs h) r.
Proof.
  destruct r as [|[c|]|p|]; try done; simpl.
  - unfold postable. cbn [forallb]. destruct (_ =s? ""), (outboundOK (cfg_DemandVASTURL c)), (outboundOK (cfg_DemandOrtbURL c)); try done.
    by destruct (forallb extraOK _).
  - destruct (p =s? ""); [done|]. unfold store_get. destruct (h_configs h !! p) eqn:E; [done|]. by rewrite delete_id.
Qed.
Lemma tick_agrees s0 n io now h fs j :
  agrees s0 n h j →
  agrees s0 (S n) (h_serve (h, fs) (ReqTick io now)).1 (journalise s0 j (ReqTick io now)).
Proof.
  intros [Hn Hs Hd Hst Hcs]. cbn [h_serve journalise].
  assert (filePath (h_stats h) = filePath s0) as Hfp by (by rewrite Hst, filePath_foldl). rewrite Hfp.
  destruct (filePath s0 =s? "") eqn:Hp; [split; simpl; auto with lia|].
  destruct (tick_frame io now h fs) as (_ & Et & Ef & Ec & _).
  split; cbn [counted saw j_events j_seen j_ops j_configs]; rewrite ?Et, ?Ef, ?Ec; try done; [lia|by apply CleanupBefore_refines|].
  rewrite foldl_app, <-Hst. unfold tick. destruct (save io (h_stats h) fs (unixSeconds now)) as [s fs'] eqn:E. cbn.
  replace s with (save io (h_stats h) fs (unixSeconds now)).1 by (by rewrite E). unfold save.
  rewrite Hfp, Hp. repeat case_match; done.
Qed.
Lemma agrees_configured s0 n h h' j :
  agrees s0 n h j → h_stats h' = h_stats h → h_tracking h' = h_tracking h → h_firedImpressions h' = h_firedImpressions h →
  agrees s0 (S n) h' (configured (h_configs h') j).
Proof. intros [Hn Hs Hd Hst Hcs] E1 E2 E3. split; cbn [configured j_events j_seen j_ops j_configs]; [lia|congruence..]. Qed.

Lemma serve_agrees s0 n x j r :
  agrees s0 n x.1 j → Z.of_nat n < two63 - 1 → agrees s0 (S n) (h_serve x r).1 (journalise s0 j r).
Proof.
  intros Ha Hroom. destruct x as [h fs]. cbn [fst] in Ha. pose proof (ag_configs _ _ _ _ Ha) as Hcs.
  destruct r as [now q|now q|order now pr base|order now pr base|r|post|c|p|io now]; cbn [h_serve fst].
  - by apply TrackingEndpoint_agrees.
  - by apply ImpressionEndpoint_agrees.
  - eapply adStep_agrees; [done|apply VASTEndpoint_step|]. rewrite <-Hcs. apply VASTEndpoint_ops.
  - eapply adStep_agrees; [done|apply ORTBEndpoint_step|]. rewrite <-Hcs. apply ORTBEndpoint_ops.
  - cbn [journalise]. rewrite <-Hcs, <-AdServerConfigEndpoint_configs. destruct (AdServerConfigEndpoint_frame h r) as (? & ? & ?).
    by eapply agrees_configured.
  - destruct Ha as [Hn Hs Hd Hst _], post; split; cbn; auto with lia. rewrite foldl_app, <-Hst. done.
  - cbn [journalise]. rewrite <-Hcs. by apply (agrees_configured _ _ h (RegisterAdServerConfig h c)).
  - cbn [journalise]. rewrite <-Hcs. by apply (agrees_configured _ _ h (UnregisterAdServerConfig h p)).
  - by apply tick_agrees.
Qed.
Lemma serve_journal cs path t fs rs :
  Z.of_nat (length rs) < two63 →
  agrees (newVideoStatsStore path t fs) (length rs) (foldl h_serve (newHandler cs path t fs, fs) rs).1
    (foldl (journalise (newVideoStatsStore path t fs)) (startJournal cs) rs).
Proof.
  induction rs as [|r rs IH] using rev_ind; intros Hroom.
  - split; try done; [|apply deduper_inv_new]. apply store_inv_zero. unfold trackingStoreMaxEvents. lia.
  - rewrite length_app in *. simpl in *. rewrite !foldl_app, Nat.add_1_r. simpl. apply serve_agrees; [apply IH|]; lia.
Qed.

(** ** Properties *)

(** C35: The pipeline is the journal of its requests.  For every list of fewer than 2^63 - 1 requests
    to the endpoints, resets, ticks and calls of the dashboard, whatever demand partners answered
    (panics and calls that never end included), the state is the one the journal of that list
    describes.  The events that are kept are the last of exactly these: one for each tracking beacon
    with its three parameters, and one for each impression beacon with its two whose key is not in
    the journal's table.  The statistics are the loaded ones after exactly the operations of these
    beacons, of the requests and fills of active placements, of ticks and of resets.  An impression key
    counts as seen exactly when it is in the table, configurations are those posted, registered
    and removed, and both beacon endpoints answer the next request: with the pixel when its
    parameters are there, else as a bad request. *)
Theorem pipeline_keeps_journal cs path t fs rs :
  let h := (foldl h_serve (newHandler cs path t fs, fs) rs).1 in
  let j := foldl (journalise (newVideoStatsStore path t fs)) (startJournal cs) rs in
  Z.of_nat (length rs) < two63 - 1 →
  all trackingStoreMaxEvents (h_tracking h) = Some (last_events trackingStoreMaxEvents (j_events j)) ∧
  h_stats h = foldl stepStats (newVideoStatsStore path t fs) (j_ops j) ∧
  (∀ key, unseen (h_firedImpressions h) key = bool_decide (j_seen j !! key = None)) ∧
  h_configs h = j_configs j ∧
  (∀ now q, (∃ h', TrackingEndpoint now h q = Responds (if trackable q then Pixel else BadRequest) h') ∧
            (∃ h', ImpressionEndpoint now h q = Responds (if creditable q then Pixel else BadRequest) h')).
Proof.
  intros h j Hroom. destruct (serve_journal cs path t fs rs ltac:(lia)) as [Hlen Hs Hd Hst Hcs]. fold h j in Hs, Hd, Hst, Hcs, Hlen.
  split; [apply store_inv_all; [unfold trackingStoreMaxEvents; lia|done]|]. split; [done|]. split; [by apply unseen_journal|].
  split; [done|]. intros now q. split.
  - by eapply (TrackingEndpoint_answer (length rs)).
  - by eapply (ImpressionEndpoint_answer (length rs)).
Qed.

(** A beacon of an auction whose fill is cached credits exactly that fill.  For a key that was not
    seen, the publisher of the fill gets one impression at the fill's price and at the publisher's
    floor, each per mille, whatever the beacon's other parameters say (price, placement, bidder); the
    same beacon again changes nothing. *)
Theorem beacon_credits_the_fill n now now' h q dk :
  let key := {| ik_AuctionID := Get q "auction_id"; ik_BidID := Get q "bid_id" |} in
  handler_inv n h → Z.of_nat n < two63 - 2 → Get q "auction_id" ≠ "" → Get q "bid_id" ≠ "" →
  auctionDims (h_stats h) !! Get q "auction_id" = Some dk → unseen (h_firedImpressions h) key = true →
  ∃ h', ImpressionEndpoint now h q = Responds Pixel h' ∧
    byPub (h_stats h') !! orElse (dk_PublisherID dk) "unknown" =
      Some (countImpression (perMille (dk_PriceCPM dk)) (Some (perMille (dk_PublisherPriceCPM dk)))
              (default zeroStats (byPub (h_stats h) !! orElse (dk_PublisherID dk) "unknown"))) ∧
    (∀ pub, pub ≠ orElse (dk_PublisherID dk) "unknown" → byPub (h_stats h') !! pub = byPub (h_stats h) !! pub) ∧
    ImpressionEndpoint now' h' q = Responds Pixel h'.
Proof. apply beacon_credits_fill. Qed.

(** A request that is filled and the first beacon of its auction.  When the waterfall returns a fill
    with an auction ID, the player gets its document and the first impression beacon with that ID
    credits the publisher of the placement: one request, one fill and one impression, at the win
    price of the response and at the placement's floor. *)
Theorem fill_then_beacon_pays n order now now' h pr base q fired resp :
  let cfg := resolveAdServerConfig (h_configs h) (pr_PlacementID pr) in
  let pub := orElse (cfg_PublisherID cfg) "unknown" in
  handler_inv n h → Z.of_nat n < two63 - 3 → cfg_Active cfg = true →
  runDemandWaterfall order pr (withBaseURL cfg base) InboundVAST = (fired, Ended (Returns (Ok resp))) →
  dr_NoFill resp = false → dr_AuctionID resp ≠ "" →
  Get q "auction_id" = dr_AuctionID resp → Get q "bid_id" ≠ "" →
  unseen (h_firedImpressions h) {| ik_AuctionID := dr_AuctionID resp; ik_BidID := Get q "bid_id" |} = true →
  ∃ h1 h2, VASTEndpoint order now h pr base = Responds (VASTDoc (dr_VASTXml resp)) h1 ∧
    ImpressionEndpoint now' h1 q = Responds Pixel h2 ∧
    byPub (h_stats h2) !! pub =
      Some (countImpression (perMille (dr_WinPrice resp)) (Some (perMille (cfg_FloorCPM cfg)))
              (countFill (countRequest (default zeroStats (byPub (h_stats h) !! pub))))).
Proof.
  intros cfg pub Hi Hroom Hact Hw Hf Ha Hq Hb Hnew.
  pose proof (VASTEndpoint_step order now h pr base) as Hstep. unfold VASTEndpoint in *. fold cfg in Hstep |- *.
  rewrite Hact in Hstep |- *. cbn [negb] in *. cbv zeta in *.
  pose proof (runDemand_counts order now h pr (withBaseURL cfg base) InboundVAST) as Hreq.
  destruct (runDemand order now h pr (withBaseURL cfg base) InboundVAST) as [h0 w] eqn:Er.
  assert (w = Ended (Returns (Ok resp))) as ->.
  { unfold runDemand in Er. rewrite Hw in Er. by injection Er as _ <-. }
  destruct (countFilled_cached now h0 (withBaseURL cfg base) pr resp Hf Ha) as [Hdim Hpub].
  simpl stateOf in Hstep. set (h1 := countFilled now h0 (withBaseURL cfg base) pr resp) in *.
  destruct (beacon_credits_fill (S n) now' now' h1 q (fillKey (withBaseURL cfg base) pr resp (resolveDemandType (withBaseURL cfg base)) (unixSeconds now)))
    as (h2 & Hresp & Hin & _).
  - eapply handler_inv_frame; [apply Hstep|apply Hstep|done].
  - lia.
  - by rewrite Hq.
  - done.
  - by rewrite Hq.
  - by rewrite (as_fired _ _ Hstep), Hq.
  - exists h1, h2. split; [done|split; [done|]]. cbn [fillKey dk_PublisherID withBaseURL cfg_PublisherID] in Hin. fold pub in Hin.
    rewrite Hin. cbn [fst] in Hreq. cbn [withBaseURL cfg_PublisherID] in Hpub, Hreq. fold pub in Hpub, Hreq.
    rewrite Hpub. cbn [default]. rewrite Hreq. done.
Qed.

(** One beacon can stop the statistics from being saved.  An impression beacon needs no authority;
    when its auction is not cached and its [price] reads [NaN], the revenue of the placement's
    publisher becomes NaN.  It stays so whatever requests follow, JSON has no NaN, and so no tick
    ever changes a file again. *)
Theorem nan_price_stops_saving n now h fs q h' fs' :
  let pub := orElse (cfg_PublisherID (resolveAdServerConfig (h_configs h) (Get q "placement_id"))) "unknown" in
  handler_inv n h → Z.of_nat n < two63 - 1 → Get q "auction_id" ≠ "" → Get q "bid_id" ≠ "" → Get q "price" = "NaN" →
  auctionDims (h_stats h) !! Get q "auction_id" = None →
  unseen (h_firedImpressions h) {| ik_AuctionID := Get q "auction_id"; ik_BidID := Get q "bid_id" |} = true →
  rtc hstep (stateOf (ImpressionEndpoint now h q), fs) (h', fs') →
  (∃ v, byPub (h_stats h') !! pub = Some v ∧ vs_Revenue v = S754_nan) ∧
  ∀ io t, (tick io t h' fs').2 = fs'.
Proof.
  intros pub (evs & m & Hn & Hs & Hd) Hroom Ha Hb Hp Hdim Hnew Hrun.
  assert (∃ v, byPub (h_stats h') !! pub = Some v ∧ vs_Revenue v = S754_nan) as (v & Hv & Hnan).
  { destruct (rtc_run _ _ Hrun) as (ops & Hno & He). simpl in He. rewrite He. apply run_nan; [done|].
    pose proof (ImpressionEndpoint_spec n now h q evs m Ha Hb Hn Hs Hd Hroom) as Hspec. cbv zeta in Hspec.
    case_decide as Hk; [unfold unseen in Hnew; by rewrite (SeenOrAdd_seen _ m _ _ Hd Hk) in Hnew|].
    destruct Hspec as (d & t & -> & _). simpl stateOf.
    match goal with |- context [billPending now ?h0 ?k] => destruct (billPending_frame now h0 k) as (-> & _) end.
    rewrite creditImpression_unknown by done. cbn [fst with_tracking with_stats h_stats].
    unfold incImpressionBatch. rewrite byPub_onAdv. cbn [onPub set_pubs byPub]. fold pub. rewrite onEntry_lookup, decide_True by done.
    eexists. split; [done|]. cbn [countImpression vs_Revenue]. unfold paramPrice, perMille. rewrite Hp. cbn.
    rewrite ParseFloat_NaN, fdiv_nan_l. apply fadd_nan_r. }
  split; [eauto|]. intros io t. destruct (tick_frame io t h' fs') as (_ & _ & _ & _ & ->). by eapply save_nan.
Qed.

(** C37: A billing notice is sent for a counted impression, once.  A beacon sends at most one; it is the
    URL that waits for its auction and bid, not expired, and passes the check of outbound addresses;
    it waits no more afterwards, and a beacon that is not counted sends none. *)
Theorem billing_once_per_impression n now h q :
  let key := {| ik_AuctionID := Get q "auction_id"; ik_BidID := Get q "bid_id" |} in
  let h' := stateOf (ImpressionEndpoint now h q) in
  handler_inv n h → Z.of_nat n < two63 - 1 →
  h_notices h' = h_notices h ∨
  (∃ pb, h_pendingBURLs h !! key = Some pb ∧ now < pb_ExpiresAt pb ∧ h_notices h' = h_notices h ++ [pb_URL pb] ∧
     validateOutboundPublicURL w_parse (pb_URL pb) = Ok () ∧ h_pendingBURLs h' !! key = None ∧
     unseen (h_firedImpressions h) key = true ∧ unseen (h_firedImpressions h') key = false).
Proof.
  intros key h' (evs & m & Hn & Hs & Hd) Hroom. unfold h'.
  destruct (decide (Get q "auction_id" = "")) as [Ha|Ha]; [left; unfold ImpressionEndpoint; by rewrite Ha|].
  destruct (decide (Get q "bid_id" = "")) as [Hb|Hb]; [left; unfold ImpressionEndpoint; by rewrite Hb, orb_true_r|].
  pose proof (ImpressionEndpoint_spec n now h q evs m Ha Hb Hn Hs Hd Hroom) as Hspec. cbv zeta in Hspec. fold key in Hspec.
  case_decide as Hk; [left; by rewrite Hspec|]. destruct Hspec as (d & t & -> & Hd' & _). simpl stateOf.
  match goal with |- context [billPending now ?h0 ?k] => destruct (billPending_frame now h0 k) as (_ & _ & Ef & _ & Ep) end.
  rewrite Ef, Ep. unfold billPending. cbn [with_tracking with_stats with_fired h_pendingBURLs h_firedImpressions].
  destruct (h_pendingBURLs h !! key) as [pb|] eqn:E; [|by left]. cbv zeta.
  destruct (Z.ltb_spec now (pb_ExpiresAt pb)); [|by left]. unfold fireBillingNotice.
  destruct (pb_URL pb =s? ""); [by left|]. destruct (validateOutboundPublicURL _ _) as [[]|] eqn:Ev; [|by left].
  right. exists pb. split; [done|split; [done|split; [done|split; [done|split]]]]; [apply lookup_delete_eq|].
  unfold unseen. split.
  - destruct (SeenOrAdd_refines _ _ key 0 Hd) as (d0 & -> & _). by rewrite bool_decide_false.
  - rewrite (SeenOrAdd_seen _ _ key 0 Hd'); [done|]. rewrite lookup_insert_eq. eauto.
Qed.

(** Configurations posted to the endpoint name public addresses only, and a placement that is deleted
    or unregistered is served from the default configuration, which is active: its requests still go
    to the exchange. *)
Theorem posted_configs_are_public h r :
  let h' := stateOf (AdServerConfigEndpoint h r) in
  (∀ p c, h_configs h' !! p = Some c → h_configs h !! p ≠ Some c →
     cfg_PlacementID c = p ∧ p ≠ "" ∧
     ∀ u, u ∈ [cfg_DemandVASTURL c; cfg_DemandOrtbURL c] ++ (ed_VASTTagURL <$> cfg_ExtraDemand c) ++ (ed_OrtbURL <$> cfg_ExtraDemand c) →
       u ≠ "" → validateOutboundPublicURL w_parse u = Ok ()) ∧
  (∀ p, AdServerConfigEndpoint h r = Responds NoContent h' → r = DeleteConfig p →
     resolveAdServerConfig (h_configs h') p = defaultConfig p ∧ cfg_Active (defaultConfig p) = true).
Proof.
  assert (∀ u, outboundOK u = true → u ≠ "" → validateOutboundPublicURL w_parse u = Ok ()) as Hok.
  { intros u Hu Hne. unfold outboundOK in Hu. rewrite (proj2 (String.eqb_neq _ _) Hne) in Hu. simpl in Hu.
    by destruct (validateOutboundPublicURL _ _) as [[]|]. }
  intros h'. split.
  - intros p c Hin Hnot. destruct r as [|[cfg|]|pl|]; simpl in h'; try done.
    + revert Hin. unfold h'. destruct (cfg_PlacementID cfg =s? "") eqn:Hp; [done|].
      destruct (outboundOK (cfg_DemandVASTURL cfg)) eqn:E1; [|done]. destruct (outboundOK (cfg_DemandOrtbURL cfg)) eqn:E2; [|done].
      destruct (forallb extraOK (cfg_ExtraDemand cfg)) eqn:E3; [|done]. simpl. unfold store_set.
      intros [[<- <-]|[_ Hin]]%lookup_insert_Some; [|done]. split; [done|split; [by apply String.eqb_neq|]].
      intros u Hu. apply Hok. rewrite forallb_forall in E3.
      rewrite !elem_of_cons, !elem_of_app, !list_elem_of_fmap in Hu.
      destruct Hu as [->|[->|[(e & -> & He)|(e & -> & He)]]]; [done..| |];
        apply list_elem_of_In, E3, andb_true_iff in He; tauto.
    + revert Hin. unfold h', store_get. destruct (pl =s? ""); [done|]. destruct (h_configs h !! pl); [|done]. simpl.
      unfold store_remove. by intros [_ Hin]%lookup_delete_Some.
  - intros p Hr ->. split; [|done]. revert Hr. simpl in h' |- *. unfold h'. destruct (p =s? ""); [done|].
    unfold store_get. destruct (h_configs h !! p) as [c|] eqn:E; [|done]. intros _. simpl. unfold resolveAdServerConfig, store_get, store_remove.
    by rewrite lookup_delete_eq.
Qed.
End runs.

(** ** Inputs *)
#[refine] Definition demoFloats : FloatParser := {| ParseFloat := λ s, if s =s? "NaN" then S754_nan else f0 |}.
Proof. reflexivity. Defined.
Definition demoBeacon (auctionID price : string) : list (string * string) :=
  [("auction_id", auctionID); ("bid_id", "b1"); ("placement_id", "placement"); ("price", price)].
Definition demoHandler (cs : configStore) : handler := newHandler (H := value_codec) cs "stats.json" 5 ∅.

Lemma nan_price_witness :
  let h' := stateOf (ImpressionEndpoint (H0 := demoWorld f1 None) (H1 := demoFloats) 1 (demoHandler ∅) (demoBeacon "a1" "NaN")) in
  (tick (H2 := value_codec) {| io_mkdir := true; io_write := true; io_rename := true |} 2 h' ∅).2 = ∅.
Proof.
  intros h'.
  refine (proj2 (@nan_price_stops_saving ascii_case (demoWorld f1 None) demoFloats value_codec canonical_range 0 1 (demoHandler ∅) ∅
    (demoBeacon "a1" "NaN") h' ∅ (@handler_inv_new value_codec ∅ "stats.json" 5 ∅) _ _ _ _ _ _ _) _ 2).
  - reflexivity.
  - discriminate.
  - discriminate.
  - reflexivity.
  - vm_compute. reflexivity.
  - vm_compute. reflexivity.
  - apply rtc_refl.
Defined.

(** Three beacons: a tracking beacon, an impression and the same impression again.  Two events are kept. *)
Lemma pipeline_journal_witness :
  let rs := [ReqTracking 1 (demoBeacon "a1" "1" ++ [("event", "start")]); ReqImpression 2 (demoBeacon "a1" "2.5"); ReqImpression 3 (demoBeacon "a1" "2.5")] in
  let h := (foldl (h_serve (H := ascii_case) (H0 := demoWorld f1 None) (H1 := demoFloats) (H2 := value_codec) (H3 := canonical_range)) (demoHandler ∅, ∅) rs).1 in
  option_map (map ev_Event) (all trackingStoreMaxEvents (h_tracking h)) = Some ["start"; "impression"] ∧
  unseen (h_firedImpressions h) (beaconKey (demoBeacon "a1" "")) = false.
Proof.
  intros rs h.
  destruct (@pipeline_keeps_journal ascii_case (demoWorld f1 None) demoFloats value_codec canonical_range ∅ "stats.json" 5 ∅ rs)
    as (He & _ & Hs & _).
  - reflexivity.
  - split; [unfold h, demoHandler; rewrite He|unfold h, demoHandler; rewrite Hs]; vm_compute; reflexivity.
Defined.

(** A handler whose placement has two endpoints, which bid two and one. *)
Definition placementHandler : handler := demoHandler {["" := twoEndpoints]}.
Definition demoResponse : DemandResponse :=
  match (runDemandWaterfall (H := ascii_case) (H0 := demoWorld f1 None) id zeroPlayerRequest
           (withBaseURL twoEndpoints "https://x.example") InboundVAST).2 with
  | Ended (Returns (Ok r)) => r
  | _ => noFillResponse "" ""
  end.

Lemma fill_then_beacon_witness :
  let q := demoBeacon (dr_AuctionID demoResponse) "99" in
  ∃ h1 h2, VASTEndpoint (H := ascii_case) (H0 := demoWorld f1 None) id 1 placementHandler zeroPlayerRequest "https://x.example" =
      Responds (VASTDoc (dr_VASTXml demoResponse)) h1 ∧
    ImpressionEndpoint (H0 := demoWorld f1 None) (H1 := demoFloats) 2 h1 q = Responds Pixel h2 ∧
    vs_Revenue <$> byPub (h_stats h2) !! "pub" = Some (perMille (flit 2 1)).
Proof.
  intros q.
  destruct (@fill_then_beacon_pays ascii_case (demoWorld f1 None) demoFloats 0 id 1 2 placementHandler zeroPlayerRequest
    "https://x.example" q ["https://a.example/win?p=2.00"; "https://b.example/win?p=1.00"] demoResponse
    (@handler_inv_new value_codec _ "stats.json" 5 ∅)) as (h1 & h2 & Hv & Hi & Hp).
  - reflexivity.
  - reflexivity.
  - vm_compute. reflexivity.
  - vm_compute. reflexivity.
  - vm_compute. discriminate.
  - vm_compute. reflexivity.
  - discriminate.
  - vm_compute. reflexivity.
  - exists h1, h2. split; [exact Hv|split; [exact Hi|]].
    change (orElse _ "unknown") with "pub" in Hp. rewrite Hp. vm_compute. reflexivity.
Defined.

Definition filledHandler : handler := countFilled 1 (demoHandler ∅) (withBaseURL twoEndpoints "") zeroPlayerRequest demoResponse.
Lemma beacon_credits_witness :
  let q := demoBeacon (dr_AuctionID demoResponse) "NaN" in
  ∃ h', ImpressionEndpoint (H0 := demoWorld f1 None) (H1 := demoFloats) 2 filledHandler q = Responds Pixel h' ∧
    ImpressionEndpoint (H0 := demoWorld f1 None) (H1 := demoFloats) 3 h' q = Responds Pixel h'.
Proof.
  intros q.
  destruct (@beacon_credits_the_fill (demoWorld f1 None) demoFloats 1 2 3 filledHandler q
    (fillKey (withBaseURL twoEndpoints "") zeroPlayerRequest demoResponse DemandTypeORTB 0)) as (h' & H1 & _ & _ & H2).
  - apply (handler_inv_frame 0 (demoHandler ∅)); [reflexivity|reflexivity|apply handler_inv_new].
  - reflexivity.
  - vm_compute. discriminate.
  - discriminate.
  - vm_compute. reflexivity.
  - vm_compute. reflexivity.
  - exists h'. split; [exact H1|exact H2].
Defined.

Lemma billing_once_witness :
  let key := {| ik_AuctionID := "a1"; ik_BidID := "b1" |} in
  let h := with_pending {[key := {| pb_URL := "https://demand.example/bill"; pb_ExpiresAt := 9 |}]} (demoHandler ∅) in
  let h' := stateOf (ImpressionEndpoint (H0 := demoWorld f1 None) (H1 := demoFloats) 2 h (demoBeacon "a1" "")) in
  h_notices h' = h_notices h ∨ unseen (h_firedImpressions h') key = false.
Proof.
  intros key h h'.
  destruct (@billing_once_per_impression (demoWorld f1 None) demoFloats 1 2 h (demoBeacon "a1" "")) as [Hn|Hb].
  - apply (handler_inv_frame 0 (demoHandler ∅)); [reflexivity|reflexivity|apply handler_inv_new].
  - reflexivity.
  - left. exact Hn.
  - right. destruct Hb as (pb & _ & _ & _ & _ & _ & _ & Hs). exact Hs.
Defined.

(** The primary source asks for at least five, the extra one for at least one, and the extra one bids
    two. *)
Definition flooredConfig : AdServerConfig :=
  let z := defaultConfig "placement" in
  {| cfg_PlacementID := "placement"; cfg_PublisherID := "pub"; cfg_ContentURL := ""; cfg_DomainOrApp := "";
     cfg_MinDuration := 5; cfg_MaxDuration := 30; cfg_Protocols := cfg_Protocols z; cfg_APIs := cfg_APIs z;
     cfg_AllowedBidders := []; cfg_FloorCPM := f0; cfg_DemandFloorCPM := fofZ 5; cfg_DemandVASTURL := "";
     cfg_DemandOrtbURL := "https://a.example/bid"; cfg_BAdv := []; cfg_BCat := [];
     cfg_ExtraDemand := [{| ed_VASTTagURL := ""; ed_OrtbURL := "https://b.example/bid"; ed_FloorCPM := f1; ed_BCat := []; ed_BAdv := [] |}];
     cfg_SeatWeights := None; cfg_MimeTypes := []; cfg_Active := true; cfg_TimeoutMS := 0; cfg_RequestBaseURL := "";
     cfg_OrtbVersion := ""; cfg_VideoPlacementType := "instream"; cfg_CampaignID := ""; cfg_AdvertiserID := "adv";
     cfg_SellerDomain := ""; cfg_PodSequence := 0; cfg_PodDuration := 0; cfg_MaxSeq := 0; cfg_CompanionType := []; cfg_CatTax := 0 |}.
Definition responseNotices (r : handled) : option (list string) :=
  match r with
  | Responds (BidJSON (Some br)) _ => Some (concat (map (λ sb, map vb_NURL (vs_Bid sb)) (br_SeatBid br)))
  | _ => None
  end.

(** The winner of an OpenRTB request is looked for a second time under the primary source's
    configuration.  A bid of an extra source that meets its own floor and not the primary's wins the
    waterfall and is counted as a fill, yet its win notice is not sent and goes to the player
    unresolved. *)
Theorem extra_winner_not_settled :
  let r := ORTBEndpoint (H := ascii_case) (H0 := demoWorld (flit 2 1) None) id 1 (demoHandler {["" := flooredConfig]}) zeroPlayerRequest "" in
  responseNotices r = Some ["https://b.example/win?p=${AUCTION_PRICE}"] ∧ h_notices (stateOf r) = [] ∧
  vs_Opportunities <$> byPub (h_stats (stateOf r)) !! "pub" = Some 1.
Proof. vm_compute. done. Qed.
