(* ===== verification/ErrorTypes.v ===== *)
(** * Errors with codes and severities: src/errortypes

    Every error of the package is a constructor; [PlainError] stands for errors of other packages,
    which have no code. *)
From S2P Require Import Prelude.

Inductive go_error :=
| Timeout (m : string)
| TmaxTimeout (m : string)
| BadInput (m : string)
| BlockedApp (m : string)
| AccountDisabled (m : string)
| AcctRequired (m : string)
| BadServerResponse (m : string)
| FailedToRequestBids (m : string)
| BidderTemporarilyDisabled (m : string)
| BidderThrottled (m : string)
| MalformedAcct (m : string)
| Warning (m : string) (code : Z)
| PrivacyBlockedWarning (m : string) (code : Z) (bidder : string)
| FailedToUnmarshal (m : string)
| FailedToMarshal (m : string)
| DebugWarning (m : string) (code : Z)
| InvalidImpFirstPartyData (m : string)
| RejectError (m : string)
| PlainError (m : string).

Definition UnknownErrorCode : Z := 999.
Definition TimeoutErrorCode : Z := 1.
Definition BadInputErrorCode : Z := 2.
Definition BadServerResponseErrorCode : Z := 4.
Definition FailedToRequestBidsErrorCode : Z := 5.
Definition TmaxTimeoutErrorCode : Z := 12.
Definition AccountLevelDebugDisabledWarningCode : Z := 10002.
Definition BidderLevelDebugDisabledWarningCode : Z := 10003.
Definition AlternateBidderCodeWarningCode : Z := 10005.
Definition FloorBidRejectionWarningCode : Z := 10009.
Definition InvalidBidResponseDSAWarningCode : Z := 10010.
Definition BidderBlockedByPrivacySettings : Z := 10017.
Definition InvalidImpFirstPartyDataErrorCode : Z := 15.

(** [Code()], for errors that have one. *)
Definition error_code (e : go_error) : option Z :=
  match e with
  | Timeout _ => Some TimeoutErrorCode
  | BadInput _ => Some BadInputErrorCode
  | BlockedApp _ => Some 3
  | BadServerResponse _ => Some BadServerResponseErrorCode
  | FailedToRequestBids _ => Some FailedToRequestBidsErrorCode
  | BidderTemporarilyDisabled _ => Some 6
  | AccountDisabled _ => Some 7
  | AcctRequired _ => Some 8
  | MalformedAcct _ => Some 10
  | RejectError _ => Some 11
  | TmaxTimeout _ => Some TmaxTimeoutErrorCode
  | FailedToMarshal _ => Some 13
  | FailedToUnmarshal _ => Some 14
  | InvalidImpFirstPartyData _ => Some InvalidImpFirstPartyDataErrorCode
  | BidderThrottled _ => Some 16
  | Warning _ c | PrivacyBlockedWarning _ c _ | DebugWarning _ c => Some c
  | PlainError _ => None
  end.
Definition ReadCode (e : go_error) : Z := default UnknownErrorCode (error_code e).

Inductive Severity := SeverityFatal | SeverityWarning.
Definition severity (e : go_error) : option Severity :=
  match e with
  | PlainError _ => None
  | BidderTemporarilyDisabled _ | BidderThrottled _ | Warning _ _ | PrivacyBlockedWarning _ _ _ | DebugWarning _ _
  | RejectError _ => Some SeverityWarning
  | _ => Some SeverityFatal
  end.
Definition isFatal (e : go_error) : bool := match severity e with Some SeverityWarning => false | _ => true end.
Definition IsWarning (e : go_error) : bool := match severity e with Some SeverityWarning => true | _ => false end.
Definition ContainsFatalError (errs : list go_error) : bool := existsb isFatal errs.
Definition FatalOnly (errs : list go_error) : list go_error := filter (λ e, isFatal e = true) errs.
Definition WarningOnly (errs : list go_error) : list go_error := filter (λ e, IsWarning e = true) errs.

Inductive Scope := ScopeAny | ScopeDebug.
Definition ReadScope (e : go_error) : Scope := match e with DebugWarning _ _ => ScopeDebug | _ => ScopeAny end.

(** [Error()] *)
Definition message (e : go_error) : string :=
  match e with
  | Timeout m | TmaxTimeout m | BadInput m | BlockedApp m | AccountDisabled m | AcctRequired m | BadServerResponse m
  | FailedToRequestBids m | BidderTemporarilyDisabled m | BidderThrottled m | MalformedAcct m | Warning m _
  | PrivacyBlockedWarning m _ _ | FailedToUnmarshal m | FailedToMarshal m | DebugWarning m _ | InvalidImpFirstPartyData m
  | RejectError m | PlainError m => m
  end.

(** An error is a warning or fatal, never both. *)
Lemma isFatal_IsWarning e : isFatal e = negb (IsWarning e).
Proof. unfold isFatal, IsWarning. by destruct (severity e) as [[]|]. Qed.
Lemma fatal_or_warning errs : FatalOnly errs ++ WarningOnly errs ≡ₚ errs.
Proof.
  induction errs as [|e errs IH]; [done|]. unfold FatalOnly, WarningOnly in *. rewrite !filter_cons, isFatal_IsWarning.
  destruct (IsWarning e); simpl; rewrite ?decide_True, ?decide_False by done; simpl.
  - by rewrite <-Permutation_middle, IH.
  - by rewrite IH.
Qed.
