(* ===== verification/BidderCall.v ===== *)
(** * A call of a bidder: src/exchange/bidder.go, bidder_validate_bids.go, tmax_adjustments.go

    [requestBid] builds the HTTP requests of an adapter, adds the answers in the order in which they
    arrive, prices the bids and sorts them into seats; a wrapper removes bids that are not valid.
    The adapter ([adapters.Bidder]), hooks, the signer, the HTTP client and native markup in JSON are
    the interface [Adapter].  Bids are values here: they are new objects of this call.  [None] is a
    panic, which [recoverSafely] of the exchange turns into an empty answer. *)
From S2P Require Import Prelude GoStrings GoFloat Currency BidAdjustment Bids ErrorTypes ExtWrapper RequestParts.

(** ** Time limits *)
Record TmaxAdjustments := {
  ta_Enabled : bool;
  ta_BidderNetworkLatencyBuffer : Z;
  ta_PBSResponsePreparationDuration : Z;
  ta_BidderResponseDurationMin : Z
}.
Record TmaxAdjustmentsPreprocessed := {
  tp_BidderNetworkLatencyBuffer : Z;
  tp_PBSResponsePreparationDuration : Z;
  tp_BidderResponseDurationMin : Z;
  tp_IsEnforced : bool
}.
Definition ProcessTMaxAdjustments (c : TmaxAdjustments) : option TmaxAdjustmentsPreprocessed :=
  if negb (ta_Enabled c) then None
  else Some {| tp_BidderNetworkLatencyBuffer := ta_BidderNetworkLatencyBuffer c;
               tp_PBSResponsePreparationDuration := ta_PBSResponsePreparationDuration c;
               tp_BidderResponseDurationMin := ta_BidderResponseDurationMin c;
               tp_IsEnforced := negb (ta_BidderResponseDurationMin c =? 0) &&
                 (negb (ta_BidderNetworkLatencyBuffer c =? 0) || negb (ta_PBSResponsePreparationDuration c =? 0)) |}.

(** A context is its deadline in nanoseconds; [now] is the clock.  [Milliseconds] truncates. *)
Definition milliseconds (d : Z) : Z := Z.quot d 1000000.
Definition getBidderTmax (deadline : option Z) (now requestTmaxMS : Z) (ta : TmaxAdjustmentsPreprocessed) : Z :=
  if tp_IsEnforced ta then
    match deadline with
    | Some d => wrap64 (milliseconds (d - now) - tp_BidderNetworkLatencyBuffer ta - tp_PBSResponsePreparationDuration ta)
    | None => requestTmaxMS
    end
  else requestTmaxMS.
Definition hasShorterDurationThanTmax (deadline : option Z) (now : Z) (ta : TmaxAdjustmentsPreprocessed) : bool :=
  if tp_IsEnforced ta then
    match deadline with
    | Some d =>
        let overheadNS := wrap64 ((tp_BidderNetworkLatencyBuffer ta + tp_PBSResponsePreparationDuration ta) * 1000000) in
        milliseconds (d - overheadNS - now) <? tp_BidderResponseDurationMin ta
    | None => false
    end
  else false.

(** ** What the adapter and the exchange hand over *)
Record RequestData := { rd_Method : string; rd_Uri : string; rd_Body : string; rd_Headers : list (string * string); rd_ImpIDs : list string }.
Record ResponseData := { rs_StatusCode : Z; rs_Body : string }.
Record TypedBid := {
  tb_Bid : option Bid;
  tb_BidMeta : option ExtBidPrebidMeta;
  tb_BidType : string;
  tb_BidVideo : option ExtBidPrebidVideo;
  tb_DealPriority : Z;
  tb_Seat : string
}.
Record BidderResponse := { bp_Currency : string; bp_Bids : list TypedBid; bp_FledgeAuctionConfigs : option (list FledgeAuctionConfig) }.

Record httpCallInfo := { hi_request : RequestData; hi_response : option ResponseData; hi_err : option go_error;
                         hi_unreachable : bool  (** refused connection or unknown host *) }.

(** What [requestBid] reads of the bidder's request. *)
Record callImp := { ci_ID : string; ci_VideoPlcmt : option Z; ci_Native : option string }.
Record callRequest := { cq_Imp : list callImp; cq_App : bool; cq_Cur : list string; cq_TMax : Z }.
Definition set_cq_TMax (t : Z) (r : callRequest) : callRequest := {| cq_Imp := cq_Imp r; cq_App := cq_App r; cq_Cur := cq_Cur r; cq_TMax := t |}.
Definition set_cq_Cur (c : list string) (r : callRequest) : callRequest := {| cq_Imp := cq_Imp r; cq_App := cq_App r; cq_Cur := c; cq_TMax := cq_TMax r |}.

Record bidderCall := {
  bc_BidRequest : callRequest;
  bc_BidderName : string;
  bc_BidderCoreName : string;
  bc_BidderStoredResponses : list (string * string);  (** in the order in which they are sent *)
  bc_ImpReplaceImpId : gmap string bool
}.
Record bidRequestOptions := {
  bo_accountDebugAllowed : bool;
  bo_headerDebugAllowed : bool;
  bo_addCallSignHeader : bool;
  bo_bidAdjustments : gmap string float64;
  bo_tmaxAdjustments : option TmaxAdjustmentsPreprocessed;
  bo_responseDebugAllowed : bool;
  bo_globalPrivacyControlHeader : string;
  bo_deadline : option Z;
  bo_now : Z
}.

(** *** Native markup *)
Record nativeAsset := { na_ID : option Z; na_Img : option Z; na_Data : option Z; na_rest : string }.
Record nativeRequestAsset := { nr_ID : Z; nr_Img : option Z; nr_Data : option Z }.

Class Adapter := {
  (** [Bidder.MakeRequests], [Bidder.MakeBids] *)
  a_MakeRequests : callRequest → list RequestData * list go_error;
  a_MakeBids : callRequest → RequestData → option ResponseData → option BidderResponse * list go_error;
  (** the hooks of the two stages *)
  a_BidderRequestStage : callRequest → string → result go_error callRequest;
  a_RawBidderResponseStage : BidderResponse → string → result go_error BidderResponse;
  (** [adscert.Signer.Sign], [version.BuildXPrebidHeaderForRequest] *)
  a_Sign : string → string → result string string;
  a_XPrebid : callRequest → string;
  (** what the HTTP calls return, in the order in which they arrive, stored responses among them *)
  a_arrivals : list httpCallInfo → list RequestData → list httpCallInfo;
  (** native markup: assets of a response and of a request, and printing *)
  a_nativeMarkup : string → option (list nativeAsset);
  a_nativeRequest : string → option (list nativeRequestAsset);
  a_printNative : string → list nativeAsset → option string;
  (** debug setting of the bidder *)
  a_DebugAllow : bool
}.

(** ** Bid types of adjustments *)
Definition getBidTypeForAdjustments (bidType impID : string) (imps : list callImp) : string :=
  if bidType =s? BidTypeVideo then
    match find (λ i, ci_ID i =s? impID) imps with
    | Some i => match ci_VideoPlcmt i with Some 2 => "video-outstream" | _ => "video-instream" end
    | None => "video-instream"
    end
  else bidType.

(** ** Native assets *)
Inductive nativeError := NoImageID | NoDataID | ImageNotRequested (id : Z) | DataNotRequested (id : Z) | NoSuchAsset (id : Z) | NoNativeImp | BadNativeRequest.
Definition native_message (e : nativeError) : string :=
  match e with
  | NoImageID => "Response Image asset doesn't have an ID"
  | NoDataID => "Response Data asset doesn't have an ID"
  | ImageNotRequested id => "Response has an Image asset with ID:" +:+ pretty id +:+ " present that doesn't exist in the request"
  | DataNotRequested id => "Response has a Data asset with ID:" +:+ pretty id +:+ " present that doesn't exist in the request"
  | NoSuchAsset id => "Unable to find asset with ID:" +:+ pretty id +:+ " in the request"
  | NoNativeImp => "Could not find native imp"
  | BadNativeRequest => "native request does not parse"
  end.
Definition getAssetByID (id : Z) (assets : list nativeRequestAsset) : option nativeRequestAsset := find (λ a, id =? nr_ID a) assets.

(** The type of the requested asset, when it is set. *)
Definition typeFrom (requested current : Z) : Z := if requested =? 0 then current else requested.
Definition setImgType (asset : nativeAsset) (payload : list nativeRequestAsset) : nativeAsset * option nativeError :=
  match na_Img asset with
  | None => (asset, None)
  | Some t =>
      match na_ID asset with
      | None => (asset, Some NoImageID)
      | Some id =>
          match getAssetByID id payload with
          | None => (asset, Some (NoSuchAsset id))
          | Some a => match nr_Img a with
                      | Some t' => ({| na_ID := na_ID asset; na_Img := Some (typeFrom t' t); na_Data := na_Data asset; na_rest := na_rest asset |}, None)
                      | None => (asset, Some (ImageNotRequested id))
                      end
          end
      end
  end.
Definition setDataType (asset : nativeAsset) (payload : list nativeRequestAsset) : nativeAsset * option nativeError :=
  match na_Data asset with
  | None => (asset, None)
  | Some t =>
      match na_ID asset with
      | None => (asset, Some NoDataID)
      | Some id =>
          match getAssetByID id payload with
          | None => (asset, Some (NoSuchAsset id))
          | Some a => match nr_Data a with
                      | Some t' => ({| na_ID := na_ID asset; na_Img := na_Img asset; na_Data := Some (typeFrom t' t); na_rest := na_rest asset |}, None)
                      | None => (asset, Some (DataNotRequested id))
                      end
          end
      end
  end.
(** The image comes first; an error there leaves the data asset alone. *)
Definition setAssetTypes (asset : nativeAsset) (payload : list nativeRequestAsset) : nativeAsset * option nativeError :=
  let '(asset, e) := setImgType asset payload in
  match e with Some _ => (asset, e) | None => setDataType asset payload end.

Definition getNativeImpByImpID (impID : string) (imps : list callImp) : option string :=
  find (λ i, (ci_ID i =s? impID) && bool_decide (is_Some (ci_Native i))) imps ≫= ci_Native.

(** ** Health of a bidder
    One number, moved towards one by failures and towards zero by successes. *)
Record throttleConfig := { th_enabled : bool; th_simulateOnly : bool; th_bulkValue : float64; th_deltaValue : float64 }.
(** The part of [AdaptBidder] that prepares the two values. *)
Definition adaptThrottle (enabled simulateOnly : bool) (throttleWindow : Z) : throttleConfig :=
  let w := if throttleWindow <=? 0 then 1000 else throttleWindow in
  let delta := fdiv f1 (fofZ w) in
  {| th_enabled := enabled; th_simulateOnly := simulateOnly; th_bulkValue := fsub f1 delta; th_deltaValue := delta |}.
Definition logHealthCheck (c : throttleConfig) (health : float64) (success : bool) : float64 :=
  if negb (th_enabled c) then health
  else if success then fmul (th_bulkValue c) health else fadd (fmul (th_bulkValue c) health) (th_deltaValue c).
(** [rand] is a draw from [0, 1). *)
Definition shouldRequest (c : throttleConfig) (health rand : float64) : bool :=
  if negb (th_enabled c) then true
  else if health <f? flit 2 10 then true
  else let p := fmul (fdiv (fsub health (flit 2 10)) (flit 8 10)) (flit 9 10) in
       if rand <f? p then th_simulateOnly c else true.

(** What [ctxhttp.Do] and reading the body give. *)
Inductive httpOutcome :=
| DoFailed (deadlineExceeded unreachable : bool) (m : string)
| ReadFailed (m : string)
| Answered (status : Z) (body : string).
(** [doRequest] and [doRequestImpl] without metrics and the timeout notification; [prepared] is the
    error of compressing or building the request, when there is one. *)
Definition doRequest (c : throttleConfig) (tmax : option TmaxAdjustmentsPreprocessed) (deadline : option Z) (now : Z)
    (bidderName : string) (health rand : float64) (prepared : option string) (o : httpOutcome) (req : RequestData) : httpCallInfo * float64 :=
  let failed e unreachable := {| hi_request := req; hi_response := None; hi_err := Some e; hi_unreachable := unreachable |} in
  if negb (shouldRequest c health rand) then (failed (BidderThrottled ("Bidder " +:+ bidderName +:+ " is temporarily throttled")) false, health)
  else match prepared with
  | Some m => (failed (PlainError m) false, health)
  | None =>
      if match tmax with Some ta => tp_IsEnforced ta && hasShorterDurationThanTmax deadline now ta | None => false end
      then (failed (TmaxTimeout "exceeded tmax duration") false, health)
      else match o with
      | DoFailed timedOut unreachable m =>
          (failed (if timedOut then Timeout m else PlainError m) unreachable, logHealthCheck c health false)
      | ReadFailed m => (failed (PlainError m) false, health)
      | Answered status body =>
          let h1 := if 500 <=? status then logHealthCheck c health false else health in
          ({| hi_request := req; hi_response := Some {| rs_StatusCode := status; rs_Body := body |};
              hi_err := if (status <? 200) || (400 <=? status)
                        then Some (BadServerResponse ("Server responded with failure status: " +:+ pretty status +:+ ". Set request.test = 1 for debugging info."))
                        else None;
              hi_unreachable := false |}, logHealthCheck c h1 true)
      end
  end.

(** ** Seats of a call *)
Record seatResult := {
  sr_Bids : list PbsOrtbBid;
  sr_Currency : string;
  sr_Fledge : option (list FledgeAuctionConfig);
  sr_HttpCalls : list ExtHttpCall;
  sr_Seat : string
}.
Notation seatBidMap := (gmap string seatResult).
Definition set_sr_Currency (c : string) (s : seatResult) : seatResult :=
  {| sr_Bids := sr_Bids s; sr_Currency := c; sr_Fledge := sr_Fledge s; sr_HttpCalls := sr_HttpCalls s; sr_Seat := sr_Seat s |}.
Definition set_sr_Fledge (f : option (list FledgeAuctionConfig)) (s : seatResult) : seatResult :=
  {| sr_Bids := sr_Bids s; sr_Currency := sr_Currency s; sr_Fledge := f; sr_HttpCalls := sr_HttpCalls s; sr_Seat := sr_Seat s |}.
Definition set_sr_HttpCalls (h : list ExtHttpCall) (s : seatResult) : seatResult :=
  {| sr_Bids := sr_Bids s; sr_Currency := sr_Currency s; sr_Fledge := sr_Fledge s; sr_HttpCalls := h; sr_Seat := sr_Seat s |}.
Definition add_sr_Bid (b : PbsOrtbBid) (s : seatResult) : seatResult :=
  {| sr_Bids := sr_Bids s ++ [b]; sr_Currency := sr_Currency s; sr_Fledge := sr_Fledge s; sr_HttpCalls := sr_HttpCalls s; sr_Seat := sr_Seat s |}.

(** Non-bids: [SeatNonBidBuilder] as far as a call fills it. *)
Inductive NonBidReason :=
| ErrorGeneral | ErrorTimeout | ErrorBidderUnreachable | ResponseRejectedGeneral | ResponseRejectedBelowFloor
| ResponseRejectedCategoryMappingInvalid | ResponseRejectedBelowDealFloor | ResponseRejectedCreativeSizeNotAllowed
| ResponseRejectedCreativeNotSecure.
Definition reason_code (r : NonBidReason) : Z :=
  match r with
  | ErrorGeneral => 100 | ErrorTimeout => 101 | ErrorBidderUnreachable => 103 | ResponseRejectedGeneral => 300
  | ResponseRejectedBelowFloor => 301 | ResponseRejectedCategoryMappingInvalid => 303 | ResponseRejectedBelowDealFloor => 304
  | ResponseRejectedCreativeSizeNotAllowed => 351 | ResponseRejectedCreativeNotSecure => 352
  end.
(** A non-bid: its impression, its status and, when it was a bid, the bid with its original price. *)
Record NonBid := { nb_ImpId : string; nb_StatusCode : Z; nb_Bid : option (Bid * float64 * string) }.
Notation SeatNonBidBuilder := (gmap string (list NonBid)).
Definition rejectBid (b : SeatNonBidBuilder) (bid : PbsOrtbBid) (reason : NonBidReason) (seat : string) : SeatNonBidBuilder :=
  match pb_Bid bid with
  | None => b
  | Some x => <[seat := default [] (b !! seat) ++
                 [{| nb_ImpId := bid_ImpID x; nb_StatusCode := reason_code reason;
                     nb_Bid := Some (x, pb_OriginalBidCPM bid, pb_OriginalBidCur bid) |}]]> b
  end.
Definition rejectImps (b : SeatNonBidBuilder) (impIds : list string) (reason : NonBidReason) (seat : string) : SeatNonBidBuilder :=
  match impIds with
  | [] => b
  | _ => <[seat := default [] (b !! seat) ++ map (λ i, {| nb_ImpId := i; nb_StatusCode := reason_code reason; nb_Bid := None |}) impIds]> b
  end.
Definition errorToNonBidReason (e : go_error) : NonBidReason := if ReadCode e =? TimeoutErrorCode then ErrorTimeout else ErrorGeneral.
Definition httpInfoToNonBidReason (hi : httpCallInfo) (e : go_error) : NonBidReason :=
  match errorToNonBidReason e with
  | ErrorGeneral => if hi_unreachable hi then ErrorBidderUnreachable else ErrorGeneral
  | r => r
  end.

(** [makeExt]: the authorization header is not shown. *)
Definition filterHeader (h : list (string * string)) : list (string * string) := filter (λ x, negb (ToLower x.1 =s? "authorization") = true) h.
Definition makeExt (hi : httpCallInfo) : ExtHttpCall :=
  let answered := match hi_err hi with None => hi_response hi | Some _ => None end in
  {| hc_Uri := rd_Uri (hi_request hi); hc_RequestBody := rd_Body (hi_request hi); hc_RequestHeaders := filterHeader (rd_Headers (hi_request hi));
     hc_ResponseBody := match answered with Some r => rs_Body r | None => "" end;
     hc_Status := match answered with Some r => rs_StatusCode r | None => 0 end |}.

Definition ImpIdReqBody : string := "Stored bid response for impression id: ".
Definition prepareStoredResponse (impId bidResp : string) : httpCallInfo :=
  {| hi_request := {| rd_Method := "POST"; rd_Uri := ""; rd_Body := ImpIdReqBody +:+ impId; rd_Headers := []; rd_ImpIDs := [] |};
     hi_response := Some {| rs_StatusCode := 200; rs_Body := bidResp |}; hi_err := None; hi_unreachable := false |}.
(** [re.Split(body, -1)[1]]: what is between the first two occurrences; [None] is an index out of
    range. *)
Definition storedImpId (body : string) : option string :=
  i ← Index body ImpIdReqBody;
  rest ← slice_from body (i + String.length ImpIdReqBody);
  match Index rest ImpIdReqBody with Some j => slice_to rest j | None => Some rest end.

Section call.
Context `{Adapter} {MR : MapRange}.
Context (conversions : Conversions) (alternateBidderCodes : ExtAlternateBidderCodes) (rules : option (gmap string adj_slice))
        (opts : bidRequestOptions) (call : bidderCall).

(** *** The requests *)
Definition signRequest (req : RequestData) : RequestData * list go_error :=
  let headers := rd_Headers req ++ [("X-Prebid", a_XPrebid (bc_BidRequest call))] ++
                 (if bo_globalPrivacyControlHeader opts =s? "1" then [("Sec-GPC", "1")] else []) in
  let '(signature, errs) :=
    if bo_addCallSignHeader opts then
      match a_Sign (rd_Uri req) (rd_Body req) with
      | Ok s => (if s =s? "" then [] else [("X-Ads-Cert-Auth", s)], [])
      | Err m => ([], [Warning ("AdsCert signer is enabled but cannot sign the request: " +:+ m) 0])
      end
    else ([], []) in
  ({| rd_Method := rd_Method req; rd_Uri := rd_Uri req; rd_Body := rd_Body req; rd_Headers := headers ++ signature; rd_ImpIDs := rd_ImpIDs req |}, errs).

(** *** One answer *)
Record callState := { st_seats : seatBidMap; st_errs : list go_error; st_nonBids : SeatNonBidBuilder; st_Cur : list string }.
Definition add_errs (es : list go_error) (st : callState) : callState :=
  {| st_seats := st_seats st; st_errs := st_errs st ++ es; st_nonBids := st_nonBids st; st_Cur := st_Cur st |}.
Definition with_seats (m : seatBidMap) (st : callState) : callState :=
  {| st_seats := m; st_errs := st_errs st; st_nonBids := st_nonBids st; st_Cur := st_Cur st |}.
Definition with_cur (c : list string) (st : callState) : callState :=
  {| st_seats := st_seats st; st_errs := st_errs st; st_nonBids := st_nonBids st; st_Cur := c |}.
(** [seatBidMap[bidder] = f(...)] for the bidder's own seat, which is always there. *)
Definition on_seat (name : string) (f : seatResult → seatResult) (m : seatBidMap) : seatBidMap := alter f name m.

Definition recordHttpCall (hi : httpCallInfo) (st : callState) : callState :=
  let keep := with_seats (on_seat (bc_BidderName call) (λ s, set_sr_HttpCalls (sr_HttpCalls s ++ [makeExt hi]) s) (st_seats st)) st in
  if bo_headerDebugAllowed opts then keep
  else if bo_accountDebugAllowed opts then
    if a_DebugAllow then keep
    else add_errs [Warning "debug turned off for bidder" BidderLevelDebugDisabledWarningCode] st
  else st.

(** The first currency of the request with a rate, else the last error. *)
Fixpoint findRate (from : string) (curs : list string) (lastErr : option cur_error) : result (option cur_error) (float64 * string) :=
  match curs with
  | [] => Err lastErr
  | c :: rest => match GetRate conversions from c with Ok r => Ok (r, c) | Err e => findRate from rest (Some e) end
  end.

(** [addNativeTypes] and printing: the new markup if there is one, and errors; [None] is a nil bid. *)
Definition addNativeTypes (b : Bid) : option string * list go_error :=
  match a_nativeMarkup (bid_AdM b) with
  | None | Some [] => (None, [])
  | Some assets =>
      match getNativeImpByImpID (bid_ImpID b) (cq_Imp (bc_BidRequest call)) with
      | None => (None, [PlainError (native_message NoNativeImp)])
      | Some req =>
          let '(payload, e0) := match a_nativeRequest req with Some p => (p, []) | None => ([], [FailedToUnmarshal (native_message BadNativeRequest)]) end in
          let typed := map (λ a, setAssetTypes a payload) assets in
          let errs := e0 ++ omap (λ x, (λ e, PlainError (native_message e)) <$> x.2) typed in
          match a_printNative (bid_AdM b) typed.*1 with
          | Some markup => (Some markup, errs)
          | None => (None, errs ++ [FailedToMarshal ""])
          end
      end
  end.
Definition set_tb_Bid (b : option Bid) (t : TypedBid) : TypedBid :=
  {| tb_Bid := b; tb_BidMeta := tb_BidMeta t; tb_BidType := tb_BidType t; tb_BidVideo := tb_BidVideo t; tb_DealPriority := tb_DealPriority t; tb_Seat := tb_Seat t |}.
Definition set_bid_AdM (m : string) (b : Bid) : Bid :=
  {| bid_ID := bid_ID b; bid_ImpID := bid_ImpID b; bid_Price := bid_Price b; bid_AdM := m; bid_NURL := bid_NURL b; bid_DealID := bid_DealID b;
     bid_W := bid_W b; bid_H := bid_H b; bid_Exp := bid_Exp b; bid_MType := bid_MType b; bid_ExtType := bid_ExtType b; bid_CrID := bid_CrID b;
     bid_ADomain := bid_ADomain b; bid_Cat := bid_Cat b; bid_CatTax := bid_CatTax b; bid_Dur := bid_Dur b; bid_Ext := bid_Ext b |}.
Definition set_bid_ImpID (i : string) (b : Bid) : Bid :=
  {| bid_ID := bid_ID b; bid_ImpID := i; bid_Price := bid_Price b; bid_AdM := bid_AdM b; bid_NURL := bid_NURL b; bid_DealID := bid_DealID b;
     bid_W := bid_W b; bid_H := bid_H b; bid_Exp := bid_Exp b; bid_MType := bid_MType b; bid_ExtType := bid_ExtType b; bid_CrID := bid_CrID b;
     bid_ADomain := bid_ADomain b; bid_Cat := bid_Cat b; bid_CatTax := bid_CatTax b; bid_Dur := bid_Dur b; bid_Ext := bid_Ext b |}.
Definition set_bid_Price (p : float64) (b : Bid) : Bid :=
  {| bid_ID := bid_ID b; bid_ImpID := bid_ImpID b; bid_Price := p; bid_AdM := bid_AdM b; bid_NURL := bid_NURL b; bid_DealID := bid_DealID b;
     bid_W := bid_W b; bid_H := bid_H b; bid_Exp := bid_Exp b; bid_MType := bid_MType b; bid_ExtType := bid_ExtType b; bid_CrID := bid_CrID b;
     bid_ADomain := bid_ADomain b; bid_Cat := bid_Cat b; bid_CatTax := bid_CatTax b; bid_Dur := bid_Dur b; bid_Ext := bid_Ext b |}.

Fixpoint nativeBids (bids : list TypedBid) : option (list TypedBid * list go_error) :=
  match bids with
  | [] => Some ([], [])
  | t :: rest =>
      if tb_BidType t =s? BidTypeNative then
        b ← tb_Bid t;
        let '(markup, es) := addNativeTypes b in
        let t' := match markup with Some m => set_tb_Bid (Some (set_bid_AdM m b)) t | None => t end in
        '(rest', es') ← nativeBids rest;
        Some (t' :: rest', es ++ es')
      else
        '(rest', es') ← nativeBids rest;
        Some (t :: rest', es')
  end.

(** Stored responses get the impression they are stored for, unless that is switched off. *)
Fixpoint restoreImpIds (req : RequestData) (bids : list TypedBid) : option (list TypedBid) :=
  match bids with
  | [] => Some []
  | t :: rest =>
      t' ← (if rd_Uri req =s? "" then
              reqImpId ← storedImpId (rd_Body req);
              if default false (bc_ImpReplaceImpId call !! reqImpId) then
                b ← tb_Bid t; Some (set_tb_Bid (Some (set_bid_ImpID reqImpId b)) t)
              else Some t
            else Some t);
      rest' ← restoreImpIds req rest;
      Some (t' :: rest')
  end.

(** *** One bid *)
Definition adjustmentFactor (seat : string) : float64 :=
  match bo_bidAdjustments opts !! ToLower seat with
  | Some f => f
  | None => match bo_bidAdjustments opts !! ToLower (bc_BidderName call) with Some f => f | None => f1 end
  end.
Definition seatOf (t : TypedBid) : string := if tb_Seat t =s? "" then bc_BidderName call else tb_Seat t.

(** The price of a bid and the currency it is in, given the rate and the currency of the bidder's seat. *)
Definition priceBid (rate : float64) (cur : string) (t : TypedBid) : option Bid * float64 * string :=
  match tb_Bid t with
  | None => (None, f0, "")
  | Some b =>
      let price := fmul (fmul (bid_Price b) (adjustmentFactor (seatOf t))) rate in
      let bidType := getBidTypeForAdjustments (tb_BidType t) (bid_ImpID b) (cq_Imp (bc_BidRequest call)) in
      let '(price', cur') := Apply conversions rules price (bid_DealID b) (bc_BidderName call) cur bidType in
      (Some (set_bid_Price price' b), bid_Price b, cur')
  end.
Definition pbsBid (respCurrency : string) (t : TypedBid) (b : option Bid) (originalCPM : float64) : PbsOrtbBid :=
  {| pb_Bid := b; pb_BidType := tb_BidType t; pb_BidTargets := ∅; pb_BidFloors := None; pb_TargetBidderCode := "";
     pb_BidMeta := tb_BidMeta t; pb_BidVideo := tb_BidVideo t; pb_BidEvents := None; pb_DealPriority := tb_DealPriority t;
     pb_DealTierSatisfied := false; pb_GeneratedBidID := ""; pb_OriginalBidCPM := originalCPM; pb_OriginalBidCur := respCurrency;
     pb_AdapterCode := bc_BidderCoreName call |}.
Definition ownSeat (m : seatBidMap) : seatResult :=
  default {| sr_Bids := []; sr_Currency := ""; sr_Fledge := None; sr_HttpCalls := []; sr_Seat := "" |} (m !! bc_BidderName call).
(** Names in messages, quoted as far as they need no escape. *)
Definition quote_string (s : string) : string := String "034" s +:+ String "034" "".
Definition code_message (e : code_error) : string :=
  match e with
  | AlternateDisabled b c => "alternateBidderCodes disabled for " +:+ quote_string b +:+ ", rejecting bids for " +:+ quote_string c
  | AlternateNotDefined b c => "alternateBidderCodes not defined for adapter " +:+ quote_string b +:+ ", rejecting bids for " +:+ quote_string c
  | InvalidBidderCode b c => "invalid biddercode " +:+ quote_string c +:+ " sent by adapter " +:+ quote_string b
  end.

Definition addBid (respCurrency : string) (rate : float64) (st : callState) (t : TypedBid) : callState :=
  let bidderName := seatOf t in
  match IsValidBidderCode alternateBidderCodes (bc_BidderName call) bidderName with
  | Err e => add_errs [Warning (code_message e) AlternateBidderCodeWarningCode] st
  | Ok _ =>
      let own := ownSeat (st_seats st) in
      let '(b, originalCPM, cur) := priceBid rate (sr_Currency own) t in
      let seat := default {| sr_Bids := []; sr_Currency := sr_Currency own; sr_Fledge := None; sr_HttpCalls := sr_HttpCalls own; sr_Seat := bidderName |}
                    (st_seats st !! bidderName) in
      with_seats (<[bidderName := set_sr_Currency cur (add_sr_Bid (pbsBid respCurrency t b originalCPM) seat)]> (st_seats st)) st
  end.

(** An answer whose bids the adapter could read. *)
Definition addResponse (hi : httpCallInfo) (st : callState) (resp : BidderResponse) : option callState :=
  let respCurrency := if bp_Currency resp =s? "" then "USD" else bp_Currency resp in
  let st := with_cur (match st_Cur st with [] => ["USD"] | l => l end) st in
  let found := findRate respCurrency (st_Cur st) None in
  let st := match found with
            | Ok (_, cur) => with_seats (on_seat (bc_BidderName call) (set_sr_Currency cur) (st_seats st)) st
            | Err _ => st
            end in
  '(bids, es) ← (if cq_App (bc_BidRequest call) then nativeBids (bp_Bids resp) else Some (bp_Bids resp, []));
  let st := add_errs es st in
  let st := match bp_FledgeAuctionConfigs resp with
            | None => st
            | Some l => with_seats (on_seat (bc_BidderName call) (λ s, set_sr_Fledge (Some (default [] (sr_Fledge s) ++ l)) s) (st_seats st)) st
            end in
  bids ← (match bc_BidderStoredResponses call with [] => Some bids | _ => restoreImpIds (hi_request hi) bids end);
  Some (match found with
        | Ok (rate, _) => foldl (addBid respCurrency rate) st bids
        | Err (Some e) => add_errs [PlainError "no conversion rate"] st
        | Err None => st
        end).

Definition addAnswer (st : callState) (hi : httpCallInfo) : option callState :=
  let st := recordHttpCall hi st in
  match hi_err hi with
  | Some e =>
      let st := add_errs [e] st in
      Some {| st_seats := st_seats st; st_errs := st_errs st; st_Cur := st_Cur st;
              st_nonBids := rejectImps (st_nonBids st) (rd_ImpIDs (hi_request hi)) (httpInfoToNonBidReason hi e) (bc_BidderName call) |}
  | None =>
      let '(resp, es) := a_MakeBids (set_cq_Cur (st_Cur st) (bc_BidRequest call)) (hi_request hi) (hi_response hi) in
      let st := add_errs es st in
      match resp with
      | None => Some st
      | Some resp =>
          match a_RawBidderResponseStage resp (bc_BidderCoreName call) with
          | Err e => Some (add_errs [e] st)
          | Ok resp => addResponse hi st resp
          end
      end
  end.
Fixpoint addAnswers (st : callState) (his : list httpCallInfo) : option callState :=
  match his with
  | [] => Some st
  | hi :: rest => st ← addAnswer st hi; addAnswers st rest
  end.
End call.

(** ** [BidderAdapter.requestBid]
    The request after the hook; what it returns are the seats, the non-bids and the errors. *)
Record callResult := { rr_seats : list seatResult; rr_nonBids : SeatNonBidBuilder; rr_errs : list go_error; rr_Cur : list string }.

Definition withRequest (r : callRequest) (call : bidderCall) : bidderCall :=
  {| bc_BidRequest := r; bc_BidderName := bc_BidderName call; bc_BidderCoreName := bc_BidderCoreName call;
     bc_BidderStoredResponses := bc_BidderStoredResponses call; bc_ImpReplaceImpId := bc_ImpReplaceImpId call |}.
Definition nothing (errs : list go_error) (r : callRequest) : callResult := {| rr_seats := []; rr_nonBids := ∅; rr_errs := errs; rr_Cur := cq_Cur r |}.

Definition requestBid `{Adapter} `{MapRange} (conversions : Conversions) (alternateBidderCodes : ExtAlternateBidderCodes)
    (rules : option (gmap string adj_slice)) (opts : bidRequestOptions) (call : bidderCall) : option callResult :=
  match a_BidderRequestStage (bc_BidRequest call) (bc_BidderName call) with
  | Err e => Some (nothing [e] (bc_BidRequest call))
  | Ok request =>
      let made :=
        match cq_Imp request with
        | [] => Ok (withRequest request call, [], [])
        | _ =>
            let request := match bo_tmaxAdjustments opts with
                           | Some ta => if tp_IsEnforced ta then set_cq_TMax (getBidderTmax (bo_deadline opts) (bo_now opts) (cq_TMax request) ta) request else request
                           | None => request
                           end in
            let call := withRequest request call in
            let '(reqData, errs) := a_MakeRequests request in
            match reqData with
            | [] => Err (match errs with
                         | [] => [FailedToRequestBids "The adapter failed to generate any bid requests, but also failed to generate an error explaining why"]
                         | _ => errs
                         end)
            | _ => let signed := map (signRequest opts call) reqData in
                   Ok (call, signed.*1, errs ++ concat signed.*2)
            end
        end in
      match made with
      | Err errs => Some (nothing errs request)
      | Ok (call, reqData, errs) =>
          let stored := map (λ '(impId, resp), prepareStoredResponse impId resp) (bc_BidderStoredResponses call) in
          let own := {| sr_Bids := []; sr_Currency := "USD"; sr_Fledge := None; sr_HttpCalls := []; sr_Seat := bc_BidderName call |} in
          let st0 := {| st_seats := {[bc_BidderName call := own]}; st_errs := errs; st_nonBids := ∅; st_Cur := cq_Cur (bc_BidRequest call) |} in
          st ← addAnswers conversions alternateBidderCodes rules opts call st0 (a_arrivals stored reqData);
          Some {| rr_seats := (map_range (st_seats st)).*2; rr_nonBids := st_nonBids st; rr_errs := st_errs st; rr_Cur := st_Cur st |}
      end
  end.

(** ** Validation of the bids of a call *)
Definition validateCurrency `{ISO} (allowed : list string) (bidCurrency : string) : option go_error :=
  match ParseISO (if bidCurrency =s? "" then "USD" else bidCurrency) with
  | None => Some (PlainError "currency: tag is not a recognized currency")
  | Some code =>
      let allowed := match allowed with [] => ["USD"] | l => l end in
      if existsb (λ a, ToUpper a =s? code) allowed then None
      else Some (PlainError ("Bid currency is not allowed. Was '" +:+ code +:+ "'"))
  end.

(** [Ok] for a valid bid, otherwise the error, if there is one to report. *)
Definition validateBid (bid : PbsOrtbBid) (debug : bool) : result (option go_error) unit :=
  match pb_Bid bid with
  | None => Err (Some (PlainError "Empty bid object submitted."))
  | Some b =>
      if bid_ID b =s? "" then Err (Some (PlainError "Bid missing required field 'id'"))
      else if bid_ImpID b =s? "" then Err (Some (PlainError ("Bid " +:+ quote_string (bid_ID b) +:+ " missing required field 'impid'")))
      else if bid_Price b <f? f0 then
        Err (if debug then Some (PlainError ("Bid " +:+ quote_string (bid_ID b) +:+ " does not contain a positive (or zero if there is a deal) 'price'")) else None)
      else if (bid_Price b =f? f0) && (bid_DealID b =s? "") then
        Err (if debug then Some (PlainError ("Bid " +:+ quote_string (bid_ID b) +:+ " does not contain positive 'price' which is required since there is no deal set for this bid")) else None)
      else if bid_CrID b =s? "" then Err (Some (PlainError ("Bid " +:+ quote_string (bid_ID b) +:+ " missing creative ID")))
      else Ok tt
  end.
Definition bidValid (debug : bool) (bid : PbsOrtbBid) : bool := match validateBid bid debug with Ok _ => true | Err _ => false end.

Definition removeInvalidBids `{ISO} (cur : list string) (debug : bool) (seat : seatResult) : seatResult * list go_error :=
  let with_bids bs := {| sr_Bids := bs; sr_Currency := sr_Currency seat; sr_Fledge := sr_Fledge seat; sr_HttpCalls := sr_HttpCalls seat; sr_Seat := sr_Seat seat |} in
  match sr_Bids seat with
  | [] => (seat, [])
  | _ =>
      match validateCurrency cur (sr_Currency seat) with
      | Some e => (with_bids [], [e])
      | None => (with_bids (filter (λ b, bidValid debug b = true) (sr_Bids seat)),
                 omap (λ b, match validateBid b debug with Err e => e | Ok _ => None end) (sr_Bids seat))
      end
  end.

(** [validatedBidder.requestBid]: the bidder as the exchange calls it. *)
Definition validatedRequestBid `{Adapter} `{MapRange} `{ISO} (conversions : Conversions) (alternateBidderCodes : ExtAlternateBidderCodes)
    (rules : option (gmap string adj_slice)) (opts : bidRequestOptions) (call : bidderCall) : option callResult :=
  r ← requestBid conversions alternateBidderCodes rules opts call;
  let checked := map (removeInvalidBids (rr_Cur r) (bo_responseDebugAllowed opts)) (rr_seats r) in
  Some {| rr_seats := checked.*1; rr_nonBids := rr_nonBids r; rr_errs := rr_errs r ++ concat checked.*2; rr_Cur := rr_Cur r |}.
