(* ===== verification/BidderSpec.v ===== *)
(** * What a call of a bidder returns

    Theorems on [BidderCall]: the seats hold exactly the bids that were read, sorted and priced; a
    bid that is returned is valid; a bidder that is called has time to answer.  Where a seat mixes
    currencies, or a server fails with 5xx, the code does not do what it means to. *)
From S2P Require Import Prelude GoStrings GoFloat Currency BidAdjustment Bids ErrorTypes ExtWrapper RequestParts BidderCall.

Section spec.
Context `{Adapter} {MR : MapRange}.
Context (conversions : Conversions) (alternateBidderCodes : ExtAlternateBidderCodes) (rules : option (gmap string adj_slice))
        (opts : bidRequestOptions) (call : bidderCall) (cur : string).
Notation addBid := (addBid conversions alternateBidderCodes rules opts call).
Notation addResponse := (addResponse conversions alternateBidderCodes rules opts call).
Notation addAnswer := (addAnswer conversions alternateBidderCodes rules opts call).
Notation addAnswers := (addAnswers conversions alternateBidderCodes rules opts call).
Notation priceBid := (priceBid conversions rules opts call).

Definition validCode (t : TypedBid) : bool := is_ok (IsValidBidderCode alternateBidderCodes (bc_BidderName call) (seatOf call t)).

(** A bid as read: the currency of its response, the rate to the currency of the request, the bid. *)
Notation readBid := (string * float64 * TypedBid)%type.
Definition pricedBid (x : readBid) : PbsOrtbBid :=
  let '(rc, rate, t) := x in
  let '(b, original, _) := priceBid rate cur t in
  pbsBid call rc t b original.
Definition bidsOf (m : seatBidMap) (s : string) : list PbsOrtbBid := default [] (sr_Bids <$> m !! s).
Definition forSeat (s : string) (l : list readBid) : list readBid :=
  filter (λ x, (validCode x.2 && (seatOf call x.2 =s? s)) = true) l.

(** The bids of one answer when the request allows one currency. *)
Definition readAnswer (hi : httpCallInfo) : option (list readBid) :=
  match hi_err hi with
  | Some _ => Some []
  | None =>
      match (a_MakeBids (set_cq_Cur [cur] (bc_BidRequest call)) (hi_request hi) (hi_response hi)).1 with
      | None => Some []
      | Some resp =>
          match a_RawBidderResponseStage resp (bc_BidderCoreName call) with
          | Err _ => Some []
          | Ok resp =>
              let rc := if bp_Currency resp =s? "" then "USD" else bp_Currency resp in
              '(bids, _) ← (if cq_App (bc_BidRequest call) then nativeBids call (bp_Bids resp) else Some (bp_Bids resp, []));
              bids ← (match bc_BidderStoredResponses call with [] => Some bids | _ => restoreImpIds call (hi_request hi) bids end);
              match GetRate conversions rc cur with
              | Ok rate => Some (map (λ t, (rc, rate, t)) bids)
              | Err _ => Some []
              end
          end
      end
  end.

(** Adjustments that leave the currency as it is, and bids that are there. *)
Definition keepsCurrency : Prop := ∀ price deal bidType, (Apply conversions rules price deal (bc_BidderName call) cur bidType).2 = cur.
Definition present (t : TypedBid) : Prop := is_Some (tb_Bid t).

(** *** One bid, one answer, all answers *)
Record seatsInv (m : seatBidMap) : Prop := {
  si_own : is_Some (m !! bc_BidderName call);
  si_cur s x : m !! s = Some x → sr_Seat x = s ∧ (sr_Bids x ≠ [] → sr_Currency x = cur)
}.
(** The bidder's own seat is in the currency of the request. *)
Definition ownCur (m : seatBidMap) : Prop := ∃ own, m !! bc_BidderName call = Some own ∧ sr_Currency own = cur.

Lemma bidsOf_insert m s x k : bidsOf (<[s := x]> m) k = if decide (s = k) then sr_Bids x else bidsOf m k.
Proof. unfold bidsOf. case_decide; subst; [by rewrite lookup_insert_eq|by rewrite lookup_insert_ne]. Qed.
Lemma bidsOf_alter f m s k : (∀ x, sr_Bids (f x) = sr_Bids x) → bidsOf (on_seat s f m) k = bidsOf m k.
Proof.
  intros Hf. unfold bidsOf, on_seat. destruct (decide (s = k)) as [->|].
  - rewrite lookup_alter_eq. destruct (m !! k); simpl; by rewrite ?Hf.
  - by rewrite lookup_alter_ne.
Qed.
Lemma seatsInv_alter f m s :
  (∀ x, sr_Currency x = cur → sr_Currency (f x) = cur) → (∀ x, sr_Seat (f x) = sr_Seat x) → (∀ x, sr_Bids (f x) = sr_Bids x) →
  seatsInv m → seatsInv (on_seat s f m).
Proof.
  intros Hc Hn Hb [Ho Hi]. unfold on_seat. split.
  - destruct (decide (s = bc_BidderName call)) as [->|]; [|by rewrite lookup_alter_ne].
    rewrite lookup_alter_eq. by destruct Ho as [x ->].
  - intros k x Hx. destruct (decide (s = k)) as [->|].
    + rewrite lookup_alter_eq in Hx. destruct (m !! k) as [y|] eqn:E; simplify_eq/=.
      destruct (Hi k y E) as [Hs1 Hs2]. rewrite Hn, Hb. auto.
    + rewrite lookup_alter_ne in Hx by done. by apply Hi.
Qed.
Lemma ownCur_alter f m s :
  (∀ x, sr_Currency x = cur → sr_Currency (f x) = cur) → ownCur m → ownCur (on_seat s f m).
Proof.
  intros Hf (own & Ho & Hc). unfold ownCur, on_seat. destruct (decide (s = bc_BidderName call)) as [->|].
  - rewrite lookup_alter_eq, Ho. simpl. eauto.
  - rewrite lookup_alter_ne by done. eauto.
Qed.
Lemma ownCur_set m : is_Some (m !! bc_BidderName call) → ownCur (on_seat (bc_BidderName call) (set_sr_Currency cur) m).
Proof. intros [x Hx]. unfold ownCur, on_seat. rewrite lookup_alter_eq, Hx. simpl. eauto. Qed.

Lemma forSeat_one s rc rate t :
  forSeat s [(rc, rate, t)] = if validCode t && (seatOf call t =s? s) then [(rc, rate, t)] else [].
Proof. unfold forSeat. rewrite filter_cons, filter_nil. simpl. by destruct (validCode t && _). Qed.
Lemma addBid_spec rc rate st t :
  keepsCurrency → present t → seatsInv (st_seats st) → ownCur (st_seats st) →
  (seatsInv (st_seats (addBid rc rate st t)) ∧ ownCur (st_seats (addBid rc rate st t))) ∧
  (∀ s, bidsOf (st_seats (addBid rc rate st t)) s = bidsOf (st_seats st) s ++ map pricedBid (forSeat s [(rc, rate, t)])) ∧
  st_Cur (addBid rc rate st t) = st_Cur st.
Proof.
  intros Hk [b Hb] Hi Hoc. unfold BidderCall.addBid.
  assert (validCode t = is_ok (IsValidBidderCode alternateBidderCodes (bc_BidderName call) (seatOf call t))) as Hv by done.
  destruct (IsValidBidderCode _ _ _) as [|e]; simpl in Hv.
  2: { split; [done|split; [|done]]. intros s. rewrite forSeat_one, Hv. simpl. by rewrite app_nil_r. }
  destruct Hi as [_ Hc]. destruct Hoc as (own & Hown & Hcur).
  assert (sr_Currency (ownSeat call (st_seats st)) = cur) as Ec by (unfold ownSeat; by rewrite Hown).
  assert (∃ b', priceBid rate cur t = (Some b', bid_Price b, cur)) as [b' Hpb].
  { unfold BidderCall.priceBid. rewrite Hb. destruct (Apply _ _ _ _ _ _ _) as [price' cur'] eqn:Ea.
    match type of Ea with Apply _ _ ?p ?d _ _ ?bt = _ => pose proof (Hk p d bt) as Hx end. rewrite Ea in Hx. simpl in Hx. subst. eauto. }
  rewrite Ec, Hpb.
  cbn [with_seats st_seats st_Cur]. split; [split; [split|]|split; [|done]].
  - destruct (decide (seatOf call t = bc_BidderName call)) as [->|]; [rewrite lookup_insert_eq; eauto|].
    rewrite lookup_insert_ne by done. eauto.
  - intros s x Hx. apply lookup_insert_Some in Hx as [[<- <-]|[_ Hx]]; [|by apply Hc].
    destruct (st_seats st !! seatOf call t) as [y|] eqn:Ey; simpl; [|done]. by destruct (Hc _ _ Ey).
  - unfold ownCur. destruct (decide (seatOf call t = bc_BidderName call)) as [->|].
    + rewrite lookup_insert_eq. eauto.
    + rewrite lookup_insert_ne by done. eauto.
  - intros s. rewrite bidsOf_insert, forSeat_one, Hv. simpl.
    case_decide as Hs; [subst s|].
    + rewrite String.eqb_refl. cbn [map]. unfold pricedBid. rewrite Hpb.
      unfold bidsOf. by destruct (st_seats st !! seatOf call t).
    + apply String.eqb_neq in Hs as ->. simpl. by rewrite app_nil_r.
Qed.

Lemma addBids_spec rc rate bids st :
  keepsCurrency → Forall present bids → seatsInv (st_seats st) → ownCur (st_seats st) →
  let st' := foldl (addBid rc rate) st bids in
  seatsInv (st_seats st') ∧
  (∀ s, bidsOf (st_seats st') s = bidsOf (st_seats st) s ++ map pricedBid (forSeat s (map (λ t, (rc, rate, t)) bids))) ∧
  st_Cur st' = st_Cur st.
Proof.
  intros Hk Hp. revert st. induction Hp as [|t bids Ht Hp IH]; intros st Hi Ho; simpl.
  { split; [done|split; [|done]]. intros s. by rewrite app_nil_r. }
  destruct (addBid_spec rc rate st t Hk Ht Hi Ho) as ((Hi1 & Ho1) & Hb1 & Hc1).
  destruct (IH _ Hi1 Ho1) as (Hi2 & Hb2 & Hc2). split; [done|split; [|congruence]].
  intros s. rewrite Hb2, Hb1, <-app_assoc, <-map_app. unfold forSeat. by rewrite <-filter_app.
Qed.

Lemma recordHttpCall_spec hi st :
  seatsInv (st_seats st) →
  seatsInv (st_seats (recordHttpCall opts call hi st)) ∧ (∀ s, bidsOf (st_seats (recordHttpCall opts call hi st)) s = bidsOf (st_seats st) s) ∧
  st_Cur (recordHttpCall opts call hi st) = st_Cur st.
Proof.
  intros Hi. unfold recordHttpCall. destruct (bo_headerDebugAllowed opts), (bo_accountDebugAllowed opts), a_DebugAllow; simpl;
    try done; (split; [by apply seatsInv_alter|split; [|done]]; intros s; by apply bidsOf_alter).
Qed.

Lemma addResponse_spec hi st resp st' reads :
  keepsCurrency → seatsInv (st_seats st) → st_Cur st = [cur] →
  hi_err hi = None → (a_MakeBids (set_cq_Cur [cur] (bc_BidRequest call)) (hi_request hi) (hi_response hi)).1 = Some resp →
  readAnswer hi = Some reads → Forall present reads.*2 →
  ∀ resp', a_RawBidderResponseStage resp (bc_BidderCoreName call) = Ok resp' → addResponse hi st resp' = Some st' →
  seatsInv (st_seats st') ∧ (∀ s, bidsOf (st_seats st') s = bidsOf (st_seats st) s ++ map pricedBid (forSeat s reads)) ∧ st_Cur st' = [cur].
Proof.
  intros Hk Hi Hcur He Hm Hr Hp resp' Hs Ha. unfold readAnswer in Hr. rewrite He, Hm, Hs in Hr. cbv zeta in Hr.
  unfold BidderCall.addResponse in Ha. cbv zeta in Ha. rewrite Hcur in Ha. cbn [findRate with_cur st_Cur] in Ha.
  destruct (if cq_App (bc_BidRequest call) then _ else _) as [[bids es]|]; [|done]. cbn [mbind option_bind] in Hr, Ha.
  destruct (match bc_BidderStoredResponses call with [] => Some bids | _ => _ end) as [bids'|]; [|done]. cbn [mbind option_bind] in Hr, Ha.
  set (st1 := match bp_FledgeAuctionConfigs resp' with None => _ | Some _ => _ end) in Ha.
  assert (seatsInv (st_seats st1) ∧ (∀ s, bidsOf (st_seats st1) s = bidsOf (st_seats st) s) ∧ st_Cur st1 = [cur]) as (Hi1 & Hb1 & Hc1).
  { unfold st1. destruct (GetRate _ _ _), (bp_FledgeAuctionConfigs resp'); cbn [add_errs with_seats with_cur st_seats st_Cur];
      (split; [|split; [|done]]); repeat apply seatsInv_alter; try done; intros s; rewrite ?bidsOf_alter; done. }
  destruct (GetRate conversions _ cur) as [rate|e].
  - simplify_eq. destruct (addBids_spec (if bp_Currency resp' =s? "" then "USD" else bp_Currency resp') rate bids' st1) as (Hi2 & Hb2 & Hc2); [done| |done| |].
    2: { unfold st1. destruct (bp_FledgeAuctionConfigs resp'); cbn [add_errs with_seats with_cur st_seats]; [apply ownCur_alter; [done|]|]; apply ownCur_set, Hi. }
    { rewrite <-list_fmap_compose in Hp. by rewrite list_fmap_id in Hp. }
    split; [done|split; [|congruence]]. intros s. by rewrite Hb2, Hb1.
  - simplify_eq. cbn [add_errs st_seats st_Cur]. split; [done|split; [|done]]. intros s. rewrite Hb1. by rewrite app_nil_r.
Qed.

Lemma addAnswer_spec hi st st' reads :
  keepsCurrency → seatsInv (st_seats st) → st_Cur st = [cur] →
  readAnswer hi = Some reads → Forall present reads.*2 → addAnswer st hi = Some st' →
  seatsInv (st_seats st') ∧ (∀ s, bidsOf (st_seats st') s = bidsOf (st_seats st) s ++ map pricedBid (forSeat s reads)) ∧ st_Cur st' = [cur].
Proof.
  intros Hk Hi Hcur Hr Hp Ha. destruct (recordHttpCall_spec hi st Hi) as (Hi1 & Hb1 & Hc1). rewrite Hcur in Hc1.
  unfold BidderCall.addAnswer in Ha. set (st1 := recordHttpCall opts call hi st) in *.
  destruct (hi_err hi) as [e|] eqn:He.
  - simplify_eq/=. unfold readAnswer in Hr. rewrite He in Hr. simplify_eq.
    split; [done|split; [|done]]. intros s. by rewrite Hb1, app_nil_r.
  - rewrite Hc1 in Ha. destruct (a_MakeBids _ _ _) as [[resp|] es] eqn:Hm.
    + destruct (a_RawBidderResponseStage resp (bc_BidderCoreName call)) as [resp'|e] eqn:Hs.
      * destruct (addResponse_spec hi (add_errs es st1) resp st' reads Hk Hi1 Hc1 He ltac:(by rewrite Hm) Hr Hp resp' Hs Ha) as (Hi2 & Hb2 & Hc2).
        split; [done|split; [|done]]. intros s. rewrite Hb2. simpl. by rewrite Hb1.
      * simplify_eq. unfold readAnswer in Hr. rewrite He, Hm in Hr. cbn [fst] in Hr. rewrite Hs in Hr. simplify_eq.
        split; [done|split; [|done]]. intros s. simpl. by rewrite Hb1, app_nil_r.
    + simplify_eq. unfold readAnswer in Hr. rewrite He, Hm in Hr. simpl in Hr. simplify_eq.
      split; [done|split; [|done]]. intros s. simpl. by rewrite Hb1, app_nil_r.
Qed.

Lemma addAnswers_spec his st st' reads :
  keepsCurrency → seatsInv (st_seats st) → st_Cur st = [cur] →
  mapM readAnswer his = Some reads → Forall present (concat reads).*2 → addAnswers st his = Some st' →
  seatsInv (st_seats st') ∧ (∀ s, bidsOf (st_seats st') s = bidsOf (st_seats st) s ++ map pricedBid (forSeat s (concat reads))) ∧ st_Cur st' = [cur].
Proof.
  intros Hk. revert st reads. induction his as [|hi his IH]; intros st reads Hi Hcur Hr Hp Ha; simpl in *.
  { injection Hr as <-. simplify_eq/=. split; [done|split; [|done]]. intros s. by rewrite app_nil_r. }
  destruct (readAnswer hi) as [r|] eqn:Hr1; [|done]. destruct (mapM readAnswer his) as [rs|] eqn:Hrs; [|done]. injection Hr as <-. cbn [concat] in *.
  destruct (addAnswer st hi) as [st1|] eqn:Ha1; [|done]. simpl in Ha.
  assert (Forall present r.*2 ∧ Forall present (concat rs).*2) as [Hp1 Hp2] by (apply Forall_app; by rewrite <-fmap_app).
  destruct (addAnswer_spec hi st st1 r Hk Hi Hcur Hr1 Hp1 Ha1) as (Hi1 & Hb1 & Hc1).
  destruct (IH st1 rs Hi1 Hc1 eq_refl Hp2 Ha) as (Hi2 & Hb2 & Hc2).
  split; [done|split; [|done]]. intros s. rewrite Hb2, Hb1, <-app_assoc, <-map_app. unfold forSeat. by rewrite <-filter_app.
Qed.
End spec.

(** ** The whole call *)

(** The call that is made, and the HTTP requests: what [requestBid] prepares before it waits. *)
Definition prepared `{Adapter} (opts : bidRequestOptions) (call : bidderCall) : option (bidderCall * list httpCallInfo) :=
  match a_BidderRequestStage (bc_BidRequest call) (bc_BidderName call) with
  | Err _ => None
  | Ok request =>
      let stored := map (λ '(impId, resp), prepareStoredResponse impId resp) (bc_BidderStoredResponses call) in
      match cq_Imp request with
      | [] => Some (withRequest request call, a_arrivals stored [])
      | _ =>
          let request := match bo_tmaxAdjustments opts with
                         | Some ta => if tp_IsEnforced ta then set_cq_TMax (getBidderTmax (bo_deadline opts) (bo_now opts) (cq_TMax request) ta) request else request
                         | None => request
                         end in
          match (a_MakeRequests request).1 with
          | [] => None
          | reqData => let call := withRequest request call in Some (call, a_arrivals stored (map (signRequest opts call) reqData).*1)
          end
      end
  end.

Lemma requestBid_prepared `{Adapter} {MR : MapRange} conversions abc rules opts call r :
  requestBid conversions abc rules opts call = Some r →
  match prepared opts call with
  | None => rr_seats r = []
  | Some (call', his) =>
      bc_BidderName call' = bc_BidderName call ∧
      ∃ errs st, addAnswers conversions abc rules opts call'
        {| st_seats := {[bc_BidderName call := {| sr_Bids := []; sr_Currency := "USD"; sr_Fledge := None; sr_HttpCalls := []; sr_Seat := bc_BidderName call |}]};
           st_errs := errs; st_nonBids := ∅; st_Cur := cq_Cur (bc_BidRequest call') |} his = Some st ∧ rr_seats r = (map_range (st_seats st)).*2
  end.
Proof.
  unfold requestBid, prepared. destruct (a_BidderRequestStage _ _) as [request|e]; [|by intros [= <-]]. cbv zeta.
  destruct (cq_Imp request).
  - destruct (addAnswers _ _ _ _ _ _ _) as [st|] eqn:E; [|done]. cbn [mbind option_bind]. intros [= <-].
    split; [done|]. eexists _, st. by split.
  - destruct (a_MakeRequests _) as [reqData errs]. cbn [fst]. destruct reqData; [by intros [= <-]|].
    destruct (addAnswers _ _ _ _ _ _ _) as [st|] eqn:E; [|done]. cbn [mbind option_bind]. intros [= <-].
    split; [done|]. eexists _, st. by split.
Qed.

(** The seats of a call hold exactly the bids that were read.  For a request that allows one
    currency, with adjustments that do not change it and no nil bids: whatever the order in which
    the answers arrive, each seat holds, in that order, the bids of the answers whose seat code is
    allowed for the bidder and names it, each priced as the original price times the bidder's factor
    times the rate, adjusted by the rules; a seat with bids is in the currency of the request, and
    there is one entry per seat. *)
Theorem call_returns_bids_read `{Adapter} {MR : MapRange} conversions abc rules opts call cur call' his reads r :
  prepared opts call = Some (call', his) → cq_Cur (bc_BidRequest call') = [cur] →
  keepsCurrency conversions rules call' cur →
  mapM (readAnswer conversions call' cur) his = Some reads → Forall present (concat reads).*2 →
  requestBid conversions abc rules opts call = Some r →
  NoDup (sr_Seat <$> rr_seats r) ∧
  (∀ seat, seat ∈ rr_seats r → (sr_Bids seat ≠ [] → sr_Currency seat = cur) ∧
     sr_Bids seat = map (pricedBid conversions rules opts call' cur) (forSeat abc call' (sr_Seat seat) (concat reads))) ∧
  (∀ x, x ∈ concat reads → validCode abc call' x.2 = true → seatOf call' x.2 ∈ sr_Seat <$> rr_seats r).
Proof.
  intros Hprep Hcur Hk Hr Hp Hreq. pose proof (requestBid_prepared _ _ _ _ _ _ Hreq) as Hrun. rewrite Hprep in Hrun.
  destruct Hrun as (Hname & errs & st & Hans & Hseats).
  eapply addAnswers_spec in Hans as (Hi & Hb & _); [|done| |done..].
  2: { split; cbn [st_seats].
       - rewrite Hname, lookup_singleton_eq. eauto.
       - intros s x [<- <-]%lookup_singleton_Some. done. }
  assert (∀ s, bidsOf {[bc_BidderName call := {| sr_Bids := []; sr_Currency := "USD"; sr_Fledge := None; sr_HttpCalls := []; sr_Seat := bc_BidderName call |}]} s = []) as Hnil.
  { intros s. unfold bidsOf. destruct (decide (bc_BidderName call = s)) as [<-|]; [by rewrite lookup_singleton_eq|by rewrite lookup_singleton_ne]. }
  cbn [st_seats] in Hb. setoid_rewrite Hnil in Hb. simpl in Hb.
  pose proof (map_range_perm (st_seats st)) as Hperm. rewrite Hseats.
  assert (∀ x, x ∈ (map_range (st_seats st)).*2 ↔ ∃ k, st_seats st !! k = Some x) as Hin.
  { intros x. rewrite (fmap_Permutation snd _ _ Hperm), list_elem_of_fmap. split.
    - intros ([k y] & -> & Hky). exists k. by apply elem_of_map_to_list.
    - intros [k Hk']. exists (k, x). split; [done|by apply elem_of_map_to_list]. }
  assert (∀ k x, st_seats st !! k = Some x → sr_Seat x = k) as Hseat by (intros k x Hx; by apply (si_cur _ _ _ Hi k x)).
  assert (sr_Seat <$> (map_range (st_seats st)).*2 ≡ₚ (map_to_list (st_seats st)).*1) as Hnames.
  { rewrite (fmap_Permutation snd _ _ Hperm), <-list_fmap_compose.
    rewrite (list_fmap_ext (sr_Seat ∘ snd) fst); [done|]. intros i [k x] Hx. simpl.
    apply Hseat, elem_of_map_to_list. by eapply list_elem_of_lookup_2. }
  split; [rewrite Hnames; apply NoDup_fst_map_to_list|split].
  - intros seat [k Hk']%Hin. destruct (si_cur _ _ _ Hi k seat Hk') as [Hs Hc]. split; [done|].
    rewrite Hs, <-Hb. unfold bidsOf. by rewrite Hk'.
  - intros x Hx Hv. rewrite Hnames, list_elem_of_fmap.
    assert (pricedBid conversions rules opts call' cur x ∈ bidsOf (st_seats st) (seatOf call' x.2)) as Hbid.
    { rewrite Hb. apply list_elem_of_fmap. exists x. split; [done|]. apply list_elem_of_filter. by rewrite Hv, String.eqb_refl. }
    unfold bidsOf in Hbid. destruct (st_seats st !! seatOf call' x.2) as [y|] eqn:Ey; [|by apply elem_of_nil in Hbid].
    exists (seatOf call' x.2, y). split; [done|by apply elem_of_map_to_list].
Qed.

(** ** Validity *)
(** What validation promises of a bid. *)
Definition wellFormedBid (b : Bid) : Prop :=
  bid_ID b ≠ "" ∧ bid_ImpID b ≠ "" ∧ bid_CrID b ≠ "" ∧ (bid_Price b <f? f0) = false ∧ (bid_DealID b = "" → (bid_Price b =f? f0) = false).
Lemma validateBid_sound bid debug : bidValid debug bid = true → ∃ b, pb_Bid bid = Some b ∧ wellFormedBid b.
Proof.
  unfold bidValid, validateBid. destruct (pb_Bid bid) as [b|]; [|done]. intros Hv. exists b. split; [done|].
  destruct (bid_ID b =s? "") eqn:E1; [done|]. destruct (bid_ImpID b =s? "") eqn:E2; [done|].
  destruct (bid_Price b <f? f0) eqn:E3; [done|]. destruct ((bid_Price b =f? f0) && _) eqn:E4; [done|].
  destruct (bid_CrID b =s? "") eqn:E5; [done|]. go_bool. repeat split; try done.
  intros Hd. rewrite Hd in E4. by rewrite andb_true_r in E4.
Qed.

(** C12: Every bid the exchange gets from a bidder is valid, and in a seat whose currency the request
    allows: it has an identifier, an impression and a creative, its price is not negative, and not
    zero without a deal. *)
Theorem returned_bids_valid `{Adapter} {MR : MapRange} `{ISO} conversions abc rules opts call r :
  validatedRequestBid conversions abc rules opts call = Some r →
  ∀ seat bid, seat ∈ rr_seats r → bid ∈ sr_Bids seat →
  (∃ b, pb_Bid bid = Some b ∧ wellFormedBid b) ∧
  ∃ code, ParseISO (if sr_Currency seat =s? "" then "USD" else sr_Currency seat) = Some code ∧
          code ∈ ToUpper <$> (match rr_Cur r with [] => ["USD"] | l => l end).
Proof.
  unfold validatedRequestBid. destruct (requestBid _ _ _ _ _) as [r0|]; [|done]. cbn [mbind option_bind].
  intros [= <-] seat bid Hseat Hbid. cbn [rr_seats rr_Cur] in *.
  rewrite <-list_fmap_compose in Hseat. apply list_elem_of_fmap in Hseat as (s0 & -> & _). simpl in Hbid |- *.
  revert Hbid. unfold removeInvalidBids. destruct (sr_Bids s0) eqn:Eb.
  { simpl. rewrite Eb. by intros ?%elem_of_nil. }
  destruct (validateCurrency _ _) as [e|] eqn:Ec; simpl; intros Hbid; [by apply elem_of_nil in Hbid|].
  apply list_elem_of_filter in Hbid as [Hv _]. split; [exact (validateBid_sound _ _ Hv)|].
  unfold validateCurrency in Ec. destruct (ParseISO _) as [code|]; [|done]. exists code. split; [done|].
  destruct (existsb _ _) eqn:Ee; [|done]. apply existsb_exists in Ee as (a & Ha & He). apply String.eqb_eq in He.
  apply list_elem_of_fmap. exists a. split; [by symmetry|]. apply list_elem_of_In. by destruct (rr_Cur r0).
Qed.

(** ** Time *)
Lemma quot_shift x k : 0 ≤ k → 0 ≤ x - k * 1000000 → Z.quot (x - k * 1000000) 1000000 = Z.quot x 1000000 - k.
Proof.
  intros Hk Hx. rewrite !Z.quot_div_nonneg by lia. replace (x - k * 1000000) with (x + (- k) * 1000000) by lia.
  rewrite Z.div_add by lia. lia.
Qed.

(** C13: A bidder that is called is told it has enough time.  With enforced time limits, when the request
    is sent at [now'] (it is not given up for lack of time), the [tmax] written into it at [now], not
    later, is at least the minimal time to respond. *)
Theorem called_bidder_has_time deadline now now' requestTmax ta :
  tp_IsEnforced ta = true → now ≤ now' →
  0 ≤ tp_BidderNetworkLatencyBuffer ta → 0 ≤ tp_PBSResponsePreparationDuration ta → 0 < tp_BidderResponseDurationMin ta →
  (tp_BidderNetworkLatencyBuffer ta + tp_PBSResponsePreparationDuration ta) * 1000000 < two63 → 0 ≤ deadline - now < two63 →
  hasShorterDurationThanTmax (Some deadline) now' ta = false →
  tp_BidderResponseDurationMin ta ≤ getBidderTmax (Some deadline) now requestTmax ta.
Proof.
  intros He Hle Hb Hp Hm Hov Hd Hs. unfold hasShorterDurationThanTmax, getBidderTmax, milliseconds in *. rewrite He in *.
  set (k := tp_BidderNetworkLatencyBuffer ta + tp_PBSResponsePreparationDuration ta) in *.
  cbv zeta in Hs. rewrite wrap64_id in Hs by (unfold int64_range, two63 in *; lia). apply Z.ltb_ge in Hs.
  assert (0 ≤ deadline - k * 1000000 - now') as Hpos.
  { destruct (Z.le_gt_cases 0 (deadline - k * 1000000 - now')) as [|Hneg]; [done|]. exfalso.
    assert (Z.quot (deadline - k * 1000000 - now') 1000000 ≤ 0); [|lia].
    replace (deadline - k * 1000000 - now') with (- (k * 1000000 + now' - deadline)) by lia.
    rewrite Z.quot_opp_l by lia. pose proof (Z.quot_pos (k * 1000000 + now' - deadline) 1000000). lia. }
  assert (Z.quot (deadline - k * 1000000 - now') 1000000 ≤ Z.quot (deadline - now) 1000000 - k) as Hq.
  { rewrite <-quot_shift by (unfold k; lia). apply Z.quot_le_mono; lia. }
  assert (Z.quot (deadline - now) 1000000 ≤ deadline - now) as Hle2 by (apply Z.quot_le_upper_bound; lia).
  replace (Z.quot (deadline - now) 1000000 - tp_BidderNetworkLatencyBuffer ta - tp_PBSResponsePreparationDuration ta)
    with (Z.quot (deadline - now) 1000000 - k) by (unfold k; lia).
  rewrite wrap64_id; [lia|]. unfold int64_range, two63 in *. unfold k in *. lia.
Qed.
Lemma called_bidder_has_time_witness :
  let ta := {| tp_BidderNetworkLatencyBuffer := 20; tp_PBSResponsePreparationDuration := 30; tp_BidderResponseDurationMin := 100; tp_IsEnforced := true |} in
  100 ≤ getBidderTmax (Some 500000000) 10000000 700 ta.
Proof.
  intros ta. apply (called_bidder_has_time 500000000 10000000 20000000 700 ta); try reflexivity; try (simpl; lia).
  unfold two63. simpl. lia.
Defined.

(** ** Health *)
Definition afterStatus (c : throttleConfig) (status : Z) (health : float64) : float64 :=
  (doRequest c None None 0 "b" health f1 None (Answered status "") {| rd_Method := ""; rd_Uri := ""; rd_Body := ""; rd_Headers := []; rd_ImpIDs := [] |}).2.
Definition afterFailure (c : throttleConfig) (health : float64) : float64 :=
  (doRequest c None None 0 "b" health f1 None (DoFailed false true "") {| rd_Method := ""; rd_Uri := ""; rd_Body := ""; rd_Headers := []; rd_ImpIDs := [] |}).2.

(** A server that only fails with 5xx is never taken for unhealthy: each such answer is logged as a
    failure and then as a success, so with a window of ten the measure stays below one half after a
    thousand of them, while refused connections drive it above 0.99. *)
Theorem server_errors_count_as_healthy :
  let c := adaptThrottle true false 10 in
  (Nat.iter 1000 (afterStatus c 503) f0 <f? flit 5 10) = true ∧ (flit 99 100 <f? Nat.iter 1000 (afterFailure c) f0) = true.
Proof. vm_compute. done. Qed.

(** ** A bidder with one request *)
Definition demoBid (id deal : string) (price : float64) : Bid :=
  {| bid_ID := id; bid_ImpID := "i1"; bid_Price := price; bid_AdM := "<div/>"; bid_NURL := ""; bid_DealID := deal; bid_W := 300; bid_H := 250;
     bid_Exp := 0; bid_MType := 1; bid_ExtType := None; bid_CrID := "c1"; bid_ADomain := []; bid_Cat := []; bid_CatTax := 0; bid_Dur := 0; bid_Ext := "" |}.
Definition demoTyped (seat : string) (b : Bid) : TypedBid :=
  {| tb_Bid := Some b; tb_BidMeta := None; tb_BidType := BidTypeBanner; tb_BidVideo := None; tb_DealPriority := 0; tb_Seat := seat |}.
Definition demoResponse (currency : string) (bids : list TypedBid) : BidderResponse :=
  {| bp_Currency := currency; bp_Bids := bids; bp_FledgeAuctionConfigs := None |}.
(** Each request is answered with the response named by its URI. *)
Definition demoAdapter (responses : list (string * BidderResponse)) : Adapter :=
  {| a_MakeRequests := λ _, (map (λ x, {| rd_Method := "POST"; rd_Uri := x.1; rd_Body := "{}"; rd_Headers := []; rd_ImpIDs := ["i1"] |}) responses, []);
     a_MakeBids := λ _ req _, (snd <$> List.find (λ x, x.1 =s? rd_Uri req) responses, []);
     a_BidderRequestStage := λ r _, Ok r;
     a_RawBidderResponseStage := λ r _, Ok r;
     a_Sign := λ _ _, Ok "";
     a_XPrebid := λ _, "pbs";
     a_arrivals := λ stored reqs, stored ++ map (λ req, {| hi_request := req; hi_response := Some {| rs_StatusCode := 200; rs_Body := "" |}; hi_err := None; hi_unreachable := false |}) reqs;
     a_nativeMarkup := λ _, None; a_nativeRequest := λ _, None; a_printNative := λ _ _, None; a_DebugAllow := true |}.
Definition demoCall (curs : list string) : bidderCall :=
  {| bc_BidRequest := {| cq_Imp := [{| ci_ID := "i1"; ci_VideoPlcmt := None; ci_Native := None |}]; cq_App := false; cq_Cur := curs; cq_TMax := 500 |};
     bc_BidderName := "appnexus"; bc_BidderCoreName := "appnexus"; bc_BidderStoredResponses := []; bc_ImpReplaceImpId := ∅ |}.
Definition demoOptions : bidRequestOptions :=
  {| bo_accountDebugAllowed := false; bo_headerDebugAllowed := false; bo_addCallSignHeader := false; bo_bidAdjustments := {["appnexus" := flit 5 10]};
     bo_tmaxAdjustments := None; bo_responseDebugAllowed := false; bo_globalPrivacyControlHeader := ""; bo_deadline := None; bo_now := 0 |}.
Definition allCodes : ExtAlternateBidderCodes :=
  {| abc_Enabled := true; abc_Bidders := {["appnexus" := {| aabc_Enabled := true; aabc_AllowedBidderCodes := Some ["groupm"] |}]} |}.
(** Dollars and euros at two to one; nothing else converts. *)
Definition demoRates : Conversions :=
  {| GetRate := λ from to, if from =s? to then Ok f1
                           else if (from =s? "EUR") && (to =s? "USD") then Ok (fofZ 2)
                           else if (from =s? "USD") && (to =s? "EUR") then Ok (flit 5 10)
                           else Err (ConversionNotFoundError from to);
     GetRates := None |}.

(** Seats with their currency and the prices of their bids. *)
Definition seatPrices (r : option callResult) : list (string * string * list float64) :=
  match r with
  | Some r => map (λ s, (sr_Seat s, sr_Currency s, omap (λ b, bid_Price <$> pb_Bid b) (sr_Bids s))) (rr_seats r)
  | None => []
  end.

Lemma call_returns_bids_read_witness :
  let bids := [demoTyped "" (demoBid "b1" "" (fofZ 3)); demoTyped "groupm" (demoBid "b2" "" (fofZ 4)); demoTyped "other" (demoBid "b3" "" (fofZ 5))] in
  ∃ r, requestBid (H := demoAdapter [("u", demoResponse "EUR" bids)]) (H0 := canonical_range) demoRates allCodes None demoOptions (demoCall ["USD"]) = Some r ∧
       NoDup (sr_Seat <$> rr_seats r).
Proof.
  intros bids. eexists. split; [vm_compute; reflexivity|].
  refine (proj1 (@call_returns_bids_read (demoAdapter [("u", demoResponse "EUR" bids)]) canonical_range demoRates allCodes None demoOptions
    (demoCall ["USD"]) "USD" (demoCall ["USD"]) _ [map (λ t, ("EUR", fofZ 2, t)) bids] _ _ _ _ _ _ _)).
  - vm_compute. reflexivity.
  - reflexivity.
  - intros price deal bidType. reflexivity.
  - vm_compute. reflexivity.
  - repeat apply Forall_cons_2; try (eexists; reflexivity). apply Forall_nil_2.
  - vm_compute. reflexivity.
Defined.

Lemma returned_bids_valid_witness :
  let r := validatedRequestBid (H := demoAdapter [("u", demoResponse "USD" [demoTyped "" (demoBid "b1" "" (fofZ 3)); demoTyped "" (demoBid "" "" (fofZ 3))])])
             (H0 := canonical_range) (H1 := iso_usd_eur_jpy) demoRates allCodes None demoOptions (demoCall ["USD"]) in
  ∃ r0 s b, r = Some r0 ∧ s ∈ rr_seats r0 ∧ b ∈ sr_Bids s ∧ ∃ x, pb_Bid b = Some x ∧ wellFormedBid x.
Proof.
  intros r. eexists _, _, _. split; [vm_compute; reflexivity|]. split; [left|]. split; [left|].
  refine (proj1 (@returned_bids_valid (demoAdapter [("u", demoResponse "USD" [demoTyped "" (demoBid "b1" "" (fofZ 3)); demoTyped "" (demoBid "" "" (fofZ 3))])])
    canonical_range iso_usd_eur_jpy demoRates allCodes None demoOptions (demoCall ["USD"]) _ _ _ _ _ _)).
  - vm_compute. reflexivity.
  - left.
  - left.
Defined.

(** A seat is labelled with the currency of its last bid.  Two dollar bids for a request in dollars;
    an adjustment sets the price of the bid with a deal to five euros.  With the deal first both are
    labelled euros, with the deal last as well: the other bid's dollars become euros. *)
Definition staticRules : option (gmap string adj_slice) :=
  Some {[rule_key "banner" "appnexus" "d1" := Some [{| adj_Type := AdjustmentTypeStatic; adj_Value := fofZ 5; adj_Currency := "EUR" |}]]}.
Theorem seat_mixes_currencies :
  let run bids := seatPrices (requestBid (H := demoAdapter [("u", demoResponse "USD" bids)]) (H0 := canonical_range) demoRates allCodes staticRules demoOptions (demoCall ["USD"])) in
  let deal := demoTyped "" (demoBid "b1" "d1" (fofZ 4)) in
  let open := demoTyped "" (demoBid "b2" "" (fofZ 4)) in
  run [deal; open] = [("appnexus", "EUR", [fofZ 5; fofZ 2])] ∧ run [open; deal] = [("appnexus", "EUR", [fofZ 2; fofZ 5])].
Proof. vm_compute. done. Qed.

(** Two answers of one bidder that convert to different currencies of the request share a seat: the
    first bid's yen are labelled dollars. *)
Theorem answers_share_a_currency :
  let yen := demoTyped "" (demoBid "b1" "" (fofZ 400)) in
  let euro := demoTyped "" (demoBid "b2" "" (fofZ 4)) in
  seatPrices (requestBid (H := demoAdapter [("u", demoResponse "JPY" [yen]); ("v", demoResponse "EUR" [euro])]) (H0 := canonical_range)
    demoRates allCodes None demoOptions (demoCall ["JPY"; "USD"])) = [("appnexus", "USD", [fofZ 200; fofZ 4])].
Proof. vm_compute. done. Qed.
