(* ===== verification/Category.v ===== *)
(** * Category mapping and competitive exclusion: src/exchange/exchange.go

    [applyCategoryMapping] labels every bid with its price bucket, category and duration, drops
    the bids that cannot be labelled, and keeps one bid per category (or per label). *)
From S2P Require Import Prelude GoFloat Order Bids PriceGranularity ErrorTypes BidderCall.

(** ** [strconv.ParseFloat] on what [FormatFloat(x, 'f', ...)] prints *)
(** The digits read so far, and how many of them follow the point; [None] before a point. *)
Fixpoint decimal_scan (s : string) (acc : Z) (frac : option nat) (seen : bool) : option (Z * nat) :=
  match s with
  | EmptyString => if seen then Some (acc, default 0%nat frac) else None
  | String a rest =>
      match digit a with
      | Some d => decimal_scan rest (acc * 10 + d) (S <$> frac) true
      | None => if Ascii.eqb a "." then match frac with None => decimal_scan rest acc (Some 0%nat) seen | Some _ => None end
                else None
      end
  end.

(** The quotient is rounded once; a value out of range is an error. *)
Definition decimal_value (neg : bool) (n : Z) (k : nat) : option float64 :=
  match n with
  | Zpos p =>
      match SFdiv prec64 emax64 (S754_finite neg p 0) (S754_finite false (Nat.iter k (Pos.mul 10) 1%positive) 0) with
      | S754_infinity _ => None
      | x => Some x
      end
  | _ => Some (S754_zero neg)
  end.
Definition ParseFloat_f (s : string) : option float64 :=
  let '(neg, body) := match s with
                      | String "-"%char r => (true, r)
                      | String "+"%char r => (false, r)
                      | _ => (false, s)
                      end in
  if s =s? "NaN" then Some S754_nan
  else if body =s? "Inf" then Some (S754_infinity neg)
  else '(n, k) ← decimal_scan body 0 None false; decimal_value neg n k.

(** ** Data *)
Record ExtIncludeBrandCategory := {
  ibc_PrimaryAdServer : Z;
  ibc_Publisher : string;
  ibc_WithCategory : bool;
  ibc_TranslateCategories : option bool
}.

(** What the mapping reads of [ExtRequestTargeting]. *)
Record categoryTargeting := {
  ct_IncludeBrandCategory : option ExtIncludeBrandCategory;
  ct_DurationRangeSec : list Z;
  ct_AppendBidderNames : bool
}.

(** The bid that holds a key so far. *)
Record bidDedupe := { dd_bidderName : string; dd_bidIndex : nat; dd_bidID : string; dd_bidPrice : string }.

(** ** Helpers *)
Inductive duration_error := DurationExceedsMaximum.

Fixpoint duration_loop (dur : Z) (newDur : Z) (madeSelection : bool) (ranges : list Z) : Z * bool :=
  match ranges with
  | [] => (newDur, madeSelection)
  | r :: rest =>
      if r <? dur then duration_loop dur newDur madeSelection rest
      else if dur =? r then (r, true)
      else if (r <? newDur) || negb madeSelection then duration_loop dur r true rest
      else duration_loop dur newDur madeSelection rest
  end.
Definition findDurationRange (dur : Z) (durationRanges : list Z) : result duration_error Z :=
  let '(newDur, madeSelection) := duration_loop dur dur false durationRanges in
  match negb madeSelection, durationRanges with
  | true, _ :: _ => Err DurationExceedsMaximum
  | _, _ => Ok newDur
  end.

Inductive adserver_error := PrimaryAdServerNotRecognized (id : Z).
Definition getPrimaryAdServer (adServerId : Z) : result adserver_error string :=
  if adServerId =? 1 then Ok "freewheel"
  else if adServerId =? 2 then Ok "dfp"
  else Err (PrimaryAdServerNotRecognized adServerId).

Definition updateRejections (rejections : list string) (bidID reason : string) : list string :=
  rejections ++ ["bid rejected [bid ID: " +:+ bidID +:+ "] reason: " +:+ reason].

(** [append(l[:i], l[i+1:]...)] *)
Definition remove_at {A} (i : nat) (l : list A) : list A := take i l ++ drop (S i) l.

(** The index of the first bid with the id; a nil bid before it is a panic. *)
Fixpoint find_bid (st : bid_store) (bidID : string) (bids : list loc) : option (option nat) :=
  match bids with
  | [] => Some None
  | l :: rest =>
      b ← bid_of st l;
      if bid_ID b =s? bidID then Some (Some 0%nat)
      else option_map (option_map S) (find_bid st bidID rest)
  end.
(** The two branches of the code cut the same element, the last one without copying. *)
Definition removeBidById (st : bid_store) (seatBid : PbsOrtbSeatBid) (bidID : string) : option PbsOrtbSeatBid :=
  i ← find_bid st bidID (seat_Bids seatBid);
  Some (match i with
        | Some i => set_seat_Bids (remove_at i (seat_Bids seatBid)) seatBid
        | None => seatBid
        end).

Definition sort_Ints (l : list nat) : list nat := stable_sort Nat.ltb l.
(** Removal of sorted indices from the last to the first. *)
Definition remove_indices {A} (bidsToRemove : list nat) (bids : list A) : list A :=
  foldr remove_at bids (sort_Ints bidsToRemove).

(** ** [applyCategoryMapping] *)
(** What the body of the loop finds out about one bid before it looks for duplicates. *)
Inductive bid_label :=
| Unlabelled (reason : string) (nonBid : bool)
| Labelled (dupeKey categoryDuration priceBucket : string).

Record cat_state := {
  cm_seats : gmap string PbsOrtbSeatBid;
  cm_res : gmap string string;
  cm_dedupe : gmap string bidDedupe;
  cm_rejections : list string;
  cm_seatBidsToRemove : list string;
  cm_bidsToRemove : list nat;
  cm_nonBids : SeatNonBidBuilder
}.

Section CategoryMapping.
Context `{MapRange}.
(** [FetchCategories] is the stored-request backend's; the empty category counts as not found.
    [bucketCoin] and [dedupeCoin] are the draws made for a bid by the rounding of its price
    and by [booleanGenerator]. *)
Context (st : bid_store) (targeting : categoryTargeting) (brandCatExt : ExtIncludeBrandCategory)
        (FetchCategories : string → string → string → option string)
        (bucket : Bid → loc → option string) (dedupeCoin : loc → bool).
Context (translateCategories : bool) (primaryAdServer publisher : string).

Definition category_of (p : PbsOrtbBid) (bid : Bid) : result (string * bool) string :=
  let category := match pb_BidVideo p with Some v => bv_PrimaryCategory v | None => "" end in
  if ibc_WithCategory brandCatExt && (category =s? "") then
    match bid_Cat bid with
    | [cat] =>
        if translateCategories then
          match FetchCategories primaryAdServer publisher cat with
          | Some c => if c =s? "" then Err ("Category mapping file for primary ad server: '" +:+ primaryAdServer +:+ "', publisher: '" +:+ publisher +:+ "' not found", false)
                      else Ok c
          | None => Err ("Category mapping file for primary ad server: '" +:+ primaryAdServer +:+ "', publisher: '" +:+ publisher +:+ "' not found", false)
          end
        else Ok cat
    | _ => Err ("Bid did not contain a category", true)
    end
  else Ok category.

(** [None] is a nil dereference. *)
Definition label_bid (bidderName : string) (l : loc) (p : PbsOrtbBid) (bid : Bid) : option bid_label :=
  let duration := match pb_BidVideo p with Some v => bv_Duration v | None => 0 end in
  match category_of p bid with
  | Err (reason, nonBid) => Some (Unlabelled reason nonBid)
  | Ok category =>
      priceBucket ← bucket bid l;
      Some (match findDurationRange duration (ct_DurationRangeSec targeting) with
            | Err _ => Unlabelled "bid duration exceeds maximum allowed" false
            | Ok newDur =>
                let '(categoryDuration, dupeKey) :=
                  if ibc_WithCategory brandCatExt
                  then (priceBucket +:+ "_" +:+ category +:+ "_" +:+ pretty newDur +:+ "s", category)
                  else let cd := priceBucket +:+ "_" +:+ pretty newDur +:+ "s" in (cd, cd) in
                let categoryDuration :=
                  if ct_AppendBidderNames targeting then categoryDuration +:+ "_" +:+ bidderName else categoryDuration in
                Labelled dupeKey categoryDuration priceBucket
            end)
  end.

Definition bucket_price (s : string) : float64 := default f0 (ParseFloat_f s).
(** Does the current bid replace the older one?  A tie is decided by the draw. *)
Definition replaces (dupePrice priceBucket : string) (coin : bool) : bool :=
  let dupeBidPrice := bucket_price dupePrice in
  let currBidPrice := bucket_price priceBucket in
  let '(d, c) := if dupeBidPrice =f? currBidPrice
                 then if coin then (fofZ (-1), currBidPrice) else (dupeBidPrice, fofZ (-1))
                 else (dupeBidPrice, currBidPrice) in
  d <f? c.

Definition drop_current (i : nat) (bidID reason : string) (s : cat_state) : cat_state :=
  {| cm_seats := cm_seats s; cm_res := cm_res s; cm_dedupe := cm_dedupe s;
     cm_rejections := updateRejections (cm_rejections s) bidID reason;
     cm_seatBidsToRemove := cm_seatBidsToRemove s; cm_bidsToRemove := cm_bidsToRemove s ++ [i];
     cm_nonBids := cm_nonBids s |}.

Definition record_bid (bidID dupeKey categoryDuration : string) (d : bidDedupe) (s : cat_state) : cat_state :=
  {| cm_seats := cm_seats s; cm_res := <[bidID := categoryDuration]> (cm_res s);
     cm_dedupe := <[dupeKey := d]> (cm_dedupe s); cm_rejections := cm_rejections s;
     cm_seatBidsToRemove := cm_seatBidsToRemove s; cm_bidsToRemove := cm_bidsToRemove s; cm_nonBids := cm_nonBids s |}.

(** An older bid with the key loses its place: from the current bidder by index, from a seat
    that is finished with by id, or with its whole seat. *)
Definition drop_older (bidderName : string) (dupe : bidDedupe) (s : cat_state) : option cat_state :=
  let rejections := updateRejections (cm_rejections s) (dd_bidID dupe) "Bid was deduplicated" in
  let res := delete (dd_bidID dupe) (cm_res s) in
  if dd_bidderName dupe =s? bidderName then
    Some {| cm_seats := cm_seats s; cm_res := res; cm_dedupe := cm_dedupe s; cm_rejections := rejections;
            cm_seatBidsToRemove := cm_seatBidsToRemove s;
            cm_bidsToRemove := cm_bidsToRemove s ++ [dd_bidIndex dupe]; cm_nonBids := cm_nonBids s |}
  else
    oldSeatBid ← cm_seats s !! dd_bidderName dupe;
    if (length (seat_Bids oldSeatBid) =? 1)%nat then
      Some {| cm_seats := cm_seats s; cm_res := res; cm_dedupe := cm_dedupe s; cm_rejections := rejections;
              cm_seatBidsToRemove := cm_seatBidsToRemove s ++ [dd_bidderName dupe];
              cm_bidsToRemove := cm_bidsToRemove s; cm_nonBids := cm_nonBids s |}
    else
      seat' ← removeBidById st oldSeatBid (dd_bidID dupe);
      Some {| cm_seats := <[dd_bidderName dupe := seat']> (cm_seats s); cm_res := res; cm_dedupe := cm_dedupe s;
              cm_rejections := rejections; cm_seatBidsToRemove := cm_seatBidsToRemove s;
              cm_bidsToRemove := cm_bidsToRemove s; cm_nonBids := cm_nonBids s |}.

(** The body of the inner loop. *)
Definition map_bid (bidderName : string) (i : nat) (l : loc) (s : cat_state) : option cat_state :=
  p ← st !! l;
  bid ← pb_Bid p;
  label ← label_bid bidderName l p bid;
  match label with
  | Unlabelled reason nonBid =>
      let s' := drop_current i (bid_ID bid) reason s in
      Some (if nonBid
            then {| cm_seats := cm_seats s'; cm_res := cm_res s'; cm_dedupe := cm_dedupe s'; cm_rejections := cm_rejections s';
                    cm_seatBidsToRemove := cm_seatBidsToRemove s'; cm_bidsToRemove := cm_bidsToRemove s';
                    cm_nonBids := rejectBid (cm_nonBids s') p ResponseRejectedCategoryMappingInvalid bidderName |}
            else s')
  | Labelled dupeKey categoryDuration priceBucket =>
      let d := {| dd_bidderName := bidderName; dd_bidIndex := i; dd_bidID := bid_ID bid; dd_bidPrice := priceBucket |} in
      match cm_dedupe s !! dupeKey with
      | None => Some (record_bid (bid_ID bid) dupeKey categoryDuration d s)
      | Some dupe =>
          if replaces (dd_bidPrice dupe) priceBucket (dedupeCoin l)
          then s' ← drop_older bidderName dupe s; Some (record_bid (bid_ID bid) dupeKey categoryDuration d s')
          else Some (drop_current i (bid_ID bid) "Bid was deduplicated" s)
      end
  end.

Fixpoint map_bids (bidderName : string) (i : nat) (bids : list loc) (s : cat_state) : option cat_state :=
  match bids with
  | [] => Some s
  | l :: rest => s' ← map_bid bidderName i l s; map_bids bidderName (S i) rest s'
  end.

(** The end of a seat: the bids collected for removal leave it, or the whole seat is marked. *)
Definition finish_seat (bidderName : string) (seatBid : PbsOrtbSeatBid) (s : cat_state) : cat_state :=
  match cm_bidsToRemove s with
  | [] => s
  | _ =>
      if (length (cm_bidsToRemove s) =? length (seat_Bids seatBid))%nat then
        {| cm_seats := cm_seats s; cm_res := cm_res s; cm_dedupe := cm_dedupe s; cm_rejections := cm_rejections s;
           cm_seatBidsToRemove := cm_seatBidsToRemove s ++ [bidderName]; cm_bidsToRemove := cm_bidsToRemove s;
           cm_nonBids := cm_nonBids s |}
      else
        {| cm_seats := <[bidderName := set_seat_Bids (remove_indices (cm_bidsToRemove s) (seat_Bids seatBid)) seatBid]> (cm_seats s);
           cm_res := cm_res s; cm_dedupe := cm_dedupe s; cm_rejections := cm_rejections s;
           cm_seatBidsToRemove := cm_seatBidsToRemove s; cm_bidsToRemove := cm_bidsToRemove s; cm_nonBids := cm_nonBids s |}
  end.

Definition map_seat (s : cat_state) (bidderName : string) : option cat_state :=
  seatBid ← cm_seats s !! bidderName;
  let s := {| cm_seats := cm_seats s; cm_res := cm_res s; cm_dedupe := cm_dedupe s; cm_rejections := cm_rejections s;
              cm_seatBidsToRemove := cm_seatBidsToRemove s; cm_bidsToRemove := []; cm_nonBids := cm_nonBids s |} in
  s' ← map_bids bidderName 0 (seat_Bids seatBid) s;
  seatBid' ← cm_seats s' !! bidderName;
  Some (finish_seat bidderName seatBid' s').

Fixpoint map_seats (names : list string) (s : cat_state) : option cat_state :=
  match names with
  | [] => Some s
  | n :: rest => s' ← map_seat s n; map_seats rest s'
  end.

(** The marked seats lose all their bids. *)
Definition clear_seats (names : list string) (seats : gmap string PbsOrtbSeatBid) : gmap string PbsOrtbSeatBid :=
  foldl (λ m n, alter (set_seat_Bids []) n m) seats names.

Record category_outcome := {
  co_res : gmap string string;
  co_seats : gmap string PbsOrtbSeatBid;
  co_rejections : list string;
  co_nonBids : SeatNonBidBuilder
}.

Definition category_loop (seatBids : gmap string PbsOrtbSeatBid) (nonBids : SeatNonBidBuilder) : option category_outcome :=
  s ← map_seats (map_range seatBids).*1
        {| cm_seats := seatBids; cm_res := ∅; cm_dedupe := ∅; cm_rejections := []; cm_seatBidsToRemove := [];
           cm_bidsToRemove := []; cm_nonBids := nonBids |};
  Some {| co_res := cm_res s; co_seats := clear_seats (cm_seatBidsToRemove s) (cm_seats s);
          co_rejections := cm_rejections s; co_nonBids := cm_nonBids s |}.
End CategoryMapping.

(** Whether categories are translated, by which ad server's mapping and for which publisher. *)
Definition mapping_source (ext : ExtIncludeBrandCategory) : result adserver_error (bool * string * string) :=
  let translate := if ibc_WithCategory ext then default true (ibc_TranslateCategories ext) else true in
  if ibc_WithCategory ext && translate then
    let? server := getPrimaryAdServer (ibc_PrimaryAdServer ext) in Ok (translate, server, ibc_Publisher ext)
  else Ok (translate, "", "").

(** [None] is a panic: without [includebrandcategory] the first bid dereferences nil. *)
Definition applyCategoryMapping `{MapRange} (st : bid_store) (targeting : categoryTargeting)
    (FetchCategories : string → string → string → option string) (bucket : Bid → loc → option string)
    (dedupeCoin : loc → bool) (seatBids : gmap string PbsOrtbSeatBid) (nonBids : SeatNonBidBuilder)
    : option (result adserver_error category_outcome) :=
  match ct_IncludeBrandCategory targeting with
  | None =>
      if forallb (λ kv : string * PbsOrtbSeatBid, match seat_Bids kv.2 with [] => true | _ => false end) (map_range seatBids)
      then Some (Ok {| co_res := ∅; co_seats := seatBids; co_rejections := []; co_nonBids := nonBids |}) else None
  | Some ext =>
      match mapping_source ext with
      | Err e => Some (Err e)
      | Ok (translate, server, publisher) =>
          o ← category_loop st targeting ext FetchCategories bucket dedupeCoin translate server publisher seatBids nonBids;
          Some (Ok o)
      end
  end.
