(* ===== verification/CategorySpec.v ===== *)
(** * What category mapping keeps

    The loop of [applyCategoryMapping] against a description of its result: the bid recorded for a
    key at the end is the only one of the key that stays, and the labels are those of the bids
    that stay. *)
From S2P Require Import Prelude GoFloat Order Bids PriceGranularity ErrorTypes BidderCall Category.

(** ** Lists filtered by position *)
Section Keep.
Context {A : Type}.
Implicit Types (P Q : nat → A → bool) (l : list A).

Fixpoint keep P (i : nat) l : list A :=
  match l with
  | [] => []
  | x :: rest => if P i x then x :: keep P (S i) rest else keep P (S i) rest
  end.

Lemma keep_ext P Q i l : (∀ j x, l !! j = Some x → P (i + j)%nat x = Q (i + j)%nat x) → keep P i l = keep Q i l.
Proof.
  revert i. induction l as [|x l IH]; intros i Heq; [done|]. simpl.
  pose proof (Heq 0%nat x eq_refl) as H0. rewrite Nat.add_0_r in H0. rewrite H0.
  rewrite (IH (S i)); [done|]. intros j y Hj. rewrite Nat.add_succ_comm. by apply Heq.
Qed.

Lemma elem_of_keep P i l x : x ∈ keep P i l ↔ ∃ j, l !! j = Some x ∧ P (i + j)%nat x = true.
Proof.
  revert i. induction l as [|y l IH]; intros i; simpl.
  - split; [by intros ?%elem_of_nil|intros (j & ? & _); done].
  - assert (x ∈ keep P (S i) l ↔ ∃ j, (y :: l) !! S j = Some x ∧ P (i + S j)%nat x = true) as Hrest.
    { rewrite IH. split; intros (j & Hj & HP); exists j; (split; [done|]);
      [by replace (i + S j)%nat with (S i + j)%nat by lia|by replace (S i + j)%nat with (i + S j)%nat by lia]. }
    destruct (P i y) eqn:E; rewrite ?elem_of_cons, Hrest; split.
    + intros [->|(j & ?)]; [exists 0%nat; by rewrite Nat.add_0_r|by exists (S j)].
    + intros ([|j] & Hj & HP); [left; by injection Hj|right; by exists j].
    + intros (j & ?). by exists (S j).
    + intros ([|j] & Hj & HP); [|by exists j]. injection Hj as ->. rewrite Nat.add_0_r in HP. congruence.
Qed.

Lemma keep_sublist P i l : sublist (keep P i l) l.
Proof. revert i. induction l as [|x l IH]; intros i; simpl; [constructor|]. destruct (P i x); by constructor. Qed.

Lemma keep_all P i l : (∀ j x, l !! j = Some x → P (i + j)%nat x = true) → keep P i l = l.
Proof.
  intros Hall. rewrite (keep_ext P (λ _ _, true)) by done. clear Hall.
  revert i. induction l as [|x l IH]; intros i; simpl; [done|by rewrite IH].
Qed.

Lemma keep_none P i l : (∀ j x, l !! j = Some x → P (i + j)%nat x = false) → keep P i l = [].
Proof.
  intros Hall. destruct (keep P i l) as [|x r] eqn:E; [done|].
  assert (x ∈ keep P i l) as (j & Hj & HP)%elem_of_keep by (rewrite E; left).
  by rewrite (Hall j x Hj) in HP.
Qed.

(** Turning one position off takes its element out. *)
Lemma keep_split P Q i l j x :
  l !! j = Some x → P (i + j)%nat x = true → Q (i + j)%nat x = false →
  (∀ j' y, j' ≠ j → l !! j' = Some y → Q (i + j')%nat y = P (i + j')%nat y) →
  ∃ l1 l2, keep P i l = l1 ++ x :: l2 ∧ keep Q i l = l1 ++ l2 ∧ (∀ y, y ∈ l1 → ∃ j', j' ≠ j ∧ l !! j' = Some y).
Proof.
  revert i j. induction l as [|z l IH]; intros i j Hj HP HQ Hrest; [done|]. destruct j as [|j]; simpl.
  - injection Hj as ->. rewrite Nat.add_0_r in HP, HQ. rewrite HP, HQ. exists [], (keep P (S i) l). split; [done|].
    split; [|by intros ? ?%elem_of_nil]. apply keep_ext. intros j y Hj. rewrite Nat.add_succ_comm. by apply Hrest.
  - destruct (IH (S i) j Hj) as (l1 & l2 & E1 & E2 & Hl1).
    + by rewrite Nat.add_succ_comm.
    + by rewrite Nat.add_succ_comm.
    + intros j' y Hne Hy. rewrite Nat.add_succ_comm. apply Hrest; [lia|done].
    + pose proof (Hrest 0%nat z ltac:(lia) eq_refl) as H0. rewrite Nat.add_0_r in H0. rewrite H0, E1, E2.
      destruct (P i z).
      * exists (z :: l1), l2. split_and!; [done..|]. intros y [->|Hy]%elem_of_cons; [by exists 0%nat|].
        destruct (Hl1 y Hy) as (j' & ? & ?). exists (S j'). split; [lia|done].
      * exists l1, l2. split_and!; [done..|]. intros y Hy. destruct (Hl1 y Hy) as (j' & ? & ?). exists (S j'). split; [lia|done].
Qed.

(** Removing sorted indices from the last to the first. *)
Lemma foldr_remove_cons i x l s :
  Forall (λ a, i < a)%nat s →
  foldr (λ a, remove_at (a - i)) (x :: l) s = x :: foldr (λ a, remove_at (a - S i)) l s.
Proof.
  induction 1 as [|a s Ha _ IH]; [done|]. simpl. rewrite IH. unfold remove_at.
  by replace (a - i)%nat with (S (a - S i)) by lia.
Qed.

Lemma foldr_remove_at i l s :
  StronglySorted lt s → Forall (λ a, i ≤ a < i + length l)%nat s →
  foldr (λ a, remove_at (a - i)) l s = keep (λ j _, bool_decide (j ∉ s)) i l.
Proof.
  revert i s. induction l as [|x l IH]; intros i s Hs Hb.
  - destruct s as [|a s]; [done|]. apply Forall_cons in Hb as [Hb _]. simpl in Hb. lia.
  - destruct s as [|a s].
    { simpl. f_equal. symmetry. apply keep_all. done. }
    apply StronglySorted_inv in Hs as [Hs Ha]. apply Forall_cons in Hb as [Hab Hb]. simpl length in *.
    destruct (decide (a = i)) as [->|Hne].
    + assert (Forall (λ a, i < a)%nat s) as Hgt by (eapply Forall_impl; [exact Ha|done]).
      change (foldr ?f ?b (i :: s)) with (f i (foldr f b s)). cbv beta. rewrite foldr_remove_cons by done. rewrite Nat.sub_diag. unfold remove_at at 1. simpl.
      rewrite IH; [|done|]. 2:{ apply Forall_forall. intros b Hin. rewrite Forall_forall in Hb, Hgt. specialize (Hb b Hin). specialize (Hgt b Hin). lia. }
      rewrite bool_decide_eq_false_2 by (rewrite elem_of_cons; naive_solver). apply keep_ext. intros j y _.
      apply bool_decide_ext. rewrite elem_of_cons. split; [intros ? [?|?]; [lia|done]|naive_solver].
    + assert (Forall (λ b, i < b)%nat (a :: s)) as Hgt.
      { constructor; [lia|]. eapply Forall_impl; [exact Ha|]. simpl. lia. }
      rewrite foldr_remove_cons by done. simpl keep. rewrite bool_decide_eq_true_2.
      2:{ intros Hin. rewrite Forall_forall in Hgt. specialize (Hgt i Hin). lia. }
      f_equal. apply IH; [by constructor|]. apply Forall_forall. intros b Hin.
      rewrite Forall_forall in Hgt. specialize (Hgt b Hin). apply elem_of_cons in Hin as [->|Hin]; [lia|].
      rewrite Forall_forall in Hb. specialize (Hb b Hin). lia.
Qed.

#[local] Instance nat_swo : SWO (λ _ : nat, True) Nat.ltb.
Proof.
  split.
  - intros x y _ _ Hxy%Nat.ltb_lt. apply Nat.ltb_ge. lia.
  - intros x y z _ _ _ Hxz%Nat.ltb_lt. destruct (x <? y)%nat eqn:E; [by left|right]. apply Nat.ltb_lt. apply Nat.ltb_ge in E. lia.
Qed.

Lemma remove_indices_keep (s : list nat) l :
  NoDup s → Forall (λ a, a < length l)%nat s →
  remove_indices s l = keep (λ j _, bool_decide (j ∉ s)) 0 l.
Proof.
  intros Hnd Hb. unfold remove_indices, sort_Ints.
  pose proof (stable_sort_perm Nat.ltb s) as Hp.
  assert (StronglySorted lt (stable_sort Nat.ltb s)) as Hs.
  { assert (sorted_by Nat.ltb (stable_sort Nat.ltb s)) as Hsort by (apply (stable_sort_sorted (λ _, True) _); by apply Forall_true).
    rewrite <- Hp in Hnd. clear Hb Hp. revert Hsort Hnd. generalize (stable_sort Nat.ltb s) as t. induction t as [|a t IH]; intros Hsort Hnd; [constructor|].
    apply NoDup_cons in Hnd as [Hni Hnd]. apply StronglySorted_inv in Hsort as [Hst Ha].
    constructor; [by apply IH|]. apply Forall_forall. intros b Hin. rewrite Forall_forall in Ha. specialize (Ha b Hin).
    apply Nat.ltb_ge in Ha. assert (a ≠ b) by (intros ->; done). lia. }
  transitivity (foldr (λ a, remove_at (a - 0)) l (stable_sort Nat.ltb s)).
  { clear. induction (stable_sort Nat.ltb s) as [|a t IH]; [done|]. simpl. by rewrite IH, Nat.sub_0_r. }
  rewrite foldr_remove_at; [|done|].
  - apply keep_ext. intros j y _. apply bool_decide_ext. by rewrite Hp.
  - rewrite Hp. eapply Forall_impl; [exact Hb|]. simpl. lia.
Qed.
End Keep.

(** ** The invariant of the loop *)
Section Invariant.
Context (st : bid_store) (targeting : categoryTargeting) (brandCatExt : ExtIncludeBrandCategory)
        (FetchCategories : string → string → string → option string)
        (bucket : Bid → loc → option string) (dedupeCoin : loc → bool).
Context (translateCategories : bool) (primaryAdServer publisher : string).
Context (seats : gmap string PbsOrtbSeatBid).

(** The label the loop computes for a bid of a bidder. *)
Definition bid_label_of (name : string) (l : loc) : option bid_label :=
  p ← st !! l; b ← pb_Bid p;
  label_bid targeting brandCatExt FetchCategories bucket translateCategories primaryAdServer publisher name l p b.
Definition the_bid (name : string) (i : nat) (l : loc) : Prop :=
  ∃ seat, seats !! name = Some seat ∧ seat_Bids seat !! i = Some l.
Definition has_id (l : loc) (id : string) : Prop := ∃ b, bid_of st l = Some b ∧ bid_ID b = id.

(** Every bid can be labelled without a nil dereference, and ids tell bids apart. *)
Definition labels_total : Prop := ∀ name i l, the_bid name i l → is_Some (bid_label_of name l).
Definition ids_distinct : Prop := ∀ n1 i1 l1 n2 i2 l2 id,
  the_bid n1 i1 l1 → the_bid n2 i2 l2 → has_id l1 id → has_id l2 id → n1 = n2 ∧ i1 = i2.
Definition prices_ordered : Prop := ∀ name i l k cd pb,
  the_bid name i l → bid_label_of name l = Some (Labelled k cd pb) → is_nan (bucket_price pb) = false.

(** The bid at the position holds its key. *)
Definition alive (dd : gmap string bidDedupe) (name : string) (i : nat) (l : loc) : bool :=
  match bid_label_of name l with
  | Some (Labelled k _ _) =>
      match dd !! k with
      | Some d => (dd_bidderName d =s? name) && (dd_bidIndex d =? i)%nat
      | None => false
      end
  | _ => false
  end.

Lemma alive_true dd name i l :
  alive dd name i l = true ↔
  ∃ k cd pb d, bid_label_of name l = Some (Labelled k cd pb) ∧ dd !! k = Some d ∧ dd_bidderName d = name ∧ dd_bidIndex d = i.
Proof.
  unfold alive. split.
  - destruct (bid_label_of name l) as [[|k cd pb]|] eqn:E; try done. destruct (dd !! k) as [d|] eqn:Ed; [|done].
    intros [Hn Hi]%andb_true_iff. apply String.eqb_eq in Hn. apply Nat.eqb_eq in Hi. by exists k, cd, pb, d.
  - intros (k & cd & pb & d & E & Ed & <- & <-). by rewrite E, Ed, String.eqb_refl, Nat.eqb_refl.
Qed.

Lemma alive_insert dd k d name i l :
  alive (<[k := d]> dd) name i l =
  match bid_label_of name l with
  | Some (Labelled k' _ _) => if decide (k' = k) then (dd_bidderName d =s? name) && (dd_bidIndex d =? i)%nat else alive dd name i l
  | _ => false
  end.
Proof.
  unfold alive. destruct (bid_label_of name l) as [[|k' cd pb]|]; [done| |done].
  destruct (decide (k' = k)) as [->|Hne]; [by rewrite lookup_insert_eq|by rewrite lookup_insert_ne].
Qed.

(** Replacing the holder of [k] by [d] changes only the two positions. *)
Lemma alive_insert_other dd k d name i l :
  (dd_bidderName d, dd_bidIndex d) ≠ (name, i) →
  (∀ old, dd !! k = Some old → (dd_bidderName old, dd_bidIndex old) ≠ (name, i)) →
  alive (<[k := d]> dd) name i l = alive dd name i l.
Proof.
  intros Hd Hold. rewrite alive_insert. unfold alive. destruct (bid_label_of name l) as [[|k' cd pb]|]; [done| |done].
  destruct (decide (k' = k)) as [->|]; [|done].
  assert ((dd_bidderName d =s? name) && (dd_bidIndex d =? i)%nat = false) as ->.
  { apply not_true_is_false. intros [Hn%String.eqb_eq Hi%Nat.eqb_eq]%andb_true_iff. by subst. }
  destruct (dd !! k) as [old|] eqn:E; [|done]. symmetry. apply not_true_is_false.
  intros [Hn%String.eqb_eq Hi%Nat.eqb_eq]%andb_true_iff. apply (Hold old eq_refl). by subst.
Qed.

(** What the loop has seen: the seats that are finished with, and a part of the current one. *)
Definition covered (done : list string) (cur : string) (n : nat) (name : string) (i : nat) : Prop :=
  name ∈ done ∨ (name = cur ∧ (i < n)%nat).

Record cat_inv (done : list string) (cur : string) (n : nat) (s : cat_state) : Prop := {
  ci_dedupe : ∀ k d, cm_dedupe s !! k = Some d → ∃ l cd,
    the_bid (dd_bidderName d) (dd_bidIndex d) l ∧ has_id l (dd_bidID d) ∧
    bid_label_of (dd_bidderName d) l = Some (Labelled k cd (dd_bidPrice d)) ∧
    covered done cur n (dd_bidderName d) (dd_bidIndex d);
  ci_res : ∀ id cd, cm_res s !! id = Some cd ↔ ∃ k d l,
    cm_dedupe s !! k = Some d ∧ dd_bidID d = id ∧ the_bid (dd_bidderName d) (dd_bidIndex d) l ∧
    bid_label_of (dd_bidderName d) l = Some (Labelled k cd (dd_bidPrice d));
  ci_best : ∀ name i l k cd pb, the_bid name i l → covered done cur n name i →
    bid_label_of name l = Some (Labelled k cd pb) →
    ∃ d, cm_dedupe s !! k = Some d ∧ fltb (bucket_price (dd_bidPrice d)) (bucket_price pb) = false;
  ci_rest : ∀ name seat, seats !! name = Some seat → name ∉ done → cm_seats s !! name = Some seat;
  ci_done : ∀ name seat, seats !! name = Some seat → name ∈ done → ∃ bs,
    cm_seats s !! name = Some (set_seat_Bids bs seat) ∧
    (name ∈ cm_seatBidsToRemove s → ∀ i l, seat_Bids seat !! i = Some l → alive (cm_dedupe s) name i l = false) ∧
    (name ∉ cm_seatBidsToRemove s → bs = keep (alive (cm_dedupe s) name) 0 (seat_Bids seat));
  ci_marked : ∀ name, name ∈ cm_seatBidsToRemove s → name ∈ done
}.
(** The bids collected for removal are those of the current seat that hold no key. *)
Record cur_inv (cur : string) (n : nat) (s : cat_state) : Prop := {
  cu_nodup : NoDup (cm_bidsToRemove s);
  cu_exact : ∀ i, i ∈ cm_bidsToRemove s ↔ (i < n)%nat ∧ ∃ l, the_bid cur i l ∧ alive (cm_dedupe s) cur i l = false
}.

Lemma the_bid_fun name i l l' : the_bid name i l → the_bid name i l' → l = l'.
Proof. intros (s1 & Hs1 & H1) (s2 & Hs2 & H2). congruence. Qed.

Lemma covered_S done cur n name i : covered done cur (S n) name i ↔ covered done cur n name i ∨ (name = cur ∧ i = n).
Proof. unfold covered. split; [intros [?|[? ?]]|intros [[?|[? ?]]|[? ->]]]; [by left; left| |by left|right; split; [done|lia]|right; split; [done|lia]].
  destruct (decide (i = n)); [by right|left; right; split; [done|lia]]. Qed.

Section Step.
Context (Htotal : labels_total) (Hids : ids_distinct) (Hnan : prices_ordered).
Context (done_ : list string) (cur : string) (n : nat) (s : cat_state) (l : loc).
Context (Hcur : cur ∉ done_) (Hl : the_bid cur n l) (Hinv : cat_inv done_ cur n s) (Hrem : cur_inv cur n s).

Lemma not_covered_yet : ¬ covered done_ cur n cur n.
Proof. intros [?|[_ ?]]; [done|lia]. Qed.

(** The bid is dropped: it holds no key and its key, if any, has a holder that is no cheaper. *)
Lemma drop_step s' :
  cm_seats s' = cm_seats s → cm_res s' = cm_res s → cm_dedupe s' = cm_dedupe s →
  cm_seatBidsToRemove s' = cm_seatBidsToRemove s → cm_bidsToRemove s' = cm_bidsToRemove s ++ [n] →
  (∀ k cd pb, bid_label_of cur l = Some (Labelled k cd pb) →
     ∃ d, cm_dedupe s !! k = Some d ∧ fltb (bucket_price (dd_bidPrice d)) (bucket_price pb) = false) →
  cat_inv done_ cur (S n) s' ∧ cur_inv cur (S n) s'.
Proof.
  intros Es Er Ed Em Eb Hhold.
  assert (alive (cm_dedupe s) cur n l = false) as Hdead.
  { apply not_true_is_false. intros (k & cd & pb & d & _ & Hd & Hn & Hi)%alive_true.
    destruct (ci_dedupe _ _ _ _ Hinv k d Hd) as (? & ? & _ & _ & _ & Hc). rewrite Hn, Hi in Hc. by apply not_covered_yet. }
  split; split; rewrite ?Es, ?Er, ?Ed, ?Em; try apply Hinv.
  - intros k d Hd. destruct (ci_dedupe _ _ _ _ Hinv k d Hd) as (l' & cd & ? & ? & ? & Hc).
    exists l', cd. split_and!; [done..|]. apply covered_S. by left.
  - intros name i l' k cd pb Hb Hc Hlab. apply covered_S in Hc as [Hc|[-> ->]]; [by eapply (ci_best _ _ _ _ Hinv)|].
    rewrite (the_bid_fun _ _ _ _ Hb Hl) in Hlab. eauto.
  - rewrite Eb. apply NoDup_app. split_and!; [apply Hrem| |apply NoDup_singleton].
    intros i Hi ->%list_elem_of_singleton. apply (cu_exact _ _ _ Hrem) in Hi as [? _]. lia.
  - intros i. rewrite Eb, elem_of_app, list_elem_of_singleton, (cu_exact _ _ _ Hrem). split.
    + intros [[? ?]| ->]; [split; [lia|done]|]. split; [lia|]. by exists l.
    + intros [Hi (l' & Hb & Ha)]. destruct (decide (i = n)) as [->|]; [by right|left]. split; [lia|]. by exists l'.
Qed.

(** The bid takes its key, from [old] if it was held. *)
Context (k cd pb id : string) (Hlab : bid_label_of cur l = Some (Labelled k cd pb)) (Hid : has_id l id).
Let d := {| dd_bidderName := cur; dd_bidIndex := n; dd_bidID := id; dd_bidPrice := pb |}.
Let dd' := <[k := d]> (cm_dedupe s).

Lemma take_dedupe k' d' : dd' !! k' = Some d' → ∃ l cd,
    the_bid (dd_bidderName d') (dd_bidIndex d') l ∧ has_id l (dd_bidID d') ∧
    bid_label_of (dd_bidderName d') l = Some (Labelled k' cd (dd_bidPrice d')) ∧
    covered done_ cur (S n) (dd_bidderName d') (dd_bidIndex d').
Proof.
  intros [[<- <-]|[_ Hd]]%lookup_insert_Some.
  - exists l, cd. split_and!; [done..|]. apply covered_S. by right.
  - destruct (ci_dedupe _ _ _ _ Hinv k' d' Hd) as (l' & cd' & ? & ? & ? & Hc).
    exists l', cd'. split_and!; [done..|]. apply covered_S. by left.
Qed.

Lemma take_best name i l' k' cd' pb' :
  (∀ old, cm_dedupe s !! k = Some old → fltb (bucket_price pb) (bucket_price (dd_bidPrice old)) = false) →
  the_bid name i l' → covered done_ cur (S n) name i → bid_label_of name l' = Some (Labelled k' cd' pb') →
  ∃ d', dd' !! k' = Some d' ∧ fltb (bucket_price (dd_bidPrice d')) (bucket_price pb') = false.
Proof.
  intros Hold Hb Hc Hlab'. apply covered_S in Hc as [Hc|[-> ->]].
  - destruct (ci_best _ _ _ _ Hinv name i l' k' cd' pb' Hb Hc Hlab') as (d' & Hd' & Hle).
    destruct (decide (k' = k)) as [->|Hne]; [|exists d'; unfold dd'; by rewrite lookup_insert_ne].
    exists d. unfold dd'. rewrite lookup_insert_eq. split; [done|].
    destruct (ci_dedupe _ _ _ _ Hinv k d' Hd') as (lo & cdo & Hbo & _ & Hlabo & _).
    eapply (swo_nless_trans (λ x, is_nan x = false) fltb _ (bucket_price (dd_bidPrice d'))); eauto.
  - rewrite (the_bid_fun _ _ _ _ Hb Hl), Hlab in Hlab'. simplify_eq.
    exists d. unfold dd'. rewrite lookup_insert_eq. split; [done|]. simpl. apply (swo_irrefl (λ x, is_nan x = false) fltb). eauto.
Qed.

Lemma take_res id' cd' :
  <[id := cd]> (match cm_dedupe s !! k with Some old => delete (dd_bidID old) (cm_res s) | None => cm_res s end) !! id' = Some cd' ↔
  ∃ k' d' l', dd' !! k' = Some d' ∧ dd_bidID d' = id' ∧ the_bid (dd_bidderName d') (dd_bidIndex d') l' ∧
    bid_label_of (dd_bidderName d') l' = Some (Labelled k' cd' (dd_bidPrice d')).
Proof.
  assert (∀ k' d', cm_dedupe s !! k' = Some d' → dd_bidID d' ≠ id) as Hfresh.
  { intros k' d' Hd' Heq. destruct (ci_dedupe _ _ _ _ Hinv k' d' Hd') as (l' & ? & Hb & Hi & _ & Hc). rewrite Heq in Hi.
    destruct (Hids _ _ _ _ _ _ _ Hb Hl Hi Hid) as [E1 E2]. rewrite E1, E2 in Hc. by apply not_covered_yet. }
  destruct (decide (id' = id)) as [->|Hne].
  - rewrite lookup_insert_eq. split.
    + intros [= <-]. exists k, d, l. unfold dd'. by rewrite lookup_insert_eq.
    + intros (k' & d' & l' & [[<- <-]|[_ Hd']]%lookup_insert_Some & Hi & Hb & Hlab').
      * simpl in *. rewrite (the_bid_fun _ _ _ _ Hb Hl) in Hlab'. congruence.
      * by destruct (Hfresh k' d' Hd').
  - rewrite lookup_insert_ne by done.
    assert ((match cm_dedupe s !! k with Some old => delete (dd_bidID old) (cm_res s) | None => cm_res s end) !! id' = Some cd' ↔
            cm_res s !! id' = Some cd' ∧ (∀ old, cm_dedupe s !! k = Some old → dd_bidID old ≠ id')) as ->.
    { destruct (cm_dedupe s !! k) as [old|].
      - rewrite lookup_delete_Some. split; [intros [? ?]; split; [done|]; by intros ? [= <-]|intros [? Ho]; split; [by apply Ho|done]].
      - split; [by intros ?|by intros [? _]]. }
    rewrite (ci_res _ _ _ _ Hinv). split.
    + intros [(k' & d' & l' & Hd' & Hi & Hb & Hlab') Hold]. exists k', d', l'. split_and!; [|done..]. unfold dd'.
      rewrite lookup_insert_ne; [done|]. intros <-. by apply (Hold d').
    + intros (k' & d' & l' & [[<- <-]|[Hk Hd']]%lookup_insert_Some & Hi & Hb & Hlab'); [done|]. split; [by exists k', d', l'|].
      intros old Ho Heq. destruct (ci_dedupe _ _ _ _ Hinv k old Ho) as (lo & cdo & Hbo & Hio & Hlo & _).
      destruct (ci_dedupe _ _ _ _ Hinv k' d' Hd') as (lx & cdx & Hbx & Hix & Hlx & _). rewrite Heq in Hio. rewrite Hi in Hix.
      destruct (Hids _ _ _ _ _ _ _ Hbo Hbx Hio Hix) as [E1 E2]. rewrite E1, E2 in Hbo. rewrite E1 in Hlo.
      rewrite (the_bid_fun _ _ _ _ Hbo Hbx), Hlx in Hlo. congruence.
Qed.

Lemma alive_new : alive dd' cur n l = true.
Proof. apply alive_true. exists k, cd, pb, d. unfold dd'. by rewrite lookup_insert_eq. Qed.
Lemma alive_same name i l' : (name, i) ≠ (cur, n) →
  (∀ old, cm_dedupe s !! k = Some old → (dd_bidderName old, dd_bidIndex old) ≠ (name, i)) →
  alive dd' name i l' = alive (cm_dedupe s) name i l'.
Proof. intros Hne Hold. apply alive_insert_other; [|done]. simpl. congruence. Qed.
Lemma alive_old old l' : cm_dedupe s !! k = Some old → the_bid (dd_bidderName old) (dd_bidIndex old) l' →
  alive (cm_dedupe s) (dd_bidderName old) (dd_bidIndex old) l' = true ∧
  alive dd' (dd_bidderName old) (dd_bidIndex old) l' = false ∧ (dd_bidderName old, dd_bidIndex old) ≠ (cur, n).
Proof.
  intros Ho Hb. destruct (ci_dedupe _ _ _ _ Hinv k old Ho) as (lo & cdo & Hbo & _ & Hlabo & Hc).
  rewrite <- (the_bid_fun _ _ _ _ Hb Hbo) in Hlabo.
  assert ((dd_bidderName old, dd_bidIndex old) ≠ (cur, n)) as Hne.
  { intros [= E1 E2]. rewrite E1, E2 in Hc. by apply not_covered_yet. }
  split_and!; [|..|done].
  - apply alive_true. by exists k, cdo, (dd_bidPrice old), old.
  - apply not_true_is_false. intros (k' & cd' & pb' & d' & Hlab' & Hd' & E1 & E2)%alive_true.
    rewrite Hlabo in Hlab'. injection Hlab' as <- <- <-. unfold dd' in Hd'. rewrite lookup_insert_eq in Hd'. injection Hd' as <-.
    simpl in E1, E2. congruence.
Qed.

Definition cut_here : list nat :=
  match cm_dedupe s !! k with
  | Some old => if dd_bidderName old =s? cur then [dd_bidIndex old] else []
  | None => []
  end.

Lemma take_cur s1 : cm_dedupe s1 = dd' → cm_bidsToRemove s1 = cm_bidsToRemove s ++ cut_here → cur_inv cur (S n) s1.
Proof.
  intros Ed Eb.
  assert (∀ i, i ∈ cut_here ↔ ∃ old, cm_dedupe s !! k = Some old ∧ dd_bidderName old = cur ∧ dd_bidIndex old = i) as Hcut.
  { intros i. unfold cut_here. destruct (cm_dedupe s !! k) as [old|]; [|split; [by intros ?%elem_of_nil|naive_solver]].
    destruct (String.eqb_spec (dd_bidderName old) cur) as [E|E].
    - rewrite list_elem_of_singleton. split; [intros ->; eauto|]. by intros (? & [= <-] & _ & ->).
    - split; [by intros ?%elem_of_nil|]. by intros (? & [= <-] & ? & _). }
  assert (∀ i, i ∈ cut_here → i ∉ cm_bidsToRemove s) as Hdisj.
  { intros i (old & Ho & E1 & <-)%Hcut Hin. destruct (ci_dedupe _ _ _ _ Hinv k old Ho) as (lo & _ & Hbo & _).
    apply (cu_exact _ _ _ Hrem) in Hin as [_ (lx & Hbx & Hax)].
    destruct (alive_old old lo Ho Hbo) as [Ha _]. rewrite E1 in Hbo, Ha. rewrite (the_bid_fun _ _ _ _ Hbx Hbo) in Hax. congruence. }
  split.
  - rewrite Eb. apply NoDup_app. split_and!; [apply Hrem|intros i Hi Hin; by eapply Hdisj|].
    unfold cut_here. destruct (cm_dedupe s !! k) as [old|]; [|constructor]. destruct (dd_bidderName old =s? cur); [apply NoDup_singleton|constructor].
  - intros i. rewrite Eb, Ed, elem_of_app, (cu_exact _ _ _ Hrem). split.
    + intros [[Hi (l' & Hb & Ha)]|(old & Ho & E1 & <-)%Hcut].
      * split; [lia|]. exists l'. split; [done|]. rewrite alive_same; [done|intros [=]; lia|].
        intros old Ho [= E1 E2]. destruct (alive_old old l' Ho) as [Ht _]; [by rewrite E1, E2|]. rewrite E1, E2 in Ht. congruence.
      * destruct (ci_dedupe _ _ _ _ Hinv k old Ho) as (lo & _ & Hbo & _ & _ & Hc).
        destruct (alive_old old lo Ho Hbo) as (_ & Ha & _). rewrite E1 in Hc, Hbo, Ha. destruct Hc as [?|[_ ?]]; [done|]. split; [lia|]. by exists lo.
    + intros [Hi (l' & Hb & Ha)]. destruct (decide (i = n)) as [->|Hne].
      { rewrite (the_bid_fun _ _ _ _ Hb Hl), alive_new in Ha. done. }
      destruct (decide (i ∈ cut_here)) as [|Hni]; [by right|left]. split; [lia|]. exists l'. split; [done|].
      rewrite <- Ha. symmetry. apply alive_same; [congruence|]. intros old Ho [= E1 E2]. apply Hni, Hcut. by exists old.
Qed.
Definition drop_older_name : option string :=
  match cm_dedupe s !! k with
  | Some old => if dd_bidderName old =s? cur then None else Some (dd_bidderName old)
  | None => None
  end.

(** A finished seat other than the one of the older bid. *)
Lemma take_done_same name seat :
  seats !! name = Some seat → name ∈ done_ → drop_older_name ≠ Some name →
  ∃ bs, cm_seats s !! name = Some (set_seat_Bids bs seat) ∧
    (name ∈ cm_seatBidsToRemove s → ∀ i l, seat_Bids seat !! i = Some l → alive dd' name i l = false) ∧
    (name ∉ cm_seatBidsToRemove s → bs = keep (alive dd' name) 0 (seat_Bids seat)).
Proof.
  intros Hs Hd Hne. destruct (ci_done _ _ _ _ Hinv name seat Hs Hd) as (bs & E & Hm & Hk). exists bs. split; [done|].
  assert (∀ i l', alive dd' name i l' = alive (cm_dedupe s) name i l') as Hsame.
  { intros i l'. apply alive_same; [intros [= -> _]; done|]. intros old Ho [= E1 E2]. apply Hne.
    unfold drop_older_name. rewrite Ho, E1. destruct (String.eqb_spec name cur) as [->|]; done. }
  split; intros Hin.
  - intros i l' Hi. rewrite Hsame. by apply Hm.
  - rewrite (Hk Hin). apply keep_ext. intros j x _. by rewrite Hsame.
Qed.

(** The seat of the older bid: it stood there, and is the only one that goes. *)
Lemma take_done_old old seat :
  cm_dedupe s !! k = Some old → dd_bidderName old ≠ cur → seats !! dd_bidderName old = Some seat →
  ∃ lo l1 l2, has_id lo (dd_bidID old) ∧
    keep (alive (cm_dedupe s) (dd_bidderName old)) 0 (seat_Bids seat) = l1 ++ lo :: l2 ∧
    keep (alive dd' (dd_bidderName old)) 0 (seat_Bids seat) = l1 ++ l2 ∧
    (∀ y, y ∈ l1 → ¬ has_id y (dd_bidID old) ∧ is_Some (bid_of st y)).
Proof.
  intros Ho Hne Hs. destruct (ci_dedupe _ _ _ _ Hinv k old Ho) as (lo & cdo & Hbo & Hido & _ & _).
  destruct (alive_old old lo Ho Hbo) as (Ht & Hf & _). destruct Hbo as (seat' & Hs' & Hlo). rewrite Hs in Hs'. injection Hs' as <-.
  destruct (keep_split (alive (cm_dedupe s) (dd_bidderName old)) (alive dd' (dd_bidderName old)) 0 (seat_Bids seat) (dd_bidIndex old) lo Hlo Ht Hf)
    as (l1 & l2 & E1 & E2 & Hl1).
  { intros j y Hj Hy. apply alive_same; [congruence|]. intros old' Ho'. rewrite Ho in Ho'. injection Ho' as <-. simpl. congruence. }
  exists lo, l1, l2. split_and!; [done..|]. intros y Hy. destruct (Hl1 y Hy) as (j & Hj & Hjy). split.
  - intros Hidy. assert (the_bid (dd_bidderName old) j y) as Hby by (by exists seat).
    assert (the_bid (dd_bidderName old) (dd_bidIndex old) lo) as Hbo by (by exists seat).
    destruct (Hids _ _ _ _ _ _ _ Hby Hbo Hidy Hido) as [_ ?]. done.
  - destruct (Htotal (dd_bidderName old) j y) as [lab Hlab']; [by exists seat|]. unfold bid_label_of in Hlab'.
    unfold bid_of. destruct (st !! y) as [p|]; [|done]. simpl in Hlab' |- *. by destruct (pb_Bid p).
Qed.

Lemma find_bid_app i0 l1 lo l2 :
  has_id lo i0 → (∀ y, y ∈ l1 → ¬ has_id y i0 ∧ is_Some (bid_of st y)) → find_bid st i0 (l1 ++ lo :: l2) = Some (Some (length l1)).
Proof.
  intros (b & Hb & <-). induction l1 as [|y l1 IH]; intros Hl1; simpl.
  - by rewrite Hb; simpl; rewrite String.eqb_refl.
  - destruct (Hl1 y) as [Hn [b' Hb']]; [by left|]. rewrite Hb'. simpl.
    destruct (String.eqb_spec (bid_ID b') (bid_ID b)) as [E|]; [destruct Hn; by exists b'|].
    rewrite IH; [done|]. intros z Hz. apply Hl1. by right.
Qed.

Lemma remove_at_app {A} (l1 l2 : list A) x : remove_at (length l1) (l1 ++ x :: l2) = l1 ++ l2.
Proof. unfold remove_at. induction l1 as [|y l1 IH]; simpl; [done|]. f_equal. exact IH. Qed.

(** The bid replaces the older holder, or finds its key free. *)
Lemma take_step :
  (∀ old, cm_dedupe s !! k = Some old → fltb (bucket_price pb) (bucket_price (dd_bidPrice old)) = false) →
  ∃ s1, match cm_dedupe s !! k with Some old => drop_older st cur old s | None => Some s end = Some s1 ∧
    cat_inv done_ cur (S n) (record_bid id k cd d s1) ∧ cur_inv cur (S n) (record_bid id k cd d s1).
Proof.
  intros Hold.
  assert (∃ s1, match cm_dedupe s !! k with Some old => drop_older st cur old s | None => Some s end = Some s1 ∧
    cm_dedupe s1 = cm_dedupe s ∧ cm_bidsToRemove s1 = cm_bidsToRemove s ++ cut_here ∧
    cm_res s1 = (match cm_dedupe s !! k with Some old => delete (dd_bidID old) (cm_res s) | None => cm_res s end) ∧
    (∀ name seat, seats !! name = Some seat → name ∉ done_ → cm_seats s1 !! name = Some seat) ∧
    (∀ name seat, seats !! name = Some seat → name ∈ done_ → ∃ bs, cm_seats s1 !! name = Some (set_seat_Bids bs seat) ∧
      (name ∈ cm_seatBidsToRemove s1 → ∀ i l, seat_Bids seat !! i = Some l → alive dd' name i l = false) ∧
      (name ∉ cm_seatBidsToRemove s1 → bs = keep (alive dd' name) 0 (seat_Bids seat))) ∧
    (∀ name, name ∈ cm_seatBidsToRemove s1 → name ∈ done_))
    as (s1 & Hs1 & Ed & Eb & Er & Hrest & Hdone & Hmark).
  2:{ exists s1. split; [done|]. split; [|apply take_cur; [simpl; by rewrite Ed|done]].
      split; simpl; rewrite ?Ed; [apply take_dedupe|rewrite Er; apply take_res|intros *; by apply take_best|done|done|done]. }
  pose proof take_done_same as Hsame. unfold drop_older_name in Hsame. unfold cut_here.
  destruct (cm_dedupe s !! k) as [old|] eqn:Ho.
  2:{ exists s. rewrite app_nil_r. split_and!; [done..|apply Hinv| |apply Hinv]. intros. by apply Hsame. }
  unfold drop_older. destruct (String.eqb_spec (dd_bidderName old) cur) as [E|E].
  { eexists. split; [reflexivity|]. simpl. split_and!; [done..|apply Hinv| |apply Hinv]. intros. by apply Hsame. }
  destruct (ci_dedupe _ _ _ _ Hinv k old Ho) as (lo' & _ & (seat & Hs & Hlo') & _ & _ & [Hin|[? _]]); [|done].
  destruct (take_done_old old seat Ho E Hs) as (lo & l1 & l2 & Hlo & E1 & E2 & Hl1).
  destruct (ci_done _ _ _ _ Hinv _ _ Hs Hin) as (bs & Hbs & Hm & Hk).
  assert (dd_bidderName old ∉ cm_seatBidsToRemove s) as Hnm.
  { intros Hmk. specialize (Hm Hmk _ _ Hlo'). destruct (alive_old old lo' Ho) as [Ht _]; [by exists seat|]. congruence. }
  specialize (Hk Hnm). rewrite E1 in Hk. rewrite Hbs. cbn [mbind option_bind seat_Bids set_seat_Bids].
  destruct (Nat.eqb_spec (length bs) 1) as [Hlen|Hlen].
  - eexists. split; [reflexivity|]. simpl. rewrite app_nil_r. split_and!; [done..|apply Hinv| |].
    + intros name seat' Hs' Hd. destruct (decide (name = dd_bidderName old)) as [->|Hne].
      * rewrite Hs in Hs'. injection Hs' as <-. exists bs. split; [done|]. split; [|intros []; apply elem_of_app; right; by left].
        intros _ i y Hy. rewrite Hk, length_app in Hlen. simpl in Hlen. destruct l1; [|simpl in Hlen; lia]. destruct l2; [|simpl in Hlen; lia].
        apply not_true_is_false. intros Ha. assert (y ∈ keep (alive dd' (dd_bidderName old)) 0 (seat_Bids seat)) as Hy'
          by (apply elem_of_keep; by exists i). rewrite E2 in Hy'. by apply elem_of_nil in Hy'.
      * destruct (Hsame name seat' Hs' Hd) as (bs' & ? & H1 & H2); [congruence|]. exists bs'. split; [done|]. split.
        -- intros [?|?%list_elem_of_singleton]%elem_of_app; [by apply H1|done].
        -- intros Hni. apply H2. intros ?. apply Hni, elem_of_app. by left.
    + intros name [?| ->%list_elem_of_singleton]%elem_of_app; [by apply (ci_marked _ _ _ _ Hinv)|done].
  - unfold removeBidById. cbn [seat_Bids set_seat_Bids]. rewrite Hk, (find_bid_app _ l1 lo l2 Hlo Hl1). cbn [mbind option_bind]. rewrite remove_at_app.
    eexists. split; [reflexivity|]. simpl. rewrite app_nil_r. split_and!; [done..| | |apply Hinv].
    + intros name seat' Hs' Hni. rewrite lookup_insert_ne by (intros <-; done). by apply (ci_rest _ _ _ _ Hinv).
    + intros name seat' Hs' Hd. destruct (decide (name = dd_bidderName old)) as [->|Hne].
      * rewrite lookup_insert_eq. rewrite Hs in Hs'. injection Hs' as <-. exists (l1 ++ l2). split; [done|]. by rewrite E2.
      * rewrite lookup_insert_ne by done. apply Hsame; [done..|congruence].
Qed.
End Step.

Lemma feqb_not_ltb x y : (x =f? y) = true → fltb x y = false ∧ fltb y x = false.
Proof.
  intros Heq%feqb_spec. split; apply not_true_is_false; intros Hlt%fltb_spec.
  - apply (flt_irrefl y). by apply (flt_feq_l y x y (feq_sym _ _ Heq)).
  - apply (flt_irrefl y). by apply (flt_feq_r y x y).
Qed.

Lemma replaces_spec dp p coin :
  if replaces dp p coin then fltb (bucket_price p) (bucket_price dp) = false else fltb (bucket_price dp) (bucket_price p) = false.
Proof.
  unfold replaces. destruct (bucket_price dp =f? bucket_price p) eqn:Heq.
  - apply feqb_not_ltb in Heq as [E1 E2]. repeat case_match; done.
  - destruct (bucket_price dp <f? bucket_price p) eqn:Hlt; [by apply fltb_asym|done].
Qed.

Section Run.
Context (Htotal : labels_total) (Hids : ids_distinct) (Hnan : prices_ordered).
Local Abbreviation map_bid' := (map_bid st targeting brandCatExt FetchCategories bucket dedupeCoin translateCategories primaryAdServer publisher).
Local Abbreviation map_bids' := (map_bids st targeting brandCatExt FetchCategories bucket dedupeCoin translateCategories primaryAdServer publisher).
Local Abbreviation map_seat' := (map_seat st targeting brandCatExt FetchCategories bucket dedupeCoin translateCategories primaryAdServer publisher).
Local Abbreviation map_seats' := (map_seats st targeting brandCatExt FetchCategories bucket dedupeCoin translateCategories primaryAdServer publisher).

Lemma map_bid_step done_ cur n s l :
  cur ∉ done_ → the_bid cur n l → cat_inv done_ cur n s → cur_inv cur n s →
  ∃ s', map_bid' cur n l s = Some s' ∧ cat_inv done_ cur (S n) s' ∧ cur_inv cur (S n) s'.
Proof.
  intros Hcur Hl Hinv Hrem. destruct (Htotal cur n l Hl) as [lab Hlab]. pose proof Hlab as Hlab'.
  unfold bid_label_of in Hlab'. unfold map_bid. destruct (st !! l) as [p|] eqn:Ep; [|done].
  cbn [mbind option_bind] in Hlab' |- *. destruct (pb_Bid p) as [b|] eqn:Eb; [|done]. cbn [mbind option_bind] in Hlab' |- *.
  rewrite Hlab'. cbn [mbind option_bind].
  assert (has_id l (bid_ID b)) as Hid by (exists b; unfold bid_of; by rewrite Ep).
  destruct lab as [reason nonBid|k cd pb].
  - eexists. split; [reflexivity|].
    destruct nonBid; (eapply drop_step; [exact Hcur|exact Hl|exact Hinv|exact Hrem|done..|]); intros; congruence.
  - assert ((∃ old, cm_dedupe s !! k = Some old ∧ replaces (dd_bidPrice old) pb (dedupeCoin l) = false) ∨
            (∀ old, cm_dedupe s !! k = Some old → replaces (dd_bidPrice old) pb (dedupeCoin l) = true)) as [(old & Ho & Er)|Hrep].
    { destruct (cm_dedupe s !! k) as [old|]; [|by right]. destruct (replaces (dd_bidPrice old) pb (dedupeCoin l)) eqn:Er.
      - right. by intros ? [= <-].
      - left. by exists old. }
    { rewrite Ho, Er. eexists. split; [reflexivity|]. eapply drop_step; [exact Hcur|exact Hl|exact Hinv|exact Hrem|done..|].
      intros k' cd' pb' Hl'. rewrite Hlab in Hl'. injection Hl' as <- <- <-. exists old. split; [done|].
      pose proof (replaces_spec (dd_bidPrice old) pb (dedupeCoin l)) as Hsp. by rewrite Er in Hsp. }
    destruct (take_step Htotal Hids Hnan done_ cur n s l Hcur Hl Hinv Hrem k cd pb (bid_ID b) Hlab Hid) as (s1 & Hs1 & Hres).
    { intros old Ho. pose proof (replaces_spec (dd_bidPrice old) pb (dedupeCoin l)) as Hsp. by rewrite (Hrep old Ho) in Hsp. }
    exists (record_bid (bid_ID b) k cd {| dd_bidderName := cur; dd_bidIndex := n; dd_bidID := bid_ID b; dd_bidPrice := pb |} s1).
    split; [|done]. destruct (cm_dedupe s !! k) as [old|] eqn:Ho; [by rewrite (Hrep old eq_refl), Hs1|]. by injection Hs1 as <-.
Qed.

Lemma map_bids_inv done_ cur seat bids n s :
  cur ∉ done_ → seats !! cur = Some seat → bids = drop n (seat_Bids seat) → cat_inv done_ cur n s → cur_inv cur n s →
  ∃ s', map_bids' cur n bids s = Some s' ∧ cat_inv done_ cur (n + length bids) s' ∧ cur_inv cur (n + length bids) s'.
Proof.
  intros Hcur Hs. revert n s. induction bids as [|l bids IH]; intros n s Hb Hinv Hrem; simpl.
  - exists s. by rewrite Nat.add_0_r.
  - assert (seat_Bids seat !! n = Some l) as Hn by (by rewrite <- (Nat.add_0_r n), <- lookup_drop, <- Hb).
    destruct (map_bid_step done_ cur n s l Hcur) as (s1 & -> & Hi1 & Hr1); [by exists seat|done..|]. cbn [mbind option_bind].
    destruct (IH (S n) s1) as (s' & -> & Hi' & Hr'); [|done..|].
    + rewrite (drop_S _ _ _ Hn) in Hb. by injection Hb.
    + exists s'. by rewrite <- Nat.add_succ_comm.
Qed.

(** A seat is closed when what it keeps are the bids that hold a key. *)
Lemma close_seat done_ cur seat s next s' :
  cur ∉ done_ → seats !! cur = Some seat → cat_inv done_ cur (length (seat_Bids seat)) s →
  cm_dedupe s' = cm_dedupe s → cm_res s' = cm_res s →
  (∀ name, name ≠ cur → cm_seats s' !! name = cm_seats s !! name) →
  (∀ name, name ∈ cm_seatBidsToRemove s' → name ∈ cm_seatBidsToRemove s ∨ name = cur) →
  (∀ name, name ∈ cm_seatBidsToRemove s → name ∈ cm_seatBidsToRemove s') →
  (∃ bs, cm_seats s' !! cur = Some (set_seat_Bids bs seat) ∧
    (cur ∈ cm_seatBidsToRemove s' → ∀ i l, seat_Bids seat !! i = Some l → alive (cm_dedupe s) cur i l = false) ∧
    (cur ∉ cm_seatBidsToRemove s' → bs = keep (alive (cm_dedupe s) cur) 0 (seat_Bids seat))) →
  cat_inv (cur :: done_) next 0 s'.
Proof.
  intros Hcur Hs Hinv Ed Er Hsame Hm1 Hm2 Hown.
  assert (∀ name i, (∃ l, the_bid name i l) → covered (cur :: done_) next 0 name i ↔ covered done_ cur (length (seat_Bids seat)) name i) as Hcov.
  { intros name i (l & seat' & Hs' & Hi). unfold covered. rewrite elem_of_cons. split.
    - intros [[->|?]|[_ ?]]; [|by left|lia]. right. split; [done|]. rewrite Hs in Hs'. injection Hs' as <-. by eapply lookup_lt_Some.
    - intros [?|[-> _]]; left; [by right|by left]. }
  split; rewrite ?Ed, ?Er; [| apply Hinv|..].
  - intros k d Hd. destruct (ci_dedupe _ _ _ _ Hinv k d Hd) as (l & cd & ? & ? & ? & ?). exists l, cd. split_and!; [done..|].
      apply Hcov; [by exists l|done].
  - intros name i l k cd pb Hb Hc. apply Hcov in Hc; [|by exists l]. by eapply (ci_best _ _ _ _ Hinv).
  - intros name seat' Hs' Hni. apply not_elem_of_cons in Hni as [Hne Hni]. rewrite Hsame by done. by apply (ci_rest _ _ _ _ Hinv).
  - intros name seat' Hs' [->|Hin]%elem_of_cons; [rewrite Hs in Hs'; by injection Hs' as <-|].
      assert (name ≠ cur) as Hne by (intros ->; done). rewrite Hsame by done.
      destruct (ci_done _ _ _ _ Hinv name seat' Hs' Hin) as (bs & ? & H1 & H2). exists bs. split; [done|]. split; intros Hmk.
    + destruct (Hm1 name Hmk); [by apply H1|done].
    + apply H2. intros ?. by apply Hmk, Hm2.
  - intros name Hmk. destruct (Hm1 name Hmk) as [?| ->]; [right; by apply (ci_marked _ _ _ _ Hinv)|by left].
Qed.

(** The end of a seat. *)
Lemma finish_seat_inv done_ cur seat s :
  cur ∉ done_ → seats !! cur = Some seat → cat_inv done_ cur (length (seat_Bids seat)) s → cur_inv cur (length (seat_Bids seat)) s →
  ∀ next, cat_inv (cur :: done_) next 0 (finish_seat cur seat s).
Proof.
  intros Hcur Hs Hinv Hrem next.
  pose proof (ci_rest _ _ _ _ Hinv cur seat Hs Hcur) as Hseat.
  assert (seat = set_seat_Bids (seat_Bids seat) seat) as Heta by (by destruct seat).
  assert (cur ∉ cm_seatBidsToRemove s) as Hcm by (intros ?; by apply Hcur, (ci_marked _ _ _ _ Hinv)).
  assert (∀ i l, seat_Bids seat !! i = Some l → alive (cm_dedupe s) cur i l = bool_decide (i ∉ cm_bidsToRemove s)) as Hal.
  { intros i l Hi. pose proof (cu_exact _ _ _ Hrem i) as Hex. symmetry. destruct (alive (cm_dedupe s) cur i l) eqn:Ea.
    - apply bool_decide_eq_true. intros [_ (l' & (seat' & Hs' & Hl') & Ha')]%Hex. congruence.
    - apply bool_decide_eq_false. intros Hn. apply Hn, Hex. split; [by eapply lookup_lt_Some|]. exists l. split; [by exists seat|done]. }
  assert (Forall (λ a, a < length (seat_Bids seat))%nat (cm_bidsToRemove s)) as Hb.
  { apply Forall_forall. intros i [? _]%(cu_exact _ _ _ Hrem). done. }
  unfold finish_seat. destruct (cm_bidsToRemove s) as [|a0 r0] eqn:Er0.
  - eapply close_seat; try eassumption; [done..|by left|done|]. exists (seat_Bids seat). split; [congruence|]. split; [done|]. intros _.
    symmetry. apply keep_all. intros j x Hj. rewrite Hal by done. apply bool_decide_eq_true, not_elem_of_nil.
  - rewrite <- Er0 in *. clear Er0 a0 r0. destruct (Nat.eqb_spec (length (cm_bidsToRemove s)) (length (seat_Bids seat))) as [Hlen|Hlen].
    + eapply close_seat; try eassumption; simpl; [done..| | |].
      * intros name [?| ->%list_elem_of_singleton]%elem_of_app; [by left|by right].
      * intros name ?. apply elem_of_app. by left.
      * exists (seat_Bids seat). split; [congruence|]. split; [|intros []; apply elem_of_app; right; by left].
        intros _ i l Hi. rewrite Hal by done. apply bool_decide_eq_false. intros Hn. apply Hn.
        assert (cm_bidsToRemove s ≡ₚ seq 0 (length (seat_Bids seat))) as ->.
        { apply submseteq_length_Permutation; [|rewrite length_seq; lia]. apply NoDup_submseteq; [apply Hrem|].
          intros a Ha. apply elem_of_seq. rewrite Forall_forall in Hb. specialize (Hb a Ha). lia. }
        apply elem_of_seq. split; [lia|]. by apply lookup_lt_Some in Hi.
    + eapply close_seat; try eassumption; simpl; [done..| |by left|done|].
      * intros name Hne. by rewrite lookup_insert_ne.
      * rewrite lookup_insert_eq. eexists. split; [reflexivity|]. split; [done|]. intros _.
        rewrite remove_indices_keep; [|apply Hrem|done]. apply keep_ext. intros j x Hj. symmetry. by apply Hal.
Qed.

Lemma map_seat_inv done_ cur seat s next :
  cur ∉ done_ → seats !! cur = Some seat → cat_inv done_ cur 0 s →
  ∃ s', map_seat' s cur = Some s' ∧ cat_inv (cur :: done_) next 0 s'.
Proof.
  intros Hcur Hs Hinv. unfold map_seat. rewrite (ci_rest _ _ _ _ Hinv cur seat Hs Hcur). cbn [mbind option_bind].
  match goal with |- context [map_bids' cur 0 _ ?s0] => set (s0' := s0) end.
  assert (cat_inv done_ cur 0 s0') as Hi0 by (destruct Hinv; by split).
  assert (cur_inv cur 0 s0') as Hr0.
  { split; [constructor|]. intros i. simpl. split; [by intros ?%elem_of_nil|intros [? _]; lia]. }
  destruct (map_bids_inv done_ cur seat (seat_Bids seat) 0 s0' Hcur Hs) as (s1 & -> & Hi1 & Hr1); [by rewrite drop_0|done..|].
  cbn [mbind option_bind]. rewrite (ci_rest _ _ _ _ Hi1 cur seat Hs Hcur). cbn [mbind option_bind].
  eexists. split; [reflexivity|]. by eapply finish_seat_inv.
Qed.

Lemma map_seats_inv names done_ s :
  NoDup names → (∀ name, name ∈ names → name ∉ done_ ∧ is_Some (seats !! name)) → (∀ cur, cat_inv done_ cur 0 s) →
  ∃ s', map_seats' names s = Some s' ∧ ∀ cur, cat_inv (reverse names ++ done_) cur 0 s'.
Proof.
  revert done_ s. induction names as [|cur names IH]; intros done_ s Hnd Hin Hinv; simpl.
  - by exists s.
  - apply NoDup_cons in Hnd as [Hni Hnd]. destruct (Hin cur) as [Hc [seat Hs]]; [by left|].
    destruct (map_seat_inv done_ cur seat s cur Hc Hs (Hinv cur)) as (s1 & E1 & _). rewrite E1. cbn [mbind option_bind].
    destruct (IH (cur :: done_) s1 Hnd) as (s' & -> & Hi').
    + intros name Hname. destruct (Hin name) as [? ?]; [by right|]. split; [|done]. apply not_elem_of_cons. split; [by intros ->|done].
    + intros next. destruct (map_seat_inv done_ cur seat s next Hc Hs (Hinv cur)) as (s1' & E1' & Hi). rewrite E1 in E1'. by injection E1' as <-.
    + exists s'. split; [done|]. intros next. rewrite reverse_cons, <- app_assoc. apply Hi'.
Qed.

Lemma lookup_clear_seats names m name :
  clear_seats names m !! name = (if decide (name ∈ names) then set_seat_Bids [] else id) <$> m !! name.
Proof.
  unfold clear_seats. revert m. induction names as [|n names IH]; intros m; simpl.
  - by destruct (m !! name).
  - rewrite IH. destruct (decide (n = name)) as [->|Hne].
    + rewrite lookup_alter_eq. destruct (decide (name ∈ name :: names)) as [_|[]]; [|by left].
      destruct (m !! name); simpl; [|done]. by case_decide.
    + rewrite lookup_alter_ne by done. destruct (decide (name ∈ names)) as [Hin|Hin]; case_decide as Hin'; [done| | |done].
      * destruct Hin'. by right.
      * apply elem_of_cons in Hin' as [->|?]; done.
Qed.

Definition survivor (o : category_outcome) (name : string) (l : loc) : Prop :=
  ∃ seat, co_seats o !! name = Some seat ∧ l ∈ seat_Bids seat.

Lemma category_loop_spec `{MapRange} nonBids :
  ∃ o, category_loop st targeting brandCatExt FetchCategories bucket dedupeCoin translateCategories primaryAdServer publisher seats nonBids = Some o ∧
    ∃ s, (∀ cur, cat_inv (reverse (map_range seats).*1) cur 0 s) ∧ co_res o = cm_res s ∧
      ∀ name seat, seats !! name = Some seat → co_seats o !! name = Some (set_seat_Bids (keep (alive (cm_dedupe s) name) 0 (seat_Bids seat)) seat).
Proof.
  unfold category_loop.
  edestruct (map_seats_inv (map_range seats).*1 []) as (s & -> & Hinv).
  - apply NoDup_map_range_fst.
  - intros name ([? seat] & -> & Hin)%list_elem_of_fmap. apply elem_of_map_range in Hin. split; [apply not_elem_of_nil|by eexists].
  - intros cur. split; simpl.
    + intros k d. by rewrite lookup_empty.
    + intros id cd. rewrite lookup_empty. split; [done|]. intros (? & ? & ? & Hd & _). by rewrite lookup_empty in Hd.
    + intros name i l k cd pb _ [?%elem_of_nil|[_ ?]]; [done|lia].
    + done.
    + by intros ? ? ? ?%elem_of_nil.
    + by intros ? ?%elem_of_nil.
  - eexists. split; [reflexivity|]. rewrite app_nil_r in Hinv. exists s. split; [done|]. split; [done|]. intros name seat Hs. simpl.
    assert (name ∈ reverse (map_range seats).*1) as Hin.
    { apply elem_of_reverse, list_elem_of_fmap. exists (name, seat). split; [done|]. by apply elem_of_map_range. }
    destruct (ci_done _ _ _ _ (Hinv "") name seat Hs Hin) as (bs & E & Hm & Hk). rewrite lookup_clear_seats, E. simpl.
    case_decide as Hmk; [|by rewrite (Hk Hmk)]. rewrite keep_none; [by destruct seat|]. intros j x Hj. by apply Hm.
Qed.
End Run.
End Invariant.

(** ** What stays *)
(** C14: Category mapping with distinct bid ids, in every order of the seats: it succeeds and only takes
    bids away; of the bids with a key exactly one stays, and none with that key had a higher
    bucket; and the labels returned are exactly those of the bids that stay. *)
Theorem category_mapping_keeps_best `{MapRange} st targeting ext FetchCategories bucket dedupeCoin seats nonBids tr server pub :
  ct_IncludeBrandCategory targeting = Some ext → mapping_source ext = Ok (tr, server, pub) →
  let label := bid_label_of st targeting ext FetchCategories bucket tr server pub in
  labels_total st targeting ext FetchCategories bucket tr server pub seats → ids_distinct st seats →
  prices_ordered st targeting ext FetchCategories bucket tr server pub seats →
  ∃ o, applyCategoryMapping st targeting FetchCategories bucket dedupeCoin seats nonBids = Some (Ok o) ∧
    (∀ name seat, seats !! name = Some seat →
       ∃ bs, co_seats o !! name = Some (set_seat_Bids bs seat) ∧ sublist bs (seat_Bids seat)) ∧
    (∀ n1 l1 n2 l2 k cd1 pb1 cd2 pb2, seats !! n1 ≠ None → seats !! n2 ≠ None → survivor o n1 l1 → survivor o n2 l2 →
       label n1 l1 = Some (Labelled k cd1 pb1) → label n2 l2 = Some (Labelled k cd2 pb2) → n1 = n2 ∧ l1 = l2) ∧
    (∀ name i l k cd pb, the_bid seats name i l → label name l = Some (Labelled k cd pb) →
       ∃ name' l' cd' pb', survivor o name' l' ∧ label name' l' = Some (Labelled k cd' pb') ∧
         fltb (bucket_price pb') (bucket_price pb) = false) ∧
    (∀ id cd, co_res o !! id = Some cd ↔ ∃ name l k pb, seats !! name ≠ None ∧ survivor o name l ∧ has_id st l id ∧
       label name l = Some (Labelled k cd pb)).
Proof.
  intros Hext Hsrc label Htotal Hids Hnan.
  destruct (category_loop_spec st targeting ext FetchCategories bucket dedupeCoin tr server pub seats Htotal Hids Hnan nonBids)
    as (o & Ho & s & Hinv & Hres & Hseats).
  exists o. unfold applyCategoryMapping. rewrite Hext, Hsrc, Ho. split; [done|].
  assert (∀ name l, seats !! name ≠ None → survivor o name l ↔ ∃ i, the_bid seats name i l ∧
            alive st targeting ext FetchCategories bucket tr server pub (cm_dedupe s) name i l = true) as Hsurv.
  { intros name l Hn. destruct (seats !! name) as [seat|] eqn:Es; [|done]. unfold survivor, the_bid. rewrite (Hseats _ _ Es). split.
    - intros (seat' & [= <-] & (i & Hi & Ha)%elem_of_keep). exists i. split; [by exists seat|done].
    - intros (i & (seat' & Hs' & Hi) & Ha). rewrite Es in Hs'. injection Hs' as <-. eexists. split; [done|]. apply elem_of_keep. by exists i. }
  assert (∀ name i, name ∈ reverse (map_range seats).*1 → covered (reverse (map_range seats).*1) "" 0 name i) as Hcov by (by left).
  assert (∀ name i l, the_bid seats name i l → seats !! name ≠ None ∧ covered (reverse (map_range seats).*1) "" 0 name i) as Hbid.
  { intros name i l (seat & Hs & _). split; [by rewrite Hs|]. apply Hcov, elem_of_reverse, list_elem_of_fmap.
    exists (name, seat). split; [done|]. by apply elem_of_map_range. }
  assert (∀ k d, cm_dedupe s !! k = Some d → ∃ l cd, survivor o (dd_bidderName d) l ∧ seats !! dd_bidderName d ≠ None ∧
            the_bid seats (dd_bidderName d) (dd_bidIndex d) l ∧ has_id st l (dd_bidID d) ∧ label (dd_bidderName d) l = Some (Labelled k cd (dd_bidPrice d))) as Hholder.
  { intros k d Hd. destruct (ci_dedupe _ _ _ _ _ _ _ _ _ _ _ _ _ (Hinv "") k d Hd) as (l & cd & Hb & Hid & Hl & _).
    destruct (Hbid _ _ _ Hb) as [Hn _]. exists l, cd. split_and!; [|done..]. apply Hsurv; [done|]. exists (dd_bidIndex d). split; [done|].
    apply alive_true. by exists k, cd, (dd_bidPrice d), d. }
  split_and!.
  - intros name seat Hs. eexists. split; [by apply Hseats|apply keep_sublist].
  - intros n1 l1 n2 l2 k cd1 pb1 cd2 pb2 H1 H2 (i1 & Hb1 & (k1 & ? & ? & d1 & Hl1' & Hd1 & <- & <-)%alive_true)%(Hsurv _ _ H1)
      (i2 & Hb2 & (k2 & ? & ? & d2 & Hl2' & Hd2 & <- & <-)%alive_true)%(Hsurv _ _ H2) Hl1 Hl2.
    unfold label in Hl1, Hl2. rewrite Hl1' in Hl1. rewrite Hl2' in Hl2. injection Hl1 as -> _ _. injection Hl2 as -> _ _.
    rewrite Hd1 in Hd2. injection Hd2 as <-. split; [done|]. by eapply the_bid_fun.
  - intros name i l k cd pb Hb Hl. destruct (Hbid _ _ _ Hb) as [_ Hc].
    destruct (ci_best _ _ _ _ _ _ _ _ _ _ _ _ _ (Hinv "") name i l k cd pb Hb Hc Hl) as (d & Hd & Hle).
    destruct (Hholder k d Hd) as (l' & cd' & Hsv & _ & _ & _ & Hl'). by exists (dd_bidderName d), l', cd', (dd_bidPrice d).
  - intros id cd. rewrite Hres, (ci_res _ _ _ _ _ _ _ _ _ _ _ _ _ (Hinv "")). split.
    + intros (k & d & l & Hd & <- & Hb & Hl). destruct (Hholder k d Hd) as (l' & cd' & Hsv & Hn & Hb' & Hid & Hl').
      rewrite (the_bid_fun _ _ _ _ _ Hb Hb') in Hl. exists (dd_bidderName d), l', k, (dd_bidPrice d). done.
    + intros (name & l & k & pb & Hn & (i & Hb & (k' & cd' & pb' & d & Hl' & Hd & <- & <-)%alive_true)%(Hsurv _ _ Hn) & Hid & Hl).
      unfold label in Hl. rewrite Hl' in Hl. injection Hl as -> -> ->. exists k, d, l.
      destruct (Hholder k d Hd) as (l2 & cd2 & _ & _ & Hb2 & Hid2 & Hl2). rewrite <- (the_bid_fun _ _ _ _ _ Hb Hb2) in Hid2, Hl2.
      unfold label in Hl2. rewrite Hl' in Hl2. injection Hl2 as <- ->. split_and!; [done| |done|done].
      destruct Hid as (b & E & <-), Hid2 as (b2 & E2 & <-). congruence.
Qed.

(** ** Example *)
Definition cat_bid (id cat : string) (price : float64) : PbsOrtbBid :=
  plain_bid (Some {| bid_ID := id; bid_ImpID := "imp"; bid_Price := price; bid_AdM := ""; bid_NURL := ""; bid_DealID := "";
    bid_W := 0; bid_H := 0; bid_Exp := 0; bid_MType := 2; bid_ExtType := None; bid_CrID := ""; bid_ADomain := []; bid_Cat := [cat];
    bid_CatTax := 0; bid_Dur := 0; bid_Ext := "" |}) BidTypeVideo.
Definition cat_targeting : categoryTargeting :=
  {| ct_IncludeBrandCategory := Some {| ibc_PrimaryAdServer := 0; ibc_Publisher := ""; ibc_WithCategory := true; ibc_TranslateCategories := Some false |};
     ct_DurationRangeSec := [15; 30]; ct_AppendBidderNames := false |}.
Definition cat_ext : ExtIncludeBrandCategory :=
  {| ibc_PrimaryAdServer := 0; ibc_Publisher := ""; ibc_WithCategory := true; ibc_TranslateCategories := Some false |}.
Definition cat_bucket (b : Bid) (l : loc) : option string :=
  GetPriceBucket (λ _, "") b NewPriceGranularityDefault {| mtpg_Banner := None; mtpg_Video := None; mtpg_Native := None |} RoundingModeDown 0.
Definition cat_store : bid_store := {[ 1%nat := cat_bid "x" "IAB1" (fofZ 1); 2%nat := cat_bid "y" "IAB1" (fofZ 2); 3%nat := cat_bid "z" "IAB2" (fofZ 1) ]}.
Definition cat_seats : gmap string PbsOrtbSeatBid := {[ "a" := plain_seat [1%nat] "USD" "a"; "b" := plain_seat [2%nat; 3%nat] "USD" "b" ]}.
Definition no_categories (_ _ _ : string) : option string := None.

Lemma cat_seats_bids name i l : the_bid cat_seats name i l →
  (name, i, l) ∈ [("a", 0%nat, 1%nat); ("b", 0%nat, 2%nat); ("b", 1%nat, 3%nat)].
Proof.
  intros (seat & Hs & Hi). unfold cat_seats in Hs.
  apply lookup_insert_Some in Hs as [[<- <-]|[_ [<- <-]%lookup_singleton_Some]]; simpl in Hi.
  - destruct i as [|i]; [|done]. injection Hi as <-. by left.
  - destruct i as [|[|i]]; [| |done]; injection Hi as <-; [right; by left|do 2 right; by left].
Qed.

Lemma category_mapping_keeps_best_witness :
  ∃ o, @applyCategoryMapping canonical_range cat_store cat_targeting no_categories cat_bucket (λ _, true) cat_seats ∅ = Some (Ok o) ∧
    (∀ id cd, co_res o !! id = Some cd ↔ ∃ name l k pb, cat_seats !! name ≠ None ∧ survivor o name l ∧ has_id cat_store l id ∧
       bid_label_of cat_store cat_targeting cat_ext no_categories cat_bucket false "" "" name l = Some (Labelled k cd pb)).
Proof.
  destruct (@category_mapping_keeps_best canonical_range cat_store cat_targeting cat_ext no_categories cat_bucket (λ _, true) cat_seats ∅ false "" "" eq_refl eq_refl)
    as (o & Ho & _ & _ & _ & Hres); [..|exact (ex_intro _ o (conj Ho Hres))].
  - intros name i l Hb%cat_seats_bids. repeat (apply elem_of_cons in Hb as [[= -> -> ->]|Hb]; [by eexists|]). by apply elem_of_nil in Hb.
  - intros n1 i1 l1 n2 i2 l2 id H1%cat_seats_bids H2%cat_seats_bids (b1 & E1 & <-) (b2 & E2 & Heq).
    repeat (apply elem_of_cons in H1 as [[= -> -> ->]|H1]); [..|by apply elem_of_nil in H1];
      (repeat (apply elem_of_cons in H2 as [[= -> -> ->]|H2]); [..|by apply elem_of_nil in H2]);
      vm_compute in E1; vm_compute in E2; injection E1 as <-; injection E2 as <-; by try discriminate Heq.
  - intros name i l k cd pb Hb%cat_seats_bids Hl. repeat (apply elem_of_cons in Hb as [[= -> -> ->]|Hb]); [..|by apply elem_of_nil in Hb];
      vm_compute in Hl; injection Hl as <- <- <-; reflexivity.
Defined.

(** Bids of two bidders with one id share a label: here each is kept, and the label of the first
    names the category of the second. *)
Definition clash_store : bid_store := {[ 1%nat := cat_bid "1" "IAB1" (fofZ 1); 2%nat := cat_bid "1" "IAB2" (fofZ 2) ]}.
Definition clash_seats : gmap string PbsOrtbSeatBid := {[ "a" := plain_seat [1%nat] "USD" "a"; "b" := plain_seat [2%nat] "USD" "b" ]}.
Theorem shared_id_mislabels :
  ∃ o, @applyCategoryMapping canonical_range clash_store cat_targeting no_categories cat_bucket (λ _, true) clash_seats ∅ = Some (Ok o) ∧
    survivor o "a" 1%nat ∧ survivor o "b" 2%nat ∧
    bid_label_of clash_store cat_targeting cat_ext no_categories cat_bucket false "" "" "a" 1%nat = Some (Labelled "IAB1" "1.00_IAB1_15s" "1.00") ∧
    co_res o !! "1" = Some "2.00_IAB2_15s".
Proof.
  eexists. split; [vm_compute; reflexivity|]. split_and!; try reflexivity.
  - eexists. split; [reflexivity|]. by left.
  - eexists. split; [reflexivity|]. by left.
Qed.
