(* ===== verification/Collect.v ===== *)
(** * Collecting the bids of an auction: src/exchange/exchange.go, seat_non_bids.go

    [getAllBids] starts one goroutine per bidder, which sends its answers on a channel, after a
    panic too, and merges the answers it receives in the order in which they arrive: the
    functions of one goroutine and of one answer are below, the interleavings are the relation
    [collect_step].  [buildStoredAuctionResponse] builds the seats of an auction from stored
    responses instead. *)
From S2P Require Import Prelude GoFloat Bids ErrorTypes BidderCall.

(** ** Messages of the response *)
Record ExtBidderMessage := { bm_Code : Z; bm_Message : string }.
Definition bidder_message (e : go_error) : ExtBidderMessage := {| bm_Code := ReadCode e; bm_Message := message e |}.
Definition errsToBidderErrors (errs : list go_error) : list ExtBidderMessage := bidder_message <$> FatalOnly errs.
Definition errsToBidderWarnings (errs : list go_error) : list ExtBidderMessage := bidder_message <$> WarningOnly errs.

(** ** Labels of the metrics *)
Inductive AdapterError :=
| AdapterErrorTimeout | AdapterErrorBadInput | AdapterErrorBadServerResponse | AdapterErrorFailedToRequestBids
| AdapterErrorValidation | AdapterErrorTmaxTimeout | AdapterErrorUnknown.
#[global] Instance AdapterError_eq_dec : EqDecision AdapterError.
Proof. solve_decision. Defined.
Definition errorToMetric (e : go_error) : AdapterError :=
  let code := ReadCode e in
  if code =? TimeoutErrorCode then AdapterErrorTimeout
  else if code =? BadInputErrorCode then AdapterErrorBadInput
  else if code =? BadServerResponseErrorCode then AdapterErrorBadServerResponse
  else if code =? FailedToRequestBidsErrorCode then AdapterErrorFailedToRequestBids
  else if code =? AlternateBidderCodeWarningCode then AdapterErrorValidation
  else if code =? TmaxTimeoutErrorCode then AdapterErrorTmaxTimeout
  else AdapterErrorUnknown.
(** The set, in the order of first occurrence. *)
Definition errorsToMetric (errs : list go_error) : list AdapterError := remove_dups (errorToMetric <$> errs).
Definition bidsToMetric (seatBids : list (option seatResult)) : bool :=
  existsb (λ s, match s with Some s => negb (length (sr_Bids s) =? 0)%nat | None => false end) seatBids.

(** ** Non-bids *)
(** [append]: the lists of every seat are joined; the order of the seats does not matter. *)
Definition nonBids_append (b other : SeatNonBidBuilder) : SeatNonBidBuilder :=
  union_with (λ x y, Some (x ++ y)) b other.
Record SeatNonBid := { snb_Seat : string; snb_NonBid : list NonBid }.
Definition nonBids_Slice `{MapRange} (b : SeatNonBidBuilder) : list SeatNonBid :=
  map (λ '(seat, nb), {| snb_Seat := seat; snb_NonBid := nb |}) (map_range b).

(** ** One bidder *)
Record seatResponseExtra := {
  se_ResponseTimeMillis : Z;
  se_Errors : list ExtBidderMessage;
  se_Warnings : list ExtBidderMessage;
  se_HttpCalls : list ExtHttpCall
}.
Definition empty_extra : seatResponseExtra := {| se_ResponseTimeMillis := 0; se_Errors := []; se_Warnings := []; se_HttpCalls := [] |}.

(** [brw_startTime] is [None] for the zero time. *)
Record bidResponseWrapper := {
  brw_adapterSeatBids : list (option seatResult);
  brw_adapterExtra : seatResponseExtra;
  brw_bidder : string;
  brw_adapter : string;
  brw_startTime : option Z;
  brw_nonBids : SeatNonBidBuilder
}.

(** What [requestBid] returned to the goroutine of a bidder; [run_result] is [None] when it
    panicked. *)
Record bidderRun := {
  run_BidderName : string;
  run_BidderCoreName : string;
  run_result : option callResult;
  run_elapsed : Z;
  run_startTime : option Z
}.

(** The prices are recorded through [bid.Bid], so a nil bid panics here too. *)
Definition prices_recorded (r : callResult) : bool :=
  forallb (λ s, forallb (λ b, bool_decide (is_Some (pb_Bid b))) (sr_Bids s)) (rr_seats r).

(** The body of the goroutine: the answers it sends on [chBids] and whether it then panics. *)
Definition bidder_body (run : bidderRun) : list bidResponseWrapper * bool :=
  match run_result run with
  | None => ([], true)
  | Some r =>
      if prices_recorded r then
        ([{| brw_adapterSeatBids := Some <$> rr_seats r;
             brw_adapterExtra := {| se_ResponseTimeMillis := Z.quot (run_elapsed run) 1000000;
                                    se_Errors := errsToBidderErrors (rr_errs r); se_Warnings := errsToBidderWarnings (rr_errs r);
                                    se_HttpCalls := match rr_seats r with s :: _ => sr_HttpCalls s | [] => [] end |};
             brw_bidder := run_BidderName run; brw_adapter := run_BidderCoreName run;
             brw_startTime := run_startTime run; brw_nonBids := rr_nonBids r |}], false)
      else ([], true)
  end.

(** [recoverSafely]: what the body sent, and after a panic one more answer without data. *)
Definition recovered_answer : bidResponseWrapper :=
  {| brw_adapterSeatBids := []; brw_adapterExtra := empty_extra; brw_bidder := ""; brw_adapter := "";
     brw_startTime := None; brw_nonBids := ∅ |}.
Definition recoverSafely (inner : list bidResponseWrapper * bool) : list bidResponseWrapper :=
  let '(sends, panicked) := inner in if panicked then sends ++ [recovered_answer] else sends.
Definition bidderRunner (run : bidderRun) : list bidResponseWrapper := recoverSafely (bidder_body run).

(** ** Merging *)
(** [fledge.auctionconfigs]; the adapter is the bidder the config names. *)
Definition collectFledgeFromSeatBid (fledge : option (list FledgeAuctionConfig)) (bidderName adapterName : string) (seatBid : seatResult)
    : option (list FledgeAuctionConfig) :=
  match sr_Fledge seatBid with
  | None => fledge
  | Some configs =>
      Some (default [] fledge ++
            map (λ c, {| fa_ImpId := fa_ImpId c; fa_Bidder := bidderName; fa_Adapter := fa_Bidder c; fa_Config := fa_Config c |}) configs)
  end.

Record allBids := {
  ab_adapterBids : gmap string seatResult;
  ab_adapterExtra : gmap string seatResponseExtra;
  ab_fledge : option (list FledgeAuctionConfig);
  ab_bidsFound : bool;
  ab_startTime : option Z;
  ab_nonBids : SeatNonBidBuilder
}.
Definition add_bids (bids : list PbsOrtbBid) (s : seatResult) : seatResult :=
  {| sr_Bids := sr_Bids s ++ bids; sr_Currency := sr_Currency s; sr_Fledge := sr_Fledge s; sr_HttpCalls := sr_HttpCalls s; sr_Seat := sr_Seat s |}.

(** A seat that exists already takes the bids and keeps its own currency. *)
Definition merge_seat (adapter : string) (acc : allBids) (seat : option seatResult) : allBids :=
  match seat with
  | None => acc
  | Some seatBid =>
      let bidderName := sr_Seat seatBid in
      let fledge := collectFledgeFromSeatBid (ab_fledge acc) bidderName adapter seatBid in
      match sr_Bids seatBid with
      | [] => {| ab_adapterBids := ab_adapterBids acc; ab_adapterExtra := ab_adapterExtra acc; ab_fledge := fledge;
                 ab_bidsFound := ab_bidsFound acc; ab_startTime := ab_startTime acc; ab_nonBids := ab_nonBids acc |}
      | bids =>
          let adapterBids := match ab_adapterBids acc !! bidderName with
                             | Some val => <[bidderName := add_bids bids val]> (ab_adapterBids acc)
                             | None => <[bidderName := seatBid]> (ab_adapterBids acc)
                             end in
          {| ab_adapterBids := adapterBids; ab_adapterExtra := ab_adapterExtra acc; ab_fledge := fledge;
             ab_bidsFound := true; ab_startTime := ab_startTime acc; ab_nonBids := ab_nonBids acc |}
      end
  end.

Definition receive_answer (acc : allBids) (brw : bidResponseWrapper) : allBids :=
  let acc := foldl (merge_seat (brw_adapter brw)) acc (brw_adapterSeatBids brw) in
  {| ab_adapterBids := ab_adapterBids acc;
     ab_adapterExtra := <[brw_bidder brw := brw_adapterExtra brw]> (ab_adapterExtra acc);
     ab_fledge := ab_fledge acc; ab_bidsFound := ab_bidsFound acc;
     ab_startTime := match brw_startTime brw with Some t => Some t | None => ab_startTime acc end;
     ab_nonBids := nonBids_append (ab_nonBids acc) (brw_nonBids brw) |}.

Definition no_bids : allBids :=
  {| ab_adapterBids := ∅; ab_adapterExtra := ∅; ab_fledge := None; ab_bidsFound := false; ab_startTime := None; ab_nonBids := ∅ |}.
(** The loop over as many answers as there are bidders, for goroutines that send one after the other. *)
Definition getAllBids (arrivals : list bidderRun) : allBids :=
  foldl receive_answer no_bids (take (length arrivals) (mjoin (bidderRunner <$> arrivals))).

(** *** The goroutines and the channel *)
(** What every goroutine has still to send, the channel [chBids], which has room for as many answers
    as there are bidders, and the loop of [getAllBids]: the answers received and what they were
    merged to. *)
Record collecting := {
  co_sending : list (list bidResponseWrapper);
  co_chBids : list bidResponseWrapper;
  co_received : nat;
  co_bids : allBids
}.
Inductive collect_step (n : nat) : collecting → collecting → Prop :=
| step_send pre a rest post ch i acc :
    (length ch < n)%nat →
    collect_step n {| co_sending := pre ++ (a :: rest) :: post; co_chBids := ch; co_received := i; co_bids := acc |}
                   {| co_sending := pre ++ rest :: post; co_chBids := ch ++ [a]; co_received := i; co_bids := acc |}
| step_receive gs a ch i acc :
    (i < n)%nat →
    collect_step n {| co_sending := gs; co_chBids := a :: ch; co_received := i; co_bids := acc |}
                   {| co_sending := gs; co_chBids := ch; co_received := S i; co_bids := receive_answer acc a |}.
Definition collect_start (runs : list bidderRun) : collecting :=
  {| co_sending := bidderRunner <$> runs; co_chBids := []; co_received := 0; co_bids := no_bids |}.

(** ** Stored auction responses *)
(** A seat of a stored response; [ss_fledge] is [Err] when its extension does not parse. *)
Record storedSeat := { ss_Seat : string; ss_Bid : list Bid; ss_fledge : result go_error (option (list FledgeAuctionConfig)) }.
Record storedAuction := { sa_bids : gmap string seatResult; sa_fledge : option (list FledgeAuctionConfig); sa_live : list string }.

Section Stored.
Context `{MapRange} (decode : string → result go_error (list storedSeat)).

Fixpoint stored_bids (impId : string) (bids : list Bid) : result go_error (list PbsOrtbBid) :=
  match bids with
  | [] => Ok []
  | b :: rest =>
      let b := set_bid_ImpID impId b in
      match getMediaTypeForBid b with
      | None => Err (PlainError ("Failed to parse bid " +:+ (if 0 <? bid_MType b then "mType" else "mediatype") +:+ " for impression " +:+ quote_string impId))
      | Some t => let? bs := stored_bids impId rest in Ok (plain_bid (Some b) t :: bs)
      end
  end.

Definition stored_seat (impId : string) (acc : storedAuction) (seat : storedSeat) : result go_error storedAuction :=
  let? bids := stored_bids impId (ss_Bid seat) in
  let bidderName := ss_Seat seat in
  let? configs := ss_fledge seat in
  let fledge := match configs with
                | None => sa_fledge acc
                | Some cs => Some (default [] (sa_fledge acc) ++
                    map (λ c, {| fa_ImpId := impId; fa_Bidder := bidderName; fa_Adapter := bidderName; fa_Config := fa_Config c |}) cs)
                end in
  Ok match sa_bids acc !! bidderName with
     | Some val => {| sa_bids := <[bidderName := add_bids bids val]> (sa_bids acc); sa_fledge := fledge; sa_live := sa_live acc |}
     | None => {| sa_bids := <[bidderName := {| sr_Bids := bids; sr_Currency := ""; sr_Fledge := None; sr_HttpCalls := []; sr_Seat := "" |}]> (sa_bids acc);
                  sa_fledge := fledge; sa_live := sa_live acc ++ [bidderName] |}
     end.

Fixpoint stored_seats (impId : string) (acc : storedAuction) (seats : list storedSeat) : result go_error storedAuction :=
  match seats with
  | [] => Ok acc
  | s :: rest => let? acc' := stored_seat impId acc s in stored_seats impId acc' rest
  end.
Fixpoint stored_imps (acc : storedAuction) (imps : list (string * string)) : result go_error storedAuction :=
  match imps with
  | [] => Ok acc
  | (impId, resp) :: rest =>
      let? seats := decode resp in
      let? acc' := stored_seats impId acc seats in
      stored_imps acc' rest
  end.
Definition buildStoredAuctionResponse (storedAuctionResponses : gmap string string) : result go_error storedAuction :=
  stored_imps {| sa_bids := ∅; sa_fledge := None; sa_live := [] |} (map_range storedAuctionResponses).
End Stored.

(** ** Bids become shared objects *)
(** From here on the bids are objects reached through pointers; each gets its own address. *)
Fixpoint allocate_seats (next : nat) (seats : list (string * seatResult)) : bid_store * gmap string PbsOrtbSeatBid :=
  match seats with
  | [] => (∅, ∅)
  | (name, s) :: rest =>
      let n := length (sr_Bids s) in
      let '(st, m) := allocate_seats (next + n) rest in
      (list_to_map (zip (seq next n) (sr_Bids s)) ∪ st,
       <[name := {| seat_Bids := seq next n; seat_Currency := sr_Currency s; seat_Seat := sr_Seat s;
                    seat_FledgeAuctionConfigs := sr_Fledge s; seat_HttpCalls := sr_HttpCalls s |}]> m)
  end.
Definition allocate (seats : gmap string seatResult) : bid_store * gmap string PbsOrtbSeatBid :=
  allocate_seats 0 (map_to_list seats).

(** ** Lemmas *)
(** Each goroutine sends one answer. *)
Definition answer (run : bidderRun) : bidResponseWrapper := default recovered_answer (head (bidderRunner run)).
Lemma bidderRunner_one run : bidderRunner run = [answer run].
Proof. unfold answer, bidderRunner, recoverSafely, bidder_body. by repeat case_match; simplify_eq. Qed.
Lemma all_answers runs : mjoin (bidderRunner <$> runs) = answer <$> runs.
Proof. induction runs as [|run runs IH]; [done|]. cbn. rewrite bidderRunner_one. cbn. by rewrite <-IH. Qed.
Lemma getAllBids_answers arrivals : getAllBids arrivals = foldl receive_answer no_bids (answer <$> arrivals).
Proof. unfold getAllBids. rewrite all_answers, take_ge; [done|]. by rewrite length_fmap. Qed.
(** The bids of a run for a seat, in order. *)
Definition run_bids (name : string) (run : bidderRun) : list PbsOrtbBid :=
  mjoin ((λ s, match s with Some s => if sr_Seat s =s? name then sr_Bids s else [] | None => [] end)
           <$> brw_adapterSeatBids (answer run)).

Lemma merge_seat_bids adapter acc seat name :
  default [] (sr_Bids <$> ab_adapterBids (merge_seat adapter acc seat) !! name) =
  default [] (sr_Bids <$> ab_adapterBids acc !! name) ++
    match seat with Some s => if sr_Seat s =s? name then sr_Bids s else [] | None => [] end.
Proof.
  destruct seat as [s|]; simpl; [|by rewrite app_nil_r]. destruct (sr_Bids s) as [|b bs] eqn:Eb; simpl.
  - by destruct (sr_Seat s =s? name); rewrite app_nil_r.
  - destruct (String.eqb_spec (sr_Seat s) name) as [<-|Hne].
    + destruct (ab_adapterBids acc !! sr_Seat s) as [v|]; rewrite lookup_insert_eq; simpl; by rewrite ?Eb.
    + rewrite app_nil_r. by destruct (ab_adapterBids acc !! sr_Seat s); rewrite lookup_insert_ne.
Qed.

Lemma merge_seats_bids adapter acc seats name :
  default [] (sr_Bids <$> ab_adapterBids (foldl (merge_seat adapter) acc seats) !! name) =
  default [] (sr_Bids <$> ab_adapterBids acc !! name) ++
    mjoin ((λ s, match s with Some s => if sr_Seat s =s? name then sr_Bids s else [] | None => [] end) <$> seats).
Proof.
  revert acc. induction seats as [|s seats IH]; intros acc; simpl; [by rewrite app_nil_r|].
  rewrite IH, merge_seat_bids. by rewrite <- app_assoc.
Qed.

Lemma getAllBids_snoc arrivals run : getAllBids (arrivals ++ [run]) = receive_answer (getAllBids arrivals) (answer run).
Proof. by rewrite !getAllBids_answers, fmap_app, foldl_app. Qed.

Lemma collected_bids arrivals name :
  default [] (sr_Bids <$> ab_adapterBids (getAllBids arrivals) !! name) = mjoin (run_bids name <$> arrivals).
Proof.
  induction arrivals as [|run arrivals IH] using rev_ind; [done|].
  rewrite getAllBids_snoc, fmap_app, join_app. simpl. rewrite merge_seats_bids, IH. by rewrite app_nil_r.
Qed.

(** Every seat that is collected has a bid. *)
Lemma merge_seat_nonempty adapter acc seat :
  (∀ name s, ab_adapterBids acc !! name = Some s → sr_Bids s ≠ []) →
  ∀ name s, ab_adapterBids (merge_seat adapter acc seat) !! name = Some s → sr_Bids s ≠ [].
Proof.
  intros Hacc name s. destruct seat as [x|]; simpl; [|by apply Hacc]. destruct (sr_Bids x) as [|b bs] eqn:Eb; [by apply Hacc|].
  simpl. destruct (ab_adapterBids acc !! sr_Seat x) as [v|] eqn:Ev; intros [[<- <-]|[? ?]]%lookup_insert_Some; eauto.
  - simpl. intros Hn. apply app_eq_nil in Hn as [_ ?]. done.
  - by rewrite Eb.
Qed.
Lemma collected_nonempty arrivals name s : ab_adapterBids (getAllBids arrivals) !! name = Some s → sr_Bids s ≠ [].
Proof.
  revert name s. induction arrivals as [|run arrivals IH] using rev_ind; intros name s; [done|].
  rewrite getAllBids_snoc. simpl. revert IH name s. generalize (getAllBids arrivals) as acc.
  induction (brw_adapterSeatBids (answer run)) as [|x l IHl]; intros acc Hacc name s; simpl; [by apply Hacc|].
  apply IHl. by apply merge_seat_nonempty.
Qed.

Lemma merge_seat_found adapter acc seat :
  ab_bidsFound acc = bool_decide (ab_adapterBids acc ≠ ∅) →
  ab_bidsFound (merge_seat adapter acc seat) = bool_decide (ab_adapterBids (merge_seat adapter acc seat) ≠ ∅).
Proof.
  intros Hacc. destruct seat as [x|]; simpl; [|done]. destruct (sr_Bids x); [done|]. simpl. symmetry. apply bool_decide_eq_true.
  destruct (ab_adapterBids acc !! sr_Seat x); apply insert_non_empty.
Qed.
Lemma collected_found arrivals : ab_bidsFound (getAllBids arrivals) = bool_decide (ab_adapterBids (getAllBids arrivals) ≠ ∅).
Proof.
  induction arrivals as [|run arrivals IH] using rev_ind; [done|].
  rewrite getAllBids_snoc. simpl. revert IH. generalize (getAllBids arrivals) as acc.
  induction (brw_adapterSeatBids (answer run)) as [|x l IHl]; intros acc Hacc; simpl; [done|].
  apply IHl. by apply merge_seat_found.
Qed.

(** Addresses: a seat reads back the bids it was given, and no two places share one. *)
Lemma zip_seq_lookup {A} (next : nat) (l : list A) i x :
  l !! i = Some x → (list_to_map (zip (seq next (length l)) l) : gmap nat A) !! (next + i)%nat = Some x.
Proof.
  intros Hi. apply elem_of_list_to_map_1.
  - rewrite fst_zip by (rewrite length_seq; lia). apply NoDup_seq.
  - apply list_elem_of_lookup. exists i. apply lookup_zip_with_Some. eexists _, _. split_and!; [done| |done].
    apply lookup_seq. split; [done|]. by apply lookup_lt_Some in Hi.
Qed.
Lemma zip_seq_None {A} (next : nat) (l : list A) a :
  (a < next ∨ next + length l ≤ a)%nat → (list_to_map (zip (seq next (length l)) l) : gmap nat A) !! a = None.
Proof.
  intros Ha. apply not_elem_of_list_to_map_1. rewrite fst_zip by (rewrite length_seq; lia). rewrite elem_of_seq. lia.
Qed.
Lemma allocate_below next seats a : (a < next)%nat → (allocate_seats next seats).1 !! a = None.
Proof.
  revert next. induction seats as [|[name s] seats IH]; intros next Ha; simpl; [done|].
  specialize (IH (next + length (sr_Bids s))%nat ltac:(lia)). destruct (allocate_seats (next + length (sr_Bids s)) seats) as [st m]. simpl in *.
  apply lookup_union_None. split; [|done]. apply zip_seq_None. lia.
Qed.
Lemma allocate_reads next seats name s :
  NoDup seats.*1 → (name, s) ∈ seats →
  ∃ base, (next ≤ base)%nat ∧ (∃ seat, (allocate_seats next seats).2 !! name = Some seat ∧ seat_Bids seat = seq base (length (sr_Bids s)) ∧
      seat_Currency seat = sr_Currency s) ∧
    ∀ i b, sr_Bids s !! i = Some b → (allocate_seats next seats).1 !! (base + i)%nat = Some b.
Proof.
  revert next. induction seats as [|[n0 s0] seats IH]; intros next Hnd Hin; [by apply elem_of_nil in Hin|].
  simpl in Hnd. apply NoDup_cons in Hnd as [Hni Hnd]. simpl. pose proof (IH (next + length (sr_Bids s0))%nat) as IH0.
  pose proof (allocate_below (next + length (sr_Bids s0)) seats) as Hbelow.
  destruct (allocate_seats (next + length (sr_Bids s0)) seats) as [st m]. simpl in *.
  apply elem_of_cons in Hin as [[= <- <-]|Hin].
  - exists next. split; [done|]. split; [eexists; split; [by rewrite lookup_insert_eq|done]|].
    intros i b Hi. apply lookup_union_Some_l. by apply zip_seq_lookup.
  - destruct (IH0 Hnd Hin) as (base & Hb & (seat & Hs & Hbs & Hcur) & Hreads). exists base. split; [lia|]. split.
    + exists seat. split; [|done]. rewrite lookup_insert_ne; [done|]. intros ->. apply Hni. apply list_elem_of_fmap. by exists (name, s).
    + intros i b Hi. rewrite lookup_union_r; [by apply Hreads|]. apply zip_seq_None. lia.
Qed.
Lemma allocate_spec seats name s :
  seats !! name = Some s → ∃ seat, (allocate seats).2 !! name = Some seat ∧ seat_Currency seat = sr_Currency s ∧
    mapM (λ l, (allocate seats).1 !! l) (seat_Bids seat) = Some (sr_Bids s).
Proof.
  intros Hs. destruct (allocate_reads 0 (map_to_list seats) name s) as (base & _ & (seat & Hseat & Hbs & Hcur) & Hreads).
  - apply NoDup_fst_map_to_list.
  - by apply elem_of_map_to_list.
  - exists seat. split; [done|]. split; [done|]. rewrite Hbs. apply mapM_Some. apply Forall2_same_length_lookup. split; [by rewrite length_seq|].
    intros i a b [-> Hi]%lookup_seq Hb. by apply Hreads.
Qed.

(** *** Interleavings *)
(** No answer is lost or made up: those merged, in the order they were received, those in the channel
    and those still to be sent are together one of every bidder. *)
Lemma answers_conserved runs s :
  rtc (collect_step (length runs)) (collect_start runs) s →
  ∃ received, length received = co_received s ∧ co_bids s = foldl receive_answer no_bids received ∧
    received ++ co_chBids s ++ mjoin (co_sending s) ≡ₚ answer <$> runs.
Proof.
  revert s. apply (rtc_ind_r (λ s, ∃ received, length received = co_received s ∧ co_bids s = foldl receive_answer no_bids received ∧
    received ++ co_chBids s ++ mjoin (co_sending s) ≡ₚ answer <$> runs)).
  - exists []. simpl. by rewrite all_answers.
  - intros s s' _ Hstep (received & Hn & Hb & Hp).
    destruct Hstep as [pre a rest post ch i acc Hroom|gs a ch i acc Hi]; simpl in *.
    + exists received. split_and!; [done..|]. rewrite <-Hp. rewrite !join_app. cbn.
      f_equiv. rewrite <-app_assoc. f_equiv. cbn. apply Permutation_middle.
    + exists (received ++ [a]). rewrite length_app, foldl_app, <-Hb. simpl. split_and!; [lia|done|]. by rewrite <-app_assoc.
Qed.
(** Steps left: every answer is sent once and received once. *)
Definition collect_work (s : collecting) : nat := 2 * length (mjoin (co_sending s)) + length (co_chBids s).
Lemma collect_step_works n s s' : collect_step n s s' → collect_work s = S (collect_work s').
Proof. unfold collect_work. intros []; simpl; rewrite ?join_app, ?length_app; cbn; rewrite ?length_app; lia. Qed.
Lemma collect_bounded n k s s' : nsteps (collect_step n) k s s' → (k ≤ collect_work s)%nat.
Proof. induction 1 as [|k s s1 s' Hs _ IH]; [lia|]. apply collect_step_works in Hs. lia. Qed.
Lemma collect_unblocked runs s :
  rtc (collect_step (length runs)) (collect_start runs) s → (co_received s < length runs)%nat →
  ∃ s', collect_step (length runs) s s'.
Proof.
  intros Hr Hn. destruct (answers_conserved _ _ Hr) as (received & Hl & _ & Hp).
  destruct s as [gs [|a ch] i acc]; simpl in *; [|eexists; by constructor].
  apply Permutation_length in Hp. rewrite length_app, length_fmap in Hp.
  destruct (mjoin gs) as [|a l] eqn:Eg; [simpl in Hp; lia|].
  assert (a ∈ mjoin gs) as (g & Ha & Hg)%list_elem_of_join by (rewrite Eg; by left).
  destruct g as [|a0 rest]; [by apply elem_of_nil in Ha|].
  apply list_elem_of_split in Hg as (pre & post & ->). eexists. constructor. simpl. lia.
Qed.
Lemma collect_complete runs s :
  rtc (collect_step (length runs)) (collect_start runs) s → co_received s = length runs →
  mjoin (co_sending s) = [] ∧ co_chBids s = [] ∧ ∃ arrivals, arrivals ≡ₚ runs ∧ co_bids s = getAllBids arrivals.
Proof.
  intros Hr Hn. destruct (answers_conserved _ _ Hr) as (received & Hl & Hb & Hp).
  pose proof (Permutation_length Hp) as Hlen. rewrite !length_app, length_fmap in Hlen.
  assert (mjoin (co_sending s) = [] ∧ co_chBids s = []) as [Hg Hc] by (split; apply nil_length_inv; lia).
  split_and!; [done..|]. rewrite Hg, Hc, !app_nil_r in Hp. symmetry in Hp.
  destruct (Permutation_map_inv _ _ (Permutation_sym Hp)) as (arrivals & -> & Ha). exists arrivals. split; [done|]. by rewrite Hb, getAllBids_answers.
Qed.

(** What the answers are merged to, in whatever order they arrive. *)
Lemma arrivals_keep_bids (runs arrivals : list bidderRun) :
  arrivals ≡ₚ runs →
  (∀ name, default [] (sr_Bids <$> ab_adapterBids (getAllBids arrivals) !! name) ≡ₚ mjoin (run_bids name <$> runs)) ∧
  (ab_bidsFound (getAllBids arrivals) = true ↔ ∃ name, mjoin (run_bids name <$> runs) ≠ []) ∧
  (∀ name s, ab_adapterBids (getAllBids arrivals) !! name = Some s → sr_Bids s ≠ []).
Proof.
  intros Hp.
  assert (∀ name, default [] (sr_Bids <$> ab_adapterBids (getAllBids arrivals) !! name) ≡ₚ mjoin (run_bids name <$> runs)) as Hall.
  { intros name. rewrite collected_bids. by rewrite Hp. }
  split_and!; [done| |intros *; apply collected_nonempty]. rewrite collected_found, bool_decide_eq_true. split.
  - intros Hne. apply map_choose in Hne as (name & s & Hs). exists name. intros Hnil.
    pose proof (Hall name) as Hn. rewrite Hs, Hnil in Hn. simpl in Hn. symmetry in Hn. apply Permutation_nil in Hn. by eapply collected_nonempty.
  - intros (name & Hne) Hemp. apply Hne. pose proof (Hall name) as Hn. rewrite Hemp, lookup_empty in Hn. simpl in Hn. by apply Permutation_nil.
Qed.

(** The bids a bidder returned for a seat; a panic, also while its prices are recorded, returns none. *)
Definition returned_for (name : string) (run : bidderRun) : list PbsOrtbBid :=
  match run_result run with
  | Some r => if prices_recorded r then mjoin (sr_Bids <$> filter (λ s, sr_Seat s = name) (rr_seats r)) else []
  | None => []
  end.
Lemma run_bids_returned name run : run_bids name run = returned_for name run.
Proof.
  unfold run_bids, returned_for, answer, bidderRunner, recoverSafely, bidder_body.
  destruct (run_result run) as [r|]; [|done]. destruct (prices_recorded r); [|done]. simpl.
  induction (rr_seats r) as [|s l IH]; [done|]. rewrite filter_cons, !fmap_cons. cbv beta iota.
  destruct (String.eqb_spec (sr_Seat s) name) as [E|E]; [rewrite decide_True, fmap_cons by done|rewrite decide_False by done];
    repeat match goal with |- context [mjoin (?x :: ?l)] => change (mjoin (x :: l)) with (x ++ mjoin l) end; by rewrite IH.
Qed.

(** ** Theorems *)
(** C15: The goroutines of the bidders send on the channel and the loop receives, in any interleaving.
    Whichever bidders panic, there are at most two steps per bidder, until the loop has received as many
    answers as there are bidders some goroutine can send or the loop can receive, and when it has, no goroutine
    has anything left to send or waits to, the channel is empty, and each seat holds exactly the bids that
    bidders that did not panic returned for it; bids are reported as found exactly when there is one,
    and no seat is empty. *)
Theorem collection_keeps_every_bid (runs : list bidderRun) (s : collecting) :
  rtc (collect_step (length runs)) (collect_start runs) s →
  (∀ k, nsteps (collect_step (length runs)) k (collect_start runs) s → (k ≤ 2 * length runs)%nat) ∧
  ((co_received s < length runs)%nat → ∃ s', collect_step (length runs) s s') ∧
  (co_received s ≤ length runs)%nat ∧
  (co_received s = length runs →
    mjoin (co_sending s) = [] ∧ co_chBids s = [] ∧
    (∀ name, default [] (sr_Bids <$> ab_adapterBids (co_bids s) !! name) ≡ₚ mjoin (returned_for name <$> runs)) ∧
    (ab_bidsFound (co_bids s) = true ↔ ∃ name, mjoin (returned_for name <$> runs) ≠ []) ∧
    (∀ name seat, ab_adapterBids (co_bids s) !! name = Some seat → sr_Bids seat ≠ [])).
Proof.
  intros Hr. split_and!.
  - intros k Hk. apply collect_bounded in Hk. unfold collect_work in Hk. simpl in Hk. rewrite all_answers, length_fmap in Hk. simpl in Hk. lia.
  - by apply collect_unblocked.
  - destruct (answers_conserved _ _ Hr) as (received & <- & _ & Hp). apply Permutation_length in Hp.
    rewrite length_app, length_fmap in Hp. lia.
  - intros Hn. destruct (collect_complete _ _ Hr Hn) as (Hg & Hc & arrivals & Hp & ->).
    destruct (arrivals_keep_bids _ _ Hp) as (Hall & Hf & Hne).
    assert (∀ name, mjoin (run_bids name <$> runs) = mjoin (returned_for name <$> runs)) as Hrun.
    { intros name. f_equal. apply list_fmap_ext. intros i run _. apply run_bids_returned. }
    split_and!; [done..| | |done].
    + intros name. by rewrite <-Hrun.
    + rewrite Hf. split; intros [name ?]; exists name; [by rewrite <-Hrun|by rewrite Hrun].
Qed.

Definition demo_seat (cur : string) (price : float64) : seatResult :=
  {| sr_Bids := [plain_bid (Some {| bid_ID := "b"; bid_ImpID := "imp"; bid_Price := price; bid_AdM := ""; bid_NURL := ""; bid_DealID := "";
       bid_W := 0; bid_H := 0; bid_Exp := 0; bid_MType := 1; bid_ExtType := None; bid_CrID := "c"; bid_ADomain := []; bid_Cat := [];
       bid_CatTax := 0; bid_Dur := 0; bid_Ext := "" |}) BidTypeBanner];
     sr_Currency := cur; sr_Fledge := None; sr_HttpCalls := []; sr_Seat := "shared" |}.
Definition demo_run (name : string) (seat : option seatResult) : bidderRun :=
  {| run_BidderName := name; run_BidderCoreName := name;
     run_result := option_map (λ s, {| rr_seats := [s]; rr_nonBids := ∅; rr_errs := []; rr_Cur := ["USD"] |}) seat;
     run_elapsed := 0; run_startTime := None |}.

(** The second of two bidders panics and answers first; the bid of the first is there at the end. *)
Definition demo_runs : list bidderRun := [demo_run "a" (Some (demo_seat "USD" (fofZ 1))); demo_run "b" None].
Definition demo_collected : collecting :=
  {| co_sending := [[]; []]; co_chBids := []; co_received := 2; co_bids := getAllBids (reverse demo_runs) |}.
Lemma demo_collects : rtc (collect_step 2) (collect_start demo_runs) demo_collected.
Proof.
  eapply rtc_l; [apply (step_send 2 [bidderRunner (demo_run "a" (Some (demo_seat "USD" (fofZ 1))))] recovered_answer [] [] []); simpl; lia|].
  eapply rtc_l; [apply (step_send 2 [] (answer (demo_run "a" (Some (demo_seat "USD" (fofZ 1))))) [] [[]] [recovered_answer]); simpl; lia|].
  eapply rtc_l; [apply step_receive; lia|]. eapply rtc_l; [apply step_receive; lia|]. apply rtc_refl.
Qed.
Lemma collection_keeps_every_bid_witness :
  co_received demo_collected = 2%nat ∧ mjoin (co_sending demo_collected) = [] ∧
  default [] (sr_Bids <$> ab_adapterBids (co_bids demo_collected) !! "shared") ≡ₚ mjoin (returned_for "shared" <$> demo_runs).
Proof.
  destruct (collection_keeps_every_bid demo_runs demo_collected demo_collects) as (_ & _ & _ & Hdone).
  destruct (Hdone eq_refl) as (Hg & _ & Hbids & _). split_and!; [reflexivity|exact Hg|apply Hbids].
Defined.

(** Two bidders that bid in one seat with different currencies: the seat keeps the currency of the
    answer that arrived first, and the other bid's price is read in it. *)
Theorem merged_seat_keeps_one_currency :
  let yen := demo_run "a" (Some (demo_seat "JPY" (fofZ 100))) in
  let usd := demo_run "b" (Some (demo_seat "USD" (fofZ 1))) in
  let label l := sr_Currency <$> ab_adapterBids (getAllBids l) !! "shared" in
  let prices l := (λ s, omap (λ b, bid_Price <$> pb_Bid b) (sr_Bids s)) <$> ab_adapterBids (getAllBids l) !! "shared" in
  label [yen; usd] = Some "JPY" ∧ prices [yen; usd] = Some [fofZ 100; fofZ 1] ∧
  label [usd; yen] = Some "USD" ∧ prices [usd; yen] = Some [fofZ 1; fofZ 100].
Proof. split_and!; reflexivity. Qed.
