(* ===== verification/Response.v ===== *)
(** * The auction response: src/exchange/exchange.go, src/dsa, src/util/maputil

    The seats of an auction become the seats of an OpenRTB response: every bid is checked for DSA,
    creative size and secure markup, its extension is rebuilt, and what is left out is noted.  Bids are
    read through the store of the auction.  JSON is the interface [BidJson]. *)
From S2P Require Import Prelude GoStrings GoFloat Bids Auction ErrorTypes BidderCall Collect ExtWrapper VideoUrls RequestParts.

(** ** Data *)
Record ExtBidPrebid := {
  ebp_Cache : option (string * string);  (** cache id and URL *)
  ebp_DealPriority : Z;
  ebp_DealTierSatisfied : bool;
  ebp_Meta : option ExtBidPrebidMeta;
  ebp_Targeting : gmap string string;
  ebp_TargetBidderCode : string;
  ebp_Type : string;
  ebp_Video : option ExtBidPrebidVideo;
  ebp_Events : option ExtBidPrebidEvents;
  ebp_BidId : string;
  ebp_Passthrough : option string;
  ebp_Floors : option ExtBidPrebidFloors
}.
Record ExtBidDSA := { bd_AdRender : option Z; bd_Behalf : string; bd_Paid : string }.
Record ImpExtInfo := { ii_EchoVideoAttrs : bool; ii_StoredImp : string; ii_Passthrough : option string }.

(** [encoding/json] on bid extensions: decoding to a map (null is the nil map) and back, the values
    that are put in, and the two typed reads. *)
Class BidJson := {
  jv : Type;
  j_decode : string → result go_error (option (gmap string jv));
  j_encode : gmap string jv → result go_error string;
  j_object : jv → option (gmap string jv);
  j_number : float64 → jv;
  j_string : string → jv;
  j_raw : string → jv;
  j_prebid : ExtBidPrebid → jv;
  j_meta : string → result go_error ExtBidPrebidMeta;
  j_video : string → result go_error string;
  j_dsa : string → option (option ExtBidDSA)
}.

Record ExtResponsePrebid := {
  rp_AuctionTimestamp : Z;
  rp_Passthrough : option string;
  rp_Fledge : option (list FledgeAuctionConfig);
  rp_SeatNonBid : list SeatNonBid
}.
Record ExtBidResponse := {
  er_Debug : option (gmap string (list ExtHttpCall) * string);
  er_Errors : gmap string (list ExtBidderMessage);
  er_Warnings : gmap string (list ExtBidderMessage);
  er_ResponseTimeMillis : gmap string Z;
  er_RequestTimeoutMillis : Z;
  er_Prebid : option ExtResponsePrebid
}.
Definition add_message (k : string) (m : ExtBidderMessage) (msgs : gmap string (list ExtBidderMessage)) : gmap string (list ExtBidderMessage) :=
  <[k := default [] (msgs !! k) ++ [m]]> msgs.
Definition add_error (k : string) (m : ExtBidderMessage) (x : ExtBidResponse) : ExtBidResponse :=
  {| er_Debug := er_Debug x; er_Errors := add_message k m (er_Errors x); er_Warnings := er_Warnings x;
     er_ResponseTimeMillis := er_ResponseTimeMillis x; er_RequestTimeoutMillis := er_RequestTimeoutMillis x; er_Prebid := er_Prebid x |}.
Definition add_warning (k : string) (m : ExtBidderMessage) (x : ExtBidResponse) : ExtBidResponse :=
  {| er_Debug := er_Debug x; er_Errors := er_Errors x; er_Warnings := add_message k m (er_Warnings x);
     er_ResponseTimeMillis := er_ResponseTimeMillis x; er_RequestTimeoutMillis := er_RequestTimeoutMillis x; er_Prebid := er_Prebid x |}.

(** ** DSA *)
Inductive dsa_error := ErrDsaMissing | ErrBehalfTooLong | ErrPaidTooLong | ErrNeitherWillRender | ErrBothWillRender.
Definition dsa_message (e : dsa_error) : string :=
  match e with
  | ErrDsaMissing => "DSA object missing when required"
  | ErrBehalfTooLong => "DSA behalf exceeds limit of 100 chars"
  | ErrPaidTooLong => "DSA paid exceeds limit of 100 chars"
  | ErrNeitherWillRender => "DSA publisher and buyer both signal will not render"
  | ErrBothWillRender => "DSA publisher and buyer both signal will render"
  end.
Definition dsaRequired (dsa : option ExtRegsDSA) : bool :=
  match dsa ≫= dsa_Required with Some r => (r =? 2) || (r =? 3) | None => false end.

Section Dsa.
Context `{BidJson}.
Definition getBidDSA (bid : PbsOrtbBid) : option ExtBidDSA := b ← pb_Bid bid; mjoin (j_dsa (bid_Ext b)).
(** [None] is a nil error.  [reqDSA] is [regs.ext.dsa] of the request. *)
Definition dsa_Validate (reqDSA : option ExtRegsDSA) (bid : PbsOrtbBid) : option dsa_error :=
  match getBidDSA bid with
  | None => if dsaRequired reqDSA then Some ErrDsaMissing else None
  | Some bidDSA =>
      if (100 <? String.length (bd_Behalf bidDSA))%nat then Some ErrBehalfTooLong
      else if (100 <? String.length (bd_Paid bidDSA))%nat then Some ErrPaidTooLong
      else match reqDSA ≫= dsa_PubRender, bd_AdRender bidDSA with
           | Some pub, Some ad =>
               if (pub =? 0) && negb (ad =? 1) then Some ErrNeitherWillRender
               else if (pub =? 2) && (ad =? 1) then Some ErrBothWillRender
               else None
           | _, _ => None
           end
  end.
End Dsa.

(** [Writer.Write] on the decoded [regs.ext]; [Err] when it does not decode. *)
Record AccountDSA := { ad_DefaultUnpacked : option ExtRegsDSA; ad_GDPROnly : bool }.
Definition dsa_Write `{Json} (config : option AccountDSA) (gdprInScope : bool) (regExt : result unit RegExt) : result unit (option RegExt) :=
  match regExt with
  | Ok x =>
      match val (rge_dsa x) with
      | Some _ => Ok None
      | None =>
          match config with
          | Some c => match ad_DefaultUnpacked c with
                      | Some d => if ad_GDPROnly c && negb gdprInScope then Ok None else Ok (Some (RegExt_SetDSA (Some d) x))
                      | None => Ok None
                      end
          | None => Ok None
          end
      end
  | Err e =>
      match config with
      | Some c => match ad_DefaultUnpacked c with
                  | Some _ => if ad_GDPROnly c && negb gdprInScope then Ok None else Err e
                  | None => Ok None
                  end
      | None => Ok None
      end
  end.

(** ** Creative checks *)
Record Validations := { va_BannerCreativeMaxSize : string; va_SecureMarkup : string; va_MaxCreativeWidth : Z; va_MaxCreativeHeight : Z }.
Definition ValidationEnforce := "enforce".
Definition ValidationWarn := "warn".
(** Writes through the receiver, which is the exchange's own copy. *)
Definition SetBannerCreativeMaxSize (host account : Validations) : Validations :=
  if (0 <? String.length (va_BannerCreativeMaxSize account))%nat
  then {| va_BannerCreativeMaxSize := va_BannerCreativeMaxSize account; va_SecureMarkup := va_SecureMarkup host;
          va_MaxCreativeWidth := va_MaxCreativeWidth host; va_MaxCreativeHeight := va_MaxCreativeHeight host |}
  else host.

Definition setErrorMessageCreativeSize (validationType : string) : string :=
  if validationType =s? ValidationEnforce then "bidResponse rejected: size WxH"
  else if validationType =s? ValidationWarn then "bidResponse creative size warning: size WxH larger than AdUnit sizes"
  else "".
Definition setErrorMessageSecureMarkup (validationType : string) : string :=
  if validationType =s? ValidationEnforce then "bidResponse rejected: insecure creative in secure context"
  else if validationType =s? ValidationWarn then "bidResponse secure markup warning: insecure creative in secure contexts"
  else "".
Definition validateBannerCreativeSize (v : Validations) (bid : Bid) (ext : ExtBidResponse) (adapter validationType : string) : bool * ExtBidResponse :=
  if (va_MaxCreativeWidth v <? bid_W bid) || (va_MaxCreativeHeight v <? bid_H bid)
  then (false, add_error adapter {| bm_Code := BadServerResponseErrorCode; bm_Message := setErrorMessageCreativeSize validationType |} ext)
  else (true, ext).
Definition insecure_markup (adm : string) : bool :=
  (strContains adm "http:" || strContains adm "http%3A") && (negb (strContains adm "https:") && negb (strContains adm "https%3A")).
Definition validateBidAdM (bid : Bid) (ext : ExtBidResponse) (adapter validationType : string) : bool * ExtBidResponse :=
  if insecure_markup (bid_AdM bid)
  then (false, add_error adapter {| bm_Code := BadServerResponseErrorCode; bm_Message := setErrorMessageSecureMarkup validationType |} ext)
  else (true, ext).

(** ** Cache links *)
Definition findCacheID (l : loc) (bid : option Bid) (auc : option auction) : option string :=
  match bid, auc with
  | Some _, Some a => match cacheIds a !! l with Some id => Some id | None => vastCacheIds a !! l end
  | _, _ => None
  end.
(** The cache client's external scheme, host and path.  [escapePath] and [escapeHost] are the two
    escapings of [url.URL.String]. *)
Definition path_byte (a : ascii) : string :=
  if is_upper a || is_lower a || bool_decide (is_Some (digit a)) || existsb (Ascii.eqb a) (list_ascii_of_string "-_.~$&+,/:;=@")
  then String a "" else if Ascii.eqb a " " then "%20" else escapeByte a.
Fixpoint escapePath (s : string) : string := match s with EmptyString => "" | String a r => path_byte a +:+ escapePath r end.
Definition host_byte (a : ascii) : string :=
  if is_upper a || is_lower a || bool_decide (is_Some (digit a)) || existsb (Ascii.eqb a) (list_ascii_of_string "-_.~!$&'()*+,;=:[]<>") || Ascii.eqb a "034"
  then String a "" else if Ascii.eqb a " " then "%20" else escapeByte a.
Fixpoint escapeHost (s : string) : string := match s with EmptyString => "" | String a r => host_byte a +:+ escapeHost r end.
Definition buildCacheURL (cache : string * string * string) (uuid : string) : string :=
  let '(scheme, host, path) := cache in
  if (host =s? "") || (path =s? "") then ""
  else
    let p := if path =s? "*" then "*" else escapePath path in
    let p := if HasPrefix p "/" then p else "/" +:+ p in
    TrimPrefix ((if scheme =s? "" then "" else scheme +:+ ":") +:+ "//" +:+ escapeHost host +:+ p +:+ "?uuid=" +:+ QueryEscape uuid) "//".

(** ** Extensions of bids *)
Section Ext.
Context `{BidJson}.

Definition ReadEmbeddedMap (m : gmap string jv) (k : string) : option (gmap string jv) := m !! k ≫= j_object.
Fixpoint HasElement (m : gmap string jv) (ks : list string) : bool :=
  match ks with
  | [] => false
  | [k] => bool_decide (is_Some (m !! k))
  | k :: rest => match ReadEmbeddedMap m k with Some m' => HasElement m' rest | None => false end
  end.

Definition set_Meta (m : option ExtBidPrebidMeta) (p : ExtBidPrebid) : ExtBidPrebid :=
  {| ebp_Cache := ebp_Cache p; ebp_DealPriority := ebp_DealPriority p; ebp_DealTierSatisfied := ebp_DealTierSatisfied p; ebp_Meta := m;
     ebp_Targeting := ebp_Targeting p; ebp_TargetBidderCode := ebp_TargetBidderCode p; ebp_Type := ebp_Type p; ebp_Video := ebp_Video p;
     ebp_Events := ebp_Events p; ebp_BidId := ebp_BidId p; ebp_Passthrough := ebp_Passthrough p; ebp_Floors := ebp_Floors p |}.
Definition set_Passthrough (x : option string) (p : ExtBidPrebid) : ExtBidPrebid :=
  {| ebp_Cache := ebp_Cache p; ebp_DealPriority := ebp_DealPriority p; ebp_DealTierSatisfied := ebp_DealTierSatisfied p; ebp_Meta := ebp_Meta p;
     ebp_Targeting := ebp_Targeting p; ebp_TargetBidderCode := ebp_TargetBidderCode p; ebp_Type := ebp_Type p; ebp_Video := ebp_Video p;
     ebp_Events := ebp_Events p; ebp_BidId := ebp_BidId p; ebp_Passthrough := x; ebp_Floors := ebp_Floors p |}.

(** [m[k] = v]; [None] is the panic of a write to the nil map. *)
Definition map_write (k : string) (v : jv) (m : option (gmap string jv)) : option (option (gmap string jv)) :=
  match m with Some m => Some (Some (<[k := v]> m)) | None => None end.

(** [ext.prebid.meta] of the bid where the adapter gave none, with the adapter's code. *)
Definition meta_of (ext : string) (extMap : option (gmap string jv)) (prebid : ExtBidPrebid) (adapter : string) : result go_error ExtBidPrebidMeta :=
  let? meta := match ebp_Meta prebid with
               | Some m => Ok m
               | None => if HasElement (default ∅ extMap) ["prebid"; "meta"]
                         then match j_meta ext with
                              | Ok m => Ok m
                              | Err e => Err (PlainError ("error validating response from server, " +:+ message e))
                              end
                         else Ok {| meta_AdapterCode := ""; meta_rest := "" |}
               end in
  Ok {| meta_AdapterCode := adapter; meta_rest := meta_rest meta |}.

(** The outer option is a panic. *)
Definition makeBidExtJSON (ext : string) (prebid : ExtBidPrebid) (impExtInfo : option ImpExtInfo)
    (originalBidCpm : float64) (originalBidCur adapter : string) : option (result go_error string) :=
  match (if ext =s? "" then Ok (Some ∅) else j_decode ext) with
  | Err e => Some (Err e)
  | Ok extMap =>
      extMap ← (if f0 <=f? originalBidCpm then map_write "origbidcpm" (j_number originalBidCpm) extMap else Some extMap);
      extMap ← (if originalBidCur =s? "" then Some extMap else map_write "origbidcur" (j_string originalBidCur) extMap);
      match meta_of ext extMap prebid adapter with
      | Err e => Some (Err e)
      | Ok meta =>
          let prebid := set_Meta (Some meta) prebid in
          let prebid := match impExtInfo with Some i => set_Passthrough (ii_Passthrough i) prebid | None => prebid end in
          match (match impExtInfo with
                 | Some i => if ii_EchoVideoAttrs i then j_video (ii_StoredImp i) else Ok ""
                 | None => Ok ""
                 end) with
          | Err e => Some (Err e)
          | Ok videoData =>
              extMap ← (if videoData =s? "" then Some extMap else map_write "storedrequestattributes" (j_raw videoData) extMap);
              extMap ← map_write "prebid" (j_prebid prebid) extMap;
              Some (j_encode (default ∅ extMap))
          end
      end
  end.
End Ext.

(** ** Bids of a seat *)
Record bidOutcome := { bo_result : list Bid; bo_errs : list go_error; bo_ext : ExtBidResponse; bo_nonBids : SeatNonBidBuilder }.

Section Seats.
Context `{BidJson} `{MapRange}.
(** The store, the settings of the exchange, the auction (nil without targeting), whether the creative
    is returned, what is known of the impressions, the request's DSA object and the cache. *)
Context (st : bid_store) (validation : Validations) (auc : option auction) (returnCreative : bool)
        (impExtInfoMap : gmap string ImpExtInfo) (reqDSA : option ExtRegsDSA) (cache : string * string * string).

Definition bid_ext_prebid (l : loc) (p : PbsOrtbBid) : ExtBidPrebid :=
  {| ebp_Cache := (λ id, (id, buildCacheURL cache id)) <$> findCacheID l (pb_Bid p) auc;
     ebp_DealPriority := pb_DealPriority p; ebp_DealTierSatisfied := pb_DealTierSatisfied p; ebp_Meta := pb_BidMeta p;
     ebp_Targeting := pb_BidTargets p; ebp_TargetBidderCode := pb_TargetBidderCode p; ebp_Type := pb_BidType p;
     ebp_Video := pb_BidVideo p; ebp_Events := pb_BidEvents p; ebp_BidId := pb_GeneratedBidID p; ebp_Passthrough := None;
     ebp_Floors := pb_BidFloors p |}.
Definition response_bid (b : Bid) (ext : string) : Bid :=
  {| bid_ID := bid_ID b; bid_ImpID := bid_ImpID b; bid_Price := bid_Price b; bid_AdM := if returnCreative then bid_AdM b else "";
     bid_NURL := bid_NURL b; bid_DealID := bid_DealID b; bid_W := bid_W b; bid_H := bid_H b; bid_Exp := bid_Exp b;
     bid_MType := bid_MType b; bid_ExtType := bid_ExtType b; bid_CrID := bid_CrID b; bid_ADomain := bid_ADomain b;
     bid_Cat := bid_Cat b; bid_CatTax := bid_CatTax b; bid_Dur := bid_Dur b; bid_Ext := ext |}.

(** The checks of one bid: what it is rejected for, if anything, and the messages. *)
Definition check_creative (adapter : string) (p : PbsOrtbBid) (b : Bid) (ext : ExtBidResponse) : option NonBidReason * ExtBidResponse :=
  let isBanner := pb_BidType p =s? BidTypeBanner in
  let '(ok, ext) :=
    if (va_BannerCreativeMaxSize validation =s? ValidationEnforce) && isBanner
    then validateBannerCreativeSize validation b ext adapter (va_BannerCreativeMaxSize validation)
    else if (va_BannerCreativeMaxSize validation =s? ValidationWarn) && isBanner
    then (true, (validateBannerCreativeSize validation b ext adapter (va_BannerCreativeMaxSize validation)).2)
    else (true, ext) in
  if negb ok then (Some ResponseRejectedCreativeSizeNotAllowed, ext)
  else
    let markup := isBanner || (pb_BidType p =s? BidTypeVideo) in
    let '(ok, ext) :=
      match impExtInfoMap !! bid_ImpID b with
      | None => (true, ext)
      | Some _ =>
          if (va_SecureMarkup validation =s? ValidationEnforce) && markup
          then validateBidAdM b ext adapter (va_SecureMarkup validation)
          else if (va_SecureMarkup validation =s? ValidationWarn) && markup
          then (true, (validateBidAdM b ext adapter (va_SecureMarkup validation)).2)
          else (true, ext)
      end in
    (if ok then None else Some ResponseRejectedCreativeNotSecure, ext).

(** The body of the loop; [None] is a panic. *)
Definition make_bid (adapter : string) (acc : bidOutcome) (l : loc) : option bidOutcome :=
  p ← st !! l;
  match dsa_Validate reqDSA p with
  | Some e =>
      let msg := {| bm_Code := InvalidBidResponseDSAWarningCode; bm_Message := "bid rejected: " +:+ dsa_message e |} in
      Some {| bo_result := bo_result acc; bo_errs := bo_errs acc; bo_ext := add_warning adapter msg (bo_ext acc);
              bo_nonBids := rejectBid (bo_nonBids acc) p ResponseRejectedGeneral adapter |}
  | None =>
      b ← pb_Bid p;
      let '(rejected, ext) := check_creative adapter p b (bo_ext acc) in
      match rejected with
      | Some reason =>
          Some {| bo_result := bo_result acc; bo_errs := bo_errs acc; bo_ext := ext; bo_nonBids := rejectBid (bo_nonBids acc) p reason adapter |}
      | None =>
          made ← makeBidExtJSON (bid_Ext b) (bid_ext_prebid l p) (impExtInfoMap !! bid_ImpID b) (pb_OriginalBidCPM p) (pb_OriginalBidCur p) (pb_AdapterCode p);
          Some (match made with
                | Err e => {| bo_result := bo_result acc; bo_errs := bo_errs acc ++ [e]; bo_ext := ext; bo_nonBids := bo_nonBids acc |}
                | Ok json => {| bo_result := bo_result acc ++ [response_bid b json]; bo_errs := bo_errs acc; bo_ext := ext; bo_nonBids := bo_nonBids acc |}
                end)
      end
  end.
Fixpoint make_bids (adapter : string) (acc : bidOutcome) (bids : list loc) : option bidOutcome :=
  match bids with
  | [] => Some acc
  | l :: rest => acc' ← make_bid adapter acc l; make_bids adapter acc' rest
  end.
Definition makeBid (bids : list loc) (ext : ExtBidResponse) (adapter : string) (nonBids : SeatNonBidBuilder) : option bidOutcome :=
  make_bids adapter {| bo_result := []; bo_errs := []; bo_ext := ext; bo_nonBids := nonBids |} bids.

Record SeatBid := { sb_Seat : string; sb_Bid : list Bid }.
Record BidResponse := { bs_ID : string; bs_NBR : option Z; bs_Cur : string; bs_SeatBid : list SeatBid }.
(** What building the response changes beside it. *)
Record buildState := { bu_ext : ExtBidResponse; bu_extra : gmap string seatResponseExtra; bu_nonBids : SeatNonBidBuilder }.

(** Errors go to the bidder's entry of [adapterExtra]; [None] is a panic, also of a missing entry. *)
Definition makeSeatBid (adapterBid : PbsOrtbSeatBid) (adapter : string) (s : buildState) : option (SeatBid * buildState) :=
  o ← makeBid (seat_Bids adapterBid) (bu_ext s) adapter (bu_nonBids s);
  extra ← match bo_errs o with
          | [] => Some (bu_extra s)
          | errs => x ← bu_extra s !! adapter;
                    Some (<[adapter := {| se_ResponseTimeMillis := se_ResponseTimeMillis x; se_Errors := se_Errors x ++ errsToBidderErrors errs;
                                          se_Warnings := se_Warnings x; se_HttpCalls := se_HttpCalls x |}]> (bu_extra s))
          end;
  Some ({| sb_Seat := adapter; sb_Bid := bo_result o |}, {| bu_ext := bo_ext o; bu_extra := extra; bu_nonBids := bo_nonBids o |}).

Fixpoint build_seats (seats : list (string * option PbsOrtbSeatBid)) (acc : list SeatBid * string) (s : buildState)
    : option (list SeatBid * string * buildState) :=
  match seats with
  | [] => Some (acc, s)
  | (a, Some seat) :: rest =>
      match seat_Bids seat with
      | [] => build_seats rest acc s
      | _ => '(sb, s') ← makeSeatBid seat a s; build_seats rest (acc.1 ++ [sb], seat_Currency seat) s'
      end
  | (_, None) :: rest => build_seats rest acc s
  end.
Definition NoBidInvalidRequest : Z := 2.
Definition buildBidResponse (requestID : string) (liveAdapters : list string) (adapterSeatBids : gmap string (option PbsOrtbSeatBid))
    (s : buildState) : option (BidResponse * buildState) :=
  '(seatBids, cur, s') ← build_seats (map_range adapterSeatBids) ([], "") s;
  Some ({| bs_ID := requestID; bs_NBR := match liveAdapters with [] => Some NoBidInvalidRequest | _ => None end;
           bs_Cur := cur; bs_SeatBid := seatBids |}, s').
End Seats.

(** ** The response's extension *)
Section ExtResponse.
Context `{MapRange}.

Definition add_extra (debugInfo : bool) (x : ExtBidResponse) (kv : string * seatResponseExtra) : ExtBidResponse :=
  let '(bidderName, e) := kv in
  {| er_Debug := match er_Debug x with
                 | Some (calls, req) => if debugInfo && (0 <? length (se_HttpCalls e))%nat then Some (<[bidderName := se_HttpCalls e]> calls, req) else Some (calls, req)
                 | None => None
                 end;
     er_Errors := match se_Errors e with [] => er_Errors x | errs => <[bidderName := errs]> (er_Errors x) end;
     er_Warnings := match se_Warnings e with [] => er_Warnings x | ws => <[bidderName := ws]> (er_Warnings x) end;
     er_ResponseTimeMillis := <[bidderName := se_ResponseTimeMillis e]> (er_ResponseTimeMillis x);
     er_RequestTimeoutMillis := er_RequestTimeoutMillis x; er_Prebid := er_Prebid x |}.

(** [auctionTimestamp] is 0 when the start time is not set. *)
Definition makeExtBidResponse (adapterExtra : gmap string seatResponseExtra) (tmax : Z) (resolvedRequest : string) (auctionTimestamp : Z)
    (debugInfo : bool) (passthrough : option string) (fledge : option (list FledgeAuctionConfig)) (errList : list go_error) : ExtBidResponse :=
  let prebid := if (0 <? auctionTimestamp) || bool_decide (is_Some passthrough) || bool_decide (is_Some fledge)
                then Some {| rp_AuctionTimestamp := auctionTimestamp; rp_Passthrough := passthrough; rp_Fledge := fledge; rp_SeatNonBid := [] |}
                else None in
  let x := foldl (add_extra debugInfo)
             {| er_Debug := if debugInfo then Some (∅, resolvedRequest) else None; er_Errors := ∅; er_Warnings := ∅;
                er_ResponseTimeMillis := ∅; er_RequestTimeoutMillis := tmax; er_Prebid := prebid |} (map_range adapterExtra) in
  match errList with
  | [] => x
  | _ =>
      {| er_Debug := er_Debug x; er_Errors := <["prebid" := errsToBidderErrors errList]> (er_Errors x);
         er_Warnings := match errsToBidderWarnings errList with [] => er_Warnings x | ws => <["prebid" := ws]> (er_Warnings x) end;
         er_ResponseTimeMillis := er_ResponseTimeMillis x; er_RequestTimeoutMillis := er_RequestTimeoutMillis x; er_Prebid := er_Prebid x |}
  end.

(** The warnings added at the end of [HoldAuction]: debug turned off, warnings of the request that
    debug does not hide, and bidders blocked by privacy settings. *)
Definition add_final_warnings (debugOff responseDebugAllow : bool) (warnings errs : list go_error) (x : ExtBidResponse) : ExtBidResponse :=
  let x := if debugOff then add_warning "general" {| bm_Code := AccountLevelDebugDisabledWarningCode; bm_Message := "debug turned off for account" |} x else x in
  let x := foldl (λ x w, match ReadScope w with
                         | ScopeDebug => if responseDebugAllow then add_warning "general" (bidder_message w) x else x
                         | ScopeAny => add_warning "general" (bidder_message w) x
                         end) x warnings in
  foldl (λ x e, match e with
                | PrivacyBlockedWarning _ _ bidder =>
                    add_warning bidder {| bm_Code := BidderBlockedByPrivacySettings; bm_Message := "blocked by privacy settings" |} x
                | _ => x
                end) x errs.

Definition setSeatNonBid (x : ExtBidResponse) (b : SeatNonBidBuilder) : ExtBidResponse :=
  if bool_decide (b = ∅) then x
  else
    let p := default {| rp_AuctionTimestamp := 0; rp_Passthrough := None; rp_Fledge := None; rp_SeatNonBid := [] |} (er_Prebid x) in
    {| er_Debug := er_Debug x; er_Errors := er_Errors x; er_Warnings := er_Warnings x; er_ResponseTimeMillis := er_ResponseTimeMillis x;
       er_RequestTimeoutMillis := er_RequestTimeoutMillis x;
       er_Prebid := Some {| rp_AuctionTimestamp := rp_AuctionTimestamp p; rp_Passthrough := rp_Passthrough p; rp_Fledge := rp_Fledge p;
                            rp_SeatNonBid := nonBids_Slice b |} |}.
End ExtResponse.

(** ** Deals *)
Record DealTier := { dt_Prefix : string; dt_MinDealTier : Z }.
Abbreviation DealTierBidderMap := (gmap string DealTier).

Section Deals.
Context `{MapRange} (coreBidders : list string).

(** What [imp.ext] says of deals per bidder; [None] when it does not parse. *)
Definition ReadDealTiersFromImp (bidders : option (gmap string (option DealTier))) : option DealTierBidderMap :=
  m ← bidders;
  Some (foldl (λ acc '(bidder, tier), match tier with
                                      | Some t => <[default bidder (NormalizeBidderName coreBidders bidder) := t]> acc
                                      | None => acc
                                      end) ∅ (map_range m)).
(** Impressions by id, the last one of an id counts. *)
Definition getDealTiers (imps : list (string * option (gmap string (option DealTier)))) : gmap string DealTierBidderMap :=
  foldl (λ acc '(id, ext), match ReadDealTiersFromImp ext with Some m => <[id := m]> acc | None => acc end) ∅ imps.
Definition validateDealTier (t : DealTier) : bool := (0 <? String.length (dt_Prefix t))%nat && (0 <? dt_MinDealTier t).
(** [None] is the nil dereference of [MaxBids]. *)
Definition bidsToUpdate (multiBid : option (gmap string ExtMultiBid)) (bidder : string) : option Z :=
  match multiBid ≫= (.!! bidder) with
  | Some mb => if mb_TargetBidderCodePrefix mb =s? "" then Some 1 else mb_MaxBids mb
  | None => Some 1
  end.

(** [strings.SplitAfterN(s, "_", 2)] with its first part replaced. *)
Definition replace_prefix (prefixTier catDur : string) : string :=
  match Index catDur "_" with Some i => prefixTier +:+ str_drop (S i) catDur | None => prefixTier end.
Definition updateHbPbCatDur (l : loc) (t : DealTier) (st : bid_store) (bidCategory : gmap string string)
    : option (bid_store * gmap string string) :=
  p ← st !! l;
  if dt_MinDealTier t <=? pb_DealPriority p then
    b ← pb_Bid p;
    let st := <[l := set_DealTierSatisfied true p]> st in
    Some (st, match bidCategory !! bid_ID b with
              | Some old => <[bid_ID b := replace_prefix (dt_Prefix t +:+ pretty (pb_DealPriority p) +:+ "_") old]> bidCategory
              | None => bidCategory
              end)
  else Some (st, bidCategory).

Record dealState := { ds_store : bid_store; ds_category : gmap string string; ds_errs : list go_error }.
Fixpoint deal_bids (impID bidder : string) (maxBid : Z) (tier : DealTier) (i : nat) (bids : list loc) (s : dealState) : option dealState :=
  match bids with
  | [] => Some s
  | l :: rest =>
      if Z.of_nat i =? maxBid then Some s
      else
        p ← ds_store s !! l;
        s' ← (if 0 <? pb_DealPriority p then
                if validateDealTier tier then
                  '(st, cat) ← updateHbPbCatDur l tier (ds_store s) (ds_category s);
                  Some {| ds_store := st; ds_category := cat; ds_errs := ds_errs s |}
                else Some {| ds_store := ds_store s; ds_category := ds_category s;
                             ds_errs := ds_errs s ++ [PlainError ("dealTier configuration invalid for bidder '" +:+ bidder +:+ "', imp ID '" +:+ impID +:+ "'")] |}
              else Some s);
        deal_bids impID bidder maxBid tier (S i) rest s'
  end.
Definition deal_bidder (multiBid : option (gmap string ExtMultiBid)) (impID : string) (impDeal : DealTierBidderMap)
    (s : dealState) (kv : string * list loc) : option dealState :=
  let '(bidder, bids) := kv in
  let normalized := default bidder (NormalizeBidderName coreBidders bidder) in
  maxBid ← bidsToUpdate multiBid normalized;
  deal_bids impID bidder maxBid (default {| dt_Prefix := ""; dt_MinDealTier := 0 |} (impDeal !! normalized)) 0 bids s.
Fixpoint deal_bidders multiBid impID impDeal (kvs : list (string * list loc)) (s : dealState) : option dealState :=
  match kvs with
  | [] => Some s
  | kv :: rest => s' ← deal_bidder multiBid impID impDeal s kv; deal_bidders multiBid impID impDeal rest s'
  end.
Fixpoint deal_imps multiBid (impDealMap : gmap string DealTierBidderMap) (kvs : list (string * gmap string (list loc))) (s : dealState) : option dealState :=
  match kvs with
  | [] => Some s
  | (impID, m) :: rest =>
      s' ← deal_bidders multiBid impID (default ∅ (impDealMap !! impID)) (map_range m) s;
      deal_imps multiBid impDealMap rest s'
  end.
Definition applyDealSupport (imps : list (string * option (gmap string (option DealTier)))) (auc : auction)
    (bidCategory : gmap string string) (multiBid : option (gmap string ExtMultiBid)) (st : bid_store) : option dealState :=
  deal_imps multiBid (getDealTiers imps) (map_range (allBidsByBidder auc)) {| ds_store := st; ds_category := bidCategory; ds_errs := [] |}.
End Deals.

(** ** Small steps of [HoldAuction] *)
(** Request settings first, then the account's, for live bidders that take one format. *)
Definition getBidderPreferredMediaTypeMap (bidderControls : option (gmap string string)) (account : option (gmap string string))
    (liveAdapters : list string) (singleFormatBidders : gset string) : option (gmap string string) :=
  if bool_decide (singleFormatBidders = ∅) then None
  else Some (foldl (λ m bidder,
         if bool_decide (bidder ∈ singleFormatBidders) then
           match bidderControls ≫= (.!! bidder) with
           | Some t => if t =s? "" then match account ≫= (.!! bidder) with Some t' => <[bidder := t']> m | None => m end else <[bidder := t]> m
           | None => match account ≫= (.!! bidder) with Some t' => <[bidder := t']> m | None => m end
           end
         else m) ∅ liveAdapters).
(** [None] for a nil [MultiBid]. *)
Definition buildMultiBidMap (coreBidders : list string) (multiBid : option (list ExtMultiBid)) : option (gmap string ExtMultiBid) :=
  l ← multiBid;
  Some (foldl (λ m mb,
    let add b m := match NormalizeBidderName coreBidders b with Some n => <[n := mb]> m | None => m end in
    if mb_Bidder mb =s? "" then foldl (λ m b, add b m) m (mb_Bidders mb) else add (mb_Bidder mb) m) ∅ l).
Definition isAdsCertEnabled (request : option (option bool)) (bidder : bool) : bool := default false (mjoin request) && bidder.
(** The deadline of the auction leaves time for the cache. *)
Definition makeAuctionContext (deadline : option Z) (cacheTime : Z) (needsCache : bool) : option Z :=
  match deadline with Some d => if needsCache then Some (Z.min d (d - cacheTime)) else Some d | None => None end.
