(* ===== verification/ResponseSpec.v ===== *)
(** * What the auction response contains

    Theorems on [Response]: the bids of a seat are exactly those that pass every check, with the
    fields they had; rejected bids are reported; and where building a response can fail. *)
From S2P Require Import Prelude GoStrings GoFloat Bids Auction ErrorTypes BidderCall Collect ExtWrapper VideoUrls RequestParts Response.

Section Seat.
Context `{BidJson}.
Context (st : bid_store) (validation : Validations) (auc : option auction) (returnCreative : bool)
        (impExtInfoMap : gmap string ImpExtInfo) (reqDSA : option ExtRegsDSA) (cache : string * string * string).
Local Abbreviation make_bid' := (make_bid st validation auc returnCreative impExtInfoMap reqDSA cache).
Local Abbreviation make_bids' := (make_bids st validation auc returnCreative impExtInfoMap reqDSA cache).
Local Abbreviation makeBid' := (makeBid st validation auc returnCreative impExtInfoMap reqDSA cache).

(** What is expected of a creative: its size for banners, its markup for impressions that are known. *)
Definition size_ok (p : PbsOrtbBid) (b : Bid) : bool :=
  negb ((va_BannerCreativeMaxSize validation =s? ValidationEnforce) && (pb_BidType p =s? BidTypeBanner)) ||
  ((bid_W b <=? va_MaxCreativeWidth validation) && (bid_H b <=? va_MaxCreativeHeight validation)).
Definition markup_ok (p : PbsOrtbBid) (b : Bid) : bool :=
  negb (bool_decide (is_Some (impExtInfoMap !! bid_ImpID b)) && (va_SecureMarkup validation =s? ValidationEnforce) &&
        ((pb_BidType p =s? BidTypeBanner) || (pb_BidType p =s? BidTypeVideo))) ||
  negb (insecure_markup (bid_AdM b)).

Lemma check_creative_spec adapter p b ext :
  (check_creative validation impExtInfoMap adapter p b ext).1 =
  (if size_ok p b then if markup_ok p b then None else Some ResponseRejectedCreativeNotSecure else Some ResponseRejectedCreativeSizeNotAllowed).
Proof.
  unfold check_creative, size_ok, markup_ok, validateBannerCreativeSize, validateBidAdM.
  rewrite !Z.leb_antisym. destruct (va_BannerCreativeMaxSize validation =s? ValidationEnforce), (pb_BidType p =s? BidTypeBanner),
    (va_BannerCreativeMaxSize validation =s? ValidationWarn); simpl;
  destruct (va_MaxCreativeWidth validation <? bid_W b), (va_MaxCreativeHeight validation <? bid_H b); simpl; try done;
  destruct (impExtInfoMap !! bid_ImpID b); simpl; try done;
  destruct (va_SecureMarkup validation =s? ValidationEnforce), (va_SecureMarkup validation =s? ValidationWarn), (pb_BidType p =s? BidTypeVideo),
    (insecure_markup (bid_AdM b)); done.
Qed.

(** The outcome for one bid. *)
Inductive verdict := Kept (b : Bid) | Failed (e : go_error) | Refused (r : NonBidReason).
Definition judge (l : loc) : option verdict :=
  p ← st !! l;
  match dsa_Validate reqDSA p with
  | Some _ => Some (Refused ResponseRejectedGeneral)
  | None =>
      b ← pb_Bid p;
      if negb (size_ok p b) then Some (Refused ResponseRejectedCreativeSizeNotAllowed)
      else if negb (markup_ok p b) then Some (Refused ResponseRejectedCreativeNotSecure)
      else made ← makeBidExtJSON (bid_Ext b) (bid_ext_prebid auc cache l p) (impExtInfoMap !! bid_ImpID b) (pb_OriginalBidCPM p) (pb_OriginalBidCur p) (pb_AdapterCode p);
           Some (match made with Ok json => Kept (response_bid returnCreative b json) | Err e => Failed e end)
  end.
Definition kept (l : loc) : option Bid := match judge l with Some (Kept b) => Some b | _ => None end.
Definition failed (l : loc) : option go_error := match judge l with Some (Failed e) => Some e | _ => None end.
Definition refused (l : loc) : option NonBid :=
  match judge l with
  | Some (Refused r) => p ← st !! l; b ← pb_Bid p;
      Some {| nb_ImpId := bid_ImpID b; nb_StatusCode := reason_code r; nb_Bid := Some (b, pb_OriginalBidCPM p, pb_OriginalBidCur p) |}
  | _ => None
  end.
Definition seat_nonBids (nb : SeatNonBidBuilder) (seat : string) : list NonBid := default [] (nb !! seat).

Lemma rejectBid_seat nb p r adapter :
  seat_nonBids (rejectBid nb p r adapter) adapter = seat_nonBids nb adapter ++
    match pb_Bid p with Some b => [{| nb_ImpId := bid_ImpID b; nb_StatusCode := reason_code r; nb_Bid := Some (b, pb_OriginalBidCPM p, pb_OriginalBidCur p) |}] | None => [] end.
Proof. unfold rejectBid, seat_nonBids. destruct (pb_Bid p); [by rewrite lookup_insert_eq|by rewrite app_nil_r]. Qed.

Lemma make_bid_spec adapter acc l o :
  make_bid' adapter acc l = Some o →
  is_Some (judge l) ∧
  bo_result o = bo_result acc ++ option_list (kept l) ∧ bo_errs o = bo_errs acc ++ option_list (failed l) ∧
  seat_nonBids (bo_nonBids o) adapter = seat_nonBids (bo_nonBids acc) adapter ++ option_list (refused l).
Proof.
  unfold make_bid, kept, failed, refused, judge. destruct (st !! l) as [p|] eqn:Ep; [|done]. cbn [mbind option_bind].
  destruct (dsa_Validate reqDSA p) as [e|].
  - intros [= <-]. simpl. rewrite rejectBid_seat, !app_nil_r. split_and!; [by eexists|done|done|]. by destruct (pb_Bid p).
  - destruct (pb_Bid p) as [b|] eqn:Eb; [|done]. cbn [mbind option_bind]. pose proof (check_creative_spec adapter p b (bo_ext acc)) as Hc.
    destruct (check_creative validation impExtInfoMap adapter p b (bo_ext acc)) as [rejected ext]. simpl in Hc. subst rejected.
    destruct (size_ok p b); cbn [negb]; [destruct (markup_ok p b); cbn [negb]|].
    + destruct (makeBidExtJSON _ _ _ _ _ _) as [[json|e]|]; intros [= <-]; simpl; rewrite ?app_nil_r; (split; [by eexists|done]).
    + intros [= <-]. simpl. rewrite rejectBid_seat, Eb, ?app_nil_r. split; [by eexists|done].
    + intros [= <-]. simpl. rewrite rejectBid_seat, Eb, ?app_nil_r. split; [by eexists|done].
Qed.

Lemma make_bids_spec adapter bids acc o :
  make_bids' adapter acc bids = Some o →
  Forall (λ l, is_Some (judge l)) bids ∧ bo_result o = bo_result acc ++ omap kept bids ∧ bo_errs o = bo_errs acc ++ omap failed bids ∧
  seat_nonBids (bo_nonBids o) adapter = seat_nonBids (bo_nonBids acc) adapter ++ omap refused bids.
Proof.
  revert acc. induction bids as [|l bids IH]; intros acc; simpl.
  - intros [= <-]. by rewrite !app_nil_r.
  - destruct (make_bid' adapter acc l) as [acc'|] eqn:E; [|done]. cbn [mbind option_bind]. intros Hr.
    apply make_bid_spec in E as (Hj & E1 & E2 & E3). apply IH in Hr as (Hjs & R1 & R2 & R3).
    split; [by constructor|]. rewrite R1, R2, R3, E1, E2, E3, <- !app_assoc.
    unfold option_list. by destruct (kept l), (failed l), (refused l).
Qed.
End Seat.

Definition same_bid_but_markup (b b' : Bid) : Prop :=
  bid_ID b' = bid_ID b ∧ bid_ImpID b' = bid_ImpID b ∧ bid_Price b' = bid_Price b ∧ bid_DealID b' = bid_DealID b ∧
  bid_W b' = bid_W b ∧ bid_H b' = bid_H b ∧ bid_CrID b' = bid_CrID b ∧ bid_ADomain b' = bid_ADomain b ∧ bid_Cat b' = bid_Cat b.

Section Theorem_.
Context `{BidJson}.
(** C16: The bids of a response seat are those of the auction's seat, in order, that pass the checks: each
    has the fields of its bid, valid DSA transparency, an allowed size where sizes are enforced and
    no insecure markup where that is enforced; every other bid is a non-bid of the seat with its
    reason or an error of its extension. *)
Theorem response_bids_checked st v auc rc infos dsa cache adapter bids ext nb o :
  makeBid st v auc rc infos dsa cache bids ext adapter nb = Some o →
  bo_result o = omap (kept st v auc rc infos dsa cache) bids ∧
  seat_nonBids (bo_nonBids o) adapter = seat_nonBids nb adapter ++ omap (refused st v auc rc infos dsa cache) bids ∧
  bo_errs o = omap (failed st v auc rc infos dsa cache) bids ∧
  (∀ b', b' ∈ bo_result o → ∃ l p b, l ∈ bids ∧ st !! l = Some p ∧ pb_Bid p = Some b ∧ same_bid_but_markup b b' ∧
     bid_AdM b' = (if rc then bid_AdM b else "") ∧ dsa_Validate dsa p = None ∧
     (va_BannerCreativeMaxSize v = ValidationEnforce → pb_BidType p = BidTypeBanner →
        bid_W b ≤ va_MaxCreativeWidth v ∧ bid_H b ≤ va_MaxCreativeHeight v) ∧
     (va_SecureMarkup v = ValidationEnforce → is_Some (infos !! bid_ImpID b) → pb_BidType p = BidTypeBanner ∨ pb_BidType p = BidTypeVideo →
        insecure_markup (bid_AdM b) = false)).
Proof.
  intros Ho. apply make_bids_spec in Ho as (_ & E1 & E2 & E3). simpl in E1, E2, E3. split_and!; [done..|].
  intros b' Hin. rewrite E1 in Hin. apply list_elem_of_omap in Hin as (l & Hl & Hk). unfold kept, judge in Hk.
  destruct (st !! l) as [p|] eqn:Ep; [|done]. cbn [mbind option_bind] in Hk. destruct (dsa_Validate dsa p) eqn:Ed; [done|].
  destruct (pb_Bid p) as [b|] eqn:Eb; [|done]. cbn [mbind option_bind] in Hk.
  destruct (size_ok v p b) eqn:Es; [|done]. destruct (markup_ok v infos p b) eqn:Em; [|done]. cbn [negb] in Hk.
  destruct (makeBidExtJSON _ _ _ _ _ _) as [[json|?]|]; try done. injection Hk as <-.
  exists l, p, b. split_and!; [done..| |].
  - intros Hv Ht. unfold size_ok in Es. rewrite Hv, Ht, !String.eqb_refl in Es. simpl in Es. go_bool. lia.
  - intros Hv Hi Ht. unfold markup_ok in Em. rewrite Hv, String.eqb_refl, (bool_decide_eq_true_2 _ Hi) in Em.
    destruct (insecure_markup (bid_AdM b)); [|done]. simpl in Em. by destruct Ht as [Ht|Ht]; rewrite Ht in Em.
Qed.
End Theorem_.

(** ** Examples *)
(** A JSON library for the examples: an extension is a list of names, null is the nil map, and no
    number, object or typed member is read back. *)
Definition demoJson : BidJson := {|
  jv := string; j_decode := λ s, if s =s? "null" then Ok None else if s =s? "{" then Err (FailedToUnmarshal "unexpected end") else Ok (Some ∅);
  j_encode := λ m, Ok (String.concat "," (map fst (map_to_list m))); j_object := λ _, None; j_number := λ _, ""; j_string := λ s, s;
  j_raw := λ s, s; j_prebid := λ _, ""; j_meta := λ _, Ok {| meta_AdapterCode := ""; meta_rest := "" |}; j_video := λ _, Ok ""; j_dsa := λ _, None |}.
Definition demo_bid (id adm ext : string) (w : Z) : PbsOrtbBid :=
  plain_bid (Some {| bid_ID := id; bid_ImpID := "imp"; bid_Price := f1; bid_AdM := adm; bid_NURL := ""; bid_DealID := "";
    bid_W := w; bid_H := 50; bid_Exp := 0; bid_MType := 1; bid_ExtType := None; bid_CrID := "c"; bid_ADomain := []; bid_Cat := [];
    bid_CatTax := 0; bid_Dur := 0; bid_Ext := ext |}) BidTypeBanner.
Definition demo_validation : Validations := {| va_BannerCreativeMaxSize := "enforce"; va_SecureMarkup := "enforce"; va_MaxCreativeWidth := 300; va_MaxCreativeHeight := 250 |}.
Definition demo_infos : gmap string ImpExtInfo := {[ "imp" := {| ii_EchoVideoAttrs := false; ii_StoredImp := ""; ii_Passthrough := None |} ]}.
Definition demo_ext : ExtBidResponse :=
  {| er_Debug := None; er_Errors := ∅; er_Warnings := ∅; er_ResponseTimeMillis := ∅; er_RequestTimeoutMillis := 0; er_Prebid := None |}.
Definition demo_bids : bid_store :=
  {[ 1%nat := demo_bid "good" "<img src=https://x>" "" 300; 2%nat := demo_bid "wide" "<b>" "" 728; 3%nat := demo_bid "plain" "http://x" "" 300;
     4%nat := demo_bid "null" "<b>" "null" 300; 5%nat := demo_bid "broken" "<b>" "{" 300 ]}.

Lemma response_bids_checked_witness :
  ∃ o, makeBid (H := demoJson) demo_bids demo_validation None true demo_infos None ("", "", "") [1%nat; 2%nat; 3%nat] demo_ext "a" ∅ = Some o ∧
    bid_ID <$> bo_result o = ["good"] ∧ nb_StatusCode <$> seat_nonBids (bo_nonBids o) "a" = [351; 352] ∧
    bo_result o = omap (kept (H := demoJson) demo_bids demo_validation None true demo_infos None ("", "", "")) [1%nat; 2%nat; 3%nat].
Proof.
  eexists. split; [vm_compute; reflexivity|]. split; [reflexivity|]. split; [vm_compute; reflexivity|].
  apply (proj1 (response_bids_checked (H := demoJson) demo_bids demo_validation None true demo_infos None ("", "", "") "a" [1%nat; 2%nat; 3%nat] demo_ext ∅ _ ltac:(vm_compute; reflexivity))).
Defined.

(** A bid whose extension is the JSON null panics the auction. *)
Theorem null_extension_panics `{BidJson} ext prebid info cpm cur adapter :
  ext ≠ "" → j_decode ext = Ok None → fleb f0 cpm = true → makeBidExtJSON ext prebid info cpm cur adapter = None.
Proof. intros He Hd Hc. unfold makeBidExtJSON. destruct (String.eqb_spec ext ""); [done|]. by rewrite Hd, Hc. Qed.
Lemma null_extension_panics_witness :
  makeBid (H := demoJson) demo_bids demo_validation None true demo_infos None ("", "", "") [4%nat] demo_ext "a" ∅ = None ∧
  makeBidExtJSON (H := demoJson) "null" (bid_ext_prebid None ("", "", "") 4%nat (demo_bid "null" "<b>" "null" 300)) None f0 "" "a" = None.
Proof. split; [vm_compute; reflexivity|]. by apply null_extension_panics. Defined.

(** A bid whose extension does not parse, in a seat that is not the name of a bidder that was called:
    the error has no place to go to and the auction panics.  Stored auction responses have no such
    place at all. *)
Theorem ext_error_in_other_seat_panics :
  makeSeatBid (H := demoJson) demo_bids demo_validation None true demo_infos None ("", "", "") (plain_seat [5%nat] "USD" "groupm") "groupm"
    {| bu_ext := demo_ext; bu_extra := {[ "rubicon" := empty_extra ]}; bu_nonBids := ∅ |} = None.
Proof. vm_compute. reflexivity. Qed.

(** The error of a bid's extension goes to [adapterExtra], which the response no longer reads: the
    bid disappears without a trace in the response. *)
Theorem ext_error_not_reported :
  ∃ sb s, makeSeatBid (H := demoJson) demo_bids demo_validation None true demo_infos None ("", "", "") (plain_seat [5%nat] "USD" "a") "a"
    {| bu_ext := demo_ext; bu_extra := {[ "a" := empty_extra ]}; bu_nonBids := ∅ |} = Some (sb, s) ∧
    sb_Bid sb = [] ∧ bu_ext s = demo_ext ∧ bu_nonBids s = ∅ ∧ (se_Errors <$> bu_extra s !! "a") = Some [{| bm_Code := 14; bm_Message := "unexpected end" |}].
Proof. eexists _, _. split; [vm_compute; reflexivity|]. split_and!; vm_compute; reflexivity. Qed.
