(* ===== verification/Macros.v ===== *)
(** * Macros of event URLs: src/macros

    The values a request and its bids give to macros, and the replacer that finds [##NAME##] in a URL
    by index.  Strings are ASCII, so that runes are bytes. *)
From S2P Require Import Prelude GoStrings Bids VideoUrls.

(** ** Values: provider.go *)
Definition MacroKeyBidID := "PBS-BIDID".
Definition MacroKeyAppBundle := "PBS-APPBUNDLE".
Definition MacroKeyDomain := "PBS-DOMAIN".
Definition MacroKeyPubDomain := "PBS-PUBDOMAIN".
Definition MacroKeyPageURL := "PBS-PAGEURL".
Definition MacroKeyAccountID := "PBS-ACCOUNTID".
Definition MacroKeyLmtTracking := "PBS-LIMITADTRACKING".
Definition MacroKeyConsent := "PBS-GDPRCONSENT".
Definition MacroKeyBidder := "PBS-BIDDER".
Definition MacroKeyIntegration := "PBS-INTEGRATION".
Definition MacroKeyVastCRTID := "PBS-VASTCRTID".
Definition MacroKeyTimestamp := "PBS-TIMESTAMP".
Definition MacroKeyAuctionID := "PBS-AUCTIONID".
Definition MacroKeyChannel := "PBS-CHANNEL".
Definition MacroKeyEventType := "PBS-EVENTTYPE".
Definition MacroKeyVastEvent := "PBS-VASTEVENT".
Definition CustomMacroPrefix := "PBS-MACRO-".
Definition customMacroLength : nat := 100.

Definition truncate (text : string) (width : nat) : string :=
  if (String.length text <? width)%nat then text else str_take width text.

(** What the provider reads of a request. *)
Record macroPublisher := { mp_Domain : string; mp_ID : string }.
Record macroRequest := {
  mr_ID : string;
  mr_Macros : gmap string string;
  mr_Integration : string;
  mr_Channel : option string;
  mr_App : option (string * string * option macroPublisher);   (** bundle, domain, publisher *)
  mr_Site : option (string * string * option macroPublisher);  (** page, domain, publisher *)
  mr_Consent : string;
  mr_Lmt : option Z
}.
Abbreviation MacroProvider := (gmap string string).

Definition set_nonempty (k v : string) (m : MacroProvider) : MacroProvider := if v =s? "" then m else <[k := v]> m.
Definition set_publisher (p : option macroPublisher) (m : MacroProvider) : MacroProvider :=
  match p with Some p => set_nonempty MacroKeyAccountID (mp_ID p) (set_nonempty MacroKeyPubDomain (mp_Domain p) m) | None => m end.

(** [now] is [time.Now().Unix()]; prefixed keys are distinct, so the order of the custom macros does
    not matter. *)
Definition populateRequestMacros (now : Z) (r : macroRequest) (m : MacroProvider) : MacroProvider :=
  let m := <[MacroKeyTimestamp := pretty now]> m in
  let m := foldl (λ acc kv, <[CustomMacroPrefix +:+ kv.1 := truncate kv.2 customMacroLength]> acc) m (map_to_list (mr_Macros r)) in
  let m := set_nonempty MacroKeyIntegration (mr_Integration r) m in
  let m := match mr_Channel r with Some c => <[MacroKeyChannel := c]> m | None => m end in
  let m := <[MacroKeyAuctionID := mr_ID r]> m in
  let m := match mr_App r with
           | Some (bundle, domain, pub) => set_publisher pub (set_nonempty MacroKeyDomain domain (set_nonempty MacroKeyAppBundle bundle m))
           | None => m
           end in
  let m := match mr_Site r with
           | Some (page, domain, pub) => set_publisher pub (set_nonempty MacroKeyDomain domain (set_nonempty MacroKeyPageURL page m))
           | None => m
           end in
  let m := set_nonempty MacroKeyConsent (mr_Consent r) m in
  match mr_Lmt r with Some l => <[MacroKeyLmtTracking := pretty l]> m | None => m end.
Definition NewProvider (now : Z) (r : macroRequest) : MacroProvider := populateRequestMacros now r ∅.

Definition GetMacro (m : MacroProvider) (key : string) : string := QueryEscape (default "" (m !! key)).
Definition PopulateBidMacros (bid : PbsOrtbBid) (seat : string) (m : MacroProvider) : MacroProvider :=
  let m := match pb_Bid bid with
           | Some b => <[MacroKeyBidID := if pb_GeneratedBidID bid =s? "" then bid_ID b else pb_GeneratedBidID bid]> m
           | None => m
           end in
  <[MacroKeyBidder := seat]> m.
Definition PopulateEventMacros (vastCreativeID eventType vastEvent : string) (m : MacroProvider) : MacroProvider :=
  <[MacroKeyVastEvent := vastEvent]> (<[MacroKeyEventType := eventType]> (<[MacroKeyVastCRTID := vastCreativeID]> m)).

(** ** The replacer: string_index_based_replacer.go *)
Definition delimiter := "##".
(** The bounds of one macro: the first index after its delimiter and the last before the next. *)
Abbreviation urlMetaTemplate := (list (Z * Z)).

(** One turn of the loop at [currentIndex]: [None] is a slice out of range; otherwise the index to go
    on from, or the end. *)
Inductive turn := Stop | Found (startIndex endingIndex : Z) (next : option Z).
Definition index_from (url : string) (i : Z) : option (option Z) :=
  rest ← (if i <? 0 then None else slice_from url (Z.to_nat i));
  Some (Z.of_nat <$> Index rest delimiter).
Definition construct_turn (url : string) (currentIndex : Z) : option turn :=
  found ← index_from url currentIndex;
  let currentIndex := currentIndex + default (-1) found in
  if currentIndex =? -1 then Some Stop
  else
    let startIndex := currentIndex + 2 in
    ending ← index_from url startIndex;
    Some (match ending with
          | None => Stop
          | Some e =>
              let endingIndex := e + startIndex - 1 in
              let currentIndex := endingIndex + 2 + 1 in
              Found startIndex endingIndex (if Z.of_nat (String.length url) - 1 <=? currentIndex then None else Some currentIndex)
          end).
(** The outer option is the number of turns running out, the inner one a panic. *)
Fixpoint construct_loop (turns : nat) (url : string) (currentIndex : Z) (acc : urlMetaTemplate) : option (option urlMetaTemplate) :=
  match turns with
  | O => None
  | S turns =>
      match construct_turn url currentIndex with
      | None => Some None
      | Some Stop => Some (Some acc)
      | Some (Found s e None) => Some (Some (acc ++ [(s, e)]))
      | Some (Found s e (Some next)) => construct_loop turns url next (acc ++ [(s, e)])
      end
  end.
Definition constructTemplate (url : string) : option urlMetaTemplate := mjoin (construct_loop (S (String.length url)) url 0 []).

(** [url[i:j]]; [None] is out of range. *)
Definition slice (s : string) (i j : Z) : option string :=
  if (0 <=? i) && (i <=? j) && (j <=? Z.of_nat (String.length s)) then Some (str_take (Z.to_nat (j - i)) (str_drop (Z.to_nat i) s)) else None.
Fixpoint replace_loop (url : string) (m : MacroProvider) (currentIndex : Z) (template : urlMetaTemplate) (result : string) : option string :=
  match template with
  | [] => rest ← slice url currentIndex (Z.of_nat (String.length url)); Some (result +:+ rest)
  | (index, ending) :: template =>
      macro ← slice url index (ending + 1);
      before ← slice url currentIndex (index - 2);
      replace_loop url m (index + Z.of_nat (String.length macro) + 2) template (result +:+ before +:+ GetMacro m macro)
  end.
(** The cache of templates is keyed by the URL, from which a template is computed; [templates] holds
    what earlier calls put in. *)
Definition getTemplate (templates : gmap string urlMetaTemplate) (url : string) : option (urlMetaTemplate * gmap string urlMetaTemplate) :=
  match templates !! url with
  | Some t => Some (t, templates)
  | None => t ← constructTemplate url; Some (t, <[url := t]> templates)
  end.
Definition Replace (templates : gmap string urlMetaTemplate) (result url : string) (m : MacroProvider) : option (string * gmap string urlMetaTemplate) :=
  '(t, templates) ← getTemplate templates url;
  r ← replace_loop url m 0 t result;
  Some (r, templates).

(** ** Reference: substitution between delimiters *)
(** The parts of a string between delimiters, which are found from the left. *)
Fixpoint parts (s : string) : list string :=
  match s with
  | EmptyString => [""]
  | String "#" (String "#" r) => "" :: parts r
  | String a r => match parts r with p :: ps => String a p :: ps | [] => [String a ""] end
  end.
(** Every other part is the name of a macro; a delimiter without a second one stays. *)
Fixpoint substitute (m : MacroProvider) (ps : list string) : string :=
  match ps with
  | [] => ""
  | [t] => t
  | [t; u] => t +:+ "##" +:+ u
  | t :: name :: rest => t +:+ GetMacro m name +:+ substitute m rest
  end.

Lemma parts_cons s : ∃ p ps, parts s = p :: ps.
Proof. destruct s as [|a s]; [by eexists _, _|]. simpl. repeat case_match; by eexists _, _. Qed.

Lemma parts_step a r : HasPrefix (String a r) "##" = false → parts (String a r) = match parts r with p :: ps => String a p :: ps | [] => [String a ""] end.
Proof.
  intros Hp. destruct (ascii_dec a "#") as [->|Ha].
  - destruct r as [|b r]; [done|]. destruct (ascii_dec b "#") as [->|Hb].
    + exfalso. simpl in Hp. by destruct r.
    + simpl. by destruct b as [[] [] [] [] [] [] [] []].
  - by destruct a as [[] [] [] [] [] [] [] []].
Qed.
Lemma parts_delim r : parts (String "#" (String "#" r)) = "" :: parts r.
Proof. done. Qed.

Lemma parts_Index s :
  match Index s "##" with
  | Some k => parts s = str_take k s :: parts (str_drop (k + 2) s) ∧ (k + 2 ≤ String.length s)%nat
  | None => parts s = [s]
  end.
Proof.
  induction s as [|a s IH]; [done|]. change (Index (String a s) "##") with (if HasPrefix (String a s) "##" then Some 0%nat else S <$> Index s "##").
  destruct (HasPrefix (String a s) "##") eqn:Hp.
  - apply HasPrefix_spec in Hp as [t Ht]. change ("##" +:+ t) with (String "#" (String "#" t)) in Ht. injection Ht as -> ->. split; [done|simpl; lia].
  - rewrite (parts_step a s Hp). destruct (Index s "##") as [k|]; simpl.
    + destruct IH as [-> Hk]. split; [done|lia].
    + by rewrite IH.
Qed.

(** The template of the parts of a string that starts at index [i]. *)
Fixpoint template_of (i : Z) (ps : list string) : urlMetaTemplate :=
  match ps with
  | t :: name :: rest =>
      match rest with
      | [] => []
      | _ => let start := i + Z.of_nat (String.length t) + 2 in
             (start, start + Z.of_nat (String.length name) - 1) :: template_of (start + Z.of_nat (String.length name) + 2) rest
      end
  | _ => []
  end.

Lemma template_of_step i t name rest : rest ≠ [] →
  template_of i (t :: name :: rest) =
  (i + Z.of_nat (String.length t) + 2, i + Z.of_nat (String.length t) + 2 + Z.of_nat (String.length name) - 1) ::
  template_of (i + Z.of_nat (String.length t) + 2 + Z.of_nat (String.length name) + 2) rest.
Proof. by destruct rest. Qed.
Lemma substitute_step m t name rest : rest ≠ [] → substitute m (t :: name :: rest) = t +:+ GetMacro m name +:+ substitute m rest.
Proof. by destruct rest. Qed.
Lemma parts_nonempty s : parts s ≠ [].
Proof. by destruct (parts_cons s) as (p & ps & ->). Qed.

Lemma template_of_short i s : (String.length s ≤ 1)%nat → template_of i (parts s) = [].
Proof.
  intros Hl. pose proof (parts_Index s) as Hp. destruct (Index s "##") as [k|]; [destruct Hp; lia|]. by rewrite Hp.
Qed.

Lemma index_from_drop url (i : nat) : (i ≤ String.length url)%nat →
  index_from url (Z.of_nat i) = Some (Z.of_nat <$> Index (str_drop i url) delimiter).
Proof.
  intros Hi. unfold index_from. rewrite (proj2 (Z.ltb_ge (Z.of_nat i) 0)) by lia. rewrite Nat2Z.id.
  unfold slice_from. by rewrite (proj2 (Nat.leb_le i _) Hi).
Qed.
Lemma str_drop_drop n m s : str_drop n (str_drop m s) = str_drop (m + n) s.
Proof. revert m. induction s as [|a s IH]; intros [|m]; simpl; [by destruct n..|done|apply IH]. Qed.

Lemma Index_None_drop s n : Index s "##" = None → Index (str_drop n s) "##" = None.
Proof.
  revert n. induction s as [|a s IH]; intros [|n] Hs; [done..|]. simpl. apply IH.
  change (Index (String a s) "##") with (if HasPrefix (String a s) "##" then Some 0%nat else S <$> Index s "##") in Hs.
  destruct (HasPrefix (String a s) "##"); [done|]. by destruct (Index s "##").
Qed.

Lemma construct_loop_spec turns url (i : nat) acc :
  (i = 0 ∨ i + 1 < String.length url)%nat → (String.length url - i < turns)%nat →
  construct_loop turns url (Z.of_nat i) acc = Some (Some (acc ++ template_of (Z.of_nat i) (parts (str_drop i url)))).
Proof.
  revert i acc. induction turns as [|turns IH]; intros i acc Hi Ht; [lia|]. cbn [construct_loop]. unfold construct_turn.
  rewrite index_from_drop by lia. cbn [mbind option_bind]. unfold delimiter. pose proof (parts_Index (str_drop i url)) as Hp.
  destruct (Index (str_drop i url) "##") as [k|] eqn:Ek; cbn [fmap option_fmap option_map default from_option id].
  - destruct Hp as [Hp Hk]. rewrite str_drop_length in Hk. rewrite (proj2 (Z.eqb_neq (Z.of_nat i + Z.of_nat k) (-1))) by lia.
    replace (Z.of_nat i + Z.of_nat k + 2) with (Z.of_nat (i + k + 2)) by lia. rewrite index_from_drop by lia. cbn [mbind option_bind].
    rewrite Hp, str_drop_drop. replace (i + (k + 2))%nat with (i + k + 2)%nat by lia. unfold delimiter.
    pose proof (parts_Index (str_drop (i + k + 2) url)) as Hq.
    destruct (Index (str_drop (i + k + 2) url) "##") as [e|] eqn:Ee; cbn [fmap option_fmap option_map default from_option id].
    + destruct Hq as [Hq He]. rewrite str_drop_length in He. rewrite Hq, str_drop_drop.
      replace (Z.of_nat e + Z.of_nat (i + k + 2) - 1 + 2 + 1) with (Z.of_nat (i + k + 2 + (e + 2))) by lia.
      assert (template_of (Z.of_nat i) (str_take k (str_drop i url) :: str_take e (str_drop (i + k + 2) url) :: parts (str_drop (i + k + 2 + (e + 2)) url)) =
        (Z.of_nat (i + k + 2), Z.of_nat e + Z.of_nat (i + k + 2) - 1) :: template_of (Z.of_nat (i + k + 2 + (e + 2))) (parts (str_drop (i + k + 2 + (e + 2)) url))) as ->.
      { rewrite template_of_step by apply parts_nonempty. rewrite !str_take_length by (rewrite str_drop_length; lia).
        replace (Z.of_nat (i + k + 2)) with (Z.of_nat i + Z.of_nat k + 2) by lia.
        replace (Z.of_nat i + Z.of_nat k + 2 + Z.of_nat e + 2) with (Z.of_nat (i + k + 2 + (e + 2))) by lia.
        replace (Z.of_nat i + Z.of_nat k + 2 + Z.of_nat e - 1) with (Z.of_nat e + (Z.of_nat i + Z.of_nat k + 2) - 1) by lia. done. }
      destruct (Z.leb_spec (Z.of_nat (String.length url) - 1) (Z.of_nat (i + k + 2 + (e + 2)))) as [Hle|Hgt].
      * rewrite template_of_short; [done|]. rewrite str_drop_length. lia.
      * rewrite IH by lia. by rewrite <- app_assoc.
    + rewrite Hq. simpl. by rewrite app_nil_r.
  - rewrite Hp. simpl. rewrite app_nil_r. destruct (decide (i = 0%nat)) as [->|Hi0]; [done|]. rewrite (proj2 (Z.eqb_neq (Z.of_nat i + -1) (-1))) by lia.
    replace (Z.of_nat i + -1 + 2) with (Z.of_nat (S i)) by lia. rewrite index_from_drop by lia. cbn [mbind option_bind].
    replace (S i) with (i + 1)%nat by lia. rewrite <- str_drop_drop. unfold delimiter. by rewrite (Index_None_drop _ 1 Ek).
Qed.

Lemma constructTemplate_spec url : constructTemplate url = Some (template_of 0 (parts url)).
Proof.
  unfold constructTemplate. rewrite (construct_loop_spec _ url 0 []); [|by left|lia]. simpl. by destruct url.
Qed.

Lemma slice_drop url (i j : nat) : (i ≤ j ≤ String.length url)%nat → slice url (Z.of_nat i) (Z.of_nat j) = Some (str_take (j - i) (str_drop i url)).
Proof.
  intros Hij. unfold slice. rewrite (proj2 (Z.leb_le 0 (Z.of_nat i))), (proj2 (Z.leb_le (Z.of_nat i) (Z.of_nat j))),
    (proj2 (Z.leb_le (Z.of_nat j) (Z.of_nat (String.length url)))) by lia. cbn [andb]. rewrite Nat2Z.id. by replace (Z.to_nat (Z.of_nat j - Z.of_nat i)) with (j - i)%nat by lia.
Qed.
Lemma str_take_all s : str_take (String.length s) s = s.
Proof. induction s as [|a s IH]; simpl; [done|by rewrite IH]. Qed.

Lemma Index_split s k : Index s "##" = Some k → str_take k s +:+ "##" +:+ str_drop (k + 2) s = s.
Proof.
  intros Hk. destruct (Index_Some _ _ _ Hk) as (t & Ht & Hle). rewrite Ht at 3. do 2 f_equal.
  rewrite Ht, <- str_app_assoc. rewrite <- (str_drop_app (str_take k s +:+ "##") t) at 2. f_equal.
  rewrite str_length_app, str_take_length by done. done.
Qed.

Lemma replace_loop_spec n url m (i : nat) result :
  (i ≤ String.length url)%nat → (String.length url - i ≤ n)%nat →
  replace_loop url m (Z.of_nat i) (template_of (Z.of_nat i) (parts (str_drop i url))) result =
  Some (result +:+ substitute m (parts (str_drop i url))).
Proof.
  revert i result. induction n as [n IH] using lt_wf_ind. intros i result Hi Hn.
  assert (slice url (Z.of_nat i) (Z.of_nat (String.length url)) = Some (str_drop i url)) as Hrest.
  { rewrite slice_drop by lia. rewrite <- str_drop_length. by rewrite str_take_all. }
  pose proof (parts_Index (str_drop i url)) as Hp. destruct (Index (str_drop i url) "##") as [k|] eqn:Ek.
  2:{ rewrite Hp. cbn [template_of replace_loop]. by rewrite Hrest. }
  destruct Hp as [Hp Hk]. rewrite str_drop_length in Hk. rewrite Hp, str_drop_drop. replace (i + (k + 2))%nat with (i + k + 2)%nat by lia.
  pose proof (parts_Index (str_drop (i + k + 2) url)) as Hq. destruct (Index (str_drop (i + k + 2) url) "##") as [e|] eqn:Ee.
  - destruct Hq as [Hq He]. rewrite str_drop_length in He. rewrite Hq, str_drop_drop.
    assert (String.length (str_take k (str_drop i url)) = k) as Hlk by (apply str_take_length; rewrite str_drop_length; lia).
    assert (String.length (str_take e (str_drop (i + k + 2) url)) = e) as Hle by (apply str_take_length; rewrite str_drop_length; lia).
    rewrite template_of_step, substitute_step by apply parts_nonempty. cbn [replace_loop]. rewrite Hlk, Hle.
    replace (Z.of_nat i + Z.of_nat k + 2 + Z.of_nat e - 1 + 1) with (Z.of_nat (i + k + 2 + e)) by lia.
    replace (Z.of_nat i + Z.of_nat k + 2 - 2) with (Z.of_nat (i + k)) by lia.
    replace (Z.of_nat i + Z.of_nat k + 2) with (Z.of_nat (i + k + 2)) by lia.
    rewrite !slice_drop by lia. cbn [mbind option_bind]. replace (i + k + 2 + e - (i + k + 2))%nat with e by lia. replace (i + k - i)%nat with k by lia. rewrite Hle.
    replace (Z.of_nat (i + k + 2) + Z.of_nat e + 2) with (Z.of_nat (i + k + 2 + (e + 2))) by lia.
    rewrite (IH (n - 1)%nat) by lia. by rewrite !str_app_assoc.
  - rewrite Hq. cbn [template_of replace_loop substitute]. rewrite Hrest. cbn [mbind option_bind]. f_equal. f_equal.
    rewrite <- (Index_split _ _ Ek) at 1. rewrite str_drop_drop. by replace (i + (k + 2))%nat with (i + k + 2)%nat by lia.
Qed.

(** Every cached template is the one the URL has. *)
Definition cache_sound (templates : gmap string urlMetaTemplate) : Prop :=
  ∀ url t, templates !! url = Some t → constructTemplate url = Some t.
(** Replacing macros by index gives the URL with every name between two delimiters replaced by its
    escaped value, for every URL: no slice is out of range and no loop goes on.  The cache of templates
    does not change the result. *)
Theorem replace_is_substitution templates result url m :
  cache_sound templates →
  ∃ templates', Replace templates result url m = Some (result +:+ substitute m (parts url), templates') ∧ cache_sound templates'.
Proof.
  intros Hc.
  assert (∃ templates', getTemplate templates url = Some (template_of 0 (parts url), templates') ∧ cache_sound templates') as (templates' & Ht & Hc').
  { unfold getTemplate. destruct (templates !! url) as [t|] eqn:Et.
    - exists templates. pose proof (Hc url t Et) as E. rewrite constructTemplate_spec in E. by injection E as ->.
    - rewrite constructTemplate_spec. simpl. eexists. split; [done|]. intros u t [[<- <-]|[_ ?]]%lookup_insert_Some; [by rewrite constructTemplate_spec|by apply Hc]. }
  exists templates'. split; [|done]. unfold Replace. rewrite Ht. cbn [mbind option_bind].
  pose proof (replace_loop_spec (String.length url) url m 0 result ltac:(lia) ltac:(lia)) as Hr.
  assert (str_drop 0 url = url) as E by (by destruct url). rewrite E in Hr. change (Z.of_nat 0) with 0 in Hr. by rewrite Hr.
Qed.
Lemma replace_is_substitution_witness :
  let m : MacroProvider := {[ "PBS-BIDID" := "a b" ]} in
  cache_sound ∅ ∧
  ∃ t, Replace ∅ "" "https://x/?b=##PBS-BIDID##&c=##" m = Some ("" +:+ substitute m (parts "https://x/?b=##PBS-BIDID##&c=##"), t) ∧
    substitute m (parts "https://x/?b=##PBS-BIDID##&c=##") = "https://x/?b=a+b&c=##".
Proof.
  intros m. assert (cache_sound ∅) as Hc by (intros ? ?; by rewrite lookup_empty). split; [exact Hc|].
  destruct (replace_is_substitution ∅ "" "https://x/?b=##PBS-BIDID##&c=##" m Hc) as (t & Ht & _). exists t. split; [exact Ht|]. vm_compute. reflexivity.
Defined.
