(* ===== verification/Injector.v ===== *)
(** * Trackers in VAST documents: src/injector/injector.go

    One pass over the tokens of a document copies it through an XML encoder and writes the trackers of
    an account between them.  A document is the list of its raw tokens, with element names without
    prefixes; the output is what the encoder writes and the text written beside it. *)
From S2P Require Import Prelude GoStrings GoFloat Bids Macros.

(** ** Tokens and the encoder *)
Inductive token :=
| TStart (name : string) (attrs : list (string * string))
| TEnd (name : string)
| TChar (text : string)
| TOther (text : string).
(** What is written: an encoded token, character data, or a tracker. *)
Inductive piece := PTok (t : token) | PData (text : string) | PTracker (text : string).

Inductive inject_error := InvalidVastXML | XmlProcessing | NoInlineOrWrapper.

(** [xml.Encoder] keeps the open elements: an end must close the last one. *)
Record encoder := { en_tags : list string; en_out : list piece }.
Definition EncodeToken (t : token) (e : encoder) : option encoder :=
  match t with
  | TStart n _ => if n =s? "" then None else Some {| en_tags := n :: en_tags e; en_out := en_out e ++ [PTok t] |}
  | TEnd n =>
      match en_tags e with
      | top :: rest => if (n =s? "") || negb (top =s? n) then None else Some {| en_tags := rest; en_out := en_out e ++ [PTok t] |}
      | [] => None
      end
  | _ => Some {| en_tags := en_tags e; en_out := en_out e ++ [PTok t] |}
  end.
(** Every write beside the encoder follows a flush, so the pieces are in order. *)
Definition write (ps : list piece) (e : encoder) : encoder := {| en_tags := en_tags e; en_out := en_out e ++ ps |}.

(** ** State *)
Record VASTEvents := {
  ve_Errors : list string;
  ve_Impressions : list string;
  ve_VideoClicks : list string;
  ve_NonLinearClickTracking : list string;
  ve_CompanionClickThrough : list string;
  ve_TrackingEvents : gmap string (list string)
}.
Record InjectionState := {
  is_injectTracker : bool;
  is_injectVideoClicks : bool;
  is_inlineWrapperTagFound : bool;
  is_wrapperTagFound : bool;
  is_impressionTagFound : bool;
  is_errorTagFound : bool;
  is_creativeId : string;
  is_isCreative : bool;
  is_companionTagFound : bool;
  is_nonLinearTagFound : bool
}.
Definition initial_state : InjectionState :=
  {| is_injectTracker := false; is_injectVideoClicks := false; is_inlineWrapperTagFound := false; is_wrapperTagFound := false;
     is_impressionTagFound := false; is_errorTagFound := false; is_creativeId := ""; is_isCreative := false;
     is_companionTagFound := false; is_nonLinearTagFound := false |}.
Definition set_tracker b (s : InjectionState) : InjectionState :=
  {| is_injectTracker := b; is_injectVideoClicks := is_injectVideoClicks s; is_inlineWrapperTagFound := is_inlineWrapperTagFound s;
     is_wrapperTagFound := is_wrapperTagFound s; is_impressionTagFound := is_impressionTagFound s; is_errorTagFound := is_errorTagFound s;
     is_creativeId := is_creativeId s; is_isCreative := is_isCreative s; is_companionTagFound := is_companionTagFound s; is_nonLinearTagFound := is_nonLinearTagFound s |}.
Definition set_clicks b (s : InjectionState) : InjectionState :=
  {| is_injectTracker := is_injectTracker s; is_injectVideoClicks := b; is_inlineWrapperTagFound := is_inlineWrapperTagFound s;
     is_wrapperTagFound := is_wrapperTagFound s; is_impressionTagFound := is_impressionTagFound s; is_errorTagFound := is_errorTagFound s;
     is_creativeId := is_creativeId s; is_isCreative := is_isCreative s; is_companionTagFound := is_companionTagFound s; is_nonLinearTagFound := is_nonLinearTagFound s |}.
Definition set_wrapper b (s : InjectionState) : InjectionState :=
  {| is_injectTracker := is_injectTracker s; is_injectVideoClicks := is_injectVideoClicks s; is_inlineWrapperTagFound := is_inlineWrapperTagFound s;
     is_wrapperTagFound := b; is_impressionTagFound := is_impressionTagFound s; is_errorTagFound := is_errorTagFound s;
     is_creativeId := is_creativeId s; is_isCreative := is_isCreative s; is_companionTagFound := is_companionTagFound s; is_nonLinearTagFound := is_nonLinearTagFound s |}.
Definition set_found (wrapperEnd imp err : bool) (s : InjectionState) : InjectionState :=
  {| is_injectTracker := is_injectTracker s; is_injectVideoClicks := is_injectVideoClicks s;
     is_inlineWrapperTagFound := wrapperEnd || is_inlineWrapperTagFound s;
     is_wrapperTagFound := if wrapperEnd then false else is_wrapperTagFound s; is_impressionTagFound := imp; is_errorTagFound := err;
     is_creativeId := is_creativeId s; is_isCreative := is_isCreative s; is_companionTagFound := is_companionTagFound s; is_nonLinearTagFound := is_nonLinearTagFound s |}.
Definition set_creative (b : bool) (id : string) (s : InjectionState) : InjectionState :=
  {| is_injectTracker := is_injectTracker s; is_injectVideoClicks := is_injectVideoClicks s; is_inlineWrapperTagFound := is_inlineWrapperTagFound s;
     is_wrapperTagFound := is_wrapperTagFound s; is_impressionTagFound := is_impressionTagFound s; is_errorTagFound := is_errorTagFound s;
     is_creativeId := id; is_isCreative := b; is_companionTagFound := is_companionTagFound s; is_nonLinearTagFound := is_nonLinearTagFound s |}.
Definition set_tags (companion nonLinear : bool) (s : InjectionState) : InjectionState :=
  {| is_injectTracker := is_injectTracker s; is_injectVideoClicks := is_injectVideoClicks s; is_inlineWrapperTagFound := is_inlineWrapperTagFound s;
     is_wrapperTagFound := is_wrapperTagFound s; is_impressionTagFound := is_impressionTagFound s; is_errorTagFound := is_errorTagFound s;
     is_creativeId := is_creativeId s; is_isCreative := is_isCreative s; is_companionTagFound := companion || is_companionTagFound s;
     is_nonLinearTagFound := nonLinear || is_nonLinearTagFound s |}.

(** ** Trackers *)
Section Inject.
Context `{MapRange} (events : VASTEvents) (provider : MacroProvider).

(** The replacer's cache of templates does not change what it writes, so it starts empty here.  The
    event macros are set anew for every kind of tracker. *)
Definition writeTrackingEvent (urls : list string) (startTag endTag creativeId eventType vastEvent : string) : list piece :=
  let m := PopulateEventMacros creativeId eventType vastEvent provider in
  map (λ url, PTracker (startTag +:+ default "" (fst <$> Replace ∅ "" url m) +:+ endTag)) urls.
Definition in_parent (addParentTag : bool) (name : string) (ps : list piece) : list piece :=
  if addParentTag then PTracker ("<" +:+ name +:+ ">") :: ps ++ [PTracker ("</" +:+ name +:+ ">")] else ps.
Definition dquote : string := String "034" "".
Definition addTrackingEvent (creativeId : string) (addParentTag : bool) : list piece :=
  in_parent addParentTag "TrackingEvents"
    (concat (map (λ '(typ, urls), writeTrackingEvent urls ("<Tracking event=" +:+ dquote +:+ typ +:+ dquote +:+ "><![CDATA[") "]]></Tracking>" creativeId typ "tracking")
                 (map_range (ve_TrackingEvents events)))).
Definition addClickTrackingEvent (creativeId : string) (addParentTag : bool) : list piece :=
  in_parent addParentTag "VideoClicks" (writeTrackingEvent (ve_VideoClicks events) "<ClickTracking><![CDATA[" "]]></ClickTracking>" creativeId "" "clicktracking").
Definition addImpressionTrackingEvent : list piece :=
  writeTrackingEvent (ve_Impressions events) "<Impression><![CDATA[" "]]></Impression>" "" "" "impression".
Definition addErrorTrackingEvent : list piece :=
  writeTrackingEvent (ve_Errors events) "<Error><![CDATA[" "]]></Error>" "" "" "error".
Definition addNonLinearClickTrackingEvent (creativeId : string) (addParentTag : bool) : list piece :=
  in_parent addParentTag "NonLinear" (writeTrackingEvent (ve_NonLinearClickTracking events) "<NonLinearClickTracking><![CDATA[" "]]></NonLinearClickTracking>" creativeId "" "nonlinearclicktracking").
Definition addCompanionClickThroughEvent (creativeId : string) (addParentTag : bool) : list piece :=
  in_parent addParentTag "Companion" (writeTrackingEvent (ve_CompanionClickThrough events) "<CompanionClickThrough><![CDATA[" "]]></CompanionClickThrough>" creativeId "" "companionclickthrough").

(** ** Elements *)
Definition step_state := (InjectionState * encoder)%type.
(** The last attribute [adid], in any case, names the creative. *)
Definition creative_id (attrs : list (string * string)) (old : string) : string :=
  foldl (λ id kv, if ToLower kv.1 =s? "adid" then kv.2 else id) old attrs.

Definition handleStartElement (name : string) (attrs : list (string * string)) (s : InjectionState) (e : encoder) : option step_state :=
  let t := TStart name attrs in
  if name =s? "Wrapper" then e ← EncodeToken t e; Some (set_wrapper true s, e)
  else if name =s? "Creative" then e ← EncodeToken t e; Some (set_creative true (creative_id attrs (is_creativeId s)) s, e)
  else if name =s? "Linear" then e ← EncodeToken t e; Some (set_tracker true (set_clicks true s), e)
  else if name =s? "VideoClicks" then
    e ← EncodeToken t e; Some (set_clicks false s, write (addClickTrackingEvent (is_creativeId s) false) e)
  else if name =s? "NonLinearAds" then e ← EncodeToken t e; Some (set_tracker true s, e)
  else if name =s? "TrackingEvents" then
    if is_isCreative s then e ← EncodeToken t e; Some (set_tracker false s, write (addTrackingEvent (is_creativeId s) false) e)
    else Some (s, e)
  else e ← EncodeToken t e; Some (s, e).

Definition handleEndElement (name : string) (s : InjectionState) (e : encoder) : option step_state :=
  let t := TEnd name in
  if name =s? "Impression" then
    e ← EncodeToken t e;
    Some (if is_impressionTagFound s then (s, e) else (set_found false true (is_errorTagFound s) s, write addImpressionTrackingEvent e))
  else if name =s? "Error" then
    e ← EncodeToken t e;
    Some (if is_errorTagFound s then (s, e) else (set_found false (is_impressionTagFound s) true s, write addErrorTrackingEvent e))
  else if name =s? "NonLinearAds" then
    if is_injectTracker s then
      let e := write (addTrackingEvent (is_creativeId s) true) e in
      let e := if negb (is_nonLinearTagFound s) && is_wrapperTagFound s then write (addNonLinearClickTrackingEvent (is_creativeId s) true) e else e in
      e ← EncodeToken t e; Some (set_tracker false s, e)
    else Some (s, e)
  else if name =s? "Linear" then
    let e := if is_injectVideoClicks s then write (addClickTrackingEvent (is_creativeId s) true) e else e in
    let e := if is_injectTracker s then write (addTrackingEvent (is_creativeId s) true) e else e in
    (* the error of this call is dropped *)
    Some (set_tracker false (set_clicks false s), default e (EncodeToken t e))
  else if (name =s? "InLine") || (name =s? "Wrapper") then
    let e := if is_impressionTagFound s then e else write addImpressionTrackingEvent e in
    let e := if is_errorTagFound s then e else write addErrorTrackingEvent e in
    e ← EncodeToken t e; Some (set_found true false false s, e)
  else if name =s? "NonLinear" then
    let e := write (addNonLinearClickTrackingEvent (is_creativeId s) false) e in
    e ← EncodeToken t e; Some (set_tags false true s, e)
  else if name =s? "Companion" then
    let e := write (addCompanionClickThroughEvent (is_creativeId s) false) e in
    e ← EncodeToken t e; Some (set_tags true false s, e)
  else if name =s? "Creative" then e ← EncodeToken t e; Some (set_creative false (is_creativeId s) s, e)
  else if name =s? "CompanionAds" then
    let e := if negb (is_companionTagFound s) && is_wrapperTagFound s then write (addCompanionClickThroughEvent (is_creativeId s) true) e else e in
    e ← EncodeToken t e; Some (s, e)
  else e ← EncodeToken t e; Some (s, e).

(** [strings.Trim(s, "\t\r\b\n ")] *)
Definition trim_rune (a : ascii) : bool := existsb (Ascii.eqb a) ["009"%char; "013"%char; "008"%char; "010"%char; " "%char].
Fixpoint trim_left (s : string) : string := match s with String a r => if trim_rune a then trim_left r else s | EmptyString => "" end.
Fixpoint trim_right (s : string) : string :=
  match s with
  | EmptyString => ""
  | String a r => match trim_right r with EmptyString => if trim_rune a then "" else String a "" | t => String a t end
  end.
Definition trimmed (s : string) : string := trim_right (trim_left s).

Definition inject_token (t : token) (se : step_state) : option step_state :=
  let '(s, e) := se in
  match t with
  | TStart name attrs => handleStartElement name attrs s e
  | TEnd name => handleEndElement name s e
  | TChar text => let c := trimmed text in Some (s, if c =s? "" then e else write [PData c] e)
  | TOther _ => e ← EncodeToken t e; Some (s, e)
  end.
Fixpoint inject_tokens (ts : list token) (se : step_state) : option step_state :=
  match ts with [] => Some se | t :: rest => se' ← inject_token t se; inject_tokens rest se' end.

(** [complete] is whether the decoder reached the end of the document without an error.  An empty
    document is replaced by a wrapper around the notice URL. *)
Definition InjectTracker (tokens : list token) (empty complete : bool) (NURL : string) : result inject_error (list piece + string) :=
  if empty then if NURL =s? "" then Err InvalidVastXML
                else Ok (inr ("<VAST version=" +:+ dquote +:+ "3.0" +:+ dquote +:+ "><Ad><Wrapper><AdSystem>prebid.org wrapper</AdSystem><VASTAdTagURI><![CDATA[" +:+ NURL +:+
                              "]]></VASTAdTagURI><Impression></Impression><Creatives></Creatives></Wrapper></Ad></VAST>"))
  else match inject_tokens tokens (initial_state, {| en_tags := []; en_out := [] |}) with
       | None => Err XmlProcessing
       | Some (s, e) => if negb complete then Err XmlProcessing
                        else if is_inlineWrapperTagFound s then Ok (inl (en_out e)) else Err NoInlineOrWrapper
       end.
End Inject.

(** ** Documents that survive *)
(** Well-nested documents with tracking events only inside a creative, creatives not inside each other,
    and no tracking events or other ads inside [NonLinearAds]. *)
Definition tracker_names : list string := ["TrackingEvents"; "Linear"; "NonLinearAds"].
Definition quiet (t : token) : bool :=
  match t with TStart n _ | TEnd n => negb (existsb (String.eqb n) tracker_names) | _ => true end.
Inductive safe : bool → list token → Prop :=
| safe_nil c : safe c []
| safe_char c s l : safe c l → safe c (TChar s :: l)
| safe_other c s l : safe c l → safe c (TOther s :: l)
| safe_elem c n a inner l : n ≠ "" → n ≠ "Creative" → n ≠ "TrackingEvents" → n ≠ "NonLinearAds" →
    safe c inner → safe c l → safe c (TStart n a :: inner ++ TEnd n :: l)
| safe_creative a inner l : safe true inner → safe false l → safe false (TStart "Creative" a :: inner ++ TEnd "Creative" :: l)
| safe_tracking a inner l : safe true inner → safe true l → safe true (TStart "TrackingEvents" a :: inner ++ TEnd "TrackingEvents" :: l)
| safe_nonlinear c a inner l : safe c inner → forallb quiet inner = true → safe c l →
    safe c (TStart "NonLinearAds" a :: inner ++ TEnd "NonLinearAds" :: l).

(** What a document is once the trackers are taken out: its tokens, with text trimmed and blank text
    gone. *)
Definition is_tracker (p : piece) : bool := match p with PTracker _ => true | _ => false end.
Definition original (ps : list piece) : list piece := filter (λ p, is_tracker p = false) ps.
Definition copied (ts : list token) : list piece :=
  omap (λ t, match t with TChar s => if trimmed s =s? "" then None else Some (PData (trimmed s)) | _ => Some (PTok t) end) ts.

Section Safe.
Context `{MapRange} (events : VASTEvents) (provider : MacroProvider).
Local Abbreviation run := (inject_tokens events provider).

Definition trackers_only (ps : list piece) : Prop := Forall (λ p, is_tracker p = true) ps.
Lemma original_app a b : original (a ++ b) = original a ++ original b.
Proof. apply filter_app. Qed.
Lemma original_trackers ps : trackers_only ps → original ps = [].
Proof. induction 1 as [|p ps Hp _ IH]; [done|]. by destruct p. Qed.
Lemma write_trackers urls a b c d e : trackers_only (writeTrackingEvent provider urls a b c d e).
Proof. unfold writeTrackingEvent, trackers_only. apply Forall_map, Forall_true. done. Qed.
Lemma in_parent_trackers b n ps : trackers_only ps → trackers_only (in_parent b n ps).
Proof. intros Hp. destruct b; [|done]. constructor; [done|]. apply Forall_app. split; [done|]. by constructor. Qed.
Lemma tracking_trackers c b : trackers_only (addTrackingEvent events provider c b).
Proof.
  apply in_parent_trackers. induction (map_range (ve_TrackingEvents events)) as [|[t urls] l IH]; simpl; [constructor|].
  apply Forall_app. split; [apply write_trackers|done].
Qed.
Lemma original_write ps e : trackers_only ps → original (en_out (write ps e)) = original (en_out e).
Proof. intros Hp. simpl. by rewrite original_app, (original_trackers _ Hp), app_nil_r. Qed.

Lemma run_app a b se : run (a ++ b) se = (se' ← run a se; run b se').
Proof. revert se. induction a as [|t a IH]; intros se; simpl; [done|]. destruct (inject_token _ _ t se); simpl; [apply IH|done]. Qed.

(** A step that copies its token: same open elements as the encoder alone, the same document. *)
Definition copies (t : token) (tags : list string) (e e' : encoder) : Prop :=
  en_tags e' = tags ∧ original (en_out e') = original (en_out e) ++ [PTok t].
Lemma original_tok l t : original (l ++ [PTok t]) = original l ++ [PTok t].
Proof. by rewrite original_app. Qed.
Lemma original_skip l ps : trackers_only ps → original (l ++ ps) = original l.
Proof. intros Hp. by rewrite original_app, (original_trackers _ Hp), app_nil_r. Qed.
Lemma clicks_trackers c b : trackers_only (addClickTrackingEvent events provider c b).
Proof. apply in_parent_trackers, write_trackers. Qed.
Lemma nonlinear_trackers c b : trackers_only (addNonLinearClickTrackingEvent events provider c b).
Proof. apply in_parent_trackers, write_trackers. Qed.
Lemma companion_trackers c b : trackers_only (addCompanionClickThroughEvent events provider c b).
Proof. apply in_parent_trackers, write_trackers. Qed.
Lemma impression_trackers : trackers_only (addImpressionTrackingEvent events provider).
Proof. apply write_trackers. Qed.
Lemma error_trackers : trackers_only (addErrorTrackingEvent events provider).
Proof. apply write_trackers. Qed.
Hint Resolve clicks_trackers nonlinear_trackers companion_trackers impression_trackers error_trackers tracking_trackers : go.

(** An encoder that has written only trackers since [e]. *)
Definition only_trackers (e e1 : encoder) : Prop := en_tags e1 = en_tags e ∧ original (en_out e1) = original (en_out e).
Lemma only_write e e1 ps : only_trackers e e1 → trackers_only ps → only_trackers e (write ps e1).
Proof. intros [H1 H2] Hp. split; [done|]. simpl. by rewrite original_skip. Qed.
Lemma only_if e e1 e2 (b : bool) : only_trackers e e1 → only_trackers e e2 → only_trackers e (if b then e1 else e2).
Proof. by destruct b. Qed.
Lemma only_refl e : only_trackers e e.
Proof. done. Qed.
Hint Resolve only_write only_if only_refl : go.

Lemma start_copies n a s e :
  n ≠ "" → (n = "TrackingEvents" → is_isCreative s = true) →
  ∃ s' e', handleStartElement events provider n a s e = Some (s', e') ∧ copies (TStart n a) (n :: en_tags e) e e' ∧
    is_isCreative s' = (if n =s? "Creative" then true else is_isCreative s) ∧ (n = "NonLinearAds" → is_injectTracker s' = true).
Proof.
  intros Hn Ht. unfold handleStartElement, copies. cbn [EncodeToken]. rewrite (proj2 (String.eqb_neq n "") Hn).
  destruct (String.eqb_spec n "Wrapper") as [->|]; [eexists _, _; split; [reflexivity|]; simpl; by rewrite original_tok|].
  destruct (String.eqb_spec n "Creative") as [->|]; [eexists _, _; split; [reflexivity|]; simpl; by rewrite original_tok|].
  destruct (String.eqb_spec n "Linear") as [->|]; [eexists _, _; split; [reflexivity|]; simpl; by rewrite original_tok|].
  destruct (String.eqb_spec n "VideoClicks") as [->|].
  { eexists _, _; split; [reflexivity|]; cbn [write en_out en_tags]. by rewrite (original_skip _ _ (clicks_trackers _ _)), original_tok. }
  destruct (String.eqb_spec n "NonLinearAds") as [->|]; [eexists _, _; split; [reflexivity|]; simpl; by rewrite original_tok|].
  destruct (String.eqb_spec n "TrackingEvents") as [->|].
  { rewrite (Ht eq_refl). eexists _, _. split; [reflexivity|]. cbn [write en_out en_tags].
    rewrite (original_skip _ _ (tracking_trackers _ _)), original_tok. split; [done|]. split; [exact (Ht eq_refl)|done]. }
  eexists _, _. split; [reflexivity|]. simpl. by rewrite original_tok.
Qed.

Lemma end_encodes n e e1 rest : n ≠ "" → en_tags e = n :: rest → only_trackers e e1 →
  ∃ e2, EncodeToken (TEnd n) e1 = Some e2 ∧ copies (TEnd n) rest e e2.
Proof.
  intros Hn Htags [H1 H2]. unfold EncodeToken. rewrite H1, Htags, (proj2 (String.eqb_neq n "") Hn), String.eqb_refl. simpl.
  eexists. split; [reflexivity|]. split; [done|]. simpl. by rewrite original_tok, H2.
Qed.

Lemma end_copies n s e rest :
  n ≠ "" → en_tags e = n :: rest → (n = "NonLinearAds" → is_injectTracker s = true) →
  ∃ s' e', handleEndElement events provider n s e = Some (s', e') ∧ copies (TEnd n) rest e e' ∧
    is_isCreative s' = (if n =s? "Creative" then false else is_isCreative s).
Proof.
  intros Hn Htags Ht.
  pose proof (λ e1, end_encodes n e e1 rest Hn Htags) as Henc.
  unfold handleEndElement.
  destruct (String.eqb_spec n "Impression") as [->|].
  { destruct (Henc e) as (e2 & -> & Hc); [eauto with go|]. cbn [mbind option_bind].
    destruct (is_impressionTagFound s); eexists _, _; (split; [reflexivity|]); (split; [|done]); [done|].
    destruct Hc as [Hc1 Hc2]. split; [done|]. simpl. by rewrite original_skip by eauto with go. }
  destruct (String.eqb_spec n "Error") as [->|].
  { destruct (Henc e) as (e2 & -> & Hc); [eauto with go|]. cbn [mbind option_bind].
    destruct (is_errorTagFound s); eexists _, _; (split; [reflexivity|]); (split; [|done]); [done|].
    destruct Hc as [Hc1 Hc2]. split; [done|]. simpl. by rewrite original_skip by eauto with go. }
  destruct (String.eqb_spec n "NonLinearAds") as [->|].
  { rewrite Ht by done. edestruct Henc as (e2 & -> & Hc); [|eexists _, _; split; [reflexivity|]; by split]. eauto 10 with go. }
  destruct (String.eqb_spec n "Linear") as [->|].
  { edestruct Henc as (e2 & -> & Hc); [|eexists _, _; split; [reflexivity|]; by split]. eauto 10 with go. }
  destruct ((n =s? "InLine") || (n =s? "Wrapper")) eqn:Eiw.
  { edestruct Henc as (e2 & -> & Hc); [|eexists _, _; split; [reflexivity|]; split; [done|]]; [eauto 10 with go|].
    by destruct (String.eqb_spec n "Creative") as [->|]. }
  destruct (String.eqb_spec n "NonLinear") as [->|].
  { edestruct Henc as (e2 & -> & Hc); [|eexists _, _; split; [reflexivity|]; by split]. eauto 10 with go. }
  destruct (String.eqb_spec n "Companion") as [->|].
  { edestruct Henc as (e2 & -> & Hc); [|eexists _, _; split; [reflexivity|]; by split]. eauto 10 with go. }
  destruct (String.eqb_spec n "Creative") as [->|].
  { edestruct Henc as (e2 & -> & Hc); [|eexists _, _; split; [reflexivity|]; by split]. eauto 10 with go. }
  destruct (String.eqb_spec n "CompanionAds") as [->|].
  { edestruct Henc as (e2 & -> & Hc); [|eexists _, _; split; [reflexivity|]; by split]. eauto 10 with go. }
  destruct (Henc e) as (e2 & -> & Hc); [eauto with go|]. eexists _, _. split; [reflexivity|]. by split.
Qed.

(** Tokens that leave the pending tracker alone. *)
Lemma quiet_step t s e s' e' : quiet t = true → inject_token events provider t (s, e) = Some (s', e') → is_injectTracker s' = is_injectTracker s.
Proof.
  intros Hq. destruct t as [n a|n|c|o]; simpl.
  - unfold handleStartElement. simpl in Hq. repeat match goal with |- context [n =s? ?k] => destruct (String.eqb_spec n k) as [->|]; try done end;
    destruct (EncodeToken _ e) as [e1|]; simpl; try done; intros [= <- <-]; done.
  - unfold handleEndElement. simpl in Hq. repeat match goal with |- context [n =s? ?k] => destruct (String.eqb_spec n k) as [->|]; try done end; simpl;
    repeat (match goal with |- context [EncodeToken ?t ?x] => destruct (EncodeToken t x) as [?|]; simpl; [|done] end);
    repeat case_match; intros [= <- <-]; done.
  - intros [= <- <-]. done.
  - intros [= <- <-]. done.
Qed.
Lemma quiet_run l s e s' e' : forallb quiet l = true → run l (s, e) = Some (s', e') → is_injectTracker s' = is_injectTracker s.
Proof.
  revert s e. induction l as [|t l IH]; intros s e; cbn [inject_tokens forallb]; [by intros _ [= <- <-]|]. intros [Ht Hl]%andb_true_iff.
  destruct (inject_token events provider t (s, e)) as [[s1 e1]|] eqn:E; cbn [mbind option_bind]; [|done]. intros Hr. rewrite (IH s1 e1 Hl Hr). by eapply quiet_step.
Qed.

Lemma copied_app a b : copied (a ++ b) = copied a ++ copied b.
Proof. apply omap_app. Qed.

(** The encoder's open elements and the state's creative are as before, and the document is copied. *)
Definition passes (c : bool) (l : list token) : Prop := ∀ s e, is_isCreative s = c →
  ∃ s' e', run l (s, e) = Some (s', e') ∧ is_isCreative s' = c ∧ en_tags e' = en_tags e ∧ original (en_out e') = original (en_out e) ++ copied l.

(** An element around what passes, before what passes. *)
Lemma element_passes c c' n a inner l :
  n ≠ "" → (n = "TrackingEvents" → c = true) → (n = "NonLinearAds" → forallb quiet inner = true) →
  c' = (if n =s? "Creative" then true else c) → (n = "Creative" → c = false) →
  passes c' inner → passes c l → passes c (TStart n a :: inner ++ TEnd n :: l).
Proof.
  intros Hn Ht Hq Hc' Hcr Hin Hl s e Hc. cbn [inject_tokens].
  destruct (start_copies n a s e Hn) as (s1 & e1 & E1 & [T1 O1] & C1 & N1); [intros ->; rewrite Hc; by apply Ht|].
  change (inject_token events provider (TStart n a) (s, e)) with (handleStartElement events provider n a s e). rewrite E1. cbn [mbind option_bind].
  rewrite run_app. destruct (Hin s1 e1) as (s2 & e2 & E2 & C2 & T2 & O2); [by rewrite C1, Hc, Hc'|]. rewrite E2. cbn [mbind option_bind inject_tokens].
  destruct (end_copies n s2 e2 (en_tags e)) as (s3 & e3 & E3 & [T3 O3] & C3); [done|by rewrite T2, T1| |].
  { intros Hnl. rewrite (quiet_run inner s1 e1 s2 e2 (Hq Hnl) E2). by apply N1. }
  change (inject_token events provider (TEnd n) (s2, e2)) with (handleEndElement events provider n s2 e2). rewrite E3. cbn [mbind option_bind].
  destruct (Hl s3 e3) as (s4 & e4 & E4 & C4 & T4 & O4).
  { rewrite C3, C2, Hc'. destruct (String.eqb_spec n "Creative"); [symmetry; by apply Hcr|done]. }
  exists s4, e4. split; [done|]. split; [done|]. split; [by rewrite T4|]. rewrite O4, O3, O2, O1.
  change (TStart n a :: inner ++ TEnd n :: l) with ([TStart n a] ++ inner ++ [TEnd n] ++ l). rewrite !copied_app. by rewrite <- !app_assoc.
Qed.

Lemma safe_passes c l : safe c l → passes c l.
Proof.
  induction 1 as [c|c t l _ IH|c t l _ IH|c n a inner l Hn Hc Ht Hnl _ IHi _ IHl|a inner l _ IHi _ IHl|a inner l _ IHi _ IHl|c a inner l _ IHi Hq _ IHl].
  - intros s e Hc. exists s, e. by rewrite app_nil_r.
  - intros s e Hc. cbn [inject_tokens inject_token mbind option_bind]. destruct (IH s (if trimmed t =s? "" then e else write [PData (trimmed t)] e) Hc) as (s' & e' & E & C & T & O).
    exists s', e'. split; [done|]. split; [done|]. rewrite T, O. simpl. destruct (trimmed t =s? ""); simpl; [done|]. by rewrite original_app, <- app_assoc.
  - intros s e Hc. cbn [inject_tokens inject_token EncodeToken mbind option_bind]. edestruct (IH s) as (s' & e' & E & C & T & O); [done|].
    exists s', e'. split; [exact E|]. split; [done|]. rewrite T, O. simpl. by rewrite original_tok, <- app_assoc.
  - apply (element_passes c c); try done. by rewrite (proj2 (String.eqb_neq n "Creative") Hc).
  - by apply (element_passes false true).
  - by apply (element_passes true true).
  - by apply (element_passes c c).
Qed.
End Safe.

(** Injecting trackers into a document that is nested well, with tracking events only in creatives and
    none inside [NonLinearAds], fails at most because there is no ad, and what comes out is the document,
    with its text trimmed, and trackers between its tokens. *)
Theorem injection_keeps_document `{MapRange} events provider doc NURL :
  safe false doc →
  match InjectTracker events provider doc false true NURL with
  | Ok (inl out) => original out = copied doc
  | Ok (inr _) => False
  | Err e => e = NoInlineOrWrapper
  end.
Proof.
  intros Hs. destruct (safe_passes events provider false doc Hs initial_state {| en_tags := []; en_out := [] |} eq_refl) as (s & e & E & _ & _ & O).
  unfold InjectTracker. rewrite E. cbn [negb]. by destruct (is_inlineWrapperTagFound s).
Qed.
Definition demo_ad : list token :=
  [TStart "VAST" []; TStart "Ad" []; TStart "InLine" []; TStart "Creatives" []; TStart "Creative" [("AdID", "c1")]; TStart "Linear" [];
   TStart "Duration" []; TChar " 00:00:15 "; TEnd "Duration"; TEnd "Linear"; TEnd "Creative"; TEnd "Creatives"; TEnd "InLine"; TEnd "Ad"; TEnd "VAST"].
Definition demo_events : VASTEvents :=
  {| ve_Errors := ["https://e"]; ve_Impressions := []; ve_VideoClicks := ["https://c?id=##PBS-VASTCRTID##"]; ve_NonLinearClickTracking := [];
     ve_CompanionClickThrough := []; ve_TrackingEvents := {[ "start" := ["https://s"] ]} |}.
Lemma demo_ad_safe : safe false demo_ad.
Proof.
  assert (∀ c, safe c [TChar " 00:00:15 "]) as H0 by (intros c; repeat constructor).
  assert (safe true [TStart "Duration" []; TChar " 00:00:15 "; TEnd "Duration"]) as H1
    by (apply (safe_elem true "Duration" [] [TChar " 00:00:15 "] []); try done; constructor).
  assert (safe true [TStart "Linear" []; TStart "Duration" []; TChar " 00:00:15 "; TEnd "Duration"; TEnd "Linear"]) as H2
    by (apply (safe_elem true "Linear" [] [TStart "Duration" []; TChar " 00:00:15 "; TEnd "Duration"] []); try done; constructor).
  pose proof (safe_creative [("AdID", "c1")] _ [] H2 (safe_nil false)) as H3.
  assert (∀ n inner, n ≠ "" → n ≠ "Creative" → n ≠ "TrackingEvents" → n ≠ "NonLinearAds" → safe false inner → safe false (TStart n [] :: inner ++ [TEnd n])) as Hwrap.
  { intros. by apply safe_elem; try done; constructor. }
  pose proof (Hwrap "Creatives" _ ltac:(done) ltac:(done) ltac:(done) ltac:(done) H3) as H4.
  pose proof (Hwrap "InLine" _ ltac:(done) ltac:(done) ltac:(done) ltac:(done) H4) as H5.
  pose proof (Hwrap "Ad" _ ltac:(done) ltac:(done) ltac:(done) ltac:(done) H5) as H6.
  exact (Hwrap "VAST" _ ltac:(done) ltac:(done) ltac:(done) ltac:(done) H6).
Qed.
Lemma injection_keeps_document_witness :
  safe false demo_ad ∧
  match @InjectTracker canonical_range demo_events ∅ demo_ad false true "" with Ok (inl out) => original out = copied demo_ad | Ok (inr _) => False | Err e => e = NoInlineOrWrapper end.
Proof. split; [exact demo_ad_safe|]. apply (@injection_keeps_document canonical_range demo_events ∅ demo_ad "" demo_ad_safe). Defined.

(** A creative whose [NonLinearAds] has tracking events of its own: the end tag is left out, the next
    end tag does not match, and no tracker is injected at all. *)
Definition nonlinear_ad : list token :=
  [TStart "VAST" []; TStart "Ad" []; TStart "InLine" []; TStart "Creatives" []; TStart "Creative" []; TStart "NonLinearAds" [];
   TStart "TrackingEvents" []; TEnd "TrackingEvents"; TEnd "NonLinearAds"; TEnd "Creative"; TEnd "Creatives"; TEnd "InLine"; TEnd "Ad"; TEnd "VAST"].
Theorem nonlinear_tracking_stops_injection `{MapRange} events provider NURL :
  InjectTracker events provider nonlinear_ad false true NURL = Err XmlProcessing.
Proof. done. Qed.
