(* ===== verification/Events.v ===== *)
(** * Event URLs: src/endpoints/events, src/exchange/events.go, src/analytics/event.go, src/account,
      src/prebid_cache_client

    The URLs by which a player or page reports that a bid won or was shown, the endpoint that reads
    them, the tracking pixel written into VAST, the cache request of /vtrack, and the account
    these endpoints look up. *)
From S2P Require Import Prelude GoStrings GoFloat Order Bids ErrorTypes BidderCall VideoUrls RequestParts Macros Injector.

(** ** Events *)
Definition Win := "win".
Definition Imp_ := "imp".
Definition VastType := "vast".
Definition Blank := "b".
Definition Image := "i".
Definition Enabled := "1".
Definition Disabled := "0".
Record EventRequest := {
  ev_Type : string;
  ev_Format : string;
  ev_Analytics : string;
  ev_BidID : string;
  ev_AccountID : string;
  ev_Bidder : string;
  ev_Timestamp : Z;
  ev_Integration : string;
  ev_VType : string;
  ev_Price : float64;
  ev_Adomain : string;
  ev_ImpID : string;
  ev_Width : Z;
  ev_Height : Z;
  ev_PbsVersion : string
}.

(** [strconv.FormatFloat(x, 'f', -1, 64)] and [strconv.ParseFloat], which reads it back. *)
Class FloatText := {
  shortest : float64 → string;
  parse_float : string → option float64;
  shortest_nonempty : ∀ x, shortest x ≠ "";
  parse_shortest : ∀ x, is_nan x = false → fltb f0 x = true → parse_float (shortest x) = Some x
}.

Section Urls.
Context `{FloatText}.

Definition optionalValues (r : EventRequest) : Values :=
  let add (b : bool) k v (m : Values) := if b then <[k := v]> m else m in
  add (ev_PbsVersion r ≠s? "") "pbs_version" (ev_PbsVersion r)
  (add (0 <? ev_Height r) "h" (pretty (ev_Height r))
  (add (0 <? ev_Width r) "w" (pretty (ev_Width r))
  (add (ev_ImpID r ≠s? "") "impid" (ev_ImpID r)
  (add (ev_Adomain r ≠s? "") "adomain" (ev_Adomain r)
  (add (f0 <f? ev_Price r) "price" (shortest (ev_Price r))
  (add (ev_Integration r ≠s? "") "int" (ev_Integration r)
  (add ((ev_Analytics r =s? Enabled) || (ev_Analytics r =s? Disabled)) "x" (ev_Analytics r)
  (add ((ev_Format r =s? Blank) || (ev_Format r =s? Image)) "f" (ev_Format r)
  (add (ev_Bidder r ≠s? "") "bidder" (ev_Bidder r)
  (add (0 <? ev_Timestamp r) "ts" (pretty (ev_Timestamp r)) ∅)))))))))).
Definition optionalParameters (r : EventRequest) : string :=
  let opt := Encode (optionalValues r) in
  if opt =s? "" then opt else "&" +:+ opt.
(** The part after [/event?]; the bid id and the account id are written as they are. *)
Definition eventQuery (r : EventRequest) : string :=
  "t=" +:+ ev_Type r +:+ "&b=" +:+ ev_BidID r +:+ "&a=" +:+ ev_AccountID r +:+ optionalParameters r.
Definition EventRequestToUrl (externalUrl : string) (r : EventRequest) : string := externalUrl +:+ "/event?" +:+ eventQuery r.

(** ** The endpoint *)
Definition required (q : list (string * string)) (parameter : string) : result go_error string :=
  let t := Get q parameter in
  if t =s? "" then Err (BadInput ("parameter '" +:+ parameter +:+ "' is required")) else Ok t.
Definition oneOf (q : list (string * string)) (parameter what : string) (values : list string) (v : string) : result go_error string :=
  if existsb (String.eqb v) values then Ok v else Err (BadInput ("unknown " +:+ what +:+ ": '" +:+ v +:+ "'")).
Definition readType (q : list (string * string)) : result go_error string :=
  let? t := required q "t" in oneOf q "t" "type" [Imp_; Win; VastType] t.
Definition readVType (q : list (string * string)) : result go_error string :=
  let? t := required q "vtype" in oneOf q "vtype" "vtype" ["start"; "firstQuartile"; "midPoint"; "thirdQuartile"; "complete"] t.
Definition readFormat (q : list (string * string)) : result go_error string :=
  let f := Get q "f" in if f =s? "" then Ok "" else oneOf q "f" "format" [Blank; Image] f.
Definition readAnalytics (q : list (string * string)) : result go_error string :=
  let a := Get q "x" in if a =s? "" then Ok Enabled else oneOf q "x" "analytics" [Enabled; Disabled] a.
Definition readTimestamp (q : list (string * string)) : result go_error Z :=
  let t := Get q "ts" in
  if t =s? "" then Ok 0
  else match Atoi t with Some ts => Ok ts | None => Err (BadInput ("invalid request: error parsing timestamp '" +:+ t +:+ "'")) end.
Fixpoint integration_chars (s : string) : bool :=
  match s with
  | EmptyString => true
  | String a r => (is_upper a || is_lower a || bool_decide (is_Some (digit a)) || Ascii.eqb a "-" || Ascii.eqb a "_") && integration_chars r
  end.
Definition validateIntegrationType (s : string) : option go_error :=
  if (64 <? String.length s)%nat then Some (PlainError "integration type length is too long")
  else if integration_chars s then None
  else Some (PlainError "integration type can only contain numbers, letters and these characters '-', '_'").
Definition readIntegrationType (q : list (string * string)) : result go_error string :=
  let t := Get q "int" in match validateIntegrationType t with Some e => Err e | None => Ok t end.

Definition ok_or {A} (d : A) (r : result go_error A) : A := match r with Ok a => a | Err _ => d end.
Definition err_of {A} (r : result go_error A) : list go_error := match r with Ok _ => [] | Err e => [e] end.

(** The event is filled as far as the parameters are good; all errors are collected. *)
Definition ParseEventRequest (coreBidders : list string) (q : list (string * string)) : EventRequest * list go_error :=
  let type := readType q in
  let isVast := ok_or "" type =s? VastType in
  let vtype := if isVast then readVType q else Ok "" in
  let vtypeErr := if isVast then err_of vtype
                  else if Get q "vtype" =s? "" then [] else [BadInput "parameter 'vtype' is only required for t=vast"] in
  let bidid := required q "b" in
  let ts := readTimestamp q in
  let format := readFormat q in
  let anal := readAnalytics q in
  let int := readIntegrationType q in
  let number k := let s := Get q k in if s =s? "" then 0 else default 0 (Atoi s) in
  ({| ev_Type := ok_or "" type; ev_Format := ok_or "" format; ev_Analytics := ok_or "" anal; ev_BidID := ok_or "" bidid; ev_AccountID := "";
      ev_Bidder := default (Get q "bidder") (NormalizeBidderName coreBidders (Get q "bidder")); ev_Timestamp := ok_or 0 ts;
      ev_Integration := ok_or "" int; ev_VType := ok_or "" vtype;
      ev_Price := (let s := Get q "price" in if s =s? "" then f0 else default f0 (parse_float s));
      ev_Adomain := Get q "adomain"; ev_ImpID := Get q "impid"; ev_Width := number "w"; ev_Height := number "h";
      ev_PbsVersion := Get q "pbs_version" |},
   err_of type ++ vtypeErr ++ err_of bidid ++ err_of ts ++ err_of format ++ err_of anal ++ err_of int).

(** ** Errors of the account service *)
(** [deadline] marks [context.DeadlineExceeded]. *)
Definition HandleAccountServiceErrors (errs : list (go_error * bool)) : Z * list string :=
  foldl (λ acc '(er, deadline),
    let er := if deadline : bool then Timeout (message er) else er in
    let code := ReadCode er in
    let status := acc.1 in
    let status := if (code =? 3) || (code =? 7) then 503 else status in
    let status := if code =? 10 then 500 else status in
    let status := if (code =? TimeoutErrorCode) && (status =? 400) then 504 else status in
    (status, acc.2 ++ [message er])) (400, []) errs.

(** The answer of [/event] and the event that is logged, if any. *)
Definition set_AccountID (a : string) (e : EventRequest) : EventRequest :=
  {| ev_Type := ev_Type e; ev_Format := ev_Format e; ev_Analytics := ev_Analytics e; ev_BidID := ev_BidID e; ev_AccountID := a;
     ev_Bidder := ev_Bidder e; ev_Timestamp := ev_Timestamp e; ev_Integration := ev_Integration e; ev_VType := ev_VType e;
     ev_Price := ev_Price e; ev_Adomain := ev_Adomain e; ev_ImpID := ev_ImpID e; ev_Width := ev_Width e; ev_Height := ev_Height e;
     ev_PbsVersion := ev_PbsVersion e |}.
(** [lookup] gives the account's [events.enabled] or the errors of the account service. *)
Definition eventHandle (coreBidders : list string) (lookup : string → result (list (go_error * bool)) bool) (q : list (string * string))
    : Z * option EventRequest :=
  let '(event, errs) := ParseEventRequest coreBidders q in
  match errs with
  | _ :: _ => (400, None)
  | [] =>
      match required q "a" with
      | Err _ => (401, None)
      | Ok accountId =>
          let event := set_AccountID accountId event in
          if negb (ev_Analytics event =s? Enabled) then (204, None)
          else match lookup accountId with
               | Err errs => ((HandleAccountServiceErrors errs).1, None)
               | Ok eventsEnabled =>
                   if negb eventsEnabled then (401, None)
                   else if ev_Format event =s? Image then (200, Some event) else (204, Some event)
               end
      end
  end.
End Urls.

(** ** Accounts: account/account.go *)
(** What the endpoints and the exchange use of an account beside its settings. *)
Record Account := {
  acc_ID : string;
  acc_Disabled : bool;
  acc_EventsEnabled : bool;
  acc_v4Bits : Z;
  acc_v6Bits : Z;
  acc_rest : string
}.
Definition set_acc_ID (i : string) (a : Account) : Account :=
  {| acc_ID := i; acc_Disabled := acc_Disabled a; acc_EventsEnabled := acc_EventsEnabled a; acc_v4Bits := acc_v4Bits a; acc_v6Bits := acc_v6Bits a; acc_rest := acc_rest a |}.
(** Masks out of range are replaced by the defaults. *)
Definition fix_masks (a : Account) : Account :=
  {| acc_ID := acc_ID a; acc_Disabled := acc_Disabled a; acc_EventsEnabled := acc_EventsEnabled a;
     acc_v4Bits := if (32 <? acc_v4Bits a) || (acc_v4Bits a <? 0) then 24 else acc_v4Bits a;
     acc_v6Bits := if (128 <? acc_v6Bits a) || (acc_v6Bits a <? 0) then 56 else acc_v6Bits a; acc_rest := acc_rest a |}.
(** [fetch] is what the fetcher returns: the account's JSON merged with the defaults, already decoded
    ([None] when it is malformed), or errors, of which [true] marks "not found". *)
Definition GetAccount (accountRequired : bool) (defaults : Account) (fetch : string → list (go_error * bool) + option (option Account))
    (accountID : string) : result (list go_error) Account :=
  if accountRequired && (accountID =s? "unknown") then
    Err [AcctRequired "Prebid-server has been configured to discard requests without a valid Account ID. Please reach out to the prebid server host."]
  else
    let fallback errs :=
      if accountRequired && acc_Disabled defaults
      then Err (errs ++ [AcctRequired "Prebid-server could not verify the Account ID. Please reach out to the prebid server host."])
      else Ok (errs, set_acc_ID accountID defaults) in
    let found := match fetch accountID with
                 | inl accErrs => fallback (fst <$> filter (λ e, e.2 = false) accErrs)
                 | inr None => fallback []
                 | inr (Some None) => Err [MalformedAcct ("The prebid-server account config for account id " +:+ accountID +:+ " is malformed. Please reach out to the prebid server host.")]
                 | inr (Some (Some a)) => Ok ([], if acc_ID a =s? "" then set_acc_ID accountID a else a)
                 end in
    match found with
    | Err e => Err e
    | Ok (errs, account) =>
        if acc_Disabled account
        then Err (errs ++ [AccountDisabled ("Prebid-server has disabled Account ID: " +:+ accountID +:+ ", please reach out to the prebid server host.")])
        else Ok (fix_masks account)
    end.

(** ** Tracking in VAST: vtrack.go *)
(** [strings.Replace(s, old, new, 1)] *)
Definition replaceFirst (s old new : string) : string :=
  match Index s old with Some i => str_take i s +:+ new +:+ str_drop (i + String.length old) s | None => s end.
Definition ImpressionOpenTag := "<Impression>".
Definition ImpressionCloseTag := "</Impression>".

Section Vast.
Context `{FloatText}.
Definition GetVastUrlTracking (externalUrl bidid bidder accountId : string) (timestamp : Z) (integration : string) : string :=
  EventRequestToUrl externalUrl
    {| ev_Type := Imp_; ev_Format := Blank; ev_Analytics := ""; ev_BidID := bidid; ev_AccountID := accountId; ev_Bidder := bidder;
       ev_Timestamp := timestamp; ev_Integration := integration; ev_VType := ""; ev_Price := f0; ev_Adomain := ""; ev_ImpID := "";
       ev_Width := 0; ev_Height := 0; ev_PbsVersion := "" |}.
(** The index of an absent open tag is -1, as in the code. *)
Definition ModifyVastXmlString (externalUrl vast bidid bidder accountID : string) (timestamp : Z) (integrationType : string) : option string :=
  ci ← Index vast ImpressionCloseTag;
  let impressionUrl := "<![CDATA[" +:+ GetVastUrlTracking externalUrl bidid bidder accountID timestamp integrationType +:+ "]]>" in
  let oi := match Index vast ImpressionOpenTag with Some i => Z.of_nat i | None => -1 end in
  Some (if Z.of_nat ci - oi =? 12 then replaceFirst vast ImpressionOpenTag (ImpressionOpenTag +:+ impressionUrl)
        else replaceFirst vast ImpressionCloseTag (ImpressionCloseTag +:+ ImpressionOpenTag +:+ impressionUrl +:+ ImpressionCloseTag)).

(** *** /vtrack *)
Record Cacheable := { ca_Type : string; ca_Data : option string; ca_TTLSeconds : Z; ca_Key : string; ca_BidID : string; ca_Bidder : string; ca_Timestamp : Z }.
(** [decode_string] is [json.Unmarshal] into a string.  What comes back is the bare XML. *)
Definition ModifyVastXmlJSON (decode_string : string → option string) (externalUrl data bidid bidder accountId : string) (timestamp : Z) (integrationType : string) : string :=
  default data (ModifyVastXmlString externalUrl (default data (decode_string data)) bidid bidder accountId timestamp integrationType).
(** [infos] gives, for a core bidder with an entry, whether it is enabled and may be modified. *)
Definition isAllowVastForBidder (coreBidders : list string) (infos : gmap string (bool * bool)) (allowUnknownBidder : bool) (bidder : string) : bool :=
  match NormalizeBidderName coreBidders bidder with
  | Some n => match infos !! n with Some (enabled, allowed) => enabled && allowed | None => allowUnknownBidder end
  | None => allowUnknownBidder
  end.
Definition getBiddersAllowingVastUpdate coreBidders infos allowUnknownBidder (puts : list Cacheable) : gset string :=
  list_to_set (filter (λ b, isAllowVastForBidder coreBidders infos allowUnknownBidder b = true) (ca_Bidder <$> puts)).
(** What is handed to the cache client. *)
Definition cachePutObjects (decode_string : string → option string) (externalUrl : string) (allowed : gset string)
    (accountId integration : string) (puts : list Cacheable) : list Cacheable :=
  map (λ c, {| ca_Type := ca_Type c;
               ca_Data := (λ d, if bool_decide (ca_Bidder c ∈ allowed)
                                then ModifyVastXmlJSON decode_string externalUrl d (ca_BidID c) (ca_Bidder c) accountId (ca_Timestamp c) integration
                                else d) <$> ca_Data c;
               ca_TTLSeconds := ca_TTLSeconds c; ca_Key := ca_Key c; ca_BidID := ""; ca_Bidder := ""; ca_Timestamp := 0 |}) puts.
Definition ParseVTrackRequest (puts : list Cacheable) : option go_error :=
  head (omap (λ c, if ca_BidID c =s? "" then Some (BadInput "'bidid' is required field and can't be empty")
                   else if ca_Bidder c =s? "" then Some (BadInput "'bidder' is required field and can't be empty") else None) puts).
End Vast.

(** *** The body posted to the cache: prebid_cache_client/client.go *)
Definition dq : string := String "034" "".
Definition encodeValue (v : Cacheable) : string :=
  "{" +:+ dq +:+ "type" +:+ dq +:+ ":" +:+ dq +:+ ca_Type v +:+
  (if 0 <? ca_TTLSeconds v then dq +:+ "," +:+ dq +:+ "ttlseconds" +:+ dq +:+ ":" +:+ pretty (ca_TTLSeconds v) +:+ "," +:+ dq +:+ "value" +:+ dq +:+ ":"
   else dq +:+ "," +:+ dq +:+ "value" +:+ dq +:+ ":") +:+
  default "" (ca_Data v) +:+
  (if ca_Key v =s? "" then "" else "," +:+ dq +:+ "key" +:+ dq +:+ ":" +:+ dq +:+ ca_Key v +:+ dq) +:+
  (if ca_BidID v =s? "" then "" else "," +:+ dq +:+ "bidid" +:+ dq +:+ ":" +:+ dq +:+ ca_BidID v +:+ dq) +:+
  (if ca_Bidder v =s? "" then "" else "," +:+ dq +:+ "bidder" +:+ dq +:+ ":" +:+ dq +:+ ca_Bidder v +:+ dq) +:+
  (if 0 <? ca_Timestamp v then "," +:+ dq +:+ "timestamp" +:+ dq +:+ ":" +:+ pretty (ca_Timestamp v) else "") +:+ "}".
Definition encodeValues (vs : list Cacheable) : string :=
  "{" +:+ dq +:+ "puts" +:+ dq +:+ ":[" +:+ String.concat "," (encodeValue <$> vs) +:+ "]}".
Definition GetExtCacheData (scheme host path : string) : string * string * string :=
  (scheme, host, if path =s? "/" then "" else if (0 <? String.length path)%nat && negb (HasPrefix path "/") then "/" +:+ path else path).
(** The uuids of the cache's answer, put in place one by one; [None] is an index out of range. *)
Fixpoint place_uuids (i : nat) (answers : list (result string string)) (uuids : list string) (errs : list string) : option (list string * list string) :=
  match answers with
  | [] => Some (uuids, errs)
  | Err e :: rest => place_uuids (S i) rest uuids (errs ++ [e])
  | Ok u :: rest => if (i <? length uuids)%nat then place_uuids (S i) rest (<[i := u]> uuids) errs else None
  end.
Definition PutJson_answer (n : nat) (answers : list (result string string)) : option (list string * list string) :=
  place_uuids 0 answers (replicate n "") [].

(** ** Events of an auction: exchange/events.go *)
Record VASTEvent := { vx_CreateElement : string; vx_Type : string; vx_ExcludeDefaultURL : bool; vx_URLs : list string }.
Definition appendURLs (urls : list string) (v : VASTEvent) (defaultURL : string) : list string :=
  urls ++ vx_URLs v ++ (if vx_ExcludeDefaultURL v then [] else [defaultURL]).
(** The elements of the configuration that are taken over; "impression" is not among them. *)
Definition convert_step (defaultURL : string) (acc : VASTEvents) (v : VASTEvent) : VASTEvents :=
  let el := vx_CreateElement v in
  {| ve_Errors := if el =s? "error" then appendURLs (ve_Errors acc) v defaultURL else ve_Errors acc;
     ve_Impressions := ve_Impressions acc;
     ve_VideoClicks := if el =s? "clicktracking" then appendURLs (ve_VideoClicks acc) v defaultURL else ve_VideoClicks acc;
     ve_NonLinearClickTracking := if el =s? "nonlinearclicktracking" then appendURLs (ve_NonLinearClickTracking acc) v defaultURL else ve_NonLinearClickTracking acc;
     ve_CompanionClickThrough := if el =s? "companionclickthrough" then appendURLs (ve_CompanionClickThrough acc) v defaultURL else ve_CompanionClickThrough acc;
     ve_TrackingEvents := if el =s? "tracking"
       then <[vx_Type v := appendURLs (default [] (ve_TrackingEvents acc !! vx_Type v)) v defaultURL]> (ve_TrackingEvents acc) else ve_TrackingEvents acc |}.
Definition convertToVastEvent (events : list VASTEvent) (defaultURL : string) : VASTEvents :=
  foldl (convert_step defaultURL)
    {| ve_Errors := []; ve_Impressions := []; ve_VideoClicks := []; ve_NonLinearClickTracking := []; ve_CompanionClickThrough := []; ve_TrackingEvents := ∅ |} events.

Record eventTracking := {
  et_accountID : string;
  et_enabledForAccount : bool;
  et_enabledForRequest : bool;
  et_auctionTimestampMs : Z;
  et_integrationType : string;
  et_ModifyingVastXmlAllowed : gmap string bool;
  et_externalURL : string;
  et_events : VASTEvents;
  et_version : string
}.
(** XML as the injector sees it: the tokens of a document, whether it ends without an error, and
    the text of what was written. *)
Class XmlText := { xml_tokens : string → list token * bool; xml_print : list piece → string }.

Section Tracking.
Context `{FloatText} `{XmlText} `{MapRange} (ev : eventTracking).

Definition isEventAllowed : bool := et_enabledForAccount ev || et_enabledForRequest ev.
Definition isModifyingVASTXMLAllowed (bidderName : string) : bool :=
  default false (et_ModifyingVastXmlAllowed ev !! bidderName) && isEventAllowed.
Definition event_bid_id (p : PbsOrtbBid) (b : Bid) : string := if pb_GeneratedBidID p =s? "" then bid_ID b else pb_GeneratedBidID p.
Definition eventRequest (evType : string) (p : PbsOrtbBid) (b : Bid) (bidderName : string) : EventRequest :=
  {| ev_Type := evType; ev_Format := ""; ev_Analytics := ""; ev_BidID := event_bid_id p b; ev_AccountID := et_accountID ev; ev_Bidder := bidderName;
     ev_Timestamp := et_auctionTimestampMs ev; ev_Integration := et_integrationType ev; ev_VType := ""; ev_Price := bid_Price b;
     ev_Adomain := match bid_ADomain b with a :: _ => a | [] => "" end; ev_ImpID := bid_ImpID b; ev_Width := bid_W b; ev_Height := bid_H b;
     ev_PbsVersion := if et_version ev =s? "" then "unknown" else et_version ev |}.
Definition makeEventURL (evType : string) (p : PbsOrtbBid) (b : Bid) (bidderName : string) : string :=
  EventRequestToUrl (et_externalURL ev) (eventRequest evType p b bidderName).
(** [None] for the nil events; the outer option is the dereference of a nil bid. *)
Definition makeBidExtEvents (p : PbsOrtbBid) (bidderName : string) : option (option ExtBidPrebidEvents) :=
  if negb isEventAllowed || (pb_BidType p =s? BidTypeVideo) then Some None
  else b ← pb_Bid p; Some (Some {| be_Win := makeEventURL Win p b bidderName; be_Imp := makeEventURL Imp_ p b bidderName |}).

(** The markup with trackers; it stays as it is when injecting fails. *)
Definition injectTrackers (p : PbsOrtbBid) (b : Bid) (bidderName : string) (m : MacroProvider) : string :=
  let m := PopulateBidMacros p bidderName m in
  let '(tokens, complete) := xml_tokens (bid_AdM b) in
  match InjectTracker (et_events ev) m tokens (bid_AdM b =s? "") complete (bid_NURL b) with
  | Ok (inl out) => xml_print out
  | Ok (inr s) => s
  | Err _ => bid_AdM b
  end.
Definition modifyBidVAST (p : PbsOrtbBid) (bidderName : string) (m : MacroProvider) : option PbsOrtbBid :=
  if negb (pb_BidType p =s? BidTypeVideo) then Some p
  else
    b ← pb_Bid p;
    if (bid_AdM b =s? "") && (bid_NURL b =s? "") then Some p
    else
      let adm := injectTrackers p b bidderName m in
      Some (set_Bid (Some (set_bid_AdM (default adm (ModifyVastXmlString (et_externalURL ev) adm (event_bid_id p b) bidderName (et_accountID ev)
                                                       (et_auctionTimestampMs ev) (et_integrationType ev))) b)) p).

(** The macros of a bid are set before they are used, so the provider can be read as the request left
    it. *)
Definition event_bid (bidderName : string) (m : MacroProvider) (st : bid_store) (l : loc) : option bid_store :=
  p ← st !! l;
  p ← (if isModifyingVASTXMLAllowed bidderName then modifyBidVAST p bidderName m else Some p);
  events ← makeBidExtEvents p bidderName;
  Some (<[l := set_BidEvents events p]> st).
Fixpoint event_bids (bidderName : string) (m : MacroProvider) (bids : list loc) (st : bid_store) : option bid_store :=
  match bids with [] => Some st | l :: rest => st' ← event_bid bidderName m st l; event_bids bidderName m rest st' end.
Fixpoint event_seats (m : MacroProvider) (seats : list (string * PbsOrtbSeatBid)) (st : bid_store) : option bid_store :=
  match seats with
  | [] => Some st
  | (name, seat) :: rest => st' ← event_bids name m (seat_Bids seat) st; event_seats m rest st'
  end.
Definition modifyBidsForEvents (m : MacroProvider) (seatBids : gmap string PbsOrtbSeatBid) (st : bid_store) : option bid_store :=
  event_seats m (map_range seatBids) st.

(** [modifyBidJSON]: the URL patched in as [wurl], if any. *)
Definition bidJsonWurl (p : PbsOrtbBid) (bidderName : string) : option (option string) :=
  if negb isEventAllowed || (pb_BidType p =s? BidTypeVideo) then Some None
  else match pb_BidEvents p with
       | Some e => Some (Some (be_Win e))
       | None => b ← pb_Bid p; Some (Some (makeEventURL Win p b bidderName))
       end.
End Tracking.
