(* ===== verification/EventsSpec.v ===== *)
(** * What event URLs carry

    The URL of an event read by the endpoint, the effect of events on the bids of an auction, the
    account that is served, and where /vtrack and the cache client go wrong. *)
From S2P Require Import Prelude GoStrings GoFloat Order Bids ErrorTypes BidderCall VideoUrls RequestParts Macros Injector Events.

(** ** Numbers read back *)
Lemma digits_value_digit (n : N) acc s : (n < 10)%N → digits_value acc (String (pretty_N_char n) s) = digits_value (10 * acc + Z.of_N n) s.
Proof.
  intros Hn. assert (digit (pretty_N_char n) = Some (Z.of_N n)) as Hd.
  { destruct n as [|p]; [done|]. repeat (destruct p as [p|p|]; try done; try lia). }
  simpl. by rewrite Hd.
Qed.
Lemma digits_value_go (n : N) s : (0 < n)%N → digits_value 0 (pretty_N_go n s) = digits_value (Z.of_N n) s.
Proof.
  revert s. induction n as [n IH] using (well_founded_induction N.lt_wf_0). intros s Hn. rewrite pretty_N_go_step by done.
  assert (Z.of_N n = 10 * Z.of_N (n `div` 10) + Z.of_N (n `mod` 10)) as Hdm.
  { rewrite <- (N2Z.inj_mul 10), <- N2Z.inj_add. f_equal. apply N.div_mod. lia. }
  assert (n `mod` 10 < 10)%N as Hm by (apply N.mod_lt; lia).
  destruct (decide (n `div` 10 = 0)%N) as [E|E].
  - rewrite E, pretty_N_go_0, digits_value_digit by done. f_equal. rewrite Hdm, E. lia.
  - rewrite IH by (try apply N.div_lt; lia). rewrite digits_value_digit by done. f_equal. lia.
Qed.
Lemma pretty_pos z : 0 < z → pretty z = pretty_N_go (Z.to_N z) "".
Proof. intros Hz. destruct z as [|p|p]; try lia. done. Qed.
Lemma pretty_go_head n s a r : (0 < n)%N → pretty_N_go n s = String a r → is_Some (digit a).
Proof.
  revert s. induction n as [n IH] using (well_founded_induction N.lt_wf_0). intros s Hn. rewrite pretty_N_go_step by done.
  destruct (decide (n `div` 10 = 0)%N) as [E|E].
  2:{ assert (n `div` 10 < n)%N as Hlt by (apply N.div_lt; lia). assert (0 < n `div` 10)%N as Hpos by (by apply N.neq_0_lt_0). by apply IH. }
  rewrite E, pretty_N_go_0. intros [= <- _]. assert (n `mod` 10 < 10)%N as Hm by (apply N.mod_lt; lia).
  destruct (n `mod` 10)%N as [|p]; [by eexists|]. repeat (destruct p as [p|p|]; try (by eexists); try lia).
Qed.
Lemma pretty_go_nonempty n s : (0 < n)%N → pretty_N_go n s ≠ "".
Proof.
  revert s. induction n as [n IH] using (well_founded_induction N.lt_wf_0). intros s Hn. rewrite pretty_N_go_step by done.
  destruct (decide (n `div` 10 = 0)%N) as [E|E]; [by rewrite E, pretty_N_go_0|]. assert (n `div` 10 < n)%N as Hlt by (apply N.div_lt; lia). assert (0 < n `div` 10)%N as Hpos by (by apply N.neq_0_lt_0). by apply IH.
Qed.
Lemma Atoi_pretty z : 0 < z < two63 → Atoi (pretty z) = Some z ∧ pretty z ≠ "".
Proof.
  intros Hz. rewrite pretty_pos by lia. split; [|apply pretty_go_nonempty; lia].
  pose proof (digits_value_go (Z.to_N z) "" ltac:(lia)) as Hd. pose proof (pretty_go_nonempty (Z.to_N z) "" ltac:(lia)) as Hne.
  destruct (pretty_N_go (Z.to_N z) "") as [|a r] eqn:E; [done|]. destruct (pretty_go_head (Z.to_N z) "" a r ltac:(lia) E) as [d Hda].
  unfold Atoi. destruct (Ascii.eqb_spec a "-") as [->|]; [done|]. destruct (Ascii.eqb_spec a "+") as [->|]; [done|]. rewrite Hd. simpl.
  rewrite Z2N.id by lia. unfold two63 in *. rewrite (proj2 (Z.leb_le _ _)), (proj2 (Z.ltb_lt _ _)) by lia. done.
Qed.

(** ** The query of an event *)
(** Text that needs no escaping. *)
Fixpoint url_plain (s : string) : bool := match s with EmptyString => true | String a r => unreserved a && url_plain r end.
Lemma plain_escape s : url_plain s = true → QueryEscape s = s.
Proof.
  induction s as [|a s IH]; simpl; [done|]. intros [Ha Hs]%andb_true_iff. rewrite (IH Hs). unfold escapeByte. rewrite Ha. done.
Qed.
Lemma plain_setting k v : url_plain k = true → url_plain v = true → parseSetting (k +:+ "=" +:+ v) = [(k, v)].
Proof. intros Hk Hv. rewrite <- (plain_escape k Hk), <- (plain_escape v Hv) at 1. apply parseSetting_encoded. Qed.
Lemma plain_no_amp s : url_plain s = true → has_char "&" s = false.
Proof. intros Hs. rewrite <- (plain_escape s Hs). by destruct (escape_no_special s). Qed.

Lemma ParseQuery_cons s t : has_char "&" s = false → ParseQuery (s +:+ "&" +:+ t) = parseSetting s ++ ParseQuery t.
Proof. intros Hs. unfold ParseQuery. change ("&" +:+ t) with (String "&" t). by rewrite SplitChar_app. Qed.
Lemma ParseQuery_one s : has_char "&" s = false → ParseQuery s = parseSetting s.
Proof. intros Hs. unfold ParseQuery. rewrite SplitChar_none by done. simpl. by rewrite app_nil_r. Qed.

Section Query.
Context `{FloatText}.
Lemma eventQuery_parse r :
  url_plain (ev_Type r) = true → url_plain (ev_BidID r) = true → url_plain (ev_AccountID r) = true →
  ParseQuery (eventQuery r) = [("t", ev_Type r); ("b", ev_BidID r); ("a", ev_AccountID r)] ++ ParseQuery (Encode (optionalValues r)).
Proof.
  intros Ht Hb Ha. unfold eventQuery.
  assert (∀ k v, url_plain k = true → url_plain v = true → has_char "&" (k +:+ "=" +:+ v) = false) as Hamp.
  { intros k v Hk Hv. rewrite !has_char_app, (plain_no_amp k Hk), (plain_no_amp v Hv). done. }
  replace ("t=" +:+ ev_Type r +:+ "&b=" +:+ ev_BidID r +:+ "&a=" +:+ ev_AccountID r +:+ optionalParameters r)
    with (("t" +:+ "=" +:+ ev_Type r) +:+ "&" +:+ ("b" +:+ "=" +:+ ev_BidID r) +:+ "&" +:+ ("a" +:+ "=" +:+ ev_AccountID r) +:+ optionalParameters r).
  2:{ rewrite !str_app_assoc. repeat (rewrite ?str_app_cons, ?str_app_nil_l). done. }
  rewrite ParseQuery_cons by (by apply Hamp). rewrite ParseQuery_cons by (by apply Hamp). rewrite !plain_setting by done.
  unfold optionalParameters. destruct (String.eqb_spec (Encode (optionalValues r)) "") as [E|E].
  - rewrite E, str_app_nil_r, ParseQuery_one by (by apply Hamp). by rewrite plain_setting.
  - rewrite ParseQuery_cons by (by apply Hamp). by rewrite plain_setting.
Qed.
Lemma Get_prefix k q t b a : k ≠ "t" → k ≠ "b" → k ≠ "a" → Get ([("t", t); ("b", b); ("a", a)] ++ q) k = Get q k.
Proof. intros. cbn [app Get]. by rewrite (proj2 (String.eqb_neq "t" k)), (proj2 (String.eqb_neq "b" k)), (proj2 (String.eqb_neq "a" k)) by congruence. Qed.

(** The optional parameters one by one. *)
Lemma optional_lookup r :
  let v := optionalValues r in
  v !! "ts" = (if 0 <? ev_Timestamp r then Some (pretty (ev_Timestamp r)) else None) ∧
  v !! "bidder" = (if ev_Bidder r ≠s? "" then Some (ev_Bidder r) else None) ∧
  v !! "f" = (if (ev_Format r =s? Blank) || (ev_Format r =s? Image) then Some (ev_Format r) else None) ∧
  v !! "x" = (if (ev_Analytics r =s? Enabled) || (ev_Analytics r =s? Disabled) then Some (ev_Analytics r) else None) ∧
  v !! "int" = (if ev_Integration r ≠s? "" then Some (ev_Integration r) else None) ∧
  v !! "price" = (if f0 <f? ev_Price r then Some (shortest (ev_Price r)) else None) ∧
  v !! "adomain" = (if ev_Adomain r ≠s? "" then Some (ev_Adomain r) else None) ∧
  v !! "impid" = (if ev_ImpID r ≠s? "" then Some (ev_ImpID r) else None) ∧
  v !! "w" = (if 0 <? ev_Width r then Some (pretty (ev_Width r)) else None) ∧
  v !! "h" = (if 0 <? ev_Height r then Some (pretty (ev_Height r)) else None) ∧
  v !! "pbs_version" = (if ev_PbsVersion r ≠s? "" then Some (ev_PbsVersion r) else None) ∧
  v !! "vtype" = None.
Proof.
  unfold optionalValues.
  assert (∀ (b : bool) k x (m : Values) j, (if b then <[k := x]> m else m) !! j = if b && (k =s? j) then Some x else m !! j) as Hadd.
  { intros [] k x m j; simpl; [|done]. unfold Values in *. destruct (String.eqb_spec k j) as [->|]; [apply lookup_insert_eq|by apply lookup_insert_ne]. }
  assert (∀ j, (∅ : Values) !! j = None) as Hemp by (intros j; unfold Values; apply lookup_empty).
  rewrite !Hadd, !Hemp. simpl. rewrite !andb_false_r, !andb_true_r. split_and!; try done; by case_match.
Qed.
End Query.

(** An event that says what it has to: a type, ids that need no escaping, an integration the endpoint
    accepts, numbers in range. *)
Record sendable (coreBidders : list string) (r : EventRequest) : Prop := {
  sn_type : ev_Type r = Win ∨ ev_Type r = Imp_;
  sn_bid : ev_BidID r ≠ "" ∧ url_plain (ev_BidID r) = true;
  sn_account : ev_AccountID r ≠ "" ∧ url_plain (ev_AccountID r) = true;
  sn_format : ev_Format r = "" ∨ ev_Format r = Blank ∨ ev_Format r = Image;
  sn_analytics : ev_Analytics r = "";
  sn_bidder : default (ev_Bidder r) (NormalizeBidderName coreBidders (ev_Bidder r)) = ev_Bidder r;
  sn_integration : validateIntegrationType (ev_Integration r) = None;
  sn_vtype : ev_VType r = "";
  sn_price : is_nan (ev_Price r) = false ∧ (fltb f0 (ev_Price r) = true ∨ ev_Price r = f0);
  sn_numbers : 0 ≤ ev_Timestamp r < two63 ∧ 0 ≤ ev_Width r < two63 ∧ 0 ≤ ev_Height r < two63
}.
Definition with_analytics (r : EventRequest) : EventRequest :=
  {| ev_Type := ev_Type r; ev_Format := ev_Format r; ev_Analytics := Enabled; ev_BidID := ev_BidID r; ev_AccountID := ev_AccountID r;
     ev_Bidder := ev_Bidder r; ev_Timestamp := ev_Timestamp r; ev_Integration := ev_Integration r; ev_VType := ev_VType r; ev_Price := ev_Price r;
     ev_Adomain := ev_Adomain r; ev_ImpID := ev_ImpID r; ev_Width := ev_Width r; ev_Height := ev_Height r; ev_PbsVersion := ev_PbsVersion r |}.

Section RoundTrip.
Context `{FloatText}.
Lemma opt_string (s : string) : default "" (if s ≠s? "" then Some s else None) = s.
Proof. by destruct (String.eqb_spec s "") as [->|]. Qed.
Lemma opt_number z : 0 ≤ z < two63 →
  (if default "" (if 0 <? z then Some (pretty z) else None) =s? "" then 0
   else default 0 (Atoi (default "" (if 0 <? z then Some (pretty z) else None)))) = z.
Proof.
  intros Hz. destruct (Z.ltb_spec 0 z) as [Hp|Hp]; simpl; [|lia]. destruct (Atoi_pretty z) as [E1 E2]; [lia|].
  rewrite (proj2 (String.eqb_neq _ _) E2), E1. done.
Qed.

Lemma event_parses coreBidders r : sendable coreBidders r →
  ParseEventRequest coreBidders (ParseQuery (eventQuery r)) = (set_AccountID "" (with_analytics r), []) ∧
  Get (ParseQuery (eventQuery r)) "a" = ev_AccountID r.
Proof.
  intros [Ht [Hb Hbp] [Ha Hap] Hf Han Hbi Hint Hvt [Hnan Hp] (Hts & Hw & Hh)].
  assert (url_plain (ev_Type r) = true) as Htp by (by destruct Ht as [->| ->]).
  pose proof (eventQuery_parse r Htp Hbp Hap) as Hq. rewrite Hq. set (o := ParseQuery (Encode (optionalValues r))).
  split; [|cbn [app Get]; reflexivity].
  assert (∀ k, k ≠ "t" → k ≠ "b" → k ≠ "a" → Get ([("t", ev_Type r); ("b", ev_BidID r); ("a", ev_AccountID r)] ++ o) k = default "" (optionalValues r !! k)) as Hg.
  { intros k H1 H2 H3. rewrite Get_prefix by done. apply query_round_trip. }
  destruct (optional_lookup r) as (L1 & L2 & L3 & L4 & L5 & L6 & L7 & L8 & L9 & L10 & L11 & L12).
  set (q := [("t", ev_Type r); ("b", ev_BidID r); ("a", ev_AccountID r)] ++ o) in *.
  assert (readType q = Ok (ev_Type r)) as R1.
  { unfold readType, required. change (Get q "t") with (ev_Type r). by destruct Ht as [->| ->]. }
  assert ((ev_Type r =s? VastType) = false) as Hnv by (by destruct Ht as [->| ->]).
  assert (required q "b" = Ok (ev_BidID r)) as R2.
  { unfold required. change (Get q "b") with (ev_BidID r). by rewrite (proj2 (String.eqb_neq _ _) Hb). }
  assert (readTimestamp q = Ok (ev_Timestamp r)) as R3.
  { unfold readTimestamp. rewrite (Hg "ts"), L1 by done. destruct (Z.ltb_spec 0 (ev_Timestamp r)) as [Hpos|?]; cbn; [|f_equal; lia].
    destruct (Atoi_pretty (ev_Timestamp r)) as [E1 E2]; [lia|]. by rewrite (proj2 (String.eqb_neq _ _) E2), E1. }
  assert (readFormat q = Ok (ev_Format r)) as R4.
  { unfold readFormat. rewrite (Hg "f"), L3 by done. by destruct Hf as [->|[->| ->]]. }
  assert (readAnalytics q = Ok Enabled) as R5.
  { unfold readAnalytics. by rewrite (Hg "x"), L4, Han by done. }
  assert (readIntegrationType q = Ok (ev_Integration r)) as R6.
  { unfold readIntegrationType. by rewrite (Hg "int"), L5, opt_string, Hint by done. }
  unfold ParseEventRequest. rewrite R1, R2, R3, R4, R5, R6. cbn [ok_or err_of app]. rewrite Hnv.
  rewrite (Hg "vtype"), (Hg "bidder"), (Hg "price"), (Hg "adomain"), (Hg "impid"), (Hg "w"), (Hg "h"), (Hg "pbs_version"), L2, L6, L7, L8, L9, L10, L11, L12 by done.
  rewrite !opt_string, Hbi, (opt_number _ Hw), (opt_number _ Hh). unfold set_AccountID, with_analytics. cbn. rewrite Hvt. do 2 f_equal.
  destruct Hp as [Hp|Hp]; rewrite Hp; [|done]. cbn. rewrite (proj2 (String.eqb_neq _ _) (shortest_nonempty _)), parse_shortest by done. done.
Qed.

End RoundTrip.

(** ** Examples *)
(** A text for positive numbers that can be read back. *)
Fixpoint bits (p : positive) : string := match p with xH => "" | xO p => String "0" (bits p) | xI p => String "1" (bits p) end.
Fixpoint unbits (s : string) : positive := match s with EmptyString => xH | String a r => if Ascii.eqb a "0" then xO (unbits r) else xI (unbits r) end.
Lemma unbits_bits p : unbits (bits p) = p.
Proof. induction p as [p IH|p IH|]; simpl; by rewrite ?IH. Qed.
#[refine] Definition demoFloatText : FloatText := {|
  shortest := λ x, match x with S754_finite false m e => String "f" (bits (encode (m, e))) | _ => "i" end;
  parse_float := λ s, match s with
                      | String a r => if Ascii.eqb a "f" then '(m, e) ← (decode (unbits r) : option (positive * Z)); Some (S754_finite false m e) else Some (S754_infinity false)
                      | EmptyString => None
                      end |}.
Proof.
  - intros x. by destruct x as [| | |[]].
  - intros x Hn Hp. destruct x as [[]|[]| |[] m e]; try done. cbn [Ascii.eqb]. simpl. by rewrite unbits_bits, decode_encode.
Defined.

Definition demo_event (bidID : string) : EventRequest :=
  {| ev_Type := Imp_; ev_Format := Image; ev_Analytics := ""; ev_BidID := bidID; ev_AccountID := "acct"; ev_Bidder := "rubicon"; ev_Timestamp := 1700000000000;
     ev_Integration := "dm"; ev_VType := ""; ev_Price := fofZ 2; ev_Adomain := "a b.com"; ev_ImpID := "imp&1"; ev_Width := 300; ev_Height := 0; ev_PbsVersion := "v4" |}.
Definition demo_lookup (account : string) : result (list (go_error * bool)) bool := if account =s? "acct" then Ok true else Err [].


(** The bid id is not escaped: a bidder that chooses its bid id well has its events counted for another
    account. *)
Theorem bid_id_redirects_event :
  let q := ParseQuery (eventQuery (H := demoFloatText) (demo_event "1&a=other")) in
  option_map ev_AccountID (eventHandle (H := demoFloatText) ["rubicon"] (λ _, Ok true) q).2 = Some "other" ∧
  option_map ev_BidID (eventHandle (H := demoFloatText) ["rubicon"] (λ _, Ok true) q).2 = Some "1".
Proof. split; vm_compute; reflexivity. Qed.

(** ** Accounts *)
(** An account that is served is enabled, has its id and address masks in range; a fetch that failed
    is not reported unless accounts are required and disabled by default. *)
Theorem served_account_usable accountRequired defaults fetch accountID a :
  GetAccount accountRequired defaults fetch accountID = Ok a →
  acc_Disabled a = false ∧ 0 ≤ acc_v4Bits a ≤ 32 ∧ 0 ≤ acc_v6Bits a ≤ 128 ∧ (accountID ≠ "" → acc_ID a ≠ "") ∧
  ¬ (accountRequired = true ∧ accountID = "unknown").
Proof.
  unfold GetAccount. destruct (accountRequired && (accountID =s? "unknown")) eqn:Er; [done|].
  assert (¬ (accountRequired = true ∧ accountID = "unknown")) as Hnr by (by intros [-> ->]).
  assert (∀ x, acc_Disabled x = false → (accountID ≠ "" → acc_ID x ≠ "") →
    acc_Disabled (fix_masks x) = false ∧ 0 ≤ acc_v4Bits (fix_masks x) ≤ 32 ∧ 0 ≤ acc_v6Bits (fix_masks x) ≤ 128 ∧ (accountID ≠ "" → acc_ID (fix_masks x) ≠ "") ∧
    ¬ (accountRequired = true ∧ accountID = "unknown")) as Hfix.
  { intros x Hd Hi. split; [done|]. unfold fix_masks. cbn. split_and!; try done;
      repeat match goal with |- context [(?a <? ?b) || (?c <? ?d)] => destruct (Z.ltb_spec a b); destruct (Z.ltb_spec c d) end; cbn; lia. }
  destruct (fetch accountID) as [errs|[[x|]|]]; cbn.
  - destruct (accountRequired && acc_Disabled defaults); [done|]. cbn. destruct (acc_Disabled defaults) eqn:Ed; [done|]. intros [= <-]. by apply Hfix.
  - destruct (acc_Disabled (if acc_ID x =s? "" then set_acc_ID accountID x else x)) eqn:Ed; [done|]. intros [= <-]. apply Hfix; [done|].
    by destruct (String.eqb_spec (acc_ID x) "").
  - done.
  - destruct (accountRequired && acc_Disabled defaults); [done|]. cbn. destruct (acc_Disabled defaults) eqn:Ed; [done|]. intros [= <-]. by apply Hfix.
Qed.
Definition demo_defaults : Account := {| acc_ID := ""; acc_Disabled := false; acc_EventsEnabled := false; acc_v4Bits := 99; acc_v6Bits := 56; acc_rest := "" |}.
(** The backend timed out, and the default account is served without a word. *)
Lemma served_account_usable_witness :
  ∃ a, GetAccount true demo_defaults (λ _, inl [(Timeout "backend", false)]) "pub" = Ok a ∧ acc_ID a = "pub" ∧ acc_v4Bits a = 24 ∧ acc_Disabled a = false.
Proof.
  eexists. split; [reflexivity|]. split; [reflexivity|]. split; [reflexivity|].
  apply (proj1 (served_account_usable true demo_defaults (λ _, inl [(Timeout "backend", false)]) "pub" _ eq_refl)).
Defined.

(** ** /vtrack and the cache *)
Definition strip_quotes (s : string) : option string :=
  match s with String a r => if Ascii.eqb a "034" then Some (str_take (String.length r - 1) r) else None | EmptyString => None end.
(** The VAST of a put is a JSON string; once a pixel is added it is sent to the cache as bare XML, and
    the posted body is not JSON. *)
Theorem vtrack_posts_bare_xml :
  let put := {| ca_Type := "xml"; ca_Data := Some (dq +:+ "<VAST><Impression></Impression></VAST>" +:+ dq); ca_TTLSeconds := 0; ca_Key := "";
                ca_BidID := "b"; ca_Bidder := "rubicon"; ca_Timestamp := 0 |} in
  encodeValues (cachePutObjects (H := demoFloatText) strip_quotes "https://pbs" {[ "rubicon" ]} "acct" "" [put]) =
  "{" +:+ dq +:+ "puts" +:+ dq +:+ ":[{" +:+ dq +:+ "type" +:+ dq +:+ ":" +:+ dq +:+ "xml" +:+ dq +:+ "," +:+ dq +:+ "value" +:+ dq +:+
    ":<VAST><Impression><![CDATA[https://pbs/event?t=imp&b=b&a=acct&bidder=rubicon&f=b]]></Impression></VAST>}]}".
Proof. vm_compute. reflexivity. Qed.
(** More answers than values make the cache client panic. *)
Theorem extra_cache_answer_panics n : PutJson_answer n (replicate (S n) (Ok "u")) = None.
Proof.
  unfold PutJson_answer.
  assert (∀ k i uuids errs, length uuids = n → (i + k = S n)%nat → (i ≤ n)%nat → place_uuids i (replicate k (Ok "u")) uuids errs = None) as Hgo.
  { induction k as [|k IH]; intros i uuids errs Hl Hk Hi; [lia|]. cbn [replicate place_uuids]. destruct (Nat.ltb_spec i (length uuids)); [|done].
    apply IH; rewrite ?length_insert; lia. }
  apply Hgo; [by rewrite length_replicate|lia|lia].
Qed.
(** Impression events of the configuration are never injected. *)
Theorem impression_events_ignored events url : ve_Impressions (convertToVastEvent events url) = [].
Proof.
  unfold convertToVastEvent. set (init := {| ve_Errors := []; ve_Impressions := [] |}).
  assert (ve_Impressions init = []) as Hi by done. revert Hi. generalize init. induction events as [|v events IH]; intros acc Hi; [done|]. by apply IH.
Qed.
