(* ===== verification/Cache.v ===== *)
(** * Rounded prices, and storing bids in the cache: src/exchange/auction.go

    [setRoundedPrices], [doCache] and the debug log.  The bids to store are collected in one list with
    the position of each, and the ids the cache answers are given back to the bids by position.  JSON
    encoding, the cache service and the generation of ids are arguments. *)
From S2P Require Import Prelude GoStrings GoFloat Bids ErrorTypes Auction Targeting Events.

Definition TypeJSON := "json".
Definition TypeXML := "xml".

(** [json.Marshal] of a bid and of a text, and [jsonpatch.MergePatch] with the attribute [wurl]. *)
Class CacheJson := {
  cj_bid : Bid → result go_error string;
  cj_text : string → result go_error string;
  cj_wurl : string → string → result go_error string
}.

Definition set_roundedPrices (m : gmap nat string) (a : auction) : auction :=
  {| winningBids := winningBids a; allBidsByBidder := allBidsByBidder a; roundedPrices := m; cacheIds := cacheIds a;
     vastCacheIds := vastCacheIds a; auc_seatWeights := auc_seatWeights a; auc_seatLatency := auc_seatLatency a |}.
Definition set_cacheIds (ids vast : gmap nat string) (a : auction) : auction :=
  {| winningBids := winningBids a; allBidsByBidder := allBidsByBidder a; roundedPrices := roundedPrices a; cacheIds := ids;
     vastCacheIds := vast; auc_seatWeights := auc_seatWeights a; auc_seatLatency := auc_seatLatency a |}.

(** The bids of an auction with their impression and bidder, in the order of the nested loops. *)
Definition top_bids `{MapRange} (a : auction) : list (string * string * loc) :=
  concat (map (λ '(imp, m), concat (map (λ '(bidder, ls), (λ l, (imp, bidder, l)) <$> ls) (map_range m))) (map_range (allBidsByBidder a))).

(** ** Rounded prices *)
(** [bucket] is [GetPriceBucket] with the request's granularity; [None] is a panic. *)
Fixpoint round_prices (st : bid_store) (bucket : Bid → loc → option string) (bids : list (string * string * loc)) (m : gmap nat string)
    : option (gmap nat string) :=
  match bids with
  | [] => Some m
  | (_, _, l) :: rest => b ← bid_of st l; s ← bucket b l; round_prices st bucket rest (<[l := s]> m)
  end.
Definition setRoundedPrices `{MapRange} (st : bid_store) (bucket : Bid → loc → option string) (a : auction) : option auction :=
  m ← round_prices st bucket (top_bids a) ∅; Some (set_roundedPrices m a).

(** ** The debug log *)
Record DebugLog := {
  dl_Enabled : bool; dl_CacheType : string; dl_Request : string; dl_Headers : string; dl_Response : string; dl_TTL : Z;
  dl_CacheKey : string; dl_CacheString : string; dl_DebugOverride : bool; dl_DebugEnabledOrOverridden : bool
}.
Definition set_dl_Response (s : string) (d : DebugLog) : DebugLog :=
  {| dl_Enabled := dl_Enabled d; dl_CacheType := dl_CacheType d; dl_Request := dl_Request d; dl_Headers := dl_Headers d; dl_Response := s;
     dl_TTL := dl_TTL d; dl_CacheKey := dl_CacheKey d; dl_CacheString := dl_CacheString d; dl_DebugOverride := dl_DebugOverride d;
     dl_DebugEnabledOrOverridden := dl_DebugEnabledOrOverridden d |}.
Definition set_dl_CacheKey (k : string) (d : DebugLog) : DebugLog :=
  {| dl_Enabled := dl_Enabled d; dl_CacheType := dl_CacheType d; dl_Request := dl_Request d; dl_Headers := dl_Headers d;
     dl_Response := dl_Response d; dl_TTL := dl_TTL d; dl_CacheKey := k; dl_CacheString := dl_CacheString d;
     dl_DebugOverride := dl_DebugOverride d; dl_DebugEnabledOrOverridden := dl_DebugEnabledOrOverridden d |}.
(** [xml.Header] *)
Definition xml_Header : string := "<?xml version=" +:+ dq +:+ "1.0" +:+ dq +:+ " encoding=" +:+ dq +:+ "UTF-8" +:+ dq +:+ "?>" +:+ String "010" "".
(** [strip] is the configured pattern's [ReplaceAllString(s, "")], the identity without one. *)
Definition BuildCacheString (strip : string → string) (d : DebugLog) : DebugLog :=
  let req := "<Request>" +:+ strip (dl_Request d) +:+ "</Request>" in
  let hdr := "<Headers>" +:+ strip (dl_Headers d) +:+ "</Headers>" in
  let rsp := "<Response>" +:+ strip (dl_Response d) +:+ "</Response>" in
  {| dl_Enabled := dl_Enabled d; dl_CacheType := dl_CacheType d; dl_Request := req; dl_Headers := hdr; dl_Response := rsp; dl_TTL := dl_TTL d;
     dl_CacheKey := dl_CacheKey d; dl_CacheString := xml_Header +:+ "<Log>" +:+ req +:+ hdr +:+ rsp +:+ "</Log>";
     dl_DebugOverride := dl_DebugOverride d; dl_DebugEnabledOrOverridden := dl_DebugEnabledOrOverridden d |}.
Definition IsDebugOverrideEnabled (debugHeader configOverrideToken : string) : bool :=
  negb (configOverrideToken =s? "") && (debugHeader =s? configOverrideToken).

Definition cacheable (type data : string) (ttl : Z) (key : string) : Cacheable :=
  {| ca_Type := type; ca_Data := Some data; ca_TTLSeconds := ttl; ca_Key := key; ca_BidID := ""; ca_Bidder := ""; ca_Timestamp := 0 |}.
Definition log_entry `{CacheJson} (d : DebugLog) : result go_error Cacheable :=
  let? json := cj_text (dl_CacheString d) in Ok (cacheable (dl_CacheType d) json (dl_TTL d) ("log_" +:+ dl_CacheKey d)).

(** The log with an error, and what is put in the cache, if anything: [hasCache] is whether there is a
    client, [newUuid] the id drawn. *)
Definition PutDebugLogError `{CacheJson} (strip : string → string) (hasCache : bool) (newUuid : result go_error string) (errors : list go_error)
    (d : DebugLog) : result go_error (DebugLog * list Cacheable) :=
  let d := if (String.length (dl_Response d) =? 0)%nat && (length errors =? 0)%nat then set_dl_Response "No response or errors created" d else d in
  let d := match errors with
           | [] => d
           | _ => set_dl_Response (dl_Response d +:+ String "010" ("Errors:" +:+ String "010" "") +:+ String.concat (String "010" "") (message <$> errors)) d
           end in
  let d := BuildCacheString strip d in
  let? d := (if (String.length (dl_CacheKey d) =? 0)%nat then let? u := newUuid in Ok (set_dl_CacheKey u d) else Ok d) in
  let? e := log_entry d in
  Ok (d, if hasCache then [e] else []).

(** ** [doCache] *)
Record cacheState := {
  cs_toCache : list Cacheable;
  cs_bidIndices : list (nat * loc);
  cs_vastIndices : list (nat * loc);
  cs_errs : list go_error
}.
Definition cs_error (e : go_error) (s : cacheState) : cacheState :=
  {| cs_toCache := cs_toCache s; cs_bidIndices := cs_bidIndices s; cs_vastIndices := cs_vastIndices s; cs_errs := cs_errs s ++ [e] |}.

Section DoCache.
Context `{CacheJson} `{MapRange}.
Context (st : bid_store) (targData : targetData) (wurl : PbsOrtbBid → string → option (option string)) (expByImp : gmap string Z)
        (ttlBuffer : Z) (defaultTTLs : DefaultTTLs) (bidCategory : gmap string string) (hbCacheID : option string).
Context (winners : gmap string loc).

Definition is_winner (imp : string) (l : loc) : bool := bool_decide (winners !! imp = Some l).
Definition cacheID : string := default "" hbCacheID.
Definition competitiveExclusion : bool := negb (bool_decide (bidCategory = ∅)) && bool_decide (is_Some hbCacheID).
(** The custom key of a bid, [None] when it has none. *)
Definition custom_key (imp : string) (l : loc) (b : Bid) : option string :=
  if (competitiveExclusion && is_winner imp l) || includeBidderKeys targData then
    let catDur := default "" (bidCategory !! bid_ID b) in
    if (0 <? String.length catDur)%nat then Some (catDur +:+ "_" +:+ cacheID) else None
  else None.
Definition bid_ttl (imp : string) (p : PbsOrtbBid) (b : Bid) : Z :=
  cacheTTL (default 0 (expByImp !! imp)) (bid_Exp b) (defTTL (pb_BidType p) defaultTTLs) ttlBuffer.
(** The JSON of a bid with the win URL, and the error of adding it. *)
Definition bid_json (bidder : string) (p : PbsOrtbBid) (json : string) : option (string * list go_error) :=
  url ← wurl p bidder;
  Some (match url with
        | None => (json, [])
        | Some u => match cj_wurl json u with Ok j => (j, []) | Err e => (json, [e]) end
        end).
Definition put_bid (imp bidder : string) (l : loc) (p : PbsOrtbBid) (b : Bid) (s : cacheState) : option cacheState :=
  match cj_bid b with
  | Err e => Some (cs_error e s)
  | Ok json =>
      '(json, errs) ← bid_json bidder p json;
      let errs := errs ++ match custom_key imp l b with Some _ => [PlainError "cannot use custom cache key for non-vast bids"] | None => [] end in
      Some {| cs_toCache := cs_toCache s ++ [cacheable TypeJSON json (bid_ttl imp p b) ""];
              cs_bidIndices := cs_bidIndices s ++ [(length (cs_toCache s), l)]; cs_vastIndices := cs_vastIndices s; cs_errs := cs_errs s ++ errs |}
  end.
Definition put_vast (imp : string) (l : loc) (p : PbsOrtbBid) (b : Bid) (s : cacheState) : cacheState :=
  match cj_text (makeVAST b) with
  | Err e => cs_error e s
  | Ok json => {| cs_toCache := cs_toCache s ++ [cacheable TypeXML json (bid_ttl imp p b) (default "" (custom_key imp l b))];
                  cs_bidIndices := cs_bidIndices s; cs_vastIndices := cs_vastIndices s ++ [(length (cs_toCache s), l)]; cs_errs := cs_errs s |}
  end.
(** The body of the innermost loop; [None] is a nil dereference. *)
Definition cache_bid (s : cacheState) (x : string * string * loc) : option cacheState :=
  let '(imp, bidder, l) := x in
  if negb (includeBidderKeys targData) && negb (is_winner imp l) then Some s
  else
    p ← st !! l;
    let video := includeCacheVast targData && (pb_BidType p =s? BidTypeVideo) in
    if negb (includeCacheBids targData) && negb video && negb (competitiveExclusion || includeBidderKeys targData) then Some s
    else
      b ← pb_Bid p;
      s ← (if includeCacheBids targData then put_bid imp bidder l p b s else Some s);
      Some (if video then put_vast imp l p b s else s).
Fixpoint cache_bids (xs : list (string * string * loc)) (s : cacheState) : option cacheState :=
  match xs with [] => Some s | x :: rest => s' ← cache_bid s x; cache_bids rest s' end.

(** The ids of the bids at these positions; an index out of range panics. *)
Fixpoint place_ids (short : string → string) (ids : list string) (indices : list (nat * loc)) (m : gmap nat string) : option (gmap nat string) :=
  match indices with
  | [] => Some m
  | (i, l) :: rest => id ← ids !! i; place_ids short ids rest (if id =s? "" then m else <[l := short id]> m)
  end.
(** The key's label is left out of the id of a custom key. *)
Definition short_id (id : string) : string := if competitiveExclusion && HasSuffix id cacheID then cacheID else id.
End DoCache.

(** The auction with its ids, the errors, the debug log, and what was sent.  [PutJson] is the cache;
    [newUuid] the id drawn for the custom keys, [None] when that fails. *)
Definition doCache `{CacheJson} `{MapRange} (st : bid_store) (targData : targetData) (wurl : PbsOrtbBid → string → option (option string))
    (imps : list (string * Z)) (ttlBuffer : Z) (defaultTTLs : DefaultTTLs) (bidCategory : gmap string string) (newUuid : option string)
    (strip : string → string) (PutJson : list Cacheable → list string * list go_error) (debugLog : option DebugLog) (a : auction)
    : option (auction * list go_error * option DebugLog * list Cacheable) :=
  if negb ((includeCacheBids targData || includeCacheVast targData) && (includeBidderKeys targData || includeWinners targData))
  then Some (a, [], debugLog, [])
  else
    let hbCacheID := if bool_decide (bidCategory = ∅) then None else newUuid in
    let errs0 := if negb (bool_decide (bidCategory = ∅)) && bool_decide (newUuid = None) then [PlainError "failed to create custom cache key"] else [] in
    let expByImp := foldl (λ m '(id, e), <[id := e]> m) ∅ imps in
    s ← cache_bids st targData wurl expByImp ttlBuffer defaultTTLs bidCategory hbCacheID (winningBids a) (top_bids a)
          {| cs_toCache := []; cs_bidIndices := []; cs_vastIndices := []; cs_errs := errs0 |};
    let '(toCache, log) :=
      match debugLog with
      | Some d =>
          if (0 <? length (cs_toCache s))%nat && dl_DebugEnabledOrOverridden d then
            let d := BuildCacheString strip (set_dl_CacheKey (default "" hbCacheID) d) in
            (cs_toCache s ++ match log_entry d with Ok e => [e] | Err _ => [] end, Some d)
          else (cs_toCache s, debugLog)
      | None => (cs_toCache s, debugLog)
      end in
    let '(ids, putErrs) := match toCache with [] => ([], []) | _ => PutJson toCache end in
    cIds ← (if includeCacheBids targData then place_ids id ids (cs_bidIndices s) ∅ else Some (cacheIds a));
    vIds ← (if includeCacheVast targData then place_ids (short_id bidCategory hbCacheID) ids (cs_vastIndices s) ∅ else Some (vastCacheIds a));
    Some (set_cacheIds cIds vIds a, cs_errs s ++ putErrs, log, toCache).

(** ** Lemmas *)
Section CacheLemmas.
Context `{CacheJson} `{MapRange}.
Context (st : bid_store) (targData : targetData) (wurl : PbsOrtbBid → string → option (option string)) (expByImp : gmap string Z)
        (ttlBuffer : Z) (defaultTTLs : DefaultTTLs) (bidCategory : gmap string string) (hbCacheID : option string)
        (winners : gmap string loc).

(** Is a bid stored at all, and what is stored for it as JSON and as VAST? *)
Definition stored (imp : string) (l : loc) : bool := includeBidderKeys targData || is_winner winners imp l.
Definition json_entry (x : string * string * loc) : option Cacheable :=
  let '(imp, bidder, l) := x in
  if includeCacheBids targData && stored imp l then
    p ← st !! l; b ← pb_Bid p;
    match cj_bid b with
    | Err _ => None
    | Ok json => '(json, _) ← bid_json wurl bidder p json; Some (cacheable TypeJSON json (bid_ttl expByImp ttlBuffer defaultTTLs imp p b) "")
    end
  else None.
Definition vast_entry (x : string * string * loc) : option Cacheable :=
  let '(imp, bidder, l) := x in
  if includeCacheVast targData && stored imp l then
    p ← st !! l; b ← pb_Bid p;
    if pb_BidType p =s? BidTypeVideo then
      match cj_text (makeVAST b) with
      | Err _ => None
      | Ok json => Some (cacheable TypeXML json (bid_ttl expByImp ttlBuffer defaultTTLs imp p b)
                           (default "" (custom_key targData bidCategory hbCacheID winners imp l b)))
      end
    else None
  else None.

(** Positions lead to the entries of the bids seen so far, each to its own. *)
Definition indexes (entry : string * string * loc → option Cacheable) (seen : list (string * string * loc)) (sent : list Cacheable)
    (indices : list (nat * loc)) : Prop :=
  (∀ i l, (i, l) ∈ indices → ∃ x c, x ∈ seen ∧ x.2 = l ∧ entry x = Some c ∧ sent !! i = Some c) ∧
  (∀ x c, x ∈ seen → entry x = Some c → ∃ i, (i, x.2) ∈ indices) ∧
  (NoDup seen.*2 → NoDup indices.*2).
Definition cache_inv (seen : list (string * string * loc)) (s : cacheState) : Prop :=
  indexes json_entry seen (cs_toCache s) (cs_bidIndices s) ∧ indexes vast_entry seen (cs_toCache s) (cs_vastIndices s) ∧
  NoDup ((cs_bidIndices s).*1 ++ (cs_vastIndices s).*1).

Lemma indexes_bound entry seen sent indices i l : indexes entry seen sent indices → (i, l) ∈ indices → (i < length sent)%nat.
Proof. intros (Hs & _ & _) Hin. destruct (Hs _ _ Hin) as (? & ? & _ & _ & _ & Hi). by eapply lookup_lt_Some. Qed.
Lemma indexes_sent entry seen sent indices more : indexes entry seen sent indices → indexes entry seen (sent ++ more) indices.
Proof.
  intros (H1 & H2 & H3). split; [|done]. intros i l Hin. destruct (H1 i l Hin) as (x & c & ? & ? & ? & Hi).
  exists x, c. split_and!; [done..|]. by apply lookup_app_l_Some.
Qed.
Lemma indexes_skip entry seen sent indices x : entry x = None → indexes entry seen sent indices → indexes entry (seen ++ [x]) sent indices.
Proof.
  intros Hx (H1 & H2 & H3). split_and!.
  - intros i l Hin. destruct (H1 i l Hin) as (y & c & ? & ?). exists y, c. split; [set_solver|done].
  - intros y c Hy Hc. apply elem_of_app in Hy as [Hy|Hy]; [by eapply H2|]. apply list_elem_of_singleton in Hy as ->. congruence.
  - rewrite fmap_app, NoDup_app. intros (? & _ & _). by apply H3.
Qed.
Lemma indexes_add entry seen sent indices x c :
  entry x = Some c → indexes entry seen sent indices → indexes entry (seen ++ [x]) (sent ++ [c]) (indices ++ [(length sent, x.2)]).
Proof.
  intros Hx Hi. pose proof (indexes_sent _ _ _ _ [c] Hi) as (H1 & H2 & H3). destruct Hi as (H1' & _ & _). split_and!.
  - intros i l Hin. apply elem_of_app in Hin as [Hin|Hin].
    + destruct (H1 i l Hin) as (y & c' & ? & ?). exists y, c'. split; [set_solver|done].
    + apply list_elem_of_singleton in Hin as [= -> ->]. exists x, c. split_and!; [set_solver|done|done|].
      rewrite lookup_app_r by lia. by rewrite Nat.sub_diag.
  - intros y c' Hy Hc. apply elem_of_app in Hy as [Hy|Hy].
    + destruct (H2 y c' Hy Hc) as (i & ?). exists i. set_solver.
    + apply list_elem_of_singleton in Hy as ->. exists (length sent). set_solver.
  - rewrite !fmap_app, !NoDup_app. intros (Hn & Hd & _). split_and!; [by apply H3| |simpl; apply NoDup_singleton].
    intros l Hl%list_elem_of_fmap Hl2. destruct Hl as ([i l'] & -> & Hl). simpl in *. apply list_elem_of_singleton in Hl2 as ->.
    destruct (H1' _ _ Hl) as (y & ? & Hy & Hyl & _). apply (Hd x.2); [|set_solver]. rewrite <-Hyl. by apply list_elem_of_fmap_2.
Qed.
Lemma positions_fresh (b v : list (nat * loc)) (sent : list Cacheable) l :
  NoDup (b.*1 ++ v.*1) → (∀ i k, (i, k) ∈ b → (i < length sent)%nat) → (∀ i k, (i, k) ∈ v → (i < length sent)%nat) →
  NoDup ((b ++ [(length sent, l)]).*1 ++ v.*1) ∧ NoDup (b.*1 ++ (v ++ [(length sent, l)]).*1).
Proof.
  intros Hn Hb Hv.
  assert (length sent ∉ b.*1 ++ v.*1) as Hnew.
  { intros [([i k] & Hik & Hi)%list_elem_of_fmap|([i k] & Hik & Hi)%list_elem_of_fmap]%elem_of_app; simpl in *; [apply Hb in Hi|apply Hv in Hi]; lia. }
  assert (NoDup (length sent :: b.*1 ++ v.*1)) as Hall by (by apply NoDup_cons).
  rewrite !fmap_app. cbn [fmap list_fmap fst]. split; (eapply NoDup_Permutation_proper; [|exact Hall]).
  - rewrite <-app_assoc. symmetry. apply Permutation_middle.
  - rewrite app_assoc. symmetry. apply Permutation_cons_append.
Qed.

Lemma cache_bid_inv seen s x :
  is_Some (bid_of st x.2) → (∀ p, is_Some (wurl p x.1.2)) → cache_inv seen s →
  ∃ s', cache_bid st targData wurl expByImp ttlBuffer defaultTTLs bidCategory hbCacheID winners s x = Some s' ∧ cache_inv (seen ++ [x]) s'.
Proof.
  destruct x as [[imp bidder] l]. simpl. intros [b Hb] Hw (Hj & Hv & Hn).
  unfold bid_of in Hb. destruct (st !! l) as [p|] eqn:Ep; [|done]. simpl in Hb.
  assert (Hskip : json_entry (imp, bidder, l) = None → vast_entry (imp, bidder, l) = None → cache_inv (seen ++ [(imp, bidder, l)]) s).
  { intros ? ?. split_and!; [by apply indexes_skip|by apply indexes_skip|done]. }
  unfold cache_bid. destruct (negb (includeBidderKeys targData) && negb (is_winner winners imp l)) eqn:Eskip.
  { exists s. split; [done|]. assert (stored imp l = false) as Es by (unfold stored; by destruct (includeBidderKeys targData), (is_winner winners imp l)).
    apply Hskip; unfold json_entry, vast_entry; by rewrite Es, andb_false_r. }
  assert (stored imp l = true) as Es by (unfold stored; by destruct (includeBidderKeys targData), (is_winner winners imp l)).
  cbn [mbind option_bind]. rewrite Hb.
  assert (Ej : json_entry (imp, bidder, l) = if includeCacheBids targData then
      match cj_bid b with Err _ => None | Ok json => '(json, _) ← bid_json wurl bidder p json;
        Some (cacheable TypeJSON json (bid_ttl expByImp ttlBuffer defaultTTLs imp p b) "") end else None).
  { unfold json_entry. rewrite Es, andb_true_r, Ep. destruct (includeCacheBids targData); [|done]. cbn [mbind option_bind]. rewrite Hb. done. }
  assert (Ev : vast_entry (imp, bidder, l) = if includeCacheVast targData && (pb_BidType p =s? BidTypeVideo) then
      match cj_text (makeVAST b) with Err _ => None | Ok json => Some (cacheable TypeXML json (bid_ttl expByImp ttlBuffer defaultTTLs imp p b)
         (default "" (custom_key targData bidCategory hbCacheID winners imp l b))) end else None).
  { unfold vast_entry. rewrite Es, andb_true_r, Ep. destruct (includeCacheVast targData); [|done]. cbn [mbind option_bind]. rewrite Hb. done. }
  set (video := includeCacheVast targData && (pb_BidType p =s? BidTypeVideo)) in *.
  destruct (negb (includeCacheBids targData) && negb video && _) eqn:Eno.
  { exists s. split; [done|]. apply Hskip; [rewrite Ej|rewrite Ev]; by destruct (includeCacheBids targData), video. }
  clear Eno Hskip. cbn [mbind option_bind].
  assert (∃ s1, (if includeCacheBids targData then put_bid targData wurl expByImp ttlBuffer defaultTTLs bidCategory hbCacheID winners imp bidder l p b s else Some s) = Some s1 ∧
    indexes json_entry (seen ++ [(imp, bidder, l)]) (cs_toCache s1) (cs_bidIndices s1) ∧
    indexes vast_entry seen (cs_toCache s1) (cs_vastIndices s1) ∧ NoDup ((cs_bidIndices s1).*1 ++ (cs_vastIndices s1).*1)) as (s1 & -> & Hj1 & Hv1 & Hn1).
  { destruct (includeCacheBids targData); [|exists s; split_and!; [done|by apply indexes_skip|done..]].
    unfold put_bid. destruct (cj_bid b) as [json|e]; [|exists (cs_error e s); split_and!; [done|by apply indexes_skip|done..]].
    unfold bid_json in Ej |- *. destruct (Hw p) as [url Hurl]. rewrite Hurl in Ej |- *. cbn [mbind option_bind] in Ej |- *.
    destruct (match url with Some u => _ | None => _ end) as [j es]. eexists. split; [done|]. cbn [cs_toCache cs_bidIndices cs_vastIndices]. split_and!.
    - apply (indexes_add _ _ _ _ (imp, bidder, l)); [exact Ej|done].
    - by apply indexes_sent.
    - by apply positions_fresh; [..|intros ??; eapply indexes_bound|intros ??; eapply indexes_bound]. }
  eexists. split; [done|]. destruct video; [|split_and!; [done|by apply indexes_skip|done]].
  unfold put_vast. destruct (cj_text (makeVAST b)) as [json|e]; [|split_and!; [done|by apply indexes_skip|done]].
  split_and!; cbn [cs_toCache cs_bidIndices cs_vastIndices].
  - by apply indexes_sent.
  - apply (indexes_add _ _ _ _ (imp, bidder, l)); [exact Ev|done].
  - by apply positions_fresh; [..|intros ??; eapply indexes_bound|intros ??; eapply indexes_bound].
Qed.
Lemma cache_bids_inv xs : ∀ seen s,
  Forall (λ x, is_Some (bid_of st x.2) ∧ ∀ p, is_Some (wurl p x.1.2)) xs → cache_inv seen s →
  ∃ s', cache_bids st targData wurl expByImp ttlBuffer defaultTTLs bidCategory hbCacheID winners xs s = Some s' ∧ cache_inv (seen ++ xs) s'.
Proof.
  induction xs as [|x xs IH]; intros seen s Hall Hi; [exists s; rewrite app_nil_r; done|].
  apply Forall_cons in Hall as [[Hb Hw] Hall]. destruct (cache_bid_inv seen s x Hb Hw Hi) as (s1 & E1 & Hi1).
  destruct (IH _ _ Hall Hi1) as (s2 & E2 & Hi2). exists s2. cbn [cache_bids]. rewrite E1. split; [done|]. by rewrite <-app_assoc in Hi2.
Qed.

Lemma place_ids_spec short ids indices : ∀ m, NoDup indices.*2 → (∀ i l, (i, l) ∈ indices → (i < length ids)%nat ∧ m !! l = None) →
  ∃ m', place_ids short ids indices m = Some m' ∧
    (∀ i l, (i, l) ∈ indices → m' !! l = (id ← ids !! i; if id =s? "" then None else Some (short id))) ∧
    (∀ l, l ∉ indices.*2 → m' !! l = m !! l).
Proof.
  induction indices as [|[i l] indices IH]; intros m Hn Hb; [exists m; split_and!; [done|set_solver|done]|].
  apply NoDup_cons in Hn as [Hl Hn]. destruct (Hb i l) as [Hi Hm]; [set_solver|]. apply lookup_lt_is_Some in Hi as [id Hid].
  destruct (IH (if id =s? "" then m else <[l := short id]> m) Hn) as (m' & Em & H1 & H2).
  { intros j k Hjk. destruct (Hb j k) as [? Hk]; [set_solver|]. split; [done|]. destruct (id =s? ""); [done|].
    rewrite lookup_insert_ne; [done|]. intros ->. apply Hl. apply (list_elem_of_fmap_2 snd _ _ Hjk). }
  exists m'. cbn [place_ids]. rewrite Hid. split_and!; [exact Em| |].
  - intros j k Hjk. apply elem_of_cons in Hjk as [[= -> ->]|Hjk]; [|by apply H1]. rewrite H2 by done. rewrite Hid. cbn [mbind option_bind].
    destruct (id =s? ""); [done|by rewrite lookup_insert_eq].
  - intros k Hk. rewrite fmap_cons in Hk. apply not_elem_of_cons in Hk as [Hne Hk]. rewrite H2 by done. simpl in Hne.
    destruct (id =s? ""); [done|by rewrite lookup_insert_ne].
Qed.

Lemma NoDup_fmap_same {A B} (f : A → B) (l : list A) x y : NoDup (f <$> l) → x ∈ l → y ∈ l → f x = f y → x = y.
Proof.
  intros Hn (i & Hi)%list_elem_of_lookup (j & Hj)%list_elem_of_lookup Hf.
  assert (i = j) as ->; [|congruence]. eapply NoDup_lookup; [exact Hn| |]; rewrite list_lookup_fmap; [by rewrite Hi|rewrite Hj; simpl; by f_equal].
Qed.
(** The ids placed by position are the ids of the entries. *)
Definition id_at (short : string → string) (ids : list string) (i : nat) : option string :=
  id ← ids !! i; if id =s? "" then None else Some (short id).
Lemma indexes_ids entry seen sent indices ids short :
  indexes entry seen sent indices → NoDup seen.*2 → (length sent ≤ length ids)%nat →
  ∃ m (pos : loc → nat), place_ids short ids indices ∅ = Some m ∧
    (∀ x, x ∈ seen → match entry x with
                     | Some c => sent !! pos x.2 = Some c ∧ m !! x.2 = id_at short ids (pos x.2)
                     | None => m !! x.2 = None
                     end) ∧
    (∀ l, l ∉ seen.*2 → m !! l = None).
Proof.
  intros Hx Hn Hlen. pose proof Hx as (H1 & H2 & H3). pose proof (H3 Hn) as Hn2.
  destruct (place_ids_spec short ids indices ∅ Hn2) as (m & Em & Hin & Hout).
  { intros i l Hil. split; [|by rewrite lookup_empty]. pose proof (indexes_bound _ _ _ _ _ _ Hx Hil). lia. }
  exists m, (λ l, default 0%nat ((list_to_map (prod_swap <$> indices) : gmap nat nat) !! l)).
  assert (Hentry : ∀ x i, x ∈ seen → (i, x.2) ∈ indices → ∃ c, entry x = Some c ∧ sent !! i = Some c).
  { intros x i Hxs Hi. destruct (H1 _ _ Hi) as (y & c & Hy & Hyl & Hc & Hs). exists c. by rewrite (NoDup_fmap_same snd seen x y). }
  split_and!; [done| |].
  - intros x Hxs. destruct (entry x) as [c|] eqn:Ec.
    + destruct (H2 _ _ Hxs Ec) as (i & Hi). destruct (Hentry _ _ Hxs Hi) as (c' & Ec' & Hs). simplify_eq.
      assert ((list_to_map (prod_swap <$> indices) : gmap nat nat) !! x.2 = Some i) as ->.
      { apply elem_of_list_to_map; [|by apply (list_elem_of_fmap_2 prod_swap _ _ Hi)].
        rewrite <-list_fmap_compose. erewrite list_fmap_ext; [exact Hn2|]. by intros ? []. }
      simpl. split; [done|]. by apply Hin.
    + rewrite Hout; [by rewrite lookup_empty|]. intros ([i l] & Hl & Hi)%list_elem_of_fmap. simpl in Hl. subst l.
      destruct (Hentry _ _ Hxs Hi) as (c & ? & _). congruence.
  - intros l Hl. rewrite Hout; [by rewrite lookup_empty|]. intros ([i l'] & Hl' & Hi)%list_elem_of_fmap. simpl in Hl'. subst l'.
    destruct (H1 _ _ Hi) as (y & _ & Hy & Hyl & _). apply Hl. rewrite <-Hyl. by apply list_elem_of_fmap_2.
Qed.
End CacheLemmas.

(** ** Properties *)
(** The ids that bids carry are the cache's ids of their own entries: with caching on, when the cache
    answers one id per value, every bid is stored at a position of its own with its JSON or its VAST,
    its time to live and its key, and gets the id answered at that position, if there is one; the label
    of a custom key is left out.  No other bid gets an id, and nothing panics. *)
Theorem cached_ids_match `{CacheJson} `{MapRange} st targData wurl imps ttlBuffer ttls cats newUuid strip PutJson log a :
  (includeCacheBids targData || includeCacheVast targData) && (includeBidderKeys targData || includeWinners targData) = true →
  (∀ vs, length (PutJson vs).1 = length vs) →
  NoDup (top_bids a).*2 → Forall (λ x, is_Some (bid_of st x.2) ∧ ∀ p, is_Some (wurl p x.1.2)) (top_bids a) →
  let hbCacheID := if bool_decide (cats = ∅) then None else newUuid in
  let exps := foldl (λ m '(id, e), <[id := e]> m) ∅ imps in
  ∃ a' errs log' sent (pos vpos : loc → nat), doCache st targData wurl imps ttlBuffer ttls cats newUuid strip PutJson log a = Some (a', errs, log', sent) ∧
    allBidsByBidder a' = allBidsByBidder a ∧ winningBids a' = winningBids a ∧
    (includeCacheBids targData = true → ∀ l, match list_find (λ x, x.2 = l) (top_bids a) with
       | Some (_, x) => match json_entry st targData wurl exps ttlBuffer ttls (winningBids a) x with
                        | Some c => sent !! pos l = Some c ∧ cacheIds a' !! l = id_at id (PutJson sent).1 (pos l)
                        | None => cacheIds a' !! l = None
                        end
       | None => cacheIds a' !! l = None
       end) ∧
    (includeCacheVast targData = true → ∀ l, match list_find (λ x, x.2 = l) (top_bids a) with
       | Some (_, x) => match vast_entry st targData exps ttlBuffer ttls cats hbCacheID (winningBids a) x with
                        | Some c => sent !! vpos l = Some c ∧ vastCacheIds a' !! l = id_at (short_id cats hbCacheID) (PutJson sent).1 (vpos l)
                        | None => vastCacheIds a' !! l = None
                        end
       | None => vastCacheIds a' !! l = None
       end).
Proof.
  intros Hon Hlen Hnd Hall hbCacheID exps. unfold doCache. rewrite Hon. cbn [negb].
  destruct (cache_bids_inv st targData wurl exps ttlBuffer ttls cats hbCacheID (winningBids a) (top_bids a) []
    {| cs_toCache := []; cs_bidIndices := []; cs_vastIndices := [];
       cs_errs := if negb (bool_decide (cats = ∅)) && bool_decide (newUuid = None) then [PlainError "failed to create custom cache key"] else [] |} Hall)
    as (s & Es & Hj & Hv & _).
  { split_and!; try (split_and!; [set_solver|set_solver|intros; apply NoDup_nil_2]). apply NoDup_nil_2. }
  fold hbCacheID exps. rewrite Es. cbn [mbind option_bind].
  set (put := match log with Some d => _ | None => _ end).
  assert (∃ sent log', put = (sent, log') ∧ ∃ more, sent = cs_toCache s ++ more) as (sent & log' & -> & more & Hsent).
  { subst put. destruct log as [d|]; [|eexists _, _; split; [done|]; exists []; by rewrite app_nil_r].
    destruct (0 <? length (cs_toCache s))%nat, (dl_DebugEnabledOrOverridden d); (eexists _, _; split; [reflexivity|]); first [by eexists|exists []; by rewrite app_nil_r]. }
  set (answer := match sent with [] => ([], []) | _ => PutJson sent end).
  assert (answer.1 = (PutJson sent).1) as Hans.
  { subst answer. destruct sent; [|done]. symmetry. apply nil_length_inv. by rewrite Hlen. }
  destruct answer as [ids putErrs]. simpl in Hans. subst ids.
  assert (length (cs_toCache s) ≤ length (PutJson sent).1)%nat as Hle by (rewrite Hlen, Hsent, length_app; lia).
  destruct (indexes_ids _ _ _ _ _ id Hj Hnd Hle) as (m1 & pos & E1 & Hin1 & Hout1).
  destruct (indexes_ids _ _ _ _ _ (short_id cats hbCacheID) Hv Hnd Hle) as (m2 & vpos & E2 & Hin2 & Hout2).
  rewrite E1, E2.
  assert (∀ (entry : string * string * loc → option Cacheable) (m : gmap nat string) (q : loc → nat) short,
    (∀ x, x ∈ [] ++ top_bids a → match entry x with Some c => cs_toCache s !! q x.2 = Some c ∧ m !! x.2 = id_at short (PutJson sent).1 (q x.2) | None => m !! x.2 = None end) →
    (∀ l, l ∉ ([] ++ top_bids a).*2 → m !! l = None) →
    ∀ l, match list_find (λ x, x.2 = l) (top_bids a) with
       | Some (_, x) => match entry x with Some c => sent !! q l = Some c ∧ m !! l = id_at short (PutJson sent).1 (q l) | None => m !! l = None end
       | None => m !! l = None end) as Hfind.
  { intros entry m q short Hin Hout l. destruct (list_find _ _) as [[i x]|] eqn:Ef.
    - apply list_find_Some in Ef as (Hx & <- & _). apply list_elem_of_lookup_2 in Hx. specialize (Hin x Hx).
      destruct (entry x); [|done]. destruct Hin as [Hc Hm]. split; [|done]. rewrite Hsent. by apply lookup_app_l_Some.
    - apply list_find_None in Ef. apply Hout. intros (x & -> & Hx)%list_elem_of_fmap. rewrite Forall_forall in Ef. by apply (Ef x Hx). }
  destruct (includeCacheBids targData), (includeCacheVast targData); cbn [mbind option_bind];
    (eexists _, _, _, _, pos, vpos; split_and!; [done..| |]); intros Hb; try discriminate; simpl; by eapply Hfind.
Qed.

(** One video bid, stored as JSON and as VAST under a custom key; the cache answers the keys it is
    given and its own ids otherwise. *)
Definition demo_json : CacheJson := {| cj_bid := λ b, Ok (bid_ID b); cj_text := Ok; cj_wurl := λ j u, Ok (j +:+ u) |}.
Definition demo_targData : targetData :=
  {| includeWinners := true; includeBidderKeys := false; includeCacheBids := true; includeCacheVast := true; includeFormat := false;
     td_preferDeals := false; alwaysIncludeDeals := false; cacheHost := ""; cachePath := ""; td_prefix := "hb" |}.
Definition demo_auction : auction :=
  {| winningBids := {["imp1" := 7%nat]}; allBidsByBidder := {["imp1" := {["appnexus" := [7%nat]]}]}; roundedPrices := ∅; cacheIds := ∅;
     vastCacheIds := ∅; auc_seatWeights := ∅; auc_seatLatency := ∅ |}.
Definition demo_store : bid_store := {[7%nat := plain_bid (Some (sample_bid "b1" f1)) BidTypeVideo]}.
Definition demo_ttls : DefaultTTLs := {| ttl_Banner := 300; ttl_Video := 3600; ttl_Audio := 1800; ttl_Native := 300 |}.
Definition demo_put (vs : list Cacheable) : list string * list go_error := ((λ v, if ca_Key v =s? "" then "u-1" else ca_Key v) <$> vs, []).
Definition demo_cached := doCache (H := demo_json) (H0 := canonical_range) demo_store demo_targData (λ _ _, Some None) [("imp1", 0)] 60 demo_ttls
  {["b1" := "1.00_IAB1_30s"]} (Some "uuid") id demo_put None demo_auction.
Lemma demo_top_bids : top_bids (H := canonical_range) demo_auction = [("imp1", "appnexus", 7%nat)].
Proof. vm_compute. reflexivity. Qed.
Lemma cached_ids_match_witness :
  (∀ vs, length (demo_put vs).1 = length vs) ∧
  ∃ a' errs log sent, demo_cached = Some (a', errs, log, sent) ∧ cacheIds a' !! 7%nat = Some "u-1" ∧ vastCacheIds a' !! 7%nat = Some "uuid".
Proof.
  assert (∀ vs, length (demo_put vs).1 = length vs) as Hput by (intros; apply length_fmap). split; [exact Hput|].
  destruct (cached_ids_match (H := demo_json) (H0 := canonical_range) demo_store demo_targData (λ _ _, Some None) [("imp1", 0)] 60 demo_ttls
    {["b1" := "1.00_IAB1_30s"]} (Some "uuid") id demo_put None demo_auction) as (a' & errs & log & sent & pos & vpos & Hd & _).
  - reflexivity.
  - exact Hput.
  - rewrite demo_top_bids. apply NoDup_singleton.
  - rewrite demo_top_bids. apply Forall_singleton. split; [eexists; reflexivity|]. intros p. by eexists.
  - exists a', errs, log, sent. split; [exact Hd|].
    assert ((λ r : auction * list go_error * option DebugLog * list Cacheable, (cacheIds r.1.1.1 !! 7%nat, vastCacheIds r.1.1.1 !! 7%nat)) <$> demo_cached
            = Some (Some "u-1", Some "uuid")) as E by (vm_compute; reflexivity).
    unfold demo_cached in E. rewrite Hd in E. injection E as E1 E2. split; assumption.
Defined.
