(* ===== verification/HoldAuction.v ===== *)
(** * From the bids to the response: exchange.HoldAuction in src/exchange/exchange.go

    Everything [HoldAuction] does once the bidders have answered: floors are enforced, categories
    mapped, ids generated, events added, the auction held, bids stored and targeted, and the response
    built.  The components are those of the other files; this file composes them in the order of the
    code, over one store of bids.  Also the settings that [HoldAuction] reads off the request. *)
From S2P Require Import Prelude GoStrings GoFloat Order Currency Bids Auction MultiBid Targeting FloorData FloorRules Floors FloorEnforce ErrorTypes BidderCall Category Collect ExtWrapper RequestParts Response ResponseSpec Macros Injector Events Cache PriceGranularity.

(** ** Settings of a request: exchange/utils.go *)
(** [Cache]: for bids and VAST, when asked for, whether the creative is returned as well, if said. *)
Record extCacheInstructions := { ci_cacheBids : bool; ci_cacheVAST : bool; ci_returnCreative : bool }.
Definition getExtCacheInstructions (cache : option (option (option bool) * option (option bool))) : extCacheInstructions :=
  match cache with
  | None => {| ci_cacheBids := false; ci_cacheVAST := false; ci_returnCreative := true |}
  | Some (bids, vast) =>
      {| ci_cacheBids := bool_decide (is_Some bids); ci_cacheVAST := bool_decide (is_Some vast);
         ci_returnCreative := match mjoin bids, mjoin vast with
                              | Some b, Some v => b || v
                              | Some b, None => b
                              | None, Some v => v
                              | None, None => true
                              end |}
  end.
Definition MinKeyLength : Z := 12.
Definition DefaultKeyPrefix := "hb".
Definition TooLongTargetingPrefixWarningCode : Z := 10015.
Definition TooShortTargetingPrefixWarningCode : Z := 10016.
Definition getTargetDataPrefix (requestPrefix accountPrefix : string) (truncateTargetAttribute : option Z) : string * list go_error :=
  let short := match truncateTargetAttribute with Some n => n <? MinKeyLength | None => false end in
  let maxLength := match truncateTargetAttribute with Some n => if MinKeyLength <? n then n else Targeting.MaxKeyLength | None => Targeting.MaxKeyLength end in
  if short then (DefaultKeyPrefix, [Warning "targeting prefix is shorter than 'MinKeyLength' value: increase prefix length" TooShortTargetingPrefixWarningCode])
  else
    let result := if negb (requestPrefix =s? "") then requestPrefix else if negb (accountPrefix =s? "") then accountPrefix else DefaultKeyPrefix in
    if maxLength - MinKeyLength <? Z.of_nat (String.length result)
    then (DefaultKeyPrefix, [Warning "targeting prefix combined with key attribute is longer than 'settings.targeting.truncate-attr-chars' value: decrease prefix length or increase truncate-attr-chars" TooLongTargetingPrefixWarningCode])
    else (result, []).
(** Whether the response and the bidders may show debug information, and the log. *)
Definition empty_log : DebugLog :=
  {| dl_Enabled := false; dl_CacheType := ""; dl_Request := ""; dl_Headers := ""; dl_Response := ""; dl_TTL := 0; dl_CacheKey := "";
     dl_CacheString := ""; dl_DebugOverride := false; dl_DebugEnabledOrOverridden := false |}.
Definition parseRequestDebugValues (test : Z) (debug : bool) : bool := (test =? 1) || debug.
Definition setDebugLogValues (accountDebugFlag : bool) (debugLog : option DebugLog) : DebugLog :=
  let d := default empty_log debugLog in
  {| dl_Enabled := dl_DebugEnabledOrOverridden d || accountDebugFlag; dl_CacheType := dl_CacheType d; dl_Request := dl_Request d;
     dl_Headers := dl_Headers d; dl_Response := dl_Response d; dl_TTL := dl_TTL d; dl_CacheKey := dl_CacheKey d;
     dl_CacheString := dl_CacheString d; dl_DebugOverride := dl_DebugOverride d; dl_DebugEnabledOrOverridden := dl_DebugEnabledOrOverridden d |}.
Definition getDebugInfo (test : Z) (debug accountDebugFlag : bool) (debugLog : option DebugLog) : bool * bool * DebugLog :=
  let requestDebugAllow := parseRequestDebugValues test debug in
  let d := setDebugLogValues accountDebugFlag debugLog in
  ((requestDebugAllow && accountDebugFlag) || dl_DebugEnabledOrOverridden d,
   (requestDebugAllow && accountDebugFlag) || (dl_DebugEnabledOrOverridden d && accountDebugFlag), d).

(** ** The state the stages share *)
Record auctionState := {
  as_store : bid_store;
  as_seats : gmap string PbsOrtbSeatBid;
  as_nonBids : SeatNonBidBuilder;
  as_errs : list go_error
}.
Definition with_store (st : bid_store) (s : auctionState) : auctionState :=
  {| as_store := st; as_seats := as_seats s; as_nonBids := as_nonBids s; as_errs := as_errs s |}.
Definition add_errs (errs : list go_error) (s : auctionState) : auctionState :=
  {| as_store := as_store s; as_seats := as_seats s; as_nonBids := as_nonBids s; as_errs := as_errs s ++ errs |}.

Section Stages.
Context `{MapRange}.

(** *** Floors; the text of the conversion's own error is left out *)
Definition enforce_go_error (e : enforce_error) : go_error :=
  PlainError match e with
  | E_requestExt => "Error in getting request extension"
  | E_rebuild m => m
  | E_rate from to bidder impID bidID _ =>
      "error in rate conversion from = " +:+ from +:+ " to " +:+ to +:+ " with bidder " +:+ bidder +:+ " for impression id " +:+ impID +:+ " and bid id " +:+ bidID
  end.
(** A rejected bid is reported as a warning and a non-bid; its floors are dereferenced. *)
Definition report_rejected (s : auctionState) (rejected : PbsOrtbSeatBid) : option auctionState :=
  l ← head (seat_Bids rejected);
  p ← as_store s !! l;
  b ← pb_Bid p;
  fl ← pb_BidFloors p;
  let warning := Warning (seat_Seat rejected +:+ " bid id " +:+ bid_ID b +:+ " rejected - bid price " +:+ FormatFloat_f (bid_Price b) 4 +:+ " "
                            +:+ seat_Currency rejected +:+ " is less than bid floor " +:+ FormatFloat_f (ebf_FloorValue fl) 4 +:+ " "
                            +:+ ebf_FloorCurrency fl +:+ " for imp " +:+ bid_ImpID b) FloorBidRejectionWarningCode in
  let reason := if bid_DealID b =s? "" then ResponseRejectedBelowFloor else ResponseRejectedBelowDealFloor in
  Some {| as_store := as_store s; as_seats := as_seats s; as_nonBids := rejectBid (as_nonBids s) p reason (seat_Seat rejected);
          as_errs := as_errs s ++ [warning] |}.
Fixpoint report_all (rejected : list PbsOrtbSeatBid) (s : auctionState) : option auctionState :=
  match rejected with [] => Some s | r :: rest => s' ← report_rejected s r; report_all rest s' end.
Definition enforce_stage (priceFloorEnabled : bool) (r : RequestWrapper) (account : AccountPriceFloors) (conversions : Conversions)
    (intn : Z → Z) (rebuild : option string) (s : auctionState) : option auctionState :=
  if priceFloorEnabled then
    o ← Enforce (as_store s) r (as_seats s) account conversions intn rebuild;
    report_all (e_rejected o) {| as_store := e_store o; as_seats := e_seats o; as_nonBids := as_nonBids s;
                                 as_errs := as_errs s ++ (enforce_go_error <$> e_errs o) |}
  else Some s.

(** *** Categories: the labels of the bids; nil without the feature *)
Definition category_stage (targeting : option categoryTargeting) (FetchCategories : string → string → string → option string)
    (bucket : Bid → loc → option string) (dedupeCoin : loc → bool) (s : auctionState)
    : option (result adserver_error (gmap string string * auctionState)) :=
  match targeting with
  | Some t =>
      match ct_IncludeBrandCategory t with
      | None => Some (Ok (∅, s))
      | Some _ =>
          r ← applyCategoryMapping (as_store s) t FetchCategories bucket dedupeCoin (as_seats s) (as_nonBids s);
          Some (let? o := r in
                Ok (co_res o, {| as_store := as_store s; as_seats := co_seats o; as_nonBids := co_nonBids o;
                                 as_errs := as_errs s ++ (PlainError <$> co_rejections o) |}))
      end
  | None => Some (Ok (∅, s))
  end.

(** *** Generated ids *)
Definition give_id (newID : string → loc → option string) (bidder : string) (acc : bid_store * list go_error) (l : loc) : bid_store * list go_error :=
  match newID bidder l with
  | Some id => (alter (set_GeneratedBidID id) l acc.1, acc.2)
  | None => (acc.1, acc.2 ++ [PlainError "Error generating bid.ext.prebid.bidid"])
  end.
Definition id_stage (enabled : bool) (newID : string → loc → option string) (s : auctionState) : auctionState :=
  if enabled then
    let '(st, errs) := foldl (λ acc '(bidder, seat), foldl (give_id newID bidder) acc (seat_Bids seat)) (as_store s, []) (map_range (as_seats s)) in
    add_errs errs (with_store st s)
  else s.
End Stages.

(** ** The auction *)
(** What the request and the account say. *)
Record auctionInput := {
  ai_requestID : string;
  ai_tmax : Z;
  ai_imps : list (string * Z * option (gmap string (option DealTier)));  (* id, exp and deal tiers *)
  ai_env : string;                                                       (* app, amp or none *)
  ai_targData : option targetData;
  ai_category : option categoryTargeting;
  ai_multiBid : option (list ExtWrapper.ExtMultiBid);
  ai_supportDeals : bool;
  ai_passthrough : option string;
  ai_resolvedRequest : string;
  ai_timestamp : Z;
  ai_responseDebugAllow : bool;
  ai_accountDebugAllow : bool;
  ai_warnings : list go_error;
  ai_returnCreative : bool;
  ai_impExtInfo : gmap string ImpExtInfo;
  ai_dsa : option ExtRegsDSA;
  ai_floorRequest : RequestWrapper;
  ai_floorAccount : AccountPriceFloors;
  ai_conversions : Conversions;
  ai_seatWeights : gmap string Z;
  ai_bidLimit : Z;
  ai_truncate : option Z;
  ai_ttls : DefaultTTLs;
  ai_validations : Validations
}.
(** The exchange's own settings and the services it calls: the category files, price buckets (drawn
    for the category and for the auction separately), generated ids, random draws and the cache. *)
Record exchangeEnv := {
  xe_priceFloorEnabled : bool;
  xe_bidIDEnabled : bool;
  xe_validations : Validations;
  xe_coreBidders : list string;
  xe_cacheData : string * string * string;
  xe_FetchCategories : string → string → string → option string;
  xe_categoryBucket : Bid → loc → option string;
  xe_bucket : Bid → loc → option string;
  xe_dedupeCoin : loc → bool;
  xe_intn : Z → Z;
  xe_rebuild : option string;
  xe_newID : string → loc → option string;
  xe_newUuid : option string;
  xe_strip : string → string;
  xe_PutJson : list Cacheable → list string * list go_error;
  xe_marshalExt : ExtBidResponse → option string
}.
Definition narrow (m : ExtWrapper.ExtMultiBid) : Targeting.ExtMultiBid :=
  {| Targeting.mb_MaxBids := ExtWrapper.mb_MaxBids m; Targeting.mb_TargetBidderCodePrefix := ExtWrapper.mb_TargetBidderCodePrefix m |}.
(** What the bidders left: whether any bid came, their seats, extra data, interest groups. *)
Record answers := {
  an_found : bool; an_seats : gmap string seatResult; an_extra : gmap string seatResponseExtra;
  an_fledge : option (list FledgeAuctionConfig); an_nonBids : SeatNonBidBuilder; an_live : list string
}.

Section HoldAuction.
Context `{FloatText} `{XmlText} `{BidJson} `{CacheJson} `{MapRange} `{GoSort}.
Context (x : exchangeEnv) (r : auctionInput) (evTracking : eventTracking) (macros : MacroProvider).

(** The hook for all bids may change the bids and the seats. *)
Context (hook : bid_store → gmap string PbsOrtbSeatBid → bid_store * gmap string PbsOrtbSeatBid).

(** The response extension, and the log of it when the log is on. *)
Definition ext_response (extra : gmap string seatResponseExtra) (fledge : option (list FledgeAuctionConfig)) (errs : list go_error) : ExtBidResponse :=
  makeExtBidResponse extra (ai_tmax r) (ai_resolvedRequest r) (ai_timestamp r) (ai_responseDebugAllow r) (ai_passthrough r) fledge errs.
Definition log_response (ext : ExtBidResponse) (d : DebugLog) : DebugLog * list go_error :=
  if dl_DebugEnabledOrOverridden d then
    match xe_marshalExt x ext with
    | Some json => (set_dl_Response json d, [])
    | None => (set_dl_Response "Unable to marshal response ext for debugging" d, [PlainError "marshal"])
    end
  else (d, []).

Definition seat_latency (extra : gmap string seatResponseExtra) : gmap string Z := se_ResponseTimeMillis <$> extra.

(** The part that needs targeting: the auction, the limit of bids, prices, deals, cache and keys. *)
Definition targeting_stage (td : targetData) (bidCategory : gmap string string) (extra : gmap string seatResponseExtra)
    (fledge : option (list FledgeAuctionConfig)) (d : DebugLog) (s : auctionState)
    : option (auction * auctionState * DebugLog * list Cacheable) :=
  let multiBidMap := buildMultiBidMap (xe_coreBidders x) (ai_multiBid r) in
  a ← newAuction (as_store s) (td_preferDeals td) (ai_seatWeights r) (seat_latency extra) (Some <$> as_seats s);
  '(a, st, seats) ← validateAndUpdateMultiBid (td_preferDeals td) (ai_bidLimit r) a (as_store s) (Some <$> as_seats s);
  let s := {| as_store := st; as_seats := omap id seats; as_nonBids := as_nonBids s; as_errs := as_errs s |} in
  a ← setRoundedPrices (as_store s) (xe_bucket x) a;
  '(s, bidCategory) ← (if ai_supportDeals r then
                         ds ← applyDealSupport (xe_coreBidders x) ((λ '(id, _, tiers), (id, tiers)) <$> ai_imps r) a bidCategory multiBidMap (as_store s);
                         Some (add_errs (ds_errs ds) (with_store (ds_store ds) s), ds_category ds)
                       else Some (s, bidCategory));
  let '(d, errs) := log_response (ext_response extra fledge (as_errs s)) d in
  let s := add_errs errs s in
  '(a, cacheErrs, log, sent) ← doCache (as_store s) td (bidJsonWurl evTracking) (fst <$> ai_imps r) 60 (ai_ttls r) bidCategory (xe_newUuid x) (xe_strip x)
                                 (xe_PutJson x) (Some d) a;
  let s := add_errs cacheErrs s in
  st ← (if includeWinners td || includeBidderKeys td || includeFormat td
        then setTargeting td a (ai_env r) bidCategory (ai_truncate r) ((λ m : gmap string ExtWrapper.ExtMultiBid, narrow <$> m) <$> multiBidMap) (as_store s)
        else Some (as_store s));
  Some (a, with_store st s, default d log, sent).

(** All stages on the bids, up to the auction that is nil without targeting. *)
Definition bid_stages (extra : gmap string seatResponseExtra) (fledge : option (list FledgeAuctionConfig)) (d : DebugLog) (s : auctionState)
    : option (result adserver_error (option auction * auctionState * DebugLog * list Cacheable)) :=
  s ← enforce_stage (xe_priceFloorEnabled x) (ai_floorRequest r) (ai_floorAccount r) (ai_conversions r) (xe_intn x) (xe_rebuild x) s;
  c ← category_stage (ai_category r) (xe_FetchCategories x) (xe_categoryBucket x) (xe_dedupeCoin x) s;
  match c with
  | Err e => Some (Err e)
  | Ok (bidCategory, s) =>
      let s := id_stage (xe_bidIDEnabled x) (xe_newID x) s in
      st ← modifyBidsForEvents evTracking macros (as_seats s) (as_store s);
      let '(st, seats) := hook st (as_seats s) in
      let s := {| as_store := st; as_seats := seats; as_nonBids := as_nonBids s; as_errs := as_errs s |} in
      match ai_targData r with
      | Some td => '(a, s, d, sent) ← targeting_stage td bidCategory extra fledge d s; Some (Ok (Some a, s, d, sent))
      | None => Some (Ok (None, s, d, []))
      end
  end.

(** From the answers to the response; [errs] are the errors so far.  [None] is a panic. *)
Definition finish_auction (an : answers) (errs : list go_error) (d : DebugLog)
    : option (result adserver_error (BidResponse * buildState * DebugLog * list Cacheable)) :=
  let '(st, seats) := allocate (an_seats an) in
  let s := {| as_store := st; as_seats := seats; as_nonBids := an_nonBids an; as_errs := errs |} in
  staged ← (if an_found an then bid_stages (an_extra an) (an_fledge an) d s
            else let '(d, errs) := log_response (ext_response (an_extra an) (an_fledge an) errs) d in
                 Some (Ok (None, add_errs errs s, d, [])));
  match staged with
  | Err e => Some (Err e)
  | Ok (auc, s', d, sent) =>
      let extErrs := if an_found an then as_errs s' else errs in
      let ext := add_final_warnings (negb (ai_accountDebugAllow r) && negb (dl_DebugOverride d)) (ai_responseDebugAllow r) (ai_warnings r) (as_errs s')
                   (ext_response (an_extra an) (an_fledge an) extErrs) in
      let validations := SetBannerCreativeMaxSize (xe_validations x) (ai_validations r) in
      '(resp, b) ← buildBidResponse (as_store s') validations auc (ai_returnCreative r) (ai_impExtInfo r) (ai_dsa r) (xe_cacheData x)
                     (ai_requestID r) (an_live an) (Some <$> as_seats s')
                     {| bu_ext := ext; bu_extra := an_extra an; bu_nonBids := as_nonBids s' |};
      Some (Ok (resp, {| bu_ext := setSeatNonBid (bu_ext b) (bu_nonBids b); bu_extra := bu_extra b; bu_nonBids := bu_nonBids b |}, d, sent))
  end.

(** The two sources of bids. *)
Definition answers_of_bidders (live : list string) (arrivals : list bidderRun) : answers :=
  let a := getAllBids arrivals in
  {| an_found := ab_bidsFound a; an_seats := ab_adapterBids a; an_extra := ab_adapterExtra a; an_fledge := ab_fledge a; an_nonBids := ab_nonBids a; an_live := live |}.
Definition answers_stored (s : storedAuction) : answers :=
  {| an_found := true; an_seats := sa_bids s; an_extra := ∅; an_fledge := sa_fledge s; an_nonBids := ∅; an_live := sa_live s |}.
End HoldAuction.
