(* ===== verification/HoldSpec.v ===== *)
(** * What a response can hold

    Theorems on [HoldAuction]: the stages before the hooks on all processed responses narrow the
    seats and keep the offers, so the hooks are given only bids that a bidder offered in that seat, with
    their id, impression, price, deal and creative, which reach their floor where floors are enforced; and
    a bid of the response is one the hooks, whatever they do, left in its seat. *)
From S2P Require Import Prelude GoStrings GoFloat Order Currency Bids Auction MultiBid Targeting FloorData FloorRules Floors FloorEnforce ErrorTypes BidderCall Category CategorySpec Collect ExtWrapper RequestParts Response ResponseSpec Macros Injector Events EventsSpec Cache HoldAuction.

#[global] Instance same_bid_preorder : PreOrder same_bid_but_markup.
Proof. split; [done|]. intros a b c. unfold same_bid_but_markup. intuition congruence. Qed.

(** ** Offers kept and seats narrowed *)
Definition offer_kept (st st' : bid_store) (l : loc) : Prop :=
  ∀ b', bid_of st' l = Some b' → ∃ b, bid_of st l = Some b ∧ same_bid_but_markup b b'.
Lemma offer_kept_refl st l : offer_kept st st l.
Proof. intros b Hb. by exists b. Qed.
Lemma offer_kept_trans s1 s2 s3 l : offer_kept s1 s2 l → offer_kept s2 s3 l → offer_kept s1 s3 l.
Proof. intros H1 H2 b Hb. destruct (H2 b Hb) as (b2 & Hb2 & E2). destruct (H1 b2 Hb2) as (b1 & Hb1 & E1). exists b1. split; [done|]. by etrans. Qed.
Lemma offer_kept_same st st' l : bid_of st' l = bid_of st l → offer_kept st st' l.
Proof. intros E b Hb. exists b. rewrite <-E. done. Qed.

Definition seat_narrowed (seat seat' : PbsOrtbSeatBid) : Prop :=
  seat_Currency seat' = seat_Currency seat ∧ ∀ l, l ∈ seat_Bids seat' → l ∈ seat_Bids seat.
Definition seats_narrowed (m m' : gmap string PbsOrtbSeatBid) : Prop :=
  ∀ name seat', m' !! name = Some seat' → ∃ seat, m !! name = Some seat ∧ seat_narrowed seat seat'.
#[global] Instance seat_narrowed_preorder : PreOrder seat_narrowed.
Proof. split; [done|]. intros a b c [E1 H1] [E2 H2]. split; [congruence|eauto]. Qed.
#[global] Instance seats_narrowed_preorder : PreOrder seats_narrowed.
Proof.
  split; [intros m n s Hs; by exists s|]. intros a b c H1 H2 n s Hs. destruct (H2 n s Hs) as (s2 & Hs2 & E2).
  destruct (H1 n s2 Hs2) as (s1 & Hs1 & E1). exists s1. split; [done|]. by etrans.
Qed.
Lemma seats_narrowed_insert m name seat seat' : m !! name = Some seat → seat_narrowed seat seat' → seats_narrowed m (<[name := seat']> m).
Proof.
  intros Hm Hn n s. rewrite lookup_insert. case_decide; [intros [= <-]; subst; by exists seat|]. intros Hs. by exists s.
Qed.
Lemma narrowed_by bs seat : (∀ l, l ∈ bs → l ∈ seat_Bids seat) → seat_narrowed seat (set_seat_Bids bs seat).
Proof. by split. Qed.

(** A step of the pipeline on store and seats. *)
Definition narrowing (s s' : auctionState) : Prop :=
  seats_narrowed (as_seats s) (as_seats s') ∧ ∀ l, offer_kept (as_store s) (as_store s') l.
#[global] Instance narrowing_preorder : PreOrder narrowing.
Proof.
  split; [intros s; split; [done|]; by intros l b Hb; exists b|].
  intros a b c [H1 K1] [H2 K2]. split; [by etrans|]. intros l. by eapply offer_kept_trans.
Qed.

(** ** Floors *)
Section Narrowing.
Context `{MapRange}.

Lemma report_all_same rejected : ∀ s s', report_all rejected s = Some s' → as_store s' = as_store s ∧ as_seats s' = as_seats s.
Proof.
  induction rejected as [|r rest IH]; intros s s'; cbn [report_all]; [by intros [= <-]|].
  destruct (report_rejected s r) as [s1|] eqn:E; [|done]. cbn [mbind option_bind]. intros Hs. destruct (IH _ _ Hs) as [-> ->].
  unfold report_rejected in E. destruct (head _); [|done]. cbn [mbind option_bind] in E. destruct (as_store s !! _) as [p|]; [|done]. cbn [mbind option_bind] in E.
  destruct (pb_Bid p); [|done]. cbn [mbind option_bind] in E. destruct (pb_BidFloors p); [|done]. by injection E as <-.
Qed.

Lemma Enforce_narrows st r seats account conv intn rebuild out :
  Enforce st r seats account conv intn rebuild = Some out →
  seats_narrowed seats (e_seats out) ∧ ∀ l, bid_of (e_store out) l = bid_of st l.
Proof.
  unfold Enforce. destruct (GetRequestExt r) as [[x err] r1]. destruct err; [by intros [= <-]|].
  destruct (isPriceFloorsEnabled account r1) as [enabled r2]. destruct enabled; cbn [negb]; [|by intros [= <-]].
  destruct (_ || _); [by intros [= <-]|]. destruct (updateEnforcePBS _ _) as [updated x']. destruct (if updated then rebuild else None); [by intros [= <-]|].
  destruct (updateBidExt st _ seats) as [[st' imps]|] eqn:Eu; [|done]. cbn [mbind option_bind].
  pose proof (λ l, note_bids_bid_of _ _ _ l Eu) as Hst. cbn [fst] in Hst.
  destruct (isSatisfiedByEnforceRate _ _ _); [|by intros [= <-]].
  destruct (enforceFloorToBids _ _ _ _ _ _) as [[[seats' errs] rejected]|] eqn:Ee; [|done]. cbn [mbind option_bind]. intros [= <-]. cbn [e_seats e_store].
  split; [|done]. apply enforce_seats_spec in Ee as (Hother & Hin & _); [|auto with go]. intros name seat' Hs.
  destruct (decide (name ∈ (map_range seats).*1)) as [([n s] & -> & Hv)%list_elem_of_fmap|Hn].
  - cbn [fst] in Hs |- *. destruct (Hin n s Hv) as (s' & Hs' & Hc & _ & _ & Hel). rewrite Hs' in Hs. injection Hs as <-.
    exists s. split; [by apply elem_of_map_range|]. split; [done|]. intros l Hl. by apply Hel in Hl as [? _].
  - rewrite (Hother name Hn) in Hs. by exists seat'.
Qed.
Lemma enforce_stage_narrows fl r account conv intn rebuild s s' : enforce_stage fl r account conv intn rebuild s = Some s' → narrowing s s'.
Proof.
  unfold enforce_stage. destruct fl; [|by intros [= <-]]. destruct (Enforce _ _ _ _ _ _ _) as [o|] eqn:Eo; [|done]. cbn [mbind option_bind]. intros Hr.
  apply report_all_same in Hr as [Est Ese]. simpl in Est, Ese. apply Enforce_narrows in Eo as [Hn Hst]. split; [by rewrite Ese|].
  intros l. apply offer_kept_same. by rewrite Est.
Qed.

(** ** Categories *)
Lemma remove_at_subset {A} i (l : list A) x : x ∈ remove_at i l → x ∈ l.
Proof. unfold remove_at. intros [Hx|Hx]%elem_of_app; [by eapply subseteq_take|by eapply subseteq_drop]. Qed.
Lemma remove_indices_subset {A} idx (l : list A) x : x ∈ remove_indices idx l → x ∈ l.
Proof.
  unfold remove_indices. induction (sort_Ints idx) as [|i rest IH]; simpl; [done|]. intros Hx. apply IH. by eapply remove_at_subset.
Qed.
Lemma removeBidById_narrows st seat id seat' : removeBidById st seat id = Some seat' → seat_narrowed seat seat'.
Proof.
  unfold removeBidById. destruct (find_bid st id (seat_Bids seat)) as [[i|]|]; [|by intros [= <-]|done]. cbn [mbind option_bind].
  intros [= <-]. apply narrowed_by. intros l. apply remove_at_subset.
Qed.
Lemma drop_older_narrows st name dupe s s' : drop_older st name dupe s = Some s' → seats_narrowed (cm_seats s) (cm_seats s').
Proof.
  unfold drop_older. destruct (_ =s? _); [by intros [= <-]|]. destruct (cm_seats s !! _) as [old|] eqn:Eo; [|done]. cbn [mbind option_bind].
  destruct (_ =? _)%nat; [by intros [= <-]|]. destruct (removeBidById st old _) as [seat'|] eqn:Er; [|done]. cbn [mbind option_bind]. intros [= <-].
  simpl. eapply seats_narrowed_insert; [done|]. by eapply removeBidById_narrows.
Qed.

Section Categories.
Context (st : bid_store) (targeting : categoryTargeting) (ext : ExtIncludeBrandCategory)
        (FetchCategories : string → string → string → option string) (bucket : Bid → loc → option string) (dedupeCoin : loc → bool)
        (translate : bool) (server publisher : string).
Local Abbreviation map_bid' := (map_bid st targeting ext FetchCategories bucket dedupeCoin translate server publisher).
Local Abbreviation map_bids' := (map_bids st targeting ext FetchCategories bucket dedupeCoin translate server publisher).
Local Abbreviation map_seat' := (map_seat st targeting ext FetchCategories bucket dedupeCoin translate server publisher).
Local Abbreviation map_seats' := (map_seats st targeting ext FetchCategories bucket dedupeCoin translate server publisher).

Lemma map_bid_narrows name i l s s' : map_bid' name i l s = Some s' → seats_narrowed (cm_seats s) (cm_seats s').
Proof.
  unfold map_bid. destruct (st !! l) as [p|]; [|done]. cbn [mbind option_bind]. destruct (pb_Bid p) as [b|]; [|done]. cbn [mbind option_bind].
  destruct (label_bid _ _ _ _ _ _ _ _ _ _ _) as [[reason nb|k cd pb]|]; [| |done]; cbn [mbind option_bind].
  - intros [= <-]. by destruct nb.
  - destruct (cm_dedupe s !! k) as [dupe|]; [|by intros [= <-]]. destruct (replaces _ _ _); [|by intros [= <-]].
    destruct (drop_older _ _ _ _) as [s1|] eqn:Ed; [|done]. cbn [mbind option_bind]. intros [= <-]. simpl. by eapply drop_older_narrows.
Qed.
Lemma map_bids_narrows name bids : ∀ i s s', map_bids' name i bids s = Some s' → seats_narrowed (cm_seats s) (cm_seats s').
Proof.
  induction bids as [|l bids IH]; intros i s s'; cbn [map_bids]; [by intros [= <-]|].
  destruct (map_bid' name i l s) as [s1|] eqn:E; [|done]. cbn [mbind option_bind]. intros Hs. etrans; [by eapply map_bid_narrows|by eapply IH].
Qed.
Lemma finish_seat_narrows name seat s : cm_seats s !! name = Some seat → seats_narrowed (cm_seats s) (cm_seats (finish_seat name seat s)).
Proof.
  intros Hs. unfold finish_seat. destruct (cm_bidsToRemove s) as [|i rest]; [done|]. destruct (_ =? _)%nat; [done|]. cbn [cm_seats].
  eapply seats_narrowed_insert; [done|]. apply narrowed_by. intros l. apply remove_indices_subset.
Qed.
Lemma map_seat_narrows s name s' : map_seat' s name = Some s' → seats_narrowed (cm_seats s) (cm_seats s').
Proof.
  unfold map_seat. destruct (cm_seats s !! name) as [seat|]; [|done]. cbn [mbind option_bind].
  destruct (map_bids' _ _ _ _) as [s1|] eqn:E; [|done]. cbn [mbind option_bind]. destruct (cm_seats s1 !! name) as [seat1|] eqn:E1; [|done]. cbn [mbind option_bind].
  intros [= <-]. apply map_bids_narrows in E. simpl in E. etrans; [exact E|]. by apply finish_seat_narrows.
Qed.
Lemma map_seats_narrows names : ∀ s s', map_seats' names s = Some s' → seats_narrowed (cm_seats s) (cm_seats s').
Proof.
  induction names as [|n names IH]; intros s s'; cbn [map_seats]; [by intros [= <-]|].
  destruct (map_seat' s n) as [s1|] eqn:E; [|done]. cbn [mbind option_bind]. intros Hs. etrans; [by eapply map_seat_narrows|by eapply IH].
Qed.
End Categories.
Lemma clear_seats_narrows names : ∀ m, seats_narrowed m (clear_seats names m).
Proof.
  unfold clear_seats. induction names as [|n names IH]; intros m; cbn [foldl]; [done|]. etrans; [|apply IH].
  intros k seat'. rewrite lookup_alter. case_decide; [|by intros Hs; exists seat']. subst k. destruct (m !! n) as [seat|]; [|done]. intros [= <-].
  exists seat. split; [done|]. apply narrowed_by. set_solver.
Qed.
Lemma category_stage_narrows t FetchCategories bucket coin s cats s' :
  category_stage t FetchCategories bucket coin s = Some (Ok (cats, s')) → narrowing s s'.
Proof.
  unfold category_stage. destruct t as [t|]; [|by intros [= _ <-]]. destruct (ct_IncludeBrandCategory t) as [ext|] eqn:Et; [|by intros [= _ <-]].
  unfold applyCategoryMapping. rewrite Et. destruct (mapping_source ext) as [[[tr server] pub]|]; [|done].
  unfold category_loop. destruct (map_seats _ _ _ _ _ _ _ _ _ _ _) as [c|] eqn:Ec; [|done]. cbn [mbind option_bind rbind].
  intros [= _ <-]. split; [|intros l; apply offer_kept_refl]. simpl. etrans; [|apply clear_seats_narrows]. by apply map_seats_narrows in Ec.
Qed.

(** ** Generated ids and events *)
Lemma alter_keeps_bid f st l k : (∀ p, pb_Bid (f p) = pb_Bid p) → bid_of (alter f k st) l = bid_of st l.
Proof. intros Hf. unfold bid_of. rewrite lookup_alter. case_decide; [|done]. subst. destruct (st !! l); simpl; [apply Hf|done]. Qed.
Lemma give_ids_keep newID bidder ls : ∀ acc l, bid_of (foldl (give_id newID bidder) acc ls).1 l = bid_of acc.1 l.
Proof.
  induction ls as [|k ls IH]; intros acc l; cbn [foldl]; [done|]. rewrite IH. unfold give_id. destruct (newID bidder k); [|done].
  simpl. by apply alter_keeps_bid.
Qed.
Lemma id_stage_narrows enabled newID s : narrowing s (id_stage enabled newID s).
Proof.
  unfold id_stage. destruct enabled; [|done].
  assert (∀ kvs acc l, bid_of (foldl (λ acc '(bidder, seat), foldl (give_id newID bidder) acc (seat_Bids seat)) acc kvs).1 l = bid_of acc.1 l) as Hk.
  { induction kvs as [|[k v] kvs IH]; intros acc l; cbn [foldl]; [done|]. by rewrite IH, give_ids_keep. }
  specialize (Hk (map_range (as_seats s)) (as_store s, [])). destruct (foldl _ _ _) as [st errs]. split; [done|].
  intros l. apply offer_kept_same. apply Hk.
Qed.

Lemma insert_keeps_offer st l p p' k : st !! l = Some p → (∀ b', pb_Bid p' = Some b' → ∃ b, pb_Bid p = Some b ∧ same_bid_but_markup b b') →
  offer_kept st (<[l := p']> st) k.
Proof.
  intros Hp Hb b'. unfold bid_of. destruct (decide (k = l)) as [->|Hne].
  - rewrite lookup_insert_eq, Hp. simpl. apply Hb.
  - rewrite lookup_insert_ne by done. intros ?. by exists b'.
Qed.
Section Events_.
Context `{FloatText} `{XmlText} (ev : eventTracking).
Lemma event_bid_keeps name m st l st' k : event_bid ev name m st l = Some st' → offer_kept st st' k.
Proof.
  unfold event_bid. destruct (st !! l) as [p|] eqn:Ep; [|done]. cbn [mbind option_bind].
  destruct (if isModifyingVASTXMLAllowed ev name then _ else _) as [p'|] eqn:Em; [|done]. cbn [mbind option_bind].
  destruct (makeBidExtEvents ev p' name) as [e|]; [|done]. cbn [mbind option_bind]. intros [= <-]. eapply insert_keeps_offer; [done|].
  cbn [set_BidEvents pb_Bid]. destruct (isModifyingVASTXMLAllowed ev name); [|injection Em as <-; intros b' Hb; by exists b'].
  unfold modifyBidVAST in Em. destruct (negb _); [injection Em as <-; intros b' Hb; by exists b'|].
  destruct (pb_Bid p) as [b|] eqn:Eb; [|done]. cbn [mbind option_bind] in Em. destruct (_ && _); injection Em as <-.
  - intros b' Hb. rewrite Eb in Hb. by exists b'.
  - intros b' [= <-]. by exists b.
Qed.
Lemma event_bids_keep name m bids : ∀ st st' k, event_bids ev name m bids st = Some st' → offer_kept st st' k.
Proof.
  induction bids as [|l bids IH]; intros st st' k; cbn [event_bids]; [intros [= <-]; apply offer_kept_refl|].
  destruct (event_bid ev name m st l) as [st1|] eqn:E; [|done]. cbn [mbind option_bind]. intros Hs.
  eapply offer_kept_trans; [by eapply event_bid_keeps|by eapply IH].
Qed.
Lemma event_seats_keep m seats : ∀ st st' k, event_seats ev m seats st = Some st' → offer_kept st st' k.
Proof.
  induction seats as [|[name seat] seats IH]; intros st st' k; cbn [event_seats]; [intros [= <-]; apply offer_kept_refl|].
  destruct (event_bids ev name m (seat_Bids seat) st) as [st1|] eqn:E; [|done]. cbn [mbind option_bind]. intros Hs.
  eapply offer_kept_trans; [by eapply event_bids_keep|by eapply IH].
Qed.
End Events_.

(** ** The limit of bids *)
Section Limit.
Context `{GoSort} (preferDeals : bool) (limit : Z).
Lemma clear_bids_keep snipped st l : offer_kept st (clear_bids snipped st) l.
Proof. intros b. rewrite clear_bids_lookup. case_decide; [done|]. intros Hb. by exists b. Qed.
Lemma trim_bids_keep st bids st' kept cut l : trim_bids preferDeals limit st bids = Some (st', kept, cut) → offer_kept st st' l.
Proof.
  unfold trim_bids. destruct (_ && negb _); [done|]. destruct (_ && _); [|intros [= <- _ _]; apply offer_kept_refl].
  destruct (limit <? 0); [done|]. intros [= <- _ _]. apply clear_bids_keep.
Qed.
Lemma trim_bidders_keep entries : ∀ st st' kept cut l, trim_bidders preferDeals limit st entries = Some (st', kept, cut) → offer_kept st st' l.
Proof.
  induction entries as [|[bidder bids] entries IH]; intros st st' kept cut l; cbn [trim_bidders]; [intros [= <- _ _]; apply offer_kept_refl|].
  destruct (trim_bids _ _ st bids) as [[[st1 k1] c1]|] eqn:E1; [|done]. cbn [mbind option_bind].
  destruct (trim_bidders _ _ st1 entries) as [[[st2 k2] c2]|] eqn:E2; [|done]. cbn [mbind option_bind]. intros [= <- _ _].
  eapply offer_kept_trans; [by eapply trim_bids_keep|by eapply IH].
Qed.
Lemma trim_imps_keep entries : ∀ st st' kept cut l, trim_imps preferDeals limit st entries = Some (st', kept, cut) → offer_kept st st' l.
Proof.
  induction entries as [|[imp m] entries IH]; intros st st' kept cut l; cbn [trim_imps]; [intros [= <- _ _]; apply offer_kept_refl|].
  destruct (trim_bidders _ _ st (map_range m)) as [[[st1 k1] c1]|] eqn:E1; [|done]. cbn [mbind option_bind].
  destruct (trim_imps _ _ st1 entries) as [[[st2 k2] c2]|] eqn:E2; [|done]. cbn [mbind option_bind]. intros [= <- _ _].
  eapply offer_kept_trans; [by eapply trim_bidders_keep|by eapply IH].
Qed.
Lemma multibid_narrows a st seats a' st' seats' :
  validateAndUpdateMultiBid preferDeals limit a st (Some <$> seats) = Some (a', st', seats') →
  seats_narrowed seats (omap id seats') ∧ ∀ l, offer_kept st st' l.
Proof.
  unfold validateAndUpdateMultiBid. destruct (trim_imps _ _ _ _) as [[[st1 imps] cut]|] eqn:E; [|done]. cbn [mbind option_bind].
  intros [= _ <- <-]. split; [|intros l; by eapply trim_imps_keep]. intros name seat'. rewrite lookup_omap.
  destruct cut; rewrite !lookup_fmap; destruct (seats !! name) as [seat|]; simpl; try done; intros [= <-]; exists seat; (split; [done|]); [|done].
  apply narrowed_by. intros l [_ Hl]%list_elem_of_filter. done.
Qed.
End Limit.

(** ** Deals and targeting *)
Lemma updateHbPbCatDur_keeps l t st cats st' cats' k : updateHbPbCatDur l t st cats = Some (st', cats') → bid_of st' k = bid_of st k.
Proof.
  unfold updateHbPbCatDur. destruct (st !! l) as [p|] eqn:Ep; [|done]. cbn [mbind option_bind]. destruct (_ <=? _); [|by intros [= <- _]].
  destruct (pb_Bid p) as [b|] eqn:Eb; [|done]. cbn [mbind option_bind]. intros [= <- _]. unfold bid_of.
  destruct (decide (k = l)) as [->|Hne]; [rewrite lookup_insert_eq, Ep; done|by rewrite lookup_insert_ne].
Qed.
Lemma deal_bids_keep imp bidder maxBid tier bids : ∀ i s s' k, deal_bids imp bidder maxBid tier i bids s = Some s' → bid_of (ds_store s') k = bid_of (ds_store s) k.
Proof.
  induction bids as [|l bids IH]; intros i s s' k; cbn [deal_bids]; [by intros [= <-]|]. destruct (_ =? _); [by intros [= <-]|].
  destruct (ds_store s !! l) as [p|]; [|done]. cbn [mbind option_bind].
  destruct (0 <? pb_DealPriority p); [destruct (validateDealTier tier)|]; cbn [mbind option_bind].
  - destruct (updateHbPbCatDur _ _ _ _) as [[st cats]|] eqn:E; [|done]. cbn [mbind option_bind]. intros Hs. rewrite (IH _ _ _ k Hs). simpl.
    by eapply updateHbPbCatDur_keeps.
  - intros Hs. by rewrite (IH _ _ _ k Hs).
  - intros Hs. by rewrite (IH _ _ _ k Hs).
Qed.
Lemma deal_bidders_keep core multiBid imp tiers kvs : ∀ s s' k, deal_bidders core multiBid imp tiers kvs s = Some s' → bid_of (ds_store s') k = bid_of (ds_store s) k.
Proof.
  induction kvs as [|[bidder bids] kvs IH]; intros s s' k; cbn [deal_bidders]; [by intros [= <-]|]. unfold deal_bidder at 1.
  destruct (bidsToUpdate _ _) as [n|]; [|done]. cbn [mbind option_bind]. destruct (deal_bids _ _ _ _ _ _ _) as [s1|] eqn:E; [|done]. cbn [mbind option_bind].
  intros Hs. rewrite (IH _ _ k Hs). by eapply deal_bids_keep.
Qed.
Lemma deal_imps_keep core multiBid tiers kvs : ∀ s s' k, deal_imps core multiBid tiers kvs s = Some s' → bid_of (ds_store s') k = bid_of (ds_store s) k.
Proof.
  induction kvs as [|[imp m] kvs IH]; intros s s' k; cbn [deal_imps]; [by intros [= <-]|].
  destruct (deal_bidders _ _ _ _ _ _) as [s1|] eqn:E; [|done]. cbn [mbind option_bind]. intros Hs. rewrite (IH _ _ k Hs). by eapply deal_bidders_keep.
Qed.
Section Keys.
Context (td : targetData) (a : auction) (env : string) (cats : gmap string string) (trunc : option Z).
Lemma target_bids_keep w pre maxBids bids : ∀ i code st st' k, target_bids td a env cats trunc w pre maxBids i code bids st = Some st' → bid_of st' k = bid_of st k.
Proof.
  induction bids as [|l bids IH]; intros i code st st' k; cbn [target_bids]; [by intros [= <-]|]. destruct (_ || _); [by intros [= <-]|].
  destruct (st !! l) as [p|] eqn:Ep; [|done]. cbn [mbind option_bind]. destruct (pb_Bid p) as [b|] eqn:Eb; [|done]. cbn [mbind option_bind].
  intros Hs. rewrite (IH _ _ _ _ k Hs). unfold bid_of. destruct (decide (k = l)) as [->|Hne]; [|by rewrite lookup_insert_ne].
  rewrite lookup_insert_eq, Ep. simpl. by destruct (_ <? _).
Qed.
Lemma target_bidders_keep mb w kvs : ∀ st st' k, target_bidders td a env cats trunc mb w kvs st = Some st' → bid_of st' k = bid_of st k.
Proof.
  induction kvs as [|[bidder bids] kvs IH]; intros st st' k; cbn [target_bidders]; [by intros [= <-]|].
  destruct (getMultiBidMeta mb bidder) as [[pre n]|]; [|done]. cbn [mbind option_bind]. destruct (target_bids _ _ _ _ _ _ _ _ _ _ _ _) as [st1|] eqn:E; [|done]. cbn [mbind option_bind].
  intros Hs. rewrite (IH _ _ k Hs). by eapply target_bids_keep.
Qed.
Lemma target_imps_keep mb kvs : ∀ st st' k, target_imps td a env cats trunc mb kvs st = Some st' → bid_of st' k = bid_of st k.
Proof.
  induction kvs as [|[imp m] kvs IH]; intros st st' k; cbn [target_imps]; [by intros [= <-]|].
  destruct (target_bidders _ _ _ _ _ _ _ _ _) as [st1|] eqn:E; [|done]. cbn [mbind option_bind]. intros Hs. rewrite (IH _ _ k Hs). by eapply target_bidders_keep.
Qed.
End Keys.
End Narrowing.

(** ** Building the response *)
Lemma build_seats_from `{BidJson} st v auc rc infos dsa cache seats : ∀ acc s out cur s',
  build_seats st v auc rc infos dsa cache seats acc s = Some (out, cur, s') →
  ∀ sb, sb ∈ out → sb ∈ acc.1 ∨ ∃ seat, (sb_Seat sb, Some seat) ∈ seats ∧
    ∀ b', b' ∈ sb_Bid sb → ∃ l b, l ∈ seat_Bids seat ∧ bid_of st l = Some b ∧ same_bid_but_markup b b'.
Proof.
  induction seats as [|[name o] seats IH]; intros acc s out cur s' Hb sb Hsb; cbn [build_seats] in Hb; [injection Hb as -> _; by left|].
  destruct o as [seat|]; [|destruct (IH _ _ _ _ _ Hb sb Hsb) as [?|(seat & ? & ?)]; [by left|right; exists seat; split; [set_solver|done]]].
  destruct (seat_Bids seat) as [|l0 ls] eqn:El.
  { destruct (IH _ _ _ _ _ Hb sb Hsb) as [?|(seat' & ? & ?)]; [by left|right; exists seat'; split; [set_solver|done]]. }
  destruct (makeSeatBid _ _ _ _ _ _ _ seat name s) as [[sb1 s1]|] eqn:Em; [|done]. cbn [mbind option_bind] in Hb.
  destruct (IH _ _ _ _ _ Hb sb Hsb) as [Hin|(seat' & ? & ?)]; [|right; exists seat'; split; [set_solver|done]].
  simpl in Hin. apply elem_of_app in Hin as [Hin|Hin]; [by left|]. apply list_elem_of_singleton in Hin as ->. right. exists seat.
  unfold makeSeatBid in Em. destruct (makeBid _ _ _ _ _ _ _ _ _ _ _) as [o|] eqn:Eo; [|done]. cbn [mbind option_bind] in Em.
  destruct (match bo_errs o with [] => _ | _ => _ end) as [ex|]; [|done]. cbn [mbind option_bind] in Em. injection Em as <- _. simpl. split; [set_solver|].
  intros b' Hb'. apply make_bids_spec in Eo as (_ & Er & _). simpl in Er. rewrite Er in Hb'. apply list_elem_of_omap in Hb' as (l & Hl & Hk).
  exists l. unfold kept, judge in Hk. unfold bid_of. destruct (st !! l) as [p|]; [|done]. cbn [mbind option_bind] in Hk |- *.
  destruct (dsa_Validate dsa p); [done|]. destruct (pb_Bid p) as [b|]; [|done]. cbn [mbind option_bind] in Hk. exists b.
  destruct (negb _); [done|]. destruct (negb _); [done|]. destruct (makeBidExtJSON _ _ _ _ _ _) as [[json|?]|]; try done. cbn [mbind option_bind] in Hk. by injection Hk as <-.
Qed.

(** ** The stages together *)
Lemma narrowing_store s st seats : seats_narrowed (as_seats s) seats → (∀ l, offer_kept (as_store s) st l) → ∀ nb errs,
  narrowing s {| as_store := st; as_seats := seats; as_nonBids := nb; as_errs := errs |}.
Proof. by split. Qed.

Section Pipeline.
Context `{FloatText} `{XmlText} `{BidJson} `{CacheJson} `{MapRange} `{GoSort}.
Context (x : exchangeEnv) (r : auctionInput) (ev : eventTracking) (macros : MacroProvider)
        (hook : bid_store → gmap string PbsOrtbSeatBid → bid_store * gmap string PbsOrtbSeatBid).

Lemma targeting_stage_narrows td cats extra fledge d s a s' d' sent :
  targeting_stage x r ev td cats extra fledge d s = Some (a, s', d', sent) → narrowing s s'.
Proof.
  unfold targeting_stage. destruct (newAuction _ _ _ _ _) as [a0|]; [|done]. cbn [mbind option_bind].
  destruct (validateAndUpdateMultiBid _ _ _ _ _) as [[[a1 st1] seats1]|] eqn:Em; [|done]. cbn [mbind option_bind as_store as_seats].
  apply multibid_narrows in Em as [Hn1 Hk1]. destruct (setRoundedPrices _ _ _) as [a2|]; [|done]. cbn [mbind option_bind].
  match goal with |- context [if ai_supportDeals r then ?e else ?f] =>
    assert (∀ s2 c2, (if ai_supportDeals r then e else f) = Some (s2, c2) → as_seats s2 = omap id seats1 ∧ ∀ l, bid_of (as_store s2) l = bid_of st1 l) as Hdeal end.
  { intros s2 c2. destruct (ai_supportDeals r); [|by intros [= <- _]]. destruct (applyDealSupport _ _ _ _ _ _) as [ds|] eqn:Ed; [|done]. cbn [mbind option_bind].
    intros [= <- _]. split; [done|]. intros l. by apply deal_imps_keep with (k := l) in Ed. }
  destruct (if ai_supportDeals r then _ else _) as [[s2 c2]|]; [|done]. cbn [mbind option_bind]. destruct (Hdeal _ _ eq_refl) as [Hs2 Hb2].
  destruct (log_response _ _ _) as [d1 e1]. destruct (doCache _ _ _ _ _ _ _ _ _ _ _ _) as [[[[a3 e3] log] sent3]|]; [|done]. cbn [mbind option_bind].
  match goal with |- context [if ?c then setTargeting ?p1 ?p2 ?p3 ?p4 ?p5 ?p6 ?p7 else ?q] =>
    assert (∀ st4, (if c then setTargeting p1 p2 p3 p4 p5 p6 p7 else q) = Some st4 → ∀ l, bid_of st4 l = bid_of (as_store s2) l) as Ht end.
  { intros st4. destruct (_ || _); [|by intros [= <-]]. unfold setTargeting. intros Hs l. by apply target_imps_keep with (k := l) in Hs. }
  destruct (if _ || _ then _ else _) as [st4|]; [|done]. cbn [mbind option_bind]. intros [= _ <- _ _]. split; simpl; [by rewrite Hs2|].
  intros l. eapply offer_kept_trans; [apply Hk1|]. apply offer_kept_same. by rewrite (Ht _ eq_refl), Hb2.
Qed.

(** The state after the hooks on all processed responses, which may change the bids and the seats in any way. *)
Definition hooked (s : auctionState) : auctionState :=
  {| as_store := (hook (as_store s) (as_seats s)).1; as_seats := (hook (as_store s) (as_seats s)).2;
     as_nonBids := as_nonBids s; as_errs := as_errs s |}.

(** Before the hooks and after them the bids are only narrowed. *)
Lemma bid_stages_narrow extra fledge d s auc s' d' sent :
  bid_stages x r ev macros hook extra fledge d s = Some (Ok (auc, s', d', sent)) →
  ∃ s1 s4, enforce_stage (xe_priceFloorEnabled x) (ai_floorRequest r) (ai_floorAccount r) (ai_conversions r) (xe_intn x) (xe_rebuild x) s = Some s1 ∧
    narrowing s1 s4 ∧ narrowing (hooked s4) s'.
Proof.
  unfold bid_stages. destruct (enforce_stage _ _ _ _ _ _ _) as [s1|]; [|done]. cbn [mbind option_bind].
  destruct (category_stage _ _ _ _ s1) as [[[cats s2]|e]|] eqn:Ec; [|done..]. cbn [mbind option_bind]. apply category_stage_narrows in Ec.
  pose proof (id_stage_narrows (xe_bidIDEnabled x) (xe_newID x) s2) as Hid. set (s3 := id_stage _ _ s2) in *.
  destruct (modifyBidsForEvents ev macros (as_seats s3) (as_store s3)) as [st4|] eqn:Ee; [|done]. cbn [mbind option_bind].
  set (s4 := {| as_store := st4; as_seats := as_seats s3; as_nonBids := as_nonBids s3; as_errs := as_errs s3 |}).
  assert (Hn4 : narrowing s1 s4).
  { etrans; [exact Ec|]. etrans; [exact Hid|]. apply narrowing_store; [done|]. intros l. by eapply event_seats_keep. }
  intros Hs. exists s1, s4. split_and!; [done..|]. unfold hooked. simpl. destruct (hook st4 (as_seats s3)) as [st5 seats5]. simpl in Hs |- *.
  destruct (ai_targData r) as [td|].
  - destruct (targeting_stage _ _ _ _ _ _ _ _ _) as [[[[a s6] d6] sent6]|] eqn:Et; [|done]. injection Hs as _ <- _ _.
    by eapply targeting_stage_narrows.
  - injection Hs as _ <- _ _. apply narrowing_store; [done|]. intros l. apply offer_kept_refl.
Qed.

End Pipeline.

Lemma allocate_seats_domain seats : ∀ next name, name ∉ seats.*1 → (allocate_seats next seats).2 !! name = None.
Proof.
  induction seats as [|[n s] seats IH]; intros next name Hn; cbn [allocate_seats]; [apply lookup_empty|].
  rewrite fmap_cons in Hn. apply not_elem_of_cons in Hn as [Hne Hn]. specialize (IH (next + length (sr_Bids s))%nat name Hn).
  destruct (allocate_seats _ seats) as [st m]. simpl in *. by rewrite lookup_insert_ne.
Qed.
(** An allocated seat reads the bids of the seat it comes from. *)
Lemma allocated_bid seats name seat l : (allocate seats).2 !! name = Some seat → l ∈ seat_Bids seat →
  ∃ offered p, seats !! name = Some offered ∧ seat_Currency seat = sr_Currency offered ∧ p ∈ sr_Bids offered ∧ (allocate seats).1 !! l = Some p.
Proof.
  intros Hs Hl. destruct (seats !! name) as [offered|] eqn:Eo.
  - destruct (allocate_spec _ _ _ Eo) as (seat' & Hs' & Hc & Hm). rewrite Hs in Hs'. injection Hs' as <-. apply mapM_Some in Hm.
    apply list_elem_of_lookup in Hl as [i Hi]. destruct (Forall2_lookup_l _ _ _ _ _ Hm Hi) as (p & Hp & Hlp). exists offered, p.
    split_and!; [done..| |done]. by eapply list_elem_of_lookup_2.
  - exfalso. assert (name ∉ (map_to_list seats).*1) as Hn.
    { intros ([n s] & -> & Hin)%list_elem_of_fmap. apply elem_of_map_to_list in Hin. simpl in Eo. congruence. }
    unfold allocate in Hs. by rewrite allocate_seats_domain in Hs.
Qed.

(** ** The response *)
Section Response_.
Context `{FloatText} `{XmlText} `{BidJson} `{CacheJson} `{MapRange} `{GoSort}.
Context (x : exchangeEnv) (r : auctionInput) (ev : eventTracking) (macros : MacroProvider)
        (hook : bid_store → gmap string PbsOrtbSeatBid → bid_store * gmap string PbsOrtbSeatBid).

(** Floors are on for the exchange, the account, the request and the draw. *)
Definition floors_enforced : Prop :=
  xe_priceFloorEnabled x = true ∧ xe_rebuild x = None ∧ rw_ExtErr (ai_floorRequest r) = None ∧
  enforcing (ai_floorRequest r) (ai_floorAccount r) (xe_intn x) = true ∧ isEnforcementEnabled (rw_Prebid (ai_floorRequest r)) = true.
(** A bid reaches the floor of its impression, or is a deal and deal floors are not enforced. *)
Definition reaches_floor (currency : string) (b : Bid) : Prop :=
  ∃ imp, make_imp_map (rw_Imp (ai_floorRequest r)) !! bid_ImpID b = Some imp ∧
    ((bid_DealID b ≠ "" ∧ apf_EnforceDealFloors (ai_floorAccount r) && getEnforceDealsFlag (rw_Prebid (ai_floorRequest r)) = false) ∨
     ¬ below_floor (ai_conversions r) currency imp b).

Lemma reaches_floor_same cur b b' : same_bid_but_markup b b' → reaches_floor cur b → reaches_floor cur b'.
Proof.
  intros (_ & Ei & Ep & Ed & _) (imp & Hi & Hb). exists imp. rewrite Ei, Ed. split; [done|]. unfold below_floor in *. by rewrite Ep.
Qed.
Lemma enforced_seat_reaches s s1 name seat l b :
  enforce_stage (xe_priceFloorEnabled x) (ai_floorRequest r) (ai_floorAccount r) (ai_conversions r) (xe_intn x) (xe_rebuild x) s = Some s1 →
  floors_enforced → as_seats s1 !! name = Some seat → l ∈ seat_Bids seat → bid_of (as_store s) l = Some b → reaches_floor (seat_Currency seat) b.
Proof.
  intros He (Hon & Hre & Hext & Hen & Hpbs) Hs Hl Hb. unfold enforce_stage in He. rewrite Hon, Hre in He.
  destruct (Enforce _ _ _ _ _ _ _) as [o|] eqn:Eo; [|done]. cbn [mbind option_bind] in He. apply report_all_same in He as [_ Es]. simpl in Es. rewrite Es in Hs.
  by eapply enforced_bid_reaches_floor.
Qed.

(** A bid is an offer for a seat: a bidder that did not panic returned it for that seat with the id,
    impression, price, deal, size and creative it has, and where floors are enforced it reaches its floor. *)
Definition offered_for (arrivals : list bidderRun) (seat : string) (bid : Bid) : Prop :=
  ∃ run offered p o, run ∈ arrivals ∧ p ∈ run_bids seat run ∧ pb_Bid p = Some o ∧ same_bid_but_markup o bid ∧
    ab_adapterBids (getAllBids arrivals) !! seat = Some offered ∧ p ∈ sr_Bids offered ∧
    (floors_enforced → reaches_floor (sr_Currency offered) bid).

(** A bid left by the stages before the hooks is an offer. *)
Lemma narrowed_bid_offered arrivals st0 seats0 nb errs s1 s4 name seat l b :
  allocate (ab_adapterBids (getAllBids arrivals)) = (st0, seats0) →
  let s0 := {| as_store := st0; as_seats := seats0; as_nonBids := nb; as_errs := errs |} in
  enforce_stage (xe_priceFloorEnabled x) (ai_floorRequest r) (ai_floorAccount r) (ai_conversions r) (xe_intn x) (xe_rebuild x) s0 = Some s1 →
  narrowing s1 s4 → as_seats s4 !! name = Some seat → l ∈ seat_Bids seat → bid_of (as_store s4) l = Some b → offered_for arrivals name b.
Proof.
  intros Ea s0 He [Hs1 Hk1] Hseat Hl Hb. destruct (Hs1 _ _ Hseat) as (seat1 & Hseat1 & Hcur1 & Hin1). specialize (Hin1 l Hl).
  destruct (enforce_stage_narrows _ _ _ _ _ _ _ _ He) as [Hs0 Hk0]. destruct (Hs0 _ _ Hseat1) as (seat0 & Hseat0 & Hcur0 & Hin0). specialize (Hin0 l Hin1).
  destruct (Hk1 l b Hb) as (b1 & Hb1 & Hsame1). destruct (Hk0 l b1 Hb1) as (b0 & Hb0 & Hsame0).
  assert (Hall : (allocate (ab_adapterBids (getAllBids arrivals))).2 !! name = Some seat0) by (by rewrite Ea).
  destruct (allocated_bid _ _ _ l Hall Hin0) as (offered & p & Hoff & Hcur & Hp & Hst). rewrite Ea in Hst. simpl in Hst.
  unfold bid_of in Hb0. simpl in Hb0. rewrite Hst in Hb0. simpl in Hb0.
  assert (same_bid_but_markup b0 b) as Hsb0 by (etrans; [exact Hsame0|exact Hsame1]).
  assert (∃ run, run ∈ arrivals ∧ p ∈ run_bids name run) as (run & Hrun & Hrp).
  { pose proof (collected_bids arrivals name) as Hc. rewrite Hoff in Hc. simpl in Hc. rewrite Hc in Hp.
    apply list_elem_of_join in Hp as (ls & Hp & Hls). apply list_elem_of_fmap in Hls as (run & -> & Hrun). by exists run. }
  exists run, offered, p, b0. split_and!; [done..|]. intros Hfl. eapply reaches_floor_same; [exact Hsb0|]. rewrite <-Hcur, <-Hcur0.
  eapply enforced_seat_reaches; [exact He|done..|]. unfold bid_of. simpl. by rewrite Hst.
Qed.

(** C11: Every bid of a response was offered, or put there by the hooks on all processed responses,
    about which nothing is assumed.  Whatever the order of the answers and of the maps and the draws:
    the hooks are given only offers, that is bids which a bidder that did not panic returned for that seat with the
    id, impression, price, deal, size and creative they have, and which reach the floor of their impression when
    floors are enforced; and every bid in a seat of the response is a bid the hooks left in the seat of that name,
    the same but for its markup.  So with hooks that leave the bids alone every bid of the response is an offer. *)
Theorem response_bids_offered live arrivals errs d resp b d' sent :
  finish_auction x r ev macros hook (answers_of_bidders live arrivals) errs d = Some (Ok (resp, b, d', sent)) →
  ∃ st seats,
    (∀ name seat l bid, seats !! name = Some seat → l ∈ seat_Bids seat → bid_of st l = Some bid → offered_for arrivals name bid) ∧
    ∀ sb bid, sb ∈ bs_SeatBid resp → bid ∈ sb_Bid sb →
      ∃ seat l bl, (hook st seats).2 !! sb_Seat sb = Some seat ∧ l ∈ seat_Bids seat ∧
        bid_of (hook st seats).1 l = Some bl ∧ same_bid_but_markup bl bid.
Proof.
  intros Hf. unfold finish_auction in Hf. simpl in Hf.
  destruct (allocate (ab_adapterBids (getAllBids arrivals))) as [st0 seats0] eqn:Ea.
  set (s0 := {| as_store := st0; as_seats := seats0; as_nonBids := _; as_errs := errs |}) in Hf.
  destruct (if ab_bidsFound _ then _ else _) as [[[[[auc s'] d1] sent1]|e]|] eqn:Es in Hf; [|done..]. cbn [mbind option_bind] in Hf.
  destruct (buildBidResponse _ _ _ _ _ _ _ _ _ _ _) as [[resp1 b1]|] eqn:Eb; [|done]. cbn [mbind option_bind] in Hf. injection Hf as -> _ _ _.
  assert (Hresp : ∀ sb bid, sb ∈ bs_SeatBid resp → bid ∈ sb_Bid sb → ∃ seat l bl, as_seats s' !! sb_Seat sb = Some seat ∧ l ∈ seat_Bids seat ∧
    bid_of (as_store s') l = Some bl ∧ same_bid_but_markup bl bid).
  { intros sb bid Hsb Hbid. unfold buildBidResponse in Eb. destruct (build_seats _ _ _ _ _ _ _ _ _ _) as [[[out cur] s2]|] eqn:Eo; [|done]. cbn [mbind option_bind] in Eb.
    injection Eb as <- _. simpl in Hsb. destruct (build_seats_from _ _ _ _ _ _ _ _ _ _ _ _ _ Eo sb Hsb) as [Hnil|(seat' & Hseat & Hbids)]; [by apply elem_of_nil in Hnil|].
    apply elem_of_map_range in Hseat. rewrite lookup_fmap in Hseat. destruct (as_seats s' !! sb_Seat sb) as [seat2|]; [|done]. injection Hseat as ->.
    destruct (Hbids bid Hbid) as (l & b' & Hl & Hb' & Hsame). by exists seat', l, b'. }
  destruct (ab_bidsFound (getAllBids arrivals)) eqn:Ef.
  - apply bid_stages_narrow in Es as (s1 & s4 & He & Hn14 & [Hsn Hkn]). exists (as_store s4), (as_seats s4). split.
    { intros name seat l bid. by eapply narrowed_bid_offered. }
    intros sb bid Hsb Hbid. destruct (Hresp sb bid Hsb Hbid) as (seat & l & bl & Hs & Hl & Hlb & Hsame).
    destruct (Hsn _ _ Hs) as (seat5 & Hs5 & _ & Hin5). destruct (Hkn l bl Hlb) as (bl5 & Hb5 & Hsame5).
    exists seat5, l, bl5. split_and!; [done|by apply Hin5|done|]. etrans; [exact Hsame5|exact Hsame].
  - exists ∅, ∅. split; [intros name seat l bid Hs; by rewrite lookup_empty in Hs|].
    intros sb bid Hsb Hbid. exfalso. destruct (Hresp sb bid Hsb Hbid) as (seat & l & bl & Hs & _).
    destruct (log_response _ _ _) as [d2 e2]. injection Es as _ <- _ _. simpl in Hs.
    assert (Hall : (allocate (ab_adapterBids (getAllBids arrivals))).2 !! sb_Seat sb = Some seat) by (by rewrite Ea).
    rewrite collected_found in Ef. apply bool_decide_eq_false, dec_stable in Ef. rewrite Ef in Hall. by vm_compute in Hall.
Qed.
End Response_.

(** One bidder offers two bids for an impression with a floor of 3 USD; another panics.  The response
    has the bid of 4, targeted. *)
Definition hold_bid (id : string) (price : float64) : PbsOrtbBid :=
  plain_bid (Some {| bid_ID := id; bid_ImpID := "i1"; bid_Price := price; bid_AdM := "<b>"; bid_NURL := ""; bid_DealID := ""; bid_W := 300;
    bid_H := 250; bid_Exp := 0; bid_MType := 1; bid_ExtType := None; bid_CrID := "cr"; bid_ADomain := []; bid_Cat := []; bid_CatTax := 0;
    bid_Dur := 0; bid_Ext := "" |}) BidTypeBanner.
Definition hold_arrivals : list bidderRun :=
  [demo_run "rubicon" None;
   demo_run "appnexus" (Some {| sr_Bids := [hold_bid "low" (fofZ 2); hold_bid "high" (fofZ 4)]; sr_Currency := "USD"; sr_Fledge := None;
                                sr_HttpCalls := []; sr_Seat := "appnexus" |})].
Definition hold_env : exchangeEnv :=
  {| xe_priceFloorEnabled := true; xe_bidIDEnabled := false; xe_validations := demo_validation; xe_coreBidders := ["appnexus"; "rubicon"];
     xe_cacheData := ("", "", ""); xe_FetchCategories := λ _ _ _, None; xe_categoryBucket := λ _ _, Some "4.00"; xe_bucket := λ _ _, Some "4.00";
     xe_dedupeCoin := λ _, true; xe_intn := λ _, 50; xe_rebuild := None; xe_newID := λ _ _, None; xe_newUuid := None; xe_strip := id;
     xe_PutJson := demo_put; xe_marshalExt := λ _, None |}.
Definition hold_input : auctionInput :=
  {| ai_requestID := "req"; ai_tmax := 500; ai_imps := [("i1", 0, None)]; ai_env := ""; ai_targData := Some demo_targData; ai_category := None;
     ai_multiBid := None; ai_supportDeals := false; ai_passthrough := None; ai_resolvedRequest := ""; ai_timestamp := 0;
     ai_responseDebugAllow := false; ai_accountDebugAllow := true; ai_warnings := []; ai_returnCreative := true; ai_impExtInfo := ∅; ai_dsa := None;
     ai_floorRequest := set_rw_Imp [floored_imp] sample_request; ai_floorAccount := enforcing_account; ai_conversions := no_rates;
     ai_seatWeights := ∅; ai_bidLimit := 0; ai_truncate := None; ai_ttls := demo_ttls; ai_validations := demo_validation |}.
Definition hold_events : eventTracking :=
  {| et_accountID := "acct"; et_enabledForAccount := false; et_enabledForRequest := false; et_auctionTimestampMs := 0; et_integrationType := "";
     et_ModifyingVastXmlAllowed := ∅; et_externalURL := ""; et_events := demo_events; et_version := "" |}.
Definition demoXml : XmlText := {| xml_tokens := λ _, ([], true); xml_print := λ _, "" |}.
Definition held := finish_auction (H := demoFloatText) (H0 := demoXml) (H1 := demoJson) (H2 := demo_json) (H3 := canonical_range) (H4 := stable_go_sort)
  hold_env hold_input hold_events ∅ (λ st seats, (st, seats)) (answers_of_bidders ["rubicon"; "appnexus"] hold_arrivals) [] empty_log.
Lemma hold_result : (λ r, match r with Ok o => (λ sb, (sb_Seat sb, (λ b, bid_ID b) <$> sb_Bid sb)) <$> bs_SeatBid o.1.1.1 | Err _ => [] end) <$> held
  = Some [("appnexus", ["high"])].
Proof. vm_compute. reflexivity. Qed.
Lemma response_bids_offered_witness :
  floors_enforced hold_env hold_input ∧
  ∃ resp b d sent, held = Some (Ok (resp, b, d, sent)) ∧ ∃ sb bid, sb ∈ bs_SeatBid resp ∧ bid ∈ sb_Bid sb ∧ bid_ID bid = "high" ∧
    reaches_floor hold_input "USD" bid.
Proof.
  assert (floors_enforced hold_env hold_input) as Hfl by (split_and!; vm_compute; reflexivity). split; [exact Hfl|].
  pose proof hold_result as Hr. destruct held as [[[[[resp b] d] sent]|e]|] eqn:Eh; [|discriminate Hr|discriminate Hr].
  exists resp, b, d, sent. split; [reflexivity|]. simpl in Hr. destruct (bs_SeatBid resp) as [|sb rest] eqn:Esb; [discriminate Hr|].
  injection Hr as Hseat Hids Hrest. destruct (sb_Bid sb) as [|bid bids] eqn:Eb; [discriminate Hids|]. injection Hids as Hid _.
  unfold held in Eh. exists sb, bid. split; [by left|]. split; [rewrite Eb; by left|]. split; [exact Hid|].
  destruct (response_bids_offered (H := demoFloatText) (H0 := demoXml) (H1 := demoJson) (H2 := demo_json) (H3 := canonical_range) (H4 := stable_go_sort)
    hold_env hold_input hold_events ∅ (λ st seats, (st, seats)) ["rubicon"; "appnexus"] hold_arrivals [] empty_log resp b d sent Eh) as (st & seats & Hgiven & Hfrom).
  destruct (Hfrom sb bid) as (seat & l & bl & Hs & Hl & Hlb & Hsame); [rewrite Esb; by left|rewrite Eb; by left|]. simpl in Hs, Hlb.
  destruct (Hgiven _ _ _ _ Hs Hl Hlb) as (run & offered & p & o & _ & _ & _ & _ & Hoff & _ & Hfloor).
  specialize (Hfloor Hfl). rewrite Hseat in Hoff.
  assert (sr_Currency <$> ab_adapterBids (getAllBids hold_arrivals) !! "appnexus" = Some "USD") as Hc by (vm_compute; reflexivity).
  rewrite Hoff in Hc. injection Hc as Hc. rewrite Hc in Hfloor. by eapply reaches_floor_same.
Defined.
