(* ===== verification/Rules.v ===== *)
(** * Rule trees: src/rules and src/modules/prebid/rulesengine

    A rule set is compiled to a tree: every level asks a schema function about the request, and the
    answer, or a wildcard, leads to the next node; the leaf holds result functions that include or
    exclude bidders.  The decoding of function arguments and [sha256] are arguments, as are the random
    draws of [percent] and of the choice of a model group. *)
From S2P Require Import Prelude GoStrings GoFloat.

(** ** The request as schema functions read it *)
(** [rq_Geo] is country and region.  Members that are read from an extension are an error when it
    does not parse; [bool] says that [ext.data] is an array with an element. *)
Record ruleRequest := {
  rq_Geo : option (string * string);
  rq_Channel : result string (option string);
  rq_EidSources : list string;
  rq_UserData : nat;
  rq_UserExtData : result string bool;
  rq_Site : option (nat * result string bool);
  rq_App : option (nat * result string bool);
  rq_Regs : option (list Z * option Z)
}.

Inductive SchemaFunction :=
| deviceCountryIn (CountryDirectory : gset string)
| deviceCountry
| dataCenter
| dataCenterIn (DataCenterDir : gset string)
| channel
| eidAvailable
| eidIn (Eids : gset string)
| userFpdAvailable
| fpdAvailable
| gppSidIn (GppSids : gset Z)
| gppSidAvailable
| tcfInScope
| percent (Percent : Z).

(** [jsonutil.Unmarshal] of arguments into the named member. *)
Class RuleArgs := {
  arg_strings : string → string → result string (list string);
  arg_sids : string → result string (list Z);
  arg_pct : string → result string (option Z);
  arg_bidders : string → result string (list string)
}.

Definition checkNilArgs (params funcName : string) : result string unit :=
  if (params =s? "") || (params =s? "null") || (params =s? "{}") then Ok () else Err (funcName +:+ " expects 0 arguments").
Definition set_of (l : list string) : gset string := list_to_set l.

Definition NewRequestSchemaFunction `{RuleArgs} (name params : string) : result string SchemaFunction :=
  let noArgs f := let? _ := checkNilArgs params name in Ok f in
  let list key missing (f : gset string → SchemaFunction) :=
    let? l := arg_strings params key in match l with [] => Err missing | _ => Ok (f (set_of l)) end in
  if name =s? "deviceCountry" then noArgs deviceCountry
  else if name =s? "deviceCountryIn" then list "countries" "Missing countries argument for deviceCountryIn schema function" deviceCountryIn
  else if name =s? "dataCenter" then noArgs dataCenter
  else if name =s? "dataCenterIn" then list "datacenters" "Empty datacenter argument in dataCenterIn schema function" dataCenterIn
  else if name =s? "channel" then noArgs channel
  else if name =s? "eidAvailable" then noArgs eidAvailable
  else if name =s? "eidIn" then list "sources" "Empty sources argument in eidIn schema function" eidIn
  else if name =s? "userFpdAvailable" then noArgs userFpdAvailable
  else if name =s? "fpdAvailable" then noArgs fpdAvailable
  else if name =s? "gppSidAvailable" then noArgs gppSidAvailable
  else if name =s? "gppSidIn" then
    let? l := arg_sids params in match l with [] => Err "Empty GPPSIDs list argument in gppSidIn schema function" | _ => Ok (gppSidIn (list_to_set l)) end
  else if name =s? "tcfInScope" then noArgs tcfInScope
  else if name =s? "percent" then
    let? p := arg_pct params in
    let p := default 5 p in Ok (percent (if p <? 0 then 0 else if 100 <? p then 100 else p))
  else Err ("Schema function " +:+ name +:+ " was not created").

Definition show_bool (b : bool) : string := if b then "true" else "false".
Definition hasGPPSIDs (r : ruleRequest) : bool :=
  match rq_Regs r with Some (sids, _) => existsb (λ s, 0 <? s) sids | None => false end.
Definition checkUserDataAndUserExtData (r : ruleRequest) : result string string :=
  if (0 <? rq_UserData r)%nat then Ok "true" else let? d := rq_UserExtData r in Ok (show_bool d).
(** [hasSiteContentDataOrSiteExtData] and its twin for apps; the caller drops the error. *)
Definition hasContentDataOrExtData (part : option (nat * result string bool)) : bool :=
  match part with
  | Some (content, ext) => (0 <? content)%nat || match ext with Ok d => d | Err _ => false end
  | None => false
  end.

(** [Call]; [draw] is [Intn(100)]. *)
Definition call (f : SchemaFunction) (draw : Z) (r : ruleRequest) : result string string :=
  match f with
  | deviceCountryIn dir =>
      Ok (show_bool (match rq_Geo r with Some (c, _) => negb (c =s? "") && bool_decide (c ∈ dir) | None => false end))
  | deviceCountry => Ok (match rq_Geo r with Some (c, _) => c | None => "" end)
  | dataCenter => Ok (match rq_Geo r with Some (_, region) => region | None => "" end)
  | dataCenterIn dir =>
      Ok (show_bool (match rq_Geo r with Some (_, region) => negb (region =s? "") && bool_decide (region ∈ dir) | None => false end))
  | channel =>
      let? c := rq_Channel r in
      Ok (match c with Some name => if name =s? "pbjs" then "web" else name | None => "" end)
  | eidAvailable => Ok (show_bool (0 <? length (rq_EidSources r))%nat)
  | eidIn dir => Ok (show_bool (existsb (λ s, bool_decide (s ∈ dir)) (rq_EidSources r)))
  | userFpdAvailable => checkUserDataAndUserExtData r
  | fpdAvailable =>
      if hasContentDataOrExtData (rq_Site r) then Ok "true"
      else if hasContentDataOrExtData (rq_App r) then Ok "true" else checkUserDataAndUserExtData r
  | gppSidIn dir =>
      Ok (show_bool (hasGPPSIDs r && match rq_Regs r with Some (sids, _) => existsb (λ s, bool_decide (s ∈ dir)) sids | None => false end))
  | gppSidAvailable => Ok (show_bool (hasGPPSIDs r))
  | tcfInScope => Ok (show_bool (match rq_Regs r with Some (_, Some g) => g =? 1 | _ => false end))
  | percent p => Ok (if p <=? 0 then "false" else if 100 <=? p then "true" else show_bool (draw <=? p))
  end.
Definition fn_name (f : SchemaFunction) : string :=
  match f with
  | deviceCountryIn _ => "deviceCountryIn" | deviceCountry => "deviceCountry" | dataCenter => "dataCenter" | dataCenterIn _ => "dataCenterIn"
  | channel => "channel" | eidAvailable => "eidAvailable" | eidIn _ => "eidIn" | userFpdAvailable => "userFpdAvailable"
  | fpdAvailable => "fpdAvailable" | gppSidIn _ => "gppSidIn" | gppSidAvailable => "gppSidAvailable" | tcfInScope => "tcfInScope"
  | percent _ => "percent"
  end.

(** ** Trees *)
Section Trees.
Context {R : Type}.

(** A node with its schema function, result functions and children by key. *)
Inductive Node := mkNode (SchemaFn : option SchemaFunction) (ResultFns : list R) (Children : list (string * Node)).
Definition node_fn (n : Node) := match n with mkNode f _ _ => f end.
Definition node_results (n : Node) := match n with mkNode _ rs _ => rs end.
Definition node_children (n : Node) := match n with mkNode _ _ ch => ch end.
Definition empty_node : Node := mkNode None [] [].
Definition isLeaf (n : Node) : bool := match node_children n with [] => true | _ => false end.
Fixpoint child (key : string) (ch : list (string * Node)) : option Node :=
  match ch with [] => None | (k, n) :: rest => if k =s? key then Some n else child key rest end.
Fixpoint set_child (key : string) (n : Node) (ch : list (string * Node)) : list (string * Node) :=
  match ch with [] => [(key, n)] | (k, m) :: rest => if k =s? key then (k, n) :: rest else (k, m) :: set_child key n rest end.
Definition matchChild (value : string) (n : Node) : option (string * Node) :=
  match child value (node_children n) with
  | Some c => Some (value, c)
  | None => match child "*" (node_children n) with Some c => Some ("*", c) | None => None end
  end.

Record Tree := { Root : option Node; DefaultFunctions : list R; AnalyticsKey : string; ModelVersion : string }.
Record ResultFunctionMeta := { rm_Results : list (string * string); rm_AnalyticsKey : string; rm_RuleFired : string; rm_ModelVersion : string }.
Definition appendToSchemaFunctionResults (name value : string) (m : ResultFunctionMeta) : ResultFunctionMeta :=
  {| rm_Results := rm_Results m ++ [(name, value)]; rm_AnalyticsKey := rm_AnalyticsKey m; rm_RuleFired := rm_RuleFired m; rm_ModelVersion := rm_ModelVersion m |}.
Definition set_RuleFired (s : string) (m : ResultFunctionMeta) : ResultFunctionMeta :=
  {| rm_Results := rm_Results m; rm_AnalyticsKey := rm_AnalyticsKey m; rm_RuleFired := s; rm_ModelVersion := rm_ModelVersion m |}.
Definition appendToRuleFired (value : string) (m : ResultFunctionMeta) : ResultFunctionMeta :=
  set_RuleFired (if rm_RuleFired m =s? "" then value else rm_RuleFired m +:+ "|" +:+ value) m.

(** The walk from a node: the result functions of the leaf, or none for the default, with what is
    known of the walk.  [draws] are the random numbers by level. *)
Fixpoint walk (n : Node) (draws : nat → Z) (level : nat) (r : ruleRequest) (meta : ResultFunctionMeta)
    : result string (option (list R) * ResultFunctionMeta) :=
  match n with
  | mkNode fn results ch =>
      match ch with
      | [] => Ok (Some results, meta)
      | _ =>
          match fn with
          | None => Err "schema function is nil"
          | Some f =>
              let? res := call f (draws level) r in
              let meta := appendToSchemaFunctionResults (fn_name f) res meta in
              let fix go key l :=
                match l with
                | [] => None
                | (k, c) :: rest => if k =s? key then Some (walk c draws (S level) r (appendToRuleFired key meta)) else go key rest
                end in
              match go res ch with
              | Some out => out
              | None => match go "*" ch with Some out => out | None => Ok (None, set_RuleFired "default" meta) end
              end
          end
      end
  end.
(** The result functions that a run calls, in order. *)
Definition Run (t : Tree) (draws : nat → Z) (r : ruleRequest) : result string (list R * ResultFunctionMeta) :=
  match Root t with
  | None => Err "tree root is nil"
  | Some root =>
      let? o := walk root draws 0 r {| rm_Results := []; rm_AnalyticsKey := AnalyticsKey t; rm_RuleFired := ""; rm_ModelVersion := ModelVersion t |} in
      Ok (default (DefaultFunctions t) o.1, o.2)
  end.

(** Validation: the depth of the first leaf is recorded, and the others are compared with it. *)
Fixpoint validateNode (n : Node) (depth : Z) (firstLeafDepth : Z) : bool * Z :=
  match n with
  | mkNode _ _ ch =>
      match ch with
      | [] => if firstLeafDepth =? -1 then (true, depth) else (depth =? firstLeafDepth, firstLeafDepth)
      | _ =>
          (fix go l first :=
             match l with
             | [] => (true, first)
             | (_, c) :: rest => let '(ok, first) := validateNode c (depth + 1) first in if ok then go rest first else (false, first)
             end) ch firstLeafDepth
      end
  end.
Definition validate (t : Tree) : bool := match Root t with None => true | Some root => (validateNode root 0 (-1)).1 end.
End Trees.
Arguments Node : clear implicits.
Arguments Tree : clear implicits.

(** ** Result functions *)
Inductive ResultFunction := ExcludeBidders (Bidders : list string) | IncludeBidders (Bidders : list string).
Definition NewProcessedAuctionRequestResultFunction `{RuleArgs} (name params : string) : result string ResultFunction :=
  let make f missing := let? l := arg_bidders params in match l with [] => Err missing | _ => Ok (f l) end in
  if name =s? "excludeBidders" then make ExcludeBidders "excludeBidders requires at least one bidder to be specified"
  else if name =s? "includeBidders" then make IncludeBidders "includeBidders requires at least one bidder to be specified"
  else Err ("result function " +:+ name +:+ " was not created").

(** ** Configuration *)
Record Schema := { sc_Func : string; sc_Args : string }.
Record Rule := { ru_Conditions : list string; ru_Results : list Schema }.
Record ModelGroup := {
  mg_Weight : Z; mg_AnalyticsKey : string; mg_Version : string;
  mg_Schema : list Schema; mg_Rules : list Rule; mg_Default : list Schema
}.
Record RuleSet := { rs_Stage : string; rs_Name : string; rs_ModelGroups : list ModelGroup }.
Record PbRulesEngine := {
  re_Enabled : bool; re_Generate : bool; re_CountryGroups : gmap string (list string); re_RuleSets : list RuleSet
}.
Definition set_Weight (w : Z) (g : ModelGroup) : ModelGroup :=
  {| mg_Weight := w; mg_AnalyticsKey := mg_AnalyticsKey g; mg_Version := mg_Version g; mg_Schema := mg_Schema g; mg_Rules := mg_Rules g; mg_Default := mg_Default g |}.
(** The weight that is not set becomes 100; a group needs as many conditions as schema functions. *)
Definition validate_group (g : ModelGroup) : option ModelGroup :=
  let g := if mg_Weight g =? 0 then set_Weight 100 g else g in
  if (0 <? length (mg_Schema g))%nat && (length (mg_Rules g) =? 0)%nat then None
  else if (length (mg_Schema g) =? 0)%nat && (0 <? length (mg_Rules g))%nat then None
  else if forallb (λ r, (length (mg_Schema g) =? length (ru_Conditions r))%nat) (mg_Rules g) then Some g else None.
Definition validateRuleSet (r : RuleSet) : option RuleSet :=
  gs ← mapM validate_group (rs_ModelGroups r);
  Some {| rs_Stage := rs_Stage r; rs_Name := rs_Name r; rs_ModelGroups := gs |}.
(** [schemaValid] is the JSON schema, [decode] the decoding of the text. *)
Definition NewConfig (schemaValid : string → bool) (decode : string → option PbRulesEngine) (jsonCfg : string) : option PbRulesEngine :=
  if schemaValid jsonCfg then
    cfg ← decode jsonCfg;
    sets ← mapM validateRuleSet (re_RuleSets cfg);
    Some {| re_Enabled := re_Enabled cfg; re_Generate := re_Generate cfg; re_CountryGroups := re_CountryGroups cfg; re_RuleSets := sets |}
  else None.

(** ** The tree of a model group *)
Section Build.
Context `{RuleArgs}.
Definition make_results (l : list Schema) : result string (list ResultFunction) :=
  foldr (λ s acc, let? f := NewProcessedAuctionRequestResultFunction (sc_Func s) (sc_Args s) in let? rest := acc in Ok (f :: rest)) (Ok []) l.

(** One rule from a node down; the schema index runs along.  [None] is an index out of range. *)
Fixpoint add_rule (schema : list Schema) (conditions : list string) (results : list Schema) (n : Node ResultFunction)
    : option (result string (Node ResultFunction)) :=
  match conditions with
  | [] => Some (let? rs := make_results results in Ok (mkNode (node_fn n) (node_results n ++ rs) (node_children n)))
  | condition :: rest =>
      fn ← (if isLeaf n then s ← head schema; Some (let? f := NewRequestSchemaFunction (sc_Func s) (sc_Args s) in Ok (Some f))
            else Some (Ok (node_fn n)));
      match fn with
      | Err e => Some (Err e)
      | Ok fn =>
          sub ← add_rule (tail schema) rest results (default empty_node (child condition (node_children n)));
          Some (let? c := sub in Ok (mkNode fn (node_results n) (set_child condition c (node_children n))))
      end
  end.
Fixpoint add_rules (schema : list Schema) (rules : list Rule) (n : Node ResultFunction) : option (result string (Node ResultFunction)) :=
  match rules with
  | [] => Some (Ok n)
  | r :: rest =>
      n' ← add_rule schema (ru_Conditions r) (ru_Results r) n;
      match n' with Err e => Some (Err e) | Ok n' => add_rules schema rest n' end
  end.
Definition build_tree (g : ModelGroup) : option (result string (Tree ResultFunction)) :=
  match make_results (mg_Default g) with
  | Err e => Some (Err e)
  | Ok dflt =>
      n ← add_rules (mg_Schema g) (mg_Rules g) empty_node;
      Some (let? root := n in Ok {| Root := Some root; DefaultFunctions := dflt; AnalyticsKey := ""; ModelVersion := "" |})
  end.
(** [NewTree]: building, then validation. *)
Definition checked (t : option (result string (Tree ResultFunction))) : option (result string (Tree ResultFunction)) :=
  t ← t; Some (let? t := t in if validate t then Ok t else Err "tree is malformed: leaves found at different depths").
Definition NewTree (g : ModelGroup) : option (result string (Tree ResultFunction)) := checked (build_tree g).
End Build.

(** ** The tree of the bidders' geoscopes *)
Definition EEA : list string :=
  ["AUT"; "BEL"; "BGR"; "CYP"; "CZE"; "DEU"; "DNK"; "EST"; "ESP"; "FIN"; "FRA"; "GRC"; "HRV"; "HUN"; "IRL"; "ISL"; "ITA"; "LIE";
   "LTU"; "LUX"; "LVA"; "MLT"; "NLD"; "NOR"; "POL"; "PRT"; "ROU"; "SWE"; "SVN"; "SVK"].
Record parsedConfig := {
  pc_bidder : string; pc_global : bool; pc_groupsIncluded : list string; pc_groupsExcluded : list string;
  pc_included : list string; pc_excluded : list string
}.
Section Geoscopes.
Context `{MapRange}.
Definition mergeCountryGroups (setDefinitions : gmap string (list string)) : gmap string (list string) :=
  foldl (λ m '(k, v), <[ToUpper k := v]> m) {["EEA" := EEA]} (map_range setDefinitions).

Section Groups.
Context (countryGroups : gmap string (list string)).
Definition is_group (s : string) : bool := bool_decide (is_Some (countryGroups !! s)).
Definition bang (s : string) : bool := HasPrefix s "!".
(** One annotation of a bidder; every annotation is of one of the kinds. *)
Definition parse_geoscope (cfg : parsedConfig) (g : string) : parsedConfig :=
  let plain := TrimPrefix g "!" in
  if g =s? "GLOBAL" then
    {| pc_bidder := pc_bidder cfg; pc_global := true; pc_groupsIncluded := pc_groupsIncluded cfg; pc_groupsExcluded := pc_groupsExcluded cfg;
       pc_included := pc_included cfg; pc_excluded := pc_excluded cfg |}
  else if is_group g then
    {| pc_bidder := pc_bidder cfg; pc_global := pc_global cfg; pc_groupsIncluded := pc_groupsIncluded cfg ++ [g];
       pc_groupsExcluded := pc_groupsExcluded cfg; pc_included := pc_included cfg; pc_excluded := pc_excluded cfg |}
  else if bang g && is_group plain then
    {| pc_bidder := pc_bidder cfg; pc_global := pc_global cfg; pc_groupsIncluded := pc_groupsIncluded cfg;
       pc_groupsExcluded := pc_groupsExcluded cfg ++ [plain]; pc_included := pc_included cfg; pc_excluded := pc_excluded cfg |}
  else if negb (bang g) then
    {| pc_bidder := pc_bidder cfg; pc_global := pc_global cfg; pc_groupsIncluded := pc_groupsIncluded cfg;
       pc_groupsExcluded := pc_groupsExcluded cfg; pc_included := pc_included cfg ++ [g]; pc_excluded := pc_excluded cfg |}
  else
    {| pc_bidder := pc_bidder cfg; pc_global := pc_global cfg; pc_groupsIncluded := pc_groupsIncluded cfg;
       pc_groupsExcluded := pc_groupsExcluded cfg; pc_included := pc_included cfg; pc_excluded := pc_excluded cfg ++ [plain] |}.
Definition parseBidderGeoscopes (bidder : string) (geoscopes : list string) : parsedConfig :=
  foldl parse_geoscope {| pc_bidder := bidder; pc_global := false; pc_groupsIncluded := []; pc_groupsExcluded := []; pc_included := []; pc_excluded := [] |} geoscopes.
Definition countryInAGroup (country : string) (groups : list string) : bool :=
  existsb (λ g, match countryGroups !! g with Some l => bool_decide (country ∈ l) | None => false end) groups.

(** The keys of the exclusions: every country named, alone or in a group, and the wildcard.  The set of
    groups seen, which only saves a second pass over the countries of a group, is left out. *)
Definition name_country (m : gmap string (list string)) (c : string) : gmap string (list string) :=
  match m !! c with Some _ => m | None => <[c := []]> m end.
Definition name_geoscope (m : gmap string (list string)) (g : string) : gmap string (list string) :=
  if g =s? "GLOBAL" then m
  else let g := TrimPrefix g "!" in
       match countryGroups !! g with Some countries => foldl name_country m countries | None => name_country m g end.
Definition initializeCountryExclusions (geoscopeConfig : gmap string (list string)) : gmap string (list string) :=
  <["*" := []]> (foldl (λ m '(_, gs), foldl name_geoscope m gs) ∅ (map_range geoscopeConfig)).

(** Is the bidder excluded in a country?  The four kinds of lists. *)
Definition excluded_in (cfg : parsedConfig) (country : string) : bool :=
  let included := bool_decide (country ∈ pc_included cfg) in
  let excluded := bool_decide (country ∈ pc_excluded cfg) in
  if pc_global cfg then false
  else if (0 <? length (pc_groupsIncluded cfg))%nat then
    let inGroup := countryInAGroup country (pc_groupsIncluded cfg) in (inGroup && excluded) || (negb inGroup && negb included)
  else if (0 <? length (pc_groupsExcluded cfg))%nat then
    let inGroup := countryInAGroup country (pc_groupsExcluded cfg) in (inGroup && negb included) || (negb inGroup && excluded)
  else if (0 <? length (pc_included cfg))%nat then negb included
  else if (0 <? length (pc_excluded cfg))%nat then excluded
  else false.
Definition mark_bidder (m : gmap string (list string)) (bidder : string) (geoscopes : list string) : gmap string (list string) :=
  let cfg := parseBidderGeoscopes bidder geoscopes in
  map_imap (λ country bidders, Some (if excluded_in cfg country then bidders ++ [bidder] else bidders)) m.
Definition country_exclusions (geoscopeConfig : gmap string (list string)) : gmap string (list string) :=
  foldl (λ m '(bidder, gs), mark_bidder m bidder gs) (initializeCountryExclusions geoscopeConfig) (map_range geoscopeConfig).
End Groups.

Definition buildBidderConfigTree (geoscopes setDefinitions : gmap string (list string)) : Tree ResultFunction :=
  let root :=
    if bool_decide (geoscopes = ∅) then empty_node
    else mkNode (Some deviceCountry) []
           ((λ '(country, bidders), (country, mkNode None [ExcludeBidders bidders] [])) <$>
              map_range (country_exclusions (mergeCountryGroups setDefinitions) geoscopes)) in
  {| Root := Some root; DefaultFunctions := []; AnalyticsKey := ""; ModelVersion := "" |}.
End Geoscopes.

(** ** The engine *)
Record cacheModelGroup := { cg_weight : Z; cg_version : string; cg_analyticsKey : string; cg_tree : Tree ResultFunction }.
Record cacheRuleSet := { cr_name : string; cr_modelGroups : list cacheModelGroup }.
Record cacheEntry := { ce_enabled : bool; ce_timestamp : Z; ce_hashedConfig : string; ce_ruleSets : list cacheRuleSet }.

(** [draw n] is [Intn(n)]. *)
Definition group_weight (g : cacheModelGroup) : Z := if 0 <? cg_weight g then cg_weight g else 100.
Fixpoint pick_model_group (value : Z) (sofar : Z) (groups : list cacheModelGroup) : option cacheModelGroup :=
  match groups with
  | [] => None
  | g :: rest => let sofar := sofar + group_weight g in if value <=? sofar then Some g else pick_model_group value sofar rest
  end.
Definition selectModelGroup (groups : list cacheModelGroup) (draw : Z → Z) : result string cacheModelGroup :=
  match groups with
  | [] => Err "no model groups available"
  | [g] => Ok g
  | g0 :: _ =>
      let total := foldl (λ acc g, acc + group_weight g) 0 groups in
      Ok (default g0 (pick_model_group (draw total + 1) 0 groups))
  end.

(** The result of the hook: the mutations in order, the allowed bidders, and errors.  The mutation
    that keeps bidders refers to the map of allowed bidders, which later rule sets still fill. *)
Inductive mutation := MDelete (bidders : gset string) | MKeepAllowed.
Record hookResult := { hr_mutations : list mutation; hr_allowed : gset string; hr_errors : list string }.
Definition call_result (h : hookResult) (f : ResultFunction) : hookResult :=
  match f with
  | ExcludeBidders bidders =>
      {| hr_mutations := hr_mutations h ++ [MDelete (set_of bidders)]; hr_allowed := hr_allowed h; hr_errors := hr_errors h |}
  | IncludeBidders bidders =>
      {| hr_mutations := hr_mutations h; hr_allowed := hr_allowed h ∪ set_of bidders; hr_errors := hr_errors h |}
  end.
Definition add_hook_error (e : string) (h : hookResult) : hookResult :=
  {| hr_mutations := hr_mutations h; hr_allowed := hr_allowed h; hr_errors := hr_errors h ++ [e] |}.
(** [draws] gives, for the rule set at an index, the draw of the group and of the levels. *)
Definition run_rule_set (request : ruleRequest) (draw : Z → Z) (draws : nat → Z) (h : hookResult) (s : cacheRuleSet) : hookResult :=
  match selectModelGroup (cr_modelGroups s) draw with
  | Err e => add_hook_error ("failed to select model group: " +:+ e) h
  | Ok g =>
      let h := match Run (cg_tree g) draws request with
               | Err e => add_hook_error e h
               | Ok (fs, _) => foldl call_result h fs
               end in
      if bool_decide (hr_allowed h = ∅) then h
      else {| hr_mutations := hr_mutations h ++ [MKeepAllowed]; hr_allowed := hr_allowed h; hr_errors := hr_errors h |}
  end.
Fixpoint run_rule_sets (request : ruleRequest) (groupDraw : nat → Z → Z) (draws : nat → nat → Z) (i : nat) (sets : list cacheRuleSet) (h : hookResult) : hookResult :=
  match sets with
  | [] => h
  | s :: rest => run_rule_sets request groupDraw draws (S i) rest (run_rule_set request (groupDraw i) (draws i) h s)
  end.
Definition handleProcessedAuctionHook (sets : list cacheRuleSet) (request : ruleRequest) (groupDraw : nat → Z → Z) (draws : nat → nat → Z) : hookResult :=
  run_rule_sets request groupDraw draws 0 sets {| hr_mutations := []; hr_allowed := ∅; hr_errors := [] |}.

(** *** The mutations on the impressions: hooks/hookstage/processedauctionrequest_mutations.go *)
(** An impression's bidders with their parameters, [None] without [ext.prebid]. *)
Abbreviation impBidders := (option (gmap string string)).
(** Deleting returns at the first impression without [ext.prebid]. *)
Fixpoint deleteBidders (bidders : gset string) (imps : list impBidders) : list impBidders :=
  match imps with
  | [] => []
  | None :: rest => None :: rest
  | Some m :: rest => Some (filter (λ kv, kv.1 ∉ bidders) m) :: deleteBidders bidders rest
  end.
Definition addBidders (bidders : gset string) (imps : list impBidders) : list impBidders :=
  (λ m, Some (filter (λ kv, kv.1 ∈ bidders) (default ∅ m))) <$> imps.
Definition apply_mutation (allowed : gset string) (imps : list impBidders) (m : mutation) : list impBidders :=
  match m with MDelete bidders => deleteBidders bidders imps | MKeepAllowed => addBidders allowed imps end.
Definition apply_result (h : hookResult) (imps : list impBidders) : list impBidders :=
  foldl (apply_mutation (hr_allowed h)) imps (hr_mutations h).

(** ** The cache of an account's trees *)
Section Engine.
Context `{RuleArgs} `{MapRange}.
(** [sha] is the hash of a configuration text, [geoscopes] the bidders' annotations. *)
Context (sha : string → string) (schemaValid : string → bool) (decode : string → option PbRulesEngine)
        (geoscopes : gmap string (list string)).

Definition StageProcessedAuctionRequest := "processed_auction_request".
(** [None] of the outer option is a panic; [Err] leaves the rule set out. *)
Fixpoint make_groups (gs : list ModelGroup) : option (result string (list cacheModelGroup)) :=
  match gs with
  | [] => Some (Ok [])
  | g :: rest =>
      t ← NewTree g;
      match t with
      | Err e => Some (Err e)
      | Ok t => more ← make_groups rest;
                Some (let? more := more in
                      Ok ({| cg_weight := mg_Weight g; cg_version := mg_Version g; cg_analyticsKey := mg_AnalyticsKey g; cg_tree := t |} :: more))
      end
  end.
Definition createCacheRuleSet (s : RuleSet) : option (result string cacheRuleSet) :=
  gs ← make_groups (rs_ModelGroups s); Some (let? gs := gs in Ok {| cr_name := rs_Name s; cr_modelGroups := gs |}).
Fixpoint make_rule_sets (sets : list RuleSet) : option (list cacheRuleSet) :=
  match sets with
  | [] => Some []
  | s :: rest =>
      if rs_Stage s =s? StageProcessedAuctionRequest then
        c ← createCacheRuleSet s; more ← make_rule_sets rest;
        Some (match c with Ok c => c :: more | Err _ => more end)
      else make_rule_sets rest
  end.
Definition buildBidderConfigRuleSet (setDefinitions : gmap string (list string)) : option (result string (list cacheRuleSet)) :=
  t ← checked (Some (Ok (buildBidderConfigTree geoscopes setDefinitions)));
  Some (let? t := t in
        Ok [{| cr_name := "Dynamic ruleset from geoscopes";
               cr_modelGroups := [{| cg_weight := 100; cg_version := "1.0"; cg_analyticsKey := "bidderConfig"; cg_tree := t |}] |}]).
Definition hashConfig (cfgRaw : string) : string := if cfgRaw =s? "" then "" else sha cfgRaw.
Definition NewCacheEntry (now : Z) (cfg : PbRulesEngine) (cfgRaw : string) : option (result string cacheEntry) :=
  if hashConfig cfgRaw =s? "" then Some (Err "Can't create identifier hash from empty raw json configuration")
  else
    dynamic ← (if re_Generate cfg then buildBidderConfigRuleSet (re_CountryGroups cfg) else Some (Ok []));
    match dynamic with
    | Err e => Some (Err e)
    | Ok dynamic =>
        sets ← make_rule_sets (re_RuleSets cfg);
        Some (Ok {| ce_enabled := re_Enabled cfg; ce_timestamp := now; ce_hashedConfig := hashConfig cfgRaw; ce_ruleSets := dynamic ++ sets |})
    end.

Abbreviation rules_cache := (gmap string cacheEntry).
Definition cache_Set (id : string) (e : cacheEntry) (c : rules_cache) : rules_cache := if id =s? "" then c else <[id := e]> c.
Definition cache_Delete (id : string) (c : rules_cache) : rules_cache := delete id c.
(** [refresh] in seconds, times in nanoseconds. *)
Definition Expired (refresh now timestamp : Z) : bool := negb (refresh <=? 0) && (refresh * 1000000000 <? now - timestamp).
Definition configChanged (oldHash cfgRaw : string) : bool := negb (sha cfgRaw =s? oldHash).
Definition rebuildTrees (refresh now : Z) (e : cacheEntry) (cfgRaw : string) : bool :=
  Expired refresh now (ce_timestamp e) && configChanged (ce_hashedConfig e) cfgRaw.

Record buildInstruction := { bi_accountID : string; bi_config : string }.
(** One instruction taken by the tree manager; [None] is a panic, which ends the process. *)
Definition manager_step (refresh now : Z) (c : rules_cache) (i : buildInstruction) : option rules_cache :=
  let keep := match c !! bi_accountID i with Some e => negb (rebuildTrees refresh now e (bi_config i)) | None => false end in
  if keep then Some c
  else match NewConfig schemaValid decode (bi_config i) with
       | None => Some c
       | Some cfg =>
           if negb (re_Enabled cfg) then Some (cache_Delete (bi_accountID i) c)
           else e ← NewCacheEntry now cfg (bi_config i);
                Some (match e with Ok e => cache_Set (bi_accountID i) e c | Err _ => c end)
       end.

Inductive hook_answer := NoConfig | Loading | Disabled | Ran (h : hookResult).
(** The hook: its answer, and the instruction it hands to the manager (waiting for it), if any. *)
Definition HandleProcessedAuctionHook (refresh now : Z) (c : rules_cache) (accountID accountConfig : string) (request : ruleRequest)
    (groupDraw : nat → Z → Z) (draws : nat → nat → Z) : hook_answer * option buildInstruction :=
  if accountConfig =s? "" then (NoConfig, None)
  else match c !! accountID with
       | None => (Loading, Some {| bi_accountID := accountID; bi_config := accountConfig |})
       | Some e =>
           (if ce_enabled e then Ran (handleProcessedAuctionHook (ce_ruleSets e) request groupDraw draws) else Disabled,
            if rebuildTrees refresh now e accountConfig then Some {| bi_accountID := accountID; bi_config := accountConfig |} else None)
       end.
End Engine.
