(* ===== verification/RulesSpec.v ===== *)
(** * What a rule tree decides

    Theorems on [Rules].  The tree built from a model group with rules selects the same result
    functions as a search in its list of rules, and without rules none; it passes validation; the mutations of a run keep exactly the bidders
    that no rule excludes and, when a rule includes bidders, only those; the tree of the geoscopes
    excludes a bidder exactly where its annotations say; and the cache serves only trees of
    configurations that were accepted for the account. *)
From S2P Require Import Prelude GoStrings GoFloat Rules.

(** ** Selection in the list of rules *)
Abbreviation rule := (list string * list ResultFunction)%type.
(** The rules whose first condition is the key, without it. *)
Definition under (key : string) (rules : list rule) : list rule :=
  omap (λ r : rule, match r.1 with c :: rest => if c =s? key then Some (rest, r.2) else None | [] => None end) rules.
(** Level by level, the rules that name the answer, or else those with a wildcard; in the end the
    results of all rules that are left, and [None] when none is. *)
Fixpoint select_rules (fs : list SchemaFunction) (rules : list rule) (draws : nat → Z) (level : nat) (r : ruleRequest)
    : result string (option (list ResultFunction)) :=
  match fs with
  | [] => Ok (Some (mjoin rules.*2))
  | f :: rest =>
      let? v := call f (draws level) r in
      match under v rules with
      | [] => match under "*" rules with [] => Ok None | sub => select_rules rest sub draws (S level) r end
      | sub => select_rules rest sub draws (S level) r
      end
  end.

Lemma under_app k l1 l2 : under k (l1 ++ l2) = under k l1 ++ under k l2.
Proof. apply omap_app. Qed.
Lemma under_length n k rules : Forall (λ r : rule, length r.1 = S n) rules → Forall (λ r : rule, length r.1 = n) (under k rules).
Proof.
  rewrite !Forall_forall. intros Hall r (r0 & Hr0 & Hr)%list_elem_of_omap. specialize (Hall r0 Hr0). destruct r0 as [[|c rest] res]; [done|]. simpl in *.
  destruct (c =s? k); [|done]. injection Hr as <-. simpl. lia.
Qed.

(** ** Children *)
Section Child.
Context {R : Type}.
Implicit Types (ch : list (string * Node R)).
Lemma child_set k c n ch : child k (set_child c n ch) = if k =s? c then Some n else child k ch.
Proof.
  induction ch as [|[k0 m] ch IH]; simpl.
  - rewrite String.eqb_sym. by destruct (k =s? c).
  - destruct (String.eqb_spec k0 c) as [->|Hne]; simpl.
    + rewrite (String.eqb_sym c k). by destruct (k =s? c).
    + destruct (String.eqb_spec k0 k) as [->|Hnk]; [|apply IH]. by rewrite (proj2 (String.eqb_neq k c)).
Qed.
Lemma set_child_keys c n ch : (set_child c n ch).*1 = if bool_decide (c ∈ ch.*1) then ch.*1 else ch.*1 ++ [c].
Proof.
  induction ch as [|[k m] ch IH]; [done|]. cbn [set_child]. destruct (String.eqb_spec k c) as [->|Hne]; rewrite !fmap_cons; cbn [fst].
  - by rewrite bool_decide_eq_true_2 by set_solver.
  - rewrite IH, (bool_decide_ext (c ∈ k :: ch.*1) (c ∈ ch.*1)) by set_solver. by case_bool_decide.
Qed.
Lemma set_child_NoDup c n ch : NoDup ch.*1 → NoDup (set_child c n ch).*1.
Proof.
  intros Hn. rewrite set_child_keys. case_bool_decide; [done|]. apply NoDup_app. split_and!; [done| |apply NoDup_singleton]. set_solver.
Qed.
Lemma child_elem k c ch : NoDup ch.*1 → (k, c) ∈ ch → child k ch = Some c.
Proof.
  induction ch as [|[k0 m] ch IH]; [by intros _ ?%elem_of_nil|]. rewrite fmap_cons, NoDup_cons. intros [Hk Hn] Hin. simpl.
  apply elem_of_cons in Hin as [[= -> ->]|Hin]; [by rewrite String.eqb_refl|]. rewrite (proj2 (String.eqb_neq k0 k)); [by apply IH|].
  intros ->. apply Hk. by apply (list_elem_of_fmap_2 fst) in Hin.
Qed.
Lemma child_Some_nonempty k c ch : child k ch = Some c → ch ≠ [].
Proof. by destruct ch. Qed.
Lemma set_child_nonempty k c ch : set_child k c ch ≠ [].
Proof. destruct ch as [|[k0 m] ch]; simpl; [done|]. by destruct (k0 =s? k). Qed.
End Child.

(** ** A tree that represents a list of rules *)
Fixpoint represents (fs : list SchemaFunction) (rules : list rule) (n : Node ResultFunction) : Prop :=
  match fs with
  | [] => n = mkNode None (mjoin rules.*2) []
  | f :: rest =>
      match rules with
      | [] => n = empty_node
      | _ => ∃ ch, n = mkNode (Some f) [] ch ∧ NoDup ch.*1 ∧
               ∀ k, match under k rules with [] => child k ch = None | sub => ∃ c, child k ch = Some c ∧ represents rest sub c end
      end
  end.
Lemma represents_nil fs : represents fs [] empty_node.
Proof. by destruct fs. Qed.
Lemma under_first r rules n : length r.1 = S n → ∃ k x rest, under k (r :: rules) = x :: rest.
Proof. destruct r as [[|c cs] res]; simpl; [done|]. intros _. exists c. rewrite String.eqb_refl. by eexists _, _. Qed.

Section Building.
Context `{RuleArgs}.
Definition makes (s : Schema) (f : SchemaFunction) : Prop := NewRequestSchemaFunction (sc_Func s) (sc_Args s) = Ok f.

Lemma add_rule_represents fs : ∀ schema conds results rs rules n,
  Forall2 makes schema fs → Forall (λ r : rule, length r.1 = length fs) rules → length conds = length fs → make_results results = Ok rs →
  represents fs rules n → ∃ n', add_rule schema conds results n = Some (Ok n') ∧ represents fs (rules ++ [(conds, rs)]) n'.
Proof.
  induction fs as [|f fs IH]; intros schema conds results rs rules n Hs Hlen Hc Hr Hn.
  - destruct conds; [|done]. simpl in Hn. subst n. cbn [add_rule]. rewrite Hr. cbn [rbind]. eexists. split; [done|]. simpl.
    rewrite fmap_app, join_app. simpl. by rewrite app_nil_r.
  - destruct conds as [|c conds]; [done|]. injection Hc as Hc. apply Forall2_cons_inv_r in Hs as (s & schema' & Hsf & Hs & ->).
    assert (∃ ch, (∃ fn, n = mkNode fn [] ch ∧ (ch ≠ [] → fn = Some f)) ∧ NoDup ch.*1 ∧ (ch = [] ↔ rules = []) ∧
      ∀ k, match under k rules with [] => child k ch = None | sub => ∃ c, child k ch = Some c ∧ represents fs sub c end) as (ch & (fn & -> & Hfn) & Hnd & Hch & Hk).
    { simpl in Hn. destruct rules as [|r rules].
      - subst n. exists []. split_and!; [by eexists; split|apply NoDup_nil_2|done|done].
      - destruct Hn as (ch & -> & Hnd & Hk). exists ch. split_and!; [by exists (Some f)|done| |done].
        apply Forall_cons in Hlen as [Hlr _]. destruct (under_first r rules _ Hlr) as (k & x & rest & E). specialize (Hk k). rewrite E in Hk.
        destruct Hk as (c0 & Hc0 & _). split; [|done]. intros ->. by destruct c0. }
    destruct (IH schema' conds results rs (under c rules) (default empty_node (child c ch)) Hs) as (n' & En & Hn'); [by apply under_length|done|done| |].
    { specialize (Hk c). destruct (under c rules) as [|r0 rest]; [rewrite Hk; apply represents_nil|]. destruct Hk as (c0 & -> & Hrep). done. }
    cbn [add_rule node_children node_results node_fn isLeaf]. cbn [head tail].
    assert ((if isLeaf (mkNode fn [] ch) then s0 ← Some s; Some (let? f0 := NewRequestSchemaFunction (sc_Func s0) (sc_Args s0) in Ok (Some f0)) else Some (Ok fn)) = Some (Ok (Some f))) as ->.
    { unfold isLeaf, node_children. destruct ch; [|by rewrite Hfn]. cbn [mbind option_bind]. unfold makes in Hsf. by rewrite Hsf. }
    cbn [mbind option_bind]. rewrite En. cbn [mbind option_bind rbind]. eexists. split; [done|].
    cbn [represents]. destruct (rules ++ [(c :: conds, rs)]) as [|r0 rest] eqn:Er; [by destruct rules|]. rewrite <-Er.
    exists (set_child c n' ch). split; [done|]. split; [by apply set_child_NoDup|]. intros k. rewrite under_app, child_set. simpl.
    destruct (String.eqb_spec c k) as [->|Hne].
    + rewrite String.eqb_refl. destruct (under k rules ++ [(conds, rs)]) as [|r1 rest1] eqn:E1; [by destruct (under k rules)|]. exists n'. split; [done|]. exact Hn'.
    + rewrite app_nil_r, (proj2 (String.eqb_neq k c)) by done. apply Hk.
Qed.
Lemma add_rules_represents fs schema : Forall2 makes schema fs → ∀ todo done_ n,
  Forall (λ x : Rule * rule, length (ru_Conditions x.1) = length fs ∧ x.2.1 = ru_Conditions x.1 ∧ make_results (ru_Results x.1) = Ok x.2.2) todo →
  Forall (λ r : rule, length r.1 = length fs) done_ → represents fs done_ n →
  ∃ n', add_rules schema todo.*1 n = Some (Ok n') ∧ represents fs (done_ ++ todo.*2) n'.
Proof.
  intros Hs. induction todo as [|[r [cs rs]] todo IH]; intros done_ n Ht Hd Hn; [exists n; by rewrite app_nil_r|].
  apply Forall_cons in Ht as [(Hl & Hcs & Hr) Ht]. simpl in Hl, Hcs, Hr. subst cs.
  destruct (add_rule_represents fs schema (ru_Conditions r) (ru_Results r) rs done_ n Hs Hd Hl Hr Hn) as (n1 & E1 & H1).
  destruct (IH (done_ ++ [(ru_Conditions r, rs)]) n1 Ht) as (n2 & E2 & H2); [by apply Forall_app_2, Forall_singleton|done|].
  exists n2. cbn [fmap list_fmap fst snd add_rules]. rewrite E1. cbn [mbind option_bind]. split; [exact E2|]. by rewrite <-app_assoc in H2.
Qed.
End Building.

(** ** Walking and validating *)
Lemma walk_go {R} (ch : list (string * Node R)) draws level r meta key :
  (fix go key l := match l with [] => None | (k, c) :: rest => if k =s? key then Some (walk c draws (S level) r (appendToRuleFired key meta)) else go key rest end) key ch
  = (λ c, walk c draws (S level) r (appendToRuleFired key meta)) <$> child key ch.
Proof. induction ch as [|[k c] ch IH]; [done|]. simpl. destruct (k =s? key); [done|]. apply IH. Qed.
Lemma walk_step {R} f (rs : list R) ch draws level r meta : ch ≠ [] →
  walk (mkNode (Some f) rs ch) draws level r meta =
  (let? res := call f (draws level) r in
   let meta := appendToSchemaFunctionResults (fn_name f) res meta in
   match child res ch with
   | Some c => walk c draws (S level) r (appendToRuleFired res meta)
   | None => match child "*" ch with
             | Some c => walk c draws (S level) r (appendToRuleFired "*" meta)
             | None => Ok (None, set_RuleFired "default" meta)
             end
   end).
Proof.
  intros Hch. destruct ch as [|[k c] ch]; [done|]. cbn [walk child]. destruct (call f (draws level) r) as [res|e]; [|done]. cbn [rbind].
  rewrite !walk_go. destruct (k =s? res); [done|]. destruct (child res ch); [done|]. cbn [fmap option_fmap option_map]. destruct (k =s? "*"); [done|]. by destruct (child "*" ch).
Qed.
Definition outcome {R} (w : result string (option (list R) * ResultFunctionMeta)) : result string (option (list R)) := let? o := w in Ok o.1.

Lemma walk_selects fs : ∀ rules n draws level r meta,
  represents fs rules n → rules ≠ [] → Forall (λ x : rule, length x.1 = length fs) rules →
  outcome (walk n draws level r meta) = select_rules fs rules draws level r.
Proof.
  induction fs as [|f fs IH]; intros rules n draws level r meta Hn Hne Hl; [simpl in Hn; by subst n|].
  destruct rules as [|x rules]; [done|]. destruct Hn as (ch & -> & Hnd & Hk).
  assert (ch ≠ []) as Hch.
  { apply Forall_cons in Hl as [Hx _]. destruct (under_first x rules _ Hx) as (k & y & rest & E). specialize (Hk k). rewrite E in Hk.
    destruct Hk as (c & Hc & _). by eapply child_Some_nonempty. }
  rewrite walk_step by done. cbn [select_rules]. destruct (call f (draws level) r) as [v|e]; [|done]. cbn [rbind].
  pose proof (Hk v) as Hv. pose proof (Hk "*") as Hw.
  pose proof (under_length (length fs) v (x :: rules) Hl) as Hlv. pose proof (under_length (length fs) "*" (x :: rules) Hl) as Hlw.
  cbv zeta. destruct (under v (x :: rules)) as [|y ys].
  - rewrite Hv. destruct (under "*" (x :: rules)) as [|z zs].
    + rewrite Hw. reflexivity.
    + destruct Hw as (c & Hc & Hrep). rewrite Hc. by apply IH.
  - destruct Hv as (c & Hc & Hrep). rewrite Hc. by apply IH.
Qed.
Lemma validate_represented fs : ∀ rules n d first,
  represents fs rules n → rules ≠ [] → Forall (λ x : rule, length x.1 = length fs) rules → 0 ≤ d →
  (first = -1 ∨ first = d + Z.of_nat (length fs)) → validateNode n d first = (true, d + Z.of_nat (length fs)).
Proof.
  induction fs as [|f fs IH]; intros rules n d first Hn Hne Hl Hd Hf.
  - cbn [represents] in Hn. subst n. cbn [length validateNode] in *. replace (d + Z.of_nat 0) with d in * by lia.
    destruct Hf as [->| ->]; [by rewrite Z.eqb_refl|]. rewrite (proj2 (Z.eqb_neq d (-1))) by lia. by rewrite Z.eqb_refl.
  - destruct rules as [|x rules]; [done|]. destruct Hn as (ch & -> & Hnd & Hk).
    assert (∀ k c, (k, c) ∈ ch → ∃ sub, sub ≠ [] ∧ represents fs sub c ∧ Forall (λ x : rule, length x.1 = length fs) sub) as Hsub.
    { intros k c Hin. apply child_elem in Hin; [|done]. specialize (Hk k). pose proof (under_length (length fs) k (x :: rules) Hl) as Hlk.
      destruct (under k (x :: rules)) as [|y ys]; [congruence|]. destruct Hk as (c' & Hc' & Hrep). exists (y :: ys). split_and!; [done|congruence|done]. }
    assert (ch ≠ []) as Hch.
    { apply Forall_cons in Hl as [Hx _]. destruct (under_first x rules _ Hx) as (k & y & rest & E). specialize (Hk k). rewrite E in Hk.
      destruct Hk as (c & Hc & _). by eapply child_Some_nonempty. }
    clear Hk Hnd Hl. cbn [validateNode]. destruct ch as [|[k0 c0] ch]; [done|].
    destruct (Hsub k0 c0) as (sub0 & Hne0 & Hrep0 & Hl0); [by left|].
    assert (∀ first, first = -1 ∨ first = d + Z.of_nat (length (f :: fs)) → validateNode c0 (d + 1) first = (true, d + Z.of_nat (length (f :: fs)))) as H0.
    { intros fst0 Hf0. rewrite (IH sub0 c0 (d + 1) fst0 Hrep0 Hne0 Hl0) by (simpl in *; lia). f_equal. simpl. lia. }
    rewrite H0 by done. clear H0 Hrep0 Hl0 Hne0 Hne Hch Hf first. set (D := d + Z.of_nat (length (f :: fs))).
    assert (∀ k c, (k, c) ∈ ch → validateNode c (d + 1) D = (true, D)) as Hrest.
    { intros k c Hin. destruct (Hsub k c) as (sub & Hne & Hrep & Hl); [by right|]. rewrite (IH sub c (d + 1) D Hrep Hne Hl); subst D; simpl; [f_equal; lia|lia|lia]. }
    clear Hsub. induction ch as [|[k c] ch IHch]; [done|]. rewrite (Hrest k c) by (by left). apply IHch. intros k' c' Hin. apply (Hrest k' c'). by right.
Qed.

(** ** The tree of a model group *)
Section Group.
Context `{RuleArgs}.
(** The rule of the configuration with its result functions made. *)
Definition compiled (ru : Rule) (r : rule) : Prop := r.1 = ru_Conditions ru ∧ make_results (ru_Results ru) = Ok r.2.
(** The functions of a group can all be made. *)
Definition group_compiles (g : ModelGroup) (fs : list SchemaFunction) (rules : list rule) (dflt : list ResultFunction) : Prop :=
  Forall2 makes (mg_Schema g) fs ∧ Forall2 compiled (mg_Rules g) rules ∧ make_results (mg_Default g) = Ok dflt.
(** What a run calls. *)
Definition selected (t : Tree ResultFunction) (draws : nat → Z) (r : ruleRequest) : result string (list ResultFunction) :=
  let? o := Run t draws r in Ok o.1.

Lemma validate_group_rules g0 g : validate_group g0 = Some g → Forall (λ r, length (ru_Conditions r) = length (mg_Schema g)) (mg_Rules g).
Proof.
  unfold validate_group. set (g1 := if mg_Weight g0 =? 0 then _ else _). intros Hg.
  destruct (_ && _); [done|]. destruct (_ && _); [done|]. destruct (forallb _ _) eqn:Ef; [|done]. injection Hg as <-.
  apply Forall_forall. intros r Hr. rewrite forallb_forall in Ef. specialize (Ef r). rewrite <-list_elem_of_In in Ef. specialize (Ef Hr).
  apply Nat.eqb_eq in Ef. done.
Qed.
Lemma Forall2_pairs {A B} (P : A → B → Prop) l k : Forall2 P l k → Forall (λ x, P x.1 x.2) (zip l k) ∧ (zip l k).*1 = l ∧ (zip l k).*2 = k.
Proof.
  intros Hp. split_and!.
  - induction Hp; constructor; done.
  - apply fst_zip. apply Forall2_length in Hp. lia.
  - apply snd_zip. apply Forall2_length in Hp. lia.
Qed.
Lemma build_tree_represents g0 g fs rules dflt :
  validate_group g0 = Some g → group_compiles g fs rules dflt →
  ∃ n, build_tree g = Some (Ok {| Root := Some n; DefaultFunctions := dflt; AnalyticsKey := ""; ModelVersion := "" |}) ∧
    represents fs rules n ∧ Forall (λ x : rule, length x.1 = length fs) rules.
Proof.
  intros Hg (Hs & Hr & Hd). apply validate_group_rules in Hg. pose proof (Forall2_length _ _ _ Hs) as Hlen. rewrite Hlen in Hg.
  destruct (Forall2_pairs _ _ _ Hr) as (Hz & Hz1 & Hz2). rewrite <-Hz1 in Hg.
  destruct (add_rules_represents fs (mg_Schema g) Hs (zip (mg_Rules g) rules) [] empty_node) as (n & En & Hn); [|done|apply represents_nil|].
  { rewrite Forall_fmap in Hg. eapply Forall_impl; [apply Forall_and; split; [exact Hg|exact Hz]|]. intros [ru r] [? [? ?]]. done. }
  rewrite Hz1 in En. rewrite Hz2 in Hn. exists n. unfold build_tree. rewrite Hd, En. split_and!; [done|done|].
  rewrite Hz1 in Hg. clear -Hr Hg. induction Hr as [|ru r rus rs [Hc _] _ IH]; [done|]. apply Forall_cons in Hg as [Hl Hg]. constructor; [congruence|by apply IH].
Qed.

(** A group with only a default, which validation accepts, never runs it. *)
Lemma default_only_group_does_nothing g dflt : mg_Rules g = [] → make_results (mg_Default g) = Ok dflt →
  ∃ t, NewTree g = Some (Ok t) ∧ DefaultFunctions t = dflt ∧ ∀ draws r, selected t draws r = Ok [].
Proof. intros Hr Hd. unfold NewTree, build_tree. rewrite Hd, Hr. eexists. split; [reflexivity|]. done. Qed.
(** C21: A validated group whose functions can be made becomes a tree that passes its own validation,
    and on every request the tree of a group with rules calls the functions that the search in the list
    of rules finds: level by level the rules that name the answer of the schema function or, if none does,
    those with a wildcard, in the end the functions of every rule left in order; and the default when at
    some level no rule is left.  The tree of a group without rules calls nothing on any request, not even
    the default, although validation accepts a group with only a default. *)
Theorem tree_refines_rules g0 g fs rules dflt :
  validate_group g0 = Some g → group_compiles g fs rules dflt →
  ∃ t, NewTree g = Some (Ok t) ∧
    ∀ draws r, selected t draws r =
      match mg_Rules g with
      | [] => Ok []
      | _ => let? o := select_rules fs rules draws 0 r in Ok (default dflt o)
      end.
Proof.
  intros Hg Hc. destruct (mg_Rules g) as [|ru rus] eqn:Er.
  { destruct Hc as (_ & _ & Hd). destruct (default_only_group_does_nothing g dflt Er Hd) as (t & Ht & _ & Hs). by exists t. }
  destruct (build_tree_represents g0 g fs rules dflt Hg Hc) as (n & Eb & Hn & Hl).
  assert (rules ≠ []) as Hrne. { destruct Hc as (_ & Hr & _). intros ->. apply Forall2_nil_inv_r in Hr. congruence. }
  eexists. unfold NewTree, checked. rewrite Eb. cbn [mbind option_bind rbind]. unfold validate at 1. cbn [Root].
  rewrite (validate_represented fs rules n 0 (-1)) by (done || lia || by left). split; [done|].
  intros draws r. unfold selected, Run. cbn [Root]. rewrite <-(walk_selects fs rules n draws 0 r {| rm_Results := []; rm_AnalyticsKey := ""; rm_RuleFired := ""; rm_ModelVersion := "" |} Hn Hrne Hl). unfold outcome.
  by destruct (walk _ _ _ _ _) as [[o m]|e].
Qed.
End Group.

(** *** Witness: one rule by country and channel, a wildcard and a default *)
Definition demo_args : RuleArgs := {|
  arg_strings := λ _ _, Ok ["FRA"]; arg_sids := λ _, Ok [2]; arg_pct := λ _, Ok None; arg_bidders := λ params, Ok [params] |}.
Definition exclude (bidder : string) : Schema := {| sc_Func := "excludeBidders"; sc_Args := bidder |}.
Definition include (bidder : string) : Schema := {| sc_Func := "includeBidders"; sc_Args := bidder |}.
Definition demo_group : ModelGroup := {|
  mg_Weight := 0; mg_AnalyticsKey := "key"; mg_Version := "1";
  mg_Schema := [{| sc_Func := "deviceCountry"; sc_Args := "" |}; {| sc_Func := "eidAvailable"; sc_Args := "" |}];
  mg_Rules := [{| ru_Conditions := ["USA"; "true"]; ru_Results := [exclude "rubicon"] |};
               {| ru_Conditions := ["*"; "*"]; ru_Results := [include "appnexus"] |};
               {| ru_Conditions := ["USA"; "true"]; ru_Results := [include "ix"] |}];
  mg_Default := [exclude "default"] |}.
Definition demo_rules : list rule :=
  [(["USA"; "true"], [ExcludeBidders ["rubicon"]]); (["*"; "*"], [IncludeBidders ["appnexus"]]); (["USA"; "true"], [IncludeBidders ["ix"]])].
Definition from_country (c : string) (eids : list string) : ruleRequest := {|
  rq_Geo := Some (c, ""); rq_Channel := Ok None; rq_EidSources := eids; rq_UserData := 0; rq_UserExtData := Ok false; rq_Site := None;
  rq_App := None; rq_Regs := None |}.
(** Both rules of the country fire together; a country without a rule takes the wildcard; a country
    with a rule that fails further down takes the default, never the wildcard of the level above. *)
Lemma tree_refines_rules_witness : ∃ t, NewTree (H := demo_args) (set_Weight 100 demo_group) = Some (Ok t) ∧
  selected t (λ _, 0) (from_country "USA" ["id"]) = Ok [ExcludeBidders ["rubicon"]; IncludeBidders ["ix"]] ∧
  selected t (λ _, 0) (from_country "DEU" []) = Ok [IncludeBidders ["appnexus"]] ∧
  selected t (λ _, 0) (from_country "USA" []) = Ok [ExcludeBidders ["default"]].
Proof.
  destruct (tree_refines_rules (H := demo_args) demo_group (set_Weight 100 demo_group) [deviceCountry; eidAvailable] demo_rules [ExcludeBidders ["default"]])
    as (t & Ht & Hs); [reflexivity| |].
  { split_and!; [repeat constructor|repeat constructor|reflexivity]. }
  exists t. split; [exact Ht|]. split_and!; rewrite Hs; vm_compute; reflexivity.
Defined.

(** ** The mutations of a run *)
Section Mutations.
(** The functions that a run of the rule sets calls. *)
Definition fired_in (request : ruleRequest) (draw : Z → Z) (draws : nat → Z) (s : cacheRuleSet) : list ResultFunction :=
  match selectModelGroup (cr_modelGroups s) draw with
  | Err _ => []
  | Ok g => match Run (cg_tree g) draws request with Ok (fs, _) => fs | Err _ => [] end
  end.
Fixpoint fired (request : ruleRequest) (groupDraw : nat → Z → Z) (draws : nat → nat → Z) (i : nat) (sets : list cacheRuleSet) : list ResultFunction :=
  match sets with
  | [] => []
  | s :: rest => fired_in request (groupDraw i) (draws i) s ++ fired request groupDraw draws (S i) rest
  end.
Definition excluded_by (fs : list ResultFunction) : gset string :=
  ⋃ ((λ f, match f with ExcludeBidders l => set_of l | IncludeBidders _ => ∅ end) <$> fs).
Definition included_by (fs : list ResultFunction) : gset string :=
  ⋃ ((λ f, match f with IncludeBidders l => set_of l | ExcludeBidders _ => ∅ end) <$> fs).
Lemma excluded_by_app l k : excluded_by (l ++ k) = excluded_by l ∪ excluded_by k.
Proof. unfold excluded_by. by rewrite fmap_app, union_list_app_L. Qed.
Lemma included_by_app l k : included_by (l ++ k) = included_by l ∪ included_by k.
Proof. unfold included_by. by rewrite fmap_app, union_list_app_L. Qed.

(** A bidder gets past a mutation. *)
Definition passes (allowed : gset string) (b : string) (m : mutation) : Prop :=
  match m with MDelete s => b ∉ s | MKeepAllowed => b ∈ allowed end.
#[global] Instance passes_dec allowed b m : Decision (passes allowed b m).
Proof. destruct m; unfold passes; apply _. Defined.
Lemma apply_mutations_filter allowed muts : ∀ ms : list (gmap string string),
  foldl (apply_mutation allowed) (Some <$> ms) muts = (λ m, Some (filter (λ kv, Forall (passes allowed kv.1) muts) m)) <$> ms.
Proof.
  induction muts as [|mu muts IH]; intros ms; simpl.
  - apply list_fmap_ext. intros _ m _. f_equal. symmetry. apply map_filter_id. by constructor.
  - assert (apply_mutation allowed (Some <$> ms) mu = Some <$> (filter (λ kv, passes allowed kv.1 mu) <$> ms)) as ->.
    { destruct mu as [s|]; (induction ms as [|m ms IHms]; [done|]); simpl in *; f_equal; exact IHms. }
    rewrite IH, <-list_fmap_compose. apply list_fmap_ext. intros _ m _. simpl. f_equal. rewrite map_filter_filter. apply map_filter_ext.
    intros k v _. simpl. rewrite Forall_cons. tauto.
Qed.

(** What the result holds of the functions called so far. *)
Definition tracks (h : hookResult) (fs : list ResultFunction) : Prop :=
  hr_allowed h = included_by fs ∧
  ∀ al b, Forall (passes al b) (hr_mutations h) ↔ b ∉ excluded_by fs ∧ (MKeepAllowed ∈ hr_mutations h → b ∈ al).
Lemma call_result_tracks fs : ∀ h done_, tracks h done_ →
  tracks (foldl call_result h fs) (done_ ++ fs) ∧ (MKeepAllowed ∈ hr_mutations (foldl call_result h fs) ↔ MKeepAllowed ∈ hr_mutations h).
Proof.
  induction fs as [|f fs IH]; intros h done_ Ht; [by rewrite app_nil_r|]. rewrite (cons_middle f done_ fs), app_assoc. simpl.
  destruct (IH (call_result h f) (done_ ++ [f])) as [IH1 IH2].
  - destruct Ht as [Ha Hm]. destruct f as [l|l]; (split; [rewrite included_by_app; unfold included_by at 2; simpl; set_solver|]);
      intros al b; rewrite excluded_by_app; unfold excluded_by at 2; simpl.
    + rewrite Forall_app, Forall_singleton, Hm, elem_of_app, list_elem_of_singleton. simpl. set_solver.
    + rewrite Hm. set_solver.
  - split; [done|]. rewrite IH2. destruct f; simpl; [|done]. rewrite elem_of_app, list_elem_of_singleton. naive_solver.
Qed.
Definition settled (h : hookResult) : Prop := MKeepAllowed ∈ hr_mutations h ↔ hr_allowed h ≠ ∅.
Lemma run_rule_set_tracks request draw draws h done_ s : tracks h done_ → settled h →
  tracks (run_rule_set request draw draws h s) (done_ ++ fired_in request draw draws s) ∧ settled (run_rule_set request draw draws h s).
Proof.
  intros Ht Hs. unfold run_rule_set, fired_in. destruct (selectModelGroup _ _) as [g|e]; [|by rewrite app_nil_r].
  set (h1 := match Run (cg_tree g) draws request with Err e => add_hook_error e h | Ok (fs, _) => foldl call_result h fs end).
  set (fs := match Run (cg_tree g) draws request with Ok (fs, _) => fs | Err _ => [] end).
  assert (tracks h1 (done_ ++ fs) ∧ (MKeepAllowed ∈ hr_mutations h1 ↔ MKeepAllowed ∈ hr_mutations h)) as [Ht1 Hk].
  { subst h1 fs. destruct (Run _ _ _) as [[fs m]|e]; [by apply call_result_tracks|by rewrite app_nil_r]. }
  clearbody h1 fs. destruct Ht1 as [Ha Hm]. case_bool_decide as He.
  - split; [done|]. unfold settled in *. rewrite Hk, Hs. destruct Ht as [Ha0 _]. rewrite included_by_app in Ha. set_solver.
  - split; [split; [done|]|]; simpl.
    + intros al b. rewrite Forall_app, Forall_singleton, Hm, elem_of_app, list_elem_of_singleton. simpl. naive_solver.
    + unfold settled. simpl. rewrite elem_of_app, list_elem_of_singleton. naive_solver.
Qed.
Lemma run_rule_sets_tracks request groupDraw draws sets : ∀ i h done_, tracks h done_ → settled h →
  tracks (run_rule_sets request groupDraw draws i sets h) (done_ ++ fired request groupDraw draws i sets) ∧
  settled (run_rule_sets request groupDraw draws i sets h).
Proof.
  induction sets as [|s sets IH]; intros i h done_ Ht Hs; [by rewrite app_nil_r|]. simpl. rewrite app_assoc.
  destruct (run_rule_set_tracks request (groupDraw i) (draws i) h done_ s Ht Hs) as [Ht' Hs']. by apply IH.
Qed.

(** Whatever the groups drawn, running the rule sets and applying their mutations
    leaves in every impression with [ext.prebid] exactly the bidders that no function fired excludes
    and, if any function fired includes bidders, that some function includes: the order of the
    functions and of the rule sets does not matter, although the mutation that keeps bidders is
    recorded before the later rule sets add to the map it shares. *)
Theorem engine_keeps_allowed_bidders sets request groupDraw draws (ms : list (gmap string string)) :
  let fs := fired request groupDraw draws 0 sets in
  apply_result (handleProcessedAuctionHook sets request groupDraw draws) (Some <$> ms) =
  (λ m, Some (filter (λ kv, kv.1 ∉ excluded_by fs ∧ (included_by fs = ∅ ∨ kv.1 ∈ included_by fs)) m)) <$> ms.
Proof.
  intros fs. unfold apply_result, handleProcessedAuctionHook. rewrite apply_mutations_filter.
  destruct (run_rule_sets_tracks request groupDraw draws sets 0 {| hr_mutations := []; hr_allowed := ∅; hr_errors := [] |} []) as [[Ha Hm] Hs].
  { split; [done|]. intros al b. simpl. split; [|by constructor]. intros _. split; [by apply not_elem_of_empty|by intros ?%elem_of_nil]. }
  { unfold settled. simpl. split; [by intros ?%elem_of_nil|done]. }
  apply list_fmap_ext. intros _ m _. f_equal. apply map_filter_ext. intros b v _. cbn [fst]. rewrite Hm. unfold settled in Hs. rewrite Ha in *. simpl in *. fold fs.
  fold fs in Hs. destruct (decide (included_by fs = ∅)); naive_solver.
Qed.
End Mutations.

(** ** Geoscopes *)
Section Named.
Context (cg : gmap string (list string)).
(** No group has a name that starts with an exclamation mark. *)
Definition groups_plain : Prop := ∀ k, is_group cg k = true → bang k = false.
(** An annotation names a country, alone or by a group. *)
Definition names (g c : string) : Prop :=
  g ≠ "GLOBAL" ∧ match cg !! TrimPrefix g "!" with Some cs => c ∈ cs | None => c = TrimPrefix g "!" end.
Definition named (gs : list string) (c : string) : Prop := ∃ g, g ∈ gs ∧ names g c.
(** A list of a parsed configuration holds annotations without the mark, groups or countries. *)
Definition drawn (gs : list string) (isg : bool) (x : string) : Prop := ∃ g, g ∈ gs ∧ g ≠ "GLOBAL" ∧ TrimPrefix g "!" = x ∧ is_group cg x = isg.
Definition drawn_config (gs : list string) (cfg : parsedConfig) : Prop :=
  Forall (drawn gs true) (pc_groupsIncluded cfg) ∧ Forall (drawn gs true) (pc_groupsExcluded cfg) ∧
  Forall (drawn gs false) (pc_included cfg) ∧ Forall (drawn gs false) (pc_excluded cfg).

Lemma TrimPrefix_plain g : bang g = false → TrimPrefix g "!" = g.
Proof. unfold bang, TrimPrefix. by intros ->. Qed.
Lemma parse_geoscope_drawn gs cfg g : groups_plain → g ∈ gs → drawn_config gs cfg → drawn_config gs (parse_geoscope cg cfg g).
Proof.
  intros Hp Hg (H1 & H2 & H3 & H4). unfold parse_geoscope. destruct (String.eqb_spec g "GLOBAL") as [->|Hne]; [done|].
  destruct (is_group cg g) eqn:Eg; [|destruct (bang g && is_group cg (TrimPrefix g "!")) eqn:Eb; [|destruct (bang g) eqn:Ebg; simpl]];
    (split_and!; simpl; [try done..]); apply Forall_app; (split; [done|]); apply Forall_singleton; exists g.
  - by rewrite TrimPrefix_plain by auto.
  - by apply andb_prop in Eb as [_ ->].
  - simpl in Eb. done.
  - by rewrite TrimPrefix_plain.
Qed.
Lemma parseBidderGeoscopes_drawn b gs : groups_plain → drawn_config gs (parseBidderGeoscopes cg b gs).
Proof.
  intros Hp. unfold parseBidderGeoscopes. assert (∀ l cfg, (∀ g, g ∈ l → g ∈ gs) → drawn_config gs cfg → drawn_config gs (foldl (parse_geoscope cg) cfg l)) as Hf.
  { induction l as [|g l IH]; intros cfg Hl Hc; [done|]. simpl. apply IH; [set_solver|]. apply parse_geoscope_drawn; [done|set_solver|done]. }
  apply Hf; [done|]. by split_and!.
Qed.
Lemma unnamed_not_in gs l c : Forall (drawn gs false) l → ¬ named gs c → bool_decide (c ∈ l) = false.
Proof.
  intros Hl Hn. apply bool_decide_eq_false. intros Hc. rewrite Forall_forall in Hl. destruct (Hl c Hc) as (g & Hg & Hne & Hx & Hgr).
  apply Hn. exists g. split; [done|]. split; [done|]. apply bool_decide_eq_false in Hgr. rewrite Hx. by destruct (cg !! c) eqn:E; [destruct Hgr|].
Qed.
Lemma unnamed_not_in_group gs l c : Forall (drawn gs true) l → ¬ named gs c → countryInAGroup cg c l = false.
Proof.
  intros Hl Hn. unfold countryInAGroup. apply not_true_is_false. intros (x & Hx & Hc)%existsb_exists. apply list_elem_of_In in Hx.
  rewrite Forall_forall in Hl. destruct (Hl x Hx) as (g & Hg & Hne & Htr & _). apply Hn. exists g. split; [done|]. split; [done|]. rewrite Htr.
  destruct (cg !! x); [|done]. by apply bool_decide_eq_true in Hc.
Qed.
(** Countries that the annotations do not name are treated alike. *)
Lemma unnamed_countries_alike b gs c d : groups_plain → ¬ named gs c → ¬ named gs d →
  excluded_in cg (parseBidderGeoscopes cg b gs) c = excluded_in cg (parseBidderGeoscopes cg b gs) d.
Proof.
  intros Hp Hc Hd. destruct (parseBidderGeoscopes_drawn b gs Hp) as (H1 & H2 & H3 & H4). unfold excluded_in.
  rewrite !(unnamed_not_in gs _ c), !(unnamed_not_in gs _ d), !(unnamed_not_in_group gs _ c), !(unnamed_not_in_group gs _ d) by done. done.
Qed.

(** *** The map of exclusions *)
Definition all_empty (m : gmap string (list string)) : Prop := ∀ c l, m !! c = Some l → l = [].
Lemma name_country_spec m c0 : all_empty m → all_empty (name_country m c0) ∧ ∀ c, is_Some (name_country m c0 !! c) ↔ c = c0 ∨ is_Some (m !! c).
Proof.
  intros He. unfold name_country. destruct (m !! c0) eqn:E; [split; [done|]; naive_solver|]. split.
  - intros c l. destruct (decide (c = c0)) as [->|]; [rewrite lookup_insert_eq; naive_solver|rewrite lookup_insert_ne by done; apply He].
  - intros c. rewrite lookup_insert_is_Some. destruct (decide (c = c0)); naive_solver.
Qed.
Lemma name_geoscope_spec m g : all_empty m → all_empty (name_geoscope cg m g) ∧ ∀ c, is_Some (name_geoscope cg m g !! c) ↔ names g c ∨ is_Some (m !! c).
Proof.
  intros He. unfold name_geoscope, names. destruct (String.eqb_spec g "GLOBAL") as [->|Hne]; [split; [done|]; naive_solver|].
  destruct (cg !! TrimPrefix g "!") as [cs|]; [|destruct (name_country_spec m (TrimPrefix g "!") He) as [? Hc]; split; [done|]; intros c; rewrite Hc; naive_solver].
  revert m He. induction cs as [|c0 cs IH]; intros m He; simpl; [split; [done|]; set_solver|].
  destruct (name_country_spec m c0 He) as [He' Hc]. destruct (IH _ He') as [IH1 IH2]. split; [done|]. intros c. rewrite IH2, Hc, elem_of_cons. naive_solver.
Qed.
Lemma name_geoscopes_spec gs : ∀ m, all_empty m →
  all_empty (foldl (name_geoscope cg) m gs) ∧ ∀ c, is_Some (foldl (name_geoscope cg) m gs !! c) ↔ named gs c ∨ is_Some (m !! c).
Proof.
  induction gs as [|g gs IH]; intros m He; simpl.
  - split; [done|]. intros c. unfold named. setoid_rewrite elem_of_nil. naive_solver.
  - destruct (name_geoscope_spec m g He) as [He' Hg]. destruct (IH _ He') as [IH1 IH2]. split; [done|]. intros c. rewrite IH2, Hg. unfold named.
    setoid_rewrite elem_of_cons. naive_solver.
Qed.
Lemma name_config_spec (l : list (string * list string)) : ∀ m, all_empty m →
  let m' := foldl (λ m '(_, gs), foldl (name_geoscope cg) m gs) m l in
  all_empty m' ∧ ∀ c, is_Some (m' !! c) ↔ (∃ b gs, (b, gs) ∈ l ∧ named gs c) ∨ is_Some (m !! c).
Proof.
  induction l as [|[b gs] l IH]; intros m He; simpl.
  - split; [done|]. intros c. setoid_rewrite elem_of_nil. naive_solver.
  - destruct (name_geoscopes_spec gs m He) as [He' Hg]. destruct (IH _ He') as [IH1 IH2]. split; [done|]. intros c. rewrite IH2, Hg.
    setoid_rewrite elem_of_cons. naive_solver.
Qed.
Lemma mark_bidders_lookup (l : list (string * list string)) c : ∀ m,
  foldl (λ m '(bidder, gs), mark_bidder cg m bidder gs) m l !! c =
  (λ bs, bs ++ omap (λ '(b, gs), if excluded_in cg (parseBidderGeoscopes cg b gs) c then Some b else None) l) <$> m !! c.
Proof.
  induction l as [|[b gs] l IH]; intros m; simpl; [destruct (m !! c); simpl; [by rewrite app_nil_r|done]|].
  rewrite IH. unfold mark_bidder. rewrite map_lookup_imap. destruct (m !! c) as [bs|]; simpl; [|done].
  destruct (excluded_in _ _ c); simpl; [by rewrite <-app_assoc|done].
Qed.
End Named.

Section GeoTree.
Context `{MapRange} (geoscopes defs : gmap string (list string)).
Let cg := mergeCountryGroups defs.
(** The annotations exclude the bidder in a country. *)
Definition excluded_at (c b : string) : Prop := ∃ gs, geoscopes !! b = Some gs ∧ excluded_in cg (parseBidderGeoscopes cg b gs) c = true.
Lemma country_exclusions_lookup c l : country_exclusions cg geoscopes !! c = Some l → ∀ b, b ∈ l ↔ excluded_at c b.
Proof.
  unfold country_exclusions. rewrite mark_bidders_lookup. unfold initializeCountryExclusions.
  destruct (name_config_spec cg (map_range geoscopes) ∅) as [He _]; [by intros ? ?; rewrite lookup_empty|].
  intros (bs & Hbs & ->)%fmap_Some b. assert (bs = []) as ->.
  { destruct (decide (c = "*")) as [->|]; [rewrite lookup_insert_eq in Hbs; naive_solver|rewrite lookup_insert_ne in Hbs by done; by eapply He]. }
  simpl. rewrite list_elem_of_omap. unfold excluded_at. split.
  - intros ([b' gs] & Hin & Hx). apply elem_of_map_range in Hin. destruct (excluded_in _ _ _) eqn:E; [|done]. injection Hx as ->. by exists gs.
  - intros (gs & Hgs & Hx). exists (b, gs). rewrite elem_of_map_range, Hx. done.
Qed.
Lemma country_exclusions_dom c : is_Some (country_exclusions cg geoscopes !! c) ↔ c = "*" ∨ ∃ b gs, geoscopes !! b = Some gs ∧ named cg gs c.
Proof.
  unfold country_exclusions. rewrite mark_bidders_lookup, fmap_is_Some. unfold initializeCountryExclusions. rewrite lookup_insert_is_Some.
  destruct (name_config_spec cg (map_range geoscopes) ∅) as [_ Hd]; [by intros ? ?; rewrite lookup_empty|]. rewrite Hd, lookup_empty.
  setoid_rewrite elem_of_map_range. destruct (decide (c = "*")); naive_solver.
Qed.
Lemma child_range {R V} (f : V → Node R) (m : gmap string V) k : child k ((λ '(c, v), (c, f v)) <$> map_range m) = f <$> m !! k.
Proof.
  pose proof (NoDup_map_range_fst m) as Hn. pose proof (λ v, elem_of_map_range m k v) as He. revert Hn He. generalize (map_range m). intros l.
  induction l as [|[c v] l IH]; intros Hn He; simpl.
  - destruct (m !! k) as [v|] eqn:E; [|done]. exfalso. by apply (elem_of_nil (k, v)), He.
  - rewrite fmap_cons, NoDup_cons in Hn. destruct Hn as [Hc Hn]. destruct (String.eqb_spec c k) as [->|Hne].
    + rewrite (proj1 (He v)) by (by left). done.
    + apply IH; [done|]. intros v'. rewrite <-He, elem_of_cons. naive_solver.
Qed.

(** The country that [deviceCountry] answers. *)
Definition country_of (r : ruleRequest) : string := match rq_Geo r with Some (c, _) => c | None => "" end.
Definition leaves {R} (ch : list (string * Node R)) : Prop := Forall (λ kc, node_children kc.2 = []) ch.
Lemma validate_leaves {R} f (rs : list R) ch : leaves ch → (validateNode (mkNode f rs ch) 0 (-1)).1 = true.
Proof.
  intros Hl. destruct ch as [|[k [f0 rs0 ch0]] ch]; [done|]. apply Forall_cons in Hl as [H0 Hl]. simpl in H0. subst ch0. cbn [validateNode].
  simpl. induction Hl as [|[k' [f' rs' ch']] ch Hc Hl IH]; [done|]. simpl in Hc. subst ch'. simpl. apply IH.
Qed.
Lemma geo_tree_valid : validate (buildBidderConfigTree geoscopes defs) = true.
Proof.
  unfold validate, buildBidderConfigTree. cbn [Root]. case_bool_decide; [done|]. apply validate_leaves.
  apply Forall_fmap, Forall_forall. by intros [c bs] _.
Qed.

(** In every order of the maps, the tree built from the bidders' geoscopes passes
    its validation and, in every country, excludes exactly the bidders whose annotations exclude them
    there, also in the many countries that no annotation names and that take the wildcard.  Groups
    must not have names that start with an exclamation mark, and no annotation may name the wildcard. *)
Theorem geoscope_tree_exact draws r :
  geoscopes ≠ ∅ → groups_plain cg → (∀ b gs, geoscopes !! b = Some gs → ¬ named cg gs "*") →
  validate (buildBidderConfigTree geoscopes defs) = true ∧
  ∃ bidders, selected (buildBidderConfigTree geoscopes defs) draws r = Ok [ExcludeBidders bidders] ∧
    ∀ b, b ∈ bidders ↔ excluded_at (country_of r) b.
Proof.
  intros Hne Hp Hstar. split; [apply geo_tree_valid|]. unfold selected, Run, buildBidderConfigTree. cbn [Root]. rewrite bool_decide_eq_false_2 by done.
  fold cg. set (f := λ bidders, mkNode None [ExcludeBidders bidders] []).
  set (ch := _ <$> map_range (country_exclusions cg geoscopes)).
  assert (∀ k, child k ch = f <$> country_exclusions cg geoscopes !! k) as Hch by (intros k; apply (child_range f)).
  pose proof (proj2 (country_exclusions_dom "*")) as [ls Hls]; [by left|].
  rewrite walk_step by (eapply child_Some_nonempty; by rewrite Hch, Hls). cbn [call rbind]. fold (country_of r). rewrite !Hch, Hls.
  destruct (country_exclusions cg geoscopes !! country_of r) as [l|] eqn:El.
  - exists l. split; [done|]. by apply country_exclusions_lookup.
  - exists ls. split; [done|]. intros b. rewrite (country_exclusions_lookup _ _ Hls). unfold excluded_at.
    assert (∀ gs, geoscopes !! b = Some gs → ¬ named cg gs (country_of r)) as Hun.
    { intros gs Hgs Hnm. assert (is_Some (country_exclusions cg geoscopes !! country_of r)) as [? ?]; [|congruence].
      apply country_exclusions_dom. right. by exists b, gs. }
    assert (∀ gs, geoscopes !! b = Some gs → excluded_in cg (parseBidderGeoscopes cg b gs) "*" = excluded_in cg (parseBidderGeoscopes cg b gs) (country_of r)) as Hal.
    { intros gs Hgs. apply unnamed_countries_alike; [done|by eapply Hstar|by eapply Hun]. }
    split; intros (gs & Hgs & Hx); exists gs; (split; [done|]); [by rewrite <-(Hal gs Hgs)|by rewrite (Hal gs Hgs)].
Qed.
End GeoTree.

(** A bidder for France and the EEA but Germany. *)
Definition demo_geoscopes : gmap string (list string) := {["rubicon" := ["EEA"; "!DEU"]; "ix" := ["!USA"]; "open" := ["GLOBAL"]]}.
Lemma geoscope_tree_exact_witness : ∃ l k,
  selected (buildBidderConfigTree (H := canonical_range) demo_geoscopes ∅) (λ _, 0) (from_country "DEU" []) = Ok [ExcludeBidders l] ∧ "rubicon" ∈ l ∧ "ix" ∉ l ∧
  selected (buildBidderConfigTree (H := canonical_range) demo_geoscopes ∅) (λ _, 0) (from_country "JPN" []) = Ok [ExcludeBidders k] ∧ "rubicon" ∈ k ∧ "ix" ∉ k.
Proof.
  assert (mergeCountryGroups (H := canonical_range) ∅ = {["EEA" := EEA]}) as Hcg by (vm_compute; reflexivity).
  assert (demo_geoscopes ≠ ∅) as Hne by (intros E; by apply (f_equal (lookup "ix")) in E).
  assert (groups_plain (mergeCountryGroups (H := canonical_range) ∅)) as Hp.
  { rewrite Hcg. intros k Hk%bool_decide_eq_true. apply lookup_singleton_is_Some in Hk as <-. reflexivity. }
  assert (∀ b gs, demo_geoscopes !! b = Some gs → ¬ named (mergeCountryGroups (H := canonical_range) ∅) gs "*") as Hs.
  { rewrite Hcg. intros b gs Hb (g & Hg & _ & Hn). unfold demo_geoscopes in Hb.
    apply lookup_insert_Some in Hb as [[<- <-]|[_ Hb]]; [|apply lookup_insert_Some in Hb as [[<- <-]|[_ Hb]]; [|apply lookup_singleton_Some in Hb as [<- <-]]];
      repeat (apply elem_of_cons in Hg as [->|Hg]); try (by apply elem_of_nil in Hg); vm_compute in Hn; try discriminate Hn.
    all: apply list_elem_of_In in Hn; simpl in Hn; intuition discriminate. }
  destruct (geoscope_tree_exact (H := canonical_range) demo_geoscopes ∅ (λ _, 0) (from_country "DEU" []) Hne Hp Hs) as (_ & l & Hl & Hle).
  destruct (geoscope_tree_exact (H := canonical_range) demo_geoscopes ∅ (λ _, 0) (from_country "JPN" []) Hne Hp Hs) as (_ & k & Hk & Hke).
  exists l, k. split; [exact Hl|]. rewrite !Hle. split_and!; [| |exact Hk|..]; rewrite ?Hke.
  - exists ["EEA"; "!DEU"]. split; vm_compute; reflexivity.
  - intros (gs & Hgs & Hx). injection Hgs as <-. vm_compute in Hx. discriminate Hx.
  - exists ["EEA"; "!DEU"]. split; vm_compute; reflexivity.
  - intros (gs & Hgs & Hx). injection Hgs as <-. vm_compute in Hx. discriminate Hx.
Defined.

(** ** The cache *)
Section Served.
Context `{RuleArgs} `{MapRange} (sha : string → string) (schemaValid : string → bool) (decode : string → option PbRulesEngine)
        (geoscopes : gmap string (list string)).
Definition step := manager_step sha schemaValid decode geoscopes.
(** The cache after instructions, taken one by one at their times. *)
Fixpoint manage (refresh : Z) (c : gmap string cacheEntry) (is_ : list (Z * buildInstruction)) : option (gmap string cacheEntry) :=
  match is_ with [] => Some c | (now, i) :: rest => c' ← step refresh now c i; manage refresh c' rest end.
(** An entry of an account was built at the time of one of its instructions, from a configuration that
    was accepted and switches the engine on. *)
Definition built_from (is_ : list (Z * buildInstruction)) (account : string) (e : cacheEntry) : Prop :=
  ∃ now i cfg, (now, i) ∈ is_ ∧ bi_accountID i = account ∧ account ≠ "" ∧ NewConfig schemaValid decode (bi_config i) = Some cfg ∧ re_Enabled cfg = true ∧
    NewCacheEntry sha geoscopes now cfg (bi_config i) = Some (Ok e).
Lemma step_built seen refresh now c i c' :
  map_Forall (built_from seen) c → step refresh now c i = Some c' → map_Forall (built_from (seen ++ [(now, i)])) c'.
Proof.
  intros Hc Hs. assert (map_Forall (built_from (seen ++ [(now, i)])) c) as Hc1.
  { eapply map_Forall_impl; [exact Hc|]. intros a e (t & j & cfg & Hin & Hr). exists t, j, cfg. split; [set_solver|done]. }
  unfold step, manager_step in Hs. destruct (match c !! bi_accountID i with Some e => _ | None => _ end); [by injection Hs as <-|].
  destruct (NewConfig _ _ _) as [cfg|] eqn:Ec; [|by injection Hs as <-]. destruct (re_Enabled cfg) eqn:Een; simpl in Hs.
  - destruct (NewCacheEntry sha geoscopes now cfg (bi_config i)) as [[e|err]|] eqn:Ee; [| |done]; injection Hs as <-; [|done].
    unfold cache_Set. destruct (String.eqb_spec (bi_accountID i) "") as [_|Hne]; [done|]. apply map_Forall_insert_2; [|done].
    exists now, i, cfg. split_and!; try done. set_solver.
  - injection Hs as <-. by apply map_Forall_delete.
Qed.
(** However instructions arrive and whenever they are taken, every tree that the
    cache serves for an account was built from a configuration that some request of that account
    carried, that passed the JSON schema and the checks of its rule sets, and that switches the engine
    on; nothing is kept for the empty account. *)
Theorem cached_trees_accepted refresh is_ c : manage refresh ∅ is_ = Some c → map_Forall (built_from is_) c.
Proof.
  assert (∀ todo seen c0, map_Forall (built_from seen) c0 → manage refresh c0 todo = Some c → map_Forall (built_from (seen ++ todo)) c) as Hg.
  { induction todo as [|[now i] todo IH]; intros seen c0 Hc0 Hm; [injection Hm as ->; by rewrite app_nil_r|].
    simpl in Hm. apply bind_Some in Hm as (c1 & E1 & Hm). rewrite cons_middle, app_assoc. eapply IH; [|exact Hm]. by eapply step_built. }
  intros Hm. apply (Hg is_ [] ∅); [apply map_Forall_empty|done].
Qed.
(** A configuration that changed takes the place of the old one once the entry has expired, and a
    configuration that switches the engine off removes it. *)
Lemma expired_config_replaced refresh now c i e cfg e' :
  c !! bi_accountID i = Some e → bi_accountID i ≠ "" → Expired refresh now (ce_timestamp e) = true → sha (bi_config i) ≠ ce_hashedConfig e →
  NewConfig schemaValid decode (bi_config i) = Some cfg → NewCacheEntry sha geoscopes now cfg (bi_config i) = Some (Ok e') →
  step refresh now c i = Some (if re_Enabled cfg then <[bi_accountID i := e']> c else delete (bi_accountID i) c).
Proof.
  intros Hc Hid Hx Hsha Hn He. unfold step, manager_step. rewrite Hc. unfold rebuildTrees, configChanged. rewrite Hx, (proj2 (String.eqb_neq _ _)) by done. simpl.
  rewrite Hn. destruct (re_Enabled cfg); simpl; [|done]. rewrite He. simpl. unfold cache_Set. by rewrite (proj2 (String.eqb_neq _ _)).
Qed.
End Served.
(** *** Witness: a configuration taken once, and one that is refused *)
Definition demo_engine : PbRulesEngine := {|
  re_Enabled := true; re_Generate := false; re_CountryGroups := ∅;
  re_RuleSets := [{| rs_Stage := "processed_auction_request"; rs_Name := "set"; rs_ModelGroups := [demo_group] |}] |}.
Definition demo_decode (s : string) : option PbRulesEngine := if s =s? "on" then Some demo_engine else None.
Definition demo_instructions : list (Z * buildInstruction) :=
  [(1, {| bi_accountID := "acct"; bi_config := "on" |}); (2, {| bi_accountID := "other"; bi_config := "broken" |})].
Definition demo_managed : option (gmap string cacheEntry) :=
  manage (H := demo_args) (H0 := canonical_range) (String.append "h") (λ _, true) demo_decode ∅ 10 ∅ demo_instructions.
Lemma cached_trees_accepted_witness : ∃ c e now i cfg, demo_managed = Some c ∧ c !! "acct" = Some e ∧ c !! "other" = None ∧
  (now, i) ∈ demo_instructions ∧ bi_accountID i = "acct" ∧ NewConfig (λ _, true) demo_decode (bi_config i) = Some cfg.
Proof.
  assert ((λ c, (bool_decide (is_Some (c !! "acct")), bool_decide (c !! "other" = None))) <$> demo_managed = Some (true, true)) as Hd.
  { assert ((λ c, (match c !! "acct" with Some _ => true | None => false end, match c !! "other" with Some _ => false | None => true end)) <$> demo_managed = Some (true, true)) as Hd
      by (vm_compute; reflexivity).
    destruct demo_managed as [c|]; [|discriminate Hd]. simpl in *. injection Hd as H1 H2.
    destruct (c !! "acct"); [|discriminate H1]. by destruct (c !! "other"). }
  destruct demo_managed as [c|] eqn:E; [|discriminate Hd]. simpl in Hd. injection Hd as [e He]%bool_decide_eq_true Ho%bool_decide_eq_true.
  unfold demo_managed in E. destruct (cached_trees_accepted (H := demo_args) (H0 := canonical_range) _ _ _ _ _ _ _ E "acct" e He) as (now & i & cfg & Hin & Hid & _ & Hc & _).
  exists c, e, now, i, cfg. split_and!; [reflexivity|exact He|exact Ho|exact Hin|exact Hid|exact Hc].
Defined.
