(* ===== verification/Hooks.v ===== *)
(** * Module hooks: src/hooks and src/hooks/hookexecution

    A plan lists groups of hooks.  The hooks of a group run at the same time, each with a time limit;
    when all have answered, or one has rejected, the answers are handled in the order of arrival.
    Payloads hold pointers: [P] is a payload, [W] the store behind its pointers, and a mutation changes
    both.  A run takes the order of arrival and the time-outs as arguments.  Metrics and logs are left
    out. *)
From S2P Require Import Prelude GoStrings GoFloat ExtWrapper RequestWrapper Privacy GoNet Scrubber.

(** ** Stages and plans: plan.go *)
Definition StageEntrypoint := "entrypoint".
Definition StageRawAuctionRequest := "raw_auction_request".
Definition StageProcessedAuction := "processed_auction_request".
Definition StageBidderRequest := "bidder_request".
Definition StageRawBidderResponse := "raw_bidder_response".
Definition StageAllProcessedBidResponses := "all_processed_bid_responses".
Definition StageAuctionResponse := "auction_response".
Definition StageExitpoint := "exitpoint".
Definition IsRejectable (s : string) : bool :=
  negb (s =s? StageAllProcessedBidResponses) && negb (s =s? StageAuctionResponse) && negb (s =s? StageExitpoint).

Record HookExecutionGroup := { gc_Timeout : Z; gc_HookSequence : list (string * string) }.
(** Groups by endpoint and stage; [None] is a plan whose endpoints are nil. *)
Abbreviation HookExecutionPlan := (option (gmap string (gmap string (list HookExecutionGroup)))).
Record HooksConfig := { hc_HostExecutionPlan : HookExecutionPlan; hc_DefaultAccountExecutionPlan : HookExecutionPlan }.
Record HooksAccount := {
  hx_ID : string; hx_ExecutionPlan : HookExecutionPlan; hx_Modules : gmap string (gmap string string); hx_IPv6 : Z; hx_IPv4 : Z; hx_DebugAllow : bool
}.
Record HookWrapper {H : Type} := { hw_Module : string; hw_Code : string; hw_Hook : H }.
Arguments HookWrapper : clear implicits.
Record Group {H : Type} := { g_Timeout : Z; g_Hooks : list (HookWrapper H) }.
Arguments Group : clear implicits.

Section Plans.
Context {H : Type} (getHookFn : string → option H).
Definition getGroup (cfg : HookExecutionGroup) : Group H := {|
  g_Timeout := wrap64 (gc_Timeout cfg * 1000000);
  g_Hooks := omap (λ '(module, code), (λ h, {| hw_Module := module; hw_Code := code; hw_Hook := h |}) <$> getHookFn module) (gc_HookSequence cfg)
|}.
Definition groups_of (cfg : HookExecutionPlan) (endpoint stage : string) : list HookExecutionGroup :=
  default [] (cfg ≫= λ m, m !! endpoint ≫= λ stages, stages !! stage).
Definition getPlan (cfg : HookExecutionPlan) (endpoint stage : string) : list (Group H) :=
  omap (λ groupCfg, let group := getGroup groupCfg in if (0 <? length (g_Hooks group))%nat then Some group else None) (groups_of cfg endpoint stage).
Definition getMergedPlan (cfg : HooksConfig) (account : option HooksAccount) (endpoint stage : string) : list (Group H) :=
  let accountPlan := match account with
                     | Some a => match hx_ExecutionPlan a with Some p => Some p | None => hc_DefaultAccountExecutionPlan cfg end
                     | None => hc_DefaultAccountExecutionPlan cfg
                     end in
  getPlan (hc_HostExecutionPlan cfg) endpoint stage ++ getPlan accountPlan endpoint stage.
End Plans.

(** ** The repository: repo.go.  A module implements some of the interfaces. *)
Section Repository.
Context {H : Type}.
Definition addHook (hooks : gmap string H) (hook : H) (id : string) : result string (gmap string H) :=
  match hooks !! id with Some _ => Err ("hook with id " +:+ id +:+ " already registered") | None => Ok (<[id := hook]> hooks) end.
(** The maps by stage; [implements] gives the hook that a module has for a stage. *)
Definition repo_add (implements : string → option H) (id : string) (repo : gmap string (gmap string H)) : result string (gmap string (gmap string H)) :=
  let stages := [StageEntrypoint; StageRawAuctionRequest; StageProcessedAuction; StageBidderRequest; StageRawBidderResponse;
                 StageAllProcessedBidResponses; StageAuctionResponse; StageExitpoint] in
  let? out := foldl (λ acc stage, let? st := acc in
    match implements stage with
    | None => Ok st
    | Some h => let? m := addHook (default ∅ (st.1 !! stage)) h id in Ok (<[stage := m]> st.1, true)
    end) (Ok (repo, false)) stages in
  if snd out then Ok out.1 else Err ("hook " +:+ id +:+ " does not implement any supported hook interface").
End Repository.

(** ** Results of hooks: hookstage *)
Inductive MutationType := MutationAdd | MutationUpdate | MutationDelete.
Definition MutationType_String (t : MutationType) : string := match t with MutationAdd => "add" | MutationUpdate => "update" | MutationDelete => "delete" end.
Inductive hook_error := TimeoutError | FailureError (Message : string) | OtherHookError (Message : string).
Definition hook_error_Error (e : hook_error) : string :=
  match e with TimeoutError => "Hook execution timeout" | FailureError m => "hook execution failed: " +:+ m | OtherHookError m => m end.
Record HookID := { id_ModuleCode : string; id_HookImplCode : string }.
#[global] Instance HookID_eq_dec : EqDecision HookID.
Proof. solve_decision. Defined.
Record RejectError := { rj_NBR : Z; rj_Hook : HookID; rj_Stage : string }.
Definition RejectError_Error (e : RejectError) : string :=
  "Module " +:+ id_ModuleCode (rj_Hook e) +:+ " (hook: " +:+ id_HookImplCode (rj_Hook e) +:+ ") rejected request with code " +:+
  pretty (rj_NBR e) +:+ " at " +:+ rj_Stage e +:+ " stage".
Inductive Status := StatusSuccess | StatusTimeout | StatusFailure | StatusExecutionFailure.
Inductive Action := ActionUpdate | ActionReject | ActionNone.
#[global] Instance Status_eq_dec : EqDecision Status.
Proof. solve_decision. Defined.
Record HookOutcome := {
  ho_Time : Z; ho_AnalyticsTags : string; ho_HookID : HookID; ho_Status : Status; ho_Action : option Action; ho_Message : string;
  ho_DebugMessages : list string; ho_Errors : list string; ho_Warnings : list string
}.
Definition set_failed (status : Status) (errors : list string) (o : HookOutcome) : HookOutcome :=
  {| ho_Time := ho_Time o; ho_AnalyticsTags := ho_AnalyticsTags o; ho_HookID := ho_HookID o; ho_Status := status; ho_Action := ho_Action o;
     ho_Message := ho_Message o; ho_DebugMessages := ho_DebugMessages o; ho_Errors := ho_Errors o ++ errors; ho_Warnings := ho_Warnings o |}.
Definition set_acted (action : Action) (errors : list string) (o : HookOutcome) : HookOutcome :=
  {| ho_Time := ho_Time o; ho_AnalyticsTags := ho_AnalyticsTags o; ho_HookID := ho_HookID o; ho_Status := ho_Status o; ho_Action := Some action;
     ho_Message := ho_Message o; ho_DebugMessages := ho_DebugMessages o; ho_Errors := ho_Errors o ++ errors; ho_Warnings := ho_Warnings o |}.
Definition set_messages (debug warnings : list string) (o : HookOutcome) : HookOutcome :=
  {| ho_Time := ho_Time o; ho_AnalyticsTags := ho_AnalyticsTags o; ho_HookID := ho_HookID o; ho_Status := ho_Status o; ho_Action := ho_Action o;
     ho_Message := ho_Message o; ho_DebugMessages := ho_DebugMessages o ++ debug; ho_Errors := ho_Errors o; ho_Warnings := ho_Warnings o ++ warnings |}.
Record GroupOutcome := { go_Time : Z; go_InvocationResults : list HookOutcome }.
Record StageOutcome := { so_Time : Z; so_Entity : string; so_Groups : list GroupOutcome; so_Stage : string }.

(** ** The context of modules: context.go.  [None] is the nil map. *)
Section Contexts.
Context {V : Type}.
Abbreviation ModuleContext := (option (gmap string V)).
Definition put_context (ctxs : gmap string ModuleContext) (moduleName : string) (mCtx : ModuleContext) : gmap string ModuleContext :=
  match ctxs !! moduleName with
  | Some (Some existing) => <[moduleName := Some (default ∅ mCtx ∪ existing)]> ctxs
  | _ => <[moduleName := mCtx]> ctxs
  end.
Definition saveModuleContexts `{MapRange} (groupCtx : list (gmap string ModuleContext)) (ctxs : gmap string ModuleContext) : gmap string ModuleContext :=
  foldl (λ ctxs g, foldl (λ ctxs '(name, c), put_context ctxs name c) ctxs (map_range g)) ctxs groupCtx.
Record ModuleInvocationContext := {
  mi_AccountID : string; mi_AccountConfig : string; mi_Endpoint : string; mi_ModuleContext : ModuleContext; mi_HookImplCode : string
}.
Record executionContext := {
  ec_endpoint : string; ec_stage : string; ec_accountID : string; ec_account : option HooksAccount;
  ec_contexts : gmap string ModuleContext; ec_activityControl : ActivityControl
}.
(** [AccountModules.ModuleConfig]; the error is only logged. *)
Definition ModuleConfig (m : gmap string (gmap string string)) (id : string) : result string string :=
  match Index id "." with
  | None => Err "ID must consist of vendor and module names separated by dot"
  | Some i => Ok (default "" (m !! str_take i id ≫= λ v, v !! str_drop (S i) id))
  end.
Definition getModuleContext (ctx : executionContext) (moduleName code : string) : ModuleInvocationContext := {|
  mi_AccountID := match ec_account ctx with Some _ => ec_accountID ctx | None => "" end;
  mi_AccountConfig := match ec_account ctx with
                      | Some a => match ModuleConfig (hx_Modules a) moduleName with Ok cfg => cfg | Err _ => "" end
                      | None => ""
                      end;
  mi_Endpoint := ec_endpoint ctx;
  mi_ModuleContext := default None (ec_contexts ctx !! moduleName);
  mi_HookImplCode := code
|}.
End Contexts.
Arguments executionContext : clear implicits.
Arguments ModuleInvocationContext : clear implicits.

(** ** Executing a stage: execution.go *)
(** A payload that holds a request behind a pointer: the request, and the payload that points to a
    fresh copy instead, with the store in which that copy lies. *)
Record RequestUpdater {J : Json} {P W : Type} := {
  up_get : P → W → RequestWrapper;
  up_copy : RequestWrapper → P → W → P * W
}.
Arguments RequestUpdater {_} _ _.

Section Execution.
Context {J : Json} {H P W V : Type}.
Record Mutation := { mut_Type : MutationType; mut_Key : list string; mut_Apply : P → W → result string P * W }.
Record HookResult := {
  hr_Reject : bool; hr_NbrCode : Z; hr_Message : string; hr_ChangeSet : list Mutation; hr_Errors : list string; hr_Warnings : list string;
  hr_DebugMessages : list string; hr_AnalyticsTags : string; hr_ModuleContext : option (gmap string V)
}.
Definition empty_result : HookResult := {|
  hr_Reject := false; hr_NbrCode := 0; hr_Message := ""; hr_ChangeSet := []; hr_Errors := []; hr_Warnings := []; hr_DebugMessages := [];
  hr_AnalyticsTags := ""; hr_ModuleContext := None |}.
Record hookResponse := { rs_Err : option hook_error; rs_Time : Z; rs_HookID : HookID; rs_Result : HookResult }.
(** A hook answers, or never does: it panics or runs on. *)
Abbreviation hookHandler := (ModuleInvocationContext V → H → P → W → option (HookResult * option hook_error)).
Context (updater : option (RequestUpdater P W)) (handler : hookHandler).

(** What a hook is given; [None] is a panic of the scrubbing. *)
Definition hook_scope (code : string) : Component := {| comp_Type := "general"; comp_Name := code |}.
Definition no_request : ActivityRequest := {| ar_policies := None; ar_bidRequest := None |}.
Definition hook_IPConf (account : option HooksAccount) : IPConf :=
  match account with
  | Some a => {| IPV6_AnonKeepBits := hx_IPv6 a; IPV4_AnonKeepBits := hx_IPv4 a |}
  | None => {| IPV6_AnonKeepBits := 56; IPV4_AnonKeepBits := 24 |}
  end.
(** The copy has the bid request and no decoded extensions. *)
Definition CloneBidRequestPartial (rw : RequestWrapper) : RequestWrapper :=
  {| rw_BidRequest := rw_BidRequest rw; rw_impWrappers := None; rw_userExt := None; rw_deviceExt := None; rw_requestExt := None;
     rw_appExt := None; rw_regExt := None; rw_siteExt := None; rw_doohExt := None; rw_sourceExt := None |}.
Definition handleModuleActivities (hookCode : string) (ctl : ActivityControl) (payload : P) (store : W) (account : option HooksAccount) : option (P * W) :=
  match updater with
  | None => Some (payload, store)
  | Some up =>
      let fpd := Allow ctl ActivityTransmitUserFPD (hook_scope hookCode) no_request in
      let geo := Allow ctl ActivityTransmitPreciseGeo (hook_scope hookCode) no_request in
      if fpd && geo then Some (payload, store)
      else
        let copy := CloneBidRequestPartial (up_get up payload store) in
        copy ← (if negb fpd then ScrubUserFPD copy else Some copy);
        let copy := if negb geo then ScrubGeoAndDeviceIP copy (hook_IPConf account) else copy in
        Some (up_copy up copy payload store)
  end.

(** One hook; [timedOut] says that the time limit was seen first. *)
Definition executeHook (mctx : ModuleInvocationContext V) (hw : HookWrapper H) (payload : P) (store : W) (timedOut : bool) (time : Z) : hookResponse :=
  let id := {| id_ModuleCode := hw_Module hw; id_HookImplCode := hw_Code hw |} in
  match (if timedOut then None else handler mctx (hw_Hook hw) payload store) with
  | Some (res, err) => {| rs_Err := err; rs_Time := time; rs_HookID := id; rs_Result := res |}
  | None => {| rs_Err := Some TimeoutError; rs_Time := time; rs_HookID := id; rs_Result := empty_result |}
  end.
(** The answers up to the first that rejects. *)
Fixpoint collectHookResponses (resp : list hookResponse) : list hookResponse :=
  match resp with [] => [] | r :: rest => r :: if hr_Reject (rs_Result r) then [] else collectHookResponses rest end.

Definition applied_message (m : Mutation) : string :=
  "Hook mutation successfully applied, affected key: " +:+ String.concat "." (mut_Key m) +:+ ", mutation type: " +:+ MutationType_String (mut_Type m).
(** The mutations in order: payload, store, debug messages, warnings and how many succeeded. *)
Fixpoint apply_mutations (muts : list Mutation) (payload : P) (store : W) (o : HookOutcome) (successful : nat) : P * W * HookOutcome * nat :=
  match muts with
  | [] => (payload, store, o, successful)
  | m :: rest =>
      match mut_Apply m payload store with
      | (Err e, store) => apply_mutations rest payload store (set_messages [] ["failed to apply hook mutation: " +:+ e] o) successful
      | (Ok p, store) => apply_mutations rest p store (set_messages [applied_message m] [] o) (1 + successful)
      end
  end.
Definition handleHookMutations (payload : P) (store : W) (hr : hookResponse) (o : HookOutcome) : P * W * HookOutcome :=
  match hr_ChangeSet (rs_Result hr) with
  | [] => (payload, store, set_acted ActionNone [] o)
  | muts =>
      let '(payload, store, o, successful) := apply_mutations muts payload store (set_acted ActionUpdate [] o) 0 in
      (payload, store, if (0 <? successful)%nat then o else set_failed StatusExecutionFailure [] o)
  end.
Definition handleHookError (hr : hookResponse) (o : HookOutcome) : HookOutcome :=
  match rs_Err hr with
  | None => o
  | Some e => set_failed (match e with TimeoutError => StatusTimeout | FailureError _ => StatusFailure | OtherHookError _ => StatusExecutionFailure end)
                [hook_error_Error e] o
  end.
Definition handleHookReject (stage : string) (hr : hookResponse) (o : HookOutcome) : HookOutcome * option RejectError :=
  if negb (hr_Reject (rs_Result hr)) then (o, None)
  else if negb (IsRejectable stage) then
    (set_failed StatusExecutionFailure
       ["Module (name: " +:+ id_ModuleCode (rs_HookID hr) +:+ ", hook code: " +:+ id_HookImplCode (rs_HookID hr) +:+
        ") tried to reject request on the " +:+ stage +:+ " stage that does not support rejection"] o, None)
  else
    let e := {| rj_NBR := hr_NbrCode (rs_Result hr); rj_Hook := rs_HookID hr; rj_Stage := stage |} in
    (set_acted ActionReject [RejectError_Error e] o, Some e).
Definition outcome_of (hr : hookResponse) : HookOutcome :=
  let r := rs_Result hr in
  {| ho_Time := rs_Time hr; ho_AnalyticsTags := hr_AnalyticsTags r; ho_HookID := rs_HookID hr; ho_Status := StatusSuccess; ho_Action := None;
     ho_Message := hr_Message r; ho_DebugMessages := hr_DebugMessages r; ho_Errors := hr_Errors r; ho_Warnings := hr_Warnings r |}.
Definition failed (hr : hookResponse) : bool := match rs_Err hr with Some _ => true | None => hr_Reject (rs_Result hr) end.
Definition handleHookResponse (stage : string) (payload : P) (store : W) (hr : hookResponse) : P * W * HookOutcome * option RejectError :=
  if failed hr then
    let '(o, rejectErr) := handleHookReject stage hr (handleHookError hr (outcome_of hr)) in (payload, store, o, rejectErr)
  else
    let '(payload, store, o) := handleHookMutations payload store hr (outcome_of hr) in (payload, store, o, None).

Record groupRun := { gr_outcome : GroupOutcome; gr_payload : P; gr_store : W; gr_contexts : gmap string (option (gmap string V)); gr_reject : option RejectError }.
Fixpoint handleHookResponses (stage : string) (responses : list hookResponse) (payload : P) (store : W) (out : GroupOutcome)
    (ctxs : gmap string (option (gmap string V))) : groupRun :=
  match responses with
  | [] => {| gr_outcome := out; gr_payload := payload; gr_store := store; gr_contexts := ctxs; gr_reject := None |}
  | r :: rest =>
      let ctxs := <[id_ModuleCode (rs_HookID r) := hr_ModuleContext (rs_Result r)]> ctxs in
      let time := if go_Time out <? rs_Time r then rs_Time r else go_Time out in
      let '(payload, store, o, rejectErr) := handleHookResponse stage payload store r in
      let out := {| go_Time := time; go_InvocationResults := go_InvocationResults out ++ [o] |} in
      match rejectErr with
      | Some e => {| gr_outcome := out; gr_payload := payload; gr_store := store; gr_contexts := ctxs; gr_reject := Some e |}
      | None => handleHookResponses stage rest payload store out ctxs
      end
  end.

(** An arrival: the position of the hook in the group, whether it timed out, and the time it took. *)
Abbreviation arrival := (nat * bool * Z)%type.
Definition prepare_hook (ctx : executionContext V) (payload : P) (store : W) (hw : HookWrapper H) : option (HookWrapper H * ModuleInvocationContext V * (P * W)) :=
  ps ← handleModuleActivities (hw_Code hw) (ec_activityControl ctx) payload store (ec_account ctx);
  Some (hw, getModuleContext ctx (hw_Module hw) (hw_Code hw), ps).
Definition respond (prepared : list (HookWrapper H * ModuleInvocationContext V * (P * W))) (a : arrival) : option hookResponse :=
  let '(i, timedOut, time) := a in
  (λ '(hw, mctx, (p, s)), executeHook mctx hw p s timedOut time) <$> prepared !! i.
Definition executeGroup (ctx : executionContext V) (group : Group H) (payload : P) (store : W) (arrivals : list arrival) : option groupRun :=
  prepared ← mapM (prepare_hook ctx payload store) (g_Hooks group);
  Some (handleHookResponses (ec_stage ctx) (collectHookResponses (omap (respond prepared) arrivals)) payload store
          {| go_Time := 0; go_InvocationResults := [] |} ∅).

Record stageRun := { sr_outcome : StageOutcome; sr_payload : P; sr_store : W; sr_contexts : list (gmap string (option (gmap string V))); sr_reject : option RejectError }.
Definition add_group (g : groupRun) (o : StageOutcome) : StageOutcome :=
  {| so_Time := so_Time o + go_Time (gr_outcome g); so_Entity := so_Entity o; so_Groups := so_Groups o ++ [gr_outcome g]; so_Stage := so_Stage o |}.
(** The groups in order, [n] the index of the next.  A rejection returns the payload that the group
    was given, with the store as it is. *)
Fixpoint execute_groups (ctx : executionContext V) (plan : list (Group H)) (n : nat) (schedule : nat → list arrival) (payload : P) (store : W)
    (out : StageOutcome) (ctxs : list (gmap string (option (gmap string V)))) : option stageRun :=
  match plan with
  | [] => Some {| sr_outcome := out; sr_payload := payload; sr_store := store; sr_contexts := ctxs; sr_reject := None |}
  | group :: rest =>
      g ← executeGroup ctx group payload store (schedule n);
      let out := add_group g out in
      let ctxs := ctxs ++ [gr_contexts g] in
      match gr_reject g with
      | Some e => Some {| sr_outcome := out; sr_payload := payload; sr_store := gr_store g; sr_contexts := ctxs; sr_reject := Some e |}
      | None => execute_groups ctx rest (1 + n) schedule (gr_payload g) (gr_store g) out ctxs
      end
  end.
Definition executeStage (ctx : executionContext V) (plan : list (Group H)) (payload : P) (store : W) (schedule : nat → list arrival) : option stageRun :=
  execute_groups ctx plan 0 schedule payload store {| so_Time := 0; so_Entity := ""; so_Groups := []; so_Stage := "" |} [].
End Execution.

(** ** The executor: executor.go *)
Record hookExecutor {V : Type} := {
  he_account : option HooksAccount; he_endpoint : string; he_outcomes : list StageOutcome;
  he_contexts : gmap string (option (gmap string V)); he_activityControl : ActivityControl
}.
Arguments hookExecutor : clear implicits.
Section Executor.
Context {J : Json} {V : Type} {MR : MapRange}.
Implicit Types e : hookExecutor V.
Definition no_activities : ActivityControl := {| ctl_plans := λ _, None; ctl_IPv6Config := 0; ctl_IPv4Config := 0 |}.
Definition NewHookExecutor (endpoint : string) : hookExecutor V :=
  {| he_account := None; he_endpoint := endpoint; he_outcomes := []; he_contexts := ∅; he_activityControl := no_activities |}.
Definition SetAccount (account : option HooksAccount) e : hookExecutor V :=
  match account with
  | None => e
  | Some _ => {| he_account := account; he_endpoint := he_endpoint e; he_outcomes := he_outcomes e; he_contexts := he_contexts e;
                 he_activityControl := he_activityControl e |}
  end.
Definition SetActivityControl (ctl : ActivityControl) e : hookExecutor V :=
  {| he_account := he_account e; he_endpoint := he_endpoint e; he_outcomes := he_outcomes e; he_contexts := he_contexts e; he_activityControl := ctl |}.
Definition newContext (stage : string) e : executionContext V :=
  {| ec_endpoint := he_endpoint e; ec_stage := stage; ec_accountID := match he_account e with Some a => hx_ID a | None => "" end;
     ec_account := he_account e; ec_contexts := he_contexts e; ec_activityControl := he_activityControl e |}.
Definition finish_stage (entity stage : string) (outcome : StageOutcome) (ctxs : list (gmap string (option (gmap string V)))) e : hookExecutor V :=
  {| he_account := he_account e; he_endpoint := he_endpoint e;
     he_outcomes := he_outcomes e ++ [{| so_Time := so_Time outcome; so_Entity := entity; so_Groups := so_Groups outcome; so_Stage := stage |}];
     he_contexts := saveModuleContexts ctxs (he_contexts e); he_activityControl := he_activityControl e |}.

(** The part that all stages share: nothing without a plan, else the stage and its record. *)
Section RunStage.
Context {H P W : Type} (updater : option (RequestUpdater P W)) (handler : ModuleInvocationContext V → H → P → W → option (@HookResult P W V * option hook_error)).
Definition run_stage (cfg : HooksConfig) (getHookFn : string → option H) (withAccount : bool) (stage entity : string) (payload : P) (store : W)
    (schedule : nat → list (nat * bool * Z)) e : option (hookExecutor V * P * W * option RejectError) :=
  let plan := getMergedPlan getHookFn cfg (if withAccount then he_account e else None) (he_endpoint e) stage in
  match plan with
  | [] => Some (e, payload, store, None)
  | _ => r ← executeStage updater handler (newContext stage e) plan payload store schedule;
         Some (finish_stage entity stage (sr_outcome r) (sr_contexts r) e, sr_payload r, sr_store r, sr_reject r)
  end.
End RunStage.
Section Stages.
Context {H W : Type} (cfg : HooksConfig) (getHookFn : string → option H) (schedule : nat → list (nat * bool * Z)).
(** Bodies are values; requests and responses are pointers into the store. *)
Abbreviation handler_of P := (ModuleInvocationContext V → H → P → W → option (@HookResult P W V * option hook_error)).
Definition ExecuteEntrypointStage {R} (handler : handler_of (R * string)) (req : R) (body : string) (store : W) e :
    option (hookExecutor V * string * W * option RejectError) :=
  o ← run_stage None handler cfg getHookFn false StageEntrypoint "http-request" (req, body) store schedule e;
  let '(e, payload, store, rejectErr) := o in Some (e, payload.2, store, rejectErr).
Definition ExecuteRawAuctionStage (handler : handler_of string) (requestBody : string) (store : W) e : option (hookExecutor V * string * W * option RejectError) :=
  run_stage None handler cfg getHookFn true StageRawAuctionRequest "auction-request" requestBody store schedule e.
(** The request is rebuilt first when there is a plan; [None] of the error is no error. *)
Definition ExecuteProcessedAuctionStage {P} (up : RequestUpdater P W) (handler : handler_of P) (rebuild : P → W → result string W) (payload : P) (store : W) e
    : option (hookExecutor V * W * option (string + RejectError)) :=
  match getMergedPlan getHookFn cfg (he_account e) (he_endpoint e) StageProcessedAuction with
  | [] => Some (e, store, None)
  | _ => match rebuild payload store with
         | Err err => Some (e, store, Some (inl err))
         | Ok store =>
             match run_stage (Some up) handler cfg getHookFn true StageProcessedAuction "auction-request" payload store schedule e with
             | None => None
             | Some (e, _, store, rejectErr) => Some (e, store, option_map inr rejectErr)
             end
         end
  end.
Definition ExecuteBidderRequestStage {P} (up : RequestUpdater P W) (handler : handler_of P) (bidder : string) (payload : P) (store : W) e
    : option (hookExecutor V * W * option RejectError) :=
  o ← run_stage (Some up) handler cfg getHookFn true StageBidderRequest bidder payload store schedule e;
  let '(e, _, store, rejectErr) := o in Some (e, store, rejectErr).
Definition ExecuteRawBidderResponseStage {P} (handler : handler_of P) (bidder : string) (payload : P) (store : W) e : option (hookExecutor V * W * option RejectError) :=
  o ← run_stage None handler cfg getHookFn true StageRawBidderResponse bidder payload store schedule e;
  let '(e, _, store, rejectErr) := o in Some (e, store, rejectErr).
Definition ExecuteAllProcessedBidResponsesStage {P} (handler : handler_of P) (payload : P) (store : W) e : option (hookExecutor V * W) :=
  o ← run_stage None handler cfg getHookFn true StageAllProcessedBidResponses "all_processed_bid_responses" payload store schedule e;
  let '(e, _, store, _) := o in Some (e, store).
Definition ExecuteAuctionResponseStage {P} (handler : handler_of P) (payload : P) (store : W) e : option (hookExecutor V * W) :=
  o ← run_stage None handler cfg getHookFn true StageAuctionResponse "auction_response" payload store schedule e;
  let '(e, _, store, _) := o in Some (e, store).
Definition ExecuteExitpointStage {Q R} (handler : handler_of (Q * R)) (w : Q) (response : R) (store : W) e : option (hookExecutor V * R * W) :=
  o ← run_stage None handler cfg getHookFn true StageExitpoint "exitpoint" (w, response) store schedule e;
  let '(e, payload, store, _) := o in Some (e, payload.2, store).
End Stages.
End Executor.

(** ** What is told of the run: enricher.go *)
Inductive trace := traceNone | traceLevelBasic | traceLevelVerbose.
Definition trace_of (s : string) : trace := if s =s? "basic" then traceLevelBasic else if s =s? "verbose" then traceLevelVerbose else traceNone.
Definition isVerbose (t : trace) : bool := match t with traceLevelVerbose => true | _ => false end.
Definition isBasicOrHigher (t : trace) : bool := match t with traceLevelBasic => true | _ => isVerbose t end.
(** [test], [ext.prebid.debug] and [ext.prebid.trace], a text of another type being an error. *)
Record debugRequest := { dr_Test : Z; dr_trace : result string (option string); dr_debug : result string (option bool) }.
Definition getDebugContext (req : option debugRequest) (account : option HooksAccount) : trace * bool * list string :=
  match req with
  | None => (traceNone, false, [])
  | Some r =>
      let '(t, w1) := match dr_trace r with Ok (Some s) => (trace_of s, []) | Ok None => (traceNone, []) | Err e => (traceNone, [e]) end in
      let '(d, w2) := match dr_debug r with Ok (Some b) => (b, []) | Ok None => (false, []) | Err e => (false, [e]) end in
      let enabled := (dr_Test r =? 1) || d in
      (t, match account with Some a => enabled && hx_DebugAllow a | None => enabled end, w1 ++ w2)
  end.
Abbreviation Messages := (option (gmap string (gmap string (list string)))).
Definition fillMessages (messages : Messages) (values : list string) (id : HookID) : Messages :=
  match values with
  | [] => messages
  | _ =>
      match messages with
      | None => Some {[id_ModuleCode id := {[id_HookImplCode id := values]}]}
      | Some m =>
          match m !! id_ModuleCode id with
          | None => Some (<[id_ModuleCode id := {[id_HookImplCode id := values]}]> m)
          | Some hooks => Some (<[id_ModuleCode id := <[id_HookImplCode id := default [] (hooks !! id_HookImplCode id) ++ values]> hooks]> m)
          end
      end
  end.
Record stageTrace := { st_Time : Z; st_Stage : string; st_Outcomes : list StageOutcome }.
Record ModulesOutcome := { mo_Errors : Messages; mo_Warnings : Messages; mo_Trace : option (Z * list stageTrace) }.
Definition drop_debug (o : HookOutcome) : HookOutcome :=
  {| ho_Time := ho_Time o; ho_AnalyticsTags := ho_AnalyticsTags o; ho_HookID := ho_HookID o; ho_Status := ho_Status o; ho_Action := ho_Action o;
     ho_Message := ho_Message o; ho_DebugMessages := []; ho_Errors := ho_Errors o; ho_Warnings := ho_Warnings o |}.
(** The outcomes with debug messages dropped in place, and the messages collected. *)
Definition fill_hook (isDebugEnabled : bool) (em : Messages * Messages) (o : HookOutcome) : Messages * Messages :=
  if isDebugEnabled then (fillMessages em.1 (ho_Errors o) (ho_HookID o), fillMessages em.2 (ho_Warnings o) (ho_HookID o)) else em.
Definition prepareModulesOutcome (t : trace) (isDebugEnabled : bool) (em : Messages * Messages) (groups : list GroupOutcome) : Messages * Messages * list GroupOutcome :=
  (foldl (fill_hook isDebugEnabled) em (groups ≫= go_InvocationResults),
   (λ g, {| go_Time := go_Time g; go_InvocationResults := if isVerbose t then go_InvocationResults g else drop_debug <$> go_InvocationResults g |}) <$> groups).
(** The stages so far, in the order in which they were first met. *)
Fixpoint add_stage (o : StageOutcome) (l : list stageTrace) : list stageTrace :=
  match l with
  | [] => [{| st_Time := if 0 <? so_Time o then so_Time o else 0; st_Stage := so_Stage o; st_Outcomes := [o] |}]
  | s :: rest =>
      if st_Stage s =s? so_Stage o then
        {| st_Time := if st_Time s <? so_Time o then so_Time o else st_Time s; st_Stage := st_Stage s; st_Outcomes := st_Outcomes s ++ [o] |} :: rest
      else s :: add_stage o rest
  end.
Definition set_groups (g : list GroupOutcome) (o : StageOutcome) : StageOutcome :=
  {| so_Time := so_Time o; so_Entity := so_Entity o; so_Groups := g; so_Stage := so_Stage o |}.
Definition enrich_stage (t : trace) (isDebugEnabled : bool) (acc : Messages * Messages * list stageTrace) (o : StageOutcome) : Messages * Messages * list stageTrace :=
  let '(em, stages) := acc in
  match so_Groups o with
  | [] => acc
  | groups => let '(em, groups) := prepareModulesOutcome t isDebugEnabled em groups in
              (em, if isBasicOrHigher t then add_stage (set_groups groups o) stages else stages)
  end.
Definition getModulesOutcome (outcomes : list StageOutcome) (t : trace) (isDebugEnabled : bool) : option ModulesOutcome :=
  let '(errors, warnings, stages) := foldl (enrich_stage t isDebugEnabled) (None, None, []) outcomes in
  match errors, warnings, stages with
  | None, None, [] => None
  | _, _, _ => Some {| mo_Errors := errors; mo_Warnings := warnings;
                       mo_Trace := match stages with [] => None | _ => Some (foldl (λ acc s, acc + st_Time s) 0 stages, stages) end |}
  end.
(** [GetModulesJSON] up to the encoding. *)
Definition GetModulesJSON (outcomes : list StageOutcome) (req : option debugRequest) (account : option HooksAccount) : option ModulesOutcome * list string :=
  match outcomes with
  | [] => (None, [])
  | _ => let '(t, isDebugEnabled, warnings) := getDebugContext req account in (getModulesOutcome outcomes t isDebugEnabled, warnings)
  end.
