(* ===== verification/HooksSpec.v ===== *)
(** * What a stage of hooks does

    Theorems on [Hooks].  A stage is described by a step relation on its groups: the hooks of a group
    see the payload that the groups before it left, the mutations of those that answered in time are
    replayed in the order of arrival, and a rejection ends the stage.  The executor refines it. *)
From S2P Require Import Prelude GoStrings GoFloat ExtWrapper RequestWrapper Privacy GoNet Scrubber Hooks.

Section Stage.
Context {J : Json} {H P W V : Type}.
Context (updater : option (RequestUpdater P W)) (handler : ModuleInvocationContext V → H → P → W → option (@HookResult P W V * option hook_error)).
Implicit Types (r : @hookResponse P W V) (rs : list (@hookResponse P W V)).

(** ** The specification *)
(** Mutations in order: one that fails leaves the payload, and whatever it did to the store. *)
Fixpoint replay (muts : list (@Mutation P W)) (ps : P * W) : P * W :=
  match muts with
  | [] => ps
  | m :: rest => replay rest (match mut_Apply m ps.1 ps.2 with (Ok p, s) => (p, s) | (Err _, s) => (ps.1, s) end)
  end.
Definition rejects r : bool := hr_Reject (rs_Result r).
Definition effective r : list Mutation := if failed r then [] else hr_ChangeSet (rs_Result r).
(** The answers that are looked at: up to the first that rejects. *)
Definition cut_at_reject (all rs : list (@hookResponse P W V)) : Prop :=
  (Forall (λ r, rejects r = false) all ∧ rs = all) ∨
  (∃ before r rest, all = before ++ r :: rest ∧ Forall (λ r, rejects r = false) before ∧ rejects r = true ∧ rs = before ++ [r]).
(** The answers of a group whose hooks are given the payload and the store. *)
Definition group_answers (ctx : executionContext V) (g : Group H) (p : P) (s : W) (arrivals : list (nat * bool * Z)) rs : Prop :=
  ∃ prepared, Forall2 (λ hw x, prepare_hook updater ctx p s hw = Some x) (g_Hooks g) prepared ∧
    cut_at_reject (omap (respond handler prepared) arrivals) rs.
Definition rejection (ctx : executionContext V) r : RejectError :=
  {| rj_NBR := hr_NbrCode (rs_Result r); rj_Hook := rs_HookID r; rj_Stage := ec_stage ctx |}.

Inductive runs (ctx : executionContext V) (schedule : nat → list (nat * bool * Z)) :
    list (Group H) → nat → P * W → list (list (@hookResponse P W V)) → P * W → option RejectError → Prop :=
| runs_done n ps : runs ctx schedule [] n ps [] ps None
| runs_pass g rest n p s rs log ps' e :
    group_answers ctx g p s (schedule n) rs → Forall (λ r, rejects r = true → IsRejectable (ec_stage ctx) = false) rs →
    runs ctx schedule rest (1 + n) (replay (rs ≫= effective) (p, s)) log ps' e →
    runs ctx schedule (g :: rest) n (p, s) (rs :: log) ps' e
| runs_reject g rest n p s before r :
    group_answers ctx g p s (schedule n) (before ++ [r]) → Forall (λ r, rejects r = false) before → rejects r = true → IsRejectable (ec_stage ctx) = true →
    runs ctx schedule (g :: rest) n (p, s) [before ++ [r]] (p, (replay (before ≫= effective) (p, s)).2) (Some (rejection ctx r)).

(** What an outcome tells of an answer. *)
Definition failed_status (stage : string) r : Status :=
  if rejects r && negb (IsRejectable stage) then StatusExecutionFailure
  else match rs_Err r with
       | None => StatusSuccess
       | Some TimeoutError => StatusTimeout
       | Some (FailureError _) => StatusFailure
       | Some (OtherHookError _) => StatusExecutionFailure
       end.
Definition told (stage : string) r (o : HookOutcome) : Prop :=
  ho_HookID o = rs_HookID r ∧
  if failed r then ho_Status o = failed_status stage r
  else (hr_ChangeSet (rs_Result r) = [] → ho_Status o = StatusSuccess ∧ ho_Action o = Some ActionNone) ∧
       (hr_ChangeSet (rs_Result r) ≠ [] → ho_Action o = Some ActionUpdate) ∧ (ho_Status o = StatusSuccess ∨ ho_Status o = StatusExecutionFailure).

(** ** The executor meets it *)
Lemma collect_cut all : cut_at_reject all (collectHookResponses all).
Proof.
  induction all as [|r all IH]; cbn [collectHookResponses]; [by left|]. destruct (hr_Reject (rs_Result r)) eqn:E.
  - right. by exists [], r, all.
  - destruct IH as [[Hf IH]|(before & r' & rest & -> & Hf & Hr & IH)]; [left|right].
    + split; [by constructor|f_equal; exact IH].
    + exists (r :: before), r', rest. split_and!; [done|by constructor|done|simpl; f_equal; exact IH].
Qed.
Lemma cut_unique all rs : cut_at_reject all rs → rs = collectHookResponses all.
Proof.
  intros [[Hf ->]|(before & r & rest & -> & Hf & Hr & ->)].
  - induction Hf as [|r all E Hf IH]; simpl; [done|]. unfold rejects in E. by rewrite E, <-IH.
  - induction Hf as [|r0 before E Hf IH]; simpl; [unfold rejects in Hr; by rewrite Hr|]. unfold rejects in E. by rewrite E, IH.
Qed.
Lemma apply_mutations_replay muts : ∀ p s o k p' s' o' k', apply_mutations muts p s o k = (p', s', o', k') →
  replay muts (p, s) = (p', s') ∧ ho_HookID o' = ho_HookID o ∧ ho_Status o' = ho_Status o ∧ ho_Action o' = ho_Action o.
Proof.
  induction muts as [|m muts IH]; intros p s o k p' s' o' k' E; simpl in *; [by injection E as <- <- <- <-|].
  destruct (mut_Apply m p s) as [[p1|e] s1]; apply IH in E as (-> & -> & -> & ->); done.
Qed.
Lemma handleHookMutations_replay p s r p' s' o' : failed r = false → handleHookMutations p s r (outcome_of r) = (p', s', o') →
  replay (effective r) (p, s) = (p', s') ∧ ∀ stage, told stage r o'.
Proof.
  intros Hf. unfold handleHookMutations, effective, told. rewrite Hf. destruct (hr_ChangeSet (rs_Result r)) as [|m muts] eqn:Ec.
  - intros [= <- <- <-]. split; [done|]. intros stage. split; [done|]. split; [done|]. split; [done|by left].
  - destruct (apply_mutations (m :: muts) p s _ 0) as [[[p1 s1] o1] k1] eqn:Ea. apply apply_mutations_replay in Ea as (Hr & Hid & Hst & Hac).
    intros [= <- <- <-]. split; [done|]. intros stage. destruct (0 <? k1)%nat; (split; [done|]); (split; [done|]); (split; [done|]); [left|right]; done.
Qed.
Lemma handleHookResponse_spec stage p s r p' s' o e : handleHookResponse stage p s r = (p', s', o, e) →
  replay (effective r) (p, s) = (p', s') ∧ told stage r o ∧
  e = if rejects r && IsRejectable stage then Some {| rj_NBR := hr_NbrCode (rs_Result r); rj_Hook := rs_HookID r; rj_Stage := stage |} else None.
Proof.
  unfold handleHookResponse. destruct (failed r) eqn:Ef.
  - unfold effective, told. rewrite Ef. unfold handleHookReject, failed_status. fold (rejects r).
    destruct (rejects r) eqn:Er, (IsRejectable stage); intros [= <- <- <- <-]; (split; [done|]); (split; [|done]); (split; [by unfold handleHookError; destruct (rs_Err r)|]);
      unfold handleHookError; destruct (rs_Err r) as [[| |]|]; try done.
  - assert (rejects r = false) as -> by (unfold failed in Ef; by destruct (rs_Err r)). destruct (handleHookMutations p s r (outcome_of r)) as [[p1 s1] o1] eqn:Em.
    apply handleHookMutations_replay in Em as [Hr Ht]; [|done]. intros [= <- <- <- <-]. split_and!; [done|apply Ht|done].
Qed.
Lemma replay_app l k ps : replay (l ++ k) ps = replay k (replay l ps).
Proof. revert ps. induction l as [|m l IH]; intros ps; [done|]. simpl. apply IH. Qed.

Definition answered (stage : string) rs (g0 : GroupOutcome) (g : @groupRun P W V) : Prop :=
  ∃ os, go_InvocationResults (gr_outcome g) = go_InvocationResults g0 ++ os ∧ Forall2 (told stage) rs os.
Lemma handle_pass stage rs : Forall (λ r, rejects r = true → IsRejectable stage = false) rs → ∀ p s out ctxs,
  let g := handleHookResponses stage rs p s out ctxs in
  gr_reject g = None ∧ (gr_payload g, gr_store g) = replay (rs ≫= effective) (p, s) ∧ answered stage rs out g.
Proof.
  induction 1 as [|r rs Hr Hrs IH]; intros p s out ctxs.
  - split_and!; [done|done|]. exists []. by rewrite app_nil_r.
  - cbn [handleHookResponses]. destruct (handleHookResponse stage p s r) as [[[p' s'] o] e] eqn:E.
    apply handleHookResponse_spec in E as (Hrep & Ht & ->). assert (rejects r && IsRejectable stage = false) as ->.
    { destruct (rejects r); [|done]. by rewrite Hr. }
    cbv zeta beta iota. match goal with |- context [handleHookResponses stage rs p' s' ?o ?c] => destruct (IH p' s' o c) as (IH1 & IH2 & os & IH3 & IH4) end.
    split_and!; [done| |].
    + rewrite IH2, bind_cons, replay_app, Hrep. done.
    + exists (o :: os). rewrite IH3. simpl. rewrite <-app_assoc. split; [done|by constructor].
Qed.
Lemma handle_reject stage before r : Forall (λ r, rejects r = false) before → rejects r = true → IsRejectable stage = true → ∀ p s out ctxs,
  let g := handleHookResponses stage (before ++ [r]) p s out ctxs in
  gr_reject g = Some {| rj_NBR := hr_NbrCode (rs_Result r); rj_Hook := rs_HookID r; rj_Stage := stage |} ∧
  gr_store g = (replay (before ≫= effective) (p, s)).2 ∧ answered stage (before ++ [r]) out g.
Proof.
  intros Hb Hr Hst. induction Hb as [|r0 before E0 Hb IH]; intros p s out ctxs; cbn [app handleHookResponses].
  - destruct (handleHookResponse stage p s r) as [[[p' s'] o] e] eqn:E. apply handleHookResponse_spec in E as (Hrep & Ht & ->). rewrite Hr, Hst. cbn [andb]. cbv zeta beta iota.
    split_and!; [done| |exists [o]; split; [done|by constructor]]. simpl. unfold effective in Hrep.
    assert (failed r = true) as Hf by (unfold failed; destruct (rs_Err r); done). rewrite Hf in Hrep. simpl in Hrep. by injection Hrep as <- <-.
  - destruct (handleHookResponse stage p s r0) as [[[p' s'] o] e] eqn:E. apply handleHookResponse_spec in E as (Hrep & Ht & ->). rewrite E0. cbn [andb]. cbv zeta beta iota.
    match goal with |- context [handleHookResponses stage _ p' s' ?o ?c] => destruct (IH p' s' o c) as (IH1 & IH2 & os & IH3 & IH4) end.
    split_and!; [done| |].
    + rewrite IH2, bind_cons, replay_app, Hrep. done.
    + exists (o :: os). rewrite IH3. simpl. rewrite <-app_assoc. split; [done|by constructor].
Qed.

Definition groups_told (stage : string) (log : list (list (@hookResponse P W V))) (gs : list GroupOutcome) : Prop :=
  Forall2 (λ rs g, Forall2 (told stage) rs (go_InvocationResults g)) log gs.
Lemma group_cases ctx g p s arrivals run : executeGroup updater handler ctx g p s arrivals = Some run →
  ∃ rs, group_answers ctx g p s arrivals rs ∧ Forall2 (told (ec_stage ctx)) rs (go_InvocationResults (gr_outcome run)) ∧
    ((Forall (λ r, rejects r = true → IsRejectable (ec_stage ctx) = false) rs ∧ gr_reject run = None ∧
      (gr_payload run, gr_store run) = replay (rs ≫= effective) (p, s)) ∨
     (∃ before r, rs = before ++ [r] ∧ Forall (λ r, rejects r = false) before ∧ rejects r = true ∧ IsRejectable (ec_stage ctx) = true ∧
      gr_reject run = Some (rejection ctx r) ∧ gr_store run = (replay (before ≫= effective) (p, s)).2)).
Proof.
  unfold executeGroup. intros (prepared & Hp & Hr)%bind_Some. injection Hr as <-. apply mapM_Some in Hp.
  set (all := omap (respond handler prepared) arrivals). pose proof (collect_cut all) as Hc. exists (collectHookResponses all).
  split; [by exists prepared|]. destruct (IsRejectable (ec_stage ctx)) eqn:Es.
  - destruct Hc as [[Hf ->]|(before & r & rest & _ & Hf & Hr & ->)].
    + destruct (handle_pass (ec_stage ctx) all) with p s {| go_Time := 0; go_InvocationResults := [] |} (∅ : gmap string (option (gmap string V))) as (H1 & H2 & os & H3 & H4).
      { eapply Forall_impl; [exact Hf|]. cbv beta. congruence. }
      split; [rewrite H3; exact H4|]. left. split; [|done]. eapply Forall_impl; [exact Hf|]. cbv beta. congruence.
    + destruct (handle_reject (ec_stage ctx) before r Hf Hr Es p s {| go_Time := 0; go_InvocationResults := [] |} ∅) as (H1 & H2 & os & H3 & H4).
      split; [rewrite H3; exact H4|]. right. by exists before, r.
  - destruct (handle_pass (ec_stage ctx) (collectHookResponses all)) with p s {| go_Time := 0; go_InvocationResults := [] |} (∅ : gmap string (option (gmap string V))) as (H1 & H2 & os & H3 & H4).
    { apply Forall_forall. done. }
    split; [rewrite H3; exact H4|]. left. split; [apply Forall_forall; done|done].
Qed.
Lemma execute_groups_runs ctx schedule plan : ∀ n p s out ctxs run,
  execute_groups updater handler ctx plan n schedule p s out ctxs = Some run →
  ∃ log gs, runs ctx schedule plan n (p, s) log (sr_payload run, sr_store run) (sr_reject run) ∧
    so_Groups (sr_outcome run) = so_Groups out ++ gs ∧ groups_told (ec_stage ctx) log gs.
Proof.
  induction plan as [|g plan IH]; intros n p s out ctxs run Hr; cbn [execute_groups] in Hr.
  - injection Hr as <-. exists [], []. simpl. rewrite app_nil_r. split_and!; [constructor|done|constructor].
  - apply bind_Some in Hr as (gr & Hg & Hr). apply group_cases in Hg as (rs & Ha & Ht & [(Hf & Hn & Hrep)|(before & r & -> & Hb & Hrj & Hst & He & Hs)]).
    + rewrite Hn in Hr. apply IH in Hr as (log & gs & Hruns & Hgs & Htold). exists (rs :: log), (gr_outcome gr :: gs). split_and!.
      * apply runs_pass; [done|done|]. by rewrite <-Hrep.
      * rewrite Hgs. simpl. by rewrite <-app_assoc.
      * by constructor.
    + rewrite He in Hr. injection Hr as <-. simpl. exists [before ++ [r]], [gr_outcome gr]. split_and!; [|done|by repeat constructor].
      rewrite Hs. by apply runs_reject.
Qed.
Lemma runs_execute_groups ctx schedule plan n ps log ps' e : runs ctx schedule plan n ps log ps' e → ∀ out ctxs,
  ∃ run, execute_groups updater handler ctx plan n schedule ps.1 ps.2 out ctxs = Some run ∧ (sr_payload run, sr_store run) = ps' ∧ sr_reject run = e.
Proof.
  induction 1 as [n [p s]|g rest n p s rs log ps' e (prepared & Hp & Hc) Hf _ IH|g rest n p s before r (prepared & Hp & Hc) Hb Hr Hst]; intros out ctxs; cbn [execute_groups fst snd].
  - by eexists.
  - unfold executeGroup. rewrite (proj2 (mapM_Some _ _ _) Hp). cbn [mbind option_bind fst snd]. apply cut_unique in Hc. rewrite <-Hc.
    destruct (handle_pass (ec_stage ctx) rs Hf p s {| go_Time := 0; go_InvocationResults := [] |} ∅) as (H1 & H2 & _).
    rewrite H1. rewrite <-H2 in IH. apply IH.
  - unfold executeGroup. rewrite (proj2 (mapM_Some _ _ _) Hp). cbn [mbind option_bind fst snd]. apply cut_unique in Hc. rewrite <-Hc.
    destruct (handle_reject (ec_stage ctx) before r Hb Hr Hst p s {| go_Time := 0; go_InvocationResults := [] |} ∅) as (H1 & H2 & _).
    rewrite H1. eexists. split; [done|]. simpl. by rewrite H2.
Qed.

(** C18: Executing a stage follows the step relation of its plan, and every run of the
    relation is what the executor does: groups run in order; the hooks of a group are all given the
    payload that the groups before it left; answers are looked at in the order of arrival up to the
    first rejection; the payload is changed by exactly the mutations of hooks that answered in time
    without an error; a rejection ends the stage where rejection is allowed and returns the payload
    that the group was given; and there is one outcome per answer looked at, with its status. *)
Theorem stage_refines_plan ctx plan p s schedule :
  (∀ run, executeStage updater handler ctx plan p s schedule = Some run →
    ∃ log, runs ctx schedule plan 0 (p, s) log (sr_payload run, sr_store run) (sr_reject run) ∧ groups_told (ec_stage ctx) log (so_Groups (sr_outcome run))) ∧
  (∀ log ps' e, runs ctx schedule plan 0 (p, s) log ps' e →
    ∃ run, executeStage updater handler ctx plan p s schedule = Some run ∧ (sr_payload run, sr_store run) = ps' ∧ sr_reject run = e).
Proof.
  split.
  - intros run (log & gs & Hr & Hgs & Ht)%execute_groups_runs. exists log. split; [done|]. simpl in Hgs. by rewrite Hgs.
  - intros log ps' e Hr. apply (runs_execute_groups _ _ _ _ _ _ _ _ Hr).
Qed.

(** ** Consequences, by induction on the relation *)
Definition hook_id (hw : HookWrapper H) : HookID := {| id_ModuleCode := hw_Module hw; id_HookImplCode := hw_Code hw |}.
Lemma respond_id prepared i t time r : respond handler prepared (i, t, time) = Some r → ∃ x, prepared !! i = Some x ∧ rs_HookID r = hook_id x.1.1.
Proof.
  simpl. intros ([[hw m] [p s]] & Hx & ->)%fmap_Some. exists (hw, m, (p, s)). split; [done|]. unfold executeHook. simpl. destruct (if t then None else _) as [[res err]|]; done.
Qed.
Lemma prepared_ids (ctx : executionContext V) p s (hs : list (HookWrapper H)) prepared : Forall2 (λ hw x, prepare_hook updater ctx p s hw = Some x) hs prepared → (λ x, x.1.1) <$> prepared = hs.
Proof.
  induction 1 as [|hw x hs prepared Hx Hf IH]; [done|]. rewrite fmap_cons. f_equal; [|exact IH]. unfold prepare_hook in Hx. apply bind_Some in Hx as (ps & _ & Hx). by injection Hx as <-.
Qed.
(** The positions of the hooks of a group, in the order in which they arrive. *)
Definition all_arrive (g : Group H) (arrivals : list (nat * bool * Z)) : Prop := (λ a : nat * bool * Z, a.1.1) <$> arrivals ≡ₚ seq 0 (length (g_Hooks g)).
Lemma responses_ids (prepared : list (HookWrapper H * ModuleInvocationContext V * (P * W))) (arrivals : list (nat * bool * Z)) :
  Forall (λ a : nat * bool * Z, (a.1.1 < length prepared)%nat) arrivals →
  rs_HookID <$> omap (respond handler prepared) arrivals = omap (λ i, (λ x, hook_id x.1.1) <$> prepared !! i) ((λ a : nat * bool * Z, a.1.1) <$> arrivals).
Proof.
  induction 1 as [|[[i t] time] arrivals Hi Hf IH]; [done|]. cbn [fst snd] in *. destruct (lookup_lt_is_Some_2 _ _ Hi) as [x Hx].
  rewrite fmap_cons. cbn [omap list_omap fst snd]. destruct (respond handler prepared (i, t, time)) as [r|] eqn:Er.
  - apply respond_id in Er as (x' & Hx' & Hid). rewrite Hx'. simpl. rewrite Hid. f_equal. exact IH.
  - exfalso. unfold respond in Er. rewrite Hx in Er. by destruct x as [[? ?] [? ?]].
Qed.
Lemma omap_lookup_seq {A B} (f : A → B) (l : list A) : omap (λ i, f <$> l !! i) (seq 0 (length l)) = f <$> l.
Proof.
  induction l as [|x l IH]; [done|]. assert (∀ k : list nat, omap (λ i, f <$> (x :: l) !! i) (S <$> k) = omap (λ i, f <$> l !! i) k) as Hs.
  { induction k as [|i k IHk]; [done|]. rewrite fmap_cons. change (match f <$> l !! i with Some y => y :: omap (λ i, f <$> (x :: l) !! i) (S <$> k) | None => omap (λ i, f <$> (x :: l) !! i) (S <$> k) end =
      match f <$> l !! i with Some y => y :: omap (λ i, f <$> l !! i) k | None => omap (λ i, f <$> l !! i) k end). by rewrite IHk. }
  transitivity (f x :: omap (λ i, f <$> (x :: l) !! i) (seq 1 (length l))); [reflexivity|]. rewrite fmap_cons. f_equal. rewrite <-fmap_S_seq, Hs. exact IH.
Qed.
(** The answers of a group in which every hook arrives are one of every hook. *)
Lemma answers_of_all ctx (g : Group H) p s prepared arrivals :
  Forall2 (λ hw x, prepare_hook updater ctx p s hw = Some x) (g_Hooks g) prepared → all_arrive g arrivals →
  rs_HookID <$> omap (respond handler prepared) arrivals ≡ₚ hook_id <$> g_Hooks g.
Proof.
  intros Hp Ha. pose proof (prepared_ids _ _ _ _ _ Hp) as Hids. pose proof (Forall2_length _ _ _ Hp) as Hlen. unfold all_arrive in Ha. rewrite Hlen in Ha.
  rewrite responses_ids.
  - rewrite Ha, omap_lookup_seq, <-Hids, <-list_fmap_compose. done.
  - apply Forall_fmap with (P := λ i, (i < length prepared)%nat) (f := λ a : nat * bool * Z, a.1.1). rewrite Ha. apply Forall_seq. lia.
Qed.

(** A group that is executed: what its hooks are given, and all their answers in the order of arrival. *)
Record turn := { tn_group : Group H; tn_given : P * W; tn_answers : list (@hookResponse P W V) }.
Definition no_rejection (t : turn) : Prop := Forall (λ r, rejects r = false) (tn_answers t).
(** The answers up to the first that rejects, this one included. *)
Fixpoint up_to_reject (all : list (@hookResponse P W V)) : list (@hookResponse P W V) :=
  match all with
  | [] => []
  | r :: rest => if rejects r then [r] else r :: up_to_reject rest
  end.
(** The groups are executed in order from the [n]th on; the first is given [ps], the next what the
    mutations of the answers looked at make of it. *)
Fixpoint turns_from (ctx : executionContext V) (schedule : nat → list (nat * bool * Z)) (n : nat) (ps : P * W) (plan : list (Group H)) (ts : list turn) : Prop :=
  match plan, ts with
  | _, [] => True
  | [], _ :: _ => False
  | g :: plan, t :: ts =>
      tn_group t = g ∧ tn_given t = ps ∧
      (∃ prepared, Forall2 (λ hw x, prepare_hook updater ctx ps.1 ps.2 hw = Some x) (g_Hooks g) prepared ∧
        tn_answers t = omap (respond handler prepared) (schedule n)) ∧
      turns_from ctx schedule (1 + n) (replay (up_to_reject (tn_answers t) ≫= effective) ps) plan ts
  end.
(** How a stage ends: after all groups, none of whose answers rejects where that is allowed, or with
    the first answer that does. *)
Definition ends (ctx : executionContext V) (plan : list (Group H)) (ts : list turn) (e : option RejectError) : Prop :=
  match e with
  | None => length ts = length plan ∧ (IsRejectable (ec_stage ctx) = true → Forall no_rejection ts)
  | Some err => IsRejectable (ec_stage ctx) = true ∧
      ∃ ts0 t before r rest, ts = ts0 ++ [t] ∧ Forall no_rejection ts0 ∧ tn_answers t = before ++ r :: rest ∧
        Forall (λ r, rejects r = false) before ∧ rejects r = true ∧ err = rejection ctx r
  end.

Lemma up_to_reject_cut all rs : cut_at_reject all rs → rs = up_to_reject all.
Proof.
  intros [[Hf ->]|(before & r & rest & -> & Hf & Hr & ->)].
  - induction Hf as [|r all E Hf IH]; simpl; [done|]. by rewrite E, <-IH.
  - induction Hf as [|r0 before E Hf IH]; simpl; [by rewrite Hr|]. by rewrite E, <-IH.
Qed.
Lemma up_to_reject_all all : Forall (λ r, rejects r = false) all → up_to_reject all = all.
Proof. intros Hf. symmetry. apply up_to_reject_cut. by left. Qed.
Lemma up_to_reject_none all : Forall (λ r, rejects r = false) (up_to_reject all) → Forall (λ r, rejects r = false) all.
Proof.
  induction all as [|r all IH]; simpl; [done|]. destruct (rejects r) eqn:E; intros Hf; inversion_clear Hf; [congruence|].
  constructor; [done|by apply IH].
Qed.
Lemma runs_turns ctx schedule plan n ps log ps' e : runs ctx schedule plan n ps log ps' e →
  (∀ i g, plan !! i = Some g → all_arrive g (schedule (n + i)%nat)) →
  ∃ ts, turns_from ctx schedule n ps plan ts ∧ log = (λ t, up_to_reject (tn_answers t)) <$> ts ∧
    Forall (λ t, rs_HookID <$> tn_answers t ≡ₚ hook_id <$> g_Hooks (tn_group t)) ts ∧ ends ctx plan ts e.
Proof.
  induction 1 as [n ps|g rest n p s rs log ps' e (prepared & Hp & Hc) Hf _ IH|g rest n p s before r (prepared & Hp & Hc) Hb Hr Hst]; intros Ha.
  - exists []. split_and!; [done..|]. split; [done|]. by constructor.
  - destruct IH as (ts & Ht & -> & Hids & He).
    { intros i g' Hi. specialize (Ha (S i) g' Hi). by replace (1 + n + i)%nat with (n + S i)%nat by lia. }
    set (all := omap (respond handler prepared) (schedule n)) in *. apply up_to_reject_cut in Hc as ->.
    exists ({| tn_group := g; tn_given := (p, s); tn_answers := all |} :: ts).
    assert (rs_HookID <$> all ≡ₚ hook_id <$> g_Hooks g) as Hall.
    { eapply answers_of_all; [exact Hp|]. specialize (Ha 0%nat g eq_refl). by rewrite Nat.add_0_r in Ha. }
    split_and!; [simpl; split_and!; [done..|by exists prepared|done]|done|by constructor|].
    assert (IsRejectable (ec_stage ctx) = true → no_rejection {| tn_group := g; tn_given := (p, s); tn_answers := all |}) as Hn.
    { intros Hst. apply up_to_reject_none. eapply Forall_impl; [exact Hf|]. intros r0 Hr0. destruct (rejects r0) eqn:E; [|done].
      cbv beta in Hr0. rewrite (Hr0 E) in Hst. done. }
    destruct e as [err|]; simpl in He |- *.
    + destruct He as (Hst & ts0 & t & before & r & rest' & -> & H0 & Hr). split; [done|].
      eexists (_ :: ts0), t, before, r, rest'. split; [done|]. split; [constructor; auto|done].
    + destruct He as [Hlen Hno]. split; [by rewrite Hlen|]. intros Hst. constructor; auto.
  - set (all := omap (respond handler prepared) (schedule n)) in *. pose proof (up_to_reject_cut _ _ Hc) as Hcut.
    exists [{| tn_group := g; tn_given := (p, s); tn_answers := all |}].
    assert (rs_HookID <$> all ≡ₚ hook_id <$> g_Hooks g) as Hall.
    { eapply answers_of_all; [exact Hp|]. specialize (Ha 0%nat g eq_refl). by rewrite Nat.add_0_r in Ha. }
    split_and!; [simpl; split_and!; [done..|by exists prepared|by destruct rest]|by rewrite Hcut|by constructor|].
    split; [done|]. destruct Hc as [[Hno Heq]|(before' & r' & rest' & Heq & Hb' & Hr' & Hsame)].
    + exfalso. rewrite <-Heq in Hno. apply Forall_app in Hno as [_ Hno]. inversion_clear Hno. congruence.
    + apply app_inj_tail in Hsame as [<- <-]. by eexists [], _, before, r, rest'.
Qed.
Lemma told_ids stage rs os : Forall2 (told stage) rs os → ho_HookID <$> os = rs_HookID <$> rs.
Proof. induction 1 as [|r o rs os [Hid _] _ IH]; [done|]. rewrite !fmap_cons. by rewrite Hid, IH. Qed.

(** C19: When every hook of the plan answers or times out, the answers of the groups that are executed,
    in the order of arrival, are one of every hook of the group; the outcomes reported for a group
    are those of the answers up to the first rejection, so a group without one has exactly one outcome
    per hook.  At a stage that can be rejected the stage ends in the first group with an answer that rejects,
    with an error that names the hook of the first such answer and its code; it runs all groups and reports no
    rejection exactly when no answer rejects.  At any other stage all groups are executed. *)
Theorem every_hook_reported ctx plan p s schedule run :
  executeStage updater handler ctx plan p s schedule = Some run → (∀ n g, plan !! n = Some g → all_arrive g (schedule n)) →
  ∃ ts, turns_from ctx schedule 0 (p, s) plan ts ∧
    Forall (λ t, rs_HookID <$> tn_answers t ≡ₚ hook_id <$> g_Hooks (tn_group t)) ts ∧
    Forall2 (λ t g, Forall2 (told (ec_stage ctx)) (up_to_reject (tn_answers t)) (go_InvocationResults g) ∧
                    (no_rejection t → ho_HookID <$> go_InvocationResults g ≡ₚ hook_id <$> g_Hooks (tn_group t)))
      ts (so_Groups (sr_outcome run)) ∧
    ends ctx plan ts (sr_reject run).
Proof.
  intros (log & gs & Hr & Hgs & Ht)%execute_groups_runs Ha. simpl in Hgs. rewrite Hgs.
  destruct (runs_turns _ _ _ _ _ _ _ _ Hr Ha) as (ts & Hts & -> & Hids & He). exists ts. split_and!; [done..| |done].
  unfold groups_told in Ht. rewrite Forall2_fmap_l in Ht. clear -Ht Hids.
  induction Ht as [|t g ts gs Htold _ IH]; [constructor|]. inversion_clear Hids as [|? ? Hid Hrest]. constructor; [|by apply IH].
  split; [done|]. intros Hno. rewrite (told_ids _ _ _ Htold), up_to_reject_all by done. exact Hid.
Qed.
End Stage.

(** ** What a hook is given *)
Section View.
Context {J : Json} {H P W V : Type} (up : RequestUpdater P W).
(** The payload of a copy points to that copy. *)
Hypothesis up_get_copy : ∀ rw p s, up_get up (up_copy up rw p s).1 (up_copy up rw p s).2 = rw.
Definition denied (ctx : executionContext V) (a : Activity) (hw : HookWrapper H) : Prop := Allow (ec_activityControl ctx) a (hook_scope (hw_Code hw)) no_request = false.
(** Ids of the device and data of the user are gone. *)
Definition no_device_ids (rw : RequestWrapper) : Prop :=
  ∀ d, br_Device (rw_BidRequest rw) = Some d →
    dv_IFA d = "" ∧ dv_DIDMD5 d = "" ∧ dv_DIDSHA1 d = "" ∧ dv_DPIDMD5 d = "" ∧ dv_DPIDSHA1 d = "" ∧ dv_MACMD5 d = "" ∧ dv_MACSHA1 d = "".
Definition no_user_data (rw : RequestWrapper) : Prop :=
  ∀ u, br_User (rw_BidRequest rw) = Some u →
    us_ID u = "" ∧ us_BuyerUID u = "" ∧ us_Yob u = 0 ∧ us_Gender u = "" ∧ us_Keywords u = "" ∧ us_KwArray u = None ∧ us_Data u = None ∧ us_EIDs u = None.
(** Coordinates have two decimals and addresses are masked. *)
Definition coarse_location (ipConf : IPConf) (from rw : RequestWrapper) : Prop :=
  (∀ d, br_Device (rw_BidRequest rw) = Some d → ∃ d0, br_Device (rw_BidRequest from) = Some d0 ∧ dv_Geo d = scrubGeoPrecision <$> dv_Geo d0 ∧
     dv_IP d = scrubIP (dv_IP d0) (IPV4_AnonKeepBits ipConf) IPv4BitSize ∧ dv_IPv6 d = scrubIP (dv_IPv6 d0) (IPV6_AnonKeepBits ipConf) IPv6BitSize) ∧
  (∀ u, br_User (rw_BidRequest rw) = Some u → ∃ u0, br_User (rw_BidRequest from) = Some u0 ∧ us_Geo u = scrubGeoPrecision <$> us_Geo u0).

Lemma scrubUserExt_ignored_request rw name : rw_BidRequest (scrubUserExt_ignored rw name) = rw_BidRequest rw.
Proof.
  unfold scrubUserExt_ignored, scrubUserExt. destruct (br_User (rw_BidRequest rw)); [|done]. unfold GetUserExt.
  destruct (rw_userExt rw); cbn [rbind].
  - by destruct (_ !! name).
  - destruct (UserExt_unmarshal _) as [x|]; cbn [rbind]; [|done]. by destruct (_ !! name).
Qed.
(** The device and the user after each scrubbing. *)
Definition fpd_device (d : Device) : Device :=
  set_dv_MACSHA1 "" (set_dv_MACMD5 "" (set_dv_IFA "" (set_dv_DPIDSHA1 "" (set_dv_DPIDMD5 "" (set_dv_DIDSHA1 "" (set_dv_DIDMD5 "" d)))))).
Definition fpd_user (u : User) : User :=
  set_us_EIDs None (set_us_KwArray None (set_us_Keywords "" (set_us_Gender "" (set_us_Yob 0 (set_us_BuyerUID "" (set_us_ID "" (set_us_Data None u))))))).
Lemma ScrubUserFPD_request rw rw' : ScrubUserFPD rw = Some rw' →
  br_Device (rw_BidRequest rw') = fpd_device <$> br_Device (rw_BidRequest rw) ∧ br_User (rw_BidRequest rw') = fpd_user <$> br_User (rw_BidRequest rw).
Proof.
  unfold ScrubUserFPD. set (rw1 := scrubUserIDs (scrubDeviceIDs rw)). pose proof (scrubUserExt_ignored_request rw1 "data") as Hx.
  destruct (br_User (rw_BidRequest (scrubUserExt_ignored rw1 "data"))) as [u|] eqn:Eu; [|done]. intros [= <-].
  unfold on_User at 1 2. cbn [rw_BidRequest set_rw_BidRequest]. rewrite Hx in *. split; [by destruct (br_Device (rw_BidRequest rw)) eqn:E; subst rw1; simpl; rewrite ?E|].
  cbn. subst rw1. cbn. by destruct (br_User (rw_BidRequest rw)).
Qed.
Lemma ScrubGeo_spec rw ipConf :
  br_Device (rw_BidRequest (ScrubGeoAndDeviceIP rw ipConf)) =
    (λ d, set_dv_Geo (scrubGeoPrecision <$> dv_Geo d) (set_dv_IPv6 (scrubIP (dv_IPv6 d) (IPV6_AnonKeepBits ipConf) IPv6BitSize)
            (set_dv_IP (scrubIP (dv_IP d) (IPV4_AnonKeepBits ipConf) IPv4BitSize) d))) <$> br_Device (rw_BidRequest rw) ∧
  br_User (rw_BidRequest (ScrubGeoAndDeviceIP rw ipConf)) = (λ u, set_us_Geo (scrubGeoPrecision <$> us_Geo u) u) <$> br_User (rw_BidRequest rw).
Proof. unfold ScrubGeoAndDeviceIP, scrubGEO, scrubDeviceIP, on_Device, on_User. cbn. split; [by destruct (br_Device (rw_BidRequest rw))|by destruct (br_User (rw_BidRequest rw))]. Qed.
Lemma no_ids_geo rw ipConf : no_device_ids rw → no_device_ids (ScrubGeoAndDeviceIP rw ipConf).
Proof. intros Hn d. rewrite (proj1 (ScrubGeo_spec rw ipConf)). intros (d0 & Hd0 & ->)%fmap_Some. by apply (Hn d0). Qed.
Lemma no_data_geo rw ipConf : no_user_data rw → no_user_data (ScrubGeoAndDeviceIP rw ipConf).
Proof. intros Hn u. rewrite (proj2 (ScrubGeo_spec rw ipConf)). intros (u0 & Hu0 & ->)%fmap_Some. by apply (Hn u0). Qed.

(** The extension of the user stays in the copy as it was sent, with [user.ext.data]: the scrubbing
    changes the decoded extension only, and the request is not rebuilt. *)
Lemma hook_sees_raw_user_ext (ctx : executionContext V) (hw : HookWrapper H) p s mctx p' s' :
  prepare_hook (Some up) ctx p s hw = Some (hw, mctx, (p', s')) →
  (br_User (rw_BidRequest (up_get up p' s')) ≫= us_Ext) = (br_User (rw_BidRequest (up_get up p s)) ≫= us_Ext).
Proof.
  unfold prepare_hook, handleModuleActivities. intros (ps & Hps & [= <- ->])%bind_Some. destruct (_ && _).
  { by injection Hps as <- <-. }
  apply bind_Some in Hps as (c1 & Hc1 & [= Hps]).
  assert ((br_User (rw_BidRequest c1) ≫= us_Ext) = (br_User (rw_BidRequest (up_get up p s)) ≫= us_Ext)) as <-.
  { destruct (Allow _ ActivityTransmitUserFPD _ _); simpl in Hc1; [by injection Hc1 as <-|]. apply ScrubUserFPD_request in Hc1 as [_ ->].
    change (rw_BidRequest (CloneBidRequestPartial (up_get up p s))) with (rw_BidRequest (up_get up p s)). by destruct (br_User (rw_BidRequest (up_get up p s))). }
  match type of Hps with up_copy up ?x p s = _ => assert (up_get up p' s' = x) as -> by (rewrite <-(up_get_copy x p s), Hps; done) end.
  destruct (Allow _ ActivityTransmitPreciseGeo _ _); cbn [negb]; [reflexivity|]. rewrite (proj2 (ScrubGeo_spec c1 _)). by destruct (br_User (rw_BidRequest c1)).
Qed.
(** C20: A hook whose activity controls forbid it user data is given a request without
    device ids and without the user's ids, year of birth, gender, keywords, data and external ids; one that is forbidden
    precise locations is given coordinates of two decimals and masked addresses, at the account's or
    the default width; a hook that is forbidden nothing is given the payload itself.  The raw text of
    [user.ext] is in every case the one of the payload, so what it holds, [user.ext.data] included, is given to
    every hook. *)
Theorem hook_sees_permitted_request (ctx : executionContext V) (hw : HookWrapper H) p s mctx p' s' :
  prepare_hook (Some up) ctx p s hw = Some (hw, mctx, (p', s')) →
  (denied ctx ActivityTransmitUserFPD hw → no_device_ids (up_get up p' s') ∧ no_user_data (up_get up p' s')) ∧
  (denied ctx ActivityTransmitPreciseGeo hw → coarse_location (hook_IPConf (ec_account ctx)) (up_get up p s) (up_get up p' s')) ∧
  (¬ denied ctx ActivityTransmitUserFPD hw → ¬ denied ctx ActivityTransmitPreciseGeo hw → p' = p ∧ s' = s) ∧
  (br_User (rw_BidRequest (up_get up p' s')) ≫= us_Ext) = (br_User (rw_BidRequest (up_get up p s)) ≫= us_Ext).
Proof.
  intros Hprep. pose proof (hook_sees_raw_user_ext _ _ _ _ _ _ _ Hprep) as Hraw. revert Hprep.
  unfold prepare_hook, handleModuleActivities, denied. set (fpd := Allow _ ActivityTransmitUserFPD _ _). set (geo := Allow _ ActivityTransmitPreciseGeo _ _).
  set (copy := CloneBidRequestPartial (up_get up p s)). clearbody fpd geo. intros (ps & Hps & [= <- ->])%bind_Some. destruct (fpd && geo) eqn:Eb.
  - injection Hps as <- <-. apply andb_prop in Eb as [-> ->]. split_and!; [done..|exact Hraw].
  - apply bind_Some in Hps as (c1 & Hc1 & [= Hps]).
    assert (up_get up p' s' = if negb geo then ScrubGeoAndDeviceIP c1 (hook_IPConf (ec_account ctx)) else c1) as Hv.
    { rewrite <-(up_get_copy (if negb geo then ScrubGeoAndDeviceIP c1 (hook_IPConf (ec_account ctx)) else c1) p s), Hps. done. }
    rewrite Hv. split_and!.
    + intros Hf. rewrite Hf in Hc1. simpl in Hc1. apply ScrubUserFPD_request in Hc1 as [Hd Hu].
      assert (no_device_ids c1) by (intros d; rewrite Hd; by intros (? & _ & ->)%fmap_Some).
      assert (no_user_data c1) by (intros u; rewrite Hu; by intros (? & _ & ->)%fmap_Some).
      destruct geo; simpl; [done|]. split; [by apply no_ids_geo|by apply no_data_geo].
    + intros Hg. rewrite Hg. cbn [negb].
      assert (∃ fd fu, br_Device (rw_BidRequest c1) = fd <$> br_Device (rw_BidRequest copy) ∧ br_User (rw_BidRequest c1) = fu <$> br_User (rw_BidRequest copy) ∧
        (∀ d : Device, dv_Geo (fd d) = dv_Geo d ∧ dv_IP (fd d) = dv_IP d ∧ dv_IPv6 (fd d) = dv_IPv6 d) ∧ (∀ u : User, us_Geo (fu u) = us_Geo u)) as (fd & fu & Hd & Hu & Hfd & Hfu).
      { destruct fpd; simpl in Hc1.
        - injection Hc1 as <-. exists id, id. by rewrite !option_fmap_id.
        - apply ScrubUserFPD_request in Hc1 as [Hd Hu]. by exists fpd_device, fpd_user. }
      destruct (ScrubGeo_spec c1 (hook_IPConf (ec_account ctx))) as [Gd Gu]. split.
      * intros d. rewrite Gd, Hd. intros (d1 & (d0 & Hd0 & ->)%fmap_Some & ->)%fmap_Some. exists d0. destruct (Hfd d0) as (E1 & E2 & E3). cbn. by rewrite E1, E2, E3.
      * intros u. rewrite Gu, Hu. intros (u1 & (u0 & Hu0 & ->)%fmap_Some & ->)%fmap_Some. exists u0. cbn. by rewrite Hfu.
    + intros Hf Hg. exfalso. destruct fpd, geo; [done|by apply Hg|by apply Hf|by apply Hf].
    + by rewrite <-Hv.
Qed.
End View.

(** ** Witnesses and examples *)
(** Two hooks that append to a text; the first rejects when it is told to. *)
Definition append_hook (text : string) : @HookResult string unit string := {|
  hr_Reject := false; hr_NbrCode := 0; hr_Message := ""; hr_ChangeSet := [{| mut_Type := MutationUpdate; mut_Key := ["body"]; mut_Apply := λ p s, (Ok (p +:+ text), s) |}];
  hr_Errors := []; hr_Warnings := []; hr_DebugMessages := []; hr_AnalyticsTags := ""; hr_ModuleContext := Some {["seen" := text]} |}.
Definition reject_hook (code : Z) : @HookResult string unit string := {|
  hr_Reject := true; hr_NbrCode := code; hr_Message := ""; hr_ChangeSet := []; hr_Errors := []; hr_Warnings := []; hr_DebugMessages := [];
  hr_AnalyticsTags := ""; hr_ModuleContext := None |}.
Inductive demo_hook := Appends (text : string) | Rejects (code : Z) | Hangs.
Definition demo_handler (_ : ModuleInvocationContext string) (h : demo_hook) (p : string) (_ : unit) : option (@HookResult string unit string * option hook_error) :=
  match h with Appends t => Some (append_hook t, None) | Rejects c => Some (reject_hook c, None) | Hangs => None end.
Definition demo_group_of (hs : list demo_hook) : Group demo_hook :=
  {| g_Timeout := 5000000; g_Hooks := (λ h, {| hw_Module := "vendor.module"; hw_Code := "code"; hw_Hook := h |}) <$> hs |}.
Definition demo_context (stage : string) : executionContext string :=
  {| ec_endpoint := "/openrtb2/auction"; ec_stage := stage; ec_accountID := ""; ec_account := None; ec_contexts := ∅; ec_activityControl := no_activities |}.
Definition in_order (n : nat) : list (nat * bool * Z) := (λ i, (i, false, 1)) <$> seq 0 n.
Import JsonTree.
Definition demo_stage (stage : string) (hs : list (list demo_hook)) : option (@stageRun string unit string) :=
  executeStage None demo_handler (demo_context stage) (demo_group_of <$> hs) "body" tt (λ n, in_order (length (nth n hs []))).
(** A hook that hangs is reported as timed out and the others go on. *)
Lemma demo_stage_runs : (λ r, (sr_payload r, sr_reject r, (λ g, ho_Status <$> go_InvocationResults g) <$> so_Groups (sr_outcome r)))
  <$> demo_stage "raw_auction_request" [[Appends "-a"; Hangs]; [Appends "-b"]] =
  Some ("body-a-b", None, [[StatusSuccess; StatusTimeout]; [StatusSuccess]]).
Proof. reflexivity. Qed.
(** A rejection gives back the payload of before the group and no later group runs. *)
Lemma demo_stage_rejected : (λ r, (sr_payload r, rj_NBR <$> sr_reject r, length (so_Groups (sr_outcome r))))
  <$> demo_stage "raw_auction_request" [[Appends "-a"]; [Appends "-b"; Rejects 7; Appends "-c"]; [Appends "-d"]] = Some ("body-a", Some 7, 2%nat).
Proof. reflexivity. Qed.
(** At a stage that cannot be rejected the attempt still hides the answers that come after it in its
    group: the change of the last hook is lost and the hook is not reported. *)
Lemma unsupported_rejection_drops_answers : (λ r, (sr_payload r, rj_NBR <$> sr_reject r, (λ g, ho_Status <$> go_InvocationResults g) <$> so_Groups (sr_outcome r)))
  <$> demo_stage "exitpoint" [[Rejects 7; Appends "-a"]; [Appends "-b"]] = Some ("body-b", None, [[StatusExecutionFailure]; [StatusSuccess]]).
Proof. reflexivity. Qed.
(** Two hooks of one module in a group: the context that the first one stores is lost when the second
    times out. *)
Lemma context_of_module_lost : (λ r, (λ m, m !! "vendor.module") <$> sr_contexts r) <$> demo_stage "raw_auction_request" [[Appends "-a"; Hangs]] = Some [Some None].
Proof. reflexivity. Qed.
Lemma every_hook_reported_witness : ∃ run ts,
  demo_stage "raw_auction_request" [[Appends "-a"]; [Appends "-b"; Rejects 7; Appends "-c"]; [Appends "-d"]] = Some run ∧
  length ts = length (so_Groups (sr_outcome run)) ∧
  ends (H := demo_hook) (P := string) (W := unit) (V := string) (demo_context "raw_auction_request")
    (demo_group_of <$> [[Appends "-a"]; [Appends "-b"; Rejects 7; Appends "-c"]; [Appends "-d"]]) ts (sr_reject run) ∧
  rj_NBR <$> sr_reject run = Some 7.
Proof.
  pose proof demo_stage_rejected as Hd.
  destruct (demo_stage "raw_auction_request" [[Appends "-a"]; [Appends "-b"; Rejects 7; Appends "-c"]; [Appends "-d"]]) as [run|] eqn:E; [|discriminate Hd].
  injection Hd as _ Hrej _. unfold demo_stage in E.
  destruct (every_hook_reported None demo_handler (demo_context "raw_auction_request")
    (demo_group_of <$> [[Appends "-a"]; [Appends "-b"; Rejects 7; Appends "-c"]; [Appends "-d"]]) "body" tt
    (λ n, in_order (length (nth n [[Appends "-a"]; [Appends "-b"; Rejects 7; Appends "-c"]; [Appends "-d"]] []))) run E) as (ts & _ & _ & Hg & He).
  - intros [|[|[|n]]] g Hg; simpl in Hg; [| | |discriminate Hg]; injection Hg as <-; unfold all_arrive; reflexivity.
  - exists run, ts. split; [reflexivity|]. split; [exact (Forall2_length _ _ _ Hg)|]. split; [exact He|exact Hrej].
Defined.

(** A hook without the right to user data and locations. *)
Definition demo_deny : ActivityControl :=
  {| ctl_plans := λ a, match a with ActivityTransmitUserFPD | ActivityTransmitPreciseGeo => Some {| plan_defaultResult := false; plan_rules := [] |} | _ => None end;
     ctl_IPv6Config := 56; ctl_IPv4Config := 24 |}.
Definition cell_updater : RequestUpdater unit RequestWrapper := {| up_get := λ _ s, s; up_copy := λ rw p _, (p, rw) |}.
Definition deny_context : executionContext string :=
  {| ec_endpoint := ""; ec_stage := "bidder_request"; ec_accountID := ""; ec_account := None; ec_contexts := ∅; ec_activityControl := demo_deny |}.
Definition one_hook : HookWrapper unit := {| hw_Module := "vendor.module"; hw_Code := "code"; hw_Hook := tt |}.
Definition seen_user : User := set_us_ID "person" empty_user.
Definition seen_request : RequestWrapper := wrap_request
  {| br_Imp := []; br_User := Some seen_user; br_Device := Some (mkDevice "1.2.3.4" "" None None "" "" "" "" "ifa" "" "" None "");
     br_Regs := None; br_Source := None; br_Site := None; br_App := None; br_DOOH := None; br_Ext := None; br_rest := "" |}.
Lemma cell_law (rw : RequestWrapper) (p : unit) (s : RequestWrapper) : up_get cell_updater (up_copy cell_updater rw p s).1 (up_copy cell_updater rw p s).2 = rw.
Proof. reflexivity. Qed.
Lemma hook_sees_permitted_request_witness : ∃ mctx p' s' u d, prepare_hook (Some cell_updater) deny_context tt seen_request one_hook = Some (one_hook, mctx, (p', s')) ∧
  br_User (rw_BidRequest s') = Some u ∧ us_ID u = "" ∧ br_Device (rw_BidRequest s') = Some d ∧ dv_IFA d = "" ∧ dv_IP d = "1.2.3.0".
Proof.
  assert (match prepare_hook (Some cell_updater) deny_context tt seen_request one_hook with
          | Some (_, _, (_, s)) => (match br_User (rw_BidRequest s) with Some _ => true | None => false end, match br_Device (rw_BidRequest s) with Some _ => true | None => false end)
          | None => (false, false) end = (true, true)) as Hp by (vm_compute; reflexivity).
  destruct (prepare_hook (Some cell_updater) deny_context tt seen_request one_hook) as [[[hw m] [p' s']]|] eqn:E; [|discriminate Hp].
  assert (hw = one_hook) as ->. { unfold prepare_hook in E. apply bind_Some in E as (ps & _ & E). injection E as <- _ _. reflexivity. }
  pose proof (hook_sees_permitted_request (J := Json_tree) (H := unit) (P := unit) (W := RequestWrapper) (V := string) cell_updater cell_law deny_context one_hook tt seen_request m p' s' E) as (Hf & Hg & _ & _).
  assert (denied deny_context ActivityTransmitUserFPD one_hook) as Df by reflexivity. assert (denied deny_context ActivityTransmitPreciseGeo one_hook) as Dg by reflexivity.
  destruct (br_User (rw_BidRequest s')) as [u|] eqn:Hu; [|discriminate Hp]. destruct (br_Device (rw_BidRequest s')) as [d|] eqn:Hd; [|discriminate Hp].
  destruct (Hf Df) as [Hdev Huser].
  exists m, p', s', u, d. split; [reflexivity|]. split; [exact Hu|]. split; [exact (proj1 (Huser u Hu))|]. split; [exact Hd|]. split; [exact (proj1 (Hdev d Hd))|].
  destruct (proj1 (Hg Dg) d Hd) as (d0 & Hd0 & _ & Hip & _). rewrite Hip. injection Hd0 as <-. vm_compute. reflexivity.
Defined.
