(* ===== verification/Validate.v ===== *)
(** * Validation of impressions: src/ortb/request_validator*.go

    The checks of banner, video, audio, native and deals, and of [imp.ext], which also moves bidder
    parameters to their newer place and drops bidders that are disabled or unknown.  Messages name the
    property without the index of the impression.  The JSON schemas of bidder parameters, the names of
    core bidders and the constants of the native types are arguments. *)
From S2P Require Import Prelude GoStrings GoFloat ErrorTypes RequestParts.

(** ** Media types.  A check returns the first error, if any. *)
Abbreviation checked_by := (option string).
Fixpoint first_error (l : list (bool * string)) : checked_by :=
  match l with [] => None | (bad, e) :: rest => if bad then Some e else first_error rest end.

Record Format := { fm_W : Z; fm_H : Z; fm_WRatio : Z; fm_HRatio : Z; fm_WMin : Z }.
Record vBanner := { vb_W : option Z; vb_H : option Z; vb_WMin : Z; vb_WMax : Z; vb_HMin : Z; vb_HMax : Z; vb_Format : list Format }.
Definition negative (o : option Z) : bool := match o with Some v => v <? 0 | None => false end.
Definition positive (o : option Z) : bool := match o with Some v => 0 <? v | None => false end.
Definition usesHW (f : Format) : bool := negb (fm_W f =? 0) || negb (fm_H f =? 0).
Definition usesRatios (f : Format) : bool := negb (fm_WMin f =? 0) || negb (fm_WRatio f =? 0) || negb (fm_HRatio f =? 0).
Definition validateFormat (f : Format) : checked_by := first_error
  [(fm_W f <? 0, "banner.format.w must be a positive number"); (fm_H f <? 0, "banner.format.h must be a positive number");
   (fm_WRatio f <? 0, "banner.format.wratio must be a positive number"); (fm_HRatio f <? 0, "banner.format.hratio must be a positive number");
   (fm_WMin f <? 0, "banner.format.wmin must be a positive number");
   (usesHW f && usesRatios f, "banner.format should define either w, h or wmin, wratio, hratio, but not both");
   (negb (usesHW f) && negb (usesRatios f), "banner.format should define either w, h or wmin, wratio, hratio to be non-zero");
   (usesHW f && ((fm_W f =? 0) || (fm_H f =? 0)), "banner.format must define non-zero h and w properties");
   (usesRatios f && ((fm_WMin f =? 0) || (fm_WRatio f =? 0) || (fm_HRatio f =? 0)), "banner.format must define non-zero wmin, wratio, and hratio properties")].
Fixpoint check_all {A} (check : A → checked_by) (l : list A) : checked_by :=
  match l with [] => None | x :: rest => match check x with Some e => Some e | None => check_all check rest end end.
Definition and_then (a b : checked_by) : checked_by := match a with Some e => Some e | None => b end.
Definition validateBanner (banner : option vBanner) (isInterstitial : bool) : checked_by :=
  match banner with
  | None => None
  | Some b =>
      let hasRootSize := positive (vb_H b) && positive (vb_W b) in
      and_then
        (first_error [(negative (vb_W b), "banner.w must be a positive number"); (negative (vb_H b), "banner.h must be a positive number");
           (negb (vb_WMin b =? 0), "banner uses unsupported property: wmin"); (negb (vb_WMax b =? 0), "banner uses unsupported property: wmax");
           (negb (vb_HMin b =? 0), "banner uses unsupported property: hmin"); (negb (vb_HMax b =? 0), "banner uses unsupported property: hmax");
           (negb hasRootSize && (length (vb_Format b) =? 0)%nat && negb isInterstitial, "banner has no sizes")])
        (check_all validateFormat (vb_Format b))
  end.
Record vVideo := { vv_MIMEs : list string; vv_W : option Z; vv_H : option Z; vv_MinBitRate : Z; vv_MaxBitRate : Z }.
Definition validateVideo (video : option vVideo) : checked_by :=
  match video with
  | None => None
  | Some v => first_error [((length (vv_MIMEs v) <? 1)%nat, "video.mimes must contain at least one supported MIME type");
      (negative (vv_W v), "video.w must be a positive number"); (negative (vv_H v), "video.h must be a positive number");
      (vv_MinBitRate v <? 0, "video.minbitrate must be a positive number"); (vv_MaxBitRate v <? 0, "video.maxbitrate must be a positive number")]
  end.
Record vAudio := { va_MIMEs : list string; va_Sequence : Z; va_MaxSeq : Z; va_MinBitrate : Z; va_MaxBitrate : Z }.
Definition validateAudio (audio : option vAudio) : checked_by :=
  match audio with
  | None => None
  | Some a => first_error [((length (va_MIMEs a) <? 1)%nat, "audio.mimes must contain at least one supported MIME type");
      (va_Sequence a <? 0, "audio.sequence must be a positive number"); (va_MaxSeq a <? 0, "audio.maxseq must be a positive number");
      (va_MinBitrate a <? 0, "audio.minbitrate must be a positive number"); (va_MaxBitrate a <? 0, "audio.maxbitrate must be a positive number")]
  end.
(** [pmp.deals], by their ids. *)
Definition validatePmp (pmp : option (list string)) : checked_by :=
  match pmp with None => None | Some deals => check_all (λ id, if id =s? "" then Some "pmp.deals missing required field: id" else None) deals end.

(** ** Native requests *)
(** The constants of the native and media types of the OpenRTB library. *)
Class NativeTypes := {
  ContextTypeContent : Z; ContextTypeSocial : Z; ContextTypeProduct : Z;
  ContextSubTypeGeneral : Z; ContextSubTypeUserGenerated : Z; ContextSubTypeSocial : Z; ContextSubTypeChat : Z;
  ContextSubTypeSelling : Z; ContextSubTypeProductReview : Z;
  PlacementTypeFeed : Z; PlacementTypeRecommendationWidget : Z;
  EventTypeImpression : Z; EventTypeViewableVideo50 : Z; EventTrackingMethodImage : Z; EventTrackingMethodJS : Z;
  DataAssetTypeSponsored : Z; DataAssetTypeCTAText : Z; CreativeVAST10 : Z; CreativeDAAST10Wrapper : Z
}.
Definition NativeExchangeSpecificLowerBound : Z := 500.
Record NativeAsset := {
  na_ID : Z;
  na_Title : option Z;
  na_Img : option (Z * Z * Z * Z);
  na_Video : option (nat * Z * Z * list Z);
  na_Data : option Z
}.
Definition set_na_ID (id : Z) (a : NativeAsset) : NativeAsset :=
  {| na_ID := id; na_Title := na_Title a; na_Img := na_Img a; na_Video := na_Video a; na_Data := na_Data a |}.
Record NativePayload := { np_Context : Z; np_ContextSubType : Z; np_PlcmtType : Z; np_Assets : list NativeAsset; np_EventTrackers : list (Z * list Z) }.
Definition set_np_Assets (l : list NativeAsset) (n : NativePayload) : NativePayload :=
  {| np_Context := np_Context n; np_ContextSubType := np_ContextSubType n; np_PlcmtType := np_PlcmtType n; np_Assets := l; np_EventTrackers := np_EventTrackers n |}.

Section Native.
Context `{NativeTypes}.
(** Below the first of the range, or between it and the types of exchanges. *)
Definition out_of_types (v first last : Z) : bool := (v <? first) || ((last <? v) && (v <? NativeExchangeSpecificLowerBound)).
Definition in_types (v first last : Z) : bool := (first <=? v) && (v <=? last).
Definition validateNativeContextTypes (cType cSubtype : Z) : checked_by :=
  if cType =? 0 then None
  else if out_of_types cType ContextTypeContent ContextTypeProduct then Some "native.request.context is invalid"
  else if cSubtype <? 0 then Some "native.request.contextsubtype value can't be less than 0"
  else if cSubtype =? 0 then None
  else
    let of_context c := if negb (cType =? c) && (cType <? NativeExchangeSpecificLowerBound) then Some "native.request.context and contextsubtype are an invalid combination" else None in
    if in_types cSubtype ContextSubTypeGeneral ContextSubTypeUserGenerated then of_context ContextTypeContent
    else if in_types cSubtype ContextSubTypeSocial ContextSubTypeChat then of_context ContextTypeSocial
    else if in_types cSubtype ContextSubTypeSelling ContextSubTypeProductReview then of_context ContextTypeProduct
    else if NativeExchangeSpecificLowerBound <=? cSubtype then None
    else Some "native.request.contextsubtype is invalid".
Definition validateNativePlacementType (pt : Z) : checked_by :=
  if pt =? 0 then None
  else if out_of_types pt PlacementTypeFeed PlacementTypeRecommendationWidget then Some "native.request.plcmttype is invalid" else None.
Definition validateNativeAssetTitle (len : Z) : checked_by := if len <? 1 then Some "assets.title.len must be a positive number" else None.
Definition validateNativeAssetImage (img : Z * Z * Z * Z) : checked_by :=
  let '(w, h, wmin, hmin) := img in first_error
    [(w <? 0, "assets.img.w must be a positive integer"); (h <? 0, "assets.img.h must be a positive integer");
     (wmin <? 0, "assets.img.wmin must be a positive integer"); (hmin <? 0, "assets.img.hmin must be a positive integer")].
Definition validateNativeVideoProtocol (protocol : Z) : checked_by :=
  if (protocol <? CreativeVAST10) || (CreativeDAAST10Wrapper <? protocol) then Some "assets.video.protocols is invalid" else None.
Definition validateNativeAssetVideo (video : nat * Z * Z * list Z) : checked_by :=
  let '(mimes, minDuration, maxDuration, protocols) := video in
  and_then (first_error
    [((mimes <? 1)%nat, "assets.video.mimes must be an array with at least one MIME type"); (minDuration <? 1, "assets.video.minduration must be a positive integer");
     (maxDuration <? 1, "assets.video.maxduration must be a positive integer");
     ((length protocols <? 1)%nat, "assets.video.protocols must be an array with at least one element")])
    (check_all validateNativeVideoProtocol protocols).
Definition validateNativeAssetData (type : Z) : checked_by :=
  if out_of_types type DataAssetTypeSponsored DataAssetTypeCTAText then Some "assets.data.type is invalid" else None.
(** One part of an asset: an error when another kind was found before. *)
Definition asset_part {A} (part : option A) (check : A → checked_by) (foundType : bool) (k : bool → checked_by) : checked_by :=
  match part with
  | None => k foundType
  | Some x => if foundType then Some "assets must define exactly one of title, img, video, data" else and_then (check x) (k true)
  end.
Definition validateNativeAsset (a : NativeAsset) : checked_by :=
  asset_part (na_Title a) validateNativeAssetTitle false (λ found,
  asset_part (na_Img a) validateNativeAssetImage found (λ found,
  asset_part (na_Video a) validateNativeAssetVideo found (λ found,
  asset_part (na_Data a) validateNativeAssetData found (λ found,
  if found then None else Some "assets must define exactly one of title, img, video, data")))).
(** The loop over the assets from an index, with the ids used. *)
Fixpoint fill_assets (assign : bool) (i : Z) (used : gset Z) (assets : list NativeAsset) : result string (list NativeAsset) :=
  match assets with
  | [] => Ok []
  | a :: rest =>
      match validateNativeAsset a with
      | Some e => Err e
      | None =>
          if assign then let? rest := fill_assets assign (i + 1) used rest in Ok (set_na_ID i a :: rest)
          else if bool_decide (na_ID a ∈ used) then Err "assets.id is already being used by another asset"
          else let? rest := fill_assets assign (i + 1) ({[na_ID a]} ∪ used) rest in Ok (a :: rest)
      end
  end.
Definition fillAndValidateNativeAssets (assets : list NativeAsset) : result string (list NativeAsset) :=
  match assets with
  | [] => Err "native.request.assets must be an array containing at least one object"
  | _ => fill_assets (forallb (λ a, na_ID a =? 0) assets) 0 ∅ assets
  end.
Definition validateNativeEventTracker (tracker : Z * list Z) : checked_by :=
  let '(event, methods) := tracker in
  and_then (first_error [(out_of_types event EventTypeImpression EventTypeViewableVideo50, "eventtrackers.event is invalid");
                         ((length methods <? 1)%nat, "eventtrackers.method is required")])
    (check_all (λ m, if out_of_types m EventTrackingMethodImage EventTrackingMethodJS then Some "eventtrackers.methods is invalid" else None) methods).
(** [decode] and [encode] are the JSON of the request text. *)
Definition fillAndValidateNative (decode : string → result string NativePayload) (encode : NativePayload → result string string) (native : option string)
    : result string (option string) :=
  match native with
  | None => Ok None
  | Some request =>
      if request =s? "" then Err "native missing required property request"
      else
        let? n := decode request in
        match and_then (validateNativeContextTypes (np_Context n) (np_ContextSubType n)) (validateNativePlacementType (np_PlcmtType n)) with
        | Some e => Err e
        | None =>
            let? assets := fillAndValidateNativeAssets (np_Assets n) in
            match check_all validateNativeEventTracker (np_EventTrackers n) with
            | Some e => Err e
            | None => let? text := encode (set_np_Assets assets n) in Ok (Some text)
            end
        end
  end.
End Native.

(** ** [imp.ext] *)
Record vImpPrebid := { vp_Bidder : option (gmap string string); vp_StoredAuctionResponse : bool; vp_StoredBidResponse : nat }.
Record vImpExt := { vx_ext : gmap string string; vx_prebid : option vImpPrebid }.
Definition set_vp_Bidder (m : gmap string string) (p : vImpPrebid) : vImpPrebid :=
  {| vp_Bidder := Some m; vp_StoredAuctionResponse := vp_StoredAuctionResponse p; vp_StoredBidResponse := vp_StoredBidResponse p |}.
Definition IsPotentialBidder (name : string) : bool :=
  negb (existsb (String.eqb name) ["context"; "data"; "gpid"; "prebid"; "skadn"; "tid"; "ae"; "igs"]).

Section ImpExt.
Context `{MapRange}.
(** [bidderMap] holds the names of the enabled core bidders, [paramError] is the schema check. *)
Context (coreBidders : list string) (bidderMap : gset string) (disabledBidders : gmap string string) (paramError : string → string → option string).

Definition promote_step (acc : gmap string string * gmap string string) (kv : string * string) : gmap string string * gmap string string :=
  let '(bidders, ext) := acc in
  if IsPotentialBidder kv.1 then (match bidders !! kv.1 with Some _ => bidders | None => <[kv.1 := kv.2]> bidders end, delete kv.1 ext) else acc.
Definition validateStoredBidResponses (bidders : gmap string string) (stored : nat) (storedBidResp : option (gmap string (list string))) (impId : string) : checked_by :=
  let mismatch := "stored bid responses: bidders specified in imp.ext should match with bidders specified in imp.ext.prebid.storedbidresponse" in
  match storedBidResp with
  | None => if (stored =? 0)%nat then None else Some mismatch
  | Some m =>
      match m !! impId with
      | None => None
      | Some names =>
          if negb (length names =? size bidders)%nat then Some mismatch
          else check_all (λ b, match NormalizeBidderName coreBidders b with
                               | None => Some ("unrecognized bidder " +:+ b)
                               | Some _ => match bidders !! b with None => Some mismatch | Some _ => None end
                               end) names
      end
  end.
Definition core_of (aliases : gmap string string) (bidder : string) : string :=
  match aliases !! bidder with Some core => core | None => default "" (NormalizeBidderName coreBidders bidder) end.
(** The loop over the bidders: the map, the other members and the errors so far, or one fatal error. *)
Fixpoint check_bidders (skipParams bidderPromote : bool) (aliases : gmap string string) (todo : list (string * string))
    (bidders ext : gmap string string) (errL : list go_error) : result go_error (gmap string string * gmap string string * list go_error) :=
  match todo with
  | [] => Ok (bidders, ext, errL)
  | (bidder, v) :: rest =>
      let core := core_of aliases bidder in
      if bool_decide (core ∈ bidderMap) then
        match (if skipParams then None else paramError core v) with
        | Some e => Err (PlainError ("ext.prebid.bidder." +:+ bidder +:+ " failed validation. " +:+ e))
        | None => check_bidders skipParams bidderPromote aliases rest bidders ext errL
        end
      else match disabledBidders !! bidder with
           | Some msg => check_bidders skipParams bidderPromote aliases rest (delete bidder bidders) ext (errL ++ [BidderTemporarilyDisabled msg])
           | None =>
               if bidderPromote then
                 check_bidders skipParams bidderPromote aliases rest (delete bidder bidders) (<[bidder := v]> ext)
                   (errL ++ [Warning ("ext contains unknown bidder: " +:+ bidder +:+ ", ignoring") 0])
               else Err (PlainError ("ext.prebid.bidder contains unknown bidder: " +:+ bidder))
           end
  end.
(** The errors and the extension afterwards.  A map of bidders that was sent is changed in place. *)
Definition validateImpExt (impID : string) (hasExt : bool) (decoded : result string vImpExt) (skipParams : bool) (aliases : gmap string string)
    (hasStoredAuctionResponses : bool) (storedBidResp : option (gmap string (list string))) : list go_error * option vImpExt :=
  if negb hasExt then ([PlainError "ext is required"], None)
  else match decoded with
       | Err e => ([PlainError e], None)
       | Ok x =>
           let prebid := default {| vp_Bidder := None; vp_StoredAuctionResponse := false; vp_StoredBidResponse := 0 |} (vx_prebid x) in
           let '(bidders, ext, bidderPromote) :=
             match vp_Bidder prebid with
             | Some m => (m, vx_ext x, false)
             | None => (foldl promote_step (∅, vx_ext x) (map_range (vx_ext x)), true)
             end in
           if hasStoredAuctionResponses && negb (vp_StoredAuctionResponse prebid) then
             ([PlainError "The StoredAuctionResponse.ID field must be completely present with, or completely absent from, all impressions in request"], None)
           else match validateStoredBidResponses bidders (vp_StoredBidResponse prebid) storedBidResp impID with
                | Some e => ([PlainError e], None)
                | None =>
                    match check_bidders skipParams bidderPromote aliases (map_range bidders) bidders ext [] with
                    | Err e => ([e], None)
                    | Ok (bidders, ext, errL) =>
                        if bool_decide (bidders = ∅) then (errL ++ [PlainError "ext.prebid.bidder must contain at least one bidder"], None)
                        else (errL, Some {| vx_ext := ext; vx_prebid := Some (set_vp_Bidder bidders prebid) |})
                    end
                end
       end.
End ImpExt.

(** ** One impression *)
Record vImp := {
  vi_ID : string; vi_Metric : nat; vi_Banner : option vBanner; vi_Video : option vVideo; vi_Audio : option vAudio; vi_Native : option string;
  vi_PMP : option (list string); vi_Instl : Z; vi_hasExt : bool; vi_ext : result string vImpExt
}.
Definition set_vi_checked (native : option string) (x : vImpExt) (i : vImp) : vImp :=
  {| vi_ID := vi_ID i; vi_Metric := vi_Metric i; vi_Banner := vi_Banner i; vi_Video := vi_Video i; vi_Audio := vi_Audio i; vi_Native := native;
     vi_PMP := vi_PMP i; vi_Instl := vi_Instl i; vi_hasExt := vi_hasExt i; vi_ext := Ok x |}.
(** The validator with what it is built from. *)
Record requestValidator := {
  rv_coreBidders : list string; rv_bidderMap : gset string; rv_disabledBidders : gmap string string; rv_paramError : string → string → option string;
  rv_decodeNative : string → result string NativePayload; rv_encodeNative : NativePayload → result string string
}.
Record ValidationConfig := { vc_SkipBidderParams : bool; vc_SkipNative : bool }.
Definition isInterstitial (i : vImp) : bool := vi_Instl i =? 1.
Definition ValidateImp `{NativeTypes} `{MapRange} (srv : requestValidator) (cfg : ValidationConfig) (aliases : gmap string string) (hasStoredAuctionResponses : bool)
    (storedBidResp : option (gmap string (list string))) (i : vImp) : list go_error * vImp :=
  let no_media := match vi_Banner i, vi_Video i, vi_Audio i, vi_Native i with None, None, None, None => true | _, _, _, _ => false end in
  match and_then (first_error [(vi_ID i =s? "", "imp missing required field: id"); (negb (vi_Metric i =? 0)%nat, "imp.metric is not yet supported");
                               (no_media, "imp must contain at least one of banner, video, audio, or native")])
        (and_then (validateBanner (vi_Banner i) (isInterstitial i)) (and_then (validateVideo (vi_Video i)) (validateAudio (vi_Audio i)))) with
  | Some e => ([PlainError e], i)
  | None =>
      match (if vc_SkipNative cfg then Ok (vi_Native i) else fillAndValidateNative (rv_decodeNative srv) (rv_encodeNative srv) (vi_Native i)) with
      | Err e => ([PlainError e], i)
      | Ok native =>
          match validatePmp (vi_PMP i) with
          | Some e => ([PlainError e], i)
          | None =>
              let '(errs, x) := validateImpExt (rv_coreBidders srv) (rv_bidderMap srv) (rv_disabledBidders srv) (rv_paramError srv) (vi_ID i) (vi_hasExt i) (vi_ext i)
                                  (vc_SkipBidderParams cfg) aliases hasStoredAuctionResponses storedBidResp in
              (errs, match x with Some x => set_vi_checked native x i | None => i end)
          end
      end
  end.
