(* ===== verification/ValidateSpec.v ===== *)
(** * What validation guarantees of an impression

    Theorems on [Validate]: the checks of sizes accept exactly the well-formed banners, native assets
    get distinct ids, and of the bidders of an impression exactly the known ones with valid parameters
    are left, whatever the order of the maps. *)
From S2P Require Import Prelude GoStrings GoFloat ErrorTypes RequestParts Validate.

(** ** Checks *)
Lemma first_error_None l : first_error l = None ↔ Forall (λ x, x.1 = false) l.
Proof.
  induction l as [|[b e] l IH]; simpl; [by split; [constructor|]|]. rewrite Forall_cons. destruct b; simpl; [|rewrite IH; naive_solver].
  split; [done|]. by intros [? _].
Qed.
Lemma check_all_None {A} (check : A → option string) l : check_all check l = None ↔ Forall (λ x, check x = None) l.
Proof.
  induction l as [|x l IH]; simpl; [by split; [constructor|]|]. rewrite Forall_cons, <-IH. destruct (check x); naive_solver.
Qed.
Lemma and_then_None a b : and_then a b = None ↔ a = None ∧ b = None.
Proof. destruct a; simpl; naive_solver. Qed.
Lemma and_then_None_3 a b c : and_then a (and_then b c) = None → a = None ∧ b = None ∧ c = None.
Proof. by rewrite !and_then_None. Qed.

(** ** Sizes *)
(** Either a static size or a flexible one, all positive, and nothing of the other. *)
Definition static_size (f : Format) : Prop := 0 < fm_W f ∧ 0 < fm_H f ∧ fm_WMin f = 0 ∧ fm_WRatio f = 0 ∧ fm_HRatio f = 0.
Definition flexible_size (f : Format) : Prop := fm_W f = 0 ∧ fm_H f = 0 ∧ 0 < fm_WMin f ∧ 0 < fm_WRatio f ∧ 0 < fm_HRatio f.
Lemma validateFormat_iff f : validateFormat f = None ↔ static_size f ∨ flexible_size f.
Proof.
  unfold validateFormat. rewrite first_error_None, !Forall_cons. unfold static_size, flexible_size, usesHW, usesRatios. cbn [fst].
  rewrite !Z.ltb_ge. split.
  - intros (H1 & H2 & H3 & H4 & H5 & H6 & H7 & H8 & H9 & _).
    destruct (Z.eqb_spec (fm_W f) 0), (Z.eqb_spec (fm_H f) 0), (Z.eqb_spec (fm_WMin f) 0), (Z.eqb_spec (fm_WRatio f) 0), (Z.eqb_spec (fm_HRatio f) 0);
      simpl in *; try discriminate; lia.
  - intros [(H1 & H2 & H3 & H4 & H5)|(H1 & H2 & H3 & H4 & H5)]; rewrite ?H1, ?H2, ?H3, ?H4, ?H5; cbn [Z.eqb negb orb andb];
      repeat match goal with |- context [(?x =? 0)] => rewrite (proj2 (Z.eqb_neq x 0)) by lia end; simpl; split_and!; try done; lia.
Qed.
Definition size_ok (b : vBanner) (interstitial : bool) : Prop :=
  (∃ w h, vb_W b = Some w ∧ vb_H b = Some h ∧ 0 < w ∧ 0 < h) ∨ vb_Format b ≠ [] ∨ interstitial = true.
Definition banner_ok (b : vBanner) (interstitial : bool) : Prop :=
  (∀ w, vb_W b = Some w → 0 ≤ w) ∧ (∀ h, vb_H b = Some h → 0 ≤ h) ∧ vb_WMin b = 0 ∧ vb_WMax b = 0 ∧ vb_HMin b = 0 ∧ vb_HMax b = 0 ∧
  size_ok b interstitial ∧ Forall (λ f, static_size f ∨ flexible_size f) (vb_Format b).
Lemma negative_false o : negative o = false ↔ ∀ v, o = Some v → 0 ≤ v.
Proof. destruct o as [v|]; simpl; [rewrite Z.ltb_ge; naive_solver|naive_solver]. Qed.
Lemma positive_true o : positive o = true ↔ ∃ v, o = Some v ∧ 0 < v.
Proof. destruct o as [v|]; simpl; [rewrite Z.ltb_lt; naive_solver|naive_solver]. Qed.
Lemma size_ok_iff b i : negb (positive (vb_H b) && positive (vb_W b)) && (length (vb_Format b) =? 0)%nat && negb i = false ↔ size_ok b i.
Proof.
  unfold size_ok. destruct (positive (vb_H b) && positive (vb_W b)) eqn:Ep; simpl.
  - apply andb_prop in Ep as [(h & Hh & Ph)%positive_true (w & Hw & Pw)%positive_true]. split; [|done]. intros _. left. by exists w, h.
  - assert (¬ ∃ w h, vb_W b = Some w ∧ vb_H b = Some h ∧ 0 < w ∧ 0 < h) as Hn.
    { intros (w & h & Hw & Hh & Pw & Ph). rewrite Hw, Hh in Ep. simpl in Ep. rewrite (proj2 (Z.ltb_lt 0 h)), (proj2 (Z.ltb_lt 0 w)) in Ep by done. done. }
    destruct (vb_Format b); simpl; [destruct i; simpl; naive_solver|naive_solver].
Qed.
(** A banner is accepted exactly when it is well formed. *)
Lemma validateBanner_iff b i : validateBanner (Some b) i = None ↔ banner_ok b i.
Proof.
  unfold validateBanner, banner_ok. rewrite and_then_None, first_error_None, !Forall_cons, check_all_None. cbn [fst].
  rewrite !negative_false, size_ok_iff, !negb_false_iff, !Z.eqb_eq, (Forall_iff _ _ _ validateFormat_iff). naive_solver.
Qed.

(** ** Native assets *)
Section NativeSpec.
Context `{NativeTypes}.
Definition count_parts (a : NativeAsset) : nat :=
  ((if na_Title a then 1 else 0) + (if na_Img a then 1 else 0) + (if na_Video a then 1 else 0) + (if na_Data a then 1 else 0))%nat.
Lemma validateNativeAsset_one a : validateNativeAsset a = None → count_parts a = 1%nat.
Proof.
  unfold validateNativeAsset, count_parts, asset_part. destruct (na_Title a) as [t|], (na_Img a) as [i|], (na_Video a) as [v|], (na_Data a) as [d|]; simpl;
    try done; rewrite ?and_then_None; try (intros [_ ?]; done); try (intros ?; done).
Qed.
Lemma validateNativeAsset_ID a i : validateNativeAsset (set_na_ID i a) = validateNativeAsset a.
Proof. reflexivity. Qed.
(** The assets with their ids: those of the caller, or the positions. *)
Lemma fill_assets_spec assign l : ∀ i used out, fill_assets assign i used l = Ok out →
  Forall (λ a, validateNativeAsset a = None) out ∧ length out = length l ∧
  (if assign then na_ID <$> out = seqZ i (Z.of_nat (length l)) ∧ zip_with (λ a j, set_na_ID j a) l (seqZ i (Z.of_nat (length l))) = out
   else out = l ∧ NoDup (na_ID <$> l) ∧ Forall (λ a, na_ID a ∉ used) l).
Proof.
  induction l as [|a l IH]; intros i used out; cbn [fill_assets].
  - intros [= <-]. destruct assign; split_and!; try done; constructor.
  - destruct (validateNativeAsset a) eqn:Ea; [done|]. destruct assign.
    + destruct (fill_assets true (i + 1) used l) as [rest|] eqn:Er; [|done]. intros [= <-]. apply IH in Er as (Hv & Hl & Hids & Hz).
      assert (seqZ i (Z.of_nat (length (a :: l))) = i :: seqZ (i + 1) (Z.of_nat (length l))) as ->.
      { rewrite seqZ_cons by (simpl; lia). f_equal. f_equal; simpl; lia. }
      split_and!; [by constructor|by simpl; f_equal|by simpl; f_equal|by simpl; f_equal].
    + case_bool_decide as Hu; [done|]. destruct (fill_assets false (i + 1) ({[na_ID a]} ∪ used) l) as [rest|] eqn:Er; [|done]. intros [= <-].
      apply IH in Er as (Hv & Hl & -> & Hn & Hf). split_and!; [by constructor|done|done| |].
      * rewrite fmap_cons. constructor; [|done]. intros (x & Hx & Hin)%list_elem_of_fmap. rewrite Forall_forall in Hf. specialize (Hf x Hin). rewrite <-Hx in Hf. set_solver.
      * constructor; [done|]. eapply Forall_impl; [exact Hf|]. set_solver.
Qed.
Lemma native_assets_distinct l out : fillAndValidateNativeAssets l = Ok out →
  out ≠ [] ∧ NoDup (na_ID <$> out) ∧ Forall (λ a, count_parts a = 1%nat) out ∧
  ((∃ a, a ∈ l ∧ na_ID a ≠ 0) → out = l) ∧ ((∀ a, a ∈ l → na_ID a = 0) → out = zip_with (λ a j, set_na_ID j a) l (seqZ 0 (Z.of_nat (length l)))).
Proof.
  unfold fillAndValidateNativeAssets. destruct l as [|a0 l0]; [done|]. set (l := a0 :: l0). set (assign := forallb _ l).
  assert (l ≠ []) as Hne by done. clearbody l. intros E. pose proof (fill_assets_spec assign l 0 ∅ out E) as (Hv & Hl & Hs).
  assert (∀ a, a ∈ l → assign = true → na_ID a = 0) as Ht.
  { intros a Ha Hb. unfold assign in Hb. rewrite forallb_forall in Hb. apply Z.eqb_eq, Hb. by apply list_elem_of_In. }
  split; [by destruct out, l|]. split.
  - destruct assign; [destruct Hs as [-> _]; apply NoDup_seqZ|by destruct Hs as (-> & ? & _)].
  - split; [eapply Forall_impl; [exact Hv|]; apply validateNativeAsset_one|]. split.
    + intros (a & Ha & Hna). destruct assign; [by destruct Hna; apply Ht|by destruct Hs].
    + intros Hz. assert (assign = true) as Hb. { unfold assign. apply forallb_forall. intros a Ha. apply Z.eqb_eq, Hz. by apply list_elem_of_In. }
      rewrite Hb in Hs. by destruct Hs as [_ ->].
Qed.
End NativeSpec.

(** ** Bidders of an impression *)
Section BidderSpec.
Context `{MapRange} (coreBidders : list string) (bidderMap : gset string) (disabledBidders : gmap string string) (paramError : string → string → option string).
Context (skipParams : bool) (aliases : gmap string string).
Abbreviation core b := (core_of coreBidders aliases b).
Definition known (b : string) : Prop := core b ∈ bidderMap.
#[global] Instance known_dec b : Decision (known b).
Proof. unfold known. apply _. Defined.
Definition params_ok (b v : string) : Prop := skipParams = true ∨ paramError (core b) v = None.
(** A bidder that does not stop the request: known with valid parameters, or dropped with a note. *)
Definition passes_check (promote : bool) (kv : string * string) : Prop :=
  if decide (known kv.1) then params_ok kv.1 kv.2 else is_Some (disabledBidders !! kv.1) ∨ promote = true.
Definition note (kv : string * string) : option go_error :=
  if decide (known kv.1) then None
  else Some (match disabledBidders !! kv.1 with
             | Some msg => BidderTemporarilyDisabled msg
             | None => Warning ("ext contains unknown bidder: " +:+ kv.1 +:+ ", ignoring") 0
             end).
(** An unknown bidder that goes back to where it was. *)
Definition returned (promote : bool) (b : string) : Prop := promote = true ∧ ¬ known b ∧ disabledBidders !! b = None.

#[global] Instance returned_dec promote b : Decision (returned promote b).
Proof. unfold returned. apply _. Defined.
Definition drop_unknown (m : gmap string string) (kv : string * string) : gmap string string := if decide (known kv.1) then m else delete kv.1 m.
Definition put_back (promote : bool) (m : gmap string string) (kv : string * string) : gmap string string :=
  if decide (returned promote kv.1) then <[kv.1 := kv.2]> m else m.
Lemma check_bidders_spec promote todo : ∀ bidders ext errL,
  match check_bidders coreBidders bidderMap disabledBidders paramError skipParams promote aliases todo bidders ext errL with
  | Ok out => Forall (passes_check promote) todo ∧ out = (foldl drop_unknown bidders todo, foldl (put_back promote) ext todo, errL ++ omap note todo)
  | Err e => ¬ Forall (passes_check promote) todo ∧ isFatal e = true
  end.
Proof.
  induction todo as [|[b v] todo IH]; intros bidders ext errL; cbn [check_bidders foldl].
  - split; [constructor|by rewrite app_nil_r].
  - set (next := omap note ((b, v) :: todo)). assert (next = match note (b, v) with Some e => e :: omap note todo | None => omap note todo end) as -> by done.
    unfold drop_unknown at 2, put_back at 2, note at 1. cbn [fst snd].
    assert (passes_check promote (b, v) ↔ if decide (known b) then params_ok b v else is_Some (disabledBidders !! b) ∨ promote = true) as Hp by done.
    destruct (decide (known b)) as [Hk|Hk]; [rewrite bool_decide_eq_true_2 by done|rewrite bool_decide_eq_false_2 by done].
    + rewrite decide_False by (unfold returned; tauto). destruct (if skipParams then None else paramError (core b) v) as [e|] eqn:Ep.
      { split; [|done]. rewrite Forall_cons, Hp. intros [[Hs|Hs] _]; [by rewrite Hs in Ep|destruct skipParams; congruence]. }
      assert (params_ok b v) by (unfold params_ok; destruct skipParams; auto).
      specialize (IH bidders ext errL). destruct (check_bidders _ _ _ _ _ _ _ _ _ _ _); rewrite Forall_cons, Hp; tauto.
    + destruct (disabledBidders !! b) as [msg|] eqn:Ed.
      * rewrite decide_False by (unfold returned; naive_solver). specialize (IH (delete b bidders) ext (errL ++ [BidderTemporarilyDisabled msg])).
        destruct (check_bidders _ _ _ _ _ _ _ _ _ _ _); rewrite Forall_cons, Hp; [|tauto]. destruct IH as [Hf ->]. rewrite <-app_assoc. split; [|done]. by split; [left|].
      * destruct promote; [|split; [|done]; rewrite Forall_cons, Hp; intros [[Hx|Hx] _]; [by destruct Hx|done]]. rewrite decide_True by done.
        specialize (IH (delete b bidders) (<[b := v]> ext) (errL ++ [Warning ("ext contains unknown bidder: " +:+ b +:+ ", ignoring") 0])).
        destruct (check_bidders _ _ _ _ _ _ _ _ _ _ _); rewrite Forall_cons, Hp; [|tauto]. destruct IH as [Hf ->]. rewrite <-app_assoc. split; [|done]. by split; [right|].
Qed.
Lemma foldl_drop_lookup todo k : ∀ m, foldl drop_unknown m todo !! k = if decide (k ∈ todo.*1 ∧ ¬ known k) then None else m !! k.
Proof.
  induction todo as [|[b v] todo IH]; intros m; cbn [foldl]; [by rewrite decide_False by set_solver|]. rewrite IH, fmap_cons. unfold drop_unknown. cbn [fst].
  destruct (decide (k ∈ todo.*1 ∧ ¬ known k)) as [Hin|Hin]; [by rewrite decide_True by set_solver|].
  destruct (decide (known b)) as [Hk|Hk]; [rewrite decide_False; [done|]; set_solver|].
  destruct (decide (k = b)) as [->|Hne]; [rewrite lookup_delete_eq, decide_True by set_solver; done|]. rewrite lookup_delete_ne by done. rewrite decide_False; [done|]. set_solver.
Qed.
(** All bidders of the map are looked at: the known ones are left. *)
Lemma foldl_drop_all m : foldl drop_unknown m (map_range m) = filter (λ kv, known kv.1) m.
Proof.
  apply map_eq. intros k. rewrite foldl_drop_lookup. rewrite map_lookup_filter. destruct (m !! k) as [v|] eqn:E; simpl.
  - assert (k ∈ (map_range m).*1) as Hin by (apply list_elem_of_fmap; exists (k, v); split; [done|by apply elem_of_map_range]).
    destruct (decide (known k)); [rewrite decide_False by tauto|rewrite decide_True by done]; by case_guard.
  - by case_decide.
Qed.
Lemma put_back_lookup promote todo k : NoDup todo.*1 → ∀ m,
  foldl (put_back promote) m todo !! k = match (λ x, x.2) <$> find (λ x, bool_decide (x.1 = k)) todo with
                                         | Some v => if decide (returned promote k) then Some v else m !! k
                                         | None => m !! k
                                         end.
Proof.
  induction todo as [|[b v] todo IH]; intros Hnd m; [done|]. rewrite fmap_cons in Hnd. apply NoDup_cons in Hnd as [Hb Hnd]. cbn [foldl find]. rewrite IH by done. cbn [fst snd] in *.
  case_bool_decide as Hk; [|unfold put_back; cbn [fst snd]; destruct (decide (returned promote b)); [by rewrite lookup_insert_ne|done]].
  subst k. assert (find (λ x : string * string, bool_decide (x.1 = b)) todo = None) as ->.
  { clear -Hb. induction todo as [|[b' v'] todo IH]; [done|]. simpl. rewrite bool_decide_eq_false_2 by set_solver. apply IH. set_solver. }
  simpl. unfold put_back. cbn [fst snd]. destruct (decide (returned promote b)); [apply lookup_insert_eq|done].
Qed.
(** Entries of a map found in a list of all of them. *)
Lemma find_entry_key (l : list (string * string)) k : NoDup l.*1 → (λ x, x.2) <$> find (λ x : string * string, bool_decide (x.1 = k)) l = list_to_map (M := gmap string string) l !! k.
Proof.
  induction l as [|[b v] l IH]; intros Hnd; [done|]. rewrite fmap_cons in Hnd. apply NoDup_cons in Hnd as [_ Hnd]. cbn [find list_to_map foldr uncurry fst snd].
  case_bool_decide as Hk; [subst b; by rewrite lookup_insert_eq|]. rewrite lookup_insert_ne by done. by apply IH.
Qed.
Lemma map_range_map (m : gmap string string) : list_to_map (map_range m) = m.
Proof. rewrite <-(list_to_map_to_list m) at 2. apply list_to_map_proper; [apply NoDup_map_range_fst|apply map_range_perm]. Qed.
Definition potential (kv : string * string) : Prop := IsPotentialBidder kv.1 = true.
Lemma foldl_promote_lookup l k : NoDup l.*1 → ∀ bidders ext, let out := foldl promote_step (bidders, ext) l in
  out.2 !! k = (if decide (k ∈ l.*1 ∧ IsPotentialBidder k = true) then None else ext !! k) ∧
  out.1 !! k = match bidders !! k with
               | Some v => Some v
               | None => if decide (IsPotentialBidder k = true) then list_to_map (M := gmap string string) l !! k else None
               end.
Proof.
  induction l as [|[b v] l IH]; intros Hnd bidders ext; cbn [foldl].
  - rewrite decide_False by set_solver. split; [done|]. cbn. rewrite lookup_empty. destruct (bidders !! k); [done|]. by destruct (decide (IsPotentialBidder k = true)).
  - rewrite fmap_cons in *. apply NoDup_cons in Hnd as [Hb Hnd]. cbn [promote_step fst snd list_to_map foldr uncurry] in *.
    destruct (IsPotentialBidder b) eqn:Eb.
    + destruct (IH Hnd (match bidders !! b with Some _ => bidders | None => <[b := v]> bidders end) (delete b ext)) as [-> ->].
      destruct (decide (k = b)) as [->|Hne].
      * rewrite lookup_delete_eq, lookup_insert_eq, Eb. rewrite (decide_True (P := true = true)) by done. rewrite (decide_True (P := b ∈ b :: l.*1 ∧ true = true)) by set_solver.
        split; [by destruct (decide (b ∈ l.*1 ∧ true = true))|]. destruct (bidders !! b) as [v0|] eqn:E0; [by rewrite E0|by rewrite lookup_insert_eq].
      * rewrite lookup_delete_ne, lookup_insert_ne by done. split; [apply decide_ext; set_solver|].
        destruct (bidders !! b); [done|]. by rewrite lookup_insert_ne.
    + destruct (IH Hnd bidders ext) as [-> ->]. destruct (decide (k = b)) as [->|Hne].
      * rewrite Eb, !(decide_False (P := _ ∧ false = true)) by (intros [_ ?]; done). done.
      * rewrite lookup_insert_ne by done. split; [apply decide_ext; set_solver|done].
Qed.
Lemma promote_split ext : foldl promote_step (∅, ext) (map_range ext) = (filter potential ext, filter (λ kv, ¬ potential kv) ext).
Proof.
  rewrite (surjective_pairing (foldl _ _ _)). f_equal; apply map_eq; intros k; destruct (foldl_promote_lookup (map_range ext) k (NoDup_map_range_fst ext) ∅ ext) as [He Hb].
  - rewrite Hb, lookup_empty, map_range_map, map_lookup_filter. unfold potential. destruct (ext !! k); simpl; [|by destruct (decide (IsPotentialBidder k = true))]. by case_decide; case_guard.
  - rewrite He, map_lookup_filter. unfold potential. destruct (ext !! k) as [v|] eqn:E; simpl; [|by destruct (decide (k ∈ (map_range ext).*1 ∧ IsPotentialBidder k = true))].
    assert (k ∈ (map_range ext).*1) as Hin by (apply list_elem_of_fmap; exists (k, v); split; [done|by apply elem_of_map_range]).
    destruct (decide (IsPotentialBidder k = true)) as [Hp|Hp]; [rewrite decide_True by done|rewrite decide_False by tauto]; by case_guard.
Qed.

(** The bidders that were sent, in the newer place or else in the older one. *)
Definition sent_prebid (x : vImpExt) : vImpPrebid := default {| vp_Bidder := None; vp_StoredAuctionResponse := false; vp_StoredBidResponse := 0 |} (vx_prebid x).
Definition promotes (x : vImpExt) : bool := match vp_Bidder (sent_prebid x) with Some _ => false | None => true end.
Definition candidates (x : vImpExt) : gmap string string := match vp_Bidder (sent_prebid x) with Some m => m | None => filter potential (vx_ext x) end.
Definition stored_ok (impID : string) (hasStored : bool) (stored : option (gmap string (list string))) (x : vImpExt) : Prop :=
  (hasStored = true → vp_StoredAuctionResponse (sent_prebid x) = true) ∧
  validateStoredBidResponses coreBidders (candidates x) (vp_StoredBidResponse (sent_prebid x)) stored impID = None.
Lemma notes_not_fatal l : ContainsFatalError (omap note l) = false.
Proof.
  induction l as [|kv l IH]; [done|]. cbn [omap list_omap]. unfold note at 1. destruct (decide (known kv.1)); [exact IH|]. unfold ContainsFatalError. cbn [existsb].
  destruct (disabledBidders !! kv.1); exact IH.
Qed.
Lemma ContainsFatalError_snoc l e : isFatal e = true → ContainsFatalError (l ++ [e]) = true.
Proof. intros He. unfold ContainsFatalError. rewrite existsb_app. simpl. rewrite He. by rewrite orb_true_r. Qed.
Lemma known_filter_empty (m : gmap string string) : filter (λ kv : string * string, known kv.1) m = ∅ ↔ ¬ ∃ b, is_Some (m !! b) ∧ known b.
Proof.
  split.
  - intros Hf (b & [v Hv] & Hk). apply (f_equal (lookup b)) in Hf. rewrite lookup_empty, map_lookup_filter_None in Hf. destruct Hf as [Hf|Hf]; [congruence|by apply (Hf v)].
  - intros Hn. apply map_empty. intros b. apply map_lookup_filter_None. destruct (m !! b) as [v|] eqn:E; [right|by left]. intros v' Hv' Hk. apply Hn. exists b. split; [by exists v|done].
Qed.
Lemma put_back_all ext (m : gmap string string) : m = filter potential ext →
  foldl (put_back true) (filter (λ kv, ¬ potential kv) ext) (map_range m) = filter (λ kv, ¬ potential kv ∨ returned true kv.1) ext.
Proof.
  intros ->. apply map_eq. intros k. rewrite put_back_lookup, find_entry_key, map_range_map, !map_lookup_filter by apply NoDup_map_range_fst. unfold potential. simpl.
  destruct (ext !! k) as [v|]; simpl; [|done]. repeat case_guard; simpl; try done; try tauto; try (by case_decide; tauto). 
Qed.

Lemma put_back_none l (ext : gmap string string) : foldl (put_back false) ext l = ext.
Proof. induction l as [|kv l IH]; [done|]. cbn [foldl]. unfold put_back at 2. rewrite decide_False; [exact IH|]. by intros [? _]. Qed.
Lemma imp_ext_known_bidders impID x hasStored stored errs y :
  validateImpExt coreBidders bidderMap disabledBidders paramError impID true (Ok x) skipParams aliases hasStored stored = (errs, y) →
  (ContainsFatalError errs = false ↔
     stored_ok impID hasStored stored x ∧ map_Forall (λ b v, passes_check (promotes x) (b, v)) (candidates x) ∧ ∃ b, is_Some (candidates x !! b) ∧ known b) ∧
  (ContainsFatalError errs = false →
     ∃ y', y = Some y' ∧ (vx_prebid y' ≫= vp_Bidder) = Some (filter (λ kv, known kv.1) (candidates x)) ∧ errs ≡ₚ omap note (map_to_list (candidates x)) ∧
       vx_ext y' = if promotes x then filter (λ kv, ¬ potential kv ∨ returned true kv.1) (vx_ext x) else vx_ext x).
Proof.
  unfold validateImpExt. cbn [negb]. fold (sent_prebid x).
  assert (∃ e0, match vp_Bidder (sent_prebid x) with Some m => (m, vx_ext x, false) | None => (foldl promote_step (∅, vx_ext x) (map_range (vx_ext x)), true) end = (candidates x, e0, promotes x)
    ∧ e0 = if promotes x then filter (λ kv, ¬ potential kv) (vx_ext x) else vx_ext x) as (e0 & -> & He0).
  { unfold candidates, promotes. destruct (vp_Bidder (sent_prebid x)); [by eexists|]. rewrite promote_split. by eexists. }
  cbv beta iota. unfold stored_ok. destruct (hasStored && negb (vp_StoredAuctionResponse (sent_prebid x))) eqn:Es.
  { intros [= <- <-]. apply andb_prop in Es as [-> Hn%negb_true_iff]. split; [|done]. split; [done|]. intros ([Hs _] & _). by rewrite Hs in Hn. }
  destruct (validateStoredBidResponses _ _ _ _ _) as [e|].
  { intros [= <- <-]. split; [|done]. split; [done|]. by intros ([_ ?] & _). }
  assert (hasStored = true → vp_StoredAuctionResponse (sent_prebid x) = true) as Hst by (intros ->; destruct (vp_StoredAuctionResponse _); done).
  pose proof (check_bidders_spec (promotes x) (map_range (candidates x)) (candidates x) e0 []) as Hc.
  assert (Forall (passes_check (promotes x)) (map_range (candidates x)) ↔ map_Forall (λ b v, passes_check (promotes x) (b, v)) (candidates x)) as Hall.
  { rewrite Forall_forall. split; [intros Hf b v Hv; apply Hf; by apply elem_of_map_range|intros Hm [b v] Hin; apply Hm; by apply elem_of_map_range]. }
  destruct (check_bidders _ _ _ _ _ _ _ _ _ _ _) as [out|e].
  - destruct Hc as [Hf ->]. rewrite foldl_drop_all. simpl. case_bool_decide as Hem; intros [= <- <-].
    + rewrite ContainsFatalError_snoc by done. split; [|done]. split; [done|]. apply known_filter_empty in Hem. tauto.
    + assert (∃ b, is_Some (candidates x !! b) ∧ known b) as Hk by (destruct (map_choose _ Hem) as (b & v & [Hv Hb]%map_lookup_filter_Some); exists b; split; [by exists v|done]).
      rewrite notes_not_fatal. split; [tauto|]. intros _. eexists. split; [done|]. split; [done|]. split; [by rewrite map_range_perm|]. simpl. rewrite He0. unfold candidates, promotes. destruct (vp_Bidder (sent_prebid x)); [apply put_back_none|by apply put_back_all].
  - destruct Hc as [Hn He]. intros [= <- <-]. unfold ContainsFatalError. simpl. rewrite He. split; [|done]. split; [done|]. tauto.
Qed.
(** C23: Whatever the order of the maps, the extension of an impression is accepted
    exactly when its stored responses fit, every known bidder has valid parameters, every unknown one
    is disabled or came from the older place, and at least one bidder is known; then exactly the known
    bidders are left with their parameters, one note is given for every other one, and of the other
    members those that named no bidder, or an unknown one, stay. *)
Theorem imp_keeps_known_bidders impID x hasStored stored errs y :
  validateImpExt coreBidders bidderMap disabledBidders paramError impID true (Ok x) skipParams aliases hasStored stored = (errs, y) →
  (ContainsFatalError errs = false ↔
     stored_ok impID hasStored stored x ∧ map_Forall (λ b v, passes_check (promotes x) (b, v)) (candidates x) ∧ ∃ b, is_Some (candidates x !! b) ∧ known b) ∧
  (ContainsFatalError errs = false →
     ∃ y', y = Some y' ∧ (vx_prebid y' ≫= vp_Bidder) = Some (filter (λ kv, known kv.1) (candidates x)) ∧ errs ≡ₚ omap note (map_to_list (candidates x)) ∧
       vx_ext y' = if promotes x then filter (λ kv, ¬ potential kv ∨ returned true kv.1) (vx_ext x) else vx_ext x).
Proof. apply imp_ext_known_bidders. Qed.
End BidderSpec.

(** ** Whole impressions *)
Section ImpSpec.
Context `{NativeTypes} `{MapRange} (srv : requestValidator) (cfg : ValidationConfig) (aliases : gmap string string).
Definition video_ok (v : vVideo) : Prop :=
  vv_MIMEs v ≠ [] ∧ (∀ w, vv_W v = Some w → 0 ≤ w) ∧ (∀ h, vv_H v = Some h → 0 ≤ h) ∧ 0 ≤ vv_MinBitRate v ∧ 0 ≤ vv_MaxBitRate v.
Definition audio_ok (a : vAudio) : Prop :=
  va_MIMEs a ≠ [] ∧ 0 ≤ va_Sequence a ∧ 0 ≤ va_MaxSeq a ∧ 0 ≤ va_MinBitrate a ∧ 0 ≤ va_MaxBitrate a.
Definition some_media (i : vImp) : Prop := is_Some (vi_Banner i) ∨ is_Some (vi_Video i) ∨ is_Some (vi_Audio i) ∨ is_Some (vi_Native i).
(** Its bidders are known, with valid parameters, and there is one. *)
Definition bidders_ok (x : vImpExt) : Prop := ∃ p m, vx_prebid x = Some p ∧ vp_Bidder p = Some m ∧ m ≠ ∅ ∧
  map_Forall (λ b v, known (rv_coreBidders srv) (rv_bidderMap srv) aliases b ∧ params_ok (rv_coreBidders srv) (rv_paramError srv) (vc_SkipBidderParams cfg) aliases b v) m.
Definition imp_ok (i : vImp) : Prop :=
  vi_ID i ≠ "" ∧ vi_Metric i = 0%nat ∧ some_media i ∧ (∀ b, vi_Banner i = Some b → banner_ok b (isInterstitial i)) ∧
  (∀ v, vi_Video i = Some v → video_ok v) ∧ (∀ a, vi_Audio i = Some a → audio_ok a) ∧ (∀ deals, vi_PMP i = Some deals → Forall (λ d, d ≠ "") deals) ∧
  ∃ x, vi_ext i = Ok x ∧ bidders_ok x.
Lemma length_0_nil {A} (l : list A) : (length l <? 1)%nat = false ↔ l ≠ [].
Proof. destruct l; simpl; split; try done. Qed.
Lemma validateVideo_iff v : validateVideo (Some v) = None ↔ video_ok v.
Proof.
  unfold validateVideo, video_ok. rewrite first_error_None, !Forall_cons. cbn [fst]. rewrite length_0_nil, !negative_false, !Z.ltb_ge. naive_solver.
Qed.
Lemma validateAudio_iff a : validateAudio (Some a) = None ↔ audio_ok a.
Proof. unfold validateAudio, audio_ok. rewrite first_error_None, !Forall_cons. cbn [fst]. rewrite length_0_nil, !Z.ltb_ge. naive_solver. Qed.
Lemma validateImpExt_ok impID hasExt decoded hasStored stored errs y :
  validateImpExt (rv_coreBidders srv) (rv_bidderMap srv) (rv_disabledBidders srv) (rv_paramError srv) impID hasExt decoded (vc_SkipBidderParams cfg) aliases hasStored stored = (errs, y) →
  ContainsFatalError errs = false → ∃ y', y = Some y' ∧ bidders_ok y'.
Proof.
  destruct hasExt; [|by intros [= <- <-]]. destruct decoded as [x|e]; [|by intros [= <- <-]]. intros Hv Hf.
  destruct (imp_ext_known_bidders _ _ _ _ _ _ _ _ _ _ _ _ Hv) as [Hiff Hres]. destruct (Hres Hf) as (y' & -> & Hb & _). exists y'. split; [done|].
  destruct (proj1 Hiff Hf) as (_ & Hall & b & [v Hbv] & Hk). destruct (vx_prebid y') as [p|] eqn:Ep; [|done]. exists p. simpl in Hb. eexists. split; [done|]. split; [exact Hb|]. split.
  - intros E. apply (f_equal (lookup b)) in E. rewrite lookup_empty in E. assert (filter (λ kv : string * string, known (rv_coreBidders srv) (rv_bidderMap srv) aliases kv.1) (candidates x) !! b = Some v) by by apply map_lookup_filter_Some. congruence.
  - intros b' v' [Hb' Hk']%map_lookup_filter_Some. split; [done|]. specialize (Hall b' v' Hb'). unfold passes_check in Hall. simpl in *. by rewrite decide_True in Hall.
Qed.
(** A request validator that reports no fatal error leaves a well-formed impression. *)
Lemma ValidateImp_ok hasStored stored i errs i' :
  ValidateImp srv cfg aliases hasStored stored i = (errs, i') → ContainsFatalError errs = false → imp_ok i' ∧ vi_ID i' = vi_ID i.
Proof.
  unfold ValidateImp. set (no_media := match vi_Banner i with Some _ => _ | None => _ end).
  destruct (and_then _ _) as [e|] eqn:Ea; [by intros [= <- <-]|]. apply and_then_None in Ea as [Ef (Hb & Hv & Ha)%and_then_None_3].
  rewrite first_error_None, !Forall_cons in Ef. cbn [fst] in Ef. destruct Ef as (Hid & Hm & Hmed & _).
  destruct (if vc_SkipNative cfg then _ else _) as [native|e] eqn:En; [|by intros [= <- <-]].
  destruct (validatePmp (vi_PMP i)) as [e|] eqn:Ep; [by intros [= <- <-]|].
  destruct (validateImpExt _ _ _ _ _ _ _ _ _ _ _) as [errs0 y] eqn:Ex. intros [= <- <-] Hf. apply validateImpExt_ok in Ex as (x & -> & Hx); [|done].
  split; [|done]. unfold imp_ok. cbn [vi_ID vi_Metric vi_Banner vi_Video vi_Audio vi_PMP vi_ext set_vi_checked]. split_and!.
  - by apply String.eqb_neq.
  - by apply negb_false_iff, Nat.eqb_eq in Hm.
  - unfold some_media. simpl. subst no_media. destruct (vi_Banner i), (vi_Video i), (vi_Audio i); eauto. right. right. right. destruct (vi_Native i) as [t|]; [|done].
    destruct (vc_SkipNative cfg); [injection En as <-; eauto|]. unfold fillAndValidateNative in En. destruct (t =s? ""); [done|]. cbv beta iota in En.
    destruct (rv_decodeNative srv t); [|done]. cbn [rbind] in En. destruct (and_then _ _); [done|]. destruct (fillAndValidateNativeAssets _); [|done]. cbn [rbind] in En.
    destruct (check_all _ _); [done|]. destruct (rv_encodeNative srv _); [|done]. injection En as <-. eauto.
  - intros b Eb. rewrite Eb in Hb. by apply validateBanner_iff.
  - intros v Ev. rewrite Ev in Hv. by apply validateVideo_iff.
  - intros a Eaa. rewrite Eaa in Ha. by apply validateAudio_iff.
  - intros deals Ed. rewrite Ed in Ep. simpl in Ep. apply check_all_None in Ep. eapply Forall_impl; [exact Ep|]. cbv beta. intros d. destruct (String.eqb_spec d ""); done.
  - by exists x.
Qed.
End ImpSpec.

(** ** An example: one bidder is known, one disabled, one unknown *)
Module Example_imp_ext.
Definition cores : list string := ["appnexus"; "rubicon"].
Definition enabled : gset string := {["appnexus"]}.
Definition disabled : gmap string string := {["rubicon" := "rubicon is disabled"]}.
Definition params (core v : string) : option string := if v =s? "" then Some "empty" else None.
Definition sent : vImpExt := {| vx_ext := {["appnexus" := "1"; "rubicon" := "2"; "other" := "3"; "gpid" := "4"]}; vx_prebid := None |}.
Definition run := @validateImpExt canonical_range cores enabled disabled params "imp" true (Ok sent) false ∅ false None.
Lemma run_accepted : ContainsFatalError run.1 = false.
Proof. vm_compute. reflexivity. Qed.
Lemma imp_keeps_known_bidders_witness : ContainsFatalError run.1 = false ∧
  ∃ y, run.2 = Some y ∧ vx_prebid y ≫= vp_Bidder = Some (filter (λ kv, known cores enabled ∅ kv.1) (candidates sent)).
Proof.
  pose proof run_accepted as Ha. split; [exact Ha|]. destruct run as [errs y] eqn:E.
  destruct (imp_keeps_known_bidders (H := canonical_range) cores enabled disabled params false ∅ "imp" sent false None errs y E) as [_ Hr].
  destruct (Hr Ha) as (y' & Ey & Hb & _). exists y'. split; [exact Ey|exact Hb].
Defined.
End Example_imp_ext.
