(* ===== verification/ValidateRequest.v ===== *)
(** * Validation of auction requests: src/endpoints/openrtb2/auction.go, src/openrtb_ext/multibid.go

    [validateRequest] with its helpers, over the fields it reads.  An extension is what decoding it gave,
    an error or the members that are read.  An outer [None] is a panic: a null entry of the lists of
    supply chains and of multibids is a nil pointer the code follows.  Messages leave out indices. *)
From S2P Require Import Prelude GoStrings GoFloat Currency BidAdjustment PriceGranularity Privacy ExtWrapper RequestParts ErrorTypes Validate.

(** ** Data *)
Record vMultiBid := { vm_Bidder : string; vm_Bidders : option (list string); vm_MaxBids : option Z; vm_TargetBidderCodePrefix : string }.
Record vTargeting := { vt_PriceGranularity : option PriceGranularity; vt_Video : option PriceGranularity; vt_Banner : option PriceGranularity; vt_Native : option PriceGranularity }.
Record vPrebid := {
  vq_Aliases : gmap string string; vq_AliasGVLIDs : gmap string Z; vq_BidAdjustmentFactors : gmap string float64;
  vq_SChains : list (option ExtRequestPrebidSChain); vq_EidPermissions : option (list EidPermission); vq_CurrencyConversions : option ExtRequestCurrency;
  vq_Channel : option string; vq_Cache : option (bool * bool); vq_Targeting : option vTargeting; vq_MultiBid : option (list (option vMultiBid));
  vq_BidAdjustments : option MediaType; vq_NoSale : list string
}.
Definition set_vq_Aliases v (p : vPrebid) : vPrebid :=
  {| vq_Aliases := v; vq_AliasGVLIDs := vq_AliasGVLIDs p; vq_BidAdjustmentFactors := vq_BidAdjustmentFactors p; vq_SChains := vq_SChains p; vq_EidPermissions := vq_EidPermissions p;
     vq_CurrencyConversions := vq_CurrencyConversions p; vq_Channel := vq_Channel p; vq_Cache := vq_Cache p; vq_Targeting := vq_Targeting p; vq_MultiBid := vq_MultiBid p;
     vq_BidAdjustments := vq_BidAdjustments p; vq_NoSale := vq_NoSale p |}.
Definition set_vq_Channel v (p : vPrebid) : vPrebid :=
  {| vq_Aliases := vq_Aliases p; vq_AliasGVLIDs := vq_AliasGVLIDs p; vq_BidAdjustmentFactors := vq_BidAdjustmentFactors p; vq_SChains := vq_SChains p; vq_EidPermissions := vq_EidPermissions p;
     vq_CurrencyConversions := vq_CurrencyConversions p; vq_Channel := v; vq_Cache := vq_Cache p; vq_Targeting := vq_Targeting p; vq_MultiBid := vq_MultiBid p;
     vq_BidAdjustments := vq_BidAdjustments p; vq_NoSale := vq_NoSale p |}.
Definition set_vq_MultiBid v (p : vPrebid) : vPrebid :=
  {| vq_Aliases := vq_Aliases p; vq_AliasGVLIDs := vq_AliasGVLIDs p; vq_BidAdjustmentFactors := vq_BidAdjustmentFactors p; vq_SChains := vq_SChains p; vq_EidPermissions := vq_EidPermissions p;
     vq_CurrencyConversions := vq_CurrencyConversions p; vq_Channel := vq_Channel p; vq_Cache := vq_Cache p; vq_Targeting := vq_Targeting p; vq_MultiBid := v;
     vq_BidAdjustments := vq_BidAdjustments p; vq_NoSale := vq_NoSale p |}.
Definition set_vq_BidAdjustments v (p : vPrebid) : vPrebid :=
  {| vq_Aliases := vq_Aliases p; vq_AliasGVLIDs := vq_AliasGVLIDs p; vq_BidAdjustmentFactors := vq_BidAdjustmentFactors p; vq_SChains := vq_SChains p; vq_EidPermissions := vq_EidPermissions p;
     vq_CurrencyConversions := vq_CurrencyConversions p; vq_Channel := vq_Channel p; vq_Cache := vq_Cache p; vq_Targeting := vq_Targeting p; vq_MultiBid := vq_MultiBid p;
     vq_BidAdjustments := v; vq_NoSale := vq_NoSale p |}.
Definition empty_vPrebid : vPrebid :=
  {| vq_Aliases := ∅; vq_AliasGVLIDs := ∅; vq_BidAdjustmentFactors := ∅; vq_SChains := []; vq_EidPermissions := None; vq_CurrencyConversions := None;
     vq_Channel := None; vq_Cache := None; vq_Targeting := None; vq_MultiBid := None; vq_BidAdjustments := None; vq_NoSale := [] |}.
(** The extension of a site gives [amp]; of a user the [buyeruids] of its [prebid]; of regs [us_privacy]; of a device [cdep]. *)
Record vSite := { vs_ID : string; vs_Page : string; vs_ext : result string (option Z) }.
Record vApp := { vap_ID : string; vap_ext : result string () }.
Record vDOOH := { vd_ID : string; vd_VenueType : nat }.
Record vUser := { vu_Accuracy : option Z; vu_Consent : string; vu_EIDs : list EID; vu_ext : result string (option (gmap string string)) }.
Record vRegs := { vr_GDPR : option Z; vr_GPPSID : option (list Z); vr_GPP : string; vr_USPrivacy : string; vr_ext : result string string }.
Record vDevice := { vdv_W : Z; vdv_H : Z; vdv_PPI : Z; vdv_Accuracy : option Z; vdv_ext : result string string }.
(** An impression, the [tid] of its extension, and what the wrapper holds of the two when decoding failed. *)
Record wImp := { wi_imp : vImp; wi_tid : string; wi_partial : vImpExt * string }.
Record vRequest := {
  rq_ID : string; rq_TMax : Z; rq_Cur : list string; rq_Source : option string; rq_ext : result string (option vPrebid); rq_Site : option vSite; rq_App : option vApp;
  rq_DOOH : option vDOOH; rq_User : option vUser; rq_Regs : option vRegs; rq_Device : option vDevice; rq_Imp : list wImp
}.
Definition set_rq_Cur v (r : vRequest) : vRequest :=
  {| rq_ID := rq_ID r; rq_TMax := rq_TMax r; rq_Cur := v; rq_Source := rq_Source r; rq_ext := rq_ext r; rq_Site := rq_Site r; rq_App := rq_App r; rq_DOOH := rq_DOOH r;
     rq_User := rq_User r; rq_Regs := rq_Regs r; rq_Device := rq_Device r; rq_Imp := rq_Imp r |}.
Definition set_rq_tids source imps (r : vRequest) : vRequest :=
  {| rq_ID := rq_ID r; rq_TMax := rq_TMax r; rq_Cur := rq_Cur r; rq_Source := Some source; rq_ext := rq_ext r; rq_Site := rq_Site r; rq_App := rq_App r; rq_DOOH := rq_DOOH r;
     rq_User := rq_User r; rq_Regs := rq_Regs r; rq_Device := rq_Device r; rq_Imp := imps |}.
Definition set_rq_prebid v (r : vRequest) : vRequest :=
  {| rq_ID := rq_ID r; rq_TMax := rq_TMax r; rq_Cur := rq_Cur r; rq_Source := rq_Source r; rq_ext := Ok v; rq_Site := rq_Site r; rq_App := rq_App r; rq_DOOH := rq_DOOH r;
     rq_User := rq_User r; rq_Regs := rq_Regs r; rq_Device := rq_Device r; rq_Imp := rq_Imp r |}.
Definition set_rq_User v (r : vRequest) : vRequest :=
  {| rq_ID := rq_ID r; rq_TMax := rq_TMax r; rq_Cur := rq_Cur r; rq_Source := rq_Source r; rq_ext := rq_ext r; rq_Site := rq_Site r; rq_App := rq_App r; rq_DOOH := rq_DOOH r;
     rq_User := v; rq_Regs := rq_Regs r; rq_Device := rq_Device r; rq_Imp := rq_Imp r |}.
Definition set_rq_Regs v (r : vRequest) : vRequest :=
  {| rq_ID := rq_ID r; rq_TMax := rq_TMax r; rq_Cur := rq_Cur r; rq_Source := rq_Source r; rq_ext := rq_ext r; rq_Site := rq_Site r; rq_App := rq_App r; rq_DOOH := rq_DOOH r;
     rq_User := rq_User r; rq_Regs := v; rq_Device := rq_Device r; rq_Imp := rq_Imp r |}.
Definition set_rq_Device v (r : vRequest) : vRequest :=
  {| rq_ID := rq_ID r; rq_TMax := rq_TMax r; rq_Cur := rq_Cur r; rq_Source := rq_Source r; rq_ext := rq_ext r; rq_Site := rq_Site r; rq_App := rq_App r; rq_DOOH := rq_DOOH r;
     rq_User := rq_User r; rq_Regs := rq_Regs r; rq_Device := v; rq_Imp := rq_Imp r |}.
Definition set_rq_Imp v (r : vRequest) : vRequest :=
  {| rq_ID := rq_ID r; rq_TMax := rq_TMax r; rq_Cur := rq_Cur r; rq_Source := rq_Source r; rq_ext := rq_ext r; rq_Site := rq_Site r; rq_App := rq_App r; rq_DOOH := rq_DOOH r;
     rq_User := rq_User r; rq_Regs := rq_Regs r; rq_Device := rq_Device r; rq_Imp := v |}.

(** ** Multibid limits (openrtb_ext/multibid.go) *)
Definition DefaultBidLimit : Z := 1.
Definition MaxBidLimit : Z := 9.
Definition set_vm_MaxBids v (m : vMultiBid) : vMultiBid :=
  {| vm_Bidder := vm_Bidder m; vm_Bidders := vm_Bidders m; vm_MaxBids := Some v; vm_TargetBidderCodePrefix := vm_TargetBidderCodePrefix m |}.
Definition clear_vm_Bidders (m : vMultiBid) : vMultiBid :=
  {| vm_Bidder := vm_Bidder m; vm_Bidders := None; vm_MaxBids := vm_MaxBids m; vm_TargetBidderCodePrefix := vm_TargetBidderCodePrefix m |}.
(** The bidders of one entry that have none yet. *)
Fixpoint new_bidders (seen : gset string) (bidders : list string) : gset string * list string * list string :=
  match bidders with
  | [] => (seen, [], [])
  | b :: rest =>
      if bool_decide (b ∈ seen) then let '(seen, new, errs) := new_bidders seen rest in (seen, new, ("multiBid already defined for " +:+ b +:+ ", ignoring this instance") :: errs)
      else let '(seen, new, errs) := new_bidders ({[b]} ∪ seen) rest in (seen, b :: new, errs)
  end.
(** The names with an entry, the entries added and the errors. *)
Definition addMultiBid (seen : gset string) (m : vMultiBid) : gset string * list vMultiBid * list string :=
  match vm_MaxBids m with
  | None => (seen, [], ["maxBids not defined"])
  | Some max =>
      let '(max, errs) := if max <? DefaultBidLimit then (DefaultBidLimit, ["invalid maxBids value, using minimum 1 limit"])
                          else if MaxBidLimit <? max then (MaxBidLimit, ["invalid maxBids value, using maximum 9 limit"]) else (max, []) in
      let m := set_vm_MaxBids max m in
      if vm_Bidder m ≠s? "" then
        if bool_decide (vm_Bidder m ∈ seen) then (seen, [], errs ++ ["multiBid already defined for " +:+ vm_Bidder m +:+ ", ignoring this instance"])
        else ({[vm_Bidder m]} ∪ seen, [clear_vm_Bidders m], errs ++ match vm_Bidders m with Some _ => ["ignoring bidders"] | None => [] end)
      else match default [] (vm_Bidders m) with
           | [] => (seen, [], errs ++ ["bidder(s) not specified"])
           | bidders =>
               let '(seen, new, dups) := new_bidders seen bidders in
               (seen, match new with [] => [] | _ => [{| vm_Bidder := ""; vm_Bidders := Some new; vm_MaxBids := Some max; vm_TargetBidderCodePrefix := "" |}] end,
                errs ++ dups ++ if vm_TargetBidderCodePrefix m ≠s? "" then ["ignoring targetbiddercodeprefix"] else [])
           end
  end.
Fixpoint build_multibids (seen : gset string) (l : list (option vMultiBid)) : option (list vMultiBid * list string) :=
  match l with
  | [] => Some ([], [])
  | None :: _ => None
  | Some m :: rest => let '(seen, new, errs) := addMultiBid seen m in '(more, errs') ← build_multibids seen rest; Some (new ++ more, errs ++ errs')
  end.
Definition ValidateAndBuildExtMultiBid (l : list (option vMultiBid)) : option (list vMultiBid * list string) := build_multibids ∅ l.

(** ** The parts of a request *)
Section validate.
Context {IS : ISO} {MR : MapRange} {NT : NativeTypes}.
Record endpointDeps := {
  ed_validator : requestValidator; ed_BlockedApps : gset string; ed_AutoGenSourceTID : bool; ed_GenerateRequestID : bool
}.
Context (deps : endpointDeps).
Let coreBidders := rv_coreBidders (ed_validator deps).
Let bidderMap := rv_bidderMap (ed_validator deps).
Let disabledBidders := rv_disabledBidders (ed_validator deps).
Definition core_name (bidder : string) : string := default "" (NormalizeBidderName coreBidders bidder).

Definition IsBidderDisabledDueToWhiteLabelOnly (msg : string) : bool := HasSuffix msg "can only be aliased and cannot be used directly.".
(** The loop writes the core bidder into the map it ranges over. *)
Fixpoint alias_loop (todo : list (string * string)) (aliases : gmap string string) : result string (gmap string string) :=
  match todo with
  | [] => Ok aliases
  | (alias, bidder) :: rest =>
      let core := core_name bidder in
      match disabledBidders !! core with
      | Some msg => Err (if IsBidderDisabledDueToWhiteLabelOnly msg then "request.ext.prebid.aliases." +:+ alias +:+ " refers to a bidder that cannot be aliased: " +:+ bidder
                         else "request.ext.prebid.aliases." +:+ alias +:+ " refers to disabled bidder: " +:+ bidder)
      | None =>
          if negb (bool_decide (core ∈ bidderMap)) then Err ("request.ext.prebid.aliases." +:+ alias +:+ " refers to unknown bidder: " +:+ bidder)
          else if alias =s? core then Err ("request.ext.prebid.aliases." +:+ alias +:+ " defines a no-op alias. Choose a different alias, or remove this entry.")
          else alias_loop rest (<[alias := core]> aliases)
      end
  end.
Definition validateAliases (aliases : gmap string string) : result string (gmap string string) := alias_loop (map_range aliases) aliases.
Definition validateAliasesGVLIDs (gvlids : gmap string Z) (aliases : gmap string string) : checked_by :=
  check_all (λ '(alias, vendorId), match aliases !! alias with
                                   | None => Some ("request.ext.prebid.aliasgvlids refers to unknown bidder alias: " +:+ alias)
                                   | Some _ => if vendorId <? 1 then Some ("request.ext.prebid.aliasgvlids. Invalid vendorId for alias: " +:+ alias) else None
                                   end) (map_range gvlids).
Fixpoint factor_loop (aliases : gmap string string) (todo : list (string * float64)) (uniqueBidders : gset string) : checked_by :=
  match todo with
  | [] => None
  | (bidder, factor) :: rest =>
      if factor <=f? f0 then Some ("request.ext.prebid.bidadjustmentfactors." +:+ bidder +:+ " must be a positive number")
      else
        let name := default bidder (NormalizeBidderName coreBidders bidder) in
        if bool_decide (name ∈ uniqueBidders) then Some "cannot have multiple bidders that differ only in case style"
        else if negb (bool_decide (name ∈ bidderMap)) && negb (bool_decide (bidder ∈ dom aliases)) then Some ("request.ext.prebid.bidadjustmentfactors." +:+ bidder +:+ " is not a known bidder or alias")
        else factor_loop aliases rest ({[name]} ∪ uniqueBidders)
  end.
Definition validateBidAdjustmentFactors (factors : gmap string float64) (aliases : gmap string string) : checked_by := factor_loop aliases (map_range factors) ∅.
(** The chains before the first null entry, and whether there is one. *)
Fixpoint before_null {A} (l : list (option A)) : list A * bool :=
  match l with [] => ([], false) | None :: _ => ([], true) | Some x :: rest => let '(l, n) := before_null rest in (x :: l, n) end.
Definition validateSChains (sChains : list (option ExtRequestPrebidSChain)) : option checked_by :=
  let '(l, null) := before_null sChains in
  match BidderToPrebidSChains l with
  | Err _ => Some (Some "request.ext.prebid.schains contains multiple schains for a bidder")
  | Ok _ => if null : bool then None else Some None
  end.
Definition validateBidders (bidders : list string) (aliases : gmap string string) : checked_by :=
  check_all (λ b, if b =s? "*" then if (1 <? length bidders)%nat then Some "bidder wildcard mixed with specific bidders" else None
                  else if negb (bool_decide (core_name b ∈ bidderMap)) && negb (bool_decide (b ∈ dom aliases)) then Some ("unrecognized bidder " +:+ b) else None) bidders.
Fixpoint permission_loop (aliases : gmap string string) (l : list EidPermission) (uniqueSources : gset string) : checked_by :=
  match l with
  | [] => None
  | e :: rest =>
      if ep_Source e =s? "" then Some "request.ext.prebid.data.eidpermissions missing required field: source"
      else if bool_decide (ep_Source e ∈ uniqueSources) then Some "request.ext.prebid.data.eidpermissions duplicate entry with field: source"
      else if (length (ep_Bidders e) =? 0)%nat then Some "request.ext.prebid.data.eidpermissions missing or empty required field: bidders"
      else and_then (validateBidders (ep_Bidders e) aliases) (permission_loop aliases rest ({[ep_Source e]} ∪ uniqueSources))
  end.
Definition validateEidPermissions (data : option (list EidPermission)) (aliases : gmap string string) : checked_by :=
  match data with None => None | Some l => permission_loop aliases l ∅ end.

Definition channel_of (isAmp : bool) (r : vRequest) : string := if bool_decide (is_Some (rq_App r)) then "app" else if isAmp then "amp" else "".
Definition fillChannel (isAmp : bool) (prebid : option vPrebid) (r : vRequest) : vRequest :=
  let name := channel_of isAmp r in
  if name =s? "" then r else set_rq_prebid (Some (set_vq_Channel (Some name) (default empty_vPrebid prebid))) r.
Definition validateOrFillChannel (isAmp : bool) (r : vRequest) : result string vRequest :=
  let? prebid := rq_ext r in
  match prebid ≫= vq_Channel with
  | None => Ok (fillChannel isAmp prebid r)
  | Some name => if name =s? "" then Err "ext.prebid.channel.name can't be empty" else Ok r
  end.
Definition inventory_types (r : vRequest) : nat :=
  length (filter (λ b : bool, b = true) [bool_decide (is_Some (rq_Site r)); bool_decide (is_Some (rq_App r)); bool_decide (is_Some (rq_DOOH r))]).
Definition validateExactlyOneInventoryType (r : vRequest) : checked_by :=
  match inventory_types r with
  | O => Some "One of request.site or request.app or request.dooh must be defined"
  | S O => None
  | _ => Some "No more than one of request.site or request.app or request.dooh can be defined"
  end.

Definition granularity_message (e : granularity_error) : string :=
  match e with
  | PrecisionRequired => "Price granularity error: precision is required"
  | PrecisionNegative => "Price granularity error: precision must be non-negative"
  | PrecisionTooLarge => "Price granularity error: precision of more than 15 significant figures is not supported"
  | RangesNotIncreasing => "Price granularity error: range list must be ordered with increasing max"
  | IncrementNotPositive => "Price granularity error: increment must be a nonzero positive number"
  end.
Definition check_granularity (pg : option PriceGranularity) : checked_by :=
  match pg with None => None | Some pg => match validatePriceGranularity pg with Some e => Some (granularity_message e) | None => None end end.
Definition validateTargeting (t : option vTargeting) : checked_by :=
  match t with None => None | Some t => check_all check_granularity [vt_PriceGranularity t; vt_Video t; vt_Banner t; vt_Native t] end.
Definition MultiBidWarningCode : Z := 10006.
Definition BidAdjustmentWarningCode : Z := 10008.
Definition InvalidPrivacyConsentWarningCode : Z := 10001.
Definition SecCookieDeprecationLenWarningCode : Z := 10011.
Definition InvalidUserEIDsWarningCode : Z := 10013.
Definition InvalidUserUIDsWarningCode : Z := 10014.
Definition validateRequestExt (r : vRequest) : option (list go_error * vRequest) :=
  match rq_ext r with
  | Err e => Some ([PlainError e], r)
  | Ok None => Some ([], r)
  | Ok (Some prebid) =>
      if match vq_Cache prebid with Some (false, false) => true | _ => false end then
        Some ([PlainError "request.ext is invalid: request.ext.prebid.cache requires one of the bids or vastxml properties"], r)
      else match validateTargeting (vq_Targeting prebid) with
           | Some e => Some ([PlainError e], r)
           | None =>
               '(prebid, errs) ← match vq_MultiBid prebid return option (vPrebid * list go_error) with
                                 | None => Some (prebid, [])
                                 | Some l => '(valid, errs) ← ValidateAndBuildExtMultiBid l;
                                             Some (set_vq_MultiBid (match valid with [] => None | _ => Some (map Some valid) end) prebid, map (λ e, Warning e MultiBidWarningCode) errs)
                                 end;
               if Validate (vq_BidAdjustments prebid) then Some (errs, set_rq_prebid (Some prebid) r)
               else Some (errs ++ [Warning "bid adjustment from request was invalid" BidAdjustmentWarningCode], set_rq_prebid (Some (set_vq_BidAdjustments None prebid)) r)
           end
  end.

Definition validateSite (site : option vSite) : checked_by :=
  match site with
  | None => None
  | Some s =>
      if (vs_ID s =s? "") && (vs_Page s =s? "") then Some "request.site should include at least one of request.site.id or request.site.page."
      else match vs_ext s with
           | Err e => Some e
           | Ok (Some amp) => if (amp <? 0) || (1 <? amp) then Some "request.site.ext.amp must be either 1, 0, or undefined" else None
           | Ok None => None
           end
  end.
Definition validateApp (app : option vApp) : option go_error :=
  match app with
  | None => None
  | Some a =>
      if (vap_ID a ≠s? "") && bool_decide (vap_ID a ∈ ed_BlockedApps deps) then Some (BlockedApp ("Prebid-server does not process requests from App ID: " +:+ vap_ID a))
      else match vap_ext a with Err e => Some (PlainError e) | Ok _ => None end
  end.
Definition validateDOOH (dooh : option vDOOH) : checked_by :=
  match dooh with
  | Some d => if (vd_ID d =s? "") && (vd_VenueType d =? 0)%nat then Some "request.dooh should include at least one of request.dooh.id or request.dooh.venuetype." else None
  | None => None
  end.

(** ** User, regs and device *)
Definition SectionTCFEU2 : Z := 2.
(** The ids of one entry that are kept, and a warning for each other one. *)
Definition validateUIDs (uids : list string) : list string * list go_error :=
  (filter (λ u, u ≠ "") uids, (λ _, Warning "request.user.eids.uids removed due to empty ids" InvalidUserUIDsWarningCode) <$> filter (λ u, u = "") uids).
Fixpoint validateEIDs (eids : list EID) : list EID * list go_error :=
  match eids with
  | [] => ([], [])
  | e :: rest =>
      let '(valid, errs) := validateEIDs rest in
      if eid_Source e =s? "" then (valid, Warning "request.user.eids removed due to missing source" InvalidUserEIDsWarningCode :: errs)
      else
        let '(uids, uidErrs) := validateUIDs (eid_UIDs e) in
        match uids with
        | [] => (valid, uidErrs ++ Warning ("request.user.eids (source: " +:+ eid_Source e +:+ ") removed due to empty uids") InvalidUserEIDsWarningCode :: errs)
        | _ => ({| eid_Source := eid_Source e; eid_UIDs := uids; eid_Inserter := eid_Inserter e; eid_Matcher := eid_Matcher e; eid_MM := eid_MM e |} :: valid, uidErrs ++ errs)
        end
  end.
Definition set_vu_EIDs v (u : vUser) : vUser := {| vu_Accuracy := vu_Accuracy u; vu_Consent := vu_Consent u; vu_EIDs := v; vu_ext := vu_ext u |}.
Definition consent_conflicts (consent : string) (gpp : list (Z * string)) : list go_error :=
  if consent =s? "" then []
  else (λ _, Warning "user.consent GDPR string conflicts with GPP (regs.gpp) GDPR string, using regs.gpp" InvalidPrivacyConsentWarningCode) <$>
       filter (λ s : Z * string, s.1 = SectionTCFEU2 ∧ s.2 ≠ consent) gpp.
Definition check_buyeruids (aliases : gmap string string) (uids : gmap string string) : checked_by :=
  if bool_decide (uids = ∅) then Some "request.user.ext.prebid requires a buyeruids property with at least one ID defined."
  else check_all (λ kv : string * string, if negb (bool_decide (core_name kv.1 ∈ bidderMap)) && negb (bool_decide (kv.1 ∈ dom aliases))
                                          then Some ("request.user.ext." +:+ kv.1 +:+ " is neither a known bidder name nor an alias in request.ext.prebid.aliases") else None) (map_range uids).
Definition validateUser (user : option vUser) (aliases : gmap string string) (gpp : list (Z * string)) : list go_error * option vUser :=
  match user with
  | None => ([], None)
  | Some u =>
      if negative (vu_Accuracy u) then ([PlainError "request.user.geo.accuracy must be a positive number"], user)
      else
        let errL := consent_conflicts (vu_Consent u) gpp in
        match vu_ext u with
        | Err e => (errL ++ [PlainError ("request.user.ext object is not valid: " +:+ e)], user)
        | Ok prebid =>
            match match prebid with Some uids => check_buyeruids aliases uids | None => None end with
            | Some e => (errL ++ [PlainError e], user)
            | None =>
                match vu_EIDs u with
                | [] => (errL, user)
                | eids => let '(valid, errs) := validateEIDs eids in (errL ++ errs, Some (set_vu_EIDs valid u))
                end
            end
        end
  end.
Definition validateRegs (regs : option vRegs) : list go_error :=
  match regs with
  | None => []
  | Some g =>
      let conflict := match vr_GDPR g, vr_GPPSID g with
                      | Some v, Some sids => if (if existsb (Z.eqb SectionTCFEU2) sids then 1 else 0) =? v then [] else
                          [Warning "regs.gdpr signal conflicts with GPP (regs.gpp_sid) and will be ignored" InvalidPrivacyConsentWarningCode]
                      | _, _ => []
                      end in
      match vr_GDPR g with
      | Some v => if negb (v =? 0) && negb (v =? 1) then conflict ++ [PlainError "request.regs.gdpr must be either 0 or 1"] else conflict
      | None => conflict
      end
  end.
Definition validateDevice (device : option vDevice) : checked_by :=
  match device with
  | None => None
  | Some d => first_error [(vdv_W d <? 0, "request.device.w must be a positive number"); (vdv_H d <? 0, "request.device.h must be a positive number");
                           (vdv_PPI d <? 0, "request.device.ppi must be a positive number"); (negative (vdv_Accuracy d), "request.device.geo.accuracy must be a positive number")]
  end.
Definition set_vdv_ext v (d : vDevice) : vDevice := {| vdv_W := vdv_W d; vdv_H := vdv_H d; vdv_PPI := vdv_PPI d; vdv_Accuracy := vdv_Accuracy d; vdv_ext := Ok v |}.
(** [header] is Sec-Cookie-Deprecation.  A device that is absent has an empty extension, which is made into a device when it is set. *)
Definition empty_vDevice : vDevice := {| vdv_W := 0; vdv_H := 0; vdv_PPI := 0; vdv_Accuracy := None; vdv_ext := Ok "" |}.
Definition validateOrFillCookieDeprecation (enabled : bool) (header : string) (device : option vDevice) : list go_error * option vDevice :=
  if negb enabled then ([], device)
  else match vdv_ext (default empty_vDevice device) with
       | Err e => ([PlainError e], device)
       | Ok cdep =>
           if (cdep ≠s? "") || (header =s? "") then ([], device)
           else if (100 <? String.length header)%nat then ([Warning "request.device.ext.cdep must not exceed 100 characters" SecCookieDeprecationLenWarningCode], device)
           else ([], Some (set_vdv_ext header (default empty_vDevice device)))
       end.

(** ** CCPA *)
Definition ccpa_view (r : vRequest) : ccpa_request :=
  {| cq_Regs := (λ g, (vr_USPrivacy g, default [] (vr_GPPSID g))) <$> rq_Regs r;
     cq_NoSale := match rq_ext r with Err _ => None | Ok prebid => Some (vq_NoSale <$> prebid) end |}.
Definition is_consent_error (e : ccpa_error) : bool := match e with C_length | C_version | C_notice | C_optOut | C_lspa => true | _ => false end.
Definition set_vr_ext v (g : vRegs) : vRegs :=
  {| vr_GDPR := vr_GDPR g; vr_GPPSID := vr_GPPSID g; vr_GPP := vr_GPP g; vr_USPrivacy := vr_USPrivacy g; vr_ext := Ok v |}.
(** The errors, whether validation ends, and the request.  Only the extension of regs is cleared. *)
Definition check_ccpa (aliases : gmap string string) (gpp : list (Z * string)) (r : vRequest) : list go_error * bool * vRequest :=
  match ccpa_ReadFromRequestWrapper (ccpa_view r) gpp with
  | (_, Some C_requestExt) => ([PlainError "error reading request.ext"], true, r)
  | (_, Some _) => ([Warning "regs.us_privacy consent does not match uspv1 in GPP, using regs.gpp" InvalidPrivacyConsentWarningCode], false, r)
  | (policy, None) =>
      match ccpa_Parse policy (GetValidBidders coreBidders aliases) with
      | Ok _ => ([], false, r)
      | Err e =>
          if is_consent_error e then
            let w := Warning "CCPA consent is invalid and will be ignored." InvalidPrivacyConsentWarningCode in
            match rq_Regs r with
            | Some g => match vr_ext g with
                        | Err e => ([w; PlainError e], true, r)
                        | Ok _ => ([w], false, set_rq_Regs (Some (set_vr_ext "" g)) r)
                        end
            | None => ([w], false, r)
            end
          else ([PlainError "request.ext.prebid.nosale is invalid"], true, r)
      end
  end.

(** ** Transaction ids *)
Definition missing_tid (renew : bool) (tid : string) : bool := (tid =s? "") || (tid =s? "{{UUID}}") || renew.
Definition set_vi_ext (x : vImpExt) (filled : bool) (i : vImp) : vImp :=
  {| vi_ID := vi_ID i; vi_Metric := vi_Metric i; vi_Banner := vi_Banner i; vi_Video := vi_Video i; vi_Audio := vi_Audio i; vi_Native := vi_Native i;
     vi_PMP := vi_PMP i; vi_Instl := vi_Instl i; vi_hasExt := filled || vi_hasExt i; vi_ext := Ok x |}.
(** The error of decoding is dropped, and what was decoded is then used: later readers see no error. *)
Definition fill_imp_tid (renew : bool) (uuid : option string) (w : wImp) : option wImp :=
  let '(x, tid) := match vi_ext (wi_imp w) with Ok x => (x, wi_tid w) | Err _ => wi_partial w end in
  if missing_tid renew tid then u ← uuid; Some {| wi_imp := set_vi_ext x true (wi_imp w); wi_tid := u; wi_partial := wi_partial w |}
  else Some {| wi_imp := set_vi_ext x false (wi_imp w); wi_tid := tid; wi_partial := wi_partial w |}.
Fixpoint fill_imp_tids (renew : bool) (newUUID : nat → option string) (i : nat) (imps : list wImp) : option (list wImp) :=
  match imps with [] => Some [] | w :: rest => w ← fill_imp_tid renew (newUUID i) w; rest ← fill_imp_tids renew newUUID (S i) rest; Some (w :: rest) end.
(** [newUUID n] is the id drawn for the source (0) or for an impression. *)
Definition validateAndFillSourceTID (newUUID : nat → option string) (hasStoredBidRequest isAmp : bool) (r : vRequest) : result string vRequest :=
  let renew := ed_GenerateRequestID deps && (isAmp || hasStoredBidRequest) in
  match (if missing_tid renew (default "" (rq_Source r)) then newUUID 0%nat else rq_Source r) with
  | None => Err "error creating a random UUID for source.tid"
  | Some tid => match fill_imp_tids renew newUUID 1 (rq_Imp r) with
                | None => Err "imp.ext.tid missing in the imp and error creating a random UID"
                | Some imps => Ok (set_rq_tids tid imps r)
                end
  end.

(** ** Impressions.  The errors so far, whether validation ended, and the impressions. *)
Definition set_wi_imp i (w : wImp) : wImp := {| wi_imp := i; wi_tid := wi_tid w; wi_partial := wi_partial w |}.
Fixpoint imp_loop (aliases : gmap string string) (hasStored : bool) (stored : option (gmap string (list string))) (seen : gset string) (imps : list wImp) : list go_error * list wImp :=
  match imps with
  | [] => ([], [])
  | w :: rest =>
      let dup := if bool_decide (vi_ID (wi_imp w) ∈ seen) then [PlainError ("request.imp.id is used twice: " +:+ vi_ID (wi_imp w) +:+ ". Imp IDs must be unique.")] else [] in
      let '(errs, i) := ValidateImp (ed_validator deps) {| vc_SkipBidderParams := false; vc_SkipNative := false |} aliases hasStored stored (wi_imp w) in
      if ContainsFatalError errs then (dup ++ errs, set_wi_imp i w :: rest)
      else let '(more, rest) := imp_loop aliases hasStored stored ({[vi_ID (wi_imp w)]} ∪ seen) rest in (dup ++ errs ++ more, set_wi_imp i w :: rest)
  end.

(** ** The whole request.  [gppParse] is the sections of a GPP string and whether it has errors. *)
Record vContext := {
  cx_isAmp : bool; cx_hasStoredAuctionResponses : bool; cx_storedBidResp : option (gmap string (list string)); cx_hasStoredBidRequest : bool;
  cx_cookieDeprecation : bool; cx_header : string; cx_newUUID : nat → option string; cx_gppParse : string → list (Z * string) * bool
}.
Definition stop_on (e : checked_by) (errL : list go_error) (r : vRequest) (k : option (list go_error * vRequest)) : option (list go_error * vRequest) :=
  match e with Some m => Some (errL ++ [PlainError m], r) | None => k end.
(** [request.ext.prebid]: the aliases become core bidders. *)
Definition validatePrebid (prebid : vPrebid) : option (result string vPrebid) :=
  match validateAliases (vq_Aliases prebid) with
  | Err e => Some (Err e)
  | Ok aliases =>
      match and_then (validateAliasesGVLIDs (vq_AliasGVLIDs prebid) aliases) (validateBidAdjustmentFactors (vq_BidAdjustmentFactors prebid) aliases) with
      | Some e => Some (Err e)
      | None =>
          schains ← validateSChains (vq_SChains prebid);
          match and_then schains (and_then (validateEidPermissions (vq_EidPermissions prebid) aliases) (ValidateCustomRates (vq_CurrencyConversions prebid))) with
          | Some e => Some (Err e)
          | None => Some (Ok (set_vq_Aliases aliases prebid))
          end
      end
  end.
Definition gpp_of (cx : vContext) (r : vRequest) : list (Z * string) * list go_error :=
  match rq_Regs r with
  | Some g => if vr_GPP g =s? "" then ([], []) else
      let '(sections, bad) := cx_gppParse cx (vr_GPP g) in
      (sections, if bad : bool then [Warning "GPP consent string is invalid and will be ignored." InvalidPrivacyConsentWarningCode] else [])
  | None => ([], [])
  end.
(** From the check of [request.ext] on, with the errors so far. *)
Definition validate_parts (cx : vContext) (aliases : gmap string string) (errL : list go_error) (r : vRequest) : option (list go_error * vRequest) :=
  '(errs, r) ← validateRequestExt r;
  let errL := errL ++ errs in
  if ContainsFatalError errs then Some (errL, r)
  else
    stop_on (validateSite (rq_Site r)) errL r
    (match validateApp (rq_App r) with
     | Some e => Some (errL ++ [e], r)
     | None =>
        stop_on (validateDOOH (rq_DOOH r)) errL r
        (let '(gpp, gppErrs) := gpp_of cx r in
         let '(userErrs, user) := validateUser (rq_User r) aliases gpp in
         let r := set_rq_User user r in
         let errL := errL ++ gppErrs ++ userErrs in
         if ContainsFatalError userErrs then Some (errL, r)
         else
           let errL := errL ++ validateRegs (rq_Regs r) in
           if ContainsFatalError (validateRegs (rq_Regs r)) then Some (errL, r)
           else stop_on (validateDevice (rq_Device r)) errL r
             (let '(cdErrs, device) := validateOrFillCookieDeprecation (cx_cookieDeprecation cx) (cx_header cx) (rq_Device r) in
              let '(ccpaErrs, ended, r) := check_ccpa aliases gpp (set_rq_Device device r) in
              let errL := errL ++ cdErrs ++ ccpaErrs in
              if ended : bool then Some (errL, r)
              else let '(impErrs, imps) := imp_loop aliases (cx_hasStoredAuctionResponses cx) (cx_storedBidResp cx) ∅ (rq_Imp r) in
                   Some (errL ++ impErrs, set_rq_Imp imps r)))
     end).
Definition validateRequest (cx : vContext) (r : vRequest) : option (list go_error * vRequest) :=
  if rq_ID r =s? "" then Some ([PlainError "request missing required field: id"], r)
  else if rq_TMax r <? 0 then Some ([PlainError "request.tmax must be nonnegative."], r)
  else if (length (rq_Imp r) <? 1)%nat then Some ([PlainError "request.imp must contain at least one element."], r)
  else
    let errL := if (1 <? length (rq_Cur r))%nat then [Warning "A prebid request can only process one currency." 0] else [] in
    let r := set_rq_Cur (take 1 (rq_Cur r)) r in
    match (if ed_AutoGenSourceTID deps then validateAndFillSourceTID (cx_newUUID cx) (cx_hasStoredBidRequest cx) (cx_isAmp cx) r else Ok r) with
    | Err e => Some ([PlainError e], r)
    | Ok r =>
        match rq_ext r with
        | Err e => Some ([PlainError ("request.ext is invalid: " +:+ e)], r)
        | Ok prebid =>
            checked ← match prebid with None => Some (Ok None) | Some p => x ← validatePrebid p; Some (match x with Ok p => Ok (Some p) | Err e => Err e end) end;
            match checked with
            | Err e => Some ([PlainError e], r)
            | Ok prebid =>
                let aliases := match prebid with Some p => vq_Aliases p | None => ∅ end in
                match validateOrFillChannel (cx_isAmp cx) (set_rq_prebid prebid r) with
                | Err e => Some ([PlainError e], r)
                | Ok r => stop_on (validateExactlyOneInventoryType r) [] r (validate_parts cx aliases errL r)
                end
            end
        end
    end.
End validate.
