(* ===== verification/ValidateRequestSpec.v ===== *)
(** * What validation of requests guarantees

    A request that is not refused is well formed, for every order of the maps; which entries of the
    multibid list and of the external ids are left; when validation panics. *)
From S2P Require Import Prelude GoStrings GoFloat Currency BidAdjustment PriceGranularity Privacy ExtWrapper RequestParts ErrorTypes Validate ValidateSpec ValidateRequest.

(** ** Multibid lists *)
(** The bidders an entry is for. *)
Definition mb_names (m : vMultiBid) : list string := if vm_Bidder m =s? "" then default [] (vm_Bidders m) else [vm_Bidder m].
Definition multibid_ok (m : vMultiBid) : Prop := mb_names m ≠ [] ∧ ∃ n, vm_MaxBids m = Some n ∧ DefaultBidLimit ≤ n ≤ MaxBidLimit.
Lemma new_bidders_spec l : ∀ seen seen' new errs, new_bidders seen l = (seen', new, errs) →
  NoDup new ∧ (∀ b, b ∈ new → b ∉ seen) ∧ seen' = list_to_set new ∪ seen.
Proof.
  induction l as [|b l IH]; intros seen seen' new errs; cbn [new_bidders].
  { intros [= <- <- <-]. split; [constructor|]. split; [set_solver|]. cbn. set_solver. }
  case_bool_decide as Hb; destruct (new_bidders _ l) as [[s n] e] eqn:E; intros [= <- <- <-]; apply IH in E as (Hnd & Hf & ->).
  - done.
  - split; [constructor; [|done]; intros Hin; apply Hf in Hin; set_solver|]. split; [intros c [->|Hc]%elem_of_cons; [done|apply Hf in Hc; set_solver]|]. cbn. set_solver.
Qed.
Lemma addMultiBid_spec seen m seen' new errs : addMultiBid seen m = (seen', new, errs) →
  Forall multibid_ok new ∧ NoDup (new ≫= mb_names) ∧ (∀ b, b ∈ new ≫= mb_names → b ∉ seen) ∧ seen' = list_to_set (new ≫= mb_names) ∪ seen.
Proof.
  assert (∀ s : gset string, s = list_to_set [] ∪ s) as He by (intros; cbn; set_solver).
  assert (∀ b : string, b ∉ @nil string) as Hn by (intros ? ?%elem_of_nil; done).
  unfold addMultiBid. destruct (vm_MaxBids m) as [max|]; [|intros [= <- <- <-]; split_and!; [done|constructor|set_solver|apply He]].
  destruct (if max <? DefaultBidLimit then _ else _) as [n es] eqn:El.
  assert (DefaultBidLimit ≤ n ≤ MaxBidLimit) as Hl by (unfold DefaultBidLimit, MaxBidLimit in *; destruct (Z.ltb_spec max 1); [injection El; lia|]; destruct (Z.ltb_spec 9 max); injection El; lia).
  cbn [vm_Bidder vm_Bidders vm_TargetBidderCodePrefix set_vm_MaxBids]. destruct (vm_Bidder m =s? "") eqn:Eb; cbn [negb].
  - destruct (default [] (vm_Bidders m)) as [|b0 bs]; [intros [= <- <- <-]; split_and!; [done|constructor|set_solver|apply He]|].
    destruct (new_bidders seen (b0 :: bs)) as [[s nw] ds] eqn:En. apply new_bidders_spec in En as (Hnd & Hf & ->).
    destruct nw as [|c cs]; intros [= <- <- <-]; [split_and!; [done|constructor|set_solver|done]|].
    cbn [mbind list_bind]. rewrite app_nil_r. split_and!; try done. constructor; [|done]. split; [done|]. by exists n.
  - case_bool_decide as Hin; intros [= <- <- <-]; [split_and!; [done|constructor|set_solver|apply He]|].
    cbn [mbind list_bind]. rewrite app_nil_r. unfold mb_names. cbn [clear_vm_Bidders set_vm_MaxBids vm_Bidder]. rewrite Eb.
    split_and!; [|apply NoDup_singleton|set_solver|cbn; set_solver]. constructor; [|done]. unfold multibid_ok, mb_names. cbn. rewrite Eb. split; [done|]. by exists n.
Qed.
Lemma build_multibids_spec l : ∀ seen new errs, build_multibids seen l = Some (new, errs) →
  Forall multibid_ok new ∧ NoDup (new ≫= mb_names) ∧ (∀ b, b ∈ new ≫= mb_names → b ∉ seen).
Proof.
  induction l as [|[m|] l IH]; intros seen new errs; cbn [build_multibids]; [intros [= <- <-]; split_and!; [done|constructor|set_solver]| |done].
  destruct (addMultiBid seen m) as [[s nw] es] eqn:Ea. apply addMultiBid_spec in Ea as (Hok & Hnd & Hf & ->).
  destruct (build_multibids _ l) as [[more es']|] eqn:Eb; [|done]. intros [= <- <-]. apply IH in Eb as (Hok' & Hnd' & Hf').
  rewrite bind_app. split_and!; [by apply Forall_app| |intros b [Hb|Hb]%elem_of_app; [by apply Hf|apply Hf' in Hb; set_solver]].
  apply NoDup_app. split; [done|]. split; [|done]. intros b Hb Hb'. apply Hf' in Hb'. set_solver.
Qed.
Lemma build_multibids_total l : (build_multibids ∅ l = None ↔ None ∈ l).
Proof.
  generalize (∅ : gset string). induction l as [|[m|] l IH]; intros seen; cbn [build_multibids]; [set_solver| |set_solver].
  destruct (addMultiBid seen m) as [[s nw] es]. specialize (IH s). destruct (build_multibids s l) as [[more es']|]; cbn; [|set_solver]. split; [done|]. intros [?|Hin]%elem_of_cons; [done|]. by apply IH in Hin.
Qed.

(** ** External ids *)
Definition eid_ok (e : EID) : Prop := eid_Source e ≠ "" ∧ eid_UIDs e ≠ [] ∧ Forall (λ u, u ≠ "") (eid_UIDs e).
(** What is left of an entry. *)
Definition trim_eid (e : EID) : EID :=
  {| eid_Source := eid_Source e; eid_UIDs := filter (λ u, u ≠ "") (eid_UIDs e); eid_Inserter := eid_Inserter e; eid_Matcher := eid_Matcher e; eid_MM := eid_MM e |}.
Lemma ContainsFatalError_app a b : ContainsFatalError (a ++ b) = ContainsFatalError a || ContainsFatalError b.
Proof. apply existsb_app. Qed.
Lemma warnings_not_fatal {A} m code (l : list A) : ContainsFatalError ((λ _, Warning m code) <$> l) = false.
Proof. by induction l. Qed.
(** Exactly the entries with a source and an id are left, without their empty ids, and nothing is fatal. *)
Lemma validateEIDs_spec eids :
  (validateEIDs eids).1 = trim_eid <$> filter (λ e, eid_Source e ≠ "" ∧ Exists (λ u, u ≠ "") (eid_UIDs e)) eids ∧ ContainsFatalError (validateEIDs eids).2 = false.
Proof.
  induction eids as [|e eids [IH1 IH2]]; [done|]. cbn [validateEIDs]. destruct (validateEIDs eids) as [valid errs]. simpl in IH1, IH2. rewrite filter_cons.
  destruct (String.eqb_spec (eid_Source e) "") as [Hs|Hs]; [rewrite decide_False by tauto; by split|]. unfold validateUIDs.
  assert (filter (λ u, u ≠ "") (eid_UIDs e) = [] ↔ ¬ Exists (λ u, u ≠ "") (eid_UIDs e)) as Hf.
  { rewrite Exists_exists. split; [intros Hf (u & Hin & Hu); assert (u ∈ filter (λ u, u ≠ "") (eid_UIDs e)) as Hx by (by apply list_elem_of_filter); rewrite Hf in Hx; by apply elem_of_nil in Hx|].
    intros Hn. destruct (filter (λ u, u ≠ "") (eid_UIDs e)) as [|u us] eqn:E; [reflexivity|]. exfalso. apply Hn. exists u. assert (u ∈ u :: us) as Hx by left. rewrite <-E in Hx. apply list_elem_of_filter in Hx. tauto. }
  destruct (filter _ (eid_UIDs e)) as [|u us] eqn:E; simpl.
  - rewrite decide_False by tauto. split; [done|]. by rewrite ContainsFatalError_app, warnings_not_fatal.
  - rewrite decide_True. 2: { split; [done|]. destruct (decide (Exists (λ u, u ≠ "") (eid_UIDs e))) as [?|Hn]; [done|]. by apply Hf in Hn. }
    rewrite ContainsFatalError_app, warnings_not_fatal, fmap_cons, IH1. split; [|done]. f_equal. unfold trim_eid. by rewrite E.
Qed.
Lemma validateEIDs_ok eids : Forall eid_ok (validateEIDs eids).1.
Proof.
  destruct (validateEIDs_spec eids) as [-> _]. apply Forall_fmap, Forall_forall. intros e [[Hs (u & Hu & Hne)%Exists_exists] _]%list_elem_of_filter. cbn. split_and!; [done| |].
  - intros E. assert (u ∈ eid_UIDs (trim_eid e)) as Hx by (cbn; by apply list_elem_of_filter). rewrite E in Hx. by apply elem_of_nil in Hx.
  - apply Forall_forall. by intros x [? _]%list_elem_of_filter.
Qed.

(** ** Whole requests *)
Section spec.
Context {IS : ISO} {MR : MapRange} {NT : NativeTypes} (deps : endpointDeps).
Implicit Types r : vRequest.
Definition alias_ok (alias core : string) : Prop :=
  core ∈ rv_bidderMap (ed_validator deps) ∧ rv_disabledBidders (ed_validator deps) !! core = None ∧ alias ≠ core.
Lemma alias_loop_spec l : ∀ aliases out, NoDup l.*1 → alias_loop deps l aliases = Ok out →
  ∀ k, out !! k = match list_to_map (M := gmap string string) l !! k with Some b => Some (core_name deps b) | None => aliases !! k end ∧
       (∀ b, list_to_map (M := gmap string string) l !! k = Some b → alias_ok k (core_name deps b)).
Proof.
  induction l as [|[a b] l IH]; intros aliases out Hnd; cbn [alias_loop].
  { intros [= <-] k. cbn. rewrite lookup_empty. by split. }
  rewrite fmap_cons in Hnd. apply NoDup_cons in Hnd as [Ha Hnd]. cbn in Ha.
  destruct (_ !! core_name deps b) as [msg|] eqn:Ed; [done|]. case_bool_decide as Hb; [cbn [negb]|done].
  destruct (String.eqb_spec a (core_name deps b)) as [|Hne]; [done|]. intros Hl k. specialize (IH _ _ Hnd Hl k) as [IH1 IH2]. cbn.
  destruct (decide (k = a)) as [->|Hk]; [|rewrite lookup_insert_ne by done; rewrite lookup_insert_ne in IH1 by done; done].
  rewrite lookup_insert_eq. assert (list_to_map (M := gmap string string) l !! a = None) as En by by apply not_elem_of_list_to_map_1.
  rewrite En in IH1. rewrite lookup_insert_eq in IH1. split; [done|]. intros b' [= <-]. by split.
Qed.
Lemma validateAliases_ok aliases out : validateAliases deps aliases = Ok out → out = core_name deps <$> aliases ∧ map_Forall alias_ok out.
Proof.
  intros Hl. pose proof (alias_loop_spec _ _ _ (NoDup_map_range_fst aliases) Hl) as Hs.
  assert (out = core_name deps <$> aliases) as E.
  { apply map_eq. intros k. destruct (Hs k) as [-> _]. rewrite map_range_map, lookup_fmap. by destruct (aliases !! k). }
  split; [done|]. intros k c. rewrite E, lookup_fmap. destruct (aliases !! k) as [b|] eqn:Eb; [|done]. intros [= <-]. apply (proj2 (Hs k)). by rewrite map_range_map.
Qed.

Definition user_ok (u : vUser) : Prop := (∀ a, vu_Accuracy u = Some a → 0 ≤ a) ∧ Forall eid_ok (vu_EIDs u) ∧ is_ok (vu_ext u) = true.
Lemma validateUser_ok u aliases gpp errs u' : validateUser deps u aliases gpp = (errs, u') → ContainsFatalError errs = false →
  ∀ x, u' = Some x → user_ok x.
Proof.
  unfold validateUser. destruct u as [u|]; [|by intros [= <- <-]]. destruct (negative _) eqn:Ea; [by intros [= <- <-]|].
  destruct (vu_ext u) as [prebid|e] eqn:Ex; [|intros [= <- <-]; by rewrite ContainsFatalError_snoc].
  destruct (match prebid with Some _ => _ | None => _ end); [intros [= <- <-]; by rewrite ContainsFatalError_snoc|].
  pose proof (proj1 (negative_false _) Ea) as Ha. destruct (vu_EIDs u) as [|e0 es] eqn:Ee.
  - intros [= <- <-] _ x [= <-]. split_and!; [done|rewrite Ee; constructor|by rewrite Ex].
  - pose proof (validateEIDs_ok (e0 :: es)) as Hv. destruct (validateEIDs (e0 :: es)) as [valid es']. intros [= <- <-] _ x [= <-]. split_and!; [done|done|cbn; by rewrite Ex].
Qed.
Definition regs_ok (g : vRegs) : Prop := ∀ v, vr_GDPR g = Some v → v = 0 ∨ v = 1.
Lemma validateRegs_ok g : ContainsFatalError (validateRegs (Some g)) = false → regs_ok g.
Proof.
  unfold validateRegs, regs_ok. intros Hf v Ev. rewrite Ev in Hf. destruct (negb (v =? 0) && negb (v =? 1)) eqn:E; [by rewrite ContainsFatalError_snoc in Hf|].
  destruct (Z.eqb_spec v 0); [by left|]. destruct (Z.eqb_spec v 1); [by right|done].
Qed.
Definition device_ok (d : vDevice) : Prop := 0 ≤ vdv_W d ∧ 0 ≤ vdv_H d ∧ 0 ≤ vdv_PPI d ∧ ∀ a, vdv_Accuracy d = Some a → 0 ≤ a.
Lemma validateDevice_iff d : validateDevice (Some d) = None ↔ device_ok d.
Proof. unfold validateDevice, device_ok. rewrite first_error_None, !Forall_cons. cbn [fst]. rewrite negative_false, !Z.ltb_ge. naive_solver. Qed.
Lemma cookie_deprecation_ok enabled header d errs d' : validateOrFillCookieDeprecation enabled header d = (errs, d') →
  (∀ x, d = Some x → device_ok x) → ∀ x, d' = Some x → device_ok x.
Proof.
  unfold validateOrFillCookieDeprecation. intros Hv Hd.
  assert (d' = d ∨ d' = Some (set_vdv_ext header (default empty_vDevice d))) as [->| ->] by (repeat go_destruct_in Hv; injection Hv as <- <-; tauto); [done|].
  intros x [= <-]. destruct d as [d|]; [exact (Hd d eq_refl)|]. by unfold device_ok; cbn; split_and!.
Qed.

Lemma imp_loop_ok aliases hasStored stored imps : ∀ seen errs imps', imp_loop deps aliases hasStored stored seen imps = (errs, imps') → ContainsFatalError errs = false →
  vi_ID <$> (wi_imp <$> imps') = vi_ID <$> (wi_imp <$> imps) ∧ NoDup (vi_ID <$> (wi_imp <$> imps)) ∧ (∀ i, i ∈ vi_ID <$> (wi_imp <$> imps) → i ∉ seen) ∧
  Forall (λ w, imp_ok (ed_validator deps) {| vc_SkipBidderParams := false; vc_SkipNative := false |} aliases (wi_imp w)) imps'.
Proof.
  induction imps as [|w imps IH]; intros seen errs imps'; cbn [imp_loop]; [intros [= <- <-] _; split_and!; [done|constructor|set_solver|done]|].
  destruct (ValidateImp _ _ _ _ _ _) as [es i] eqn:Ei. destruct (ContainsFatalError es) eqn:Ef.
  { intros [= <- <-]. by rewrite ContainsFatalError_app, Ef, orb_true_r. }
  destruct (imp_loop _ _ _ _ _ imps) as [more rest] eqn:El. intros [= <- <-]. rewrite !ContainsFatalError_app, Ef. case_bool_decide as Hin; [done|]. cbn [orb ContainsFatalError existsb].
  intros Hm. apply IH in El as (Hids & Hnd & Hf & Hok); [|done]. apply ValidateImp_ok in Ei as [Hi Eid]; [|done]. rewrite !fmap_cons, Hids. cbn [wi_imp set_wi_imp]. rewrite Eid.
  split_and!; [done| | |by constructor].
  - constructor; [|done]. intros H. apply Hf in H. set_solver.
  - intros j [->|Hj]%elem_of_cons; [done|]. apply Hf in Hj. set_solver.
Qed.

(** [request.ext.prebid] *)
Definition permissions_ok (l : list EidPermission) : Prop := NoDup (ep_Source <$> l) ∧ Forall (λ e, ep_Source e ≠ "" ∧ ep_Bidders e ≠ []) l.
Lemma permission_loop_ok aliases l : ∀ seen, permission_loop deps aliases l seen = None → permissions_ok l ∧ ∀ s, s ∈ ep_Source <$> l → s ∉ seen.
Proof.
  induction l as [|e l IH]; intros seen; cbn [permission_loop]; [split; [split; constructor|set_solver]|].
  destruct (String.eqb_spec (ep_Source e) ""); [done|]. case_bool_decide as Hin; [done|]. destruct (Nat.eqb_spec (length (ep_Bidders e)) 0) as [|Hl]; [done|].
  intros [_ Hr]%and_then_None. apply IH in Hr as [[Hnd Hf] Hs]. unfold permissions_ok. rewrite fmap_cons. split_and!.
  - constructor; [|done]. intros H. apply Hs in H. set_solver.
  - constructor; [|done]. split; [done|]. by intros E; rewrite E in Hl.
  - intros s [->|H]%elem_of_cons; [done|]. apply Hs in H. set_solver.
Qed.
Definition targeting_ok (t : vTargeting) : Prop :=
  ∀ pg, Some pg ∈ [vt_PriceGranularity t; vt_Video t; vt_Banner t; vt_Native t] → validatePriceGranularity pg = None.
Lemma validateTargeting_ok t : validateTargeting (Some t) = None → targeting_ok t.
Proof.
  unfold validateTargeting. intros Ht pg Hin. apply check_all_None in Ht. rewrite Forall_forall in Ht. specialize (Ht _ Hin). unfold check_granularity in Ht.
  by destruct (validatePriceGranularity pg).
Qed.
Record prebid_ok (p : vPrebid) : Prop := {
  po_aliases : map_Forall alias_ok (vq_Aliases p);
  po_permissions : ∀ l, vq_EidPermissions p = Some l → permissions_ok l;
  po_channel : vq_Channel p ≠ Some "";
  po_targeting : ∀ t, vq_Targeting p = Some t → targeting_ok t;
  po_multibid : ∀ l, vq_MultiBid p = Some l → ∃ l', l = map Some l' ∧ Forall multibid_ok l' ∧ NoDup (l' ≫= mb_names);
  po_adjustments : Validate (vq_BidAdjustments p) = true
}.
Lemma validatePrebid_ok p p' : validatePrebid deps p = Some (Ok p') →
  ∃ a, p' = set_vq_Aliases a p ∧ map_Forall alias_ok a ∧ ∀ l, vq_EidPermissions p = Some l → permissions_ok l.
Proof.
  unfold validatePrebid. destruct (validateAliases deps _) as [a|e] eqn:Ea; [|done]. destruct (and_then _ _); [done|].
  destruct (validateSChains _) as [sc|]; [|done]. cbn [mbind option_bind]. destruct (and_then sc _) as [|] eqn:Es; [done|]. intros [= <-]. apply and_then_None_3 in Es as (_ & Hp & _).
  apply validateAliases_ok in Ea as [_ Ha]. exists a. split_and!; [done|done|]. intros l El. unfold validateEidPermissions in Hp. rewrite El in Hp. by apply permission_loop_ok in Hp as [? _].
Qed.
Lemma validateRequestExt_ok r errs r' : validateRequestExt r = Some (errs, r') → ContainsFatalError errs = false →
  (rq_ext r = Ok None ∧ r' = r) ∨
  ∃ p p', rq_ext r = Ok (Some p) ∧ r' = set_rq_prebid (Some p') r ∧ vq_Aliases p' = vq_Aliases p ∧
    (map_Forall alias_ok (vq_Aliases p) → (∀ l, vq_EidPermissions p = Some l → permissions_ok l) → vq_Channel p ≠ Some "" → prebid_ok p').
Proof.
  unfold validateRequestExt. destruct (rq_ext r) as [[p|]|e]; [|by intros [= <- <-]; left|by intros [= <- <-]].
  destruct (match vq_Cache p with Some _ => _ | None => _ end); [by intros [= <- <-]|]. destruct (validateTargeting _) as [e|] eqn:Et; [by intros [= <- <-]|].
  intros Hv _. right. exists p.
  assert (∃ p1, (p1 = p ∧ vq_MultiBid p = None ∨ (∃ l, (∃ l', l = match l' with [] => None | _ => Some (map Some l') end ∧ Forall multibid_ok l' ∧ NoDup (l' ≫= mb_names)) ∧ p1 = set_vq_MultiBid l p)) ∧
      r' = set_rq_prebid (Some (if Validate (vq_BidAdjustments p1) then p1 else set_vq_BidAdjustments None p1)) r) as (p1 & Hp1 & ->).
  { destruct (vq_MultiBid p) as [l|] eqn:El; cbn [mbind option_bind] in Hv.
    - destruct (ValidateAndBuildExtMultiBid l) as [[valid es]|] eqn:Eb; [|done]. cbn [mbind option_bind] in Hv. apply build_multibids_spec in Eb as (Hok & Hnd & _).
      eexists (set_vq_MultiBid _ p). split; [right; eexists; split; [|done]; by exists valid|]. by destruct (Validate _); injection Hv as <- <-.
    - exists p. split; [by left|]. by destruct (Validate _); injection Hv as <- <-. }
  eexists. split_and!; [done|done|destruct Hp1 as [[-> _]|(l & _ & ->)]; by destruct (Validate _)|].
  intros Ha Hperm Hch. assert (∀ l, vq_MultiBid p1 = Some l → ∃ l', l = map Some l' ∧ Forall multibid_ok l' ∧ NoDup (l' ≫= mb_names)) as Hm.
  { destruct Hp1 as [[-> En]|(l & (l' & -> & Hok & Hnd) & ->)]; intros x; [by rewrite En|]. cbn. destruct l' as [|m l']; [done|]. intros [= <-]. by exists (m :: l'). }
  assert (∀ t, vq_Targeting p = Some t → targeting_ok t) as Ht by (intros t E; rewrite E in Et; by apply validateTargeting_ok).
  destruct (Validate (vq_BidAdjustments p1)) eqn:Ev; destruct Hp1 as [[-> En]|(l & _ & ->)]; by split.
Qed.

Definition site_ok (x : vSite) : Prop := (vs_ID x ≠ "" ∨ vs_Page x ≠ "") ∧ ∃ amp, vs_ext x = Ok amp ∧ ∀ v, amp = Some v → v = 0 ∨ v = 1.
Lemma validateSite_ok x : validateSite (Some x) = None → site_ok x.
Proof.
  unfold validateSite, site_ok. destruct (String.eqb_spec (vs_ID x) ""), (String.eqb_spec (vs_Page x) ""); cbn [andb]; try done;
    (destruct (vs_ext x) as [[amp|]|]; [destruct ((amp <? 0) || (1 <? amp)) eqn:E; [done|]| |done]; (split; [tauto|]; eexists; split; [done|]; intros v; intros [= ->] || done; apply orb_false_iff in E as [?%Z.ltb_ge ?%Z.ltb_ge]; lia)).
Qed.
(** The members of the extension the checks give their guarantees about, and the aliases in force. *)
Definition aliases_of (r : vRequest) : gmap string string := match rq_ext r with Ok (Some p) => vq_Aliases p | _ => ∅ end.
Record request_ok (r : vRequest) : Prop := {
  ro_ID : rq_ID r ≠ "";
  ro_TMax : 0 ≤ rq_TMax r;
  ro_Cur : (length (rq_Cur r) ≤ 1)%nat;
  ro_inventory : inventory_types r = 1%nat;
  ro_ext : ∃ p, rq_ext r = Ok p ∧ ∀ x, p = Some x → prebid_ok x;
  ro_site : ∀ x, rq_Site r = Some x → site_ok x;
  ro_app : ∀ x, rq_App r = Some x → vap_ID x = "" ∨ vap_ID x ∉ ed_BlockedApps deps;
  ro_dooh : ∀ x, rq_DOOH r = Some x → vd_ID x ≠ "" ∨ vd_VenueType x ≠ 0%nat;
  ro_user : ∀ x, rq_User r = Some x → user_ok x;
  ro_regs : ∀ x, rq_Regs r = Some x → regs_ok x;
  ro_device : ∀ x, rq_Device r = Some x → device_ok x;
  ro_imps : rq_Imp r ≠ [] ∧ NoDup ((λ w, vi_ID (wi_imp w)) <$> rq_Imp r) ∧
    Forall (λ w, imp_ok (ed_validator deps) {| vc_SkipBidderParams := false; vc_SkipNative := false |} (aliases_of r) (wi_imp w)) (rq_Imp r)
}.
Lemma stop_on_ok e errL r k errs r' : stop_on e errL r k = Some (errs, r') → ContainsFatalError errs = false → e = None ∧ k = Some (errs, r').
Proof. unfold stop_on. destruct e; [|done]. intros [= <- <-]. by rewrite ContainsFatalError_snoc. Qed.
Lemma check_ccpa_ok aliases gpp r errs ended r' : check_ccpa deps aliases gpp r = (errs, ended, r') →
  (ended = true → ContainsFatalError errs = true) ∧ (r' = r ∨ ∃ g v, rq_Regs r = Some g ∧ r' = set_rq_Regs (Some (set_vr_ext v g)) r).
Proof.
  unfold check_ccpa. intros Hc. repeat (go_destruct_in Hc; try (injection Hc as <- <- <-; split; [done|by left])).
  all: try (injection Hc as <- <- <-; split; [done|]; right; eauto).
Qed.
(** What the first part of validation leaves to the second. *)
Definition half_ok (r : vRequest) : Prop :=
  rq_ID r ≠ "" ∧ 0 ≤ rq_TMax r ∧ rq_Imp r ≠ [] ∧ (length (rq_Cur r) ≤ 1)%nat ∧ inventory_types r = 1%nat ∧
  ∀ p, rq_ext r = Ok (Some p) → map_Forall alias_ok (vq_Aliases p) ∧ (∀ l, vq_EidPermissions p = Some l → permissions_ok l) ∧ vq_Channel p ≠ Some "".
Lemma validateApp_ok x : validateApp deps (Some x) = None → vap_ID x = "" ∨ vap_ID x ∉ ed_BlockedApps deps.
Proof. unfold validateApp. destruct (String.eqb_spec (vap_ID x) ""); [by left|]. case_bool_decide; [done|by right]. Qed.
Lemma validateDOOH_ok x : validateDOOH (Some x) = None → vd_ID x ≠ "" ∨ vd_VenueType x ≠ 0%nat.
Proof. unfold validateDOOH. destruct (String.eqb_spec (vd_ID x) ""); [|by left]. destruct (Nat.eqb_spec (vd_VenueType x) 0); [done|by right]. Qed.
Lemma validate_parts_ok cx errL r errs r' :
  validate_parts deps cx (aliases_of r) errL r = Some (errs, r') → ContainsFatalError errs = false → half_ok r → request_ok r'.
Proof.
  unfold validate_parts. destruct (validateRequestExt r) as [[es r1]|] eqn:Ex; [|done]. cbn [mbind option_bind]. intros Hv Hf (Hid & Htm & Himp & Hcur & Hinv & Hpre).
  destruct (ContainsFatalError es) eqn:Ees; [injection Hv as <- <-; by rewrite ContainsFatalError_app, Ees, orb_true_r in Hf|].
  assert (∃ p, r1 = set_rq_prebid p r ∧ aliases_of r1 = aliases_of r ∧ ∀ x, p = Some x → prebid_ok x) as (p & -> & Eal & Hp).
  { apply validateRequestExt_ok in Ex as [[En ->]|(p & p' & Ep & -> & Ea & Hp)]; [| |exact Ees].
    - exists None. split_and!; [destruct r; cbn in *; by rewrite En|done|done].
    - exists (Some p'). split_and!; [done|unfold aliases_of; cbn; by rewrite Ep|]. intros x [= <-]. destruct (Hpre p Ep) as (? & ? & ?). by apply Hp. }
  apply stop_on_ok in Hv as [Hsite Hv]; [|done]. destruct (validateApp deps _) as [e|] eqn:Eapp.
  { injection Hv as <- <-. rewrite ContainsFatalError_snoc in Hf; [done|]. unfold validateApp in Eapp. repeat go_destruct_in Eapp; try done; by injection Eapp as <-. }
  apply stop_on_ok in Hv as [Hdooh Hv]; [|done]. destruct (gpp_of cx _) as [gpp gerrs]. destruct (validateUser deps _ _ _) as [uerrs user] eqn:Eu.
  destruct (ContainsFatalError uerrs) eqn:Euf; [injection Hv as <- <-; by rewrite !ContainsFatalError_app, Euf, !orb_true_r in Hf|].
  destruct (ContainsFatalError (validateRegs _)) eqn:Erg; [injection Hv as <- <-; rewrite ContainsFatalError_app in Hf; apply orb_false_iff in Hf as [_ Hf]; destruct (eq_true_false_abs _ Erg Hf)|].
  apply stop_on_ok in Hv as [Hdev Hv]; [|done]. destruct (validateOrFillCookieDeprecation _ _ _) as [cerrs device] eqn:Ecd.
  destruct (check_ccpa deps _ _ _) as [[perrs ended] r2] eqn:Ecc. apply check_ccpa_ok in Ecc as [Hended Hr2]. destruct ended.
  { injection Hv as <- <-. by rewrite !ContainsFatalError_app, Hended, !orb_true_r in Hf. }
  destruct (imp_loop deps _ _ _ _ _) as [ierrs imps] eqn:Ei. injection Hv as <- <-. rewrite !ContainsFatalError_app in Hf. apply orb_false_iff in Hf as [_ Hif].
  apply imp_loop_ok in Ei as (Hids & Hnd & _ & Hok); [|done]. rewrite <-Hids in Hnd.
  cbn [rq_Site rq_App rq_DOOH rq_User rq_Regs rq_Device set_rq_prebid set_rq_User] in *.
  assert (∀ x, rq_Regs r = Some x → regs_ok x) as Hregs by (intros x E; rewrite E in Erg; by apply validateRegs_ok).
  pose proof (validateUser_ok _ _ _ _ _ Eu Euf) as Huser.
  assert (∀ x, device = Some x → device_ok x) as Hdevice by (eapply cookie_deprecation_ok; [exact Ecd|]; intros x E; rewrite E in Hdev; by apply validateDevice_iff).
  assert (imps ≠ []) as Hne. { intros ->. destruct Hr2 as [->|(g & v & _ & ->)]; cbn in Hids; destruct (rq_Imp r); done. }
  rewrite <-list_fmap_compose in Hnd.
  destruct Hr2 as [->|(g & v & Eg & ->)]; split; unfold aliases_of in *; cbn in *; try done; try (by eexists); try (by intros x E; subst; rewrite ?E in *; eauto using validateSite_ok, validateApp_ok, validateDOOH_ok).
  all: try (split_and!; [done|done|by rewrite Eal]).
  all: try (intros x E; rewrite E in *; eauto using validateSite_ok, validateApp_ok, validateDOOH_ok).
  intros x [= <-]. by apply (Hregs g).
Qed.
Lemma fill_imp_tids_length renew newUUID imps : ∀ i out, fill_imp_tids renew newUUID i imps = Some out → length out = length imps.
Proof.
  induction imps as [|w imps IH]; intros i out; cbn [fill_imp_tids]; [by intros [= <-]|]. destruct (fill_imp_tid _ _ w) as [w'|]; [|done]. cbn [mbind option_bind].
  destruct (fill_imp_tids _ _ _ imps) as [out'|] eqn:E; [|done]. intros [= <-]. cbn. by rewrite (IH _ _ E).
Qed.
Lemma fill_keeps newUUID stored amp r r' : validateAndFillSourceTID deps newUUID stored amp r = Ok r' →
  rq_ID r' = rq_ID r ∧ rq_TMax r' = rq_TMax r ∧ rq_Cur r' = rq_Cur r ∧ length (rq_Imp r') = length (rq_Imp r).
Proof.
  unfold validateAndFillSourceTID. destruct (if missing_tid _ _ then _ else _); [|done]. destruct (fill_imp_tids _ _ _ _) as [imps|] eqn:E; [|done].
  intros [= <-]. cbn. split_and!; try done. by eapply fill_imp_tids_length.
Qed.
Lemma channel_keeps amp q r r' : validateOrFillChannel amp (set_rq_prebid q r) = Ok r' →
  ∃ p, r' = set_rq_prebid p r ∧ match p with Some p => vq_Aliases p | None => ∅ end = match q with Some p => vq_Aliases p | None => ∅ end ∧
    ∀ x, p = Some x → vq_Aliases x = vq_Aliases (default empty_vPrebid q) ∧ vq_EidPermissions x = vq_EidPermissions (default empty_vPrebid q) ∧ vq_Channel x ≠ Some "".
Proof.
  unfold validateOrFillChannel. cbn [rq_ext set_rq_prebid rbind]. destruct (q ≫= vq_Channel) as [name|] eqn:Ec.
  - destruct (String.eqb_spec name "") as [|Hn]; [done|]. intros [= <-]. exists q. split_and!; [done|done|]. intros x ->. cbn in *. split_and!; try done. rewrite Ec. congruence.
  - intros [= <-]. unfold fillChannel. destruct (String.eqb_spec (channel_of amp (set_rq_prebid q r)) "") as [|Hn].
    + exists q. split_and!; [done|done|]. intros x ->. cbn in *. split_and!; try done. by rewrite Ec.
    + eexists. split_and!; [done|by destruct q|]. intros x [= <-]. cbn. split_and!; try done. congruence.
Qed.
(** C22: A request that is not refused is well formed: it has an id, impressions with distinct ids and valid media and bidders, exactly one kind
    of inventory and at most one currency; its aliases name enabled core bidders, its price granularities are valid, no bidder has two
    multibid entries and each allows one to nine bids, and of the external ids those with a source and an id are left.  This holds for every
    order of the maps. *)
Theorem accepted_request_well_formed cx r errs r' :
  validateRequest deps cx r = Some (errs, r') → ContainsFatalError errs = false → request_ok r'.
Proof.
  unfold validateRequest. destruct (String.eqb_spec (rq_ID r) "") as [|Hid]; [by intros [= <- <-]|]. destruct (Z.ltb_spec (rq_TMax r) 0) as [|Htm]; [by intros [= <- <-]|].
  destruct (length (rq_Imp r) <? 1)%nat eqn:Ei; [by intros [= <- <-]|]. apply length_0_nil in Ei.
  set (r1 := set_rq_Cur _ r). set (errL := if (1 <? _)%nat then _ else _). destruct (if ed_AutoGenSourceTID deps then _ else _) as [r2|e] eqn:Et; [|by intros [= <- <-]].
  assert (rq_ID r2 ≠ "" ∧ 0 ≤ rq_TMax r2 ∧ rq_Imp r2 ≠ [] ∧ (length (rq_Cur r2) ≤ 1)%nat) as (Hid2 & Htm2 & Himp2 & Hcur2).
  { assert (length (rq_Cur r1) ≤ 1)%nat as Hc by (cbn; rewrite length_take; lia). destruct (ed_AutoGenSourceTID deps); [|injection Et as <-; by split_and!].
    apply fill_keeps in Et as (Hi & Ht & Hc' & Hl). rewrite Hi, Ht, Hc'. split_and!; [done|done| |done]. intros E. rewrite E in Hl. cbn in Hl. by destruct (rq_Imp r). }
  destruct (rq_ext r2) as [prebid|e] eqn:Ex; [|by intros [= <- <-]].
  destruct (match prebid with Some _ => _ | None => _ end) as [[q|e]|] eqn:Eq; [|by intros [= <- <-]|done]. cbn [mbind option_bind].
  destruct (validateOrFillChannel _ _) as [r3|e] eqn:Ec; [|by intros [= <- <-]]. intros Hv Hf. apply stop_on_ok in Hv as [Hinv Hv]; [|done].
  assert (match q with Some p => map_Forall alias_ok (vq_Aliases p) ∧ ∀ l, vq_EidPermissions p = Some l → permissions_ok l | None => True end) as Hq.
  { destruct prebid as [p|]; [|by injection Eq as <-]. destruct (validatePrebid deps p) as [[p'|]|] eqn:Ep; [|done|done]. injection Eq as <-. apply validatePrebid_ok in Ep as (a & -> & Ha & Hp). by split. }
  apply channel_keeps in Ec as (p3 & -> & Ea & Hp3).
  assert (aliases_of (set_rq_prebid p3 r2) = match q with Some p => vq_Aliases p | None => ∅ end) as Eal by exact Ea. rewrite <-Eal in Hv.
  apply (validate_parts_ok cx errL (set_rq_prebid p3 r2) errs r' Hv Hf). unfold half_ok. cbn. split_and!; try done.
  - change (inventory_types (set_rq_prebid p3 r2) = 1%nat). unfold validateExactlyOneInventoryType in Hinv. by destruct (inventory_types _) as [|[|n]].
  - intros p [= ->]. destruct q as [q|].
    + destruct (Hp3 p eq_refl) as (E1 & E2 & Hch). destruct Hq as [Ha Hl]. cbn in *. rewrite E1, E2. by split_and!.
    + destruct (Hp3 p eq_refl) as (E1 & E2 & Hch). rewrite E1, E2. cbn. split_and!; [by intros k c; rewrite lookup_empty|done|done].
Qed.
End spec.

(** ** When validation panics *)
Section panic.
Context {IS : ISO} {MR : MapRange} {NT : NativeTypes} (deps : endpointDeps).
Lemma before_null_null {A} (l : list (option A)) : (before_null l).2 = true → None ∈ l.
Proof. induction l as [|[x|] l IH]; cbn; [done| |left]. destruct (before_null l). right. by apply IH. Qed.
Lemma validateSChains_panics l : validateSChains l = None → None ∈ l.
Proof. unfold validateSChains. pose proof (before_null_null l) as H. destruct (before_null l) as [l' null]. destruct (BidderToPrebidSChains l'); [|done]. destruct null; [by intros _; apply H|done]. Qed.
Lemma validatePrebid_panics p : validatePrebid deps p = None → None ∈ vq_SChains p.
Proof.
  unfold validatePrebid. destruct (validateAliases deps _); [|done]. destruct (and_then _ _); [done|]. destruct (validateSChains _) as [s|] eqn:E; [|by intros _; apply validateSChains_panics].
  cbn [mbind option_bind]. by destruct (and_then s _).
Qed.
Lemma validatePrebid_keeps p p' : validatePrebid deps p = Some (Ok p') → vq_MultiBid p' = vq_MultiBid p.
Proof. intros (a & -> & _)%validatePrebid_ok. done. Qed.
Lemma validate_parts_panics cx aliases errL r : validate_parts deps cx aliases errL r = None → ∃ p l, rq_ext r = Ok (Some p) ∧ vq_MultiBid p = Some l ∧ None ∈ l.
Proof.
  unfold validate_parts. destruct (validateRequestExt r) as [[es r1]|] eqn:Ex.
  - cbn [mbind option_bind]. intros Hv. exfalso. unfold stop_on in Hv. repeat (go_destruct_in Hv; try done).
  - intros _. unfold validateRequestExt in Ex. destruct (rq_ext r) as [[p|]|]; [|done|done]. destruct (match vq_Cache p with Some _ => _ | None => _ end); [done|].
    destruct (validateTargeting _); [done|]. destruct (vq_MultiBid p) as [l|] eqn:El; cbn [mbind option_bind] in Ex; [|by destruct (Validate _)].
    exists p, l. split_and!; [done|done|]. unfold ValidateAndBuildExtMultiBid in Ex. destruct (build_multibids ∅ l) as [[v e]|] eqn:Eb; [|by apply build_multibids_total].
    cbn [mbind option_bind] in Ex. by destruct (Validate _).
Qed.
Lemma channel_multibid amp q r r' p : validateOrFillChannel amp (set_rq_prebid q r) = Ok r' → rq_ext r' = Ok (Some p) →
  vq_MultiBid p = vq_MultiBid (default empty_vPrebid q).
Proof.
  unfold validateOrFillChannel, fillChannel. cbn [rq_ext set_rq_prebid rbind]. intros Hc Hp. repeat go_destruct_in Hc; try done; injection Hc as <-; cbn in Hp; injection Hp as ?; subst; done.
Qed.
(** Only a null entry of the supply chains or of the multibid list makes validation panic. *)
Lemma validateRequest_panics cx r : validateRequest deps cx r = None →
  ∃ p, rq_ext r = Ok (Some p) ∧ (None ∈ vq_SChains p ∨ ∃ l, vq_MultiBid p = Some l ∧ None ∈ l).
Proof.
  unfold validateRequest. destruct (rq_ID r =s? ""); [done|]. destruct (rq_TMax r <? 0); [done|]. destruct (_ <? 1)%nat; [done|].
  set (errL := if (1 <? _)%nat then _ else _). destruct (if ed_AutoGenSourceTID deps then _ else _) as [r2|e] eqn:Et; [|done].
  assert (rq_ext r2 = rq_ext r) as Ee.
  { destruct (ed_AutoGenSourceTID deps); [|by injection Et as <-]. unfold validateAndFillSourceTID in Et. repeat go_destruct_in Et; try done; by injection Et as <-. }
  rewrite Ee. destruct (rq_ext r) as [[p|]|e]; [| |done].
  - destruct (validatePrebid deps p) as [[p'|]|] eqn:Ep; cbn [mbind option_bind]; [|done|intros _; exists p; split; [done|]; left; by apply validatePrebid_panics].
    destruct (validateOrFillChannel _ _) as [r3|] eqn:Ec; [|done]. unfold stop_on. destruct (validateExactlyOneInventoryType r3); [done|].
    intros (q & l & Eq & El & Hin)%validate_parts_panics. exists p. split; [done|]. right. exists l. split; [|done].
    rewrite (channel_multibid _ _ _ _ _ Ec Eq) in El. cbn in El. by rewrite (validatePrebid_keeps _ _ Ep) in El.
  - cbn [mbind option_bind]. destruct (validateOrFillChannel _ _) as [r3|] eqn:Ec; [|done]. unfold stop_on. destruct (validateExactlyOneInventoryType r3); [done|].
    intros (q & l & Eq & El & Hin)%validate_parts_panics. by rewrite (channel_multibid _ _ _ _ _ Ec Eq) in El.
Qed.
End panic.

(** ** Examples *)
Module Example_request.
Definition types : NativeTypes := {|
  ContextTypeContent := 1; ContextTypeSocial := 2; ContextTypeProduct := 3; ContextSubTypeGeneral := 10; ContextSubTypeUserGenerated := 15; ContextSubTypeSocial := 20;
  ContextSubTypeChat := 22; ContextSubTypeSelling := 30; ContextSubTypeProductReview := 32; PlacementTypeFeed := 1; PlacementTypeRecommendationWidget := 4; EventTypeImpression := 1;
  EventTypeViewableVideo50 := 4; EventTrackingMethodImage := 1; EventTrackingMethodJS := 2; DataAssetTypeSponsored := 1; DataAssetTypeCTAText := 12; CreativeVAST10 := 1; CreativeDAAST10Wrapper := 10 |}.
Definition validator : requestValidator := {|
  rv_coreBidders := ["appnexus"; "rubicon"]; rv_bidderMap := {["appnexus"]}; rv_disabledBidders := {["rubicon" := "rubicon is disabled"]};
  rv_paramError := λ _ v, if v =s? "" then Some "empty" else None; rv_decodeNative := λ _, Err ""; rv_encodeNative := λ _, Err "" |}.
Definition deps : endpointDeps := {| ed_validator := validator; ed_BlockedApps := {["blocked"]}; ed_AutoGenSourceTID := true; ed_GenerateRequestID := false |}.
Definition ext : vImpExt := {| vx_ext := {["appnexus" := "1"; "xandr" := "2"; "rubicon" := "3"; "gpid" := "4"]}; vx_prebid := None |}.
Definition imp (id : string) (x : result string vImpExt) : wImp := {|
  wi_imp := {| vi_ID := id; vi_Metric := 0; vi_Banner := None; vi_Video := Some {| vv_MIMEs := ["video/mp4"]; vv_W := Some 640; vv_H := None; vv_MinBitRate := 0; vv_MaxBitRate := 0 |};
               vi_Audio := None; vi_Native := None; vi_PMP := None; vi_Instl := 0; vi_hasExt := true; vi_ext := x |};
  wi_tid := ""; wi_partial := (ext, "") |}.
Definition prebid : vPrebid := set_vq_MultiBid (Some [Some {| vm_Bidder := "appnexus"; vm_Bidders := None; vm_MaxBids := Some 20; vm_TargetBidderCodePrefix := "" |}])
  (set_vq_Aliases {["xandr" := "AppNexus"]} empty_vPrebid).
Definition uid_eid (source : string) (uids : list string) : EID := {| eid_Source := source; eid_UIDs := uids; eid_Inserter := ""; eid_Matcher := ""; eid_MM := 0 |}.
Definition request (p : vPrebid) (imps : list wImp) : vRequest := {|
  rq_ID := "r"; rq_TMax := 500; rq_Cur := ["USD"; "EUR"]; rq_Source := None; rq_ext := Ok (Some p); rq_Site := Some {| vs_ID := ""; vs_Page := "p"; vs_ext := Ok None |}; rq_App := None; rq_DOOH := None;
  rq_User := Some {| vu_Accuracy := None; vu_Consent := ""; vu_EIDs := [uid_eid "a" [""; "u"]; uid_eid "" ["u"]]; vu_ext := Ok None |};
  rq_Regs := Some {| vr_GDPR := Some 1; vr_GPPSID := None; vr_GPP := ""; vr_USPrivacy := "bad"; vr_ext := Ok "bad" |}; rq_Device := None; rq_Imp := imps |}.
Definition context : vContext := {| cx_isAmp := false; cx_hasStoredAuctionResponses := false; cx_storedBidResp := None; cx_hasStoredBidRequest := false; cx_cookieDeprecation := false;
  cx_header := ""; cx_newUUID := λ n, Some (pretty n); cx_gppParse := λ _, ([], false) |}.
Definition run (r : vRequest) := @validateRequest iso_usd_eur_jpy canonical_range types deps context r.
Definition good : vRequest := request prebid [imp "1" (Ok ext); imp "2" (Ok ext)].
Definition accepted (r : vRequest) : bool := match run r with Some (errs, _) => negb (ContainsFatalError errs) | None => false end.
Lemma good_accepted : accepted good = true.
Proof. vm_compute. reflexivity. Qed.
Lemma accepted_request_well_formed_witness : accepted good = true ∧ ∃ errs r', run good = Some (errs, r') ∧ request_ok (MR := canonical_range) deps r'.
Proof.
  pose proof good_accepted as Hg. split; [exact Hg|]. unfold accepted in Hg. destruct (run good) as [[errs r']|] eqn:E; [|discriminate Hg]. exists errs, r'. split; [reflexivity|].
  apply (accepted_request_well_formed (IS := iso_usd_eur_jpy) (MR := canonical_range) (NT := types) deps context good errs r' E). by apply negb_true_iff.
Defined.
(** A CCPA string that is reported as ignored stays in [regs.us_privacy] for the bidders. *)
Lemma invalid_ccpa_stays : match run good with Some (errs, r) => existsb (λ e, message e =s? "CCPA consent is invalid and will be ignored.") errs && negb (ContainsFatalError errs) &&
    match rq_Regs r with Some g => vr_USPrivacy g =s? "bad" | None => false end | None => false end = true.
Proof. vm_compute. reflexivity. Qed.
(** An impression whose extension cannot be decoded is accepted with the part that was. *)
Lemma undecodable_ext_accepted : accepted (request prebid [imp "1" (Err "cannot unmarshal imp.ext.data")]) = true.
Proof. vm_compute. reflexivity. Qed.
(** A null entry of the multibid list makes validation panic. *)
Lemma null_multibid_panics : run (request (set_vq_MultiBid (Some [None]) prebid) [imp "1" (Ok ext)]) = None.
Proof. vm_compute. reflexivity. Qed.
End Example_request.
