(* ===== verification/StoredRequests.v ===== *)
(** * Stored requests: src/stored_requests/

    Caches, the fetcher with a cache before it, the fetcher made of several, the database, file, HTTP and
    empty backends, the events that change caches, and stored responses (src/stored_responses/).

    A fetcher is the function it computes at the time of a call; what the database, the file system and the
    network answer are arguments.  JSON documents are texts. *)
From S2P Require Import Prelude GoStrings.

Abbreviation documents := (gmap string string).
(** [NotFoundError] or another error. *)
Inductive fetch_error := NotFoundError (ID DataType : string) | OtherError (m : string).
#[export] Instance fetch_error_eq_dec : EqDecision fetch_error.
Proof. solve_decision. Defined.
Definition fetch_error_Error (e : fetch_error) : string :=
  match e with NotFoundError id t => "Stored " +:+ t +:+ " with ID=" +:+ id +:+ " not found." | OtherError m => m end.

(** ** Caches *)
(** [mapLike]: [sync.Map] or the freecache library behind one interface. *)
Class MapLike (S : Type) := { ml_Get : S → string → option string; ml_Set : S → string → string → S; ml_Delete : S → string → S }.
(** What is relied on: a value is the last one set, or missing. *)
Class MapLikeLaws (S : Type) `{MapLike S} := {
  ml_Get_Set : ∀ s k v k' x, ml_Get (ml_Set s k v) k' = Some x → (k' = k ∧ x = v) ∨ (k' ≠ k ∧ ml_Get s k' = Some x);
  ml_Get_Delete : ∀ s k k' x, ml_Get (ml_Delete s k) k' = Some x → k' ≠ k ∧ ml_Get s k' = Some x
}.
Definition pbsSyncMap : MapLike documents := {| ml_Get := λ s k, s !! k; ml_Set := λ s k v, <[k := v]> s; ml_Delete := λ s k, delete k s |}.
#[export] Existing Instance pbsSyncMap.

(** [CacheJSON] *)
Class CacheJSON (S : Type) := { Get : S → list string → documents; Save : S → documents → S; Invalidate : S → list string → S }.
Section caches.
Context {MR : MapRange}.
Definition memory_cache {S} `{MapLike S} : CacheJSON S := {|
  Get := λ s ids, foldl (λ data id, match ml_Get s id with Some v => <[id := v]> data | None => data end) ∅ ids;
  Save := λ s data, foldl (λ s kv, ml_Set s kv.1 kv.2) s (map_range data);
  Invalidate := λ s ids, foldl ml_Delete s ids
|}.
#[export] Existing Instance memory_cache.
Definition NilCache : CacheJSON unit := {| Get := λ _ _, ∅; Save := λ s _, s; Invalidate := λ s _, s |}.
#[export] Existing Instance NilCache.
Definition updateFromCache (data : documents) (ids : list string) (newData : documents) : documents * list string :=
  if bool_decide (newData = ∅) then (data, ids)
  else foldl (λ acc id, match newData !! id with Some v => (<[id := v]> acc.1, acc.2) | None => (acc.1, acc.2 ++ [id]) end) (data, []) ids.
Fixpoint composed_Get {S} `{CacheJSON S} (l : list S) (data : documents) (remaining : list string) : documents :=
  match l with
  | [] => data
  | c :: l => let '(data, remaining) := updateFromCache data remaining (Get c remaining) in match remaining with [] => data | _ => composed_Get l data remaining end
  end.
Definition ComposedCache {S} `{CacheJSON S} : CacheJSON (list S) := {|
  Get := λ l ids, composed_Get l ∅ ids; Save := λ l data, map (λ c, Save c data) l; Invalidate := λ l ids, map (λ c, Invalidate c ids) l
|}.
#[export] Existing Instance ComposedCache.
Record Cache (S : Type) := mkCache { ca_Requests : S; ca_Imps : S; ca_Responses : S; ca_Accounts : S }.
End caches.
Arguments mkCache {S}.
Arguments ca_Requests {S}.
Arguments ca_Imps {S}.
Arguments ca_Responses {S}.
Arguments ca_Accounts {S}.

(** ** Fetchers *)
Record AllFetcher := {
  FetchRequests : list string → list string → documents * documents * list fetch_error;
  FetchResponses : list string → documents * list fetch_error;
  FetchAccount : option string → string → option string * list fetch_error;
  FetchCategories : string → string → string → string * option fetch_error
}.
Definition findLeftovers (ids : list string) (data : documents) : list string := filter (λ id, data !! id = None) ids.
(** The fetched entries win. *)
Definition mergeData (cached fetched : documents) : documents := fetched ∪ cached.
Section with_cache.
Context {S : Type} `{CacheJSON S} (fetcher : AllFetcher).
Definition cached_FetchRequests (c : Cache S) (requestIDs impIDs : list string) : documents * documents * list fetch_error * Cache S :=
  let requestData := Get (ca_Requests c) requestIDs in
  let impData := Get (ca_Imps c) impIDs in
  let leftoverImps := findLeftovers impIDs impData in
  let leftoverReqs := findLeftovers requestIDs requestData in
  match leftoverReqs, leftoverImps with
  | [], [] => (requestData, impData, [], c)
  | _, _ =>
      let '(reqs, imps, errs) := FetchRequests fetcher leftoverReqs leftoverImps in
      (mergeData requestData reqs, mergeData impData imps, errs, mkCache (Save (ca_Requests c) reqs) (Save (ca_Imps c) imps) (ca_Responses c) (ca_Accounts c))
  end.
Definition cached_FetchResponses (c : Cache S) (ids : list string) : documents * list fetch_error * Cache S :=
  let data := Get (ca_Responses c) ids in
  match findLeftovers ids data with
  | [] => (data, [], c)
  | leftover => let '(fetched, errs) := FetchResponses fetcher leftover in
                (mergeData data fetched, errs, mkCache (ca_Requests c) (ca_Imps c) (Save (ca_Responses c) fetched) (ca_Accounts c))
  end.
(** No backend answers a nil document without an error. *)
Definition cached_FetchAccount (c : Cache S) (defaults : option string) (accountID : string) : option string * list fetch_error * Cache S :=
  match Get (ca_Accounts c) [accountID] !! accountID with
  | Some account => (Some account, [], c)
  | None =>
      let '(account, errs) := FetchAccount fetcher defaults accountID in
      (account, errs, match errs, account with [], Some a => mkCache (ca_Requests c) (ca_Imps c) (ca_Responses c) (Save (ca_Accounts c) {[accountID := a]}) | _, _ => c end)
  end.
Definition cached_FetchCategories (primaryAdServer publisherId iabCategory : string) : string * option fetch_error := ("", None).
End with_cache.

(** ** Several fetchers *)
Definition is_missing (e : fetch_error) : bool := match e with NotFoundError _ _ => true | OtherError _ => false end.
Definition dropMissingIDs (errs : list fetch_error) : list fetch_error := filter (λ e, is_missing e = false) errs.
Definition remaining_ids (original : list string) (exclude : documents) : list string := filter (λ id, exclude !! id = None) original.
Definition appendNotFoundErrors (dataType : string) (expected : list string) (contains : documents) : list fetch_error :=
  (λ id, NotFoundError id dataType) <$> filter (λ id, contains !! id = None) expected.
Fixpoint multi_loop (mf : list AllFetcher) (requestIDs impIDs : list string) (requestData impData : documents) (errs : list fetch_error)
    : list string * list string * documents * documents * list fetch_error :=
  match mf with
  | [] => (requestIDs, impIDs, requestData, impData, errs)
  | f :: mf =>
      let requestIDs := remaining_ids requestIDs requestData in
      let impIDs := remaining_ids impIDs impData in
      let '(reqs, imps, rerrs) := FetchRequests f requestIDs impIDs in
      multi_loop mf requestIDs impIDs (reqs ∪ requestData) (imps ∪ impData) (errs ++ dropMissingIDs rerrs)
  end.
Definition multi_FetchRequests (mf : list AllFetcher) (requestIDs impIDs : list string) : documents * documents * list fetch_error :=
  let '(requestIDs, impIDs, requestData, impData, errs) := multi_loop mf requestIDs impIDs ∅ ∅ [] in
  (requestData, impData, errs ++ appendNotFoundErrors "Request" requestIDs requestData ++ appendNotFoundErrors "Imp" impIDs impData).
Definition multi_FetchResponses (mf : list AllFetcher) (ids : list string) : documents * list fetch_error := (∅, []).
Fixpoint multi_account (mf : list AllFetcher) (defaults : option string) (accountID : string) (errs : list fetch_error) : option string * list fetch_error :=
  match mf with
  | [] => (None, errs ++ [NotFoundError accountID "Account"])
  | f :: mf => match FetchAccount f defaults accountID with (account, []) => (account, []) | (_, accErrs) => multi_account mf defaults accountID (errs ++ dropMissingIDs accErrs) end
  end.
Definition multi_FetchAccount (mf : list AllFetcher) (defaults : option string) (accountID : string) := multi_account mf defaults accountID [].
Fixpoint multi_FetchCategories (mf : list AllFetcher) (primaryAdServer publisherId iabCategory : string) : string * option fetch_error :=
  match mf with
  | [] => ("", Some (NotFoundError (primaryAdServer +:+ "_" +:+ publisherId +:+ "." +:+ iabCategory) "Category"))
  | f :: mf => match (FetchCategories f primaryAdServer publisherId iabCategory).1 with
               | EmptyString => multi_FetchCategories mf primaryAdServer publisherId iabCategory
               | found => (found, None)
               end
  end.
Definition MultiFetcher (mf : list AllFetcher) : AllFetcher :=
  {| FetchRequests := multi_FetchRequests mf; FetchResponses := multi_FetchResponses mf; FetchAccount := multi_FetchAccount mf; FetchCategories := multi_FetchCategories mf |}.

(** ** Backends *)
Definition EmptyFetcher : AllFetcher := {|
  FetchRequests := λ reqs imps, (∅, ∅, ((λ id, NotFoundError id "Request") <$> reqs) ++ ((λ id, NotFoundError id "Imp") <$> imps));
  FetchResponses := λ _, (∅, []); FetchAccount := λ _ id, (None, [NotFoundError id "Account"]); FetchCategories := λ _ _ _, ("", None) |}.
(** The answer of a query: an error that is the user's or a deadline, another error, or rows, each of which may
    fail to be read; the rows may end in an error. *)
Inductive db_answer := DbRefused (m : string) | DbFailed (m : string) | DbRows (rows : list (result string (string * string * string))) (end_error : option string).
Definition appendErrors (dataType : string) (ids : list string) (data : documents) : list fetch_error :=
  (λ id, NotFoundError id dataType) <$> filter (λ id, data !! id = None) ids.
Fixpoint read_rows (rows : list (result string (string * string * string))) (reqs imps : documents) : result string (documents * documents) :=
  match rows with
  | [] => Ok (reqs, imps)
  | Err e :: _ => Err e
  | Ok (id, data, dataType) :: rows =>
      if dataType =s? "request" then read_rows rows (<[id := data]> reqs) imps
      else if dataType =s? "imp" then read_rows rows reqs (<[id := data]> imps)
      else read_rows rows reqs imps
  end.
Definition db_FetchRequests (query : list string → list string → db_answer) (requestIDs impIDs : list string) : documents * documents * list fetch_error :=
  match requestIDs, impIDs with
  | [], [] => (∅, ∅, [])
  | _, _ =>
      match query requestIDs impIDs with
      | DbRefused m => (∅, ∅, [OtherError m])
      | DbFailed _ => (∅, ∅, appendErrors "Request" requestIDs ∅ ++ appendErrors "Imp" impIDs ∅)
      | DbRows rows e =>
          match read_rows rows ∅ ∅, e with
          | Err m, _ => (∅, ∅, [OtherError m])
          | Ok _, Some m => (∅, ∅, [OtherError m])
          | Ok (reqs, imps), None => (reqs, imps, appendErrors "Request" requestIDs reqs ++ appendErrors "Imp" impIDs imps)
          end
      end
  end.
Fixpoint read_responses (rows : list (result string (string * string * string))) (data : documents) : result string documents :=
  match rows with [] => Ok data | Err e :: _ => Err e | Ok (id, d, _) :: rows => read_responses rows (<[id := d]> data) end.
Definition db_FetchResponses (query : list string → db_answer) (ids : list string) : documents * list fetch_error :=
  match ids with
  | [] => (∅, [])
  | _ => match query ids with
         | DbRefused m | DbFailed m => (∅, [OtherError m])
         | DbRows rows e => match read_responses rows ∅, e with Err m, _ | Ok _, Some m => (∅, [OtherError m]) | Ok data, None => (data, []) end
         end
  end.
Definition dbFetcher (query : list string → list string → db_answer) (responses : list string → db_answer) : AllFetcher := {|
  FetchRequests := db_FetchRequests query; FetchResponses := db_FetchResponses responses; FetchAccount := λ _ id, (None, [NotFoundError id "Account"]);
  FetchCategories := λ _ _ _, ("", None) |}.

(** Files: one level of directories is read; a name maps to its document.  [merge] is the JSON merge patch. *)
Record FileSystem := { fs_Directories : gmap string documents }.
Definition files_of (fs : FileSystem) (dir : string) : documents := default ∅ (fs_Directories fs !! dir).
Definition file_FetchRequests (fs : FileSystem) (requestIDs impIDs : list string) : documents * documents * list fetch_error :=
  let reqs := files_of fs "stored_requests" in
  let imps := files_of fs "stored_imps" in
  (reqs, imps, appendErrors "Request" requestIDs reqs ++ appendErrors "Imp" impIDs imps).
Definition file_FetchResponses (fs : FileSystem) (ids : list string) : documents * list fetch_error :=
  match fs_Directories fs !! "stored_responses" with None => (∅, [OtherError "no stored_responses directory found"]) | Some data => (data, appendErrors "Response" ids data) end.
Section accounts.
Context (merge : string → string → result string string).
Definition merge_defaults (defaults : option string) (account : string) : option string * list fetch_error :=
  match defaults with None => (Some account, []) | Some d => match merge d account with Ok complete => (Some complete, []) | Err m => (None, [OtherError m]) end end.
Definition file_FetchAccount (fs : FileSystem) (defaults : option string) (accountID : string) : option string * list fetch_error :=
  if accountID =s? "" then (None, [OtherError "Cannot look up an empty accountID"])
  else match files_of fs "accounts" !! accountID with None => (None, [NotFoundError accountID "Account"]) | Some account => merge_defaults defaults account end.
End accounts.
(** The categories that were read are kept by the fetcher, which also forgets the file.  [decode] reads the map from
    a category to its id. *)
Definition category_file (primaryAdServer publisherId : string) : string := if publisherId =s? "" then primaryAdServer else primaryAdServer +:+ "_" +:+ publisherId.
Definition forget_file (dir file : string) (fs : FileSystem) : FileSystem := {| fs_Directories := alter (<[file := ""]>) dir (fs_Directories fs) |}.
Definition file_FetchCategories (decode : string → option (gmap string string)) (st : FileSystem * gmap string (gmap string string)) (primaryAdServer publisherId iabCategory : string)
    : string * option fetch_error * (FileSystem * gmap string (gmap string string)) :=
  let '(fs, categories) := st in
  let file := category_file primaryAdServer publisherId in
  match categories !! file with
  | Some data => (default "" (data !! iabCategory), None, st)
  | None =>
      match fs_Directories fs !! primaryAdServer with
      | None => ("", Some (OtherError "Category not found"), st)
      | Some dir =>
          match dir !! file with
          | None => ("", Some (OtherError "Unable to find mapping file"), st)
          | Some text =>
              match decode text with
              | None => ("", Some (OtherError "Unable to unmarshal categories"), st)
              | Some data =>
                  let found := default "" (data !! iabCategory) in
                  (found, if found =s? "" then Some (OtherError "Unable to find category") else None, (forget_file primaryAdServer file fs, <[file := data]> categories))
              end
          end
      end
  end.

(** HTTP: the status and the maps of the body, where a null document is [None]. *)
Inductive http_answer := HttpFailed (m : string) | HttpStatus (code : Z) | HttpBody (reqs imps : gmap string (option string)).
Section http.
Context {MR : MapRange}.
Definition convertNullsToErrs (m : gmap string (option string)) (dataType : string) : documents * list fetch_error :=
  (omap id m, omap (λ kv : string * option string, match kv.2 with None => Some (NotFoundError kv.1 dataType) | Some _ => None end) (map_range m)).
Definition unpackResponse (a : http_answer) : documents * documents * list fetch_error :=
  match a with
  | HttpFailed m => (∅, ∅, [OtherError m])
  | HttpStatus _ => (∅, ∅, [OtherError "Error fetching Stored Requests via HTTP."])
  | HttpBody reqs imps => let '(reqs, e1) := convertNullsToErrs reqs "Request" in let '(imps, e2) := convertNullsToErrs imps "Imp" in (reqs, imps, e1 ++ e2)
  end.
Definition http_FetchRequests (get : list string → list string → http_answer) (requestIDs impIDs : list string) : documents * documents * list fetch_error :=
  match requestIDs, impIDs with [], [] => (∅, ∅, []) | _, _ => unpackResponse (get requestIDs impIDs) end.
(** The bodies of the account endpoint. *)
Definition http_FetchAccount (merge : string → string → result string string) (get : string → result string (gmap string (option string))) (defaults : option string) (accountID : string)
    : option string * list fetch_error :=
  match get accountID with
  | Err m => (None, [OtherError m])
  | Ok accounts =>
      match convertNullsToErrs accounts "Account" with
      | (data, []) => match data !! accountID with None => (None, [NotFoundError accountID "Account"]) | Some a => merge_defaults merge defaults a end
      | (_, errs) => (None, errs)
      end
  end.
Definition http_FetchCategories (get : string → string → result string (gmap string string)) (categories : gmap string (gmap string string)) (primaryAdServer publisherId iabCategory : string)
    : string * option fetch_error * gmap string (gmap string string) :=
  let name := category_file primaryAdServer publisherId in
  let find data := match data !! iabCategory with Some id => (id, None) | None => ("", Some (OtherError "Unable to find category mapping")) end in
  match categories !! name with
  | Some data => (find data, categories)
  | None => match get primaryAdServer publisherId with Err m => ("", Some (OtherError m), categories) | Ok data => (find data, <[name := data]> categories) end
  end.
End http.

(** ** Events *)
Record Saves := { sv_Requests : documents; sv_Imps : documents; sv_Responses : documents; sv_Accounts : documents }.
Record Invalidations := { iv_Requests : list string; iv_Imps : list string; iv_Responses : list string; iv_Accounts : list string }.
Inductive cache_event := EventSave (s : Saves) | EventInvalidation (i : Invalidations).
(** One turn of [Listen]. *)
Definition listen_turn {S} `{CacheJSON S} (e : cache_event) (c : Cache S) : Cache S :=
  match e with
  | EventSave s => mkCache (Save (ca_Requests c) (sv_Requests s)) (Save (ca_Imps c) (sv_Imps s)) (Save (ca_Responses c) (sv_Responses s)) (Save (ca_Accounts c) (sv_Accounts s))
  | EventInvalidation i => mkCache (Invalidate (ca_Requests c) (iv_Requests i)) (Invalidate (ca_Imps c) (iv_Imps i)) (Invalidate (ca_Responses c) (iv_Responses i)) (Invalidate (ca_Accounts c) (iv_Accounts i))
  end.
(** The rows of an update query, as maps and lists; a document that is empty or null is an invalidation. *)
Record delta := { dl_saves : documents; dl_gone : list string }.
Definition no_delta : delta := {| dl_saves := ∅; dl_gone := [] |}.
Definition add_row (id data : string) (d : delta) : delta :=
  if (data =s? "") || (data =s? "null") then {| dl_saves := dl_saves d; dl_gone := dl_gone d ++ [id] |} else {| dl_saves := <[id := data]> (dl_saves d); dl_gone := dl_gone d |}.
Fixpoint event_rows (rows : list (result string (string * string * string))) (acc : delta * delta * delta) : result string (delta * delta * delta) :=
  match rows with
  | [] => Ok acc
  | Err e :: _ => Err e
  | Ok (id, data, dataType) :: rows =>
      let '(reqs, imps, resps) := acc in
      event_rows rows (if dataType =s? "request" then (add_row id data reqs, imps, resps) else if dataType =s? "imp" then (reqs, add_row id data imps, resps)
                       else if dataType =s? "response" then (reqs, imps, add_row id data resps) else acc)
  end.
(** The events sent; [first] is the load of everything, which invalidates nothing. *)
Definition sendEvents (first : bool) (rows : list (result string (string * string * string))) (end_error : option string) : result string (list cache_event) :=
  let? (reqs, imps, resps) := event_rows rows (no_delta, no_delta, no_delta) in
  match end_error with
  | Some m => Err m
  | None =>
      let saves := {| sv_Requests := dl_saves reqs; sv_Imps := dl_saves imps; sv_Responses := dl_saves resps; sv_Accounts := ∅ |} in
      let gone := {| iv_Requests := dl_gone reqs; iv_Imps := dl_gone imps; iv_Responses := dl_gone resps; iv_Accounts := [] |} in
      Ok ((if bool_decide (dl_saves reqs = ∅ ∧ dl_saves imps = ∅ ∧ dl_saves resps = ∅) then [] else [EventSave saves]) ++
          (if bool_decide (dl_gone reqs = [] ∧ dl_gone imps = [] ∧ dl_gone resps = []) || first then [] else [EventInvalidation gone]))
  end.
(** [Run] of the database producer: the time of the last update, [None] before the first. *)
Definition db_Run (lastUpdate : option Z) (now : Z) (answer : db_answer) : result string (list cache_event) * option Z :=
  match answer with
  | DbRefused m | DbFailed m => (Err m, lastUpdate)
  | DbRows rows e => match sendEvents (bool_decide (lastUpdate = None)) rows e with Err m => (Err m, lastUpdate) | Ok events => (Ok events, Some now) end
  end.
(** HTTP events; [deleted] says that a document is a mark of deletion. *)
Section http_events.
Context {MR : MapRange} (deleted : string → bool).
Definition extractInvalidations (changes : documents) : documents * list string :=
  (filter (λ kv, deleted kv.2 = false) changes, (filter (λ kv, deleted kv.2 = true) (map_range changes)).*1).
Definition no_saves (s : Saves) : bool := bool_decide (sv_Requests s = ∅ ∧ sv_Imps s = ∅ ∧ sv_Responses s = ∅ ∧ sv_Accounts s = ∅).
Definition no_invalidations (i : Invalidations) : bool := bool_decide (iv_Requests i = [] ∧ iv_Imps i = [] ∧ iv_Responses i = [] ∧ iv_Accounts i = []).
Definition http_fetchAll (answer : option Saves) : list cache_event := match answer with Some s => if no_saves s then [] else [EventSave s] | None => [] end.
(** One tick of [refresh]; [None] is an answer that was not read. *)
Definition http_refresh (lastUpdate now : Z) (answer : option Saves) : list cache_event * Z :=
  match answer with
  | None => ([], lastUpdate)
  | Some s =>
      let '(reqs, goneReqs) := extractInvalidations (sv_Requests s) in
      let '(imps, goneImps) := extractInvalidations (sv_Imps s) in
      let '(resps, goneResps) := extractInvalidations (sv_Responses s) in
      let '(accounts, goneAccounts) := extractInvalidations (sv_Accounts s) in
      let saves := {| sv_Requests := reqs; sv_Imps := imps; sv_Responses := resps; sv_Accounts := accounts |} in
      let gone := {| iv_Requests := goneReqs; iv_Imps := goneImps; iv_Responses := goneResps; iv_Accounts := goneAccounts |} in
      ((if no_saves saves then [] else [EventSave saves]) ++ (if no_invalidations gone then [] else [EventInvalidation gone]), now)
  end.
End http_events.
(** The endpoint: a status, or the event that is sent.  [body] is what reading and decoding the body gave. *)
Definition HandleEvent (method : string) (body : option cache_event) : Z + cache_event :=
  if (method =s? "POST") || (method =s? "DELETE") then match body with Some e => inr e | None => inl 400 end else inl 405.
