(* ===== verification/StoredSpec.v ===== *)
(** * What the fetchers of stored data guarantee

    A cache before a backend changes nothing but the work done, and stays coherent but for keys last
    written by a fetch that a change overtook or by an event that a later one of the other channel overtook;
    several fetchers act as the first that knows an id, unless one returns more than it was asked for. *)
From S2P Require Import Prelude GoStrings StoredRequests.

(** ** Caches hold only what was saved *)
(** [holds c k v]: the cache may answer [v] for [k]. *)
Class CacheLaws (S : Type) `{CacheJSON S} := {
  holds : S → string → string → Prop;
  holds_Get : ∀ c ids k v, Get c ids !! k = Some v → k ∈ ids ∧ holds c k v;
  holds_Save : ∀ c data k v, holds (Save c data) k v → data !! k = Some v ∨ (data !! k = None ∧ holds c k v);
  holds_Invalidate : ∀ c ids k v, holds (Invalidate c ids) k v → k ∉ ids ∧ holds c k v
}.
#[export] Instance pbsSyncMap_laws : MapLikeLaws documents.
Proof.
  split; cbn.
  - intros s k v k' x. destruct (decide (k' = k)) as [->|]; [rewrite lookup_insert_eq; intros [= <-]; by left|rewrite lookup_insert_ne by done; by right].
  - intros s k k' x Hx. apply lookup_delete_Some in Hx as [? ?]. split; [congruence|done].
Qed.
Section memory.
Context {MR : MapRange} {S : Type} `{MapLikeLaws S}.
Lemma memory_Get_lookup (c : S) ids : ∀ (data : documents) k v,
  foldl (λ (data : documents) id, match ml_Get c id with Some v => <[id := v]> data | None => data end) data ids !! k = Some v → (k ∈ ids ∧ ml_Get c k = Some v) ∨ data !! k = Some v.
Proof.
  induction ids as [|id ids IH]; intros data k v; cbn; [by right|]. intros [[Hin Hk]|Hk]%IH; [left; split; [by right|done]|].
  destruct (ml_Get c id) as [x|] eqn:E; [|by right]. destruct (decide (k = id)) as [->|]; [|rewrite lookup_insert_ne in Hk by done; by right].
  rewrite lookup_insert_eq in Hk. injection Hk as <-. left. split; [left|done].
Qed.
Lemma memory_Save_get (l : list (string * string)) : NoDup l.*1 → ∀ c k v, ml_Get (foldl (λ s kv, ml_Set s kv.1 kv.2) c l) k = Some v →
  (k, v) ∈ l ∨ (k ∉ l.*1 ∧ ml_Get c k = Some v).
Proof.
  induction l as [|[k0 v0] l IH]; intros Hnd c k v; cbn; [intros ?; right; set_solver|]. rewrite fmap_cons in Hnd. apply NoDup_cons in Hnd as [Hk0 Hnd]. cbn in Hk0.
  intros [?|[Hk Hg]]%IH; [left; by right| |done]. apply ml_Get_Set in Hg as [[-> ->]|[Hne Hg]]; [left; left|right]. split; [|done]. set_solver.
Qed.
Lemma memory_Invalidate_get ids : ∀ (c : S) k v, ml_Get (foldl ml_Delete c ids) k = Some v → k ∉ ids ∧ ml_Get c k = Some v.
Proof.
  induction ids as [|id ids IH]; intros c k v; cbn; [intros ?; split; [set_solver|done]|]. intros [Hk Hg]%IH. apply ml_Get_Delete in Hg as [? ?]. split; [set_solver|done].
Qed.
#[export] Instance memory_laws : CacheLaws S.
Proof.
  refine {| holds := λ c k v, ml_Get c k = Some v |}.
  - intros c ids k v Hg. apply memory_Get_lookup in Hg as [?|Hg]; [done|by rewrite lookup_empty in Hg].
  - intros c data k v Hs. apply memory_Save_get in Hs as [Hin|[Hk Hg]]; [|right|apply NoDup_map_range_fst].
    + left. by apply elem_of_map_range.
    + split; [|done]. destruct (data !! k) as [x|] eqn:E; [|done]. exfalso. apply Hk, list_elem_of_fmap. exists (k, x). split; [done|by apply elem_of_map_range].
  - intros c ids k v Hi. by apply memory_Invalidate_get.
Defined.
End memory.
#[export] Instance NilCache_laws : CacheLaws unit.
Proof. refine {| holds := λ _ _ _, False |}; cbn; [|done|done]. intros _ ids k v Hk. by rewrite lookup_empty in Hk. Defined.
Section composed.
Context {S : Type} `{CacheLaws S}.
Lemma updateFromCache_spec data ids new data' rest : updateFromCache data ids new = (data', rest) →
  (∀ k v, data' !! k = Some v → data !! k = Some v ∨ (k ∈ ids ∧ new !! k = Some v)) ∧ ∀ k, k ∈ rest → k ∈ ids.
Proof.
  unfold updateFromCache. case_bool_decide; [intros [= <- <-]; split; [by left|done]|].
  assert (∀ ids (acc : documents * list string), (∀ k v, (foldl (λ (acc : documents * list string) id, match new !! id with Some v => (<[id := v]> acc.1, acc.2) | None => (acc.1, acc.2 ++ [id]) end) acc ids).1 !! k = Some v →
      acc.1 !! k = Some v ∨ (k ∈ ids ∧ new !! k = Some v)) ∧
      ∀ k, k ∈ (foldl (λ (acc : documents * list string) id, match new !! id with Some v => (<[id := v]> acc.1, acc.2) | None => (acc.1, acc.2 ++ [id]) end) acc ids).2 → k ∈ acc.2 ∨ k ∈ ids) as Hgen.
  { clear ids. induction ids as [|id ids IH]; intros acc; cbn; [split; [by left|by left]|].
    destruct (new !! id) as [x|] eqn:E.
    - destruct (IH (<[id := x]> acc.1, acc.2)) as [IH1 IH2]. cbn in IH1, IH2. split.
      + intros k v [Hk|[? ?]]%IH1; [|right; split; [by right|done]]. destruct (decide (k = id)) as [->|]; [|rewrite lookup_insert_ne in Hk by done; by left].
        rewrite lookup_insert_eq in Hk. injection Hk as <-. right. split; [left|done].
      + intros k [?|?]%IH2; [by left|right; by right].
    - destruct (IH (acc.1, acc.2 ++ [id])) as [IH1 IH2]. cbn in IH1, IH2. split.
      + intros k v [?|[? ?]]%IH1; [by left|right; split; [by right|done]].
      + intros k [?|?]%IH2; set_solver. }
  intros E. specialize (Hgen ids (data, [])). rewrite E in Hgen. cbn in Hgen. destruct Hgen as [Hg1 Hg2]. split; [done|]. intros k [?|?]%Hg2; [set_solver|done].
Qed.
Lemma composed_Get_spec (l : list S) : ∀ data ids k v, composed_Get l data ids !! k = Some v → data !! k = Some v ∨ (k ∈ ids ∧ ∃ c, c ∈ l ∧ holds c k v).
Proof.
  induction l as [|c l IH]; intros data ids k v; cbn; [by left|]. destruct (updateFromCache _ _ _) as [data' rest] eqn:E. apply updateFromCache_spec in E as [Hu1 Hu2].
  assert (data' !! k = Some v → data !! k = Some v ∨ (k ∈ ids ∧ ∃ c', c' ∈ c :: l ∧ holds c' k v)) as Hd.
  { intros [?|[? Hg]]%Hu1; [by left|]. apply holds_Get in Hg as [_ Hh]. right. split; [done|]. exists c. split; [left|done]. }
  destruct rest as [|r rest]; [exact Hd|]. intros [?|(Hin & c' & Hc' & Hh)]%IH; [by apply Hd|]. right. split; [by apply Hu2|]. exists c'. split; [by right|done].
Qed.
#[export] Instance ComposedCache_laws : CacheLaws (list S).
Proof.
  refine {| holds := λ l k v, ∃ c, c ∈ l ∧ holds c k v |}; cbn.
  - intros l ids k v [Hk|?]%composed_Get_spec; [by rewrite lookup_empty in Hk|done].
  - intros l data k v (c & (c0 & -> & Hin)%list_elem_of_fmap & Hh). apply holds_Save in Hh as [?|[? ?]]; [by left|right]. split; [done|]. by exists c0.
  - intros l ids k v (c & (c0 & -> & Hin)%list_elem_of_fmap & Hh). apply holds_Invalidate in Hh as [? ?]. split; [done|]. by exists c0.
Defined.
End composed.

(** ** Backends that serve a table *)
Definition coherent {S} `{CacheLaws S} (c : S) (table : documents) : Prop := ∀ k v, holds c k v → table !! k = Some v.
(** What is asked of a backend: every id of the table that is asked for, nothing that is not in the table,
    and an error for each id it does not know. *)
Definition serves (fetch : list string → list string → documents * documents * list fetch_error) (reqs imps : documents) : Prop :=
  ∀ rids iids, let '(r, i, errs) := fetch rids iids in
    (∀ k, k ∈ rids → r !! k = reqs !! k) ∧ r ⊆ reqs ∧ (∀ k, k ∈ iids → i !! k = imps !! k) ∧ i ⊆ imps ∧
    errs = appendErrors "Request" rids reqs ++ appendErrors "Imp" iids imps.
Lemma appendErrors_findLeftovers dt ids data table : (∀ k, k ∈ ids → data !! k ≠ None → data !! k = table !! k) → appendErrors dt (findLeftovers ids data) table = appendErrors dt ids table.
Proof.
  intros Hd. unfold appendErrors, findLeftovers. f_equal. induction ids as [|id ids IH]; [done|]. rewrite !filter_cons.
  assert (filter (λ id, table !! id = None) (filter (λ id, data !! id = None) ids) = filter (λ id, table !! id = None) ids) as IH' by (apply IH; intros k ?; apply Hd; by right).
  destruct (data !! id) as [x|] eqn:E; [rewrite decide_False by done|rewrite decide_True by done].
  - assert (table !! id ≠ None) as Ht by (rewrite <-Hd; [by rewrite E|left|by rewrite E]). by rewrite (decide_False (P := table !! id = None)).
  - rewrite filter_cons. by rewrite IH'.
Qed.
Section transparent.
Context {S : Type} `{CacheLaws S} (fetcher : AllFetcher) (reqs imps : documents).
Lemma cached_data (c : S) table ids : coherent c table → (∀ k v, Get c ids !! k = Some v → table !! k = Some v) ∧ (∀ k, k ∈ ids → Get c ids !! k ≠ None → Get c ids !! k = table !! k).
Proof.
  intros Hc. assert (∀ k v, Get c ids !! k = Some v → table !! k = Some v) as Hg by (intros k v Hk; apply holds_Get in Hk as [_ Hh]; by apply Hc). split; [done|].
  intros k _ Hk. destruct (Get c ids !! k) as [v|] eqn:E; [|done]. symmetry. by apply Hg.
Qed.
Lemma merged_data (c : S) table ids fetched : coherent c table → fetched ⊆ table → (∀ k, k ∈ findLeftovers ids (Get c ids) → fetched !! k = table !! k) →
  (∀ k, k ∈ ids → mergeData (Get c ids) fetched !! k = table !! k) ∧ mergeData (Get c ids) fetched ⊆ table ∧ coherent (Save c fetched) table.
Proof.
  intros Hc Hsub Hf. destruct (cached_data c table ids Hc) as [Hg Hg']. assert (mergeData (Get c ids) fetched ⊆ table) as Hm.
  { apply map_subseteq_spec. intros k v. unfold mergeData. intros [Hk|[_ Hk]]%lookup_union_Some_raw; [by eapply lookup_weaken|by apply Hg]. }
  split_and!; [|done|].
  - intros k Hin. destruct (Get c ids !! k) as [v|] eqn:E.
    + rewrite (Hg k v E). assert (is_Some (mergeData (Get c ids) fetched !! k)) as [x Hx] by (apply lookup_union_is_Some; right; by rewrite E). rewrite Hx. rewrite map_subseteq_spec in Hm. apply Hm in Hx. rewrite (Hg k v E) in Hx. congruence.
    + unfold mergeData. rewrite lookup_union_l by done. apply Hf. unfold findLeftovers. by apply list_elem_of_filter.
  - intros k v [Hk|[_ Hh]]%holds_Save; [by eapply lookup_weaken|by apply Hc].
Qed.
Lemma leftovers_nil (ids : list string) data : findLeftovers ids data = [] → ∀ k, k ∈ ids → data !! k ≠ None.
Proof. intros Hl k Hin Hk. assert (k ∈ findLeftovers ids data) as Hx by (by apply list_elem_of_filter). rewrite Hl in Hx. by apply elem_of_nil in Hx. Qed.

(** C24: Before a backend that serves a table, a coherent cache is transparent: the documents of
    all ids asked for and the errors are those of the backend, nothing else than entries of the table is returned, and
    the cache stays coherent. *)
Theorem cache_is_transparent (c : Cache S) rids iids r i errs c' :
  serves (FetchRequests fetcher) reqs imps → coherent (ca_Requests c) reqs → coherent (ca_Imps c) imps →
  cached_FetchRequests fetcher c rids iids = (r, i, errs, c') →
  (∀ k, k ∈ rids → r !! k = reqs !! k) ∧ r ⊆ reqs ∧ (∀ k, k ∈ iids → i !! k = imps !! k) ∧ i ⊆ imps ∧
  errs = appendErrors "Request" rids reqs ++ appendErrors "Imp" iids imps ∧
  coherent (ca_Requests c') reqs ∧ coherent (ca_Imps c') imps.
Proof.
  intros Hs Hr Hi. unfold cached_FetchRequests. destruct (cached_data _ _ rids Hr) as [Hr1 Hr2]. destruct (cached_data _ _ iids Hi) as [Hi1 Hi2].
  rewrite <-(appendErrors_findLeftovers "Request" rids _ reqs Hr2), <-(appendErrors_findLeftovers "Imp" iids _ imps Hi2).
  specialize (Hs (findLeftovers rids (Get (ca_Requests c) rids)) (findLeftovers iids (Get (ca_Imps c) iids))).
  destruct (FetchRequests fetcher _ _) as [[r0 i0] e0]. destruct Hs as (Hf1 & Hsub1 & Hf2 & Hsub2 & ->).
  destruct (merged_data _ _ rids r0 Hr Hsub1 Hf1) as (Hm1 & Hm1' & Hc1). destruct (merged_data _ _ iids i0 Hi Hsub2 Hf2) as (Hm2 & Hm2' & Hc2).
  destruct (findLeftovers rids _) as [|x xs] eqn:E1; [destruct (findLeftovers iids _) as [|y ys] eqn:E2|]; intros [= <- <- <- <-]; [|by split_and!|by split_and!].
  split_and!; try done; try (by apply map_subseteq_spec); intros k Hk; [apply Hr2|apply Hi2]; try done; by eapply leftovers_nil.
Qed.
End transparent.

(** The file fetcher serves the files of its directories. *)
Lemma file_serves fs : serves (file_FetchRequests fs) (files_of fs "stored_requests") (files_of fs "stored_imps").
Proof. intros rids iids. unfold file_FetchRequests. by split_and!. Qed.
(** The database fetcher serves what the rows of its queries say. *)
Definition row_of (dataType : string) (kv : string * string) : result string (string * string * string) := Ok (kv.1, kv.2, dataType).
Definition answers (query : list string → list string → db_answer) (reqs imps : documents) : Prop := ∀ rids iids,
  query rids iids = DbRows ((row_of "request" <$> map_to_list (filter (λ kv, kv.1 ∈ rids) reqs)) ++ (row_of "imp" <$> map_to_list (filter (λ kv, kv.1 ∈ iids) imps))) None.
Lemma read_rows_requests l : ∀ rest r i, read_rows ((row_of "request" <$> l) ++ rest) r i = read_rows rest (foldl (λ m kv, <[kv.1 := kv.2]> m) r l) i.
Proof. induction l as [|kv l IH]; intros rest r i; [done|]. cbn. apply IH. Qed.
Lemma read_rows_imps l : ∀ r i, read_rows (row_of "imp" <$> l) r i = Ok (r, foldl (λ m kv, <[kv.1 := kv.2]> m) i l).
Proof. induction l as [|kv l IH]; intros r i; [done|]. cbn. apply IH. Qed.
Lemma foldl_insert_map (m : documents) : foldl (λ (m : documents) kv, <[kv.1 := kv.2]> m) ∅ (map_to_list m) = m.
Proof.
  assert (∀ (l : list (string * string)) (acc : documents), NoDup l.*1 → foldl (λ (m : documents) kv, <[kv.1 := kv.2]> m) acc l = list_to_map l ∪ acc) as Hl.
  { induction l as [|[k v] l IH]; intros acc Hnd; cbn; [by rewrite (left_id_L ∅ (∪))|]. rewrite fmap_cons in Hnd. apply NoDup_cons in Hnd as [Hk Hnd]. rewrite IH by done.
    rewrite <-insert_union_l, insert_union_r; [done|]. by apply not_elem_of_list_to_map_1. }
  rewrite Hl by apply NoDup_fst_map_to_list. by rewrite list_to_map_to_list, (right_id_L ∅ (∪)).
Qed.
Lemma filter_ids_lookup (m : documents) (ids : list string) k : k ∈ ids → filter (λ kv : string * string, kv.1 ∈ ids) m !! k = m !! k.
Proof. intros Hk. rewrite map_lookup_filter. destruct (m !! k); [|done]. cbn. by rewrite option_guard_True. Qed.
Lemma list_filter_in_iff {A} (P Q : A → Prop) `{∀ x, Decision (P x)} `{∀ x, Decision (Q x)} (l : list A) : (∀ x, x ∈ l → P x ↔ Q x) → filter P l = filter Q l.
Proof.
  induction l as [|x l IH]; intros Hl; [done|]. rewrite !filter_cons, IH by (intros y ?; apply Hl; by right). specialize (Hl x ltac:(left)). repeat case_decide; tauto.
Qed.
Lemma appendErrors_filter dt ids (m : documents) : appendErrors dt ids (filter (λ kv : string * string, kv.1 ∈ ids) m) = appendErrors dt ids m.
Proof. unfold appendErrors. f_equal. apply list_filter_in_iff. intros k Hk. by rewrite filter_ids_lookup. Qed.
Lemma db_serves query reqs imps : answers query reqs imps → serves (db_FetchRequests query) reqs imps.
Proof.
  intros Hq rids iids. unfold db_FetchRequests. rewrite Hq, read_rows_requests, read_rows_imps, !foldl_insert_map, !appendErrors_filter.
  assert (∀ (m : documents) (ids : list string), filter (λ kv : string * string, kv.1 ∈ ids) m ⊆ m) as Hsub by (intros; apply map_filter_subseteq).
  destruct rids as [|x xs]; [destruct iids as [|y ys]|]; split_and!; try done; try (intros k Hk; by apply filter_ids_lookup); try set_solver; try apply map_empty_subseteq.
Qed.

(** ** A cache kept up to date by events *)
(** One kind of data.  A change of the backend is announced by an event; the listener takes the oldest
    save or the oldest invalidation, which come through two channels; a fetch reads the backend and
    saves what it read later; the cache may drop entries at any time. *)
Inductive event := ESave (data : documents) | EInvalidate (ids : list string).
Definition event_on (e : event) (k : string) : option (option string) :=
  match e with ESave d => Some <$> (d !! k) | EInvalidate ids => if decide (k ∈ ids) then Some None else None end.
Definition run_event {S} `{CacheJSON S} (e : event) (c : S) : S := match e with ESave d => Save c d | EInvalidate ids => Invalidate c ids end.
(** A turn of the listener runs one event on each of the four caches. *)
Lemma listen_turn_runs {S} `{CacheJSON S} s i (c : Cache S) :
  ca_Requests (listen_turn (EventSave s) c) = run_event (ESave (sv_Requests s)) (ca_Requests c) ∧ ca_Accounts (listen_turn (EventInvalidation i) c) = run_event (EInvalidate (iv_Accounts i)) (ca_Accounts c).
Proof. done. Qed.
Definition event_keys (e : event) : gset string := match e with ESave d => dom d | EInvalidate ids => list_to_set ids end.
Definition is_save (e : event) : bool := match e with ESave _ => true | EInvalidate _ => false end.
(** The events not processed yet, oldest first, and the documents of fetches that were not saved yet.
    With each goes a history: for an event the keys of later events that were processed before it, for
    a fetch the keys the backend changed since it was read.  [w_overtaken] are the keys that were last
    written by an event or a fetch overtaken in this way. *)
Record world (S : Type) := {
  w_table : documents;
  w_cache : S;
  w_pending : list (event * gset string);
  w_reading : list (documents * gset string);
  w_overtaken : gset string
}.
Arguments w_table {S}.
Arguments w_cache {S}.
Arguments w_pending {S}.
Arguments w_reading {S}.
Arguments w_overtaken {S}.
Definition overtake {A} (keys : gset string) (x : A * gset string) : A * gset string := (x.1, x.2 ∪ keys).
Section coherence.
Context {S : Type} `{CacheLaws S}.
Inductive step : world S → world S → Prop :=
| step_change t c p rd ov t' e :
    (∀ k, match event_on e k with Some v => t' !! k = v | None => t' !! k = t !! k end) →
    step {| w_table := t; w_cache := c; w_pending := p; w_reading := rd; w_overtaken := ov |}
         {| w_table := t'; w_cache := c; w_pending := p ++ [(e, ∅)]; w_reading := overtake (event_keys e) <$> rd; w_overtaken := ov |}
| step_listen t c rd ov pre e late post :
    Forall (λ x, is_save x.1 ≠ is_save e) pre →
    step {| w_table := t; w_cache := c; w_pending := pre ++ (e, late) :: post; w_reading := rd; w_overtaken := ov |}
         {| w_table := t; w_cache := run_event e c; w_pending := (overtake (event_keys e) <$> pre) ++ post; w_reading := rd;
            w_overtaken := (ov ∖ event_keys e) ∪ (event_keys e ∩ late) |}
| step_read t c p rd ov fetched :
    fetched ⊆ t →
    step {| w_table := t; w_cache := c; w_pending := p; w_reading := rd; w_overtaken := ov |}
         {| w_table := t; w_cache := c; w_pending := p; w_reading := rd ++ [(fetched, ∅)]; w_overtaken := ov |}
| step_save t c p ov pre fetched late post :
    step {| w_table := t; w_cache := c; w_pending := p; w_reading := pre ++ (fetched, late) :: post; w_overtaken := ov |}
         {| w_table := t; w_cache := Save c fetched; w_pending := p; w_reading := pre ++ post;
            w_overtaken := (ov ∖ dom fetched) ∪ (dom fetched ∩ late) |}
| step_drop t c p rd ov c' :
    (∀ k v, holds c' k v → holds c k v) →
    step {| w_table := t; w_cache := c; w_pending := p; w_reading := rd; w_overtaken := ov |}
         {| w_table := t; w_cache := c'; w_pending := p; w_reading := rd; w_overtaken := ov |}.

(** The last waiting event on a key that no later event on the key went before. *)
Definition live_on (x : event * gset string) (k : string) : option (option string) := if decide (k ∈ x.2) then None else event_on x.1 k.
Fixpoint last_on (p : list (event * gset string)) (k : string) : option (option string) :=
  match p with
  | [] => None
  | x :: p => match last_on p k with Some v => Some v | None => live_on x k end
  end.
Definition followed (w : world S) : Prop :=
  (∀ k, match last_on (w_pending w) k with
        | Some v => w_table w !! k = v
        | None => ∀ v, holds (w_cache w) k v → w_table w !! k = Some v ∨ k ∈ w_overtaken w
        end) ∧
  Forall (λ r, ∀ k v, r.1 !! k = Some v → k ∉ r.2 → w_table w !! k = Some v) (w_reading w).
Lemma last_on_app p q k : last_on (p ++ q) k = match last_on q k with Some v => Some v | None => last_on p k end.
Proof. induction p as [|x p IH]; cbn; [by destruct (last_on q k)|]. rewrite IH. by destruct (last_on q k). Qed.
Lemma event_keys_on e k : k ∈ event_keys e ↔ is_Some (event_on e k).
Proof.
  destruct e as [d|ids]; cbn.
  - rewrite elem_of_dom, fmap_is_Some. done.
  - rewrite elem_of_list_to_set. by destruct (decide (k ∈ ids)); split; try done; intros [? ?].
Qed.
Lemma last_on_overtaken keys p k : last_on (overtake keys <$> p) k = if decide (k ∈ keys) then None else last_on p k.
Proof.
  induction p as [|x p IH]; cbn; [by case_decide|]. rewrite IH. unfold live_on. cbn. repeat case_decide; set_solver.
Qed.
Lemma run_event_holds e c k v : holds (run_event e c) k v → match event_on e k with Some o => o = Some v | None => holds c k v end.
Proof.
  destruct e as [d|ids]; cbn.
  - intros [Hd|[Hd Hh]]%holds_Save; by rewrite Hd.
  - intros [Hk Hh]%holds_Invalidate. by rewrite decide_False.
Qed.
Lemma listen_followed (t : documents) (c : S) pre e late post (ov : gset string) :
  (∀ k, match last_on (pre ++ (e, late) :: post) k with Some v => t !! k = v | None => ∀ v, holds c k v → t !! k = Some v ∨ k ∈ ov end) →
  ∀ k, match last_on ((overtake (event_keys e) <$> pre) ++ post) k with
       | Some v => t !! k = v
       | None => ∀ v, holds (run_event e c) k v → t !! k = Some v ∨ k ∈ (ov ∖ event_keys e) ∪ (event_keys e ∩ late)
       end.
Proof.
  intros Hf k. specialize (Hf k). rewrite last_on_app in *. cbn [last_on] in Hf. rewrite last_on_overtaken.
  destruct (last_on post k) as [v|]; [done|]. unfold live_on in Hf. cbn [fst snd] in Hf.
  pose proof (event_keys_on e k) as Hk. pose proof (λ v, run_event_holds e c k v) as Hrun.
  destruct (event_on e k) as [o|] eqn:Eo.
  - assert (k ∈ event_keys e) as Hin by (apply Hk; eauto). rewrite decide_True by done. intros v Hv.
    destruct (decide (k ∈ late)); [right; set_solver|left]. by rewrite Hf, <-(Hrun v Hv).
  - assert (k ∉ event_keys e) as Hin by (intros [? ?]%Hk; done). rewrite decide_False by done.
    assert ((if decide (k ∈ late) then None else None) = @None (option string)) as E by (by case_decide). rewrite E in Hf.
    destruct (last_on pre k) as [v|]; [done|]. intros v Hv. destruct (Hf v (Hrun v Hv)); [by left|right; set_solver].
Qed.
Lemma step_followed w w' : step w w' → followed w → followed w'.
Proof.
  intros Hs [Hf Hr]. destruct Hs as [t c p rd ov t' e He|t c rd ov pre e late post _|t c p rd ov fetched Hsub|t c p ov pre fetched late post|t c p rd ov c' Hc];
    cbn [w_table w_cache w_pending w_reading w_overtaken] in *; (split; cbn [w_table w_cache w_pending w_reading w_overtaken]).
  - intros k. specialize (Hf k). specialize (He k). rewrite last_on_app. cbn. unfold live_on. cbn. rewrite decide_False by set_solver.
    destruct (event_on e k) as [v|]; [done|]. by rewrite He.
  - apply Forall_fmap. eapply Forall_impl; [exact Hr|]. intros [d late] Hd k v Hk Hl. cbn in *. specialize (He k).
    assert (event_on e k = None) as E by (apply eq_None_not_Some; intros ?%event_keys_on; set_solver). rewrite E in He. rewrite He. apply Hd; set_solver.
  - by apply listen_followed.
  - done.
  - exact Hf.
  - apply Forall_app. split; [done|]. apply Forall_singleton. intros k v Hk _. by eapply lookup_weaken.
  - intros k. specialize (Hf k). destruct (last_on p k) as [v|]; [done|]. apply Forall_app in Hr as [_ [Hd _]%Forall_cons]. cbn in Hd.
    intros v [Hv|[Hn Hv]]%holds_Save.
    + destruct (decide (k ∈ late)); [right; apply elem_of_dom_2 in Hv; set_solver|left; by apply Hd].
    + apply not_elem_of_dom in Hn. destruct (Hf v Hv); [by left|right; set_solver].
  - apply Forall_app in Hr as [Hr1 [_ Hr2]%Forall_cons]. by apply Forall_app.
  - intros k. specialize (Hf k). destruct (last_on p k); [done|]. intros v Hv. by apply Hf, Hc.
  - exact Hr.
Qed.
(** C25: In every interleaving of backend changes, each announced by an event, of the listener, which takes saves
    and invalidations from two channels, of fetches, which read the backend and save what they read at
    a later time, and of evictions: a document the cache holds is the one of the backend, or an event
    that will put the right one there is waiting, or the key was last written by a fetch that had read it before the backend
    changed it or by an event processed after a later event on the key.  With no event waiting and no such
    key the cache is coherent. *)
Theorem cache_follows_backend w w' :
  rtc step w w' → w_pending w = [] → w_reading w = [] → coherent (w_cache w) (w_table w) →
  (∀ k v, holds (w_cache w') k v →
     w_table w' !! k = Some v ∨ last_on (w_pending w') k = Some (w_table w' !! k) ∨ k ∈ w_overtaken w') ∧
  (w_pending w' = [] → w_overtaken w' = ∅ → coherent (w_cache w') (w_table w')).
Proof.
  intros Hr Hp Hrd Hc. assert (followed w) as Hf.
  { split; [intros k; rewrite Hp; intros v Hv; left; by apply Hc|by rewrite Hrd]. }
  assert (followed w') as [Hf' _] by (clear Hp Hrd Hc; induction Hr as [|x y z Hs _ IH]; [done|]; apply IH; by eapply step_followed).
  split.
  - intros k v Hv. specialize (Hf' k). destruct (last_on (w_pending w') k) as [o|]; [right; left; by rewrite Hf'|]. destruct (Hf' v Hv); auto.
  - intros Hp' Ho k v Hv. specialize (Hf' k). rewrite Hp' in Hf'. destruct (Hf' v Hv) as [|Hin]; [done|]. rewrite Ho in Hin. set_solver.
Qed.
End coherence.

(** ** Several fetchers *)
(** A backend that serves a table and returns only what it was asked for. *)
Definition serves_only (fetch : list string → list string → documents * documents * list fetch_error) (reqs imps : documents) : Prop :=
  serves fetch reqs imps ∧ ∀ rids iids, let '(r, i, _) := fetch rids iids in (∀ k, k ∈ dom r → k ∈ rids) ∧ (∀ k, k ∈ dom i → k ∈ iids).
Definition all_of (tables : list documents) : documents := foldr (∪) ∅ tables.
Lemma dropMissingIDs_appendErrors dt ids data : dropMissingIDs (appendErrors dt ids data) = [].
Proof. unfold appendErrors, dropMissingIDs. induction (filter _ ids) as [|x l IH]; [done|]. done. Qed.
(** The result for a key: what was known, or else what the fetchers give for a key asked for. *)
Definition found (known : documents) (ids : list string) (table : documents) (k : string) : option string :=
  match known !! k with Some v => Some v | None => if decide (k ∈ ids) then table !! k else None end.
Lemma remaining_none (ids : list string) (known : documents) k : k ∈ remaining_ids ids known ↔ k ∈ ids ∧ known !! k = None.
Proof. unfold remaining_ids. rewrite list_elem_of_filter. tauto. Qed.
Lemma served_lookup (got t known : documents) ids : (∀ k, k ∈ remaining_ids ids known → got !! k = t !! k) → (∀ k, k ∈ dom got → k ∈ remaining_ids ids known) →
  ∀ k, (got ∪ known) !! k = found known ids t k.
Proof.
  intros Hg Hd k. unfold found. destruct (known !! k) as [v|] eqn:E.
  - rewrite lookup_union_r; [done|]. apply not_elem_of_dom. intros Hk%Hd%remaining_none. destruct Hk. congruence.
  - rewrite lookup_union_l by done. destruct (decide (k ∈ ids)) as [Hin|Hn]; [apply Hg, remaining_none; done|]. apply not_elem_of_dom. intros Hk%Hd%remaining_none. tauto.
Qed.
Lemma found_step (known known' t rest : documents) ids : (∀ k, known' !! k = found known ids t k) →
  ∀ k, found known' (remaining_ids ids known) rest k = found known ids (t ∪ rest) k.
Proof.
  intros Hk k. unfold found at 1. rewrite Hk. unfold found. destruct (known !! k) as [v|] eqn:E; [done|]. destruct (decide (k ∈ ids)) as [Hin|Hn].
  - rewrite lookup_union. destruct (t !! k) as [v|]; cbn; [by destruct (rest !! k)|]. rewrite decide_True by (by apply remaining_none). by destruct (rest !! k).
  - rewrite decide_False; [done|]. rewrite remaining_none. tauto.
Qed.
Lemma filter_remaining (ids : list string) (known out : documents) : (∀ k, out !! k = None → known !! k = None) →
  filter (λ k, out !! k = None) (remaining_ids ids known) = filter (λ k, out !! k = None) ids.
Proof.
  intros Hk. unfold remaining_ids. induction ids as [|id ids IH]; [done|]. rewrite !filter_cons. destruct (decide (known !! id = None)) as [E|E]; [rewrite filter_cons, IH; done|].
  rewrite IH. rewrite (decide_False (P := out !! id = None)); [done|]. auto.
Qed.
Lemma multi_loop_spec mf : ∀ tables rids iids r i errs rids' iids' r' i' errs',
  Forall2 (λ f t, serves_only (FetchRequests f) t.1 t.2) mf tables → multi_loop mf rids iids r i errs = (rids', iids', r', i', errs') →
  (∀ k, r' !! k = found r rids (all_of tables.*1) k) ∧ (∀ k, i' !! k = found i iids (all_of tables.*2) k) ∧
  filter (λ k, r' !! k = None) rids' = filter (λ k, r' !! k = None) rids ∧ filter (λ k, i' !! k = None) iids' = filter (λ k, i' !! k = None) iids ∧ errs' = errs.
Proof.
  induction mf as [|f mf IH]; intros tables rids iids r i errs rids' iids' r' i' errs' Hall; cbn [multi_loop].
  { apply Forall2_nil_inv_l in Hall as ->. intros [= <- <- <- <- <-]. unfold found. cbn. split_and!; try done; intros k; repeat case_match; done. }
  apply Forall2_cons_inv_l in Hall as ([t1 t2] & tables' & [Hs Ho] & Hall & ->). cbn [fst snd] in Hs, Ho.
  specialize (Hs (remaining_ids rids r) (remaining_ids iids i)). specialize (Ho (remaining_ids rids r) (remaining_ids iids i)).
  destruct (FetchRequests f _ _) as [[r0 i0] e0]. destruct Hs as (Hr & _ & Hi & _ & ->). destruct Ho as [Hr' Hi'].
  pose proof (served_lookup _ _ _ _ Hr Hr') as Fr. pose proof (served_lookup _ _ _ _ Hi Hi') as Fi.
  intros Hl. apply (IH _ _ _ _ _ _ _ _ _ _ _ Hall) in Hl as (Er & Ei & Fr' & Fi' & ->).
  assert (∀ k, r' !! k = found r rids (t1 ∪ all_of tables'.*1) k) as Gr by (intros k; by rewrite Er, (found_step _ _ _ _ _ Fr)).
  assert (∀ k, i' !! k = found i iids (t2 ∪ all_of tables'.*2) k) as Gi by (intros k; by rewrite Ei, (found_step _ _ _ _ _ Fi)).
  split_and!; [exact Gr|exact Gi| | |].
  - rewrite Fr'. apply filter_remaining. intros k. rewrite Gr. unfold found. by destruct (r !! k).
  - rewrite Fi'. apply filter_remaining. intros k. rewrite Gi. unfold found. by destruct (i !! k).
  - unfold dropMissingIDs. rewrite filter_app. fold (dropMissingIDs (appendErrors "Request" (remaining_ids rids r) t1)). fold (dropMissingIDs (appendErrors "Imp" (remaining_ids iids i) t2)).
    by rewrite !dropMissingIDs_appendErrors, app_nil_r.
Qed.
(** Fetchers that each serve a table and return only what they were asked for serve together
    the union of the tables, in which the first one that knows an id decides; and only that. *)
Theorem multi_fetcher_serves_union mf tables : Forall2 (λ f t, serves_only (FetchRequests f) t.1 t.2) mf tables →
  serves_only (multi_FetchRequests mf) (all_of tables.*1) (all_of tables.*2).
Proof.
  intros Hall. assert (∀ rids iids, ∃ r i, multi_FetchRequests mf rids iids = (r, i, appendErrors "Request" rids (all_of tables.*1) ++ appendErrors "Imp" iids (all_of tables.*2)) ∧
    (∀ k, r !! k = found ∅ rids (all_of tables.*1) k) ∧ (∀ k, i !! k = found ∅ iids (all_of tables.*2) k)) as Hm.
  { intros rids iids. unfold multi_FetchRequests. destruct (multi_loop _ _ _ _ _ _) as [[[[rids' iids'] r'] i'] errs'] eqn:El.
    apply (multi_loop_spec _ _ _ _ _ _ _ _ _ _ _ _ Hall) in El as (Er & Ei & Fr & Fi & ->). exists r', i'. split_and!; [|done|done]. cbn [app]. unfold appendNotFoundErrors, appendErrors. rewrite Fr, Fi.
    do 3 f_equal; f_equal; apply list_filter_in_iff; intros k Hk; [rewrite Er|rewrite Ei]; unfold found; rewrite lookup_empty, decide_True by done; done. }
  assert (∀ out ids table, (∀ k, out !! k = found ∅ ids table k) → (∀ k, k ∈ ids → out !! k = table !! k) ∧ out ⊆ table ∧ ∀ k, k ∈ dom out → k ∈ ids) as Hf.
  { intros out ids table Ho. unfold found in Ho. split_and!.
    - intros k Hk. by rewrite Ho, lookup_empty, decide_True.
    - apply map_subseteq_spec. intros k v. rewrite Ho, lookup_empty. by case_decide.
    - intros k [v Hv]%elem_of_dom. rewrite Ho, lookup_empty in Hv. by case_decide. }
  split; intros rids iids; destruct (Hm rids iids) as (r & i & -> & [Hr1 [Hr2 Hr3]]%Hf & [Hi1 [Hi2 Hi3]]%Hf); by split_and!.
Qed.

(** ** Examples *)
Module Example_stored.
#[local] Existing Instance canonical_range.
Definition table (l : list (string * string)) : documents := list_to_map l.
Definition keyed (reqs : documents) : AllFetcher := dbFetcher (λ rids iids, DbRows (row_of "request" <$> map_to_list (filter (λ kv, kv.1 ∈ rids) reqs)) None) (λ _, DbRows [] None).
Definition files (reqs : documents) : AllFetcher :=
  {| FetchRequests := file_FetchRequests {| fs_Directories := {["stored_requests" := reqs]} |}; FetchResponses := λ _, (∅, []); FetchAccount := λ _ _, (None, []); FetchCategories := λ _ _ _, ("", None) |}.
Definition one : documents := {["a" := "1"]}.
Definition two : documents := {["a" := "2"; "b" := "2"]}.
(** A fetcher that returns more than it was asked for takes over ids found before it. *)
Lemma later_fetcher_overrides : (multi_FetchRequests [keyed one; files two] ["a"] []).1.1 !! "a" = Some "2" ∧ (multi_FetchRequests [keyed one; keyed two] ["a"] []).1.1 !! "a" = Some "1".
Proof. split; vm_compute; reflexivity. Qed.
Definition empty_cache (c : documents) : Cache documents := mkCache c ∅ ∅ ∅.
Lemma empty_imps_answered reqs : answers (λ rids iids, DbRows (row_of "request" <$> map_to_list (filter (λ kv, kv.1 ∈ rids) reqs)) None) reqs ∅.
Proof. intros rids iids. by rewrite map_filter_empty, map_to_list_empty, app_nil_r. Qed.
Lemma one_two_serve_only : Forall2 (λ f t, serves_only (FetchRequests f) t.1 t.2) [keyed one; keyed two] [(one, ∅); (two, ∅)].
Proof.
  assert (∀ reqs, serves_only (FetchRequests (keyed reqs)) reqs ∅) as Hk; [|repeat constructor; apply Hk].
  intros reqs. split; [apply db_serves, empty_imps_answered|]. intros rids iids. cbn [FetchRequests keyed dbFetcher]. unfold db_FetchRequests.
  pose proof (read_rows_requests (map_to_list (filter (λ kv, kv.1 ∈ rids) reqs)) [] ∅ ∅) as Hr. rewrite app_nil_r in Hr. rewrite Hr, foldl_insert_map.
  destruct rids as [|x xs]; [destruct iids|]; (split; [|set_solver]); intros k [v Hv]%elem_of_dom; try (by rewrite lookup_empty in Hv); cbn in Hv; apply map_lookup_filter_Some in Hv; tauto.
Qed.
Lemma multi_fetcher_serves_union_witness : serves_only (multi_FetchRequests [keyed one; keyed two]) (all_of [one; two]) (all_of [∅; ∅]).
Proof. exact (multi_fetcher_serves_union [keyed one; keyed two] [(one, ∅); (two, ∅)] one_two_serve_only). Defined.
Lemma cache_is_transparent_witness : (cached_FetchRequests (keyed two) (empty_cache {["a" := "2"]}) ["a"; "b"; "c"] []).1.1.1 !! "b" = Some "2".
Proof.
  destruct (cached_FetchRequests (keyed two) (empty_cache {["a" := "2"]}) ["a"; "b"; "c"] []) as [[[r i] errs] c'] eqn:E.
  destruct (cache_is_transparent (keyed two) two ∅ (empty_cache {["a" := "2"]}) ["a"; "b"; "c"] [] r i errs c') as (Hr & _).
  - apply db_serves, empty_imps_answered.
  - intros k v. cbn. rewrite lookup_singleton_Some. intros [<- <-]. reflexivity.
  - intros k v. cbn. by rewrite lookup_empty.
  - exact E.
  - change (r !! "b" = Some "2"). rewrite Hr; [reflexivity|set_solver].
Defined.
(** A run: a fetch reads another key, the table changes, the event is processed, the fetch saves. *)
Definition start : world documents := {| w_table := two; w_cache := {["a" := "2"]}; w_pending := []; w_reading := []; w_overtaken := ∅ |}.
Lemma start_runs : ∃ w' : world documents, rtc step start w' ∧ w_pending w' = [] ∧ w_overtaken w' = ∅ ∧ w_table w' = <["a" := "3"]> two.
Proof.
  eexists. split.
  { unfold start. eapply rtc_l.
    { apply (step_read two (({["a" := "2"]} : documents)) [] [] ∅ {["b" := "2"]}). by apply map_singleton_subseteq_l. }
    eapply rtc_l.
    { apply (step_change two ({["a" := "2"]} : documents) [] _ ∅ (<["a" := "3"]> two) (ESave {["a" := "3"]})).
      intros k. cbn. destruct (decide (k = "a")) as [->|]; [done|]. by rewrite !lookup_insert_ne, lookup_singleton_ne by done. }
    eapply rtc_l.
    { apply (step_listen _ _ _ _ [] (ESave {["a" := "3"]}) ∅ []). constructor. }
    eapply rtc_l; [|apply rtc_refl].
    apply (step_save _ _ _ _ [] {["b" := "2"]} _ []). }
  split; [reflexivity|]. split; [vm_compute; reflexivity|reflexivity].
Qed.
Lemma cache_follows_backend_witness : ∃ w' : world documents, rtc step start w' ∧ w_table w' = <["a" := "3"]> two ∧ coherent (w_cache w') (w_table w').
Proof.
  destruct start_runs as (w' & Hr & Hp & Ho & Ht). exists w'. split; [exact Hr|]. split; [exact Ht|].
  refine (proj2 (cache_follows_backend start w' Hr eq_refl eq_refl _) Hp Ho).
  intros k v. cbn. rewrite lookup_singleton_Some. intros [<- <-]. reflexivity.
Defined.
(** A fetch that read the table before a change and saves after the event leaves the old document in the cache. *)
Lemma overtaken_fetch_is_stale : let table := {["a" := "new"]} in let fetched := {["a" := "old"]} in
  Get (Save (run_event (EInvalidate ["a"]) (∅ : documents)) (fetched : documents)) ["a"] !! "a" = Some "old" ∧ (table : documents) !! "a" = Some "new".
Proof. split; vm_compute; reflexivity. Qed.
(** Saves and invalidations come through two channels: a deletion processed before the save it follows leaves the document. *)
Lemma swapped_events_are_stale : let e1 := ESave {["a" := "1"]} in let e2 := EInvalidate ["a"] in
  Get (run_event e2 (run_event e1 (∅ : documents))) ["a"] = ∅ ∧ Get (run_event e1 (run_event e2 (∅ : documents))) ["a"] !! "a" = Some "1".
Proof. split; vm_compute; reflexivity. Qed.
(** Accounts that events put into the cache are not merged with the defaults, fetched ones are. *)
Lemma event_account_lacks_defaults : let merge d a := Ok (d +:+ a) in
  let fetcher := {| FetchRequests := λ _ _, (∅, ∅, []); FetchResponses := λ _, (∅, []); FetchAccount := file_FetchAccount merge {| fs_Directories := {["accounts" := {["p" := "own"]}]} |};
                    FetchCategories := λ _ _ _, ("", None) |} in
  let by_event := listen_turn (EventSave {| sv_Requests := ∅; sv_Imps := ∅; sv_Responses := ∅; sv_Accounts := {["p" := "own"]} |}) (empty_cache ∅) in
  (cached_FetchAccount fetcher (empty_cache ∅) (Some "defaults+") "p").1.1 = Some "defaults+own" ∧ (cached_FetchAccount fetcher by_event (Some "defaults+") "p").1.1 = Some "own".
Proof. split; vm_compute; reflexivity. Qed.
(** A category the file does not have is an error the first time it is asked for and no error afterwards. *)
Lemma missing_category_error_once : let st := ({| fs_Directories := {["ssp" := {["ssp" := "{}"]}]} |}, ∅) in
  let '(_, e1, st') := file_FetchCategories (λ _, Some ∅) st "ssp" "" "IAB1" in let '(_, e2, _) := file_FetchCategories (λ _, Some ∅) st' "ssp" "" "IAB1" in
  e1 = Some (OtherError "Unable to find category") ∧ e2 = None.
Proof. split; vm_compute; reflexivity. Qed.
(** An id that the HTTP endpoint leaves out is neither found nor reported. *)
Lemma omitted_id_not_reported : http_FetchRequests (λ _ _, HttpBody ∅ ∅) ["a"] [] = (∅, ∅, []).
Proof. reflexivity. Qed.
End Example_stored.
