(* ===== verification/StoredResponses.v ===== *)
(** * Stored responses and accounts: src/stored_responses/stored_responses.go, src/account/account.go

    Which stored responses a request asks for, and the maps from impressions and bidders to them; the
    account of a request with its defaults.  The fetcher, decoding and the validity of address masks
    are arguments. *)
From S2P Require Import Prelude GoStrings ErrorTypes StoredRequests.

(** ** Stored responses *)
Record StoredBidResponse := { sb_ID : string; sb_Bidder : string; sb_ReplaceImpId : option bool }.
(** The members of [imp.ext] that are read: [prebid] and the names of all members. *)
Record rImpPrebid := { rp_StoredAuctionResponse : option string; rp_StoredBidResponse : list StoredBidResponse; rp_Bidder : documents }.
Record rImp := { ri_ID : string; ri_ext : result string (option rImpPrebid * documents) }.
(** The ids asked for, by impression and bidder, by impression, and whether the impression id is replaced. *)
Record stored_ids := {
  si_all : list string; si_bids : gmap string (gmap string string); si_auctions : gmap string string; si_replace : gmap string (gmap string bool)
}.
Definition no_ids : stored_ids := {| si_all := []; si_bids := ∅; si_auctions := ∅; si_replace := ∅ |}.

Section responses.
Context {MR : MapRange}.
(** The loop over the names for one entry. *)
Definition claim_name (impId : string) (e : StoredBidResponse) (acc : gmap string string * gmap string bool * stored_ids) (name : string) : gmap string string * gmap string bool * stored_ids :=
  let '(ids, replace, out) := acc in
  match ids !! name with
  | Some _ => acc
  | None =>
      if EqualFold name (sb_Bidder e) then
        let ids := <[name := sb_ID e]> ids in
        let replace := <[name := default true (sb_ReplaceImpId e)]> replace in
        (ids, replace, {| si_all := si_all out ++ [sb_ID e]; si_bids := <[impId := ids]> (si_bids out); si_auctions := si_auctions out; si_replace := <[impId := replace]> (si_replace out) |})
      else acc
  end.
Fixpoint claim_entries (impId : string) (names : list string) (entries : list StoredBidResponse) (acc : gmap string string * gmap string bool * stored_ids)
    : result string (gmap string string * gmap string bool * stored_ids) :=
  match entries with
  | [] => Ok acc
  | e :: rest => if (sb_ID e =s? "") || (sb_Bidder e =s? "") then Err "imp has ext.prebid.storedbidresponse specified, but id or/and bidder fields are missing"
                 else claim_entries impId names rest (foldl (claim_name impId e) acc names)
  end.
Definition all_names (p : rImpPrebid) (ext : documents) : list string := (map_range (rp_Bidder p)).*1 ++ (map_range ext).*1.
Definition add_auction (impId : string) (id : string) (out : stored_ids) : stored_ids :=
  {| si_all := si_all out ++ [id]; si_bids := si_bids out; si_auctions := <[impId := id]> (si_auctions out); si_replace := si_replace out |}.
Fixpoint extractStoredResponsesIds (imps : list rImp) (out : stored_ids) : result string stored_ids :=
  match imps with
  | [] => Ok out
  | i :: imps =>
      let? (prebid, ext) := ri_ext i in
      match prebid with
      | None => extractStoredResponsesIds imps out
      | Some p =>
          match rp_StoredAuctionResponse p with
          | Some EmptyString => Err "imp has ext.prebid.storedauctionresponse specified, but id field is missing"
          | a =>
              let out := match a with Some id => add_auction (ri_ID i) id out | None => out end in
              let? (_, out) := claim_entries (ri_ID i) (all_names p ext) (rp_StoredBidResponse p) (∅, ∅, out) in
              extractStoredResponsesIds imps out
          end
      end
  end.
Definition put_flipped {V} (imp : string) (m : gmap string (gmap string V)) (kv : string * V) : gmap string (gmap string V) := <[kv.1 := <[imp := kv.2]> (default ∅ (m !! kv.1))]> m.
Definition flipMap {V} (m : gmap string (gmap string V)) : gmap string (gmap string V) :=
  foldl (λ acc iv, foldl (put_flipped iv.1) acc (map_range iv.2)) ∅ (map_range m).
Definition stored_text (stored : documents) (id : string) : string := default "" (stored !! id).
(** The documents by impression, by impression and bidder, and an error for each that is missing or empty. *)
Definition buildStoredResponsesMaps (stored : documents) (bids : gmap string (gmap string string)) (auctions : gmap string string)
    : documents * gmap string documents * list string :=
  let present id := if stored_text stored id =s? "" then None else Some (stored_text stored id) in
  (omap present auctions, (λ m : documents, (omap present m : documents)) <$> bids,
   omap (λ kv : string * string, match present kv.2 with None => Some ("failed to fetch stored auction response for impId = " +:+ kv.1 +:+ " and storedAuctionResponse id = " +:+ kv.2) | Some _ => None end) (map_range auctions) ++
   concat (map (λ ib : string * gmap string string,
     omap (λ kv : string * string, match present kv.2 with None => Some ("failed to fetch stored bid response for impId = " +:+ ib.1 +:+ ", bidder = " +:+ kv.1 +:+ " and storedBidResponse id = " +:+ kv.2) | Some _ => None end)
       (map_range ib.2)) (map_range bids))).
Record stored_responses := { sr_auctions : documents; sr_bids : gmap string documents; sr_replace : gmap string (gmap string bool) }.
Definition ProcessStoredResponses (fetch : list string → documents * list fetch_error) (imps : list rImp) : option stored_responses * list string :=
  match extractStoredResponsesIds imps no_ids with
  | Err e => (None, [e])
  | Ok ids =>
      match si_all ids with
      | [] => (None, [])
      | _ =>
          match fetch (si_all ids) with
          | (stored, []) =>
              let '(auctions, bids, errs) := buildStoredResponsesMaps stored (si_bids ids) (si_auctions ids) in
              (Some {| sr_auctions := auctions; sr_bids := bids; sr_replace := flipMap (si_replace ids) |}, errs)
          | (_, errs) => (None, fetch_error_Error <$> errs)
          end
      end
  end.

(** ** Theorems *)
Lemma put_flipped_lookup {V} imp (l : list (string * V)) : NoDup l.*1 → ∀ m b i,
  (foldl (put_flipped imp) m l !! b) ≫= (λ x, x !! i) =
  match (if decide (i = imp) then list_to_map (M := gmap string V) l !! b else None) with Some v => Some v | None => (m !! b) ≫= (λ x, x !! i) end.
Proof.
  induction l as [|[b0 v0] l IH]; intros Hnd m b i; cbn [foldl]; [cbn; rewrite lookup_empty; by case_decide|].
  rewrite fmap_cons in Hnd. apply NoDup_cons in Hnd as [Hb0 Hnd]. cbn in Hb0. rewrite (IH Hnd). unfold put_flipped. cbn [fst snd list_to_map foldr uncurry].
  destruct (decide (b = b0)) as [->|Hne]; [|rewrite !lookup_insert_ne by done; done].
  rewrite !lookup_insert_eq. cbn. assert (list_to_map (M := gmap string V) l !! b0 = None) as -> by (by apply not_elem_of_list_to_map_1).
  destruct (decide (i = imp)) as [->|Hi]; [by rewrite lookup_insert_eq|]. rewrite lookup_insert_ne by done. by destruct (m !! b0).
Qed.
(** Turning the map around: what was under an impression and a bidder is under the bidder and the impression, in every order of the maps. *)
Lemma flipMap_lookup {V} (m : gmap string (gmap string V)) b i : (flipMap m !! b) ≫= (λ x, x !! i) = (m !! i) ≫= (λ x, x !! b).
Proof.
  assert (∀ l : list (string * gmap string V), NoDup l.*1 → ∀ acc, (foldl (λ acc iv, foldl (put_flipped iv.1) acc (map_range iv.2)) acc l !! b) ≫= (λ x, x !! i) =
    match (list_to_map (M := gmap string (gmap string V)) l !! i) ≫= (λ x, x !! b) with Some v => Some v | None => (acc !! b) ≫= (λ x, x !! i) end) as Hl.
  { induction l as [|[i0 x0] l IH]; intros Hnd acc; [done|]. rewrite fmap_cons in Hnd. apply NoDup_cons in Hnd as [Hi0 Hnd]. cbn in Hi0. cbn [foldl fst snd]. rewrite (IH Hnd), put_flipped_lookup by apply NoDup_map_range_fst.
    cbn [list_to_map foldr uncurry fst snd]. destruct (decide (i = i0)) as [->|Hne].
    - rewrite lookup_insert_eq. assert (list_to_map (M := gmap string (gmap string V)) l !! i0 = None) as -> by (by apply not_elem_of_list_to_map_1). cbn.
      rewrite (list_to_map_proper (map_range x0) (map_to_list x0)), list_to_map_to_list; [done|apply NoDup_map_range_fst|apply map_range_perm].
    - rewrite lookup_insert_ne by done. done. }
  unfold flipMap. rewrite Hl by apply NoDup_map_range_fst. rewrite lookup_empty. cbn.
  rewrite (list_to_map_proper (map_range m) (map_to_list m)), list_to_map_to_list; [by destruct (m !! i ≫= _)|apply NoDup_map_range_fst|apply map_range_perm].
Qed.
(** The entry that answers a name: the first with that bidder, in any letter case. *)
Definition entry_for (entries : list StoredBidResponse) (name : string) : option StoredBidResponse := find (λ e, EqualFold name (sb_Bidder e)) entries.
Lemma claim_name_ids impId e names : ∀ acc name,
  (foldl (claim_name impId e) acc names).1.1 !! name = match acc.1.1 !! name with Some id => Some id | None => if decide (name ∈ names ∧ EqualFold name (sb_Bidder e) = true) then Some (sb_ID e) else None end.
Proof.
  induction names as [|n names IH]; intros [[ids rep] out] name; cbn [foldl fst snd].
  { destruct (ids !! name); [done|]. rewrite decide_False; [done|]. set_solver. }
  rewrite IH. unfold claim_name. cbn [fst snd]. destruct (ids !! n) as [x|] eqn:En; cbn [fst snd].
  - destruct (ids !! name) as [y|] eqn:Ey; [done|]. apply decide_ext. assert (name ≠ n) by congruence. set_solver.
  - destruct (EqualFold n (sb_Bidder e)) eqn:Ef; cbn [fst snd].
    + destruct (decide (name = n)) as [->|Hne]; [rewrite lookup_insert_eq, En, decide_True; [done|]; split; [left|done]|]. rewrite lookup_insert_ne by done.
      destruct (ids !! name); [done|]. apply decide_ext. set_solver.
    + destruct (ids !! name); [done|]. apply decide_ext. split; [intros [? ?]; split; [by right|done]|]. intros [[->|?]%elem_of_cons ?]; [congruence|done].
Qed.
Lemma claim_entries_ids impId names entries : ∀ acc out name, claim_entries impId names entries acc = Ok out →
  out.1.1 !! name = match acc.1.1 !! name with Some id => Some id | None => if decide (name ∈ names) then sb_ID <$> entry_for entries name else None end.
Proof.
  induction entries as [|e entries IH]; intros acc out name; cbn [claim_entries].
  { intros [= <-]. cbn. destruct (acc.1.1 !! name); [done|]. by case_decide. }
  destruct ((sb_ID e =s? "") || (sb_Bidder e =s? "")); [done|]. intros Hc. rewrite (IH _ _ name Hc), claim_name_ids. destruct (acc.1.1 !! name); [done|].
  unfold entry_for. cbn [find]. destruct (decide (name ∈ names)) as [Hin|Hn]; [|rewrite decide_False by tauto; done].
  destruct (EqualFold name (sb_Bidder e)) eqn:Ef; [by rewrite decide_True|rewrite decide_False by (intros [_ ?]; done)]. done.
Qed.
(** For one impression a bidder of [imp.ext] or of [imp.ext.prebid.bidder] is answered by the first stored
    response for it, whatever the order of the maps; no other name is. *)
Lemma stored_bid_of_bidder impId names entries out ids replace out' :
  claim_entries impId names entries (∅, ∅, out) = Ok (ids, replace, out') → ∀ name, ids !! name = if decide (name ∈ names) then sb_ID <$> entry_for entries name else None.
Proof. intros Hc name. pose proof (claim_entries_ids _ _ _ _ _ name Hc) as H. cbn in H. by rewrite lookup_empty in H. Qed.
Lemma all_names_elem p ext name : name ∈ all_names p ext ↔ name ∈ dom (rp_Bidder p) ∨ name ∈ dom ext.
Proof.
  assert (∀ m : documents, name ∈ (map_range m).*1 ↔ name ∈ dom m) as Hm.
  { intros m. rewrite list_elem_of_fmap, elem_of_dom. split; [intros ([k v] & -> & Hin%elem_of_map_range); by exists v|intros [v Hv]; exists (name, v); split; [done|by apply elem_of_map_range]]. }
  unfold all_names. by rewrite elem_of_app, !Hm.
Qed.
(** A response that was found is the text that was fetched for its id; one that is missing or empty is an error. *)
Lemma stored_bid_text stored bids auctions out_a out_b errs : buildStoredResponsesMaps stored bids auctions = (out_a, out_b, errs) →
  errs = [] → ∀ i b id, (bids !! i ≫= λ x, x !! b) = Some id → (out_b !! i ≫= λ x, x !! b) = stored !! id ∧ stored_text stored id ≠ "".
Proof.
  unfold buildStoredResponsesMaps. intros [= <- <- <-] Herr i b id Hid. apply app_eq_nil in Herr as [_ Herr]. destruct (bids !! i) as [x|] eqn:Ei; [|done]. cbn in Hid.
  assert (stored_text stored id ≠ "") as Hne.
  { intros E. assert ((i, x) ∈ map_range bids) as Hin by (by apply elem_of_map_range). assert ((b, id) ∈ map_range x) as Hin' by (by apply elem_of_map_range).
    match type of Herr with concat (map ?f _) = [] => assert (f (i, x) = []) as Hf end.
    { assert (∀ l : list (list string), concat l = [] → ∀ y, y ∈ l → y = []) as Hc by (induction l as [|z l IH]; [intros _ y Hy; by apply elem_of_nil in Hy|]; cbn; intros [? ?]%app_eq_nil y [->|?]%elem_of_cons; [done|by apply IH]).
      apply (Hc _ Herr). apply list_elem_of_fmap. by exists (i, x). }
    cbn [snd fst] in Hf. match type of Hf with omap ?g _ = [] => assert (∃ m, g (b, id) = Some m) as [m Hm] by (cbn; rewrite E; by eexists); assert (m ∈ omap g (map_range x)) as Hx by (apply list_elem_of_omap; by exists (b, id)) end.
    rewrite Hf in Hx. by apply elem_of_nil in Hx. }
  split; [|done]. rewrite lookup_fmap, Ei. cbn. rewrite lookup_omap, Hid. cbn. destruct (String.eqb_spec (stored_text stored id) ""); [done|]. unfold stored_text in *. by destruct (stored !! id).
Qed.
End responses.

(** ** Accounts (account/account.go) *)
(** The settings of an account that are read here; the masks are valid or not. *)
Record Account := { ac_ID : string; ac_Disabled : bool; ac_IPv6 : Z; ac_IPv4 : Z; ac_rest : string }.
Definition set_ac_ID v (a : Account) : Account := {| ac_ID := v; ac_Disabled := ac_Disabled a; ac_IPv6 := ac_IPv6 a; ac_IPv4 := ac_IPv4 a; ac_rest := ac_rest a |}.
Definition set_ac_masks v6 v4 (a : Account) : Account := {| ac_ID := ac_ID a; ac_Disabled := ac_Disabled a; ac_IPv6 := v6; ac_IPv4 := v4; ac_rest := ac_rest a |}.
Record account_config := { cf_AccountRequired : bool; cf_AccountDefaults : Account; cf_AccountDefaultsJSON : option string }.
Definition PublisherUnknown : string := "unknown".
Definition IPv6DefaultMaskingBitSize : Z := 56.
Definition IPv4DefaultMaskingBitSize : Z := 24.
Definition valid_mask (bits width : Z) : bool := (0 <=? bits) && (bits <=? width).
Definition repair_masks (a : Account) : Account :=
  set_ac_masks (if valid_mask (ac_IPv6 a) 128 then ac_IPv6 a else IPv6DefaultMaskingBitSize) (if valid_mask (ac_IPv4 a) 32 then ac_IPv4 a else IPv4DefaultMaskingBitSize) a.
(** [decode] reads an account and its DSA default. *)
Definition GetAccount (decode : string → option Account) (cfg : account_config) (fetcher : option string → string → option string * list fetch_error) (accountID : string)
    : option Account * list go_error :=
  if cf_AccountRequired cfg && (accountID =s? PublisherUnknown) then
    (None, [AcctRequired "Prebid-server has been configured to discard requests without a valid Account ID."])
  else
    let finish (a : Account) (errs : list go_error) :=
      if ac_Disabled a then (None, errs ++ [AccountDisabled ("Prebid-server has disabled Account ID: " +:+ accountID)]) else (Some (repair_masks a), []) in
    match fetcher (cf_AccountDefaultsJSON cfg) accountID with
    | (Some json, []) =>
        match decode json with
        | None => (None, [MalformedAcct ("The prebid-server account config for account id " +:+ accountID +:+ " is malformed.")])
        | Some a => finish (if ac_ID a =s? "" then set_ac_ID accountID a else a) []
        end
    | (_, accErrs) =>
        let errs := omap (λ e, match e with NotFoundError _ _ => None | OtherError m => Some (PlainError m) end) accErrs in
        if cf_AccountRequired cfg && ac_Disabled (cf_AccountDefaults cfg) then (None, errs ++ [AcctRequired "Prebid-server could not verify the Account ID."])
        else finish (set_ac_ID accountID (cf_AccountDefaults cfg)) errs
    end.
(** An account is given or an error, never both, and it is enabled with masks that are valid. *)
Lemma GetAccount_outcome decode cfg fetcher accountID :
  match GetAccount decode cfg fetcher accountID with
  | (Some a, errs) => errs = [] ∧ ac_Disabled a = false ∧ valid_mask (ac_IPv6 a) 128 = true ∧ valid_mask (ac_IPv4 a) 32 = true
  | (None, errs) => ContainsFatalError errs = true
  end.
Proof.
  assert (∀ a, valid_mask (ac_IPv6 (repair_masks a)) 128 = true ∧ valid_mask (ac_IPv4 (repair_masks a)) 32 = true) as Hm.
  { intros a. unfold repair_masks. cbn. split; [destruct (valid_mask (ac_IPv6 a) 128) eqn:E|destruct (valid_mask (ac_IPv4 a) 32) eqn:E]; done. }
  assert (∀ l e, isFatal e = true → ContainsFatalError (l ++ [e]) = true) as Hs by (intros l e He; unfold ContainsFatalError; rewrite existsb_app; cbn; rewrite He; apply orb_true_r).
  unfold GetAccount. destruct (cf_AccountRequired cfg && (accountID =s? PublisherUnknown)); [done|].
  destruct (fetcher _ _) as [[json|] [|e l]];
    [destruct (decode json) as [a|]; [|done]; set (x := if ac_ID a =s? "" then _ else _)| | |];
    try (destruct (cf_AccountRequired cfg && ac_Disabled (cf_AccountDefaults cfg)); [by apply Hs|]; set (x := set_ac_ID accountID _));
    (destruct (ac_Disabled x) eqn:Ed; [by apply Hs|split_and!; [done|exact Ed|apply Hm|apply Hm]]).
Qed.
(** A database that fails is treated like an unknown account: with defaults that are enabled its error is dropped. *)
Lemma account_errors_dropped : GetAccount (λ _, None) {| cf_AccountRequired := false; cf_AccountDefaults := {| ac_ID := ""; ac_Disabled := false; ac_IPv6 := 56; ac_IPv4 := 24; ac_rest := "" |}; cf_AccountDefaultsJSON := None |}
    (λ _ _, (None, [OtherError "timeout"])) "p" = (Some {| ac_ID := "p"; ac_Disabled := false; ac_IPv6 := 56; ac_IPv4 := 24; ac_rest := "" |}, []).
Proof. reflexivity. Qed.
