(* ===== verification/Topics.v ===== *)
(** * Browsing topics: src/privacysandbox/topics.go

    The Sec-Browsing-Topics header and the merge of its topics into [user.data]. *)
From S2P Require Import Prelude GoStrings ErrorTypes EventsSpec.

Record Topic := { tp_SegTax : Z; tp_SegClass : string; tp_SegIDs : list Z }.
Definition SecBrowsingTopicsWarningCode : Z := 10012.
Definition formatWarning (msg : string) : go_error := DebugWarning ("Invalid field in Sec-Browsing-Topics header: " +:+ msg) SecBrowsingTopicsWarningCode.

(** ** The header *)
(** [strings.Fields]: the words between spaces.  [skip] bytes of a space are still to be left out. *)
Fixpoint fields_from (s cur : string) (skip : nat) : list string :=
  match s with
  | EmptyString => if cur =s? "" then [] else [cur]
  | String a s' =>
      match skip with
      | S k => fields_from s' cur k
      | O => match space_len s with
             | O => fields_from s' (cur +:+ String a "") 0
             | S k => (if cur =s? "" then [] else [cur]) ++ fields_from s' "" k
             end
      end
  end.
Definition Fields (s : string) : list string := fields_from s "" 0.
Fixpoint parse_ids (l : list string) : option (list Z) :=
  match l with
  | [] => Some []
  | s :: l => match Atoi (TrimSpace s) with Some id => if id <=? 0 then None else ids ← parse_ids l; Some (id :: ids) | None => None end
  end.
Definition parseSegmentIDs (s : string) : option (list Z) := parse_ids (Fields s).
Definition parseSegTaxSegClass (seg : string) : Z * string :=
  match SplitChar ":" seg with
  | [_; ver; cls] => match Atoi (TrimSpace ver) with
                     | Some taxonomy => if (taxonomy <? 1) || (10 <? taxonomy) then (0, "") else (600 + (taxonomy - 1), TrimSpace cls)
                     | None => (0, "")
                     end
  | _ => (0, "")
  end.
Definition in_parens (s : string) : option string :=
  let n := String.length s in
  if (n <? 3)%nat || negb (HasPrefix s "(") || negb (HasSuffix s ")") then None else Some (str_take (n - 2) (str_drop 1 s)).
Definition parseTopicSegment (field : string) : option Topic :=
  match SplitChar ";" field with
  | [ids; version] =>
      inner ← in_parens (TrimSpace ids);
      let '(segtax, segclass) := parseSegTaxSegClass version in
      if (segtax =? 0) || (segclass =s? "") then None
      else ids ← parseSegmentIDs inner; Some {| tp_SegTax := segtax; tp_SegClass := segclass; tp_SegIDs := ids |}
  | _ => None
  end.
Fixpoint parse_topics (fields : list string) (topics : list Topic) (warnings : list go_error) : list Topic * list go_error :=
  match fields with
  | [] => (topics, warnings)
  | f :: fields =>
      let field := TrimSpace f in
      if (field =s? "") || HasPrefix field "();p=" then parse_topics fields topics warnings
      else if (length topics <? 10)%nat then
        match parseTopicSegment field with
        | Some t => parse_topics fields (topics ++ [t]) warnings
        | None => parse_topics fields topics (warnings ++ [formatWarning field])
        end
      else parse_topics fields topics (warnings ++ [formatWarning (field +:+ " discarded due to limit reached.")])
  end.
Definition ParseTopicsFromHeader (header : string) : list Topic * list go_error := parse_topics (SplitChar "," header) [] [].

(** ** [user.data].  [dt_Ext] is the taxonomy and class of the extension, [None] when it does not decode. *)
Record Data := { dt_Name : string; dt_Ext : option (Z * string); dt_Segment : list string }.
Abbreviation topic_map := (gmap (Z * string) (gset Z)).
(** The runtime's orders of the maps: classes by taxonomy, and ids. *)
Class TopicRange := {
  range_topics : topic_map → list ((Z * string) * gset Z);
  range_topics_perm : ∀ m, range_topics m ≡ₚ map_to_list m;
  range_ids : gset Z → list Z;
  range_ids_perm : ∀ s, range_ids s ≡ₚ elements s
}.
Definition canonical_topics : TopicRange := {|
  range_topics := λ m, map_to_list m; range_topics_perm := λ m, reflexivity _; range_ids := λ s, elements s; range_ids_perm := λ s, reflexivity _ |}.
Section topics.
Context {TR : TopicRange}.
Definition add_topic (m : topic_map) (t : Topic) : topic_map :=
  <[(tp_SegTax t, tp_SegClass t) := list_to_set (tp_SegIDs t) ∪ default ∅ (m !! (tp_SegTax t, tp_SegClass t))]> m.
Definition createHeaderDataMap (header : list Topic) : topic_map := foldl add_topic ∅ header.
Definition known_ids (segments : list string) : gset Z := list_to_set (omap Atoi segments).
(** The new ids, or nil; the ids found are taken out of the map that is shared. *)
Definition findNewSegIDs (name domain : string) (key : Z * string) (segments : list string) (m : topic_map) : option (list Z) :=
  if name ≠s? domain then None else ids ← m !! key; Some (range_ids (ids ∖ known_ids segments)).
Fixpoint merge_data (domain : string) (l : list Data) (m : topic_map) : list Data * topic_map :=
  match l with
  | [] => ([], m)
  | d :: l =>
      match dt_Ext d with
      | Some (tax, cls) =>
          if (tax =? 0) || (cls =s? "") then let '(l, m) := merge_data domain l m in (d :: l, m)
          else match findNewSegIDs (dt_Name d) domain (tax, cls) (dt_Segment d) m with
               | Some ids => let '(l, m) := merge_data domain l (delete (tax, cls) m) in
                             ({| dt_Name := dt_Name d; dt_Ext := dt_Ext d; dt_Segment := dt_Segment d ++ (pretty <$> ids) |} :: l, m)
               | None => let '(l, m) := merge_data domain l m in (d :: l, m)
               end
      | None => let '(l, m) := merge_data domain l m in (d :: l, m)
      end
  end.
Definition new_data (domain : string) (kv : (Z * string) * gset Z) : option Data :=
  if bool_decide (kv.2 = ∅) then None else Some {| dt_Name := domain; dt_Ext := Some kv.1; dt_Segment := pretty <$> range_ids kv.2 |}.
Definition UpdateUserDataWithTopics (userData : list Data) (header : list Topic) (domain : string) : list Data :=
  if domain =s? "" then userData
  else let '(l, m) := merge_data domain userData (createHeaderDataMap header) in l ++ omap (new_data domain) (range_topics m).

(** ** Theorems *)
(** An id of a taxonomy and class is in [user.data] of the domain. *)
Definition has_topic (domain : string) (l : list Data) (key : Z * string) (id : Z) : Prop :=
  ∃ d s, d ∈ l ∧ dt_Name d = domain ∧ dt_Ext d = Some key ∧ s ∈ dt_Segment d ∧ Atoi s = Some id.
Definition header_topic (header : list Topic) (key : Z * string) (id : Z) : Prop := ∃ t, t ∈ header ∧ (tp_SegTax t, tp_SegClass t) = key ∧ id ∈ tp_SegIDs t.
Definition grown (d d' : Data) : Prop := dt_Name d' = dt_Name d ∧ dt_Ext d' = dt_Ext d ∧ dt_Segment d `prefix_of` dt_Segment d'.
Definition ids_in (m : topic_map) (key : Z * string) (id : Z) : Prop := ∃ s, m !! key = Some s ∧ id ∈ s.
Lemma createHeaderDataMap_ids header key id : ids_in (createHeaderDataMap header) key id ↔ header_topic header key id.
Proof.
  unfold createHeaderDataMap. assert (∀ m, ids_in (foldl add_topic m header) key id ↔ ids_in m key id ∨ header_topic header key id) as Hg.
  { induction header as [|t header IH]; intros m; cbn [foldl]; [unfold header_topic; set_solver|]. rewrite IH. unfold header_topic, ids_in, add_topic. split.
    - intros [(s & Hs & Hin)|(t' & Ht' & Hk & Hin)]; [|right; exists t'; set_solver]. destruct (decide ((tp_SegTax t, tp_SegClass t) = key)) as [E|Hne].
      + rewrite E, lookup_insert_eq in Hs. injection Hs as <-. apply elem_of_union in Hin as [Hin|Hin]; [right; exists t; set_solver|left]. destruct (m !! key) as [x|]; [by exists x|set_solver].
      + rewrite lookup_insert_ne in Hs by done. left. by exists s.
    - intros [(s & Hs & Hin)|(t' & [->|Ht']%elem_of_cons & Hk & Hin)].
      + left. destruct (decide ((tp_SegTax t, tp_SegClass t) = key)) as [E|Hne]; [rewrite E, lookup_insert_eq, Hs; eexists; split; [done|set_solver]|rewrite lookup_insert_ne by done; by exists s].
      + left. rewrite Hk, lookup_insert_eq. eexists. split; [done|set_solver].
      + right. by exists t'. }
  rewrite Hg. unfold ids_in. split; [intros [(s & Hs & _)|?]; [by rewrite lookup_empty in Hs|done]|by right].
Qed.
Definition good_ids (m : topic_map) : Prop := ∀ key id, ids_in m key id → 0 < id < two63.
Definition good_keys (m : topic_map) : Prop := ∀ key, is_Some (m !! key) → key.1 ≠ 0 ∧ key.2 ≠ "".
Lemma has_topic_cons domain d l key id : has_topic domain (d :: l) key id ↔ has_topic domain [d] key id ∨ has_topic domain l key id.
Proof. unfold has_topic. set_solver. Qed.
Lemma elem_of_range_ids s id : id ∈ range_ids s ↔ id ∈ s.
Proof. rewrite range_ids_perm. apply elem_of_elements. Qed.
(** One entry: its own ids, and the new ones. *)
Lemma grown_topic domain d key ids id : dt_Name d = domain → dt_Ext d = Some key → (∀ id, id ∈ ids → 0 < id < two63) →
  has_topic domain [{| dt_Name := dt_Name d; dt_Ext := dt_Ext d; dt_Segment := dt_Segment d ++ (pretty <$> range_ids (ids ∖ known_ids (dt_Segment d))) |}] key id ↔
  has_topic domain [d] key id ∨ id ∈ ids.
Proof.
  intros Hn He Hg. unfold has_topic. split.
  - intros (x & s & ->%list_elem_of_singleton & _ & _ & [Hs|(z & -> & Hz)%list_elem_of_fmap]%elem_of_app & Ha); [left; exists d, s; set_solver|]. right.
    apply elem_of_range_ids, elem_of_difference in Hz as [Hz _]. destruct (Atoi_pretty z (Hg z Hz)) as [E _]. congruence.
  - intros [(x & s & ->%list_elem_of_singleton & _ & _ & Hs & Ha)|Hin].
    + eexists _, s. split; [left|]. cbn. set_solver.
    + destruct (decide (id ∈ known_ids (dt_Segment d))) as [Hk|Hk].
      * unfold known_ids in Hk. apply elem_of_list_to_set, list_elem_of_omap in Hk as (s & Hs & Ha). eexists _, s. split; [left|]. cbn. set_solver.
      * destruct (Atoi_pretty id (Hg id Hin)) as [E _]. eexists _, (pretty id). split; [left|]. cbn. split_and!; [done|done| |done]. apply elem_of_app. right. apply list_elem_of_fmap. exists id. split; [done|]. apply elem_of_range_ids. set_solver.
Qed.
Lemma merge_data_spec domain l : ∀ m l' m', good_ids m → good_keys m → merge_data domain l m = (l', m') →
  Forall2 grown l l' ∧ m' ⊆ m ∧ (∀ key id, has_topic domain l' key id ∨ ids_in m' key id ↔ has_topic domain l key id ∨ ids_in m key id).
Proof.
  assert (∀ d, grown d d) as Hgr by (intros d; by split_and!).
  induction l as [|d l IH]; intros m l' m' Hg Hk; cbn [merge_data]; [intros [= <- <-]; by split_and!|].
  assert (∀ l1 m1, merge_data domain l m = (l1, m1) → Forall2 grown (d :: l) (d :: l1) ∧ m1 ⊆ m ∧ (∀ key id, has_topic domain (d :: l1) key id ∨ ids_in m1 key id ↔ has_topic domain (d :: l) key id ∨ ids_in m key id)) as Hkeep.
  { intros l1 m1 E. destruct (IH _ _ _ Hg Hk E) as (Hf & Hs & Hi). split_and!; [by constructor|done|]. intros key id. pose proof (has_topic_cons domain d l1 key id). pose proof (has_topic_cons domain d l key id). specialize (Hi key id). tauto. }
  destruct (dt_Ext d) as [[tax cls]|] eqn:Ed; [|destruct (merge_data domain l m) as [l1 m1] eqn:E; intros [= <- <-]; by apply Hkeep].
  destruct ((tax =? 0) || (cls =s? "")); [destruct (merge_data domain l m) as [l1 m1] eqn:E; intros [= <- <-]; by apply Hkeep|].
  unfold findNewSegIDs. destruct (String.eqb_spec (dt_Name d) domain) as [Hn|]; cbn [negb]; [|destruct (merge_data domain l m) as [l1 m1] eqn:E; intros [= <- <-]; by apply Hkeep].
  destruct (m !! (tax, cls)) as [ids|] eqn:Em; cbn [mbind option_bind]; [|destruct (merge_data domain l m) as [l1 m1] eqn:E; intros [= <- <-]; by apply Hkeep].
  destruct (merge_data domain l (delete (tax, cls) m)) as [l1 m1] eqn:E. intros [= <- <-].
  assert (∀ key id, ids_in m key id ↔ ids_in (delete (tax, cls) m) key id ∨ (key = (tax, cls) ∧ id ∈ ids)) as Hdel.
  { intros key id. unfold ids_in. destruct (decide (key = (tax, cls))) as [->|Hne]; [rewrite lookup_delete_eq, Em|rewrite lookup_delete_ne by done]; set_solver. }
  destruct (IH (delete (tax, cls) m) l1 m1) as (Hf & Hs & Hi); [intros key id Hin; apply (Hg key); apply Hdel; by left|intros key [x Hx]; apply Hk; apply lookup_delete_Some in Hx as [_ Hx]; by exists x|done|].
  split_and!; [constructor; [|done]; split_and!; [done|done|by apply prefix_app_r]|etrans; [done|apply delete_subseteq]|].
  intros key id. set (d' := {| dt_Name := _; dt_Ext := _; dt_Segment := _ |}). pose proof (has_topic_cons domain d' l1 key id) as H1. pose proof (has_topic_cons domain d l key id) as H2.
  specialize (Hi key id). specialize (Hdel key id). destruct (decide (key = (tax, cls))) as [->|Hne].
  - assert (has_topic domain [d'] (tax, cls) id ↔ has_topic domain [d] (tax, cls) id ∨ id ∈ ids) as H3; [|tauto].
    subst d'. rewrite <-Ed. apply (grown_topic domain d (tax, cls) ids id Hn Ed). intros x Hx. apply (Hg (tax, cls)). by exists ids.
  - assert (∀ d0, dt_Ext d0 = Some (tax, cls) → ¬ has_topic domain [d0] key id) as Hno by (intros d0 Ed' (x & s & ->%list_elem_of_singleton & _ & Ex & _); congruence).
    pose proof (Hno d Ed). pose proof (Hno d' eq_refl). tauto.
Qed.
(** Merging topics keeps every entry of [user.data], only with ids appended, and afterwards the domain's data holds exactly the ids it had and
    those of the header, whatever the order of the maps. *)
Lemma topics_merged userData header domain : domain ≠ "" → Forall (λ t, tp_SegTax t ≠ 0 ∧ tp_SegClass t ≠ "" ∧ Forall (λ id, 0 < id < two63) (tp_SegIDs t)) header →
  (∃ old new, UpdateUserDataWithTopics userData header domain = old ++ new ∧ Forall2 grown userData old ∧ Forall (λ d, dt_Name d = domain) new) ∧
  ∀ key id, has_topic domain (UpdateUserDataWithTopics userData header domain) key id ↔ has_topic domain userData key id ∨ header_topic header key id.
Proof.
  intros Hd Hh. unfold UpdateUserDataWithTopics. destruct (String.eqb_spec domain ""); [done|]. destruct (merge_data _ _ _) as [l m] eqn:E.
  assert (∀ key id, ids_in (createHeaderDataMap header) key id → (key.1 ≠ 0 ∧ key.2 ≠ "") ∧ 0 < id < two63) as Hids.
  { intros key id (t & Ht & <- & Hin)%createHeaderDataMap_ids. rewrite Forall_forall in Hh. destruct (Hh t Ht) as (? & ? & Hf). rewrite Forall_forall in Hf. split; [done|by apply Hf]. }
  assert (good_ids (createHeaderDataMap header)) as Hgi by (intros key id Hin; by apply (Hids key id)).
  assert (good_keys (createHeaderDataMap header)) as Hgk.
  { intros key Hs. assert (∃ t, t ∈ header ∧ (tp_SegTax t, tp_SegClass t) = key) as (t & Ht & <-).
    { revert Hs. unfold createHeaderDataMap. assert (∀ m, is_Some (foldl add_topic m header !! key) → is_Some (m !! key) ∨ ∃ t, t ∈ header ∧ (tp_SegTax t, tp_SegClass t) = key) as Hg.
      { clear. induction header as [|t header IH]; intros m; cbn [foldl]; [by left|]. intros [Hm|(t' & ? & ?)]%IH; [|right; exists t'; set_solver].
        destruct (decide ((tp_SegTax t, tp_SegClass t) = key)) as [Ek|]; [right; exists t; set_solver|]. unfold add_topic in Hm. rewrite lookup_insert_ne in Hm by done. by left. }
      intros [[x Hx]|?]%Hg; [by rewrite lookup_empty in Hx|done]. }
    rewrite Forall_forall in Hh. destruct (Hh t Ht) as (? & ? & _). done. }
  destruct (merge_data_spec _ _ _ _ _ Hgi Hgk E) as (Hf & Hsub & Hi). split.
  - exists l, (omap (new_data domain) (range_topics m)). split_and!; [done|done|]. apply Forall_forall. intros d (kv & _ & Hn)%list_elem_of_omap. unfold new_data in Hn. case_bool_decide; [done|]. by injection Hn as <-.
  - intros key id. rewrite <-createHeaderDataMap_ids, <-Hi. assert (has_topic domain (omap (new_data domain) (range_topics m)) key id ↔ ids_in m key id) as Hnew.
    { unfold has_topic, ids_in. split.
      - intros (d & s & (kv & Hkv & Hn)%list_elem_of_omap & _ & He & Hs & Ha). unfold new_data in Hn. case_bool_decide; [done|]. injection Hn as <-. cbn in *. injection He as <-.
        apply list_elem_of_fmap in Hs as (z & -> & Hz%elem_of_range_ids). destruct kv as [key ids]. rewrite range_topics_perm in Hkv. apply elem_of_map_to_list in Hkv. exists ids. split; [done|]. cbn in Hz.
        destruct (Atoi_pretty z) as [Ez _]; [|congruence]. apply (Hids key z). rewrite map_subseteq_spec in Hsub. exists ids. split; [by apply Hsub|done].
      - intros (ids & Hm & Hin). eexists {| dt_Name := domain; dt_Ext := Some key; dt_Segment := pretty <$> range_ids ids |}, (pretty id). cbn. split_and!; [|done|done| |].
        + apply list_elem_of_omap. exists (key, ids). split; [rewrite range_topics_perm; by apply elem_of_map_to_list|]. unfold new_data. cbn. rewrite bool_decide_false; [done|]. set_solver.
        + apply list_elem_of_fmap. exists id. split; [done|]. by apply elem_of_range_ids.
        + apply Atoi_pretty. apply (Hids key id). rewrite map_subseteq_spec in Hsub. exists ids. split; [by apply Hsub|done]. }
    rewrite <-Hnew. unfold has_topic. set_solver.
Qed.
(** At most ten topics, each with ids that are positive, are taken from a header. *)
Lemma parse_ids_positive l : ∀ ids, parse_ids l = Some ids → Forall (λ id, 0 < id) ids.
Proof.
  induction l as [|s l IH]; intros ids; cbn [parse_ids]; [by intros [= <-]|]. destruct (Atoi (TrimSpace s)) as [id|]; [|done]. destruct (Z.leb_spec id 0); [done|].
  destruct (parse_ids l) as [ids'|]; [|done]. cbn. intros [= <-]. constructor; [done|by apply IH].
Qed.
Lemma header_topics_limited header : (length (ParseTopicsFromHeader header).1 ≤ 10)%nat.
Proof.
  unfold ParseTopicsFromHeader. assert (∀ fields topics w, (length topics ≤ 10)%nat → (length (parse_topics fields topics w).1 ≤ 10)%nat) as Hp; [|apply Hp; cbn; lia].
  induction fields as [|f fields IH]; intros topics w Hl; cbn [parse_topics]; [done|]. destruct ((_ =s? "") || _); [by apply IH|].
  destruct (Nat.ltb_spec (length topics) 10); [|by apply IH]. destruct (parseTopicSegment _); apply IH; rewrite ?length_app; cbn; lia.
Qed.
End topics.
(** A header of a browser. *)
Lemma header_example : (ParseTopicsFromHeader "(1 2);v=chrome.1:1:2, ();p=P0000").1 = [{| tp_SegTax := 600; tp_SegClass := "2"; tp_SegIDs := [1; 2] |}].
Proof. vm_compute. reflexivity. Qed.
