(* ===== verification/AuctionInput.v ===== *)
(** * From an HTTP request to a request that can be validated: src/endpoints/openrtb2/auction.go, interstitial.go,
      src/ortb/default.go, src/util/httputil/

    Fields that are filled from headers, defaults, sizes of interstitial banners, bidder parameters merged from the
    request into its impressions, and the choice of the account.  [url.Parse], the public suffix list,
    [net.SplitHostPort], JSON and the JSON merge patch are arguments. *)
From S2P Require Import Prelude GoStrings GoFloat GoNet PriceGranularity ErrorTypes Topics Validate.

(** ** Implicit fields *)
Record iDevice := { iv_IP : string; iv_IPv6 : string; iv_UA : string; iv_DNT : option Z; iv_W : Z; iv_H : Z; iv_Ext : bool }.
Definition empty_iDevice : iDevice := {| iv_IP := ""; iv_IPv6 := ""; iv_UA := ""; iv_DNT := None; iv_W := 0; iv_H := 0; iv_Ext := false |}.
Definition set_iv_IPs ip ip6 (d : iDevice) : iDevice := {| iv_IP := ip; iv_IPv6 := ip6; iv_UA := iv_UA d; iv_DNT := iv_DNT d; iv_W := iv_W d; iv_H := iv_H d; iv_Ext := iv_Ext d |}.
Definition set_iv_UA v (d : iDevice) : iDevice := {| iv_IP := iv_IP d; iv_IPv6 := iv_IPv6 d; iv_UA := v; iv_DNT := iv_DNT d; iv_W := iv_W d; iv_H := iv_H d; iv_Ext := iv_Ext d |}.
Definition set_iv_DNT v (d : iDevice) : iDevice := {| iv_IP := iv_IP d; iv_IPv6 := iv_IPv6 d; iv_UA := iv_UA d; iv_DNT := v; iv_W := iv_W d; iv_H := iv_H d; iv_Ext := iv_Ext d |}.
(** The publisher's domain is [None] without a publisher; the extension gives [amp]. *)
Record iSite := { it_Page : string; it_Domain : string; it_PublisherDomain : option string; it_ext : result string (option Z) }.
Definition empty_iSite : iSite := {| it_Page := ""; it_Domain := ""; it_PublisherDomain := None; it_ext := Ok None |}.
Record iRequest := {
  ir_Device : option iDevice; ir_Site : option iSite; ir_App : bool; ir_DOOH : bool; ir_AT : Z; ir_GPC : result string (option string); ir_UserData : option (list Data)
}.
(** Headers of the HTTP request; an absent header is empty. *)
Record httpRequest := {
  hr_TrueClientIP : string; hr_XForwardedFor : string; hr_XRealIP : string; hr_RemoteHost : option string; hr_UserAgent : string; hr_DNT : string; hr_SecGPC : string;
  hr_Topics : string; hr_Referer : string
}.
Section implicit.
Context {TR : TopicRange} (IsValid : IP → IPVersion → bool) (url_host : string → option string) (publicsuffix : string → option string).
(** An address that the validator takes, with its version. *)
Definition valid_ip (s : string) : option (IP * IPVersion) :=
  let '(ip, ver) := ParseIP s in match ip with [] => None | _ => if IsValid ip ver then Some (ip, ver) else None end.
Definition sanitize_ip (want : IPVersion) (s : string) : string :=
  match valid_ip s with Some (_, ver) => if bool_decide (ver = want) then s else "" | None => "" end.
Definition sanitizeRequest (d : option iDevice) : option iDevice := (λ d, set_iv_IPs (sanitize_ip IPv4 (iv_IP d)) (sanitize_ip IPv6 (iv_IPv6 d)) d) <$> d.
Definition findHeaderIP (value : string) : option (IP * IPVersion) := if value =s? "" then None else valid_ip (TrimSpace value).
Fixpoint first_valid (l : list string) : option (IP * IPVersion) :=
  match l with [] => None | p :: l => match valid_ip (TrimSpace p) with Some x => Some x | None => first_valid l end end.
Definition findForwardedFor (value : string) : option (IP * IPVersion) := if value =s? "" then None else first_valid (SplitChar "," value).
Definition findRemoteAddr (host : option string) : option (IP * IPVersion) := h ← host; valid_ip h.
Definition or_else {A} (a b : option A) : option A := match a with Some x => Some x | None => b end.
Definition FindIP (r : httpRequest) : option (IP * IPVersion) :=
  or_else (findHeaderIP (hr_TrueClientIP r)) (or_else (findForwardedFor (hr_XForwardedFor r)) (or_else (findHeaderIP (hr_XRealIP r)) (findRemoteAddr (hr_RemoteHost r)))).
Definition setIPImplicitly (h : httpRequest) (d : option iDevice) : option iDevice :=
  let x := default empty_iDevice d in
  if (iv_IP x =s? "") && (iv_IPv6 x =s? "") then
    match FindIP h with
    | Some (ip, IPv4) => Some (set_iv_IPs (IP_String ip) (iv_IPv6 x) x)
    | Some (ip, IPv6) => Some (set_iv_IPs (iv_IP x) (IP_String ip) x)
    | _ => d
    end
  else d.
Definition setUAImplicitly (h : httpRequest) (d : option iDevice) : option iDevice :=
  let x := default empty_iDevice d in if (iv_UA x =s? "") && (hr_UserAgent h ≠s? "") then Some (set_iv_UA (hr_UserAgent h) x) else d.
Definition setDoNotTrackImplicitly (h : httpRequest) (d : option iDevice) : option iDevice :=
  let x := default empty_iDevice d in
  match iv_DNT x with
  | Some _ => d
  | None => if hr_DNT h =s? "0" then Some (set_iv_DNT (Some 0) x) else if hr_DNT h =s? "1" then Some (set_iv_DNT (Some 1) x) else d
  end.
Definition setDeviceImplicitly (h : httpRequest) (d : option iDevice) : option iDevice := setDoNotTrackImplicitly h (setUAImplicitly h (setIPImplicitly h d)).
Definition if_empty (old new : string) : string := if old =s? "" then new else old.
Definition setSiteImplicitly (h : httpRequest) (s : option iSite) : iSite :=
  let s := default empty_iSite s in
  let referrer := if hr_Referer h =s? "" then it_Page s else hr_Referer h in
  let s := if referrer =s? "" then s
           else let page := if_empty (it_Page s) referrer in
                match url_host referrer with
                | None => {| it_Page := page; it_Domain := it_Domain s; it_PublisherDomain := it_PublisherDomain s; it_ext := it_ext s |}
                | Some host => {| it_Page := page; it_Domain := if_empty (it_Domain s) host;
                                  it_PublisherDomain := match publicsuffix host with Some d => Some (if_empty (default "" (it_PublisherDomain s)) d) | None => it_PublisherDomain s end; it_ext := it_ext s |}
                end in
  match it_ext s with Ok None => {| it_Page := it_Page s; it_Domain := it_Domain s; it_PublisherDomain := it_PublisherDomain s; it_ext := Ok (Some 0) |} | _ => s end.
Definition setGPCImplicitly (h : httpRequest) (gpc : result string (option string)) : result string (option string) :=
  if hr_SecGPC h =s? "1" then let? v := gpc in Ok (match v with Some v => Some v | None => Some "1" end) else gpc.
(** [domain] is the account's topics domain, if there is an account. *)
Definition setSecBrowsingTopicsImplicitly (h : httpRequest) (domain : option string) (data : option (list Data)) : option (list Data) * list go_error :=
  if hr_Topics h =s? "" then (data, [])
  else if default "" domain =s? "" then (data, [])
  else match ParseTopicsFromHeader (hr_Topics h) with
       | ([], errs) => (data, errs)
       | (topics, errs) => (Some (UpdateUserDataWithTopics (default [] data) topics (default "" domain)), errs)
       end.
Definition setFieldsImplicitly (h : httpRequest) (domain : option string) (r : iRequest) : list go_error * iRequest :=
  let device := setDeviceImplicitly h (sanitizeRequest (ir_Device r)) in
  let site := if ir_App r || ir_DOOH r then ir_Site r else Some (setSiteImplicitly h (ir_Site r)) in
  let at_ := if ir_AT r =? 0 then 1 else ir_AT r in
  let out gpc data := {| ir_Device := device; ir_Site := site; ir_App := ir_App r; ir_DOOH := ir_DOOH r; ir_AT := at_; ir_GPC := gpc; ir_UserData := data |} in
  match (if hr_SecGPC h =s? "1" then ir_GPC r else Ok None) with
  | Err e => ([PlainError e], out (ir_GPC r) (ir_UserData r))
  | Ok _ => let '(data, errs) := setSecBrowsingTopicsImplicitly h domain (ir_UserData r) in (errs, out (setGPCImplicitly h (ir_GPC r)) data)
  end.
End implicit.

(** ** Defaults (ortb/default.go) *)
Record dTargeting := { dg_PriceGranularity : option PriceGranularity; dg_MediaType : option MediaTypePriceGranularity; dg_IncludeWinners : option bool; dg_IncludeBidderKeys : option bool }.
Definition default_granularity (pg : option PriceGranularity) : option PriceGranularity := match pg with Some pg => Some (setDefaultsPriceGranularity (Some pg)).1 | None => None end.
Definition setDefaultsTargeting (t : dTargeting) : dTargeting := {|
  dg_PriceGranularity := Some (setDefaultsPriceGranularity (dg_PriceGranularity t)).1;
  dg_MediaType := (λ m, {| mtpg_Banner := default_granularity (mtpg_Banner m); mtpg_Video := default_granularity (mtpg_Video m); mtpg_Native := default_granularity (mtpg_Native m) |}) <$> dg_MediaType t;
  dg_IncludeWinners := Some (default true (dg_IncludeWinners t)); dg_IncludeBidderKeys := Some (default true (dg_IncludeBidderKeys t)) |}.
(** The targeting of [request.ext.prebid], the [secure] of the impressions and the time limit. *)
Record dRequest := { dr_targeting : result string (option dTargeting); dr_Secure : list (option Z); dr_TMax : Z }.
Definition SetDefaults (defaultTmax : Z) (r : dRequest) : result string dRequest :=
  let? t := dr_targeting r in
  Ok {| dr_targeting := Ok (setDefaultsTargeting <$> t); dr_Secure := (λ s, Some (default 1 s)) <$> dr_Secure r; dr_TMax := if dr_TMax r =? 0 then defaultTmax else dr_TMax r |}.

(** ** Interstitials *)
Definition ResolvedInterstitialSizes : list (Z * Z) :=
  [(300, 250); (728, 90); (160, 600); (320, 50); (300, 600); (970, 250); (2000, 1400); (1920, 1200); (1800, 1000); (1920, 1080); (1600, 1150);
   (1696, 900); (1600, 900); (1270, 800); (970, 1000); (1920, 480); (320, 320); (1600, 500); (768, 1024); (1024, 768); (828, 910); (728, 970); (120, 600);
   (640, 960); (980, 600); (620, 891); (930, 600); (980, 552); (1272, 328); (300, 50); (500, 1000); (900, 550); (980, 500); (970, 500); (800, 600);
   (336, 280); (1250, 360); (980, 400); (320, 250); (320, 480); (980, 240); (580, 400); (970, 415); (480, 820); (620, 620); (980, 300); (970, 90);
   (600, 600); (1800, 200); (970, 310); (720, 480); (1295, 250); (300, 1050); (1272, 250); (300, 300); (640, 480); (320, 100); (580, 500); (1000, 300);
   (1250, 240); (600, 500); (300, 1000); (728, 410); (800, 250); (970, 300); (950, 300); (994, 250); (940, 300); (640, 320); (468, 600); (970, 200);
   (930, 180); (250, 600); (491, 555); (550, 480); (750, 300); (980, 250); (1000, 260); (980, 150); (350, 240); (970, 210); (640, 360); (580, 415);
   (480, 300); (750, 200); (360, 640); (624, 368); (900, 250); (468, 400); (608, 226); (690, 300); (605, 340); (320, 640); (450, 450); (300, 480);
   (250, 800); (640, 300); (320, 160); (980, 200); (950, 200); (480, 400); (740, 250); (336, 544); (303, 603); (320, 568); (301, 601); (300, 601);
   (600, 300); (180, 500); (980, 120); (950, 180); (935, 180); (994, 170); (468, 360); (320, 400); (320, 240); (320, 500); (316, 513); (630, 250);
   (480, 320); (320, 481); (520, 290); (250, 250); (300, 500); (1000, 150); (320, 460); (970, 150); (800, 180); (468, 60); (482, 282); (680, 200);
   (320, 416); (480, 280); (300, 431); (728, 180); (300, 430); (180, 701); (840, 150); (600, 200); (768, 150); (200, 600); (350, 350); (202, 600);
   (400, 300); (414, 286); (656, 180); (994, 118); (638, 180); (650, 170); (1000, 90); (300, 360); (600, 180); (240, 400); (161, 601); (610, 138);
   (164, 601); (980, 100); (970, 100); (468, 200); (250, 360); (320, 180); (605, 150); (600, 150); (980, 90); (750, 100); (150, 600); (630, 140);
   (696, 120); (307, 254); (303, 253); (703, 110); (550, 140); (300, 251); (298, 250); (500, 150); (413, 180); (728, 100); (269, 269); (640, 106);
   (768, 90); (320, 200); (728, 93); (729, 90); (727, 90); (640, 100); (720, 90); (300, 100); (970, 66); (480, 110); (300, 200); (707, 83); (900, 65);
   (467, 120); (200, 200); (450, 121); (320, 150); (600, 90); (300, 170); (468, 100); (300, 169); (500, 100); (300, 150); (990, 50); (140, 350);
   (160, 300); (300, 158); (190, 240); (180, 150); (300, 145); (310, 122); (468, 90); (594, 70); (480, 80); (600, 65); (484, 80); (320, 75); (335, 100);
   (375, 80); (300, 75); (120, 240); (480, 60); (300, 90); (120, 60); (100, 200); (320, 80); (160, 160); (400, 63); (300, 81); (1, 1); (300, 80);
   (375, 58); (232, 90); (321, 51); (320, 63); (319, 49); (300, 65); (360, 50); (125, 125); (298, 60); (300, 60); (299, 60); (301, 50); (234, 60);
   (280, 47); (120, 90); (13, 13); (17, 17); (168, 50); (140, 50); (120, 20)].
Definition genInterstitialFormat (minWidth maxWidth minHeight maxHeight : Z) : list (Z * Z) :=
  take 10 (filter (λ s : Z * Z, (minWidth ≤ s.1 ∧ s.1 ≤ maxWidth) ∧ minHeight ≤ s.2 ∧ s.2 ≤ maxHeight) ResolvedInterstitialSizes).
(** An impression: its id, whether it is an interstitial, and the sizes of its banner. *)
Record nImp := { ni_ID : string; ni_Instl : Z; ni_Format : option (list (Z * Z)) }.
Definition set_ni_Format v (i : nImp) : nImp := {| ni_ID := ni_ID i; ni_Instl := ni_Instl i; ni_Format := Some v |}.
(** [perc] is the least width and height in percent; [device] the size of the device. *)
Definition processInterstitialsForImp (perc : Z * Z) (device : Z * Z) (i : nImp) : result go_error nImp :=
  match ni_Format i with
  | None => Ok i
  | Some formats =>
      let '(w, h) := match formats with f :: _ => f | [] => (0, 0) end in
      let '(maxW, maxH) := if (w <? 2) && (h <? 2) then device else (w, h) in
      let minW := wrap64 (maxW * perc.1) ÷ 100 in
      let minH := wrap64 (maxH * perc.2) ÷ 100 in
      match genInterstitialFormat minW maxW minH maxH with
      | [] => Err (BadInput ("Unable to set interstitial size list for Imp id=" +:+ ni_ID i))
      | l => Ok (set_ni_Format l i)
      end
  end.
(** The device as far as it is read: its size, and the percentages of its extension, which is absent or may fail
    to decode.  [None] is the panic of an interstitial in a request without a device. *)
Record nDevice := { nd_size : Z * Z; nd_ext : option (result string (option (Z * Z))) }.
Fixpoint processInterstitials (device : option nDevice) (imps : list nImp) : option (result go_error (list nImp)) :=
  match imps with
  | [] => Some (Ok [])
  | i :: rest =>
      if negb (ni_Instl i =? 1) then r ← processInterstitials device rest; Some (let? l := r in Ok (i :: l))
      else
        d ← device;
        match nd_ext d with
        | None => Some (Ok imps)
        | Some (Err e) => Some (Err (PlainError e))
        | Some (Ok None) => Some (Ok imps)
        | Some (Ok (Some perc)) =>
            match processInterstitialsForImp perc (nd_size d) i with
            | Err e => Some (Err e)
            | Ok i' => r ← processInterstitials device rest; Some (let? l := r in Ok (i' :: l))
            end
        end
  end.

(** ** Bidder parameters of the request *)
Section params.
Context {MR : MapRange} {raw : Type} (decode : raw → option (gmap string raw)) (encode : gmap string raw → raw).
(** The parameters of the impression win.  Nothing changes when a document does not decode or has all of them. *)
Definition merge_params (params : gmap string raw) (doc : raw) : raw :=
  match decode doc with
  | None => doc
  | Some own => if bool_decide (map_Forall (λ k _, is_Some (own !! k)) params) then doc else encode (own ∪ params)
  end.
Definition merge_step (potential : string → bool) (m : gmap string raw) (bp : string * gmap string raw) : gmap string raw :=
  if potential bp.1 then match m !! bp.1 with Some doc => <[bp.1 := merge_params bp.2 doc]> m | None => m end else m.
Definition mergeBidderParamsImpExt (reqExtParams : gmap string (gmap string raw)) (ext : gmap string raw) : gmap string raw :=
  foldl (merge_step IsPotentialBidder) ext (map_range reqExtParams).
Definition mergeBidderParamsImpExtPrebid (reqExtParams : gmap string (gmap string raw)) (bidders : option (gmap string raw)) : option (gmap string raw) :=
  (λ m, foldl (merge_step (λ _, true)) m (map_range reqExtParams)) <$> bidders.
(** The extensions of the impressions: members and bidders of [prebid], or an error. *)
Definition mergeBidderParams (params : option (gmap string (gmap string raw))) (imps : list (result string (gmap string raw * option (gmap string raw))))
    : list (result string (gmap string raw * option (gmap string raw))) :=
  match params with
  | None => imps
  | Some p => (λ i, let? (ext, bidders) := i in Ok (mergeBidderParamsImpExt p ext, mergeBidderParamsImpExtPrebid p bidders)) <$> imps
  end.
End params.

(** ** Account, time limit, status *)
Inductive json_get := NotExist | GetError (m : string) | NotString | StringValue (s : string).
Record search_path := { sp_isApp : bool; sp_isDOOH : bool; sp_key : list string }.
Definition accountIdSearchPath : list search_path :=
  [{| sp_isApp := true; sp_isDOOH := false; sp_key := ["app"; "publisher"; "ext"; "prebid"; "parentAccount"] |}; {| sp_isApp := true; sp_isDOOH := false; sp_key := ["app"; "publisher"; "id"] |};
   {| sp_isApp := false; sp_isDOOH := false; sp_key := ["site"; "publisher"; "ext"; "prebid"; "parentAccount"] |}; {| sp_isApp := false; sp_isDOOH := false; sp_key := ["site"; "publisher"; "id"] |};
   {| sp_isApp := false; sp_isDOOH := true; sp_key := ["dooh"; "publisher"; "ext"; "prebid"; "parentAccount"] |}; {| sp_isApp := false; sp_isDOOH := true; sp_key := ["dooh"; "publisher"; "id"] |}].
(** The id, and what kind of request it was found in; [get] reads a path of the request. *)
Fixpoint search_paths (get : list string → json_get) (l : list search_path) : string * bool * bool * option string :=
  match l with
  | [] => ("", false, false, None)
  | p :: l =>
      match get (sp_key p) with
      | NotExist => search_paths get l
      | GetError m => ("", sp_isApp p, sp_isDOOH p, Some m)
      | NotString => ("", sp_isApp p, sp_isDOOH p, Some (String.concat "." (sp_key p) +:+ " must be a string"))
      | StringValue s => (s, sp_isApp p, sp_isDOOH p, None)
      end
  end.
Definition searchAccountId (get : list string → json_get) := search_paths get accountIdSearchPath.
Definition getAccountIdFromRawRequest (stored : option (list string → json_get)) (original : list string → json_get) : string * bool * bool * option string :=
  let '(id, isApp, isDOOH, err) := searchAccountId (default original stored) in
  match err with
  | Some m => ("", isApp, isDOOH, Some m)
  | None =>
      let '(id, err) := if (id =s? "") && bool_decide (is_Some stored) then let '(id, _, _, err) := searchAccountId original in (id, err) else (id, None) in
      match err with Some m => ("", isApp, isDOOH, Some m) | None => (if id =s? "" then "unknown" else id, isApp, isDOOH, None) end
  end.
(** [pub] is the publisher's id and the parent account of its extension, if it decodes to one. *)
Definition getAccountID (pub : option (string * option string)) : string :=
  match pub with
  | Some (id, parent) => if default "" parent ≠s? "" then default "" parent else if id ≠s? "" then id else "unknown"
  | None => "unknown"
  end.
(** Milliseconds; [tmax] is the member's text when it is there. *)
Definition parseTimeout (tmax : option string) (defaultTimeout : Z) : Z :=
  match tmax ≫= Atoi with Some t => if 0 <? t then t else defaultTimeout | None => defaultTimeout end.
Definition BlockedAppErrorCode : Z := 3.
(** The HTTP status of a list of errors; [None] writes nothing. *)
Fixpoint status_of (errs : list go_error) : Z :=
  match errs with
  | [] => 400
  | BlockedApp _ :: _ | AccountDisabled _ :: _ => 503
  | MalformedAcct _ :: _ => 500
  | _ :: errs => status_of errs
  end.
Definition writeError (errs : list go_error) : option (Z * list string) :=
  match errs with [] => None | _ => Some (status_of errs, (λ e, "Invalid request: " +:+ message e) <$> errs) end.
(** [setIntegrationType] on the integration of [request.ext.prebid], [None] without one. *)
Definition setIntegrationType (account : option string) (integration : option string) : option string :=
  match account with
  | Some d => if d =s? "" then integration else match integration with None => Some d | Some i => Some (if_empty i d) end
  | None => integration
  end.

(** ** What filling in guarantees *)
Section implicit_spec.
Context {TR : TopicRange} (IsValid : IP → IPVersion → bool) (url_host : string → option string) (publicsuffix : string → option string).
(** Explicit values of a device that stay: any but an address that is not valid. *)
Definition device_kept (d d' : iDevice) : Prop :=
  (sanitize_ip IsValid IPv4 (iv_IP d) ≠ "" → iv_IP d' = iv_IP d) ∧ (sanitize_ip IsValid IPv6 (iv_IPv6 d) ≠ "" → iv_IPv6 d' = iv_IPv6 d) ∧
  (iv_UA d ≠ "" → iv_UA d' = iv_UA d) ∧ (is_Some (iv_DNT d) → iv_DNT d' = iv_DNT d) ∧ iv_W d' = iv_W d ∧ iv_H d' = iv_H d ∧ iv_Ext d' = iv_Ext d.
(** An address afterwards: none, one that was sent and is valid, or one found in the headers. *)
Definition address_ok (want : IPVersion) (s : string) : Prop :=
  s = "" ∨ (∃ ip, valid_ip IsValid s = Some (ip, want)) ∨ ∃ ip, IsValid ip want = true ∧ s = IP_String ip.
Lemma sanitize_ip_cases want s : sanitize_ip IsValid want s = "" ∨ (sanitize_ip IsValid want s = s ∧ ∃ ip, valid_ip IsValid s = Some (ip, want)).
Proof. unfold sanitize_ip. destruct (valid_ip IsValid s) as [[ip ver]|]; [|by left]. case_bool_decide as Hv; [subst; right; by eauto|by left]. Qed.
Lemma valid_ip_valid s ip ver : valid_ip IsValid s = Some (ip, ver) → IsValid ip ver = true.
Proof. unfold valid_ip. destruct (ParseIP s) as [[|x l] v]; [done|]. destruct (IsValid (x :: l) v) eqn:E; [|done]. by intros [= <- <-]. Qed.
Lemma FindIP_valid h ip ver : FindIP IsValid h = Some (ip, ver) → IsValid ip ver = true.
Proof.
  assert (∀ v x, findHeaderIP IsValid v = Some x → IsValid x.1 x.2 = true) as Hh by (intros v [i w]; unfold findHeaderIP; destruct (v =s? ""); [done|]; apply valid_ip_valid).
  assert (∀ l x, first_valid IsValid l = Some x → IsValid x.1 x.2 = true) as Hf.
  { induction l as [|p l IH]; intros [i w]; [done|]. cbn. destruct (valid_ip IsValid (TrimSpace p)) as [[i' w']|] eqn:E; [|apply IH]. intros [= <- <-]. by eapply valid_ip_valid. }
  unfold FindIP, or_else. intros Hx. destruct (findHeaderIP IsValid (hr_TrueClientIP h)) as [x|] eqn:E1; [injection Hx as ->; by apply Hh in E1|].
  destruct (findForwardedFor IsValid _) as [x|] eqn:E2; [injection Hx as ->; unfold findForwardedFor in E2; destruct (_ =s? ""); [done|]; by apply Hf in E2|].
  destruct (findHeaderIP IsValid (hr_XRealIP h)) as [x|] eqn:E3; [injection Hx as ->; by apply Hh in E3|].
  unfold findRemoteAddr in Hx. destruct (hr_RemoteHost h); [|done]. cbn in Hx. by apply valid_ip_valid in Hx.
Qed.
Lemma setUA_keeps h d : ∃ ua, default empty_iDevice (setUAImplicitly h d) = set_iv_UA ua (default empty_iDevice d) ∧ (iv_UA (default empty_iDevice d) ≠ "" → ua = iv_UA (default empty_iDevice d)) ∧
  (setUAImplicitly h d = None → d = None).
Proof.
  unfold setUAImplicitly. set (x := default empty_iDevice d). destruct (String.eqb_spec (iv_UA x) "") as [E|E]; cbn [andb].
  - destruct (hr_UserAgent h =s? ""); cbn [negb]; [exists (iv_UA x)|exists (hr_UserAgent h)]; split_and!; try done. fold x. by destruct x.
  - exists (iv_UA x). split_and!; try done. fold x. by destruct x.
Qed.
Lemma setDNT_keeps h d : ∃ v, default empty_iDevice (setDoNotTrackImplicitly h d) = set_iv_DNT v (default empty_iDevice d) ∧ (is_Some (iv_DNT (default empty_iDevice d)) → v = iv_DNT (default empty_iDevice d)) ∧
  (setDoNotTrackImplicitly h d = None → d = None).
Proof.
  unfold setDoNotTrackImplicitly. set (x := default empty_iDevice d). destruct (iv_DNT x) as [v|] eqn:E; [exists (Some v); split_and!; try done; fold x; rewrite <-E; by destruct x|].
  destruct (hr_DNT h =s? "0"); [exists (Some 0); split_and!; try done; by intros [? ?]|]. destruct (hr_DNT h =s? "1"); [exists (Some 1); split_and!; try done; by intros [? ?]|].
  exists None. split_and!; try done. fold x. rewrite <-E. by destruct x.
Qed.
Lemma setIP_spec h d : let x := default empty_iDevice d in ∃ ip ip6, default empty_iDevice (setIPImplicitly IsValid h d) = set_iv_IPs ip ip6 x ∧
  (setIPImplicitly IsValid h d = None → d = None) ∧ ((iv_IP x ≠ "" ∨ iv_IPv6 x ≠ "") → ip = iv_IP x ∧ ip6 = iv_IPv6 x) ∧
  (address_ok IPv4 (iv_IP x) → address_ok IPv4 ip) ∧ (address_ok IPv6 (iv_IPv6 x) → address_ok IPv6 ip6).
Proof.
  intros x. unfold setIPImplicitly. fold x. assert (x = set_iv_IPs (iv_IP x) (iv_IPv6 x) x) as Hx by (by destruct x).
  destruct (String.eqb_spec (iv_IP x) "") as [E|E], (String.eqb_spec (iv_IPv6 x) "") as [E6|E6]; cbn [andb]; try (exists (iv_IP x), (iv_IPv6 x); by split_and!).
  destruct (FindIP IsValid h) as [[ip []]|] eqn:Ef; try (exists (iv_IP x), (iv_IPv6 x); by split_and!); apply FindIP_valid in Ef.
  - exists (IP_String ip), (iv_IPv6 x). split_and!; try done; [tauto|]. intros _. right. right. by exists ip.
  - exists (iv_IP x), (IP_String ip). split_and!; try done; [tauto|]. intros _. right. right. by exists ip.
Qed.
(** Filling in from headers changes nothing that was explicit in the device but addresses that are not valid,
    and every address afterwards is valid. *)
Lemma device_implicit h d : let d' := setDeviceImplicitly IsValid h (sanitizeRequest IsValid d) in
  (∀ x, d = Some x → ∃ x', d' = Some x' ∧ device_kept x x') ∧ ∀ x', d' = Some x' → address_ok IPv4 (iv_IP x') ∧ address_ok IPv6 (iv_IPv6 x').
Proof.
  intros d'. unfold d', setDeviceImplicitly. set (s := sanitizeRequest IsValid d).
  destruct (setIP_spec h s) as (ip & ip6 & E1 & N1 & K1 & A4 & A6). destruct (setUA_keeps h (setIPImplicitly IsValid h s)) as (ua & E2 & K2 & N2).
  destruct (setDNT_keeps h (setUAImplicitly h (setIPImplicitly IsValid h s))) as (dnt & E3 & K3 & N3). rewrite E1 in E2, K2. rewrite E2 in E3, K3.
  assert (∀ want v, address_ok want (sanitize_ip IsValid want v)) as Hs by (intros want v; destruct (sanitize_ip_cases want v) as [->|[-> ?]]; [by left|right; by left]).
  assert (address_ok IPv4 (iv_IP (default empty_iDevice s)) ∧ address_ok IPv6 (iv_IPv6 (default empty_iDevice s))) as [H4 H6] by (subst s; destruct d; cbn; [split; apply Hs|split; by left]).
  split.
  - intros x ->. destruct (setDoNotTrackImplicitly h _) as [x'|] eqn:E; [|specialize (N3 eq_refl); apply N2 in N3; by apply N1 in N3]. exists x'. split; [done|]. cbn in E3. subst x' s. cbn in *. unfold device_kept. cbn.
    split_and!; try done.
    + intros Hne. destruct (K1 (or_introl Hne)) as [-> _]. by destruct (sanitize_ip_cases IPv4 (iv_IP x)) as [?|[-> _]].
    + intros Hne. destruct (K1 (or_intror Hne)) as [_ ->]. by destruct (sanitize_ip_cases IPv6 (iv_IPv6 x)) as [?|[-> _]].
  - intros x' E. rewrite E in E3. cbn in E3. subst x'. cbn. split; [by apply A4|by apply A6].
Qed.
Definition site_kept (s s' : iSite) : Prop :=
  (it_Page s ≠ "" → it_Page s' = it_Page s) ∧ (it_Domain s ≠ "" → it_Domain s' = it_Domain s) ∧
  (∀ d, it_PublisherDomain s = Some d → d ≠ "" → it_PublisherDomain s' = Some d) ∧ (it_ext s ≠ Ok None → it_ext s' = it_ext s).
Lemma if_empty_kept a b : a ≠ "" → if_empty a b = a.
Proof. intros Ha. unfold if_empty. by destruct (String.eqb_spec a ""). Qed.
Lemma site_implicit h s : site_kept s (setSiteImplicitly url_host publicsuffix h (Some s)) ∧ it_ext (setSiteImplicitly url_host publicsuffix h (Some s)) ≠ Ok None.
Proof.
  unfold setSiteImplicitly. change (default empty_iSite (Some s)) with s. set (ref := if hr_Referer h =s? "" then _ else _). set (s1 := if ref =s? "" then s else _).
  assert (site_kept s s1 ∧ it_ext s1 = it_ext s) as [Hk He].
  { subst s1. destruct (ref =s? ""); [by split_and!|]. destruct (url_host ref) as [host|]; (split; [|done]); unfold site_kept; cbn; split_and!; try done; try apply if_empty_kept.
    intros d -> Hd. cbn. destruct (publicsuffix host); [by rewrite if_empty_kept|done]. }
  rewrite He. destruct (it_ext s) as [[amp|]|] eqn:Es; cbn; (split; [|by rewrite ?He]); try done. unfold site_kept in *. cbn. destruct Hk as (? & ? & ? & ?). split_and!; try done.
Qed.
(** Information of the HTTP request never replaces what the request says, apart from addresses that are private, malformed or of the wrong version; and afterwards every address of the device is
    one that the validator takes. *)
Theorem implicit_fields_keep_explicit h domain r errs r' : setFieldsImplicitly IsValid url_host publicsuffix h domain r = (errs, r') →
  (∀ d, ir_Device r = Some d → ∃ d', ir_Device r' = Some d' ∧ device_kept d d') ∧
  (∀ d', ir_Device r' = Some d' → address_ok IPv4 (iv_IP d') ∧ address_ok IPv6 (iv_IPv6 d')) ∧
  (∀ s, ir_Site r = Some s → ∃ s', ir_Site r' = Some s' ∧ site_kept s s') ∧ (ir_AT r ≠ 0 → ir_AT r' = ir_AT r) ∧
  (∀ v, ir_GPC r = Ok (Some v) → ir_GPC r' = Ok (Some v)) ∧ ir_App r' = ir_App r ∧ ir_DOOH r' = ir_DOOH r.
Proof.
  unfold setFieldsImplicitly. set (device := setDeviceImplicitly _ _ _). set (site := if ir_App r || _ then _ else _). set (at_ := if ir_AT r =? 0 then _ else _). intros Hs.
  assert (∃ gpc data, r' = {| ir_Device := device; ir_Site := site; ir_App := ir_App r; ir_DOOH := ir_DOOH r; ir_AT := at_; ir_GPC := gpc; ir_UserData := data |} ∧
    ∀ v, ir_GPC r = Ok (Some v) → gpc = Ok (Some v)) as (gpc & data & -> & Hg).
  { destruct (if hr_SecGPC h =s? "1" then _ else _) eqn:E; [|injection Hs as <- <-; by eexists _, _].
    destruct (setSecBrowsingTopicsImplicitly h domain (ir_UserData r)) as [data es]. injection Hs as <- <-. eexists _, _. split; [done|]. intros v Hv. unfold setGPCImplicitly. rewrite Hv. by destruct (hr_SecGPC h =s? "1"). }
  destruct (device_implicit h (ir_Device r)) as [Hd1 Hd2]. cbn. split_and!; try done.
  - intros s Es. subst site. rewrite Es. destruct (ir_App r || ir_DOOH r); [exists s; by split_and!|]. eexists. split; [done|]. apply site_implicit.
  - intros Ha. subst at_. by destruct (Z.eqb_spec (ir_AT r) 0).
Qed.
End implicit_spec.

(** Defaults set once stay. *)
Lemma default_ranges_idem ranges : ∀ lo, (setDefaultsPriceGranularityRange_loop lo (setDefaultsPriceGranularityRange_loop lo ranges).1).1 = (setDefaultsPriceGranularityRange_loop lo ranges).1.
Proof.
  induction ranges as [|r ranges IH]; intros lo; [done|]. cbn. specialize (IH (gr_Max r)). destruct (setDefaultsPriceGranularityRange_loop (gr_Max r) ranges) as [rest m] eqn:E. cbn in IH.
  destruct (negb (gr_Min r =f? lo)) eqn:En; cbn; destruct (setDefaultsPriceGranularityRange_loop (gr_Max r) rest) as [rest2 m2]; cbn in *; subst; [by destruct (negb (lo =f? lo))|by rewrite En].
Qed.
Lemma default_granularity_idem pg : (setDefaultsPriceGranularity (Some (setDefaultsPriceGranularity pg).1)).1 = (setDefaultsPriceGranularity pg).1.
Proof.
  assert ((setDefaultsPriceGranularity (Some NewPriceGranularityDefault)).1 = NewPriceGranularityDefault) as Hn by (vm_compute; reflexivity).
  destruct pg as [pg|]; [|exact Hn]. unfold setDefaultsPriceGranularity at 2 3. destruct (pg_Ranges pg) as [|r rs] eqn:Er; [exact Hn|].
  set (prec := match pg_Precision pg with None => _ | Some _ => _ end). assert (∃ q m, prec = (Some q, m)) as (q & m & ->) by (subst prec; destruct (pg_Precision pg); eauto).
  unfold setDefaultsPriceGranularityRange. pose proof (default_ranges_idem (r :: rs) f0) as Hi. destruct (setDefaultsPriceGranularityRange_loop f0 (r :: rs)) as [ranges m2] eqn:El. cbn [fst] in *.
  unfold setDefaultsPriceGranularity, setDefaultsPriceGranularityRange. cbn [pg_Ranges pg_Precision].
  destruct ranges as [|x xs]; [cbn in El; destruct (setDefaultsPriceGranularityRange_loop (gr_Max r) rs); by destruct (negb _)|].
  destruct (setDefaultsPriceGranularityRange_loop f0 (x :: xs)) as [r2 m3]. cbn in *. by subst.
Qed.
Lemma default_targeting_idem t : setDefaultsTargeting (setDefaultsTargeting t) = setDefaultsTargeting t.
Proof.
  assert (∀ g, default_granularity (default_granularity g) = default_granularity g) as Hg by (intros [g|]; [|done]; unfold default_granularity; by rewrite default_granularity_idem).
  unfold setDefaultsTargeting. cbn -[setDefaultsPriceGranularity default_granularity]. rewrite default_granularity_idem. f_equal. destruct (dg_MediaType t); [|done]. cbn -[default_granularity]. by rewrite !Hg.
Qed.
(** Setting defaults twice is setting them once. *)
Lemma SetDefaults_idem tmax r r' : SetDefaults tmax r = Ok r' → SetDefaults tmax r' = Ok r'.
Proof.
  unfold SetDefaults. destruct (dr_targeting r) as [t|]; [|done]. cbn [rbind]. intros [= <-]. cbn -[setDefaultsTargeting]. f_equal. f_equal.
  - destruct t as [t|]; [|done]. cbn -[setDefaultsTargeting]. by rewrite default_targeting_idem.
  - induction (dr_Secure r) as [|x l IH]; [done|]. cbn. by f_equal.
  - destruct (Z.eqb_spec (dr_TMax r) 0) as [E|E]; [by destruct (tmax =? 0)|]. by destruct (Z.eqb_spec (dr_TMax r) 0).
Qed.

(** The sizes offered for an interstitial: one to ten, each within the limits. *)
Lemma interstitial_sizes perc device i i' : processInterstitialsForImp perc device i = Ok i' → ∀ l, ni_Format i = Some l → ∃ l' minW minH maxW maxH, ni_Format i' = Some l' ∧
  (1 ≤ length l' ≤ 10)%nat ∧ (maxW, maxH) = (match l with f :: _ => if (f.1 <? 2) && (f.2 <? 2) then device else f | [] => device end) ∧
  Forall (λ s : Z * Z, s ∈ ResolvedInterstitialSizes ∧ minW ≤ s.1 ≤ maxW ∧ minH ≤ s.2 ≤ maxH) l'.
Proof.
  unfold processInterstitialsForImp. intros Hp l El. rewrite El in Hp. destruct (match l with f :: _ => f | [] => (0, 0) end) as [w h] eqn:Ef.
  destruct (if (w <? 2) && (h <? 2) then device else (w, h)) as [maxW maxH] eqn:Em. destruct (genInterstitialFormat _ _ _ _) as [|s ss] eqn:Eg; [done|]. injection Hp as <-.
  eexists (s :: ss), _, _, maxW, maxH. split; [done|]. rewrite <-Eg. unfold genInterstitialFormat. split_and!.
  - unfold genInterstitialFormat in Eg. rewrite Eg. cbn. lia.
  - rewrite length_take. lia.
  - rewrite <-Em. destruct l as [|f l]; [injection Ef as <- <-; done|]. subst f. done.
  - apply Forall_take, Forall_forall. intros x [[[? ?] [? ?]] Hin]%list_elem_of_filter. split; [done|]. done.
Qed.
(** A request with an interstitial and no device panics; the check for a missing device comes too late. *)
Lemma interstitial_without_device_panics i rest : ni_Instl i = 1 → processInterstitials None (i :: rest) = None.
Proof. intros Hi. cbn. by rewrite Hi. Qed.

(** Parameters: a bidder that the impression names gets its own parameters and, of the request's, those it has not
    set; other members are left alone.  The order of the map does not matter. *)
Section params_spec.
Context {MR : MapRange} {raw : Type} (decode : raw → option (gmap string raw)) (encode : gmap string raw → raw).
Lemma merge_step_lookup potential (l : list (string * gmap string raw)) : NoDup l.*1 → ∀ m b,
  foldl (merge_step decode encode potential) m l !! b =
  match list_to_map (M := gmap string (gmap string raw)) l !! b, potential b with Some p, true => merge_params decode encode p <$> (m !! b) | _, _ => m !! b end.
Proof.
  induction l as [|[b0 p0] l IH]; intros Hnd m b; [cbn; by rewrite lookup_empty|]. rewrite fmap_cons in Hnd. apply NoDup_cons in Hnd as [Hb0 Hnd]. cbn in Hb0. cbn [foldl]. rewrite (IH Hnd).
  cbn [list_to_map foldr uncurry fst snd]. unfold merge_step. cbn [fst snd]. destruct (decide (b = b0)) as [->|Hne].
  - rewrite lookup_insert_eq. assert (list_to_map (M := gmap string (gmap string raw)) l !! b0 = None) as -> by (by apply not_elem_of_list_to_map_1).
    destruct (potential b0); [|done]. destruct (m !! b0) as [doc|] eqn:Em; [by rewrite lookup_insert_eq|by rewrite Em].
  - rewrite lookup_insert_ne by done. assert ((if potential b0 then match m !! b0 with Some doc => <[b0 := merge_params decode encode p0 doc]> m | None => m end else m) !! b = m !! b) as ->; [|done].
    destruct (potential b0); [|done]. destruct (m !! b0); [by rewrite lookup_insert_ne|done].
Qed.
Lemma range_to_map {V} (m : gmap string V) : list_to_map (map_range m) = m.
Proof. rewrite <-(list_to_map_to_list m) at 2. apply list_to_map_proper; [apply NoDup_map_range_fst|apply map_range_perm]. Qed.
Lemma mergeBidderParams_lookup params ext bidders b :
  mergeBidderParamsImpExt decode encode params ext !! b = (if IsPotentialBidder b then match params !! b with Some p => merge_params decode encode p <$> ext !! b | None => ext !! b end else ext !! b) ∧
  mergeBidderParamsImpExtPrebid decode encode params (Some bidders) = Some (map_imap (λ b doc, Some (match params !! b with Some p => merge_params decode encode p doc | None => doc end)) bidders).
Proof.
  split.
  - unfold mergeBidderParamsImpExt. rewrite merge_step_lookup by apply NoDup_map_range_fst. rewrite range_to_map. by destruct (params !! b), (IsPotentialBidder b).
  - unfold mergeBidderParamsImpExtPrebid. cbn. f_equal. apply map_eq. intros k. rewrite merge_step_lookup by apply NoDup_map_range_fst. rewrite range_to_map, map_lookup_imap. destruct (params !! k), (bidders !! k); done.
Qed.
(** The parameters after merging, as they read back. *)
Lemma merge_params_reads params doc own : (∀ m, decode (encode m) = Some m) → decode doc = Some own → decode (merge_params decode encode params doc) = Some (own ∪ params).
Proof.
  intros Hr Hd. unfold merge_params. rewrite Hd. case_bool_decide as Hall; [|apply Hr]. rewrite Hd. f_equal. symmetry. apply map_eq. intros k. rewrite lookup_union.
  destruct (params !! k) as [v|] eqn:Ep; [|by destruct (own !! k)]. apply Hall in Ep as [x Hx]. by rewrite Hx.
Qed.
End params_spec.

(** The account is never empty when there is no error. *)
Lemma account_id_nonempty stored original id isApp isDOOH : getAccountIdFromRawRequest stored original = (id, isApp, isDOOH, None) → id ≠ "".
Proof.
  unfold getAccountIdFromRawRequest. destruct (searchAccountId (default original stored)) as [[[i a] d] [m|]]; [done|].
  match goal with |- context [match ?x with (_, _) => _ end] => destruct x as [i' [m|]] end; [done|]. destruct (String.eqb_spec i' ""); by intros [= <- _ _].
Qed.
