(* ===== verification/DashStore.v ===== *)
(** * The dashboard's generic entity store (endpoints/dashboard.go)

    Every record the dashboard manages (publishers, campaigns, ad units, reports, ...) implements
    the interface [entity] and is kept by the generic [entityStore]: a map with its HTTP handlers.
    Each change starts a goroutine that saves the map; saves read the map and write the file in
    steps that interleave with requests.  Proved here against the laws of [entity]: every stored
    record carries the id it is stored under and passes validation unchanged, lists are newest
    first, and what a restart finds on disk. *)
From S2P Require Import Prelude GoStrings GoFloat Order GoNet.

(** ** The interface *)
(** Times are nanoseconds; Go's zero time is 0. *)
Definition zeroTime : Z := 0.

(** [validate] normalises its receiver and returns a message, empty for a valid record.  A rejected
    record is dropped by every caller, so its half-normalised state is not kept here.  [now] is the
    clock, which one validation reads. *)
Class entity (E : Type) := {
  getID : E → string;
  getCreatedAt : E → Z;
  setID : string → E → E;
  setTimestamps : Z → Z → E → E;
  validate : Z → E → result string E
}.

(** What the store relies on: the setters set what the getters read, validation does not look at
    the id or the timestamps, and a record that validation let through passes again unchanged. *)
Definition rmap {A B : Type} (f : A → B) (r : result string A) : result string B :=
  match r with Ok a => Ok (f a) | Err m => Err m end.
Class EntityLaws (E : Type) `{entity E} : Prop := {
  getID_setID : ∀ id e, getID (setID id e) = id;
  getID_setTimestamps : ∀ c u e, getID (setTimestamps c u e) = getID e;
  getCreatedAt_setTimestamps : ∀ c u e, getCreatedAt (setTimestamps c u e) = c;
  validate_stamp : ∀ now c u id e,
    validate now (setTimestamps c u (setID id e)) = rmap (λ e', setTimestamps c u (setID id e')) (validate now e);
  validate_stable : ∀ now now' e e', now ≠ zeroTime → validate now e = Ok e' → validate now' e' = Ok e';
  setID_same : ∀ e, setID (getID e) e = e
}.

(** A chain of [if cond { return msg }] over the normalised record. *)
Fixpoint first_message (l : list (bool * string)) : option string :=
  match l with
  | [] => None
  | (true, m) :: _ => Some m
  | (false, _) :: l => first_message l
  end.
Definition checked_entity {E : Type} (checks : E → list (bool * string)) (e : E) : result string E :=
  match first_message (checks e) with Some m => Err m | None => Ok e end.

Lemma checked_entity_Ok {E : Type} checks (e e' : E) : checked_entity checks e = Ok e' → e' = e ∧ first_message (checks e) = None.
Proof. unfold checked_entity. destruct (first_message (checks e)); [done|]. by intros [= <-]. Qed.
Lemma checked_entity_None {E : Type} checks (e : E) : first_message (checks e) = None → checked_entity checks e = Ok e.
Proof. unfold checked_entity. by intros ->. Qed.
Lemma first_message_None l : first_message l = None ↔ ∀ b m, (b, m) ∈ l → b = false.
Proof.
  induction l as [|[[] m] l IH]; simpl.
  - split; [intros _ b m Hin; by apply elem_of_nil in Hin|done].
  - split; [done|]. intros Hall. by specialize (Hall true m (list_elem_of_here _ _)).
  - rewrite IH. split; intros Hall b m'; [intros [[= -> ->]|?]%elem_of_cons; eauto|]. intros. eapply Hall. by right.
Qed.

(** *** Ids *)
(** [hex.EncodeToString] and [generateID], over the random bytes drawn. *)
Definition EncodeToString (bs : list Z) : string :=
  foldr (λ b s, hex_char (b / 16) +:+ hex_char (b `mod` 16) +:+ s) "" bs.
Definition generateID (drawn : list Z) : string := EncodeToString drawn.

(** ** The store *)
(** [es_saves] counts the goroutines started by [safeGo(s.save)] that have not read the map yet. *)
Record entityStore (E : Type) := { es_entries : gmap string E; es_saves : nat }.
Arguments es_entries {E}. Arguments es_saves {E}.

(** Replies of the handlers: a status with the record, the list, or [{"error": msg}]. *)
Inductive reply (E : Type) :=
| Entry (status : Z) (e : E)
| Entries (status : Z) (total : option nat) (l : list E)
| Error (status : Z) (msg : string)
| NoBody (status : Z)
| Panicked.
Arguments Entry {E}. Arguments Entries {E}. Arguments Error {E}. Arguments NoBody {E}. Arguments Panicked {E}.

Section Store.
Context {E : Type} `{entity E}.
Notation store := (entityStore E).

(** [storeList]: newest first. *)
Definition newer (a b : E) : bool := getCreatedAt b <? getCreatedAt a.
Definition storeList `{MapRange} `{GoSort} (entries : gmap string E) : list E := sort_Slice newer (map_range entries).*2.
Definition es_list `{MapRange} `{GoSort} (s : store) : list E := storeList (es_entries s).

Definition es_get (s : store) (id : string) : option E := es_entries s !! id.
Definition es_put (id : string) (e : E) (s : store) : store := {| es_entries := <[id := e]> (es_entries s); es_saves := S (es_saves s) |}.

(** [create], with the random bytes of the id and the clock. *)
Definition es_create (drawn : list Z) (now : Z) (s : store) (e : E) : store * E :=
  let e := setTimestamps now now (setID (generateID drawn) e) in
  (es_put (getID e) e s, e).
Definition es_update (now : Z) (s : store) (id : string) (patch : E) : option (store * E) :=
  match es_entries s !! id with
  | None => None
  | Some existing =>
      let patch := setTimestamps (getCreatedAt existing) now (setID (getID existing) patch) in
      Some (es_put id patch s, patch)
  end.
Definition es_delete (s : store) (id : string) : option store :=
  match es_entries s !! id with
  | None => None
  | Some _ => Some {| es_entries := delete id (es_entries s); es_saves := S (es_saves s) |}
  end.
(** [modifyFn] changes the record in place: the map holds a pointer to it. *)
Definition modifyFn (now : Z) (s : store) (id : string) (fn : E → E) : option (store * E) :=
  match es_entries s !! id with
  | None => None
  | Some e => let e := fn e in let e := setTimestamps (getCreatedAt e) now e in Some (es_put id e s, e)
  end.

(** ** Handlers
    The body is what [json.Decoder.Decode] made of it. *)
Definition body_error (msg : string) : reply E := Error 400 ("invalid JSON: " +:+ msg).
Definition listHandle `{MapRange} `{GoSort} (s : store) : reply E := Entries 200 (Some (length (es_list s))) (es_list s).
Definition createHandle (drawn : list Z) (vnow now : Z) (s : store) (body : result string E) : store * reply E :=
  match body with
  | Err m => (s, body_error m)
  | Ok e =>
      match validate vnow e with
      | Err m => (s, Error 400 m)
      | Ok e => let '(s, e) := es_create drawn now s e in (s, Entry 201 e)
      end
  end.
Definition getHandle (notFound : string) (s : store) (id : string) : reply E :=
  match es_get s id with None => Error 404 notFound | Some e => Entry 200 e end.
Definition updateHandle (notFound : string) (vnow now : Z) (s : store) (id : string) (body : result string E) : store * reply E :=
  match body with
  | Err m => (s, body_error m)
  | Ok patch =>
      match validate vnow patch with
      | Err m => (s, Error 400 m)
      | Ok patch =>
          match es_update now s id patch with
          | None => (s, Error 404 notFound)
          | Some (s, e) => (s, Entry 200 e)
          end
      end
  end.
Definition deleteHandle (notFound : string) (s : store) (id : string) : store * reply E :=
  match es_delete s id with None => (s, Error 404 notFound) | Some s => (s, NoBody 204) end.

(** The requests a store serves, and the handler each goes to.  [Patch] is the toggle the partner
    handlers build on [modifyFn]. *)
Inductive request :=
| RList
| RCreate (drawn : list Z) (vnow now : Z) (body : result string E)
| RGet (id : string)
| RUpdate (vnow now : Z) (id : string) (body : result string E)
| RDelete (id : string)
| RPatch (now : Z) (id : string) (fn : E → E).
Definition serve `{MapRange} `{GoSort} (notFound : string) (s : store) (r : request) : store * reply E :=
  match r with
  | RList => (s, listHandle s)
  | RCreate drawn vnow now body => createHandle drawn vnow now s body
  | RGet id => (s, getHandle notFound s id)
  | RUpdate vnow now id body => updateHandle notFound vnow now s id body
  | RDelete id => deleteHandle notFound s id
  | RPatch now id fn =>
      match modifyFn now s id fn with
      | None => (s, Error 404 notFound)
      | Some (s, e) => (s, Entry 200 e)
      end
  end.

(** ** Persistence *)
(** [storeSave] to a file writes the values in the map's order; to the database it replaces the
    rows of its kind in one transaction.  [oks] says which inserts succeed. *)
Definition saved_rows `{MapRange} (entries : gmap string E) : list E := (map_range entries).*2.
Definition storeSaveDB `{MapRange} (begins purges commits : bool) (oks : list bool)
    (rows : list E) (entries : gmap string E) : list E :=
  if negb begins then rows
  else if negb purges then rows
  else if commits then (filter (λ x, x.1 = true) (zip oks (saved_rows entries))).*2
  else rows.
(** [storeLoad]: the records decoded, a JSON null being a nil pointer whose [getID] panics. *)
Fixpoint load_into (entries : gmap string E) (l : list (option E)) : option (gmap string E) :=
  match l with
  | [] => Some entries
  | None :: _ => None
  | Some e :: l => load_into (<[getID e := e]> entries) l
  end.
(** [None] is a missing or unreadable file, a failed query, or JSON that does not decode. *)
Definition storeLoad (entries : gmap string E) (found : option (list (option E))) : option (gmap string E) :=
  match found with None => Some entries | Some l => load_into entries l end.

(** The store with its file; [sv_reading] holds what the saves under way have read. *)
Record saved := { sv_store : store; sv_reading : list (list E); sv_file : option (list E) }.
(** Its steps: a request is served, a save reads the map, a save that has read writes the file. *)
Inductive disk_act := AServe (r : request) | ARead | AWrite (i : nat).
Definition disk_step `{MapRange} `{GoSort} (notFound : string) (st : saved) (a : disk_act) : option saved :=
  match a with
  | AServe r => Some {| sv_store := (serve notFound (sv_store st) r).1; sv_reading := sv_reading st; sv_file := sv_file st |}
  | ARead =>
      match es_saves (sv_store st) with
      | O => None
      | S n => Some {| sv_store := {| es_entries := es_entries (sv_store st); es_saves := n |};
                       sv_reading := sv_reading st ++ [saved_rows (es_entries (sv_store st))]; sv_file := sv_file st |}
      end
  | AWrite i =>
      match sv_reading st !! i with
      | None => None
      | Some rows => Some {| sv_store := sv_store st; sv_reading := delete i (sv_reading st); sv_file := Some rows |}
      end
  end.
Fixpoint disk_run `{MapRange} `{GoSort} (notFound : string) (st : saved) (acts : list disk_act) : option saved :=
  match acts with
  | [] => Some st
  | a :: acts => st ← disk_step notFound st a; disk_run notFound st acts
  end.
(** One save at a time: none reads the map while another has read it and not yet written. *)
Fixpoint one_save_at_a_time `{MapRange} `{GoSort} (notFound : string) (st : saved) (acts : list disk_act) : bool :=
  match acts with
  | [] => true
  | a :: acts =>
      match a with ARead => (length (sv_reading st) =? 0)%nat | _ => true end &&
      match disk_step notFound st a with Some st => one_save_at_a_time notFound st acts | None => true end
  end.
Definition saves_done (st : saved) : Prop := es_saves (sv_store st) = 0%nat ∧ sv_reading st = [].
(** [newEntityStore] after a restart. *)
Definition restart (st : saved) : option (gmap string E) := storeLoad ∅ (map Some <$> sv_file st).
End Store.
Arguments request : clear implicits.
Arguments disk_act : clear implicits.
Arguments saved : clear implicits.

Section Laws.
Context {E : Type} `{EntityLaws E}.
Implicit Types (s : entityStore E) (e : E).

(** ** What a store keeps *)
(** Every record is stored under its own id and passes validation unchanged, whatever the clock. *)
Definition entry_ok (id : string) (e : E) : Prop := getID e = id ∧ ∀ now, validate now e = Ok e.
Definition store_ok (m : gmap string E) : Prop := map_Forall entry_ok m.

Lemma stamped_ok vnow c u id e e' :
  vnow ≠ zeroTime → validate vnow e = Ok e' → entry_ok id (setTimestamps c u (setID id e')).
Proof.
  intros Hv He. split; [by rewrite getID_setTimestamps, getID_setID|].
  intros now. rewrite validate_stamp. by rewrite (validate_stable vnow now e e').
Qed.
Lemma restamped_ok id c u e : entry_ok id e → entry_ok id (setTimestamps c u e).
Proof.
  intros [Hid Hv]. split; [by rewrite getID_setTimestamps|].
  intros now. rewrite <- (setID_same e) at 1. rewrite validate_stamp, Hv. simpl. by rewrite setID_same.
Qed.
Lemma es_put_ok id e s : store_ok (es_entries s) → entry_ok id e → store_ok (es_entries (es_put id e s)).
Proof. intros Hs He. by apply map_Forall_insert_2. Qed.

Lemma es_create_ok drawn vnow now s e e' :
  vnow ≠ zeroTime → validate vnow e = Ok e' → store_ok (es_entries s) → store_ok (es_entries (es_create drawn now s e').1).
Proof.
  intros Hv He Hs. apply es_put_ok; [done|]. rewrite getID_setTimestamps, getID_setID. by eapply stamped_ok.
Qed.

(** Requests whose clock is set and whose in-place change keeps a record valid. *)
Definition request_ok (r : request E) : Prop :=
  match r with
  | RCreate _ vnow _ _ | RUpdate vnow _ _ _ => vnow ≠ zeroTime
  | RPatch _ _ fn => ∀ id e, entry_ok id e → entry_ok id (fn e)
  | _ => True
  end.

Lemma serve_ok `{MapRange} `{GoSort} notFound s r :
  request_ok r → store_ok (es_entries s) → store_ok (es_entries (serve notFound s r).1).
Proof.
  intros Hr Hs. destruct r as [|drawn vnow now [e|]|id|vnow now id [patch|]|id|now id fn]; simpl in *; try done.
  - destruct (validate vnow e) as [e'|m] eqn:Ev; [|done]. by apply (es_create_ok drawn vnow now s e).
  - destruct (validate vnow patch) as [p'|m] eqn:Ev; [|done]. unfold es_update.
    destruct (es_entries s !! id) as [old|] eqn:El; [|done]. apply es_put_ok; [done|].
    destruct (Hs id old El) as [-> _]. by eapply stamped_ok.
  - unfold deleteHandle, es_delete. destruct (es_entries s !! id) as [old|]; [|done]. by apply map_Forall_delete.
  - unfold modifyFn. destruct (es_entries s !! id) as [old|] eqn:El; [|done]. apply es_put_ok; [done|].
    apply restamped_ok, Hr, (Hs id old El).
Qed.

(** ** Lists *)
#[local] Instance newer_SWO : SWO (λ _ : E, True) newer.
Proof. split; unfold newer; intros; rewrite ?Z.ltb_lt, ?Z.ltb_ge in *; lia. Qed.
Lemma storeList_spec `{MapRange} `{GoSort} (m : gmap string E) :
  StronglySorted (λ a b, getCreatedAt b ≤ getCreatedAt a) (storeList m) ∧
  (∀ e, e ∈ storeList m ↔ ∃ id, m !! id = Some e) ∧ length (storeList m) = size m.
Proof.
  unfold storeList. split_and!.
  - assert (sorted_by newer (sort_Slice newer (map_range m).*2)) as Hs.
    { apply (sort_Slice_sorted (λ _, True)); [apply _|]. by apply Forall_true. }
    unfold sorted_by in Hs. induction Hs as [|x l Hl IH Hx]; constructor; [done|].
    eapply Forall_impl; [done|]. unfold newer. intros y. rewrite Z.ltb_ge. lia.
  - intros e. rewrite sort_Slice_perm, list_elem_of_fmap. split.
    + intros ([id e'] & -> & Hin). exists id. by apply elem_of_map_range.
    + intros [id Hin]. exists (id, e). split; [done|]. by apply elem_of_map_range.
  - rewrite sort_Slice_perm, length_fmap, map_range_perm. apply length_map_to_list.
Qed.

(** ** Saving and loading *)
Definition load_rows (m : gmap string E) (l : list E) : gmap string E := foldl (λ (m : gmap string E) e, <[getID e := e]> m) m l.
Lemma load_into_all (l : list E) m : load_into m (map Some l) = Some (load_rows m l).
Proof. revert m. induction l as [|e l IH]; intros m; [done|]. apply IH. Qed.
Lemma load_rows_lookup (l : list E) m id :
  (∀ e e', e ∈ l → e' ∈ l → getID e = getID e' → e = e') →
  load_rows m l !! id =
  match list_find (λ e, getID e = id) l with Some (_, e) => Some e | None => m !! id end.
Proof.
  revert m. induction l as [|e l IH]; intros m Hd; [done|]. simpl.
  unfold load_rows in IH. rewrite IH by (intros; apply Hd; [by right|by right|done]).
  case_decide as He.
  - subst id. destruct (list_find (λ e', getID e' = getID e) l) as [[i e']|] eqn:Ev.
    + apply list_find_Some in Ev as (Hl & He & _). f_equal. apply Hd; [|by left|done]. right. by eapply list_elem_of_lookup_2.
    + apply lookup_insert_eq.
  - destruct (list_find _ l) as [[i e']|]; simpl; [done|]. by apply lookup_insert_ne.
Qed.
Lemma load_saved_rows `{MapRange} (m : gmap string E) : store_ok m → load_into ∅ (map Some (saved_rows m)) = Some m.
Proof.
  intros Hm. rewrite load_into_all. f_equal. apply map_eq. intros id.
  assert (∀ e, e ∈ saved_rows m ↔ m !! getID e = Some e) as Hin.
  { intros e. unfold saved_rows. rewrite list_elem_of_fmap. split.
    - intros ([k e'] & -> & Hk%elem_of_map_range). simpl. by destruct (Hm k e' Hk) as [-> _].
    - intros He. exists (getID e, e). split; [done|]. by apply elem_of_map_range. }
  rewrite load_rows_lookup.
  2: { intros e e' He%Hin He'%Hin Heq. rewrite Heq in He. congruence. }
  destruct (list_find (λ e, getID e = id) (saved_rows m)) as [[i e]|] eqn:Ev.
  - apply list_find_Some in Ev as (Hl%list_elem_of_lookup_2 & <- & _). symmetry. by apply Hin.
  - rewrite lookup_empty. destruct (m !! id) as [e|] eqn:Em; [|done]. exfalso.
    apply list_find_None in Ev. rewrite Forall_forall in Ev. destruct (Hm id e Em) as [He _]. apply (Ev e); [|done].
    apply Hin. by rewrite He.
Qed.

(** *** Restarts *)
(** With one save at a time, a store whose saves are done is the one its file holds. *)
Definition holds (rows : option (list E)) (m : gmap string E) : Prop := storeLoad ∅ (map Some <$> rows) = Some m.
Definition disk_ok (st : saved E) : Prop :=
  store_ok (es_entries (sv_store st)) ∧
  match sv_reading st with
  | [] => es_saves (sv_store st) ≠ 0%nat ∨ holds (sv_file st) (es_entries (sv_store st))
  | [rows] => es_saves (sv_store st) ≠ 0%nat ∨ holds (Some rows) (es_entries (sv_store st))
  | _ => False
  end.
Definition fresh_disk : saved E := {| sv_store := {| es_entries := ∅; es_saves := 0 |}; sv_reading := []; sv_file := None |}.

Lemma serve_saves `{MapRange} `{GoSort} notFound s r :
  let s' := (serve notFound s r).1 in s' = s ∨ es_saves s' = S (es_saves s).
Proof.
  destruct r as [|drawn vnow now [e|]|id|vnow now id [patch|]|id|now id fn]; simpl; auto.
  - destruct (validate vnow e); auto.
  - destruct (validate vnow patch); [|auto]. unfold es_update. destruct (es_entries s !! id); auto.
  - unfold deleteHandle, es_delete. destruct (es_entries s !! id); auto.
  - unfold modifyFn. destruct (es_entries s !! id); auto.
Qed.

Definition act_ok (a : disk_act E) : Prop := match a with AServe r => request_ok r | _ => True end.
Lemma disk_step_ok `{MapRange} `{GoSort} notFound st a st' :
  act_ok a → (a = ARead → sv_reading st = []) → disk_step notFound st a = Some st' → disk_ok st → disk_ok st'.
Proof.
  intros Ha Hone Hstep [Hs Hd]. destruct a as [r| |i]; simpl in *.
  - simplify_eq/=. split; simpl; [by apply serve_ok|].
    destruct (serve_saves notFound (sv_store st) r) as [->|Hn]; simpl in *; [done|].
    destruct (sv_reading st) as [|rows [|]]; [left; lia|left; lia|done].
  - rewrite Hone in * by done. destruct (es_saves (sv_store st)) as [|n]; [done|]. simplify_eq/=.
    split; simpl; [done|]. right. by apply load_saved_rows.
  - destruct (sv_reading st) as [|rows [|]]; [done| |done]. destruct i as [|i]; [|done]. by simplify_eq/=.
Qed.
Lemma disk_run_ok `{MapRange} `{GoSort} notFound acts st st' :
  Forall act_ok acts → one_save_at_a_time notFound st acts = true → disk_run notFound st acts = Some st' →
  disk_ok st → disk_ok st'.
Proof.
  revert st. induction acts as [|a acts IH]; intros st Ha Hone Hrun Hst; simpl in *; [by simplify_eq|].
  apply Forall_cons in Ha as [Ha Hacts]. apply andb_prop in Hone as [Hread Hone].
  destruct (disk_step notFound st a) as [st1|] eqn:Es; [|done]. simpl in Hrun. apply (IH st1); [done..|].
  eapply disk_step_ok; [done| |done|done]. intros ->. apply Nat.eqb_eq in Hread. by apply nil_length_inv.
Qed.

(** A server restarted once its saves are done, each save having read the map after the one before
    had written, comes back with the records it had. *)
Theorem restart_restores `{MapRange} `{GoSort} notFound acts st :
  Forall act_ok acts → one_save_at_a_time notFound fresh_disk acts = true →
  disk_run notFound fresh_disk acts = Some st → saves_done st →
  restart st = Some (es_entries (sv_store st)).
Proof.
  intros Ha Hone Hrun [Hn Hr]. assert (disk_ok st) as [_ Hd].
  { eapply disk_run_ok; [done..|]. split; simpl; [apply map_Forall_empty|by right]. }
  rewrite Hr in Hd. destruct Hd as [?|Hd]; [done|exact Hd].
Qed.
End Laws.
