(* ===== verification/DashEntities.v ===== *)
(** * The records of the dashboard (endpoints/dashboard.go)

    Fifteen kinds of record, each with its [validate] method, as instances of [entity] with its
    laws.  The id and the two timestamps, which every struct has, are one sub-record [Meta].
    [validate] trims and normalises fields and then runs a chain of checks; a default it writes
    after the checks (a status) is written before them here, as no check reads it. *)
From S2P Require Import Prelude GoStrings GoFloat Order GoNet DashStore.

Record Meta := { m_ID : string; m_CreatedAt : Z; m_UpdatedAt : Z }.

(** The methods of an entity, from its sub-record, its normalisation and its checks. *)
Definition meta_entity {E : Type} (meta : E → Meta) (with_meta : Meta → E → E) (norm : Z → E → E) (checks : E → list (bool * string)) : entity E :=
  {| getID e := m_ID (meta e);
     getCreatedAt e := m_CreatedAt (meta e);
     setID id e := with_meta {| m_ID := id; m_CreatedAt := m_CreatedAt (meta e); m_UpdatedAt := m_UpdatedAt (meta e) |} e;
     setTimestamps c u e := with_meta {| m_ID := m_ID (meta e); m_CreatedAt := c; m_UpdatedAt := u |} e;
     validate now e := checked_entity checks (norm now e) |}.

Lemma meta_entity_laws {E : Type} meta with_meta norm (checks : E → list (bool * string)) :
  (∀ m e, meta (with_meta m e) = m) → (∀ m m' e, with_meta m (with_meta m' e) = with_meta m e) → (∀ e, with_meta (meta e) e = e) →
  (∀ now m e, norm now (with_meta m e) = with_meta m (norm now e)) → (∀ now e, meta (norm now e) = meta e) →
  (∀ m e, checks (with_meta m e) = checks e) →
  (∀ now now' e, now ≠ zeroTime → first_message (checks (norm now e)) = None → norm now' (norm now e) = norm now e) →
  @EntityLaws E (meta_entity meta with_meta norm checks).
Proof.
  intros Hget Hset Hsame Hnorm Hmeta Hchecks Hfix. split; cbn.
  - intros id e. by rewrite Hget.
  - intros c u e. by rewrite Hget.
  - intros c u e. by rewrite Hget.
  - intros now c u id e. rewrite !Hget, !Hset, Hnorm. cbn. unfold checked_entity. rewrite Hchecks.
    destruct (first_message (checks (norm now e))); [done|]. cbn. by rewrite !Hget, !Hset.
  - intros now now' e e' Hnow [-> Hc]%checked_entity_Ok. rewrite (Hfix now now' e Hnow Hc). by apply checked_entity_None.
  - intros e. transitivity (with_meta (meta e) e); [f_equal; by destruct (meta e)|apply Hsame].
Qed.

(** ** Normalisations *)
Definition one_of (l : list string) (s : string) : bool := existsb (String.eqb s) l.
(** [switch x { case ...: default: x = d }] *)
Definition keep_or (d : string) (l : list string) (s : string) : string := if one_of l s then s else d.
Definition activeOrPaused (s : string) : string := keep_or "active" ["active"; "paused"] s.
Definition normalizeIntegrationType (value : string) : string :=
  let v := ToLower (TrimSpace value) in
  if one_of [""; "open_rtb"; "openrtb"; "ortb"] v then "open_rtb"
  else if one_of ["tag_based"; "tagbased"; "vast"; "vast_tag"] v then "tag_based"
  else "".
Definition normalizeAuctionPriceType (value : string) : string :=
  if one_of ["second"; "second_price"] (ToLower (TrimSpace value)) then "second" else "first".
Definition normalizeYieldPriority (value : string) : string :=
  if one_of ["house"] (ToLower (TrimSpace value)) then "house" else "programmatic".
Definition normalizeDemandPath (value : string) : string :=
  let v := ToLower (TrimSpace value) in
  if one_of [""; "*"; "any"; "direct"; "pmp"] v then ""
  else if one_of ["open_auction"; "open"; "programmatic"] v then "open_auction"
  else "".

Lemma keep_or_idemp d l s : one_of l d = true → keep_or d l (keep_or d l s) = keep_or d l s.
Proof. intros Hd. unfold keep_or. destruct (one_of l s) eqn:Es; by rewrite ?Es, ?Hd. Qed.
Lemma normalizeIntegrationType_fixed v :
  normalizeIntegrationType v ≠ "" → normalizeIntegrationType (normalizeIntegrationType v) = normalizeIntegrationType v.
Proof. unfold normalizeIntegrationType at 1 3 4. cbv zeta. by repeat case_match. Qed.
Lemma normalizeAuctionPriceType_fixed v : normalizeAuctionPriceType (normalizeAuctionPriceType v) = normalizeAuctionPriceType v.
Proof. unfold normalizeAuctionPriceType at 2 3. by case_match. Qed.
Lemma auction_price_fixed v :
  normalizeAuctionPriceType (normalizeAuctionPriceType v +:+ "_price") = normalizeAuctionPriceType v.
Proof. unfold normalizeAuctionPriceType at 2 3. by case_match. Qed.
Lemma normalizeYieldPriority_fixed v : normalizeYieldPriority (normalizeYieldPriority v) = normalizeYieldPriority v.
Proof. unfold normalizeYieldPriority at 2 3. by case_match. Qed.
Lemma normalizeDemandPath_fixed v : normalizeDemandPath (normalizeDemandPath v) = normalizeDemandPath v.
Proof. unfold normalizeDemandPath at 2 3. cbv zeta. by repeat case_match. Qed.
Lemma event_time_fixed t now now' :
  now ≠ zeroTime → (if (if t =? zeroTime then now else t) =? zeroTime then now' else if t =? zeroTime then now else t) = if t =? zeroTime then now else t.
Proof. intros Hn. destruct (t =? zeroTime) eqn:Et; [|by rewrite Et]. by rewrite (proj2 (Z.eqb_neq _ _) Hn). Qed.

(** A check of the chain that a passing record satisfies. *)
Lemma passed_check l b m : first_message l = None → (b, m) ∈ l → b = false.
Proof. rewrite first_message_None. eauto. Qed.

#[local] Arguments TrimSpace : simpl never.
#[local] Arguments keep_or : simpl never.
#[local] Arguments normalizeIntegrationType : simpl never.
#[local] Arguments normalizeAuctionPriceType : simpl never.
#[local] Arguments normalizeYieldPriority : simpl never.
#[local] Arguments normalizeDemandPath : simpl never.
Ltac solve_entity norm :=
  apply meta_entity_laws;
  [by intros m []|by intros m m' []|by intros []|by intros now m []|by intros now []|by intros m []|];
  let e := fresh "e" in
  intros now now' e Hnow Hc; destruct e; unfold norm in *; cbn in Hc |- *;
  rewrite ?TrimSpace_idemp, ?normalizeAuctionPriceType_fixed, ?auction_price_fixed, ?normalizeYieldPriority_fixed, ?normalizeDemandPath_fixed;
  unfold activeOrPaused; rewrite ?keep_or_idemp, ?event_time_fixed by done;
  try (rewrite normalizeIntegrationType_fixed; [|intros Hi; rewrite Hi in Hc; revert Hc; cbn; by repeat case_match]);
  reflexivity.

(** ** Publisher *)
Record Publisher := {
  pub_meta : Meta; pub_Name : string; pub_Domain : string; pub_ContactEmail : string; pub_Status : string
}.
Definition pub_with (m : Meta) (e : Publisher) : Publisher :=
  {| pub_meta := m; pub_Name := pub_Name e; pub_Domain := pub_Domain e; pub_ContactEmail := pub_ContactEmail e; pub_Status := pub_Status e |}.
Definition pub_norm (now : Z) (e : Publisher) : Publisher :=
  {| pub_meta := pub_meta e; pub_Name := TrimSpace (pub_Name e); pub_Domain := TrimSpace (pub_Domain e); pub_ContactEmail := pub_ContactEmail e;
     pub_Status := activeOrPaused (pub_Status e) |}.
Definition pub_checks (e : Publisher) : list (bool * string) :=
  [(pub_Name e =s? "", "name is required"); (pub_Domain e =s? "", "domain is required")].
Definition Publisher_entity : entity Publisher := meta_entity pub_meta pub_with pub_norm pub_checks.
#[export] Existing Instance Publisher_entity.
#[export] Instance Publisher_laws : EntityLaws Publisher.
Proof. solve_entity pub_norm. Qed.

(** ** Advertiser *)
Record Advertiser := {
  adv_meta : Meta; adv_Name : string; adv_Domain : string; adv_Category : string; adv_ContactEmail : string; adv_Status : string
}.
Definition adv_with (m : Meta) (e : Advertiser) : Advertiser :=
  {| adv_meta := m; adv_Name := adv_Name e; adv_Domain := adv_Domain e; adv_Category := adv_Category e; adv_ContactEmail := adv_ContactEmail e;
     adv_Status := adv_Status e |}.
Definition adv_norm (now : Z) (e : Advertiser) : Advertiser :=
  {| adv_meta := adv_meta e; adv_Name := TrimSpace (adv_Name e); adv_Domain := TrimSpace (adv_Domain e); adv_Category := adv_Category e;
     adv_ContactEmail := adv_ContactEmail e; adv_Status := activeOrPaused (adv_Status e) |}.
Definition adv_checks (e : Advertiser) : list (bool * string) :=
  [(adv_Name e =s? "", "name is required"); (adv_Domain e =s? "", "domain is required")].
Definition Advertiser_entity : entity Advertiser := meta_entity adv_meta adv_with adv_norm adv_checks.
#[export] Existing Instance Advertiser_entity.
#[export] Instance Advertiser_laws : EntityLaws Advertiser.
Proof. solve_entity adv_norm. Qed.

(** ** DomainList *)
Record DomainList := {
  dl_meta : Meta; dl_Name : string; dl_ListType : string; dl_Entries : list string
}.
Definition dl_with (m : Meta) (e : DomainList) : DomainList :=
  {| dl_meta := m; dl_Name := dl_Name e; dl_ListType := dl_ListType e; dl_Entries := dl_Entries e |}.
Definition dl_norm (now : Z) (e : DomainList) : DomainList :=
  {| dl_meta := dl_meta e; dl_Name := TrimSpace (dl_Name e); dl_ListType := keep_or "blocklist" ["whitelist"; "blocklist"] (dl_ListType e);
     dl_Entries := dl_Entries e |}.
Definition dl_checks (e : DomainList) : list (bool * string) :=
  [(dl_Name e =s? "", "name is required")].
Definition DomainList_entity : entity DomainList := meta_entity dl_meta dl_with dl_norm dl_checks.
#[export] Existing Instance DomainList_entity.
#[export] Instance DomainList_laws : EntityLaws DomainList.
Proof. solve_entity dl_norm. Qed.

(** ** Campaign *)
Record TargetingRule := { tr_Type : string; tr_Op : string; tr_Value : string }.
Record ExtStatsConfig := {
  xs_Provider : string; xs_URL : string; xs_APIKey : string; xs_IDParam : string; xs_IDValue : string; xs_DateFrom : string; xs_DateTo : string
}.
Record Campaign := {
  camp_meta : Meta; camp_Name : string; camp_AdvertiserID : string; camp_PublisherID : string; camp_VASTTagURL : string;
  camp_OrtbEndpointURL : string; camp_FloorCPM : float64; camp_Status : string; camp_IntegrationType : string; camp_OrtbVersion : string;
  camp_MimeTypes : list string; camp_Protocols : list Z; camp_APIs : list Z; camp_DemandTypes : list string; camp_AuctionType : string;
  camp_AuctionPriceType : string; camp_ImpsDailyCap : Z; camp_ImpsHourlyCap : Z; camp_ReqsDailyCap : Z; camp_ReqsHourlyCap : Z;
  camp_OppsDailyCap : Z; camp_OppsHourlyCap : Z; camp_QPS : Z; camp_RevDailyCap : float64; camp_FilterImpressions : string;
  camp_DomainFilterType : string; camp_DomainLists : list string; camp_PassSchain : bool; camp_TargetingRules : list TargetingRule;
  camp_SupplyLinks : list string; camp_BudgetTotal : float64; camp_BudgetDaily : float64; camp_PacingType : string; camp_AutoBidding : bool;
  camp_AutoBiddingGoal : string; camp_AutoBiddingTarget : float64; camp_StartDate : string; camp_EndDate : string;
  camp_DayPartSchedule : list string; camp_FreqCapImps : Z; camp_FreqCapPeriod : string; camp_SegmentIDs : list string; camp_BAdv : list string;
  camp_BCat : list string; camp_ExtStats : option ExtStatsConfig
}.
Definition camp_with (m : Meta) (e : Campaign) : Campaign :=
  {| camp_meta := m; camp_Name := camp_Name e; camp_AdvertiserID := camp_AdvertiserID e; camp_PublisherID := camp_PublisherID e;
     camp_VASTTagURL := camp_VASTTagURL e; camp_OrtbEndpointURL := camp_OrtbEndpointURL e; camp_FloorCPM := camp_FloorCPM e;
     camp_Status := camp_Status e; camp_IntegrationType := camp_IntegrationType e; camp_OrtbVersion := camp_OrtbVersion e;
     camp_MimeTypes := camp_MimeTypes e; camp_Protocols := camp_Protocols e; camp_APIs := camp_APIs e; camp_DemandTypes := camp_DemandTypes e;
     camp_AuctionType := camp_AuctionType e; camp_AuctionPriceType := camp_AuctionPriceType e; camp_ImpsDailyCap := camp_ImpsDailyCap e;
     camp_ImpsHourlyCap := camp_ImpsHourlyCap e; camp_ReqsDailyCap := camp_ReqsDailyCap e; camp_ReqsHourlyCap := camp_ReqsHourlyCap e;
     camp_OppsDailyCap := camp_OppsDailyCap e; camp_OppsHourlyCap := camp_OppsHourlyCap e; camp_QPS := camp_QPS e;
     camp_RevDailyCap := camp_RevDailyCap e; camp_FilterImpressions := camp_FilterImpressions e; camp_DomainFilterType := camp_DomainFilterType e;
     camp_DomainLists := camp_DomainLists e; camp_PassSchain := camp_PassSchain e; camp_TargetingRules := camp_TargetingRules e;
     camp_SupplyLinks := camp_SupplyLinks e; camp_BudgetTotal := camp_BudgetTotal e; camp_BudgetDaily := camp_BudgetDaily e;
     camp_PacingType := camp_PacingType e; camp_AutoBidding := camp_AutoBidding e; camp_AutoBiddingGoal := camp_AutoBiddingGoal e;
     camp_AutoBiddingTarget := camp_AutoBiddingTarget e; camp_StartDate := camp_StartDate e; camp_EndDate := camp_EndDate e;
     camp_DayPartSchedule := camp_DayPartSchedule e; camp_FreqCapImps := camp_FreqCapImps e; camp_FreqCapPeriod := camp_FreqCapPeriod e;
     camp_SegmentIDs := camp_SegmentIDs e; camp_BAdv := camp_BAdv e; camp_BCat := camp_BCat e; camp_ExtStats := camp_ExtStats e |}.
Definition camp_norm (now : Z) (e : Campaign) : Campaign :=
  {| camp_meta := camp_meta e; camp_Name := TrimSpace (camp_Name e); camp_AdvertiserID := camp_AdvertiserID e;
     camp_PublisherID := camp_PublisherID e; camp_VASTTagURL := TrimSpace (camp_VASTTagURL e);
     camp_OrtbEndpointURL := TrimSpace (camp_OrtbEndpointURL e); camp_FloorCPM := camp_FloorCPM e; camp_Status := activeOrPaused (camp_Status e);
     camp_IntegrationType := normalizeIntegrationType (camp_IntegrationType e); camp_OrtbVersion := camp_OrtbVersion e;
     camp_MimeTypes := camp_MimeTypes e; camp_Protocols := camp_Protocols e; camp_APIs := camp_APIs e; camp_DemandTypes := camp_DemandTypes e;
     camp_AuctionType := "open"; camp_AuctionPriceType := normalizeAuctionPriceType (camp_AuctionPriceType e);
     camp_ImpsDailyCap := camp_ImpsDailyCap e; camp_ImpsHourlyCap := camp_ImpsHourlyCap e; camp_ReqsDailyCap := camp_ReqsDailyCap e;
     camp_ReqsHourlyCap := camp_ReqsHourlyCap e; camp_OppsDailyCap := camp_OppsDailyCap e; camp_OppsHourlyCap := camp_OppsHourlyCap e;
     camp_QPS := camp_QPS e; camp_RevDailyCap := camp_RevDailyCap e; camp_FilterImpressions := camp_FilterImpressions e;
     camp_DomainFilterType := camp_DomainFilterType e; camp_DomainLists := camp_DomainLists e; camp_PassSchain := camp_PassSchain e;
     camp_TargetingRules := camp_TargetingRules e; camp_SupplyLinks := camp_SupplyLinks e; camp_BudgetTotal := camp_BudgetTotal e;
     camp_BudgetDaily := camp_BudgetDaily e; camp_PacingType := camp_PacingType e; camp_AutoBidding := camp_AutoBidding e;
     camp_AutoBiddingGoal := camp_AutoBiddingGoal e; camp_AutoBiddingTarget := camp_AutoBiddingTarget e; camp_StartDate := camp_StartDate e;
     camp_EndDate := camp_EndDate e; camp_DayPartSchedule := camp_DayPartSchedule e; camp_FreqCapImps := camp_FreqCapImps e;
     camp_FreqCapPeriod := camp_FreqCapPeriod e; camp_SegmentIDs := camp_SegmentIDs e; camp_BAdv := camp_BAdv e; camp_BCat := camp_BCat e;
     camp_ExtStats := camp_ExtStats e |}.
Definition camp_checks (e : Campaign) : list (bool * string) :=
  [(camp_Name e =s? "", "name is required"); (camp_AdvertiserID e =s? "", "advertiser_id is required");
   (camp_IntegrationType e =s? "", "integration_type must be one of: tag_based, open_rtb");
   ((camp_IntegrationType e =s? "tag_based") && (camp_VASTTagURL e =s? ""), "vast_tag_url is required when integration_type is tag_based");
   ((camp_IntegrationType e =s? "open_rtb") && (camp_OrtbEndpointURL e =s? ""), "ortb_endpoint_url is required when integration_type is open_rtb");
   (camp_FloorCPM e <f? f0, "floor_cpm must be >= 0")].
Definition Campaign_entity : entity Campaign := meta_entity camp_meta camp_with camp_norm camp_checks.
#[export] Existing Instance Campaign_entity.
#[export] Instance Campaign_laws : EntityLaws Campaign.
Proof. solve_entity camp_norm. Qed.

(** ** AudienceSegment *)
Record SegmentRule := { sr_Attribute : string; sr_Op : string; sr_Value : string }.
Record AudienceSegment := {
  seg_meta : Meta; seg_Name : string; seg_Type : string; seg_Source : string; seg_Description : string; seg_CRMProvider : string;
  seg_CRMEndpoint : string; seg_CRMAPIKey : string; seg_CRMSyncedAt : option Z; seg_Rules : list SegmentRule; seg_EstimatedReach : Z;
  seg_FreqCapImps : Z; seg_FreqCapPeriod : string; seg_ConsentRequired : bool; seg_DataTTLDays : Z; seg_GDPRApplies : bool; seg_CCPAApplies : bool;
  seg_Status : string
}.
Definition seg_with (m : Meta) (e : AudienceSegment) : AudienceSegment :=
  {| seg_meta := m; seg_Name := seg_Name e; seg_Type := seg_Type e; seg_Source := seg_Source e; seg_Description := seg_Description e;
     seg_CRMProvider := seg_CRMProvider e; seg_CRMEndpoint := seg_CRMEndpoint e; seg_CRMAPIKey := seg_CRMAPIKey e;
     seg_CRMSyncedAt := seg_CRMSyncedAt e; seg_Rules := seg_Rules e; seg_EstimatedReach := seg_EstimatedReach e;
     seg_FreqCapImps := seg_FreqCapImps e; seg_FreqCapPeriod := seg_FreqCapPeriod e; seg_ConsentRequired := seg_ConsentRequired e;
     seg_DataTTLDays := seg_DataTTLDays e; seg_GDPRApplies := seg_GDPRApplies e; seg_CCPAApplies := seg_CCPAApplies e; seg_Status := seg_Status e |}.
Definition seg_norm (now : Z) (e : AudienceSegment) : AudienceSegment :=
  {| seg_meta := seg_meta e; seg_Name := TrimSpace (seg_Name e);
     seg_Type := keep_or "behavioral" ["demographic"; "behavioral"; "contextual"; "retarget"; "lookalike"] (seg_Type e);
     seg_Source := keep_or "first_party" ["first_party"; "crm"; "third_party"] (seg_Source e); seg_Description := seg_Description e;
     seg_CRMProvider := seg_CRMProvider e; seg_CRMEndpoint := seg_CRMEndpoint e; seg_CRMAPIKey := seg_CRMAPIKey e;
     seg_CRMSyncedAt := seg_CRMSyncedAt e; seg_Rules := seg_Rules e; seg_EstimatedReach := seg_EstimatedReach e;
     seg_FreqCapImps := seg_FreqCapImps e; seg_FreqCapPeriod := seg_FreqCapPeriod e; seg_ConsentRequired := seg_ConsentRequired e;
     seg_DataTTLDays := seg_DataTTLDays e; seg_GDPRApplies := seg_GDPRApplies e; seg_CCPAApplies := seg_CCPAApplies e;
     seg_Status := activeOrPaused (seg_Status e) |}.
Definition seg_checks (e : AudienceSegment) : list (bool * string) :=
  [(seg_Name e =s? "", "name is required")].
Definition AudienceSegment_entity : entity AudienceSegment := meta_entity seg_meta seg_with seg_norm seg_checks.
#[export] Existing Instance AudienceSegment_entity.
#[export] Instance AudienceSegment_laws : EntityLaws AudienceSegment.
Proof. solve_entity seg_norm. Qed.

(** ** YieldRule *)
Record YieldRule := {
  yr_meta : Meta; yr_Name : string; yr_PublisherID : string; yr_AdUnitID : string; yr_Priority : string; yr_FloorCPM : float64;
  yr_TargetCPM : float64; yr_WaterfallPos : Z; yr_AuctionType : string; yr_ViewabilityThreshold : float64; yr_VCRThreshold : float64;
  yr_SegmentIDs : list string; yr_Active : bool
}.
Definition yr_with (m : Meta) (e : YieldRule) : YieldRule :=
  {| yr_meta := m; yr_Name := yr_Name e; yr_PublisherID := yr_PublisherID e; yr_AdUnitID := yr_AdUnitID e; yr_Priority := yr_Priority e;
     yr_FloorCPM := yr_FloorCPM e; yr_TargetCPM := yr_TargetCPM e; yr_WaterfallPos := yr_WaterfallPos e; yr_AuctionType := yr_AuctionType e;
     yr_ViewabilityThreshold := yr_ViewabilityThreshold e; yr_VCRThreshold := yr_VCRThreshold e; yr_SegmentIDs := yr_SegmentIDs e;
     yr_Active := yr_Active e |}.
Definition yr_norm (now : Z) (e : YieldRule) : YieldRule :=
  {| yr_meta := yr_meta e; yr_Name := TrimSpace (yr_Name e); yr_PublisherID := yr_PublisherID e; yr_AdUnitID := yr_AdUnitID e;
     yr_Priority := normalizeYieldPriority (yr_Priority e); yr_FloorCPM := yr_FloorCPM e; yr_TargetCPM := yr_TargetCPM e;
     yr_WaterfallPos := yr_WaterfallPos e; yr_AuctionType := normalizeAuctionPriceType (yr_AuctionType e) +:+ "_price";
     yr_ViewabilityThreshold := yr_ViewabilityThreshold e; yr_VCRThreshold := yr_VCRThreshold e; yr_SegmentIDs := yr_SegmentIDs e;
     yr_Active := yr_Active e |}.
Definition yr_checks (e : YieldRule) : list (bool * string) :=
  [(yr_Name e =s? "", "name is required"); (yr_FloorCPM e <f? f0, "floor_cpm must be >= 0");
   ((yr_ViewabilityThreshold e <f? f0) || (fofZ 100 <f? yr_ViewabilityThreshold e), "viewability_threshold must be between 0 and 100");
   ((yr_VCRThreshold e <f? f0) || (fofZ 100 <f? yr_VCRThreshold e), "vcr_threshold must be between 0 and 100")].
Definition YieldRule_entity : entity YieldRule := meta_entity yr_meta yr_with yr_norm yr_checks.
#[export] Existing Instance YieldRule_entity.
#[export] Instance YieldRule_laws : EntityLaws YieldRule.
Proof. solve_entity yr_norm. Qed.

(** ** BidderScorecard *)
Record BidderScorecard := {
  sc_meta : Meta; sc_BidderName : string; sc_BidRate : float64; sc_WinRate : float64; sc_RenderSuccessRate : float64; sc_VASTErrorRate : float64;
  sc_TimeoutRate : float64; sc_CompletionRate : float64; sc_DiscrepancyRate : float64; sc_AvgBidCPM : float64; sc_EffectiveCPM : float64;
  sc_ExpectedValue : float64; sc_AvgWrapperDepth : float64; sc_SuppressedUntil : option Z; sc_Active : bool; sc_Notes : string
}.
Definition sc_with (m : Meta) (e : BidderScorecard) : BidderScorecard :=
  {| sc_meta := m; sc_BidderName := sc_BidderName e; sc_BidRate := sc_BidRate e; sc_WinRate := sc_WinRate e;
     sc_RenderSuccessRate := sc_RenderSuccessRate e; sc_VASTErrorRate := sc_VASTErrorRate e; sc_TimeoutRate := sc_TimeoutRate e;
     sc_CompletionRate := sc_CompletionRate e; sc_DiscrepancyRate := sc_DiscrepancyRate e; sc_AvgBidCPM := sc_AvgBidCPM e;
     sc_EffectiveCPM := sc_EffectiveCPM e; sc_ExpectedValue := sc_ExpectedValue e; sc_AvgWrapperDepth := sc_AvgWrapperDepth e;
     sc_SuppressedUntil := sc_SuppressedUntil e; sc_Active := sc_Active e; sc_Notes := sc_Notes e |}.
Definition sc_norm (now : Z) (e : BidderScorecard) : BidderScorecard :=
  {| sc_meta := sc_meta e; sc_BidderName := TrimSpace (sc_BidderName e); sc_BidRate := sc_BidRate e; sc_WinRate := sc_WinRate e;
     sc_RenderSuccessRate := sc_RenderSuccessRate e; sc_VASTErrorRate := sc_VASTErrorRate e; sc_TimeoutRate := sc_TimeoutRate e;
     sc_CompletionRate := sc_CompletionRate e; sc_DiscrepancyRate := sc_DiscrepancyRate e; sc_AvgBidCPM := sc_AvgBidCPM e;
     sc_EffectiveCPM := sc_EffectiveCPM e; sc_ExpectedValue := sc_ExpectedValue e; sc_AvgWrapperDepth := sc_AvgWrapperDepth e;
     sc_SuppressedUntil := sc_SuppressedUntil e; sc_Active := sc_Active e; sc_Notes := sc_Notes e |}.
Definition sc_checks (e : BidderScorecard) : list (bool * string) :=
  [(sc_BidderName e =s? "", "bidder_name is required"); ((sc_BidRate e <f? f0) || (f1 <f? sc_BidRate e), "bid_rate must be between 0 and 1");
   ((sc_WinRate e <f? f0) || (f1 <f? sc_WinRate e), "win_rate must be between 0 and 1");
   ((sc_RenderSuccessRate e <f? f0) || (f1 <f? sc_RenderSuccessRate e), "render_success_rate must be between 0 and 1");
   ((sc_VASTErrorRate e <f? f0) || (f1 <f? sc_VASTErrorRate e), "vast_error_rate must be between 0 and 1");
   ((sc_TimeoutRate e <f? f0) || (f1 <f? sc_TimeoutRate e), "timeout_rate must be between 0 and 1");
   ((sc_CompletionRate e <f? f0) || (f1 <f? sc_CompletionRate e), "completion_rate must be between 0 and 1");
   ((sc_DiscrepancyRate e <f? f0) || (f1 <f? sc_DiscrepancyRate e), "discrepancy_rate must be between 0 and 1");
   (sc_AvgBidCPM e <f? f0, "avg_bid_cpm must be >= 0")].
Definition BidderScorecard_entity : entity BidderScorecard := meta_entity sc_meta sc_with sc_norm sc_checks.
#[export] Existing Instance BidderScorecard_entity.
#[export] Instance BidderScorecard_laws : EntityLaws BidderScorecard.
Proof. solve_entity sc_norm. Qed.

(** ** DynamicFloorRule *)
Record FloorSegment := { fs_Env : string; fs_GeoCountry : string; fs_DeviceType : string; fs_ContentGenre : string; fs_SlotInPod : Z; fs_DaypartHour : Z }.
Record DynamicFloorRule := {
  dfr_meta : Meta; dfr_Name : string; dfr_PublisherID : string; dfr_AdUnitID : string; dfr_Segment : FloorSegment; dfr_BaseFloor : float64;
  dfr_SoftFloor : float64; dfr_MinFloor : float64; dfr_MaxFloor : float64; dfr_AutoAdjust : bool; dfr_TargetFillRate : float64;
  dfr_FloorStepPct : float64; dfr_DemandPath : string; dfr_Priority : Z; dfr_Active : bool
}.
Definition dfr_with (m : Meta) (e : DynamicFloorRule) : DynamicFloorRule :=
  {| dfr_meta := m; dfr_Name := dfr_Name e; dfr_PublisherID := dfr_PublisherID e; dfr_AdUnitID := dfr_AdUnitID e; dfr_Segment := dfr_Segment e;
     dfr_BaseFloor := dfr_BaseFloor e; dfr_SoftFloor := dfr_SoftFloor e; dfr_MinFloor := dfr_MinFloor e; dfr_MaxFloor := dfr_MaxFloor e;
     dfr_AutoAdjust := dfr_AutoAdjust e; dfr_TargetFillRate := dfr_TargetFillRate e; dfr_FloorStepPct := dfr_FloorStepPct e;
     dfr_DemandPath := dfr_DemandPath e; dfr_Priority := dfr_Priority e; dfr_Active := dfr_Active e |}.
Definition dfr_norm (now : Z) (e : DynamicFloorRule) : DynamicFloorRule :=
  {| dfr_meta := dfr_meta e; dfr_Name := TrimSpace (dfr_Name e); dfr_PublisherID := dfr_PublisherID e; dfr_AdUnitID := dfr_AdUnitID e;
     dfr_Segment := dfr_Segment e; dfr_BaseFloor := dfr_BaseFloor e; dfr_SoftFloor := dfr_SoftFloor e; dfr_MinFloor := dfr_MinFloor e;
     dfr_MaxFloor := dfr_MaxFloor e; dfr_AutoAdjust := dfr_AutoAdjust e; dfr_TargetFillRate := dfr_TargetFillRate e;
     dfr_FloorStepPct := dfr_FloorStepPct e; dfr_DemandPath := normalizeDemandPath (dfr_DemandPath e); dfr_Priority := dfr_Priority e;
     dfr_Active := dfr_Active e |}.
Definition dfr_checks (e : DynamicFloorRule) : list (bool * string) :=
  [(dfr_Name e =s? "", "name is required"); (dfr_BaseFloor e <f? f0, "base_floor must be >= 0"); (dfr_MinFloor e <f? f0, "min_floor must be >= 0");
   (dfr_MaxFloor e <f? f0, "max_floor must be >= 0");
   ((f0 <f? dfr_MaxFloor e) && (dfr_MaxFloor e <f? dfr_MinFloor e), "min_floor must be <= max_floor");
   (dfr_AutoAdjust e && ((dfr_TargetFillRate e <f? f0) || (f1 <f? dfr_TargetFillRate e)), "target_fill_rate must be between 0 and 1 when auto_adjust is enabled");
   (dfr_AutoAdjust e && (dfr_FloorStepPct e <=f? f0), "floor_step_pct must be > 0 when auto_adjust is enabled")].
Definition DynamicFloorRule_entity : entity DynamicFloorRule := meta_entity dfr_meta dfr_with dfr_norm dfr_checks.
#[export] Existing Instance DynamicFloorRule_entity.
#[export] Instance DynamicFloorRule_laws : EntityLaws DynamicFloorRule.
Proof. solve_entity dfr_norm. Qed.

(** ** RequestQAProfile *)
Record QARequiredField := { qf_Field : string; qf_Condition : string; qf_Action : string }.
(** The loop over the fields; the index is written as that many zeros. *)
Fixpoint required_field_checks (i : nat) (l : list QARequiredField) : list (bool * string) :=
  match l with
  | [] => []
  | f :: l =>
      (TrimSpace (qf_Field f) =s? "", "required_fields[" +:+ zeros i +:+ "].field cannot be empty") ::
      (negb (one_of ["reject"; "downgrade"; "warn"] (qf_Action f)), "required_fields action must be 'reject', 'downgrade', or 'warn'") ::
      required_field_checks (S i) l
  end.
Record RequestQAProfile := {
  qa_meta : Meta; qa_Name : string; qa_PublisherID : string; qa_Environment : string; qa_RequiredFields : list QARequiredField;
  qa_MaxWrapperDepth : Z; qa_MinFloorCPM : float64; qa_MaxBidderTimeout : Z; qa_BlockedCategories : list string; qa_BlockedAdvertisers : list string;
  qa_RequireConsent : bool; qa_RequireAppAdsTxt : bool; qa_RequireSChain : bool; qa_Active : bool
}.
Definition qa_with (m : Meta) (e : RequestQAProfile) : RequestQAProfile :=
  {| qa_meta := m; qa_Name := qa_Name e; qa_PublisherID := qa_PublisherID e; qa_Environment := qa_Environment e;
     qa_RequiredFields := qa_RequiredFields e; qa_MaxWrapperDepth := qa_MaxWrapperDepth e; qa_MinFloorCPM := qa_MinFloorCPM e;
     qa_MaxBidderTimeout := qa_MaxBidderTimeout e; qa_BlockedCategories := qa_BlockedCategories e; qa_BlockedAdvertisers := qa_BlockedAdvertisers e;
     qa_RequireConsent := qa_RequireConsent e; qa_RequireAppAdsTxt := qa_RequireAppAdsTxt e; qa_RequireSChain := qa_RequireSChain e;
     qa_Active := qa_Active e |}.
Definition qa_norm (now : Z) (e : RequestQAProfile) : RequestQAProfile :=
  {| qa_meta := qa_meta e; qa_Name := TrimSpace (qa_Name e); qa_PublisherID := qa_PublisherID e; qa_Environment := qa_Environment e;
     qa_RequiredFields := qa_RequiredFields e; qa_MaxWrapperDepth := qa_MaxWrapperDepth e; qa_MinFloorCPM := qa_MinFloorCPM e;
     qa_MaxBidderTimeout := qa_MaxBidderTimeout e; qa_BlockedCategories := qa_BlockedCategories e; qa_BlockedAdvertisers := qa_BlockedAdvertisers e;
     qa_RequireConsent := qa_RequireConsent e; qa_RequireAppAdsTxt := qa_RequireAppAdsTxt e; qa_RequireSChain := qa_RequireSChain e;
     qa_Active := qa_Active e |}.
Definition qa_checks (e : RequestQAProfile) : list (bool * string) :=
  [(qa_Name e =s? "", "name is required"); (qa_MaxWrapperDepth e <? 0, "max_wrapper_depth must be >= 0");
   (qa_MinFloorCPM e <f? f0, "min_floor_cpm must be >= 0")] ++
  required_field_checks 0 (qa_RequiredFields e).
Definition RequestQAProfile_entity : entity RequestQAProfile := meta_entity qa_meta qa_with qa_norm qa_checks.
#[export] Existing Instance RequestQAProfile_entity.
#[export] Instance RequestQAProfile_laws : EntityLaws RequestQAProfile.
Proof. solve_entity qa_norm. Qed.

(** ** TimeoutProfile *)
Record TimeoutProfile := {
  tp_meta : Meta; tp_Name : string; tp_Environment : string; tp_TotalBudgetMS : Z; tp_BidderTimeoutMS : Z; tp_VASTTimeoutMS : Z; tp_NoBidGraceMS : Z;
  tp_AutoScale : bool; tp_PremiumMultiplier : float64; tp_BidderOverrides : gmap string Z; tp_Active : bool
}.
Definition tp_with (m : Meta) (e : TimeoutProfile) : TimeoutProfile :=
  {| tp_meta := m; tp_Name := tp_Name e; tp_Environment := tp_Environment e; tp_TotalBudgetMS := tp_TotalBudgetMS e;
     tp_BidderTimeoutMS := tp_BidderTimeoutMS e; tp_VASTTimeoutMS := tp_VASTTimeoutMS e; tp_NoBidGraceMS := tp_NoBidGraceMS e;
     tp_AutoScale := tp_AutoScale e; tp_PremiumMultiplier := tp_PremiumMultiplier e; tp_BidderOverrides := tp_BidderOverrides e;
     tp_Active := tp_Active e |}.
Definition tp_norm (now : Z) (e : TimeoutProfile) : TimeoutProfile :=
  {| tp_meta := tp_meta e; tp_Name := TrimSpace (tp_Name e); tp_Environment := tp_Environment e; tp_TotalBudgetMS := tp_TotalBudgetMS e;
     tp_BidderTimeoutMS := tp_BidderTimeoutMS e; tp_VASTTimeoutMS := tp_VASTTimeoutMS e; tp_NoBidGraceMS := tp_NoBidGraceMS e;
     tp_AutoScale := tp_AutoScale e; tp_PremiumMultiplier := tp_PremiumMultiplier e; tp_BidderOverrides := tp_BidderOverrides e;
     tp_Active := tp_Active e |}.
Definition tp_checks (e : TimeoutProfile) : list (bool * string) :=
  [(tp_Name e =s? "", "name is required");
   ((tp_Environment e ≠s? "") && negb (one_of ["ctv_client"; "mobile_client"; "ssai"; "longform_pod"; "default"] (tp_Environment e)), "environment must be one of: ctv_client, mobile_client, ssai, longform_pod, default");
   (tp_TotalBudgetMS e <=? 0, "total_budget_ms must be > 0"); (tp_BidderTimeoutMS e <=? 0, "bidder_timeout_ms must be > 0");
   (tp_TotalBudgetMS e <? tp_BidderTimeoutMS e, "bidder_timeout_ms must be <= total_budget_ms");
   (tp_AutoScale e && ((tp_PremiumMultiplier e <f? f1) || (fofZ 3 <f? tp_PremiumMultiplier e)), "premium_multiplier must be between 1.0 and 3.0")].
Definition TimeoutProfile_entity : entity TimeoutProfile := meta_entity tp_meta tp_with tp_norm tp_checks.
#[export] Existing Instance TimeoutProfile_entity.
#[export] Instance TimeoutProfile_laws : EntityLaws TimeoutProfile.
Proof. solve_entity tp_norm. Qed.

(** ** PodOptimizationRule *)
Record PodOptimizationRule := {
  por_meta : Meta; por_Name : string; por_PublisherID : string; por_AdUnitID : string; por_MaxPodDurationSec : Z; por_MaxSlotsPerPod : Z;
  por_MinSlotDurationSec : Z; por_MaxSlotDurationSec : Z; por_FirstSlotPremium : float64; por_LastSlotPremium : float64;
  por_SlotValues : list (Z * float64); por_CompSepCategories : list string; por_CompSepAdvertisers : list string; por_OptimizeFor : string;
  por_MinFillPct : float64; por_Active : bool
}.
Definition por_with (m : Meta) (e : PodOptimizationRule) : PodOptimizationRule :=
  {| por_meta := m; por_Name := por_Name e; por_PublisherID := por_PublisherID e; por_AdUnitID := por_AdUnitID e;
     por_MaxPodDurationSec := por_MaxPodDurationSec e; por_MaxSlotsPerPod := por_MaxSlotsPerPod e;
     por_MinSlotDurationSec := por_MinSlotDurationSec e; por_MaxSlotDurationSec := por_MaxSlotDurationSec e;
     por_FirstSlotPremium := por_FirstSlotPremium e; por_LastSlotPremium := por_LastSlotPremium e; por_SlotValues := por_SlotValues e;
     por_CompSepCategories := por_CompSepCategories e; por_CompSepAdvertisers := por_CompSepAdvertisers e; por_OptimizeFor := por_OptimizeFor e;
     por_MinFillPct := por_MinFillPct e; por_Active := por_Active e |}.
Definition por_norm (now : Z) (e : PodOptimizationRule) : PodOptimizationRule :=
  {| por_meta := por_meta e; por_Name := TrimSpace (por_Name e); por_PublisherID := por_PublisherID e; por_AdUnitID := por_AdUnitID e;
     por_MaxPodDurationSec := por_MaxPodDurationSec e; por_MaxSlotsPerPod := por_MaxSlotsPerPod e;
     por_MinSlotDurationSec := por_MinSlotDurationSec e; por_MaxSlotDurationSec := por_MaxSlotDurationSec e;
     por_FirstSlotPremium := por_FirstSlotPremium e; por_LastSlotPremium := por_LastSlotPremium e; por_SlotValues := por_SlotValues e;
     por_CompSepCategories := por_CompSepCategories e; por_CompSepAdvertisers := por_CompSepAdvertisers e; por_OptimizeFor := por_OptimizeFor e;
     por_MinFillPct := por_MinFillPct e; por_Active := por_Active e |}.
Definition por_checks (e : PodOptimizationRule) : list (bool * string) :=
  [(por_Name e =s? "", "name is required"); (por_MaxPodDurationSec e <=? 0, "max_pod_duration_sec must be > 0");
   (por_MaxSlotsPerPod e <=? 0, "max_slots_per_pod must be > 0"); (por_MinSlotDurationSec e <? 0, "min_slot_duration_sec must be >= 0");
   (por_MaxSlotDurationSec e <? 0, "max_slot_duration_sec must be >= 0");
   ((0 <? por_MaxSlotDurationSec e) && (por_MaxSlotDurationSec e <? por_MinSlotDurationSec e), "min_slot_duration_sec must be <= max_slot_duration_sec");
   ((por_MinFillPct e <f? f0) || (fofZ 100 <f? por_MinFillPct e), "min_fill_pct must be between 0 and 100");
   (negb (one_of ["total_yield"; "fill_rate"; "vcr"; "user_experience"; ""] (por_OptimizeFor e)), "optimize_for must be one of: total_yield, fill_rate, vcr, user_experience")].
Definition PodOptimizationRule_entity : entity PodOptimizationRule := meta_entity por_meta por_with por_norm por_checks.
#[export] Existing Instance PodOptimizationRule_entity.
#[export] Instance PodOptimizationRule_laws : EntityLaws PodOptimizationRule.
Proof. solve_entity por_norm. Qed.

(** ** SupplyPartner *)
Definition deliveryStatuses : list string := ["Live"; "Limited"; "Paused"; "Archived"].
Record SupplyPartner := {
  sp_meta : Meta; sp_Name : string; sp_DeliveryStatus : string; sp_Active : bool; sp_Opportunities : Z; sp_GrossRevenue : float64;
  sp_AvgQpsYesterday : Z; sp_AvgQpsLastHour : Z; sp_Impressions : Z; sp_PublisherPayout : float64; sp_Completions : Z; sp_ViewableImpressions : Z
}.
Definition sp_with (m : Meta) (e : SupplyPartner) : SupplyPartner :=
  {| sp_meta := m; sp_Name := sp_Name e; sp_DeliveryStatus := sp_DeliveryStatus e; sp_Active := sp_Active e; sp_Opportunities := sp_Opportunities e;
     sp_GrossRevenue := sp_GrossRevenue e; sp_AvgQpsYesterday := sp_AvgQpsYesterday e; sp_AvgQpsLastHour := sp_AvgQpsLastHour e;
     sp_Impressions := sp_Impressions e; sp_PublisherPayout := sp_PublisherPayout e; sp_Completions := sp_Completions e;
     sp_ViewableImpressions := sp_ViewableImpressions e |}.
Definition sp_norm (now : Z) (e : SupplyPartner) : SupplyPartner :=
  {| sp_meta := sp_meta e; sp_Name := TrimSpace (sp_Name e); sp_DeliveryStatus := keep_or "Live" deliveryStatuses (sp_DeliveryStatus e);
     sp_Active := sp_Active e; sp_Opportunities := sp_Opportunities e; sp_GrossRevenue := sp_GrossRevenue e;
     sp_AvgQpsYesterday := sp_AvgQpsYesterday e; sp_AvgQpsLastHour := sp_AvgQpsLastHour e; sp_Impressions := sp_Impressions e;
     sp_PublisherPayout := sp_PublisherPayout e; sp_Completions := sp_Completions e; sp_ViewableImpressions := sp_ViewableImpressions e |}.
Definition sp_checks (e : SupplyPartner) : list (bool * string) :=
  [(sp_Name e =s? "", "name is required"); (sp_Opportunities e <? 0, "opportunities must be >= 0");
   (sp_GrossRevenue e <f? f0, "gross_revenue must be >= 0"); (sp_Impressions e <? 0, "impressions must be >= 0");
   (sp_PublisherPayout e <f? f0, "publisher_payout must be >= 0"); (sp_Completions e <? 0, "completions must be >= 0");
   (sp_ViewableImpressions e <? 0, "viewable_impressions must be >= 0")].
Definition SupplyPartner_entity : entity SupplyPartner := meta_entity sp_meta sp_with sp_norm sp_checks.
#[export] Existing Instance SupplyPartner_entity.
#[export] Instance SupplyPartner_laws : EntityLaws SupplyPartner.
Proof. solve_entity sp_norm. Qed.

(** ** DemandPartner *)
Record DemandPartner := {
  dp_meta : Meta; dp_Name : string; dp_DeliveryStatus : string; dp_Active : bool; dp_BidRequests : Z; dp_Bids : Z; dp_AvgQpsYesterday : Z;
  dp_AvgQpsLastHour : Z; dp_Impressions : Z; dp_GrossRevenue : float64; dp_Payout : float64; dp_Completions : Z; dp_ViewableImpressions : Z
}.
Definition dp_with (m : Meta) (e : DemandPartner) : DemandPartner :=
  {| dp_meta := m; dp_Name := dp_Name e; dp_DeliveryStatus := dp_DeliveryStatus e; dp_Active := dp_Active e; dp_BidRequests := dp_BidRequests e;
     dp_Bids := dp_Bids e; dp_AvgQpsYesterday := dp_AvgQpsYesterday e; dp_AvgQpsLastHour := dp_AvgQpsLastHour e; dp_Impressions := dp_Impressions e;
     dp_GrossRevenue := dp_GrossRevenue e; dp_Payout := dp_Payout e; dp_Completions := dp_Completions e;
     dp_ViewableImpressions := dp_ViewableImpressions e |}.
Definition dp_norm (now : Z) (e : DemandPartner) : DemandPartner :=
  {| dp_meta := dp_meta e; dp_Name := TrimSpace (dp_Name e); dp_DeliveryStatus := keep_or "Live" deliveryStatuses (dp_DeliveryStatus e);
     dp_Active := dp_Active e; dp_BidRequests := dp_BidRequests e; dp_Bids := dp_Bids e; dp_AvgQpsYesterday := dp_AvgQpsYesterday e;
     dp_AvgQpsLastHour := dp_AvgQpsLastHour e; dp_Impressions := dp_Impressions e; dp_GrossRevenue := dp_GrossRevenue e; dp_Payout := dp_Payout e;
     dp_Completions := dp_Completions e; dp_ViewableImpressions := dp_ViewableImpressions e |}.
Definition dp_checks (e : DemandPartner) : list (bool * string) :=
  [(dp_Name e =s? "", "name is required"); (dp_BidRequests e <? 0, "bid_requests must be >= 0"); (dp_Bids e <? 0, "bids must be >= 0");
   (dp_Impressions e <? 0, "impressions must be >= 0"); (dp_GrossRevenue e <f? f0, "gross_revenue must be >= 0");
   (dp_Payout e <f? f0, "payout must be >= 0"); (dp_Completions e <? 0, "completions must be >= 0");
   (dp_ViewableImpressions e <? 0, "viewable_impressions must be >= 0")].
Definition DemandPartner_entity : entity DemandPartner := meta_entity dp_meta dp_with dp_norm dp_checks.
#[export] Existing Instance DemandPartner_entity.
#[export] Instance DemandPartner_laws : EntityLaws DemandPartner.
Proof. solve_entity dp_norm. Qed.

(** ** VideoExchangeEntry *)
(** [TargetingExt], free JSON that is only copied into the pipeline configuration, is left out. *)
Record VideoExchangeEntry := {
  ve_meta : Meta; ve_PublisherID : string; ve_Name : string; ve_Environment : string; ve_Placement : string; ve_BundleID : string;
  ve_AppName : string; ve_ChannelName : string; ve_NetworkName : string; ve_MinDuration : Z; ve_MaxDuration : Z; ve_PodDurationSec : Z;
  ve_MaxPods : Z; ve_PodSequence : Z; ve_CompanionType : list Z; ve_CatTax : Z; ve_SellerDomain : string; ve_DomainOrApp : string;
  ve_ContentURL : string; ve_IntegrationType : string; ve_PricingType : string; ve_AdvFloorCPM : float64; ve_FloorCPM : float64;
  ve_Bidders : list string; ve_Active : bool; ve_ImpsDailyCap : Z; ve_ImpsHourlyCap : Z; ve_QPS : Z; ve_TimeoutMS : Z; ve_CampaignID : string;
  ve_DemandLinks : list string; ve_ExtStats : option ExtStatsConfig; ve_SegmentIDs : list string; ve_FreqCapImps : Z; ve_FreqCapPeriod : string
}.
Definition ve_with (m : Meta) (e : VideoExchangeEntry) : VideoExchangeEntry :=
  {| ve_meta := m; ve_PublisherID := ve_PublisherID e; ve_Name := ve_Name e; ve_Environment := ve_Environment e; ve_Placement := ve_Placement e;
     ve_BundleID := ve_BundleID e; ve_AppName := ve_AppName e; ve_ChannelName := ve_ChannelName e; ve_NetworkName := ve_NetworkName e;
     ve_MinDuration := ve_MinDuration e; ve_MaxDuration := ve_MaxDuration e; ve_PodDurationSec := ve_PodDurationSec e; ve_MaxPods := ve_MaxPods e;
     ve_PodSequence := ve_PodSequence e; ve_CompanionType := ve_CompanionType e; ve_CatTax := ve_CatTax e; ve_SellerDomain := ve_SellerDomain e;
     ve_DomainOrApp := ve_DomainOrApp e; ve_ContentURL := ve_ContentURL e; ve_IntegrationType := ve_IntegrationType e;
     ve_PricingType := ve_PricingType e; ve_AdvFloorCPM := ve_AdvFloorCPM e; ve_FloorCPM := ve_FloorCPM e; ve_Bidders := ve_Bidders e;
     ve_Active := ve_Active e; ve_ImpsDailyCap := ve_ImpsDailyCap e; ve_ImpsHourlyCap := ve_ImpsHourlyCap e; ve_QPS := ve_QPS e;
     ve_TimeoutMS := ve_TimeoutMS e; ve_CampaignID := ve_CampaignID e; ve_DemandLinks := ve_DemandLinks e; ve_ExtStats := ve_ExtStats e;
     ve_SegmentIDs := ve_SegmentIDs e; ve_FreqCapImps := ve_FreqCapImps e; ve_FreqCapPeriod := ve_FreqCapPeriod e |}.
Definition ve_norm (now : Z) (e : VideoExchangeEntry) : VideoExchangeEntry :=
  {| ve_meta := ve_meta e; ve_PublisherID := ve_PublisherID e; ve_Name := TrimSpace (ve_Name e); ve_Environment := ve_Environment e;
     ve_Placement := ve_Placement e; ve_BundleID := TrimSpace (ve_BundleID e); ve_AppName := TrimSpace (ve_AppName e);
     ve_ChannelName := TrimSpace (ve_ChannelName e); ve_NetworkName := TrimSpace (ve_NetworkName e); ve_MinDuration := ve_MinDuration e;
     ve_MaxDuration := ve_MaxDuration e; ve_PodDurationSec := ve_PodDurationSec e; ve_MaxPods := ve_MaxPods e; ve_PodSequence := ve_PodSequence e;
     ve_CompanionType := ve_CompanionType e; ve_CatTax := ve_CatTax e; ve_SellerDomain := TrimSpace (ve_SellerDomain e);
     ve_DomainOrApp := TrimSpace (ve_DomainOrApp e); ve_ContentURL := TrimSpace (ve_ContentURL e);
     ve_IntegrationType := normalizeIntegrationType (ve_IntegrationType e); ve_PricingType := ve_PricingType e; ve_AdvFloorCPM := ve_AdvFloorCPM e;
     ve_FloorCPM := ve_FloorCPM e; ve_Bidders := ve_Bidders e; ve_Active := ve_Active e; ve_ImpsDailyCap := ve_ImpsDailyCap e;
     ve_ImpsHourlyCap := ve_ImpsHourlyCap e; ve_QPS := ve_QPS e; ve_TimeoutMS := ve_TimeoutMS e; ve_CampaignID := ve_CampaignID e;
     ve_DemandLinks := ve_DemandLinks e; ve_ExtStats := ve_ExtStats e; ve_SegmentIDs := ve_SegmentIDs e; ve_FreqCapImps := ve_FreqCapImps e;
     ve_FreqCapPeriod := ve_FreqCapPeriod e |}.
Definition ve_checks (e : VideoExchangeEntry) : list (bool * string) :=
  [(ve_Name e =s? "", "name is required"); (ve_IntegrationType e =s? "", "integration_type must be one of: tag_based, open_rtb");
   (negb (one_of ["ctv"; "inapp"] (ve_Environment e)), "environment must be 'ctv' or 'inapp'");
   (negb (one_of ["instream"; "outstream"; "interstitial"; "rewarded"] (ve_Placement e)), "placement must be one of: instream, outstream, interstitial, rewarded");
   (ve_MinDuration e <? 0, "min_duration must be >= 0"); (ve_MaxDuration e <=? 0, "max_duration must be > 0");
   (ve_MaxDuration e <? ve_MinDuration e, "min_duration must be <= max_duration"); (ve_FloorCPM e <f? f0, "floor_cpm must be >= 0")].
Definition VideoExchangeEntry_entity : entity VideoExchangeEntry := meta_entity ve_meta ve_with ve_norm ve_checks.
#[export] Existing Instance VideoExchangeEntry_entity.
#[export] Instance VideoExchangeEntry_laws : EntityLaws VideoExchangeEntry.
Proof. solve_entity ve_norm. Qed.

(** ** BidReportEntry *)
Definition validReportEventTypes : list string := ["request"; "bid"; "win"; "impression"; "click"; "complete"; "error"].
Record BidReportEntry := {
  br_meta : Meta; br_RequestID : string; br_ImpID : string; br_PublisherID : string; br_AdUnitID : string; br_Bidder : string;
  br_ADomain : list string; br_CrID : string; br_CampaignID : string; br_DealID : string; br_CID : string; br_BURL : string; br_Price : float64;
  br_Currency : string; br_EventType : string; br_EventTime : Z; br_Env : string; br_AppBundle : string; br_Domain : string; br_CountryCode : string;
  br_ErrorCode : Z; br_ErrorMsg : string
}.
Definition br_with (m : Meta) (e : BidReportEntry) : BidReportEntry :=
  {| br_meta := m; br_RequestID := br_RequestID e; br_ImpID := br_ImpID e; br_PublisherID := br_PublisherID e; br_AdUnitID := br_AdUnitID e;
     br_Bidder := br_Bidder e; br_ADomain := br_ADomain e; br_CrID := br_CrID e; br_CampaignID := br_CampaignID e; br_DealID := br_DealID e;
     br_CID := br_CID e; br_BURL := br_BURL e; br_Price := br_Price e; br_Currency := br_Currency e; br_EventType := br_EventType e;
     br_EventTime := br_EventTime e; br_Env := br_Env e; br_AppBundle := br_AppBundle e; br_Domain := br_Domain e;
     br_CountryCode := br_CountryCode e; br_ErrorCode := br_ErrorCode e; br_ErrorMsg := br_ErrorMsg e |}.
Definition br_norm (now : Z) (e : BidReportEntry) : BidReportEntry :=
  {| br_meta := br_meta e; br_RequestID := br_RequestID e; br_ImpID := br_ImpID e; br_PublisherID := br_PublisherID e; br_AdUnitID := br_AdUnitID e;
     br_Bidder := br_Bidder e; br_ADomain := br_ADomain e; br_CrID := br_CrID e; br_CampaignID := br_CampaignID e; br_DealID := br_DealID e;
     br_CID := br_CID e; br_BURL := br_BURL e; br_Price := br_Price e; br_Currency := br_Currency e; br_EventType := br_EventType e;
     br_EventTime := (if (br_EventTime e) =? zeroTime then now else (br_EventTime e)); br_Env := br_Env e; br_AppBundle := br_AppBundle e;
     br_Domain := br_Domain e; br_CountryCode := br_CountryCode e; br_ErrorCode := br_ErrorCode e; br_ErrorMsg := br_ErrorMsg e |}.
Definition br_checks (e : BidReportEntry) : list (bool * string) :=
  [(negb (one_of validReportEventTypes (br_EventType e)), "event_type must be one of: request, bid, win, impression, click, complete, error");
   (br_Price e <f? f0, "price must be >= 0")].
Definition BidReportEntry_entity : entity BidReportEntry := meta_entity br_meta br_with br_norm br_checks.
#[export] Existing Instance BidReportEntry_entity.
#[export] Instance BidReportEntry_laws : EntityLaws BidReportEntry.
Proof. solve_entity br_norm. Qed.
