(* ===== verification/DashVideo.v ===== *)
(** * Ad units, campaigns and the pipeline (endpoints/dashboard.go)

    [VideoExchangeHandler] keeps the ad units and pushes the configuration built from each, with the
    campaign it resolves to, into the video pipeline's store; [CampaignHandler] starts a
    re-synchronisation of all units after each change.  Requests and re-synchronisations are
    goroutines that interleave between their calls of the locked stores.  Proved: a placement that no
    change overtook and no goroutine has in hand is served exactly as its unit and the campaigns say;
    and a run in which a deleted unit stays registered, because a re-synchronisation had listed it. *)
From S2P Require Import Prelude GoStrings GoFloat Order VideoDemand DashStore DashEntities.

(** ** From an ad unit to a configuration *)
Section Config.
Context `{MapRange} `{GoSort}.

(** The campaign of a unit: its own [CampaignID], else the first of its demand links that exists,
    else the first campaign, newest first, with the unit among its supply links. *)
Fixpoint first_demand_link (camps : gmap string Campaign) (links : list string) : string :=
  match links with
  | [] => ""
  | id :: links => if id =s? "" then first_demand_link camps links
                   else if decide (is_Some (camps !! id)) then id else first_demand_link camps links
  end.
Fixpoint first_supply_link (unitID : string) (l : list Campaign) : string :=
  match l with
  | [] => ""
  | c :: l => let r := if one_of (camp_SupplyLinks c) unitID then getID c else "" in
              if r =s? "" then first_supply_link unitID l else r
  end.
(** [camps] is [None] when no campaign store was injected. *)
Definition resolvedCampaignID (camps : option (gmap string Campaign)) (e : VideoExchangeEntry) : string :=
  let id := ve_CampaignID e in
  let id := if id =s? "" then match camps with Some m => first_demand_link m (ve_DemandLinks e) | None => "" end else id in
  if id =s? "" then match camps with Some m => first_supply_link (getID e) (storeList m) | None => "" end else id.

(** The waterfall: the demand links but the unit's own [CampaignID], where they name an endpoint. *)
Definition extra_of (c : Campaign) : ExtraDemandCfg :=
  {| ed_VASTTagURL := camp_VASTTagURL c; ed_OrtbURL := camp_OrtbEndpointURL c; ed_FloorCPM := camp_FloorCPM c;
     ed_BCat := camp_BCat c; ed_BAdv := camp_BAdv c |}.
Fixpoint extraDemand (camps : gmap string Campaign) (own : string) (links : list string) : list ExtraDemandCfg :=
  match links with
  | [] => []
  | id :: links =>
      if id =s? own then extraDemand camps own links
      else match camps !! id with
           | Some c => if (camp_VASTTagURL c ≠s? "") || (camp_OrtbEndpointURL c ≠s? "")
                       then extra_of c :: extraDemand camps own links else extraDemand camps own links
           | None => extraDemand camps own links
           end
  end.

Definition camp_or {A : Type} (camp : option Campaign) (d : A) (f : Campaign → A) : A := match camp with Some c => f c | None => d end.
(** [syncPipelineCfg]'s configuration.  [if len(x) > 0 { cfg.X = x }] on a field that is empty is
    the copy. *)
Definition pipelineCfg (camps : option (gmap string Campaign)) (e : VideoExchangeEntry) : AdServerConfig :=
  let resolved := resolvedCampaignID camps e in
  let camp := if resolved =s? "" then None else m ← camps; m !! resolved in
  {| cfg_PlacementID := getID e; cfg_PublisherID := ve_PublisherID e; cfg_ContentURL := ve_ContentURL e;
     cfg_DomainOrApp := if ve_DomainOrApp e =s? "" then ve_BundleID e else ve_DomainOrApp e;
     cfg_MinDuration := ve_MinDuration e; cfg_MaxDuration := ve_MaxDuration e;
     cfg_Protocols := camp_or camp [] camp_Protocols; cfg_APIs := camp_or camp [] camp_APIs; cfg_AllowedBidders := ve_Bidders e;
     cfg_FloorCPM := ve_FloorCPM e; cfg_DemandFloorCPM := camp_or camp f0 (λ c, if f0 <f? camp_FloorCPM c then camp_FloorCPM c else f0);
     cfg_DemandVASTURL := camp_or camp "" camp_VASTTagURL; cfg_DemandOrtbURL := camp_or camp "" camp_OrtbEndpointURL;
     cfg_BAdv := camp_or camp [] camp_BAdv; cfg_BCat := camp_or camp [] camp_BCat;
     cfg_ExtraDemand := match camps with Some m => extraDemand m (ve_CampaignID e) (ve_DemandLinks e) | None => [] end;
     cfg_SeatWeights := None; cfg_MimeTypes := camp_or camp [] camp_MimeTypes; cfg_Active := ve_Active e; cfg_TimeoutMS := ve_TimeoutMS e;
     cfg_RequestBaseURL := ""; cfg_OrtbVersion := camp_or camp "" camp_OrtbVersion; cfg_VideoPlacementType := ve_Placement e;
     cfg_CampaignID := resolved; cfg_AdvertiserID := camp_or camp "" camp_AdvertiserID; cfg_SellerDomain := ve_SellerDomain e;
     cfg_PodSequence := ve_PodSequence e; cfg_PodDuration := ve_PodDurationSec e; cfg_MaxSeq := ve_MaxPods e;
     cfg_CompanionType := ve_CompanionType e; cfg_CatTax := ve_CatTax e |}.

(** ** The handlers, wired
    The state of both handlers after [WireVideoExchange], with the pipeline's store.  Each store is
    locked for one call; between calls other goroutines go on.  [w_tasks] are the goroutines, of
    requests and of re-synchronisations, that still have something to do to the pipeline:
    - [Listing]: an [onChange] that was started and has not listed the units;
    - [Pushing l]: the units [l], as they were read, are still to be registered;
    - [Reading e quiet l]: [syncPipelineCfg] reads the campaigns for [e]; [quiet] says that none changed
      since it began, so that its several reads agree;
    - [Registering e cfg l]: the configuration is built and about to be registered;
    - [Removing id]: a deletion that is about to unregister the placement. *)
Inductive task :=
| Listing
| Pushing (l : list VideoExchangeEntry)
| Reading (e : VideoExchangeEntry) (quiet : bool) (l : list VideoExchangeEntry)
| Registering (e : VideoExchangeEntry) (cfg : AdServerConfig) (l : list VideoExchangeEntry)
| Removing (id : string).
Record wired := {
  w_units : entityStore VideoExchangeEntry;
  w_camps : entityStore Campaign;
  w_cfgs : configStore;
  w_tasks : list task
}.
Definition with_cfgs (cfgs : configStore) (w : wired) : wired :=
  {| w_units := w_units w; w_camps := w_camps w; w_cfgs := cfgs; w_tasks := w_tasks w |}.
Definition with_tasks (ts : list task) (w : wired) : wired :=
  {| w_units := w_units w; w_camps := w_camps w; w_cfgs := w_cfgs w; w_tasks := ts |}.
Definition spawn (t : task) (w : wired) : wired := with_tasks (w_tasks w ++ [t]) w.
Definition with_units (s : entityStore VideoExchangeEntry) (w : wired) : wired :=
  {| w_units := s; w_camps := w_camps w; w_cfgs := w_cfgs w; w_tasks := w_tasks w |}.
(** A change of the campaigns falls into the reads that are going on, and starts [onChange]. *)
Definition disturb (t : task) : task := match t with Reading e _ l => Reading e false l | _ => t end.
Definition with_camps (s : entityStore Campaign) (w : wired) : wired :=
  {| w_units := w_units w; w_camps := s; w_cfgs := w_cfgs w; w_tasks := map disturb (w_tasks w) ++ [Listing] |}.

(** [syncPipelineCfg] and [SyncAllToPipeline] when nothing else runs, as at start-up. *)
Definition syncPipelineCfg (w : wired) (e : VideoExchangeEntry) : wired :=
  with_cfgs (store_set (w_cfgs w) (pipelineCfg (Some (es_entries (w_camps w))) e)) w.
Definition syncAll (w : wired) (l : list VideoExchangeEntry) : wired := foldl syncPipelineCfg w l.
Definition SyncAllToPipeline (w : wired) : wired := syncAll w (es_list (w_units w)).

(** One step of a goroutine.  Reads into which a change of the campaigns fell may see any mixture of
    old and new; [torn] is what they then make of the placement. *)
Definition advance (torn : AdServerConfig) (w : wired) (t : task) : configStore * list task :=
  match t with
  | Listing => (w_cfgs w, [Pushing (es_list (w_units w))])
  | Pushing [] => (w_cfgs w, [])
  | Pushing (e :: l) => (w_cfgs w, [Reading e true l])
  | Reading e quiet l =>
      let built := pipelineCfg (Some (es_entries (w_camps w))) e in
      (w_cfgs w, [Registering e (if negb quiet && (cfg_PlacementID torn =s? getID e) then torn else built) l])
  | Registering _ cfg l => (store_set (w_cfgs w) cfg, [Pushing l])
  | Removing id => (store_remove (w_cfgs w) id, [])
  end.
Definition run_task (torn : AdServerConfig) (i : nat) (w : wired) : wired :=
  match w_tasks w !! i with
  | None => w
  | Some t => let '(cfgs, t') := advance torn w t in
              with_tasks (take i (w_tasks w) ++ t' ++ drop (S i) (w_tasks w)) (with_cfgs cfgs w)
  end.

(** The handlers, up to what they leave their goroutine to do. *)
Definition VideoCreate (drawn : list Z) (vnow now : Z) (w : wired) (body : result string VideoExchangeEntry) : wired * reply VideoExchangeEntry :=
  match body with
  | Err m => (w, body_error m)
  | Ok e =>
      match validate vnow e with
      | Err m => (w, Error 400 m)
      | Ok e => let '(s, e) := es_create drawn now (w_units w) e in (spawn (Pushing [e]) (with_units s w), Entry 201 e)
      end
  end.
Definition VideoUpdate (vnow now : Z) (w : wired) (id : string) (body : result string VideoExchangeEntry) : wired * reply VideoExchangeEntry :=
  match body with
  | Err m => (w, body_error m)
  | Ok patch =>
      match validate vnow patch with
      | Err m => (w, Error 400 m)
      | Ok patch =>
          match es_update now (w_units w) id patch with
          | None => (w, Error 404 ("entry not found: " +:+ id))
          | Some (s, e) => (spawn (Pushing [e]) (with_units s w), Entry 200 e)
          end
      end
  end.
Definition VideoDelete (w : wired) (id : string) : wired * reply VideoExchangeEntry :=
  match es_delete (w_units w) id with
  | None => (w, Error 404 ("entry not found: " +:+ id))
  | Some s => (spawn (Removing id) (with_units s w), NoBody 204)
  end.
Definition VideoGet (w : wired) (id : string) : reply VideoExchangeEntry := getHandle ("entry not found: " +:+ id) (w_units w) id.
Definition VideoList (w : wired) : reply VideoExchangeEntry := listHandle (w_units w).

(** The campaign handlers differ from the generic ones in that a success starts [onChange]. *)
Definition succeeds {E : Type} (r : reply E) : bool := match r with Entry _ _ | NoBody _ => true | _ => false end.
Definition changed (w : wired) (r : entityStore Campaign * reply Campaign) : wired * reply Campaign :=
  (if succeeds r.2 then with_camps r.1 w else w, r.2).
Definition CampaignCreate (drawn : list Z) (vnow now : Z) (w : wired) (body : result string Campaign) : wired * reply Campaign :=
  changed w (createHandle drawn vnow now (w_camps w) body).
Definition CampaignUpdate (vnow now : Z) (w : wired) (id : string) (body : result string Campaign) : wired * reply Campaign :=
  changed w (updateHandle "campaign not found" vnow now (w_camps w) id body).
Definition CampaignDelete (w : wired) (id : string) : wired * reply Campaign :=
  changed w (deleteHandle "campaign not found" (w_camps w) id).

(** [WireVideoExchange] on the records loaded from disk, before requests are served. *)
Definition WireVideoExchange (units : entityStore VideoExchangeEntry) (camps : entityStore Campaign) : wired :=
  SyncAllToPipeline {| w_units := units; w_camps := camps; w_cfgs := ∅; w_tasks := [] |}.
(** The events of a running server: requests reach the stores, and goroutines take steps. *)
Inductive event :=
| ECreate (drawn : list Z) (vnow now : Z) (body : result string VideoExchangeEntry)
| EUpdate (vnow now : Z) (id : string) (body : result string VideoExchangeEntry)
| EDelete (id : string)
| ECampaignCreate (drawn : list Z) (vnow now : Z) (body : result string Campaign)
| ECampaignUpdate (vnow now : Z) (id : string) (body : result string Campaign)
| ECampaignDelete (id : string)
| ERun (i : nat) (torn : AdServerConfig).
Definition wired_step (w : wired) (ev : event) : wired :=
  match ev with
  | ECreate drawn vnow now body => (VideoCreate drawn vnow now w body).1
  | EUpdate vnow now id body => (VideoUpdate vnow now w id body).1
  | EDelete id => (VideoDelete w id).1
  | ECampaignCreate drawn vnow now body => (CampaignCreate drawn vnow now w body).1
  | ECampaignUpdate vnow now id body => (CampaignUpdate vnow now w id body).1
  | ECampaignDelete id => (CampaignDelete w id).1
  | ERun i torn => run_task torn i w
  end.

(** ** Placements that were overtaken
    [touched]: some goroutine holds a record of the unit, or is about to unregister it. *)
Definition task_ids (t : task) : list string :=
  match t with
  | Listing => []
  | Pushing l => getID <$> l
  | Reading e _ l | Registering e _ l => getID e :: (getID <$> l)
  | Removing id => [id]
  end.
Definition touched (ts : list task) (id : string) : Prop := ∃ t, t ∈ ts ∧ id ∈ task_ids t.
Definition building (id : string) (t : task) : Prop :=
  match t with Reading e _ _ | Registering e _ _ => getID e = id | _ => False end.
Definition campaigns_changed (w : wired) (ev : event) : bool :=
  match ev with
  | ECampaignCreate drawn vnow now body => succeeds (CampaignCreate drawn vnow now w body).2
  | ECampaignUpdate vnow now id body => succeeds (CampaignUpdate vnow now w id body).2
  | ECampaignDelete id => succeeds (CampaignDelete w id).2
  | _ => false
  end.
(** The goroutine that acts now puts a placement right: it holds the current record, or there is
    none and it unregisters; and no other goroutine has the placement in hand. *)
Definition settles (w w' : wired) (ev : event) (id : string) : Prop :=
  match ev with
  | ERun i _ =>
      match w_tasks w !! i with
      | Some (Registering e cfg _) => getID e = id ∧ es_entries (w_units w) !! id = Some e ∧
                                      cfg = pipelineCfg (Some (es_entries (w_camps w))) e ∧ ¬ touched (w_tasks w') id
      | Some (Removing id') => id' = id ∧ es_entries (w_units w) !! id = None ∧ ¬ touched (w_tasks w') id
      | _ => False
      end
  | _ => False
  end.
(** The placements that are not overtaken.  A placement is overtaken when its unit changes while a
    goroutine has it in hand, or the campaigns change while its configuration is being built; and
    until a goroutine puts it right. *)
Definition stays_on_time (on_time : string → Prop) (w : wired) (ev : event) (id : string) : Prop :=
  let w' := wired_step w ev in
  (on_time id ∨ settles w w' ev id) ∧
  (es_entries (w_units w') !! id = es_entries (w_units w) !! id ∨ ¬ touched (w_tasks w) id) ∧
  (campaigns_changed w ev = false ∨ ¬ Exists (building id) (w_tasks w)).
Definition run_step (x : wired * (string → Prop)) (ev : event) : wired * (string → Prop) :=
  (wired_step x.1 ev, stays_on_time x.2 x.1 ev).
Definition run (w : wired) (evs : list event) : wired * (string → Prop) := foldl run_step (w, λ _, True) evs.
End Config.

(** ** What the pipeline serves *)
Section Proofs.
Context `{MapRange} `{GoSort}.

(** What a goroutine has in hand of one placement is current. *)
Definition current (w : wired) (id : string) (l : list VideoExchangeEntry) : Prop :=
  ∀ e, e ∈ l → getID e = id → es_entries (w_units w) !! id = Some e.
Definition task_good (w : wired) (id : string) (t : task) : Prop :=
  match t with
  | Listing => True
  | Pushing l => current w id l
  | Reading e quiet l => current w id (e :: l) ∧ (getID e = id → quiet = true)
  | Registering e cfg l => current w id (e :: l) ∧ (getID e = id → cfg = pipelineCfg (Some (es_entries (w_camps w))) e)
  | Removing id' => id' = id → es_entries (w_units w) !! id = None
  end.
Definition shaped (t : task) : Prop := match t with Registering e cfg _ => cfg_PlacementID cfg = getID e | _ => True end.
(** The configuration of one placement: there is one exactly when there is a unit, built from its
    record, and from the current campaigns unless a re-synchronisation has yet to begin. *)
Record in_step (w : wired) (id : string) : Prop := {
  is_none : es_entries (w_units w) !! id = None → w_cfgs w !! id = None;
  is_some e : es_entries (w_units w) !! id = Some e → ∃ camps, w_cfgs w !! id = Some (pipelineCfg (Some camps) e);
  is_exact : Listing ∉ w_tasks w → w_cfgs w !! id = pipelineCfg (Some (es_entries (w_camps w))) <$> es_entries (w_units w) !! id
}.
Definition follows (w : wired) (id : string) : Prop :=
  Forall (task_good w id) (w_tasks w) ∧ (¬ touched (w_tasks w) id → in_step w id).
Definition follows_units (x : wired * (string → Prop)) : Prop :=
  store_ok (es_entries (w_units x.1)) ∧ Forall shaped (w_tasks x.1) ∧ ∀ id, x.2 id → follows x.1 id.

Lemma untouched_good w id ts : ¬ touched ts id → Forall (task_good w id) ts.
Proof.
  intros Hn. apply Forall_forall. intros t Ht. assert (id ∉ task_ids t) as Hid by (intros Hid; apply Hn; by exists t).
  assert (∀ l, id ∉ getID <$> l → current w id l) as Hcur.
  { intros l Hl e He <-. exfalso. apply Hl. by apply list_elem_of_fmap_2. }
  destruct t as [|l|e q l|e cfg l|id']; cbn [task_good task_ids] in *; try done.
  - by apply Hcur.
  - split; [by apply Hcur|]. intros <-. exfalso. apply Hid. left.
  - split; [by apply Hcur|]. intros <-. exfalso. apply Hid. left.
  - intros ->. exfalso. apply Hid. left.
Qed.
Lemma touched_app ts1 ts2 id : touched (ts1 ++ ts2) id ↔ touched ts1 id ∨ touched ts2 id.
Proof.
  unfold touched. setoid_rewrite elem_of_app. split; [intros (t & [Ht|Ht] & Hid); [left|right]; by exists t|].
  intros [(t & Ht & Hid)|(t & Ht & Hid)]; exists t; tauto.
Qed.
Lemma touched_one t id : touched [t] id ↔ id ∈ task_ids t.
Proof. unfold touched. split; [by intros (t' & ->%list_elem_of_singleton & ?)|]. intros Hid. exists t. by rewrite list_elem_of_singleton. Qed.
Lemma touched_disturb ts id : touched (map disturb ts) id ↔ touched ts id.
Proof.
  unfold touched. split.
  - intros (t & (t' & -> & Ht')%list_elem_of_fmap & Hid). exists t'. split; [done|]. by destruct t'.
  - intros (t & Ht & Hid). exists (disturb t). split; [by apply list_elem_of_fmap_2|]. by destruct t.
Qed.

(** *** The synchronisation that nothing interrupts *)
Lemma syncAll_frame l w : w_units (syncAll w l) = w_units w ∧ w_camps (syncAll w l) = w_camps w ∧ w_tasks (syncAll w l) = w_tasks w.
Proof. revert w. induction l as [|e l IH]; intros w; [done|]. apply (IH (syncPipelineCfg w e)). Qed.

(** Registering a list of units with distinct ids. *)
Lemma syncAll_cfgs l w id :
  (∀ e e', e ∈ l → e' ∈ l → getID e = getID e' → e = e') →
  w_cfgs (syncAll w l) !! id =
  match list_find (λ e, getID e = id) l with
  | Some (_, e) => Some (pipelineCfg (Some (es_entries (w_camps w))) e)
  | None => w_cfgs w !! id
  end.
Proof.
  revert w. induction l as [|e l IH]; intros w Hd; [done|]. cbn [syncAll foldl].
  change (foldl syncPipelineCfg (syncPipelineCfg w e) l) with (syncAll (syncPipelineCfg w e) l).
  rewrite IH by (intros; apply Hd; [by right|by right|done]). cbn [list_find]. case_decide as He.
  - subst id. destruct (list_find (λ e', getID e' = getID e) l) as [[i e']|] eqn:Ev.
    + apply list_find_Some in Ev as (Hl & He & _). do 2 f_equal. apply Hd; [|by left|done]. right. by eapply list_elem_of_lookup_2.
    + apply lookup_insert_eq.
  - destruct (list_find _ l) as [[i e']|]; [done|]. by apply lookup_insert_ne.
Qed.

(** A full synchronisation registers every unit with the current campaigns. *)
Lemma SyncAll_cfgs w :
  store_ok (es_entries (w_units w)) →
  (∀ id, es_entries (w_units w) !! id = None → w_cfgs w !! id = None) →
  w_cfgs (SyncAllToPipeline w) = pipelineCfg (Some (es_entries (w_camps w))) <$> es_entries (w_units w).
Proof.
  intros Hok Hdom. pose proof (storeList_spec (es_entries (w_units w))) as (_ & Hin & _).
  assert (∀ e, e ∈ es_list (w_units w) ↔ es_entries (w_units w) !! getID e = Some e) as Hl.
  { intros e. unfold es_list. rewrite Hin. split; [|by eexists]. intros [id He]. by destruct (Hok id e He) as [-> _]. }
  apply map_eq. intros id. unfold SyncAllToPipeline. rewrite syncAll_cfgs.
  2: { intros e e' He%Hl He'%Hl Heq. rewrite Heq in He. congruence. }
  rewrite lookup_fmap. destruct (list_find (λ e, getID e = id) (es_list (w_units w))) as [[i e]|] eqn:Ev.
  - apply list_find_Some in Ev as (He%list_elem_of_lookup_2%Hl & <- & _). by rewrite He.
  - destruct (es_entries (w_units w) !! id) as [e|] eqn:Eu; [exfalso|by apply Hdom].
    apply list_find_None in Ev. rewrite Forall_forall in Ev. destruct (Hok id e Eu) as [He _]. apply (Ev e); [|done].
    apply Hl. by rewrite He.
Qed.


Lemma syncAll_tasks ts l w : with_tasks ts (syncAll w l) = syncAll (with_tasks ts w) l.
Proof. revert w. induction l as [|e l IH]; intros w; [done|]. apply (IH (syncPipelineCfg w e)). Qed.
(** A re-synchronisation that runs alone is [SyncAllToPipeline]. *)
Lemma pushing_alone torn l w :
  w_tasks w = [Pushing l] → foldl wired_step w (replicate (3 * length l + 1) (ERun 0 torn)) = with_tasks [] (syncAll w l).
Proof.
  revert w. induction l as [|e l IH]; intros w Hw.
  - cbn. unfold run_task. rewrite Hw. done.
  - replace (3 * length (e :: l) + 1)%nat with (S (S (S (3 * length l + 1)))) by (simpl; lia). cbn [replicate foldl wired_step].
    unfold run_task. rewrite Hw. cbn. rewrite IH by done. etrans; [apply syncAll_tasks|]. symmetry. apply (syncAll_tasks [] l (syncPipelineCfg w e)).
Qed.
Lemma sync_alone torn w :
  w_tasks w = [Listing] →
  foldl wired_step w (replicate (3 * length (es_list (w_units w)) + 2) (ERun 0 torn)) = with_tasks [] (SyncAllToPipeline w).
Proof.
  intros Hw. replace (3 * _ + 2)%nat with (S (3 * length (es_list (w_units w)) + 1)) by lia. cbn [replicate foldl wired_step].
  unfold run_task. rewrite Hw. cbn. etrans; [by apply (pushing_alone torn)|]. etrans; [apply syncAll_tasks|]. symmetry. apply (syncAll_tasks [] (es_list (w_units w)) w).
Qed.

(** *** The events, one placement at a time *)
Lemma start_follows units camps :
  store_ok (es_entries units) → follows_units (WireVideoExchange units camps, λ _, True).
Proof.
  intros Hok. set (w := {| w_units := units; w_camps := camps; w_cfgs := ∅; w_tasks := [] |}).
  destruct (syncAll_frame (es_list units) w) as (Hu & Hca & Ht).
  change (w_units w) with units in Hu. change (w_camps w) with camps in Hca. pose proof (SyncAll_cfgs w Hok (λ id _, lookup_empty id)) as Hc.
  unfold follows_units, follows, WireVideoExchange. fold w. cbn [fst snd]. unfold SyncAllToPipeline in *. cbn [w_units] in *.
  change (es_list (w_units w)) with (es_list units) in *.
  rewrite Hu, Ht. split; [done|split; [constructor|]]. intros id _. split; [constructor|]. intros _.
  assert (w_cfgs (syncAll w (es_list units)) !! id = pipelineCfg (Some (es_entries camps)) <$> es_entries units !! id) as Hid.
  { rewrite Hc. apply lookup_fmap. }
  split; rewrite ?Hu, ?Hca, Hid; [intros Hn|intros e He|done]; rewrite ?Hn, ?He; [done|by eexists].
Qed.

(** The units change at one placement, and the goroutine of the request is left with [t]. *)
Lemma unit_change w s t id on_time :
  (∀ k, k ≠ id → es_entries s !! k = es_entries (w_units w) !! k) → store_ok (es_entries s) → shaped t → task_ids t = [id] →
  task_good (with_units s w) id t → follows_units (w, on_time) →
  follows_units (spawn t (with_units s w),
    λ k, on_time k ∧ (es_entries s !! k = es_entries (w_units w) !! k ∨ ¬ touched (w_tasks w) k)).
Proof.
  intros Hs Hok Ht Hids Hgood (_ & Hsh & Hf). split; [exact Hok|]. split; [by apply Forall_app; split; [|repeat constructor]|].
  intros k [Hk Hcase]. destruct (Hf k Hk) as [Hg Hin]. split; cbn [fst spawn with_tasks w_tasks with_units] in *.
  - apply Forall_app. split.
    + destruct Hcase as [Heq|Hnt]; [|by apply untouched_good]. eapply Forall_impl; [exact Hg|].
      intros [|l|e q l|e cfg l|id']; unfold task_good, current; cbn; by rewrite ?Heq.
    + destruct (decide (k = id)) as [->|Hne]; [by repeat constructor|].
      apply untouched_good. by rewrite touched_one, Hids, list_elem_of_singleton.
  - rewrite touched_app, touched_one, Hids, list_elem_of_singleton. intros Hnt. destruct Hin as [A B C]; [tauto|].
    rewrite <-Hs in A, B, C by tauto. split; cbn; [exact A|exact B|].
    intros Hl. apply C. intros Hl'. apply Hl, elem_of_app. by left.
Qed.
Lemma camps_change w s on_time :
  follows_units (w, on_time) → follows_units (with_camps s w, λ k, on_time k ∧ ¬ Exists (building k) (w_tasks w)).
Proof.
  intros (Hok & Hsh & Hf). split; [exact Hok|]. split.
  { apply Forall_app. split; [|repeat constructor]. apply Forall_fmap. eapply Forall_impl; [exact Hsh|]. by intros []. }
  intros k [Hk Hnb]. destruct (Hf k Hk) as [Hg Hin]. split; cbn [fst with_camps w_tasks] in *.
  - apply Forall_app. split; [|repeat constructor]. apply Forall_fmap. apply Forall_forall. intros t Ht.
    rewrite Forall_forall in Hg. specialize (Hg t Ht). assert (¬ building k t) as Hb by (intros Hb; apply Hnb, Exists_exists; eauto).
    destruct t as [|l|e q l|e cfg l|id']; cbn in *; try done.
    + split; [by destruct Hg|]. intros He. by destruct Hb.
    + split; [by destruct Hg|]. intros He. by destruct Hb.
  - rewrite touched_app, touched_disturb. intros Hnt. destruct Hin as [A B C]; [tauto|]. split; cbn; [done|done|].
    intros Hl. exfalso. apply Hl, elem_of_app. right. by left.
Qed.

(** One step of a goroutine. *)
Lemma list_replace {A : Type} (l : list A) i t : l !! i = Some t → l = take i l ++ [t] ++ drop (S i) l.
Proof. intros Hi. symmetry. by apply take_drop_middle. Qed.
Lemma current_cons w id e l : current w id (e :: l) ↔ (getID e = id → es_entries (w_units w) !! id = Some e) ∧ current w id l.
Proof.
  unfold current. setoid_rewrite elem_of_cons. split; [intros Hc; split; [intros He; apply Hc; tauto|intros; apply Hc; tauto]|].
  intros [He Hl] e' [->|Hin]; auto.
Qed.
Lemma listed_units w e :
  store_ok (es_entries (w_units w)) → e ∈ es_list (w_units w) ↔ es_entries (w_units w) !! getID e = Some e.
Proof.
  intros Hok. pose proof (storeList_spec (es_entries (w_units w))) as (_ & Hin & _). unfold es_list. rewrite Hin.
  split; [|by eexists]. intros [id He]. by destruct (Hok id e He) as [-> _].
Qed.

(** What a goroutine that takes a step leaves of its task. *)
Record handover (w : wired) (t : task) (t' : list task) : Prop := {
  ho_shaped : Forall shaped t';
  ho_good id : task_good w id t → Forall (task_good w id) t';
  ho_listing : Listing ∉ t'
}.
Lemma handover_good w ts1 ts2 t t' id :
  handover w t t' → Forall (task_good w id) (ts1 ++ [t] ++ ts2) → Forall (task_good w id) (ts1 ++ t' ++ ts2).
Proof. intros Ht. rewrite !Forall_app, Forall_singleton. intros (H1 & H2 & H3). split_and!; [done|by apply Ht|done]. Qed.
Lemma handover_shaped w ts1 ts2 t t' : handover w t t' → Forall shaped (ts1 ++ [t] ++ ts2) → Forall shaped (ts1 ++ t' ++ ts2).
Proof. intros Ht. rewrite !Forall_app. intros (H1 & H2 & H3). split_and!; [done|apply Ht|done]. Qed.
Lemma handover_listing w ts1 ts2 t t' :
  handover w t t' → t ≠ Listing → Listing ∉ ts1 ++ t' ++ ts2 → Listing ∉ ts1 ++ [t] ++ ts2.
Proof. intros Ht Hne. rewrite !elem_of_app, list_elem_of_singleton. intros Hl [?|[?|?]]; [tauto|congruence|tauto]. Qed.

(** The steps that leave the pipeline alone, other than listing. *)
Lemma idle_step w on_time ts1 ts2 t t' :
  w_tasks w = ts1 ++ [t] ++ ts2 → handover w t t' → t ≠ Listing → (∀ id, id ∈ task_ids t → touched t' id) →
  follows_units (w, on_time) → follows_units (with_tasks (ts1 ++ t' ++ ts2) w, on_time).
Proof.
  intros Hw Ht Hne Htouch (Hok & Hsh & Hf). unfold follows_units, follows in *. cbn [fst snd] in *. rewrite Hw in Hsh, Hf.
  split; [done|]. split; [by eapply handover_shaped|]. intros id Hid. destruct (Hf id Hid) as [Hg Hin].
  split; [by apply (handover_good w _ _ t)|]. cbn [with_tasks w_tasks]. rewrite !touched_app. intros Hnt.
  destruct Hin as [A B C]; [rewrite !touched_app, touched_one; specialize (Htouch id); tauto|]. split; cbn; [exact A|exact B|].
  intros Hl. apply C. rewrite Hw. by eapply handover_listing.
Qed.
(** A listing takes every unit in hand. *)
Lemma listing_step w on_time ts1 ts2 :
  w_tasks w = ts1 ++ [Listing] ++ ts2 → follows_units (w, on_time) →
  follows_units (with_tasks (ts1 ++ [Pushing (es_list (w_units w))] ++ ts2) w, on_time).
Proof.
  intros Hw (Hok & Hsh & Hf). unfold follows_units, follows in *. cbn [fst snd] in *. rewrite Hw in Hsh, Hf.
  assert (handover w Listing [Pushing (es_list (w_units w))]) as Ht.
  { split; [by repeat constructor| |by rewrite list_elem_of_singleton]. intros id _. constructor; [|constructor].
    intros e He%listed_units <-; [exact He|exact Hok]. }
  split; [done|]. split; [by eapply handover_shaped|]. intros id Hid. destruct (Hf id Hid) as [Hg Hin].
  split; [by apply (handover_good w _ _ Listing)|]. cbn [with_tasks w_tasks]. rewrite !touched_app, !touched_one. intros Hnt.
  assert (es_entries (w_units w) !! id = None) as Hu.
  { destruct (es_entries (w_units w) !! id) as [e|] eqn:Eu; [|done]. exfalso. apply Hnt. right. left. cbn.
    destruct (Hok id e Eu) as [Hide _]. subst id. apply list_elem_of_fmap_2, listed_units; done. }
  destruct Hin as [A B C]; [rewrite !touched_app, touched_one; intros [?|[Hi|?]]; [tauto|by apply not_elem_of_nil in Hi|tauto]|].
  split; cbn; rewrite Hu; [intros _; by apply A|done|intros _; by apply A].
Qed.
(** The steps that change the pipeline, at the placement of [id]. *)
Lemma cfg_step w on_time ts1 ts2 t t' id cfgs :
  w_tasks w = ts1 ++ [t] ++ ts2 → handover w t t' → t ≠ Listing →
  (∀ k, k ≠ id → cfgs !! k = w_cfgs w !! k) → (∀ k, k ∈ task_ids t ↔ k = id ∨ touched t' k) →
  (task_good w id t → cfgs !! id = pipelineCfg (Some (es_entries (w_camps w))) <$> es_entries (w_units w) !! id) →
  follows_units (w, on_time) →
  follows_units (with_tasks (ts1 ++ t' ++ ts2) (with_cfgs cfgs w),
    λ k, on_time k ∨ (k = id ∧ cfgs !! id = pipelineCfg (Some (es_entries (w_camps w))) <$> es_entries (w_units w) !! id ∧
                      ¬ touched (ts1 ++ t' ++ ts2) id)).
Proof.
  intros Hw Ht Hnl Hcfgs Hids Hid (Hok & Hsh & Hf). unfold follows_units, follows in *. cbn [fst snd] in *. rewrite Hw in Hsh, Hf.
  set (w' := with_tasks (ts1 ++ t' ++ ts2) (with_cfgs cfgs w)).
  assert (cfgs !! id = pipelineCfg (Some (es_entries (w_camps w))) <$> es_entries (w_units w) !! id → in_step w' id) as Hexact.
  { intros He. split; cbn; rewrite He; [by intros ->|intros e ->; by eexists|done]. }
  split; [done|]. split; [by eapply handover_shaped|]. intros k [Hk|(-> & He & Hnt)].
  2:{ split; [by apply untouched_good|]. intros _. by apply Hexact. }
  destruct (Hf k Hk) as [Hg Hin]. split; [by apply (handover_good w _ _ t)|]. intros Hnt.
  destruct (decide (k = id)) as [->|Hne].
  { apply Hexact, Hid. by apply Forall_app in Hg as [_ [Hg _]%Forall_cons]. }
  destruct Hin as [A B C]; [revert Hnt; unfold w'; cbn [with_tasks w_tasks]; rewrite !touched_app, touched_one, Hids; tauto|].
  split; cbn; rewrite Hcfgs by done; [exact A|exact B|]. intros Hl. apply C. rewrite Hw. by eapply handover_listing.
Qed.

Lemma follows_weaken w (P Q : string → Prop) : (∀ id, Q id → P id) → follows_units (w, P) → follows_units (w, Q).
Proof. intros Hpq (Hok & Hsh & Hf). split; [done|split; [done|]]. intros id Hid. by apply Hf, Hpq. Qed.

Lemma with_cfgs_id w : with_cfgs (w_cfgs w) w = w.
Proof. by destruct w. Qed.
Lemma run_task_follows w on_time i torn :
  follows_units (w, on_time) → follows_units (run_task torn i w, λ k, on_time k ∨ settles w (run_task torn i w) (ERun i torn) k).
Proof.
  intros Hf. unfold settles, run_task. destruct (w_tasks w !! i) as [t|] eqn:Hi.
  2:{ eapply follows_weaken; [|exact Hf]. tauto. }
  pose proof (list_replace _ _ _ Hi) as Hw. set (ts1 := take i (w_tasks w)) in *. set (ts2 := drop (S i) (w_tasks w)) in *.
  destruct t as [|[|e l]|e q l|e cfg l|id]; cbn [advance]; rewrite ?with_cfgs_id.
  - eapply follows_weaken; [|by apply listing_step]. cbn. tauto.
  - eapply follows_weaken; [|eapply idle_step; [exact Hw| |done| |exact Hf]]; [cbn; tauto| |by intros id Hid%not_elem_of_nil].
    split; [constructor|intros; constructor|apply not_elem_of_nil].
  - eapply follows_weaken; [|eapply idle_step; [exact Hw| |done| |exact Hf]]; [cbn; tauto| |by intros id Hid; apply touched_one].
    split; [by repeat constructor|intros id Hg; by repeat constructor|by rewrite list_elem_of_singleton].
  - eapply follows_weaken; [|eapply idle_step; [exact Hw| |done| |exact Hf]]; [cbn; tauto| |by intros id Hid; apply touched_one].
    split; [|intros id [Hc Hq]|by rewrite list_elem_of_singleton].
    + constructor; [|constructor]. cbn. destruct (negb q && _) eqn:E; [|done]. apply andb_true_iff in E as [_ E]. by apply String.eqb_eq.
    + constructor; [|constructor]. split; [done|]. intros He. by rewrite (Hq He).
  - pose proof Hf as (_ & Hsh & _). assert (cfg_PlacementID cfg = getID e) as Hp.
    { cbn in Hsh. rewrite Hw in Hsh. by apply Forall_app in Hsh as [_ [Hsh _]%Forall_cons]. }
    eapply follows_weaken; [|eapply (cfg_step w on_time ts1 ts2 _ [Pushing l] (getID e)); [exact Hw| |done| | | |exact Hf]].
    + cbn [with_tasks w_tasks]. unfold store_set. rewrite Hp. intros k [Hk|(<- & He & -> & Hnt)]; [by left|]. right.
      split; [done|split; [|done]]. by rewrite lookup_insert_eq, He.
    + split; [by repeat constructor|intros k [Hc _]|by rewrite list_elem_of_singleton]. constructor; [|constructor].
      by apply current_cons in Hc as [_ Hc].
    + intros k Hk. unfold store_set. rewrite Hp. by apply lookup_insert_ne.
    + intros k. rewrite touched_one. apply elem_of_cons.
    + intros [Hc Hcfg]. apply current_cons in Hc as [Hc _]. unfold store_set. rewrite Hp, lookup_insert_eq, Hc, Hcfg by done. done.
  - eapply follows_weaken; [|eapply (cfg_step w on_time ts1 ts2 _ [] id); [exact Hw| |done| | | |exact Hf]].
    + cbn [with_tasks w_tasks]. unfold store_remove. intros k [Hk|(<- & He & Hnt)]; [by left|]. right.
      split; [done|split; [|done]]. by rewrite lookup_delete_eq, He.
    + split; [constructor|intros; constructor|apply not_elem_of_nil].
    + intros k Hk. by apply lookup_delete_ne.
    + intros k. cbn. rewrite list_elem_of_singleton. split; [by left|]. intros [?|(t & Ht%not_elem_of_nil & _)]; done.
    + intros Hn. unfold store_remove. by rewrite lookup_delete_eq, Hn.
Qed.

Definition event_ok (ev : event) : Prop :=
  match ev with ECreate _ vnow _ _ | EUpdate vnow _ _ _ => vnow ≠ zeroTime | _ => True end.
Lemma put_follows w id e on_time :
  follows_units (w, on_time) → entry_ok id e →
  let s := es_put id e (w_units w) in
  follows_units (spawn (Pushing [e]) (with_units s w), λ k, on_time k ∧ (es_entries s !! k = es_entries (w_units w) !! k ∨ ¬ touched (w_tasks w) k)).
Proof.
  intros Hf He s. pose proof He as [Hid _]. apply (unit_change _ _ _ id); try done.
  - intros k Hk. by apply lookup_insert_ne.
  - apply es_put_ok; [apply Hf|done].
  - by rewrite <-Hid.
  - intros e' ->%list_elem_of_singleton _. apply lookup_insert_eq.
Qed.
Lemma changed_follows w r on_time :
  follows_units (w, on_time) →
  follows_units ((changed w r).1, λ k, on_time k ∧ (succeeds (changed w r).2 = false ∨ ¬ Exists (building k) (w_tasks w))).
Proof.
  intros Hf. unfold changed. cbn [fst snd]. destruct (succeeds r.2).
  - eapply follows_weaken; [|by apply camps_change]. intros id [Hid [Hb|Hb]]; [discriminate Hb|exact (conj Hid Hb)].
  - eapply follows_weaken; [|exact Hf]. tauto.
Qed.
Lemma run_step_follows x ev : event_ok ev → follows_units x → follows_units (run_step x ev).
Proof.
  intros Hev Hf. destruct x as [w on_time]. unfold run_step, stays_on_time. cbn [fst snd].
  destruct ev as [drawn vnow now [e|]|vnow now id [e|]|id|drawn vnow now body|vnow now id body|id|i torn];
    cbn [wired_step VideoCreate VideoUpdate event_ok fst settles campaigns_changed] in *;
    try (eapply follows_weaken; [|exact Hf]; tauto).
  - destruct (validate vnow e) as [e'|] eqn:Ev; [|eapply follows_weaken; [|exact Hf]; tauto]. unfold es_create. cbn [fst].
    rewrite getID_setTimestamps, getID_setID. eapply follows_weaken; [|apply put_follows; [exact Hf|by apply (stamped_ok vnow now now _ e e')]].
    cbn [spawn with_tasks with_units w_units]. tauto.
  - destruct (validate vnow e) as [e'|] eqn:Ev; [|eapply follows_weaken; [|exact Hf]; tauto]. unfold es_update.
    destruct (es_entries (w_units w) !! id) as [old|] eqn:Eo; [|eapply follows_weaken; [|exact Hf]; tauto]. cbn [fst].
    pose proof Hf as (Hok & _). destruct (Hok id old Eo) as [-> _].
    eapply follows_weaken; [|apply put_follows; [exact Hf|by apply (stamped_ok vnow _ now id e e')]].
    cbn [spawn with_tasks with_units w_units]. tauto.
  - unfold VideoDelete, es_delete. destruct (es_entries (w_units w) !! id) as [e|] eqn:Eu; [|eapply follows_weaken; [|exact Hf]; tauto].
    cbn [fst]. eapply follows_weaken; [|eapply (unit_change w _ _ id); [| | | | |exact Hf]]; cbn [es_entries].
    + cbn [spawn with_tasks with_units w_units es_entries]. tauto.
    + intros k Hk. by apply lookup_delete_ne.
    + apply map_Forall_delete, Hf.
    + done.
    + done.
    + intros _. apply lookup_delete_eq.
  - eapply follows_weaken; [|by apply changed_follows]. cbn. tauto.
  - eapply follows_weaken; [|by apply changed_follows]. cbn. tauto.
  - eapply follows_weaken; [|by apply changed_follows]. cbn. tauto.
  - eapply follows_weaken; [|by apply run_task_follows]. cbn. tauto.
Qed.
Lemma run_follows evs x : Forall event_ok evs → follows_units x → follows_units (foldl run_step x evs).
Proof.
  revert x. induction evs as [|ev evs IH]; intros x Hevs Hx; [done|]. apply Forall_cons in Hevs as [Hev Hevs].
  apply IH; [done|]. by apply run_step_follows.
Qed.

(** *** Goroutines end *)
Definition task_work (w : wired) (t : task) : nat :=
  match t with
  | Listing => 3 * length (es_list (w_units w)) + 2
  | Pushing l => 3 * length l + 1
  | Reading _ _ l => 3 * length l + 3
  | Registering _ _ l => 3 * length l + 2
  | Removing _ => 1
  end.
Definition work (w : wired) : nat := sum_list_with (task_work w) (w_tasks w).
Lemma run_task_work torn i w : (i < length (w_tasks w))%nat → work w = S (work (run_task torn i w)).
Proof.
  intros [t Hi]%lookup_lt_is_Some. unfold run_task. rewrite Hi. unfold work at 1. pose proof (list_replace _ _ _ Hi) as Hw.
  set (ts1 := take i (w_tasks w)) in *. set (ts2 := drop (S i) (w_tasks w)) in *. rewrite Hw, !sum_list_with_app. cbn [sum_list_with].
  destruct (advance torn w t) as [cfgs t'] eqn:Ea. unfold work. cbn [with_tasks with_cfgs w_tasks].
  rewrite !sum_list_with_app. change (task_work (with_tasks _ _)) with (task_work w).
  enough (task_work w t = S (sum_list_with (task_work w) t')) by lia.
  destruct t as [|[|e l]|e q l|e cfg l|id]; injection Ea as _ <-; cbn; lia.
Qed.
Lemma goroutines_end torn w : w_tasks (foldl wired_step w (replicate (work w) (ERun 0 torn))) = [].
Proof.
  remember (work w) as n eqn:Hn. revert w Hn. induction n as [|n IH]; intros w Hn.
  - cbn. unfold work in Hn. destruct (w_tasks w) as [|t ts]; [done|]. destruct t; cbn in Hn; lia.
  - destruct (w_tasks w) as [|t ts] eqn:Et; [unfold work in Hn; by rewrite Et in Hn|]. cbn [replicate foldl wired_step]. apply IH.
    pose proof (run_task_work torn 0 w) as Hw. rewrite Et in Hw. cbn [length] in Hw. lia.
Qed.
(** Overtaking takes an overlap: a request that finds no goroutine at work leaves every placement on
    time, and so does a goroutine's step. *)
Lemma no_overlap_on_time on_time w ev id :
  w_tasks w = [] ∨ (∃ i torn, ev = ERun i torn) → on_time id → stays_on_time on_time w ev id.
Proof.
  intros [Ht|(i & torn & ->)] Hid; split; [by left| |by left|].
  - rewrite Ht. split; right; [intros (t & Hin%not_elem_of_nil & _); done|by intros ?%Exists_nil].
  - split; [|by left]. left. cbn [wired_step]. unfold run_task. destruct (w_tasks w !! i) as [t|]; [|done]. by destruct (advance torn w t).
Qed.
(** Requests that each find no goroutine at work. *)
Fixpoint one_at_a_time (w : wired) (evs : list event) : bool :=
  match evs with
  | [] => true
  | ev :: evs => match ev, w_tasks w with ERun _ _, _ | _, [] => one_at_a_time (wired_step w ev) evs | _, _ => false end
  end.
Lemma one_at_a_time_on_time evs w (on_time : string → Prop) :
  one_at_a_time w evs = true → (∀ id, on_time id) → ∀ id, (foldl run_step (w, on_time) evs).2 id.
Proof.
  revert w on_time. induction evs as [|ev evs IH]; intros w on_time Hone Hall; [exact Hall|]. cbn [foldl]. cbn [one_at_a_time] in Hone. apply IH.
  - destruct ev, (w_tasks w); done.
  - intros id. apply no_overlap_on_time; [cbn [fst]|apply Hall]. destruct ev, (w_tasks w); try done; first [by left|right; by eexists _, _].
Qed.
End Proofs.


(** ** Concrete runs *)
Definition no_meta : Meta := {| m_ID := ""; m_CreatedAt := 0; m_UpdatedAt := 0 |}.
Definition sample_unit (links : list string) : VideoExchangeEntry :=
  {| ve_meta := no_meta; ve_PublisherID := "p1"; ve_Name := " Living room "; ve_Environment := "ctv"; ve_Placement := "instream";
     ve_BundleID := "tv.app"; ve_AppName := ""; ve_ChannelName := ""; ve_NetworkName := ""; ve_MinDuration := 5; ve_MaxDuration := 30;
     ve_PodDurationSec := 0; ve_MaxPods := 0; ve_PodSequence := 0; ve_CompanionType := []; ve_CatTax := 0; ve_SellerDomain := "";
     ve_DomainOrApp := ""; ve_ContentURL := ""; ve_IntegrationType := "VAST"; ve_PricingType := ""; ve_AdvFloorCPM := f0; ve_FloorCPM := f1;
     ve_Bidders := []; ve_Active := true; ve_ImpsDailyCap := 0; ve_ImpsHourlyCap := 0; ve_QPS := 0; ve_TimeoutMS := 0; ve_CampaignID := "";
     ve_DemandLinks := links; ve_ExtStats := None; ve_SegmentIDs := []; ve_FreqCapImps := 0; ve_FreqCapPeriod := "" |}.
Definition sample_campaign (vast : string) : Campaign :=
  {| camp_meta := no_meta; camp_Name := "spring"; camp_AdvertiserID := "a1"; camp_PublisherID := ""; camp_VASTTagURL := vast;
     camp_OrtbEndpointURL := ""; camp_FloorCPM := f1; camp_Status := ""; camp_IntegrationType := "vast"; camp_OrtbVersion := ""; camp_MimeTypes := [];
     camp_Protocols := []; camp_APIs := []; camp_DemandTypes := []; camp_AuctionType := ""; camp_AuctionPriceType := ""; camp_ImpsDailyCap := 0;
     camp_ImpsHourlyCap := 0; camp_ReqsDailyCap := 0; camp_ReqsHourlyCap := 0; camp_OppsDailyCap := 0; camp_OppsHourlyCap := 0; camp_QPS := 0;
     camp_RevDailyCap := f0; camp_FilterImpressions := ""; camp_DomainFilterType := ""; camp_DomainLists := []; camp_PassSchain := false;
     camp_TargetingRules := []; camp_SupplyLinks := []; camp_BudgetTotal := f0; camp_BudgetDaily := f0; camp_PacingType := "";
     camp_AutoBidding := false; camp_AutoBiddingGoal := ""; camp_AutoBiddingTarget := f0; camp_StartDate := ""; camp_EndDate := "";
     camp_DayPartSchedule := []; camp_FreqCapImps := 0; camp_FreqCapPeriod := ""; camp_SegmentIDs := []; camp_BAdv := []; camp_BCat := [];
     camp_ExtStats := None |}.
Definition empty_store {E : Type} : entityStore E := {| es_entries := ∅; es_saves := 0 |}.
(** A unit linked to campaign ["07"], which is created after it; its id is ["01"].  Each request runs
    to its end. *)
Definition steps (i n : nat) : list event := replicate n (ERun i (defaultConfig "")).
Definition sample_run : list event :=
  ECreate [1] 9 10 (Ok (sample_unit ["07"])) :: steps 0 4 ++
  ECampaignCreate [7] 19 20 (Ok (sample_campaign "https://ads/v")) :: steps 0 5.
Definition run_from_empty `{MapRange} `{GoSort} (evs : list event) : wired := (run (WireVideoExchange empty_store empty_store) evs).1.

Example sample_run_registers : let H := canonical_range in let H0 := stable_go_sort in
  (λ c, (cfg_DomainOrApp c, cfg_CampaignID c, cfg_DemandVASTURL c)) <$> w_cfgs (run_from_empty sample_run) !! "01" =
  Some ("tv.app", "07", "https://ads/v") ∧ w_tasks (run_from_empty sample_run) = [].
Proof. split; vm_compute; reflexivity. Qed.


(** A re-synchronisation lists the units, a unit is deleted and unregistered, and the
    re-synchronisation goes on: the deleted unit is registered again and, when every goroutine has
    ended, stays so. *)
Theorem deleted_unit_comes_back : let H := canonical_range in let H0 := stable_go_sort in
  let w := run_from_empty (take 6 sample_run ++ steps 0 1 ++ EDelete "01" :: steps 1 1 ++ steps 0 4) in
  es_entries (w_units w) = ∅ ∧ w_tasks w = [] ∧ (cfg_Active <$> w_cfgs w !! "01") = Some true.
Proof. split_and!; vm_compute; reflexivity. Qed.

(** A campaign found through the demand links is both the unit's primary demand and the first of
    the waterfall behind it. *)
Theorem linked_campaign_asked_twice `{MapRange} `{GoSort} camps e id c :
  ve_CampaignID e = "" → ve_DemandLinks e = [id] → id ≠ "" → camps !! id = Some c → camp_VASTTagURL c ≠ "" →
  cfg_DemandVASTURL (pipelineCfg (Some camps) e) = camp_VASTTagURL c ∧
  ed_VASTTagURL <$> cfg_ExtraDemand (pipelineCfg (Some camps) e) = [camp_VASTTagURL c].
Proof.
  intros Hown Hlinks Hid Hc Hv. apply String.eqb_neq in Hid as Hid', Hv as Hv'.
  assert (resolvedCampaignID (Some camps) e = id) as Hr.
  { unfold resolvedCampaignID. rewrite Hown, Hlinks. cbn. rewrite Hid', Hc. rewrite decide_True by done. by rewrite Hid'. }
  unfold pipelineCfg. rewrite Hr, Hid'. cbn [cfg_DemandVASTURL cfg_ExtraDemand]. rewrite Hown, Hlinks. cbn. by rewrite Hc, Hid', Hv'.
Qed.
