(* ===== verification/DashReports.v ===== *)
(** * Reports and the revenue console (endpoints/dashboard.go)

    [BidReportHandler] takes reports from the serving pipeline, one or a batch at a time, and lists
    them filtered and sorted; the partner handlers list the publishers and advertisers with the
    metrics of their partner records, over which the live statistics are laid.  Proved: a report
    list is exactly the matching reports in the requested order; a partner list has one row per
    publisher and the partners without one; and runs in which a batch is half stored and a list
    changes the store. *)
From S2P Require Import Prelude GoStrings GoFloat Order GoNet VideoStats DashStore DashEntities.

(** ** Who may write reports *)
(** What [isAuthorizedBidReportWrite] reads: the environment's key, two headers, whether the
    session cookie is valid, and the host of the remote address ([net.SplitHostPort]'s, or the
    whole address). [same] is [secureStringEquals]. *)
Record writer := { wr_ReportKey : string; wr_KeyHeader : string; wr_Authorization : string; wr_session : bool; wr_host : string }.
(** [IP.IsLoopback] on the 16 byte form. *)
Definition IsLoopback (ip : IP) : bool :=
  if decide (take 12 ip = v4InV6Prefix) then match drop 12 ip with a :: _ => a =? 127 | [] => false end
  else bool_decide (ip = repeat 0 15 ++ [1]).
Definition isAuthorizedBidReportWrite (same : string → string → bool) (r : writer) : bool :=
  if wr_ReportKey r ≠s? "" then
    let provided := if wr_KeyHeader r ≠s? "" then wr_KeyHeader r
                    else if HasPrefix (wr_Authorization r) "Bearer " then TrimSpace (TrimPrefix (wr_Authorization r) "Bearer ") else "" in
    same provided (wr_ReportKey r)
  else if wr_session r then true
  else match net_ParseIP (TrimSpace (wr_host r)) with [] => false | ip => IsLoopback ip end.

(** ** Listing reports *)
Record reportQuery := {
  rq_campaign_id : string; rq_adomain : string; rq_crid : string; rq_bidder : string; rq_event_type : string;
  rq_publisher_id : string; rq_ad_unit_id : string; rq_sort_by : string; rq_sort_dir : string
}.
(** A filter that is given and that the value fails. *)
Definition misses (f value : string) : bool := (f ≠s? "") && (value ≠s? f).
Definition keeps (q : reportQuery) (e : BidReportEntry) : bool :=
  negb (misses (rq_campaign_id q) (br_CampaignID e) || misses (rq_crid q) (br_CrID e) || misses (rq_bidder q) (br_Bidder e)
        || misses (rq_event_type q) (br_EventType e) || misses (rq_publisher_id q) (br_PublisherID e)
        || misses (rq_ad_unit_id q) (br_AdUnitID e)
        || ((rq_adomain q ≠s? "") && negb (one_of (br_ADomain e) (rq_adomain q)))).
Definition unfiltered (q : reportQuery) : bool :=
  (rq_campaign_id q =s? "") && (rq_adomain q =s? "") && (rq_crid q =s? "") && (rq_bidder q =s? "") && (rq_event_type q =s? "")
  && (rq_publisher_id q =s? "") && (rq_ad_unit_id q =s? "").

Definition compare_by {A : Type} (lt : A → A → bool) (l r : A) : Z := if lt l r then -1 else if lt r l then 1 else 0.
Definition compareString (left right : string) : Z := compare_by String.ltb (ToLower left) (ToLower right).
Definition compareFloat64 : float64 → float64 → Z := compare_by fltb.
Definition compareTime : Z → Z → Z := compare_by Z.ltb.
Definition firstNonEmpty (a b : string) : string := if a ≠s? "" then a else b.

(** The fields reports sort by, and the order of each. *)
Inductive sort_key := ByTime (f : BidReportEntry → Z) | ByPrice | ByText (f : BidReportEntry → string).
Definition sort_field (field : string) : sort_key :=
  if one_of ["time"; "event_time"] field then ByTime br_EventTime
  else if one_of ["price"] field then ByPrice
  else if one_of ["event"; "event_type"] field then ByText br_EventType
  else if one_of ["bidder"] field then ByText br_Bidder
  else if one_of ["adomain"] field then ByText (λ e, String.concat "," (br_ADomain e))
  else if one_of ["crid"] field then ByText br_CrID
  else if one_of ["campaign"; "campaign_id"] field then ByText br_CampaignID
  else if one_of ["publisher"; "publisher_id"] field then ByText br_PublisherID
  else if one_of ["ad_unit"; "ad_unit_id"] field then ByText br_AdUnitID
  else if one_of ["domain"] field then ByText (λ e, firstNonEmpty (br_Domain e) (br_AppBundle e))
  else if one_of ["country"; "country_code"] field then ByText br_CountryCode
  else if one_of ["env"] field then ByText br_Env
  else if one_of ["request"; "request_id"] field then ByText br_RequestID
  else if one_of ["created_at"] field then ByTime getCreatedAt
  else if one_of ["updated_at"] field then ByTime (λ e, m_UpdatedAt (br_meta e))
  else ByTime br_EventTime.
Definition compareBidReportEntries (left right : BidReportEntry) (field : string) : Z :=
  match sort_field field with
  | ByTime f => compareTime (f left) (f right)
  | ByPrice => compareFloat64 (br_Price left) (br_Price right)
  | ByText f => compareString (f left) (f right)
  end.
Definition report_cmp (field : string) (a b : BidReportEntry) : Z :=
  let cmp := compareBidReportEntries a b field in
  if cmp =? 0 then compareTime (getCreatedAt a) (getCreatedAt b) else cmp.
Definition report_less (field : string) (desc : bool) (a b : BidReportEntry) : bool :=
  if desc then 0 <? report_cmp field a b else report_cmp field a b <? 0.
Definition sortBidReportEntries (entries : list BidReportEntry) (sortBy sortDir : string) : list BidReportEntry :=
  if (length entries <? 2)%nat then entries
  else stable_sort (report_less (ToLower (TrimSpace sortBy)) (negb (EqualFold sortDir "asc"))) entries.

Definition ReportList `{MapRange} `{GoSort} (s : entityStore BidReportEntry) (q : reportQuery) : reply BidReportEntry :=
  let all := es_list s in
  let out := if unfiltered q then all else filter (λ e, keeps q e = true) all in
  let out := if rq_sort_by q ≠s? "" then sortBidReportEntries out (rq_sort_by q) (rq_sort_dir q) else out in
  Entries 200 (Some (length out)) out.

(** ** Pushing reports *)
Definition Push (authorized : bool) (drawn : list Z) (vnow now : Z) (s : entityStore BidReportEntry) (body : result string BidReportEntry) :
    entityStore BidReportEntry * reply BidReportEntry :=
  if negb authorized then (s, Error 401 "unauthorized") else createHandle drawn vnow now s body.
(** The batch is stored entry by entry, each with its id and clock; an entry that is null is a nil
    pointer, and the message names an entry by as many zeros as its number. *)
Fixpoint bulk_loop (i : nat) (draws : nat → list Z) (clock : nat → Z) (s : entityStore BidReportEntry) (entries : list (option BidReportEntry))
    (created : list BidReportEntry) : entityStore BidReportEntry * reply BidReportEntry :=
  match entries with
  | [] => (s, Entries 201 (Some (length created)) created)
  | None :: _ => (s, Panicked)
  | Some e :: entries =>
      match validate (clock i) e with
      | Err m => (s, Error 400 ("entry " +:+ zeros (S i) +:+ " " +:+ m))
      | Ok e => let '(s, e) := es_create (draws i) (clock i) s e in bulk_loop (S i) draws clock s entries (created ++ [e])
      end
  end.
Definition BulkPush (authorized : bool) (draws : nat → list Z) (clock : nat → Z) (s : entityStore BidReportEntry)
    (body : result string (list (option BidReportEntry))) : entityStore BidReportEntry * reply BidReportEntry :=
  if negb authorized then (s, Error 401 "unauthorized")
  else match body with Err m => (s, body_error m) | Ok entries => bulk_loop 0 draws clock s entries [] end.

(** ** Rates and windows *)
Definition statsWindowSeconds (nowUnix startedAt : Z) : Z * Z :=
  let uptime := Z.max 1 (nowUnix - startedAt) in (Z.min uptime 86400, Z.min uptime 3600).
Definition qpsFromRecentRequests (recentRequests : option (gmap string Z)) (entityID : string) (recentWindow fallback fallbackWindow : Z) : Z :=
  match m ← recentRequests; m !! entityID with
  | Some recent => recent ÷ Z.max 1 recentWindow
  | None => fallback ÷ Z.max 1 fallbackWindow
  end.
Definition deliveryStatusFromMasterStatus (status : string) : string := if EqualFold (TrimSpace status) "paused" then "Paused" else "Live".

(** ** Partner lists *)
(** What the two handlers have in common: a master record (publisher or advertiser) gives id, name
    and status, a partner record the rest.  [lay] lays the live statistics of an id over a record. *)
Record partner_ops (M P : Type) := {
  po_id : P → string;
  po_master_id : M → string;
  po_fresh : P;
  po_master : M → P → P;
  po_lay : VideoStats → Z → Z → P → P
}.
Arguments po_id {M P}. Arguments po_master_id {M P}. Arguments po_fresh {M P}. Arguments po_master {M P}. Arguments po_lay {M P}.

Section Partners.
Context {M P : Type} `{entity P} (ops : partner_ops M P).

(** [listEntries]: [None] when no master list was injected.  With masters the rows are copies; with
    none they are the records of the store themselves, which the second component says. *)
Definition listEntries (masters : option (list M)) (entries : list P) : list P * bool :=
  match masters with
  | None | Some [] => (entries, true)
  | Some masters =>
      let byID := foldl (λ (m : gmap string P) e, <[po_id ops e := e]> m) ∅ entries in
      (map (λ ma, po_master ops ma (default (po_fresh ops) (byID !! po_master_id ops ma))) masters ++
       filter (λ e, po_id ops e ∉ map (po_master_id ops) masters) entries, false)
  end.

(** The snapshot of the statistics the list reads: by id, the requests of the last day and hour. *)
Record liveStats := { ls_by : gmap string VideoStats; ls_lastDay : option (gmap string Z); ls_lastHour : option (gmap string Z); ls_StartedAt : Z }.
Definition overlay (nowUnix : Z) (snap : liveStats) (e : P) : P :=
  let '(day, hour) := statsWindowSeconds nowUnix (ls_StartedAt snap) in
  match ls_by snap !! po_id ops e with
  | None => e
  | Some vs =>
      po_lay ops vs (qpsFromRecentRequests (ls_lastDay snap) (po_id ops e) 86400 (vs_AdRequests vs) day)
        (qpsFromRecentRequests (ls_lastHour snap) (po_id ops e) 3600 (vs_AdRequests vs) hour) e
  end.
(** [List]: the overlay writes through the pointers it lists. *)
Definition PartnerList `{MapRange} `{GoSort} (nowUnix : Z) (s : entityStore P) (masters : option (list M)) (stats : option liveStats) :
    entityStore P * reply P :=
  let '(entries, own) := listEntries masters (es_list s) in
  match stats with
  | None => (s, Entries 200 None entries)
  | Some snap =>
      (if own then {| es_entries := overlay nowUnix snap <$> es_entries s; es_saves := es_saves s |} else s,
       Entries 200 None (map (overlay nowUnix snap) entries))
  end.
(** [Patch]: the flag is required. *)
Definition Patch (set_active : bool → P → P) (notFound : string) (now : Z) (s : entityStore P) (id : string) (body : result string (option bool)) :
    entityStore P * reply P :=
  match body with
  | Err m => (s, body_error m)
  | Ok None => (s, Error 400 "active field is required")
  | Ok (Some want) =>
      match modifyFn now s id (set_active want) with
      | None => (s, Error 404 notFound)
      | Some (s, e) => (s, Entry 200 e)
      end
  end.
End Partners.
Arguments overlay {M P}.

Definition with_active_sp (b : bool) (e : SupplyPartner) : SupplyPartner :=
  {| sp_meta := sp_meta e; sp_Name := sp_Name e; sp_DeliveryStatus := sp_DeliveryStatus e; sp_Active := b; sp_Opportunities := sp_Opportunities e;
     sp_GrossRevenue := sp_GrossRevenue e; sp_AvgQpsYesterday := sp_AvgQpsYesterday e; sp_AvgQpsLastHour := sp_AvgQpsLastHour e;
     sp_Impressions := sp_Impressions e; sp_PublisherPayout := sp_PublisherPayout e; sp_Completions := sp_Completions e;
     sp_ViewableImpressions := sp_ViewableImpressions e |}.
Definition with_active_dp (b : bool) (e : DemandPartner) : DemandPartner :=
  {| dp_meta := dp_meta e; dp_Name := dp_Name e; dp_DeliveryStatus := dp_DeliveryStatus e; dp_Active := b; dp_BidRequests := dp_BidRequests e;
     dp_Bids := dp_Bids e; dp_AvgQpsYesterday := dp_AvgQpsYesterday e; dp_AvgQpsLastHour := dp_AvgQpsLastHour e; dp_Impressions := dp_Impressions e;
     dp_GrossRevenue := dp_GrossRevenue e; dp_Payout := dp_Payout e; dp_Completions := dp_Completions e; dp_ViewableImpressions := dp_ViewableImpressions e |}.

Definition zero_meta : Meta := {| m_ID := ""; m_CreatedAt := zeroTime; m_UpdatedAt := zeroTime |}.
(** The id and times a row takes from its master. *)
Definition master_meta (master row : Meta) : Meta :=
  {| m_ID := m_ID master; m_CreatedAt := if m_CreatedAt row =? zeroTime then m_CreatedAt master else m_CreatedAt row; m_UpdatedAt := m_UpdatedAt master |}.
Definition supply_ops : partner_ops Publisher SupplyPartner := {|
  po_id := getID;
  po_master_id := getID;
  po_fresh := {| sp_meta := zero_meta; sp_Name := ""; sp_DeliveryStatus := ""; sp_Active := false; sp_Opportunities := 0; sp_GrossRevenue := f0;
                 sp_AvgQpsYesterday := 0; sp_AvgQpsLastHour := 0; sp_Impressions := 0; sp_PublisherPayout := f0; sp_Completions := 0; sp_ViewableImpressions := 0 |};
  po_master := λ p e,
    {| sp_meta := master_meta (pub_meta p) (sp_meta e); sp_Name := pub_Name p; sp_DeliveryStatus := deliveryStatusFromMasterStatus (pub_Status p);
       sp_Active := EqualFold (TrimSpace (pub_Status p)) "active"; sp_Opportunities := sp_Opportunities e; sp_GrossRevenue := sp_GrossRevenue e;
       sp_AvgQpsYesterday := sp_AvgQpsYesterday e; sp_AvgQpsLastHour := sp_AvgQpsLastHour e; sp_Impressions := sp_Impressions e;
       sp_PublisherPayout := sp_PublisherPayout e; sp_Completions := sp_Completions e; sp_ViewableImpressions := sp_ViewableImpressions e |};
  po_lay := λ vs day hour e,
    {| sp_meta := sp_meta e; sp_Name := sp_Name e; sp_DeliveryStatus := sp_DeliveryStatus e; sp_Active := sp_Active e; sp_Opportunities := vs_Opportunities vs;
       sp_GrossRevenue := vs_Revenue vs; sp_AvgQpsYesterday := day; sp_AvgQpsLastHour := hour; sp_Impressions := vs_Impressions vs;
       sp_PublisherPayout := vs_PublisherRevenue vs; sp_Completions := vs_Completes vs; sp_ViewableImpressions := sp_ViewableImpressions e |}
|}.
Definition demand_ops : partner_ops Advertiser DemandPartner := {|
  po_id := getID;
  po_master_id := getID;
  po_fresh := {| dp_meta := zero_meta; dp_Name := ""; dp_DeliveryStatus := ""; dp_Active := false; dp_BidRequests := 0; dp_Bids := 0;
                 dp_AvgQpsYesterday := 0; dp_AvgQpsLastHour := 0; dp_Impressions := 0; dp_GrossRevenue := f0; dp_Payout := f0; dp_Completions := 0;
                 dp_ViewableImpressions := 0 |};
  po_master := λ a e,
    {| dp_meta := master_meta (adv_meta a) (dp_meta e); dp_Name := adv_Name a; dp_DeliveryStatus := deliveryStatusFromMasterStatus (adv_Status a);
       dp_Active := EqualFold (TrimSpace (adv_Status a)) "active"; dp_BidRequests := dp_BidRequests e; dp_Bids := dp_Bids e;
       dp_AvgQpsYesterday := dp_AvgQpsYesterday e; dp_AvgQpsLastHour := dp_AvgQpsLastHour e; dp_Impressions := dp_Impressions e;
       dp_GrossRevenue := dp_GrossRevenue e; dp_Payout := dp_Payout e; dp_Completions := dp_Completions e; dp_ViewableImpressions := dp_ViewableImpressions e |};
  po_lay := λ vs day hour e,
    {| dp_meta := dp_meta e; dp_Name := dp_Name e; dp_DeliveryStatus := dp_DeliveryStatus e; dp_Active := dp_Active e; dp_BidRequests := vs_AdRequests vs;
       dp_Bids := vs_Opportunities vs; dp_AvgQpsYesterday := day; dp_AvgQpsLastHour := hour; dp_Impressions := vs_Impressions vs;
       dp_GrossRevenue := vs_Revenue vs; dp_Payout := vs_Revenue vs; dp_Completions := vs_Completes vs; dp_ViewableImpressions := dp_ViewableImpressions e |}
|}.

(** ** The order of reports *)
Definition key_lt (field : string) (a b : BidReportEntry) : bool :=
  match sort_field field with
  | ByTime f => f a <? f b
  | ByPrice => br_Price a <f? br_Price b
  | ByText f => String.ltb (ToLower (f a)) (ToLower (f b))
  end.
Definition created_lt (a b : BidReportEntry) : bool := getCreatedAt a <? getCreatedAt b.
Definition priced (e : BidReportEntry) : Prop := is_nan (br_Price e) = false.

Lemma compareBid_key field a b : compareBidReportEntries a b field = compare_by (key_lt field) a b.
Proof. unfold compareBidReportEntries, key_lt, compare_by. by destruct (sort_field field). Qed.
#[local] Instance key_lt_SWO field : SWO priced (key_lt field).
Proof.
  unfold key_lt. destruct (sort_field field) as [f| |f].
  - apply (SWO_weaken (λ e, True)); [apply (SWO_pull f (λ _, True) Z.ltb)|done].
  - apply (SWO_pull br_Price (λ x, is_nan x = false) fltb).
  - apply (SWO_weaken (λ e, True)); [apply (SWO_pull (λ e, ToLower (f e)) (λ _, True) String.ltb)|done].
Qed.
#[local] Instance created_lt_SWO : SWO priced created_lt.
Proof. apply (SWO_weaken (λ e, True)); [apply (SWO_pull getCreatedAt (λ _, True) Z.ltb)|done]. Qed.
Lemma key_lt_asym field a b : key_lt field a b = true → key_lt field b a = false.
Proof.
  unfold key_lt. destruct (sort_field field) as [f| |f].
  - rewrite Z.ltb_lt, Z.ltb_ge. lia.
  - apply fltb_asym.
  - by apply (swo_asym (P:=λ _ : string, True) (less:=String.ltb)).
Qed.
(** Ascending the order is the field's with ties by creation time; descending it is its reverse. *)
Lemma report_less_lex field desc a b :
  report_less field desc a b = if desc then lex (key_lt field) created_lt b a else lex (key_lt field) created_lt a b.
Proof.
  unfold report_less, report_cmp. cbv zeta. rewrite compareBid_key. unfold lex, compareTime, compare_by.
  change (getCreatedAt a <? getCreatedAt b) with (created_lt a b). change (getCreatedAt b <? getCreatedAt a) with (created_lt b a).
  pose proof (key_lt_asym field a b) as Ha.
  assert (created_lt a b = true → created_lt b a = false) as Hc by (unfold created_lt; rewrite Z.ltb_lt, Z.ltb_ge; lia).
  destruct (key_lt field a b); [rewrite Ha by done; by destruct desc|].
  destruct (key_lt field b a); [by destruct desc|]. cbn.
  destruct (created_lt a b); [rewrite Hc by done; by destruct desc|]. by destruct (created_lt b a), desc.
Qed.
#[local] Instance report_less_SWO field desc : SWO priced (report_less field desc).
Proof.
  assert (SWO priced (lex (key_lt field) created_lt)) as HS by apply _. destruct desc.
  - pose proof (SWO_flip priced (lex (key_lt field) created_lt)) as HF.
    split; intros; rewrite !report_less_lex in *; [by eapply (swo_asym (SWO:=HF))|by eapply (swo_cotrans (SWO:=HF))].
  - split; intros; rewrite !report_less_lex in *; [by eapply (swo_asym (SWO:=HS))|by eapply (swo_cotrans (SWO:=HS))].
Qed.

Lemma unfiltered_keeps q e : unfiltered q = true → keeps q e = true.
Proof.
  unfold unfiltered. rewrite !andb_true_iff, !String.eqb_eq. intros [[[[[[H1 H2] H3] H4] H5] H6] H7].
  unfold keeps, misses. by rewrite H1, H2, H3, H4, H5, H6, H7.
Qed.
Lemma filter_keeps_all q (l : list BidReportEntry) : unfiltered q = true → filter (λ e, keeps q e = true) l = l.
Proof. intros Hq. induction l as [|e l IH]; [done|]. rewrite filter_cons_True, IH; [done|by apply unfiltered_keeps]. Qed.
Lemma sortBidReportEntries_perm l by_ dir : sortBidReportEntries l by_ dir ≡ₚ l.
Proof. unfold sortBidReportEntries. case_match; [done|]. apply stable_sort_perm. Qed.
Lemma sortBidReportEntries_sorted l by_ dir :
  Forall priced l → sorted_by (report_less (ToLower (TrimSpace by_)) (negb (EqualFold dir "asc"))) (sortBidReportEntries l by_ dir).
Proof.
  intros Hl. unfold sortBidReportEntries. destruct (length l <? 2)%nat eqn:En.
  - apply Nat.ltb_lt in En. destruct l as [|x [|y l]]; [constructor|repeat constructor|simpl in En; lia].
  - apply (stable_sort_sorted priced); [apply _|done].
Qed.

(** A report list is exactly the stored reports every given filter lets through, each as often as
    stored, newest first or in the order asked for. *)
Theorem report_list_exact `{MapRange} `{GoSort} s q :
  map_Forall (λ _, priced) (es_entries s) →
  ∃ out, ReportList s q = Entries 200 (Some (length out)) out ∧
    out ≡ₚ filter (λ e, keeps q e = true) (map_range (es_entries s)).*2 ∧
    if rq_sort_by q =s? "" then StronglySorted (λ a b, getCreatedAt b ≤ getCreatedAt a) out
    else sorted_by (report_less (ToLower (TrimSpace (rq_sort_by q))) (negb (EqualFold (rq_sort_dir q) "asc"))) out.
Proof.
  intros Hp. set (kept := if unfiltered q then es_list s else filter (λ e, keeps q e = true) (es_list s)).
  assert (kept = filter (λ e, keeps q e = true) (es_list s)) as Hk.
  { unfold kept. destruct (unfiltered q) eqn:Eu; [|done]. symmetry. by apply filter_keeps_all. }
  assert (es_list s ≡ₚ (map_range (es_entries s)).*2) as Hl by apply sort_Slice_perm.
  exists (if rq_sort_by q ≠s? "" then sortBidReportEntries kept (rq_sort_by q) (rq_sort_dir q) else kept).
  split; [done|]. destruct (rq_sort_by q =s? "") eqn:Es; cbn [negb].
  - rewrite Hk. split; [by rewrite Hl|]. pose proof (storeList_spec (es_entries s)) as (Hs & _). fold (es_list s) in Hs.
    clear -Hs. induction Hs as [|x l Hs IH Hx]; [constructor|]. rewrite filter_cons. case_decide; [|done].
    constructor; [done|]. rewrite Forall_forall in Hx |- *. intros y [_ Hy]%list_elem_of_filter. by apply Hx.
  - split; [rewrite sortBidReportEntries_perm, Hk; by rewrite Hl|]. apply sortBidReportEntries_sorted. rewrite Hk.
    apply Forall_forall. intros e [_ He]%list_elem_of_filter. rewrite Hl in He.
    apply list_elem_of_fmap in He as ([id e'] & -> & He%elem_of_map_range). by apply (Hp id).
Qed.

(** ** Partner rows *)
Section Rows.
Context {M P : Type} `{EntityLaws P} (ops : partner_ops M P).
Hypothesis Hid : ∀ e, po_id ops e = getID e.

Lemma byID_lookup (m : gmap string P) `{MapRange} `{GoSort} id :
  store_ok m → foldl (λ (m : gmap string P) e, <[po_id ops e := e]> m) ∅ (storeList m) !! id = m !! id.
Proof.
  intros Hok. pose proof (storeList_spec m) as (_ & Hin & _).
  assert (foldl (λ (m : gmap string P) e, <[po_id ops e := e]> m) ∅ (storeList m) = load_rows ∅ (storeList m)) as ->.
  { clear Hin. unfold load_rows. generalize (∅ : gmap string P). induction (storeList m) as [|e l IH]; intros acc; [done|]. cbn. by rewrite IH, Hid. }
  assert (∀ e, e ∈ storeList m ↔ m !! getID e = Some e) as Hl.
  { intros e. rewrite Hin. split; [|by eexists]. intros [k He]. by destruct (Hok k e He) as [-> _]. }
  rewrite load_rows_lookup.
  2: { intros e e' He%Hl He'%Hl Heq. rewrite Heq in He. congruence. }
  destruct (list_find (λ e, getID e = id) (storeList m)) as [[i e]|] eqn:Ev.
  - apply list_find_Some in Ev as (He%list_elem_of_lookup_2%Hl & <- & _). by symmetry.
  - rewrite lookup_empty. destruct (m !! id) as [e|] eqn:Em; [|done]. exfalso.
    apply list_find_None in Ev. rewrite Forall_forall in Ev. destruct (Hok id e Em) as [He _]. apply (Ev e); [|done].
    apply Hl. by rewrite He.
Qed.

(** With masters, the rows are one per master, in their order and from the partner record with its
    id, and then the partners that have no master, newest first. *)
Lemma listEntries_rows `{MapRange} `{GoSort} (s : entityStore P) ma masters :
  store_ok (es_entries s) →
  let masters := ma :: masters in
  (listEntries ops (Some masters) (es_list s)).1 =
  map (λ ma, po_master ops ma (default (po_fresh ops) (es_entries s !! po_master_id ops ma))) masters ++
  filter (λ e, getID e ∉ map (po_master_id ops) masters) (es_list s).
Proof.
  intros Hok masters'. unfold listEntries, masters'. cbn [fst]. f_equal.
  - apply map_ext. intros x. unfold es_list. by rewrite byID_lookup.
  - apply list_filter_iff. intros e. by rewrite Hid.
Qed.
End Rows.

(** The supply list of a server with publishers: a row for every publisher, with its name and
    status and the stored metrics of its partner record, then the partners without a publisher;
    the store is left as it was. *)
Theorem supply_list_rows `{MapRange} `{GoSort} now (s : entityStore SupplyPartner) p pubs stats :
  store_ok (es_entries s) →
  let pubs := p :: pubs in
  let lay := match stats with Some snap => map (overlay supply_ops now snap) | None => λ l, l end in
  PartnerList supply_ops now s (Some pubs) stats =
  (s, Entries 200 None (lay
    (map (λ p, po_master supply_ops p (default (po_fresh supply_ops) (es_entries s !! getID p))) pubs ++
     filter (λ e, getID e ∉ map getID pubs) (es_list s)))).
Proof.
  intros Hok pubs' lay. unfold PartnerList.
  rewrite (surjective_pairing (listEntries supply_ops (Some pubs') (es_list s))).
  rewrite (listEntries_rows supply_ops (λ e, eq_refl) s p pubs Hok : (listEntries supply_ops (Some pubs') (es_list s)).1 = _).
  change (listEntries supply_ops (Some pubs') (es_list s)).2 with false. unfold lay. by destruct stats.
Qed.

(** With no publishers the live metrics are written into the stored records themselves. *)
Definition sample_partner : SupplyPartner := {| sp_meta := {| m_ID := "s1"; m_CreatedAt := 5; m_UpdatedAt := 5 |}; sp_Name := "north"; sp_DeliveryStatus := "Live";
  sp_Active := true; sp_Opportunities := 1; sp_GrossRevenue := f0; sp_AvgQpsYesterday := 0; sp_AvgQpsLastHour := 0; sp_Impressions := 1; sp_PublisherPayout := f0;
  sp_Completions := 0; sp_ViewableImpressions := 0 |}.
Definition sample_stats : VideoStats :=
  {| vs_AdRequests := 7200; vs_Opportunities := 40; vs_Impressions := 30; vs_Completes := 20; vs_VCR := f0; vs_Revenue := f1; vs_PublisherRevenue := f0 |}.
Theorem supply_list_writes_store : let H := canonical_range in let H0 := stable_go_sort in
  let s := {| es_entries := {["s1" := sample_partner]}; es_saves := 0 |} in
  let snap := {| ls_by := {["s1" := sample_stats]}; ls_lastDay := None; ls_lastHour := None; ls_StartedAt := 0 |} in
  let s' := (PartnerList supply_ops 3600 s (Some []) (Some snap)).1 in
  (λ e, (sp_Impressions e, sp_AvgQpsLastHour e)) <$> es_entries s' !! "s1" = Some (30, 2) ∧ es_saves s' = 0%nat.
Proof. split; vm_compute; reflexivity. Qed.

(** ** Batches *)
Definition sample_report (event : string) : BidReportEntry :=
  {| br_meta := zero_meta; br_RequestID := ""; br_ImpID := ""; br_PublisherID := ""; br_AdUnitID := ""; br_Bidder := ""; br_ADomain := []; br_CrID := "";
     br_CampaignID := ""; br_DealID := ""; br_CID := ""; br_BURL := ""; br_Price := f1; br_Currency := ""; br_EventType := event; br_EventTime := zeroTime;
     br_Env := ""; br_AppBundle := ""; br_Domain := ""; br_CountryCode := ""; br_ErrorCode := 0; br_ErrorMsg := "" |}.
(** A batch refused for its second entry has stored its first, and says so by a number in zeros. *)
Theorem refused_batch_half_stored :
  let '(s, r) := BulkPush true (λ i, [Z.of_nat i]) (λ i, 9) {| es_entries := ∅; es_saves := 0 |} (Ok [Some (sample_report "win"); Some (sample_report "lost")]) in
  r = Error 400 "entry 00 event_type must be one of: request, bid, win, impression, click, complete, error" ∧ is_Some (es_entries s !! "00").
Proof. vm_compute. split; [reflexivity|by eexists]. Qed.

(** A report pushed without authorization changes nothing. *)
Lemma unauthorized_push same r drawn vnow now s body :
  isAuthorizedBidReportWrite same r = false → (Push (isAuthorizedBidReportWrite same r) drawn vnow now s body).1 = s.
Proof. unfold Push. by intros ->. Qed.

(** The toggles keep a record valid. *)
Lemma with_active_sp_validate b now e : validate now (with_active_sp b e) = rmap (with_active_sp b) (validate now e).
Proof.
  change (checked_entity sp_checks (with_active_sp b (sp_norm now e)) = rmap (with_active_sp b) (checked_entity sp_checks (sp_norm now e))).
  unfold checked_entity. change (sp_checks (with_active_sp b (sp_norm now e))) with (sp_checks (sp_norm now e)). by destruct (first_message _).
Qed.
Lemma with_active_dp_validate b now e : validate now (with_active_dp b e) = rmap (with_active_dp b) (validate now e).
Proof.
  change (checked_entity dp_checks (with_active_dp b (dp_norm now e)) = rmap (with_active_dp b) (checked_entity dp_checks (dp_norm now e))).
  unfold checked_entity. change (dp_checks (with_active_dp b (dp_norm now e))) with (dp_checks (dp_norm now e)). by destruct (first_message _).
Qed.
Lemma toggle_ok b id (e : SupplyPartner) (d : DemandPartner) :
  (entry_ok id e → entry_ok id (with_active_sp b e)) ∧ (entry_ok id d → entry_ok id (with_active_dp b d)).
Proof.
  split; intros [Hid Hv]; (split; [exact Hid|]); intros now; rewrite ?with_active_sp_validate, ?with_active_dp_validate; by rewrite Hv.
Qed.
