(* ===== verification/DashAuth.v ===== *)
(** * Dashboard sessions (endpoints/dashboard.go, endpoints/fast_non_video.go)

    A login with the administrator's credentials issues a random token for seven days; a logout
    removes it; the middleware lets a request through when its cookie holds a live token.  Sessions
    are saved to a file, without the expired ones, and read back at a restart.  Two servers, net/http
    and fasthttp, have handlers of their own over the same table.  A save is a goroutine that copies
    the table and writes the copy later.  Proved: while the clock does not go back and the saves are
    orderly (they do not overlap or fail, and a restart finds none outstanding) a token is accepted
    exactly when a login issued it less than seven days ago and it was not logged out since; a logout
    that a restart, or an overtaken save, undoes; and the two login handlers agree. *)
From S2P Require Import Prelude GoStrings GoFloat Order GoNet DashStore.

(** Nanoseconds: 7 * 24 * time.Hour. *)
Definition dashSessionTTL : Z := 7 * 24 * 3600 * 1000000000.

(** [secureStringEquals] compares SHA-256 digests. *)
Definition secureStringEquals (Sum256 : string → list Z) (left right : string) : bool := bool_decide (Sum256 left = Sum256 right).

(** [init]'s credentials; no password ends the process. *)
Definition dashCredentials (envUser envPass : string) : option (string * string) :=
  if envPass =s? "" then None else Some (if envUser =s? "" then "admin" else envUser, envPass).

(** ** The table and its file *)
(** [ss_saves] counts the saves started that have not run, [ss_writing] holds the copies that saves
    under way have taken and not written. *)
Record sessions := { ss_live : gmap string Z; ss_saves : nat; ss_writing : list (gmap string Z); ss_file : option (gmap string Z) }.

(** [init]: tokens already expired are not read back. *)
Definition loadSessions (now : Z) (file : option (gmap string Z)) : gmap string Z :=
  match file with None => ∅ | Some m => filter (λ x, now < x.2) m end.
(** [now.After(exp)] *)
Definition pruneExpiredSessions (now : Z) (m : gmap string Z) : gmap string Z := filter (λ x, ¬ x.2 < now) m.
(** [saveDashSessions] up to its copy of the table; then the copy [i] is written to a temporary file
    and renamed, unless encoding, writing or renaming fails. *)
Definition saveDashSessions (now : Z) (s : sessions) : sessions :=
  let m := pruneExpiredSessions now (ss_live s) in
  {| ss_live := m; ss_saves := pred (ss_saves s); ss_writing := ss_writing s ++ [m]; ss_file := ss_file s |}.
Definition writeSessions (i : nat) (ok : bool) (s : sessions) : sessions :=
  match ss_writing s !! i with
  | None => s
  | Some m => {| ss_live := ss_live s; ss_saves := ss_saves s; ss_writing := delete i (ss_writing s); ss_file := if ok then Some m else ss_file s |}
  end.
Definition isValidDashSessionToken (s : sessions) (now : Z) (token : string) : bool :=
  match ss_live s !! token with Some exp => now <? exp | None => false end.

(** ** Guarding a handler *)
(** [cookie] is [None] when the request has none of that name. *)
Inductive guarded := Passes | Status401 | Redirects (to : string).
Definition isValidDashSession (s : sessions) (now : Z) (cookie : option string) : bool :=
  match cookie with None => false | Some token => isValidDashSessionToken s now token end.
Definition DashboardAuthMiddleware (s : sessions) (now : Z) (cookie : option string) (accept contentType : string) : guarded :=
  if isValidDashSession s now cookie then Passes
  else if strContains accept "application/json" || strContains contentType "application/json" then Status401
  else Redirects "/dashboard/login".
(** The fasthttp guard: an absent cookie reads as the empty token, header names are lowered. *)
Definition fastRequestWantsJSON (accept contentType : string) : bool :=
  strContains (ToLower accept) "application/json" || strContains (ToLower contentType) "application/json".
Definition FastDashboardAuth (s : sessions) (now : Z) (cookie : option string) (accept contentType : string) : guarded :=
  if isValidDashSessionToken s now (default "" cookie) then Passes
  else if fastRequestWantsJSON accept contentType then Status401
  else Redirects "/dashboard/login".

(** ** Login and logout *)
Inductive SameSite := Lax | Strict.
Record sessionCookie := { ck_Value : string; ck_HttpOnly : bool; ck_Secure : bool; ck_SameSite : SameSite; ck_MaxAge : Z }.
Inductive loginReply := LBadRequest | LUnauthorized | LRedirect (to : string) (c : option sessionCookie) | LServerError | LOk (c : sessionCookie).
(** The request: its content type, the JSON credentials decoded, the form's, whether it came over
    TLS and the forwarded protocol. *)
Record loginRequest := {
  lr_ContentType : string; lr_json : option (string * string); lr_form : string * string; lr_TLS : bool; lr_ForwardedProto : string
}.
Definition is_json (r : loginRequest) : bool := strContains (lr_ContentType r) "application/json".
Definition issued (token : string) (secure : bool) : sessionCookie :=
  {| ck_Value := token; ck_HttpOnly := true; ck_Secure := secure; ck_SameSite := if secure then Strict else Lax; ck_MaxAge := dashSessionTTL ÷ 1000000000 |}.
Definition grant (token : string) (now : Z) (s : sessions) : sessions :=
  {| ss_live := <[token := now + dashSessionTTL]> (ss_live s); ss_saves := S (ss_saves s); ss_writing := ss_writing s; ss_file := ss_file s |}.
(** Both login handlers: [accepts] compares the credentials, [drawn] is [None] when no random bytes
    can be read. *)
Definition login (accepts : string → string → bool) (secure : bool) (drawn : option (list Z)) (now : Z) (s : sessions) (r : loginRequest) : sessions * loginReply :=
  let go '(user, pass) :=
    if negb (accepts user pass) then (s, if is_json r then LUnauthorized else LRedirect "/dashboard/login?error=1" None)
    else match drawn with
         | None => (s, LServerError)
         | Some bs => let c := issued (EncodeToString bs) secure in
                      (grant (EncodeToString bs) now s, if is_json r then LOk c else LRedirect "/dashboard" (Some c))
         end in
  if is_json r then match lr_json r with None => (s, LBadRequest) | Some creds => go creds end else go (lr_form r).
Definition NewDashboardLoginPostHandler (Sum256 : string → list Z) (admin : string * string) (drawn : option (list Z)) (now : Z) (s : sessions) (r : loginRequest) :
    sessions * loginReply :=
  login (λ user pass, secureStringEquals Sum256 user admin.1 && secureStringEquals Sum256 pass admin.2)
    (lr_TLS r || (lr_ForwardedProto r =s? "https")) drawn now s r.
Definition HandleFastDashboardLoginPost (admin : string * string) (drawn : option (list Z)) (now : Z) (s : sessions) (r : loginRequest) : sessions * loginReply :=
  login (λ user pass, negb ((user ≠s? admin.1) || (pass ≠s? admin.2)))
    (lr_TLS r || EqualFold (lr_ForwardedProto r) "https") drawn now s r.
Definition revoke (token : string) (s : sessions) : sessions :=
  {| ss_live := delete token (ss_live s); ss_saves := S (ss_saves s); ss_writing := ss_writing s; ss_file := ss_file s |}.
Definition NewDashboardLogoutHandler (s : sessions) (cookie : option string) : sessions :=
  match cookie with None => s | Some token => revoke token s end.
Definition HandleFastDashboardLogout (s : sessions) (cookie : option string) : sessions :=
  let token := default "" cookie in if token ≠s? "" then revoke token s else s.
Definition NewDashboardLoginGetHandler (s : sessions) (now : Z) (cookie : option string) : option string :=
  if isValidDashSession s now cookie then Some "/dashboard" else None.

(** ** Runs *)
Inductive session_event :=
| SLogin (drawn : option (list Z)) (r : loginRequest)
| SLogout (cookie : option string)
| SSave
| SWrite (i : nat) (ok : bool)
| SRestart.
Section Runs.
Context (Sum256 : string → list Z) (admin : string * string).

Definition session_step (s : sessions) (x : Z * session_event) : sessions :=
  let '(now, ev) := x in
  match ev with
  | SLogin drawn r => (NewDashboardLoginPostHandler Sum256 admin drawn now s r).1
  | SLogout cookie => NewDashboardLogoutHandler s cookie
  | SSave => match ss_saves s with O => s | S _ => saveDashSessions now s end
  | SWrite i ok => writeSessions i ok s
  | SRestart => {| ss_live := loadSessions now (ss_file s); ss_saves := 0; ss_writing := []; ss_file := ss_file s |}
  end.
Definition no_sessions : sessions := {| ss_live := ∅; ss_saves := 0; ss_writing := []; ss_file := None |}.
Definition session_run (l : list (Z * session_event)) : sessions := foldl session_step no_sessions l.

(** The specification has neither file nor pruning: a table of what was issued and not revoked. *)
Definition spec_step (a : gmap string Z) (x : Z * session_event) : gmap string Z :=
  let '(now, ev) := x in
  match ev with
  | SLogin (Some bs) r =>
      let creds := if is_json r then lr_json r else Some (lr_form r) in
      match creds with
      | Some (user, pass) =>
          if secureStringEquals Sum256 user admin.1 && secureStringEquals Sum256 pass admin.2
          then <[EncodeToString bs := now + dashSessionTTL]> a else a
      | None => a
      end
  | SLogout (Some token) => delete token a
  | _ => a
  end.
Definition spec_run (l : list (Z * session_event)) : gmap string Z := foldl spec_step ∅ l.

(** The clock does not go back, a save takes its copy when no other is being written, writes succeed,
    and a restart finds no save outstanding. *)
Definition timely (s : sessions) (ev : session_event) : Prop :=
  match ev with
  | SSave => ss_writing s = []
  | SWrite _ ok => ok = true
  | SRestart => ss_saves s = 0%nat ∧ ss_writing s = []
  | _ => True
  end.
Fixpoint orderly (s : sessions) (t : Z) (l : list (Z * session_event)) : Prop :=
  match l with
  | [] => True
  | (now, ev) :: l => t ≤ now ∧ timely s ev ∧ orderly (session_step s (now, ev)) now l
  end.

Definition live_at (m : gmap string Z) (now : Z) (token : string) : Prop := ∃ exp, m !! token = Some exp ∧ now < exp.
(** The same tokens are live, from now on. *)
Definition agree (t : Z) (m a : gmap string Z) : Prop := ∀ now token, t ≤ now → live_at m now token ↔ live_at a now token.
Definition sessions_ok (t : Z) (s : sessions) (a : gmap string Z) : Prop :=
  agree t (ss_live s) a ∧ (length (ss_writing s) ≤ 1)%nat ∧
  (ss_saves s = 0%nat → agree t (default (default ∅ (ss_file s)) (head (ss_writing s))) a).

Lemma agree_later t t' m a : t ≤ t' → agree t m a → agree t' m a.
Proof. intros Ht Ha now token Hn. apply Ha. lia. Qed.
Lemma agree_insert t m a k e : agree t m a → agree t (<[k := e]> m) (<[k := e]> a).
Proof.
  intros Ha now token Hn. specialize (Ha now token Hn). unfold live_at in *.
  destruct (decide (token = k)) as [->|]; [by rewrite !lookup_insert_eq|]. by rewrite !lookup_insert_ne.
Qed.
Lemma agree_delete t m a k : agree t m a → agree t (delete k m) (delete k a).
Proof.
  intros Ha now token Hn. specialize (Ha now token Hn). unfold live_at in *.
  destruct (decide (token = k)) as [->|]; [by rewrite !lookup_delete_eq|]. by rewrite !lookup_delete_ne.
Qed.
Lemma agree_filter t m a (Q : string * Z → Prop) `{!∀ x, Decision (Q x)} :
  (∀ k e, t < e → Q (k, e)) → agree t m a → agree t (filter Q m) a.
Proof.
  intros HQ Ha now token Hn. rewrite <- (Ha now token Hn). unfold live_at. split; intros (e & He & Hlt); exists e.
  - apply map_lookup_filter_Some in He as [He _]. done.
  - split; [|done]. apply map_lookup_filter_Some. split; [done|]. apply HQ. lia.
Qed.

Lemma login_spec accepts secure drawn now s r :
  (login accepts secure drawn now s r).1 =
  match drawn, (if is_json r then lr_json r else Some (lr_form r)) with
  | Some bs, Some (user, pass) => if accepts user pass then grant (EncodeToString bs) now s else s
  | _, _ => s
  end.
Proof.
  unfold login. destruct (is_json r); [destruct (lr_json r) as [[user pass]|]|destruct (lr_form r) as [user pass]];
    try destruct (accepts user pass); by destruct drawn.
Qed.

Lemma session_step_ok t now ev s a :
  t ≤ now → timely s ev → sessions_ok t s a →
  sessions_ok now (session_step s (now, ev)) (spec_step a (now, ev)).
Proof.
  intros Ht Hr (Hl & Hw & Hf). apply (agree_later t now) in Hl; [|done].
  assert (ss_saves s = 0%nat → agree now (default (default ∅ (ss_file s)) (head (ss_writing s))) a) as Hf'
    by (intros Hs; by apply (agree_later t), Hf).
  clear Hf. destruct ev as [drawn r|cookie| |i ok|]; cbn [session_step spec_step timely] in *.
  - unfold NewDashboardLoginPostHandler. rewrite login_spec. destruct drawn as [bs|]; [|done].
    destruct (if is_json r then lr_json r else Some (lr_form r)) as [[user pass]|]; [|done].
    destruct (_ && _); [|done]. split; [by apply agree_insert|]. cbn. split; [done|lia].
  - destruct cookie as [token|]; [|done]. split; [by apply agree_delete|]. cbn. split; [done|lia].
  - destruct (ss_saves s) as [|n] eqn:Es; [split; [done|split; [done|]]; by rewrite Es|]. unfold saveDashSessions.
    assert (agree now (pruneExpiredSessions now (ss_live s)) a) as Hp.
    { apply agree_filter; [|done]. intros k e He. simpl. lia. }
    rewrite Hr. split; [done|]. cbn. split; [lia|done].
  - subst ok. unfold writeSessions. destruct (ss_writing s) as [|c [|c' l]] eqn:Ew; cbn in Hw; [| |lia].
    + rewrite lookup_nil. unfold sessions_ok. rewrite Ew. by split_and!.
    + destruct i as [|i]; [cbn; split; [done|split; [cbn; lia|done]]|].
      assert ([c] !! S i = None) as -> by (by destruct i). unfold sessions_ok. rewrite Ew. by split_and!.
  - destruct Hr as [Hs Hw']. specialize (Hf' Hs). rewrite Hw' in Hf'. cbn in Hf'. split; cbn; [|split; [lia|by intros _]].
    unfold loadSessions. destruct (ss_file s) as [m|]; cbn in Hf'; [|done]. apply agree_filter; [|done]. intros k e He. simpl. lia.
Qed.
Lemma session_run_ok t l s a :
  orderly s t l → sessions_ok t s a →
  sessions_ok (List.last (map fst l) t) (foldl session_step s l) (foldl spec_step a l).
Proof.
  revert t s a. induction l as [|[now ev] l IH]; intros t s a Ho Hs; [done|]. destruct Ho as (Ht & Hr & Ho).
  specialize (IH now _ _ Ho (session_step_ok t now ev s a Ht Hr Hs)). cbn [foldl map fst].
  replace (List.last (now :: map fst l) t) with (List.last (map fst l) now); [done|].
  clear. revert now. destruct (map fst l) as [|x l']; [done|]. intros now. revert x.
  induction l' as [|y l' IH]; intros x; [done|]. apply (IH y).
Qed.
End Runs.

(** C39: For an orderly run: the clock does not go back, a save copies the table when no other is
    being written, writes succeed, and a restart finds no save outstanding.  Then a request passes
    the guard exactly when its cookie holds a token that a login with the administrator's credentials
    issued less than seven days ago and no logout has revoked since, whatever was pruned, saved and
    read back in between.  (A restart before a logout is saved, or a save overtaken by an older
    copy, brings a session back.) *)
Theorem session_guard_exact Sum256 admin l now token accept contentType :
  orderly Sum256 admin no_sessions 0 l → List.last (map fst l) 0 ≤ now →
  DashboardAuthMiddleware (session_run Sum256 admin l) now (Some token) accept contentType = Passes ↔
  live_at (spec_run Sum256 admin l) now token.
Proof.
  intros Ho Hn. destruct (session_run_ok Sum256 admin 0 l no_sessions ∅ Ho) as [Hl _]; [split; [done|split; [cbn; lia|done]]|].
  specialize (Hl now token Hn). fold (session_run Sum256 admin l) in Hl. fold (spec_run Sum256 admin l) in Hl. rewrite <- Hl.
  unfold DashboardAuthMiddleware, isValidDashSession, isValidDashSessionToken, live_at.
  destruct (ss_live (session_run Sum256 admin l) !! token) as [exp|].
  - destruct (Z.ltb_spec now exp); [split; [by eexists|done]|].
    split; [by case_match|]. intros (e & [= <-] & ?). lia.
  - split; [by case_match|]. by intros (e & ? & ?).
Qed.

(** What the specification says of a token: a login issued it, and no logout came after. *)
Lemma spec_live_login Sum256 admin l now token :
  live_at (spec_run Sum256 admin l) now token →
  ∃ l1 t bs r user pass l2, l = l1 ++ (t, SLogin (Some bs) r) :: l2 ∧ token = EncodeToString bs ∧ now < t + dashSessionTTL ∧
    (if is_json r then lr_json r else Some (lr_form r)) = Some (user, pass) ∧
    secureStringEquals Sum256 user admin.1 = true ∧ secureStringEquals Sum256 pass admin.2 = true ∧
    ∀ t', (t', SLogout (Some token)) ∉ l2.
Proof.
  unfold spec_run. induction l as [|[t ev] l IH] using rev_ind; [intros (e & He & _); cbn in He; by rewrite lookup_empty in He|].
  rewrite foldl_app. cbn [foldl]. intros Hlive.
  assert (live_at (foldl (spec_step Sum256 admin) ∅ l) now token → (∀ t', (t', SLogout (Some token)) ≠ (t, ev)) →
    ∃ l1 t0 bs r user pass l2, l ++ [(t, ev)] = l1 ++ (t0, SLogin (Some bs) r) :: l2 ∧ token = EncodeToString bs ∧ now < t0 + dashSessionTTL ∧
    (if is_json r then lr_json r else Some (lr_form r)) = Some (user, pass) ∧
    secureStringEquals Sum256 user admin.1 = true ∧ secureStringEquals Sum256 pass admin.2 = true ∧
    ∀ t', (t', SLogout (Some token)) ∉ l2) as Hkeep.
  { intros Hl Hne. destruct (IH Hl) as (l1 & t0 & bs & r & user & pass & l2 & -> & ? & ? & ? & ? & ? & Hno).
    exists l1, t0, bs, r, user, pass, (l2 ++ [(t, ev)]). split_and!; [by rewrite <- app_assoc|done..|].
    intros t'. rewrite elem_of_app, list_elem_of_singleton. intros [?|?]; [by apply (Hno t')|by apply (Hne t')]. }
  destruct ev as [drawn r|cookie| |i ok|]; [| |by apply Hkeep..].
  - cbn in Hlive. destruct drawn as [bs|]; [|by apply Hkeep].
    destruct (if is_json r then lr_json r else Some (lr_form r)) as [[user pass]|] eqn:Ec; [|by apply Hkeep].
    destruct (secureStringEquals Sum256 user admin.1 && _) eqn:Ea; [|by apply Hkeep]. apply andb_prop in Ea as [Eu Ep].
    destruct (decide (token = EncodeToString bs)) as [->|Hne].
    + destruct Hlive as (e & He & Hlt). rewrite lookup_insert_eq in He. injection He as <-.
      exists l, t, bs, r, user, pass, []. split_and!; [done..|]. intros t' Hin. by apply elem_of_nil in Hin.
    + apply Hkeep; [|done]. destruct Hlive as (e & He & Hlt). rewrite lookup_insert_ne in He by done. by exists e.
  - cbn in Hlive. destruct cookie as [tok|]; [|by apply Hkeep].
    destruct (decide (tok = token)) as [->|Hne].
    + destruct Hlive as (e & He & _). by rewrite lookup_delete_eq in He.
    + apply Hkeep; [|congruence]. destruct Hlive as (e & He & Hlt). rewrite lookup_delete_ne in He by done. by exists e.
Qed.

Lemma login_ext accepts accepts' secure drawn now s r :
  (∀ user pass, accepts user pass = accepts' user pass) → login accepts secure drawn now s r = login accepts' secure drawn now s r.
Proof.
  intros Ha. unfold login. destruct (is_json r); [destruct (lr_json r) as [[user pass]|]|destruct (lr_form r) as [user pass]]; by rewrite ?Ha.
Qed.
Lemma secureStringEquals_eqb Sum256 x y : (∀ x y, Sum256 x = Sum256 y → x = y) → secureStringEquals Sum256 x y = (x =s? y).
Proof.
  intros Hinj. unfold secureStringEquals. destruct (String.eqb_spec x y) as [->|Hne]; [by apply bool_decide_eq_true_2|].
  apply bool_decide_eq_false_2. eauto.
Qed.
(** The two servers' login handlers agree, but for how they read the forwarded protocol, when the
    digests tell the credentials apart. *)
Theorem logins_agree Sum256 admin drawn now s r :
  (∀ x y, Sum256 x = Sum256 y → x = y) → ToLower (lr_ForwardedProto r) = lr_ForwardedProto r →
  NewDashboardLoginPostHandler Sum256 admin drawn now s r = HandleFastDashboardLoginPost admin drawn now s r.
Proof.
  intros Hinj Hlow. unfold NewDashboardLoginPostHandler, HandleFastDashboardLoginPost.
  assert (EqualFold (lr_ForwardedProto r) "https" = (lr_ForwardedProto r =s? "https")) as -> by (unfold EqualFold; by rewrite Hlow).
  apply login_ext. intros user pass. rewrite !secureStringEquals_eqb by done. by rewrite negb_orb, !negb_involutive.
Qed.

(** ** Concrete runs *)
Definition plain_digest (s : string) : list Z := map (λ a, Z.of_N (N_of_ascii a)) (list_ascii_of_string s).
Definition sample_login : loginRequest :=
  {| lr_ContentType := "application/json"; lr_json := Some ("admin", "s3cret"); lr_form := ("", ""); lr_TLS := true; lr_ForwardedProto := "" |}.
Definition sample_sessions : list (Z * session_event) := [(100, SLogin (Some [10; 255]) sample_login); (101, SSave); (102, SWrite 0 true); (200, SRestart)].

Lemma session_guard_witness :
  DashboardAuthMiddleware (session_run plain_digest ("admin", "s3cret") sample_sessions) 300 (Some "0aff") "" "" = Passes ↔
  live_at (spec_run plain_digest ("admin", "s3cret") sample_sessions) 300 "0aff".
Proof.
  apply (session_guard_exact plain_digest ("admin", "s3cret") sample_sessions 300 "0aff" "" "").
  - cbn [orderly sample_sessions]. split_and!; [lia|exact I|lia|reflexivity|lia|reflexivity|lia|split; reflexivity|exact I].
  - vm_compute. discriminate.
Defined.
Example sample_session_passes :
  DashboardAuthMiddleware (session_run plain_digest ("admin", "s3cret") sample_sessions) 300 (Some "0aff") "" "" = Passes.
Proof. vm_compute. reflexivity. Qed.

(** A restart before the save of a logout has run brings the session back. *)
Theorem logout_lost_by_restart :
  let l := [(100, SLogin (Some [10; 255]) sample_login); (101, SSave); (101, SWrite 0 true); (102, SLogout (Some "0aff")); (103, SRestart)] in
  DashboardAuthMiddleware (session_run plain_digest ("admin", "s3cret") l) 300 (Some "0aff") "" "" = Passes.
Proof. vm_compute. reflexivity. Qed.

(** Two saves overlap: the copy taken before the logout is written last, and a restart with no save
    outstanding brings the session back. *)
Theorem logout_lost_by_overlap :
  let l := [(100, SLogin (Some [10; 255]) sample_login); (101, SSave); (102, SLogout (Some "0aff")); (103, SSave);
            (104, SWrite 1 true); (105, SWrite 0 true); (106, SRestart)] in
  DashboardAuthMiddleware (session_run plain_digest ("admin", "s3cret") l) 300 (Some "0aff") "" "" = Passes.
Proof. vm_compute. reflexivity. Qed.
