(* ===== verification/DashSpec.v ===== *)
(** * The dashboard's stores at work

    The theorems of [DashStore] for the records of [DashEntities]: what a store holds after any
    sequence of requests, with concrete runs; the kinds whose handlers are their own, partners and
    reports; a list that writes a negative figure into a stored record; and a run in which two saves
    overlap and a restart loses a record. *)
From S2P Require Import Prelude GoStrings GoFloat Order VideoStats DashStore DashEntities DashReports.

(** ** The kinds with handlers of their own
    Partners: [List] overlays live figures, through the stored records when there are no masters, and
    [Patch] toggles a flag.  Reports: [Push] and [BulkPush] create, and
    the pipeline's [recordBidReport] calls [create] with an entry of its own, unvalidated.  The other twelve kinds have the
    generic handlers. *)
Inductive partner_request (M P : Type) :=
| PList (nowUnix : Z) (masters : option (list M)) (stats : option liveStats)
| PPatch (now : Z) (id : string) (body : result string (option bool))
| PCreate (drawn : list Z) (vnow now : Z) (body : result string P)
| PGet (id : string)
| PUpdate (vnow now : Z) (id : string) (body : result string P)
| PDelete (id : string).
Arguments PList {M P}. Arguments PPatch {M P}. Arguments PCreate {M P}. Arguments PGet {M P}. Arguments PUpdate {M P}. Arguments PDelete {M P}.
Inductive report_request :=
| RepList (q : reportQuery)
| RepPush (authorized : bool) (drawn : list Z) (vnow now : Z) (body : result string BidReportEntry)
| RepBulk (authorized : bool) (draws : nat → list Z) (clock : nat → Z) (body : result string (list (option BidReportEntry)))
| RepRecord (drawn : list Z) (now : Z) (e : BidReportEntry)
| RepGet (id : string)
| RepDelete (id : string).

Section Kinds.
Context `{MapRange} `{GoSort}.

Definition partner_serve {M P : Type} `{entity P} (ops : partner_ops M P) (set_active : bool → P → P) (notFound : string)
    (s : entityStore P) (r : partner_request M P) : entityStore P * reply P :=
  match r with
  | PList nowUnix masters stats => PartnerList ops nowUnix s masters stats
  | PPatch now id body => Patch set_active notFound now s id body
  | PCreate drawn vnow now body => createHandle drawn vnow now s body
  | PGet id => (s, getHandle notFound s id)
  | PUpdate vnow now id body => updateHandle notFound vnow now s id body
  | PDelete id => deleteHandle notFound s id
  end.
Definition report_serve (s : entityStore BidReportEntry) (r : report_request) : entityStore BidReportEntry * reply BidReportEntry :=
  match r with
  | RepList q => (s, ReportList s q)
  | RepPush authorized drawn vnow now body => Push authorized drawn vnow now s body
  | RepBulk authorized draws clock body => BulkPush authorized draws clock s body
  | RepRecord drawn now e => let '(s, e) := es_create drawn now s e in (s, Entry 201 e)
  | RepGet id => (s, getHandle "report not found" s id)
  | RepDelete id => deleteHandle "report not found" s id
  end.

(** Live figures that the validation of a partner would accept. *)
Definition figures_ok (vs : VideoStats) : Prop :=
  0 ≤ vs_AdRequests vs ∧ 0 ≤ vs_Opportunities vs ∧ 0 ≤ vs_Impressions vs ∧ 0 ≤ vs_Completes vs ∧
  (vs_Revenue vs <f? f0) = false ∧ (vs_PublisherRevenue vs <f? f0) = false.
Definition partner_ok {M P : Type} (r : partner_request M P) : Prop :=
  match r with
  | PList _ _ (Some snap) => map_Forall (λ _, figures_ok) (ls_by snap)
  | PCreate _ vnow _ _ | PUpdate vnow _ _ _ => vnow ≠ zeroTime
  | _ => True
  end.
Definition report_ok (r : report_request) : Prop :=
  match r with
  | RepPush _ _ vnow _ _ => vnow ≠ zeroTime
  | RepBulk _ _ clock _ => ∀ i, clock i ≠ zeroTime
  | RepRecord _ _ e => ∀ now, validate now e = Ok e
  | _ => True
  end.

(** *** Figures laid over a valid record leave it valid *)
Lemma checked_norm {E : Type} checks (norm : Z → E → E) e :
  (∀ now, checked_entity checks (norm now e) = Ok e) ↔ (∀ now, norm now e = e) ∧ first_message (checks e) = None.
Proof.
  split.
  - intros Hv. assert (∀ now, norm now e = e) as Hn by (intros now; by destruct (checked_entity_Ok _ _ _ (Hv now))).
    split; [done|]. destruct (checked_entity_Ok _ _ _ (Hv 0)) as [_ Hm]. by rewrite Hn in Hm.
  - intros [Hn Hm] now. rewrite Hn. by apply checked_entity_None.
Qed.
Ltac lay_figures e norm checks :=
  intros (F1 & F2 & F3 & F4 & F5 & F6) [Hid Hv]; apply checked_norm in Hv as [Hn Hm];
  split; [exact Hid|]; apply checked_norm; split;
  [intros now; specialize (Hn now); destruct e; unfold norm in *; cbn in *; injection Hn as E1 E2; congruence
  |pose proof (proj1 (first_message_None _) Hm) as Hall; apply first_message_None; intros b m; unfold checks in *;
   rewrite !elem_of_cons, elem_of_nil; cbn;
   intros Hin; repeat destruct Hin as [[= -> ->]|Hin]; try done; try (by apply Z.ltb_ge); eapply Hall; cbn; rewrite !elem_of_cons; eauto 12].
Lemma supply_lay_ok vs day hour id e : figures_ok vs → entry_ok id e → entry_ok id (po_lay supply_ops vs day hour e).
Proof. lay_figures e sp_norm sp_checks. Qed.
Lemma demand_lay_ok vs day hour id e : figures_ok vs → entry_ok id e → entry_ok id (po_lay demand_ops vs day hour e).
Proof. lay_figures e dp_norm dp_checks. Qed.

(** Figures that may be laid over the records of a store. *)
Definition lays_ok {M P : Type} `{entity P} (ops : partner_ops M P) : Prop :=
  ∀ vs day hour id e, figures_ok vs → entry_ok id e → entry_ok id (po_lay ops vs day hour e).
Lemma partner_serve_ok {M P : Type} `{EntityLaws P} (ops : partner_ops M P) set_active notFound s r :
  lays_ok ops → (∀ b id e, entry_ok id e → entry_ok id (set_active b e)) → partner_ok r →
  store_ok (es_entries s) → store_ok (es_entries (partner_serve ops set_active notFound s r).1).
Proof.
  intros Hlay Hset Hr Hs. destruct r as [nowUnix masters stats|now id body|drawn vnow now body|id|vnow now id body|id]; cbn [partner_serve].
  - unfold PartnerList. destruct (listEntries ops masters (es_list s)) as [entries own]. destruct stats as [snap|]; [|exact Hs].
    destruct own; [|exact Hs]. cbn. intros id e He. rewrite lookup_fmap in He.
    destruct (es_entries s !! id) as [e0|] eqn:Ee; [|done]. injection He as <-. unfold overlay.
    destruct (statsWindowSeconds _ _) as [day hour]. destruct (ls_by snap !! po_id ops e0) as [vs|] eqn:Ev; [|by apply Hs].
    apply Hlay; [by eapply Hr|by apply Hs].
  - unfold Patch. destruct body as [[want|]|]; [|done..]. pose proof (serve_ok notFound s (RPatch now id (set_active want)) (Hset want) Hs) as Hok.
    cbn [serve] in Hok. by destruct (modifyFn now s id (set_active want)) as [[s' e]|].
  - exact (serve_ok notFound s (RCreate drawn vnow now body) Hr Hs).
  - exact Hs.
  - exact (serve_ok notFound s (RUpdate vnow now id body) Hr Hs).
  - exact (serve_ok notFound s (RDelete id) I Hs).
Qed.
Lemma bulk_ok i draws clock s entries created :
  (∀ i, clock i ≠ zeroTime) → store_ok (es_entries s) → store_ok (es_entries (bulk_loop i draws clock s entries created).1).
Proof.
  intros Hc. revert i s created. induction entries as [|[e|] entries IH]; intros i s created Hs; cbn [bulk_loop]; [exact Hs| |exact Hs].
  destruct (validate (clock i) e) as [e'|m] eqn:Ev; [|exact Hs].
  pose proof (es_create_ok (draws i) (clock i) (clock i) s e e' (Hc i) Ev Hs) as Hok.
  destruct (es_create (draws i) (clock i) s e') as [s' e'']. by apply IH.
Qed.
Lemma report_serve_ok s r : report_ok r → store_ok (es_entries s) → store_ok (es_entries (report_serve s r).1).
Proof.
  intros Hr Hs. destruct r as [q|a drawn vnow now body|a draws clock body|drawn now e|id|id]; cbn [report_serve]; [exact Hs| | | |exact Hs|].
  - unfold Push. destruct a; [|exact Hs]. exact (serve_ok "" s (RCreate drawn vnow now body) Hr Hs).
  - unfold BulkPush. destruct a; [|exact Hs]. destruct body; [by apply bulk_ok|exact Hs].
  - exact (es_create_ok drawn 1 now s e e ltac:(done) (Hr 1) Hs).
  - exact (serve_ok "report not found" s (RDelete id) I Hs).
Qed.
(** A property that every request keeps holds after any requests. *)
Lemma after_requests {S R : Type} (step : S → R → S) (ok : R → Prop) (I : S → Prop) :
  (∀ s r, ok r → I s → I (step s r)) → ∀ rs s, Forall ok rs → I s → I (foldl step s rs).
Proof. intros Hstep rs. induction rs as [|r rs IH]; intros s Hrs Hs; [done|]. apply Forall_cons in Hrs as [Hr Hrs]. by apply IH; [|apply Hstep]. Qed.
End Kinds.

(** C40: Whatever requests a store serves, every record it holds carries the id it is stored under and
    passes validation unchanged: bad input never gets in, and validating a stored record again, as
    an update does, does not alter it.  For a kind with the generic handlers (list, create, get,
    update, delete and in-place changes that keep records valid); for reports, pushed singly and
    in batches, provided those the pipeline records itself, which are not validated, are valid; and for supply and demand partners with their own list and toggle, provided no live figure that
    a list overlays is negative: without masters a list writes them into the stored records, and a
    negative one makes the record invalid.  The clock of a request is not Go's zero time. *)
Theorem stored_records_valid {E : Type} `{EntityLaws E} `{MapRange} `{GoSort} :
  (∀ notFound s rs, store_ok (es_entries s) → Forall request_ok rs →
     let s' := foldl (λ s r, (serve notFound s r).1) s rs in
     ∀ id (e : E), es_entries s' !! id = Some e → getID e = id ∧ ∀ now, validate now e = Ok e) ∧
  (∀ s rs, store_ok (es_entries s) → Forall report_ok rs →
     let s' := foldl (λ s r, (report_serve s r).1) s rs in
     ∀ id (e : BidReportEntry), es_entries s' !! id = Some e → getID e = id ∧ ∀ now, validate now e = Ok e) ∧
  (∀ s rs, store_ok (es_entries s) → Forall partner_ok rs →
     let s' := foldl (λ s r, (partner_serve supply_ops with_active_sp "supply partner not found" s r).1) s rs in
     ∀ id (e : SupplyPartner), es_entries s' !! id = Some e → getID e = id ∧ ∀ now, validate now e = Ok e) ∧
  (∀ s rs, store_ok (es_entries s) → Forall partner_ok rs →
     let s' := foldl (λ s r, (partner_serve demand_ops with_active_dp "demand partner not found" s r).1) s rs in
     ∀ id (e : DemandPartner), es_entries s' !! id = Some e → getID e = id ∧ ∀ now, validate now e = Ok e).
Proof.
  split_and!; intros.
  - apply (after_requests (λ s r, (serve notFound s r).1) request_ok (λ s, store_ok (es_entries s)) (λ s r, serve_ok notFound s r) rs s); done.
  - apply (after_requests (λ s r, (report_serve s r).1) report_ok (λ s, store_ok (es_entries s)) report_serve_ok rs s); done.
  - apply (after_requests _ partner_ok (λ s, store_ok (es_entries s))
      (λ s r, partner_serve_ok supply_ops with_active_sp "supply partner not found" s r supply_lay_ok (λ b id e, proj1 (toggle_ok b id e (po_fresh demand_ops)))) rs s); done.
  - apply (after_requests _ partner_ok (λ s, store_ok (es_entries s))
      (λ s r, partner_serve_ok demand_ops with_active_dp "demand partner not found" s r demand_lay_ok (λ b id e, proj2 (toggle_ok b id (po_fresh supply_ops) e))) rs s); done.
Qed.

Definition sample_publisher (name : string) : Publisher :=
  {| pub_meta := zero_meta; pub_Name := name; pub_Domain := "example.com"; pub_ContactEmail := ""; pub_Status := "on" |}.
Definition publisher_requests : list (request Publisher) :=
  [RCreate [1] 9 10 (Ok (sample_publisher " First ")); RCreate [2] 19 20 (Ok (sample_publisher "  ")); RUpdate 29 30 "01" (Ok (sample_publisher "Second"))].
Definition no_publishers : entityStore Publisher := {| es_entries := ∅; es_saves := 0 |}.
(** A partner is created and the list lays the live figures over it. *)
Definition partner_requests (revenue : float64) : list (partner_request Publisher SupplyPartner) :=
  [PCreate [3] 9 10 (Ok sample_partner); PPatch 15 "03" (Ok (Some false));
   PList 3600 None (Some {| ls_by := {["03" := {| vs_AdRequests := 7200; vs_Opportunities := 40; vs_Impressions := 30; vs_Completes := 20; vs_VCR := f0;
                                              vs_Revenue := revenue; vs_PublisherRevenue := f0 |}]};
                            ls_lastDay := None; ls_lastHour := None; ls_StartedAt := 0 |})].
Definition partners_after `{MapRange} `{GoSort} (revenue : float64) : entityStore SupplyPartner :=
  foldl (λ s r, (partner_serve supply_ops with_active_sp "supply partner not found" s r).1) {| es_entries := ∅; es_saves := 0 |} (partner_requests revenue).
Lemma stored_records_witness : let H := canonical_range in let H0 := stable_go_sort in
  (∃ e, es_entries (foldl (λ s r, (serve "publisher not found" s r).1) no_publishers publisher_requests) !! "01" = Some e ∧
    getID e = "01" ∧ validate 40 e = Ok e) ∧
  (∃ e, es_entries (partners_after f1) !! "03" = Some e ∧ sp_Impressions e = 30 ∧ validate 40 e = Ok e).
Proof.
  intros H H0.
  destruct (@stored_records_valid Publisher _ _ canonical_range stable_go_sort) as (Hpub & _ & Hsup & _). split.
  - assert (is_Some (es_entries (foldl (λ s r, (serve "publisher not found" s r).1) no_publishers publisher_requests) !! "01"))
      as [e He] by (vm_compute; eexists; reflexivity).
    exists e. split; [exact He|].
    destruct (Hpub "publisher not found" no_publishers publisher_requests) with (id := "01") (e := e) as [H1 H2];
      [apply map_Forall_empty|repeat constructor; discriminate|exact He|split; [exact H1|apply H2]].
  - destruct (es_entries (partners_after f1) !! "03") as [e|] eqn:He; [|vm_compute in He; discriminate].
    exists e. split; [reflexivity|]. split; [vm_compute in He; injection He as <-; reflexivity|].
    refine (proj2 (Hsup {| es_entries := ∅; es_saves := 0 |} (partner_requests f1) _ _ "03" e He) 40).
    + apply map_Forall_empty.
    + apply Forall_cons_2; [discriminate|]. apply Forall_cons_2; [exact I|]. apply Forall_cons_2; [|apply Forall_nil_2].
      apply map_Forall_singleton. repeat split; try (vm_compute; discriminate); vm_compute; reflexivity.
Defined.
(** A negative figure is written into the stored record, which no longer passes validation. *)
Theorem negative_figure_stored : let H := canonical_range in let H0 := stable_go_sort in
  (λ e, validate 40 e) <$> es_entries (partners_after (flit (-1) 1)) !! "03" = Some (Err "gross_revenue must be >= 0").
Proof. vm_compute. reflexivity. Qed.
Example publisher_run : let H := canonical_range in let H0 := stable_go_sort in
  let s := foldl (λ s r, (serve "publisher not found" s r).1) no_publishers publisher_requests in
  (λ p, (pub_Name p, pub_Status p, m_CreatedAt (pub_meta p), m_UpdatedAt (pub_meta p))) <$> es_entries s !! "01" =
    Some ("Second", "active", 10, 30) ∧ size (es_entries s) = 1%nat.
Proof. split; vm_compute; reflexivity. Qed.

Lemma restart_restores_witness : let H := canonical_range in let H0 := stable_go_sort in
  ∃ st, disk_run "publisher not found" fresh_disk [AServe (RCreate [1] 9 10 (Ok (sample_publisher "First"))); ARead; AWrite 0] = Some st ∧
    restart st = Some (es_entries (sv_store st)).
Proof.
  eexists. split; [reflexivity|].
  apply (@restart_restores Publisher _ _ canonical_range stable_go_sort "publisher not found"
    [AServe (RCreate [1] 9 10 (Ok (sample_publisher "First"))); ARead; AWrite 0]).
  - repeat constructor. discriminate.
  - vm_compute. reflexivity.
  - reflexivity.
  - split; reflexivity.
Defined.

(** Two creations, each with its save; the first save has read the map before the second creation
    and writes after the second save: all saves are done, and a restart has lost a publisher. *)
Theorem overlapping_saves_lose_record : let H := canonical_range in let H0 := stable_go_sort in
  ∃ st, disk_run "publisher not found" fresh_disk
      [AServe (RCreate [1] 9 10 (Ok (sample_publisher "First"))); ARead; AServe (RCreate [2] 19 20 (Ok (sample_publisher "Second"))); ARead;
       AWrite 1; AWrite 0] = Some st ∧
    saves_done st ∧ is_Some (es_entries (sv_store st) !! "02") ∧ (m ← restart st; m !! "02") = None.
Proof. eexists. split; [reflexivity|]. split; [by split|]. split; [by eexists|]. vm_compute. reflexivity. Qed.
