(* ===== verification/DashStats.v ===== *)
(** * The numbers of the dashboard (endpoints/dashboard.go [buildDashboardStats])

    The counters of the metrics engine, read and summed per section.  Proved: the bidder table lists
    every adapter once, by name, and the ten on top have the most bids. *)
From S2P Require Import Prelude GoStrings GoFloat Order.

(** The counts of the meters that are read; [RequestStatuses] by request type and status. *)
Record metricCounts := {
  mc_ImpMeter : Z; mc_ImpsTypeBanner : Z; mc_ImpsTypeVideo : Z; mc_ImpsTypeNative : Z; mc_ImpsTypeAudio : Z;
  mc_NoCookieMeter : Z; mc_CookieSyncMeter : Z; mc_SetUidMeter : Z;
  mc_RequestStatuses : gmap string (gmap string Z);
  mc_ConnectionCounter : Z; mc_ConnectionAcceptErrorMeter : Z; mc_ConnectionCloseErrorMeter : Z;
  mc_PrivacyTCFRequestVersion : gmap string Z; mc_PrivacyCCPARequest : Z; mc_PrivacyCCPARequestOptOut : Z; mc_PrivacyCOPPARequest : Z; mc_PrivacyLMTRequest : Z;
  mc_StoredReqCacheMeter : gmap string Z; mc_StoredImpCacheMeter : gmap string Z; mc_AccountCacheMeter : gmap string Z
}.
Record adapterCounts := { ac_GotBids : Z; ac_NoBid : Z; ac_Errors : gmap string Z; ac_MeanRequestTime : float64 }.

Record DashboardImpStats := { di_Total : Z; di_Banner : Z; di_Video : Z; di_Native : Z; di_Audio : Z }.
Record DashboardRequestStats := { dr_Auction : Z; dr_AMP : Z; dr_Video : Z; dr_CookieSync : Z; dr_SetUID : Z; dr_NoCookie : Z }.
Record DashboardConnectionStats := { dc_Active : Z; dc_AcceptErrors : Z; dc_CloseErrors : Z }.
Record DashboardPrivacyStats := { dpv_CCPARequests : Z; dpv_CCPAOptOut : Z; dpv_COPPARequests : Z; dpv_TCFv2Requests : Z; dpv_LMTRequests : Z }.
Record DashboardCacheStats := { dca_StoredReqHits : Z; dca_StoredReqMisses : Z; dca_StoredImpHits : Z; dca_StoredImpMisses : Z; dca_AccountHits : Z; dca_AccountMisses : Z }.
Record DashboardBidderStats := { db_Name : string; db_BidsReceived : Z; db_NoBids : Z; db_Errors : Z; db_AvgResponseMs : float64 }.
Record DashboardStats := {
  ds_Impressions : DashboardImpStats; ds_Requests : DashboardRequestStats; ds_Connections : DashboardConnectionStats; ds_Privacy : DashboardPrivacyStats;
  ds_Cache : DashboardCacheStats; ds_Bidders : list DashboardBidderStats; ds_TopBiddersByBids : list DashboardBidderStats
}.

Definition buildImpStats (gm : metricCounts) : DashboardImpStats :=
  {| di_Total := mc_ImpMeter gm; di_Banner := mc_ImpsTypeBanner gm; di_Video := mc_ImpsTypeVideo gm; di_Native := mc_ImpsTypeNative gm;
     di_Audio := mc_ImpsTypeAudio gm |}.

Section Build.
Context `{MapRange}.
(** [total += meter.Count()] over a map of meters, on 64 bits. *)
Definition sum_counts (m : gmap string Z) : Z := foldl (λ t x, wrap64 (t + x.2)) 0 (map_range m).
Definition count_requests (reqs : DashboardRequestStats) (x : string * gmap string Z) : DashboardRequestStats :=
  let total := sum_counts x.2 in
  let with_ auction amp video := {| dr_Auction := auction; dr_AMP := amp; dr_Video := video; dr_CookieSync := dr_CookieSync reqs; dr_SetUID := dr_SetUID reqs;
                                    dr_NoCookie := dr_NoCookie reqs |} in
  if (x.1 =s? "openrtb2-web") || (x.1 =s? "openrtb2-app") || (x.1 =s? "openrtb2-dooh") then with_ (wrap64 (dr_Auction reqs + total)) (dr_AMP reqs) (dr_Video reqs)
  else if x.1 =s? "amp" then with_ (dr_Auction reqs) total (dr_Video reqs)
  else if x.1 =s? "video" then with_ (dr_Auction reqs) (dr_AMP reqs) total
  else reqs.
Definition buildRequestStats (gm : metricCounts) : DashboardRequestStats :=
  foldl count_requests
    {| dr_Auction := 0; dr_AMP := 0; dr_Video := 0; dr_CookieSync := mc_CookieSyncMeter gm; dr_SetUID := mc_SetUidMeter gm; dr_NoCookie := mc_NoCookieMeter gm |}
    (map_range (mc_RequestStatuses gm)).
Definition buildConnectionStats (gm : metricCounts) : DashboardConnectionStats :=
  {| dc_Active := mc_ConnectionCounter gm; dc_AcceptErrors := mc_ConnectionAcceptErrorMeter gm; dc_CloseErrors := mc_ConnectionCloseErrorMeter gm |}.
Definition buildPrivacyStats (gm : metricCounts) : DashboardPrivacyStats :=
  {| dpv_CCPARequests := mc_PrivacyCCPARequest gm; dpv_CCPAOptOut := mc_PrivacyCCPARequestOptOut gm; dpv_COPPARequests := mc_PrivacyCOPPARequest gm;
     dpv_TCFv2Requests := default 0 (mc_PrivacyTCFRequestVersion gm !! "v2"); dpv_LMTRequests := mc_PrivacyLMTRequest gm |}.
(** The loops that pick the meters named ["hit"] and ["miss"] out of a map. *)
Definition buildCacheStats (gm : metricCounts) : DashboardCacheStats :=
  let count (m : gmap string Z) k := default 0 (m !! k) in
  {| dca_StoredReqHits := count (mc_StoredReqCacheMeter gm) "hit"; dca_StoredReqMisses := count (mc_StoredReqCacheMeter gm) "miss";
     dca_StoredImpHits := count (mc_StoredImpCacheMeter gm) "hit"; dca_StoredImpMisses := count (mc_StoredImpCacheMeter gm) "miss";
     dca_AccountHits := count (mc_AccountCacheMeter gm) "hit"; dca_AccountMisses := count (mc_AccountCacheMeter gm) "miss" |}.

Definition bidder_row (x : string * adapterCounts) : DashboardBidderStats :=
  {| db_Name := x.1; db_BidsReceived := ac_GotBids x.2; db_NoBids := ac_NoBid x.2; db_Errors := sum_counts (ac_Errors x.2);
     db_AvgResponseMs := fdiv (ac_MeanRequestTime x.2) (fofZ 1000000) |}.
Definition more_bids (a b : DashboardBidderStats) : bool := db_BidsReceived b <? db_BidsReceived a.
Definition by_name (a b : DashboardBidderStats) : bool := String.ltb (db_Name a) (db_Name b).
Definition buildBidderStats `{GoSort} (adapters : gmap string adapterCounts) : list DashboardBidderStats * list DashboardBidderStats :=
  let all := sort_Slice more_bids (map bidder_row (map_range adapters)) in
  (sort_Slice by_name all, take 10 all).
Definition buildDashboardStats `{GoSort} (gm : metricCounts) (adapters : gmap string adapterCounts) : DashboardStats :=
  {| ds_Impressions := buildImpStats gm; ds_Requests := buildRequestStats gm; ds_Connections := buildConnectionStats gm; ds_Privacy := buildPrivacyStats gm;
     ds_Cache := buildCacheStats gm; ds_Bidders := (buildBidderStats adapters).1; ds_TopBiddersByBids := (buildBidderStats adapters).2 |}.

(** ** The bidder tables *)
#[local] Instance more_bids_SWO : SWO (λ _, True) more_bids.
Proof. split; unfold more_bids; intros; rewrite ?Z.ltb_lt, ?Z.ltb_ge in *; lia. Qed.
#[local] Instance by_name_SWO : SWO (λ _, True) by_name.
Proof. apply (SWO_pull db_Name (λ _, True) String.ltb). Qed.

(** The table has one row per adapter, by name; the top list is at most ten of its rows, and no row
    left out of it has more bids than one in it. *)
Theorem bidder_tables `{GoSort} adapters :
  let '(all, top) := buildBidderStats adapters in
  all ≡ₚ map bidder_row (map_range adapters) ∧ sorted_by by_name all ∧
  length top = Nat.min 10 (size adapters) ∧
  ∃ rest, all ≡ₚ top ++ rest ∧ ∀ a b, a ∈ top → b ∈ rest → db_BidsReceived b ≤ db_BidsReceived a.
Proof.
  unfold buildBidderStats. set (rows := map bidder_row (map_range adapters)). set (ranked := sort_Slice more_bids rows).
  assert (ranked ≡ₚ rows) as Hp by apply sort_Slice_perm.
  assert (sorted_by more_bids ranked) as Hs by (apply (sort_Slice_sorted (λ _, True)); [apply _|by apply Forall_true]).
  split_and!.
  - by rewrite sort_Slice_perm.
  - apply (sort_Slice_sorted (λ _, True)); [apply _|by apply Forall_true].
  - rewrite length_take, Hp. unfold rows. rewrite length_map, map_range_perm, length_map_to_list. done.
  - exists (drop 10 ranked). split; [by rewrite sort_Slice_perm, take_drop|]. intros a b Ha Hb.
    rewrite <- (take_drop 10 ranked) in Hs. unfold sorted_by in Hs. 
    apply StronglySorted_app in Hs as (Hab & _ & _). specialize (Hab a b Ha Hb). unfold more_bids in Hab. by apply Z.ltb_ge in Hab.
Qed.
End Build.
