(* ===== verification/SyncEndpoints.v ===== *)
(** * The endpoints of user ids: endpoints/cookie_sync.go, endpoints/setuid.go

    [/cookie_sync] turns its request and the account into a request of the chooser and answers with
    the syncs it chose; [/setuid] stores one id in the cookie.  Both read the privacy signals of the
    request, from GPP first and the older fields second.  The GPP parser, the TCF2 libraries and the
    cookie encoding are parameters.  Proved: what reaches the answer of the one and the cookie of the
    other was allowed by the user, the host, the account and the law, and stays within the limits. *)
From S2P Require Import Prelude GoStrings Order ErrorTypes GdprConfig Gdpr Privacy UserSync SyncChooser.

Definition MaxInt : Z := two63 - 1.

(** ** Signals *)
(** [strconv.ParseInt(s, 10, 8)] accepts what [Atoi] does, within 8 bits. *)
Definition ParseInt8 (s : string) : option Z :=
  match Atoi s with Some v => if (-128 <=? v) && (v <=? 127) then Some v else None | None => None end.
Definition StrToInt8Slice (str : string) : option (list Z) :=
  if str =s? "" then Some [] else mapM ParseInt8 (SplitChar "," str).

Definition signal_int (s : Signal) : string := match s with SignalAmbiguous => "-1" | SignalNo => "0" | SignalYes => "1" end.
(** [Err] carries the error; the signal returned with it is not used. *)
Definition extractGDPRSignal (requestGDPR : option Z) (gppSID : list Z) : result string (Signal * string) :=
  match gppSID with
  | _ :: _ => let s := if IsSIDInList gppSID SectionTCFEU2 then SignalYes else SignalNo in Ok (s, signal_int s)
  | [] => match requestGDPR with
          | None => Ok (SignalAmbiguous, "")
          | Some g => match IntSignalParse g with
                      | None => Err "GDPR signal should be integer 0 or 1"
                      | Some s => Ok (s, pretty g)
                      end
          end
  end.
(** The value of a section of a parsed GPP string, if it is there. *)
Definition gpp_section (gpp : list (Z * string)) (sid : Z) : option string :=
  let i := IndexOfSID gpp.*1 sid in if 0 <=? i then Some (default "" (gpp.*2 !! Z.to_nat i)) else None.

(** ** The request of /cookie_sync *)
(** A filter's [bidders] is free JSON: a string, a list of strings ([None] an element that is not
    one), or something else. *)
Inductive filter_bidders := FString (s : string) | FList (l : list (option string)) | FOther.
Record cookieSyncRequestFilter := { sf_Bidders : filter_bidders; sf_Mode : string }.
Record cookieSyncRequest := {
  cr_Bidders : list string; cr_GDPR : option Z; cr_GDPRConsent : string; cr_USPrivacy : string; cr_Limit : option Z; cr_GPP : string; cr_GPPSID : string;
  cr_CooperativeSync : option bool; cr_FilterSettings : option (option cookieSyncRequestFilter * option cookieSyncRequestFilter); cr_Account : string; cr_Debug : bool
}.
(** What the endpoint reads of an account. *)
Record CookieSyncConfig := { cs_DefaultLimit : option Z; cs_MaxLimit : option Z; cs_DefaultCoopSync : option bool; cs_PriorityGroups : list (list string) }.
Record syncAccount := { sa_CookieSync : CookieSyncConfig; sa_Privacy : AccountPrivacy; sa_TCF2 : TCF2ConfigReader; sa_Deprecation : option Z }.
(** And of the host's configuration. *)
Record syncHost := {
  sh_Cookie : HostCookie; sh_GDPRDefault : string; sh_CCPAEnforce : bool; sh_bidders : gset string; sh_CoopByDefault : bool; sh_PriorityGroups : list (list string)
}.

Definition getEffectiveLimit (reqLimit defaultLimit : option Z) : Z :=
  match (match reqLimit with Some l => Some l | None => defaultLimit end) with Some l => if 0 <? l then l else MaxInt | None => MaxInt end.
Definition getEffectiveMaxLimit (maxLimit : option Z) : Z := match maxLimit with Some l => if 0 <? l then l else MaxInt | None => MaxInt end.
(** [setLimit] writes the limit into the request; it is always there afterwards. *)
Definition setLimit (reqLimit : option Z) (cfg : CookieSyncConfig) : Z :=
  let limit := getEffectiveLimit reqLimit (cs_DefaultLimit cfg) in
  let maxLimit := getEffectiveMaxLimit (cs_MaxLimit cfg) in
  if maxLimit <? limit then maxLimit else limit.
Definition setCooperativeSync (coop : option bool) (cfg : CookieSyncConfig) : option bool :=
  match coop with None => cs_DefaultCoopSync cfg | Some b => Some b end.
Definition findPriorityGroups (cfg : CookieSyncConfig) (host : syncHost) : list (list string) :=
  match cs_DefaultCoopSync cfg with Some _ => cs_PriorityGroups cfg | None => sh_PriorityGroups host end.

Definition cookieSyncBidderFilterAllowAll : BidderFilter := UniformBidderFilter BidderFilterModeInclude.
Definition errInvalidBiddersType : string := "invalid bidders type. must either be a string '*' or a string array of bidders".
Definition parseBidderFilter (f : option cookieSyncRequestFilter) : result string BidderFilter :=
  match f with
  | None => Ok cookieSyncBidderFilterAllowAll
  | Some f =>
      let mode := if sf_Mode f =s? "include" then Some BidderFilterModeInclude
                  else if sf_Mode f =s? "exclude" then Some BidderFilterModeExclude else None in
      match mode with
      | None => Err ("invalid filter value '" +:+ sf_Mode f +:+ "'. must be either 'include' or 'exclude'")
      | Some mode =>
          match sf_Bidders f with
          | FString v => if v =s? "*" then Ok (UniformBidderFilter mode)
                         else Err ("invalid bidders value `" +:+ v +:+ "`. must either be '*' or a string array")
          | FList l => match mapM id l with Some bidders => Ok (NewSpecificBidderFilter bidders mode) | None => Err errInvalidBiddersType end
          | FOther => Err errInvalidBiddersType
          end
      end
  end.
Definition parseTypeFilter (settings : option (option cookieSyncRequestFilter * option cookieSyncRequestFilter)) : result string SyncTypeFilter :=
  match settings with
  | None => Ok {| IFrame := cookieSyncBidderFilterAllowAll; Redirect := cookieSyncBidderFilterAllowAll |}
  | Some (iframe, image) =>
      match parseBidderFilter iframe with
      | Err e => Err ("error parsing filtersettings.iframe: " +:+ e)
      | Ok i => match parseBidderFilter image with
                | Err e => Err ("error parsing filtersettings.image: " +:+ e)
                | Ok r => Ok {| IFrame := i; Redirect := r |}
                end
      end
  end.

(** [combineErrors] keeps the account errors recognisable. *)
Inductive syncError := AccountBlocked | AccountInvalid | AccountMalformed | OtherError (msg : string).
Fixpoint combine_loop (errs : list go_error) (strs : list string) : syncError :=
  match errs with
  | [] => OtherError (String.concat " " strs)
  | AccountDisabled _ :: _ => AccountBlocked
  | AcctRequired _ :: _ => AccountInvalid
  | MalformedAcct _ :: _ => AccountMalformed
  | e :: errs => combine_loop errs (strs ++ [message e])
  end.
Definition combineErrors (errs : list go_error) : syncError := combine_loop errs [].

Record UserSyncPrivacy := { um_GDPR : string; um_GDPRConsent : string; um_USPrivacy : string; um_GPP : string; um_GPPSID : string }.

(** ** Permissions of gdpr.go, as the endpoints call them *)
Section Endpoints.
Context (gpp_parse : string → result string (list (Z * string))) (ParseString : string → option VendorConsents).

Definition host_allowed (p : Permissions) : bool * option consent_error :=
  match p with AlwaysAllow | AllowHostCookies _ => (true, None) | PermissionsImpl i => HostCookiesAllowed ParseString i end.
Definition bidder_allowed (p : Permissions) (bidder : string) : bool * option consent_error :=
  match p with AlwaysAllow => (true, None) | AllowHostCookies i | PermissionsImpl i => BidderSyncAllowed ParseString i bidder end.
(** [err == nil && allow] *)
Definition allowed_ok (r : bool * option consent_error) : bool := match r.2 with None => r.1 | Some _ => false end.

(** The GPP container: empty for an empty string. *)
Definition parse_gpp (s : string) : result string (list (Z * string)) := if s =s? "" then Ok [] else gpp_parse s.

(** The CCPA disagreement of two places is an error here.  The text of an error of the number parser
    is not kept. *)
Definition extractPrivacyPolicies (r : cookieSyncRequest) (gdprDefault : string) : result string (UserSyncPrivacy * Signal * list Z) :=
  match StrToInt8Slice (cr_GPPSID r) with
  | None => Err "gpp_sid"
  | Some gppSID =>
      let? x := extractGDPRSignal (cr_GDPR r) gppSID in
      let? gpp := parse_gpp (cr_GPP r) in
      let consent := match gpp_section gpp SectionTCFEU2 with Some c => c | None => cr_GDPRConsent r end in
      if (consent =s? "") && bool_decide (x.1 = SignalYes) then Err "gdpr_consent is required if gdpr=1"
      else if (consent =s? "") && bool_decide (x.1 = SignalAmbiguous) && bool_decide (SignalNormalize x.1 gdprDefault = SignalYes)
      then Err "gdpr_consent is required. gdpr is not specified and is assumed to be 1 by the server. set gdpr=0 to exempt this request"
      else
        let '(usp, mismatch) := SelectCCPAConsent (cr_USPrivacy r) gpp gppSID in
        if (mismatch : bool) then Err "request.us_privacy consent does not match uspv1"
        else Ok ({| um_GDPR := x.2; um_GDPRConsent := consent; um_USPrivacy := usp; um_GPP := cr_GPP r; um_GPPSID := cr_GPPSID r |}, x.1, gppSID)
  end.

(** [usersyncPrivacy] as the chooser's interface. *)
Definition no_ccpa : ParsedPolicy :=
  {| pp_consentSpecified := false; pp_consentOptOutSale := false; pp_noSaleForAllBidders := false; pp_noSaleSpecificBidders := ∅ |}.
Definition usersyncPrivacy (perms : Permissions) (ccpa : ParsedPolicy) (ctl : ActivityControl) (gppSID : list Z) (signal : Signal) : Privacy :=
  {| GDPRAllowsHostCookie := allowed_ok (host_allowed perms);
     GDPRInScope := bool_decide (signal = SignalYes);
     GDPRAllowsBidderSync := λ bidder, allowed_ok (bidder_allowed perms bidder);
     CCPAAllowsBidderSync := λ bidder, negb (CanEnforce (ParsedPolicy_enforcer ccpa) && ShouldEnforce (ParsedPolicy_enforcer ccpa) bidder);
     ActivityAllowsUserSync := λ bidder, Allow ctl ActivitySyncUser {| comp_Type := "bidder"; comp_Name := bidder |} (NewRequestFromPolicies gppSID) |}.

(** [parseRequest]: the body read and decoded, the account fetched, the permissions built for it.
    The account comes back once it is known, with an error too. *)
Definition parseRequest (host : syncHost) (getAccount : string → result (list go_error) syncAccount)
    (permissions : TCF2ConfigReader → RequestInfo → Permissions) (body : option (result string cookieSyncRequest)) :
    option syncAccount * result syncError (SyncRequest * UserSyncPrivacy * bool) :=
  match body with
  | None => (None, Err (OtherError "Failed to read request body"))
  | Some (Err e) => (None, Err (OtherError ("JSON parsing failed: " +:+ e)))
  | Some (Ok r) =>
      match getAccount (if cr_Account r =s? "" then "unknown" else cr_Account r) with
      | Err errs => (None, Err (combineErrors errs))
      | Ok account =>
          let cfg := sa_CookieSync account in
          let limit := setLimit (cr_Limit r) cfg in
          let coop := setCooperativeSync (cr_CooperativeSync r) cfg in
          (Some account,
           match extractPrivacyPolicies r (sh_GDPRDefault host) with
           | Err e => Err (OtherError e)
           | Ok (um, signal, gppSID) =>
               let parsed := ccpa_Parse {| pol_Consent := cr_USPrivacy r; pol_NoSaleBidders := [] |} (sh_bidders host) in
               let um := if (cr_USPrivacy r ≠s? "") && negb (is_ok parsed)
                         then {| um_GDPR := um_GDPR um; um_GDPRConsent := um_GDPRConsent um; um_USPrivacy := ""; um_GPP := um_GPP um; um_GPPSID := um_GPPSID um |}
                         else um in
               let ccpa := if (cr_USPrivacy r ≠s? "") && sh_CCPAEnforce host then match parsed with Ok p => p | Err _ => no_ccpa end else no_ccpa in
               match parseTypeFilter (cr_FilterSettings r) with
               | Err e => Err (OtherError e)
               | Ok tf =>
                   let perms := permissions (sa_TCF2 account)
                                  {| ri_AliasGVLIDs := ∅; ri_Consent := um_GDPRConsent um; ri_GDPRSignal := signal; ri_PublisherID := "" |} in
                   Ok ({| r_Bidders := cr_Bidders r;
                          r_Cooperative := {| coop_Enabled := match coop with Some b => b | None => sh_CoopByDefault host end;
                                              coop_PriorityGroups := findPriorityGroups cfg host |};
                          r_Limit := limit;
                          r_Privacy := usersyncPrivacy perms ccpa (NewActivityControl (Some (sa_Privacy account))) gppSID signal;
                          r_SyncTypeFilter := tf;
                          r_GPPSID := cr_GPPSID r |}, um, cr_Debug r)
               end
           end)
      end
  end.

(** ** The answer of /cookie_sync *)
Record syncAnswer := { sy_Status : string; sy_Bidders : list (string * string * SyncType); sy_Debug : list (string * string) }.
Inductive syncReply := SyncFailed (status : Z) (e : syncError) | SyncAnswered (a : syncAnswer).
(** [GetSync]: [resolve] fills the template of a type, [None] when that fails.  The type chosen has a
    template ([chosen_type_supported] below). *)
Definition GetSync (resolve : standardSyncer → SyncType → UserSyncPrivacy → option string) (s : standardSyncer) (types : list SyncType) (um : UserSyncPrivacy) :
    option (string * SyncType) :=
  match chooseSyncType s types with Err _ => None | Ok t => u ← resolve s t um; Some (u, t) end.
Definition getDebugMessage (s : Status) : string :=
  match s with
  | StatusAlreadySynced => "Already in sync" | StatusBlockedByPrivacy => "Rejected by privacy" | StatusBlockedByUserOptOut => "Status blocked by user opt out"
  | StatusDuplicate => "Duplicate bidder" | StatusUnknownBidder => "Unsupported bidder" | StatusUnconfiguredBidder => "No sync config"
  | StatusRejectedByFilter => "Rejected by request filter" | StatusBlockedByDisabledUsersync => "Sync disabled by config" | _ => ""
  end.
(** The test [biddersSeen[bidder] == struct{}{}] holds for every bidder. *)
Definition debug_line (e : BidderEvaluation) : option (string * string) :=
  if bool_decide (ev_Status e = StatusDuplicate) then Some (ev_Bidder e, getDebugMessage (ev_Status e) +:+ " synced as " +:+ ev_SyncerKey e)
  else if bool_decide (ev_Status e ≠ StatusOK) then Some (ev_Bidder e, getDebugMessage (ev_Status e)) else None.
Definition handleResponse `{MapRange} (resolve : standardSyncer → SyncType → UserSyncPrivacy → option string) (now : Z) (tf : SyncTypeFilter) (co : Cookie)
    (um : UserSyncPrivacy) (s : list (string * standardSyncer)) (evaluated : list BidderEvaluation) (debug : bool) : syncAnswer :=
  {| sy_Status := if HasAnyLiveSyncs now (Some co) then "ok" else "no_cookie";
     sy_Bidders := omap (λ x, y ← GetSync resolve x.2 (ForBidder tf x.1) um; Some (x.1, y.1, y.2)) s;
     sy_Debug := if debug then omap debug_line evaluated else [] |}.
(** [setCookieDeprecationHeader]: the expiry of the cookie it sets. *)
Definition setCookieDeprecationHeader (now : Z) (hasCookie : bool) (account : option syncAccount) : option Z :=
  if hasCookie then None else match account with None => None | Some a => (λ ttl, now + ttl * 1000000000) <$> sa_Deprecation a end.
Definition CookieSyncHandle `{MapRange} `{Shuffler} (host : syncHost) (c : standardChooser) (getAccount : string → result (list go_error) syncAccount)
    (permissions : TCF2ConfigReader → RequestInfo → Permissions) (resolve : standardSyncer → SyncType → UserSyncPrivacy → option string)
    (decode : string → Cookie) (now : Z) (cookies : request_cookies) (hasDeprecation : bool) (body : option (result string cookieSyncRequest)) : option Z * syncReply :=
  let '(account, parsed) := parseRequest host getAccount permissions body in
  (setCookieDeprecationHeader now hasDeprecation account,
   match parsed with
   | Err e => SyncFailed 400 e
   | Ok (request, um, debug) =>
       let cookie := SyncHostCookie now cookies (ReadCookie cookies decode (sh_Cookie host)) (sh_Cookie host) in
       let res := Choose c now request (Some cookie) in
       match res_Status res with
       | StatusBlockedByUserOptOut => SyncFailed 401 (OtherError "User has opted out")
       | StatusBlockedByPrivacy => SyncAnswered (handleResponse resolve now (r_SyncTypeFilter request) cookie um [] (res_BiddersEvaluated res) debug)
       | _ => SyncAnswered (handleResponse resolve now (r_SyncTypeFilter request) cookie um (res_SyncersChosen res) (res_BiddersEvaluated res) debug)
       end
   end).

(** ** /setuid *)
(** Quotation marks in the texts of errors are dropped, and the cause of a malformed consent. *)
(** The query's parameters, each the first value or empty; [su_f] is [None] when it is not given. *)
Record setuidQuery := {
  su_bidder : string; su_uid : string; su_account : string; su_f : option string; su_gpp_sid : string; su_gpp : string; su_gdpr : string; su_gdpr_consent : string
}.
Definition getSyncer (normalize : string → option string) (syncers : gmap string standardSyncer) (bidder : string) : result string (standardSyncer * string) :=
  if bidder =s? "" then Err "bidder query param is required"
  else match normalize bidder with
       | None => Err "The bidder name provided is not supported by Prebid Server"
       | Some name => match syncers !! name with
                      | None => Err "The bidder name provided is not supported by Prebid Server"
                      | Some s => Ok (s, bidder)
                      end
       end.
Definition getResponseFormat (f : option string) (s : standardSyncer) : result string string :=
  let given := default "" f in
  if given =s? "" then Ok match DefaultResponseFormat s with SyncTypeIFrame => "b" | SyncTypeRedirect => "i" | SyncTypeUnknown => "" end
  else if negb (EqualFold given "b") && negb (EqualFold given "i") then Err "f query param is invalid. must be b or i"
  else Ok (ToLower given).
Definition isSyncerPriority (bidder : string) (groups : list (list string)) : bool := existsb (existsb (EqualFold bidder)) groups.

Definition parseSignalFromGppSidStr (sid : string) : result go_error Signal :=
  match StrToInt8Slice sid with
  | None => Err (PlainError "Error parsing gpp_sid")
  | Some [] => Ok SignalAmbiguous
  | Some l => Ok (if IsSIDInList l SectionTCFEU2 then SignalYes else SignalNo)
  end.
Definition parseConsentFromGppStr (gpp : string) : result go_error string :=
  match parse_gpp gpp with Err e => Err (PlainError e) | Ok l => Ok (default "" (gpp_section l SectionTCFEU2)) end.
Definition parseGDPRFromGPP (q : setuidQuery) : result go_error (string * Signal) :=
  let? s := parseSignalFromGppSidStr (su_gpp_sid q) in
  let? c := parseConsentFromGppStr (su_gpp q) in
  Ok (c, s).
(** The older fields: the signal, the consent, and the last warning; an error for a bad signal. *)
Definition parseLegacyGDPRFields (q : setuidQuery) (gppSignal : Signal) (gppConsent : string) : result go_error (Signal * string * option go_error) :=
  let signal :=
    if su_gdpr q =s? "" then Ok (SignalAmbiguous, None)
    else if bool_decide (gppSignal = SignalAmbiguous) then
      if su_gdpr q =s? "0" then Ok (SignalNo, None)
      else if su_gdpr q =s? "1" then Ok (SignalYes, None)
      else Err (PlainError ("the gdpr query param must be either 0 or 1. You gave " +:+ su_gdpr q))
    else Ok (SignalAmbiguous, Some (Warning "'gpp_sid' signal value will be used over the one found in the deprecated 'gdpr' field." 10999)) in
  let? (s, w) := signal in
  if su_gdpr_consent q =s? "" then Ok (s, "", w)
  else if gppConsent =s? "" then Ok (s, su_gdpr_consent q, w)
  else Ok (s, "", Some (Warning "'gpp' value will be used over the one found in the deprecated 'gdpr_consent' field." 10999)).
(** The information with a warning, or an error. *)
Definition extractGDPRInfo (q : setuidQuery) : result go_error (string * Signal * option go_error) :=
  let? gpp := parseGDPRFromGPP q in
  let? legacy := parseLegacyGDPRFields q gpp.2 gpp.1 in
  let '(s, c, w) := legacy in
  let '(consent, signal) := if (gpp.1 =s? "") && bool_decide (gpp.2 = SignalAmbiguous) then (c, s) else gpp in
  if (consent =s? "") && bool_decide (signal = SignalYes) then Err (PlainError "GDPR consent is required when gdpr signal equals 1")
  else Ok (consent, signal, w).
(** [None] lets the request go on. *)
Definition preventSyncsGDPR (perms : Permissions) : option (Z * string) :=
  let '(allowed, err) := host_allowed perms in
  match err with
  | Some (ErrorMalformedConsent c) => Some (400, "gdpr_consent was invalid. malformed consent string " +:+ c)
  | Some _ => Some (400, "No global vendor list was available to interpret this consent string. If this is a new, valid version, it should become available soon.")
  | None => if allowed then None else Some (451, "The gdpr_consent string prevents cookies from being saved")
  end.

(** [strconv.Atoi] with its error dropped: 0 for what is no number, the nearest bound for one that
    does not fit. *)
Definition atoi_or_zero (s : string) : Z :=
  let value (neg : bool) body :=
    if body =s? "" then 0
    else match digits_value 0 body with
         | None => 0
         | Some n => if neg then Z.max (- two63) (- n) else Z.min (two63 - 1) n
         end in
  match s with
  | String a rest => if Ascii.eqb a "-" then value true rest else if Ascii.eqb a "+" then value false rest else value false s
  | EmptyString => 0
  end.
Definition checkChromeBrowserVersion (ua : string) (index len : nat) : bool :=
  let rest := str_drop (index + len) ua in
  let dot := match Index rest "." with Some i => i | None => String.length rest end in
  67 <=? atoi_or_zero (str_take dot rest).
Definition siteCookieCheck (ua : string) : bool :=
  match Index ua "Chrome/" with
  | Some i => checkChromeBrowserVersion ua i 7
  | None => match Index ua "CriOS/" with Some i => checkChromeBrowserVersion ua i 6 | None => false end
  end.

(** What becomes of the request: a status with a text and no cookie, the warning, or the cookie
    written with its attribute and format.  [SetRuns] is a loop that has not ended. *)
Inductive setuidReply :=
| SetRefused (status : Z) (msg : string)
| SetWarned
| SetWrote (encoded : string) (sameSite : bool) (format : string)
| SetPanics
| SetRuns.
Definition SetUID `{MapRange} (turns : nat) (encode : Cookie → option string) (http_size : string → Z) (decode : string → Cookie)
    (normalize : string → option string) (syncers : gmap string standardSyncer) (host : syncHost)
    (getAccount : string → result (list go_error) syncAccount) (permissions : TCF2ConfigReader → RequestInfo → Permissions)
    (now : Z) (cookies : request_cookies) (ua : string) (q : setuidQuery) : setuidReply :=
  let cookie := ReadCookie cookies decode (sh_Cookie host) in
  if negb (AllowSyncs (Some cookie)) then SetRefused 401 ""
  else
    let cookie := SyncHostCookie now cookies cookie (sh_Cookie host) in
    match getSyncer normalize syncers (su_bidder q) with
    | Err e => SetRefused 400 e
    | Ok (syncer, bidderName) =>
        match getResponseFormat (su_f q) syncer with
        | Err e => SetRefused 400 e
        | Ok format =>
            match getAccount (if su_account q =s? "" then "unknown" else su_account q) with
            | Err errs => SetRefused 400 match combineErrors errs with
                                         | AccountBlocked => "account is disabled, please reach out to the prebid server host"
                                         | AccountInvalid => "account must be valid if provided, please reach out to the prebid server host"
                                         | AccountMalformed => "account config is malformed and could not be read"
                                         | OtherError m => m
                                         end
            | Ok account =>
                match StrToInt8Slice (su_gpp_sid q) with
                | None => SetRefused 400 "invalid gpp_sid encoding, must be a csv list of integers"
                | Some gppSID =>
                    if negb (Allow (NewActivityControl (Some (sa_Privacy account))) ActivitySyncUser {| comp_Type := "bidder"; comp_Name := bidderName |}
                               (NewRequestFromPolicies gppSID)) then SetRefused 451 ""
                    else match extractGDPRInfo q with
                    | Err e => SetRefused 400 (message e)
                    | Ok (consent, signal, _) =>
                        let perms := permissions (sa_TCF2 account) {| ri_AliasGVLIDs := ∅; ri_Consent := consent; ri_GDPRSignal := signal; ri_PublisherID := "" |} in
                        match preventSyncsGDPR perms with
                        | Some (status, msg) => SetRefused status msg
                        | None =>
                            let cookie := if su_uid q =s? "" then Unsync cookie (s_key syncer)
                                          else match Sync now cookie (s_key syncer) (su_uid q) with Ok c => c | Err _ => cookie end in
                            let ejector := {| pe_shared := sh_PriorityGroups host; pe_len := length (sh_PriorityGroups host);
                                              pe_SyncersByBidder := s_key <$> syncers;
                                              pe_IsSyncerPriority := isSyncerPriority bidderName (sh_PriorityGroups host) |} in
                            match PrepareCookieForWrite encode http_size (sh_Cookie host) turns cookie ejector with
                            | None => SetRuns
                            | Some (Prepared encoded, _) => SetWrote encoded (siteCookieCheck ua) format
                            | Some (ErrNotPriority _, _) => SetWarned
                            | Some (ErrTooBig, _) => SetRefused 400 "uid that's trying to be synced is bigger than MaxCookieSize"
                            | Some (PreparePanic, _) => SetPanics
                            end
                        end
                    end
                end
            end
        end
    end.
End Endpoints.

(** ** Limits and types *)
Lemma setLimit_bounds lim cfg :
  0 < setLimit lim cfg ∧ setLimit lim cfg ≤ getEffectiveLimit lim (cs_DefaultLimit cfg) ∧ setLimit lim cfg ≤ getEffectiveMaxLimit (cs_MaxLimit cfg).
Proof.
  assert (0 < getEffectiveLimit lim (cs_DefaultLimit cfg)) as H1.
  { unfold getEffectiveLimit. destruct (match lim with Some l => Some l | None => cs_DefaultLimit cfg end) as [l|]; [|done]. by destruct (Z.ltb_spec 0 l). }
  assert (0 < getEffectiveMaxLimit (cs_MaxLimit cfg)) as H2.
  { unfold getEffectiveMaxLimit. destruct (cs_MaxLimit cfg) as [l|]; [|done]. by destruct (Z.ltb_spec 0 l). }
  unfold setLimit. destruct (Z.ltb_spec (getEffectiveMaxLimit (cs_MaxLimit cfg)) (getEffectiveLimit lim (cs_DefaultLimit cfg))); lia.
Qed.
Lemma chooseSyncType_offered s types t : chooseSyncType s types = Ok t → t ∈ types.
Proof.
  unfold chooseSyncType. destruct types as [|first rest]; [done|].
  destruct (filterSupportedSyncTypes s (first :: rest)) as [|t0 l] eqn:Ef; [done|]. case_bool_decide as Hd; intros [= <-]; [|by left].
  rewrite <- Ef in Hd. unfold filterSupportedSyncTypes in Hd. by apply list_elem_of_filter in Hd as [_ Hd].
Qed.
(** For a syncer as [NewSyncer] builds it and types as a filter gives them, the type chosen has a
    template. *)
Lemma chosen_type_supported s tf b t :
  s_defaultSyncType s = resolveDefaultSyncType (s_iframe s) → s_iframe s || s_redirect s = true →
  chooseSyncType s (ForBidder tf b) = Ok t → supports s t = true.
Proof.
  intros Hd Hs. unfold ForBidder. unfold chooseSyncType, filterSupportedSyncTypes. rewrite Hd.
  destruct (Allowed (IFrame tf) b), (Allowed (Redirect tf) b), (s_iframe s) eqn:Ei, (s_redirect s) eqn:Er; try done; cbn;
    repeat (rewrite ?filter_cons, ?filter_nil; cbn; rewrite ?Ei, ?Er; cbn); intros Ht; repeat case_decide; try done;
    repeat (case_bool_decide || simplify_eq/=); cbn; rewrite ?Ei, ?Er; try done; set_solver.
Qed.

(** ** What /cookie_sync answers *)
Section CookieSync.
Context (gpp_parse : string → result string (list (Z * string))) (ParseString : string → option VendorConsents) `{MapRange} `{Shuffler}.
Context (host : syncHost) (c : standardChooser) (getAccount : string → result (list go_error) syncAccount)
  (permissions : TCF2ConfigReader → RequestInfo → Permissions) (resolve : standardSyncer → SyncType → UserSyncPrivacy → option string)
  (decode : string → Cookie) (now : Z) (cookies : request_cookies).
Definition user_cookie : Cookie := SyncHostCookie now cookies (ReadCookie cookies decode (sh_Cookie host)) (sh_Cookie host).

Lemma parseRequest_Ok body account request um debug :
  parseRequest gpp_parse ParseString host getAccount permissions body = (account, Ok (request, um, debug)) →
  ∃ r a signal gppSID perms ccpa, body = Some (Ok r) ∧ account = Some a ∧ r_Limit request = setLimit (cr_Limit r) (sa_CookieSync a) ∧
    perms = permissions (sa_TCF2 a) {| ri_AliasGVLIDs := ∅; ri_Consent := um_GDPRConsent um; ri_GDPRSignal := signal; ri_PublisherID := "" |} ∧
    r_Privacy request = usersyncPrivacy ParseString perms ccpa (NewActivityControl (Some (sa_Privacy a))) gppSID signal.
Proof.
  unfold parseRequest. destruct body as [[r|]|]; try done. destruct (getAccount _) as [a|]; [|done].
  destruct (extractPrivacyPolicies gpp_parse r (sh_GDPRDefault host)) as [[[um0 signal] gppSID]|]; [|done].
  destruct (parseTypeFilter (cr_FilterSettings r)) as [tf|]; [|done]. intros Heq. injection Heq as <- <- <- <-.
  eexists r, a, signal, gppSID, _, _. split_and!; [done..| |reflexivity]. by case_match.
Qed.

Lemma answer_bidders tf co um chosen evaluated debug b url t :
  (b, url, t) ∈ sy_Bidders (handleResponse resolve now tf co um chosen evaluated debug) → ∃ y, (b, y) ∈ chosen ∧ t ∈ ForBidder tf b.
Proof.
  cbn. rewrite list_elem_of_omap. intros ([b' y] & Hin & Hs). unfold GetSync in Hs. cbn in Hs.
  destruct (chooseSyncType y (ForBidder tf b')) as [t'|] eqn:Et; [|done]. cbn in Hs.
  destruct (resolve y t' um) as [u|]; [|done]. cbn in Hs. injection Hs as <- <- <-.
  exists y. split; [done|]. by eapply chooseSyncType_offered.
Qed.
Lemma omap_length {A B} (f : A → option B) (l : list A) : (length (omap f l) ≤ length l)%nat.
Proof. induction l as [|x l IH]; [done|]. cbn. destruct (f x); cbn; lia. Qed.
End CookieSync.

(** C31: Every sync /cookie_sync answers with was allowed: the user has not opted out, GDPR lets the host
    keep cookies and the bidder sync, the account's activity rules allow it, the user has no live id
    of it yet, and its type passes the request's filter; there are no more than the request, the
    account's default and its maximum permit. *)
Theorem cookie_sync_answers_permitted gpp_parse ParseString `{MapRange} `{Shuffler} host c getAccount permissions resolve decode now cookies dep body a :
  (CookieSyncHandle gpp_parse ParseString host c getAccount permissions resolve decode now cookies dep body).2 = SyncAnswered a →
  ∃ r acct request um signal gppSID perms,
    body = Some (Ok r) ∧ (∃ ccpa debug, parseRequest gpp_parse ParseString host getAccount permissions body = (Some acct, Ok (request, um, debug)) ∧
       r_Privacy request = usersyncPrivacy ParseString perms ccpa (NewActivityControl (Some (sa_Privacy acct))) gppSID signal) ∧
    perms = permissions (sa_TCF2 acct) {| ri_AliasGVLIDs := ∅; ri_Consent := um_GDPRConsent um; ri_GDPRSignal := signal; ri_PublisherID := "" |} ∧
    let cookie := user_cookie host decode now cookies in
    AllowSyncs (Some cookie) = true ∧
    Z.of_nat (length (sy_Bidders a)) ≤ getEffectiveLimit (cr_Limit r) (cs_DefaultLimit (sa_CookieSync acct)) ∧
    Z.of_nat (length (sy_Bidders a)) ≤ getEffectiveMaxLimit (cs_MaxLimit (sa_CookieSync acct)) ∧
    ∀ b url t, (b, url, t) ∈ sy_Bidders a →
      t ∈ ForBidder (r_SyncTypeFilter request) b ∧ host_allowed ParseString perms = (true, None) ∧
      ∃ y name, normalizeValidBidderName c b = Some name ∧ bidderSyncerLookup c !! name = Some y ∧ HasLiveSync now (Some cookie) (s_key y) = false ∧
        bidder_allowed ParseString perms name = (true, None) ∧
        Allow (NewActivityControl (Some (sa_Privacy acct))) ActivitySyncUser {| comp_Type := "bidder"; comp_Name := b |} (NewRequestFromPolicies gppSID) = true.
Proof.
  unfold CookieSyncHandle. destruct (parseRequest gpp_parse ParseString host getAccount permissions body) as [account [[[request um] debug]|]] eqn:Ep; [|done].
  destruct (parseRequest_Ok gpp_parse ParseString host getAccount permissions body account request um debug Ep)
    as (r & acct & signal & gppSID & perms & ccpa & Hb & -> & Hl & Hp & Hpriv).
  cbn [snd]. fold (user_cookie host decode now cookies). set (cookie := user_cookie host decode now cookies).
  intros Ha. exists r, acct, request, um, signal, gppSID, perms. split; [done|]. split; [by exists ccpa, debug|]. split; [done|]. cbn zeta.
  assert (∀ x, allowed_ok x = true → x = (true, None)) as Hok by (intros [x1 [x2|]]; [done|]; cbn; by intros ->).
  destruct (setLimit_bounds (cr_Limit r) (sa_CookieSync acct)) as (Hpos & Hl1 & Hl2). unfold Choose in Ha.
  destruct (AllowSyncs (Some cookie)) eqn:Eo; cbn [negb] in Ha; [|done]. split; [done|].
  destruct (GDPRAllowsHostCookie (r_Privacy request)) eqn:Eg; cbn [negb] in Ha.
  - set (cands := choose _ _ _) in Ha. cbn in Ha. injection Ha as <-.
    destruct (choose_loop_ok c now request (Some cookie) cands cands start_choice) as [Hperm _ _ Hlim _ _ _ _]; [apply start_choice_ok|done|].
    rewrite Hl in Hlim. specialize (Hlim Hpos). cbn [sy_Bidders handleResponse].
    pose proof (omap_length (λ x : string * standardSyncer, y ← GetSync resolve x.2 (ForBidder (r_SyncTypeFilter request) x.1) um; Some (x.1, y.1, y.2))
      (ch_chosen (choose_loop c now request (Some cookie) cands start_choice))) as Hlen.
    split_and!; [lia|lia|]. intros b url t Hin.
    apply (answer_bidders resolve now (r_SyncTypeFilter request) cookie um _ [] false) in Hin as (y & Hy & Ht).
    destruct (Hperm b y Hy) as (_ & name & Hn & Hy' & _ & Hlive & Hact & Hgdpr & _). rewrite Hpriv in Eg, Hact, Hgdpr. cbn in Eg, Hact, Hgdpr.
    split; [done|]. split; [by apply Hok|]. exists y, name. split_and!; [done..|by apply Hok|done].
  - cbn in Ha. injection Ha as <-. cbn. split_and!; [lia|lia|]. intros b url t Hin. by apply elem_of_nil in Hin.
Qed.

(** ** What /setuid writes *)
(** The cookie with the id stored or removed, before ids are ejected to fit the size. *)
Definition updated_cookie (now : Z) (cookie : Cookie) (key uid : string) : Cookie :=
  if uid =s? "" then Unsync cookie key else match Sync now cookie key uid with Ok c => c | Err _ => cookie end.

(** A cookie is written only for a user that has not opted out, a known bidder, an account that was
    found, with its activity rules and the host's GDPR permission allowing it; and what is written
    is the cookie with that one id set or cleared, after the ejection loop. *)
Theorem setuid_writes_permitted gpp_parse ParseString `{MapRange} turns encode http_size decode normalize syncers host getAccount permissions now cookies ua q enc ss fmt :
  SetUID gpp_parse ParseString turns encode http_size decode normalize syncers host getAccount permissions now cookies ua q = SetWrote enc ss fmt →
  AllowSyncs (Some (ReadCookie cookies decode (sh_Cookie host))) = true ∧ fmt ∈ ["b"; "i"; ""] ∧
  ∃ name syncer account gppSID consent signal w p end_state,
    normalize (su_bidder q) = Some name ∧ syncers !! name = Some syncer ∧
    getAccount (if su_account q =s? "" then "unknown" else su_account q) = Ok account ∧
    Allow (NewActivityControl (Some (sa_Privacy account))) ActivitySyncUser {| comp_Type := "bidder"; comp_Name := su_bidder q |} (NewRequestFromPolicies gppSID) = true ∧
    StrToInt8Slice (su_gpp_sid q) = Some gppSID ∧
    extractGDPRInfo gpp_parse q = Ok (consent, signal, w) ∧ ¬ (consent = "" ∧ signal = SignalYes) ∧
    host_allowed ParseString (permissions (sa_TCF2 account) {| ri_AliasGVLIDs := ∅; ri_Consent := consent; ri_GDPRSignal := signal; ri_PublisherID := "" |}) = (true, None) ∧
    PrepareCookieForWrite encode http_size (sh_Cookie host) turns (updated_cookie now (user_cookie host decode now cookies) (s_key syncer) (su_uid q)) p =
      Some (Prepared enc, end_state).
Proof.
  unfold SetUID. destruct (AllowSyncs _) eqn:Eo; [|done]. cbn [negb]. fold (user_cookie host decode now cookies).
  unfold getSyncer. destruct (su_bidder q =s? ""); [done|]. destruct (normalize (su_bidder q)) as [name|]; [|done].
  destruct (syncers !! name) as [syncer|] eqn:Ey; [|done]. destruct (getResponseFormat (su_f q) syncer) as [format|] eqn:Ef; [|done].
  destruct (getAccount _) as [account|] eqn:Ea; [|done]. destruct (StrToInt8Slice (su_gpp_sid q)) as [gppSID|] eqn:Es; [|done].
  destruct (Allow _ _ _ _) eqn:Eal; [|done]. cbn [negb]. destruct (extractGDPRInfo gpp_parse q) as [[[consent signal] w]|] eqn:Eg; [|done].
  unfold preventSyncsGDPR. destruct (host_allowed _ _) as [ok [err|]] eqn:Eh; [by destruct err|]. destruct ok; [|done].
  set (p := {| pe_shared := _ |}). fold (updated_cookie now (user_cookie host decode now cookies) (s_key syncer) (su_uid q)).
  destruct (PrepareCookieForWrite _ _ _ _ _ p) as [[[enc'| | |] st]|] eqn:Ew; try done. intros [= <- <- <-].
  split; [done|]. split.
  { unfold getResponseFormat in Ef. destruct (default "" (su_f q) =s? ""); [injection Ef as <-; destruct (DefaultResponseFormat syncer); set_solver|].
    destruct (EqualFold (default "" (su_f q)) "b") eqn:Eb; [apply EqualFold_spec in Eb; injection Ef as <-; rewrite Eb; set_solver|].
    destruct (EqualFold (default "" (su_f q)) "i") eqn:Ei; [|done]. apply EqualFold_spec in Ei. injection Ef as <-. rewrite Ei. set_solver. }
  exists name, syncer, account, gppSID, consent, signal, w, p, st. split_and!; try done.
  intros [-> ->]. unfold extractGDPRInfo in Eg. unfold rbind in Eg. destruct (parseGDPRFromGPP gpp_parse q) as [[gc gs]|]; [|done].
  destruct (parseLegacyGDPRFields q _ _) as [[[s c] w']|]; [|done]. cbn in Eg.
  destruct ((gc =s? "") && bool_decide (gs = SignalAmbiguous)); case_match eqn:Ee; simplify_eq; by rewrite bool_decide_eq_true_2 in Ee.
Qed.

(** ** Concrete requests *)
Definition open_account : syncAccount :=
  {| sa_CookieSync := {| cs_DefaultLimit := Some 5; cs_MaxLimit := Some 1; cs_DefaultCoopSync := None; cs_PriorityGroups := [] |};
     sa_Privacy := {| ap_AllowActivities := None; ap_IPv6Config := 56; ap_IPv4Config := 24 |}; sa_TCF2 := NewTCF2Config no_host no_account; sa_Deprecation := None |}.
Definition open_host : syncHost :=
  {| sh_Cookie := sample_host; sh_GDPRDefault := "0"; sh_CCPAEnforce := true; sh_bidders := ∅; sh_CoopByDefault := false; sh_PriorityGroups := [] |}.
Definition sample_cookie_sync (usp : string) : cookieSyncRequest :=
  {| cr_Bidders := ["a"; "c"]; cr_GDPR := Some 0; cr_GDPRConsent := ""; cr_USPrivacy := usp; cr_Limit := Some 4; cr_GPP := ""; cr_GPPSID := "";
     cr_CooperativeSync := None; cr_FilterSettings := None; cr_Account := ""; cr_Debug := true |}.
Definition sample_answer (usp : string) : syncReply :=
  (@CookieSyncHandle (λ _, Err "") (λ _, None) canonical_range no_shuffle open_host sample_chooser (λ _, Ok open_account) (λ _ _, AlwaysAllow)
     (λ s _ _, Some ("https://sync/" +:+ s_key s)) (λ _, NewCookie) 0 (λ _, None) false (Some (Ok (sample_cookie_sync usp)))).2.
Example sample_answer_is : sample_answer "" = SyncAnswered {| sy_Status := "no_cookie"; sy_Bidders := [("a", "https://sync/k1", SyncTypeIFrame)]; sy_Debug := [] |}.
Proof. vm_compute. reflexivity. Qed.
Lemma cookie_sync_answers_witness : ∃ acct perms,
  AllowSyncs (Some (user_cookie open_host (λ _, NewCookie) 0 (λ _, None))) = true ∧
  1 ≤ getEffectiveMaxLimit (cs_MaxLimit (sa_CookieSync acct)) ∧ host_allowed (λ _, None) perms = (true, None).
Proof.
  pose proof (@cookie_sync_answers_permitted (λ _, Err "") (λ _, None) canonical_range no_shuffle open_host sample_chooser (λ _, Ok open_account) (λ _ _, AlwaysAllow)
     (λ s _ _, Some ("https://sync/" +:+ s_key s)) (λ _, NewCookie) 0 (λ _, None) false (Some (Ok (sample_cookie_sync "")))
     {| sy_Status := "no_cookie"; sy_Bidders := [("a", "https://sync/k1", SyncTypeIFrame)]; sy_Debug := [] |}) as Ht.
  destruct Ht as (r & acct & request & um & signal & gppSID & perms & _ & _ & _ & Ho & _ & Hm & Hall); [vm_compute; reflexivity|].
  exists acct, perms. split; [exact Ho|]. split; [exact Hm|]. exact (proj1 (proj2 (Hall "a" "https://sync/k1" SyncTypeIFrame (list_elem_of_here _ _)))).
Defined.

(** A user's opt-out of sale does not change the answer, though the endpoint parses it into the
    chooser's interface and enforcement is on. *)
Theorem us_privacy_opt_out_syncs : sample_answer "1YYN" = sample_answer "".
Proof. vm_compute. reflexivity. Qed.

(** The filter is looked up by the lowered name when choosing and by the name as written when
    answering: a bidder that is asked for in capitals and included by the filter is chosen, with a
    debug list that has no objection, and is missing from the answer. *)
Definition capital_request : cookieSyncRequest :=
  {| cr_Bidders := ["A"]; cr_GDPR := Some 0; cr_GDPRConsent := ""; cr_USPrivacy := ""; cr_Limit := None; cr_GPP := ""; cr_GPPSID := ""; cr_CooperativeSync := None;
     cr_FilterSettings := Some (Some {| sf_Bidders := FList [Some "A"]; sf_Mode := "include" |}, None); cr_Account := ""; cr_Debug := true |}.
Definition caseless_chooser : standardChooser :=
  {| bidderSyncerLookup := {["a" := sample_syncer "k1"]}; biddersAvailable := ["a"]; normalizeValidBidderName := λ n, Some (ToLower n); biddersKnown := ∅; bidderInfo := ∅ |}.
Theorem filter_case_drops_sync :
  (@CookieSyncHandle (λ _, Err "") (λ _, None) canonical_range no_shuffle open_host caseless_chooser (λ _, Ok open_account) (λ _ _, AlwaysAllow)
     (λ s _ _, Some ("https://sync/" +:+ s_key s)) (λ _, NewCookie) 0 (λ _, None) false (Some (Ok capital_request))).2 =
  SyncAnswered {| sy_Status := "no_cookie"; sy_Bidders := []; sy_Debug := [] |}.
Proof. vm_compute. reflexivity. Qed.

Definition sample_query : setuidQuery :=
  {| su_bidder := "a"; su_uid := "u1"; su_account := ""; su_f := None; su_gpp_sid := ""; su_gpp := ""; su_gdpr := "0"; su_gdpr_consent := "" |}.
Definition sample_setuid : setuidReply :=
  @SetUID (λ _, Err "") (λ _, None) canonical_range 3 sample_encode byte_length (λ _, NewCookie) (λ b, Some b) (bidderSyncerLookup sample_chooser) open_host
    (λ _, Ok open_account) (λ _ _, AlwaysAllow) 0 (λ _, None) "Mozilla/5.0 Chrome/120.0" sample_query.
Lemma setuid_writes_witness : ∃ name syncer account,
  Some "a" = Some name ∧ bidderSyncerLookup sample_chooser !! name = Some syncer ∧ @Ok (list go_error) _ open_account = Ok account ∧ "b" ∈ ["b"; "i"; ""].
Proof.
  pose proof (@setuid_writes_permitted (λ _, Err "") (λ _, None) canonical_range 3 sample_encode byte_length (λ _, NewCookie) (λ b, Some b) (bidderSyncerLookup sample_chooser)
    open_host (λ _, Ok open_account) (λ _ _, AlwaysAllow) 0 (λ _, None) "Mozilla/5.0 Chrome/120.0" sample_query "xx" true "b") as Ht.
  destruct Ht as (_ & Hf & name & syncer & account & gppSID & consent & signal & w & p & st & Hn & Hy & Ha & _); [vm_compute; reflexivity|].
  exists name, syncer, account. split_and!; [exact Hn|exact Hy|exact Ha|exact Hf].
Defined.
