(* ===== verification/Blocking.v ===== *)
(** * The blocking module: modules/prebid/ortb2blocking

    An account's configuration lists advertisers, categories, apps, banner types and creative
    attributes to block, with overrides by bidder and media type.  The hook on a bidder's request
    writes the lists into the request where it has none of its own and remembers them; the hook on
    the bidder's response drops bids that break them, deals excepted.  Analytics tags are left out.
    Proved: the override that applies, what a dropped bid is dropped for, and that no bid that stays
    breaks a list the request was sent with. *)
From S2P Require Import Prelude GoStrings.

(** ** Configuration: config.go *)
(** [None] is an absent JSON list. *)
Record Conditions := { co_Bidders : option (list string); co_MediaTypes : option (list string); co_DealIds : option (list string) }.
Record Override := { ov_IsActive : bool; ov_Ids : list Z; ov_Names : list string }.
Record ActionOverride := { ao_Conditions : Conditions; ao_Override : Override }.
(** [Override.UnmarshalJSON] on the decoded value; other kinds leave it empty. *)
Inductive override_value := VBool (b : bool) | VList (l : list (string + Z + unit)) | VOther.
Definition Override_UnmarshalJSON (v : override_value) : Override :=
  match v with
  | VBool b => {| ov_IsActive := b; ov_Ids := []; ov_Names := [] |}
  | VList l => {| ov_IsActive := false; ov_Ids := omap (λ x, match x with inl (inr z) => Some z | _ => None end) l;
                  ov_Names := omap (λ x, match x with inl (inl s) => Some s | _ => None end) l |}
  | VOther => {| ov_IsActive := false; ov_Ids := []; ov_Names := [] |}
  end.

(** A list to block with the names allowed for deals, and the overrides of each setting.  [Bapp] has
    no setting for unknown values. *)
Record BlockList (A : Type) := {
  bl_Blocked : list A; bl_AllowedForDeals : list A; bl_BlockUnknown : bool; bl_EnforceBlocks : bool;
  bo_Blocked : list ActionOverride; bo_AllowedForDeals : list ActionOverride; bo_BlockUnknown : list ActionOverride; bo_EnforceBlocks : list ActionOverride
}.
Arguments bl_Blocked {A}. Arguments bl_AllowedForDeals {A}. Arguments bl_BlockUnknown {A}. Arguments bl_EnforceBlocks {A}.
Arguments bo_Blocked {A}. Arguments bo_AllowedForDeals {A}. Arguments bo_BlockUnknown {A}. Arguments bo_EnforceBlocks {A}.
Record Battr := {
  ba_Banner : list Z; ba_Video : list Z; ba_Audio : list Z; ba_BannerForDeals : list Z; ba_EnforceBlocks : bool;
  bao_Banner : list ActionOverride; bao_Video : list ActionOverride; bao_Audio : list ActionOverride; bao_BannerForDeals : list ActionOverride;
  bao_EnforceBlocks : list ActionOverride
}.
Record blockConfig := {
  bc_Badv : BlockList string; bc_Bcat : BlockList string; bc_CategoryTaxonomy : Z; bc_Bapp : BlockList string;
  bc_Btype : list Z; bco_Btype : list ActionOverride; bc_Battr : Battr
}.

(** ** Overrides *)
Definition mergeStrings (messages new : list string) : list string := messages ++ filter (λ m, m ≠ "") new.
Definition hasMatches (l : list string) (s : string) : bool := existsb (λ v, EqualFold v s) l.

(** A set of media types, as the sublist of the four names. *)
Definition all_media : list string := ["audio"; "banner"; "native"; "video"].
Fixpoint media_string (i : nat) (l : list string) (m : list string) : string :=
  match l with
  | [] => ""
  | t :: l => (if bool_decide (t ∈ m) then (if (0 <? i)%nat then ", " else "") +:+ t else "") +:+ media_string (S i) l m
  end.
Definition mediaTypes_String (m : list string) : string := media_string 0 all_media m.
Definition intersects (m : list string) (types : list string) : bool := existsb (λ t, bool_decide (ToLower t ∈ m)) types.
Definition validateCondition (c : Conditions) : option string :=
  match co_Bidders c, co_MediaTypes c with
  | None, None => Some "bidders and media_types absent from conditions, at least one of the fields must be present"
  | _, _ => None
  end.
Definition getNames (o : Override) : result string (list string) := match ov_Names o with [] => Err "empty override field" | l => Ok l end.
Definition getIds (o : Override) : result string (list Z) := match ov_Ids o with [] => Err "empty override field" | l => Ok l end.
Definition getIsActive (o : Override) : result string bool := Ok (ov_IsActive o).

Definition matches_media (media : list string) (c : Conditions) : bool := match co_MediaTypes c with None => true | Some l => intersects media l end.
Definition matches_bidder (bidder : string) (c : Conditions) : bool := match co_Bidders c with None => true | Some l => hasMatches l bidder end.
(** The loop: values of the actions that match, for this bidder and for all. *)
Fixpoint override_loop {T : Type} (bidder : string) (media : list string) (getter : Override → result string T) (actions : list ActionOverride)
    (specific all : list T) : result string (list T * list T) :=
  match actions with
  | [] => Ok (specific, all)
  | a :: actions =>
      match validateCondition (ao_Conditions a) with
      | Some e => Err e
      | None =>
          if matches_bidder bidder (ao_Conditions a) && matches_media media (ao_Conditions a) then
            match getter (ao_Override a) with
            | Err e => Err e
            | Ok v => match co_Bidders (ao_Conditions a) with
                      | None => override_loop bidder media getter actions specific (all ++ [v])
                      | Some _ => override_loop bidder media getter actions (specific ++ [v]) all
                      end
            end
          else override_loop bidder media getter actions specific all
      end
  end.
(** The value and the warning, empty for none. *)
Definition firstOrDefaultOverride {T : Type} (bidder : string) (media : list string) (getter : Override → result string T) (actions : list ActionOverride)
    (dflt : T) : result string (T * string) :=
  let? (specific, all) := override_loop bidder media getter actions [] [] in
  Ok (match specific, all with v :: _, _ => v | [], v :: _ => v | [], [] => dflt end,
      if (1 <? length specific + length all)%nat
      then "More than one condition matches request. Bidder: " +:+ bidder +:+ ", request media types: " +:+ mediaTypes_String media else "").

(** ** The request: hook_bidderrequest.go *)
(** Impressions with the fields the module reads and writes: a banner's blocked attributes and types,
    a video's and an audio's attributes. *)
Record bkImp := { bi_ID : string; bi_Banner : option (list Z * list Z); bi_Video : option (list Z); bi_Audio : option (list Z); bi_Native : bool }.
Record bkRequest := { bq_BAdv : list string; bq_BApp : list string; bq_BCat : list string; bq_CatTax : Z; bq_Imps : list bkImp }.
Definition mediaTypesFromImp (i : bkImp) : list string :=
  (if bi_Audio i then ["audio"] else []) ++ (if bi_Banner i then ["banner"] else []) ++ (if bi_Native i then ["native"] else []) ++
  (if bi_Video i then ["video"] else []).
Definition mediaTypesFrom (r : bkRequest) : list string := 
  filter (λ t, existsb (λ i, bool_decide (t ∈ mediaTypesFromImp i)) (bq_Imps r) = true) all_media.

Record blockingAttributes := {
  at_bAdv : list string; at_bApp : list string; at_bCat : list string; at_bType : gmap string (list Z); at_bAttr : gmap string (list Z); at_catTax : Z
}.
Inductive mutation :=
| MBAdv (l : list string) | MBApp (l : list string) | MBCat (l : list string) | MCatTax (z : Z)
| MBType (m : gmap string (list Z)) | MBAttr (media : string) (m : gmap string (list Z)).

(** [updateBAdv], [updateBApp] and [updateBCat] differ in the field they read. *)
Definition update_list (own : list string) (bidder : string) (media : list string) (b : BlockList string) : result string (list string * list string) :=
  if (0 <? length own)%nat then Ok ([], [])
  else let? (l, m) := firstOrDefaultOverride bidder media getNames (bo_Blocked b) (bl_Blocked b) in Ok (l, [m]).
(** The overrides of the impressions that have no value of their own. *)
Fixpoint findImpressionOverrides (bidder : string) (actions : list ActionOverride) (dflt : list Z) (present : bkImp → bool) (imps : list bkImp)
    (overrides : gmap string (list Z)) (messages : list string) : result string (gmap string (list Z) * list string) :=
  match imps with
  | [] => Ok (overrides, messages)
  | i :: imps =>
      if present i then findImpressionOverrides bidder actions dflt present imps overrides messages
      else
        let? (o, m) := firstOrDefaultOverride bidder (mediaTypesFromImp i) getIds actions dflt in
        findImpressionOverrides bidder actions dflt present imps
          (match o with [] => overrides | _ => <[bi_ID i := o]> overrides end) (mergeStrings messages [m])
  end.
Definition filterByMediaType (imps : list bkImp) (overrides : gmap string (list Z)) (has : bkImp → bool) : gmap string (list Z) :=
  foldl (λ (m : gmap string (list Z)) i, match overrides !! bi_ID i with Some v => if has i then <[bi_ID i := v]> m else m | None => m end) ∅ imps.
Definition nonempty_map (m : gmap string (list Z)) : bool := negb (size m =? 0)%nat.
Definition is_some {A : Type} (o : option A) : bool := match o with Some _ => true | None => false end.
Definition has_values (o : option (list Z)) : bool := match o with Some (_ :: _) => true | _ => false end.

Definition attr_mutation (imps : list bkImp) (overrides : gmap string (list Z)) (has : bkImp → bool) (media : string) : list mutation :=
  let filtered := filterByMediaType imps overrides has in if nonempty_map filtered then [MBAttr media filtered] else [].
(** [updateBAttr]: the map remembered is the union of the three, the later ones winning. *)
Definition updateBAttr (b : Battr) (bidder : string) (imps : list bkImp) : result string (gmap string (list Z) * list mutation * list string) :=
  let? (banner, m1) := findImpressionOverrides bidder (bao_Banner b) (ba_Banner b) (λ i, has_values (fst <$> bi_Banner i)) imps ∅ [] in
  let? (video, m2) := findImpressionOverrides bidder (bao_Video b) (ba_Video b) (λ i, has_values (bi_Video i)) imps ∅ [] in
  let? (audio, m3) := findImpressionOverrides bidder (bao_Audio b) (ba_Audio b) (λ i, has_values (bi_Audio i)) imps ∅ [] in
  Ok (audio ∪ (video ∪ banner),
      attr_mutation imps banner (λ i, is_some (bi_Banner i)) "banner" ++ attr_mutation imps video (λ i, is_some (bi_Video i)) "video" ++
      attr_mutation imps audio (λ i, is_some (bi_Audio i)) "audio",
      m1 ++ m2 ++ m3).
Definition update_one (l : list string) (mk : list string → mutation) : list mutation := match l with [] => [] | _ => [mk l] end.
Definition in_field {A : Type} (field : string) (r : result string A) : result string A :=
  match r with Ok a => Ok a | Err e => Err ("failed to update " +:+ field +:+ " field: " +:+ e) end.

Definition handleBidderRequestHook (cfg : blockConfig) (bidder : string) (r : bkRequest) : result string (blockingAttributes * list mutation * list string) :=
  let media := mediaTypesFrom r in
  let? (adv, w1) := in_field "badv" (update_list (bq_BAdv r) bidder media (bc_Badv cfg)) in
  let? (app_, w2) := in_field "bapp" (update_list (bq_BApp r) bidder media (bc_Bapp cfg)) in
  let? (cat, w3) := in_field "bcat" (update_list (bq_BCat r) bidder media (bc_Bcat cfg)) in
  let? (btype, w4) := in_field "btype" (findImpressionOverrides bidder (bco_Btype cfg) (bc_Btype cfg) (λ i, has_values (snd <$> bi_Banner i)) (bq_Imps r) ∅ []) in
  let? x := in_field "battr" (updateBAttr (bc_Battr cfg) bidder (bq_Imps r)) in
  let '(battr, ms, w5) := x in
  let fb := filterByMediaType (bq_Imps r) btype (λ i, is_some (bi_Banner i)) in
  Ok ({| at_bAdv := adv; at_bApp := app_; at_bCat := cat; at_bType := btype; at_bAttr := battr;
         at_catTax := if 0 <? bq_CatTax r then 0 else bc_CategoryTaxonomy cfg |},
      update_one adv MBAdv ++ update_one app_ MBApp ++ update_one cat MBCat ++ (if nonempty_map fb then [MBType fb] else []) ++ ms ++
      (if 0 <? bq_CatTax r then [] else [MCatTax (bc_CategoryTaxonomy cfg)]),
      mergeStrings [] (w1 ++ w2 ++ w3 ++ w4 ++ w5)).

(** *** Applying the mutations *)
Definition on_imps (f : bkImp → list Z → bkImp) (m : gmap string (list Z)) (r : bkRequest) : bkRequest :=
  {| bq_BAdv := bq_BAdv r; bq_BApp := bq_BApp r; bq_BCat := bq_BCat r; bq_CatTax := bq_CatTax r;
     bq_Imps := map (λ i, match m !! bi_ID i with Some (x :: l) => f i (x :: l) | _ => i end) (bq_Imps r) |}.
Definition set_btype (i : bkImp) (v : list Z) : bkImp :=
  {| bi_ID := bi_ID i; bi_Banner := (λ b, (b.1, v)) <$> bi_Banner i; bi_Video := bi_Video i; bi_Audio := bi_Audio i; bi_Native := bi_Native i |}.
Definition set_battr (media : string) (i : bkImp) (v : list Z) : bkImp :=
  {| bi_ID := bi_ID i; bi_Banner := if media =s? "banner" then (λ b, (v, b.2)) <$> bi_Banner i else bi_Banner i;
     bi_Video := if media =s? "video" then (λ _, v) <$> bi_Video i else bi_Video i;
     bi_Audio := if media =s? "audio" then (λ _, v) <$> bi_Audio i else bi_Audio i; bi_Native := bi_Native i |}.
Definition apply_mutation (r : bkRequest) (m : mutation) : bkRequest :=
  match m with
  | MBAdv l => {| bq_BAdv := l; bq_BApp := bq_BApp r; bq_BCat := bq_BCat r; bq_CatTax := bq_CatTax r; bq_Imps := bq_Imps r |}
  | MBApp l => {| bq_BAdv := bq_BAdv r; bq_BApp := l; bq_BCat := bq_BCat r; bq_CatTax := bq_CatTax r; bq_Imps := bq_Imps r |}
  | MBCat l => {| bq_BAdv := bq_BAdv r; bq_BApp := bq_BApp r; bq_BCat := l; bq_CatTax := bq_CatTax r; bq_Imps := bq_Imps r |}
  | MCatTax z => {| bq_BAdv := bq_BAdv r; bq_BApp := bq_BApp r; bq_BCat := bq_BCat r; bq_CatTax := z; bq_Imps := bq_Imps r |}
  | MBType m => on_imps set_btype m r
  | MBAttr media m => on_imps (set_battr media) m r
  end.

(** ** The response: hook_raw_bidder_response.go *)
Record bkBid := {
  bb_ID : string; bb_ImpID : string; bb_ADomain : list string; bb_Cat : list string; bb_CatTax : Z; bb_Bundle : string; bb_Attr : list Z; bb_DealID : string; bb_Type : string
}.
(** The loop over the exceptions ends at the first that matches. *)
Definition blockAttribute {A : Type} `{EqDecision A} (attributes blocked exceptions : list A) (blockUnknown : bool) : bool * list A :=
  match attributes with
  | [] => (blockUnknown, [])
  | _ =>
      match blocked with
      | [] => (false, [])
      | _ => let elems := a ← attributes; b ← blocked; if decide (a = b) then if decide (a ∈ exceptions) then [] else [a] else [] in
             match elems with [] => (false, []) | _ => (true, elems) end
      end
  end.
Fixpoint deal_loop {T : Type} (dealID : string) (getter : Override → result string (list T)) (actions : list ActionOverride) (acc : list T) : result string (list T) :=
  match actions with
  | [] => Ok acc
  | a :: actions =>
      match co_DealIds (ao_Conditions a) with
      | None => Err "conditions field in account configuration must contain deal_ids"
      | Some ids =>
          match filter (λ i, i = dealID) ids with
          | [] => deal_loop dealID getter actions acc
          | hits => match getter (ao_Override a) with
                    | Err e => Err e
                    | Ok v => deal_loop dealID getter actions (acc ++ concat (map (λ _, v) hits))
                    end
          end
      end
  end.
Definition findDealExceptionsOverridesOrDefault {T : Type} (dealID : string) (getter : Override → result string (list T)) (actions : list ActionOverride) (dflt : list T) :
    result string (list T) :=
  let? o := deal_loop dealID getter actions [] in Ok (match o with [] => dflt | _ => o ++ dflt end).
Definition deal_exceptions {T : Type} (dealID : string) (getter : Override → result string (list T)) (actions : list ActionOverride) (dflt : list T) : result string (list T) :=
  if dealID =s? "" then Ok [] else findDealExceptionsOverridesOrDefault dealID getter actions dflt.

(** [shouldBeBlockedDueToBadv] and its like for categories: enforcement, whether it blocks, and the
    warnings. *)
Definition check_list (b : BlockList string) (values blocked : list string) (bid : bkBid) (bidder : string) : result string (bool * bool * list string) :=
  let media := [bb_Type bid] in
  let? (enforce, m1) := firstOrDefaultOverride bidder media getIsActive (bo_EnforceBlocks b) (bl_EnforceBlocks b) in
  if negb enforce then Ok (false, false, [m1])
  else
    let? (unknown, m2) := firstOrDefaultOverride bidder media getIsActive (bo_BlockUnknown b) (bl_BlockUnknown b) in
    let? exceptions := deal_exceptions (bb_DealID bid) getNames (bo_AllowedForDeals b) (bl_AllowedForDeals b) in
    Ok (true, (blockAttribute values blocked exceptions unknown).1, [m1; m2]).
Definition check_cattax (attrs : blockingAttributes) (bid : bkBid) (enforce : bool) : bool :=
  enforce && negb (bb_CatTax bid =? 0) && negb (bb_CatTax bid =? (if at_catTax attrs =? 0 then 1 else at_catTax attrs)).
(** Apps: the bundle is always one value, and unknown ones are not blocked. *)
Definition check_app (b : BlockList string) (attrs : blockingAttributes) (bid : bkBid) (bidder : string) : result string (bool * list string) :=
  let? (enforce, m1) := firstOrDefaultOverride bidder [bb_Type bid] getIsActive (bo_EnforceBlocks b) (bl_EnforceBlocks b) in
  if negb enforce then Ok (false, [m1])
  else
    let? exceptions := deal_exceptions (bb_DealID bid) getNames (bo_AllowedForDeals b) (bl_AllowedForDeals b) in
    Ok ((blockAttribute [bb_Bundle bid] (at_bApp attrs) exceptions false).1, [m1]).
Definition check_attr (b : Battr) (attrs : blockingAttributes) (bid : bkBid) (bidder : string) : result string (bool * list string) :=
  let? (enforce, m1) := firstOrDefaultOverride bidder [bb_Type bid] getIsActive (bao_EnforceBlocks b) (ba_EnforceBlocks b) in
  if negb enforce then Ok (false, [m1])
  else
    let? exceptions := deal_exceptions (bb_DealID bid) getIds (bao_BannerForDeals b) (ba_BannerForDeals b) in
    Ok ((blockAttribute (bb_Attr bid) (default [] (at_bAttr attrs !! bb_ImpID bid)) exceptions false).1, [m1]).

Definition in_check {A : Type} (field : string) (r : result string A) : result string A :=
  match r with Ok a => Ok a | Err e => Err ("failed to process " +:+ field +:+ " block checking: " +:+ e) end.
(** The names of the failed checks, in the order of [getFailedAttributes]. *)
Definition failed_checks (cfg : blockConfig) (attrs : blockingAttributes) (bidder : string) (bid : bkBid) : result string (list string * list string) :=
  let? x1 := in_check "badv" (check_list (bc_Badv cfg) (bb_ADomain bid) (at_bAdv attrs) bid bidder) in
  let? x2 := in_check "bcat" (check_list (bc_Bcat cfg) (bb_Cat bid) (at_bCat attrs) bid bidder) in
  let? x3 := in_check "bapp" (check_app (bc_Bapp cfg) attrs bid bidder) in
  let? x4 := in_check "battr" (check_attr (bc_Battr cfg) attrs bid bidder) in
  let named (b : bool) n := if b then [n] else [] in
  Ok (named x1.1.2 "badv" ++ named x2.1.2 "bcat" ++ named (check_cattax attrs bid x2.1.1) "cattax" ++ named x3.1 "bapp" ++ named x4.1 "battr",
      mergeStrings [] (x1.2 ++ x2.2 ++ x3.2 ++ x4.2)).
Record blockResult := { br_kept : list bkBid; br_warnings : list string; br_debug : list string }.
Fixpoint response_loop (cfg : blockConfig) (attrs : blockingAttributes) (bidder : string) (bids : list bkBid) (acc : blockResult) : result string blockResult :=
  match bids with
  | [] => Ok acc
  | bid :: bids =>
      let? (failed, w) := failed_checks cfg attrs bidder bid in
      response_loop cfg attrs bidder bids
        (match failed with
         | [] => {| br_kept := br_kept acc ++ [bid]; br_warnings := br_warnings acc ++ w; br_debug := br_debug acc |}
         | _ => {| br_kept := br_kept acc; br_warnings := br_warnings acc ++ w;
                   br_debug := br_debug acc ++ ["Bid " +:+ bb_ID bid +:+ " from bidder " +:+ bidder +:+ " has been rejected, failed checks: " +:+ String.concat ", " failed] |}
         end)
  end.
(** The attributes of another bidder's request, or none, leave empty lists. *)
Definition no_attributes : blockingAttributes := {| at_bAdv := []; at_bApp := []; at_bCat := []; at_bType := ∅; at_bAttr := ∅; at_catTax := 0 |}.
Definition handleRawBidderResponseHook (cfg : blockConfig) (ctx : gmap string blockingAttributes) (bidder : string) (bids : list bkBid) : result string blockResult :=
  response_loop cfg (default no_attributes (ctx !! bidder)) bidder bids {| br_kept := []; br_warnings := []; br_debug := [] |}.

(** ** What blocks a bid *)
Lemma blockAttribute_spec {A : Type} `{EqDecision A} (attributes blocked exceptions : list A) unknown :
  (blockAttribute attributes blocked exceptions unknown).1 = true ↔
  (attributes = [] ∧ unknown = true) ∨ ∃ a, a ∈ attributes ∧ a ∈ blocked ∧ a ∉ exceptions.
Proof.
  unfold blockAttribute. destruct attributes as [|a0 attrs]; [cbn; split; [by left|]|].
  { intros [[_ ?]|(a & Ha & _)]; [done|by apply elem_of_nil in Ha]. }
  destruct blocked as [|b0 blocked].
  { cbn. split; [done|]. intros [[? _]|(a & _ & Hb & _)]; [done|by apply elem_of_nil in Hb]. }
  set (attributes := a0 :: attrs). set (bl := b0 :: blocked).
  set (elems := a ← attributes; b ← bl; if decide (a = b) then if decide (a ∈ exceptions) then [] else [a] else []).
  assert (∀ x, x ∈ elems ↔ x ∈ attributes ∧ x ∈ bl ∧ x ∉ exceptions) as Hel.
  { intros x. unfold elems. rewrite list_elem_of_bind. split.
    - intros (a & Hx & Ha). apply list_elem_of_bind in Hx as (b & Hx & Hb).
      case_decide; [|by apply elem_of_nil in Hx]. subst b. case_decide; [by apply elem_of_nil in Hx|]. apply list_elem_of_singleton in Hx as ->. done.
    - intros (Ha & Hb & He). exists x. split; [|done]. apply list_elem_of_bind. exists x. split; [|done]. rewrite decide_True, decide_False by done.
      by apply list_elem_of_singleton. }
  destruct elems as [|x l] eqn:Ee; cbn.
  - split; [done|]. intros [[? _]|(a & Ha)]; [done|]. apply Hel in Ha. by apply elem_of_nil in Ha.
  - split; [|done]. intros _. right. exists x. apply Hel. by left.
Qed.

(** The override that applies: the first for this bidder among those whose conditions hold, else the
    first for all bidders, else the setting itself. *)
Definition applies_to (bidder : string) (media : list string) (specific : bool) (a : ActionOverride) : bool :=
  matches_bidder bidder (ao_Conditions a) && matches_media media (ao_Conditions a) && Bool.eqb specific (is_some (co_Bidders (ao_Conditions a))).
Definition first_value {T : Type} (getter : Override → result string T) (o : option ActionOverride) : option T :=
  match o with Some a => match getter (ao_Override a) with Ok v => Some v | Err _ => None end | None => None end.
Lemma override_loop_spec {T : Type} bidder media getter actions (specific all s a : list T) :
  override_loop bidder media getter actions specific all = Ok (s, a) →
  ∃ s' a', s = specific ++ s' ∧ a = all ++ a' ∧
    head s' = first_value getter (List.find (applies_to bidder media true) actions) ∧
    head a' = first_value getter (List.find (applies_to bidder media false) actions).
Proof.
  revert specific all. induction actions as [|x actions IH]; intros specific all; cbn [override_loop].
  { intros [= <- <-]. exists [], []. by rewrite !app_nil_r. }
  destruct (validateCondition (ao_Conditions x)); [done|]. cbn [List.find]. unfold applies_to at 1 3.
  destruct (matches_bidder bidder (ao_Conditions x) && matches_media media (ao_Conditions x)); cbn [andb]; [|apply IH].
  destruct (getter (ao_Override x)) as [v|] eqn:Ev; [|done]. destruct (co_Bidders (ao_Conditions x)); cbn [is_some Bool.eqb].
  - intros (s' & a' & -> & -> & _ & Ha)%IH. exists (v :: s'), a'. rewrite <- app_assoc. split_and!; [done..| |done]. cbn. by rewrite Ev.
  - intros (s' & a' & -> & -> & Hs & _)%IH. exists s', (v :: a'). rewrite <- app_assoc. split_and!; [done..|]. cbn. by rewrite Ev.
Qed.
Theorem override_chosen {T : Type} bidder media getter actions (dflt v : T) m :
  firstOrDefaultOverride bidder media getter actions dflt = Ok (v, m) →
  v = match first_value getter (List.find (applies_to bidder media true) actions) with
      | Some x => x
      | None => default dflt (first_value getter (List.find (applies_to bidder media false) actions))
      end.
Proof.
  unfold firstOrDefaultOverride, rbind. destruct (override_loop bidder media getter actions [] []) as [[s a]|] eqn:El; [|done].
  apply override_loop_spec in El as (s' & a' & -> & -> & Hs & Ha). cbn. rewrite <- Hs, <- Ha. by destruct s', a'; intros [= <- _].
Qed.

(** ** Bids that stay *)
Definition passes (cfg : blockConfig) (attrs : blockingAttributes) (bidder : string) (bid : bkBid) : Prop := ∃ w, failed_checks cfg attrs bidder bid = Ok ([], w).
Lemma response_loop_kept cfg attrs bidder bids acc r :
  response_loop cfg attrs bidder bids acc = Ok r →
  ∃ kept, br_kept r = br_kept acc ++ kept ∧ sublist kept bids ∧ ∀ bid, bid ∈ bids → bid ∈ kept ↔ passes cfg attrs bidder bid.
Proof.
  revert acc. induction bids as [|bid bids IH]; intros acc; cbn [response_loop].
  { intros [= <-]. exists []. rewrite app_nil_r. split_and!; [done..|]. intros bid Hin. by apply elem_of_nil in Hin. }
  unfold rbind. destruct (failed_checks cfg attrs bidder bid) as [[failed w]|] eqn:Ef; [|done].
  assert (passes cfg attrs bidder bid ↔ failed = []) as Hp.
  { unfold passes. rewrite Ef. split; [by intros (w' & [= -> _])|]. intros ->. by exists w. }
  intros (kept & Hk & Hsub & Hin)%IH. destruct failed as [|f0 failed].
  - exists (bid :: kept). cbn in Hk. rewrite <- app_assoc in Hk. split; [done|]. split; [by constructor|].
    intros b [->|Hb]%elem_of_cons; [split; [by intros _; apply Hp|by left]|]. rewrite elem_of_cons. split.
    + intros [->|Hb']; [by apply Hp|by apply Hin].
    + intros Hpass. right. by apply Hin.
  - exists kept. split; [done|]. split; [by constructor|].
    intros b [->|Hb]%elem_of_cons; [|by apply Hin]. split; [|by intros Hpass%Hp].
    intros Hbk. assert (bid ∈ bids) as Hb by by eapply elem_of_sublist. by apply Hin in Hbk.
Qed.

(** ** From the request to the response *)
Definition untouched {A : Type} (get : bkRequest → A) (ms : list mutation) : Prop := Forall (λ m, ∀ r, get (apply_mutation r m) = get r) ms.
Lemma foldl_untouched {A : Type} (get : bkRequest → A) ms r : untouched get ms → get (foldl apply_mutation r ms) = get r.
Proof. intros Hm. revert r. induction Hm as [|m ms Hm _ IH]; intros r; [done|]. cbn. by rewrite IH. Qed.
Lemma untouched_update_one {A : Type} (get : bkRequest → A) l mk : (∀ l r, get (apply_mutation r (mk l)) = get r) → untouched get (update_one l mk).
Proof. intros Hm. destruct l; repeat constructor. intros r. apply Hm. Qed.
(** One list is written by its own mutation and by no other. *)
Lemma written_list (get : bkRequest → list string) mk l ms1 ms2 r :
  untouched get ms1 → untouched get ms2 → (∀ r l, get (apply_mutation r (mk l)) = l) → get r = [] →
  get (foldl apply_mutation r (ms1 ++ update_one l mk ++ ms2)) = l.
Proof.
  intros H1 H2 Hmk Hr. rewrite !foldl_app, (foldl_untouched _ ms2) by done. destruct l as [|x l]; cbn; [|apply Hmk].
  by rewrite (foldl_untouched _ ms1).
Qed.
Lemma rest_untouched {A : Type} (get : bkRequest → A) cfg bidder r fb b at_ ms w :
  (∀ r m, get (apply_mutation r (MBType m)) = get r) → (∀ r x m, get (apply_mutation r (MBAttr x m)) = get r) → (∀ r z, get (apply_mutation r (MCatTax z)) = get r) →
  updateBAttr b bidder (bq_Imps r) = Ok (at_, ms, w) →
  untouched get ((if nonempty_map fb then [MBType fb] else []) ++ ms ++ (if 0 <? bq_CatTax r then [] else [MCatTax (bc_CategoryTaxonomy cfg)])).
Proof.
  intros H1 H2 H3 Hu. apply Forall_app; split; [case_match; repeat constructor; intros; apply H1|]. apply Forall_app; split; [|case_match; repeat constructor; intros; apply H3].
  unfold updateBAttr, rbind in Hu. repeat (case_match; try done). simplify_eq.
  repeat (apply Forall_app; split); unfold attr_mutation; case_match; repeat constructor; intros; apply H2.
Qed.

(** The lists remembered for a bidder are those its request carries, where it had none of its own. *)
Lemma request_carries cfg bidder r attrs ms w :
  handleBidderRequestHook cfg bidder r = Ok (attrs, ms, w) →
  let r' := foldl apply_mutation r ms in
  (bq_BAdv r = [] → bq_BAdv r' = at_bAdv attrs) ∧ (bq_BApp r = [] → bq_BApp r' = at_bApp attrs) ∧ (bq_BCat r = [] → bq_BCat r' = at_bCat attrs).
Proof.
  unfold handleBidderRequestHook, rbind.
  destruct (in_field "badv" _) as [[adv w1]|]; [|done]. destruct (in_field "bapp" _) as [[app_ w2]|]; [|done].
  destruct (in_field "bcat" _) as [[cat w3]|]; [|done]. destruct (in_field "btype" _) as [[btype w4]|]; [|done].
  destruct (updateBAttr (bc_Battr cfg) bidder (bq_Imps r)) as [[[battr msa] w5]|] eqn:Eu; cbn [in_field]; [|done]. intros [= <- <- _]. cbn zeta. cbn [at_bAdv at_bApp at_bCat].
  split_and!; intros Hown.
  - refine (written_list bq_BAdv MBAdv adv [] _ r _ _ _ Hown); [constructor| |done].
    apply Forall_app; split; [by apply untouched_update_one|]. apply Forall_app; split; [by apply untouched_update_one|by eapply rest_untouched].
  - refine (written_list bq_BApp MBApp app_ (update_one adv MBAdv) _ r _ _ _ Hown); [by apply untouched_update_one| |done].
    apply Forall_app; split; [by apply untouched_update_one|by eapply rest_untouched].
  - rewrite (app_assoc (update_one adv MBAdv)).
    refine (written_list bq_BCat MBCat cat (update_one adv MBAdv ++ update_one app_ MBApp) _ r _ _ _ Hown); [|by eapply rest_untouched|done].
    apply Forall_app; split; by apply untouched_update_one.
Qed.

(** The lists a bid must not break, and the values a deal allows. *)
Definition enforced {A : Type} (b : BlockList A) (bidder type : string) : Prop :=
  ∃ m, firstOrDefaultOverride bidder [type] getIsActive (bo_EnforceBlocks b) (bl_EnforceBlocks b) = Ok (true, m).
Definition allowed_for_deal (b : BlockList string) (dealID value : string) : Prop :=
  ∃ ex, deal_exceptions dealID getNames (bo_AllowedForDeals b) (bl_AllowedForDeals b) = Ok ex ∧ value ∈ ex.

Lemma check_list_passes b values blocked bid bidder e w :
  check_list b values blocked bid bidder = Ok (e, false, w) → enforced b bidder (bb_Type bid) →
  ∀ v, v ∈ values → v ∈ blocked → allowed_for_deal b (bb_DealID bid) v.
Proof.
  intros Hc [m Hm] v Hv Hb. unfold check_list, rbind in Hc. rewrite Hm in Hc. cbn [negb] in Hc.
  destruct (firstOrDefaultOverride bidder [bb_Type bid] getIsActive (bo_BlockUnknown b) (bl_BlockUnknown b)) as [[u m2]|]; [|done].
  destruct (deal_exceptions (bb_DealID bid) getNames (bo_AllowedForDeals b) (bl_AllowedForDeals b)) as [ex|] eqn:Ed; [|done].
  injection Hc as <- Hblock _. exists ex. split; [done|]. destruct (decide (v ∈ ex)) as [|Hn]; [done|].
  assert ((blockAttribute values blocked ex u).1 = true) as Ht; [|by rewrite Ht in Hblock].
  apply blockAttribute_spec. right. by exists v.
Qed.
Lemma check_app_passes b attrs bid bidder w :
  check_app b attrs bid bidder = Ok (false, w) → enforced b bidder (bb_Type bid) → bb_Bundle bid ∈ at_bApp attrs →
  allowed_for_deal b (bb_DealID bid) (bb_Bundle bid).
Proof.
  intros Hc [m Hm] Hb. unfold check_app, rbind in Hc. rewrite Hm in Hc. cbn [negb] in Hc.
  destruct (deal_exceptions (bb_DealID bid) getNames (bo_AllowedForDeals b) (bl_AllowedForDeals b)) as [ex|] eqn:Ed; [|done].
  assert ((blockAttribute [bb_Bundle bid] (at_bApp attrs) ex false).1 = false) as Hblock by congruence. exists ex. split; [done|]. destruct (decide (bb_Bundle bid ∈ ex)) as [|Hn]; [done|].
  assert ((blockAttribute [bb_Bundle bid] (at_bApp attrs) ex false).1 = true) as Ht; [|by rewrite Ht in Hblock].
  apply blockAttribute_spec. right. exists (bb_Bundle bid). split_and!; [by left|done..].
Qed.
Lemma passes_checks cfg attrs bidder bid :
  passes cfg attrs bidder bid →
  (∃ e w, check_list (bc_Badv cfg) (bb_ADomain bid) (at_bAdv attrs) bid bidder = Ok (e, false, w)) ∧
  (∃ e w, check_list (bc_Bcat cfg) (bb_Cat bid) (at_bCat attrs) bid bidder = Ok (e, false, w)) ∧
  (∃ w, check_app (bc_Bapp cfg) attrs bid bidder = Ok (false, w)).
Proof.
  intros [w Hf]. unfold failed_checks, rbind in Hf.
  destruct (check_list (bc_Badv cfg) _ _ _ _) as [[[e1 b1] w1]|]; cbn [in_check] in Hf; [|done].
  destruct (check_list (bc_Bcat cfg) _ _ _ _) as [[[e2 b2] w2]|]; cbn [in_check] in Hf; [|done].
  destruct (check_app (bc_Bapp cfg) attrs bid bidder) as [[b3 w3]|]; cbn [in_check] in Hf; [|done].
  destruct (check_attr (bc_Battr cfg) attrs bid bidder) as [[b4 w4]|]; cbn [in_check] in Hf; [|done]. cbn in Hf. injection Hf as Hl _.
  destruct b1, b2, b3; try (by repeat case_match). split_and!; by repeat eexists.
Qed.

(** With the request hook's lists in the module context, a bid the response hook keeps breaks none of
    the lists its request was sent with that are enforced for it, but for values its deal allows. *)
Theorem kept_bids_respect_request cfg bidder r attrs ms w ctx bids res bid :
  handleBidderRequestHook cfg bidder r = Ok (attrs, ms, w) → ctx !! bidder = Some attrs →
  handleRawBidderResponseHook cfg ctx bidder bids = Ok res → bid ∈ br_kept res →
  bq_BAdv r = [] → bq_BApp r = [] → bq_BCat r = [] →
  let r' := foldl apply_mutation r ms in
  bid ∈ bids ∧
  (enforced (bc_Badv cfg) bidder (bb_Type bid) → ∀ d, d ∈ bb_ADomain bid → d ∈ bq_BAdv r' → allowed_for_deal (bc_Badv cfg) (bb_DealID bid) d) ∧
  (enforced (bc_Bcat cfg) bidder (bb_Type bid) → ∀ x, x ∈ bb_Cat bid → x ∈ bq_BCat r' → allowed_for_deal (bc_Bcat cfg) (bb_DealID bid) x) ∧
  (enforced (bc_Bapp cfg) bidder (bb_Type bid) → bb_Bundle bid ∈ bq_BApp r' → allowed_for_deal (bc_Bapp cfg) (bb_DealID bid) (bb_Bundle bid)).
Proof.
  intros Hreq Hctx Hres Hbid Ha Hp Hc r'. destruct (request_carries cfg bidder r attrs ms w Hreq) as (HA & HP & HC).
  unfold r'. rewrite (HA Ha), (HP Hp), (HC Hc). unfold handleRawBidderResponseHook in Hres. rewrite Hctx in Hres. cbn in Hres.
  apply response_loop_kept in Hres as (kept & Hk & Hsub & Hin). cbn in Hk. rewrite Hk in Hbid.
  assert (bid ∈ bids) as Hb by by eapply elem_of_sublist. split; [done|]. apply Hin in Hbid; [|done].
  destruct (passes_checks cfg attrs bidder bid Hbid) as ((e1 & w1 & H1) & (e2 & w2 & H2) & (w3 & H3)). split_and!.
  - by eapply check_list_passes.
  - by eapply check_list_passes.
  - by eapply check_app_passes.
Qed.

(** ** Concrete runs *)
Definition no_list : BlockList string :=
  {| bl_Blocked := []; bl_AllowedForDeals := []; bl_BlockUnknown := false; bl_EnforceBlocks := false; bo_Blocked := []; bo_AllowedForDeals := [];
     bo_BlockUnknown := []; bo_EnforceBlocks := [] |}.
Definition adv_list : BlockList string :=
  {| bl_Blocked := ["a.com"]; bl_AllowedForDeals := []; bl_BlockUnknown := false; bl_EnforceBlocks := true;
     bo_Blocked := [{| ao_Conditions := {| co_Bidders := Some ["X"]; co_MediaTypes := None; co_DealIds := None |};
                       ao_Override := {| ov_IsActive := false; ov_Ids := []; ov_Names := ["b.com"; "c.com"] |} |}];
     bo_AllowedForDeals := [{| ao_Conditions := {| co_Bidders := None; co_MediaTypes := None; co_DealIds := Some ["d1"] |};
                               ao_Override := {| ov_IsActive := false; ov_Ids := []; ov_Names := ["c.com"] |} |}];
     bo_BlockUnknown := []; bo_EnforceBlocks := [] |}.
Definition attrs_by_media : Battr :=
  {| ba_Banner := [1]; ba_Video := [2]; ba_Audio := []; ba_BannerForDeals := []; ba_EnforceBlocks := true; bao_Banner := []; bao_Video := []; bao_Audio := [];
     bao_BannerForDeals := []; bao_EnforceBlocks := [] |}.
Definition sample_blocking : blockConfig :=
  {| bc_Badv := adv_list; bc_Bcat := no_list; bc_CategoryTaxonomy := 0; bc_Bapp := no_list; bc_Btype := []; bco_Btype := []; bc_Battr := attrs_by_media |}.
Definition banner_request : bkRequest :=
  {| bq_BAdv := []; bq_BApp := []; bq_BCat := []; bq_CatTax := 0; bq_Imps := [{| bi_ID := "i1"; bi_Banner := Some ([], []); bi_Video := None; bi_Audio := None; bi_Native := false |}] |}.
Definition sample_block_bid (id domain deal : string) (attr : list Z) : bkBid :=
  {| bb_ID := id; bb_ImpID := "i1"; bb_ADomain := [domain]; bb_Cat := []; bb_CatTax := 0; bb_Bundle := ""; bb_Attr := attr; bb_DealID := deal; bb_Type := "banner" |}.
Definition sample_bids : list bkBid :=
  [sample_block_bid "1" "b.com" "" []; sample_block_bid "2" "a.com" "" []; sample_block_bid "3" "c.com" "d1" []; sample_block_bid "4" "c.com" "" []].
Definition sample_attrs : blockingAttributes :=
  {| at_bAdv := ["b.com"; "c.com"]; at_bApp := []; at_bCat := []; at_bType := ∅; at_bAttr := {["i1" := [2]]}; at_catTax := 0 |}.
Definition sample_mutations : list mutation := [MBAdv ["b.com"; "c.com"]; MBAttr "banner" {["i1" := [1]]}; MCatTax 0].
Example sample_request_hook : handleBidderRequestHook sample_blocking "x" banner_request = Ok (sample_attrs, sample_mutations, []).
Proof. vm_compute. reflexivity. Qed.
Definition sample_kept : blockResult :=
  {| br_kept := [sample_block_bid "2" "a.com" "" []; sample_block_bid "3" "c.com" "d1" []]; br_warnings := [];
     br_debug := ["Bid 1 from bidder x has been rejected, failed checks: badv"; "Bid 4 from bidder x has been rejected, failed checks: badv"] |}.
Lemma kept_bids_witness :
  sample_block_bid "3" "c.com" "d1" [] ∈ sample_bids ∧ allowed_for_deal adv_list "d1" "c.com".
Proof.
  destruct (kept_bids_respect_request sample_blocking "x" banner_request sample_attrs sample_mutations [] {["x" := sample_attrs]} sample_bids sample_kept
    (sample_block_bid "3" "c.com" "d1" [])) as (Hin & Hadv & _); [vm_compute; reflexivity|vm_compute; reflexivity|vm_compute; reflexivity|right; left|reflexivity|reflexivity|reflexivity|].
  split; [exact Hin|]. apply (Hadv (ex_intro _ "" eq_refl) "c.com"); [left|right; left].
Defined.

(** A banner's attribute list is lost when a list for videos is configured too: the impression has
    only a banner, its request blocks attribute 1, and a bid with it is kept, while one with the
    videos' attribute 2 is dropped. *)
Theorem video_list_replaces_banner_list :
  handleRawBidderResponseHook sample_blocking {["x" := sample_attrs]} "x" [sample_block_bid "5" "z.com" "" [1]; sample_block_bid "6" "z.com" "" [2]] =
  Ok {| br_kept := [sample_block_bid "5" "z.com" "" [1]]; br_warnings := []; br_debug := ["Bid 6 from bidder x has been rejected, failed checks: battr"] |} ∧
  map (λ i, fst <$> bi_Banner i) (bq_Imps (foldl apply_mutation banner_request sample_mutations)) = [Some [1]].
Proof. split; vm_compute; reflexivity. Qed.

(** A list the request brings itself is not enforced on the response. *)
Theorem own_list_not_enforced :
  let r := {| bq_BAdv := ["b.com"]; bq_BApp := []; bq_BCat := []; bq_CatTax := 0; bq_Imps := bq_Imps banner_request |} in
  (λ x, at_bAdv x.1.1) <$> match handleBidderRequestHook sample_blocking "x" r with Ok x => Some x | Err _ => None end = Some [].
Proof. vm_compute. reflexivity. Qed.
