(* ===== verification/FirstPartyData.v ===== *)
(** * First party data: firstpartydata/
    The publisher's own data on site, app, user and device.  Data of the whole request is moved out of
    it - [ext.data], [user.data] and [content.data] - and given to the bidders the request names;
    configurations of single bidders are merged on top.  The request is the view of it this code
    reads; the extensions are documents (the empty one is absent), and their decoding, JSON merge
    patches and [MergeClone], which decodes a document over an object, are the interface [FpdJson].
    Proved: a bidder the request does not name finds none of the moved data in the request; the
    outcome does not depend on the order of Go's maps unless there is an error; a bidder has one
    configuration; and what a bidder gets is the request's object with the moved data put back. *)
From S2P Require Import Prelude GoStrings ErrorTypes RequestParts.

(** ** The request as this code sees it *)
Record fContent := { ct_Data : list string; ct_rest : string }.
Record fUser := { fu_Data : list string; fu_Ext : string; fu_rest : string }.
Record fSite := { fs_ID : string; fs_Page : string; fs_Content : option fContent; fs_Ext : string; fs_rest : string }.
Record fApp := { fa_Content : option fContent; fa_Ext : string; fa_rest : string }.
(** [fd_Accuracy] is [geo.accuracy]; [None] is a device without [geo]. *)
Record fDevice := { fd_W : Z; fd_H : Z; fd_PPI : Z; fd_Accuracy : option Z; fd_rest : string }.

Record ORTB2 := { o2_Site : option string; o2_App : option string; o2_User : option string; o2_Device : option string }.
(** [bc_Config] is [config.ortb2], [None] when either is absent. *)
Record BidderConfig := { bc_Bidders : list string; bc_Config : option ORTB2 }.
(** [fp_Data] is [ext.prebid.data] with its list of bidders, which may be nil. *)
Record fPrebid := { fp_Data : option (option (list string)); fp_BidderConfigs : list BidderConfig }.
(** [fr_prebid] is what the request's extension decodes to. *)
Record fRequest := {
  fr_User : option fUser; fr_Site : option fSite; fr_App : option fApp; fr_Device : option fDevice;
  fr_prebid : result go_error (option fPrebid)
}.
Definition set_fr_prebid p r := {| fr_User := fr_User r; fr_Site := fr_Site r; fr_App := fr_App r; fr_Device := fr_Device r; fr_prebid := p |}.

Record Resolved := { rf_Site : option fSite; rf_App : option fApp; rf_User : option fUser; rf_Device : option fDevice }.

Inductive owner := O_site | O_app | O_user.
Inductive patch_error := BadJSONDoc | BadJSONPatch | OtherPatch (m : string).

(** The wrapper's decoding of an extension and its encoding, [jsonpatch.MergePatch], and
    [MergeClone] on each kind of object with the text of its error. *)
Class FpdJson := {
  ext_members : owner → string → result go_error (gmap string string);
  ext_text : gmap string string → result go_error string;
  MergePatch : string → string → result patch_error string;
  clone_user : fUser → string → result string fUser;
  clone_site : fSite → string → result string fSite;
  clone_app : fApp → string → result string fApp;
  clone_device : fDevice → string → result string fDevice
}.

Section fpd.
Context {FJ : FpdJson} (coreBidders : list string).

Definition ErrBadRequest := PlainError "invalid request ext".
Definition ErrBadFPD := PlainError "invalid first party data ext".

Definition NormalizeOrUnchanged (name : string) : string := default name (NormalizeBidderName coreBidders name).

(** ** Taking the data of the request out of it *)
Definition siteKey := "site".
Definition appKey := "app".
Definition userKey := "user".
Definition dataKey := "data".
Definition userDataKey := "userData".
Definition appContentDataKey := "appContentData".
Definition siteContentDataKey := "siteContentData".

(** [ext.data] of one object with its extension, [None] where the object is nil: the data and the
    members that stay, when there is data.  An absent extension has no members. *)
Definition take_data (o : owner) (ext : option string) : result go_error (option (string * gmap string string)) :=
  let? m := match ext with
            | None | Some EmptyString => Ok ∅
            | Some text => ext_members o text
            end in
  Ok match m !! dataKey with
     | Some d => if d =s? "" then None else Some (d, delete dataKey m)
     | None => None
     end.
(** What [RebuildRequest] writes back for an extension that was changed. *)
Definition write_back (taken : option (string * gmap string string)) (old : string) : result go_error string :=
  match taken with Some (_, m) => ext_text m | None => Ok old end.
Definition set_fu_Ext v u := {| fu_Data := fu_Data u; fu_Ext := v; fu_rest := fu_rest u |}.
Definition set_fs_Ext v s := {| fs_ID := fs_ID s; fs_Page := fs_Page s; fs_Content := fs_Content s; fs_Ext := v; fs_rest := fs_rest s |}.
Definition set_fa_Ext v a := {| fa_Content := fa_Content a; fa_Ext := v; fa_rest := fa_rest a |}.
(** An object whose extension is written back, if there is an object. *)
Definition rebuild {O} (get : O → string) (set : string → O → O) (taken : option (string * gmap string string)) (o : option O)
    : result go_error (option O) :=
  match o with
  | None => Ok None
  | Some o => let? t := write_back taken (get o) in Ok (Some (set t o))
  end.
Definition note (k : string) (taken : option (string * gmap string string)) (m : gmap string string) : gmap string string :=
  match taken with Some (d, _) => <[k := d]> m | None => m end.

(** The wrapper is taken to agree with the request it wraps, so that [RebuildRequest] writes the
    extensions changed here. *)
Definition ExtractGlobalFPD (r : fRequest) : result go_error (gmap string string * fRequest) :=
  let? site := take_data O_site (fs_Ext <$> fr_Site r) in
  let? app := take_data O_app (fa_Ext <$> fr_App r) in
  let? user := take_data O_user (fu_Ext <$> fr_User r) in
  let? u := rebuild fu_Ext set_fu_Ext user (fr_User r) in
  let? a := rebuild fa_Ext set_fa_Ext app (fr_App r) in
  let? s := rebuild fs_Ext set_fs_Ext site (fr_Site r) in
  Ok (note userKey user (note appKey app (note siteKey site ∅)),
      {| fr_User := u; fr_Site := s; fr_App := a; fr_Device := fr_Device r; fr_prebid := fr_prebid r |}).

Definition set_ct_Data d c := {| ct_Data := d; ct_rest := ct_rest c |}.
Definition set_fu_Data d u := {| fu_Data := d; fu_Ext := fu_Ext u; fu_rest := fu_rest u |}.
Definition set_fs_Content c s := {| fs_ID := fs_ID s; fs_Page := fs_Page s; fs_Content := c; fs_Ext := fs_Ext s; fs_rest := fs_rest s |}.
Definition set_fa_Content c a := {| fa_Content := c; fa_Ext := fa_Ext a; fa_rest := fa_rest a |}.
(** The segments of a content object, [[]] where there is none. *)
Definition content_data (c : option fContent) : list string := match c with Some c => ct_Data c | None => [] end.
Definition clear_content (c : option fContent) : option fContent := set_ct_Data [] <$> c.
Definition note_data (k : string) (d : list string) (m : gmap string (list string)) : gmap string (list string) :=
  match d with [] => m | _ => <[k := d]> m end.

Definition ExtractOpenRtbGlobalFPD (r : fRequest) : gmap string (list string) * fRequest :=
  (note_data appContentDataKey (content_data (fr_App r ≫= fa_Content))
     (note_data siteContentDataKey (content_data (fr_Site r ≫= fs_Content))
        (note_data userDataKey (from_option fu_Data [] (fr_User r)) ∅)),
   {| fr_User := set_fu_Data [] <$> fr_User r;
      fr_Site := (λ s, set_fs_Content (clear_content (fs_Content s)) s) <$> fr_Site r;
      fr_App := (λ a, set_fa_Content (clear_content (fa_Content a)) a) <$> fr_App r;
      fr_Device := fr_Device r; fr_prebid := fr_prebid r |}).

(** ** What one bidder gets *)
Definition formatMergePatchError (e : patch_error) : go_error :=
  match e with BadJSONDoc => ErrBadRequest | BadJSONPatch => ErrBadFPD | OtherPatch m => PlainError m end.
Definition formatMergeCloneError (text : string) : go_error :=
  if strContains text "invalid json on existing object" then ErrBadRequest else ErrBadFPD.
Definition buildExtData (data : string) : string := "{" +:+ String "034" (dataKey +:+ String "034" (":" +:+ data +:+ "}")).

Definition patched {A} (r : result patch_error A) : result go_error A :=
  match r with Ok a => Ok a | Err e => Err (formatMergePatchError e) end.
Definition cloned {A} (r : result string A) : result go_error A :=
  match r with Ok a => Ok a | Err e => Err (formatMergeCloneError e) end.
(** The data of the request put back into an extension. *)
Definition give_ext (globalFPD : gmap string string) (k : string) (ext : string) : result go_error string :=
  match globalFPD !! k with
  | None | Some EmptyString => Ok ext
  | Some d => if ext =s? "" then Ok (buildExtData d) else patched (MergePatch ext (buildExtData d))
  end.
Definition segments (fpd : gmap string (list string)) (k : string) : list string := default [] (fpd !! k).
Definition give_content (fpd : gmap string (list string)) (k : string) (c : option fContent) : option fContent :=
  match segments fpd k with
  | [] => c
  | d => Some (set_ct_Data d (default {| ct_Data := []; ct_rest := "" |} c))
  end.
Definition merge_config {O} (clone : O → string → result string O) (cfg : option string) (o : O) : result go_error O :=
  match cfg with Some doc => cloned (clone o doc) | None => Ok o end.

Definition empty_fUser := {| fu_Data := []; fu_Ext := ""; fu_rest := "" |}.
Definition resolveUser (fpdConfig : option ORTB2) (bidRequestUser : option fUser) (globalFPD : gmap string string)
    (openRtbGlobalFPD : gmap string (list string)) : result go_error (option fUser) :=
  let cfg := fpdConfig ≫= o2_User in
  match bidRequestUser, cfg with
  | None, None => Ok None
  | _, _ =>
      let u := default empty_fUser bidRequestUser in
      let? ext := give_ext globalFPD userKey (fu_Ext u) in
      let u := set_fu_Ext ext u in
      let u := match segments openRtbGlobalFPD userDataKey with [] => u | d => set_fu_Data d u end in
      let? u := merge_config clone_user cfg u in Ok (Some u)
  end.

Definition site_undefined (bidder : string) := BadInput ("incorrect First Party Data for bidder " +:+ bidder +:+ ": Site object is not defined in request, but defined in FPD config").
Definition site_empty (bidder : string) := BadInput ("incorrect First Party Data for bidder " +:+ bidder +:+ ": Site object cannot set empty page if req.site.id is empty").
Definition app_undefined (bidder : string) := BadInput ("incorrect First Party Data for bidder " +:+ bidder +:+ ": App object is not defined in request, but defined in FPD config").

Definition resolveSite (fpdConfig : option ORTB2) (bidRequestSite : option fSite) (globalFPD : gmap string string)
    (openRtbGlobalFPD : gmap string (list string)) (bidderName : string) : result go_error (option fSite) :=
  let cfg := fpdConfig ≫= o2_Site in
  match bidRequestSite, cfg with
  | None, None => Ok None
  | None, Some _ => Err (site_undefined bidderName)
  | Some s, _ =>
      let? ext := give_ext globalFPD siteKey (fs_Ext s) in
      let s := set_fs_Content (give_content openRtbGlobalFPD siteContentDataKey (fs_Content s)) (set_fs_Ext ext s) in
      let? s := merge_config clone_site cfg s in
      if match cfg with Some _ => (fs_ID s =s? "") && (fs_Page s =s? "") | None => false end
      then Err (site_empty bidderName) else Ok (Some s)
  end.

Definition resolveApp (fpdConfig : option ORTB2) (bidRequestApp : option fApp) (globalFPD : gmap string string)
    (openRtbGlobalFPD : gmap string (list string)) (bidderName : string) : result go_error (option fApp) :=
  let cfg := fpdConfig ≫= o2_App in
  match bidRequestApp, cfg with
  | None, None => Ok None
  | None, Some _ => Err (app_undefined bidderName)
  | Some a, _ =>
      let? ext := give_ext globalFPD appKey (fa_Ext a) in
      let a := set_fa_Content (give_content openRtbGlobalFPD appContentDataKey (fa_Content a)) (set_fa_Ext ext a) in
      let? a := merge_config clone_app cfg a in Ok (Some a)
  end.

Definition fpd_validateDevice (d : fDevice) : result go_error unit :=
  if fd_W d <? 0 then Err (PlainError "request.device.w must be a positive number")
  else if fd_H d <? 0 then Err (PlainError "request.device.h must be a positive number")
  else if fd_PPI d <? 0 then Err (PlainError "request.device.ppi must be a positive number")
  else match fd_Accuracy d with
       | Some a => if a <? 0 then Err (PlainError "request.device.geo.accuracy must be a positive number") else Ok tt
       | None => Ok tt
       end.
Definition empty_fDevice := {| fd_W := 0; fd_H := 0; fd_PPI := 0; fd_Accuracy := None; fd_rest := "" |}.
Definition resolveDevice (fpdConfig : option ORTB2) (bidRequestDevice : option fDevice) : result go_error (option fDevice) :=
  let cfg := fpdConfig ≫= o2_Device in
  match bidRequestDevice, cfg with
  | None, None => Ok None
  | _, _ =>
      let? d := merge_config clone_device cfg (default empty_fDevice bidRequestDevice) in
      let? _ := fpd_validateDevice d in Ok (Some d)
  end.

(** ** All bidders *)
Context {MR : MapRange}.
Abbreviation configs := (gmap string ORTB2).

Definition errs_of {A} (r : result go_error A) : list go_error := match r with Ok _ => [] | Err e => [e] end.
Definition value_of {A} (r : result go_error (option A)) : option A := match r with Ok v => v | Err _ => None end.

(** The four objects of one bidder, a nil one for each that fails, with the errors. *)
Definition resolve_bidder (r : fRequest) (cfgs : configs) (g : gmap string string) (og : gmap string (list string)) (bidder : string)
    : Resolved * list go_error :=
  let cfg := cfgs !! bidder in
  let u := resolveUser cfg (fr_User r) g og in
  let a := resolveApp cfg (fr_App r) g og bidder in
  let s := resolveSite cfg (fr_Site r) g og bidder in
  let d := resolveDevice cfg (fr_Device r) in
  ({| rf_Site := value_of s; rf_App := value_of a; rf_User := value_of u; rf_Device := value_of d |},
   errs_of u ++ errs_of a ++ errs_of s ++ errs_of d).

(** [allBiddersTable] *)
Definition bidders_table (cfgs : configs) (biddersWithGlobalFPD : option (list string)) : gmap string () :=
  match biddersWithGlobalFPD with
  | None => (λ _, ()) <$> cfgs
  | Some l => foldl (λ (m : gmap string ()) b, <[NormalizeOrUnchanged b := ()]> m) ∅ l
  end.
Definition resolve_step (r : fRequest) (cfgs : configs) (g : gmap string string) (og : gmap string (list string))
    (st : gmap string Resolved * list go_error) (entry : string * ()) : gmap string Resolved * list go_error :=
  let '(resolvedFpd, errL) := st in
  let '(res, errs) := resolve_bidder r cfgs g og entry.1 in
  let errL := errL ++ errs in
  (match errL with [] => <[entry.1 := res]> resolvedFpd | _ => resolvedFpd end, errL).
Definition ResolveFPD (r : fRequest) (cfgs : configs) (g : gmap string string) (og : gmap string (list string))
    (biddersWithGlobalFPD : option (list string)) : gmap string Resolved * list go_error :=
  foldl (resolve_step r cfgs g og) (∅, []) (map_range (bidders_table cfgs biddersWithGlobalFPD)).

Definition empty_ORTB2 := {| o2_Site := None; o2_App := None; o2_User := None; o2_Device := None |}.
Definition duplicate_config (bidder : string) := BadInput ("multiple First Party Data bidder configs provided for bidder: " +:+ bidder).
Fixpoint add_bidders (data : ORTB2) (bidders : list string) (fpd : configs) : result go_error configs :=
  match bidders with
  | [] => Ok fpd
  | b :: rest => match fpd !! NormalizeOrUnchanged b with
                 | Some _ => Err (duplicate_config b)
                 | None => add_bidders data rest (<[NormalizeOrUnchanged b := data]> fpd)
                 end
  end.
Fixpoint add_configs (l : list BidderConfig) (fpd : configs) : result go_error configs :=
  match l with
  | [] => Ok fpd
  | bc :: rest => let? fpd := add_bidders (default empty_ORTB2 (bc_Config bc)) (bc_Bidders bc) fpd in add_configs rest fpd
  end.
(** The configurations, and the extension without them. *)
Definition ExtractBidderConfigFPD (reqExt : option fPrebid) : result go_error (configs * option fPrebid) :=
  match reqExt with
  | None => Ok (∅, None)
  | Some p => let? fpd := add_configs (fp_BidderConfigs p) ∅ in Ok (fpd, Some {| fp_Data := fp_Data p; fp_BidderConfigs := [] |})
  end.

(** The data of each bidder, the errors, and the request that is left. *)
Definition ExtractFPDForBidders (r : fRequest) : gmap string Resolved * list go_error * fRequest :=
  match fr_prebid r with
  | Err e => (∅, [e], r)
  | Ok None => (∅, [], r)
  | Ok (Some p) =>
      let biddersWithGlobalFPD := p' ← fp_Data p; p' in
      let p := {| fp_Data := (λ _, None) <$> fp_Data p; fp_BidderConfigs := fp_BidderConfigs p |} in
      let r := set_fr_prebid (Ok (Some p)) r in
      match ExtractBidderConfigFPD (Some p) with
      | Err e => (∅, [e], r)
      | Ok (cfgs, p) =>
          let r := set_fr_prebid (Ok p) r in
          match biddersWithGlobalFPD with
          | None => (ResolveFPD r cfgs ∅ ∅ None, r)
          | Some l =>
              match ExtractGlobalFPD r with
              | Err e => (∅, [e], r)
              | Ok (g, r) => let '(og, r) := ExtractOpenRtbGlobalFPD r in (ResolveFPD r cfgs g og (Some l), r)
              end
          end
      end
  end.
(** ** Correctness *)
(** *** The loop over the bidders *)
Section loop.
Context (r : fRequest) (cfgs : configs) (g : gmap string string) (og : gmap string (list string)).
#[local] Opaque resolve_bidder.
Abbreviation errors_of b := ((resolve_bidder r cfgs g og b).2).

Lemma resolve_loop_errors l st : (foldl (resolve_step r cfgs g og) st l).2 = st.2 ++ (l ≫= λ e, errors_of e.1).
Proof.
  revert st. induction l as [|e l IH]; intros [m errL]; simpl; [by rewrite app_nil_r|].
  rewrite IH. unfold resolve_step. destruct (resolve_bidder r cfgs g og e.1) as [res errs] eqn:E. simpl. by rewrite <- app_assoc.
Qed.

Lemma resolve_loop_clean l m : (l ≫= λ e, errors_of e.1) = [] →
  foldl (resolve_step r cfgs g og) (m, []) l = (foldl (λ acc '(k, v), <[k := v]> acc) m (map (λ e, (e.1, (resolve_bidder r cfgs g og e.1).1)) l), []).
Proof.
  revert m. induction l as [|e l IH]; intros m H; [done|]. simpl in H. apply app_eq_nil in H as [He Hl].
  simpl. destruct (resolve_bidder r cfgs g og e.1) as [res errs] eqn:E. rewrite ?E in He. simpl in He. subst errs. simpl.
  by apply IH.
Qed.

Lemma elem_of_table (glob : option (list string)) b :
  is_Some (bidders_table cfgs glob !! b) ↔
  match glob with None => is_Some (cfgs !! b) | Some l => b ∈ map NormalizeOrUnchanged l end.
Proof.
  destruct glob as [l|]; simpl; [|by rewrite lookup_fmap, fmap_is_Some].
  enough (∀ m : gmap string (), is_Some (foldl (λ (m : gmap string ()) b, <[NormalizeOrUnchanged b := ()]> m) m l !! b) ↔
            is_Some (m !! b) ∨ b ∈ map NormalizeOrUnchanged l) as H.
  { rewrite H, lookup_empty. split; [intros [[? [=]]|?]|]; auto. }
  induction l as [|x l IH]; intros m; simpl; [set_solver|]. rewrite IH, lookup_insert_is_Some', elem_of_cons.
  split; [intros [[<-|?]|?]|intros [?|[->|?]]]; auto.
Qed.

(** Without errors, in every order of the table, each bidder of the table and no other has exactly
    what was resolved for it. *)
Lemma ResolveFPD_clean glob : (∀ b, is_Some (bidders_table cfgs glob !! b) → errors_of b = []) →
  ∃ m, ResolveFPD r cfgs g og glob = (m, []) ∧
       ∀ b, m !! b = if bidders_table cfgs glob !! b then Some (resolve_bidder r cfgs g og b).1 else None.
Proof.
  intros Hc. unfold ResolveFPD. eexists. split.
  - apply resolve_loop_clean. apply elem_of_nil_inv. intros e [x [He Hx]]%list_elem_of_bind.
    destruct x as [b []]. rewrite Hc in He; [by apply elem_of_nil in He|]. exists (). by apply elem_of_map_range.
  - intros b. assert (Inj (=) (=) (λ x : string, x)) by (by intros ? ?). set (l := map_range (bidders_table cfgs glob)).
    change (foldl _ ∅ ?l) with (insert_all (λ x : string, x) l (∅ : gmap string Resolved)).
    assert ((map (λ e : string * (), (e.1, (resolve_bidder r cfgs g og e.1).1)) l).*1 = l.*1) as Hfst
      by (rewrite <- list_fmap_compose; by apply list_fmap_ext).
    destruct (bidders_table cfgs glob !! b) as [[]|] eqn:Hb.
    + refine (lookup_insert_all (λ x : string, x) _ _ b _ _ _); [rewrite Hfst; apply NoDup_map_range_fst|].
      apply list_elem_of_fmap. exists (b, ()). split; [done|]. by apply elem_of_map_range.
    + rewrite lookup_insert_all_ne; [by rewrite lookup_empty|done|]. rewrite Hfst. intros k Hk ->.
      apply list_elem_of_fmap in Hk as [[k' []] [-> Hk]]. apply elem_of_map_range in Hk. simpl in Hb. congruence.
Qed.

(** There is an error exactly when one of the bidders has one. *)
Lemma ResolveFPD_fails glob : (ResolveFPD r cfgs g og glob).2 ≠ [] ↔ ∃ b, is_Some (bidders_table cfgs glob !! b) ∧ errors_of b ≠ [].
Proof.
  unfold ResolveFPD. rewrite resolve_loop_errors. simpl. split.
  - intros H. destruct (map_range (bidders_table cfgs glob) ≫= λ e, errors_of e.1) as [|e l] eqn:E; [done|].
    assert (e ∈ map_range (bidders_table cfgs glob) ≫= λ e, errors_of e.1) as [[b []] [He Hb]]%list_elem_of_bind by (rewrite E; left).
    exists b. apply elem_of_map_range in Hb. split; [by eexists|]. intros H0. simpl in He. rewrite H0 in He. by apply elem_of_nil in He.
  - intros (b & [[] Hb] & He) H. apply He. apply elem_of_nil_inv. intros e Hin.
    assert (e ∈ map_range (bidders_table cfgs glob) ≫= λ e, errors_of e.1) as Hb'.
    { apply list_elem_of_bind. exists (b, ()). split; [done|]. by apply elem_of_map_range. }
    rewrite H in Hb'. by apply elem_of_nil in Hb'.
Qed.
End loop.
(** *** Configurations of bidders *)
Definition config_names (l : list BidderConfig) : list string := l ≫= λ bc, map NormalizeOrUnchanged (bc_Bidders bc).

Lemma add_bidders_ok data l (fpd : configs) :
  (∃ fpd', add_bidders data l fpd = Ok fpd') ↔ NoDup (map NormalizeOrUnchanged l) ∧ ∀ b, b ∈ map NormalizeOrUnchanged l → fpd !! b = None.
Proof.
  revert fpd. induction l as [|x l IH]; intros fpd; simpl; [split; [split; [constructor|set_solver]|by eexists]|].
  rewrite NoDup_cons. destruct (fpd !! NormalizeOrUnchanged x) eqn:E.
  - split; [by intros [? ?]|]. intros [_ H]. rewrite H in E by left. done.
  - rewrite IH. split.
    + intros [Hnd Hf]. repeat split; [|done|].
      * intros Hx. specialize (Hf _ Hx). by rewrite lookup_insert_eq in Hf.
      * intros b [->|Hb]%elem_of_cons; [done|]. specialize (Hf b Hb). by apply lookup_insert_None in Hf as [? _].
    + intros [[Hx Hnd] Hf]. split; [done|]. intros b Hb. apply lookup_insert_None. split; [apply Hf; by right|congruence].
Qed.

Lemma add_bidders_lookup data l (fpd fpd' : configs) b : add_bidders data l fpd = Ok fpd' →
  fpd' !! b = if decide (b ∈ map NormalizeOrUnchanged l) then Some data else fpd !! b.
Proof.
  revert fpd. induction l as [|x l IH]; intros fpd; simpl; [by intros [= ->]|].
  destruct (fpd !! NormalizeOrUnchanged x) eqn:E; [done|]. intros H. rewrite (IH _ H).
  destruct (decide (b ∈ map _ l)); [by rewrite decide_True by (by right)|].
  destruct (decide (NormalizeOrUnchanged x = b)) as [<-|Hne]; [rewrite lookup_insert_eq, decide_True by left; done|].
  rewrite lookup_insert_ne by done. rewrite decide_False; [done|]. intros [?|?]%elem_of_cons; [congruence|done].
Qed.

Lemma add_configs_ok l (fpd : configs) :
  (∃ fpd', add_configs l fpd = Ok fpd') ↔ NoDup (config_names l) ∧ ∀ b, b ∈ config_names l → fpd !! b = None.
Proof.
  unfold config_names. revert fpd. induction l as [|bc l IH]; intros fpd; simpl; [split; [split; [constructor|set_solver]|by eexists]|].
  set (here := map NormalizeOrUnchanged (bc_Bidders bc)) in *.
  pose proof (add_bidders_ok (default empty_ORTB2 (bc_Config bc)) (bc_Bidders bc) fpd) as Hok. fold here in Hok.
  rewrite NoDup_app. setoid_rewrite elem_of_app. destruct (add_bidders _ _ fpd) as [fpd1|e] eqn:E; simpl.
  - destruct Hok as [[Hnd Hf] _]; [by eexists|]. rewrite IH.
    setoid_rewrite (λ b, add_bidders_lookup _ _ _ _ b E). fold here. split.
    + intros [Hn Hl]. repeat split; try done; [intros x Hx Hx'; specialize (Hl x Hx'); by rewrite decide_True in Hl|].
      intros b [Hb|Hb]; [by apply Hf|]. specialize (Hl b Hb). by destruct (decide (b ∈ here)).
    + intros [(_ & Hd & Hn) Hl]. split; [done|]. intros b Hb. rewrite decide_False by (intros ?; by eapply Hd). apply Hl. by right.
  - split; [by intros [? ?]|]. intros [(Hnd & _ & _) Hl]. destruct Hok as [_ [? [=]]]. split; [done|]. intros b Hb. apply Hl. by left.
Qed.

Lemma add_configs_None l (fpd fpd' : configs) b : add_configs l fpd = Ok fpd' → b ∉ config_names l → fpd' !! b = fpd !! b.
Proof.
  unfold config_names. revert fpd. induction l as [|bc l IH]; intros fpd; simpl; [by intros [= ->]|].
  destruct (add_bidders _ _ fpd) as [fpd1|e] eqn:E; simpl; [|done]. rewrite elem_of_app. intros H Hb.
  rewrite (IH _ H) by tauto. rewrite (add_bidders_lookup _ _ _ _ b E). by rewrite decide_False by tauto.
Qed.

(** A request with two configurations for a bidder, under any spelling of its name, is refused,
    and no other. *)
Theorem one_config_per_bidder p : is_ok (ExtractBidderConfigFPD (Some p)) = true ↔ NoDup (config_names (fp_BidderConfigs p)).
Proof.
  pose proof (add_configs_ok (fp_BidderConfigs p) ∅) as H. simpl.
  destruct (add_configs (fp_BidderConfigs p) ∅); simpl; split; try done; intros.
  - apply H. by eexists.
  - destruct H as [_ [? [=]]]. split; [done|]. intros. apply lookup_empty.
Qed.

(** *** The device *)
Definition device_ok (d : fDevice) : Prop :=
  0 ≤ fd_W d ∧ 0 ≤ fd_H d ∧ 0 ≤ fd_PPI d ∧ match fd_Accuracy d with Some a => 0 ≤ a | None => True end.
Lemma validateDevice_spec d : is_ok (fpd_validateDevice d) = true ↔ device_ok d.
Proof.
  unfold fpd_validateDevice, device_ok. destruct (fd_W d <? 0) eqn:?, (fd_H d <? 0) eqn:?, (fd_PPI d <? 0) eqn:?; simpl; go_bool;
    try (split; [done|]; lia).
  destruct (fd_Accuracy d) as [a|]; [destruct (a <? 0) eqn:?; go_bool|]; simpl; split; try done; lia.
Qed.
(** Whatever a configuration does to a device, the result is checked. *)
Theorem resolved_device_ok cfg dev d : resolveDevice cfg dev = Ok (Some d) → device_ok d.
Proof.
  unfold resolveDevice. intros H. assert (∃ r, (let? d := r in let? _ := fpd_validateDevice d in Ok (Some d)) = @Ok go_error _ (Some d)) as [r Hr].
  { destruct dev, (cfg ≫= o2_Device); try done; by eexists. }
  destruct r as [d'|]; [|done]. simpl in Hr. destruct (fpd_validateDevice d') eqn:E; simplify_eq/=.
  apply validateDevice_spec. by rewrite E.
Qed.
(** *** Data of the whole request *)
(** What is encoded decodes to the same members, and only an extension without members is absent. *)
Class FpdJsonLaws : Prop := {
  ext_text_empty : ∀ m, ext_text m = Ok "" → m = ∅;
  ext_text_members : ∀ o m t, ext_text m = Ok t → t ≠ "" → ext_members o t = Ok m
}.

(** A request nobody finds the publisher's data in. *)
Record no_global_data (r : fRequest) : Prop := {
  ng_site : take_data O_site (fs_Ext <$> fr_Site r) = Ok None;
  ng_app : take_data O_app (fa_Ext <$> fr_App r) = Ok None;
  ng_user : take_data O_user (fu_Ext <$> fr_User r) = Ok None;
  ng_user_data : from_option fu_Data [] (fr_User r) = [];
  ng_site_content : content_data (fr_Site r ≫= fs_Content) = [];
  ng_app_content : content_data (fr_App r ≫= fa_Content) = []
}.

Lemma rebuilt_has_no_data `{!FpdJsonLaws} {O} o (get : O → string) set taken (x y : option O) :
  (∀ t z, get (set t z) = t) → take_data o (get <$> x) = Ok taken → rebuild get set taken x = Ok y →
  take_data o (get <$> y) = Ok None.
Proof.
  intros Hset Ht. unfold rebuild. destruct x as [x|]; [|by intros [= <-]]. simpl in *.
  destruct taken as [[d m]|]; simpl.
  - assert (m !! dataKey = None) as Hm.
    { unfold take_data in Ht. destruct (match get x with EmptyString => Ok ∅ | _ => _ end) as [m0|]; simpl in Ht; [|done].
      destruct (m0 !! dataKey) as [d0|]; [|done]. destruct (d0 =s? ""); simplify_eq. apply lookup_delete_eq. }
    destruct (ext_text m) as [t|] eqn:E; simpl; [|done]. intros [= <-]. simpl. rewrite Hset. unfold take_data.
    destruct t as [|a t]; [by apply ext_text_empty in E as ->|]. rewrite (ext_text_members o _ _ E) by done. simpl. by rewrite Hm.
  - intros [= <-]. simpl. by rewrite Hset.
Qed.

Lemma ExtractGlobalFPD_moves `{!FpdJsonLaws} r g r' : ExtractGlobalFPD r = Ok (g, r') →
  (take_data O_site (fs_Ext <$> fr_Site r') = Ok None ∧ take_data O_app (fa_Ext <$> fr_App r') = Ok None ∧ take_data O_user (fu_Ext <$> fr_User r') = Ok None) ∧
  (fu_Data <$> fr_User r') = (fu_Data <$> fr_User r) ∧ (fs_Content <$> fr_Site r') = (fs_Content <$> fr_Site r) ∧
  (fa_Content <$> fr_App r') = (fa_Content <$> fr_App r).
Proof.
  unfold ExtractGlobalFPD, rbind. intros Hx. repeat (go_destruct_in Hx; [|done]). simplify_eq/=. split.
  - split_and!; (eapply rebuilt_has_no_data; [|eassumption|eassumption]; done).
  - unfold rebuild, rbind in *. split_and!; repeat case_match; simplify_eq/=; done.
Qed.

Lemma segments_note k k' d m : segments (note_data k d m) k' = if decide (k = k') then match d with [] => segments m k' | _ => d end else segments m k'.
Proof.
  unfold segments, note_data. destruct d as [|x d]; [by destruct (decide _)|]. destruct (decide (k = k')) as [<-|?].
  - by rewrite lookup_insert_eq.
  - by rewrite lookup_insert_ne.
Qed.
Lemma extracted_segments r : let og := (ExtractOpenRtbGlobalFPD r).1 in
  segments og userDataKey = from_option fu_Data [] (fr_User r) ∧
  segments og siteContentDataKey = content_data (fr_Site r ≫= fs_Content) ∧
  segments og appContentDataKey = content_data (fr_App r ≫= fa_Content).
Proof.
  simpl. rewrite !segments_note. repeat (rewrite decide_False by done || rewrite decide_True by done). unfold segments.
  rewrite !lookup_empty. simpl. split_and!; by case_match.
Qed.
Lemma give_back_content fpd k c : segments fpd k = content_data c → give_content fpd k (clear_content c) = c.
Proof. unfold give_content. intros ->. by destruct c as [[[|x d] rest]|]. Qed.

Lemma given_back (r : fRequest) g b res : let '(og, r') := ExtractOpenRtbGlobalFPD r in
  ∀ cfgs, cfgs !! b = None → resolve_bidder r' cfgs g og b = (res, []) →
  (fu_Data <$> rf_User res) = (fu_Data <$> fr_User r) ∧ (fs_Content <$> rf_Site res) = (fs_Content <$> fr_Site r) ∧
  (fa_Content <$> rf_App res) = (fa_Content <$> fr_App r).
Proof.
  destruct (ExtractOpenRtbGlobalFPD r) as [og r'] eqn:E. intros cfgs Hb H.
  pose proof (extracted_segments r) as (Hu & Hs & Ha). rewrite E in Hu, Hs, Ha. simpl in Hu, Hs, Ha.
  unfold resolve_bidder in H. rewrite Hb in H. injection H as <- Herr.
  apply app_eq_nil in Herr as [Eu Herr]. apply app_eq_nil in Herr as [Ea Herr]. apply app_eq_nil in Herr as [Es _].
  assert (fr_User r' = set_fu_Data [] <$> fr_User r ∧ fr_Site r' = (λ s, set_fs_Content (clear_content (fs_Content s)) s) <$> fr_Site r ∧
    fr_App r' = (λ a, set_fa_Content (clear_content (fa_Content a)) a) <$> fr_App r) as (Ru & Rs & Ra) by (unfold ExtractOpenRtbGlobalFPD in E; by simplify_eq).
  simpl. rewrite Ru in *. rewrite Rs in *. rewrite Ra in *. split_and!.
  - destruct (fr_User r) as [u|]; simpl in *; [|done]. unfold resolveUser in *. simpl in *.
    destruct (give_ext g userKey (fu_Ext u)); simpl in *; [|done]. rewrite Hu. by destruct (fu_Data u).
  - destruct (fr_Site r) as [s|]; simpl in *; [|done]. unfold resolveSite in *. simpl in *.
    destruct (give_ext g siteKey (fs_Ext s)); simpl in *; [|done]. by rewrite give_back_content.
  - destruct (fr_App r) as [a|]; simpl in *; [|done]. unfold resolveApp in *. simpl in *.
    destruct (give_ext g appKey (fa_Ext a)); simpl in *; [|done]. by rewrite give_back_content.
Qed.

(** When the request names the bidders for its data and nothing fails, the data is gone from the
    request every other bidder is sent, exactly the named bidders have an entry, and one without a
    configuration of its own finds the data segments where the publisher put them. *)
Theorem data_only_for_named `{!FpdJsonLaws} r p l m r' :
  fr_prebid r = Ok (Some p) → fp_Data p = Some (Some l) → ExtractFPDForBidders r = (m, [], r') →
  no_global_data r' ∧ (∀ b, is_Some (m !! b) ↔ b ∈ map NormalizeOrUnchanged l) ∧
  ∀ b res, m !! b = Some res → b ∉ config_names (fp_BidderConfigs p) →
    (fu_Data <$> rf_User res) = (fu_Data <$> fr_User r) ∧ (fs_Content <$> rf_Site res) = (fs_Content <$> fr_Site r) ∧
    (fa_Content <$> rf_App res) = (fa_Content <$> fr_App r).
Proof.
  intros Hp Hl. unfold ExtractFPDForBidders. rewrite Hp, Hl. with_strategy opaque [ExtractOpenRtbGlobalFPD] simpl.
  destruct (add_configs (fp_BidderConfigs p) ∅) as [cfgs|] eqn:Ec; with_strategy opaque [ExtractOpenRtbGlobalFPD] simpl; [|done].
  destruct (ExtractGlobalFPD _) as [[g r1]|] eqn:Eg; [|done]. cbv beta iota.
  destruct (ExtractOpenRtbGlobalFPD r1) as [og r2] eqn:Eo.
  intros Hx. injection Hx as Hr <-.
  pose proof (ExtractGlobalFPD_moves _ _ _ Eg) as ((Ms & Ma & Mu) & Du & Ds & Da). simpl in Du, Ds, Da.
  assert (∀ b, is_Some (bidders_table cfgs (Some l) !! b) → (resolve_bidder r2 cfgs g og b).2 = []) as Hclean.
  { intros b Hb. destruct (decide ((resolve_bidder r2 cfgs g og b).2 = [])) as [|Hne]; [done|].
    exfalso. apply (ResolveFPD_fails r2 cfgs g og (Some l)); [by exists b|]. by rewrite Hr. }
  destruct (ResolveFPD_clean r2 cfgs g og (Some l) Hclean) as (m' & Hm' & Hlook). rewrite Hr in Hm'. injection Hm' as <-.
  split; [|split].
  - unfold ExtractOpenRtbGlobalFPD in Eo. injection Eo as <- <-. split; simpl.
    + by destruct (fr_Site r1).
    + by destruct (fr_App r1).
    + by destruct (fr_User r1).
    + by destruct (fr_User r1).
    + destruct (fr_Site r1) as [s|]; simpl; [by destruct (fs_Content s)|done].
    + destruct (fr_App r1) as [a|]; simpl; [by destruct (fa_Content a)|done].
  - intros b. rewrite Hlook, <- (elem_of_table cfgs (Some l) b). destruct (bidders_table cfgs (Some l) !! b); by rewrite !is_Some_alt.
  - intros b res Hres Hnc. rewrite Hlook in Hres. destruct (bidders_table cfgs (Some l) !! b) as [[]|] eqn:Hb; [|done].
    specialize (Hclean b ltac:(by eexists)). destruct (resolve_bidder r2 cfgs g og b) as [res' errs] eqn:Er. simplify_eq/=.
    pose proof (given_back r1 g b res) as Hg. rewrite Eo in Hg.
    rewrite <- Du, <- Ds, <- Da. apply (Hg cfgs); [|done].
    by rewrite (add_configs_None _ _ _ b Ec Hnc), lookup_empty.
Qed.
End fpd.

(** ** A run *)
(** Two documents: one with data and one without. *)
Definition small_members (t : string) : result go_error (gmap string string) :=
  if t =s? "with" then Ok {[ "data" := "7"; "other" := "1" ]} else if t =s? "without" then Ok {[ "other" := "1" ]} else Err (PlainError "json").
Definition small_text (m : gmap string string) : result go_error string :=
  if decide (m = ∅) then Ok "" else if decide (m = {[ "other" := "1" ]}) then Ok "without" else Err (PlainError "json").
Definition small_json : FpdJson := {|
  ext_members := λ _, small_members; ext_text := small_text;
  MergePatch := λ doc patch, Ok (doc +:+ "+" +:+ patch);
  clone_user := λ u _, Ok u; clone_site := λ s _, Ok s; clone_app := λ a _, Ok a; clone_device := λ d _, Ok d
|}.
Lemma small_json_laws : @FpdJsonLaws small_json.
Proof.
  split; simpl; unfold small_text; intros; repeat case_decide; simplify_eq; reflexivity.
Qed.
Definition fpd_request : fRequest := {|
  fr_User := Some {| fu_Data := ["segment"]; fu_Ext := "with"; fu_rest := "" |};
  fr_Site := Some {| fs_ID := "1"; fs_Page := ""; fs_Content := Some {| ct_Data := ["news"]; ct_rest := "c" |}; fs_Ext := ""; fs_rest := "" |};
  fr_App := None; fr_Device := None;
  fr_prebid := Ok (Some {| fp_Data := Some (Some ["APPNEXUS"]); fp_BidderConfigs := [{| bc_Bidders := ["rubicon"]; bc_Config := None |}] |}) |}.
Definition fpd_run := @ExtractFPDForBidders small_json ["appnexus"; "rubicon"] canonical_range fpd_request.

Lemma data_only_for_named_witness : ∃ m r', fpd_run = (m, [], r') ∧ no_global_data (FJ := small_json) r' ∧ is_Some (m !! "appnexus") ∧
  ∃ res, m !! "appnexus" = Some res ∧ fu_Data <$> rf_User res = Some ["segment"].
Proof.
  eexists _, _. split; [vm_compute; reflexivity|].
  pose proof (@data_only_for_named small_json ["appnexus"; "rubicon"] canonical_range small_json_laws fpd_request _ _ _ _ eq_refl eq_refl ltac:(vm_compute; reflexivity))
    as (Hn & Hb & Hd).
  split; [exact Hn|]. assert (is_Some _) as Hs by (apply (Hb "appnexus"); vm_compute; left). split; [exact Hs|].
  destruct Hs as [res Hres]. exists res. split; [exact Hres|]. apply (Hd _ _ Hres). vm_compute. intros H. inversion H; subst; [..|inversion H2].
Defined.
Example data_put_back : (λ res, (fu_Ext <$> rf_User res, fs_Content <$> rf_Site res)) <$> fpd_run.1.1 !! "appnexus" =
  Some (Some ("without+" +:+ buildExtData "7"), Some (Some {| ct_Data := ["news"]; ct_rest := "c" |})).
Proof. vm_compute. reflexivity. Qed.
