(* ===== verification/AdServerTargeting.v ===== *)
(** * Ad server targeting: adservertargeting/
    The request may list targeting keys of its own, with a value that is fixed, read from the request
    or the query of an AMP call, or read from the response.  Values of the request are collected
    once; then every bid of the response gets its keys, merged into its extension.  The JSON
    libraries are the interface [TargetingJson]; the two caches are state; [None] is a panic.
    Proved: with paths of the documented form nothing panics and only the extensions of bids
    change, no key exceeds the length the account allows, and the fixed values are those the
    request gave.  A path that is only [ext], [seatbid] or [seatbid.bid] stops the response. *)
From S2P Require Import Prelude GoStrings Floors Targeting VideoUrls.

Record AdServerTarget := { at_Key : string; at_Source : string; at_Value : string }.
(** [rt_ByImp] is [TargetingValueByImpId]. *)
Record RequestTargetingData := { rt_SingleVal : string; rt_ByImp : gmap string string }.
Record ResponseTargetingData := { rs_Key : string; rs_HasMacro : bool; rs_Path : string }.
Record adServerTargetingData := { ad_Request : gmap string RequestTargetingData; ad_Response : list ResponseTargetingData }.

Record tBid := { tb_ID : string; tb_ImpID : string; tb_Ext : string; tb_rest : string }.
Definition set_tb_Ext e b := {| tb_ID := tb_ID b; tb_ImpID := tb_ImpID b; tb_Ext := e; tb_rest := tb_rest b |}.
Record tSeat := { ts_Seat : string; ts_Bid : list tBid; ts_Ext : string }.
(** [tr_NBR] is what [NBR.Val()] gives. *)
Record tResponse := { tr_ID : string; tr_BidID : string; tr_Cur : string; tr_CustomData : string; tr_NBR : Z; tr_Ext : string; tr_SeatBid : list tSeat }.

Inductive value_type := VT_String | VT_Number | VT_Other.
Inductive get_error := KeyPathNotFound | OtherGet (m : string).
(** [jsonparser.Get], and of [jsonutil] and [jsonpatch]: the impressions of a request as documents,
    a bid, the extension with the targeting keys, and the merge of two extensions. *)
Class TargetingJson := {
  json_get : string → list string → result get_error (string * value_type);
  json_array : string → result string (list string);
  json_bid : tBid → result string string;
  json_targeting : gmap string string → result string string;
  json_merge : string → string → result string string
}.

Section targeting.
Context {TJ : TargetingJson} {MR : MapRange}.

Definition SourceBidRequest := "bidrequest".
Definition SourceStatic := "static".
Definition SourceBidResponse := "bidresponse".
Definition bidderMacro := "{{BIDDER}}".
Definition pathDelimiter := ".".

(** ** Lookups *)
Definition verifyType (t : value_type) : bool := match t with VT_String | VT_Number => true | VT_Other => false end.
Definition typedLookup (data path : string) (keys : list string) : result string string :=
  match json_get data keys with
  | Err (OtherGet m) => Err m
  | Err KeyPathNotFound => Err ("value not found for path: " +:+ path)
  | Ok (value, t) => if verifyType t then Ok value
                     else Err ("incorrect value type for path: " +:+ path +:+ ", value can only be string or number")
  end.
Definition splitAndGet (path data delimiter : string) : result string string := typedLookup data path (Split path delimiter).
Definition verifyPrefixAndTrim (path prefix : string) : option string :=
  match Split path prefix with [first; rest] => if first =s? "" then Some rest else None | _ => None end.

(** ** Caches *)
Record requestCache := { rc_resolvedReq : string; rc_impsData : list string }.
Definition get_text (r : result get_error (string * value_type)) : result string string :=
  match r with Ok (v, _) => Ok v | Err KeyPathNotFound => Err "Key path not found" | Err (OtherGet m) => Err m end.
Definition GetImpsData (c : requestCache) : result string (list string) * requestCache :=
  match rc_impsData c with
  | [] => match (let? imps := get_text (json_get (rc_resolvedReq c) ["imp"]) in json_array imps) with
          | Ok l => (Ok l, {| rc_resolvedReq := rc_resolvedReq c; rc_impsData := l |})
          | Err e => (Err e, c)
          end
  | l => (Ok l, c)
  end.
Definition bidsCache := gmap string (gmap string string).
Definition GetBid (c : bidsCache) (bidderName bidId : string) (bid : tBid) : result string string * bidsCache :=
  let seat := default ∅ (c !! bidderName) in
  let c := <[bidderName := seat]> c in
  match seat !! bidId with
  | Some bytes => (Ok bytes, c)
  | None => match json_bid bid with
            | Ok bytes => (Ok bytes, <[bidderName := <[bidId := bytes]> seat]> c)
            | Err e => (Err e, c)
            end
  end.

(** ** Values of the request *)
Definition getValueFromQueryParam (path : string) (queryParams : gmap string (list string)) : option (result string string) :=
  match verifyPrefixAndTrim path "ext.prebid.amp.data." with
  | Some key => let val := default "" (head (default [] (queryParams !! key))) in
                Some (if val =s? "" then Err ("value not found for path: " +:+ path) else Ok val)
  | None => None
  end.
Definition imp_values (path : string) (keySplit : list string) (imps : list string) : result string (gmap string string) :=
  foldl (λ (acc : result string (gmap string string)) imp,
           let? m := acc in
           let? id := get_text (json_get imp ["id"]) in
           let? value := typedLookup imp path keySplit in
           Ok (<[id := value]> m)) (Ok ∅) imps.
Definition getValueFromImp (path : string) (c : requestCache) : result string (gmap string string) * requestCache :=
  match verifyPrefixAndTrim path "imp." with
  | Some impSplit => let '(imps, c) := GetImpsData c in ((let? l := imps in imp_values path (Split impSplit pathDelimiter) l), c)
  | None => (Ok ∅, c)
  end.
Definition getDataFromRequestJson (path : string) (c : requestCache) : result string string :=
  typedLookup (rc_resolvedReq c) path (Split path pathDelimiter).
Definition single v := {| rt_SingleVal := v; rt_ByImp := ∅ |}.
Definition getValueFromBidRequest (c : requestCache) (path : string) (queryParams : gmap string (list string))
    : result string RequestTargetingData * requestCache :=
  match getValueFromQueryParam path queryParams with
  | Some r => ((let? v := r in Ok (single v)), c)
  | None =>
      let '(impData, c) := getValueFromImp path c in
      match impData with
      | Err e => (Err e, c)
      | Ok m => if (size m =? 0)%nat then ((let? v := getDataFromRequestJson path c in Ok (single v)), c)
                else (Ok {| rt_SingleVal := ""; rt_ByImp := m |}, c)
      end
  end.

(** The objects that can be used, with a message for each defect of the others. *)
Fixpoint validate_targets (i : Z) (l : list AdServerTarget) : list AdServerTarget * list string :=
  match l with
  | [] => ([], [])
  | t :: rest =>
      let src := ToLower (at_Source t) in
      let noKey := at_Key t =s? "" in
      let noValue := at_Value t =s? "" in
      let badSource := (src ≠s? SourceStatic) && (src ≠s? SourceBidRequest) && (src ≠s? SourceBidResponse) in
      let at_index := " is empty for the ad server targeting object at index " +:+ pretty i in
      let '(kept, warnings) := validate_targets (i + 1) rest in
      (if noKey || noValue || badSource then kept else t :: kept,
       (if noKey then ["Key" +:+ at_index] else []) ++ (if noValue then ["Value" +:+ at_index] else []) ++
       (if badSource then ["Incorrect source for the ad server targeting object at index " +:+ pretty i] else []) ++ warnings)
  end.
Definition validateAdServerTargeting (l : list AdServerTarget) : list AdServerTarget * list string := validate_targets 0 l.

Definition collect_state : Type := adServerTargetingData * list string * requestCache.
Definition collect_one (queryParams : gmap string (list string)) (st : collect_state) (t : AdServerTarget) : collect_state :=
  let '(d, warnings, c) := st in
  let source := ToLower (at_Source t) in
  if source =s? SourceBidRequest then
    let '(value, c) := getValueFromBidRequest c (at_Value t) queryParams in
    match value with
    | Err e => (d, warnings ++ [e], c)
    | Ok v => ({| ad_Request := <[at_Key t := v]> (ad_Request d); ad_Response := ad_Response d |}, warnings, c)
    end
  else if source =s? SourceStatic then
    ({| ad_Request := <[at_Key t := single (at_Value t)]> (ad_Request d); ad_Response := ad_Response d |}, warnings, c)
  else if source =s? SourceBidResponse then
    ({| ad_Request := ad_Request d;
        ad_Response := ad_Response d ++ [{| rs_Key := at_Key t; rs_HasMacro := strContains (ToUpper (at_Key t)) bidderMacro; rs_Path := at_Value t |}] |},
     warnings, c)
  else st.
(** [adServerTargeting] is what reading the request's extension gives. *)
Definition collect (adServerTargeting : option (list AdServerTarget)) (resolvedRequest : string) (queryParams : gmap string (list string))
    : option adServerTargetingData * list string :=
  match adServerTargeting with
  | None => (None, ["unable to extract adServerTargeting from request"])
  | Some l =>
      let '(l, warnings) := validateAdServerTargeting l in
      let '(d, warnings, _) := foldl (collect_one queryParams) ({| ad_Request := ∅; ad_Response := [] |}, warnings, {| rc_resolvedReq := resolvedRequest; rc_impsData := [] |}) l in
      (Some d, warnings)
  end.
(** ** Values for a bid *)
Definition processRequestTargetingData (d : adServerTargetingData) (targetingData : gmap string string) (bidImpId : string) : gmap string string :=
  foldl (λ (m : gmap string string) '(key, val),
           if rt_SingleVal val ≠s? "" then <[key := rt_SingleVal val]> m
           else if (size (rt_ByImp val) =? 0)%nat then m
           else <[key := default "" (rt_ByImp val !! bidImpId)]> m) targetingData (map_range (ad_Request d)).

Definition resolveKey (r : ResponseTargetingData) (bidderName : string) : string :=
  if rs_HasMacro r then replaceAll [(bidderMacro, bidderName)] 0 (rs_Key r) else rs_Key r.

Definition getRespData (r : tResponse) (field : string) : result string string :=
  if field =s? "id" then Ok (tr_ID r)
  else if field =s? "bidid" then Ok (tr_BidID r)
  else if field =s? "cur" then Ok (tr_Cur r)
  else if field =s? "customdata" then Ok (tr_CustomData r)
  else if field =s? "nbr" then Ok (pretty (tr_NBR r))
  else Err ("key not found for field in bid response: " +:+ field).
(** [strings.Split(path, separator)[1]]: [None] is an index out of range. *)
Definition after (path separator : string) : option string := Split path separator !! 1%nat.
Definition getValueFromSeatBidBid (path : string) (c : bidsCache) (bidderName : string) (bid : tBid) : option (result string string * bidsCache) :=
  match GetBid c bidderName (tb_ID bid) bid with
  | (Err e, c) => Some (Err e, c)
  | (Ok bytes, c) => rest ← after path "seatbid.bid."; Some (splitAndGet rest bytes pathDelimiter, c)
  end.
Definition getValueFromExt (path separator ext : string) : option (result string string) :=
  rest ← after path separator; Some (splitAndGet rest ext pathDelimiter).

(** The value one path names; a second segment of [seatbid] that is neither [bid] nor [ext] gives
    the empty value. *)
Definition response_value (path : string) (c : bidsCache) (bidderName : string) (bid : tBid) (response : tResponse) (seatExt : string)
    : option (result string string * bidsCache) :=
  let pathSplit := Split path pathDelimiter in
  first ← head pathSplit;
  if first =s? "seatbid" then
    second ← pathSplit !! 1%nat;
    if second =s? "bid" then getValueFromSeatBidBid path c bidderName bid
    else if second =s? "ext" then (λ r, (r, c)) <$> getValueFromExt path "seatbid.ext." seatExt
    else Some (Ok "", c)
  else if first =s? "ext" then (λ r, (r, c)) <$> getValueFromExt path "ext." (tr_Ext response)
  else Some (getRespData response path, c).

Fixpoint processResponseTargetingData (l : list ResponseTargetingData) (targetingData : gmap string string) (bidderName : string) (bid : tBid)
    (c : bidsCache) (response : tResponse) (seatExt : string) : option (gmap string string * list string * bidsCache) :=
  match l with
  | [] => Some (targetingData, [], c)
  | r :: rest =>
      '(value, c) ← response_value (rs_Path r) c bidderName bid response seatExt;
      let '(targetingData, here) :=
        match value with
        | Ok v => (<[resolveKey r bidderName := v]> targetingData, [])
        | Err e => (targetingData, [e +:+ " for bidder: " +:+ bidderName +:+ ", bid id: " +:+ tb_ID bid])
        end in
      '(targetingData, warnings, c) ← processResponseTargetingData rest targetingData bidderName bid c response seatExt;
      Some (targetingData, here ++ warnings, c)
  end.

Definition truncateTargetingKeys (targetingData : gmap string string) (truncateTargetAttribute : option Z) : gmap string string :=
  foldl (λ (m : gmap string string) '(key, value), <[TruncateKey key "" (max_key_length truncateTargetAttribute) := value]> m) ∅ (map_range targetingData).
(** The warnings of a failure are appended to a copy the caller never sees. *)
Definition buildBidExt (targetingData : gmap string string) (bid : tBid) (truncateTargetAttribute : option Z) : string :=
  match json_targeting (truncateTargetingKeys targetingData truncateTargetAttribute) with
  | Err _ => ""
  | Ok bidExtTargeting => match json_merge (tb_Ext bid) bidExtTargeting with Ok newExt => newExt | Err _ => "" end
  end.

Section resolve.
Context (d : option adServerTargetingData) (truncateTargetAttribute : option Z).
(** The paths are read in the response as it is: of it only extensions of bids change. *)
Context (response : tResponse).

Fixpoint resolve_bids (seat : tSeat) (bids : list tBid) (c : bidsCache) : option (list tBid * list string * bidsCache) :=
  match bids with
  | [] => Some ([], [], c)
  | bid :: rest =>
      d ← d;
      let targetingData := processRequestTargetingData d ∅ (tb_ImpID bid) in
      '(targetingData, here, c) ← processResponseTargetingData (ad_Response d) targetingData (ts_Seat seat) bid c response (ts_Ext seat);
      let bid := set_tb_Ext (buildBidExt targetingData bid truncateTargetAttribute) bid in
      '(bids, warnings, c) ← resolve_bids seat rest c;
      Some (bid :: bids, here ++ warnings, c)
  end.
Fixpoint resolve_seats (seats : list tSeat) (c : bidsCache) : option (list tSeat * list string) :=
  match seats with
  | [] => Some ([], [])
  | seat :: rest =>
      '(bids, here, c) ← resolve_bids seat (ts_Bid seat) c;
      '(seats, warnings) ← resolve_seats rest c;
      Some ({| ts_Seat := ts_Seat seat; ts_Bid := bids; ts_Ext := ts_Ext seat |} :: seats, here ++ warnings)
  end.
End resolve.
Definition set_tr_SeatBid s r := {| tr_ID := tr_ID r; tr_BidID := tr_BidID r; tr_Cur := tr_Cur r; tr_CustomData := tr_CustomData r; tr_NBR := tr_NBR r; tr_Ext := tr_Ext r; tr_SeatBid := s |}.
Definition resolve (d : option adServerTargetingData) (response : tResponse) (warnings : list string) (truncateTargetAttribute : option Z)
    : option (tResponse * list string) :=
  '(seats, more) ← resolve_seats d truncateTargetAttribute response (tr_SeatBid response) ∅;
  Some (set_tr_SeatBid seats response, warnings ++ more).

(** [general] is the list of general warnings of the response, [None] where that map is nil. *)
Definition ApplyTargeting (adServerTargeting : option (list AdServerTarget)) (resolvedRequest : string) (response : tResponse)
    (queryParams : gmap string (list string)) (general : option (list string)) (truncateTargetAttribute : option Z)
    : option (tResponse * option (list string)) :=
  let '(d, warnings) := collect adServerTargeting resolvedRequest queryParams in
  '(response, warnings) ← resolve d response warnings truncateTargetAttribute;
  match warnings with
  | [] => Some (response, general)
  | _ => general ← general; Some (response, Some (general ++ warnings))
  end.
End targeting.

(** ** Correctness *)
(** *** Paths *)
Lemma split_from_cons sep s cur k : ∃ x l, split_from sep s cur k = x :: l.
Proof.
  revert cur k. induction s as [|a s IH]; intros cur k; cbn [split_from]; [by do 2 eexists|].
  destruct k; [|apply IH]. destruct (String.prefix sep _); [by do 2 eexists|apply IH].
Qed.
Lemma Split_prefix s sep : HasPrefix s sep = true → sep ≠ "" → is_Some (Split s sep !! 1%nat).
Proof.
  unfold Split, HasPrefix. destruct sep as [|a sep]; [done|]. destruct s as [|b s]; [done|]. intros H _.
  change (is_Some ((if String.prefix (String a sep) (String b s) then "" :: split_from (String a sep) s "" (pred (String.length (String a sep)))
                    else split_from (String a sep) s ("" +:+ String b "") 0) !! 1%nat)).
  rewrite H. destruct (split_from_cons (String a sep) s "" (pred (String.length (String a sep)))) as (x & l & ->). by eexists.
Qed.
Lemma prefix_char (a b : ascii) s : String.prefix (String a "") (String b s) = true ↔ a = b.
Proof. simpl. destruct (ascii_dec a b) as [->|?]; split; try done. by destruct s. Qed.
(** A split at a character: the first part, and the split of what follows the character. *)
Lemma split_char a s cur first rest : split_from (String a "") s cur 0 = first :: rest →
  (rest = [] ∧ first = cur +:+ s) ∨ ∃ t1 t2, first = cur +:+ t1 ∧ s = t1 +:+ String a t2 ∧ rest = split_from (String a "") t2 "" 0.
Proof.
  revert cur. induction s as [|b s IH]; intros cur; [intros [= <- <-]; left; by rewrite str_app_nil_r|].
  change (split_from (String a "") (String b s) cur 0) with
    (if String.prefix (String a "") (String b s) then cur :: split_from (String a "") s "" 0 else split_from (String a "") s (cur +:+ String b "") 0).
  destruct (String.prefix _ _) eqn:E.
  - apply prefix_char in E as ->. intros [= <- <-]. right. exists "", s. by rewrite str_app_nil_r.
  - intros [[-> ->]|(t1 & t2 & -> & -> & ->)]%IH; [left|right].
    + by rewrite str_app_assoc.
    + exists (String b t1), t2. by rewrite str_app_assoc.
Qed.

(** The paths whose value cannot be looked up, because nothing follows the part that is cut off. *)
Definition bare_paths : list string := ["ext"; "seatbid"; "seatbid.ext"; "seatbid.bid"].

Lemma after_dotted p head t : p = head +:+ t → head ≠ "" → is_Some (after p head).
Proof. intros -> Hh. apply Split_prefix; [apply HasPrefix_spec; by eexists|done]. Qed.

Section laws.
Context {TJ : TargetingJson} {MR : MapRange}.

Lemma getValueFromExt_total p separator ext : is_Some (after p separator) → is_Some (getValueFromExt p separator ext).
Proof. unfold getValueFromExt. intros [x ->]. by eexists. Qed.
Lemma getValueFromSeatBidBid_total p c bidderName bid : is_Some (after p "seatbid.bid.") → is_Some (getValueFromSeatBidBid p c bidderName bid).
Proof. unfold getValueFromSeatBidBid. intros [x ->]. destruct (GetBid _ _ _ _) as [[|] ?]; by eexists. Qed.

Lemma response_value_total p c bidderName bid response seatExt : p ∉ bare_paths → is_Some (response_value p c bidderName bid response seatExt).
Proof.
  intros Hp. unfold response_value. change (Split p pathDelimiter) with (split_from "." p "" 0).
  destruct (split_from_cons "." p "" 0) as (first & rest & E). rewrite E. cbn [head mbind option_bind].
  apply split_char in E as [[-> ->]|(t1 & t2 & -> & Hs & ->)].
  - rewrite str_app_nil_l. destruct (p =s? "seatbid") eqn:E1; [go_bool; subst; destruct Hp; unfold bare_paths; set_solver|].
    destruct (p =s? "ext") eqn:E2; [go_bool; subst; destruct Hp; unfold bare_paths; set_solver|]. by eexists.
  - destruct (split_from_cons "." t2 "" 0) as (second & rest & E2). rewrite E2. cbn [lookup list_lookup mbind option_bind].
    rewrite str_app_nil_l. destruct (t1 =s? "seatbid") eqn:E1.
    + go_bool. subst t1. apply split_char in E2 as [[-> ->]|(u1 & u2 & -> & -> & ->)]; rewrite str_app_nil_l.
      * destruct (t2 =s? "bid") eqn:E3; [go_bool; subst; destruct Hp; unfold bare_paths; set_solver|].
        destruct (t2 =s? "ext") eqn:E4; [go_bool; subst; destruct Hp; unfold bare_paths; set_solver|]. by eexists.
      * destruct (u1 =s? "bid") eqn:E3; [go_bool; subst; apply getValueFromSeatBidBid_total; by apply (after_dotted _ _ u2)|].
        destruct (u1 =s? "ext") eqn:E4; [|by eexists]. go_bool. subst. apply fmap_is_Some, getValueFromExt_total. by apply (after_dotted _ _ u2).
    + destruct (t1 =s? "ext") eqn:E3; [|by eexists]. go_bool. subst. apply fmap_is_Some, getValueFromExt_total. by apply (after_dotted _ _ t2).
Qed.

Lemma processResponse_total l td bidderName bid c response seatExt : Forall (λ r, rs_Path r ∉ bare_paths) l →
  is_Some (processResponseTargetingData l td bidderName bid c response seatExt).
Proof.
  intros Hl. revert td c. induction Hl as [|r l Hr Hl IH]; intros td c; simpl; [by eexists|].
  destruct (response_value_total (rs_Path r) c bidderName bid response seatExt Hr) as [[value c'] ->]. simpl.
  destruct value as [v|e]; simpl.
  - destruct (IH (<[resolveKey r bidderName := v]> td) c') as [[[? ?] ?] ->]. by eexists.
  - destruct (IH td c') as [[[? ?] ?] ->]. by eexists.
Qed.

(** *** Only extensions of bids change *)
Definition erase_bids (l : list tBid) : list tBid := map (set_tb_Ext "") l.
Definition erase_seat (s : tSeat) : tSeat := {| ts_Seat := ts_Seat s; ts_Bid := erase_bids (ts_Bid s); ts_Ext := ts_Ext s |}.
Definition erase (r : tResponse) : tResponse := set_tr_SeatBid (map erase_seat (tr_SeatBid r)) r.

Lemma resolve_bids_total d trunc response seat bids c : Forall (λ r, rs_Path r ∉ bare_paths) (ad_Response d) →
  ∃ bids' w c', resolve_bids (Some d) trunc response seat bids c = Some (bids', w, c') ∧ erase_bids bids' = erase_bids bids.
Proof.
  intros Hd. revert c. induction bids as [|bid bids IH]; intros c; simpl; [by do 3 eexists|].
  destruct (processResponse_total (ad_Response d) (processRequestTargetingData d ∅ (tb_ImpID bid)) (ts_Seat seat) bid c response (ts_Ext seat) Hd)
    as [[[td w] c1] ->]. simpl. destruct (IH c1) as (bids' & w' & c2 & -> & He). simpl. do 3 eexists. split; [done|]. simpl. by rewrite He.
Qed.
Lemma resolve_seats_total d trunc response seats c : Forall (λ r, rs_Path r ∉ bare_paths) (ad_Response d) →
  ∃ seats' w, resolve_seats (Some d) trunc response seats c = Some (seats', w) ∧ map erase_seat seats' = map erase_seat seats.
Proof.
  intros Hd. revert c. induction seats as [|seat seats IH]; intros c; simpl; [by do 2 eexists|].
  destruct (resolve_bids_total d trunc response seat (ts_Bid seat) c Hd) as (bids & w & c1 & -> & He). simpl.
  destruct (IH c1) as (seats' & w' & -> & Hs). simpl. do 2 eexists. split; [done|]. simpl. rewrite Hs. unfold erase_seat at 1. simpl. by rewrite He.
Qed.

(** The paths [collect] keeps are values of the request's objects. *)
Lemma collect_paths qp l st : Forall (λ t, at_Value t ∉ bare_paths) l → Forall (λ r, rs_Path r ∉ bare_paths) (ad_Response st.1.1) →
  Forall (λ r, rs_Path r ∉ bare_paths) (ad_Response (foldl (collect_one qp) st l).1.1).
Proof.
  intros Hl. revert st. induction Hl as [|t l Ht Hl IH]; intros [[d w] c] Hst; simpl; [done|]. apply IH. unfold collect_one.
  destruct (_ =s? SourceBidRequest); [destruct (getValueFromBidRequest _ _ _) as [[|] ?]; done|].
  destruct (_ =s? SourceStatic); [done|]. destruct (_ =s? SourceBidResponse); [|done]. simpl. apply Forall_app. by split; [|constructor].
Qed.
Lemma validate_targets_sublist i l : (validate_targets i l).1 `sublist_of` l.
Proof.
  revert i. induction l as [|t l IH]; intros i; simpl; [constructor|]. specialize (IH (i + 1)). destruct (validate_targets (i + 1) l) as [kept w].
  simpl in *. destruct (_ || _ || _); by constructor.
Qed.

(** With targets whose values are not bare paths, a response always comes out, the same up to
    the extensions of its bids, and the warnings it had are kept. *)
Theorem targeting_total targets resolvedRequest response qp general trunc :
  Forall (λ t, at_Value t ∉ bare_paths) targets →
  ∃ response' more, ApplyTargeting (Some targets) resolvedRequest response qp (Some general) trunc = Some (response', Some (general ++ more)) ∧
    erase response' = erase response.
Proof.
  intros Ht. unfold ApplyTargeting, collect, validateAdServerTargeting.
  pose proof (validate_targets_sublist 0 targets) as Hsub. destruct (validate_targets 0 targets) as [l w0]. simpl in Hsub.
  assert (Forall (λ t, at_Value t ∉ bare_paths) l) as Hl by (rewrite Forall_forall in *; intros t Hin; apply Ht; by eapply elem_of_sublist).
  pose proof (collect_paths qp l ({| ad_Request := ∅; ad_Response := [] |}, w0, {| rc_resolvedReq := resolvedRequest; rc_impsData := [] |}) Hl ltac:(constructor)) as Hd.
  destruct (foldl _ _ l) as [[d w] c]. simpl in Hd. unfold resolve.
  destruct (resolve_seats_total d trunc response (tr_SeatBid response) ∅ Hd) as (seats & more & -> & He). simpl.
  assert (erase (set_tr_SeatBid seats response) = erase response) as Her by (unfold erase; simpl; by rewrite He).
  destruct (w ++ more) as [|x ws]; simpl; [exists (set_tr_SeatBid seats response), []; by rewrite app_nil_r|]. by do 2 eexists.
Qed.

(** *** Keys *)
Theorem targeting_keys_fit targetingData trunc k v :
  truncateTargetingKeys targetingData trunc !! k = Some v → Z.of_nat (String.length k) ≤ max_key_length trunc.
Proof.
  unfold truncateTargetingKeys. set (fit := λ m : gmap string string, map_Forall (λ k _, Z.of_nat (String.length k) ≤ max_key_length trunc) m).
  enough (∀ l m, fit m → fit (foldl (λ (m : gmap string string) '(key, value), <[TruncateKey key "" (max_key_length trunc) := value]> m) m l)) as H.
  { intros Hk. eapply (H (map_range targetingData) ∅); [apply map_Forall_empty|exact Hk]. }
  assert (0 < max_key_length trunc) as Hpos by (unfold max_key_length, MaxKeyLength; destruct trunc as [n|]; [destruct (0 <? n) eqn:E; go_bool|]; lia).
  induction l as [|[key value] l IH]; intros m Hm; simpl; [done|]. apply IH. apply map_Forall_insert_2; [|done].
  unfold TruncateKey. rewrite (proj2 (Z.ltb_lt _ _) Hpos). unfold truncate.
  pose proof (substring_length (Z.to_nat (max_key_length trunc)) ("" +:+ key)). lia.
Qed.
End laws.

(** ** Runs *)
(** A lookup that answers with the document and the keys it was asked for. *)
Definition echo_json : TargetingJson := {|
  json_get := λ data keys, Ok (data +:+ ":" +:+ String.concat "/" keys, VT_String);
  json_array := λ _, Ok [];
  json_bid := λ b, Ok (tb_rest b);
  json_targeting := λ m, Ok (String.concat "," (map (λ kv, kv.1 +:+ "=" +:+ kv.2) (map_to_list m)));
  json_merge := λ ext patch, Ok (ext +:+ patch)
|}.
Definition one_bid (id rest : string) : tBid := {| tb_ID := id; tb_ImpID := "i"; tb_Ext := ""; tb_rest := rest |}.
Definition response_of (bids : list tBid) : tResponse :=
  {| tr_ID := "r"; tr_BidID := ""; tr_Cur := "USD"; tr_CustomData := ""; tr_NBR := 0; tr_Ext := "E"; tr_SeatBid := [{| ts_Seat := "s"; ts_Bid := bids; ts_Ext := "" |}] |}.
Definition target (key source value : string) : AdServerTarget := {| at_Key := key; at_Source := source; at_Value := value |}.

Lemma targeting_total_witness : let TJ := echo_json in let MR := canonical_range in
  ∃ response' more, ApplyTargeting (Some [target "k" "static" "v"; target "c" "bidresponse" "cur"]) "" (response_of [one_bid "b" "x"]) ∅ (Some ["w"]) None =
    Some (response', Some (["w"] ++ more)) ∧ erase response' = erase (response_of [one_bid "b" "x"]).
Proof.
  apply (@targeting_total echo_json canonical_range [target "k" "static" "v"; target "c" "bidresponse" "cur"] "" (response_of [one_bid "b" "x"]) ∅ ["w"] None).
  repeat constructor; vm_compute; intros H; repeat (inversion H; clear H; subst; rename select (_ ∈ _) into H); inversion H.
Defined.
Definition exts_of (r : option (tResponse * option (list string))) : option (list string) :=
  (λ r, concat (map (λ s, map tb_Ext (ts_Bid s)) (tr_SeatBid r.1))) <$> r.
Example targeting_run : let TJ := echo_json in let MR := canonical_range in
  exts_of (ApplyTargeting (Some [target "k" "static" "v"; target "c_{{BIDDER}}" "bidresponse" "cur"; target "" "static" "v"]) "" (response_of [one_bid "b" "x"]) ∅ (Some []) None) =
    Some ["k=v,c_s=USD"].
Proof. vm_compute. reflexivity. Qed.

(** A target of the request whose value is a bare path: the handler panics on the first bid. *)
Theorem bare_path_panics {TJ : TargetingJson} {MR : MapRange} : ∀ path, path ∈ ["ext"; "seatbid"; "seatbid.ext"] →
  ApplyTargeting (Some [target "k" "bidresponse" path]) "" (response_of [one_bid "b" "x"]) ∅ (Some []) None = None.
Proof. intros path H. repeat (apply elem_of_cons in H as [->|H]; [reflexivity|]). by apply elem_of_nil in H. Qed.
(** And so does a list of targets that could not be read. *)
Theorem unread_targets_panic {TJ : TargetingJson} {MR : MapRange} resolvedRequest qp general trunc :
  ApplyTargeting None resolvedRequest (response_of [one_bid "b" "x"]) qp general trunc = None.
Proof. reflexivity. Qed.
(** A path with a second [ext.] is cut there: the key after it is never asked for. *)
Example nested_ext_is_cut : let TJ := echo_json in
  response_value "ext.prebid.ext.key" ∅ "s" (one_bid "b" "x") (response_of []) "" = Some (Ok "E:prebid/", ∅).
Proof. vm_compute. reflexivity. Qed.
(** Two bids of a seat with one id: the second is given the first one's value. *)
Example same_id_shares_value : let TJ := echo_json in let MR := canonical_range in
  exts_of (ApplyTargeting (Some [target "k" "bidresponse" "seatbid.bid.adm"]) "" (response_of [one_bid "b" "first"; one_bid "b" "second"]) ∅ (Some []) None) =
    Some ["k=first:adm"; "k=first:adm"].
Proof. vm_compute. reflexivity. Qed.
(** Two keys that agree up to the maximal length: the order of Go's map decides which value stays. *)
Example truncation_depends_on_order :
  let m : gmap string string := {[ "a_key_of_twenty_chars_1" := "1"; "a_key_of_twenty_chars_2" := "2" ]} in
  truncateTargetingKeys (MR := canonical_range) m None ≠ truncateTargetingKeys (MR := reversed_range) m None.
Proof.
  intros m H. apply (f_equal (λ m : gmap string string, m !! "a_key_of_twenty_char")) in H. vm_compute in H. discriminate.
Qed.
