(* ===== verification/VideoPods.v ===== *)
(** * Ad pods: endpoints/openrtb2/video_auction.go
    The video endpoint of the exchange takes a request for ad pods, breaks of a given length in a
    stream, and turns every pod into impressions, as many as the shortest ad fits into it.  Their
    ids carry the pod, and the bids that come back are sorted into the pods by them.  Modelled
    are the validation of the request, the removal of bad pods, the impressions, and the
    response; [None] is a panic.
    Proved: the pods that remain are exactly the good ones, with distinct ids; a validated request
    panics only where a pod needs more impressions than a slice can hold, its impressions have exactly the ids of
    its pods and the durations asked for; and a bid
    on an impression is put into the pod the impression was made for. *)
From S2P Require Import Prelude GoStrings ErrorTypes Targeting VideoUrls EventsSpec.

Record Pod := { pd_PodId : Z; pd_AdPodDurationSec : Z; pd_ConfigId : string }.
Record podVideo := { pv_MIMEs : list string; pv_Protocols : list Z; pv_MinDuration : Z; pv_MaxDuration : Z; pv_rest : string }.
(** [vq_App] has [id] and [bundle], [vq_Site] has [id] and [page]. *)
Record BidRequestVideo := {
  vq_StoredRequestId : string; vq_DurationRangeSec : list Z; vq_RequireExactDuration : bool; vq_Pods : list Pod;
  vq_App : option (string * string); vq_Site : option (string * string); vq_Video : option podVideo
}.
Definition set_vq_Pods p q := {| vq_StoredRequestId := vq_StoredRequestId q; vq_DurationRangeSec := vq_DurationRangeSec q;
  vq_RequireExactDuration := vq_RequireExactDuration q; vq_Pods := p; vq_App := vq_App q; vq_Site := vq_Site q; vq_Video := vq_Video q |}.
Definition set_vq_Video v q := {| vq_StoredRequestId := vq_StoredRequestId q; vq_DurationRangeSec := vq_DurationRangeSec q;
  vq_RequireExactDuration := vq_RequireExactDuration q; vq_Pods := vq_Pods q; vq_App := vq_App q; vq_Site := vq_Site q; vq_Video := v |}.
Record PodError := { pe_PodId : Z; pe_PodIndex : nat; pe_ErrMsgs : list string }.

(** ** Validation *)
Definition isZeroOrNegativeDuration (duration : list Z) : bool := existsb (λ v, v <=? 0) duration.

Definition pod_messages (seen : gset Z) (ind : nat) (pod : Pod) : list string :=
  (if bool_decide (pd_PodId pod ∈ seen) then ["request duplicated required field: PodConfig.Pods.PodId, Pod id: " +:+ pretty (pd_PodId pod)] else []) ++
  (if pd_PodId pod <=? 0 then ["request missing required field: PodConfig.Pods.PodId, Pod index: " +:+ pretty ind] else []) ++
  (if pd_AdPodDurationSec pod =? 0 then ["request missing or incorrect required field: PodConfig.Pods.AdPodDurationSec, Pod index: " +:+ pretty ind] else []) ++
  (if pd_AdPodDurationSec pod <? 0 then ["request incorrect required field: PodConfig.Pods.AdPodDurationSec is negative, Pod index: " +:+ pretty ind] else []) ++
  (if pd_ConfigId pod =s? "" then ["request missing or incorrect required field: PodConfig.Pods.ConfigId, Pod index: " +:+ pretty ind] else []).
(** The loop over the pods, with the ids seen so far. *)
Fixpoint pod_errors (seen : gset Z) (ind : nat) (pods : list Pod) : list PodError :=
  match pods with
  | [] => []
  | pod :: rest =>
      let more := pod_errors ({[pd_PodId pod]} ∪ seen) (S ind) rest in
      match pod_messages seen ind pod with
      | [] => more
      | msgs => {| pe_PodId := pd_PodId pod; pe_PodIndex := ind; pe_ErrMsgs := msgs |} :: more
      end
  end.

Definition when (b : bool) (m : string) : list go_error := if b then [PlainError m] else [].
(** The errors of the request's video, and the video with the empty types taken out. *)
Definition validate_pod_video (v : option podVideo) : list go_error * option podVideo :=
  match v with
  | None => ([PlainError "request missing required field: Video"], None)
  | Some v =>
      let mimes := filter (λ m, m ≠ "") (pv_MIMEs v) in
      let protocols := when (bool_decide (pv_Protocols v = [])) "request missing required field: Video.Protocols" in
      match pv_MIMEs v with
      | [] => (PlainError "request missing required field: Video.Mimes" :: protocols, Some v)
      | _ => (when (bool_decide (mimes = [])) "request missing required field: Video.Mimes, mime types contains empty strings only" ++ protocols,
              Some {| pv_MIMEs := mimes; pv_Protocols := pv_Protocols v; pv_MinDuration := pv_MinDuration v; pv_MaxDuration := pv_MaxDuration v; pv_rest := pv_rest v |})
      end
  end.
(** [Err] is the early return for a blocked app. *)
Definition validate_inventory (blockedApps : gset string) (q : BidRequestVideo) : result go_error (list go_error) :=
  match vq_App q, vq_Site q with
  | None, None => Ok (when true "request missing required field: site or app")
  | Some _, Some _ => Ok (when true "request.site or request.app must be defined, but not both")
  | None, Some (id, page) => Ok (when ((id =s? "") && (page =s? "")) "request.site missing required field: id or page")
  | Some (id, bundle), None =>
      if id =s? "" then Ok (when (bundle =s? "") "request.app missing required field: id or bundle")
      else if bool_decide (id ∈ blockedApps) then Err (BlockedApp ("Prebid-server does not process requests from App ID: " +:+ id))
      else Ok []
  end.
Definition validateVideoRequest (storedRequired : bool) (blockedApps : gset string) (q : BidRequestVideo)
    : list go_error * list PodError * BidRequestVideo :=
  let errL := when (storedRequired && (vq_StoredRequestId q =s? "")) "request missing required field: storedrequestid" ++
              when (bool_decide (vq_DurationRangeSec q = [])) "request missing required field: PodConfig.DurationRangeSec" ++
              when (isZeroOrNegativeDuration (vq_DurationRangeSec q)) "duration array cannot contain negative or zero values" ++
              when (bool_decide (vq_Pods q = [])) "request missing required field: PodConfig.Pods" in
  let podErrors := pod_errors ∅ 0 (vq_Pods q) in
  match validate_inventory blockedApps q with
  | Err e => (errL ++ [e], podErrors, q)
  | Ok inv => let '(video, v) := validate_pod_video (vq_Video q) in (errL ++ inv ++ video, podErrors, set_vq_Video v q)
  end.

(** ** Impressions *)
Definition remove_at {A} (i : nat) (l : list A) : list A := take i l ++ drop (S i) l.
(** From the last error to the first, so that the indices stay good. *)
Definition cleanupVideoBidRequest (q : BidRequestVideo) (podErrors : list PodError) : BidRequestVideo :=
  set_vq_Pods (foldr (λ e pods, remove_at (pe_PodIndex e) pods) (vq_Pods q) podErrors) q.

(** Go's division: a zero divisor panics, and only the least integer by -1 overflows. *)
Definition go_div (a b : Z) : option Z :=
  if b =? 0 then None else if (a =? - two63) && (b =? -1) then Some a else Some (Z.quot a b).
Definition minMax (array : list Z) : option (Z * Z) :=
  match array with
  | [] => None
  | x :: _ => Some (foldl (λ '(mn, mx) v, (if v <? mn then v else mn, if mx <? v then v else mx)) (x, x) array)
  end.

Record podImp := { pi_ID : string; pi_Video : podVideo; pi_rest : string }.
Definition set_durations mn mx v := {| pv_MIMEs := pv_MIMEs v; pv_Protocols := pv_Protocols v; pv_MinDuration := mn; pv_MaxDuration := mx; pv_rest := pv_rest v |}.

Section impressions.
(** The longest slice of impressions the runtime can make, and a stored impression, [None] when it
    cannot be fetched or decoded. *)
Context (maxImps : Z) (loadStoredImp : string → option string).

(** The durations of the impression at [impInd]: the minimum, if it is set, and the maximum. *)
Definition imp_durations (videoDur : list Z) (exact : bool) (maxDuration impDivNumber : Z) (impInd : nat) : option (option Z * Z) :=
  if exact then
    i ← go_div (Z.of_nat impInd) impDivNumber;
    let i := if Z.of_nat (length videoDur) - 1 <? i then Z.of_nat (length videoDur) - 1 else i in
    d ← videoDur !! Z.to_nat i;
    Some (Some d, d)
  else Some (None, maxDuration).
Definition pod_imp (videoDur : list Z) (exact : bool) (maxDuration impDivNumber : Z) (video : podVideo) (stored : string) (podId : Z) (impInd : nat) : option podImp :=
  '(mn, mx) ← imp_durations videoDur exact maxDuration impDivNumber impInd;
  Some {| pi_ID := pretty podId +:+ "_" +:+ pretty impInd; pi_Video := set_durations (default (pv_MinDuration video) mn) mx video; pi_rest := stored |}.
Definition pod_imps (videoDur : list Z) (exact : bool) (minDuration maxDuration : Z) (video : option podVideo) (stored : string) (pod : Pod) : option (list podImp) :=
  numImps ← go_div (pd_AdPodDurationSec pod) minDuration;
  let numImps := if exact then Z.max numImps (Z.of_nat (length videoDur)) else numImps in
  impDivNumber ← go_div numImps (Z.of_nat (length videoDur));
  if (numImps <? 0) || (maxImps <? numImps) then None
  else if numImps =? 0 then Some []
  else video ← video; mapM (pod_imp videoDur exact maxDuration impDivNumber video stored (pd_PodId pod)) (seq 0 (Z.to_nat numImps)).

Definition unloaded (ind : nat) (pod : Pod) : PodError :=
  {| pe_PodId := pd_PodId pod; pe_PodIndex := ind;
     pe_ErrMsgs := ["unable to load configid " +:+ pd_ConfigId pod +:+ ", Pod id: " +:+ pretty (pd_PodId pod)] |}.
Fixpoint pods_imps (q : BidRequestVideo) (minDuration maxDuration : Z) (ind : nat) (pods : list Pod) : option (list podImp * list PodError) :=
  match pods with
  | [] => Some ([], [])
  | pod :: rest =>
      match loadStoredImp (pd_ConfigId pod) with
      | None => '(imps, errs) ← pods_imps q minDuration maxDuration (S ind) rest; Some (imps, unloaded ind pod :: errs)
      | Some stored =>
          here ← pod_imps (vq_DurationRangeSec q) (vq_RequireExactDuration q) minDuration maxDuration (vq_Video q) stored pod;
          '(imps, errs) ← pods_imps q minDuration maxDuration (S ind) rest; Some (here ++ imps, errs)
      end
  end.
Definition createImpressions (q : BidRequestVideo) (podErrors : list PodError) : option (list podImp * list PodError) :=
  '(minDuration, maxDuration) ← minMax (vq_DurationRangeSec q);
  '(imps, errs) ← pods_imps q minDuration maxDuration 0 (vq_Pods q);
  Some (imps, podErrors ++ errs).

(** The part of the endpoint from the decoded request to the impressions of the auction: the
    errors it answers with, or the impressions and the errors of pods. *)
Definition video_imps (storedRequired : bool) (blockedApps : gset string) (q : BidRequestVideo)
    : option (result (list go_error) (list podImp * list PodError)) :=
  let '(errL, podErrors, q) := validateVideoRequest storedRequired blockedApps q in
  match errL with
  | _ :: _ => Some (Err errL)
  | [] =>
      let initialPodNumber := length (vq_Pods q) in
      '(imps, podErrors) ← createImpressions (cleanupVideoBidRequest q podErrors) podErrors;
      if (length podErrors =? initialPodNumber)%nat
      then Some (Err [PlainError ("all pods are incorrect: " +:+ String.concat "; " (map (λ e, String.concat ", " (pe_ErrMsgs e)) podErrors))])
      else Some (Ok (imps, podErrors))
  end.
End impressions.

(** ** The response *)
(** [strconv.ParseInt(s, 0, 64)] with its error dropped, for a text without underscores: the base
    is in the prefix, a syntax error gives zero, and a value out of range the nearest bound. *)
Definition digit_of (a : ascii) : option Z :=
  match digit a with
  | Some d => Some d
  | None => let n := Z.of_N (N_of_ascii (lower_ascii a)) in if (97 <=? n) && (n <=? 122) then Some (n - 87) else None
  end.
Fixpoint base_value (base acc : Z) (s : string) : option Z :=
  match s with
  | EmptyString => Some acc
  | String a s' =>
      match digit_of a with
      | Some d => if base <=? d then None else if two64 <=? base * acc + d then Some (base * acc + d) else base_value base (base * acc + d) s'
      | None => None
      end
  end.
Definition base_prefix (body : string) : Z * string :=
  match body with
  | String "0" (String c rest) =>
      if rest =s? "" then (8, String c rest)
      else let c' := lower_ascii c in
           if Ascii.eqb c' "b" then (2, rest) else if Ascii.eqb c' "o" then (8, rest) else if Ascii.eqb c' "x" then (16, rest) else (8, String c rest)
  | String "0" EmptyString => (8, "")
  | _ => (10, body)
  end.
Definition parse_magnitude (body : string) : option Z :=
  if body =s? "" then None else let '(base, digits) := base_prefix body in base_value base 0 digits.
Definition ParseInt0 (s : string) : Z :=
  let '(neg, body) := match s with
                      | String a rest => if Ascii.eqb a "-" then (true, rest) else if Ascii.eqb a "+" then (false, rest) else (false, s)
                      | EmptyString => (false, s)
                      end in
  match parse_magnitude body with
  | None => 0
  | Some n => if neg : bool then (if two63 <? n then - two63 else - n) else if two63 <=? n then two63 - 1 else n
  end.

(** A bid of the response; [xb_Ext] is its decoded extension: the targeting keys of [ext.prebid],
    [None] where that is nil. *)
Record xBid := { xb_ImpID : string; xb_Ext : result string (option (gmap string string)) }.
Record xSeat := { xs_Seat : string; xs_Bid : list xBid }.
Record VideoTargeting := { HbPb : string; HbPbCatDur : string; HbCacheID : string; HbDeal : string }.
Record AdPod := { pod_PodId : Z; pod_Targeting : list VideoTargeting; pod_Errors : list string }.

Definition formatTargetingKey (key bidderName : string) : string :=
  let fullKey := key +:+ "_" +:+ bidderName in
  if MaxKeyLength <? Z.of_nat (String.length fullKey) then str_take (Z.to_nat MaxKeyLength) fullKey else fullKey.
Definition key_matches (keyWithoutPrefix k : string) : bool :=
  match Index k "_" with Some (S i) => HasPrefix keyWithoutPrefix (str_drop (S i) k) | _ => false end.

Section response.
Context {MR : MapRange}.
Definition findTargetingByKey (targetingMap : gmap string string) (keyWithoutPrefix : string) : string :=
  match find (λ kv, key_matches keyWithoutPrefix kv.1) (map_range targetingMap) with Some (_, v) => v | None => "" end.
Definition bid_targeting (targeting : gmap string string) (seat : string) : VideoTargeting := {|
  HbPb := findTargetingByKey targeting (formatTargetingKey PbKey seat);
  HbPbCatDur := findTargetingByKey targeting (formatTargetingKey CategoryDurationKey seat);
  HbCacheID := findTargetingByKey targeting (formatTargetingKey VastCacheKey seat);
  HbDeal := findTargetingByKey targeting (formatTargetingKey DealKey seat)
|}.
Definition podId_of (impId : string) : Z := ParseInt0 (default "" (head (SplitChar "_" impId))).
(** The targeting goes to the first pod with the id, or to a new one at the end. *)
Fixpoint add_targeting (podId : Z) (t : VideoTargeting) (pods : list AdPod) : list AdPod :=
  match pods with
  | [] => [{| pod_PodId := podId; pod_Targeting := [t]; pod_Errors := [] |}]
  | p :: rest => if pod_PodId p =? podId
                 then {| pod_PodId := podId; pod_Targeting := pod_Targeting p ++ [t]; pod_Errors := pod_Errors p |} :: rest
                 else p :: add_targeting podId t rest
  end.
(** One bid: [None] is the panic of an extension without [prebid]. *)
Definition respond_bid (seat : string) (bid : xBid) (pods : list AdPod) : option (result string (list AdPod)) :=
  match xb_Ext bid with
  | Err e => Some (Err e)
  | Ok None => None
  | Ok (Some targeting) =>
      if findTargetingByKey targeting (formatTargetingKey VastCacheKey seat) =s? "" then Some (Ok pods)
      else Some (Ok (add_targeting (podId_of (xb_ImpID bid)) (bid_targeting targeting seat) pods))
  end.
Fixpoint respond_bids (bids : list (string * xBid)) (pods : list AdPod) : option (result string (list AdPod)) :=
  match bids with
  | [] => Some (Ok pods)
  | (seat, bid) :: rest =>
      r ← respond_bid seat bid pods;
      match r with Err e => Some (Err e) | Ok pods => respond_bids rest pods end
  end.
Definition all_bids (seats : list xSeat) : list (string * xBid) := concat (map (λ s, map (pair (xs_Seat s)) (xs_Bid s)) seats).
Definition error_pod (e : PodError) : AdPod := {| pod_PodId := pe_PodId e; pod_Targeting := []; pod_Errors := pe_ErrMsgs e |}.
Definition buildVideoResponse (seats : list xSeat) (podErrors : list PodError) : option (result string (list AdPod)) :=
  r ← respond_bids (all_bids seats) [];
  match r with
  | Err e => Some (Err e)
  | Ok adPods =>
      if bool_decide (adPods = []) && negb (bool_decide (all_bids seats = [])) then Some (Err "caching failed for all bids")
      else Some (Ok (adPods ++ map error_pod podErrors))
  end.
End response.

(** ** Correctness *)
(** *** Bad pods *)
Definition pod_ok (seen : gset Z) (pod : Pod) : bool :=
  negb (bool_decide (pd_PodId pod ∈ seen)) && (0 <? pd_PodId pod) && (0 <? pd_AdPodDurationSec pod) && negb (pd_ConfigId pod =s? "").
(** The pods with an id of their own, a length and a configuration. *)
Fixpoint good_pods (seen : gset Z) (pods : list Pod) : list Pod :=
  match pods with
  | [] => []
  | pod :: rest => (if pod_ok seen pod then [pod] else []) ++ good_pods ({[pd_PodId pod]} ∪ seen) rest
  end.

Lemma pod_messages_ok seen ind pod : pod_messages seen ind pod = [] ↔ pod_ok seen pod = true.
Proof.
  unfold pod_messages, pod_ok. destruct (bool_decide _), (pd_ConfigId pod =s? "");
    destruct (pd_PodId pod <=? 0) eqn:?, (pd_AdPodDurationSec pod =? 0) eqn:?, (pd_AdPodDurationSec pod <? 0) eqn:?,
      (0 <? pd_PodId pod) eqn:?, (0 <? pd_AdPodDurationSec pod) eqn:?; go_bool; simpl; split; try done; lia.
Qed.

Lemma remove_bad_pods seen pre pods :
  foldr (λ e pods, remove_at (pe_PodIndex e) pods) (pre ++ pods) (pod_errors seen (length pre) pods) = pre ++ good_pods seen pods.
Proof.
  revert seen pre. induction pods as [|pod pods IH]; intros seen pre; [done|]. cbn [pod_errors good_pods].
  pose proof (IH ({[pd_PodId pod]} ∪ seen) (pre ++ [pod])) as H. rewrite length_app, Nat.add_1_r in H. rewrite <- !app_assoc in H. simpl in H.
  pose proof (pod_messages_ok seen (length pre) pod) as Hm. destruct (pod_messages seen (length pre) pod) as [|m ms].
  - rewrite (proj1 Hm eq_refl). exact H.
  - destruct (pod_ok seen pod); [discriminate (proj2 Hm eq_refl)|]. simpl. rewrite H. unfold remove_at.
    rewrite take_app_length. f_equal. rewrite drop_app_ge by lia. by replace (S (length pre) - length pre)%nat with 1%nat by lia.
Qed.
(** What is left after the clean-up are the good pods, in their order. *)
Theorem cleanup_keeps_good q : vq_Pods (cleanupVideoBidRequest q (pod_errors ∅ 0 (vq_Pods q))) = good_pods ∅ (vq_Pods q).
Proof. apply (remove_bad_pods ∅ []). Qed.

Lemma good_pods_unseen seen pods : Forall (λ p, pd_PodId p ∉ seen ∧ 0 < pd_PodId p ∧ 0 < pd_AdPodDurationSec p ∧ p ∈ pods) (good_pods seen pods).
Proof.
  revert seen. induction pods as [|pod pods IH]; intros seen; simpl; [constructor|]. apply Forall_app. split.
  - destruct (pod_ok seen pod) eqn:E; [|constructor]. unfold pod_ok in E. go_bool. repeat constructor; done.
  - eapply Forall_impl; [apply IH|]. simpl. intros p (Hs & ? & ? & ?). repeat split; [set_solver|done..|by right].
Qed.
Lemma good_pods_ids seen pods : NoDup (map pd_PodId (good_pods seen pods)).
Proof.
  revert seen. induction pods as [|pod pods IH]; intros seen; simpl; [constructor|]. destruct (pod_ok seen pod); [|apply IH]. simpl.
  constructor; [|apply IH]. rewrite list_elem_of_fmap. intros (p & Hp & Hin).
  pose proof (good_pods_unseen ({[pd_PodId pod]} ∪ seen) pods) as H. rewrite Forall_forall in H. destruct (H p Hin) as [Hn _]. set_solver.
Qed.

(** *** Ids *)
Lemma digit_range a d : digit a = Some d → 0 ≤ d ≤ 9.
Proof. unfold digit. destruct (_ && _) eqn:E; [|done]. go_bool. intros [= <-]. lia. Qed.
Lemma digits_value_ge s acc n : 0 ≤ acc → digits_value acc s = Some n → acc ≤ n.
Proof.
  revert acc. induction s as [|a s IH]; intros acc Ha; simpl; [intros [= <-]; lia|]. destruct (digit a) as [d|] eqn:E; [|done].
  apply digit_range in E. intros H%IH; lia.
Qed.
Lemma base_value_10 s acc n : 0 ≤ acc → n < two64 → digits_value acc s = Some n → base_value 10 acc s = Some n.
Proof.
  intros Ha Hn. revert acc Ha. induction s as [|a s IH]; intros acc Ha; simpl; [done|]. unfold digit_of.
  destruct (digit a) as [d|] eqn:E; [|done]. apply digit_range in E. intros H.
  pose proof (digits_value_ge s (10 * acc + d) n ltac:(lia) H). rewrite (proj2 (Z.leb_gt _ _)), (proj2 (Z.leb_gt _ _)) by lia. apply IH; [lia|done].
Qed.
Lemma pretty_head_nonzero n s a r : (0 < n)%N → pretty_N_go n s = String a r → a ≠ "0"%char ∧ is_Some (digit a).
Proof.
  intros Hn E. split; [|by eapply pretty_go_head]. revert s E. induction n as [n IH] using (well_founded_induction N.lt_wf_0). intros s.
  rewrite pretty_N_go_step by done. destruct (decide (n `div` 10 = 0)%N) as [E|E].
  2:{ assert (n `div` 10 < n)%N as Hlt by (apply N.div_lt; lia). assert (0 < n `div` 10)%N as Hpos by (by apply N.neq_0_lt_0). by apply IH. }
  rewrite E, pretty_N_go_0. intros [= <- _]. pose proof (N.div_mod n 10 ltac:(lia)) as Hdm. rewrite E in Hdm.
  assert (n `mod` 10 < 10)%N as Hm by (apply N.mod_lt; lia). destruct (n `mod` 10)%N as [|p] eqn:Ep; [lia|].
  repeat (destruct p as [p|p|]; try done; try lia).
Qed.
Lemma ParseInt0_pretty z : 0 < z < two63 → ParseInt0 (pretty z) = z.
Proof.
  intros Hz. rewrite pretty_pos by lia. pose proof (digits_value_go (Z.to_N z) "" ltac:(lia)) as Hd.
  pose proof (pretty_go_nonempty (Z.to_N z) "" ltac:(lia)) as Hne. destruct (pretty_N_go (Z.to_N z) "") as [|a r] eqn:E; [done|].
  destruct (pretty_head_nonzero (Z.to_N z) "" a r ltac:(lia) E) as [H0 [d Hda]]. unfold ParseInt0.
  destruct (Ascii.eqb_spec a "-") as [->|]; [done|]. destruct (Ascii.eqb_spec a "+") as [->|]; [done|].
  assert (base_prefix (String a r) = (10, String a r)) as Hb.
  { unfold base_prefix. destruct a as [[] [] [] [] [] [] [] []]; try done. }
  unfold parse_magnitude. rewrite Hb. rewrite (proj2 (String.eqb_neq _ _) Hne).
  rewrite (base_value_10 _ _ z); [|lia|unfold two63, two64 in *; lia|rewrite Hd; simpl; f_equal; lia].
  rewrite (proj2 (Z.leb_gt _ _)) by lia. done.
Qed.

Lemma pretty_go_no_char n s : has_char "_" (pretty_N_go n s) = has_char "_" s.
Proof.
  revert s. induction n as [n IH] using (well_founded_induction N.lt_wf_0). intros s.
  destruct (decide (n = 0%N)) as [->|Hn]; [by rewrite pretty_N_go_0|]. rewrite pretty_N_go_step by lia.
  rewrite IH by (apply N.div_lt; lia). simpl. assert (n `mod` 10 < 10)%N as Hm by (apply N.mod_lt; lia).
  destruct (n `mod` 10)%N as [|p]; [done|]. repeat (destruct p as [p|p|]; try done; try lia).
Qed.
Definition imp_id (podId : Z) (impInd : nat) : string := pretty podId +:+ "_" +:+ pretty impInd.
Lemma imp_id_parts podId impInd : 0 < podId → SplitChar "_" (imp_id podId impInd) = pretty podId :: SplitChar "_" (pretty impInd).
Proof.
  intros Hp. unfold imp_id. rewrite str_app_cons, str_app_nil_l. apply SplitChar_app. rewrite pretty_pos by done. by rewrite pretty_go_no_char.
Qed.
(** The pod of an impression is read back from its id. *)
Lemma podId_of_imp_id podId impInd : 0 < podId < two63 → podId_of (imp_id podId impInd) = podId.
Proof. intros Hp. unfold podId_of. rewrite imp_id_parts by lia. simpl. by apply ParseInt0_pretty. Qed.
Lemma imp_id_inj podId i j : imp_id podId i = imp_id podId j → i = j.
Proof. unfold imp_id. intros H%str_app_inj_l%str_app_inj_l. by apply (inj pretty) in H. Qed.

(** *** Durations *)
Lemma minMax_fold l mn mx : let '(mn', mx') := foldl (λ '(mn, mx) v, (if v <? mn then v else mn, if mx <? v then v else mx)) (mn, mx) l in
  mn' ∈ mn :: l ∧ mx' ∈ mx :: l ∧ Forall (λ v, mn' ≤ v ≤ mx') l ∧ mn' ≤ mn ∧ mx ≤ mx'.
Proof.
  revert mn mx. induction l as [|v l IH]; intros mn mx; simpl; [split_and!; try lia; try set_solver; constructor|].
  specialize (IH (if v <? mn then v else mn) (if mx <? v then v else mx)).
  destruct (foldl _ _ l) as [mn' mx']. destruct IH as (H1 & H2 & H3 & H4 & H5).
  destruct (v <? mn) eqn:E1, (mx <? v) eqn:E2; go_bool; split_and!; try lia; try set_solver; constructor; try lia; done.
Qed.
Lemma minMax_spec l : l ≠ [] → isZeroOrNegativeDuration l = false →
  ∃ mn mx, minMax l = Some (mn, mx) ∧ mn ∈ l ∧ mx ∈ l ∧ Forall (λ v, mn ≤ v ≤ mx) l ∧ 0 < mn.
Proof.
  intros Hne Hpos. destruct l as [|x l]; [done|]. pose proof (minMax_fold (x :: l) x x) as H. unfold minMax.
  destruct (foldl _ _ (x :: l)) as [mn mx]. destruct H as (H1 & H2 & H3 & _). exists mn, mx.
  assert (∀ v, v ∈ x :: l → 0 < v) as Hall.
  { intros v Hv. destruct (decide (0 < v)) as [|Hn]; [done|]. exfalso.
    assert (isZeroOrNegativeDuration (x :: l) = true) as Ht; [|by rewrite Ht in Hpos].
    unfold isZeroOrNegativeDuration. apply existsb_exists. exists v. split; [by apply list_elem_of_In|]. apply Z.leb_le. lia. }
  split_and!; try done; try set_solver.
Qed.

(** The durations an impression may ask for. *)
Definition durations_ok (q : BidRequestVideo) (v : podVideo) : Prop :=
  pv_MaxDuration v ∈ vq_DurationRangeSec q ∧
  if vq_RequireExactDuration q then pv_MinDuration v = pv_MaxDuration v
  else Forall (λ d, d ≤ pv_MaxDuration v) (vq_DurationRangeSec q).

Lemma go_div_pos a b : 0 < b → go_div a b = Some (Z.quot a b).
Proof. intros Hb. unfold go_div. rewrite (proj2 (Z.eqb_neq b 0)), (proj2 (Z.eqb_neq b (-1))), andb_false_r by lia. done. Qed.

Section imps.
Context (q : BidRequestVideo) (mn mx : Z) (video : podVideo).
Hypotheses (Hmn : 0 < mn) (Hmx : mx ∈ vq_DurationRangeSec q) (Hmax : Forall (λ v, mn ≤ v ≤ mx) (vq_DurationRangeSec q)).
Abbreviation durs := (vq_DurationRangeSec q).

Lemma pod_imp_total impDiv stored podId i : (vq_RequireExactDuration q = true → 0 < impDiv) →
  ∃ imp, pod_imp durs (vq_RequireExactDuration q) mx impDiv video stored podId i = Some imp ∧ pi_ID imp = imp_id podId i ∧ durations_ok q (pi_Video imp).
Proof.
  intros Hdiv. unfold pod_imp, imp_durations, durations_ok. destruct (vq_RequireExactDuration q).
  - rewrite go_div_pos by auto. cbn [mbind option_bind].
    assert (0 < length durs)%nat as Hlen by (destruct durs; [by apply elem_of_nil in Hmx|simpl; lia]).
    pose proof (Z.quot_pos (Z.of_nat i) impDiv ltac:(lia) ltac:(auto)) as Hq.
    set (j := if _ <? _ then _ else _). assert (is_Some (durs !! Z.to_nat j)) as [d Hd].
    { apply lookup_lt_is_Some. subst j. destruct (_ <? _) eqn:E; go_bool; lia. }
    rewrite Hd. eexists. split; [done|]. simpl. split_and!; [done|by eapply list_elem_of_lookup_2|done].
  - eexists. split; [done|]. simpl. split_and!; [done|done|]. eapply Forall_impl; [exact Hmax|]. simpl. lia.
Qed.

(** The impressions a pod needs: as many as the shortest ad fits in, or as there are durations where
    each has to be met. *)
Definition needed (pod : Pod) : Z :=
  if vq_RequireExactDuration q then Z.max (pd_AdPodDurationSec pod / mn) (Z.of_nat (length durs)) else pd_AdPodDurationSec pod / mn.
Definition pod_ids (pod : Pod) : list string := map (imp_id (pd_PodId pod)) (seq 0 (Z.to_nat (needed pod))).

(** Where each duration has to be met, the first impression of its share asks for it. *)
Lemma duration_met impDiv n j d : 0 < impDiv → impDiv = n ÷ Z.of_nat (length durs) → durs !! j = Some d →
  (Z.to_nat (Z.of_nat j * impDiv) < Z.to_nat n)%nat ∧ imp_durations durs true mx impDiv (Z.to_nat (Z.of_nat j * impDiv)) = Some (Some d, d).
Proof.
  intros Hd Hn Hj. pose proof (lookup_lt_Some _ _ _ Hj) as Hlt. rewrite Z.quot_div_nonneg in Hn; [|destruct (decide (0 ≤ n)); [done|]|lia].
  2:{ pose proof (Z.quot_opp_l (- n) (Z.of_nat (length durs)) ltac:(lia)) as E. rewrite Z.opp_involutive in E.
      pose proof (Z.quot_pos (- n) (Z.of_nat (length durs)) ltac:(lia) ltac:(lia)). lia. }
  pose proof (Z.mul_div_le n (Z.of_nat (length durs)) ltac:(lia)) as Hle. rewrite <-Hn in Hle. split.
  - apply Z2Nat.inj_lt; nia.
  - unfold imp_durations. rewrite go_div_pos by done. cbn [mbind option_bind]. rewrite Z2Nat.id by nia.
    rewrite Z.quot_mul by lia. rewrite (proj2 (Z.ltb_ge _ _)) by lia. by rewrite Nat2Z.id, Hj.
Qed.

Lemma pod_imps_spec maxImps stored pod : 0 < pd_AdPodDurationSec pod →
  match pod_imps maxImps durs (vq_RequireExactDuration q) mn mx (Some video) stored pod with
  | None => maxImps < needed pod
  | Some imps => needed pod ≤ maxImps ∧ map pi_ID imps = pod_ids pod ∧ Forall (λ imp, durations_ok q (pi_Video imp)) imps ∧
      (vq_RequireExactDuration q = true → ∀ d, d ∈ durs → ∃ imp, imp ∈ imps ∧ pv_MaxDuration (pi_Video imp) = d)
  end.
Proof.
  intros Hp. unfold pod_imps, pod_ids, needed. rewrite go_div_pos by done. cbn [mbind option_bind].
  assert (0 < length durs)%nat as Hlen by (destruct durs; [by apply elem_of_nil in Hmx|simpl; lia]).
  rewrite go_div_pos by lia. cbn [mbind option_bind]. rewrite (Z.quot_div_nonneg _ mn) by lia.
  pose proof (Z.div_pos (pd_AdPodDurationSec pod) mn ltac:(lia) ltac:(lia)) as Hq.
  set (n := if vq_RequireExactDuration q then _ else _). assert (0 ≤ n) as Hn by (subst n; destruct (vq_RequireExactDuration q); lia).
  rewrite (proj2 (Z.ltb_ge n 0)) by lia. cbn [orb]. destruct (maxImps <? n) eqn:Em; go_bool; [lia|].
  assert (vq_RequireExactDuration q = true → 0 < n ÷ Z.of_nat (length durs) ∧ 0 < n) as Hdiv.
  { intros Hx. subst n. rewrite Hx. split; [apply Z.quot_str_pos; lia|lia]. }
  destruct (n =? 0) eqn:E0; go_bool.
  { rewrite E0. split_and!; [lia|done|constructor|]. intros Hx. destruct (Hdiv Hx). lia. }
  set (f := pod_imp _ _ _ _ _ _ _).
  assert (∀ i, ∃ imp, f i = Some imp ∧ pi_ID imp = imp_id (pd_PodId pod) i ∧ durations_ok q (pi_Video imp)) as Hf.
  { intros i. apply pod_imp_total. intros Hx. apply (Hdiv Hx). }
  destruct (mapM_is_Some_2 f (seq 0 (Z.to_nat n))) as [imps Hi].
  { apply Forall_forall. intros i _. destruct (Hf i) as (imp & Hi & _). exists imp. exact Hi. }
  rewrite Hi. apply mapM_Some in Hi. split_and!; [lia| | |].
  - clear -Hi Hf. induction Hi as [|i imp l imps Hfi Hi IH]; [done|]. simpl. rewrite IH. f_equal.
    destruct (Hf i) as (imp' & Hi' & Hid & _). rewrite Hfi in Hi'. injection Hi' as <-. exact Hid.
  - clear -Hi Hf. induction Hi as [|i imp l imps Hfi Hi IH]; [constructor|]. constructor; [|done].
    destruct (Hf i) as (imp' & Hi' & _ & Hd). rewrite Hfi in Hi'. injection Hi' as <-. exact Hd.
  - intros Hx d Hd. apply list_elem_of_lookup in Hd as [j Hj]. destruct (Hdiv Hx) as [Hpos _].
    destruct (duration_met _ n j d Hpos eq_refl Hj) as [Hlt Hdur]. set (i := Z.to_nat (Z.of_nat j * _)) in *.
    destruct (Forall2_lookup_l _ _ _ i i Hi) as (imp & Himp & Hfi); [apply lookup_seq; split; [done|exact Hlt]|].
    exists imp. split; [by eapply list_elem_of_lookup_2|]. subst f. unfold pod_imp in Hfi. rewrite Hx, Hdur in Hfi. by injection Hfi as <-.
Qed.
End imps.

(** *** The whole *)
Section ids.
Context (q : BidRequestVideo) (mn : Z).
Lemma NoDup_map_filter {A B} (f : A → B) (P : A → Prop) `{∀ x, Decision (P x)} l : NoDup (map f l) → NoDup (map f (filter P l)).
Proof.
  induction l as [|x l IH]; intros Hnd; [done|]. simpl in Hnd. apply NoDup_cons in Hnd as [Hx Hnd]. rewrite filter_cons. case_decide; [|by apply IH].
  simpl. constructor; [|by apply IH]. intros (y & Hy & [_ Hin]%list_elem_of_filter)%list_elem_of_fmap. apply Hx. rewrite Hy. by apply list_elem_of_fmap_2.
Qed.
(** Pods with different ids have impressions with different ids. *)
Lemma pod_ids_of pod id : 0 < pd_PodId pod < two63 → id ∈ pod_ids q mn pod → podId_of id = pd_PodId pod.
Proof. intros Hp (i & -> & _)%list_elem_of_fmap. by apply podId_of_imp_id. Qed.
Lemma all_ids_distinct pods : Forall (λ p, 0 < pd_PodId p < two63) pods → NoDup (map pd_PodId pods) →
  NoDup (concat (map (pod_ids q mn) pods)) ∧ ∀ id, id ∈ concat (map (pod_ids q mn) pods) → podId_of id ∈ map pd_PodId pods.
Proof.
  induction 1 as [|pod pods Hp Hps IH]; simpl; intros Hnd; [split; [constructor|set_solver]|].
  apply NoDup_cons in Hnd as [Hni Hnd]. destruct (IH Hnd) as [IH1 IH2]. split.
  - apply NoDup_app. split_and!; [|intros id H1 H2; apply Hni; rewrite <-(pod_ids_of _ _ Hp H1); by apply IH2|done].
    apply NoDup_fmap; [|apply NoDup_seq]. intros i j. apply imp_id_inj.
  - intros id [Hin|Hin]%elem_of_app; [rewrite (pod_ids_of _ _ Hp Hin); by left|right; by apply IH2].
Qed.
End ids.

Section total.
Context (maxImps : Z) (load : string → option string) (q : BidRequestVideo) (mn mx : Z) (video : podVideo).
Hypotheses (Hmn : 0 < mn) (Hmx : mx ∈ vq_DurationRangeSec q) (Hmax : Forall (λ v, mn ≤ v ≤ mx) (vq_DurationRangeSec q)) (Hv : vq_Video q = Some video).

(** The pods whose stored impression can be loaded. *)
Definition loaded (pods : list Pod) : list Pod := filter (λ p, load (pd_ConfigId p) ≠ None) pods.
(** Every impression asks for durations of the request; where they are exact every pod has one for each duration. *)
Definition durations_asked (pods : list Pod) (imps : list podImp) : Prop :=
  Forall (λ imp, durations_ok q (pi_Video imp)) imps ∧
  (vq_RequireExactDuration q = true → ∀ pod d, pod ∈ pods → d ∈ vq_DurationRangeSec q →
     ∃ imp, imp ∈ imps ∧ podId_of (pi_ID imp) = pd_PodId pod ∧ pv_MaxDuration (pi_Video imp) = d).

Lemma pods_imps_spec ind pods : Forall (λ p, 0 < pd_PodId p < two63 ∧ 0 < pd_AdPodDurationSec p) pods →
  match pods_imps maxImps load q mn mx ind pods with
  | None => ∃ pod, pod ∈ loaded pods ∧ maxImps < needed q mn pod
  | Some (imps, errs) => Forall (λ pod, needed q mn pod ≤ maxImps) (loaded pods) ∧
      map pi_ID imps = concat (map (pod_ids q mn) (loaded pods)) ∧ durations_asked (loaded pods) imps
  end.
Proof.
  intros Hp. revert ind. induction Hp as [|pod pods [Hid Hd] Hp IH]; intros ind; simpl; unfold loaded; rewrite ?filter_cons.
  { split_and!; [constructor|done|]. split; [constructor|]. intros _ pod d Hin. by apply elem_of_nil in Hin. }
  specialize (IH (S ind)). unfold loaded in IH. destruct (load (pd_ConfigId pod)) as [stored|].
  2:{ rewrite decide_False by (intros E; done). destruct (pods_imps _ _ _ _ _ (S ind) pods) as [[imps errs]|]; exact IH. }
  rewrite decide_True by done. rewrite Hv. pose proof (pod_imps_spec q mn mx video Hmn Hmx Hmax maxImps stored pod Hd) as Hpod.
  destruct (pod_imps _ _ _ _ _ _ _ pod) as [here|]; cbn [mbind option_bind]; [|exists pod; split; [by left|done]].
  destruct Hpod as (Hn & Hids & Hdur & Hall). destruct (pods_imps _ _ _ _ _ (S ind) pods) as [[imps errs]|]; cbn [mbind option_bind].
  2:{ destruct IH as (p & Hin & Hlt). exists p. split; [by right|done]. }
  destruct IH as (Hns & Hidss & Hdurs & Halls). rewrite map_app, Hids, Hidss. split_and!; [by constructor|done|].
  split; [by apply Forall_app|]. intros Hx p d [->|Hin]%elem_of_cons Hdin.
  - destruct (Hall Hx d Hdin) as (imp & Hi & <-). exists imp. split_and!; [apply elem_of_app; by left| |done].
    assert (pi_ID imp ∈ map pi_ID here) as Hin by (by apply list_elem_of_fmap_2). rewrite Hids in Hin.
    apply list_elem_of_fmap in Hin as (i & -> & _). by apply podId_of_imp_id.
  - destruct (Halls Hx p d Hin Hdin) as (imp & Hi & ?). exists imp. split; [apply elem_of_app; by right|done].
Qed.

End total.


(** *** Bids by pod *)
Section respond.
Context {MR : MapRange}.
(** The targeting of a bid, if it is cached and on an impression of the pod. *)
Definition served (podId : Z) (sb : string * xBid) : option VideoTargeting :=
  match xb_Ext sb.2 with
  | Ok (Some t) => if negb (findTargetingByKey t (formatTargetingKey VastCacheKey sb.1) =s? "") && (podId_of (xb_ImpID sb.2) =? podId)
                   then Some (bid_targeting t sb.1) else None
  | _ => None
  end.
Definition targeting_in (podId : Z) (pods : list AdPod) : list VideoTargeting :=
  concat (map (λ p, if pod_PodId p =? podId then pod_Targeting p else []) pods).

Lemma targeting_in_other podId pods : podId ∉ map pod_PodId pods → targeting_in podId pods = [].
Proof.
  unfold targeting_in. induction pods as [|p pods IH]; simpl; [done|]. rewrite not_elem_of_cons. intros [Hp Hr].
  rewrite (proj2 (Z.eqb_neq _ _)) by done. by apply IH.
Qed.
Lemma add_targeting_ids podId t pods : NoDup (map pod_PodId pods) →
  NoDup (map pod_PodId (add_targeting podId t pods)) ∧ ∀ x, x ∈ map pod_PodId (add_targeting podId t pods) → x = podId ∨ x ∈ map pod_PodId pods.
Proof.
  induction pods as [|p pods IH]; simpl; intros Hnd; [split; [repeat constructor; set_solver|set_solver]|].
  apply NoDup_cons in Hnd as [Hp Hnd]. destruct (pod_PodId p =? podId) eqn:E; go_bool; simpl.
  - rewrite <- E in *. split; [by constructor|]. intros x [->|Hx]%elem_of_cons; [by left|right; by right].
  - destruct (IH Hnd) as [Hn Hi]. split.
    + constructor; [|done]. intros [?|?]%Hi; [congruence|done].
    + intros x [->|[->|?]%Hi]%elem_of_cons; [right; by left|by left|right; by right].
Qed.
Lemma add_targeting_in podId t pods id : NoDup (map pod_PodId pods) →
  targeting_in id (add_targeting podId t pods) = targeting_in id pods ++ (if podId =? id then [t] else []).
Proof.
  induction pods as [|p pods IH]; intros Hnd; [unfold targeting_in; simpl; by rewrite app_nil_r|].
  simpl in Hnd. apply NoDup_cons in Hnd as [Hp Hnd]. simpl. destruct (pod_PodId p =? podId) eqn:E; go_bool.
  - unfold targeting_in. simpl. rewrite E. destruct (podId =? id) eqn:Ei; go_bool; [|by rewrite app_nil_r].
    subst. fold (targeting_in (pod_PodId p) pods). rewrite targeting_in_other by done. by rewrite !app_nil_r.
  - unfold targeting_in in *. simpl. rewrite IH by done. by rewrite app_assoc.
Qed.

Lemma respond_bids_spec bids pods0 pods : respond_bids bids pods0 = Some (Ok pods) → NoDup (map pod_PodId pods0) →
  NoDup (map pod_PodId pods) ∧ ∀ id, targeting_in id pods = targeting_in id pods0 ++ omap (served id) bids.
Proof.
  revert pods0. induction bids as [|[seat bid] bids IH]; intros pods0; simpl; [intros [= ->]; split; [done|]; intros; by rewrite app_nil_r|].
  unfold respond_bid. destruct (xb_Ext bid) as [[t|]|e] eqn:Ex; [|done|done]. unfold served at 1. simpl. rewrite Ex.
  destruct (_ =s? "") eqn:Ec; simpl; [apply IH|]. intros H Hnd.
  destruct (add_targeting_ids (podId_of (xb_ImpID bid)) (bid_targeting t seat) pods0 Hnd) as [Hnd' _].
  destruct (IH _ H Hnd') as [Hn Ht]. split; [done|]. intros id. rewrite Ht, add_targeting_in by done. rewrite <- app_assoc.
  by destruct (_ =? id).
Qed.

(** The response has one pod per id, and a pod holds the keys of exactly the cached bids on its
    impressions, in the order of the seats; the pods in error follow. *)
Theorem response_groups_by_pod seats podErrors pods : buildVideoResponse seats podErrors = Some (Ok pods) →
  ∃ ads, pods = ads ++ map error_pod podErrors ∧ NoDup (map pod_PodId ads) ∧
    ∀ podId, targeting_in podId ads = omap (served podId) (all_bids seats).
Proof.
  unfold buildVideoResponse. destruct (respond_bids (all_bids seats) []) as [[ads|e]|] eqn:E; simpl; try done.
  destruct (_ && _); [done|]. intros [= <-]. exists ads. split; [done|]. apply (respond_bids_spec (all_bids seats) []); [done|constructor].
Qed.
End respond.

(** ** Runs *)
Definition pods_request : BidRequestVideo := {|
  vq_StoredRequestId := "1"; vq_DurationRangeSec := [15; 30]; vq_RequireExactDuration := true;
  vq_Pods := [{| pd_PodId := 1; pd_AdPodDurationSec := 45; pd_ConfigId := "a" |}; {| pd_PodId := 1; pd_AdPodDurationSec := 45; pd_ConfigId := "a" |};
              {| pd_PodId := 2; pd_AdPodDurationSec := 10; pd_ConfigId := "a" |}];
  vq_App := None; vq_Site := Some ("1", "");
  vq_Video := Some {| pv_MIMEs := ["video/mp4"; ""]; pv_Protocols := [2]; pv_MinDuration := 0; pv_MaxDuration := 0; pv_rest := "" |} |}.
Example pods_run : (λ r, match r with Ok (imps, errs) => (map (λ i, (pi_ID i, pv_MaxDuration (pi_Video i))) imps, map pe_PodIndex errs) | Err _ => ([], []) end)
    <$> video_imps 1000 (λ id, Some id) true ∅ pods_request =
  Some ([("1_0", 15); ("1_1", 30); ("1_2", 30); ("2_0", 15); ("2_1", 30)], [1%nat]).
Proof. vm_compute. reflexivity. Qed.
(** A pod of a year, a shortest ad of one second and room for a million impressions. *)
Example huge_pod_panics : pod_imps 1000000 [1] false 1 1 (vq_Video pods_request) "" {| pd_PodId := 1; pd_AdPodDurationSec := 31536000; pd_ConfigId := "a" |} = None.
Proof. vm_compute. reflexivity. Qed.

(** The price key of the winner is a prefix of the category key without its own prefix: which of
    the two values is found as the category depends on the order of Go's map. *)
Example category_depends_on_order :
  let targeting : gmap string string := {[ "hb_pb" := "10.00"; "hb_pb_cat_dur_b" := "10.00_news_30s" ]} in
  HbPbCatDur (bid_targeting (MR := canonical_range) targeting "b") ≠ HbPbCatDur (bid_targeting (MR := reversed_range) targeting "b").
Proof. vm_compute. discriminate. Qed.
(** A bid whose extension has no [prebid] stops the response. *)
Example bare_extension_panics {MR : MapRange} : buildVideoResponse [{| xs_Seat := "b"; xs_Bid := [{| xb_ImpID := "1_0"; xb_Ext := Ok None |}] |}] [] = None.
Proof. reflexivity. Qed.
(** Nothing bounds the number of impressions of one pod but its length and what can be allocated. *)
Example impressions_unbounded maxImps n : 0 < n ≤ maxImps →
  (λ l : list podImp, Z.of_nat (length l)) <$> pod_imps maxImps [1] false 1 1 (vq_Video pods_request) "" {| pd_PodId := 1; pd_AdPodDurationSec := n; pd_ConfigId := "a" |} = Some n.
Proof.
  intros Hn. set (q := {| vq_StoredRequestId := ""; vq_DurationRangeSec := [1]; vq_RequireExactDuration := false; vq_Pods := []; vq_App := None; vq_Site := None; vq_Video := None |}).
  pose proof (pod_imps_spec q 1 1 (default {| pv_MIMEs := []; pv_Protocols := []; pv_MinDuration := 0; pv_MaxDuration := 0; pv_rest := "" |} (vq_Video pods_request)) ltac:(lia) ltac:(simpl; set_solver) ltac:(simpl; repeat constructor; lia) maxImps "" {| pd_PodId := 1; pd_AdPodDurationSec := n; pd_ConfigId := "a" |} (proj1 Hn)) as H.
  simpl in H. simpl. destruct (pod_imps _ _ _ _ _ _ _ _) as [imps|]; unfold needed in H; simpl in H; rewrite Z.div_1_r in H; [|lia].
  destruct H as (_ & Hids & _). simpl. f_equal. apply (f_equal length) in Hids. rewrite length_map in Hids. rewrite Hids.
  unfold pod_ids, needed. rewrite length_map, length_seq. simpl. rewrite Z.div_1_r. lia.
Qed.
