(* ===== verification/Amp.v ===== *)
(** * AMP: amp/parse.go, endpoints/openrtb2/amp_auction.go, privacy/*/consentwriter.go
    An AMP page asks with a query; the request itself is stored.  Modelled are the reading of the
    query, the privacy policy it names with the writers of consent, the overrides of the stored
    request, and the targeting keys of the answer.  The consent parser of TCF 2, [url.Parse] and the
    JSON libraries are parameters ([AmpLib], and [Json] for [user.ext]); [None] is a panic.
    Proved: a list of sizes reads back as it is written; without a warning the policy's consent is in
    the request, and the overrides never panic; and the keys of the answer are those of cached bids, before
    those of the whole response.  A mere warning about the consent drops it and the rest of the
    query with it. *)
From S2P Require Import Prelude GoStrings ErrorTypes ExtWrapper RequestWrapper Privacy VideoUrls EventsSpec.

Record Size := { sz_Height : Z; sz_Multisize : list (Z * Z); sz_OverrideHeight : Z; sz_OverrideWidth : Z; sz_Width : Z }.
Record Params := {
  ap_Account : string; ap_AdditionalConsent : string; ap_CanonicalURL : string; ap_Consent : string; ap_ConsentType : Z;
  ap_Debug : bool; ap_GdprApplies : option bool; ap_Origin : string; ap_Size : Size; ap_Slot : string; ap_StoredRequestID : string;
  ap_Targeting : string; ap_Timeout : option Z; ap_Trace : string
}.

(** ** The query *)
Definition parseInt (value : string) : Z := default 0 (Atoi value).
(** [strconv.ParseUint(value, 10, 64)] and [strconv.ParseBool] *)
Definition ParseUint (s : string) : option Z :=
  if s =s? "" then None else n ← digits_value 0 s; if n <? two64 then Some n else None.
Definition ParseBool (s : string) : option bool :=
  if existsb (String.eqb s) ["1"; "t"; "T"; "TRUE"; "true"; "True"] then Some true
  else if existsb (String.eqb s) ["0"; "f"; "F"; "FALSE"; "false"; "False"] then Some false
  else None.
Definition parse_size (sizeString : string) : option (Z * Z) :=
  match SplitChar "x" sizeString with
  | [w; h] => let f := (parseInt w, parseInt h) in if (f.1 =? 0) && (f.2 =? 0) then None else Some f
  | _ => None
  end.
(** One bad size makes the whole list nil. *)
Definition parseMultisize (multisize : string) : list (Z * Z) :=
  if multisize =s? "" then [] else default [] (mapM parse_size (SplitChar "," multisize)).
Definition chooseConsent (consent gdprConsent : string) : string := if consent =s? "" then gdprConsent else consent.

Inductive amp_error := E_tagID | E_gdprApplies | E_timeout.
Definition empty_params : Params := {|
  ap_Account := ""; ap_AdditionalConsent := ""; ap_CanonicalURL := ""; ap_Consent := ""; ap_ConsentType := 0; ap_Debug := false; ap_GdprApplies := None;
  ap_Origin := ""; ap_Size := {| sz_Height := 0; sz_Multisize := []; sz_OverrideHeight := 0; sz_OverrideWidth := 0; sz_Width := 0 |};
  ap_Slot := ""; ap_StoredRequestID := ""; ap_Targeting := ""; ap_Timeout := None; ap_Trace := "" |}.
Definition read_params (query : list (string * string)) (gdprApplies : option bool) (timeout : option Z) : Params := {|
  ap_Account := Get query "account"; ap_AdditionalConsent := Get query "addtl_consent"; ap_CanonicalURL := Get query "curl";
  ap_Consent := chooseConsent (Get query "consent_string") (Get query "gdpr_consent");
  ap_ConsentType := parseInt (Get query "consent_type"); ap_Debug := Get query "debug" =s? "1"; ap_GdprApplies := gdprApplies;
  ap_Origin := Get query "__amp_source_origin";
  ap_Size := {| sz_Height := parseInt (Get query "h"); sz_Multisize := parseMultisize (Get query "ms"); sz_OverrideHeight := parseInt (Get query "oh");
                sz_OverrideWidth := parseInt (Get query "ow"); sz_Width := parseInt (Get query "w") |};
  ap_Slot := Get query "slot"; ap_StoredRequestID := Get query "tag_id"; ap_Targeting := Get query "targeting"; ap_Timeout := timeout;
  ap_Trace := Get query "trace" |}.
Definition ParseParams (query : list (string * string)) : Params * option amp_error :=
  if Get query "tag_id" =s? "" then (empty_params, Some E_tagID)
  else
    let gdpr := Get query "gdpr_applies" in
    match (if gdpr =s? "" then Some None else Some <$> ParseBool gdpr) with
    | None => (read_params query None None, Some E_gdprApplies)
    | Some gdprApplies =>
        let timeout := Get query "timeout" in
        match (if timeout =s? "" then Some None else Some <$> ParseUint timeout) with
        | None => (read_params query gdprApplies None, Some E_timeout)
        | Some timeout => (read_params query gdprApplies timeout, None)
        end
    end.

(** ** Policies *)
Definition ConsentNone : Z := 0.
Definition ConsentTCF1 : Z := 1.
Definition ConsentTCF2 : Z := 2.
Definition ConsentUSPrivacy : Z := 3.
Definition InvalidPrivacyConsentWarningCode : Z := 10000.
(** The implementations of [privacy.PolicyWriter]. *)
Inductive PolicyWriter := NilPolicyWriter | GdprWriter (consent : string) (gdpr : option Z) | CcpaWriter (consent : string).

(** [tcf2_parse]: [None] for a string that is not of version 2, else the error of its parser;
    [url_host] is the host of a URL that parses; [has_amp], [set_amp] and [amp_merge] are
    [jsonparser] and [jsonpatch] on the documents; [trace_ext] is the extension with the level of
    tracing; [ext_targeting] the keys of a bid's extension ([None] inside where [prebid] is nil) and
    [response_targeting] those of the response's. *)
Class AmpLib := {
  tcf2_parse : string → option (option string);
  url_host : string → option string;
  has_amp : string → bool;
  set_amp : string → string → option string;
  amp_merge : string → string → result string string;
  trace_ext : string → result string string;
  ext_targeting : string → result string (option (gmap string string));
  response_targeting : string → result string (option (gmap string string))
}.

Section amp.
Context {J : Json} {AL : AmpLib}.

Definition validateTCf2ConsentString (consent : string) : string :=
  match tcf2_parse consent with
  | Some (Some e) => e
  | Some None => ""
  | None => "Consent string '" +:+ consent +:+ "' is not a valid TCF2 consent string."
  end.
Definition parseGdprApplies (gdprApplies : option bool) : Z := match gdprApplies with Some true => 1 | _ => 0 end.
Definition buildGdprTCF2ConsentWriter (p : Params) : PolicyWriter :=
  GdprWriter (ap_Consent p) (Some match ap_GdprApplies p with None => 1 | g => parseGdprApplies g end).
Definition ignored_gdpr := "AMP request gdpr_applies value was ignored because provided consent string is a CCPA consent string".
Definition read_policy (p : Params) (gdprEnabled : bool) : PolicyWriter * string :=
  let ccpaWarning := if parseGdprApplies (ap_GdprApplies p) =? 1 then ignored_gdpr else "" in
  if ap_ConsentType p =? ConsentTCF1 then (NilPolicyWriter, "TCF1 consent is deprecated and no longer supported.")
  else if ap_ConsentType p =? ConsentTCF2 then
    if gdprEnabled then (buildGdprTCF2ConsentWriter p, validateTCf2ConsentString (ap_Consent p)) else (NilPolicyWriter, "")
  else if ap_ConsentType p =? ConsentUSPrivacy then
    (CcpaWriter (ap_Consent p),
     if ccpa_ValidateConsent (ap_Consent p) then ccpaWarning else "Consent string '" +:+ ap_Consent p +:+ "' is not a valid CCPA consent string.")
  else if ccpa_ValidateConsent (ap_Consent p) then (CcpaWriter (ap_Consent p), ccpaWarning)
  else if gdprEnabled && (validateTCf2ConsentString (ap_Consent p) =s? "") then (buildGdprTCF2ConsentWriter p, "")
  else (NilPolicyWriter, "Consent string '" +:+ ap_Consent p +:+ "' is not recognized as one of the supported formats CCPA or TCF2.").
Definition ReadPolicy (p : Params) (gdprEnabled : bool) : PolicyWriter * option go_error :=
  if ap_Consent p =s? "" then (NilPolicyWriter, None)
  else let '(rv, warningMsg) := read_policy p gdprEnabled in
       (rv, if warningMsg =s? "" then None else Some (Warning warningMsg InvalidPrivacyConsentWarningCode)).

(** ** The stored request and its overrides *)
Record aSite := { as_Page : string; as_Domain : string; as_Ext : string; as_Publisher : option string }.
(** [ai_Banner] is the formats of the banner, [None] without one. *)
Record aImp := { ai_Banner : option (list (Z * Z)); ai_TagID : string; ai_Ext : string }.
(** [am_App] is the publisher of an app; [am_Imp] the impression, of which there is one. *)
Record ampRequest := {
  am_Site : option aSite; am_App : option (option string); am_Imp : aImp; am_User : option User; am_Regs : option Regs; am_TMax : Z; am_Ext : string
}.
Definition set_am_Site v r := {| am_Site := v; am_App := am_App r; am_Imp := am_Imp r; am_User := am_User r; am_Regs := am_Regs r; am_TMax := am_TMax r; am_Ext := am_Ext r |}.
Definition set_am_App v r := {| am_Site := am_Site r; am_App := v; am_Imp := am_Imp r; am_User := am_User r; am_Regs := am_Regs r; am_TMax := am_TMax r; am_Ext := am_Ext r |}.
Definition set_am_Imp v r := {| am_Site := am_Site r; am_App := am_App r; am_Imp := v; am_User := am_User r; am_Regs := am_Regs r; am_TMax := am_TMax r; am_Ext := am_Ext r |}.
Definition set_am_User v r := {| am_Site := am_Site r; am_App := am_App r; am_Imp := am_Imp r; am_User := v; am_Regs := am_Regs r; am_TMax := am_TMax r; am_Ext := am_Ext r |}.
Definition set_am_Regs v r := {| am_Site := am_Site r; am_App := am_App r; am_Imp := am_Imp r; am_User := am_User r; am_Regs := v; am_TMax := am_TMax r; am_Ext := am_Ext r |}.
Definition set_am_TMax v r := {| am_Site := am_Site r; am_App := am_App r; am_Imp := am_Imp r; am_User := am_User r; am_Regs := am_Regs r; am_TMax := v; am_Ext := am_Ext r |}.
Definition set_am_Ext v r := {| am_Site := am_Site r; am_App := am_App r; am_Imp := am_Imp r; am_User := am_User r; am_Regs := am_Regs r; am_TMax := am_TMax r; am_Ext := v |}.

Definition gdpr_Write (consent : string) (gdpr : option Z) (r : ampRequest) : ampRequest :=
  let r := match gdpr with Some _ => set_am_Regs (Some (set_rg_GDPR gdpr (default empty_regs (am_Regs r)))) r | None => r end in
  if consent =s? "" then r else set_am_User (Some (set_us_Consent consent (default empty_user (am_User r)))) r.
Definition ccpa_Write (consent : string) (r : ampRequest) : ampRequest :=
  if consent =s? "" then r else set_am_Regs (Some (set_rg_USPrivacy consent (default empty_regs (am_Regs r)))) r.
Definition policy_Write (w : PolicyWriter) (r : ampRequest) : ampRequest :=
  match w with NilPolicyWriter => r | GdprWriter c g => gdpr_Write c g r | CcpaWriter c => ccpa_Write c r end.

Definition makeFormatReplacement (size : Size) : list (Z * Z) :=
  let nz z := negb (z =? 0) in
  (if nz (sz_OverrideWidth size) && nz (sz_OverrideHeight size) then [(sz_OverrideWidth size, sz_OverrideHeight size)]
   else if nz (sz_OverrideWidth size) && nz (sz_Height size) then [(sz_OverrideWidth size, sz_Height size)]
   else if nz (sz_Width size) && nz (sz_OverrideHeight size) then [(sz_Width size, sz_OverrideHeight size)]
   else if nz (sz_Width size) && nz (sz_Height size) then [(sz_Width size, sz_Height size)]
   else []) ++ sz_Multisize size.
Definition setWidths (formats : list (Z * Z)) (width : Z) : list (Z * Z) := map (λ f, (width, f.2)) formats.
Definition setHeights (formats : list (Z * Z)) (height : Z) : list (Z * Z) := map (λ f, (f.1, height)) formats.
Definition override_banner (size : Size) (formats : list (Z * Z)) : list (Z * Z) :=
  match makeFormatReplacement size with
  | [] => if negb (sz_Width size =? 0) then setWidths formats (sz_Width size)
          else if negb (sz_Height size =? 0) then setHeights formats (sz_Height size)
          else formats
  | format => format
  end.

Definition setAmpExtDirect (site : aSite) (value : string) : aSite :=
  let ext := if as_Ext site =s? "" then "{" +:+ String "034" ("amp" +:+ String "034" (":" +:+ value +:+ "}"))
             else if has_amp (as_Ext site) then as_Ext site else default (as_Ext site) (set_amp (as_Ext site) value) in
  {| as_Page := as_Page site; as_Domain := as_Domain site; as_Ext := ext; as_Publisher := as_Publisher site |}.
Definition pub_with (account : string) (pub : option string) : option string :=
  let id := default "" pub in Some (if id =s? "" then account else id).
(** [None] is the nil publisher of a request with neither an app nor a site. *)
Definition setEffectiveAmpPubID (r : ampRequest) (account : string) : option ampRequest :=
  if (account =s? "") || (account =s? "ACCOUNT_ID") then Some r
  else match am_App r, am_Site r with
       | Some pub, _ => Some (set_am_App (Some (pub_with account pub)) r)
       | None, Some s => Some (set_am_Site (Some {| as_Page := as_Page s; as_Domain := as_Domain s; as_Ext := as_Ext s; as_Publisher := pub_with account (as_Publisher s) |}) r)
       | None, None => None
       end.

Definition ParseConsentedProvidersString (cps : string) : list Z :=
  match SplitChar "~" cps with [_; providers] => omap Atoi (SplitChar "." providers) | _ => [] end.
Definition consented_providers (additionalConsent : string) (e : UserExt) : UserExt :=
  let l := ParseConsentedProvidersString additionalConsent in
  let e := match l with
           | [] => e
           | _ => UserExt_SetConsentedProvidersSettingsOut (Some (default [] (val (ue_consentedProvidersSettingsOut e)) ++ l)) e
           end in
  UserExt_SetConsentedProvidersSettingsIn (Some additionalConsent) e.
Definition setConsentedProviders (r : ampRequest) (additionalConsent : string) : option ampRequest :=
  if additionalConsent =s? "" then Some r
  else
    e ← UserExt_unmarshal (am_User r ≫= us_Ext);
    '(out, _) ← UserExt_marshal (consented_providers additionalConsent e);
    Some (set_am_User (store_ext set_us_Ext empty_user out (am_User r)) r).

Definition set_ai_Ext v i := {| ai_Banner := ai_Banner i; ai_TagID := ai_TagID i; ai_Ext := v |}.
Definition WrapJSONInData (data : string) : string := "{" +:+ String "034" ("data" +:+ String "034" (":" +:+ data +:+ "}")).
Definition BadInputWarning (m : string) : go_error := Warning m BadInputErrorCode.
Definition amp_setTargeting (r : ampRequest) (targeting : string) : ampRequest * list go_error :=
  let imp := am_Imp r in
  if targeting =s? "" then (r, [])
  else if ai_Ext imp =s? "" then (set_am_Imp (set_ai_Ext (WrapJSONInData targeting) imp) r, [])
  else match amp_merge (ai_Ext imp) (WrapJSONInData targeting) with
       | Ok newImpExt => (set_am_Imp (set_ai_Ext newImpExt imp) r, [])
       | Err e => (r, [BadInputWarning ("unable to merge imp.ext with targeting data, check targeting data is correct: " +:+ e)])
       end.
Definition setTrace (r : ampRequest) (value : string) : ampRequest * list go_error :=
  if value =s? "" then (r, [])
  else match (let? ext := trace_ext value in if am_Ext r =s? "" then Ok ext else amp_merge (am_Ext r) ext) with
       | Ok ext => (set_am_Ext ext r, [])
       | Err e => (r, [PlainError e])
       end.

Definition empty_site : aSite := {| as_Page := ""; as_Domain := ""; as_Ext := ""; as_Publisher := None |}.
Definition domain_of (host : string) : string := match LastIndex host ":" with Some i => str_take i host | None => host end.
Definition override_page (url : string) (s : aSite) : aSite :=
  if url =s? "" then s
  else {| as_Page := url; as_Domain := match url_host url with Some host => domain_of host | None => as_Domain s end;
          as_Ext := as_Ext s; as_Publisher := as_Publisher s |}.
(** The site and the impression: what is overridden before anything can fail. *)
Definition override_objects (p : Params) (r : ampRequest) : option ampRequest :=
  let site := default empty_site (am_Site r) in
  let imp := am_Imp r in
  let imp := {| ai_Banner := override_banner (ap_Size p) <$> ai_Banner imp; ai_TagID := ai_TagID imp; ai_Ext := ai_Ext imp |} in
  let r := set_am_Imp imp (set_am_Site (Some (setAmpExtDirect (override_page (ap_CanonicalURL p) site) "1")) r) in
  r ← setEffectiveAmpPubID r (ap_Account p);
  Some (if ap_Slot p =s? "" then r
        else set_am_Imp {| ai_Banner := ai_Banner (am_Imp r); ai_TagID := ap_Slot p; ai_Ext := ai_Ext (am_Imp r) |} r).
Definition overrideWithParams (gdprEnabled : bool) (timeoutAdjustment : Z) (p : Params) (r : ampRequest) : option (ampRequest * list go_error) :=
  r ← override_objects p r;
  Some match setConsentedProviders r (ap_AdditionalConsent p) with
       | None => (r, [FailedToUnmarshal "user.ext"])
       | Some r =>
           match ReadPolicy p gdprEnabled with
           | (_, Some warning) => (r, [warning])
           | (w, None) =>
               let r := policy_Write w r in
               let r := match ap_Timeout p with Some t => set_am_TMax (wrap64 (wrap64 t - timeoutAdjustment)) r | None => r end in
               let '(r, errors) := amp_setTargeting r (ap_Targeting p) in
               let '(r, traceErrors) := setTrace r (ap_Trace p) in
               (r, errors ++ traceErrors)
           end
       end.

(** ** The answer *)
Record aBid := { ab_Ext : string }.
Definition byteCache : string := String "034" "hb_cache_id".
(** The keys of cached bids, later ones over earlier; the error of the first bad extension. *)
Fixpoint cached_bid_targets (bids : list aBid) (targets : gmap string string) : option (result string (gmap string string)) :=
  match bids with
  | [] => Some (Ok targets)
  | bid :: rest =>
      if strContains (ab_Ext bid) byteCache then
        match ext_targeting (ab_Ext bid) with
        | Err e => Some (Err e)
        | Ok None => None
        | Ok (Some t) => cached_bid_targets rest (t ∪ targets)
        end
      else cached_bid_targets rest targets
  end.
(** The targeting of [sendAmpResponse], from the bids of all seats and the extension of the
    response; [None] is a panic, which a nil response is too. *)
Definition amp_targets (response : option (list (list aBid) * string)) : option (result string (gmap string string)) :=
  '(seats, ext) ← response;
  r ← cached_bid_targets (concat seats) ∅;
  Some match r with
       | Err e => Err e
       | Ok targets => Ok match response_targeting ext with Ok (Some t) => targets ∪ t | _ => targets end
       end.
End amp.

(** ** Correctness *)
(** *** Sizes *)
Definition show_size (f : Z * Z) : string := pretty f.1 +:+ "x" +:+ pretty f.2.
Lemma pretty_go_lacks (c : ascii) n s : digit c = None → has_char c (pretty_N_go n s) = has_char c s.
Proof.
  intros Hc. revert s. induction n as [n IH] using (well_founded_induction N.lt_wf_0). intros s.
  destruct (decide (n = 0%N)) as [->|Hn]; [by rewrite pretty_N_go_0|]. rewrite pretty_N_go_step by lia.
  rewrite IH by (apply N.div_lt; lia). simpl. assert (n `mod` 10 < 10)%N as Hm by (apply N.mod_lt; lia).
  assert (Ascii.eqb (pretty_N_char (n `mod` 10)) c = false) as ->; [|done].
  destruct (Ascii.eqb_spec (pretty_N_char (n `mod` 10)) c) as [<-|]; [|done].
  destruct (n `mod` 10)%N as [|p]; [done|]. repeat (destruct p as [p|p|]; try done; try lia).
Qed.
Lemma pretty_lacks (c : ascii) z : 0 < z → digit c = None → has_char c (pretty z) = false.
Proof. intros Hz Hc. rewrite pretty_pos by done. by rewrite pretty_go_lacks. Qed.
Definition size_ok (f : Z * Z) : Prop := 0 < f.1 < two63 ∧ 0 < f.2 < two63.
Lemma parse_show_size f : size_ok f → parse_size (show_size f) = Some f.
Proof.
  destruct f as [w h]. intros [Hw Hh]. simpl in Hw, Hh. unfold parse_size, show_size. simpl. rewrite str_app_cons, str_app_nil_l.
  rewrite SplitChar_app by (apply pretty_lacks; [lia|done]). rewrite SplitChar_none by (apply pretty_lacks; [lia|done]). unfold parseInt.
  rewrite (proj1 (Atoi_pretty w Hw)), (proj1 (Atoi_pretty h Hh)). simpl. rewrite (proj2 (Z.eqb_neq w 0)) by lia. done.
Qed.
(** A list of positive sizes is read back as it was written. *)
Theorem multisize_roundtrip sizes : sizes ≠ [] → Forall size_ok sizes → parseMultisize (String.concat "," (map show_size sizes)) = sizes.
Proof.
  intros Hne Hs. unfold parseMultisize. destruct (_ =s? "") eqn:E.
  { go_bool. destruct sizes as [|f [|g sizes]]; [done|..]; simpl in E; unfold show_size in E; by destruct (pretty f.1). }
  rewrite (SplitChar_concat ","); [|by destruct sizes|].
  - clear E Hne. assert (mapM parse_size (map show_size sizes) = Some sizes) as ->; [|done].
    induction Hs as [|f sizes Hf Hs IH]; [done|]. simpl. rewrite (parse_show_size f Hf). simpl. by rewrite IH.
  - apply Forall_map. eapply Forall_impl; [exact Hs|]. simpl. intros f [Hw Hh]. unfold show_size.
    rewrite !has_char_app, !pretty_lacks by (try lia; done). done.
Qed.

(** *** Consent *)
Section laws.
Context {J : Json} {AL : AmpLib}.

Lemma setTargeting_keeps r t : let r' := (amp_setTargeting r t).1 in am_Regs r' = am_Regs r ∧ am_User r' = am_User r ∧ am_TMax r' = am_TMax r.
Proof. unfold amp_setTargeting. repeat case_match; done. Qed.
Lemma setTrace_keeps r t : let r' := (setTrace r t).1 in am_Regs r' = am_Regs r ∧ am_User r' = am_User r ∧ am_TMax r' = am_TMax r.
Proof. unfold setTrace. repeat case_match; done. Qed.
Lemma override_objects_keeps p r : ∃ r', override_objects p r = Some r' ∧ am_Regs r' = am_Regs r ∧ am_User r' = am_User r ∧ am_TMax r' = am_TMax r.
Proof.
  unfold override_objects, setEffectiveAmpPubID. destruct (_ || _); simpl; [destruct (ap_Slot p =s? ""); by eexists|].
  destruct (am_App r); simpl; destruct (ap_Slot p =s? ""); by eexists.
Qed.

(** Every stored request comes out overridden. *)
Theorem override_total gdprEnabled adj p r : is_Some (overrideWithParams gdprEnabled adj p r).
Proof. unfold overrideWithParams. destruct (override_objects_keeps p r) as (r' & -> & _). by eexists. Qed.

(** Consent in the request. *)
Definition carries (w : PolicyWriter) (r : ampRequest) : Prop :=
  match w with
  | NilPolicyWriter => True
  | GdprWriter c g => (rg_GDPR <$> am_Regs r) = Some g ∧ (us_Consent <$> am_User r) = Some c
  | CcpaWriter c => (rg_USPrivacy <$> am_Regs r) = Some c
  end.
Lemma policy_Write_carries p gdprEnabled w r : ReadPolicy p gdprEnabled = (w, None) → carries w (policy_Write w r).
Proof.
  unfold ReadPolicy. destruct (ap_Consent p =s? "") eqn:Ec; [by intros [= <-]|]. destruct (read_policy p gdprEnabled) as [w' m] eqn:E.
  intros [= <- _]. assert (match w' with NilPolicyWriter => True | GdprWriter c g => c = ap_Consent p ∧ is_Some g | CcpaWriter c => c = ap_Consent p end) as Hw.
  { unfold read_policy, buildGdprTCF2ConsentWriter in E. repeat case_match; simplify_eq; naive_solver. }
  destruct w' as [|c g|c]; simpl; [done|..].
  - destruct Hw as [-> [g' ->]]. unfold gdpr_Write. rewrite Ec. simpl. done.
  - subst c. unfold ccpa_Write. rewrite Ec. done.
Qed.
(** When the query's policy is read without a warning and [user.ext] can be read, the request leaves with
    the consent of the policy in it, whatever it had before. *)
Theorem policy_is_written gdprEnabled adj p r r' errs w :
  ReadPolicy p gdprEnabled = (w, None) → overrideWithParams gdprEnabled adj p r = Some (r', errs) →
  FailedToUnmarshal "user.ext" ∉ errs → carries w r'.
Proof.
  intros Hw. unfold overrideWithParams. destruct (override_objects_keeps p r) as (r1 & -> & _). simpl.
  destruct (setConsentedProviders r1 (ap_AdditionalConsent p)) as [r2|]; [|intros [= <- <-] H; destruct H; by left].
  rewrite Hw. set (r3 := policy_Write w r2). set (r4 := match ap_Timeout p with Some _ => _ | None => _ end).
  pose proof (setTargeting_keeps r4 (ap_Targeting p)) as H1. destruct (amp_setTargeting r4 (ap_Targeting p)) as [r5 e5].
  pose proof (setTrace_keeps r5 (ap_Trace p)) as H2. destruct (setTrace r5 (ap_Trace p)) as [r6 e6]. simpl in H1, H2.
  intros [= <- <-] _. pose proof (policy_Write_carries p gdprEnabled w r2 Hw) as Hc. fold r3 in Hc.
  assert (am_Regs r6 = am_Regs r3 ∧ am_User r6 = am_User r3) as [Er Eu].
  { destruct H1 as (? & ? & _), H2 as (? & ? & _). unfold r4 in *. destruct (ap_Timeout p); simpl in *; split; congruence. }
  unfold carries in *. by rewrite Er, Eu.
Qed.

(** A warning about the consent is no error, yet the request keeps the regulations it was stored
    with, and the timeout, the targeting and the trace level of the query are not read. *)
Theorem warning_drops_policy gdprEnabled adj p r w warning :
  ReadPolicy p gdprEnabled = (w, Some warning) → ap_AdditionalConsent p = "" →
  ContainsFatalError [warning] = false ∧
  ∃ r', overrideWithParams gdprEnabled adj p r = Some (r', [warning]) ∧ am_Regs r' = am_Regs r ∧ am_User r' = am_User r ∧ am_TMax r' = am_TMax r.
Proof.
  intros Hw Ha. split.
  - unfold ReadPolicy in Hw. destruct (_ =s? ""); [done|]. destruct (read_policy _ _) as [w' m]. by destruct (m =s? ""); simplify_eq.
  - unfold overrideWithParams, setConsentedProviders. destruct (override_objects_keeps p r) as (r1 & -> & H). simpl. rewrite Ha, Hw. simpl. by eexists.
Qed.

(** *** The answer *)
Lemma bid_targets_lookup bids targets m k : cached_bid_targets bids targets = Some (Ok m) →
  m !! k = from_option Some (targets !! k) (last (omap (λ b, if strContains (ab_Ext b) byteCache
    then match ext_targeting (ab_Ext b) with Ok (Some t) => t !! k | _ => None end else None) bids)).
Proof.
  revert targets. induction bids as [|b bids IH]; intros targets; simpl; [by intros [= ->]|].
  destruct (strContains _ _); [|apply IH]. destruct (ext_targeting (ab_Ext b)) as [[t|]|]; [|done|done]. intros H. rewrite (IH _ H).
  rewrite lookup_union. destruct (t !! k) as [v|] eqn:E; [|by rewrite (left_id_L None _)]. rewrite last_cons. simpl.
  destruct (last _); [done|]. by destruct (targets !! k).
Qed.
(** A key of the answer has the value of the last cached bid that has it, or else that of the
    whole response. *)
Theorem amp_targets_exact seats ext m k : amp_targets (Some (seats, ext)) = Some (Ok m) →
  m !! k = match last (omap (λ b, if strContains (ab_Ext b) byteCache then match ext_targeting (ab_Ext b) with Ok (Some t) => t !! k | _ => None end else None) (concat seats)) with
           | Some v => Some v
           | None => match response_targeting ext with Ok (Some t) => t !! k | _ => None end
           end.
Proof.
  unfold amp_targets. simpl. destruct (cached_bid_targets (concat seats) ∅) as [[targets|e]|] eqn:E; simpl; [|done|done]. intros [= <-].
  pose proof (bid_targets_lookup _ _ _ k E) as H. rewrite lookup_empty in H.
  destruct (response_targeting ext) as [[t|]|]; [rewrite lookup_union|..]; rewrite H; destruct (last _); simpl; try done.
  - by destruct (t !! k).
  - by destruct (t !! k).
Qed.
End laws.

(** ** Runs *)
Import JsonTree.
(** No TCF strings, hosts as they are, and merging by concatenation. *)
Definition plain_lib : AmpLib := {|
  tcf2_parse := λ _, None; url_host := λ u, Some u; has_amp := λ _, false; set_amp := λ e v, Some (e +:+ v);
  amp_merge := λ a b, Ok (a +:+ b); trace_ext := λ v, Ok v;
  ext_targeting := λ e, Ok (Some {[ "hb_pb" := e ]}); response_targeting := λ _, Ok (Some {[ "hb_env" := "amp"; "hb_pb" := "" ]}) |}.
Definition stored_amp : ampRequest := {|
  am_Site := None; am_App := None; am_Imp := {| ai_Banner := Some [(300, 250)]; ai_TagID := ""; ai_Ext := "" |}; am_User := None; am_Regs := None; am_TMax := 0; am_Ext := "" |}.
Definition amp_query (gdprApplies : string) : list (string * string) :=
  [("tag_id", "7"); ("consent_type", "3"); ("consent_string", "1YYN"); ("gdpr_applies", gdprApplies); ("timeout", "900"); ("ms", "300x250,320x50"); ("curl", "example.com:80")].
Definition amp_run (gdprApplies : string) : option (ampRequest * list go_error) :=
  let AL := plain_lib in overrideWithParams true 50 (ParseParams (amp_query gdprApplies)).1 stored_amp.

Lemma multisize_witness : [(300, 250); (320, 50)] ≠ [] ∧ parseMultisize (String.concat "," (map show_size [(300, 250); (320, 50)])) = [(300, 250); (320, 50)].
Proof.
  split; [discriminate|]. apply (multisize_roundtrip [(300, 250); (320, 50)]); [discriminate|].
  repeat constructor; simpl; unfold two63; lia.
Defined.
Example amp_overridden : (λ r, (rg_USPrivacy <$> am_Regs r.1, am_TMax r.1, ai_Banner (am_Imp r.1), as_Domain <$> am_Site r.1, r.2)) <$> amp_run "false" =
  Some (Some "1YYN", 850, Some [(300, 250); (320, 50)], Some "example.com", []).
Proof. vm_compute. reflexivity. Qed.
Lemma policy_is_written_witness : ∃ r' errs, amp_run "false" = Some (r', errs) ∧ carries (CcpaWriter "1YYN") r'.
Proof.
  destruct (amp_run "false") as [[r' errs]|] eqn:E; [|vm_compute in E; discriminate E]. exists r', errs. split; [reflexivity|].
  apply (@policy_is_written Json_tree plain_lib true 50 (ParseParams (amp_query "false")).1 stored_amp r' errs (CcpaWriter "1YYN")).
  - vm_compute. reflexivity.
  - exact E.
  - assert (snd <$> amp_run "false" = Some []) as Hs by (vm_compute; reflexivity). rewrite E in Hs. injection Hs as ->. intros H. inversion H.
Defined.
(** The same query with [gdpr_applies] set: a valid CCPA string, and it is lost with the timeout. *)
Example consent_lost : (λ r, (am_Regs r.1, am_TMax r.1, ContainsFatalError r.2)) <$> amp_run "true" = Some (None, 0, false).
Proof. vm_compute. reflexivity. Qed.
Example amp_answer : let AL := plain_lib in let ext := byteCache in
  (λ r, match r with Ok m => (m !! "hb_pb", m !! "hb_env") | Err _ => (None, None) end) <$> amp_targets (Some ([[{| ab_Ext := "x" |}; {| ab_Ext := ext |}]], "")) =
  Some (Some ext, Some "amp").
Proof. vm_compute. reflexivity. Qed.
