(* ===== verification/BidderInfos.v ===== *)
(** * The bidders a server knows: config/bidderinfo.go, usersync/syncersbuilder.go, openrtb_ext/bidders.go,
      adapters/infoawarebidder.go
    Every bidder has a file that says where it is called, what it can do and how users are synced
    with it; an alias takes from its parent what it does not say itself; the host's configuration
    is laid over the files; and the syncers of the bidders are built from the result.  Decoding of
    the files, URL templates and URL checks are arguments.
    Proved: whatever the order of Go's maps, aliases come out the same, inherit exactly what they leave
    open, and never the parent's vendor id; an accepted set of infos has capabilities that are known
    media types and, for an alias, within its parent's; an override changes only what it sets; the
    syncers of a key are one, whichever of its bidders defines it; and a bidder is called only with
    media types its info declares. *)
From S2P Require Import Prelude GoStrings ErrorTypes SyncChooser.

(** ** Data *)
Record PlatformInfo := { pf_MediaTypes : list string }.
Record CapabilitiesInfo := { cp_App : option PlatformInfo; cp_Site : option PlatformInfo; cp_DOOH : option PlatformInfo }.
Record OpenRTBInfo := { or_Version : string; or_GPPSupported : bool; or_MultiformatSupported : option bool }.
Record AdapterXAPI := { xa_Username : string; xa_Password : string; xa_Tracker : string }.
Record SyncerEndpoint := { sp_URL : string; sp_RedirectURL : string; sp_ExternalURL : string; sp_UserMacro : string }.
Record SkipWhen := { sk_GDPR : bool; sk_GPPSID : list string }.
Record Syncer := {
  sy_Key : string; sy_Supports : list string; sy_IFrame : option SyncerEndpoint; sy_Redirect : option SyncerEndpoint;
  sy_ExternalURL : string; sy_FormatOverride : string; sy_Enabled : option bool; sy_SkipWhen : option SkipWhen
}.
(** [bf_Maintainer] is the maintainer's e-mail, [bf_Debug] whether debugging is allowed. *)
Record BidderInfoFile := {
  bf_AliasOf : string; bf_WhiteLabelOnly : bool; bf_Disabled : bool; bf_Endpoint : string; bf_ExtraAdapterInfo : string; bf_OpenRTB : option OpenRTBInfo;
  bf_Maintainer : option string; bf_Capabilities : option CapabilitiesInfo; bf_ModifyingVastXmlAllowed : bool; bf_Debug : option bool; bf_Geoscope : list string;
  bf_GVLVendorID : Z; bf_Syncer : option Syncer; bf_AdsCert : bool; bf_XAPI : AdapterXAPI; bf_PlatformID : string; bf_AppSecret : string; bf_EndpointCompression : string
}.
Record aliasNillableFields := { an_Disabled : option bool; an_ModifyingVastXmlAllowed : option bool; an_Experiment : option bool; an_XAPI : option AdapterXAPI }.
Abbreviation BidderInfos := (gmap string BidderInfoFile).

#[export] Instance SyncerEndpoint_eq_dec : EqDecision SyncerEndpoint.
Proof. solve_decision. Defined.

Definition IsEnabled (bi : BidderInfoFile) : bool := negb (bf_WhiteLabelOnly bi) && negb (bf_Disabled bi).
Definition is_set {A} (o : option A) : bool := match o with Some _ => true | None => false end.
Definition Defined (s : option Syncer) : bool :=
  match s with
  | None => false
  | Some s => (sy_Key s ≠s? "") || is_set (sy_IFrame s) || is_set (sy_Redirect s) || (sy_ExternalURL s ≠s? "") || (sy_FormatOverride s ≠s? "") || is_set (sy_SkipWhen s)
  end.

(** ** Names: openrtb_ext/bidders.go *)
Record registry := { rg_coreBidderNames : list string; rg_aliasBidderToParent : gmap string string; rg_lookup : gmap string string }.
Definition reserved_names : list string := ["all"; "context"; "data"; "general"; "gpid"; "skadn"; "prebid"; "tid"; "ae"; "igs"].
Definition IsBidderNameReserved (name : string) : bool := existsb (EqualFold name) reserved_names.
Definition SetAliasBidderName (r : registry) (alias parent : string) : result string registry :=
  if IsBidderNameReserved alias then Err ("alias " +:+ alias +:+ " is a reserved bidder name and cannot be used")
  else Ok {| rg_coreBidderNames := rg_coreBidderNames r ++ [alias]; rg_aliasBidderToParent := <[alias := parent]> (rg_aliasBidderToParent r);
             rg_lookup := <[ToLower alias := alias]> (rg_lookup r) |}.
Definition normalizeBidderName (r : registry) (name : string) : option string := rg_lookup r !! ToLower name.

(** ** Aliases *)
Definition set_syncer s i := {|
  bf_AliasOf := bf_AliasOf i; bf_WhiteLabelOnly := bf_WhiteLabelOnly i; bf_Disabled := bf_Disabled i; bf_Endpoint := bf_Endpoint i; bf_ExtraAdapterInfo := bf_ExtraAdapterInfo i; bf_OpenRTB := bf_OpenRTB i;
  bf_Maintainer := bf_Maintainer i; bf_Capabilities := bf_Capabilities i; bf_ModifyingVastXmlAllowed := bf_ModifyingVastXmlAllowed i; bf_Debug := bf_Debug i; bf_Geoscope := bf_Geoscope i;
  bf_GVLVendorID := bf_GVLVendorID i; bf_Syncer := s; bf_AdsCert := bf_AdsCert i; bf_XAPI := bf_XAPI i; bf_PlatformID := bf_PlatformID i; bf_AppSecret := bf_AppSecret i; bf_EndpointCompression := bf_EndpointCompression i |}.
Definition list_of {A} (o : option A) : list A := match o with Some a => [a] | None => [] end.
Definition str_or (a b : string) : string := if a =s? "" then b else a.
Definition opt_or {A} (a b : option A) : option A := match a with Some _ => a | None => b end.
Definition validateAliases (alias : BidderInfoFile) (infos : BidderInfos) (bidderName : string) : option string :=
  if bf_AliasOf alias =s? "" then None
  else if bf_WhiteLabelOnly alias then Some ("bidder '" +:+ bidderName +:+ "' is an alias and cannot be set as white label only")
  else match infos !! bf_AliasOf alias with
       | None => Some ("alias '" +:+ bidderName +:+ "' references a nonexistent bidder '" +:+ bf_AliasOf alias +:+ "'")
       | Some parent => if bf_AliasOf parent =s? "" then None
                        else Some ("alias '" +:+ bidderName +:+ "' cannot reference another alias '" +:+ bf_AliasOf alias +:+ "'")
       end.
Definition empty_syncer (key : string) : Syncer := {| sy_Key := key; sy_Supports := []; sy_IFrame := None; sy_Redirect := None; sy_ExternalURL := ""; sy_FormatOverride := ""; sy_Enabled := None; sy_SkipWhen := None |}.
(** An alias shares the syncer of its parent by its key. *)
Definition inherited_syncer (alias parent : BidderInfoFile) : option Syncer :=
  match bf_Syncer alias with
  | Some s => Some s
  | None => if Defined (bf_Syncer parent) then Some (empty_syncer (str_or (from_option sy_Key "" (bf_Syncer parent)) (bf_AliasOf alias))) else None
  end.
Definition inherit (alias parent : BidderInfoFile) (n : aliasNillableFields) : BidderInfoFile := {|
  bf_AliasOf := bf_AliasOf alias; bf_WhiteLabelOnly := bf_WhiteLabelOnly alias;
  bf_Disabled := if an_Disabled n then bf_Disabled alias else bf_Disabled parent;
  bf_Endpoint := str_or (bf_Endpoint alias) (bf_Endpoint parent);
  bf_ExtraAdapterInfo := str_or (bf_ExtraAdapterInfo alias) (bf_ExtraAdapterInfo parent);
  bf_OpenRTB := opt_or (bf_OpenRTB alias) (bf_OpenRTB parent);
  bf_Maintainer := opt_or (bf_Maintainer alias) (bf_Maintainer parent);
  bf_Capabilities := opt_or (bf_Capabilities alias) (bf_Capabilities parent);
  bf_ModifyingVastXmlAllowed := if an_ModifyingVastXmlAllowed n then bf_ModifyingVastXmlAllowed alias else bf_ModifyingVastXmlAllowed parent;
  bf_Debug := opt_or (bf_Debug alias) (bf_Debug parent);
  bf_Geoscope := bf_Geoscope alias; bf_GVLVendorID := bf_GVLVendorID alias;
  bf_Syncer := inherited_syncer alias parent;
  bf_AdsCert := if an_Experiment n then bf_AdsCert alias else bf_AdsCert parent;
  bf_XAPI := if an_XAPI n then bf_XAPI alias else bf_XAPI parent;
  bf_PlatformID := str_or (bf_PlatformID alias) (bf_PlatformID parent);
  bf_AppSecret := str_or (bf_AppSecret alias) (bf_AppSecret parent);
  bf_EndpointCompression := str_or (bf_EndpointCompression alias) (bf_EndpointCompression parent)
|}.
Definition zero_info : BidderInfoFile := {|
  bf_AliasOf := ""; bf_WhiteLabelOnly := false; bf_Disabled := false; bf_Endpoint := ""; bf_ExtraAdapterInfo := ""; bf_OpenRTB := None;
  bf_Maintainer := None; bf_Capabilities := None; bf_ModifyingVastXmlAllowed := false; bf_Debug := None; bf_Geoscope := []; bf_GVLVendorID := 0;
  bf_Syncer := None; bf_AdsCert := false; bf_XAPI := {| xa_Username := ""; xa_Password := ""; xa_Tracker := "" |}; bf_PlatformID := ""; bf_AppSecret := ""; bf_EndpointCompression := "" |}.

Section infos.
Context {MR : MapRange}.

Definition process_alias (acc : result string BidderInfos) (entry : string * aliasNillableFields) : result string BidderInfos :=
  let '(bidderName, n) := entry in
  let? infos := acc in
  match infos !! bidderName with
  | None => Err ("bidder info not found for an alias: " +:+ bidderName)
  | Some alias =>
      match validateAliases alias infos bidderName with
      | Some e => Err e
      | None => Ok (<[bidderName := inherit alias (default zero_info (infos !! bf_AliasOf alias)) n]> infos)
      end
  end.
Definition processBidderAliases (aliases : gmap string aliasNillableFields) (infos : BidderInfos) : result string BidderInfos :=
  foldl process_alias (Ok infos) (map_range aliases).

(** The decoding of a file, as an info and as the fields of an alias that may be absent. *)
Context (decode_info : string → option BidderInfoFile) (decode_nillable : string → option aliasNillableFields).

Definition load_state : Type := registry * gmap string aliasNillableFields * BidderInfos.
Definition load_file (acc : result string load_state) (file : string * string) : result string load_state :=
  let '(fileName, data) := file in
  let? st := acc in
  let '(r, aliases, infos) := st in
  match SplitChar "." fileName with
  | [bidderName; ext] =>
      if negb (ext =s? "yaml") then Ok st
      else match decode_info data with
           | None => Err ("error parsing config for bidder " +:+ fileName)
           | Some info =>
               if bf_AliasOf info =s? "" then
                 match normalizeBidderName r bidderName with
                 | None => Err ("error parsing config for bidder " +:+ fileName +:+ ": unknown bidder")
                 | Some name => Ok (r, aliases, <[name := info]> infos)
                 end
               else
                 match decode_nillable data with
                 | None => Err ("error parsing config for aliased bidder " +:+ fileName)
                 | Some n =>
                     let? r := SetAliasBidderName r bidderName (bf_AliasOf info) in
                     match normalizeBidderName r bidderName with
                     | None => Err ("error parsing config for an alias " +:+ fileName +:+ ": unknown bidder")
                     | Some name => Ok (r, <[name := n]> aliases, <[name := info]> infos)
                     end
                 end
           end
  | _ => Ok st
  end.
Definition processBidderInfos (r : registry) (files : gmap string string) : result string (BidderInfos * registry) :=
  let? st := foldl load_file (Ok (r, ∅, ∅)) (map_range files) in
  let '(r, aliases, infos) := st in
  let? infos := processBidderAliases aliases infos in
  Ok (infos, r).

Definition ToGVLVendorIDMap (infos : BidderInfos) : gmap string Z :=
  omap (λ info, if IsEnabled info && negb (bf_GVLVendorID info =? 0) then Some (bf_GVLVendorID info) else None) infos.

(** ** Validation *)
Context (validEndpoint : string → string → list string).

Definition validateMaintainer (email : option string) (bidderName : string) : option string :=
  match email with
  | Some e => if e =s? "" then Some ("missing required field: maintainer.email for adapter: " +:+ bidderName) else None
  | None => Some ("missing required field: maintainer.email for adapter: " +:+ bidderName)
  end.
Definition known_media : list string := ["banner"; "video"; "native"; "audio"].
Fixpoint unrecognized (index : nat) (l : list string) : option string :=
  match l with
  | [] => None
  | m :: rest => if existsb (String.eqb m) known_media then unrecognized (S index) rest
                 else Some ("unrecognized media type at index " +:+ pretty index +:+ ": " +:+ m)
  end.
Definition validatePlatformInfo (info : PlatformInfo) : option string :=
  match pf_MediaTypes info with [] => Some "at least one media type needs to be specified" | l => unrecognized 0 l end.
Definition check_platform (name bidderName : string) (p : option PlatformInfo) : option string :=
  p ← p; e ← validatePlatformInfo p; Some ("capabilities." +:+ name +:+ " failed validation: " +:+ e +:+ " for adapter: " +:+ bidderName).
Definition validateCapabilities (info : option CapabilitiesInfo) (bidderName : string) : option string :=
  match info with
  | None => Some ("missing required field: capabilities for adapter: " +:+ bidderName)
  | Some c =>
      if negb (is_set (cp_App c)) && negb (is_set (cp_Site c)) && negb (is_set (cp_DOOH c))
      then Some ("at least one of capabilities.site, capabilities.app, or capabilities.dooh must exist for adapter: " +:+ bidderName)
      else opt_or (check_platform "app" bidderName (cp_App c)) (opt_or (check_platform "site" bidderName (cp_Site c)) (check_platform "dooh" bidderName (cp_DOOH c)))
  end.
Definition isAliasPlatformInfoSubsetOfParent (parent alias : PlatformInfo) (bidderName parentName : string) : option string :=
  if forallb (λ m, existsb (String.eqb m) (pf_MediaTypes parent)) (pf_MediaTypes alias) then None
  else Some ("mediaTypes for alias: " +:+ bidderName +:+ " should be a subset of MediaTypes for parent bidder: " +:+ parentName).
Definition subset_error (bidderName parentName : string) : string :=
  "capabilities for alias: " +:+ bidderName +:+ " should be a subset of capabilities for parent bidder: " +:+ parentName.
Definition platform_subset (bidderName parentName : string) (alias parent : option PlatformInfo) : option string :=
  match alias, parent with Some a, Some p => isAliasPlatformInfoSubsetOfParent p a bidderName parentName | _, _ => None end.
Definition validateAliasCapabilities (alias : BidderInfoFile) (infos : BidderInfos) (bidderName : string) : option string :=
  let parentName := bf_AliasOf alias in
  match infos !! parentName with
  | None => Some ("parent bidder: " +:+ parentName +:+ " not found for an alias: " +:+ bidderName)
  | Some parent =>
      match bf_Capabilities alias, bf_Capabilities parent with
      | None, _ => None
      | Some _, None => Some (subset_error bidderName parentName)
      | Some a, Some p =>
          if (is_set (cp_App a) && negb (is_set (cp_App p))) || (is_set (cp_Site a) && negb (is_set (cp_Site p))) || (is_set (cp_DOOH a) && negb (is_set (cp_DOOH p)))
          then Some (subset_error bidderName parentName)
          else opt_or (platform_subset bidderName parentName (cp_Site a) (cp_Site p))
                 (opt_or (platform_subset bidderName parentName (cp_App a) (cp_App p)) (platform_subset bidderName parentName (cp_DOOH a) (cp_DOOH p)))
      end
  end.
Fixpoint all_capitals (s : string) : bool :=
  match s with EmptyString => true | String a r => (65 <=? N_of_ascii a)%N && (N_of_ascii a <=? 90)%N && all_capitals r end.
Definition geoscope_entry (i : nat) (bidderName code : string) : option string :=
  let code := ToUpper (TrimSpace code) in
  if (code =s? "GLOBAL") || (code =s? "EEA") then None
  else let exclusion := if HasPrefix code "!" then "!" else "" in
       let code' := if HasPrefix code "!" then str_drop 1 code else code in
       if negb (String.length code' =? 3)%nat then Some ("invalid geoscope entry at index " +:+ pretty i +:+ ": " +:+ code' +:+ " for adapter: " +:+ exclusion +:+ bidderName +:+ " - must be a 3-letter ISO 3166-1 alpha-3 country code")
       else if all_capitals code' then None
       else Some ("invalid geoscope entry at index " +:+ pretty i +:+ ": " +:+ code' +:+ " for adapter: " +:+ exclusion +:+ bidderName +:+ " - must contain only uppercase letters A-Z").
Fixpoint validate_geoscope (i : nat) (geoscope : list string) (bidderName : string) : option string :=
  match geoscope with [] => None | code :: rest => opt_or (geoscope_entry i bidderName code) (validate_geoscope (S i) rest bidderName) end.
Definition validateInfo (bidder : BidderInfoFile) (infos : BidderInfos) (bidderName : string) : option string :=
  opt_or (validateMaintainer (bf_Maintainer bidder) bidderName)
    (opt_or (validate_geoscope 0 (bf_Geoscope bidder) bidderName)
      (opt_or (validateCapabilities (bf_Capabilities bidder) bidderName)
        (if bf_AliasOf bidder =s? "" then None else validateAliasCapabilities bidder infos bidderName))).
Definition validateSyncer (bidder : BidderInfoFile) : option string :=
  match bf_Syncer bidder with
  | None => None
  | Some s =>
      if existsb (String.eqb (sy_FormatOverride s)) ["b"; "i"; ""] then
        (λ m, "syncer could not be created, invalid supported endpoint: " +:+ m) <$>
          find (λ m, negb (EqualFold m "iframe") && negb (EqualFold m "redirect")) (sy_Supports s)
      else Some ("syncer could not be created, invalid format override value: " +:+ sy_FormatOverride s)
  end.
Definition bidder_errors (infos : BidderInfos) (entry : string * BidderInfoFile) : list string :=
  let '(bidderName, bidder) := entry in
  if IsEnabled bidder
  then validEndpoint (bf_Endpoint bidder) bidderName ++ list_of (validateInfo bidder infos bidderName) ++ list_of (validateSyncer bidder)
  else [].
Definition validate_infos (infos : BidderInfos) : list string := map_range infos ≫= bidder_errors infos.
End infos.

(** ** The host's configuration over the files *)
Definition SyncerEndpoint_Override (s original : option SyncerEndpoint) : option SyncerEndpoint :=
  match s, original with
  | None, o => o
  | Some s, None => Some s
  | Some s, Some o => Some {| sp_URL := str_or (sp_URL s) (sp_URL o); sp_RedirectURL := str_or (sp_RedirectURL s) (sp_RedirectURL o);
                              sp_ExternalURL := str_or (sp_ExternalURL s) (sp_ExternalURL o); sp_UserMacro := str_or (sp_UserMacro s) (sp_UserMacro o) |}
  end.
(** The supported types, the format and the rule for skipping are those of the original. *)
Definition Syncer_Override (s original : option Syncer) : option Syncer :=
  match s, original with
  | None, o => o
  | Some s, o =>
      let c := default (empty_syncer "") o in
      Some {| sy_Key := str_or (sy_Key s) (sy_Key c); sy_Supports := sy_Supports c;
              sy_IFrame := SyncerEndpoint_Override (sy_IFrame s) (sy_IFrame c); sy_Redirect := SyncerEndpoint_Override (sy_Redirect s) (sy_Redirect c);
              sy_ExternalURL := str_or (sy_ExternalURL s) (sy_ExternalURL c); sy_FormatOverride := sy_FormatOverride c;
              sy_Enabled := opt_or (sy_Enabled s) (sy_Enabled c); sy_SkipWhen := sy_SkipWhen c |}
  end.
Definition override_info (c : BidderInfoFile) (n : aliasNillableFields) (f : BidderInfoFile) : BidderInfoFile := {|
  bf_AliasOf := bf_AliasOf f; bf_WhiteLabelOnly := bf_WhiteLabelOnly f;
  bf_Disabled := if an_Disabled n then bf_Disabled c else bf_Disabled f;
  bf_Endpoint := str_or (bf_Endpoint c) (bf_Endpoint f); bf_ExtraAdapterInfo := str_or (bf_ExtraAdapterInfo c) (bf_ExtraAdapterInfo f);
  bf_OpenRTB := opt_or (bf_OpenRTB c) (bf_OpenRTB f); bf_Maintainer := opt_or (bf_Maintainer c) (bf_Maintainer f);
  bf_Capabilities := opt_or (bf_Capabilities c) (bf_Capabilities f);
  bf_ModifyingVastXmlAllowed := if an_ModifyingVastXmlAllowed n then bf_ModifyingVastXmlAllowed c else bf_ModifyingVastXmlAllowed f;
  bf_Debug := opt_or (bf_Debug c) (bf_Debug f); bf_Geoscope := bf_Geoscope f;
  bf_GVLVendorID := if 0 <? bf_GVLVendorID c then bf_GVLVendorID c else bf_GVLVendorID f;
  bf_Syncer := Syncer_Override (bf_Syncer c) (bf_Syncer f); bf_AdsCert := bf_AdsCert c || bf_AdsCert f;
  bf_XAPI := {| xa_Username := str_or (xa_Username (bf_XAPI c)) (xa_Username (bf_XAPI f)); xa_Password := str_or (xa_Password (bf_XAPI c)) (xa_Password (bf_XAPI f));
                xa_Tracker := str_or (xa_Tracker (bf_XAPI c)) (xa_Tracker (bf_XAPI f)) |};
  bf_PlatformID := str_or (bf_PlatformID c) (bf_PlatformID f); bf_AppSecret := str_or (bf_AppSecret c) (bf_AppSecret f);
  bf_EndpointCompression := str_or (bf_EndpointCompression c) (bf_EndpointCompression f)
|}.

Section override.
Context {MR : MapRange}.
Definition override_step (r : registry) (fsInfos : BidderInfos) (acc : result string BidderInfos) (entry : string * (BidderInfoFile * aliasNillableFields))
    : result string BidderInfos :=
  let '(bidderName, (c, n)) := entry in
  let? merged := acc in
  match normalizeBidderName r bidderName with
  | None => Err ("error setting configuration for bidder " +:+ bidderName +:+ ": unknown bidder")
  | Some name => match fsInfos !! name with
                 | None => Err ("error finding configuration for bidder " +:+ bidderName +:+ ": unknown bidder")
                 | Some f => Ok (<[name := override_info c n f]> merged)
                 end
  end.
Definition applyBidderInfoConfigOverrides (r : registry) (configInfos : gmap string (BidderInfoFile * aliasNillableFields)) (fsInfos : BidderInfos)
    : result string BidderInfos :=
  let? merged := foldl (override_step r fsInfos) (Ok ∅) (map_range configInfos) in
  Ok (foldl (λ (m : BidderInfos) '(name, f), match m !! name with Some _ => m | None => <[name := f]> m end) merged (map_range fsInfos)).

(** ** Syncers *)
Definition counts (l : list string) : gmap string Z := foldl (λ (m : gmap string Z) x, <[x := default 0 (m !! x) + 1]> m) ∅ l.
Definition EqualIgnoreOrder (s1 s2 : list string) : bool := (length s1 =? length s2)%nat && bool_decide (counts s1 = counts s2).
Definition SkipWhen_Equal (s other : option SkipWhen) : bool :=
  match s, other with
  | None, None => true
  | Some a, Some b => Bool.eqb (sk_GDPR a) (sk_GDPR b) && EqualIgnoreOrder (sk_GPPSID a) (sk_GPPSID b)
  | _, _ => false
  end.
Definition Syncer_Equal (s other : Syncer) : bool :=
  (sy_Key s =s? sy_Key other) && EqualIgnoreOrder (sy_Supports s) (sy_Supports other) && bool_decide (sy_IFrame s = sy_IFrame other) &&
  bool_decide (sy_Redirect s = sy_Redirect other) && (sy_ExternalURL s =s? sy_ExternalURL other) && (sy_FormatOverride s =s? sy_FormatOverride other) &&
  bool_decide (sy_Enabled s = sy_Enabled other) && SkipWhen_Equal (sy_SkipWhen s) (sy_SkipWhen other).

Definition shouldCreateSyncer (cfg : BidderInfoFile) : bool := IsEnabled cfg && Defined (bf_Syncer cfg).
Definition has_endpoint (s : Syncer) : bool := is_set (sy_IFrame s) || is_set (sy_Redirect s).
Inductive choose_error := NoEndpoints (key_bidders : list string) | ManyEndpoints (key_bidders : list string).
Definition chooseSyncerConfig (group : list (string * Syncer)) : result choose_error (string * Syncer) :=
  match group with
  | [one] => Ok one
  | _ =>
      let with_ := filter (λ b, has_endpoint b.2 = true) group in
      match with_ with
      | [] => Err (NoEndpoints group.*1)
      | first :: rest => if forallb (λ b, Syncer_Equal first.2 b.2) rest then Ok (default first (last with_)) else Err (ManyEndpoints with_.*1)
      end
  end.

(** Whether the template of an endpoint builds for a bidder, from the host's settings and the
    syncer's external URL and format. *)
Context (template_ok : string → SyncType → string → SyncerEndpoint → string → bool).
Definition new_syncer (cfg : Syncer) (bidder : string) : result syncer_error standardSyncer :=
  NewSyncer (sy_Key cfg) (is_set (sy_IFrame cfg)) (is_set (sy_Redirect cfg)) (sy_FormatOverride cfg)
    (λ t, match (match t with SyncTypeIFrame => sy_IFrame cfg | _ => sy_Redirect cfg end) with
          | Some e => template_ok bidder t (sy_ExternalURL cfg) e (sy_FormatOverride cfg)
          | None => true
          end).

Definition set_key (key : string) (s : Syncer) : Syncer := {| sy_Key := key; sy_Supports := sy_Supports s; sy_IFrame := sy_IFrame s; sy_Redirect := sy_Redirect s;
  sy_ExternalURL := sy_ExternalURL s; sy_FormatOverride := sy_FormatOverride s; sy_Enabled := sy_Enabled s; sy_SkipWhen := sy_SkipWhen s |}.
Definition cfgByBidder (infos : BidderInfos) : gmap string Syncer :=
  omap (λ cfg, if shouldCreateSyncer cfg then bf_Syncer cfg else None) infos.
Definition keyed (bidder : string) (cfg : Syncer) : Syncer := if sy_Key cfg =s? "" then set_key bidder cfg else cfg.
Definition cfgBySyncerKey (cfgs : gmap string Syncer) : gmap string (list (string * Syncer)) :=
  foldl (λ (m : gmap string (list (string * Syncer))) '(bidder, cfg),
           let cfg := keyed bidder cfg in <[sy_Key cfg := default [] (m !! sy_Key cfg) ++ [(bidder, cfg)]]> m) ∅ (map_range cfgs).
Inductive build_error := E_choose (e : choose_error) | E_syncer (bidder key : string) (e : syncer_error).
Definition build_one (key : string) (primary : string * Syncer) (st : gmap string standardSyncer * list build_error) (bidder : string * Syncer)
    : gmap string standardSyncer * list build_error :=
  match new_syncer primary.2 bidder.1 with
  | Err e => (st.1, st.2 ++ [E_syncer primary.1 key e])
  | Ok s => (<[bidder.1 := s]> st.1, st.2)
  end.
Definition build_group (st : gmap string standardSyncer * list build_error) (entry : string * list (string * Syncer))
    : gmap string standardSyncer * list build_error :=
  match chooseSyncerConfig entry.2 with
  | Err e => (st.1, st.2 ++ [E_choose e])
  | Ok primary => foldl (build_one entry.1 primary) st entry.2
  end.
Definition BuildSyncers (infos : BidderInfos) : result (list build_error) (gmap string standardSyncer) :=
  let '(syncers, errs) := foldl build_group (∅, []) (map_range (cfgBySyncerKey (cfgByBidder infos))) in
  match errs with [] => Ok syncers | _ => Err errs end.
End override.

(** ** Correctness *)
(** *** Aliases *)
Section alias_laws.
Context {MR : MapRange} (aliases : gmap string aliasNillableFields) (infos : BidderInfos).
(** What loading the files gives: every alias has an info that names its parent. *)
Hypothesis Hloaded : ∀ name n, aliases !! name = Some n → ∃ info, infos !! name = Some info ∧ bf_AliasOf info ≠ "".

Definition parent_of (info : BidderInfoFile) : BidderInfoFile := default zero_info (infos !! bf_AliasOf info).
(** What the infos become. *)
Definition resolved (name : string) : option BidderInfoFile :=
  info ← infos !! name;
  Some match aliases !! name with Some n => inherit info (parent_of info) n | None => info end.
Definition alias_valid (name : string) : Prop := ∀ info, infos !! name = Some info → validateAliases info infos name = None.

Definition halfway (cur : BidderInfos) (todo : list string) : Prop :=
  ∀ name, cur !! name = if decide (name ∈ todo) then infos !! name else resolved name.

Lemma halfway_alias cur todo name : halfway cur todo → (bf_AliasOf <$> cur !! name) = (bf_AliasOf <$> infos !! name).
Proof.
  intros H. rewrite H. destruct (decide _); [done|]. unfold resolved. destruct (infos !! name) as [info|]; [|done]. simpl. by destruct (aliases !! name).
Qed.
Lemma halfway_parent cur todo name info : halfway cur todo → infos !! name = Some info → bf_AliasOf info = "" → cur !! name = Some info.
Proof.
  intros H Hi Ha. rewrite H. destruct (decide _); [done|]. unfold resolved. rewrite Hi. simpl. destruct (aliases !! name) as [m|] eqn:En; [|done].
  destruct (Hloaded _ _ En) as (? & ? & ?). simplify_eq.
Qed.
Lemma halfway_validate cur todo name info : halfway cur todo → validateAliases info cur name = validateAliases info infos name.
Proof.
  intros H. unfold validateAliases. destruct (bf_AliasOf info =s? ""); [done|]. destruct (bf_WhiteLabelOnly info); [done|].
  pose proof (halfway_alias cur todo (bf_AliasOf info) H) as Hp. destruct (cur !! _), (infos !! _); simplify_eq/=; [|done]. by rewrite Hp.
Qed.

(** One alias: an invalid one is an error, a valid one gets what it leaves open from the parent,
    which no step changes. *)
Lemma process_alias_step cur todo name n : name ∉ todo → aliases !! name = Some n → halfway cur (name :: todo) →
  match process_alias (Ok cur) (name, n) with Ok res => alias_valid name ∧ halfway res todo | Err _ => ¬ alias_valid name end.
Proof.
  intros Hn Hal Hcur. destruct (Hloaded _ _ Hal) as (info & Hi & Ha).
  assert (cur !! name = Some info) as Hc by (rewrite Hcur, decide_True by left; done). simpl. rewrite Hc, (halfway_validate _ _ _ _ Hcur).
  destruct (validateAliases info infos name) as [e|] eqn:Ev; [intros Hv; by rewrite (Hv _ Hi) in Ev|].
  split; [intros i Hi'; by simplify_eq|]. intros x. destruct (decide (name = x)) as [<-|Hne].
  - rewrite lookup_insert_eq, decide_False by done. unfold resolved, parent_of. rewrite Hi, Hal. simpl. do 2 f_equal.
    unfold validateAliases in Ev. rewrite (proj2 (String.eqb_neq _ _) Ha) in Ev. destruct (bf_WhiteLabelOnly info); [done|].
    destruct (infos !! bf_AliasOf info) as [p|] eqn:Hp; [|done]. destruct (String.eqb_spec (bf_AliasOf p) "") as [Hpa|]; [|done].
    by rewrite (halfway_parent _ _ _ _ Hcur Hp Hpa).
  - rewrite lookup_insert_ne by done. rewrite Hcur. destruct (decide (x ∈ todo)); [by rewrite decide_True by (by right)|].
    rewrite decide_False; [done|]. intros [?|?]%elem_of_cons; [congruence|done].
Qed.
Lemma process_aliases_err l e : foldl process_alias (Err e) l = Err e.
Proof. induction l as [|[? ?] l IH]; [done|]. exact IH. Qed.
Lemma process_aliases_fold l cur : NoDup l.*1 → (∀ name n, (name, n) ∈ l → aliases !! name = Some n) → halfway cur l.*1 →
  match foldl process_alias (Ok cur) l with
  | Ok res => (∀ name, name ∈ l.*1 → alias_valid name) ∧ halfway res []
  | Err _ => ∃ name, name ∈ l.*1 ∧ ¬ alias_valid name
  end.
Proof.
  revert cur. induction l as [|[name n] l IH]; intros cur Hnd Hin Hcur; [split; [set_solver|done]|]. simpl in Hnd. apply NoDup_cons in Hnd as [Hn Hnd].
  pose proof (process_alias_step cur l.*1 name n Hn ltac:(apply Hin; left) Hcur) as H. cbn [foldl].
  destruct (process_alias (Ok cur) (name, n)) as [res|e]; [|rewrite process_aliases_err; exists name; split; [left|done]].
  destruct H as [Hv Hh]. specialize (IH res Hnd ltac:(intros; apply Hin; by right) Hh). destruct (foldl process_alias (Ok res) l).
  - destruct IH as [Hr Hx]. split; [|done]. intros x [->|?]%elem_of_cons; auto.
  - destruct IH as (x & ? & ?). exists x. split; [by right|done].
Qed.

(** In every order: the aliases are refused exactly when one of them is invalid, and otherwise each has
    what it says itself, the rest from its parent, and always its own vendor id. *)
Theorem aliases_resolved :
  match processBidderAliases aliases infos with
  | Ok res => (∀ name, is_Some (aliases !! name) → alias_valid name) ∧ (∀ name, res !! name = resolved name) ∧
              ∀ name info, infos !! name = Some info → (bf_GVLVendorID <$> res !! name) = Some (bf_GVLVendorID info)
  | Err _ => ∃ name, is_Some (aliases !! name) ∧ ¬ alias_valid name
  end.
Proof.
  assert (∀ name, name ∈ (map_range aliases).*1 ↔ is_Some (aliases !! name)) as Hdom.
  { intros name. rewrite list_elem_of_fmap. split.
    - intros ([k n] & -> & Hk). exists n. by apply elem_of_map_range.
    - intros [n Hn]. exists (name, n). split; [done|]. by apply elem_of_map_range. }
  assert (halfway infos (map_range aliases).*1) as Hstart.
  { intros name. destruct (decide _) as [|Hni]; [done|]. unfold resolved. rewrite Hdom in Hni. destruct (infos !! name); [|done]. simpl.
    destruct (aliases !! name); [|done]. destruct Hni. by eexists. }
  pose proof (process_aliases_fold (map_range aliases) infos (NoDup_map_range_fst _) (λ name n, proj1 (elem_of_map_range _ _ _)) Hstart) as H.
  unfold processBidderAliases. destruct (foldl process_alias (Ok infos) (map_range aliases)) as [res|e].
  - destruct H as [Hv Hr]. assert (∀ name, res !! name = resolved name) as Hres by (intros name; rewrite Hr; by rewrite decide_False by apply not_elem_of_nil).
    split; [intros name Hn; apply Hv; by apply Hdom|]. split; [done|]. intros name info Hi. rewrite Hres. unfold resolved. rewrite Hi. simpl.
    by destruct (aliases !! name).
  - destruct H as (name & Hn & Hb). exists name. split; [by apply Hdom|done].
Qed.
End alias_laws.

(** *** Validation *)
Lemma opt_or_None {A} (a b : option A) : opt_or a b = None ↔ a = None ∧ b = None.
Proof. destruct a; simpl; intuition done. Qed.
Lemma unrecognized_None i l : unrecognized i l = None ↔ Forall (λ m, m ∈ known_media) l.
Proof.
  revert i. induction l as [|m l IH]; intros i; cbn [unrecognized]; [split; [constructor|done]|]. rewrite Forall_cons.
  destruct (existsb (String.eqb m) known_media) eqn:E.
  - rewrite IH. assert (m ∈ known_media); [|tauto]. apply existsb_exists in E as (x & Hx & ->%String.eqb_eq). by apply list_elem_of_In.
  - split; [done|]. intros [Hm _]. exfalso. apply not_true_iff_false in E. apply E, existsb_exists. exists m. split; [by apply list_elem_of_In|apply String.eqb_refl].
Qed.
Definition platform_ok (p : PlatformInfo) : Prop := pf_MediaTypes p ≠ [] ∧ Forall (λ m, m ∈ known_media) (pf_MediaTypes p).
Lemma check_platform_None name bidder p : check_platform name bidder (Some p) = None ↔ platform_ok p.
Proof.
  unfold check_platform, validatePlatformInfo, platform_ok. cbn [mbind option_bind]. rewrite <- (unrecognized_None 0).
  destruct (pf_MediaTypes p) as [|m l]; [split; [done|by intros []]|]. destruct (unrecognized 0 (m :: l)); simpl; (split; [try done|intros [? Hx]; try done]).
Qed.
Definition platforms (c : CapabilitiesInfo) : list PlatformInfo := list_of (cp_App c) ++ list_of (cp_Site c) ++ list_of (cp_DOOH c).
Lemma validateCapabilities_None info bidder : validateCapabilities info bidder = None ↔ ∃ c, info = Some c ∧ platforms c ≠ [] ∧ Forall platform_ok (platforms c).
Proof.
  destruct info as [c|]; simpl; [|split; [done|by intros (? & [=] & _)]].
  transitivity (platforms c ≠ [] ∧ Forall platform_ok (platforms c)); [|split; [intros []; by exists c|by intros (? & [= <-] & ?)]].
  unfold platforms. destruct (cp_App c) as [a|], (cp_Site c) as [s|], (cp_DOOH c) as [d|]; cbn [is_set negb andb list_of app];
    rewrite ?opt_or_None, ?check_platform_None, ?Forall_cons, ?Forall_nil; intuition done.
Qed.
Definition platform_within (a p : option PlatformInfo) : Prop :=
  match a, p with Some a, Some p => ∀ m, m ∈ pf_MediaTypes a → m ∈ pf_MediaTypes p | Some _, None => False | None, _ => True end.
Lemma platform_subset_within b n a p : platform_subset b n a p = None → (is_set a && negb (is_set p)) = false → platform_within a p.
Proof.
  destruct a as [a|], p as [p|]; simpl; try done. unfold isAliasPlatformInfoSubsetOfParent. destruct (forallb _ _) eqn:E; [|done]. intros _ _ m Hm.
  rewrite forallb_forall in E. apply list_elem_of_In, E in Hm. apply existsb_exists in Hm as (x & Hx & ->%String.eqb_eq). by apply list_elem_of_In.
Qed.
Definition within (a p : CapabilitiesInfo) : Prop := platform_within (cp_App a) (cp_App p) ∧ platform_within (cp_Site a) (cp_Site p) ∧ platform_within (cp_DOOH a) (cp_DOOH p).

Section validation_laws.
Context {MR : MapRange} (validEndpoint : string → string → list string).
(** Infos without errors: every enabled bidder has a maintainer, an endpoint that was checked and
    platforms with known media types; and an alias can do no more than its parent. *)
Theorem valid_infos_capable infos name bidder : validate_infos validEndpoint infos = [] → infos !! name = Some bidder → IsEnabled bidder = true →
  validEndpoint (bf_Endpoint bidder) name = [] ∧ (∃ e, bf_Maintainer bidder = Some e ∧ e ≠ "") ∧
  ∃ c, bf_Capabilities bidder = Some c ∧ platforms c ≠ [] ∧ Forall platform_ok (platforms c) ∧
    (bf_AliasOf bidder ≠ "" → ∃ parent p, infos !! bf_AliasOf bidder = Some parent ∧ bf_Capabilities parent = Some p ∧ within c p).
Proof.
  intros Hv Hb He. assert (bidder_errors validEndpoint infos (name, bidder) = []) as H.
  { apply elem_of_nil_inv. intros e Hin. assert (e ∈ validate_infos validEndpoint infos) as Hx; [|rewrite Hv in Hx; by apply elem_of_nil in Hx].
    unfold validate_infos. apply list_elem_of_bind. exists (name, bidder). split; [done|]. by apply elem_of_map_range. }
  simpl in H. rewrite He in H. apply app_eq_nil in H as [H1 [H2 _]%app_eq_nil]. destruct (validateInfo bidder infos name) as [|] eqn:Ei; [done|].
  unfold validateInfo in Ei. apply opt_or_None in Ei as [Hm [_ [Hc Ha]%opt_or_None]%opt_or_None]. split; [done|]. split.
  { unfold validateMaintainer in Hm. destruct (bf_Maintainer bidder) as [e|]; [|done]. exists e. split; [done|]. by destruct (String.eqb_spec e ""). }
  apply validateCapabilities_None in Hc as (c & Hc & Hne & Hp). exists c. split_and!; try done. intros Hal.
  rewrite (proj2 (String.eqb_neq _ _) Hal) in Ha. unfold validateAliasCapabilities in Ha. destruct (infos !! bf_AliasOf bidder) as [parent|]; [|done].
  rewrite Hc in Ha. destruct (bf_Capabilities parent) as [p|] eqn:Ep; [|done]. exists parent, p. split_and!; [done|done|].
  destruct (_ || _ || _) eqn:Eo; [done|]. apply orb_false_iff in Eo as [[O1 O2]%orb_false_iff O3].
  apply opt_or_None in Ha as [Hs [Happ Hd]%opt_or_None]. split_and!; by eapply platform_subset_within.
Qed.
End validation_laws.

(** *** Overrides *)
Section override_laws.
Context {MR : MapRange} (r : registry) (fsInfos : BidderInfos).
Definition overridden_by (entry : string * (BidderInfoFile * aliasNillableFields)) (name : string) (info : BidderInfoFile) : Prop :=
  normalizeBidderName r entry.1 = Some name ∧ ∃ f, fsInfos !! name = Some f ∧ info = override_info entry.2.1 entry.2.2 f.

Lemma override_fold_err l e : foldl (override_step r fsInfos) (Err e) l = Err e.
Proof. induction l as [|[? [? ?]] l IH]; [done|]. exact IH. Qed.
Lemma override_fold l m m' name : foldl (override_step r fsInfos) (Ok m) l = Ok m' →
  (m' !! name = m !! name ∧ ∀ entry, entry ∈ l → normalizeBidderName r entry.1 ≠ Some name) ∨ ∃ entry info, entry ∈ l ∧ m' !! name = Some info ∧ overridden_by entry name info.
Proof.
  revert m. induction l as [|[k [c n]] l IH]; intros m; [intros [= ->]; left; split; [done|set_solver]|]. cbn [foldl]. unfold override_step at 2. cbn [rbind].
  destruct (normalizeBidderName r k) as [x|] eqn:Ek; [|by rewrite override_fold_err]. destruct (fsInfos !! x) as [f|] eqn:Ef; [|by rewrite override_fold_err].
  intros [[Hm Hn]|(entry & info & He & Hi & Ho)]%IH; [|right; exists entry, info; split; [by right|done]].
  destruct (decide (x = name)) as [->|Hne].
  - right. exists (k, (c, n)), (override_info c n f). split; [left|]. rewrite Hm, lookup_insert_eq. split; [done|]. split; [done|]. by exists f.
  - left. rewrite Hm, lookup_insert_ne by done. split; [done|]. intros entry [->|?]%elem_of_cons; [simpl; congruence|auto].
Qed.
Lemma fill_lookup l (m : BidderInfos) name : NoDup l.*1 →
  foldl (λ (m : BidderInfos) '(name, f), match m !! name with Some _ => m | None => <[name := f]> m end) m l !! name =
    opt_or (m !! name) ((list_to_map l : BidderInfos) !! name).
Proof.
  revert m. induction l as [|[k f] l IH]; intros m Hnd; simpl; [by destruct (m !! name)|]. simpl in Hnd. apply NoDup_cons in Hnd as [Hk Hnd].
  rewrite IH by done. destruct (decide (k = name)) as [->|Hne].
  - rewrite lookup_insert_eq. assert ((list_to_map l : BidderInfos) !! name = None) as Hl by (by apply not_elem_of_list_to_map).
    destruct (m !! name) eqn:E; [by rewrite E|]. by rewrite lookup_insert_eq.
  - rewrite (lookup_insert_ne (list_to_map l : BidderInfos)) by done. destruct (m !! k); [done|]. by rewrite lookup_insert_ne.
Qed.
(** In every order the host's settings change only the bidders they name, and a bidder they name has
    the file's info with one of the settings for it laid over. *)
Theorem overrides_exact configInfos res : applyBidderInfoConfigOverrides r configInfos fsInfos = Ok res → ∀ name,
  (res !! name = fsInfos !! name ∧ ∀ k v, configInfos !! k = Some v → normalizeBidderName r k ≠ Some name) ∨
  ∃ k v info, configInfos !! k = Some v ∧ res !! name = Some info ∧ overridden_by (k, v) name info.
Proof.
  unfold applyBidderInfoConfigOverrides. destruct (foldl (override_step r fsInfos) (Ok ∅) (map_range configInfos)) as [m|] eqn:E; [|done].
  cbn [rbind]. intros [= <-] name. rewrite fill_lookup by apply NoDup_map_range_fst.
  assert ((list_to_map (map_range fsInfos) : BidderInfos) !! name = fsInfos !! name) as ->.
  { rewrite <- (list_to_map_to_list fsInfos) at 2. f_equal. apply list_to_map_proper; [apply NoDup_map_range_fst|apply map_range_perm]. }
  destruct (override_fold _ _ _ name E) as [[Hm Hn]|([k v] & info & He & Hi & Ho)].
  - left. rewrite Hm, lookup_empty. split; [done|]. intros k v Hk. apply (Hn (k, v)). by apply elem_of_map_range.
  - right. exists k, v, info. split; [by apply elem_of_map_range|]. by rewrite Hi.
Qed.
End override_laws.

(** *** Lists as multisets *)
Lemma counts_fold l (m : gmap string Z) x :
  foldl (λ (m : gmap string Z) x, <[x := default 0 (m !! x) + 1]> m) m l !! x =
    if decide (x ∈ l) then Some (default 0 (m !! x) + Z.of_nat (count_occ string_dec l x)) else m !! x.
Proof.
  revert m. induction l as [|y l IH]; intros m; cbn [foldl count_occ]; [by rewrite decide_False by apply not_elem_of_nil|]. rewrite IH.
  destruct (string_dec y x) as [->|Hne].
  - rewrite lookup_insert_eq, (decide_True (P := x ∈ x :: l)) by left. simpl. destruct (decide (x ∈ l)) as [|Hn]; [f_equal; lia|].
    f_equal. rewrite list_elem_of_In in Hn. apply (count_occ_not_In string_dec) in Hn. lia.
  - rewrite lookup_insert_ne by done. destruct (decide (x ∈ l)) as [Hx|Hx]; [by rewrite decide_True by (by right)|].
    rewrite decide_False; [done|]. intros [?|?]%elem_of_cons; congruence.
Qed.
(** [EqualIgnoreOrder] compares lists up to their order. *)
Theorem EqualIgnoreOrder_perm s1 s2 : EqualIgnoreOrder s1 s2 = true ↔ s1 ≡ₚ s2.
Proof.
  assert (∀ s x, Z.of_nat (count_occ string_dec s x) = default 0 (counts s !! x)) as Hc.
  { intros s x. unfold counts. rewrite counts_fold, lookup_empty. destruct (decide (x ∈ s)) as [|Hn]; [done|].
    rewrite list_elem_of_In in Hn. by rewrite (proj1 (count_occ_not_In string_dec _ _) Hn). }
  unfold EqualIgnoreOrder. rewrite andb_true_iff, Nat.eqb_eq, bool_decide_eq_true, (Permutation_count_occ string_dec). split.
  - intros [_ H] x. apply Nat2Z.inj. by rewrite !Hc, H.
  - intros H. pose proof (proj2 (Permutation_count_occ string_dec s1 s2) H) as Hp. split; [by apply Permutation_length|].
    apply map_eq. intros x. unfold counts. rewrite !counts_fold, !lookup_empty, H. destruct (decide (x ∈ s1)) as [Hx|Hx].
    + by rewrite decide_True by (by rewrite <- Hp).
    + by rewrite decide_False by (by rewrite <- Hp).
Qed.

(** *** Syncers *)
Section syncer_laws.
Context {MR : MapRange} (template_ok : string → SyncType → string → SyncerEndpoint → string → bool).
Abbreviation new := (new_syncer template_ok).

(** The parts of a configuration a syncer is made from. *)
Definition same_syncer (a b : Syncer) : Prop :=
  sy_Key a = sy_Key b ∧ sy_IFrame a = sy_IFrame b ∧ sy_Redirect a = sy_Redirect b ∧ sy_ExternalURL a = sy_ExternalURL b ∧ sy_FormatOverride a = sy_FormatOverride b.
#[local] Instance same_syncer_equiv : Equivalence same_syncer.
Proof. unfold same_syncer. split; red; intuition congruence. Qed.
Lemma new_syncer_same a b bidder : same_syncer a b → new a bidder = new b bidder.
Proof. intros (H1 & H2 & H3 & H4 & H5). unfold new_syncer. by rewrite H1, H2, H3, H4, H5. Qed.
Lemma Syncer_Equal_same a b : Syncer_Equal a b = true → same_syncer a b.
Proof. unfold Syncer_Equal, same_syncer. intros. go_bool. done. Qed.

Lemma chooseSyncerConfig_spec g p : chooseSyncerConfig g = Ok p →
  p ∈ g ∧ ∀ c, c ∈ g → has_endpoint c.2 = true → same_syncer p.2 c.2.
Proof.
  unfold chooseSyncerConfig. intros H. assert (∀ c, c ∈ g → has_endpoint c.2 = true → c ∈ filter (λ b, has_endpoint b.2 = true) g) as Hin.
  { intros c Hc He. by apply list_elem_of_filter. }
  destruct g as [|one [|two g]]; [done| |].
  - injection H as <-. split; [left|]. by intros c ->%list_elem_of_singleton _.
  - set (l := filter _ _) in *. assert (l `sublist_of` one :: two :: g) as Hsub by apply sublist_filter.
    destruct l as [|first rest] eqn:El; [done|]. destruct (forallb _ rest) eqn:Ef; [|done]. injection H as <-.
    assert (∀ c, c ∈ first :: rest → same_syncer first.2 c.2) as Hall.
    { intros c [->|Hc]%elem_of_cons; [done|]. rewrite forallb_forall in Ef. apply Syncer_Equal_same, Ef. by apply list_elem_of_In. }
    assert (default first (last (first :: rest)) ∈ first :: rest) as Hl.
    { destruct (last (first :: rest)) eqn:E; [|left]. apply last_Some in E as [l' ->]. simpl. set_solver. }
    split; [by eapply elem_of_sublist|]. intros c Hc He. rewrite <- (Hall _ Hl). apply Hall. by apply Hin.
Qed.

(** The groups: the bidders of a key with their configurations. *)
Lemma groups_fold l (m : gmap string (list (string * Syncer))) key x :
  x ∈ default [] (foldl (λ (m : gmap string (list (string * Syncer))) '(bidder, cfg),
           let cfg := keyed bidder cfg in <[sy_Key cfg := default [] (m !! sy_Key cfg) ++ [(bidder, cfg)]]> m) m l !! key) ↔
  x ∈ default [] (m !! key) ∨ ∃ b cfg, (b, cfg) ∈ l ∧ x = (b, keyed b cfg) ∧ sy_Key (keyed b cfg) = key.
Proof.
  revert m. induction l as [|[b cfg] l IH]; intros m; cbn [foldl]; [set_solver|]. rewrite IH. destruct (decide (sy_Key (keyed b cfg) = key)) as [<-|Hne].
  - rewrite lookup_insert_eq. simpl. rewrite elem_of_app, list_elem_of_singleton. setoid_rewrite elem_of_cons. split.
    + intros [[?| ->]|(b' & c' & ? & ? & ?)]; [by left|right; exists b, cfg; auto|right; exists b', c'; auto].
    + intros [?|(b' & c' & [[= -> ->]|?] & -> & ?)]; [auto..|right; exists b', c'; auto].
  - rewrite lookup_insert_ne by done. setoid_rewrite elem_of_cons. split.
    + intros [?|(b' & c' & ? & ? & ?)]; [by left|right; exists b', c'; auto].
    + intros [?|(b' & c' & [[= -> ->]|?] & -> & ?)]; [auto|done|right; exists b', c'; auto].
Qed.
Lemma in_group cfgs key x : x ∈ default [] (cfgBySyncerKey cfgs !! key) ↔ ∃ b cfg, cfgs !! b = Some cfg ∧ x = (b, keyed b cfg) ∧ sy_Key (keyed b cfg) = key.
Proof.
  unfold cfgBySyncerKey. rewrite groups_fold, lookup_empty. setoid_rewrite elem_of_map_range. simpl. set_solver.
Qed.

(** A run of the loops that ends without errors: what is in the map, and what had to be built. *)
Definition built (p : Syncer) (names : list string) (m m' : gmap string standardSyncer) : Prop :=
  (∀ b s, m' !! b = Some s → m !! b = Some s ∨ b ∈ names ∧ new p b = Ok s) ∧
  (∀ b, b ∈ names ∨ is_Some (m !! b) → is_Some (m' !! b)) ∧ ∀ b, b ∈ names → is_ok (new p b) = true.
Lemma build_ones_errs key p l st : ∃ more, (foldl (build_one template_ok key p) st l).2 = st.2 ++ more.
Proof.
  revert st. induction l as [|b l IH]; intros st; simpl; [exists []; by rewrite app_nil_r|].
  destruct (IH (build_one template_ok key p st b)) as [more ->]. unfold build_one. destruct (new p.2 b.1); simpl; [by eexists|]. eexists. by rewrite <- app_assoc.
Qed.
Lemma build_ones key p l m errs m' : foldl (build_one template_ok key p) (m, errs) l = (m', []) → errs = [] ∧ built p.2 l.*1 m m'.
Proof.
  revert m errs. induction l as [|b l IH]; intros m errs; simpl.
  { intros [= <- ->]. split; [done|]. split_and!; [by left|intros b [?%elem_of_nil|]; done|intros b ?%elem_of_nil; done]. }
  unfold build_one at 2. destruct (new p.2 b.1) as [s0|e] eqn:En; intros H; simpl in H.
  - destruct (IH _ _ H) as (-> & H1 & H2 & H3). split; [done|]. split_and!.
    + intros x s Hs. destruct (H1 x s Hs) as [Hx|[? ?]]; [|right; split; [by right|done]].
      destruct (decide (b.1 = x)) as [<-|Hne]; [rewrite lookup_insert_eq in Hx; simplify_eq; right; split; [left|done]|].
      rewrite lookup_insert_ne in Hx by done. by left.
    + intros x Hx. apply H2. destruct (decide (b.1 = x)) as [<-|Hne]; [right; rewrite lookup_insert_eq; by eexists|].
      rewrite lookup_insert_ne by done. destruct Hx as [[?|?]%elem_of_cons|?]; [congruence|by left|by right].
    + intros x [->|?]%elem_of_cons; [by rewrite En|by apply H3].
  - destruct (build_ones_errs key p l (m, errs ++ [E_syncer p.1 key e])) as [more Hm]. rewrite H in Hm. simpl in Hm.
    symmetry in Hm. apply app_eq_nil in Hm as [Hm _]. by destruct errs.
Qed.
Lemma build_groups_errs l st : ∃ more, (foldl (build_group template_ok) st l).2 = st.2 ++ more.
Proof.
  revert st. induction l as [|e l IH]; intros st; simpl; [exists []; by rewrite app_nil_r|].
  destruct (IH (build_group template_ok st e)) as [more ->]. unfold build_group. destruct (chooseSyncerConfig e.2) as [p|]; simpl; [|eexists; by rewrite <- app_assoc].
  destruct (build_ones_errs e.1 p e.2 st) as [more' ->]. eexists. by rewrite <- app_assoc.
Qed.
Lemma build_groups l m m' : foldl (build_group template_ok) (m, []) l = (m', []) →
  (∀ b s, m' !! b = Some s → m !! b = Some s ∨ ∃ e p, e ∈ l ∧ chooseSyncerConfig e.2 = Ok p ∧ b ∈ e.2.*1 ∧ new p.2 b = Ok s) ∧
  (∀ b, is_Some (m !! b) → is_Some (m' !! b)) ∧
  ∀ e, e ∈ l → ∃ p, chooseSyncerConfig e.2 = Ok p ∧ ∀ b, b ∈ e.2.*1 → is_ok (new p.2 b) = true ∧ is_Some (m' !! b).
Proof.
  revert m. induction l as [|e l IH]; intros m; simpl; [intros [= ->]; split_and!; [by left|done|by intros ? ?%elem_of_nil]|].
  unfold build_group at 2. destruct (chooseSyncerConfig e.2) as [p|err] eqn:Ec; simpl.
  - destruct (foldl (build_one template_ok e.1 p) (m, []) e.2) as [m1 e1] eqn:E1. intros H.
    assert (e1 = []) as -> by (destruct (build_groups_errs l (m1, e1)) as [more Hm]; rewrite H in Hm; simpl in Hm; symmetry in Hm; by apply app_eq_nil in Hm as [? _]).
    destruct (build_ones _ _ _ _ _ _ E1) as (_ & B1 & B2 & B3). destruct (IH _ H) as (I1 & I2 & I3). split_and!.
    + intros b s Hs. destruct (I1 b s Hs) as [Hb|(e' & p' & ? & ?)]; [|right; exists e', p'; split; [by right|done]].
      destruct (B1 b s Hb) as [?|[? ?]]; [by left|]. right. exists e, p. split; [left|done].
    + intros b Hb. apply I2, B2. by right.
    + intros e' [->|He']%elem_of_cons; [|by apply I3]. exists p. split; [done|]. intros b Hb. split; [by apply B3|]. apply I2, B2. by left.
  - intros H. destruct (build_groups_errs l (m, [E_choose err])) as [more Hm]. rewrite H in Hm. done.
Qed.

(** When the syncers are built, in whatever order, every bidder that is to have one has the one made
    from the configuration of any bidder of its key that defines endpoints, and no other bidder has
    one. *)
Theorem syncers_by_key infos syncers : BuildSyncers template_ok infos = Ok syncers →
  (∀ b, is_Some (syncers !! b) ↔ is_Some (cfgByBidder infos !! b)) ∧
  ∀ b cfg d dcfg, cfgByBidder infos !! b = Some cfg → cfgByBidder infos !! d = Some dcfg → sy_Key (keyed d dcfg) = sy_Key (keyed b cfg) →
    has_endpoint dcfg = true → ∃ s, syncers !! b = Some s ∧ new (keyed d dcfg) b = Ok s.
Proof.
  unfold BuildSyncers. destruct (foldl (build_group template_ok) (∅, []) _) as [m errs] eqn:E. destruct errs; [|done]. intros [= <-].
  destruct (build_groups _ _ _ E) as (H1 & _ & H3). clear E.
  assert (∀ e, e ∈ map_range (cfgBySyncerKey (cfgByBidder infos)) ↔ cfgBySyncerKey (cfgByBidder infos) !! e.1 = Some e.2) as Hr by (intros []; apply elem_of_map_range).
  assert (∀ b cfg, cfgByBidder infos !! b = Some cfg → ∃ g, cfgBySyncerKey (cfgByBidder infos) !! sy_Key (keyed b cfg) = Some g ∧ (b, keyed b cfg) ∈ g) as Hg.
  { intros b cfg Hb. assert ((b, keyed b cfg) ∈ default [] (cfgBySyncerKey (cfgByBidder infos) !! sy_Key (keyed b cfg))) as Hi by (apply in_group; by exists b, cfg).
    destruct (cfgBySyncerKey _ !! _) as [g|]; [by exists g|by apply elem_of_nil in Hi]. }
  assert (∀ k g x, cfgBySyncerKey (cfgByBidder infos) !! k = Some g → x ∈ g → ∃ b cfg, cfgByBidder infos !! b = Some cfg ∧ x = (b, keyed b cfg) ∧ sy_Key (keyed b cfg) = k) as Hin.
  { intros k g x Hk Hx. apply in_group. by rewrite Hk. }
  assert (∀ b cfg, cfgByBidder infos !! b = Some cfg → is_Some (m !! b)) as Hsome.
  { intros b cfg Hb. destruct (Hg b cfg Hb) as (g & Hgk & Hbg). destruct (H3 (sy_Key (keyed b cfg), g)) as (p & _ & Hp); [by apply Hr|].
    apply Hp. apply list_elem_of_fmap. by exists (b, keyed b cfg). }
  split.
  - intros b. split; [intros [s Hs]|intros [cfg Hb]; by eapply Hsome]. destruct (H1 b s Hs) as [Hx|([k g] & p & He & _ & Hb & _)]; [by rewrite lookup_empty in Hx|].
    apply Hr in He. apply list_elem_of_fmap in Hb as (x & -> & Hx). destruct (Hin _ _ _ He Hx) as (b' & cfg & ? & -> & _). by eexists.
  - intros b cfg d dcfg Hb Hd Hk Hend. destruct (Hsome b cfg Hb) as [s Hs]. exists s. split; [done|].
    destruct (H1 b s Hs) as [Hx|([k g] & p & He & Hc & Hbg & Hn)]; [by rewrite lookup_empty in Hx|]. apply Hr in He. simpl in *.
    apply list_elem_of_fmap in Hbg as (x & Hbx & Hx). destruct (Hin _ _ _ He Hx) as (b' & cfg' & Hb' & -> & Hk'). simpl in Hbx. subst b'. simplify_eq.
    destruct (Hg d dcfg Hd) as (g' & Hg' & Hdg). rewrite Hk in Hg'. simplify_eq.
    rewrite <- Hn. symmetry. apply new_syncer_same. apply (proj2 (chooseSyncerConfig_spec _ _ Hc) _ Hdg). simpl. unfold keyed, has_endpoint in *. by destruct (sy_Key dcfg =s? "").
Qed.
End syncer_laws.

(** ** A run *)
Definition plain_syncer : Syncer := {| sy_Key := "k"; sy_Supports := ["iframe"]; sy_IFrame := Some {| sp_URL := "u"; sp_RedirectURL := ""; sp_ExternalURL := ""; sp_UserMacro := "" |};
  sy_Redirect := None; sy_ExternalURL := ""; sy_FormatOverride := ""; sy_Enabled := None; sy_SkipWhen := None |}.
Definition site_only : CapabilitiesInfo := {| cp_App := None; cp_Site := Some {| pf_MediaTypes := ["banner"; "video"] |}; cp_DOOH := None |}.
Definition info_of (aliasOf endpoint : string) (caps : option CapabilitiesInfo) (gvl : Z) (s : option Syncer) : BidderInfoFile := {|
  bf_AliasOf := aliasOf; bf_WhiteLabelOnly := false; bf_Disabled := false; bf_Endpoint := endpoint; bf_ExtraAdapterInfo := ""; bf_OpenRTB := None;
  bf_Maintainer := Some "a@b.c"; bf_Capabilities := caps; bf_ModifyingVastXmlAllowed := false; bf_Debug := None; bf_Geoscope := ["EEA"; "!USA"]; bf_GVLVendorID := gvl;
  bf_Syncer := s; bf_AdsCert := false; bf_XAPI := {| xa_Username := ""; xa_Password := ""; xa_Tracker := "" |}; bf_PlatformID := ""; bf_AppSecret := ""; bf_EndpointCompression := "" |}.
Definition two_infos : BidderInfos := {[ "parent" := info_of "" "https://p" (Some site_only) 7 (Some plain_syncer); "child" := info_of "parent" "" None 0 None ]}.
Definition no_fields : aliasNillableFields := {| an_Disabled := None; an_ModifyingVastXmlAllowed := None; an_Experiment := None; an_XAPI := None |}.
Definition child_alias : gmap string aliasNillableFields := {[ "child" := no_fields ]}.

Lemma aliases_resolved_witness : let MR := canonical_range in
  ∃ res, processBidderAliases child_alias two_infos = Ok res ∧ res !! "child" = resolved child_alias two_infos "child" ∧ (bf_GVLVendorID <$> res !! "child") = Some 0.
Proof.
  intros MR. pose proof (@aliases_resolved MR child_alias two_infos) as H. assert (∀ name n, child_alias !! name = Some n → ∃ info, two_infos !! name = Some info ∧ bf_AliasOf info ≠ "") as Hl.
  { intros name n Hn. unfold child_alias in Hn. apply lookup_singleton_Some in Hn as [<- _]. eexists. split; [reflexivity|discriminate]. }
  specialize (H Hl). destruct (processBidderAliases child_alias two_infos) as [res|e] eqn:E; [|vm_compute in E; discriminate E].
  destruct H as (_ & Hr & Hg). exists res. split; [reflexivity|]. split; [apply Hr|]. exact (Hg "child" _ eq_refl).
Defined.
Example alias_shares_syncer : let MR := canonical_range in
  match processBidderAliases child_alias two_infos with
  | Ok res => validate_infos (λ _ _, []) res = [] ∧ (λ i, (bf_Endpoint i, sy_Key <$> bf_Syncer i)) <$> res !! "child" = Some ("https://p", Some "k") ∧
              match BuildSyncers (λ _ _ _ _ _, true) res with Ok m => s_key <$> m !! "child" = Some "k" | Err _ => False end
  | Err _ => False
  end.
Proof. vm_compute. done. Qed.
Lemma syncers_by_key_witness : let MR := canonical_range in
  ∃ syncers s, BuildSyncers (λ _ _ _ _ _, true) (<["child" := info_of "" "https://c" (Some site_only) 0 (Some (empty_syncer "k"))]> two_infos) = Ok syncers ∧
    syncers !! "child" = Some s ∧ new_syncer (λ _ _ _ _ _, true) plain_syncer "child" = Ok s.
Proof.
  intros MR. set (infos := <["child" := _]> two_infos). destruct (BuildSyncers (λ _ _ _ _ _, true) infos) as [syncers|e] eqn:E; [|vm_compute in E; discriminate E].
  destruct (@syncers_by_key MR (λ _ _ _ _ _, true) infos syncers E) as [_ H].
  destruct (H "child" (empty_syncer "k") "parent" plain_syncer) as (s & Hs & Hn); [vm_compute; reflexivity..|]. exists syncers, s. split; [reflexivity|]. split; [exact Hs|exact Hn].
Defined.

(** * Requests within a bidder's capabilities
    Every bidder is wrapped: a request from a platform the bidder does not support never reaches it,
    and of the impressions only the media types it supports are left, one per impression for a bidder
    that takes no more.  The wrapped bidder is an argument. *)
Record mImp := { mi_ID : string; mi_Banner : option string; mi_Video : option string; mi_Audio : option string; mi_Native : option string; mi_rest : string }.
Record parsedSupports := { ps_enabled : bool; ps_banner : bool; ps_video : bool; ps_audio : bool; ps_native : bool }.
Record parsedBidderInfo := { pb_app : parsedSupports; pb_site : parsedSupports; pb_dooh : parsedSupports; pb_multiformat : bool }.

Definition no_supports : parsedSupports := {| ps_enabled := false; ps_banner := false; ps_video := false; ps_audio := false; ps_native := false |}.
Definition parseAllowedTypes (allowedTypes : list string) : parsedSupports := {|
  ps_enabled := true; ps_banner := existsb (String.eqb "banner") allowedTypes; ps_video := existsb (String.eqb "video") allowedTypes;
  ps_audio := existsb (String.eqb "audio") allowedTypes; ps_native := existsb (String.eqb "native") allowedTypes |}.
Definition platform_supports (p : option PlatformInfo) : parsedSupports := from_option (λ p, parseAllowedTypes (pf_MediaTypes p)) no_supports p.
Definition IsMultiFormatSupported (info : BidderInfoFile) : bool := default true (o ← bf_OpenRTB info; or_MultiformatSupported o).
Definition parseBidderInfo (info : BidderInfoFile) : parsedBidderInfo :=
  match bf_Capabilities info with
  | None => {| pb_app := no_supports; pb_site := no_supports; pb_dooh := no_supports; pb_multiformat := false |}
  | Some c => {| pb_app := platform_supports (cp_App c); pb_site := platform_supports (cp_Site c); pb_dooh := platform_supports (cp_DOOH c);
                 pb_multiformat := IsMultiFormatSupported info |}
  end.

Definition countNumberOfFormats (imp : mImp) : nat :=
  (if mi_Banner imp then 1 else 0) + (if mi_Video imp then 1 else 0) + (if mi_Audio imp then 1 else 0) + (if mi_Native imp then 1 else 0).

(** ** One impression *)
Definition unsupported (i : nat) (name : string) (allowed : bool) (m : option string) : option string * list go_error :=
  match m with
  | Some x => if allowed then (Some x, [])
              else (None, [Warning ("request.imp[" +:+ pretty i +:+ "] uses " +:+ name +:+ ", but this bidder doesn't support it") 0])
  | None => (None, [])
  end.
Definition prune_types (i : nat) (a : parsedSupports) (imp : mImp) : mImp * list go_error :=
  let '(b, e1) := unsupported i "banner" (ps_banner a) (mi_Banner imp) in
  let '(v, e2) := unsupported i "video" (ps_video a) (mi_Video imp) in
  let '(u, e3) := unsupported i "audio" (ps_audio a) (mi_Audio imp) in
  let '(n, e4) := unsupported i "native" (ps_native a) (mi_Native imp) in
  ({| mi_ID := mi_ID imp; mi_Banner := b; mi_Video := v; mi_Audio := u; mi_Native := n; mi_rest := mi_rest imp |}, e1 ++ e2 ++ e3 ++ e4).

Definition removed (imp : mImp) (name : string) (m : option string) : list go_error :=
  match m with Some _ => [Warning ("Imp " +:+ mi_ID imp +:+ " uses " +:+ name +:+ ", removing " +:+ name +:+ " as the bidder doesn't support multi-format") 0] | None => [] end.
Definition not_preferred (imp : mImp) (name : string) : go_error := BadInput ("Imp " +:+ mi_ID imp +:+ " does not have a preferred " +:+ name +:+ " media type. It will be ignored.").
(** The impression with the preferred type alone and the warnings, or the error for which it is dropped. *)
Definition adjustImpForPreferredMediaType (imp : mImp) (preferred : string) : result go_error (mImp * list go_error) :=
  let only b v u n := {| mi_ID := mi_ID imp; mi_Banner := b; mi_Video := v; mi_Audio := u; mi_Native := n; mi_rest := mi_rest imp |} in
  let rb := removed imp "banner" (mi_Banner imp) in let rv := removed imp "video" (mi_Video imp) in
  let ru := removed imp "audio" (mi_Audio imp) in let rn := removed imp "native" (mi_Native imp) in
  if preferred =s? "banner" then (if mi_Banner imp then Ok (only (mi_Banner imp) None None None, rv ++ ru ++ rn) else Err (not_preferred imp "BANNER"))
  else if preferred =s? "video" then (if mi_Video imp then Ok (only None (mi_Video imp) None None, rb ++ ru ++ rn) else Err (not_preferred imp "VIDEO"))
  else if preferred =s? "audio" then (if mi_Audio imp then Ok (only None None (mi_Audio imp) None, rb ++ rv ++ rn) else Err (not_preferred imp "AUDIO"))
  else if preferred =s? "native" then (if mi_Native imp then Ok (only None None None (mi_Native imp), rb ++ rv ++ ru) else Err (not_preferred imp "NATIVE"))
  else if preferred =s? "" then Err (BadInput ("Removing the imp " +:+ mi_ID imp +:+ " as the bidder does not support multi-format and preferred media type is not defined for the bidder"))
  else Err (BadInput ("Imp " +:+ mi_ID imp +:+ " has an invalid preferred media type: " +:+ preferred +:+ ". It will be ignored.")).

Definition prune_imp (i : nat) (a : parsedSupports) (multiformat : bool) (preferred : string) (imp : mImp) : option mImp * list go_error :=
  let '(imp, errs) := prune_types i a imp in
  let n := countNumberOfFormats imp in
  if (n =? 0)%nat then (None, errs ++ [BadInput ("request.imp[" +:+ pretty i +:+ "] has no supported MediaTypes. It will be ignored")])
  else if negb multiformat && (1 <? n)%nat then
    match adjustImpForPreferredMediaType imp preferred with
    | Err e => (None, errs ++ [e])
    | Ok (imp, more) => (Some imp, errs ++ more)
    end
  else (Some imp, errs).
(** The loop moves the impressions that stay to the front of the slice; [updated] says that one was
    dropped. *)
Fixpoint pruneImps (i : nat) (imps : list mImp) (a : parsedSupports) (multiformat : bool) (preferred : string) : bool * list mImp * list go_error :=
  match imps with
  | [] => (false, [], [])
  | imp :: rest =>
      let '(kept, errs) := prune_imp i a multiformat preferred imp in
      let '(updated, more, errs') := pruneImps (S i) rest a multiformat preferred in
      match kept with
      | Some imp => (updated, imp :: more, errs ++ errs')
      | None => (true, more, errs ++ errs')
      end
  end.

(** ** The wrapper *)
Section bidder.
Context {R : Type} (delegate : list mImp → R * list go_error).
Record inventory := { iv_site : bool; iv_app : bool; iv_dooh : bool }.

(** The platform's media types, or the platform that is not supported; of several platforms the
    last decides. *)
Definition allowedMediaTypes (info : parsedBidderInfo) (v : inventory) : result go_error parsedSupports :=
  if iv_site v && negb (ps_enabled (pb_site info)) then Err (Warning "this bidder does not support site requests" 0)
  else if iv_app v && negb (ps_enabled (pb_app info)) then Err (Warning "this bidder does not support app requests" 0)
  else if iv_dooh v && negb (ps_enabled (pb_dooh info)) then Err (Warning "this bidder does not support dooh requests" 0)
  else Ok (if iv_dooh v then pb_dooh info else if iv_app v then pb_app info else if iv_site v then pb_site info else no_supports).
(** [None] when the bidder is not called. *)
Definition MakeRequests (info : BidderInfoFile) (v : inventory) (preferred : string) (imps : list mImp) : option (R * list mImp) * list go_error :=
  let parsed := parseBidderInfo info in
  match allowedMediaTypes parsed v with
  | Err e => (None, [e])
  | Ok a =>
      let '(updated, kept, errs) := pruneImps 0 imps a (pb_multiformat parsed) preferred in
      match kept with
      | [] => (None, errs ++ [Warning "Bid request didn't contain media types supported by the bidder" 0])
      | _ => let '(reqs, delegateErrs) := delegate kept in (Some (reqs, kept), errs ++ delegateErrs)
      end
  end.
End bidder.

(** ** Correctness *)
Definition formats (imp : mImp) : list string :=
  (if mi_Banner imp then ["banner"] else []) ++ (if mi_Video imp then ["video"] else []) ++ (if mi_Audio imp then ["audio"] else []) ++ (if mi_Native imp then ["native"] else []).
Lemma count_formats imp : countNumberOfFormats imp = length (formats imp).
Proof. unfold countNumberOfFormats, formats. by destruct (mi_Banner imp), (mi_Video imp), (mi_Audio imp), (mi_Native imp). Qed.
(** The media types of [a] as a list. *)
Definition allowed (a : parsedSupports) (m : string) : Prop :=
  m = "banner" ∧ ps_banner a = true ∨ m = "video" ∧ ps_video a = true ∨ m = "audio" ∧ ps_audio a = true ∨ m = "native" ∧ ps_native a = true.

Lemma prune_types_formats i a imp : let imp' := (prune_types i a imp).1 in mi_ID imp' = mi_ID imp ∧ ∀ m, m ∈ formats imp' ↔ m ∈ formats imp ∧ allowed a m.
Proof.
  unfold prune_types, unsupported, formats, allowed. destruct (mi_Banner imp), (mi_Video imp), (mi_Audio imp), (mi_Native imp);
    destruct (ps_banner a), (ps_video a), (ps_audio a), (ps_native a); simpl; (split; [done|]); intros m;
    repeat setoid_rewrite elem_of_cons; setoid_rewrite elem_of_nil; intuition (subst; discriminate).
Qed.

Lemma adjust_single imp preferred imp' e : adjustImpForPreferredMediaType imp preferred = Ok (imp', e) →
  mi_ID imp' = mi_ID imp ∧ formats imp' = [preferred] ∧ preferred ∈ formats imp.
Proof.
  unfold adjustImpForPreferredMediaType. intros H. repeat (go_destruct_in H; simplify_eq/=); go_bool; subst; unfold formats; simpl; split_and!; try done;
    repeat match goal with E : _ = Some _ |- _ => rewrite E end; set_solver.
Qed.
Lemma adjust_refuses imp preferred e : adjustImpForPreferredMediaType imp preferred = Err e → preferred ∉ formats imp.
Proof.
  unfold adjustImpForPreferredMediaType, formats. destruct (preferred =s? "banner") eqn:E1; [go_bool; subst; destruct (mi_Banner imp), (mi_Video imp), (mi_Audio imp), (mi_Native imp); try done; set_solver|].
  destruct (preferred =s? "video") eqn:E2; [go_bool; subst; destruct (mi_Banner imp), (mi_Video imp), (mi_Audio imp), (mi_Native imp); try done; set_solver|].
  destruct (preferred =s? "audio") eqn:E3; [go_bool; subst; destruct (mi_Banner imp), (mi_Video imp), (mi_Audio imp), (mi_Native imp); try done; set_solver|].
  destruct (preferred =s? "native") eqn:E4; [go_bool; subst; destruct (mi_Banner imp), (mi_Video imp), (mi_Audio imp), (mi_Native imp); try done; set_solver|].
  go_bool. intros _. destruct (mi_Banner imp), (mi_Video imp), (mi_Audio imp), (mi_Native imp); set_solver.
Qed.

(** What becomes of an impression: the supported types, cut down to the preferred one where only one is
    taken. *)
Definition kept_as (a : parsedSupports) (multiformat : bool) (preferred : string) (imp imp' : mImp) : Prop :=
  mi_ID imp' = mi_ID imp ∧ formats imp' ≠ [] ∧ (∀ m, m ∈ formats imp' → m ∈ formats imp ∧ allowed a m) ∧
  if multiformat then ∀ m, m ∈ formats imp → allowed a m → m ∈ formats imp' else length (formats imp') = 1%nat.
Definition dropped (a : parsedSupports) (multiformat : bool) (preferred : string) (imp : mImp) : Prop :=
  (∀ m, m ∈ formats imp → ¬ allowed a m) ∨ multiformat = false ∧ ¬ (preferred ∈ formats imp ∧ allowed a preferred).

Lemma prune_imp_spec i a multiformat preferred imp :
  match (prune_imp i a multiformat preferred imp).1 with
  | Some imp' => kept_as a multiformat preferred imp imp'
  | None => dropped a multiformat preferred imp ∧ (prune_imp i a multiformat preferred imp).2 ≠ []
  end.
Proof.
  unfold prune_imp. pose proof (prune_types_formats i a imp) as [Hid Hf]. destruct (prune_types i a imp) as [imp1 errs]. simpl in Hid, Hf.
  rewrite count_formats. destruct (length (formats imp1) =? 0)%nat eqn:E0.
  { apply Nat.eqb_eq, nil_length_inv in E0. simpl. split; [|by destruct errs]. left. intros m Hm Ha.
    assert (m ∈ formats imp1) as H by (by apply Hf). rewrite E0 in H. by apply elem_of_nil in H. }
  apply Nat.eqb_neq in E0. assert (formats imp1 ≠ []) as Hne by (intros H; by rewrite H in E0).
  destruct (negb multiformat && (1 <? length (formats imp1))%nat) eqn:E1.
  - apply andb_true_iff in E1 as [Hm _]. destruct multiformat; [done|]. destruct (adjustImpForPreferredMediaType imp1 preferred) as [[imp2 more]|e] eqn:Ea; simpl.
    + apply adjust_single in Ea as (Hid2 & Hf2 & Hin). split_and!; [congruence|by rewrite Hf2| |by rewrite Hf2].
      intros m. rewrite Hf2. intros ->%list_elem_of_singleton. by apply Hf.
    + apply adjust_refuses in Ea. split; [|by destruct errs]. right. split; [done|]. by rewrite <- Hf.
  - simpl. split_and!; [done|done|by apply Hf|]. destruct multiformat; [intros; by apply Hf|]. simpl in E1. apply Nat.ltb_ge in E1. lia.
Qed.

(** The impressions that stay, in order: each is [kept_as] one of the request, and what is missing was
    [dropped]. *)
Inductive pruned (a : parsedSupports) (multiformat : bool) (preferred : string) : list mImp → list mImp → Prop :=
| pruned_nil : pruned a multiformat preferred [] []
| pruned_keep imp imp' l l' : kept_as a multiformat preferred imp imp' → pruned a multiformat preferred l l' → pruned a multiformat preferred (imp :: l) (imp' :: l')
| pruned_drop imp l l' : dropped a multiformat preferred imp → pruned a multiformat preferred l l' → pruned a multiformat preferred (imp :: l) l'.
Lemma pruneImps_pruned i imps a multiformat preferred : pruned a multiformat preferred imps (pruneImps i imps a multiformat preferred).1.2.
Proof.
  revert i. induction imps as [|imp imps IH]; intros i; simpl; [constructor|]. pose proof (prune_imp_spec i a multiformat preferred imp) as H.
  specialize (IH (S i)). destruct (prune_imp i a multiformat preferred imp) as [[imp'|] errs]; destruct (pruneImps (S i) imps a multiformat preferred) as [[u more] errs']; simpl in *.
  - by constructor.
  - apply pruned_drop; tauto.
Qed.
Lemma pruned_kept a multiformat preferred l l' : pruned a multiformat preferred l l' → Forall (λ imp', ∃ imp, imp ∈ l ∧ kept_as a multiformat preferred imp imp') l'.
Proof.
  induction 1 as [|imp imp' l l' Hk Hp IH|imp l l' Hd Hp IH]; [constructor| |].
  - constructor; [exists imp; split; [left|done]|]. eapply Forall_impl; [exact IH|]. intros x (y & ? & ?). exists y. split; [by right|done].
  - eapply Forall_impl; [exact IH|]. intros x (y & ? & ?). exists y. split; [by right|done].
Qed.

Lemma allowed_platform p m : allowed (platform_supports p) m ↔ m ∈ known_media ∧ ∃ q, p = Some q ∧ m ∈ pf_MediaTypes q.
Proof.
  assert (∀ x l, existsb (String.eqb x) l = true ↔ x ∈ l) as Hex.
  { intros x l. rewrite existsb_exists, list_elem_of_In. split; [by intros (y & ? & ->%String.eqb_eq)|]. intros. exists x. split; [done|apply String.eqb_refl]. }
  unfold allowed, known_media. destruct p as [q|]; cbn [platform_supports from_option parseAllowedTypes no_supports ps_banner ps_video ps_audio ps_native].
  - rewrite !Hex. split.
    + intros [[-> ?]|[[-> ?]|[[-> ?]|[-> ?]]]]; (split; [set_solver|exists q; done]).
    + intros [Hm (q' & [= <-] & Hq)]. rewrite !elem_of_cons, elem_of_nil in Hm. destruct Hm as [->|[->|[->|[->|[]]]]]; tauto.
  - split; [intuition done|]. by intros [_ (? & [=] & _)].
Qed.

Section bidder_laws.
Context {R : Type} (delegate : list mImp → R * list go_error).
(** The platform of a request: of several the last of site, app and digital out of home. *)
Definition platform_of (c : CapabilitiesInfo) (v : inventory) : option PlatformInfo :=
  if iv_dooh v then cp_DOOH c else if iv_app v then cp_App c else if iv_site v then cp_Site c else None.

(** What the bidder is called with: the impressions of the request that have a media type its info
    declares for the platform, in order, without the types it does not declare, and with one type
    each where it takes no more. *)
Theorem bidder_called_within_capabilities info v preferred imps reqs kept errs :
  MakeRequests delegate info v preferred imps = (Some (reqs, kept), errs) →
  ∃ c p, bf_Capabilities info = Some c ∧ platform_of c v = Some p ∧ kept ≠ [] ∧
    pruned (platform_supports (Some p)) (IsMultiFormatSupported info) preferred imps kept ∧
    Forall (λ imp, formats imp ≠ [] ∧ ∀ m, m ∈ formats imp → m ∈ pf_MediaTypes p) kept.
Proof.
  unfold MakeRequests. destruct (allowedMediaTypes (parseBidderInfo info) v) as [a|] eqn:Ea; [|done].
  pose proof (pruneImps_pruned 0 imps a (pb_multiformat (parseBidderInfo info)) preferred) as Hp.
  destruct (pruneImps 0 imps a _ preferred) as [[u k] es] eqn:Ek. simpl in Hp. destruct k as [|imp k]; [done|].
  destruct (delegate (imp :: k)) as [rq de]. intros [= <- <- <-].
  assert (∃ m, allowed a m) as [m0 Hm0].
  { pose proof (pruned_kept _ _ _ _ _ Hp) as Hall. apply Forall_cons in Hall as [(x & _ & _ & Hne & Hal & _) _].
    destruct (formats imp) as [|m l] eqn:Ef; [done|]. exists m. apply Hal. left. }
  unfold allowedMediaTypes, parseBidderInfo in *. destruct (bf_Capabilities info) as [c|] eqn:Ec; simpl in *.
  - destruct (iv_site v && _) eqn:E1; [done|]. destruct (iv_app v && _) eqn:E2; [done|]. destruct (iv_dooh v && _) eqn:E3; [done|]. injection Ea as <-.
    assert (∃ p, platform_of c v = Some p ∧ (if iv_dooh v then platform_supports (cp_DOOH c) else if iv_app v then platform_supports (cp_App c)
      else if iv_site v then platform_supports (cp_Site c) else no_supports) = platform_supports (Some p)) as (p & Hpl & Heq).
    { unfold platform_of. destruct (iv_dooh v), (iv_app v), (iv_site v); simpl in *;
        try (destruct (cp_DOOH c) as [p|]; [by exists p|done]); try (destruct (cp_App c) as [p|]; [by exists p|done]); try (destruct (cp_Site c) as [p|]; [by exists p|done]).
      exfalso. unfold allowed in Hm0. simpl in Hm0. intuition done. }
    rewrite Heq in Hp. exists c, p. split_and!; try done. eapply Forall_impl; [exact (pruned_kept _ _ _ _ _ Hp)|]. intros x (y & _ & _ & Hne & Hal & _). split; [done|].
    intros m Hm. destruct (Hal m Hm) as [_ Ha]. by apply allowed_platform in Ha as (_ & q & [= <-] & ?).
  - repeat (destruct (_ && _); [done|]). injection Ea as <-. exfalso. unfold allowed in Hm0. destruct (iv_dooh v), (iv_app v), (iv_site v); simpl in Hm0; intuition done.
Qed.
End bidder_laws.

(** ** A run *)
Definition three_imps : list mImp :=
  [{| mi_ID := "1"; mi_Banner := Some "b"; mi_Video := None; mi_Audio := Some "a"; mi_Native := None; mi_rest := "" |};
   {| mi_ID := "2"; mi_Banner := None; mi_Video := None; mi_Audio := Some "a"; mi_Native := None; mi_rest := "" |};
   {| mi_ID := "3"; mi_Banner := Some "b"; mi_Video := Some "v"; mi_Audio := None; mi_Native := None; mi_rest := "" |}].
Definition site_request : inventory := {| iv_site := true; iv_app := false; iv_dooh := false |}.
Definition call_parent : option (unit * list mImp) * list go_error := MakeRequests (λ _, ((), [])) (info_of "" "https://p" (Some site_only) 7 None) site_request "video" three_imps.
Example parent_called : (λ r, map (λ i, (mi_ID i, formats i)) r.2) <$> call_parent.1 = Some [("1", ["banner"]); ("3", ["banner"; "video"])] ∧ length call_parent.2 = 3%nat.
Proof. vm_compute. done. Qed.
Lemma bidder_called_witness : ∃ reqs kept errs, call_parent = (Some (reqs, kept), errs) ∧ Forall (λ imp, formats imp ≠ [] ∧ ∀ m, m ∈ formats imp → m ∈ ["banner"; "video"]) kept.
Proof.
  destruct call_parent as [[[reqs kept]|] errs] eqn:E; [|vm_compute in E; discriminate E]. exists reqs, kept, errs. split; [reflexivity|].
  destruct (bidder_called_within_capabilities (λ _, ((), [])) (info_of "" "https://p" (Some site_only) 7 None) site_request "video" three_imps reqs kept errs E)
    as (c & p & Hc & Hp & _ & _ & Hall).
  injection Hc as <-. injection Hp as <-. exact Hall.
Defined.
